(* ===== verification/_CoqProject ===== *)
-Q . S2P
Prelude.v
ScreenAuthority.v
DecoderRecovery.v
StartupRecovery.v
DisplayStartup.v
ClipboardLifecycle.v
DisplayControl.v
LoginFailure.v
HelperRetry.v
VideoQueue.v
QuicAdmission.v
PeerSecurity.v
PresentationClock.v
Floats.v
MovieCadence.v
ViewerNetwork.v
VideoQos.v
VideoQosTheory.v
VideoDelivery.v
ClipboardTypes.v
FileDescriptor.v
FileList.v
ServFiles.v
FuseTree.v
ClipboardMessages.v
RemoteFiles.v
Subscriptions.v
CaptureServer.v
VideoStream.v
FramePacing.v
TerminalBuffer.v
Terminal.v
SessionPermissions.v
InputGate.v
HostLogin.v
HostExamples.v
Fingerprint.v
SignedIdentity.v
PeerTrust.v
LanDiscovery.v
PeerHandshake.v
HandshakeTheory.v
HostHandshake.v
HandshakeAgreement.v
VideoFeedback.v
ViewerPlayback.v
PlaybackTheory.v
PlaybackSteps.v
ViewerFps.v
PcmAudio.v
ViewerAudio.v
AudioTheory.v
CodecChoice.v
CodecTheory.v
CodecSessions.v
ViewerDecoder.v
CodecProbe.v
FrameReads.v
ClipboardFormats.v
ClipboardWire.v
DesktopClipboard.v
ClipboardTheory.v
ClipboardListener.v
SocketDirectory.v
LocalSockets.v
HelperMemory.v
PortableService.v
