(* ===== verification/Prelude.v ===== *)
(** * RustAdmin: verification library

    RustAdmin is a remote desktop program.  One executable plays both sides: the
    _host_ (the controlled machine) captures its displays, encodes them and
    serves files, terminals and the clipboard; the _viewer_ (the controlling
    machine) decodes and shows them.  The two exchange protobuf messages over one
    connection.  This library models the parts of the program that keep state of
    their own and decide something, and proves what makes them correct.  Paths
    below are relative to src/, the root of the repository.

    ** The program's parts and the files that model them

    - Foundations:
      - this file: record update, saturating arithmetic, the lemmas on lists,
        options and finite maps the other files share, and their automation;
      - Floats.v: Rust's [f32] and [f64] as IEEE 754 binary floating point.

    - The viewer's session (src/client/, src/client.rs, libs/scrap/):
      - ScreenAuthority.v (src/client/screen_authority.rs): which connection
        runtime may render screen content;
      - DecoderRecovery.v (src/client/decoder_recovery.rs): when a decoder is
        reset, when it asks for a keyframe, which frames it accepts meanwhile;
      - StartupRecovery.v (src/client/startup_recovery.rs): the budget of requests
        of a display that has not produced a frame;
      - DisplayStartup.v (src/client/io_loop.rs, src/client.rs): the displays a
        viewer wants and the startup state of each, over a store of the cells
        shared with the render threads; uses StartupRecovery;
      - DisplayControl.v (src/client/display_control.rs and the part of io_loop.rs
        that drives it): the commands that bring the peer to the wanted displays;
      - ClipboardLifecycle.v (src/client/clipboard_lifecycle.rs): the channels a
        local clipboard change goes to;
      - PresentationClock.v (libs/scrap/src/common/video_presentation_clock.rs):
        when a decoded frame is shown;
      - VideoFeedback.v (src/client.rs): what the viewer reports of its playback,
        and the ages and waits of its movie mode;
      - ViewerPlayback.v (src/client.rs, src/client/io_loop.rs): the way of a frame
        from its arrival to the decoder, through the queue and the worker of its
        display; on DecoderRecovery and VideoFeedback; PlaybackTheory.v: what it
        guarantees and where it does not; PlaybackSteps.v: the two threads of a
        display action by action, in any interleaving;
      - ViewerFps.v (src/client/io_loop.rs): the frame rate the viewer asks for; on
        the threads of ViewerPlayback;
      - ViewerAudio.v, AudioTheory.v (src/client.rs): received sound, from the
        backlog to the callback of the device.

    - Codecs (libs/scrap/src/common/codec.rs, hwcodec.rs), in a Linux build with
      hwcodec:
      - CodecChoice.v (with src/server/video_service.rs, connection.rs): what
        viewers decode and the host encodes, the vote on a codec, and the encoder of
        a service; CodecTheory.v: what that guarantees and where it does not;
      - CodecSessions.v (src/server/connection.rs): the connections that take part,
        on the types of SessionPermissions;
      - ViewerDecoder.v: the backends of the viewer's decoder, an instance of the
        interface of ViewerPlayback;
      - CodecProbe.v: the probe of the codecs of a machine, as steps of threads;
      - FrameReads.v: the checks before a decoded frame is read.

    - The host's sound: PcmAudio.v (libs/scrap/src/common/pcm.rs, src/server/
      audio_service.rs): captured samples on their way to the encoder.

    - The host's video path (src/server/), from the capture loop to the
      transport:
      - VideoStream.v (video_service.rs): the frames of a service, failing
        encoders, reference frames; hands frames to
      - Subscriptions.v (service.rs): who is subscribed to a service and who waits
        for a keyframe; used by
      - CaptureServer.v (server.rs, connection.rs): the services of the host and
        the requests of a viewer for displays; enables the tracks of
      - VideoQueue.v (video_queue.rs): the queue between the encoders and one
        connection;
      - FramePacing.v (video_service.rs): deadlines of the film mode, the wait for
        the viewers to fetch a frame, and the duration samples;
      - VideoDelivery.v (connection.rs): the recovery of the delivery to a viewer,
        from its feedback;
      - ViewerNetwork.v, VideoQos.v, VideoQosTheory.v (video_qos.rs): the network
        estimates of each viewer, and the frame rates and bitrate ratios of the
        encoders; on Floats;
      - MovieCadence.v (video_qos.rs, video_service.rs): the frame rate of movies.

    - Sessions of the host (src/server/connection.rs), in a Linux build:
      - LoginFailure.v (src/server/login_failure_check.rs, connection.rs): what
        failed logins cost;
      - SessionPermissions.v (with src/server/input_authorization.rs, src/
        clipboard.rs): what a session may do, the grants of the local user, and
        the messages that need a permission; subscribes in CaptureServer;
      - InputGate.v: what that means for the input of a viewer;
      - HostLogin.v: how a connection becomes authorized; composes LoginFailure,
        SessionPermissions and CaptureServer into a host with any number of
        connections ([host_step]);
      - HostExamples.v: runs of that host, with the parameters instantiated.

    - The handshake of two peers (src/common.rs, src/client.rs, src/server.rs,
      src/quic_transport.rs):
      - Fingerprint.v: the fingerprint of a key and the phrase it is read out as;
      - SignedIdentity.v: the identities peers sign, their formats and decoders,
        and the answer of a viewer with its proof of the passphrase;
      - PeerTrust.v: which signing key is trusted for a peer, and which peers
        remember this viewer;
      - LanDiscovery.v: the signed messages of local discovery; on the two above;
      - PeerHandshake.v: one attempt of the viewer, the loops that retry it, and
        the handshake of the host; composes the files above;
      - HandshakeTheory.v, HostHandshake.v: what the viewer comes to trust, and
        whom the host admits; HandshakeAgreement.v: the two run against each
        other.

    - Admission and trust on the host:
      - QuicAdmission.v (src/quic_transport/admission.rs): connections before they
        are authenticated;
      - PeerSecurity.v (src/common/peer_security_mutation.rs): journalled changes
        of the peers that are trusted;
      - HelperRetry.v (src/server/helper_retry.rs): when a capture helper may be
        launched.

    - The file clipboard (libs/clipboard/, src/clipboard_file.rs), in a Linux
      build:
      - ClipboardTypes.v: errors, messages, paths, little-endian integers;
      - FileDescriptor.v (filetype.rs, local_file.rs): the descriptors of copied
        files, written and parsed;
      - FileList.v (local_file.rs): the list of copied files;
      - ServFiles.v (serv_files.rs, local_file.rs): the host that serves them;
      - FuseTree.v (fuse/cs.rs): the tree mounted on the side that pastes;
      - ClipboardMessages.v (clipboard_file.rs, fuse/mod.rs, lib.rs): the messages
        between the two and their handlers;
      - RemoteFiles.v: the composition of the above.

    - The desktop's clipboard (src/clipboard.rs), in a Linux build with copied
      files:
      - ClipboardFormats.v: what the names of the formats say of a content, and the
        signatures of foreign content on Linux, macOS and Windows;
      - ClipboardWire.v: content, its messages and the signatures of payloads;
      - DesktopClipboard.v (with src/client.rs, client/io_loop.rs, ui_session_
        interface.rs, server/connection.rs): reading and sending changes, the
        threads that write what a peer sent ([step]), the cache, directions;
      - ClipboardTheory.v: what that guarantees and where it does not;
      - ClipboardListener.v (with src/server/clipboard_service.rs): the fan-out of
        changes and its two readers.

    - Terminals of the host (src/server/terminal_service.rs):
      - TerminalBuffer.v: the output kept for a client that reconnects;
      - Terminal.v: sessions, services, the registry, the actions of a client and
        the loop that streams the output.

    - Local sockets of the processes (src/ipc.rs, src/ipc/), in a Linux build, and of
      Windows the privileged helper:
      - SocketDirectory.v (ipc/fs.rs, ipc.rs): the directories of the sockets, the
        pid files and the making of a listener;
      - LocalSockets.v (ipc/auth.rs, ipc.rs, server/uinput.rs): who may connect and
        what is served, which server is asked, the log of rejections, the one-time
        token;
      - HelperMemory.v (server/portable_service.rs): the memory shared with the
        privileged helper; the token in it, and frames and their counters;
      - PortableService.v (server/portable_service.rs, video_service.rs): the
        launches of that helper, as steps of threads ([exec]); on the two above.

    ** How the model reads

    An operation [fn f(&mut self, x)] is a function that takes [x] and the state
    and returns the result and the new state; the definitions keep the names of
    the source ([end_], [Set_] and the like where a name is reserved, a prefix
    where two types of a file share a name).  A record is a struct, an inductive
    type an enum, a [HashMap] a [gmap], a [VecDeque] or [Vec] a list.  What an
    operation does to the world, messages it sends or resizes of a terminal, is
    a list it returns.

    - Integers are in [Z], with the wrapping or saturation of the source written
      out; additions that cannot reach the bound of their type (counters of
      frames, of connections) are unbounded.  Where overflow is reachable it is
      modelled as a release build does it; a panic is the outcome [Panic].
    - [Instant] and [Duration] are nanoseconds, [now] is an argument, and one
      operation reads the clock once.  A theorem about times assumes that the
      readings do not decrease where it needs to.
    - A [HashMap] is iterated in the order of [map_to_list].
    - The filing of a video frame and a turn of the worker are one step each in
      ViewerPlayback.v, although the two threads share their queue under read
      locks.  PlaybackSteps.v takes them apart into their single actions;
      [steps_are_actions] shows that the steps are the undisturbed runs of these.
    - The check of the failed logins and their update are separate events of
      LoginFailure.v, for the lock is taken for each; HostLogin.v, whose steps are
      whole messages, runs them without another connection in between.
    - Elsewhere a mutex or lock is held for the whole of an operation, as in the source;
      what runs concurrently is a sequence of operations in any order ([exec]
      and [execs] of Subscriptions.v, [video_run] of VideoStream.v, the [Op]
      types elsewhere), and the theorems quantify over the sequence.
    - State that is shared by reference is an explicit store: the cells of
      DisplayStartup.v, the handles of FuseTree.v, the tickets of QuicAdmission.v.
    - Code outside the repository is a parameter: the file system
      ([FileSystem]), UTF-16 ([Utf16]), the storage of the peers ([Storage]),
      mounting ([mount_path]), the encoder, the pseudo-terminal and compression,
      the hash of passwords, keycodes, signatures, sealed boxes, SHA-256, key
      derivation, the codec of identities, Base64 and JSON ([Signing], [Boxes],
      [Sha256], [KeyDerivation], [IdPkCodec], [Base64], [Json]), the stores of
      QUIC identities and paired viewers ([Candidates], [PairedViewers]), video
      decoders ([DecoderApi], [Backends]), the hwcodec crate ([HwCodec]) and whether an
      encoder opens, Opus and the resampler ([AudioApi]), the ring buffer
      of the ringbuf crate ([RingBuffer]), and what
      the configuration and the platform answer to a connection ([Env],
      [LoginEnv], [Settings], [HostSettings]), the clipboard of the system
      ([Board], [BoardLaws]), the system calls on files and sockets ([Posix],
      [PosixLaws]) and what is known of processes ([Processes]).
      Where laws of it are assumed they are named hypotheses or class fields,
      and every theorem that uses them has a witness at a concrete instance.
    - Strings and paths are lists of Unicode scalar values; paths that are not
      valid Unicode are left out.  The clipboard's text and names are [string]s of
      UTF-8 bytes.  Logging, metrics and diagnostics are left out.

    ** Fuel and bounds

    - [VideoQueue.pop] repeats the round-robin pass at most PASSES times;
      [pop_serves] shows that a queue that is not empty always gives an entry.
    - [FileList.construct_file_list] has fuel; [file_list_terminates] shows that
      one more than the number of paths that resolve is enough, and that more
      fuel does not change the result.
    - [TerminalBuffer.trim] is structural on the lines; it is [None] where the
      loop of the source does not end, which [output_can_hang] shows to happen
      and [whole_lines_bounded] excludes for output in whole lines.
    - [PeerHandshake.direct_attempts], [promote] and [rendezvous_attempts] take
      the number of attempts that are left, as the loops of the source count them
      (five, three and five).
    - [CodecProbe.probe_ends]: the thread of a probe takes at most fourteen turns.
    - [DesktopClipboard.new_from] and [get_formats_from] count the attempts of the
      source, five and three.
    - [SocketDirectory.write_all] has the length of what is written as fuel, for each
      write(2) writes a byte or fails ([write_all_ends]).
    - All other recursions are structural.

    ** What the theorems show

    Claims are numbered as in the manifest, the most important first.
    - The path of a video frame: what a service sends to one subscriber does not
      depend on the others ([Subscriptions.subscribers_independent]); a subscriber's
      frames continue gaplessly, with a keyframe or with a new stream, which starts
      with a keyframe if every fresh encoder does ([VideoStream.
      joined_frames_decodable], [encoder_law]); the queue drops frames only so that
      what it delivers can still be decoded, keeps barriers in order, is bounded
      and always serves ([VideoQueue.decodable_delivery], [barriers_lossless],
      [queue_bounded], [pop_serves]); a viewer that waits for a keyframe takes
      no other frame ([DecoderRecovery.no_delta_before_keyframe]) and shows
      frames at increasing times ([PresentationClock.targets_monotone_bounded]).
    - Playback: without drops the viewer's channel, queue and tokens are one
      queue ([PlaybackTheory.playback_is_fifo]); once a drop is marked nothing but a
      keyframe is played next, in any interleaving ([PlaybackSteps.
      dropped_frames_await_keyframe]), what is decoded only moves on if the frames
      have identifiers ([decoder_input_moves_on], [unstamped_frames_pass]), a wait
      for a keyframe ends with one request sent ([one_fallback_per_wait]), queued frames are never stranded
      ([queued_frames_have_tokens], [worker_catches_up]); the rate asked for is one
      the viewer can decode ([ViewerFps.asked_fps_is_bounded], [fps_request_settles],
      [late_refreshes_are_few]); reports never go back ([VideoFeedback.
      feedback_never_goes_back]).
    - Codecs: what a service encodes is decoded by every viewer ([CodecTheory.
      encoded_frames_are_decodable]), the viewers' requests are a vote
      ([plurality_wins]), a service finds an encoder whatever fails to open
      ([service_finds_an_encoder]) and keeps it ([fresh_encoder_is_kept]), high
      quality is negotiated only where it is available ([high_quality_is_available]),
      the negotiation is with the connected viewers ([CodecSessions.negotiation_is_
      with_the_viewers]), who learn what is usable ([viewers_learn_what_is_usable]);
      preferences only order the decoders of a viewer ([ViewerDecoder.preferences_
      only_order]) and a failing hardware decoder is replaced at a keyframe
      ([software_takes_over_at_a_keyframe]); one probe runs at a time and ends
      ([CodecProbe.one_probe_at_a_time], [probe_ends]), and a reset keeps its result
      out ([reset_keeps_old_results_out]); decoded frames are read only within
      their buffers ([FrameReads.mediacodec_check_is_exact], [ffmpeg_check_is_exact]).
    - Sound: frames do not depend on how the device cuts the capture ([PcmAudio.
      framing_ignores_callbacks]), the hand-over keeps order ([capture_is_fifo]),
      silence is not sent for long ([silence_is_gated]); at the viewer the callback
      never starves ([AudioTheory.callback_never_starves]), samples keep their order
      and wait at most three seconds of the opened device ([sound_keeps_its_order]), frames of one or two
      channels stay whole ([frames_stay_whole]).
    - Control of the video path: capture requests ([CaptureServer.
      capture_request_exact]), encoder parameters in range ([VideoQosTheory.
      encoder_inputs_in_range]) and lowered only with reason
      ([congestion_reduction_sound]), loss estimates ([ViewerNetwork.
      loss_windows_sound]), the cadence of movies ([MovieCadence.
      cadence_hysteresis], [FramePacing.pacer_keeps_grid]), failing encoders
      ([VideoStream.failing_encoder_replaced]), recovery requests that are paced
      ([VideoDelivery.delivery_recovery_paced], [StartupRecovery.startup_budget]),
      and the viewer's display set, which its peer ends up with
      ([DisplayControl.wakeup_converges], [DisplayStartup.render_cells_truthful]).
    - Sessions: a connection is authorized only by a proof or the local user
      ([HostLogin.authorization_needs_proof]), a session that is not unattended
      has no permission but those the local user or an unattended session approved
      ([low_permission_needs_approval]), input needs the permission and waits
      for the local user, but for the keys that lock the screen at the end of a
      session ([input_needs_permission]), keys are not left pressed
      ([modifiers_released]), guesses are limited ([LoginFailure.
      wrong_password_budget], [HostLogin.temporary_password_rotates]).
    - The handshake: reading what a peer sends never panics and yields only what
      was verified ([SignedIdentity.decoders_are_typed]), what a host signs is
      read back ([host_identity_read_back]); a pinned key changes only with
      the user's consent ([HandshakeTheory.pin_needs_consent], [PeerTrust.
      pinning_is_conservative]), who is asked about one peer and not often
      ([connection_asks_for_one_peer]); the host admits and remembers only
      viewers that proved its passphrase, whichever way they come except over a
      relay asked for without security ([HostHandshake.host_admits_only_the_
      paired], [remembered_viewers_proved_the_passphrase]); and with the same
      passphrase the two agree ([HandshakeAgreement.same_passphrase_agrees]).
      Answers of local discovery are signed for their peer and their ping
      ([LanDiscovery.discovery_is_signed_for]).
    - Admission: [ScreenAuthority.end_is_terminal], [QuicAdmission.slots_accounted],
      [PeerSecurity.recovery_completes], [HelperRetry.launch_budget].
    - The file clipboard: descriptors round-trip and the parser is total
      ([FileDescriptor.file_list_roundtrip], [descriptor_parser_total]), the list
      is exact and its construction ends ([FileList.file_list_exact],
      [file_list_terminates]), the host serves exactly the bytes asked for
      ([ServFiles.serving_is_random_access]), the mounted tree is the announced one
      ([FuseTree.tree_is_reference], [handles_are_those_open]), a read across the
      connection returns the bytes of the file ([RemoteFiles.remote_read]), and
      nothing a peer announces leaves the mount ([pasted_paths_inside]).
    - The desktop's clipboard: what is written is screened and waits for a quiet
      moment ([ClipboardTheory.writes_are_vetted_and_quiet]), it is not sent back
      ([written_content_is_not_sent_back], [ClipboardListener.own_writes_are_never_
      sent]), a copy arrives as it was made ([copies_are_mirrored], on
      [ClipboardWire.clipboard_read_back]), repetitions and only they are dropped
      ([only_repetitions_are_dropped], on [signature_identifies_the_payload]),
      foreign content is left alone ([foreign_content_is_left_alone],
      [ClipboardFormats.signature_is_of_the_set]), a direction holds both ways
      ([chosen_direction_holds]), and the listener runs while somebody listens
      ([ClipboardListener.listener_runs_while_subscribed]).
    - Terminals: the replay is an end of the output ([TerminalBuffer.
      replay_is_recent]), a reconnected client misses and repeats nothing
      ([Terminal.reconnected_stream_seamless]), finds every session
      ([reconnection_finds_every_session]) and has its screen redrawn at its size
      ([redraw_restores_size]).

    - Local sockets: a listener is bound only in a directory that is ours and clean
      ([SocketDirectory.listeners_are_bound_safely], [directory_is_secured]) and not
      over one that answers ([answering_socket_is_kept]); pid files are ours
      ([pid_file_is_ours]); the service handles only requests to synchronize, of
      processes it trusts ([LocalSockets.service_serves_only_trusted_sync]);
      rejections are counted ([rejections_are_counted]), the choice of a server
      follows its rule ([server_choice_exact], [terminal_count_is_first_answer]),
      tokens are compared exactly ([token_eq_exact], [token_is_its_bytes]).
    - The privileged helper: it reads the token and the name it was given
      ([HelperMemory.token_is_handed_over], [name_is_passed_on]), a frame is found
      once and whole ([frame_is_found_once]) and no news is missed
      ([look_tells_of_news]); a ready helper presented the token of its launch
      ([PortableService.ready_helper_has_its_token]), a launch is answered once
      ([one_helper_per_launch]), a start ends ([starting_ends]), what is stale
      changes nothing ([stale_generations_change_nothing]), frames are of the ready
      generation ([frames_are_of_the_ready_generation]) or the helper is given up
      ([first_frame_or_restart]), and failures make it wait ([recovery_is_limited]).

    Beside the numbered claims each file has theorems of its own, among them the
    exact effect of single operations ([remove_connection_exact],
    [switch_display_exact], [snapshot_promotes], [cleanup_exact], ...) and
    the places where the code does not do what it means to: [poll_forgets_
    rejections], [rejected_target_change_is_stuck], [long_path_panics],
    [ldap_epoch_off], [cycle_fails_the_copy], [overflow_panics],
    [unreadable_next_file_fails_read], [output_can_hang], [endless_line_grows],
    [backslash_in_a_name_is_a_separator], [late_answer_is_taken],
    [startup_entries_outlive_displays], [checks_at_once_pass],
    [relay_request_waives_the_passphrase], [unnoticed_copy_is_overwritten],
    and, in HostExamples.v, [code_alone_authorizes], [grant_opens_terminal],
    [answer_opens_tunnel], [grants_are_borrowed], [files_stay_subscribed] and
    [modifiers_not_recorded], in HandshakeAgreement.v [changed_key_replaced_
    without_fingerprint], in PlaybackTheory.v [old_keyframe_ends_the_wait],
    [stale_token_loses_a_delta] and [stale_token_overtakes_a_keyframe], in
    PlaybackSteps.v [worker_slips_through], in AudioTheory.v [surround_loses_its_channels], in CodecTheory.v
    [stale_setup_locks_out_a_viewer] and [fallback_lasts_until_an_update], in
    CodecSessions.v [file_transfer_pins_the_codec], in ViewerDecoder.v
    [recovery_skips_a_decoder], in ClipboardTheory.v [session_start_hangs_exactly],
    [new_session_gets_an_older_copy], [refused_write_bars_its_retry] and
    [copy_made_again_is_dropped], in ClipboardListener.v [failed_subscriber_
    keeps_the_thread] and [failed_readers_stay_subscribed], in SocketDirectory.v
    [planted_socket_bars_the_service], in HelperMemory.v [increment_leaves_the_reader]
    and [frame_changes_under_the_reader], and in PortableService.v
    [token_outlives_its_start], [restored_token_is_of_no_use],
    [overlapping_launches_mix_tokens] and [input_reaches_the_next_helper].

    ** Not modelled

    - File transfer jobs, voice calls, display messages and the network loop of the
      host connection (src/server/connection.rs), and the messages
      of the viewer (src/client.rs, src/client/io_loop.rs), apart from the parts
      above.  Once authorized, a tunnel only forwards bytes; that loop is not
      modelled.  The options of a login are read when it is authorized; the keys
      of options and the numbering of the permissions a rendezvous server sends
      are in the protocol library: constructors ([OptionKey]) and a parameter.
    - The choice of a capturer and the loop around it (src/server/
      video_service.rs, display_service.rs); the code of the encoders.
    - What the processes tell each other on local sockets (src/ipc.rs), apart from
      the synchronization of the service being the only thing it handles; the capture
      loops of the helper processes, and the helper of a user's session
      (src/server/user_capture_helper.rs); licences and one-time passwords (src/custom_server.rs, src/auth_2fa.rs), updates.
    - Input, keyboard, privacy mode, plugins, the user interfaces and the platform
      layer: calls of the operating system and glue; the devices of sound, Opus and
      the resampler.
    - Rendezvous and transports: network I/O over the protocol library, a git
      submodule that is not present.  What a viewer does to find a peer before the
      handshake is not modelled, nor the QUIC connection itself.
    - Windows and macOS: the clipboard bindings, the terminal helper.  Of
      src/clipboard.rs the debug log and the reading of format names on each
      platform, and src/clipboard_wayland_listener.rs.

    Next: the messages of the connection manager (ipc.rs, ui_cm_interface.rs), one-time
    passwords and licence strings, the choice of a capturer, port forwarding. *)

From stdpp Require Export prelude gmap strings sorting.
From Stdlib Require Export ZArith Lia.

Open Scope Z_scope.

(** ** Record update

    [r <| f := v |>] is the record [r] with its field [f] replaced by [v], and
    [r <| f ::= g |>] applies [g] to the field.  A record opts in by giving its
    eta expansion once ([Eta]); the setter of each field is then computed. *)

Class Eta (R : Type) := eta : R -> R.

Class Field {R T : Type} (proj : R -> T) := set_field : (T -> T) -> R -> R.
Arguments set_field {R T} proj {_} _ _ /.

Ltac solve_field :=
  lazymatch goal with
  | |- @Field ?R ?T ?proj =>
      let i := constr:(_ : Eta R) in
      let u := constr:(fun (r : R) => ltac:(
        let e := eval hnf in (i r) in
        let e := eval pattern (proj r) in e in
        lazymatch e with ?h _ => exact h end)) in
      let t := eval cbv beta in (fun (g : T -> T) (r : R) => u r (g (proj r))) in
      exact t
  end.

#[export] Hint Extern 1 (Field _) => solve_field : typeclass_instances.

Declare Scope record_scope.
Delimit Scope record_scope with record.
#[warnings="-postfix-notation-not-level-1"]
Notation "r <| f := v |>" := (set_field f (fun _ => v) r)
  (at level 12, f at next level, left associativity) : record_scope.
#[warnings="-postfix-notation-not-level-1"]
Notation "r <| f ::= g |>" := (set_field f g r)
  (at level 12, f at next level, left associativity) : record_scope.
Open Scope record_scope.

#[global] Arguments Z.eqb : simpl never.
#[global] Arguments Z.leb : simpl never.
#[global] Arguments Z.ltb : simpl never.
#[global] Arguments Z.add : simpl never.
#[global] Arguments Z.sub : simpl never.
#[global] Arguments Z.mul : simpl never.
#[global] Arguments Z.min : simpl never.
#[global] Arguments Z.max : simpl never.
#[global] Arguments Z.div : simpl never.
#[global] Arguments Z.modulo : simpl never.

(** ** Machine integers

    Unsigned integers are [Z] values between 0 and the maximum of their width;
    signed ones are [Z] values between the bounds of their width.  Rust's
    saturating, wrapping and clamping operations are written out. *)

Definition u8_max : Z := 255.
Definition u32_max : Z := 4294967295.
Definition u64_max : Z := 18446744073709551615.
Definition i32_max : Z := 2147483647.
Definition i64_max : Z := 9223372036854775807.
Definition i64_min : Z := -9223372036854775808.

Definition sat_add (max a b : Z) : Z := Z.min (a + b) max.
Definition sat_sub (a b : Z) : Z := Z.max (a - b) 0.
Definition sat_mul (max a b : Z) : Z := Z.min (a * b) max.
Definition wrap_u32 (a : Z) : Z := a mod 4294967296.
Definition wrap_u64 (a : Z) : Z := a mod 18446744073709551616.
(** The [as i32] cast. *)
Definition as_i32 (a : Z) : Z := (a + 2147483648) mod 4294967296 - 2147483648.
Definition i64_sat (a : Z) : Z := Z.max i64_min (Z.min a i64_max).

(** [x.clamp(lo, hi)]; Rust panics when [lo > hi], so the call sites carry a
    lemma that their bounds are ordered. *)
Definition clampZ (lo hi x : Z) : Z := if x <? lo then lo else if hi <? x then hi else x.

(** ** Time

    [std::time::Instant] is a number of nanoseconds on the monotonic clock and
    [Duration] a non-negative number of nanoseconds. *)

Abbreviation instant := Z (only parsing).
Abbreviation duration := Z (only parsing).

Definition from_secs (s : Z) : duration := s * 1000000000.
Definition from_millis (ms : Z) : duration := ms * 1000000.

(** [later.saturating_duration_since(earlier)]; [elapsed] is the same on "now". *)
Definition since (later earlier : instant) : duration := Z.max (later - earlier) 0.

(** The largest [Instant] of a platform whose timespec has 64-bit seconds. *)
Definition instant_max : instant := i64_max * 1000000000 + 999999999.
Definition checked_add (t : instant) (d : duration) : option instant :=
  if t + d <=? instant_max then Some (t + d) else None.

(** ** Options *)

Definition is_some_and {A} (o : option A) (p : A -> bool) : bool :=
  match o with Some a => p a | None => false end.
Definition map_or {A B} (o : option A) (d : B) (f : A -> B) : B :=
  match o with Some a => f a | None => d end.
Definition unwrap_or {A} (o : option A) (d : A) : A :=
  match o with Some a => a | None => d end.
Definition is_none {A} (o : option A) : bool :=
  match o with Some _ => false | None => true end.
Definition is_some {A} (o : option A) : bool := negb (is_none o).
(** The value [get_or_insert] leaves in, and returns from, an option. *)
Definition or_insert {A} (o : option A) (d : A) : A := unwrap_or o d.

(** ** Lemmas and automation shared by the components *)

Create HintDb rust discriminated.
Create Rewrite HintDb rust_rw.

Lemma sat_add_le (max a b : Z) : sat_add max a b <= max.
Proof. unfold sat_add; lia. Qed.
Lemma sat_add_exact (max a b : Z) : a + b <= max -> sat_add max a b = a + b.
Proof. unfold sat_add; lia. Qed.
Lemma sat_sub_nonneg (a b : Z) : 0 <= sat_sub a b.
Proof. unfold sat_sub; lia. Qed.
Lemma since_nonneg (a b : Z) : 0 <= since a b.
Proof. unfold since; lia. Qed.
Lemma since_refl (a : Z) : since a a = 0.
Proof. unfold since; lia. Qed.
Lemma clampZ_bounds (lo hi x : Z) : lo <= hi -> lo <= clampZ lo hi x <= hi.
Proof. unfold clampZ; destruct (Z.ltb_spec x lo), (Z.ltb_spec hi x); lia. Qed.
Lemma clampZ_id (lo hi x : Z) : lo <= x <= hi -> clampZ lo hi x = x.
Proof. unfold clampZ; destruct (Z.ltb_spec x lo), (Z.ltb_spec hi x); lia. Qed.
Lemma is_some_and_true {A} (o : option A) (p : A -> bool) :
  is_some_and o p = true <-> exists a, o = Some a /\ p a = true.
Proof. destruct o; simpl; naive_solver. Qed.
Lemma is_some_and_false {A} (o : option A) (p : A -> bool) :
  is_some_and o p = false <-> forall a, o = Some a -> p a = false.
Proof. destruct o; simpl; naive_solver. Qed.

Lemma is_some_false {A} (o : option A) : is_some o = false <-> o = None.
Proof. by destruct o. Qed.
Lemma is_some_true {A} (o : option A) : is_some o = true <-> is_Some o.
Proof. destruct o; simpl; split; naive_solver. Qed.
Lemma filter_ext_in {A} (P Q : A -> Prop) `{!forall x, Decision (P x), !forall x, Decision (Q x)} (l : list A) :
  (forall x, x ∈ l -> P x <-> Q x) -> filter P l = filter Q l.
Proof.
  induction l as [|x l IH]; intros HPQ; [done|]; rewrite !filter_cons, IH by set_solver.
  specialize (HPQ x ltac:(left)); repeat case_decide; tauto.
Qed.

Lemma filter_none {A} (P : A -> Prop) `{!forall x, Decision (P x)} (l : list A) :
  (forall x, x ∈ l -> ~ P x) -> filter P l = [].
Proof.
  induction l as [|x l IH]; intros HP; [done|]; rewrite filter_cons_False, IH; set_solver.
Qed.
Lemma filter_all {A} (P : A -> Prop) `{!forall x, Decision (P x)} (l : list A) :
  (forall x, x ∈ l -> P x) -> filter P l = l.
Proof.
  induction l as [|x l IH]; intros HP; [done|]; rewrite filter_cons_True, IH; set_solver.
Qed.
Lemma filter_fmap {A B} (f : A -> B) (P : B -> Prop) `{!forall x, Decision (P x)} (l : list A) :
  filter P (f <$> l) = f <$> filter (fun x => P (f x)) l.
Proof.
  induction l as [|x l IH]; [done|]; rewrite fmap_cons, !filter_cons, IH; by case_decide.
Qed.

#[export] Hint Resolve sat_add_le sat_sub_nonneg since_nonneg clampZ_bounds : rust.
#[export] Hint Rewrite since_refl : rust_rw.

(** Splits the goal on every match and if, simplifying as it goes. *)
Ltac cases := repeat (case_match; simpl in *; simplify_eq/=).

(** Turns boolean connectives in hypotheses into propositions. *)
Ltac bools :=
  repeat match goal with
  | H : (_ && _)%bool = true |- _ => apply andb_true_iff in H; destruct H
  | H : (_ || _)%bool = false |- _ => apply orb_false_iff in H; destruct H
  | H : negb _ = true |- _ => apply negb_true_iff in H
  | H : negb _ = false |- _ => apply negb_false_iff in H
  | H : bool_decide _ = true |- _ => apply bool_decide_eq_true in H
  | H : bool_decide _ = false |- _ => apply bool_decide_eq_false in H
  end.

(** Rewrites the goal with the boolean equations of the context. *)
Ltac use_bools :=
  repeat match goal with
  | H : ?b = true |- context [?b] => rewrite H
  | H : ?b = false |- context [?b] => rewrite H
  end; simpl.

Ltac unfold_time := unfold since, from_secs, from_millis in *.

(** ** Counting *)

Fixpoint count_if {A} (p : A -> bool) (l : list A) : Z :=
  match l with
  | [] => 0
  | x :: l => Z.b2z (p x) + count_if p l
  end.

Lemma count_if_bounds {A} (p : A -> bool) (l : list A) :
  0 <= count_if p l <= Z.of_nat (length l).
Proof. induction l as [|x l IH]; simpl; [lia|]. destruct (p x); simpl; lia. Qed.

Lemma count_if_app {A} (p : A -> bool) (l1 l2 : list A) :
  count_if p (l1 ++ l2) = count_if p l1 + count_if p l2.
Proof. induction l1; simpl; lia. Qed.

Lemma count_if_zero {A} (p : A -> bool) (l : list A) :
  (forall x, x ∈ l -> p x = false) -> count_if p l = 0.
Proof.
  induction l as [|x l IH]; intros H; simpl; [done|].
  rewrite H, IH by set_solver; done.
Qed.

Lemma count_if_perm {A} (p : A -> bool) (l l' : list A) : l ≡ₚ l' -> count_if p l = count_if p l'.
Proof. induction 1; simpl; lia. Qed.

Lemma count_if_fmap_le {A} (p : A -> bool) (f : A -> A) (l : list A) :
  (forall x, p (f x) = true -> p x = true) -> count_if p (f <$> l) <= count_if p l.
Proof.
  intros H; induction l as [|x l IH]; [done|]; cbn [fmap list_fmap count_if].
  destruct (p (f x)) eqn:E; [rewrite (H x E)|destruct (p x)]; simpl in *; lia.
Qed.

Lemma count_if_sublist {A} (p : A -> bool) l l' : l `sublist_of` l' -> count_if p l <= count_if p l'.
Proof. induction 1; simpl; [lia|lia|destruct (p x); simpl; lia]. Qed.

Lemma count_if_mono {A} (p q : A -> bool) l :
  (forall x, p x = true -> q x = true) -> count_if p l <= count_if q l.
Proof.
  intros H; induction l as [|x l IH]; simpl; [done|].
  destruct (p x) eqn:E; [rewrite (H x E)|destruct (q x)]; simpl; lia.
Qed.

Lemma count_if_one {A} `{EqDecision A} (p q : A -> bool) (d : A) l :
  NoDup l -> (forall x, x <> d -> q x = p x) -> count_if q l <= count_if p l + 1.
Proof.
  intros Hn H; induction Hn as [|x l Hx Hn IH]; simpl; [lia|].
  destruct (decide (x = d)) as [->|Hne].
  - replace (count_if q l) with (count_if p l); [destruct (p d), (q d); simpl; lia|].
    clear -H Hx; induction l as [|y l IH]; simpl; [done|].
    rewrite IH, H by set_solver; done.
  - rewrite (H x Hne); lia.
Qed.

Lemma filter_sublist_mono {A} (P : A -> Prop) `{!forall x, Decision (P x)} l l' :
  l `sublist_of` l' -> filter P l `sublist_of` filter P l'.
Proof.
  induction 1 as [|x l l' Hs IH|x l l' Hs IH]; [done|..]; rewrite !filter_cons; case_decide; auto.
  - by apply sublist_skip.
  - by apply sublist_cons.
Qed.

(** ** Minima

    [iter.min_by_key(key)]: the first of the least elements, [lt] comparing keys. *)

Section minima.
Context {A : Type}.
Variable lt : A -> A -> bool.

Definition earlier_min (x : A) (rest : option A) : option A :=
  match rest with
  | Some y => if lt y x then Some y else Some x
  | None => Some x
  end.
Definition min_by (l : list A) : option A := foldr earlier_min None l.

Lemma min_by_none l : min_by l = None <-> l = [].
Proof.
  destruct l as [|x l]; [done|]; simpl; unfold earlier_min.
  split; [|done]; destruct (min_by l) as [y|]; [destruct (lt y x)|]; done.
Qed.

Lemma min_by_elem_of l x : min_by l = Some x -> x ∈ l.
Proof.
  revert x; induction l as [|y l IH]; intros x; simpl; [done|]; unfold earlier_min.
  destruct (min_by l) as [z|]; [destruct (lt z y)|]; intros [= <-]; set_solver.
Qed.

Lemma min_by_least l x :
  (forall a, lt a a = false) ->
  (forall a b c, lt a b = false -> lt b c = false -> lt a c = false) ->
  (forall a b, lt a b = true -> lt b a = false) ->
  min_by l = Some x -> forall y, y ∈ l -> lt y x = false.
Proof.
  intros Hr Ht Ha; revert x; induction l as [|z l IH]; intros x Hx y Hy; [set_solver|].
  simpl in Hx; unfold earlier_min in Hx; destruct (min_by l) as [w|] eqn:E.
  - specialize (IH w eq_refl); destruct (lt w z) eqn:El; simplify_eq.
    + apply elem_of_cons in Hy as [->|Hy]; [by apply Ha|by apply IH].
    + apply elem_of_cons in Hy as [->|Hy]; [done|]; apply Ht with w; [by apply IH|done].
  - apply min_by_none in E; simplify_eq; set_solver.
Qed.
End minima.

(** ** Sorted vectors

    [v.sort_unstable()] is a sort by value and [v.dedup()] drops an element that
    equals the one kept before it. *)

Fixpoint dedup_after {A} `{EqDecision A} (x : A) (l : list A) : list A :=
  match l with
  | [] => []
  | y :: l => if decide (x = y) then dedup_after x l else y :: dedup_after y l
  end.
Definition dedup {A} `{EqDecision A} (l : list A) : list A :=
  match l with [] => [] | x :: l => x :: dedup_after x l end.
Definition sort (l : list Z) : list Z := merge_sort Z.le l.

Lemma elem_of_sort x l : x ∈ sort l <-> x ∈ l.
Proof. unfold sort; by rewrite merge_sort_Permutation. Qed.

Lemma sort_sorted l : Sorted Z.le (sort l).
Proof. apply Sorted_merge_sort, _. Qed.

Lemma elem_of_dedup_after {A} `{EqDecision A} (x y : A) l :
  y ∈ x :: dedup_after x l <-> y ∈ x :: l.
Proof.
  revert x; induction l as [|z l IH]; intros x; simpl; [done|].
  destruct (decide (x = z)) as [<-|Hne].
  - rewrite IH; set_solver.
  - rewrite elem_of_cons, IH; set_solver.
Qed.

Lemma elem_of_dedup {A} `{EqDecision A} (x : A) l : x ∈ dedup l <-> x ∈ l.
Proof. destruct l; [done|apply elem_of_dedup_after]. Qed.

(** What [dedup] leaves is sorted by the same order, without equal neighbours. *)
Lemma dedup_after_distinct {A} `{EqDecision A} (R : A -> A -> Prop) (x : A) l :
  Sorted R (x :: l) -> Sorted (fun a b => R a b /\ a <> b) (x :: dedup_after x l).
Proof.
  revert x; induction l as [|y l IH]; intros x Hs; simpl; [by repeat constructor|].
  apply Sorted_inv in Hs as [Hs Hhd]; apply HdRel_inv in Hhd.
  destruct (decide (x = y)) as [<-|Hne]; [by apply IH|].
  constructor; [by apply IH|by constructor].
Qed.

Lemma Sorted_mono {A} (R R' : A -> A -> Prop) (l : list A) :
  (forall x y, R x y -> R' x y) -> Sorted R l -> Sorted R' l.
Proof.
  intros H; induction 1 as [|x l Hs IH Hhd]; constructor; [done|].
  destruct Hhd; constructor; auto.
Qed.

Lemma dedup_after_sorted x l :
  Sorted Z.le (x :: l) -> Sorted Z.lt (x :: dedup_after x l).
Proof.
  intros Hs; eapply Sorted_mono, dedup_after_distinct, Hs; simpl; intros; lia.
Qed.

Lemma dedup_sorted l : Sorted Z.le l -> Sorted Z.lt (dedup l).
Proof. destruct l; [done|apply dedup_after_sorted]. Qed.

(** Sorting and dropping repetitions gives one list for each set of elements. *)
Section canonical.
Context {A : Type} `{EqDecision A} (R : relation A) `{!RelDecision R, !PartialOrder R, !Total R}.
Definition strictly (a b : A) : Prop := R a b /\ a <> b.
Definition sort_dedup (l : list A) : list A := dedup (merge_sort R l).

#[local] Instance strictly_trans : Transitive strictly.
Proof.
  intros a b c [Rab Nab] [Rbc Nbc]; split; [by transitivity b|].
  intros ->; apply Nbc, (anti_symm R); done.
Qed.

Lemma sort_dedup_elem_of l x : x ∈ sort_dedup l <-> x ∈ l.
Proof. unfold sort_dedup; by rewrite elem_of_dedup, merge_sort_Permutation. Qed.

Lemma sort_dedup_strict l : StronglySorted strictly (sort_dedup l).
Proof.
  apply Sorted_StronglySorted; [apply _|]; unfold sort_dedup, dedup.
  destruct (merge_sort R l) as [|x l'] eqn:E; [constructor|]; apply dedup_after_distinct; rewrite <- E.
  apply Sorted_merge_sort, _.
Qed.

Lemma strict_NoDup l : StronglySorted strictly l -> NoDup l.
Proof.
  induction 1 as [|x l Hs IH Hx]; constructor; [|done]; intros Hin.
  rewrite Forall_forall in Hx; by destruct (Hx x Hin).
Qed.

Lemma sort_dedup_canonical l l' : (forall x, x ∈ l <-> x ∈ l') -> sort_dedup l = sort_dedup l'.
Proof.
  intros E; pose proof (sort_dedup_strict l) as S; pose proof (sort_dedup_strict l') as S'.
  assert (W : forall k, StronglySorted strictly k -> StronglySorted R k).
  { induction 1 as [|x k _ IH Hx]; constructor; [done|]; eapply Forall_impl; [exact Hx|]; by intros y [? _]. }
  apply (StronglySorted_unique R _ _ (W _ S) (W _ S')), NoDup_Permutation; [by apply strict_NoDup..|].
  intros x; rewrite !sort_dedup_elem_of; apply E.
Qed.
End canonical.

(** ** Transition systems

    A component whose operations are functions on its state is a transition
    system: [reachable init step] holds of the states some sequence of
    operations leads to from an initial one. *)

Section transitions.
Context {State Event : Type}.
Variable init : State -> Prop.
Variable step : State -> Event -> State -> Prop.

Inductive reachable : State -> Prop :=
| reachable_init s : init s -> reachable s
| reachable_step s e s' : reachable s -> step s e s' -> reachable s'.

Inductive run : State -> list Event -> State -> Prop :=
| run_nil s : run s [] s
| run_cons s e s' es s'' : step s e s' -> run s' es s'' -> run s (e :: es) s''.

Lemma invariant_reachable (I : State -> Prop) :
  (forall s, init s -> I s) ->
  (forall s e s', I s -> step s e s' -> I s') ->
  forall s, reachable s -> I s.
Proof. intros Hi Hs s Hr. induction Hr; eauto. Qed.

Lemma run_app s es1 s' es2 s'' :
  run s es1 s' -> run s' es2 s'' -> run s (es1 ++ es2) s''.
Proof. induction 1; simpl; eauto using run. Qed.

Lemma run_reachable s es s' : reachable s -> run s es s' -> reachable s'.
Proof. intros Hr Hrun. induction Hrun; eauto using reachable. Qed.

Lemma run_invariant (I : State -> Prop) s es s' :
  (forall s e s', I s -> step s e s' -> I s') -> run s es s' -> I s -> I s'.
Proof. intros Hs Hrun. induction Hrun; eauto. Qed.
End transitions.

Arguments reachable {State Event}.
Arguments run {State Event}.

(** A component whose operations are deterministic and return a value is a
    Mealy machine: [execs] runs a list of calls and collects their results. *)

Section machine.
Context {State Event Out : Type}.
Variable exec : Event -> State -> Out * State.

Fixpoint execs (es : list Event) (s : State) : list Out * State :=
  match es with
  | [] => ([], s)
  | e :: es => let '(o, s1) := exec e s in
               let '(os, s2) := execs es s1 in (o :: os, s2)
  end.

Lemma execs_cons e es s :
  execs (e :: es) s = ((exec e s).1 :: (execs es (exec e s).2).1, (execs es (exec e s).2).2).
Proof. simpl; destruct (exec e s) as [o s1]; simpl; by destruct (execs es s1). Qed.

Lemma execs_app es1 es2 s :
  execs (es1 ++ es2) s =
    ((execs es1 s).1 ++ (execs es2 (execs es1 s).2).1, (execs es2 (execs es1 s).2).2).
Proof.
  revert s; induction es1 as [|e es1 IH]; intros s.
  - simpl; by destruct (execs es2 s).
  - rewrite <- app_comm_cons, !execs_cons, IH; simpl; by destruct (exec e s).
Qed.

(** Calls that satisfy [P] keep [I] and give results related to them by [Q]. *)
Lemma execs_invariant (I : State -> Prop) (P : Event -> Prop) (Q : Event -> Out -> Prop) :
  (forall e s, P e -> I s -> Q e (exec e s).1 /\ I (exec e s).2) ->
  forall es s, Forall P es -> I s ->
  Forall2 Q es (execs es s).1 /\ I (execs es s).2.
Proof.
  intros Hstep es; induction es as [|e es IH]; intros s Hp Hi; [by repeat constructor|].
  apply Forall_cons in Hp as [He Hes]; rewrite execs_cons; simpl.
  destruct (Hstep e s He Hi) as [Hq Hi']; destruct (IH _ Hes Hi').
  split; [by constructor|done].
Qed.
End machine.
