(* ===== verification/ScreenAuthority.v ===== *)
(** * Screen-content authority of one viewer session

    Models src/src/client/screen_authority.rs: which connection runtime may
    render screen content.  Each [&mut self] operation returns its boolean
    result and the new state. *)

From S2P Require Import Prelude.

(** [connection_generation] is a u32 and [generation] a u64. *)
Record ScreenViewAuthority := {
  connection_generation : Z;
  generation : Z;
  allowed : bool;
  ended : bool;
}.
#[export] Instance eta_ScreenViewAuthority : Eta ScreenViewAuthority := fun r =>
  Build_ScreenViewAuthority (connection_generation r) (generation r) (allowed r) (ended r).

(** [#[derive(Default)]] *)
Definition default_authority : ScreenViewAuthority :=
  {| connection_generation := 0; generation := 0; allowed := false; ended := false |}.

Definition begin (cg : Z) (a : ScreenViewAuthority) : bool * ScreenViewAuthority :=
  if cg <=? connection_generation a then (false, a)
  else (true, a <| connection_generation := cg |>
                <| allowed := false |>
                <| ended := false |>
                <| generation ::= fun g => sat_add u64_max g 1 |>).

Definition authorize (cg : Z) (a : ScreenViewAuthority) : bool * ScreenViewAuthority :=
  if negb (cg =? connection_generation a) || (generation a =? 0) || ended a || allowed a
  then (false, a)
  else (true, a <| allowed := true |>
                <| generation ::= fun g => sat_add u64_max g 1 |>).

Definition end_ (cg : Z) (a : ScreenViewAuthority) : bool * ScreenViewAuthority :=
  if (cg <? connection_generation a) || ((cg =? connection_generation a) && ended a)
  then (false, a)
  else (true, a <| connection_generation := cg |>
                <| allowed := false |>
                <| ended := true |>
                <| generation ::= fun g => sat_add u64_max g 1 |>).

Definition accepts (cg g : Z) (a : ScreenViewAuthority) : bool :=
  allowed a && (connection_generation a =? cg) && (generation a =? g).

(** The three mutations as events of a transition system. *)
Inductive Event := Begin (cg : Z) | Authorize (cg : Z) | End (cg : Z).

Definition apply (e : Event) (a : ScreenViewAuthority) : bool * ScreenViewAuthority :=
  match e with
  | Begin cg => begin cg a
  | Authorize cg => authorize cg a
  | End cg => end_ cg a
  end.

Definition step (a : ScreenViewAuthority) (e : Event) (a' : ScreenViewAuthority) : Prop :=
  (apply e a).2 = a'.

(** The session of connection [cg] is over: it is superseded or ended. *)
Definition closed (cg : Z) (a : ScreenViewAuthority) : Prop :=
  cg < connection_generation a \/
  (cg = connection_generation a /\ ended a = true /\ allowed a = false).

(** [closed] is preserved by every operation of the authority. *)
Lemma closed_step cg a e a' : closed cg a -> step a e a' -> closed cg a'.
Proof.
  unfold closed, step, apply, begin, authorize, end_.
  intros [Hlt|(Hcg & He & Ha)] <-; destruct e; cases; bools; simpl;
    first [congruence | left; lia | right; split_and!; (done || lia) | idtac].
  destruct (decide (connection_generation a = cg0)); [by right|left; lia].
Qed.

Lemma closed_rejects cg g a : closed cg a -> accepts cg g a = false.
Proof.
  unfold closed, accepts; intros [Hlt|(-> & _ & ->)]; [|done].
  apply andb_false_iff; left; apply andb_false_iff; right; lia.
Qed.

Lemma end_closes cg a :
  (end_ cg a).1 = true -> closed cg (end_ cg a).2.
Proof. unfold end_, closed; cases; by right. Qed.

Lemma step_effect a e a' :
  step a e a' -> ((apply e a).1 = false /\ a' = a) \/
  ((apply e a).1 = true /\ generation a' = sat_add u64_max (generation a) 1).
Proof.
  unfold step, apply, begin, authorize, end_; intros <-; destruct e; cases; auto.
Qed.

Lemma generation_mono a es a' :
  run step a es a' -> generation a <= u64_max ->
  generation a <= generation a' <= u64_max.
Proof.
  induction 1 as [|a e a1 es a' Hs Hr IH]; [lia|]; intros Hb.
  destruct (step_effect _ _ _ Hs) as [[_ ->]|[_ He]]; [auto|].
  unfold sat_add in He; lia.
Qed.

(** Ending a connection runtime is terminal: once [end] has taken effect for
    a connection generation, no later sequence of begin, authorize and end
    calls, with any arguments, makes the authority accept screen content of
    that connection generation again, whatever content generation is
    presented. *)
Theorem end_is_terminal cg a es a' g :
  (end_ cg a).1 = true ->
  run step (end_ cg a).2 es a' ->
  accepts cg g a' = false.
Proof.
  intros He Hrun; apply closed_rejects.
  eapply run_invariant; [|exact Hrun|by apply end_closes].
  intros; by eapply closed_step.
Qed.

Lemma end_is_terminal_witness :
  accepts 1 2 (apply (Authorize 1) (apply (Begin 1)
    (end_ 1 (authorize 1 (begin 1 default_authority).2).2).2).2).2 = false.
Proof.
  apply (end_is_terminal 1 (authorize 1 (begin 1 default_authority).2).2
           [Begin 1; Authorize 1]); [reflexivity|].
  repeat (eapply run_cons; [reflexivity|]); apply run_nil.
Defined.

(** Content tokens are revoked by any later change: if the content
    generation [g] of connection [cg] is accepted now, then after any operation
    that takes effect, followed by any sequence of operations, the same pair is
    not accepted any more, as long as the 64-bit generation has not saturated
    when the operation runs. *)
Theorem token_revoked_by_change cg g a e a1 es a2 :
  accepts cg g a = true ->
  generation a < u64_max ->
  (apply e a) = (true, a1) ->
  run step a1 es a2 ->
  accepts cg g a2 = false.
Proof.
  intros Hacc Hlt Happ Hrun; unfold accepts in Hacc; bools.
  assert (step a e a1) as Hs by (unfold step; by rewrite Happ).
  destruct (step_effect _ _ _ Hs) as [[Hf _]|[_ Hg]]; [by rewrite Happ in Hf|].
  unfold sat_add in Hg; pose proof (generation_mono _ _ _ Hrun ltac:(lia)).
  unfold accepts; apply andb_false_iff; right; lia.
Qed.

Lemma token_revoked_by_change_witness :
  accepts 1 2 (authorize 2 (begin 2 (authorize 1 (begin 1 default_authority).2).2).2).2 = false.
Proof.
  eapply (token_revoked_by_change 1 2 (authorize 1 (begin 1 default_authority).2).2
            (Begin 2) _ [Authorize 2]); [reflexivity|reflexivity|reflexivity|].
  repeat (eapply run_cons; [reflexivity|]); apply run_nil.
Defined.
