(* ===== verification/DecoderRecovery.v ===== *)
(** * Decoder recovery of one display's video worker

    Models src/src/client/decoder_recovery.rs: the input watermark
    [frame_is_current] and the retry/backoff and keyframe gate of
    [DecoderRecovery].  Durations and instants are nanoseconds. *)

From S2P Require Import Prelude.

Definition OUTPUT_STALL_TIMEOUT : duration := from_secs 2.
Definition INITIAL_RETRY_DELAY : duration := from_millis 500.
Definition MAX_RETRY_DELAY : duration := from_secs 5.

Definition frame_is_current (current_stream previous_frame stream frame : Z) : bool :=
  if negb (current_stream =? 0) && ((stream =? 0) || (stream <? current_stream))
  then false
  else (stream =? 0) || negb (stream =? current_stream) || (frame =? 0)
       || (previous_frame <? frame).

Record DecoderRecovery := {
  next_retry : option instant;
  attempt : Z;
  waiting_for_keyframe : bool;
  needs_reset : bool;
  refresh_requested : bool;
}.
#[export] Instance eta_DecoderRecovery : Eta DecoderRecovery := fun r =>
  Build_DecoderRecovery (next_retry r) (attempt r) (waiting_for_keyframe r)
    (needs_reset r) (refresh_requested r).

(** [#[derive(Default)]] *)
Definition default_recovery : DecoderRecovery :=
  {| next_retry := None; attempt := 0; waiting_for_keyframe := false;
     needs_reset := false; refresh_requested := false |}.

Definition failed (now : instant) (r : DecoderRecovery) : DecoderRecovery :=
  let r := if attempt r =? 0 then r <| next_retry := Some now |> else r in
  r <| waiting_for_keyframe := true |> <| needs_reset := true |>.

Definition pending (now : instant) (r : DecoderRecovery) : DecoderRecovery :=
  if is_none (next_retry r)
  then r <| next_retry := Some (now + OUTPUT_STALL_TIMEOUT) |> else r.

Definition backend_switched (now : instant) (r : DecoderRecovery) : DecoderRecovery :=
  r <| waiting_for_keyframe := true |>
    <| refresh_requested := true |>
    <| next_retry ::= fun o => Some (or_insert o (now + OUTPUT_STALL_TIMEOUT)) |>.

Definition take_refresh_request (r : DecoderRecovery) : bool * DecoderRecovery :=
  (refresh_requested r, r <| refresh_requested := false |>).

Definition succeeded (r : DecoderRecovery) : DecoderRecovery := default_recovery.

(** The delay [take_due] arms after its [attempt]-th attempt. *)
Definition retry_delay (attempt : Z) : duration :=
  Z.min (INITIAL_RETRY_DELAY * Z.shiftl 1 (Z.min (sat_sub attempt 1) 4)) MAX_RETRY_DELAY.

Definition take_due (now : instant) (r : DecoderRecovery) : option Z * DecoderRecovery :=
  match next_retry r with
  | None => (None, r)
  | Some at_ =>
      if now <? at_ then (None, r)
      else
        let r := r <| attempt ::= fun a => sat_add u64_max a 1 |> in
        let delay := retry_delay (attempt r) in
        let r := r <| next_retry := Some (now + delay) |>
                   <| waiting_for_keyframe := true |>
                   <| needs_reset := false |> in
        (Some (attempt r), r)
  end.

Definition wait_duration (now : instant) (r : DecoderRecovery) : option duration :=
  (fun next => since next now) <$> next_retry r.

Definition accepts_frame (stamped has_keyframe : bool) (r : DecoderRecovery)
    : bool * DecoderRecovery :=
  if needs_reset r || (waiting_for_keyframe r && stamped && negb has_keyframe)
  then (false, r)
  else (true, r <| waiting_for_keyframe := false |>).

(** The calls of the video worker. *)
Inductive Call :=
  | Failed (now : instant)
  | Pending (now : instant)
  | BackendSwitched (now : instant)
  | TakeRefreshRequest
  | Succeeded
  | TakeDue (now : instant)
  | AcceptsFrame (stamped has_keyframe : bool).

Inductive Reply := RUnit | RBool (b : bool) | RDue (attempt : option Z).

Definition call (c : Call) (r : DecoderRecovery) : Reply * DecoderRecovery :=
  match c with
  | Failed now => (RUnit, failed now r)
  | Pending now => (RUnit, pending now r)
  | BackendSwitched now => (RUnit, backend_switched now r)
  | TakeRefreshRequest => let '(b, r) := take_refresh_request r in (RBool b, r)
  | Succeeded => (RUnit, succeeded r)
  | TakeDue now => let '(o, r) := take_due now r in (RDue o, r)
  | AcceptsFrame s k => let '(b, r) := accepts_frame s k r in (RBool b, r)
  end.

(** Calls that do not end the episode and, when they ask for a retry, do so
    before [deadline]. *)
Definition early (deadline : instant) (c : Call) : Prop :=
  match c with Succeeded => False | TakeDue t => t < deadline | _ => True end.

Definition no_retry (c : Call) (o : Reply) : Prop :=
  match c with TakeDue _ => o = RDue None | _ => True end.

(** Calls that do not end the episode and only present stamped delta frames. *)
Definition only_deltas (c : Call) : Prop :=
  match c with Succeeded => False | AcceptsFrame s k => s = true /\ k = false | _ => True end.

(** Calls that neither end the episode nor reset the decoder. *)
Definition no_reset (c : Call) : Prop :=
  match c with Succeeded | TakeDue _ => False | _ => True end.

Definition frame_rejected (c : Call) (o : Reply) : Prop :=
  match c with AcceptsFrame _ _ => o = RBool false | _ => True end.

Lemma retry_delay_bounds (n : Z) :
  1 <= n -> INITIAL_RETRY_DELAY <= retry_delay n <= MAX_RETRY_DELAY.
Proof.
  intros Hn; unfold retry_delay, sat_sub.
  remember (Z.min (Z.max (n - 1) 0) 4) as k eqn:Hk.
  rewrite Z.shiftl_mul_pow2 by lia.
  assert (1 <= 2 ^ k) by (pose proof (Z.pow_pos_nonneg 2 k); lia).
  unfold INITIAL_RETRY_DELAY, MAX_RETRY_DELAY, from_millis, from_secs; lia.
Qed.

(** Armed for a later attempt: nothing but time or success moves the deadline. *)
Definition armed (deadline n : Z) (r : DecoderRecovery) : Prop :=
  next_retry r = Some deadline /\ attempt r = n /\ 1 <= n.

Lemma armed_step deadline n c r :
  early deadline c -> armed deadline n r ->
  no_retry c (call c r).1 /\ armed deadline n (call c r).2.
Proof.
  unfold armed, call; intros He (Hr & Ha & Hn).
  destruct c; simpl in *; rewrite ?Hr; simpl; try done.
  - unfold failed; rewrite Ha; case_match; [lia|done].
  - unfold pending; rewrite Hr; done.
  - unfold take_due; rewrite Hr.
    by assert ((now <? deadline) = true) as -> by lia.
  - unfold accepts_frame; by destruct (_ || _)%bool.
Qed.

Lemma take_due_armed now r n r' :
  0 <= attempt r -> take_due now r = (Some n, r') -> armed (now + retry_delay n) n r'.
Proof.
  intros Ha; unfold take_due, armed, sat_add, u64_max; intros Ht.
  destruct (next_retry r) as [at_|]; [|done].
  destruct (now <? at_); simplify_eq/=; split_and!; auto; lia.
Qed.

Lemma armed_fires deadline n r t :
  armed deadline n r -> deadline <= t ->
  (take_due t r).1 = Some (sat_add u64_max n 1).
Proof.
  intros (Hr & Ha & _) Ht; unfold take_due; rewrite Hr.
  assert ((t <? deadline) = false) as -> by lia; simpl; by subst.
Qed.

Lemma waiting_step c r :
  only_deltas c -> waiting_for_keyframe r = true ->
  frame_rejected c (call c r).1 /\ waiting_for_keyframe (call c r).2 = true.
Proof.
  intros Hc Hw; destruct c; simpl in *; try done.
  - unfold pending; by destruct (is_none (next_retry r)).
  - unfold take_due; destruct (next_retry r) as [at_|]; [|done].
    by destruct (now <? at_).
  - destruct Hc as [-> ->]; unfold accepts_frame; rewrite Hw.
    by destruct (needs_reset r).
Qed.

Lemma needs_reset_step c r :
  no_reset c -> needs_reset r = true ->
  frame_rejected c (call c r).1 /\ needs_reset (call c r).2 = true.
Proof.
  intros Hc Hn; destruct c; simpl in *; try done.
  - unfold pending; by destruct (is_none (next_retry r)).
  - by unfold accepts_frame; rewrite Hn.
Qed.

(** Backoff is never bypassed and never stalls: once [take_due] grants
    attempt [n] at [now], no sequence of failures, pending outputs, backend
    switches, refresh requests, frames and further polls makes [take_due] grant
    another attempt before [now + retry_delay n], a delay between 500 ms and
    5 s; and the first poll at or after that deadline grants attempt [n + 1]. *)
Theorem backoff_respected now r n r' cs t :
  0 <= attempt r ->
  take_due now r = (Some n, r') ->
  Forall (early (now + retry_delay n)) cs ->
  now + retry_delay n <= t ->
  INITIAL_RETRY_DELAY <= retry_delay n <= MAX_RETRY_DELAY /\
  Forall2 no_retry cs (execs call cs r').1 /\
  (take_due t (execs call cs r').2).1 = Some (sat_add u64_max n 1).
Proof.
  intros Ha Ht Hcs Hlate; pose proof (take_due_armed _ _ _ _ Ha Ht) as Harm.
  destruct (execs_invariant call (armed (now + retry_delay n) n) _ no_retry
              (armed_step _ n) cs r' Hcs Harm) as [Hout Hend].
  split; [apply retry_delay_bounds, Harm|split; [done|by eapply armed_fires]].
Qed.

Lemma backoff_respected_witness :
  (take_due 500000000 (execs call [Failed 10; TakeDue 20; AcceptsFrame true false]
     (take_due 0 (failed 0 default_recovery)).2).2).1 = Some 2.
Proof.
  eapply (backoff_respected 0 (failed 0 default_recovery) 1); [done|reflexivity| |].
  - repeat constructor.
  - vm_compute; discriminate.
Defined.

(** The keyframe gate: after a decoder failure (or a backend switch), no
    sequence of calls short of a successful decode lets a stamped delta frame
    through while no keyframe is presented, however many retries, resets and
    failures happen in between. *)
Theorem no_delta_before_keyframe now r cs :
  Forall only_deltas cs ->
  Forall2 frame_rejected cs (execs call cs (failed now r)).1 /\
  Forall2 frame_rejected cs (execs call cs (backend_switched now r)).1.
Proof.
  intros Hcs; split;
    apply (execs_invariant call (fun r => waiting_for_keyframe r = true) _ _ waiting_step);
    try done; unfold failed; by destruct (attempt r =? 0).
Qed.

Lemma no_delta_before_keyframe_witness :
  Forall2 frame_rejected [TakeDue 5; AcceptsFrame true false; Failed 9; AcceptsFrame true false]
    (execs call [TakeDue 5; AcceptsFrame true false; Failed 9; AcceptsFrame true false]
       (failed 3 default_recovery)).1.
Proof. apply (no_delta_before_keyframe 3 default_recovery); repeat constructor. Defined.

(** After a failure the old decoder gets no frame at all, keyframes
    included, until a retry resets it or a decode succeeds. *)
Theorem no_frame_before_reset now r cs :
  Forall no_reset cs ->
  Forall2 frame_rejected cs (execs call cs (failed now r)).1.
Proof.
  intros Hcs; apply (execs_invariant call (fun r => needs_reset r = true) _ _ needs_reset_step);
    try done; unfold failed; by destruct (attempt r =? 0).
Qed.

Lemma no_frame_before_reset_witness :
  Forall2 frame_rejected [Pending 4; AcceptsFrame true true]
    (execs call [Pending 4; AcceptsFrame true true] (failed 3 default_recovery)).1.
Proof. apply (no_frame_before_reset 3 default_recovery); repeat constructor. Defined.
