(* ===== verification/StartupRecovery.v ===== *)
(** * Startup recovery budget of one display activation

    Models src/src/client/startup_recovery.rs: the ladder of reference requests
    and capture restarts a viewer may send while a display has not produced a
    decoded frame. *)

From S2P Require Import Prelude.

Definition FIRST_CAPTURE_RETRY : duration := from_secs 15.
Definition CAPTURE_RETRY_INTERVAL : duration := from_secs 40.
Definition REFERENCE_INTERVAL : duration := from_millis 750.
Definition DECODE_GRACE : duration := from_secs 3.
Definition MAX_REFERENCES : Z := 3.
Definition MAX_CAPTURE_RETRIES : Z := 2.
Definition STARTUP_LIMIT : duration := from_secs 110.

Inductive StartupRecoveryAction := Reference | Capture | Failed.
#[export] Instance action_eq_dec : EqDecision StartupRecoveryAction.
Proof. solve_decision. Defined.

Record StartupRecovery := {
  since_ : option instant;
  last_action : option instant;
  last_try : option instant;
  last_capture : option instant;
  keyframe_at : option instant;
  reference_attempts : Z;
  capture_attempts : Z;
  decoded : bool;
  failed : bool;
  dropped_deltas : Z;
}.
#[export] Instance eta_StartupRecovery : Eta StartupRecovery := fun r =>
  Build_StartupRecovery (since_ r) (last_action r) (last_try r) (last_capture r)
    (keyframe_at r) (reference_attempts r) (capture_attempts r) (decoded r)
    (failed r) (dropped_deltas r).

Definition default_startup : StartupRecovery :=
  {| since_ := None; last_action := None; last_try := None; last_capture := None;
     keyframe_at := None; reference_attempts := 0; capture_attempts := 0;
     decoded := false; failed := false; dropped_deltas := 0 |}.

Definition new_stream (now : instant) (r : StartupRecovery) : StartupRecovery :=
  let r := if decoded r then default_startup else r in
  r <| keyframe_at := None |>
    <| since_ ::= fun o => Some (or_insert o now) |>.

Definition received (keyframe dropped_delta : bool) (now : instant) (r : StartupRecovery)
    : StartupRecovery :=
  let r := r <| since_ ::= fun o => Some (or_insert o now) |> in
  let r := if keyframe then r <| keyframe_at ::= fun o => Some (or_insert o now) |> else r in
  if dropped_delta then r <| dropped_deltas ::= fun d => sat_add u64_max d 1 |> else r.

Definition set_decoded (r : StartupRecovery) : StartupRecovery :=
  r <| decoded := true |> <| failed := false |>.

Definition is_failed (r : StartupRecovery) : bool := failed r.

Definition next (now : instant) (known_stream scoped_supported : bool) (r : StartupRecovery)
    : option StartupRecoveryAction * StartupRecovery :=
  if decoded r || failed r then (None, r)
  else
    let since0 := or_insert (since_ r) now in
    let r := r <| since_ := Some since0 |> in
    let elapsed := since now since0 in
    let last_capture_elapsed := since now <$> last_capture r in
    if (STARTUP_LIMIT <=? elapsed)
       || ((MAX_CAPTURE_RETRIES <=? capture_attempts r)
           && is_some_and last_capture_elapsed (fun age => CAPTURE_RETRY_INTERVAL <=? age))
    then (Some Failed, r <| failed := true |>)
    else if is_some_and (last_try r) (fun at_ => since now at_ <? REFERENCE_INTERVAL)
    then (None, r)
    else if known_stream && scoped_supported
            && (reference_attempts r <? MAX_REFERENCES)
            && map_or (keyframe_at r) true (fun at_ => DECODE_GRACE <=? since now at_)
            && map_or (last_action r) true (fun at_ => REFERENCE_INTERVAL <=? since now at_)
    then (Some Reference, r)
    else if (FIRST_CAPTURE_RETRY <=? elapsed)
            && (capture_attempts r <? MAX_CAPTURE_RETRIES)
            && map_or last_capture_elapsed true (fun age => CAPTURE_RETRY_INTERVAL <=? age)
            && map_or (last_action r) true (fun at_ => DECODE_GRACE <=? since now at_)
    then (Some Capture, r)
    else (None, r).

Definition admitted (action : StartupRecoveryAction) (now : instant) (r : StartupRecovery)
    : StartupRecovery :=
  match action with
  | Reference => r <| reference_attempts ::= Z.succ |> <| last_action := Some now |>
  | Capture => r <| capture_attempts ::= Z.succ |>
                 <| last_capture := Some now |>
                 <| last_action := Some now |>
  | Failed => r
  end.

Definition attempted (now : instant) (r : StartupRecovery) : StartupRecovery :=
  r <| last_try := Some now |>.

(** One round of the client loop (io_loop.rs, [tick] and its caller): ask for
    the next action at [now]; unless it is [Failed], note the attempt at [now1]
    and, when the message was [sent], charge the budget at [now2]. *)
Record Round := {
  r_now : instant; r_known : bool; r_scoped : bool;
  r_now1 : instant; r_sent : bool; r_now2 : instant;
}.

Definition round (t : Round) (r : StartupRecovery)
    : option StartupRecoveryAction * StartupRecovery :=
  let '(o, r) := next (r_now t) (r_known t) (r_scoped t) r in
  match o with
  | None => (None, r)
  | Some Failed => (Some Failed, r)
  | Some a =>
      let r := attempted (r_now1 t) r in
      (Some a, if r_sent t then admitted a (r_now2 t) r else r)
  end.

Inductive Call :=
  | NewStream (now : instant)
  | Received (keyframe dropped_delta : bool) (now : instant)
  | Decoded
  | Tick (t : Round).

Definition call (c : Call) (r : StartupRecovery)
    : option (StartupRecoveryAction * bool) * StartupRecovery :=
  match c with
  | NewStream now => (None, new_stream now r)
  | Received k d now => (None, received k d now r)
  | Decoded => (None, set_decoded r)
  | Tick t => let '(o, r) := round t r in ((fun a => (a, r_sent t)) <$> o, r)
  end.

(** Results of a run: a budgeted action that was sent, and a reported failure. *)
Definition sent_reference (o : option (StartupRecoveryAction * bool)) : bool :=
  match o with Some (Reference, true) => true | _ => false end.
Definition sent_capture (o : option (StartupRecoveryAction * bool)) : bool :=
  match o with Some (Capture, true) => true | _ => false end.
Definition reported_failure (o : option (StartupRecoveryAction * bool)) : bool :=
  match o with Some (Failed, _) => true | _ => false end.
Definition any_action (o : option (StartupRecoveryAction * bool)) : bool := is_some o.

Definition undecoded (c : Call) : Prop := c <> Decoded.

(** [next] in one view: what it returns and which fields it can change. *)
Lemma next_spec now k sc r :
  let '(o, r') := next now k sc r in
  reference_attempts r' = reference_attempts r /\
  capture_attempts r' = capture_attempts r /\
  decoded r' = decoded r /\
  match o with
  | Some Failed => failed r = false /\ failed r' = true
  | Some Reference => reference_attempts r < MAX_REFERENCES /\ k = true /\ sc = true
      /\ failed r = false /\ failed r' = false
  | Some Capture => capture_attempts r < MAX_CAPTURE_RETRIES
      /\ failed r = false /\ failed r' = false
  | None => failed r' = failed r
  end.
Proof.
  unfold next; repeat case_match; simplify_eq/=; bools; split_and!; (done || lia).
Qed.

(** The budget of one activation, and what a call spends of it. *)
Definition within_budget (r : StartupRecovery) : Prop :=
  decoded r = false /\ reference_attempts r <= MAX_REFERENCES /\
  capture_attempts r <= MAX_CAPTURE_RETRIES.

Definition fail_budget (r : StartupRecovery) : Z := Z.b2z (negb (failed r)).

Lemma call_budget c r :
  undecoded c -> within_budget r ->
  let '(o, r') := call c r in
  within_budget r' /\
  reference_attempts r' = Z.b2z (sent_reference o) + reference_attempts r /\
  capture_attempts r' = Z.b2z (sent_capture o) + capture_attempts r /\
  fail_budget r = Z.b2z (reported_failure o) + fail_budget r'.
Proof.
  unfold undecoded, within_budget, fail_budget; intros Hc (Hd & Hr & Hca).
  destruct c as [now|k d now| |t]; simpl; [| |done|].
  - unfold new_stream; rewrite Hd; simpl; split_and!; (done || lia).
  - unfold received; repeat case_match; simpl; split_and!; (done || lia).
  - unfold round; pose proof (next_spec (r_now t) (r_known t) (r_scoped t) r) as Hn.
    destruct (next _ _ _ r) as [[[]|] r1]; simpl in *; destruct_and!.
    1,2: destruct (r_sent t); simpl.
    all: split_and!; try congruence; try lia; use_bools; try lia.
    by match goal with H : failed _ = _ |- _ => rewrite H end.
Qed.

Lemma execs_budget cs r :
  Forall undecoded cs -> within_budget r ->
  let os := (execs call cs r).1 in let r' := (execs call cs r).2 in
  within_budget r' /\
  reference_attempts r' = count_if sent_reference os + reference_attempts r /\
  capture_attempts r' = count_if sent_capture os + capture_attempts r /\
  fail_budget r = count_if reported_failure os + fail_budget r'.
Proof.
  intros Hcs; revert r; induction Hcs as [|c cs Hc Hcs IH]; intros r Hr; [done|].
  rewrite execs_cons; simpl.
  pose proof (call_budget c r Hc Hr) as Hb; destruct (call c r) as [o r1]; simpl.
  destruct Hb as (Hr1 & ? & ? & ?); destruct (IH r1 Hr1) as (? & ? & ? & ?).
  split_and!; (done || lia).
Qed.

(** A failed activation asks for nothing more until it decodes. *)
Lemma failed_silent cs r :
  Forall undecoded cs -> decoded r = false -> failed r = true ->
  count_if any_action (execs call cs r).1 = 0.
Proof.
  intros Hcs; revert r; induction Hcs as [|c cs Hc Hcs IH]; intros r Hd Hf; [done|].
  rewrite execs_cons; destruct c as [now|k d now| |t]; simpl.
  - by rewrite IH; unfold new_stream; rewrite ?Hd.
  - by rewrite IH; unfold received; destruct k, d.
  - by destruct Hc.
  - unfold round, next; rewrite Hd, Hf; simpl; by rewrite IH.
Qed.

(** When an undecoded activation must have given up: [STARTUP_LIMIT] after [t0]. *)
Definition started (t0 : instant) (r : StartupRecovery) : Prop :=
  decoded r = false /\ since_ r = Some t0.

Lemma started_call t0 c r :
  undecoded c -> started t0 r -> True /\ started t0 (call c r).2.
Proof.
  intros Hc [Hd Hs]; split; [done|]; unfold started; destruct c as [now|k d now| |t]; simpl.
  - unfold new_stream; rewrite Hd; simpl; by rewrite Hs.
  - unfold received; destruct k, d; simpl; by rewrite Hs.
  - by destruct Hc.
  - unfold round, next; rewrite Hd, Hs; simpl.
    repeat case_match; simplify_eq/=; done.
Qed.

(** One activation has one recovery budget: whatever the streams, frames,
    ticks and delivery outcomes, as long as no frame of the display decodes, at
    most [MAX_REFERENCES] reference requests and [MAX_CAPTURE_RETRIES] capture
    restarts are ever sent, and failure is reported at most once. *)
Theorem startup_budget cs :
  Forall undecoded cs ->
  let os := (execs call cs default_startup).1 in
  count_if sent_reference os <= MAX_REFERENCES /\
  count_if sent_capture os <= MAX_CAPTURE_RETRIES /\
  count_if reported_failure os <= 1.
Proof.
  intros Hcs os.
  destruct (execs_budget cs default_startup Hcs) as ((Hd & ? & ?) & ? & ? & Hf); [done|].
  unfold fail_budget in Hf; simpl in *; subst os.
  destruct (failed _); simpl in *; lia.
Qed.

Definition tick_at (t : instant) : Call :=
  Tick {| r_now := t; r_known := true; r_scoped := true;
          r_now1 := t; r_sent := true; r_now2 := t |}.

Lemma startup_budget_witness :
  count_if sent_reference
    (execs call (tick_at <$> [0; 1000000000; 2000000000; 3000000000; 4000000000])
       default_startup).1 = 3 /\
  count_if sent_reference
    (execs call (tick_at <$> [0; 1000000000; 2000000000; 3000000000; 4000000000])
       default_startup).1 <= MAX_REFERENCES.
Proof.
  split; [reflexivity|].
  apply (startup_budget (tick_at <$> [0; 1000000000; 2000000000; 3000000000; 4000000000])).
  repeat (constructor; [discriminate|]); constructor.
Defined.

(** Startup recovery terminates: if the activation became active at [t0]
    and nothing has decoded, then by the first tick at or after
    [t0 + STARTUP_LIMIT] it is in the failed state, and from then on it asks
    for nothing more until a frame decodes. *)
Theorem startup_gives_up t0 r cs t cs' :
  started t0 r -> Forall undecoded cs -> Forall undecoded cs' ->
  t0 + STARTUP_LIMIT <= r_now t ->
  let r1 := (call (Tick t) (execs call cs r).2).2 in
  is_failed r1 = true /\ count_if any_action (execs call cs' r1).1 = 0.
Proof.
  intros Hst Hcs Hcs' Ht r1.
  destruct (execs_invariant call (started t0) undecoded (fun _ _ => True)
              (started_call t0) cs r Hcs Hst) as [_ [Hd Hs]].
  destruct (started_call t0 (Tick t) _ ltac:(discriminate) (conj Hd Hs)) as [_ [Hd1 _]].
  assert (is_failed r1 = true) as Hf.
  { subst r1; unfold is_failed; simpl; unfold round, next; rewrite Hd, Hs; simpl.
    destruct (failed (execs call cs r).2) eqn:Hf0; simpl; [done|].
    unfold since in *; by assert ((STARTUP_LIMIT <=? Z.max (r_now t - t0) 0) = true) as -> by lia. }
  split; [done|by apply failed_silent].
Qed.

Lemma startup_gives_up_witness :
  is_failed (call (tick_at 110000000000)
    (execs call [Received false true 5; tick_at 7] (new_stream 0 default_startup)).2).2 = true.
Proof.
  refine (proj1 (startup_gives_up 0 (new_stream 0 default_startup)
                   [Received false true 5; tick_at 7] _ [] _ _ _ _));
    try (repeat (constructor; try discriminate); fail).
  vm_compute; discriminate.
Defined.
