(* ===== verification/DisplayStartup.v ===== *)
(** * Display startup controller of the viewer's I/O loop

    Models the [DisplayStartupController] of src/src/client/io_loop.rs, which
    owns the startup state of every display the viewer wants, and the
    [DisplayMediaIntent] of src/src/client.rs it follows.  The
    [Arc<AtomicU64>] a display shares with its render thread is a cell of an
    explicit store, so that who can still write it is part of the model. *)

From stdpp Require Import sorting.
From S2P Require Import Prelude StartupRecovery.

Record DisplayActivation := {
  display : Z;
  generation : Z;
  view_count : Z;
}.

Record DisplayMediaIntent := {
  logical_session_generation : Z;
  aggregate_generation : Z;
  displays : list DisplayActivation;
  replacement_display : option Z;
}.

(** [binary_search_by_key] on the aggregator's list, which is ordered by
    display: the entry of that display, when there is one. *)
Definition intent_activation (i : DisplayMediaIntent) (d : Z) : option DisplayActivation :=
  snd <$> list_find (fun a => display a = d) (displays i).

(** The shared cells: [alloc] is [Arc::new(AtomicU64::new(0))]. *)
Record Cells := { next_cell : nat; value : gmap nat Z }.
#[export] Instance eta_Cells : Eta Cells := fun r => Build_Cells (next_cell r) (value r).

Definition alloc (c : Cells) : nat * Cells :=
  (next_cell c, c <| value ::= <[next_cell c := 0]> |> <| next_cell ::= S |>).
Definition store (l : nat) (v : Z) (c : Cells) : Cells := c <| value ::= <[l := v]> |>.

Record DisplayStartupState := {
  activation_generation : Z;
  stream_id : Z;
  render_stream_id : nat;
  first_frame_received : bool;
  received_frame_id : Z;
  recovery : StartupRecovery;
}.
#[export] Instance eta_DisplayStartupState : Eta DisplayStartupState := fun r =>
  Build_DisplayStartupState (activation_generation r) (stream_id r) (render_stream_id r)
    (first_frame_received r) (received_frame_id r) (recovery r).

Definition new_state (activation_generation : Z) (c : Cells) : DisplayStartupState * Cells :=
  let '(l, c) := alloc c in
  ({| activation_generation := activation_generation; stream_id := 0;
      render_stream_id := l; first_frame_received := false; received_frame_id := 0;
      recovery := default_startup |}, c).

(** [Ok(changed)] is [inl], [Err(expected)] is [inr]. *)
Definition begin_stream (sid : Z) (now : instant) (st : DisplayStartupState) (c : Cells)
    : (bool + Z) * DisplayStartupState * Cells :=
  if stream_id st =? sid then (inl false, st, c)
  else if negb (stream_id st =? 0) && ((sid =? 0) || (sid <? stream_id st))
  then (inr (stream_id st), st, c)
  else (inl true,
        st <| stream_id := sid |>
           <| first_frame_received := false |>
           <| received_frame_id := 0 |>
           <| recovery ::= new_stream now |>,
        store (render_stream_id st) sid c).

Inductive DisplayStartupFrameAction :=
  | RejectUndesired
  | RejectStaleStream (expected_stream_id : Z)
  | WaitForKeyframe
  | Accept (first_for_display stream_changed : bool) (activation_generation : Z).

Definition should_wait_for_startup_keyframe (frame_id : Z) (payload : option (Z * Z * bool))
    : bool :=
  negb (frame_id =? 0) && is_some_and payload (fun p => negb p.2).

Record DisplayStartupController := {
  c_logical_session_generation : Z;
  c_aggregate_generation : Z;
  c_displays : gmap Z DisplayStartupState;
  cells : Cells;
}.
#[export] Instance eta_DisplayStartupController : Eta DisplayStartupController := fun r =>
  Build_DisplayStartupController (c_logical_session_generation r)
    (c_aggregate_generation r) (c_displays r) (cells r).

Definition default_controller : DisplayStartupController :=
  {| c_logical_session_generation := 0; c_aggregate_generation := 0; c_displays := ∅;
     cells := {| next_cell := 0; value := ∅ |} |}.

(** Keys of the [BTreeMap] in its iteration order. *)
Definition sorted_keys {A} (m : gmap Z A) : list Z := merge_sort Z.le (elements (dom m)).

Definition matches_intent (i : DisplayMediaIntent) (d : Z) (st : DisplayStartupState) : bool :=
  is_some_and (intent_activation i d)
    (fun a => generation a =? activation_generation st).

Definition retired_displays (i : DisplayMediaIntent) (m : gmap Z DisplayStartupState)
    : list Z :=
  filter (fun d => is_some_and (m !! d) (fun st => negb (matches_intent i d st)) = true)
         (sorted_keys m).

Definition retire (d : Z) (t : DisplayStartupController) : DisplayStartupController :=
  match c_displays t !! d with
  | Some st => t <| c_displays ::= delete d |>
                 <| cells ::= store (render_stream_id st) 0 |>
  | None => t
  end.

Definition activate (d g : Z) (t : DisplayStartupController) : DisplayStartupController :=
  match c_displays t !! d with
  | Some _ => t
  | None =>
      let '(st, c) := new_state g (cells t) in
      t <| c_displays ::= <[d := st]> |> <| cells := c |>
  end.

Definition reconcile (i : DisplayMediaIntent) (t : DisplayStartupController)
    : list Z * DisplayStartupController :=
  let retired := retired_displays i (c_displays t) in
  let t := foldl (fun t d => retire d t) t retired in
  let t := foldl (fun t a => activate (display a) (generation a) t) t (displays i) in
  (retired,
   t <| c_logical_session_generation := logical_session_generation i |>
     <| c_aggregate_generation := aggregate_generation i |>).

Definition ensure_legacy_display (d : Z) (t : DisplayStartupController)
    : option DisplayActivation * DisplayStartupController :=
  let t := activate d 1 t in
  ((fun st => {| display := d; generation := activation_generation st; view_count := 1 |})
     <$> c_displays t !! d, t).

Definition activation (d : Z) (t : DisplayStartupController) : option DisplayActivation :=
  (fun st => {| display := d; generation := activation_generation st; view_count := 1 |})
    <$> c_displays t !! d.

Definition observe_frame (d sid frame_id : Z) (payload : option (Z * Z * bool))
    (now : instant) (t : DisplayStartupController)
    : DisplayStartupFrameAction * DisplayStartupController :=
  match c_displays t !! d with
  | None => (RejectUndesired, t)
  | Some st =>
      match begin_stream sid now st (cells t) with
      | (inr expected, _, _) => (RejectStaleStream expected, t)
      | (inl stream_changed, st, c) =>
          let st := st <| received_frame_id ::= fun r => Z.max r frame_id |> in
          let dropped_delta := negb (first_frame_received st)
                               && should_wait_for_startup_keyframe frame_id payload in
          let st := st <| recovery ::=
                       received (is_some_and payload (fun p => p.2)) dropped_delta now |> in
          if dropped_delta
          then (WaitForKeyframe, t <| c_displays ::= <[d := st]> |> <| cells := c |>)
          else
            let first_for_display := negb (first_frame_received st) in
            let st := st <| first_frame_received := true |> in
            (Accept first_for_display stream_changed (activation_generation st),
             t <| c_displays ::= <[d := st]> |> <| cells := c |>)
      end
  end.

Definition tick_display (now : instant) (scoped_supported : bool) (d : Z)
    (t : DisplayStartupController) : list (Z * StartupRecoveryAction) * DisplayStartupController :=
  match c_displays t !! d with
  | None => ([], t)
  | Some st =>
      let '(o, r) := next now (negb (stream_id st =? 0) && negb (received_frame_id st =? 0))
                       scoped_supported (recovery st) in
      let t := t <| c_displays ::= <[d := st <| recovery := r |>]> |> in
      (match o with Some a => [(d, a)] | None => [] end, t)
  end.

Definition tick (expects_video is_connected scoped_supported : bool) (now : instant)
    (t : DisplayStartupController) : list (Z * StartupRecoveryAction) * DisplayStartupController :=
  if negb expects_video || negb is_connected then ([], t)
  else foldl (fun '(acc, t) d =>
                let '(a, t) := tick_display now scoped_supported d t in (acc ++ a, t))
             ([], t) (sorted_keys (c_displays t)).

(** The operations of the I/O loop on the controller; [Recovery d f] is the
    loop's direct use of one display's recovery ([attempted], [admitted],
    [decoded]). *)
Inductive Call :=
  | Reconcile (i : DisplayMediaIntent)
  | EnsureLegacyDisplay (d : Z)
  | ObserveFrame (d sid frame_id : Z) (payload : option (Z * Z * bool)) (now : instant)
  | Tick (expects_video is_connected scoped_supported : bool) (now : instant)
  | Recovery (d : Z) (f : StartupRecovery -> StartupRecovery).

Definition run_call (c : Call) (t : DisplayStartupController) : DisplayStartupController :=
  match c with
  | Reconcile i => (reconcile i t).2
  | EnsureLegacyDisplay d => (ensure_legacy_display d t).2
  | ObserveFrame d sid f p now => (observe_frame d sid f p now t).2
  | Tick e c s now => (tick e c s now t).2
  | Recovery d f => t <| c_displays ::= alter (fun st => st <| recovery ::= f |>) d |>
  end.

Definition step (t : DisplayStartupController) (c : Call) (t' : DisplayStartupController) : Prop :=
  run_call c t = t'.

(** [owns t d l]: display [d] renders through cell [l]. *)
Definition owns (t : DisplayStartupController) (d : Z) (l : nat) : Prop :=
  exists st, c_displays t !! d = Some st /\ render_stream_id st = l.

(** Every allocated cell holds the stream of the display that owns it, or 0
    when no display does; no cell has two owners. *)
Record cells_wf (t : DisplayStartupController) : Prop := {
  owned_current d st : c_displays t !! d = Some st ->
    value (cells t) !! render_stream_id st = Some (stream_id st) /\
    (render_stream_id st < next_cell (cells t))%nat;
  owner_unique d1 d2 l : owns t d1 l -> owns t d2 l -> d1 = d2;
  unowned_zero l : (l < next_cell (cells t))%nat ->
    (forall d, ~ owns t d l) -> value (cells t) !! l = Some 0;
}.

(** A cell that was handed out and that no display owns any more. *)
Definition retired_cell (l : nat) (t : DisplayStartupController) : Prop :=
  (l < next_cell (cells t))%nat /\ forall d, ~ owns t d l.

(** [t'] is well formed and gives no retired cell of [t] a new owner. *)
Definition keeps (t t' : DisplayStartupController) : Prop :=
  cells_wf t' /\ forall l, retired_cell l t -> retired_cell l t'.

Lemma keeps_trans t1 t2 t3 :
  keeps t1 t2 -> (cells_wf t2 -> keeps t2 t3) -> keeps t1 t3.
Proof. intros [Hw Hr] H; destruct (H Hw); split; auto. Qed.

(** Replacing a display's state without changing its cell keeps the invariant
    when the cell follows the stream. *)
Lemma cells_wf_update t d st st' v :
  cells_wf t -> c_displays t !! d = Some st ->
  render_stream_id st' = render_stream_id st -> stream_id st' = v ->
  keeps t (t <| c_displays ::= <[d := st']> |> <| cells ::= store (render_stream_id st) v |>).
Proof.
  intros [Ho Hu Hz] Hd Hr Hs.
  lazymatch goal with |- keeps _ ?x => set (t' := x) end.
  assert (forall d' l, owns t' d' l <-> owns t d' l) as Hown.
  { intros d' l; unfold t', owns; simpl; split; intros (s0 & Hl & <-).
    - apply lookup_insert_Some in Hl as [[<- <-]|[? ?]]; eauto.
    - destruct (decide (d = d')) as [<-|].
      + simplify_eq; exists st'; by rewrite lookup_insert_eq.
      + exists s0; by rewrite lookup_insert_ne. }
  split.
  - constructor; simpl.
    + intros d' st0 Hl; apply lookup_insert_Some in Hl as [[<- <-]|[Hne Hl]].
      * rewrite Hr, Hs, lookup_insert_eq; split; [done|by eapply Ho].
      * destruct (Ho _ _ Hl) as [Hv Hlt]; split; [|done].
        rewrite lookup_insert_ne; [done|]. intros Heq; apply Hne.
        apply (Hu d d' (render_stream_id st)); [by exists st|by exists st0].
    + intros d1 d2 l; rewrite !Hown; apply Hu.
    + intros l Hlt Hno; rewrite lookup_insert_ne.
      * apply Hz; [done|]. intros d'; rewrite <- Hown; apply Hno.
      * intros <-; apply (Hno d), Hown; by exists st.
  - intros l [Hlt Hno]; split; [done|]. intros d'; rewrite Hown; apply Hno.
Qed.

Lemma store_same t d st :
  cells_wf t -> c_displays t !! d = Some st ->
  cells t <| value ::= <[render_stream_id st := stream_id st]> |> = cells t.
Proof.
  intros [Ho _ _] Hd; destruct (Ho _ _ Hd) as [Hv _].
  destruct (cells t) as [n m]; simpl in *; f_equal; by apply insert_id.
Qed.

(** The same without touching the cells. *)
Lemma cells_wf_keep t d st st' :
  cells_wf t -> c_displays t !! d = Some st ->
  render_stream_id st' = render_stream_id st -> stream_id st' = stream_id st ->
  keeps t (t <| c_displays ::= <[d := st']> |>).
Proof.
  intros Hwf Hd Hr Hs.
  pose proof (cells_wf_update t d st st' (stream_id st) Hwf Hd Hr Hs) as H.
  pose proof (store_same t d st Hwf Hd) as Hst.
  destruct t; simpl in *; unfold store in H; simpl in H; rewrite Hst in H; exact H.
Qed.

Lemma retire_wf d t :
  cells_wf t -> keeps t (retire d t).
Proof.
  intros Hwf; unfold retire; destruct (c_displays t !! d) as [st|] eqn:Hd; [|by split].
  destruct Hwf as [Ho Hu Hz].
  lazymatch goal with |- keeps _ ?x => set (t' := x) end.
  assert (forall d' l, owns t' d' l <-> d <> d' /\ owns t d' l) as Hown.
  { intros d' l; unfold t', owns; simpl; split.
    - intros (s0 & Hl & <-); apply lookup_delete_Some in Hl as [? ?]; eauto.
    - intros (Hne & s0 & Hl & <-); exists s0; by rewrite lookup_delete_ne. }
  split.
  - constructor; simpl.
    + intros d' st0 Hl; apply lookup_delete_Some in Hl as [Hne Hl].
      destruct (Ho _ _ Hl) as [Hv Hlt]; split; [|done].
      rewrite lookup_insert_ne; [done|]. intros Heq; apply Hne.
      apply (Hu d d' (render_stream_id st)); [by exists st|by exists st0].
    + intros d1 d2 l; rewrite !Hown; intros [_ ?] [_ ?]; by eapply Hu.
    + intros l Hlt Hno; destruct (decide (l = render_stream_id st)) as [->|Hne].
      * apply lookup_insert_eq.
      * rewrite lookup_insert_ne by done; apply Hz; [done|]. intros d' Hd'.
        apply (Hno d'), Hown; split; [|done]. intros <-.
        destruct Hd' as (st0 & ? & <-); simplify_eq.
  - intros l [Hlt Hno]; split; [done|]. intros d'; rewrite Hown; intros [_ ?]; by eapply Hno.
Qed.

Lemma activate_wf d g t :
  cells_wf t -> keeps t (activate d g t).
Proof.
  intros Hwf; unfold activate; destruct (c_displays t !! d) as [st|] eqn:Hd; [by split|].
  destruct Hwf as [Ho Hu Hz]; unfold new_state; simpl.
  lazymatch goal with |- keeps _ ?x => set (t' := x) end.
  assert (forall d' l, owns t' d' l <->
            (d = d' /\ l = next_cell (cells t)) \/ owns t d' l) as Hown.
  { intros d' l; unfold t', owns; simpl; split.
    - intros (s0 & Hl & <-); apply lookup_insert_Some in Hl as [[<- <-]|[? ?]]; eauto.
    - intros [[<- ->]|(s0 & Hl & <-)]; eexists; split; try apply lookup_insert_eq; try done.
      rewrite lookup_insert_ne; [done|congruence]. }
  split.
  - constructor; simpl.
    + intros d' st0 Hl; apply lookup_insert_Some in Hl as [[<- <-]|[Hne Hl]]; simpl.
      * split; [by rewrite lookup_insert_eq|lia].
      * destruct (Ho _ _ Hl) as [Hv Hlt]; rewrite lookup_insert_ne by lia; auto.
    + intros d1 d2 l; rewrite !Hown.
      intros [[<- ->]|H1] [[<- Hl]|H2]; [done| | |by eapply Hu].
      * destruct H2 as (s & Hs & Hc); destruct (Ho _ _ Hs); lia.
      * destruct H1 as (s & Hs & Hc); destruct (Ho _ _ Hs); lia.
    + intros l Hlt Hno; destruct (decide (l = next_cell (cells t))) as [->|Hne].
      * by rewrite lookup_insert_eq.
      * rewrite lookup_insert_ne by done; apply Hz; [lia|].
        intros d' ?; apply (Hno d'), Hown; by right.
  - intros l [Hlt Hno]; split; [simpl; lia|].
    intros d'; rewrite Hown; intros [[<- ->]|?]; [lia|by eapply Hno].
Qed.

#[local] Arguments received : simpl never.
#[local] Arguments next : simpl never.

Lemma foldl_keeps {A} (f : DisplayStartupController -> A -> DisplayStartupController) l t :
  (forall t a, cells_wf t -> keeps t (f t a)) -> cells_wf t -> keeps t (foldl f t l).
Proof.
  intros Hf; revert t; induction l as [|a l IH]; intros t Hwf; simpl; [by split|].
  eapply keeps_trans; [by apply Hf|apply IH].
Qed.

(** The session generations are not part of the invariant. *)
Lemma keeps_generations t a b :
  cells_wf t -> keeps t (t <| c_logical_session_generation := a |>
                           <| c_aggregate_generation := b |>).
Proof. intros [Ho Hu Hz]; split; [by constructor|done]. Qed.

Lemma observe_frame_keeps d sid f p now t :
  cells_wf t -> keeps t (observe_frame d sid f p now t).2.
Proof.
  intros Hwf; unfold observe_frame.
  destruct (c_displays t !! d) as [st|] eqn:Hd; [|by split].
  unfold begin_stream; destruct (stream_id st =? sid) eqn:Hsid.
  - match goal with |- context [if ?b then _ else _] => destruct b end;
      by apply (cells_wf_keep t d st).
  - destruct (_ && _)%bool; [by split|].
    match goal with |- context [if ?b then _ else _] => destruct b end;
      by apply cells_wf_update.
Qed.

Lemma tick_display_keeps now sc d t :
  cells_wf t -> keeps t (tick_display now sc d t).2.
Proof.
  intros Hwf; unfold tick_display; destruct (c_displays t !! d) as [st|] eqn:Hd; [|by split].
  destruct (next _ _ _ _) as [o r]; simpl; by eapply cells_wf_keep.
Qed.

Lemma run_call_keeps c t : cells_wf t -> keeps t (run_call c t).
Proof.
  intros Hwf; destruct c as [i|d|d sid f p now|e cn sc now|d f]; simpl.
  - eapply keeps_trans; [|apply keeps_generations].
    eapply keeps_trans; [apply (foldl_keeps (fun t d => retire d t)); auto using retire_wf|].
    intros ?; apply (foldl_keeps (fun t a => activate (display a) (generation a) t));
      auto using activate_wf.
  - by apply activate_wf.
  - by apply observe_frame_keeps.
  - unfold tick; destruct (_ || _)%bool; [by split|].
    generalize (@nil (Z * StartupRecoveryAction)) as acc.
    generalize (sorted_keys (c_displays t)) as ks; intros ks.
    clear e cn; revert t Hwf; induction ks as [|k ks IH]; intros t Hwf acc; simpl; [by split|].
    pose proof (tick_display_keeps now sc k t Hwf) as Hk.
    destruct (tick_display now sc k t) as [a t1]; simpl in Hk.
    eapply keeps_trans; [exact Hk|intros ?; by apply IH].
  - destruct (c_displays t !! d) as [st|] eqn:Hd.
    + replace (alter _ d (c_displays t)) with
        (<[d := st <| recovery ::= f |>]> (c_displays t)); [by eapply cells_wf_keep|].
      apply map_eq; intros k; destruct (decide (d = k)) as [<-|].
      * by rewrite lookup_insert_eq, lookup_alter_eq, Hd.
      * by rewrite lookup_insert_ne, lookup_alter_ne.
    + rewrite alter_id; [by destruct t; split|]; congruence.
Qed.

Definition initial (t : DisplayStartupController) : Prop := t = default_controller.

Lemma default_cells_wf : cells_wf default_controller.
Proof.
  constructor; simpl.
  - intros d st Hl; by rewrite lookup_empty in Hl.
  - intros d1 d2 l (st & Hl & _); simpl in Hl; by rewrite lookup_empty in Hl.
  - intros l Hlt; lia.
Qed.

(** The cell a display shares with its render thread always tells the truth:
    in every state the I/O loop can reach, the cell of a live display holds
    that display's current stream, two displays never share a cell, and every
    cell whose display was retired holds 0, which no later operation
    overwrites. *)
Theorem render_cells_truthful t :
  reachable initial step t ->
  cells_wf t /\
  forall l cs t', retired_cell l t -> run step t cs t' -> value (cells t') !! l = Some 0.
Proof.
  intros Hr; assert (cells_wf t) as Hwf.
  { revert t Hr; apply invariant_reachable; [intros ? ->; apply default_cells_wf|].
    intros t c t' Ht <-; by apply run_call_keeps. }
  split; [done|]; intros l cs t' Hl Hrun.
  assert (cells_wf t' /\ retired_cell l t') as [Hwf' [Hlt Hno]].
  { eapply (run_invariant step (fun t => cells_wf t /\ retired_cell l t)); [|done|done].
    intros t1 c t2 [Hw1 Hl1] <-; destruct (run_call_keeps c t1 Hw1); auto. }
  by apply (unowned_zero _ Hwf').
Qed.

Definition one_display (d g : Z) : DisplayMediaIntent :=
  {| logical_session_generation := 1; aggregate_generation := g;
     displays := [{| display := d; generation := g; view_count := 1 |}];
     replacement_display := None |}.

Lemma render_cells_truthful_witness :
  let t := run_call (ObserveFrame 0 7 1 (Some (0, 0, true)) 5)
             (run_call (Reconcile (one_display 0 1)) default_controller) in
  reachable initial step t /\ cells_wf t /\
  value (cells (run_call (Reconcile (one_display 0 2)) t)) !! 0%nat = Some 0.
Proof.
  intros t; assert (reachable initial step t) as Hr.
  { eapply reachable_step; [eapply reachable_step; [by apply reachable_init|]|]; reflexivity. }
  split; [done|].
  destruct (render_cells_truthful t Hr) as [Hwf _]; split; [done|].
  assert (reachable initial step (run_call (Reconcile (one_display 0 2)) t)) as Hr2.
  { by eapply reachable_step. }
  destruct (render_cells_truthful _ Hr2) as [_ Hz]; eapply Hz; [|apply run_nil].
  split; [vm_compute; lia|].
  intros d (st & Hl & Hc); apply elem_of_map_to_list in Hl.
  vm_compute in Hl; apply list_elem_of_singleton in Hl; injection Hl as -> ->; discriminate Hc.
Defined.

(** The startup gate of one frame: an accepted frame belongs to an active
    display, carries its activation generation and never an older stream; the
    first frame accepted after an activation or a stream change is a keyframe
    (unless the host sends no frame id or the payload kind is unknown); a stale
    frame changes nothing. *)
Theorem observe_frame_gate d sid fid p now t :
  let '(a, t') := observe_frame d sid fid p now t in
  match a with
  | RejectUndesired => c_displays t !! d = None /\ t' = t
  | RejectStaleStream expected =>
      (exists st, c_displays t !! d = Some st /\ expected = stream_id st /\
         expected <> 0 /\ (sid = 0 \/ sid < expected)) /\ t' = t
  | WaitForKeyframe => fid <> 0 /\ exists pay, p = Some pay /\ pay.2 = false
  | Accept first changed g =>
      exists st st', c_displays t !! d = Some st /\ c_displays t' !! d = Some st' /\
        g = activation_generation st /\ stream_id st' = sid /\
        (stream_id st = 0 \/ stream_id st <= sid) /\
        (changed = true -> first = true /\ stream_id st <> sid) /\
        (first = true -> should_wait_for_startup_keyframe fid p = false) /\
        (first = false -> first_frame_received st = true) /\
        first_frame_received st' = true
  end.
Proof.
  unfold observe_frame; destruct (c_displays t !! d) as [st|] eqn:Hd; [|done].
  unfold begin_stream; destruct (Z.eqb_spec (stream_id st) sid) as [Hs|Hs].
  - destruct (first_frame_received st) eqn:Hf; simpl;
      [|destruct (should_wait_for_startup_keyframe fid p) eqn:Hw; simpl]; rewrite ?Hf; simpl.
    + exists st; eexists; rewrite lookup_insert_eq; split_and!; try done; right; lia.
    + unfold should_wait_for_startup_keyframe in Hw; bools; destruct p as [pay|]; [|done].
      simpl in *; bools; split; [lia|by exists pay].
    + exists st; eexists; rewrite lookup_insert_eq; split_and!; try done; right; lia.
  - destruct (negb _ && _)%bool eqn:Hst; bools.
    + split; [|done]. exists st; split_and!; try done; [lia|].
      apply orb_true_iff in H0 as [?|?]; lia.
    + simpl; destruct (should_wait_for_startup_keyframe fid p) eqn:Hw; simpl.
      * unfold should_wait_for_startup_keyframe in Hw; bools; destruct p as [pay|]; [|done].
        simpl in *; bools; split; [lia|by exists pay].
      * exists st; eexists; rewrite lookup_insert_eq; split_and!; try done.
        apply andb_false_iff in Hst as [?|?]; bools; lia.
Qed.

Lemma elem_of_sorted_keys {A} (m : gmap Z A) k : k ∈ sorted_keys m <-> is_Some (m !! k).
Proof.
  unfold sorted_keys; rewrite (merge_sort_Permutation Z.le (elements (dom m))).
  by rewrite elem_of_elements, elem_of_dom.
Qed.

Lemma retire_lookup d d' t :
  c_displays (retire d t) !! d' = if decide (d = d') then None else c_displays t !! d'.
Proof.
  unfold retire; destruct (c_displays t !! d) eqn:Hd; simpl; [apply lookup_delete|].
  case_decide; congruence.
Qed.

Lemma retire_all_lookup l t d :
  c_displays (foldl (fun t d => retire d t) t l) !! d =
    if decide (d ∈ l) then None else c_displays t !! d.
Proof.
  revert t; induction l as [|k l IH]; intros t; simpl; [done|].
  rewrite IH, retire_lookup.
  destruct (decide (d ∈ l)), (decide (k = d)), (decide (d ∈ k :: l)); try done; set_solver.
Qed.

(** The state a display starts with, whatever its cell. *)
Definition fresh_state (g : Z) (st : DisplayStartupState) : Prop :=
  activation_generation st = g /\ stream_id st = 0 /\ first_frame_received st = false /\
  received_frame_id st = 0 /\ recovery st = default_startup.

Lemma activate_lookup d g d' t :
  match c_displays t !! d' with
  | Some st => c_displays (activate d g t) !! d' = Some st
  | None => if decide (d = d')
            then exists st, c_displays (activate d g t) !! d' = Some st /\ fresh_state g st
            else c_displays (activate d g t) !! d' = None
  end.
Proof.
  unfold activate; destruct (c_displays t !! d) eqn:Hd;
    destruct (c_displays t !! d') eqn:Hd'; simpl; try case_decide; subst; try congruence.
  - rewrite lookup_insert_ne by congruence; done.
  - rewrite lookup_insert_eq; by eexists.
  - by rewrite lookup_insert_ne.
Qed.

Lemma activate_all_lookup l t d :
  let t' := foldl (fun t a => activate (display a) (generation a) t) t l in
  match c_displays t !! d with
  | Some st => c_displays t' !! d = Some st
  | None => match snd <$> list_find (fun a => display a = d) l with
            | Some a => exists st, c_displays t' !! d = Some st /\ fresh_state (generation a) st
            | None => c_displays t' !! d = None
            end
  end.
Proof.
  revert t; induction l as [|a l IH]; intros t; simpl; [by destruct (c_displays t !! d)|].
  specialize (IH (activate (display a) (generation a) t)); simpl in IH.
  pose proof (activate_lookup (display a) (generation a) d t) as Ha.
  destruct (c_displays t !! d) as [st|]; [by rewrite Ha in IH|].
  destruct (decide (display a = d)) as [Heq|Hne]; simpl.
  - destruct Ha as (st & Hst & Hf); rewrite Hst in IH; eauto.
  - rewrite Ha in IH; by destruct (list_find _ l) as [[]|].
Qed.

(** Reconciliation makes the controller follow the viewer's intent exactly:
    afterwards a display has startup state if and only if the intent lists it;
    a display already active under the listed generation keeps its state
    untouched, and any other listed display starts afresh under its generation. *)
Theorem reconcile_follows_intent i t d :
  let t' := (reconcile i t).2 in
  match intent_activation i d with
  | None => c_displays t' !! d = None
  | Some a =>
      exists st', c_displays t' !! d = Some st' /\
        activation_generation st' = generation a /\
        match c_displays t !! d with
        | Some st => if decide (activation_generation st = generation a)
                     then st' = st else fresh_state (generation a) st'
        | None => fresh_state (generation a) st'
        end
  end.
Proof.
  unfold reconcile; simpl; set (t1 := foldl (fun t d => retire d t) t _).
  pose proof (activate_all_lookup (displays i) t1 d) as Ha; simpl in Ha.
  assert (c_displays t1 !! d =
    if is_some_and (c_displays t !! d) (matches_intent i d) then c_displays t !! d else None)
    as Ht1.
  { subst t1; rewrite retire_all_lookup; unfold retired_displays.
    destruct (c_displays t !! d) as [st|] eqn:Hd; simpl.
    - destruct (matches_intent i d st) eqn:Hm; [rewrite decide_False|rewrite decide_True]; try done.
      + rewrite list_elem_of_filter, Hd; simpl; rewrite Hm; naive_solver.
      + rewrite list_elem_of_filter, elem_of_sorted_keys, Hd; simpl; rewrite Hm; eauto.
    - by case_decide. }
  unfold intent_activation in *; unfold matches_intent, intent_activation in Ht1.
  destruct (snd <$> list_find _ (displays i)) as [a|]; rewrite Ht1 in Ha; simpl in *.
  - destruct (c_displays t !! d) as [st|]; simpl in Ha.
    + destruct (Z.eqb_spec (generation a) (activation_generation st)) as [He|He].
      * exists st; rewrite Ha; split_and!; [done|done|by rewrite decide_True].
      * destruct Ha as (st' & ? & Hf); exists st'; split_and!; [done|apply Hf|].
        by rewrite decide_False by congruence.
    + destruct Ha as (st' & ? & Hf); exists st'; split_and!; [done|apply Hf|done].
  - by destruct (c_displays t !! d).
Qed.
