(* ===== verification/ClipboardLifecycle.v ===== *)
(** * Clipboard channels and watcher generations of the viewer process

    Models src/src/client/clipboard_lifecycle.rs: which sessions a local
    clipboard snapshot is fanned out to, and the generation counter that tells a
    running clipboard watcher from a stale one. *)

From S2P Require Import Prelude.

(** [ClipboardChannelId]: the peer id and its connection round (u32). *)
Abbreviation ClipboardChannelId := (string * Z)%type.

Record ClipboardChannelPolicy := { text : bool; file : bool }.

Inductive ClipboardPayloadKind := Text | File.

Inductive ClipboardSnapshotOrigin := Local | Remote (source : ClipboardChannelId).

Definition allows (k : ClipboardPayloadKind) (p : ClipboardChannelPolicy) : bool :=
  match k with Text => text p | File => file p end.

(** [ClipboardChannelRegistry] *)
Abbreviation Registry := (gmap ClipboardChannelId ClipboardChannelPolicy).

Definition register (peer_id : string) (round : Z) (p : ClipboardChannelPolicy) (r : Registry)
    : Registry := <[(peer_id, round) := p]> r.

Definition update (peer_id : string) (round : Z) (p : ClipboardChannelPolicy) (r : Registry)
    : Registry := alter (fun _ => p) (peer_id, round) r.

Definition unregister (peer_id : string) (round : Z) (r : Registry) : Registry :=
  delete (peer_id, round) r.

Definition has_active (r : Registry) : bool := negb (size r =? 0)%nat.

Definition requires (k : ClipboardPayloadKind) (r : Registry) : bool :=
  existsb (fun kv => allows k kv.2) (map_to_list r).

Definition recipients (k : ClipboardPayloadKind) (o : ClipboardSnapshotOrigin) (r : Registry)
    : gset ClipboardChannelId :=
  match o with
  | Remote _ => ∅
  | Local => dom (filter (fun kv => allows k kv.2 = true) r)
  end.

Record ClipboardCoordinator := {
  channels : Registry;
  watcher_generation : Z;
  watcher_running_ : bool;
}.
#[export] Instance eta_ClipboardCoordinator : Eta ClipboardCoordinator := fun r =>
  Build_ClipboardCoordinator (channels r) (watcher_generation r) (watcher_running_ r).

Definition default_coordinator : ClipboardCoordinator :=
  {| channels := ∅; watcher_generation := 0; watcher_running_ := false |}.

Definition begin_watcher (c : ClipboardCoordinator) : option Z * ClipboardCoordinator :=
  if watcher_running_ c then (None, c)
  else
    let g := wrap_u64 (watcher_generation c + 1) in
    let g := if g =? 0 then 1 else g in
    (Some g, c <| watcher_generation := g |> <| watcher_running_ := true |>).

Definition stop_watcher (c : ClipboardCoordinator) : ClipboardCoordinator :=
  c <| watcher_running_ := false |>
    <| watcher_generation ::= fun g => wrap_u64 (g + 1) |>.

Definition is_current_watcher (g : Z) (c : ClipboardCoordinator) : bool :=
  watcher_running_ c && (watcher_generation c =? g).

Definition finish_watcher (g : Z) (c : ClipboardCoordinator) : ClipboardCoordinator :=
  if watcher_generation c =? g then c <| watcher_running_ := false |> else c.

Definition watcher_running (c : ClipboardCoordinator) : bool := watcher_running_ c.

Inductive Call :=
  | Register (peer_id : string) (round : Z) (p : ClipboardChannelPolicy)
  | Update (peer_id : string) (round : Z) (p : ClipboardChannelPolicy)
  | Unregister (peer_id : string) (round : Z)
  | BeginWatcher
  | StopWatcher
  | FinishWatcher (g : Z).

Definition call (e : Call) (c : ClipboardCoordinator) : option Z * ClipboardCoordinator :=
  match e with
  | Register p n pol => (None, c <| channels ::= register p n pol |>)
  | Update p n pol => (None, c <| channels ::= update p n pol |>)
  | Unregister p n => (None, c <| channels ::= unregister p n |>)
  | BeginWatcher => begin_watcher c
  | StopWatcher => (None, stop_watcher c)
  | FinishWatcher g => (None, finish_watcher g c)
  end.

(** The channel a registry call is about. *)
Definition about (e : Call) : option ClipboardChannelId :=
  match e with
  | Register p n _ | Update p n _ | Unregister p n => Some (p, n)
  | _ => None
  end.

Lemma elem_of_recipients k id r :
  id ∈ recipients k Local r <-> exists p, r !! id = Some p /\ allows k p = true.
Proof.
  simpl; rewrite elem_of_dom; split.
  - intros [p Hp]; apply map_lookup_filter_Some in Hp as [? ?]; eauto.
  - intros (p & ? & ?); exists p; by apply map_lookup_filter_Some.
Qed.

Lemma requires_spec k r : requires k r = true <-> exists id, id ∈ recipients k Local r.
Proof.
  unfold requires; rewrite existsb_exists; split.
  - intros ([id p] & Hin & Ha); exists id; apply elem_of_recipients; exists p.
    split; [by apply elem_of_map_to_list, list_elem_of_In|done].
  - intros [id Hid]; apply elem_of_recipients in Hid as (p & Hp & Ha).
    exists (id, p); split; [by apply list_elem_of_In, elem_of_map_to_list|done].
Qed.

(** Clipboard fan-out: a snapshot received from a peer is relayed to nobody;
    a local snapshot goes exactly to the registered channels whose policy
    allows its kind, and [requires] says whether there is one; and a registry
    call about one (peer, round) channel changes the delivery of no other
    channel. *)
Theorem fanout_exact k o r e c id :
  (forall src, recipients k (Remote src) r = ∅) /\
  (id ∈ recipients k Local r <-> exists p, r !! id = Some p /\ allows k p = true) /\
  (requires k r = true <-> recipients k Local r <> ∅) /\
  (about e <> Some id ->
   (id ∈ recipients k o (channels (call e c).2) <-> id ∈ recipients k o (channels c))).
Proof.
  split; [done|]. split; [apply elem_of_recipients|]. split.
  - rewrite requires_spec; split; [intros [? ?]; set_solver|apply set_choose_L].
  - intros He; destruct o; [|done]. rewrite !elem_of_recipients.
    destruct e as [p n pol|p n pol|p n| | |g]; simpl in *.
    1-3: assert ((p, n) <> id) by congruence.
    + unfold register; by rewrite lookup_insert_ne.
    + unfold update; by rewrite lookup_alter_ne.
    + unfold unregister; by rewrite lookup_delete_ne.
    + unfold begin_watcher; by destruct (watcher_running_ c).
    + done.
    + unfold finish_watcher; by destruct (_ =? g).
Qed.

Lemma fanout_exact_witness :
  let p := {| text := true; file := false |} in
  let r := register "a" 1 p (register "b" 1 {| text := false; file := true |} ∅) in
  let c := default_coordinator <| channels := r |> in
  recipients Text Local r = {[ ("a", 1) ]} /\
  (("a", 1) ∈ recipients Text Local (channels (call (Unregister "b" 1) c).2)
   <-> ("a", 1) ∈ recipients Text Local (channels c)).
Proof.
  intros p r c; split; [by vm_compute|].
  apply (fanout_exact Text Local r (Unregister "b" 1) c ("a", 1)); discriminate.
Defined.

(** How far the generation counter is past [g], on the 64-bit circle. *)
Definition past (g : Z) (c : ClipboardCoordinator) : Z := wrap_u64 (watcher_generation c - g).

Lemma call_past g e c k :
  0 <= watcher_generation c <= u64_max -> 0 <= g <= u64_max ->
  1 <= past g c <= k -> k + 2 <= u64_max ->
  1 <= past g (call e c).2 <= k + 2 /\ 0 <= watcher_generation (call e c).2 <= u64_max.
Proof.
  unfold past, wrap_u64, u64_max; intros Hc Hg Hp Hk.
  destruct e as [p n pol|p n pol|p n| | |g']; simpl; try lia.
  - unfold begin_watcher; destruct (watcher_running_ c); simpl; [lia|].
    unfold wrap_u64; destruct (Z.eqb_spec ((watcher_generation c + 1) mod 18446744073709551616) 0);
      Z.div_mod_to_equations; lia.
  - unfold wrap_u64; Z.div_mod_to_equations; lia.
  - unfold finish_watcher; destruct (_ =? g'); simpl; lia.
Qed.

Lemma execs_past g es c k :
  0 <= watcher_generation c <= u64_max -> 0 <= g <= u64_max ->
  1 <= past g c <= k -> k + 2 * Z.of_nat (length es) <= u64_max ->
  1 <= past g (execs call es c).2.
Proof.
  intros Hc Hg; revert c k Hc; induction es as [|e es IH]; intros c k Hc Hp Hk; [simpl; lia|].
  rewrite execs_cons; simpl in *.
  destruct (call_past g e c k Hc Hg Hp) as [? ?]; [lia|].
  apply (IH _ (k + 2)); [done|done|lia].
Qed.

Lemma past_not_current g c : 1 <= past g c -> is_current_watcher g c = false.
Proof.
  unfold past, is_current_watcher; intros Hp; apply andb_false_iff; right.
  destruct (Z.eqb_spec (watcher_generation c) g) as [He|]; [|done].
  rewrite He, Z.sub_diag in Hp; change (wrap_u64 0) with 0 in Hp; lia.
Qed.

(** Watcher generations fence stale watchers: starting a watcher when none
    runs yields a non-zero generation that is the current one; finishing any
    other generation does not stop it; and once it has been stopped its
    generation is not current again whatever calls follow, for the next 2^62
    calls. *)
Theorem stale_watcher_fenced c g c1 g' es :
  0 <= watcher_generation c <= u64_max ->
  begin_watcher c = (Some g, c1) ->
  Z.of_nat (length es) <= 2 ^ 62 ->
  g <> 0 /\ is_current_watcher g c1 = true /\
  (g' <> g -> is_current_watcher g (finish_watcher g' c1) = true) /\
  is_current_watcher g (execs call es (stop_watcher c1)).2 = false.
Proof.
  intros Hc Hb Hlen; unfold begin_watcher in Hb.
  destruct (watcher_running_ c); [done|]; simplify_eq/=.
  set (g := if wrap_u64 (watcher_generation c + 1) =? 0 then 1 else _).
  assert (1 <= g <= u64_max) as Hg.
  { subst g; unfold wrap_u64, u64_max in *.
    destruct (Z.eqb_spec ((watcher_generation c + 1) mod 18446744073709551616) 0);
      Z.div_mod_to_equations; lia. }
  clearbody g; split_and!; [lia|unfold is_current_watcher; simpl; by rewrite Z.eqb_refl| |].
  - intros Hne; unfold is_current_watcher, finish_watcher; simpl.
    destruct (Z.eqb_spec g g'); [done|]; simpl; by rewrite Z.eqb_refl.
  - apply past_not_current, (execs_past g es _ 1); unfold past, u64_max in *; simpl;
      unfold wrap_u64; Z.div_mod_to_equations; lia.
Qed.

Lemma stale_watcher_fenced_witness :
  is_current_watcher 1 (execs call [BeginWatcher; FinishWatcher 1]
    (stop_watcher (begin_watcher default_coordinator).2)).2 = false.
Proof.
  refine (proj2 (proj2 (proj2 (stale_watcher_fenced default_coordinator 1 _ 2 _ _ _ _)))).
  - vm_compute; split; discriminate.
  - reflexivity.
  - vm_compute; discriminate.
Defined.
