(* ===== verification/DisplayControl.v ===== *)
(** * Admission of the desired display set to the peer's control channel

    Models src/src/client/display_control.rs, the outbox that turns the latest
    display intent into the commands a peer still has to be sent, with the part
    of src/src/client/io_loop.rs that feeds and drains it
    ([reconcile_display_intent] and [sync_display_intent_to_peer]). *)

From S2P Require Import Prelude DisplayStartup.

Definition replacement_refresh_required
    (supports_set desktop_viewer display_set_starts_capture : bool) : bool :=
  supports_set && desktop_viewer && negb display_set_starts_capture.

Inductive DisplayControlCommand :=
  | Set_ (set : list Z)
  | Select (d : Z)
  | Replace (d width height : Z)
  | Refresh (d : Z).
#[export] Instance DisplayControlCommand_eq_dec : EqDecision DisplayControlCommand.
Proof. solve_decision. Defined.

Record DisplayIntentOutbox := {
  o_round : Z;
  o_generation : option (Z * Z);
  desired : list Z;
  admitted : option (list Z);
  selected : option Z;
  metadata_selection : option Z;
  failures : Z;
  replacement_generation : option (Z * Z);
  replacement : option DisplayControlCommand;
  refresh_replacement : bool;
}.
#[export] Instance eta_DisplayIntentOutbox : Eta DisplayIntentOutbox := fun r =>
  Build_DisplayIntentOutbox (o_round r) (o_generation r) (desired r) (admitted r)
    (selected r) (metadata_selection r) (failures r) (replacement_generation r)
    (replacement r) (refresh_replacement r).

(** [DisplayIntentOutbox::new] *)
Definition new (round : Z) : DisplayIntentOutbox :=
  {| o_round := round; o_generation := None; desired := []; admitted := None;
     selected := None; metadata_selection := None; failures := 0;
     replacement_generation := None; replacement := None; refresh_replacement := false |}.

(** Rust's order on pairs of u64. *)
Definition pair_le (a b : Z * Z) : bool :=
  (a.1 <? b.1) || (a.1 =? b.1) && (a.2 <=? b.2).

(** [i32::try_from] of a display index (usize). *)
Definition to_i32 (d : Z) : option Z := if d <=? i32_max then Some d else None.

Definition intent_generation (i : DisplayMediaIntent) : Z * Z :=
  (logical_session_generation i, aggregate_generation i).

(** The display set of an intent: the representable indices, sorted, deduplicated. *)
Definition targets (i : DisplayMediaIntent) : list Z :=
  dedup (sort (omap (fun a => to_i32 (display a)) (displays i))).

Definition observe (round : Z) (i : DisplayMediaIntent) (o : DisplayIntentOutbox)
    : DisplayIntentOutbox :=
  if negb (round =? o_round o) || (aggregate_generation i =? 0) then o
  else
    let g := intent_generation i in
    if is_some_and (o_generation o) (fun current => pair_le g current) then o
    else
      let o :=
        if is_some_and (o_generation o) (fun current => negb (current.1 =? g.1)) then
          o <| admitted := None |> <| selected := None |> <| metadata_selection := None |>
        else o in
      o <| o_generation := Some g |> <| replacement := None |>
        <| desired := targets i |>.

(** [DisplayIntentOutbox::replace] *)
Definition replace (round : Z) (i : DisplayMediaIntent) (d : Z) (size : Z * Z)
    (refresh : bool) (o : DisplayIntentOutbox) : DisplayIntentOutbox :=
  let g := intent_generation i in
  if negb (round =? o_round o)
     || negb (bool_decide (o_generation o = Some g))
     || bool_decide (replacement_generation o = Some g)
     || negb (bool_decide (desired o = [d]))
  then o
  else o <| replacement_generation := Some g |>
         <| replacement := Some (Replace d size.1 size.2) |>
         <| refresh_replacement := refresh |>.

Definition pending (round : Z) (supports_set : bool) (o : DisplayIntentOutbox)
    : option DisplayControlCommand :=
  if negb (round =? o_round o) || is_none (o_generation o) then None
  else if supports_set && negb (bool_decide (admitted o = Some (desired o))) then
    Some (Set_ (desired o))
  else
    match replacement o with
    | Some c => Some c
    | None =>
        match desired o with
        | [d] => if bool_decide (selected o = Some d) then None else Some (Select d)
        | _ => None
        end
    end.

Definition admit_command (c : DisplayControlCommand) (o : DisplayIntentOutbox)
    : option DisplayIntentOutbox :=
  match c with
  | Set_ s =>
      if bool_decide (s = desired o) then
        let o := o <| admitted := Some s |> in
        Some (if (length s =? 1)%nat then o else o <| selected := None |>)
      else None
  | Select d =>
      if bool_decide (desired o = [d]) then
        Some (o <| selected := Some d |> <| metadata_selection := Some d |>)
      else None
  | Replace d _ _ =>
      if bool_decide (replacement o = Some c) then
        Some (o <| selected := Some d |>
                <| replacement := if refresh_replacement o then Some (Refresh d) else None |>)
      else None
  | Refresh _ =>
      if bool_decide (replacement o = Some c) then Some (o <| replacement := None |>)
      else None
  end.

(** The [_ => return] arm leaves [failures] alone; the others clear it. *)
Definition admit_ (round : Z) (c : DisplayControlCommand) (o : DisplayIntentOutbox)
    : DisplayIntentOutbox :=
  if negb (round =? o_round o) then o
  else match admit_command c o with
       | Some o => o <| failures := 0 |>
       | None => o
       end.

(** [u64::is_power_of_two] *)
Definition is_power_of_two (n : Z) : bool := (0 <? n) && (Z.land n (n - 1) =? 0).

Definition record_failure (o : DisplayIntentOutbox) : bool * DisplayIntentOutbox :=
  let o := o <| failures := sat_add u64_max (failures o) 1 |> in
  (is_power_of_two (failures o), o).

Definition take_metadata_selection (d : Z) (o : DisplayIntentOutbox)
    : bool * DisplayIntentOutbox :=
  if bool_decide (metadata_selection o = Some d) then
    (true, o <| metadata_selection := None |>)
  else (false, o).

(** What the io loop reads of its session: the peer's capabilities and the
    user's custom resolutions. *)
Record Session := {
  s_connected : bool;
  s_supports_set : bool;
  s_desktop_viewer : bool;
  s_set_starts_capture : bool;
  s_resolution : Z -> option (Z * Z);
}.

(** The outbox half of [reconcile_display_intent]. *)
Definition reconcile_outbox (s : Session) (round : Z) (i : DisplayMediaIntent)
    (o : DisplayIntentOutbox) : DisplayIntentOutbox :=
  let o := observe round i o in
  match (if s_connected s then replacement_display i else None) ≫= to_i32 with
  | Some d =>
      replace round i d (unwrap_or (s_resolution s d) (0, 0))
        (replacement_refresh_required (s_supports_set s) (s_desktop_viewer s)
           (s_set_starts_capture s)) o
  | None => o
  end.

(** One pass of the admission loop: whether this connection attempt is still
    the current one, the latest intent, and whether the send succeeds. *)
Record Attempt := {
  a_current : bool;
  a_latest : option DisplayMediaIntent;
  a_sent : bool;
}.

(** The loop of [sync_display_intent_to_peer]; its result lists the commands
    handed to the peer, with the outcome of each send. *)
Fixpoint sync (s : Session) (round : Z) (l : list Attempt) (o : DisplayIntentOutbox)
    : list (DisplayControlCommand * bool) * DisplayIntentOutbox :=
  match l with
  | [] => ([], o)
  | a :: l =>
      if negb (a_current a) then ([], o)
      else
        let o := map_or (a_latest a) o (fun i => reconcile_outbox s round i o) in
        match pending round (s_supports_set s) o with
        | None => ([], o)
        | Some c =>
            if a_sent a then
              let '(cs, o) := sync s round l (admit_ round c o) in ((c, true) :: cs, o)
            else ([(c, false)], (record_failure o).2)
        end
  end.

(** The whole function on a connected, current round with an intent. *)
Definition sync_display_intent_to_peer (s : Session) (round : Z) (i : DisplayMediaIntent)
    (still_current : bool) (l : list Attempt) (o : DisplayIntentOutbox)
    : list (DisplayControlCommand * bool) * DisplayIntentOutbox :=
  let o := reconcile_outbox s round i o in
  if negb (s_connected s) || negb still_current then ([], o)
  else sync s round (take 3 l) o.

Inductive Call :=
  | Observe (round : Z) (i : DisplayMediaIntent)
  | DoReplace (round : Z) (i : DisplayMediaIntent) (d : Z) (size : Z * Z) (refresh : bool)
  | Admit (round : Z) (c : DisplayControlCommand)
  | RecordFailure
  | TakeMetadata (d : Z).

Definition call (e : Call) (o : DisplayIntentOutbox) : DisplayIntentOutbox :=
  match e with
  | Observe r i => observe r i o
  | DoReplace r i d s f => replace r i d s f o
  | Admit r c => admit_ r c o
  | RecordFailure => (record_failure o).2
  | TakeMetadata d => (take_metadata_selection d o).2
  end.

(** ** The wire set of an intent *)

Lemma targets_sorted i : Sorted Z.lt (targets i).
Proof. apply dedup_sorted, sort_sorted. Qed.

Lemma elem_of_targets i d :
  d ∈ targets i <-> d <= i32_max /\ exists a, a ∈ displays i /\ display a = d.
Proof.
  unfold targets; rewrite elem_of_dedup, elem_of_sort, list_elem_of_omap.
  split; [intros (a & Ha & Hd)|intros (Hd & a & Ha & <-); exists a; split; [done|]];
    unfold to_i32 in *; destruct (Z.leb_spec (display a) i32_max); simplify_eq/=; eauto; lia.
Qed.

(** ** Frame facts *)

(** What [observe] and [replace] look at to ignore an event. *)
Record same_guard (o o' : DisplayIntentOutbox) : Prop := {
  sg_round : o_round o' = o_round o;
  sg_generation : o_generation o' = o_generation o;
  sg_replacement : replacement_generation o' = replacement_generation o;
  sg_desired : desired o' = desired o;
}.

Lemma admit_guard r c o : same_guard o (admit_ r c o).
Proof.
  unfold admit_; destruct (negb _); [by split|].
  unfold admit_command; destruct c; case_bool_decide; simpl; try (by split).
  by destruct (_ =? _)%nat.
Qed.

Definition observe_ignored (r : Z) (i : DisplayMediaIntent) (o : DisplayIntentOutbox) : bool :=
  negb (r =? o_round o) || (aggregate_generation i =? 0)
  || is_some_and (o_generation o) (fun current => pair_le (intent_generation i) current).

Lemma observe_ignored_eq r i o : observe_ignored r i o = true -> observe r i o = o.
Proof.
  unfold observe_ignored, observe; intros H.
  destruct (negb _ || _); [done|]; simpl in H; by rewrite H.
Qed.

(** An event that is not ignored installs its generation and its set. *)
Lemma observe_fresh r i o :
  observe_ignored r i o = false ->
  let o' := observe r i o in
  o_round o' = o_round o /\ o_generation o' = Some (intent_generation i) /\
  desired o' = targets i /\ replacement o' = None /\
  replacement_generation o' = replacement_generation o.
Proof.
  unfold observe_ignored, observe; intros H; apply orb_false_iff in H as [H1 H2].
  rewrite H1, H2; clear H1 H2; cbv zeta. by destruct (is_some_and _ _).
Qed.

Definition replace_ignored (r : Z) (i : DisplayMediaIntent) (d : Z)
    (o : DisplayIntentOutbox) : bool :=
  negb (r =? o_round o)
  || negb (bool_decide (o_generation o = Some (intent_generation i)))
  || bool_decide (replacement_generation o = Some (intent_generation i))
  || negb (bool_decide (desired o = [d])).

Lemma pair_le_refl g : pair_le g g = true.
Proof. unfold pair_le; rewrite Z.eqb_refl, Z.leb_refl; by destruct (_ <? _). Qed.

Lemma pair_le_trans a b c : pair_le a b = true -> pair_le b c = true -> pair_le a c = true.
Proof.
  unfold pair_le; rewrite !orb_true_iff, !andb_true_iff, !Z.ltb_lt, !Z.eqb_eq, !Z.leb_le; lia.
Qed.

Lemma pair_le_total a b : pair_le a b = false -> pair_le b a = true.
Proof.
  unfold pair_le; rewrite orb_false_iff, orb_true_iff, andb_false_iff, andb_true_iff,
    !Z.ltb_lt, Z.ltb_ge, !Z.eqb_eq, Z.eqb_neq, Z.leb_le, Z.leb_gt; lia.
Qed.

(** ** A replacement in progress *)

(** A pending replacement is always for the lone desired display. *)
Definition wf (o : DisplayIntentOutbox) : Prop :=
  match replacement o with
  | None => True
  | Some (Replace d _ _) => desired o = [d]
  | Some (Refresh d) => desired o = [d] /\ selected o = Some d
  | Some _ => False
  end.

Lemma observe_wf r i o : wf o -> wf (observe r i o).
Proof.
  intros H; destruct (observe_ignored r i o) eqn:E; [by rewrite observe_ignored_eq|].
  destruct (observe_fresh r i o E) as (_ & _ & _ & Hr & _); unfold wf; by rewrite Hr.
Qed.

Lemma replace_wf r i d sz f o : wf o -> wf (replace r i d sz f o).
Proof.
  intros H; unfold replace; destruct (_ || _) eqn:E; [done|].
  bools; done.
Qed.

Lemma admit_wf r c o : wf o -> wf (admit_ r c o).
Proof.
  intros H; unfold admit_; destruct (negb _); [done|].
  unfold wf in *; destruct c as [st|d|d w h|d]; simpl; case_bool_decide as Hb; try done.
  - destruct (length st =? 1)%nat eqn:El; [done|]; simpl.
    destruct (replacement o) as [[]|]; try done; subst.
    destruct H as [H _]; by rewrite H in El.
  - simpl. destruct (replacement o) as [[]|]; try done.
    destruct H as [H Hs]; rewrite H in Hb; by simplify_eq.
  - rewrite Hb in H; simpl. by destruct (refresh_replacement o).
Qed.

Lemma call_wf e o : wf o -> wf (call e o).
Proof.
  destruct e; simpl; auto using observe_wf, replace_wf, admit_wf.
  unfold take_metadata_selection; by case_bool_decide.
Qed.

Lemma reconcile_wf s r i o : wf o -> wf (reconcile_outbox s r i o).
Proof.
  intros H; unfold reconcile_outbox; destruct (_ ≫= _); auto using observe_wf, replace_wf.
Qed.

(** ** Draining *)

(** The number of commands still to be sent. *)
Definition todo_set (s : bool) (o : DisplayIntentOutbox) : nat :=
  if s && negb (bool_decide (admitted o = Some (desired o))) then 1%nat else 0%nat.
Definition todo_display (o : DisplayIntentOutbox) : nat :=
  match replacement o with
  | Some (Replace _ _ _) => if refresh_replacement o then 2%nat else 1%nat
  | Some _ => 1%nat
  | None =>
      match desired o with
      | [d] => if bool_decide (selected o = Some d) then 0%nat else 1%nat
      | _ => 0%nat
      end
  end.
Definition todo (s : bool) (o : DisplayIntentOutbox) : nat := todo_set s o + todo_display o.

Lemma todo_bound s o : (todo s o <= 3)%nat.
Proof.
  unfold todo, todo_set, todo_display. destruct (_ && _); destruct (replacement o) as [[]|];
    repeat case_match; lia.
Qed.

Lemma pending_none r s o :
  o_round o = r -> o_generation o <> None -> pending r s o = None <-> todo s o = 0%nat.
Proof.
  intros <- Hg; unfold pending, todo, todo_set, todo_display; rewrite Z.eqb_refl; simpl.
  destruct (o_generation o) as [g|]; [simpl|done].
  destruct (_ && _); [done|]. destruct (replacement o) as [[]|]; simpl; try done.
  2: destruct (desired o) as [|d [|]]; [done| |done]; by case_bool_decide.
  by destruct (refresh_replacement o).
Qed.

Lemma admit_set s o :
  let o' := admit_ (o_round o) (Set_ (desired o)) o in
  wf o -> todo_set s o' = 0%nat /\ todo_display o' = todo_display o.
Proof.
  unfold admit_; rewrite Z.eqb_refl; simpl; rewrite bool_decide_true by done.
  unfold wf, todo_set, todo_display; intros Hw.
  destruct (desired o) as [|d [|]] eqn:Ed; simpl; rewrite ?Ed;
    (split; [by rewrite ?bool_decide_true, andb_false_r by done|]);
    destruct (replacement o) as [[]|]; naive_solver.
Qed.

Lemma admit_replacement s o c :
  let o' := admit_ (o_round o) c o in
  wf o -> replacement o = Some c ->
  todo_set s o' = todo_set s o /\ S (todo_display o') = todo_display o.
Proof.
  unfold admit_; rewrite Z.eqb_refl; simpl; unfold wf; intros Hw Hr; rewrite Hr in Hw.
  destruct c as [|d|d w h|d]; try done; simpl; rewrite bool_decide_true by done; simpl;
    (split; [done|]); unfold todo_display; rewrite Hr; simpl.
  - destruct (refresh_replacement o); simpl; [done|].
    by rewrite Hw, bool_decide_true.
  - destruct Hw as [-> ->]; by rewrite bool_decide_true.
Qed.

Lemma admit_select s o d :
  let o' := admit_ (o_round o) (Select d) o in
  replacement o = None -> desired o = [d] -> selected o <> Some d ->
  todo_set s o' = todo_set s o /\ S (todo_display o') = todo_display o.
Proof.
  unfold admit_; rewrite Z.eqb_refl; simpl; intros Hr Hd Hs.
  rewrite bool_decide_true by done; split; [done|].
  unfold todo_display; simpl; rewrite Hr, Hd.
  by rewrite bool_decide_true, bool_decide_false.
Qed.

Lemma admit_pending r s o c :
  wf o -> pending r s o = Some c -> S (todo s (admit_ r c o)) = todo s o.
Proof.
  intros Hw; unfold pending; destruct (Z.eqb_spec r (o_round o)) as [->|]; [simpl|done].
  destruct (is_none (o_generation o)); [done|]; unfold todo.
  destruct (_ && _) eqn:Hset.
  - intros [= <-]; destruct (admit_set s o Hw) as [-> ->].
    unfold todo_set; by rewrite Hset.
  - destruct (replacement o) as [c'|] eqn:Hr.
    + intros [= ->]; destruct (admit_replacement s o c Hw Hr); lia.
    + destruct (desired o) as [|d [|]] eqn:Hd; try done.
      destruct (bool_decide (selected o = Some d)) eqn:Hs; [done|]; bools.
      intros [= <-]; destruct (admit_select s o d); [done..|lia].
Qed.

(** An intent the outbox has taken in: looking at it again changes nothing. *)
Definition absorbed (s : Session) (r : Z) (i : DisplayMediaIntent)
    (o : DisplayIntentOutbox) : Prop :=
  observe_ignored r i o = true /\
  forall d, (if s_connected s then replacement_display i else None) ≫= to_i32 = Some d ->
            replace_ignored r i d o = true.

Lemma absorbed_eq s r i o : absorbed s r i o -> reconcile_outbox s r i o = o.
Proof.
  intros [Ho Hr]; unfold reconcile_outbox; rewrite observe_ignored_eq by done.
  destruct (_ ≫= to_i32) as [d|]; [|done]; specialize (Hr d eq_refl).
  unfold replace_ignored in Hr; unfold replace; by rewrite Hr.
Qed.

Lemma absorbed_guard s r i o o' : same_guard o o' -> absorbed s r i o -> absorbed s r i o'.
Proof.
  intros [Hr Hg Hp Hd] [H1 H2]; split; [|intros d Hd'; specialize (H2 d Hd')];
    unfold observe_ignored, replace_ignored in *; by rewrite ?Hr, ?Hg, ?Hp, ?Hd.
Qed.

Lemma observe_then_ignored r i o : observe_ignored r i (observe r i o) = true.
Proof.
  destruct (observe_ignored r i o) eqn:E; [by rewrite observe_ignored_eq|].
  destruct (observe_fresh r i o E) as (Hr & Hg & _).
  unfold observe_ignored; rewrite Hg; simpl; by rewrite pair_le_refl, orb_true_r.
Qed.

Lemma reconcile_absorbs s r i o : absorbed s r i (reconcile_outbox s r i o).
Proof.
  assert (Ho := observe_then_ignored r i o); unfold absorbed, reconcile_outbox.
  destruct (_ ≫= to_i32) as [d|]; [|done]; unfold replace.
  destruct (_ || _) eqn:E; (split; [|intros ? [= <-]]); try done.
  unfold replace_ignored; simpl. rewrite (bool_decide_true (Some _ = Some _)) by done.
  by rewrite orb_true_r.
Qed.

(** The passes of a wakeup that finds a free channel and no newer intent. *)
Definition quiet (i : DisplayMediaIntent) (a : Attempt) : Prop :=
  a_current a = true /\ a_sent a = true /\ (a_latest a = None \/ a_latest a = Some i).

Lemma sync_quiet s r i l o :
  wf o -> absorbed s r i o -> o_round o = r -> o_generation o <> None -> Forall (quiet i) l ->
  (todo (s_supports_set s) o <= length l)%nat ->
  let '(cs, o') := sync s r l o in
  same_guard o o' /\ todo (s_supports_set s) o' = 0%nat /\
  length cs = todo (s_supports_set s) o /\ Forall (fun c => c.2 = true) cs.
Proof.
  revert o; induction l as [|a l IH]; intros o Hw Ha Hr Hg Hq Hn; simpl in *.
  { repeat split; try done; lia. }
  apply Forall_cons in Hq as [(Hc & Hs & Hl) Hq]; rewrite Hc; simpl.
  replace (map_or (a_latest a) _ _) with o
    by (destruct Hl as [-> | ->]; simpl; by rewrite ?absorbed_eq).
  destruct (pending r (s_supports_set s) o) as [c|] eqn:Hp.
  - rewrite Hs. assert (Hsg := admit_guard r c o). assert (Ht := admit_pending r _ o c Hw Hp).
    specialize (IH (admit_ r c o)). destruct (sync s r l (admit_ r c o)) as [cs o'].
    destruct IH as (Hsg' & Ht' & Hlen & Hall);
      [by apply admit_wf|by eapply absorbed_guard|by rewrite (sg_round _ _ Hsg)
      |by rewrite (sg_generation _ _ Hsg)|done|lia|].
    repeat split; try done; simpl; try lia; [..|by constructor];
      destruct Hsg, Hsg'; congruence.
  - apply pending_none in Hp; [|done..]. repeat split; try done; by rewrite Hp.
Qed.

Lemma todo_done s o :
  todo s o = 0%nat ->
  (s = true -> admitted o = Some (desired o)) /\
  (forall d, desired o = [d] -> selected o = Some d) /\
  replacement o = None.
Proof.
  unfold todo, todo_set, todo_display; intros H.
  destruct (replacement o) as [[]|] eqn:Er;
    [lia|lia|destruct (refresh_replacement o); lia|lia|].
  split; [intros ->; destruct (bool_decide (admitted o = _)) eqn:E; bools; [done|simpl in H; lia]|].
  split; [|done]; intros d Hd; rewrite Hd in H.
  destruct (bool_decide (selected o = _)) eqn:E; bools; [done|lia].
Qed.

(** ** Theorems *)

Definition calls (es : list Call) (o : DisplayIntentOutbox) : DisplayIntentOutbox :=
  foldl (fun o e => call e o) o es.

Lemma observe_round r i o : o_round (observe r i o) = o_round o.
Proof.
  destruct (observe_ignored r i o) eqn:E; [by rewrite observe_ignored_eq|].
  by destruct (observe_fresh r i o E).
Qed.

(** Only [observe] moves the generation and the desired set. *)
Lemma replace_frame r i d sz f o :
  o_round (replace r i d sz f o) = o_round o /\
  o_generation (replace r i d sz f o) = o_generation o /\
  desired (replace r i d sz f o) = desired o /\
  admitted (replace r i d sz f o) = admitted o.
Proof. unfold replace; by destruct (_ || _). Qed.

Lemma call_frame e o :
  o_round (call e o) = o_round o /\
  ((forall r i, e <> Observe r i) ->
     o_generation (call e o) = o_generation o /\ desired (call e o) = desired o).
Proof.
  destruct e as [r i|r i d sz f|r c| |d]; simpl.
  - split; [apply observe_round|naive_solver].
  - destruct (replace_frame r i d sz f o) as (? & ? & ? & _); eauto.
  - destruct (admit_guard r c o); eauto.
  - eauto.
  - unfold take_metadata_selection; case_bool_decide; eauto.
Qed.

Lemma calls_invariant (I : DisplayIntentOutbox -> Prop) (P : Call -> Prop) es o :
  (forall e o, P e -> I o -> I (call e o)) -> Forall P es -> I o -> I (calls es o).
Proof.
  intros Hs; revert o; induction es as [|e es IH]; intros o Hp Ho; [done|].
  apply Forall_cons in Hp as [? ?]; simpl; eauto.
Qed.

Lemma calls_reachable r es : wf (calls es (new r)) /\ o_round (calls es (new r)) = r.
Proof.
  apply (calls_invariant (fun o => wf o /\ o_round o = r) (fun _ => True)); [| |done].
  - intros e o _ [Hw Hr]; split; [by apply call_wf|].
    by destruct (call_frame e o) as [-> _].
  - by apply Forall_true.
Qed.

Lemma reconcile_frame s r i o :
  o_round (reconcile_outbox s r i o) = o_round o /\
  (observe_ignored r i o = false -> desired (reconcile_outbox s r i o) = targets i).
Proof.
  unfold reconcile_outbox; destruct (_ ≫= _) as [d|]; split.
  - destruct (replace_frame r i d (unwrap_or (s_resolution s d) (0, 0))
      (replacement_refresh_required (s_supports_set s) (s_desktop_viewer s)
         (s_set_starts_capture s)) (observe r i o)) as (-> & _); apply observe_round.
  - intros H; destruct (observe_fresh r i o H) as (_ & _ & <- & _). by apply replace_frame.
  - apply observe_round.
  - intros H; by destruct (observe_fresh r i o H) as (_ & _ & <- & _).
Qed.

Lemma sync_idle s r i l o :
  absorbed s r i o -> o_generation o = None -> Forall (quiet i) l -> sync s r l o = ([], o).
Proof.
  intros Ha Hg [|a l' (Hc & _ & Hl) _]; [done|]; simpl; rewrite Hc; simpl.
  replace (map_or (a_latest a) _ _) with o
    by (destruct Hl as [-> | ->]; simpl; by rewrite ?absorbed_eq).
  unfold pending; rewrite Hg; simpl; by rewrite orb_true_r.
Qed.

(** One wakeup settles the display set: on a connected peer whose sends
    succeed and while no newer intent appears, the three passes of the admission
    loop leave nothing pending.  The set the peer was sent is the desired one, a
    lone display is selected, at most three commands were sent, and an intent that
    was not stale has become the desired set (its representable displays, strictly
    sorted). *)
Theorem wakeup_converges s r i l es :
  s_connected s = true -> length l = 3%nat -> Forall (quiet i) l ->
  let o := calls es (new r) in
  let '(cs, o') := sync_display_intent_to_peer s r i true l o in
  (length cs <= 3)%nat /\ pending r (s_supports_set s) o' = None /\
  (o_generation o' <> None ->
     (s_supports_set s = true -> admitted o' = Some (desired o')) /\
     (forall d, desired o' = [d] -> selected o' = Some d)) /\
  (observe_ignored r i o = false ->
     desired o' = targets i /\ Sorted Z.lt (desired o') /\
     forall d, d ∈ desired o' <-> d <= i32_max /\ exists a, a ∈ displays i /\ display a = d).
Proof.
  intros Hc Hl Hq o; destruct (calls_reachable r es) as [Hw Hr]; fold o in Hw, Hr.
  unfold sync_display_intent_to_peer; rewrite Hc; simpl; rewrite take_ge by lia.
  apply (reconcile_wf s r i) in Hw. assert (Ha := reconcile_absorbs s r i o).
  destruct (reconcile_frame s r i o) as [Hr' Hd]; rewrite Hr in Hr'.
  set (o1 := reconcile_outbox s r i o) in *.
  destruct (o_generation o1) as [g|] eqn:Hg.
  - assert (Hs := sync_quiet s r i l o1 Hw Ha Hr').
    destruct (sync s r l o1) as [cs o'].
    assert (Ht := todo_bound (s_supports_set s) o1).
    destruct Hs as ([Hgr Hgg Hgp Hgd] & Hz & Hlen & _); [congruence|done|lia|].
    split; [lia|]. split; [apply pending_none; [congruence|congruence|done]|].
    destruct (todo_done _ _ Hz) as (? & ? & _). split; [done|].
    intros E; rewrite Hgd, (Hd E); split; [done|]; split; [apply targets_sorted|].
    intros d; apply elem_of_targets.
  - rewrite (sync_idle s r i l o1) by done. split; [simpl; lia|]. split.
    { unfold pending; rewrite Hg; simpl; by rewrite orb_true_r. }
    split; [by rewrite Hg|]. intros E; rewrite (Hd E); split; [done|].
    split; [apply targets_sorted|intros d; apply elem_of_targets].
Qed.

Definition demo_intent : DisplayMediaIntent :=
  {| logical_session_generation := 1; aggregate_generation := 2;
     displays := [ {| display := 1; generation := 1; view_count := 1 |} ];
     replacement_display := Some 1 |}.
Definition demo_session : Session :=
  {| s_connected := true; s_supports_set := true; s_desktop_viewer := true;
     s_set_starts_capture := false; s_resolution := fun _ => Some (1920, 1080) |}.
Definition demo_attempt : Attempt :=
  {| a_current := true; a_latest := Some demo_intent; a_sent := true |}.

Definition demo_sync : list (DisplayControlCommand * bool) * DisplayIntentOutbox :=
  sync_display_intent_to_peer demo_session 1 demo_intent true
    (List.repeat demo_attempt 3) (calls [] (new 1)).

Lemma wakeup_converges_witness :
  demo_sync.1 = [(Set_ [1], true); (Replace 1 1920 1080, true); (Refresh 1, true)] /\
  pending 1 true demo_sync.2 = None.
Proof.
  split; [by vm_compute|].
  assert (H := wakeup_converges demo_session 1 demo_intent (List.repeat demo_attempt 3) []
    eq_refl eq_refl ltac:(repeat constructor; by right)).
  cbv zeta in H; unfold demo_sync.
  destruct (sync_display_intent_to_peer demo_session 1 demo_intent true
              (List.repeat demo_attempt 3) (calls [] (new 1))) as [cs o'].
  destruct H as (_ & H & _); exact H.
Defined.

(** No lost update: once a fresh intent asks for a set the peer has not been
    sent, the set stays pending through failed sends, late admissions of other
    commands, calls of other connection rounds, metadata echoes and stale
    intents; only its own admission or a newer intent retires it. *)
Theorem no_lost_update r i es1 es2 :
  let o := calls es1 (new r) in
  observe_ignored r i o = false ->
  admitted (observe r i o) <> Some (targets i) ->
  Forall (fun e => e <> Admit r (Set_ (targets i)) /\
            forall j, e = Observe r j ->
              pair_le (intent_generation j) (intent_generation i) = true) es2 ->
  pending r true (calls es2 (observe r i o)) = Some (Set_ (targets i)).
Proof.
  intros o Hi Ha Hes; destruct (observe_fresh r i o Hi) as (Hr & Hg & Hd & _).
  unfold o in Hr; rewrite (proj2 (calls_reachable r es1)) in Hr; fold o in Hr.
  set (I := fun o' => o_round o' = r /\ o_generation o' = Some (intent_generation i) /\
       desired o' = targets i /\ admitted o' <> Some (targets i)).
  cut (I (calls es2 (observe r i o))).
  { intros (E1 & E2 & E3 & E4); unfold pending; rewrite E1, E2, E3, Z.eqb_refl; simpl.
    by rewrite bool_decide_false. }
  eapply calls_invariant; [|exact Hes|done].
  clear; intros e o [He Hj] (E1 & E2 & E3 & E4).
  destruct e as [r' j|r' j d sz f|r' c| |d]; unfold I; simpl.
  - rewrite observe_ignored_eq; [done|].
    unfold observe_ignored; rewrite E1; destruct (Z.eqb_spec r' r) as [->|]; [simpl|done].
    rewrite E2; simpl; rewrite Hj by done; apply orb_true_r.
  - by destruct (replace_frame r' j d sz f o) as (-> & -> & -> & ->).
  - destruct (admit_guard r' c o) as [-> -> _ ->]; split_and!; try done.
    unfold admit_; rewrite E1; destruct (Z.eqb_spec r' r) as [->|]; [simpl|done].
    destruct c; simpl; case_bool_decide; simpl; try done. congruence.
  - done.
  - unfold take_metadata_selection; by case_bool_decide.
Qed.

Lemma no_lost_update_witness :
  pending 1 true (calls [RecordFailure; Admit 1 (Set_ [0; 1]); Admit 2 (Set_ [1])]
                    (observe 1 demo_intent (calls [] (new 1)))) = Some (Set_ [1]).
Proof.
  apply (no_lost_update 1 demo_intent []); [reflexivity|discriminate|].
  repeat constructor; try discriminate.
Defined.
