(* ===== verification/LoginFailure.v ===== *)
(** * Failed-login policy of the controlled host

    Models src/src/server/login_failure_check.rs (the global back-off of
    terminal logins with OS credentials) and the failure table of
    src/src/server/connection.rs (failures per address and per IPv6 prefix):
    what is checked before a credential is looked at and what a failure or a
    success records; and the attempts of several connections at once, as the single
    reads and updates of that table ([Event]).  A Rust [i64] here is a count of milliseconds; the clock
    is an argument of every operation that reads it. *)

From S2P Require Import Prelude.
From stdpp Require Import pretty.
#[local] Open Scope Z_scope.

Definition OS_CREDENTIAL_LOGIN_TOTAL_IDLE_RESET_MS : Z := 120 * 60 * 1000.
Definition OS_CREDENTIAL_LOGIN_BACKOFF_BASE_SECONDS : Z := 15.
Definition OS_CREDENTIAL_LOGIN_BACKOFF_MAX_SECONDS : Z := 30 * 60.

Inductive FailureScope := Default | TerminalOsLogin.
#[export] Instance FailureScope_eq_dec : EqDecision FailureScope.
Proof. solve_decision. Defined.

Inductive AlarmAuditType :=
  | IpWhitelist
  | ExceedThirtyAttempts
  | SixAttemptsWithinOneMinute
  | ExceedIPv6PrefixAttempts
  | TerminalOsLoginBackoff
  | TerminalOsLoginConcurrency.

Record OsCredentialPolicyDecision := {
  allowed : bool;
  login_error : option string;
  audit : option AlarmAuditType;
}.

Record OsCredentialFailureState := {
  total_failures : Z;
  backoff_until_ms : option Z;
  last_failure_ms : option Z;
}.
#[export] Instance eta_OsCredentialFailureState : Eta OsCredentialFailureState := fun r =>
  Build_OsCredentialFailureState (total_failures r) (backoff_until_ms r) (last_failure_ms r).

Definition default_os_state : OsCredentialFailureState :=
  {| total_failures := 0; backoff_until_ms := None; last_failure_ms := None |}.

Definition is_os_credential_scope (s : FailureScope) : bool :=
  bool_decide (s = TerminalOsLogin).

Definition backoff_audit_type_for_scope (s : FailureScope) : option AlarmAuditType :=
  match s with TerminalOsLogin => Some TerminalOsLoginBackoff | Default => None end.

Definition os_credential_login_backoff_seconds (total : Z) : Z :=
  if total <=? 2 then 0
  else
    let exp := Z.min (total - 3) 7 in
    let seconds := OS_CREDENTIAL_LOGIN_BACKOFF_BASE_SECONDS * Z.shiftl 1 exp in
    Z.min seconds OS_CREDENTIAL_LOGIN_BACKOFF_MAX_SECONDS.

Definition normalize_backoff (now_ms : Z) (st : OsCredentialFailureState)
    : OsCredentialFailureState :=
  match backoff_until_ms st with
  | Some until_ms => if until_ms <=? now_ms then st <| backoff_until_ms := None |> else st
  | None => st
  end.

Definition reset_totals_on_idle (now_ms : Z) (st : OsCredentialFailureState)
    : OsCredentialFailureState :=
  match last_failure_ms st with
  | Some last_ms =>
      if OS_CREDENTIAL_LOGIN_TOTAL_IDLE_RESET_MS <=? i64_sat (now_ms - last_ms) then
        st <| total_failures := 0 |> <| backoff_until_ms := None |>
           <| last_failure_ms := None |>
      else st
  | None => st
  end.

Definition allow_decision : OsCredentialPolicyDecision :=
  {| allowed := true; login_error := None; audit := None |}.

Definition block_decision (e : string) (a : option AlarmAuditType)
    : OsCredentialPolicyDecision :=
  {| allowed := false; login_error := Some e; audit := a |}.

(** The seconds a blocked user is told to wait. *)
Definition remaining_seconds (until_ms now_ms : Z) : Z :=
  Z.max ((Z.max (until_ms - now_ms) 0 + 999) / 1000) 1.

(** The state of the policy is behind one global mutex, held for the call. *)
Definition evaluate_os_credential_policy (scope : FailureScope) (now_ms : Z)
    (st : OsCredentialFailureState) : OsCredentialPolicyDecision * OsCredentialFailureState :=
  if negb (is_os_credential_scope scope) then (allow_decision, st)
  else
    let st := reset_totals_on_idle now_ms st in
    let st := normalize_backoff now_ms st in
    match backoff_until_ms st with
    | Some until_ms =>
        let secs := remaining_seconds until_ms now_ms in
        let label := if secs =? 1 then "second" else "seconds" in
        (block_decision ("Please try again in " +:+ pretty secs +:+ " " +:+ label +:+ ".")
           (backoff_audit_type_for_scope scope), st)
    | None => (allow_decision, st)
    end.

Definition record_os_credential_failure (scope : FailureScope) (now_ms : Z)
    (st : OsCredentialFailureState) : OsCredentialFailureState :=
  if negb (is_os_credential_scope scope) then st
  else
    let st := reset_totals_on_idle now_ms st in
    let st := normalize_backoff now_ms st in
    let st := st <| total_failures := sat_add i32_max (total_failures st) 1 |>
                 <| last_failure_ms := Some now_ms |> in
    let backoff_seconds := os_credential_login_backoff_seconds (total_failures st) in
    if 0 <? backoff_seconds then
      st <| backoff_until_ms := Some (now_ms + backoff_seconds * 1000) |>
    else st.

(** ** The table of failures per address and IPv6 prefix

    An entry is (minute of the last failure, failures in that minute, failures
    in all).  A key is the printed address, or a printed prefix with its length;
    the two never coincide, since only a prefix contains a slash. *)

Inductive Key := Ip (ip : string) | Prefix (addr : Z) (len : Z).
#[export] Instance Key_eq_dec : EqDecision Key.
Proof. solve_decision. Defined.
#[export] Instance Key_countable : Countable Key.
Proof.
  refine (inj_countable'
    (fun k => match k with Ip s => inl s | Prefix a n => inr (a, n) end)
    (fun k => match k with inl s => Ip s | inr (a, n) => Prefix a n end) _).
  by intros [].
Defined.

Abbreviation FailureEntry := (Z * Z * Z)%type.
Abbreviation FailureTable := (gmap Key FailureEntry).

Definition minute_of (f : FailureEntry) : Z := f.1.1.
Definition in_minute (f : FailureEntry) : Z := f.1.2.
Definition in_all (f : FailureEntry) : Z := f.2.

(** [(get_time() / 60_000) as i32] *)
Definition minute (now_ms : Z) : Z := as_i32 (Z.quot now_ms 60000).

Definition lookup_failure (k : Key) (m : FailureTable) : FailureEntry :=
  unwrap_or (m !! k) (0, 0, 0).

Definition mask_u128 (addr prefix : Z) : Z :=
  let mask := if (prefix =? 0) || (128 <? prefix) then 0
              else Z.land (Z.shiftl (2 ^ 128 - 1) (128 - prefix)) (2 ^ 128 - 1) in
  Z.land addr mask.

Definition bump_failure_entry (cur : FailureEntry) (time : Z) : FailureEntry :=
  if minute_of cur =? time then (time, in_minute cur + 1, in_all cur + 1)
  else (time, 1, in_all cur + 1).

Inductive Verdict :=
  | Pass
  | Refuse (error : string) (alarm : option AlarmAuditType).

(** The stores the policy keeps: the table [LOGIN_FAILURES[i]] and the state of
    the OS-credential back-off. *)
Record Stores := { table : FailureTable; os_state : OsCredentialFailureState }.
#[export] Instance eta_Stores : Eta Stores := fun r => Build_Stores (table r) (os_state r).

Section connection.
(** [Ipv6Addr::from_str] on the connection's address without its zone id; the
    table's keys and every theorem below take it as it is. *)
Variable parse_v6 : string -> option Z.

Definition get_ipv6_prefixes (ip : string) : option (Key * Key * Key) :=
  (fun a => (Prefix (mask_u128 a 64) 64, Prefix (mask_u128 a 56) 56,
             Prefix (mask_u128 a 48) 48)) <$> parse_v6 ip.

Definition bump (time : Z) (m : FailureTable) (k : Key) : FailureTable :=
  <[k := bump_failure_entry (lookup_failure k m) time]> m.

Definition update_failure_with_scope (ip : string) (failure : FailureEntry) (time : Z)
    (remove : bool) (scope : FailureScope) (now_ms : Z) (s : Stores) : Stores :=
  match scope with
  | TerminalOsLogin =>
      if remove then s else s <| os_state ::= record_os_credential_failure scope now_ms |>
  | Default =>
      if remove then
        if negb (minute_of failure =? 0) then
          match get_ipv6_prefixes ip with
          | Some (p64, p56, p48) =>
              s <| table ::= fun m => delete (Ip ip) (delete p48 (delete p56 (delete p64 m))) |>
          | None => s <| table ::= delete (Ip ip) |>
          end
        else s
      else
        match get_ipv6_prefixes ip with
        | Some (p64, p56, p48) =>
            let m := foldl (bump time) (table s) [p64; p56; p48] in
            s <| table := bump time m (Ip ip) |>
        | None => s <| table := bump time (table s) (Ip ip) |>
        end
  end.

Definition check_failure_ipv6_prefix (time : Z) (prefix : Key) (prefix_num thresh : Z)
    (m : FailureTable) : option (FailureEntry * Z * Verdict) :=
  let f := lookup_failure prefix m in
  if thresh <? in_all f then
    Some (f, time, Refuse ("Too many wrong attempts for IPv6 prefix /" +:+ pretty prefix_num)
                     (Some ExceedIPv6PrefixAttempts))
  else None.

(** The prefix checks, in order; the first refusal is the answer. *)
Definition check_prefixes (ip : string) (time : Z) (m : FailureTable)
    : option (FailureEntry * Z * Verdict) :=
  match get_ipv6_prefixes ip with
  | Some (p64, p56, p48) =>
      match check_failure_ipv6_prefix time p64 64 60 m with
      | Some r => Some r
      | None =>
          match check_failure_ipv6_prefix time p56 56 80 m with
          | Some r => Some r
          | None => check_failure_ipv6_prefix time p48 48 100 m
          end
      end
  | None => None
  end.

Definition check_failure_with_scope (ip : string) (scope : FailureScope) (now_ms : Z)
    (s : Stores) : (FailureEntry * Z * Verdict) * Stores :=
  let time := minute now_ms in
  match scope with
  | TerminalOsLogin =>
      let '(d, st) := evaluate_os_credential_policy scope now_ms (os_state s) in
      (((0, 0, 0), time,
        if allowed d then Pass else Refuse (unwrap_or (login_error d) "") (audit d)),
       s <| os_state := st |>)
  | Default =>
      match check_prefixes ip time (table s) with
      | Some r => (r, s)
      | None =>
          let f := lookup_failure (Ip ip) (table s) in
          ((f, time,
            if 30 <? in_all f then
              Refuse "Too many wrong attempts" (Some ExceedThirtyAttempts)
            else if (time =? minute_of f) && (6 <? in_minute f) then
              Refuse "Please try 1 minute later" (Some SixAttemptsWithinOneMinute)
            else Pass), s)
      end
  end.

(** ** The budget of wrong passwords *)

(** The entries an attempt is counted under. *)
Definition keys (ip : string) : list Key :=
  match get_ipv6_prefixes ip with
  | Some (p64, p56, p48) => [p64; p56; p48; Ip ip]
  | None => [Ip ip]
  end.

Definition threshold (k : Key) : Z :=
  match k with
  | Ip _ => 30
  | Prefix _ len => if len =? 64 then 60 else if len =? 56 then 80 else 100
  end.

Lemma keys_nodup ip : NoDup (keys ip).
Proof.
  unfold keys, get_ipv6_prefixes; destruct (parse_v6 ip); simpl; repeat constructor; set_solver.
Qed.

Lemma bump_same time m k : lookup_failure k (bump time m k) =
  bump_failure_entry (lookup_failure k m) time.
Proof. unfold bump, lookup_failure; by rewrite lookup_insert_eq. Qed.
Lemma bump_other time m k k' : k <> k' -> lookup_failure k' (bump time m k) = lookup_failure k' m.
Proof. intros; unfold bump, lookup_failure; by rewrite lookup_insert_ne. Qed.

Lemma bumps_other time l m k : k ∉ l ->
  lookup_failure k (foldl (bump time) m l) = lookup_failure k m.
Proof.
  revert m; induction l as [|k' l IH]; intros m Hk; [done|].
  simpl; rewrite IH by set_solver; apply bump_other; set_solver.
Qed.

Lemma bumps_in time l m k : NoDup l -> k ∈ l ->
  lookup_failure k (foldl (bump time) m l) = bump_failure_entry (lookup_failure k m) time.
Proof.
  revert m; induction l as [|k' l IH]; intros m Hn Hk; [set_solver|].
  apply NoDup_cons in Hn as [Hn1 Hn2]; simpl. apply elem_of_cons in Hk as [<-|Hk].
  - rewrite bumps_other by done; apply bump_same.
  - rewrite IH by done; f_equal; apply bump_other; set_solver.
Qed.

(** A recorded failure bumps exactly the entries of the attempt. *)
Lemma update_failure_bumps ip f time now s :
  table (update_failure_with_scope ip f time false Default now s) =
  foldl (bump time) (table s) (keys ip).
Proof. unfold update_failure_with_scope, keys; by destruct (get_ipv6_prefixes ip) as [[[]]|]. Qed.

Lemma in_all_bump f t : in_all (bump_failure_entry f t) = in_all f + 1.
Proof. unfold bump_failure_entry; by destruct (_ =? t). Qed.
Lemma minute_bump f t : minute_of (bump_failure_entry f t) = t.
Proof. unfold bump_failure_entry; by destruct (_ =? t). Qed.
Lemma in_minute_bump f t :
  in_minute (bump_failure_entry f t) = if minute_of f =? t then in_minute f + 1 else 1.
Proof. unfold bump_failure_entry; by destruct (_ =? t). Qed.
Lemma ip_in_keys ip ip' : Ip ip ∈ keys ip' <-> ip = ip'.
Proof. unfold keys, get_ipv6_prefixes; destruct (parse_v6 ip'); simpl; set_solver. Qed.

(** A recorded success clears them, if the address had failed before. *)
Lemma update_success_clears ip f time now s k :
  lookup_failure k (table (update_failure_with_scope ip f time true Default now s)) =
  if negb (minute_of f =? 0) && bool_decide (k ∈ keys ip) then (0, 0, 0) else lookup_failure k (table s).
Proof.
  unfold update_failure_with_scope, keys; destruct (negb (minute_of f =? 0)); cbn [andb]; [|done].
  destruct (get_ipv6_prefixes ip) as [[[p64 p56] p48]|]; unfold lookup_failure; cbn [table set_field];
    rewrite !lookup_delete; case_bool_decide as Hk; rewrite ?elem_of_cons, ?elem_of_nil in Hk;
    repeat (case_decide; [done || (exfalso; naive_solver)|]); try done; naive_solver.
Qed.

(** *** Attempts that overlap

    The table is locked for one entry at a time by the check and once by the update,
    and the connections of the host are tasks of their own: between the check of an
    attempt and what it records others may be checked.  A flight is an attempt under
    way: the address, the minute in which it began, the entries it has not read yet
    and the last one it has read. *)
Record Flight := { fl_ip : string; fl_time : Z; unread : list Key; last_read : FailureEntry }.
Record Flying := { stores : Stores; flights : gmap Z Flight }.

(** Connection [i] begins an attempt, reads the next entry, finishes - what it gave was
    right ([ok]) or wrong - or leaves the attempt and records nothing. *)
Inductive Event :=
  | Begin (i : Z) (ip : string) (now_ms : Z)
  | Read (i : Z)
  | Finish (i : Z) (ok : bool)
  | Leave (i : Z).

Definition over_limit (k : Key) (time : Z) (f : FailureEntry) : bool :=
  match k with
  | Prefix _ _ => threshold k <? in_all f
  | Ip _ => (threshold k <? in_all f) || ((time =? minute_of f) && (6 <? in_minute f))
  end.

Definition event (e : Event) (st : Flying) : Flying :=
  let '(s, fls) := (stores st, flights st) in
  match e with
  | Begin i ip now_ms =>
      match fls !! i with
      | Some _ => st
      | None => {| stores := s; flights := <[i := {| fl_ip := ip; fl_time := minute now_ms; unread := keys ip; last_read := (0, 0, 0) |}]> fls |}
      end
  | Read i =>
      match fls !! i with
      | Some {| fl_ip := ip; fl_time := time; unread := k :: rest |} =>
          let f := lookup_failure k (table s) in
          if over_limit k time f then {| stores := s; flights := delete i fls |}
          else {| stores := s; flights := <[i := {| fl_ip := ip; fl_time := time; unread := rest; last_read := f |}]> fls |}
      | _ => st
      end
  | Finish i ok =>
      match fls !! i with
      | Some {| fl_ip := ip; fl_time := time; unread := []; last_read := f |} =>
          {| stores := update_failure_with_scope ip f time ok Default 0 s; flights := delete i fls |}
      | _ => st
      end
  | Leave i => {| stores := s; flights := delete i fls |}
  end.

Definition events (es : list Event) (st : Flying) : Flying := foldl (fun st e => event e st) st es.
Definition no_failures (os : OsCredentialFailureState) : Flying :=
  {| stores := {| table := ∅; os_state := os |}; flights := ∅ |}.

(** The attempt whose password the event looks at, and whether it is right. *)
Definition looked_at (e : Event) (st : Flying) : option (Flight * bool) :=
  match e with
  | Finish i ok =>
      match flights st !! i with
      | Some fl => match unread fl with [] => Some (fl, ok) | _ => None end
      | None => None
      end
  | _ => None
  end.

(** The wrong passwords under the entry [k] that [p] selects, since a success
    cleared it last. *)
Definition tally (p : Flight -> bool) (k : Key) (e : Event) (st : Flying) (n : Z) : Z :=
  match looked_at e st with
  | Some (fl, ok) =>
      if bool_decide (k ∈ keys (fl_ip fl)) then
        if ok then (if negb (minute_of (last_read fl) =? 0) then 0 else n) else n + Z.b2z (p fl)
      else n
  | None => n
  end.
Fixpoint wrong_since_success (p : Flight -> bool) (k : Key) (es : list Event) (st : Flying) (n : Z) : Z :=
  match es with
  | [] => n
  | e :: es => wrong_since_success p k es (event e st) (tally p k e st n)
  end.

Lemma reads_nothing n i st : flights st !! i = None -> events (replicate n (Read i)) st = st.
Proof.
  intros Hi; induction n as [|n IH]; [done|]; unfold events in *; cbn [replicate foldl].
  assert (event (Read i) st = st) as ->; [|done]; unfold event; by rewrite Hi.
Qed.

(** The reads of one attempt, one after the other. *)
Lemma reads_in_a_row i ip time s fls ks f : fls !! i = None ->
  events (replicate (length ks) (Read i))
    {| stores := s; flights := <[i := {| fl_ip := ip; fl_time := time; unread := ks; last_read := f |}]> fls |} =
  {| stores := s;
     flights := if existsb (fun k => over_limit k time (lookup_failure k (table s))) ks then fls
                else <[i := {| fl_ip := ip; fl_time := time; unread := [];
                               last_read := foldl (fun _ k => lookup_failure k (table s)) f ks |}]> fls |}.
Proof.
  intros Hi; revert f; induction ks as [|k ks IH]; intros f; [done|].
  unfold events in *; cbn [length replicate foldl event stores flights existsb]; rewrite lookup_insert_eq.
  destruct (over_limit k time (lookup_failure k (table s))); cbn [orb].
  - rewrite delete_insert_eq, delete_id by done; by apply reads_nothing.
  - rewrite insert_insert_eq; apply IH.
Qed.

(** Undisturbed, an attempt is the check of the source ... *)
Lemma reads_are_the_check ip now_ms s fls i : fls !! i = None ->
  let st := events (Begin i ip now_ms :: replicate (length (keys ip)) (Read i)) {| stores := s; flights := fls |} in
  match check_failure_with_scope ip Default now_ms s with
  | ((f, time, Pass), _) => st = {| stores := s; flights := <[i := {| fl_ip := ip; fl_time := time; unread := []; last_read := f |}]> fls |}
  | _ => st = {| stores := s; flights := fls |}
  end.
Proof.
  intros Hi st; subst st; unfold events; cbn [foldl event stores flights]; rewrite Hi.
  fold (events (replicate (length (keys ip)) (Read i))); change (foldl _ ?x (replicate ?n ?e)) with (events (replicate n e) x).
  rewrite reads_in_a_row by done; set (time := minute now_ms).
  unfold check_failure_with_scope, check_prefixes, check_failure_ipv6_prefix, keys, get_ipv6_prefixes; fold time.
  destruct (parse_v6 ip) as [a|]; cbn [fmap option_fmap option_map existsb over_limit threshold foldl Z.eqb Pos.eqb].
  - change (if 64 =? 64 then 60 else if 64 =? 56 then 80 else 100) with 60.
    change (if 56 =? 64 then 60 else if 56 =? 56 then 80 else 100) with 80.
    change (if 48 =? 64 then 60 else if 48 =? 56 then 80 else 100) with 100.
    destruct (60 <? _); cbn [orb]; [done|]; destruct (80 <? _); cbn [orb]; [done|]; destruct (100 <? _); cbn [orb]; [done|].
    destruct (30 <? _); cbn [orb]; [done|]; by destruct ((time =? _) && _).
  - destruct (30 <? _); cbn [orb]; [done|]; by destruct ((time =? _) && _).
Qed.

(** ... and what it finishes with the update; the clock of the update is not read. *)
Lemma finish_is_the_update i ip time f ok now s fls : fls !! i = None ->
  event (Finish i ok) {| stores := s; flights := <[i := {| fl_ip := ip; fl_time := time; unread := []; last_read := f |}]> fls |} =
  {| stores := update_failure_with_scope ip f time ok Default now s; flights := fls |}.
Proof. intros Hi; cbn; rewrite lookup_insert_eq; f_equal; by rewrite delete_insert_eq, delete_id. Qed.

(** *** What an entry counts *)

#[local] Arguments update_failure_with_scope : simpl never.

(** An event changes the entry [k] by the failure or the success it finishes. *)
Lemma event_entry e st k :
  lookup_failure k (table (stores (event e st))) =
  match looked_at e st with
  | Some (fl, ok) =>
      if bool_decide (k ∈ keys (fl_ip fl)) then
        if ok then (if negb (minute_of (last_read fl) =? 0) then (0, 0, 0) else lookup_failure k (table (stores st)))
        else bump_failure_entry (lookup_failure k (table (stores st))) (fl_time fl)
      else lookup_failure k (table (stores st))
  | None => lookup_failure k (table (stores st))
  end.
Proof.
  destruct e as [i ip now_ms|i|i ok|i]; cbn; [| | |done].
  - by destruct (flights st !! i).
  - destruct (flights st !! i) as [[ip time [|x rest] f]|]; [done| |done]; by destruct (over_limit _ _ _).
  - destruct (flights st !! i) as [[ip time [|x rest] f]|]; cbn; [|done|done]; destruct ok.
    + rewrite update_success_clears; destruct (negb _), (bool_decide _); done.
    + rewrite update_failure_bumps; case_bool_decide; [by apply bumps_in; [apply keys_nodup|]|by apply bumps_other].
Qed.

(** All that is counted: the tally of everything is the count of the entry. *)
Lemma tally_is_in_all k e st n : n = in_all (lookup_failure k (table (stores st))) ->
  tally (fun _ => true) k e st n = in_all (lookup_failure k (table (stores (event e st)))).
Proof.
  intros ->; unfold tally; rewrite event_entry; destruct (looked_at e st) as [[fl ok]|]; [|done].
  case_bool_decide; [|done]; destruct ok; [by destruct (negb _)|by rewrite in_all_bump].
Qed.

(** *** Flights that have passed an entry *)

Definition passed (k : Key) (fl : Flight) : bool := bool_decide (k ∈ keys (fl_ip fl)) && negb (bool_decide (k ∈ unread fl)).
Definition passing (k : Key) (fls : gmap Z Flight) : Z := Z.of_nat (size (filter (fun p => passed k p.2 = true) fls)).

Lemma passing_insert k i fl fls : fls !! i = None ->
  passing k (<[i := fl]> fls) = passing k fls + Z.b2z (passed k fl).
Proof.
  intros Hi; unfold passing; destruct (passed k fl) eqn:E.
  - rewrite map_filter_insert_True by done; rewrite map_size_insert_None; [cbn; lia|].
    apply map_lookup_filter_None; by left.
  - rewrite map_filter_insert_not' ; [cbn; lia|cbn; congruence|]; intros y Hy; congruence.
Qed.
Lemma passing_delete k i fl fls : fls !! i = Some fl -> passing k fls = passing k (delete i fls) + Z.b2z (passed k fl).
Proof.
  intros Hi; rewrite <- (insert_delete_id fls i fl Hi) at 1; by rewrite passing_insert by apply lookup_delete_eq.
Qed.
Lemma passing_bound k fls : passing k fls <= Z.of_nat (size fls).
Proof. unfold passing; apply Nat2Z.inj_le, map_size_filter. Qed.

(** The keys a flight reads are those of its address, each once. *)
Definition orderly (st : Flying) : Prop := forall i fl, flights st !! i = Some fl -> exists read, keys (fl_ip fl) = read ++ unread fl.

Lemma orderly_event e st : orderly st -> orderly (event e st).
Proof.
  intros Ho; destruct e as [i ip now_ms|i|i ok|i]; cbn; [| | |intros j fl; cbn; intros [_ H]%lookup_delete_Some; by apply (Ho j)].
  - destruct (flights st !! i) eqn:E; [done|]; intros j fl; cbn; intros [[<- <-]|[_ H]]%lookup_insert_Some; [by exists []|by apply (Ho j)].
  - destruct (flights st !! i) as [[ip time [|x rest] f]|] eqn:E; [done| |done]; destruct (over_limit _ _ _); intros j fl; cbn.
    + intros [_ H]%lookup_delete_Some; by apply (Ho j).
    + intros [[<- <-]|[_ H]]%lookup_insert_Some; [|by apply (Ho j)]; destruct (Ho i _ E) as [read Hr]; cbn in *.
      exists (read ++ [x]); by rewrite Hr, <- app_assoc.
  - destruct (flights st !! i) as [[ip time [|x rest] f]|] eqn:E; [|done|done]; intros j fl; cbn; intros [_ H]%lookup_delete_Some; by apply (Ho j).
Qed.

(** At no time more than [n] attempts are under way. *)
Fixpoint at_most (n : Z) (es : list Event) (st : Flying) : Prop :=
  match es with [] => True | e :: es => Z.of_nat (size (flights (event e st))) <= n /\ at_most n es (event e st) end.

Definition within (n : Z) (k : Key) (st : Flying) : Prop :=
  in_all (lookup_failure k (table (stores st))) + passing k (flights st) <= threshold k + n.

Lemma within_event n k e st : 0 <= n -> 0 <= threshold k -> orderly st -> Z.of_nat (size (flights (event e st))) <= n -> within n k st -> within n k (event e st).
Proof.
  intros Hn0 Ht0 Ho Hn; unfold within; rewrite event_entry; pose proof (passing_bound k (flights (event e st))) as Hb.
  destruct e as [i ip now_ms|i|i ok|i]; cbn [event looked_at] in *; [| | |cbn [stores flights]; intros Hw].
  - destruct (flights st !! i) eqn:E; [done|]; cbn [stores flights] in *; rewrite passing_insert by done.
    assert (passed k {| fl_ip := ip; fl_time := minute now_ms; unread := keys ip; last_read := (0, 0, 0) |} = false) as ->; [|cbn; lia].
    unfold passed; cbn; by destruct (bool_decide _).
  - destruct (flights st !! i) as [[ip time [|x rest] f]|] eqn:E; [done| |done].
    pose proof (passing_delete k i _ _ E) as Hd; set (f' := lookup_failure x (table (stores st))) in *.
    destruct (over_limit x time f') eqn:El; cbn [stores flights] in *; [destruct (passed k _); cbn in Hd; lia|].
    rewrite <- insert_delete_eq, passing_insert in * by apply lookup_delete_eq; intros Hw.
    destruct (decide (k = x)) as [->|Hne].
    + assert (in_all f' <= threshold x) by (unfold over_limit in El; destruct x; cbn [orb] in El; try apply orb_false_iff in El as [El _]; apply Z.ltb_ge in El; exact El).
      fold f'; lia.
    + destruct (Ho i _ E) as [read Hr]; cbn in Hr.
      assert (passed k {| fl_ip := ip; fl_time := time; unread := rest; last_read := f' |} = passed k {| fl_ip := ip; fl_time := time; unread := x :: rest; last_read := f |}) as ->; [|lia].
      unfold passed; cbn; f_equal; f_equal; apply bool_decide_ext; set_solver.
  - destruct (flights st !! i) as [[ip time [|x rest] f]|] eqn:E; [|done|done]; cbn [stores flights unread fl_ip fl_time last_read] in *.
    pose proof (passing_delete k i _ _ E) as Hd; unfold passed in Hd; cbn in Hd; rewrite andb_true_r in Hd.
    case_bool_decide; cbn in Hd; [|lia]; destruct ok; [destruct (negb _); [cbn in *; lia|lia]|rewrite in_all_bump; lia].
  - destruct (flights st !! i) as [fl|] eqn:E; [pose proof (passing_delete k i _ _ E); destruct (passed k fl); cbn in *; lia|by rewrite delete_id].
Qed.

Lemma wrong_within n k es st : 0 <= n -> 0 <= threshold k -> orderly st -> at_most n es st -> within n k st ->
  wrong_since_success (fun _ => true) k es st (in_all (lookup_failure k (table (stores st)))) <= threshold k + n.
Proof.
  intros Hn Ht; revert st; induction es as [|e es IH]; intros st Ho Ha Hw; cbn.
  - unfold within in Hw; unfold passing in Hw; lia.
  - destruct Ha as [Hs Ha]; rewrite (tally_is_in_all k e st _ eq_refl).
    apply IH; [by apply orderly_event|done|by apply within_event].
Qed.

(** *** One address, one attempt at a time *)

Definition alone (ip : string) (st : Flying) : Prop := forall i j fl fl',
  flights st !! i = Some fl -> flights st !! j = Some fl' -> fl_ip fl = ip -> fl_ip fl' = ip -> i = j.
Fixpoint apart (ip : string) (es : list Event) (st : Flying) : Prop :=
  match es with [] => True | e :: es => alone ip (event e st) /\ apart ip es (event e st) end.
(** The minutes in which attempts begin do not decrease, from [t] on. *)
Fixpoint clock_runs (t : Z) (es : list Event) : Prop :=
  match es with
  | [] => True
  | Begin _ _ now_ms :: es => t <= minute now_ms /\ clock_runs (minute now_ms) es
  | _ :: es => clock_runs t es
  end.
Definition clock_after (t : Z) (e : Event) : Z := match e with Begin _ _ now_ms => minute now_ms | _ => t end.
Definition in_minute_T (T : Z) (fl : Flight) : bool := fl_time fl =? T.

(** What holds of the entry [f] of the address and the flight under way, [W] wrong
    passwords of minute [T] after the last success. *)
Record minute_inv (ip : string) (T t W : Z) (st : Flying) : Prop := {
  mi_entry : 0 <= minute_of (lookup_failure (Ip ip) (table (stores st))) <= t;
  mi_count : 0 <= W <= 7;
  mi_later : 0 < W -> T <= minute_of (lookup_failure (Ip ip) (table (stores st)));
  mi_exact : minute_of (lookup_failure (Ip ip) (table (stores st))) = T ->
    W = in_minute (lookup_failure (Ip ip) (table (stores st)));
  mi_flight : forall i fl, flights st !! i = Some fl -> fl_ip fl = ip ->
    minute_of (lookup_failure (Ip ip) (table (stores st))) <= fl_time fl <= t /\
    (unread fl = [] -> fl_time fl = T -> minute_of (lookup_failure (Ip ip) (table (stores st))) = T -> W <= 6);
}.

(** A single attempt at a time is one attempt of the address at a time. *)
Lemma one_is_alone ip st : Z.of_nat (size (flights st)) <= 1 -> alone ip st.
Proof.
  intros Hs i j fl fl' Hi Hj _ _; destruct (decide (i = j)) as [|Hne]; [done|exfalso].
  rewrite <- (insert_delete_id _ _ _ Hi), map_size_insert_None in Hs by apply lookup_delete_eq.
  assert (Hj' : delete i (flights st) !! j = Some fl') by (by rewrite lookup_delete_ne).
  rewrite <- (insert_delete_id _ _ _ Hj'), map_size_insert_None in Hs by apply lookup_delete_eq; lia.
Qed.
Lemma one_at_a_time ip es : forall st, at_most 1 es st -> apart ip es st.
Proof. induction es as [|e es IH]; intros st; cbn; [done|intros [H1 H2]; split; [by apply one_is_alone|by apply IH]]. Qed.

Lemma keys_last ip l x : keys ip = l ++ [x] -> x = Ip ip.
Proof.
  unfold keys, get_ipv6_prefixes; destruct (parse_v6 ip) as [a|]; cbn.
  - intros H; change [_; _; _; Ip ip] with ([Prefix (mask_u128 a 64) 64; Prefix (mask_u128 a 56) 56; Prefix (mask_u128 a 48) 48] ++ [Ip ip]) in H.
    by apply app_inj_tail in H as [_ ->].
  - intros H; change [Ip ip] with ([] ++ [Ip ip]) in H; by apply app_inj_tail in H as [_ ->].
Qed.

Lemma minute_inv_step ip T t W e st :
  clock_runs t [e] -> orderly st -> alone ip st -> alone ip (event e st) -> minute_inv ip T t W st ->
  minute_inv ip T (clock_after t e) (tally (in_minute_T T) (Ip ip) e st W) (event e st).
Proof.
  intros Ht Ho Ha Ha' [H1 H2 H3 H4 H5].
  assert (Hf := event_entry e st (Ip ip)); unfold tally; set (f := lookup_failure (Ip ip) (table (stores st))) in *.
  destruct e as [i ip' now_ms|i|i ok|i]; cbn [event looked_at clock_after clock_runs] in *.
  - destruct (flights st !! i) eqn:E; [constructor; fold f; try done; [lia|]; intros j fl Hj Hip; destruct (H5 j fl Hj Hip); split; [lia|done]|].
    constructor; cbn [stores flights] in *; fold f; try done; [lia|]; intros j fl [[<- <-]|[_ Hj]]%lookup_insert_Some Hip; cbn in *.
    + split; [lia|]; intros Hk; unfold keys in Hk; by destruct (get_ipv6_prefixes ip') as [[[? ?] ?]|].
    + destruct (H5 j fl Hj Hip); split; [lia|done].
  - destruct (flights st !! i) as [[ip' time [|x rest] g]|] eqn:E; [done| |done].
    destruct (over_limit x time _) eqn:El; constructor; cbn [stores flights] in *; fold f; try done; intros j fl.
    + intros [_ Hj]%lookup_delete_Some; by apply (H5 j).
    + intros [[<- <-]|[_ Hj]]%lookup_insert_Some Hip; [|by apply (H5 j)]; cbn in *; subst ip'.
      destruct (H5 i _ E eq_refl) as [Hm _]; split; [done|]; intros -> -> Hmin; destruct (Ho i _ E) as [read Hr]; cbn in Hr.
      apply keys_last in Hr as ->; fold f in El; cbn in El; apply orb_false_iff in El as [_ El].
      rewrite Hmin, Z.eqb_refl in El; cbn in El; rewrite (H4 Hmin); lia.
  - destruct (flights st !! i) as [[ip' time [|x rest] g]|] eqn:E; [|done|done]; cbn [unread fl_ip fl_time last_read] in *.
    assert (Hgone : ip' = ip -> forall j fl, delete i (flights st) !! j = Some fl -> fl_ip fl <> ip).
    { intros -> j fl [Hne Hj]%lookup_delete_Some Hip; apply Hne; by apply (Ha i j _ _ E Hj). }
    case_bool_decide as Hk; [apply ip_in_keys in Hk as <-|].
    + destruct (H5 i _ E eq_refl) as [Hm Hp]; cbn in Hm, Hp; specialize (Hp eq_refl).
      assert (Hnone : forall P : Flight -> Prop, forall j fl, delete i (flights st) !! j = Some fl -> fl_ip fl = ip -> P fl)
        by (intros P j fl Hj Hip; by destruct (Hgone eq_refl j fl Hj)).
      cbn [stores] in Hf; destruct ok; [destruct (negb (minute_of g =? 0))|]; constructor; cbn [stores flights]; rewrite ?Hf;
        try (intros j fl Hj Hip; exact (Hnone (fun fl => _ <= fl_time fl <= _ /\ (_ -> _ -> _ -> _)) j fl Hj Hip)); try done; try (cbn; lia).
      all: unfold in_minute_T; rewrite ?minute_bump, ?in_minute_bump; cbn [fl_time]; destruct (Z.eqb_spec time T), (Z.eqb_spec (minute_of f) time);
        cbn [Z.b2z]; try lia.
    + cbn [stores] in Hf; constructor; cbn [stores flights]; rewrite ?Hf; try done; intros j fl [_ Hj]%lookup_delete_Some; by apply (H5 j).
  - constructor; cbn [stores flights]; fold f; try done; intros j fl [_ Hj]%lookup_delete_Some; by apply (H5 j).
Qed.

Lemma minute_from ip T es : forall t W st, clock_runs t es -> orderly st -> alone ip st -> apart ip es st ->
  minute_inv ip T t W st -> wrong_since_success (in_minute_T T) (Ip ip) es st W <= 7.
Proof.
  induction es as [|e es IH]; intros t W st Ht Ho Ha Hap Hi; cbn; [destruct Hi; lia|]; destruct Hap as [Ha' Hap].
  apply (IH (clock_after t e)); [destruct e; cbn in *; try done; by destruct Ht|by apply orderly_event|done|done|].
  apply minute_inv_step; try done; destruct e; cbn in *; try done; by destruct Ht.
Qed.

(** C38. Wrong passwords are rationed, however attempts overlap and in whatever order
    addresses try.  When at no time more than [n] attempts are under way, then of the
    passwords looked at since the last success that cleared an entry, at most 30 + [n]
    of an address are wrong, at most 60 + [n] of an IPv6 /64, 80 + [n] of a /56 and
    100 + [n] of a /48.  As long as the clock does not run backwards and the attempts of
    an address do not overlap each other, at most seven of those it began in a minute
    are wrong. *)
Theorem wrong_password_budget es os n :
  let st := no_failures os in
  (0 <= n -> at_most n es st -> forall k, wrong_since_success (fun _ => true) k es st 0 <= threshold k + n) /\
  (forall ip T, clock_runs 0 es -> apart ip es st -> wrong_since_success (in_minute_T T) (Ip ip) es st 0 <= 7).
Proof.
  intros st; assert (Ho : orderly st) by (intros i fl; cbn; by rewrite lookup_empty).
  assert (Hf : forall k, lookup_failure k (table (stores st)) = (0, 0, 0)) by (intros k; unfold lookup_failure; cbn; by rewrite lookup_empty).
  split.
  - intros Hn Ha k; assert (0 <= threshold k) by (destruct k as [|? len]; cbn; repeat case_match; lia).
    pose proof (wrong_within n k es st Hn H Ho Ha) as Hw; rewrite Hf in Hw; apply Hw.
    unfold within; rewrite Hf; cbn; unfold passing; rewrite map_filter_empty, map_size_empty; cbn; lia.
  - intros ip T Ht Ha; apply (minute_from ip T es 0 0 st Ht Ho); [intros i j fl fl'; cbn; by rewrite lookup_empty|done|].
    constructor; rewrite ?Hf; cbn; try lia; intros i fl; cbn; by rewrite lookup_empty.
Qed.

(** Success forgets the failures of the address, and of its prefixes. *)
Lemma success_clears ip f time now s k :
  minute_of f <> 0 -> k ∈ keys ip ->
  table (update_failure_with_scope ip f time true Default now s) !! k = None.
Proof.
  intros Hf Hk; unfold update_failure_with_scope, keys in *.
  apply Z.eqb_neq in Hf; rewrite Hf; simpl.
  destruct (get_ipv6_prefixes ip) as [[[p64 p56] p48]|]; simpl;
    rewrite !lookup_delete_None; set_solver.
Qed.
End connection.

(** Forty connections of one address whose checks are all done before any of them is
    refused: all forty passwords are looked at, and three fit into the budget of a
    single one. *)
Definition at_once (n : nat) : list Event :=
  ((fun i => Begin i "10.0.0.1" 60000) <$> (Z.of_nat <$> seq 0 n)) ++
  (Read <$> (Z.of_nat <$> seq 0 n)) ++ ((fun i => Finish i false) <$> (Z.of_nat <$> seq 0 n)).
Theorem checks_at_once_pass :
  wrong_since_success (fun _ => None) (fun _ => true) (Ip "10.0.0.1") (at_once 40) (no_failures default_os_state) 0 = 40.
Proof. vm_compute. reflexivity. Qed.

(** A hundred attempts, one every five seconds, the last one right. *)
Definition one_by_one (n : nat) : list Event :=
  mjoin ((fun i => [Begin i "10.0.0.1" (60000 + i * 5000); Read i; Finish i (i =? 99)]) <$> (Z.of_nat <$> seq 0 n)).

Lemma wrong_password_budget_witness :
  let st := no_failures default_os_state in
  let wrong p := wrong_since_success (fun _ => None) p (Ip "10.0.0.1") (one_by_one 99) st 0 in
  (at_most (fun _ => None) 1 (one_by_one 99) st /\ clock_runs 0 (one_by_one 99)) /\
  (wrong (fun _ => true) = 31 /\ wrong (fun _ => true) <= 31) /\
  (wrong (in_minute_T 2) = 7 /\ wrong (in_minute_T 2) <= 7).
Proof.
  intros st wrong; assert (Ha : at_most (fun _ => None) 1 (one_by_one 99) st) by (vm_compute; repeat split; discriminate).
  assert (Ht : clock_runs 0 (one_by_one 99)) by (vm_compute; repeat split; discriminate).
  destruct (wrong_password_budget (fun _ => None) (one_by_one 99) default_os_state 1) as [H1 H2].
  split; [split; [exact Ha|exact Ht]|]; split; (split; [vm_compute; reflexivity|]).
  - exact (H1 ltac:(lia) Ha (Ip "10.0.0.1")).
  - exact (H2 "10.0.0.1"%string 2 Ht (one_at_a_time (fun _ => None) _ _ _ Ha)).
Defined.

(** ** The back-off of OS credentials *)

Lemma backoff_seconds_mono m n :
  m <= n -> os_credential_login_backoff_seconds m <= os_credential_login_backoff_seconds n.
Proof.
  unfold os_credential_login_backoff_seconds; intros H.
  destruct (Z.leb_spec m 2), (Z.leb_spec n 2); try lia.
  - rewrite Z.shiftl_mul_pow2 by lia. pose proof (Z.pow_nonneg 2 (Z.min (n - 3) 7)).
    unfold OS_CREDENTIAL_LOGIN_BACKOFF_BASE_SECONDS, OS_CREDENTIAL_LOGIN_BACKOFF_MAX_SECONDS; lia.
  - rewrite !Z.shiftl_mul_pow2 by lia.
    assert (2 ^ Z.min (m - 3) 7 <= 2 ^ Z.min (n - 3) 7) by (apply Z.pow_le_mono_r; lia).
    unfold OS_CREDENTIAL_LOGIN_BACKOFF_BASE_SECONDS; lia.
Qed.

Lemma backoff_seconds_bounds n :
  0 <= os_credential_login_backoff_seconds n <= 1800 /\
  (3 <= n -> 15 <= os_credential_login_backoff_seconds n).
Proof.
  split; [split|].
  - destruct (Z.le_gt_cases n 0).
    + unfold os_credential_login_backoff_seconds. destruct (Z.leb_spec n 2); lia.
    + apply (backoff_seconds_mono 0 n); lia.
  - unfold os_credential_login_backoff_seconds, OS_CREDENTIAL_LOGIN_BACKOFF_MAX_SECONDS.
    destruct (n <=? 2); lia.
  - apply (backoff_seconds_mono 3 n).
Qed.

(** What the last recorded failure left behind. *)
Definition after_failure (t n : Z) (st : OsCredentialFailureState) : Prop :=
  last_failure_ms st = Some t /\ total_failures st = n /\ 1 <= n <= i32_max /\
  (3 <= n -> backoff_until_ms st = Some (t + os_credential_login_backoff_seconds n * 1000)).

(** Timestamps far enough from the ends of [i64]. *)
Definition sane (t : Z) : Prop := 0 <= t < 2 ^ 62.

Lemma i64_sat_diff a b : sane a -> sane b -> i64_sat (a - b) = a - b.
Proof. unfold sane, i64_sat, i64_min, i64_max; lia. Qed.

(** Evaluating: an idle host starts afresh, otherwise an allowed try has waited. *)
Lemma evaluate_allowed t n st t1 :
  sane t -> sane t1 -> t <= t1 -> after_failure t n st ->
  let d := evaluate_os_credential_policy TerminalOsLogin t1 st in
  allowed d.1 = true ->
  7200000 <= t1 - t /\ d.2 = default_os_state \/
  t + os_credential_login_backoff_seconds n * 1000 <= t1 /\
    d.2 = {| total_failures := n; backoff_until_ms := None; last_failure_ms := Some t |}.
Proof.
  intros Ht Ht1 Hle (Hl & Hn & Hb & Hu).
  unfold evaluate_os_credential_policy; simpl; unfold reset_totals_on_idle.
  rewrite Hl, i64_sat_diff by done.
  destruct (Z.leb_spec OS_CREDENTIAL_LOGIN_TOTAL_IDLE_RESET_MS (t1 - t)) as [Hi|Hi].
  - simpl; intros _; left; split; [exact Hi|done].
  - right. unfold normalize_backoff in *.
    destruct (Z.le_gt_cases 3 n) as [H3|H3].
    + rewrite (Hu H3) in *. destruct (Z.leb_spec (t + os_credential_login_backoff_seconds n * 1000) t1);
        simpl in *; [|by rewrite Hu in H]. split; [done|]; destruct st; by simplify_eq/=.
    + replace (os_credential_login_backoff_seconds n) with 0
        by (unfold os_credential_login_backoff_seconds; destruct (Z.leb_spec n 2); lia).
      destruct (backoff_until_ms st) as [u|] eqn:Eu; [destruct (u <=? t1); simpl in *|];
        rewrite ?Eu in *; try done; (split; [lia|]); destruct st; by simplify_eq/=.
Qed.

Lemma record_fresh t2 :
  after_failure t2 1 (record_os_credential_failure TerminalOsLogin t2 default_os_state).
Proof. split_and!; first [done|lia|intros; exfalso; lia]. Qed.

(** A try that is let through and then fails: the gap it has kept to the last
    failure, and the count it leaves. *)
Lemma next_failure t n st t1 t2 :
  sane t -> sane t1 -> sane t2 -> t <= t1 <= t2 -> after_failure t n st ->
  let d := evaluate_os_credential_policy TerminalOsLogin t1 st in
  allowed d.1 = true ->
  let st' := record_os_credential_failure TerminalOsLogin t2 d.2 in
  (7200000 <= t2 - t /\ after_failure t2 1 st') \/
  (t + os_credential_login_backoff_seconds n * 1000 <= t2 /\
   after_failure t2 (Z.min (n + 1) i32_max) st').
Proof.
  intros Ht Ht1 Ht2 Hle Ha d Hal st'.
  destruct (evaluate_allowed t n st t1) as [[Hi Hd]|[Hw Hd]];
    [done|done|lia|done|done|..];
    subst st' d; rewrite Hd.
  { left; split; [lia|apply record_fresh]. }
  destruct Ha as (_ & _ & Hb & _).
  unfold record_os_credential_failure; simpl; unfold reset_totals_on_idle; simpl.
  rewrite i64_sat_diff by done.
  destruct (Z.leb_spec OS_CREDENTIAL_LOGIN_TOTAL_IDLE_RESET_MS (t2 - t)) as [Hi|Hi].
  { left; split; [exact Hi|apply record_fresh]. }
  right; split; [lia|]; simpl; change (sat_add i32_max n 1) with (Z.min (n + 1) i32_max).
  assert (Hm : 1 <= Z.min (n + 1) i32_max <= i32_max) by (unfold i32_max in *; lia).
  set (n' := Z.min (n + 1) i32_max) in *.
  destruct (backoff_seconds_bounds n') as [Hb1 Hb2].
  destruct (Z.ltb_spec 0 (os_credential_login_backoff_seconds n'));
    split_and!; simpl; first [done|lia|intros; exfalso; lia].
Qed.

(** A try with OS credentials that turn out wrong: evaluated at [o_eval] and, if
    let through, recorded at [o_fail], when the credentials have been refused. *)
Record OsTry := { o_eval : Z; o_fail : Z }.

Definition os_try (e : OsTry) (st : OsCredentialFailureState)
    : option Z * OsCredentialFailureState :=
  let '(d, st) := evaluate_os_credential_policy TerminalOsLogin (o_eval e) st in
  if allowed d then (Some (o_fail e), record_os_credential_failure TerminalOsLogin (o_fail e) st)
  else (None, st).

(** The times at which wrong credentials were looked at. *)
Definition failure_times (es : list OsTry) (st : OsCredentialFailureState) : list Z :=
  omap id (execs os_try es st).1.

Fixpoint in_order (t : Z) (es : list OsTry) : Prop :=
  match es with
  | [] => True
  | e :: es => t <= o_eval e <= o_fail e /\ sane (o_fail e) /\ in_order (o_fail e) es
  end.

Lemma failure_times_cons e es st :
  failure_times (e :: es) st =
  match (os_try e st).1 with
  | Some t => t :: failure_times es (os_try e st).2
  | None => failure_times es (os_try e st).2
  end.
Proof. unfold failure_times; rewrite execs_cons; simpl; by destruct (os_try e st) as [[]]. Qed.

(** The rate: [spaced n t l] says the times [l] follow a failure number [n] at [t]
    with the back-off kept, or after two idle hours. *)
Fixpoint spaced (n t : Z) (l : list Z) : Prop :=
  match l with
  | [] => True
  | t' :: l => t <= t' /\
      (7200000 <= t' - t /\ spaced 1 t' l \/
       t + os_credential_login_backoff_seconds n * 1000 <= t' /\
       spaced (Z.min (n + 1) i32_max) t' l)
  end.

(** A refused try changes nothing a later try can see. *)
Lemma evaluate_blocked t n st t1 :
  sane t -> sane t1 -> t <= t1 -> after_failure t n st ->
  let d := evaluate_os_credential_policy TerminalOsLogin t1 st in
  allowed d.1 = false -> d.2 = st.
Proof.
  intros Ht Ht1 Hle (Hl & Hn & Hb & Hu).
  unfold evaluate_os_credential_policy; simpl; unfold reset_totals_on_idle.
  rewrite Hl, i64_sat_diff by done.
  destruct (OS_CREDENTIAL_LOGIN_TOTAL_IDLE_RESET_MS <=? t1 - t); [done|].
  unfold normalize_backoff; destruct (backoff_until_ms st) as [u|] eqn:Eu; simpl;
    [destruct (u <=? t1); simpl|]; by rewrite ?Eu.
Qed.

Lemma failures_spaced es n t t0 st :
  sane t -> t <= t0 -> in_order t0 es -> after_failure t n st -> spaced n t (failure_times es st).
Proof.
  revert n t t0 st; induction es as [|e es IH]; intros n t t0 st Ht Hle Ho Ha; [done|].
  destruct Ho as (Hle1 & Hs & Ho); rewrite failure_times_cons; unfold os_try.
  assert (sane (o_eval e)) by (unfold sane in *; lia).
  assert (Hnext := next_failure t n st (o_eval e) (o_fail e) Ht).
  assert (Hblk := evaluate_blocked t n st (o_eval e) Ht).
  destruct (evaluate_os_credential_policy TerminalOsLogin (o_eval e) st) as [d st1].
  simpl in *. destruct (allowed d) eqn:Ed; simpl.
  - split; [lia|]. destruct Hnext as [[Hi Ha']|[Hi Ha']]; [done|done|lia|done|done|left|right];
      split; try done; eapply (IH _ _ (o_fail e)); eauto; lia.
  - rewrite Hblk in * by (done || lia). apply (IH n t (o_fail e)); (done || lia).
Qed.

(** The least time [k] further failures take after failure number [m]. *)
Fixpoint span (m : Z) (k : nat) : Z :=
  match k with
  | O => 0
  | S k => os_credential_login_backoff_seconds m * 1000 + span (m + 1) k
  end.

Lemma last_cons_default (t t' : Z) l : List.last (t' :: l) t = List.last l t'.
Proof.
  revert t t'; induction l as [|x l IH]; intros t t'; [done|].
  change (List.last (x :: l) t = List.last (x :: l) t'); by rewrite !IH.
Qed.

Lemma spaced_mono l n t : spaced n t l -> t <= List.last l t.
Proof.
  revert n t; induction l as [|t' l IH]; intros n t; [simpl; lia|].
  intros [Hle Hs]. assert (t' <= List.last l t') by (destruct Hs as [[_ Hs]|[_ Hs]]; eauto).
  rewrite last_cons_default; lia.
Qed.

Lemma spaced_span l m n t :
  m <= n -> m + Z.of_nat (length l) <= i32_max -> spaced n t l ->
  7200000 <= List.last l t - t \/ span m (length l) <= List.last l t - t.
Proof.
  revert m n t; induction l as [|t' l IH]; intros m n t Hmn Hmax Hs; [right; simpl; lia|].
  destruct Hs as [Hle Hs]; rewrite last_cons_default; cbn [length] in Hmax.
  destruct Hs as [[Hi Hs]|[Hi Hs]]; assert (Hm := spaced_mono _ _ _ Hs).
  - left; lia.
  - destruct (IH (m + 1) (Z.min (n + 1) i32_max) t') as [|IH']; [lia|lia|done|left|right];
      assert (Hb := backoff_seconds_bounds n); assert (Hb' := backoff_seconds_mono m n Hmn);
      simpl; lia.
Qed.

(** Every suffix of the failure log is spaced. *)
Lemma spaced_suffix l1 t1 l2 n t :
  1 <= n <= i32_max -> spaced n t (l1 ++ t1 :: l2) ->
  exists m, 1 <= m <= i32_max /\ spaced m t1 l2.
Proof.
  revert n t; induction l1 as [|t' l1 IH]; intros n t Hn [Hle Hs]; simpl in *;
    (destruct Hs as [[_ Hs]|[_ Hs]];
       [|assert (1 <= Z.min (n + 1) i32_max <= i32_max) by (unfold i32_max in *; lia)]);
    try (by eexists; split; [|done]); try (eapply IH; [|done]; done).
  all: first [exists 1; split; [unfold i32_max; lia|done]
             |eapply IH; [|done]; unfold i32_max; lia].
Qed.

Lemma spaced_prefix l1 l2 n t : spaced n t (l1 ++ l2) -> spaced n t l1.
Proof.
  revert n t; induction l1 as [|t' l1 IH]; intros n t; [done|].
  intros [Hle [[? Hs]|[? Hs]]]; (split; [done|]); [left|right]; eauto.
Qed.

Lemma first_failure es t0 :
  sane t0 -> in_order t0 es ->
  match failure_times es default_os_state with [] => True | t :: l => spaced 1 t l end.
Proof.
  destruct es as [|e es]; [done|]; intros Ht (Hle & Hs & Ho).
  rewrite failure_times_cons; unfold os_try; simpl.
  eapply failures_spaced; [done| |done|apply record_fresh]; lia.
Qed.

(** OS credentials cannot be guessed fast: in any history of terminal logins
    with wrong credentials, tried in any rhythm, thirteen that are looked at (the
    others are refused with the seconds left to wait) span at least two hours. *)
Theorem os_login_rate es l1 t l2 l3 :
  in_order 0 es ->
  failure_times es default_os_state = l1 ++ (t :: l2) ++ l3 -> length l2 = 12%nat ->
  7200000 <= List.last l2 t - t.
Proof.
  intros Ho Hf Hl; apply first_failure in Ho; [|unfold sane; lia].
  rewrite Hf in Ho.
  assert (Hm : exists m, 1 <= m <= i32_max /\ spaced m t (l2 ++ l3)).
  { destruct l1 as [|t0 l1]; simpl in Ho; [exists 1; split; [unfold i32_max; lia|done]|].
    eapply spaced_suffix; [|done]; unfold i32_max; lia. }
  destruct Hm as (m & Hm & Hs); apply spaced_prefix in Hs.
  destruct (spaced_span l2 1 m t) as [H|H]; [lia|rewrite Hl; unfold i32_max; lia|done|lia|].
  rewrite Hl in H; vm_compute (span 1 12) in H; lia.
Qed.

Lemma os_login_rate_witness :
  let es := List.map (fun k => {| o_eval := k * 1000; o_fail := k * 1000 |})
              [0; 1; 2; 10; 17; 50; 200; 400; 800; 1600; 3600; 5400; 7200; 9000] in
  length (failure_times es default_os_state) = 13%nat /\
  7200000 <= List.last (tail (failure_times es default_os_state)) 0 - 0.
Proof.
  intros es; split; [vm_compute; reflexivity|].
  apply (os_login_rate es [] 0 (tail (failure_times es default_os_state)) []).
  - vm_compute; repeat split; discriminate.
  - vm_compute; reflexivity.
  - vm_compute; reflexivity.
Defined.
