(* ===== verification/HelperRetry.v ===== *)
(** * Startup policy of the per-desktop capture helpers

    Models src/src/server/helper_retry.rs: the coordinator that decides when a
    user-session capture helper may be launched, and the lease that travels with
    a capturer.  The coordinator is shared behind a mutex ([owner] of the
    lease); an operation of the lease takes it and returns it.  The instants the
    code samples are arguments. *)

From S2P Require Import Prelude.

Definition STARTUP_TIMEOUT : duration := from_secs 3.
Definition ABANDONED_TIMEOUT : duration := from_secs 5.
Definition FIRST_COOLDOWN : duration := from_secs 5.
Definition SECOND_COOLDOWN : duration := from_secs 30.
Definition MAX_FAILURES : Z := 3.
Definition MAX_STARTING : Z := 2.
Definition MAX_KEYS : Z := 64.

Record HelperKey := { k_desktop_generation : Z; k_display : Z; k_backend : Z }.
#[export] Instance HelperKey_eq_dec : EqDecision HelperKey.
Proof. solve_decision. Defined.
#[export] Instance HelperKey_countable : Countable HelperKey.
Proof.
  refine (inj_countable' (fun k => (k_desktop_generation k, k_display k, k_backend k))
    (fun '(g, d, b) => Build_HelperKey g d b) _); by intros [].
Defined.

Record AttemptToken := { key : HelperKey; generation : Z }.

Inductive Phase :=
  | Ready
  | Queued
  | Starting (start : instant)
  | Running
  | Cooldown (at_ : instant)
  | Suppressed.
#[export] Instance Phase_eq_dec : EqDecision Phase.
Proof. solve_decision. Defined.

Record Entry := { phase : Phase; attempt : Z; failures : Z }.
#[export] Instance eta_Entry : Eta Entry := fun r =>
  Build_Entry (phase r) (attempt r) (failures r).

Definition default_entry : Entry := {| phase := Ready; attempt := 0; failures := 0 |}.

Definition is_starting (e : Entry) : bool :=
  match phase e with Starting _ => true | _ => false end.

(** [Entry::fail] *)
Definition fail (now : instant) (e : Entry) : Entry :=
  let e := e <| failures := sat_add u32_max (failures e) 1 |> in
  e <| phase :=
      if MAX_FAILURES <=? failures e then Suppressed
      else Cooldown (now + if failures e =? 1 then FIRST_COOLDOWN else SECOND_COOLDOWN) |>.

Record HelperCoordinator := {
  desktop : option (Z * bool);
  desktop_generation : Z;
  next_attempt : Z;
  entries : gmap HelperKey Entry;
  enabled : bool;
  process_retry_at : option instant;
}.
#[export] Instance eta_HelperCoordinator : Eta HelperCoordinator := fun r =>
  Build_HelperCoordinator (desktop r) (desktop_generation r) (next_attempt r) (entries r)
    (enabled r) (process_retry_at r).

Definition default_coordinator : HelperCoordinator :=
  {| desktop := None; desktop_generation := 0; next_attempt := 0; entries := ∅;
     enabled := true; process_retry_at := None |}.

Definition reset (en : bool) (c : HelperCoordinator) : HelperCoordinator :=
  c <| desktop_generation ::= fun g => sat_add u64_max g 1 |>
    <| entries := ∅ |> <| process_retry_at := None |> <| enabled := en |>.

Definition observe_desktop (session : Z) (secure : bool) (c : HelperCoordinator)
    : Z * HelperCoordinator :=
  let c :=
    if bool_decide (desktop c = Some (session, secure)) then c
    else reset (enabled c) (c <| desktop := Some (session, secure) |>) in
  (desktop_generation c, c).

Definition expire_entry (now : instant) (e : Entry) : Entry :=
  match phase e with
  | Starting start => if ABANDONED_TIMEOUT <=? since now start then fail now e else e
  | _ => e
  end.

Definition expire (now : instant) (c : HelperCoordinator) : HelperCoordinator :=
  c <| entries ::= fmap (expire_entry now) |>.

Definition starting_count (m : gmap HelperKey Entry) : Z :=
  count_if (fun kv => is_starting kv.2) (map_to_list m).

(** The gates [begin], [retry_due] and [protects_refresh] share. *)
Definition busy (c : HelperCoordinator) : bool := MAX_STARTING <=? starting_count (entries c).
Definition process_blocked (now : instant) (c : HelperCoordinator) : bool :=
  is_some_and (process_retry_at c) (fun at_ => now <? at_).

Definition may_begin (now : instant) (p : Phase) : bool :=
  match p with
  | Ready | Queued => true
  | Cooldown at_ => at_ <=? now
  | _ => false
  end.

Definition begin (k : HelperKey) (now : instant) (c : HelperCoordinator)
    : option AttemptToken * HelperCoordinator :=
  if negb (enabled c) || negb (k_desktop_generation k =? desktop_generation c)
     || (next_attempt c =? u64_max)
  then (None, c)
  else
    let c := expire now c in
    if is_none (entries c !! k) && (MAX_KEYS <=? Z.of_nat (size (entries c))) then (None, c)
    else
      let b := busy c in
      let pb := process_blocked now c in
      let e := unwrap_or (entries c !! k) default_entry in
      if negb (may_begin now (phase e)) then (None, c <| entries ::= <[k := e]> |>)
      else if b || pb then (None, c <| entries ::= <[k := e <| phase := Queued |>]> |>)
      else
        let a := next_attempt c + 1 in
        (Some {| key := k; generation := a |},
         c <| next_attempt := a |>
           <| entries ::= <[k := e <| attempt := a |> <| phase := Starting now |>]> |>).

Definition owned_entry (t : AttemptToken) (c : HelperCoordinator) : option Entry :=
  match entries c !! key t with
  | Some e => if attempt e =? generation t then Some e else None
  | None => None
  end.

Definition set_entry (t : AttemptToken) (e : Entry) (c : HelperCoordinator)
    : HelperCoordinator := c <| entries ::= <[key t := e]> |>.

Definition success (t : AttemptToken) (c : HelperCoordinator) : bool * HelperCoordinator :=
  match owned_entry t c with
  | None => (false, c)
  | Some e =>
      if is_starting e then
        (true, set_entry t (e <| phase := Running |> <| failures := 0 |>) c)
      else (false, c)
  end.

Definition live (e : Entry) : bool :=
  match phase e with Starting _ | Running => true | _ => false end.

Definition failure (t : AttemptToken) (now : instant) (process_launch : bool)
    (c : HelperCoordinator) : bool * HelperCoordinator :=
  match owned_entry t c with
  | None => (false, c)
  | Some e =>
      if live e then
        let c := set_entry t (fail now e) c in
        (true, if process_launch then c <| process_retry_at := Some (now + FIRST_COOLDOWN) |>
               else c)
      else (false, c)
  end.

Definition cancel (t : AttemptToken) (c : HelperCoordinator) : bool * HelperCoordinator :=
  match owned_entry t c with
  | None => (false, c)
  | Some e => if live e then (true, set_entry t (e <| phase := Ready |>) c) else (false, c)
  end.

Definition retry_due (k : HelperKey) (now : instant) (c : HelperCoordinator)
    : bool * HelperCoordinator :=
  let c := expire now c in
  if negb (enabled c) || negb (k_desktop_generation k =? desktop_generation c)
     || process_blocked now c || busy c
  then (false, c)
  else
    (is_some_and (entries c !! k) (fun e =>
       match phase e with Queued => true | Cooldown at_ => at_ <=? now | _ => false end), c).

Definition state (k : HelperKey) (c : HelperCoordinator) : string :=
  if negb (enabled c) then "manual"
  else if negb (k_desktop_generation k =? desktop_generation c) then "retired-desktop"
  else match phase <$> entries c !! k with
       | None | Some Ready => "ready"
       | Some Queued => "queued"
       | Some (Starting _) => "starting"
       | Some Running => "running"
       | Some (Cooldown _) => "cooldown"
       | Some Suppressed => "suppressed"
       end.

Definition protects_refresh (display : Z) (now : instant) (c : HelperCoordinator)
    : bool * HelperCoordinator :=
  let c := expire now c in
  let b := busy c in
  let pb := process_blocked now c in
  (existsb (fun kv => (k_display kv.1 =? display) &&
     match phase kv.2 with
     | Starting _ => true
     | Cooldown at_ => now <? at_
     | Queued => b || pb
     | _ => false
     end) (map_to_list (entries c)), c).

(** ** The lease *)

Record HelperAttemptLease := {
  token : AttemptToken;
  first_frame : bool;
  started_at : instant;
}.
#[export] Instance eta_HelperAttemptLease : Eta HelperAttemptLease := fun r =>
  Build_HelperAttemptLease (token r) (first_frame r) (started_at r).

Definition new_lease (t : AttemptToken) (now : instant) : HelperAttemptLease :=
  {| token := t; first_frame := false; started_at := now |}.

Definition lease_success (l : HelperAttemptLease) (owner : HelperCoordinator)
    : bool * HelperAttemptLease * HelperCoordinator :=
  let running owner :=
    is_some_and (owned_entry (token l) owner) (fun e => bool_decide (phase e = Running)) in
  if negb (first_frame l) then
    let '(ok, owner) := success (token l) owner in
    if negb ok then (false, l, owner) else (running owner, l <| first_frame := true |>, owner)
  else (running owner, l, owner).

Definition startup_timed_out (now : instant) (l : HelperAttemptLease) : bool :=
  negb (first_frame l) && (STARTUP_TIMEOUT <=? since now (started_at l)).

Definition lease_failure (process_launch : bool) (now : instant) (l : HelperAttemptLease)
    (owner : HelperCoordinator) : HelperCoordinator :=
  (failure (token l) now process_launch owner).2.

Definition drop_lease (l : HelperAttemptLease) (owner : HelperCoordinator)
    : HelperCoordinator := (cancel (token l) owner).2.

(** ** Calls *)

Inductive Call :=
  | ObserveDesktop (session : Z) (secure : bool)
  | Reset (en : bool)
  | Begin (k : HelperKey) (now : instant)
  | Success (t : AttemptToken)
  | Failure (t : AttemptToken) (now : instant) (process_launch : bool)
  | Cancel (t : AttemptToken)
  | RetryDue (k : HelperKey) (now : instant)
  | ProtectsRefresh (display : Z) (now : instant).

Definition exec (e : Call) (c : HelperCoordinator)
    : option AttemptToken * HelperCoordinator :=
  match e with
  | ObserveDesktop s b => (None, (observe_desktop s b c).2)
  | Reset en => (None, reset en c)
  | Begin k now => begin k now c
  | Success t => (None, (success t c).2)
  | Failure t now p => (None, (failure t now p c).2)
  | Cancel t => (None, (cancel t c).2)
  | RetryDue k now => (None, (retry_due k now c).2)
  | ProtectsRefresh d now => (None, (protects_refresh d now c).2)
  end.

(** ** How a call moves the table

    Every call clears the table, or expires abandoned starts, or leaves it, and
    then updates at most one entry in one of the ways of [touch]. *)

Definition entry_or_default (o : option Entry) : Entry := unwrap_or o default_entry.

Inductive touch (n : Z) (k : HelperKey) : Call -> option Entry -> Entry -> Prop :=
  | touch_queue now o :
      may_begin now (phase (entry_or_default o)) = true ->
      touch n k (Begin k now) o (entry_or_default o <| phase := Queued |>)
  | touch_start now o :
      may_begin now (phase (entry_or_default o)) = true ->
      touch n k (Begin k now) o
        (entry_or_default o <| attempt := n + 1 |> <| phase := Starting now |>)
  | touch_run t e :
      key t = k -> attempt e = generation t -> is_starting e = true ->
      touch n k (Success t) (Some e) (e <| phase := Running |> <| failures := 0 |>)
  | touch_fail t now p e :
      key t = k -> attempt e = generation t -> live e = true ->
      touch n k (Failure t now p) (Some e) (fail now e)
  | touch_cancel t e :
      key t = k -> attempt e = generation t -> live e = true ->
      touch n k (Cancel t) (Some e) (e <| phase := Ready |>).

(** Calls that expire abandoned starts, with the instant they do it at. *)
Definition expires (e : Call) : option instant :=
  match e with
  | Begin _ now | RetryDue _ now | ProtectsRefresh _ now => Some now
  | _ => None
  end.

Definition cleared (e : Call) : bool :=
  match e with ObserveDesktop _ _ | Reset _ => true | _ => false end.

Inductive shape (e : Call) (c : HelperCoordinator) : option AttemptToken -> HelperCoordinator -> Prop :=
  | shape_same : shape e c None c
  | shape_clear d en :
      cleared e = true ->
      shape e c None (reset en (c <| desktop := d |>))
  | shape_expire now : expires e = Some now -> shape e c None (expire now c)
  | shape_queue k now v :
      let c1 := expire now c in
      expires e = Some now -> touch (next_attempt c) k e (entries c1 !! k) v ->
      (entries c1 !! k = None -> Z.of_nat (size (entries c1)) < MAX_KEYS) ->
      is_starting v = false ->
      shape e c None (c1 <| entries ::= <[k := v]> |>)
  | shape_start k now v :
      let c1 := expire now c in
      e = Begin k now -> touch (next_attempt c) k e (entries c1 !! k) v ->
      v = entry_or_default (entries c1 !! k) <| attempt := next_attempt c + 1 |>
            <| phase := Starting now |> ->
      (entries c1 !! k = None -> Z.of_nat (size (entries c1)) < MAX_KEYS) ->
      starting_count (entries c1) < MAX_STARTING -> next_attempt c <> u64_max ->
      process_blocked now c = false ->
      shape e c (Some {| key := k; generation := next_attempt c + 1 |})
        (c1 <| next_attempt := next_attempt c + 1 |> <| entries ::= <[k := v]> |>)
  | shape_settle k old v r :
      expires e = None -> entries c !! k = Some old ->
      touch (next_attempt c) k e (Some old) v -> is_starting v = false ->
      (r = process_retry_at c \/ exists t now, e = Failure t now true /\
                                 r = Some (now + FIRST_COOLDOWN)) ->
      shape e c None (c <| entries ::= <[k := v]> |> <| process_retry_at := r |>).

Lemma fail_not_live now e : live (fail now e) = false.
Proof. unfold fail, live; simpl; by destruct (_ <=? _). Qed.
Lemma fail_not_starting now e : is_starting (fail now e) = false.
Proof. unfold fail, is_starting; simpl; by destruct (_ <=? _). Qed.

Lemma coordinator_eta c : c <| process_retry_at := process_retry_at c |> = c.
Proof. by destruct c. Qed.

Lemma owned_entry_some t c e :
  owned_entry t c = Some e -> entries c !! key t = Some e /\ attempt e = generation t.
Proof.
  unfold owned_entry; destruct (entries c !! key t) as [e'|]; [|done].
  destruct (Z.eqb_spec (attempt e') (generation t)); naive_solver.
Qed.

Lemma insert_same k e c : entries c !! k = Some e -> c <| entries ::= <[k := e]> |> = c.
Proof. destruct c; simpl; intros; f_equal; by apply insert_id. Qed.

Lemma begin_shape k now c : shape (Begin k now) c (begin k now c).1 (begin k now c).2.
Proof.
  unfold begin. destruct (_ || _) eqn:Eg; [constructor|]. apply orb_false_iff in Eg as [_ Eg].
  apply Z.eqb_neq in Eg. set (c1 := expire now c).
  destruct (is_none (entries c1 !! k) && _) eqn:Ek; [by apply shape_expire|].
  assert (Hk : entries c1 !! k = None -> Z.of_nat (size (entries c1)) < MAX_KEYS).
  { intros Hn; rewrite Hn in Ek; simpl in Ek; by apply Z.leb_gt in Ek. }
  fold (entry_or_default (entries c1 !! k)).
  destruct (may_begin now _) eqn:Em; cbn [negb].
  2: { destruct (entries c1 !! k) as [e|] eqn:El; [|done]. cbn [entry_or_default unwrap_or].
       rewrite insert_same by done; by apply shape_expire. }
  destruct (busy c1) eqn:Eb; [|destruct (process_blocked now c1) eqn:Ep]; cbn [orb].
  - eapply shape_queue; [done|by apply touch_queue|done|done].
  - eapply shape_queue; [done|by apply touch_queue|done|done].
  - refine (shape_start (Begin k now) c k now _ _ _ _ _ _ _ _); [done|by apply touch_start|done|done| |done|done].
    unfold busy in Eb; apply Z.leb_gt in Eb; done.
Qed.

Lemma exec_shape e c : shape e c (exec e c).1 (exec e c).2.
Proof.
  destruct e as [s b|en|k now|t|t now p|t|k now|d now]; simpl.
  - unfold observe_desktop; case_bool_decide; simpl; [constructor|by apply shape_clear].
  - replace (reset en c) with (reset en (c <| desktop := desktop c |>)) by (by destruct c).
    by apply shape_clear.
  - apply begin_shape.
  - unfold success; destruct (owned_entry t c) as [e|] eqn:Eo; [|constructor].
    destruct (is_starting e) eqn:Es; [|constructor]; simpl; unfold set_entry.
    apply owned_entry_some in Eo as [? ?]. rewrite <- (coordinator_eta (set_field _ _ _)).
    eapply shape_settle; [done|done|by apply touch_run|done|by left].
  - unfold failure; destruct (owned_entry t c) as [e|] eqn:Eo; [|constructor].
    destruct (live e) eqn:Es; [|constructor]; simpl; unfold set_entry.
    apply owned_entry_some in Eo as [? ?].
    destruct p; [|rewrite <- (coordinator_eta (set_field _ _ _))];
      (eapply shape_settle; [done|done|by apply touch_fail|apply fail_not_starting|]); eauto.
  - unfold cancel; destruct (owned_entry t c) as [e|] eqn:Eo; [|constructor].
    destruct (live e) eqn:Es; [|constructor]; simpl; unfold set_entry.
    apply owned_entry_some in Eo as [? ?]. rewrite <- (coordinator_eta (set_field _ _ _)).
    eapply shape_settle; [done|done|by apply touch_cancel|done|by left].
  - unfold retry_due; destruct (_ || _); by apply shape_expire.
  - by apply shape_expire.
Qed.

(** ** Counting starts *)

Lemma starting_count_insert k e m :
  starting_count (<[k := e]> m) = starting_count (delete k m) + Z.b2z (is_starting e).
Proof.
  unfold starting_count. rewrite <- insert_delete_eq.
  rewrite (count_if_perm _ _ _ (map_to_list_insert (delete k m) k e (lookup_delete_eq m k))).
  simpl; lia.
Qed.

Lemma starting_count_delete k m : starting_count (delete k m) <= starting_count m.
Proof.
  destruct (m !! k) as [e|] eqn:E; [|by rewrite delete_id].
  rewrite <- (insert_id m k e E) at 2. rewrite starting_count_insert.
  destruct (is_starting e); simpl; lia.
Qed.

Lemma expire_entry_starting now e : is_starting (expire_entry now e) = true -> is_starting e = true.
Proof.
  unfold expire_entry, is_starting; destruct (phase e) eqn:E; by rewrite ?E.
Qed.

Lemma starting_count_expire now m :
  starting_count (expire_entry now <$> m) <= starting_count m.
Proof.
  unfold starting_count. rewrite map_to_list_fmap.
  apply count_if_fmap_le; intros [k e]; apply expire_entry_starting.
Qed.

(** ** Invariant *)

Definition entry_ok (n : Z) (e : Entry) : Prop :=
  0 <= attempt e <= n /\ 0 <= failures e <= MAX_FAILURES /\
  (failures e = MAX_FAILURES <-> phase e = Suppressed).

Record inv (c : HelperCoordinator) : Prop := {
  inv_keys : Z.of_nat (size (entries c)) <= MAX_KEYS;
  inv_starting : starting_count (entries c) <= MAX_STARTING;
  inv_attempt : 0 <= next_attempt c <= u64_max;
  inv_entries : map_Forall (fun _ e => entry_ok (next_attempt c) e) (entries c);
}.

Lemma fail_ok n now e : live e = true -> entry_ok n e -> entry_ok n (fail now e).
Proof.
  unfold live; intros Hl (Ha & Hf & Hs). assert (phase e <> Suppressed) by (by intros E; rewrite E in Hl).
  assert (failures e <> MAX_FAILURES) by tauto.
  unfold entry_ok, fail, MAX_FAILURES, sat_add, u32_max in *; simpl.
  destruct (Z.leb_spec 3 (Z.min (failures e + 1) 4294967295)); simpl;
    (split; [done|]); (split; [lia|]); (split; [|]); try done; lia.
Qed.

Lemma expire_ok n now e : entry_ok n e -> entry_ok n (expire_entry now e).
Proof.
  intros He; unfold expire_entry; destruct (phase e) eqn:E; try done.
  destruct (_ <=? _); [|done]. apply fail_ok; [unfold live; by rewrite E|done].
Qed.

Lemma entry_ok_le n n' e : n <= n' -> entry_ok n e -> entry_ok n' e.
Proof. unfold entry_ok; intros ? ([] & ? & ?); split_and!; (done || lia). Qed.

Lemma may_begin_not_suppressed now p : may_begin now p = true -> p <> Suppressed.
Proof. by intros H ->. Qed.

Lemma touch_ok n k e o v :
  0 <= n -> touch n k e o v -> (forall x, o = Some x -> entry_ok n x) -> entry_ok (n + 1) v.
Proof.
  intros Hn Ht Ho. assert (Hd : entry_ok n (entry_or_default o)).
  { destruct o; simpl; [by apply Ho|]. unfold entry_ok, MAX_FAILURES; simpl; split_and!; (done || lia). }
  destruct Ht as [now o Hm|now o Hm|t x _ _ Hs|t now p x _ _ Hl|t x _ _ Hl];
    try specialize (Ho _ eq_refl).
  1,2: apply may_begin_not_suppressed in Hm; destruct Hd as ([] & Hf & Hs);
    assert (failures (entry_or_default o) <> MAX_FAILURES) by tauto;
    unfold entry_ok; simpl; (split; [lia|]); (split; [done|]); by split.
  - destruct Ho as ([] & _ & _); unfold entry_ok, MAX_FAILURES; simpl; split_and!; (done || lia).
  - apply (entry_ok_le n); [lia|by apply fail_ok].
  - unfold live in Hl; destruct Ho as ([] & Hf & Hs).
    assert (phase x <> Suppressed) by (by intros E; rewrite E in Hl).
    unfold entry_ok; simpl; (split; [lia|]); (split; [done|]); by split; [tauto|].
Qed.

Lemma touch_ok_settle n k e o v :
  0 <= n -> touch n k e o v -> is_starting v = false ->
  (forall x, o = Some x -> entry_ok n x) -> entry_ok n v.
Proof.
  intros Hn Ht Hs Ho; assert (H := touch_ok n k e o v Hn Ht Ho).
  destruct H as (_ & Hf); split; [|done].
  destruct Ht as [now o Hm|now o Hm|t x _ _ _|t now p x _ _ Hl|t x _ _ Hl]; simpl in *; try done;
    try (by destruct (Ho _ eq_refl)).
  destruct o as [x|]; simpl; [by destruct (Ho _ eq_refl)|lia].
Qed.

Lemma size_insert_le k v (m : gmap HelperKey Entry) :
  (m !! k = None -> Z.of_nat (size m) < MAX_KEYS) -> Z.of_nat (size m) <= MAX_KEYS ->
  Z.of_nat (size (<[k := v]> m)) <= MAX_KEYS.
Proof.
  intros Hn Hs; destruct (m !! k) as [e|] eqn:E.
  - rewrite map_size_insert_Some by eauto; done.
  - rewrite map_size_insert_None by done; specialize (Hn eq_refl); lia.
Qed.

Lemma expire_inv now c : inv c -> inv (expire now c).
Proof.
  intros [H1 H2 H3 H4]; split; simpl; [by rewrite map_size_fmap| |done|].
  - pose proof (starting_count_expire now (entries c)); lia.
  - intros k e; rewrite lookup_fmap; destruct (entries c !! k) as [e'|] eqn:E; [|done].
    simpl; intros [= <-]; apply expire_ok, (H4 k e' E).
Qed.

Lemma coordinator_exec_inv e c : inv c -> inv (exec e c).2.
Proof.
  intros Hi; destruct (exec_shape e c) as [|d en _|now _|k now v c1 _ Ht Hk Hs
    |k now v c1 _ Ht Hv Hk Hb Hn _|k old v r _ Ho Ht Hs _]; try done.
  - destruct Hi; split; simpl; unfold MAX_KEYS, MAX_STARTING in *; rewrite ?map_size_empty; (done || lia).
  - by apply expire_inv.
  - apply (expire_inv now) in Hi; fold c1 in Hi; destruct Hi as [H1 H2 H3 H4]; split; simpl.
    + by apply size_insert_le.
    + rewrite starting_count_insert, Hs. pose proof (starting_count_delete k (entries c1)).
      simpl in *; lia.
    + done.
    + apply map_Forall_insert_2; [|done]. eapply touch_ok_settle; [|exact Ht|done|]; [apply H3|].
      intros x Hx; by apply (H4 k).
  - apply (expire_inv now) in Hi; fold c1 in Hi; destruct Hi as [H1 H2 H3 H4]; split; simpl.
    + by apply size_insert_le.
    + rewrite starting_count_insert. pose proof (starting_count_delete k (entries c1)).
      unfold MAX_STARTING in *; destruct (is_starting v); simpl in *; lia.
    + simpl in H3; lia.
    + apply map_Forall_insert_2.
      * eapply touch_ok; [|exact Ht|]; [apply H3|]. intros x Hx; by apply (H4 k).
      * intros k' x Hx; apply (entry_ok_le (next_attempt c)); [lia|by apply (H4 k')].
  - destruct Hi as [H1 H2 H3 H4]; split; simpl.
    + apply size_insert_le; [by rewrite Ho|done].
    + rewrite starting_count_insert, Hs. pose proof (starting_count_delete k (entries c)).
      simpl in *; lia.
    + done.
    + apply map_Forall_insert_2; [|done]. eapply touch_ok_settle; [|exact Ht|done|]; [apply H3|].
      intros x [= <-]; by apply (H4 k).
Qed.

Lemma execs_inv es c : inv c -> inv (execs exec es c).2.
Proof.
  intros Hi; apply (execs_invariant exec inv (fun _ => True) (fun _ _ => True)); [|by apply Forall_true|done].
  intros; split; [done|by apply coordinator_exec_inv].
Qed.

Lemma default_inv : inv default_coordinator.
Proof. split; unfold MAX_KEYS, MAX_STARTING, u64_max; simpl; rewrite ?map_size_empty; (done || lia). Qed.

(** ** Tokens *)

Definition tokens (es : list Call) (c : HelperCoordinator) : list AttemptToken :=
  omap id (execs exec es c).1.

Lemma tokens_cons e es c :
  tokens (e :: es) c =
  match (exec e c).1 with
  | Some t => t :: tokens es (exec e c).2
  | None => tokens es (exec e c).2
  end.
Proof. unfold tokens; rewrite execs_cons; simpl; by destruct (exec e c) as [[]]. Qed.

Lemma exec_next e c :
  next_attempt c <= next_attempt (exec e c).2 /\
  forall t, (exec e c).1 = Some t -> generation t = next_attempt c + 1 /\
            next_attempt (exec e c).2 = next_attempt c + 1.
Proof. destruct (exec_shape e c); simpl; (split; [lia|naive_solver]). Qed.

Lemma tokens_increasing es c :
  Forall (fun t => next_attempt c < generation t) (tokens es c) /\
  StronglySorted (fun t t' => generation t < generation t') (tokens es c).
Proof.
  revert c; induction es as [|e es IH]; intros c; [by split; constructor|].
  rewrite tokens_cons; destruct (exec_next e c) as [Hn Ht]; destruct (IH (exec e c).2) as [IH1 IH2].
  destruct (exec e c).1 as [t|].
  - destruct (Ht t eq_refl) as [Hg Hg']; split.
    + constructor; [lia|]. eapply Forall_impl; [exact IH1|simpl; lia].
    + constructor; [done|]. eapply Forall_impl; [exact IH1|simpl; lia].
  - split; [|done]; eapply Forall_impl; [exact IH1|simpl; lia].
Qed.

(** Bounded helper startup: whatever calls are made, at most two helpers are
    starting at a time, at most 64 keys are tracked, every entry has failed at
    most three times (three times exactly when it is suppressed), and the tokens
    handed out carry strictly increasing attempt numbers. *)
Theorem helper_startup_bounded es :
  let c := (execs exec es default_coordinator).2 in
  starting_count (entries c) <= 2 /\ Z.of_nat (size (entries c)) <= 64 /\
  map_Forall (fun _ e => 0 <= failures e <= 3 /\ (failures e = 3 <-> phase e = Suppressed))
    (entries c) /\
  StronglySorted (fun t t' => generation t < generation t') (tokens es default_coordinator).
Proof.
  intros c; destruct (execs_inv es _ default_inv) as [H1 H2 _ H4].
  split_and!; [done|done| |apply tokens_increasing].
  eapply map_Forall_impl; [exact H4|]. by intros k e (_ & H).
Qed.

(** An attempt that is over: its token owns no entry and can never own one again. *)
Definition revoked (t : AttemptToken) (c : HelperCoordinator) : Prop :=
  1 <= generation t <= next_attempt c /\ owned_entry t c = None.

Lemma expire_entry_attempt now e : attempt (expire_entry now e) = attempt e.
Proof. unfold expire_entry; destruct (phase e); try done. by destruct (_ <=? _). Qed.

Lemma owned_entry_none t c :
  owned_entry t c = None <-> forall e, entries c !! key t = Some e -> attempt e <> generation t.
Proof.
  unfold owned_entry; destruct (entries c !! key t) as [e|]; [|naive_solver].
  destruct (Z.eqb_spec (attempt e) (generation t)); naive_solver.
Qed.

Lemma expire_owned t now c : owned_entry t c = None -> owned_entry t (expire now c) = None.
Proof.
  rewrite !owned_entry_none; simpl; intros H e; rewrite lookup_fmap.
  destruct (entries c !! key t) as [e'|]; [|done]; simpl; intros [= <-].
  rewrite expire_entry_attempt; by apply H.
Qed.

Lemma touch_attempt n k e o v :
  touch n k e o v ->
  attempt v = n + 1 \/ attempt v = attempt (entry_or_default o).
Proof. destruct 1; simpl; auto. Qed.

Lemma insert_owned t k v o n e c c' :
  1 <= generation t <= n -> owned_entry t c = None ->
  entries c' = <[k := v]> (entries c) -> touch n k e o v -> entries c !! k = o ->
  owned_entry t c' = None.
Proof.
  intros Hg H Hc Ht Ho; rewrite owned_entry_none in *; rewrite Hc; intros e'.
  destruct (decide (k = key t)) as [->|Hne]; [rewrite lookup_insert_eq|by rewrite lookup_insert_ne; [apply H|]].
  intros [= <-]; destruct (touch_attempt _ _ _ _ _ Ht) as [-> | ->]; [lia|].
  destruct o as [x|]; simpl; [by apply H|lia].
Qed.

Lemma revoked_step t e c : revoked t c -> revoked t (exec e c).2.
Proof.
  intros [Hg Ho]; destruct (exec_next e c) as [Hn _]; split; [lia|].
  destruct (exec_shape e c) as [|d en _|now _|k now v c1 _ Ht Hk Hs
    |k now v c1 _ Ht Hv Hk Hb Hnx _|k old v r _ Hold Ht Hs _]; try done.
  - by apply expire_owned.
  - eapply insert_owned; [exact Hg|apply (expire_owned t now), Ho|done|exact Ht|done].
  - eapply insert_owned; [exact Hg|apply (expire_owned t now), Ho|done|exact Ht|done].
  - eapply insert_owned; [exact Hg|exact Ho|done|exact Ht|done].
Qed.

Lemma revoked_steps t es c : revoked t c -> revoked t (execs exec es c).2.
Proof.
  revert c; induction es as [|e es IH]; intros c H; [done|].
  rewrite execs_cons; simpl; by apply IH, revoked_step.
Qed.

Lemma revoked_inert l now p c :
  revoked (token l) c ->
  (lease_success l c) = (false, l, c) /\ lease_failure p now l c = c /\ drop_lease l c = c.
Proof.
  intros [_ Ho]; unfold lease_success, lease_failure, drop_lease, success, failure, cancel.
  rewrite !Ho; simpl; by destruct (first_frame l).
Qed.

(** A settled lease is inert: once the attempt of a token has been superseded
    by a newer attempt for its key, or the table has been reset for another
    desktop, nothing the old lease does (report a frame, a failure, or being
    dropped) changes the coordinator, however many calls lie between. *)
Theorem stale_lease_inert es1 k now tok es2 e es3 l p now' :
  let c1 := (execs exec es1 default_coordinator).2 in
  (begin k now c1).1 = Some tok ->
  let c2 := (execs exec es2 (begin k now c1).2).2 in
  (exists tok', (exec e c2).1 = Some tok' /\ key tok' = key tok) \/ (exists en, e = Reset en) ->
  token l = tok ->
  let c3 := (execs exec es3 (exec e c2).2).2 in
  lease_success l c3 = (false, l, c3) /\ lease_failure p now' l c3 = c3 /\ drop_lease l c3 = c3.
Proof.
  intros c1 Hb c2 Hsup <- c3; apply revoked_inert, revoked_steps.
  destruct (execs_inv es1 _ default_inv) as [_ _ Hpos _]; fold c1 in Hpos.
  destruct (exec_next (Begin k now) c1) as [_ Hn]; simpl in Hn; destruct (Hn _ Hb) as [Hg Hg'].
  assert (Hle : forall es c, next_attempt c <= next_attempt (execs exec es c).2).
  { intros es; induction es as [|x es IH]; intros c; [simpl; lia|]. rewrite execs_cons; simpl.
    specialize (IH (exec x c).2); destruct (exec_next x c); lia. }
  specialize (Hle es2 (begin k now c1).2); fold c2 in Hle.
  destruct (exec_next e c2) as [He _]. split; [lia|].
  destruct Hsup as [(tok' & Ht & Hk)|[en ->]]; [|done].
  apply owned_entry_none; intros x. revert Ht.
  destruct (exec_shape e c2) as [| | | |k' now2 v c4 _ Ht Hv _ _ _ _|]; try done.
  intros [= <-]; simpl in *; rewrite <- Hk, lookup_insert_eq; intros [= <-].
  rewrite Hv; simpl; lia.
Qed.

Lemma stale_lease_inert_witness :
  let k := {| k_desktop_generation := 1; k_display := 0; k_backend := 7 |} in
  let c1 := (execs exec [ObserveDesktop 1 false] default_coordinator).2 in
  let t1 := {| key := k; generation := 1 |} in
  let c2 := (execs exec [Cancel t1] (begin k 0 c1).2).2 in
  let c3 := (execs exec [] (exec (Begin k 1) c2).2).2 in
  drop_lease (new_lease t1 0) c3 = c3.
Proof.
  intros k c1 t1 c2 c3.
  apply (stale_lease_inert [ObserveDesktop 1 false] k 0 t1 [Cancel t1] (Begin k 1) []
           (new_lease t1 0) false 0); [by vm_compute| |done].
  left; exists {| key := k; generation := 2 |}; split; by vm_compute.
Defined.

(** ** Retry budget *)

(** Launches an entry has left before it is suppressed. *)
Definition left (e : Entry) : Z := MAX_FAILURES - failures e - Z.b2z (live e).
Definition left_of (k : HelperKey) (c : HelperCoordinator) : Z :=
  left (entry_or_default (entries c !! k)).

(** Calls after which a helper may start over. *)
Definition forgives (k : HelperKey) (e : Call) : bool :=
  match e with
  | ObserveDesktop _ _ | Reset _ => true
  | Success t | Cancel t => bool_decide (key t = k)
  | _ => false
  end.

Definition launched (k : HelperKey) (t : AttemptToken) : bool := bool_decide (key t = k).

Lemma expire_lookup now c k :
  entries (expire now c) !! k = expire_entry now <$> entries c !! k.
Proof. apply lookup_fmap. Qed.

Lemma fail_left now e :
  live e = true -> 0 <= failures e <= MAX_FAILURES -> left (fail now e) = left e.
Proof.
  intros Hl Hf; unfold left; rewrite fail_not_live, Hl.
  unfold fail, sat_add, u32_max, MAX_FAILURES in *; simpl; lia.
Qed.

Lemma expire_left now n e : entry_ok n e -> left (expire_entry now e) = left e.
Proof.
  intros (_ & Hf & _); unfold expire_entry; destruct (phase e) eqn:E; try done.
  destruct (_ <=? _); [|done]. apply fail_left; [unfold live; by rewrite E|done].
Qed.

Lemma expire_left_of now k c : inv c -> left_of k (expire now c) = left_of k c.
Proof.
  intros Hi; unfold left_of; rewrite expire_lookup.
  destruct (entries c !! k) as [e|] eqn:E; [|done]; simpl.
  eapply expire_left, (inv_entries c Hi k e E).
Qed.

Lemma left_nonneg k c : inv c -> 0 <= left_of k c.
Proof.
  intros Hi; unfold left_of, left, MAX_FAILURES, live.
  destruct (entries c !! k) as [e|] eqn:E; simpl; [|lia].
  destruct (inv_entries c Hi k e E) as (_ & Hf & Hs); unfold MAX_FAILURES in *.
  destruct (phase e) eqn:Ep; simpl; try lia.
  all: assert (failures e <> 3) by (intros H; apply Hs in H; congruence); lia.
Qed.

Lemma may_begin_not_live now e : may_begin now (phase e) = true -> live e = false.
Proof. unfold live; by destruct (phase e). Qed.

Lemma touch_left n k e o v k' c :
  inv c -> entries c !! k = o -> touch n k e o v -> forgives k e = false ->
  left_of k' (c <| entries ::= <[k := v]> |>) =
  left_of k' c - Z.b2z (bool_decide (k = k') && is_starting v).
Proof.
  intros Hi Ho Ht Hf; unfold left_of; simpl.
  case_bool_decide as Hk; simpl; [subst k'; rewrite lookup_insert_eq|by rewrite lookup_insert_ne, Z.sub_0_r].
  rewrite Ho; simpl; destruct Ht as [now o Hm|now o Hm|t x Hx _ Hs|t now p x Hx _ Hl|t x Hx _ Hl];
    simpl in Hf.
  - apply may_begin_not_live in Hm; unfold left, is_starting; rewrite Hm; simpl; lia.
  - apply may_begin_not_live in Hm; unfold left, is_starting; rewrite Hm; simpl; lia.
  - by rewrite bool_decide_true in Hf.
  - rewrite fail_not_starting; simpl. destruct (inv_entries c Hi k x Ho) as (_ & ? & _).
    rewrite fail_left by done; lia.
  - by rewrite bool_decide_true in Hf.
Qed.

Lemma not_cleared k e : forgives k e = false -> cleared e = true -> False.
Proof. by destruct e. Qed.

Lemma touch_key n k e o v k' :
  touch n k e o v -> forgives k' e = false -> forgives k e = false \/ k <> k'.
Proof.
  intros Ht Hf; destruct (decide (k = k')) as [->|]; auto.
Qed.

Lemma left_other k v k' c : k <> k' -> left_of k' (c <| entries ::= <[k := v]> |>) = left_of k' c.
Proof. intros; unfold left_of; simpl; by rewrite lookup_insert_ne. Qed.

Lemma exec_left k e c :
  inv c -> forgives k e = false ->
  left_of k (exec e c).2 + Z.b2z (is_some_and (exec e c).1 (launched k)) = left_of k c.
Proof.
  intros Hi Hf. destruct (exec_shape e c) as [|d en Hc|now _|k' now v c1 _ Ht _ Hs
    |k' now v c1 He Ht Hv _ _ _ _|k' old v r _ Ho Ht Hs _]; simpl.
  - lia.
  - exfalso; by eapply not_cleared.
  - rewrite expire_left_of by done; lia.
  - apply (expire_inv now) in Hi as Hi'; fold c1 in Hi'.
    assert (left_of k (c1 <| entries ::= <[k' := v]> |>) = left_of k c1) as Hl.
    { destruct (touch_key _ _ _ _ _ _ Ht Hf) as [Hf'|]; [|by apply left_other].
      rewrite (touch_left _ k' e _ v k c1 Hi' eq_refl Ht Hf'), Hs, andb_false_r; simpl; lia. }
    unfold c1 in Hl; rewrite expire_left_of in Hl by done; unfold left_of in *; simpl in *; lia.
  - apply (expire_inv now) in Hi as Hi'; fold c1 in Hi'.
    assert (Hl := touch_left _ k' e _ v k c1 Hi' eq_refl Ht ltac:(by subst e)).
    unfold c1 in Hl; rewrite expire_left_of in Hl by done.
    replace (is_starting v) with true in Hl by (by rewrite Hv).
    rewrite andb_true_r in Hl; unfold launched, left_of in *; simpl in *; lia.
  - assert (left_of k (c <| entries ::= <[k' := v]> |>) = left_of k c) as Hl.
    { destruct (touch_key _ _ _ _ _ _ Ht Hf) as [Hf'|]; [|by apply left_other].
      rewrite (touch_left _ k' e _ v k c Hi Ho Ht Hf'), Hs, andb_false_r; simpl; lia. }
    unfold left_of in *; simpl in *; lia.
Qed.

(** Three strikes: from any state the coordinator can reach, and until the
    helper of a key shows a frame, is cancelled, or the desktop changes, at most
    three launches for that key are allowed. *)
Theorem launch_budget es0 es k :
  Forall (fun e => forgives k e = false) es ->
  let c := (execs exec es0 default_coordinator).2 in
  count_if (launched k) (tokens es c) <= 3.
Proof.
  intros Hf c. assert (Hi := execs_inv es0 _ default_inv); fold c in Hi; clearbody c.
  enough (count_if (launched k) (tokens es c) <= left_of k c).
  { assert (left_of k c <= 3); [|lia]. unfold left_of, left, MAX_FAILURES.
    destruct (entries c !! k) as [e|] eqn:E; simpl; [|lia].
    destruct (inv_entries c Hi k e E) as (_ & ? & _). destruct (live e); simpl; lia. }
  revert c Hi; induction Hf as [|e es He Hf IH]; intros c Hi.
  - by apply left_nonneg.
  - assert (Hl := exec_left k e c Hi He). specialize (IH _ (coordinator_exec_inv e c Hi)).
    rewrite tokens_cons; destruct (exec e c).1; simpl in *; lia.
Qed.

Lemma launch_budget_witness :
  let k := {| k_desktop_generation := 1; k_display := 0; k_backend := 7 |} in
  let c := (execs exec [ObserveDesktop 1 false] default_coordinator).2 in
  let es := [Begin k 0; Begin k (from_secs 20); Begin k (from_secs 30); Begin k (from_secs 90);
             Begin k (from_secs 99); Begin k (from_secs 200)] in
  count_if (launched k) (tokens es c) = 3 /\ count_if (launched k) (tokens es c) <= 3.
Proof.
  intros k c es; split; [by vm_compute|].
  apply (launch_budget [ObserveDesktop 1 false] es k); by repeat constructor.
Defined.
