(* ===== verification/VideoQueue.v ===== *)
(** * Encoded-video queue of a connection

    Models src/src/server/video_queue.rs: the queue between the encoders and the
    transport of one connection.  It holds video frames of up to 64 displays
    and ordering barriers (every other message), admits or drops frames per
    display, and serves the displays by deficit round robin.  A protobuf
    message is its size on the wire and the fields of a video frame the queue
    reads; [compute_size] is the generated code's and its result part of the
    message.  The state is behind one mutex, held for each operation. *)

From S2P Require Import Prelude.

Definition DISPLAYS : nat := 64.
Definition CONTROL_RESERVE : Z := 8.
Definition TRACK_FRAMES : Z := 4.
Definition TRACKS : Z := 16.
Definition CAPACITY : Z := TRACKS * TRACK_FRAMES + CONTROL_RESERVE.
Definition MAX_FRAME_BYTES : Z := 16 * 1024 * 1024.
Definition MAX_BYTES : Z := 64 * 1024 * 1024.
Definition QUANTUM : Z := 64 * 1024.
Definition REFRESH_INTERVAL : duration := from_secs 1.
Definition MAX_REFRESHES : Z := 5.
Definition STALE_DELTA : duration := from_secs 3.
(** [usize] of the 64-bit targets. *)
Definition usize_max : Z := u64_max.

(** ** Messages *)

Record EncodedVideoFrame := { data : list Byte.byte; f_key : bool }.

Inductive FrameUnion :=
  | Vp8s (frames : list EncodedVideoFrame)
  | Vp9s (frames : list EncodedVideoFrame)
  | Av1s (frames : list EncodedVideoFrame)
  | H264s (frames : list EncodedVideoFrame)
  | H265s (frames : list EncodedVideoFrame)
  | OtherFrame.

Record VideoFrame := {
  v_display : Z;
  stream_id : Z;
  frame_id : Z;
  v_union : option FrameUnion;
}.

Record Message := { size_ : N; video : option VideoFrame }.
(** [compute_size] *)
Definition compute_size (m : Message) : Z := Z.of_N (size_ m).

(** [Queued]: the instant the message was queued and the shared message. *)
Abbreviation Queued := (instant * Message)%type.

Definition leading (frames : list EncodedVideoFrame) : bool :=
  match frames with
  | [] => false
  | f :: _ => f_key f && match data f with [] => false | _ => true end
  end.

Definition leading_keyframe (f : VideoFrame) : bool :=
  match v_union f with
  | Some (Vp8s l | Vp9s l | Av1s l | H264s l | H265s l) => leading l
  | _ => false
  end.

(** ** State *)

Record Track := {
  stream : option Z;
  t_enabled : bool;
  recovering : bool;
  lost_through : Z;
  refreshes : Z;
  last_refresh : option instant;
  deficit : Z;
  loss_events : Z;
}.
#[export] Instance eta_Track : Eta Track := fun r =>
  Build_Track (stream r) (t_enabled r) (recovering r) (lost_through r) (refreshes r)
    (last_refresh r) (deficit r) (loss_events r).

Definition default_track : Track :=
  {| stream := None; t_enabled := false; recovering := false; lost_through := 0;
     refreshes := 0; last_refresh := None; deficit := 0; loss_events := 0 |}.

Record Entry := {
  item : Queued;
  display : option nat;
  e_bytes : Z;
  key : bool;
  frame : Z;
}.

(** [Drops]: the instant of the last frame dropped for each display. *)
Abbreviation Drops := (nat -> option instant).
(** The [[_; DISPLAYS]] arrays are functions of the index. *)
Definition array_set {A} (d : nat) (x : A) (f : nat -> A) : nat -> A :=
  fun d' => if decide (d' = d) then x else f d'.
Definition no_drops : Drops := fun _ => None.
Definition record (e : Entry) (drops : Drops) : Drops :=
  match display e with
  | Some d => array_set d (Some (item e).1) drops
  | None => drops
  end.

Record State := {
  messages : list Entry;
  tracks : nat -> Track;
  bytes : Z;
  cursor : nat;
  continuing : bool;
  fatal : bool;
}.
#[export] Instance eta_State : Eta State := fun r =>
  Build_State (messages r) (tracks r) (bytes r) (cursor r) (continuing r) (fatal r).

Definition new : State :=
  {| messages := []; tracks := fun _ => default_track <| t_enabled := true |>;
     bytes := 0; cursor := 0; continuing := false; fatal := false |}.

Definition set_track (d : nat) (t : Track) (s : State) : State :=
  s <| tracks ::= array_set d t |>.

(** [State::remove]; the [VecDeque] gives [None] out of range. *)
Definition remove (index : nat) (s : State) : option Entry * State :=
  match messages s !! index with
  | Some e => (Some e, s <| messages ::= delete index |> <| bytes ::= fun b => b - e_bytes e |>)
  | None => (None, s)
  end.

(** The entries a purge of a display takes. *)
Definition purged (d : nat) (deltas_only : bool) (e : Entry) : bool :=
  bool_decide (display e = Some d) && (negb deltas_only || negb (key e)).

(** The [while] loop of [purge] visits each queued entry once. *)
Fixpoint purge_from (d : nat) (deltas_only : bool) (l : list Entry) (b : Z) (drops : Drops)
    : list Entry * Z * Drops :=
  match l with
  | [] => ([], b, drops)
  | e :: l =>
      if purged d deltas_only e then
        purge_from d deltas_only l (b - e_bytes e) (record e drops)
      else
        let '(l', b', drops') := purge_from d deltas_only l b drops in (e :: l', b', drops')
  end.

Definition purge (d : nat) (deltas_only : bool) (s : State) (drops : Drops) : State * Drops :=
  let '(l, b, drops) := purge_from d deltas_only (messages s) (bytes s) drops in
  (s <| messages := l |> <| bytes := b |>, drops).

Definition is_own (d : nat) (e : Entry) : bool := bool_decide (display e = Some d).

Definition loss (d : nat) (fr : Z) (s : State) (drops : Drops) : State * Drops :=
  let fr := foldl (fun floor e => Z.max floor (frame e)) fr
              (filter (fun e => is_own d e && negb (key e) = true) (messages s)) in
  let t := tracks s d in
  let t := if negb (recovering t) then t <| refreshes := 0 |> <| last_refresh := None |> else t in
  let t := t <| recovering := true |> <| lost_through ::= fun l => Z.max l fr |>
             <| loss_events ::= fun n => sat_add u64_max n 1 |> in
  purge d true (set_track d t s) drops.

(** The number of distinct displays with a queued frame. *)
Definition pending_displays (l : list Entry) : Z :=
  count_if (fun d => existsb (is_own d) l) (seq 0 DISPLAYS).

Definition own_frames (d : nat) (l : list Entry) : Z := count_if (is_own d) l.
Fixpoint sum_bytes (l : list Entry) : Z :=
  match l with [] => 0 | e :: l => e_bytes e + sum_bytes l end.
Definition own_bytes (d : nat) (l : list Entry) : Z :=
  sum_bytes (filter (fun e => is_own d e = true) l).

Definition push_barrier (it : Queued) (s : State) : State :=
  let b := compute_size it.2 in
  if (Z.of_nat (length (messages s)) =? CAPACITY) || (MAX_FRAME_BYTES <? b)
     || (MAX_BYTES <? sat_add usize_max (bytes s) b)
  then s <| fatal := true |>
  else s <| bytes ::= fun n => n + b |>
         <| messages ::= fun l =>
              l ++ [{| item := it; display := None; e_bytes := b; key := false; frame := 0 |}] |>.

(** Room for one more frame of a display. *)
Definition no_room (d : nat) (b : Z) (s : State) : bool :=
  let l := messages s in
  (MAX_FRAME_BYTES <? b)
  || (MAX_BYTES <? sat_add usize_max (bytes s) b)
  || (CAPACITY - CONTROL_RESERVE <=? Z.of_nat (length l))
  || (MAX_FRAME_BYTES <? sat_add usize_max (own_bytes d l) b)
  || (TRACK_FRAMES <=? own_frames d l)
  || (negb (existsb (is_own d) l) && (TRACKS <=? pending_displays l)).

Definition push_frame (it : Queued) (d : nat) (f : VideoFrame) (s : State) : Drops * State :=
  let b := compute_size it.2 in
  let k := leading_keyframe f in
  let e := {| item := it; display := Some d; e_bytes := b; key := k; frame := frame_id f |} in
  let t := tracks s d in
  if negb (t_enabled t) || is_some_and (stream t) (fun old => stream_id f <? old) then
    (record e no_drops, s)
  else
    let '(s, drops) :=
      if bool_decide (stream t = Some (stream_id f)) then (s, no_drops)
      else
        let '(s, drops) := purge d false s no_drops in
        (set_track d (default_track <| stream := Some (stream_id f) |> <| t_enabled := true |>
                        <| recovering := negb k |>) s, drops) in
    if negb k && recovering (tracks s d) then
      let '(s, drops) := loss d (frame_id f) s drops in (record e drops, s)
    else
      let '(s, drops) := if k then purge d false s drops else (s, drops) in
      if no_room d b s then
        let '(s, drops) := loss d (frame_id f) s drops in (record e drops, s)
      else
        let t := tracks s d in
        let s :=
          if k && ((frame_id f =? 0) || (lost_through t <? frame_id f)) then
            set_track d (t <| recovering := false |> <| refreshes := 0 |>) s
          else s in
        (drops, s <| bytes ::= fun n => n + b |> <| messages ::= fun l => l ++ [e] |>).

(** [usize::try_from(frame.display)] and the range check. *)
Definition display_index (f : VideoFrame) : option nat :=
  if (0 <=? v_display f) && (v_display f <? Z.of_nat DISPLAYS) then
    Some (Z.to_nat (v_display f))
  else None.

Definition push (it : Queued) (s : State) : Drops * State :=
  match video it.2 with
  | None => (no_drops, push_barrier it s)
  | Some f =>
      match display_index f with
      | Some d => push_frame it d f s
      | None => (no_drops, s)
      end
  end.

(** The position of the first entry that satisfies [p]. *)
Fixpoint position (p : Entry -> bool) (l : list Entry) : option nat :=
  match l with
  | [] => None
  | e :: l => if p e then Some 0%nat else S <$> position p l
  end.

(** One pass of the round robin, [barrier] entries being reachable; [Some] is
    the code's [return]. *)
Definition pop_pass (barrier : nat) (s : State) : option (option Entry) * State :=
  let d := cursor s in
  let cont := continuing s in
  let s := s <| cursor := ((cursor s + 1) mod DISPLAYS)%nat |> <| continuing := false |> in
  let t := tracks s d in
  match position (is_own d) (take barrier (messages s)) with
  | None => (None, set_track d (t <| deficit := 0 |>) s)
  | Some index =>
      let credit :=
        if cont then deficit t
        else Z.min (sat_add usize_max (deficit t) QUANTUM) (MAX_FRAME_BYTES + QUANTUM) in
      let cost := map_or (messages s !! index) 0 e_bytes in
      if cost <=? credit then
        let s := set_track d (t <| deficit := credit - cost |>) s in
        let s := s <| cursor := d |> <| continuing := true |> in
        let '(e, s) := remove index s in (Some e, s)
      else (None, set_track d (t <| deficit := credit |>) s)
  end.

Fixpoint pop_loop (n barrier : nat) (s : State) : option Entry * State :=
  match n with
  | O => (None, s)
  | S n =>
      match pop_pass barrier s with
      | (Some r, s) => (r, s)
      | (None, s) => pop_loop n barrier s
      end
  end.

Definition is_barrier (e : Entry) : bool := is_none (display e).

(** The passes the code allows. *)
Definition PASSES : nat := DISPLAYS * Z.to_nat (MAX_FRAME_BYTES / QUANTUM + 1).

Definition pop (s : State) : option Entry * State :=
  match messages s with
  | e :: _ => if is_barrier e then remove 0 s
              else pop_loop PASSES (unwrap_or (position is_barrier (messages s))
                                      (length (messages s))) s
  | [] => (None, s)
  end.

(** [VideoQueueSender::lose] *)
Definition lose (it : Queued) (s : State) : Drops * State :=
  match video it.2 with
  | Some f =>
      match display_index f with
      | Some d =>
          let '(s, drops) :=
            if bool_decide (stream (tracks s d) = Some (stream_id f)) then
              loss d (frame_id f) s no_drops
            else (s, no_drops) in
          (array_set d (Some it.1) drops, s)
      | None => (no_drops, s)
      end
  | None => (no_drops, s)
  end.

Definition set_display (displays : list nat) (d : nat) (s : State) (drops : Drops)
    : State * Drops :=
  let en := bool_decide (d ∈ displays) in
  let '(s, drops) :=
    if t_enabled (tracks s d) && negb en then
      let '(s, drops) := purge d false s drops in
      (set_track d (tracks s d <| recovering := false |>) s, drops)
    else (s, drops) in
  let s :=
    if negb (t_enabled (tracks s d)) && en then
      set_track d (tracks s d <| recovering := true |> <| refreshes := 0 |>
                     <| last_refresh := None |>) s
    else s in
  (set_track d (tracks s d <| t_enabled := en |>) s, drops).

Definition set_displays (displays : list nat) (s : State) : Drops * State :=
  let '(s, drops) := foldl (fun '(s, drops) d => set_display displays d s drops)
                       (s, no_drops) (seq 0 DISPLAYS) in
  (drops, s).

Definition track_due (now : instant) (t : Track) : bool :=
  t_enabled t && recovering t && (refreshes t <? MAX_REFRESHES)
  && negb (is_some_and (last_refresh t) (fun at_ => since now at_ <? REFRESH_INTERVAL)).

Definition recovery_due (now : instant) (s : State) : (nat -> option (Z * Z)) * State :=
  (fun d => let t := tracks s d in
            if track_due now t then Some (unwrap_or (stream t) 0, loss_events t) else None,
   s <| tracks := fun d =>
          let t := tracks s d in
          if track_due now t then
            t <| last_refresh := Some now |> <| refreshes ::= fun n => n + 1 |>
          else t |>).

Definition stale_delta (now : instant) (it : Queued) : bool :=
  match video it.2 with
  | Some f => negb (leading_keyframe f) && (STALE_DELTA <=? since now it.1)
  | None => false
  end.

(** [VideoQueueReceiver::recv], one round of its loop: an error, an item, or a
    wait for the next notification. *)
Inductive Recv := RecvError | RecvItem (it : Queued) | RecvWait.
Definition recv (s : State) : Recv * State :=
  if fatal s then (RecvError, s)
  else match pop s with
       | (Some e, s) => (RecvItem (item e), s)
       | (None, s) => (RecvWait, s)
       end.

(** ** What an operation does to the queue *)

Definition own (d : nat) (l : list Entry) : list Entry := filter (fun e => is_own d e = true) l.
Definition keys_only (l : list Entry) : list Entry := filter (fun e => key e = true) l.
Definition kept (d : nat) (deltas_only : bool) (l : list Entry) : list Entry :=
  filter (fun e => purged d deltas_only e = false) l.

(** The part of a track the round robin leaves alone. *)
Definition same_track (t t' : Track) : Prop :=
  stream t' = stream t /\ t_enabled t' = t_enabled t /\ recovering t' = recovering t /\
  lost_through t' = lost_through t /\ refreshes t' = refreshes t /\
  last_refresh t' = last_refresh t.

#[export] Instance same_track_refl : Reflexive same_track.
Proof. by repeat split. Qed.
#[export] Instance same_track_trans : Transitive same_track.
Proof. intros t1 t2 t3 (? & ? & ? & ? & ? & ?) (? & ? & ? & ? & ? & ?); repeat split; congruence. Qed.

Lemma array_set_eq {A} d (x : A) f : array_set d x f d = x.
Proof. unfold array_set; by rewrite decide_True. Qed.
Lemma array_set_ne {A} d d' (x : A) f : d' <> d -> array_set d x f d' = f d'.
Proof. intros; unfold array_set; by rewrite decide_False. Qed.

Lemma sum_bytes_app l1 l2 : sum_bytes (l1 ++ l2) = sum_bytes l1 + sum_bytes l2.
Proof. induction l1; simpl; lia. Qed.

Lemma purge_from_spec d b l n dr :
  (purge_from d b l n dr).1.1 = kept d b l /\
  n - (purge_from d b l n dr).1.2 = sum_bytes l - sum_bytes (kept d b l).
Proof.
  revert n dr; induction l as [|e l IH]; intros n dr; simpl; [split; [done|simpl; lia]|].
  unfold kept in *; rewrite filter_cons; destruct (purged d b e) eqn:E; simpl.
  - destruct (IH (n - e_bytes e) (record e dr)) as [-> Hb]. split; [done|lia].
  - specialize (IH n dr); destruct (purge_from d b l n dr) as [[l' b'] dr']; simpl in *.
    destruct IH as [-> Hb]; split; [done|lia].
Qed.

(** A purge keeps the other entries, in their order, and accounts their bytes. *)
Lemma purge_spec d b s dr :
  let s' := (purge d b s dr).1 in
  messages s' = kept d b (messages s) /\
  bytes s - bytes s' = sum_bytes (messages s) - sum_bytes (messages s') /\
  tracks s' = tracks s /\ fatal s' = fatal s.
Proof.
  unfold purge; assert (H := purge_from_spec d b (messages s) (bytes s) dr).
  destruct (purge_from _ _ _ _ _) as [[l n] dr']; simpl in *.
  destruct H as [-> H]; by split_and!.
Qed.

Lemma loss_spec d fr s dr :
  let s' := (loss d fr s dr).1 in
  messages s' = kept d true (messages s) /\
  bytes s - bytes s' = sum_bytes (messages s) - sum_bytes (messages s') /\
  (forall d', d' <> d -> tracks s' d' = tracks s d') /\
  recovering (tracks s' d) = true /\ stream (tracks s' d) = stream (tracks s d) /\
  t_enabled (tracks s' d) = t_enabled (tracks s d) /\ fatal s' = fatal s.
Proof.
  unfold loss. lazymatch goal with |- context [purge d true ?x dr] =>
    destruct (purge_spec d true x dr) as (-> & Hb & Ht & Hf) end.
  split; [done|]; split; [done|]; rewrite Hf, Ht; simpl; rewrite array_set_eq; simpl.
  split_and!; try done; [intros d' Hd; by rewrite array_set_ne|by destruct (recovering (tracks s d))..].
Qed.

Lemma own_kept d d' b l :
  own d (kept d' b l) =
    if decide (d = d') then if b then keys_only (own d l) else [] else own d l.
Proof.
  unfold own, kept, keys_only, purged, is_own; case_decide as Hd; [subst d'; destruct b|].
  - rewrite !list_filter_filter; apply list_filter_iff; intros e.
    destruct (bool_decide (display e = Some d)), (key e); simpl; naive_solver.
  - rewrite list_filter_filter; induction l as [|e l IH]; [done|].
    rewrite filter_cons_False; [done|]. destruct (bool_decide (display e = Some d)); simpl; naive_solver.
  - apply list_filter_filter_l; intros e He; bools; rewrite bool_decide_false; [done|congruence].
Qed.

(** *** Pop *)

Lemma position_some p l i :
  position p l = Some i ->
  exists e l1 l2, l = l1 ++ e :: l2 /\ length l1 = i /\ p e = true /\ Forall (fun x => p x = false) l1.
Proof.
  revert i; induction l as [|e l IH]; intros i; simpl; [done|]. destruct (p e) eqn:E.
  - intros [= <-]; by exists e, [], l.
  - destruct (position p l) as [j|]; [|done]; intros [= <-].
    destruct (IH j eq_refl) as (x & l1 & l2 & -> & <- & Hx & Hl).
    exists x, (e :: l1), l2; split_and!; try done. by constructor.
Qed.

Lemma position_none p l : position p l = None <-> Forall (fun x => p x = false) l.
Proof.
  induction l as [|e l IH]; simpl; [done|]. rewrite Forall_cons. destruct (p e); [naive_solver|].
  destruct (position p l); naive_solver.
Qed.

(** The entries that may be served: those before the first barrier. *)
Definition reachable_entries (l : list Entry) : nat :=
  unwrap_or (position is_barrier l) (length l).

Lemma take_reachable l : Forall (fun e => is_barrier e = false) (take (reachable_entries l) l).
Proof.
  unfold reachable_entries; destruct (position is_barrier l) as [i|] eqn:E; simpl.
  - apply position_some in E as (e & l1 & l2 & -> & <- & _ & H). by rewrite take_app_length.
  - rewrite take_ge by lia; by apply position_none.
Qed.

(** [served l e l1 l2]: the entry [e] may leave the queue [l = l1 ++ e :: l2]. *)
Definition served (l : list Entry) (e : Entry) (l1 l2 : list Entry) : Prop :=
  l = l1 ++ e :: l2 /\ Forall (fun x => is_barrier x = false) l1 /\
  (forall d, display e = Some d -> own d l1 = []) /\ (is_barrier e = true -> l1 = []).

(** What [pop] never touches. *)
Definition frame_pop (s s' : State) : Prop :=
  fatal s' = fatal s /\ forall d, same_track (tracks s d) (tracks s' d).

Lemma frame_pop_trans s1 s2 s3 : frame_pop s1 s2 -> frame_pop s2 s3 -> frame_pop s1 s3.
Proof. intros [? H] [? H']; split; [congruence|]. intros d; etrans; [apply H|apply H']. Qed.

Lemma own_nil d l : Forall (fun x => is_own d x = false) l -> own d l = [].
Proof.
  induction 1 as [|x l Hx _ IH]; [done|]. unfold own in *; rewrite filter_cons_False; [done|congruence].
Qed.

Lemma frame_deficit d n s s' :
  fatal s' = fatal s -> tracks s' = array_set d (tracks s d <| deficit := n |>) (tracks s) ->
  frame_pop s s'.
Proof.
  intros Hf Ht; split; [done|]; intros d'; rewrite Ht.
  destruct (decide (d' = d)) as [->|]; [by rewrite array_set_eq|by rewrite array_set_ne].
Qed.

#[local] Arguments Nat.modulo : simpl never.

(** A pass either serves the first reachable frame of the display it visits, or
    only moves the cursor and that display's credit. *)
Lemma pop_pass_spec s :
  let b := reachable_entries (messages s) in
  match pop_pass b s with
  | (Some r, s') => exists e l1 l2,
      r = Some e /\ served (messages s) e l1 l2 /\ messages s' = l1 ++ l2 /\
      bytes s' = bytes s - e_bytes e /\ frame_pop s s'
  | (None, s') => messages s' = messages s /\ bytes s' = bytes s /\ frame_pop s s'
  end.
Proof.
  intros b; unfold pop_pass; simpl.
  destruct (position (is_own (cursor s)) (take b (messages s))) as [i|] eqn:Ep.
  2: { split_and!; try done; by eapply frame_deficit. }
  destruct (_ <=? _); [|split_and!; try done; by eapply frame_deficit].
  apply position_some in Ep as (e & l1 & l2 & Ht & <- & He & Hl1).
  assert (Hl : messages s = l1 ++ e :: (l2 ++ drop b (messages s))).
  { rewrite <- (take_drop b (messages s)) at 1; rewrite Ht; by rewrite <- app_assoc. }
  set (l2' := l2 ++ drop b (messages s)) in *.
  unfold remove; simpl; rewrite Hl, list_lookup_middle by done; simpl.
  exists e, l1, l2'; rewrite delete_middle; split; [done|].
  split; [|split_and!; try done; by eapply frame_deficit].
  split; [done|]. assert (Hb := take_reachable (messages s)); fold b in Hb; rewrite Ht in Hb.
  apply Forall_app in Hb as [Hb1 Hb2]; apply Forall_cons in Hb2 as [Hb2 _].
  split; [done|]; split; [|congruence].
  intros d Hd; unfold is_own in He; bools; rewrite Hd in He; simplify_eq; by apply own_nil.
Qed.

Lemma pop_loop_spec n s :
  let b := reachable_entries (messages s) in
  match pop_loop n b s with
  | (Some e, s') => exists l1 l2,
      served (messages s) e l1 l2 /\ messages s' = l1 ++ l2 /\
      bytes s' = bytes s - e_bytes e /\ frame_pop s s'
  | (None, s') => messages s' = messages s /\ bytes s' = bytes s /\ frame_pop s s'
  end.
Proof.
  revert s; induction n as [|n IH]; intros s b; simpl; [by split_and!|].
  assert (Hp := pop_pass_spec s); cbv zeta in Hp; fold b in Hp.
  destruct (pop_pass b s) as [[r|] s1].
  - destruct Hp as (e & l1 & l2 & -> & ?); by exists l1, l2.
  - destruct Hp as (Hm & Hb & Hf). specialize (IH s1); cbv zeta in IH; rewrite Hm in IH; fold b in IH.
    destruct (pop_loop n b s1) as [[e|] s2].
    + destruct IH as (l1 & l2 & ? & ? & ? & ?); exists l1, l2; split_and!; try done; [lia|].
      by eapply frame_pop_trans.
    + destruct IH as (? & ? & ?); split_and!; [congruence|congruence|by eapply frame_pop_trans].
Qed.

Lemma pop_spec s :
  match pop s with
  | (Some e, s') => exists l1 l2,
      served (messages s) e l1 l2 /\ messages s' = l1 ++ l2 /\
      bytes s' = bytes s - e_bytes e /\ frame_pop s s'
  | (None, s') => messages s' = messages s /\ bytes s' = bytes s /\ frame_pop s s'
  end.
Proof.
  unfold pop; destruct (messages s) as [|e l] eqn:Hm; [by split_and!|].
  destruct (is_barrier e) eqn:Hb.
  - unfold remove; rewrite Hm; simpl; exists [], l; rewrite Hm. split_and!; try done.
  - assert (H := pop_loop_spec PASSES s); cbv zeta in H; rewrite Hm in H; exact H.
Qed.

(** *** Liveness of the round robin *)

(** Passes until the cursor reaches a display. *)
Definition dist (c d : nat) : Z :=
  if (c <=? d)%nat then Z.of_nat d - Z.of_nat c else Z.of_nat d + 64 - Z.of_nat c.

Lemma dist_bounds c d : (c < DISPLAYS)%nat -> (d < DISPLAYS)%nat -> 0 <= dist c d <= 63.
Proof. unfold dist, DISPLAYS; destruct (Nat.leb_spec c d); lia. Qed.

Lemma next_cursor c : (c < DISPLAYS)%nat ->
  ((c + 1) mod DISPLAYS < DISPLAYS)%nat /\
  (Z.of_nat ((c + 1) mod DISPLAYS) = if (c =? 63)%nat then 0 else Z.of_nat c + 1).
Proof.
  unfold DISPLAYS; intros H; split; [apply Nat.mod_upper_bound; lia|].
  destruct (Nat.eqb_spec c 63) as [->|]; [done|]. rewrite Nat.mod_small by lia; lia.
Qed.

Lemma dist_next c d : (c < DISPLAYS)%nat -> (d < DISPLAYS)%nat ->
  dist ((c + 1) mod DISPLAYS) d = if decide (c = d) then 63 else dist c d - 1.
Proof.
  intros Hc Hd; destruct (next_cursor c Hc) as [_ Hn]; unfold dist, DISPLAYS in *.
  destruct (Nat.leb_spec ((c + 1) mod 64) d), (Nat.leb_spec c d), (Nat.eqb_spec c 63);
    case_decide; lia.
Qed.

Definition credit (s : State) (d : nat) : Z :=
  if continuing s then deficit (tracks s d)
  else Z.min (sat_add usize_max (deficit (tracks s d)) QUANTUM) (MAX_FRAME_BYTES + QUANTUM).

Lemma credit_cases s d :
  if continuing s then credit s d = deficit (tracks s d)
  else credit s d = Z.min (deficit (tracks s d) + QUANTUM) (MAX_FRAME_BYTES + QUANTUM) /\
       1 <= QUANTUM.
Proof.
  unfold credit, sat_add, usize_max, u64_max, QUANTUM, MAX_FRAME_BYTES.
  destruct (continuing s); lia.
Qed.

(** A pass that serves nothing, seen from the display of the queue's head. *)
Lemma pop_pass_none b s e l d s' :
  messages s = e :: l -> display e = Some d -> (0 < b)%nat ->
  pop_pass b s = (None, s') ->
  messages s' = messages s /\ cursor s' = ((cursor s + 1) mod DISPLAYS)%nat /\
  continuing s' = false /\
  (if decide (cursor s = d)
   then credit s d < e_bytes e /\ deficit (tracks s' d) = credit s d
   else deficit (tracks s' d) = deficit (tracks s d)).
Proof.
  intros Hm He Hb; unfold pop_pass; cbn -[DISPLAYS].
  destruct (position (is_own (cursor s)) (take b (messages s))) as [i|] eqn:Ep.
  - destruct (_ <=? _) eqn:Ecr.
    { by destruct (remove i _). }
    intros [= <-]; cbn -[DISPLAYS]; split_and!; try done.
    destruct (decide (cursor s = d)) as [Hcd|Hcd]; [|by rewrite array_set_ne].
    rewrite Hcd, array_set_eq. assert (Hi : i = 0%nat).
    { destruct b; [lia|]. rewrite Hm in Ep; simpl in Ep. unfold is_own in Ep at 1.
      rewrite He, Hcd, bool_decide_true in Ep by done; by simplify_eq. }
    rewrite Hi, Hm, Hcd in Ecr; simpl in Ecr; apply Z.leb_gt in Ecr; done.
  - intros [= <-]; cbn -[DISPLAYS]; split_and!; try done.
    destruct (decide (cursor s = d)) as [Hcd|Hcd]; [|by rewrite array_set_ne].
    destruct b; [lia|]. rewrite Hm in Ep; simpl in Ep. unfold is_own in Ep at 1.
    by rewrite He, Hcd, bool_decide_true in Ep.
Qed.

Lemma pop_pass_some b s r s' : pop_pass b s = (Some r, s') -> r <> None.
Proof.
  unfold pop_pass; cbn -[DISPLAYS].
  destruct (position _ (take b (messages s))) as [i|] eqn:Ep; [|done].
  destruct (_ <=? _); [|done].
  apply position_some in Ep as (x & l1 & l2 & Ht & <- & _).
  unfold remove; cbn -[DISPLAYS].
  assert (messages s !! length l1 = Some x) as ->; [|by intros [= <- _]].
  rewrite <- (take_drop b (messages s)), Ht, <- app_assoc. by apply list_lookup_middle.
Qed.

(** If the head of the queue is a frame of [d] whose cost needs at most [q] more
    quanta, the round robin serves something within [64 q] passes. *)
Lemma pop_loop_live n b s e l d q :
  messages s = e :: l -> display e = Some d -> (0 < b)%nat -> (d < DISPLAYS)%nat ->
  (cursor s < DISPLAYS)%nat -> 0 <= deficit (tracks s d) -> e_bytes e <= MAX_FRAME_BYTES ->
  1 <= q -> e_bytes e <= deficit (tracks s d) + q * QUANTUM ->
  Z.of_nat n >= (if continuing s && bool_decide (cursor s = d) then 65 else dist (cursor s) d + 1)
                + 64 * (q - 1) ->
  (pop_loop n b s).1 <> None.
Proof.
  revert s q; induction n as [|n IH]; intros s q Hm He Hb Hd Hc Hdef Hcost Hq Hneed Hn.
  all: assert (Hdb := dist_bounds (cursor s) d Hc Hd).
  { exfalso; destruct (_ && _); lia. }
  cbn [pop_loop]; destruct (pop_pass b s) as [[r|] s'] eqn:Ep; [by eapply pop_pass_some|].
  destruct (pop_pass_none b s e l d s' Hm He Hb Ep) as (Hm' & Hc' & Hk & Hcr).
  destruct (next_cursor (cursor s) Hc) as [Hnc _]. assert (Hdn := dist_next (cursor s) d Hc Hd).
  destruct (decide (cursor s = d)) as [Hcd|Hcd].
  - rewrite (bool_decide_true (cursor s = d)), andb_true_r in Hn by done.
    destruct Hcr as [Hcr Hdef']; assert (Hcap := credit_cases s d); destruct (continuing s).
    + apply (IH s' q); rewrite ?Hk, ?Hm', ?Hc', ?Hdn, ?Hdef'; cbn [andb]; try done; lia.
    + assert (2 <= q) by (destruct (decide (q = 1)) as [Hq1|]; [rewrite Hq1 in *|]; lia).
      apply (IH s' (q - 1)); rewrite ?Hk, ?Hm', ?Hc', ?Hdn, ?Hdef'; cbn [andb]; try done; lia.
  - rewrite (bool_decide_false (cursor s = d)), andb_false_r in Hn by done.
    apply (IH s' q); rewrite ?Hk, ?Hm', ?Hc', ?Hdn, ?Hcr; cbn [andb]; try done; lia.
Qed.

(** ** Bounds *)

Lemma queue_constants :
  MAX_FRAME_BYTES = 16777216 /\ MAX_BYTES = 67108864 /\ QUANTUM = 65536 /\ CAPACITY = 72 /\
  CONTROL_RESERVE = 8 /\ TRACK_FRAMES = 4 /\ TRACKS = 16 /\ usize_max = 18446744073709551615.
Proof. by split_and!. Qed.
Ltac with_constants := destruct queue_constants as (? & ? & ? & ? & ? & ? & ? & ?).

Definition is_video (e : Entry) : bool := negb (is_barrier e).

Record bounds (l : list Entry) : Prop := {
  b_length : Z.of_nat (length l) <= CAPACITY;
  b_video : count_if is_video l <= CAPACITY - CONTROL_RESERVE;
  b_bytes : sum_bytes l <= MAX_BYTES;
  b_entries : Forall (fun e => 0 <= e_bytes e <= MAX_FRAME_BYTES /\
                        forall d, display e = Some d -> (d < DISPLAYS)%nat) l;
  b_frames : forall d, own_frames d l <= TRACK_FRAMES;
  b_own : forall d, own_bytes d l <= MAX_FRAME_BYTES;
  b_displays : pending_displays l <= TRACKS;
}.

Record inv (s : State) : Prop := {
  i_bytes : bytes s = sum_bytes (messages s);
  i_bounds : bounds (messages s);
  i_cursor : (cursor s < DISPLAYS)%nat;
  i_deficit : forall d, 0 <= deficit (tracks s d);
}.

Lemma sum_bytes_sublist l l' :
  l `sublist_of` l' -> Forall (fun e => 0 <= e_bytes e) l' -> sum_bytes l <= sum_bytes l'.
Proof. induction 1; intros Hf; simpl; try apply Forall_cons in Hf as [? Hf]; try specialize (IHsublist Hf); lia. Qed.

Lemma bounds_sublist l l' : l `sublist_of` l' -> bounds l' -> bounds l.
Proof.
  intros Hs [H1 H2 H3 H4 H5 H6 H7].
  assert (Hn : Forall (fun e => 0 <= e_bytes e) l') by (eapply Forall_impl; [exact H4|simpl; lia]).
  split.
  - apply sublist_length in Hs; lia.
  - assert (H := count_if_sublist is_video _ _ Hs); lia.
  - assert (H := sum_bytes_sublist _ _ Hs Hn); lia.
  - rewrite Forall_forall in H4 |- *; intros e He; eapply H4, elem_of_sublist; eauto.
  - intros d; assert (H := count_if_sublist (is_own d) _ _ Hs). specialize (H5 d); unfold own_frames in *; lia.
  - intros d; etrans; [|apply (H6 d)]. apply sum_bytes_sublist; [by apply filter_sublist_mono|].
    rewrite Forall_forall in Hn |- *; intros e He; apply list_elem_of_filter in He as [_ He]; auto.
  - etrans; [|exact H7]. apply count_if_mono; intros d. rewrite !existsb_exists.
    intros (e & He & Ho); exists e; split; [|done].
    apply list_elem_of_In; eapply elem_of_sublist; [|done]. by apply list_elem_of_In.
Qed.

Lemma kept_sublist d b l : kept d b l `sublist_of` l.
Proof. apply sublist_filter. Qed.

(** Operations that only take entries away keep the invariant. *)
Lemma inv_shrink s s' :
  inv s -> messages s' `sublist_of` messages s ->
  bytes s - bytes s' = sum_bytes (messages s) - sum_bytes (messages s') ->
  (cursor s' < DISPLAYS)%nat -> (forall d, 0 <= deficit (tracks s' d)) -> inv s'.
Proof. intros [H1 H2 _ _] Hs Hb Hc Hd; split; [lia|by eapply bounds_sublist|done|done]. Qed.

Lemma existsb_app_one d l e : existsb (is_own d) (l ++ [e]) = existsb (is_own d) l || is_own d e.
Proof. rewrite existsb_app; simpl; by rewrite orb_false_r. Qed.

Lemma own_bytes_app d l e :
  own_bytes d (l ++ [e]) = own_bytes d l + if is_own d e then e_bytes e else 0.
Proof.
  unfold own_bytes; rewrite filter_app, sum_bytes_app, filter_cons, filter_nil.
  destruct (is_own d e); simpl; lia.
Qed.

Lemma pending_app l e d :
  display e = Some d ->
  (existsb (is_own d) l = true \/ pending_displays l < TRACKS) ->
  pending_displays l <= TRACKS -> pending_displays (l ++ [e]) <= TRACKS.
Proof.
  intros He Hp Hb; unfold pending_displays in *.
  assert (Hne : forall x, x <> d -> existsb (is_own x) (l ++ [e]) = existsb (is_own x) l).
  { intros x Hx; rewrite existsb_app_one; unfold is_own at 2.
    rewrite He, bool_decide_false by congruence; by rewrite orb_false_r. }
  destruct Hp as [Hp|Hp].
  - etrans; [|exact Hb]. apply count_if_mono; intros x Hx.
    destruct (decide (x = d)) as [->|]; [done|by rewrite <- Hne].
  - assert (H := count_if_one (fun x => existsb (is_own x) l)
      (fun x => existsb (is_own x) (l ++ [e])) d (seq 0 DISPLAYS) (NoDup_seq _ _) Hne); lia.
Qed.

Lemma bounds_push_frame l e d b n :
  bounds l -> display e = Some d -> (d < DISPLAYS)%nat -> e_bytes e = b -> 0 <= b ->
  no_room d b {| messages := l; tracks := fun _ => default_track; bytes := sum_bytes l;
                 cursor := n; continuing := false; fatal := false |} = false ->
  bounds (l ++ [e]).
Proof.
  intros [H1 H2 H3 H4 H5 H6 H7] He Hd Hb Hpos Hr; unfold no_room in Hr; simpl in Hr.
  rewrite !orb_false_iff, !Z.ltb_ge, !Z.leb_gt in Hr.
  destruct Hr as (((((R1 & R2) & R3) & R4) & R5) & R6).
  with_constants; unfold sat_add in *.
  assert (Hown : is_own d e = true) by (unfold is_own; by rewrite bool_decide_true).
  split.
  - rewrite length_app; simpl. lia.
  - rewrite count_if_app. assert (Hc := count_if_bounds is_video l). simpl.
    destruct (is_video e); simpl; lia.
  - rewrite sum_bytes_app; simpl; lia.
  - apply Forall_app; split; [done|]; constructor; [|done]. split; [lia|].
    intros d'; rewrite He; by intros [= <-].
  - intros d'; unfold own_frames; rewrite count_if_app; simpl.
    destruct (decide (d' = d)) as [->|].
    + unfold own_frames in *; rewrite Hown; simpl; lia.
    + unfold is_own at 2; rewrite He, bool_decide_false by congruence. specialize (H5 d').
      unfold own_frames in H5; simpl; lia.
  - intros d'; rewrite own_bytes_app. destruct (decide (d' = d)) as [->|].
    + rewrite Hown; lia.
    + unfold is_own; rewrite He, bool_decide_false by congruence. specialize (H6 d'); lia.
  - apply (pending_app _ _ d); [done| |done]. apply andb_false_iff in R6 as [R6|R6].
    + left; by apply negb_false_iff.
    + right; by apply Z.leb_gt.
Qed.

Lemma bounds_push_barrier l e :
  bounds l -> display e = None -> 0 <= e_bytes e <= MAX_FRAME_BYTES ->
  Z.of_nat (length l) <> CAPACITY -> sum_bytes l + e_bytes e <= MAX_BYTES -> bounds (l ++ [e]).
Proof.
  intros [H1 H2 H3 H4 H5 H6 H7] He Hb Hl Hs.
  assert (Ho : forall d, is_own d e = false) by (intros d; unfold is_own; by rewrite He, bool_decide_false).
  split.
  - rewrite length_app; simpl; lia.
  - rewrite count_if_app; simpl; unfold is_video at 2, is_barrier; rewrite He; simpl; lia.
  - rewrite sum_bytes_app; simpl; lia.
  - apply Forall_app; split; [done|]; constructor; [|done]. split; [done|]; congruence.
  - intros d; unfold own_frames; rewrite count_if_app; simpl; rewrite Ho. specialize (H5 d).
    unfold own_frames in H5; simpl; lia.
  - intros d; rewrite own_bytes_app, Ho; specialize (H6 d); lia.
  - etrans; [|exact H7]. apply count_if_mono; intros d; rewrite existsb_app_one, Ho.
    by rewrite orb_false_r.
Qed.

(** ** Operations on one display *)

Definition barriers (l : list Entry) : list Entry := filter (fun e => is_barrier e = true) l.

(** [shrink d s s']: [s'] is [s] with some entries of [d] gone and its track
    changed; everything else is as it was. *)
Record shrink (d : nat) (s s' : State) : Prop := {
  sh_sublist : messages s' `sublist_of` messages s;
  sh_bytes : bytes s - bytes s' = sum_bytes (messages s) - sum_bytes (messages s');
  sh_barriers : barriers (messages s') = barriers (messages s);
  sh_own : forall d', d' <> d -> own d' (messages s') = own d' (messages s);
  sh_tracks : forall d', d' <> d -> tracks s' d' = tracks s d';
  sh_deficit : 0 <= deficit (tracks s d) -> 0 <= deficit (tracks s' d);
  sh_cursor : cursor s' = cursor s;
  sh_fatal : fatal s' = fatal s;
}.

Lemma shrink_refl d s : shrink d s s.
Proof. split; try done; lia. Qed.

Lemma shrink_trans d s1 s2 s3 : shrink d s1 s2 -> shrink d s2 s3 -> shrink d s1 s3.
Proof.
  intros [A1 A2 A3 A4 A5 A6 A7 A8] [B1 B2 B3 B4 B5 B6 B7 B8]; split.
  - by etrans.
  - lia.
  - congruence.
  - intros; rewrite B4, A4; done.
  - intros; rewrite B5, A5; done.
  - auto.
  - congruence.
  - congruence.
Qed.

Lemma barriers_kept d b l : barriers (kept d b l) = barriers l.
Proof.
  apply list_filter_filter_l; intros e He; unfold purged, is_barrier in *.
  destruct (display e) eqn:E; [done|]. by rewrite bool_decide_false.
Qed.

Lemma shrink_purge d b s dr : shrink d s (purge d b s dr).1.
Proof.
  destruct (purge_spec d b s dr) as (Hm & Hb & Ht & Hf).
  assert (Hc : cursor (purge d b s dr).1 = cursor s).
  { unfold purge; by destruct (purge_from _ _ _ _ _) as [[]]. }
  split; rewrite ?Hm, ?Ht; try done; [apply kept_sublist|by rewrite <- Hm|apply barriers_kept|].
  intros d' Hd; rewrite own_kept; by rewrite decide_False.
Qed.

Lemma shrink_track d t s :
  (0 <= deficit (tracks s d) -> 0 <= deficit t) -> shrink d s (set_track d t s).
Proof.
  intros Ht; split; simpl; try done; [lia|..].
  - intros d' Hd; by rewrite array_set_ne.
  - by rewrite array_set_eq.
Qed.

Lemma shrink_loss d fr s dr : shrink d s (loss d fr s dr).1.
Proof.
  unfold loss; eapply shrink_trans; [|apply shrink_purge].
  apply shrink_track; by destruct (recovering (tracks s d)).
Qed.

Lemma shrink_inv d s s' : shrink d s s' -> inv s -> inv s'.
Proof.
  intros [A1 A2 A3 A4 A5 A6 A7 A8] Hi; eapply inv_shrink; [done..| |].
  - rewrite A7; by destruct Hi.
  - intros d'; destruct (decide (d' = d)) as [->|Hd]; [apply A6|rewrite A5 by done]; apply Hi.
Qed.

Definition entry_of (it : Queued) (d : nat) (f : VideoFrame) : Entry :=
  {| item := it; display := Some d; e_bytes := compute_size it.2;
     key := leading_keyframe f; frame := frame_id f |}.

(** What pushing a frame of display [d] does: it is ignored (the display is off
    or its stream is old), dropped as a loss, or queued after its predecessors
    or alone as a new reference. *)
Inductive pushed_frame (it : Queued) (d : nat) (f : VideoFrame) (s s' : State) : Prop :=
  | push_ignored :
      s' = s ->
      t_enabled (tracks s d) = false \/ (exists old, stream (tracks s d) = Some old /\ stream_id f < old) ->
      pushed_frame it d f s s'
  | push_lost :
      shrink d s s' -> Forall (fun e => key e = true) (own d (messages s')) ->
      (stream (tracks s d) <> Some (stream_id f) -> own d (messages s') = []) ->
      recovering (tracks s' d) = true -> stream (tracks s' d) = Some (stream_id f) ->
      pushed_frame it d f s s'
  | push_queued s1 :
      shrink d s s1 -> no_room d (compute_size it.2) s1 = false ->
      messages s' = messages s1 ++ [entry_of it d f] ->
      bytes s' = bytes s1 + compute_size it.2 ->
      cursor s' = cursor s1 -> fatal s' = fatal s1 ->
      (forall d', d' <> d -> tracks s' d' = tracks s1 d') ->
      (0 <= deficit (tracks s1 d) -> 0 <= deficit (tracks s' d)) ->
      stream (tracks s' d) = Some (stream_id f) -> t_enabled (tracks s d) = true ->
      (if leading_keyframe f then own d (messages s1) = []
       else s1 = s /\ recovering (tracks s d) = false /\
            stream (tracks s d) = Some (stream_id f)) ->
      pushed_frame it d f s s'.

Lemma keys_only_keys l : Forall (fun e => key e = true) (keys_only l).
Proof. apply Forall_forall; intros e He; by apply list_elem_of_filter in He as [? _]. Qed.

Lemma loss_own d fr s dr : own d (messages (loss d fr s dr).1) = keys_only (own d (messages s)).
Proof. destruct (loss_spec d fr s dr) as (-> & _). rewrite own_kept; by rewrite decide_True. Qed.

Lemma lost_frame it d f s s1 dr :
  shrink d s s1 -> stream (tracks s1 d) = Some (stream_id f) ->
  (stream (tracks s d) <> Some (stream_id f) -> own d (messages s1) = []) ->
  pushed_frame it d f s (loss d (frame_id f) s1 dr).1.
Proof.
  intros Hs Hst Ho; apply push_lost.
  - eapply shrink_trans; [exact Hs|apply shrink_loss].
  - rewrite loss_own; apply keys_only_keys.
  - intros H; rewrite loss_own, (Ho H); done.
  - by destruct (loss_spec d (frame_id f) s1 dr) as (_ & _ & _ & H & _).
  - destruct (loss_spec d (frame_id f) s1 dr) as (_ & _ & _ & _ & -> & _); done.
Qed.

(** The stream switch at the head of [push]: its effect and the new track. *)
Definition switch_stream (d : nat) (f : VideoFrame) (s : State) : State * Drops :=
  if bool_decide (stream (tracks s d) = Some (stream_id f)) then (s, no_drops)
  else
    let '(s, drops) := purge d false s no_drops in
    (set_track d (default_track <| stream := Some (stream_id f) |> <| t_enabled := true |>
                    <| recovering := negb (leading_keyframe f) |>) s, drops).

Lemma switch_stream_spec d f s :
  let s1 := (switch_stream d f s).1 in
  shrink d s s1 /\ stream (tracks s1 d) = Some (stream_id f) /\
  (if bool_decide (stream (tracks s d) = Some (stream_id f)) then s1 = s
   else own d (messages s1) = [] /\ recovering (tracks s1 d) = negb (leading_keyframe f)).
Proof.
  unfold switch_stream; case_bool_decide as Hst; [split_and!; auto using shrink_refl|].
  assert (Hp := shrink_purge d false s no_drops).
  destruct (purge_spec d false s no_drops) as (Hm & _).
  destruct (purge d false s no_drops) as [s1 dr]; simpl in *.
  split_and!.
  - eapply shrink_trans; [exact Hp|by apply shrink_track].
  - by rewrite array_set_eq.
  - rewrite Hm, own_kept; by rewrite decide_True.
  - by rewrite array_set_eq.
Qed.

Lemma push_frame_spec it d f s : pushed_frame it d f s (push_frame it d f s).2.
Proof.
  unfold push_frame. fold (switch_stream d f s).
  destruct (negb (t_enabled _) || _) eqn:Ee; simpl.
  { apply push_ignored; [done|]. apply orb_true_iff in Ee as [Ee|Ee]; [left; by bools|right].
    apply is_some_and_true in Ee as (old & ? & ?%Z.ltb_lt); eauto. }
  apply orb_false_iff in Ee as [Ee _]; bools.
  destruct (switch_stream_spec d f s) as (Hs & Hst & Hcase).
  destruct (switch_stream d f s) as [s1 dr]; simpl in *.
  assert (Hown : stream (tracks s d) <> Some (stream_id f) -> own d (messages s1) = []).
  { intros H; rewrite bool_decide_false in Hcase by done; by destruct Hcase. }
  destruct (negb (leading_keyframe f) && recovering (tracks s1 d)) eqn:Er.
  { assert (H := lost_frame it d f s s1 dr Hs Hst Hown).
    by destruct (loss d (frame_id f) s1 dr) as [s2 dr2]. }
  destruct (leading_keyframe f) eqn:Ek; simpl in Er.
  - assert (Hp := shrink_purge d false s1 dr). destruct (purge_spec d false s1 dr) as (Hm & _ & Ht & _).
    destruct (purge d false s1 dr) as [s2 dr2]; simpl in *.
    assert (Hs2 : shrink d s s2) by (by eapply shrink_trans).
    assert (Ho2 : own d (messages s2) = []) by (rewrite Hm, own_kept; by rewrite decide_True).
    destruct (no_room _ _ _) eqn:En.
    { assert (H := lost_frame it d f s s2 dr2 Hs2 ltac:(by rewrite Ht) (fun _ => Ho2)).
      by destruct (loss d (frame_id f) s2 dr2) as [s3 dr3]. }
    destruct (_ || _); simpl.
    + eapply (push_queued _ _ _ _ _ s2); simpl; rewrite ?array_set_eq, ?Ek; simpl; rewrite ?Ht; try done.
      * unfold entry_of; by rewrite Ek.
      * intros d' Hd; by rewrite array_set_ne.
    + eapply (push_queued _ _ _ _ _ s2); simpl; rewrite ?Ek, ?Ht; try done.
      unfold entry_of; by rewrite Ek.
  - destruct (no_room _ _ _) eqn:En.
    { assert (H := lost_frame it d f s s1 dr Hs Hst Hown).
      by destruct (loss d (frame_id f) s1 dr) as [s2 dr2]. }
    simpl. assert (Hst0 : stream (tracks s d) = Some (stream_id f)).
    { destruct (bool_decide (stream (tracks s d) = Some (stream_id f))) eqn:Eb; bools; [done|].
      destruct Hcase as [_ Hc]; simpl in Hc; congruence. }
    rewrite bool_decide_true in Hcase by done; subst s1.
    eapply (push_queued _ _ _ _ _ s); simpl; rewrite ?Ek; try done.
    unfold entry_of; by rewrite Ek.
Qed.

(** ** Runs *)

Inductive Op :=
  | Push (it : Queued)
  | Pop
  | Lose (it : Queued)
  | SetDisplays (l : list nat)
  | RecoveryDue (now : instant).

Definition exec (o : Op) (s : State) : option Entry * State :=
  match o with
  | Push it => (None, (push it s).2)
  | Pop => pop s
  | Lose it => (None, (lose it s).2)
  | SetDisplays l => (None, (set_displays l s).2)
  | RecoveryDue now => (None, (recovery_due now s).2)
  end.

(** A run keeps the log of what was pushed and what was popped. *)
Record Run := { state : State; pushed : list Queued; popped : list Queued }.

Definition run_step (r : Run) (o : Op) : Run :=
  let '(e, s) := exec o (state r) in
  {| state := s;
     pushed := match o with Push it => pushed r ++ [it] | _ => pushed r end;
     popped := match e with Some e => popped r ++ [item e] | None => popped r end |}.

Definition runs (os : list Op) : Run :=
  foldl run_step {| state := new; pushed := []; popped := [] |} os.

Lemma runs_invariant (I : Run -> Prop) os :
  I {| state := new; pushed := []; popped := [] |} ->
  (forall r o, I r -> I (run_step r o)) -> I (runs os).
Proof.
  intros H0 Hs; unfold runs. generalize dependent {| state := new; pushed := []; popped := [] |}.
  induction os as [|o os IH]; intros r Hr; simpl; auto.
Qed.

Lemma set_display_shrink l d s dr : shrink d s (set_display l d s dr).1.
Proof.
  unfold set_display.
  assert (H1 : shrink d s (if t_enabled (tracks s d) && negb (bool_decide (d ∈ l))
    then let '(s, drops) := purge d false s dr in
         (set_track d (tracks s d <| recovering := false |>) s, drops) else (s, dr)).1).
  { destruct (_ && _); [|apply shrink_refl]. assert (H := shrink_purge d false s dr).
    destruct (purge d false s dr) as [s1 dr1]; simpl in *.
    eapply shrink_trans; [exact H|by apply shrink_track]. }
  destruct (if t_enabled (tracks s d) && negb (bool_decide (d ∈ l)) then _ else _) as [s1 dr1];
    simpl in *.
  eapply shrink_trans; [exact H1|]. destruct (negb (t_enabled (tracks s1 d)) && _).
  - eapply shrink_trans; [|by apply shrink_track]. by apply shrink_track.
  - by apply shrink_track.
Qed.

(** [set_displays] visits every display once. *)
Lemma set_displays_invariant (I : State -> Prop) l s :
  (forall d s dr, I s -> I (set_display l d s dr).1) -> I s -> I (set_displays l s).2.
Proof.
  intros Hs Hi; unfold set_displays. generalize (seq 0 DISPLAYS) as ds; generalize no_drops as dr.
  assert (H : forall ds dr s, I s ->
    I (foldl (fun '(s, drops) d => set_display l d s drops) (s, dr) ds).1).
  { intros ds; induction ds as [|d ds IH]; intros dr s0 H0; [done|]; simpl.
    specialize (Hs d s0 dr H0); destruct (set_display l d s0 dr) as [s1 dr1]; by apply IH. }
  intros dr ds; specialize (H ds dr s Hi).
  by destruct (foldl _ (s, dr) ds) as [s1 dr1].
Qed.

Lemma push_frame_inv it d f s : (d < DISPLAYS)%nat -> inv s -> inv (push_frame it d f s).2.
Proof.
  intros Hd Hi; destruct (push_frame_spec it d f s) as [-> _|Hs _ _ _ _|s1 Hs Hr Hm Hb Hc _ Ht Hdef _ _ _];
    [done|by eapply shrink_inv|].
  destruct (shrink_inv _ _ _ Hs Hi) as [I1 I2 I3 I4]; split.
  - rewrite Hb, Hm, sum_bytes_app, I1; simpl; lia.
  - rewrite Hm; eapply (bounds_push_frame _ _ d (compute_size it.2) 0); try done.
    + apply N2Z.is_nonneg.
    + unfold no_room in *; simpl; by rewrite <- I1.
  - by rewrite Hc.
  - intros d'; destruct (decide (d' = d)) as [->|]; [apply Hdef, I4|by rewrite Ht].
Qed.

Lemma display_index_bound f d : display_index f = Some d -> (d < DISPLAYS)%nat.
Proof.
  unfold display_index; destruct (_ && _) eqn:E; [|done]; intros [= <-].
  apply andb_true_iff in E as [?%Z.leb_le ?%Z.ltb_lt]; lia.
Qed.

Lemma push_inv it s : inv s -> inv (push it s).2.
Proof.
  intros Hi; unfold push; destruct (video it.2) as [f|]; simpl.
  - destruct (display_index f) as [d|] eqn:E; [|done].
    apply push_frame_inv; [by eapply display_index_bound|done].
  - unfold push_barrier; destruct (_ || _) eqn:E; [by destruct Hi|].
    rewrite !orb_false_iff, Z.eqb_neq, !Z.ltb_ge in E; destruct E as ((E1 & E2) & E3).
    destruct Hi as [I1 I2 I3 I4]; split; simpl; try done.
    + rewrite sum_bytes_app; simpl; lia.
    + apply bounds_push_barrier; simpl; try done; [split; [apply N2Z.is_nonneg|done]|].
      with_constants; unfold sat_add in E3; lia.
Qed.

Lemma pop_pass_inv b s : inv s -> (cursor (pop_pass b s).2 < DISPLAYS)%nat /\
  forall d, 0 <= deficit (tracks (pop_pass b s).2 d).
Proof.
  intros [_ _ Hc Hd]; destruct (next_cursor (cursor s) Hc) as [Hn _].
  assert (Hset : forall n f, 0 <= n -> (forall d, 0 <= deficit (f d)) -> forall t d,
    0 <= deficit (array_set (cursor s) (t <| deficit := n |>) f d)).
  { intros n f Hn0 Hf t d; unfold array_set; by case_decide. }
  unfold pop_pass; cbn -[DISPLAYS].
  destruct (position _ _) as [i|] eqn:Ep; [|split; [done|by apply Hset]].
  set (cr := if continuing s then _ else _).
  assert (Hcr : 0 <= cr).
  { subst cr; with_constants; specialize (Hd (cursor s)); unfold sat_add; destruct (continuing s); lia. }
  destruct (Z.leb_spec (map_or (messages s !! i) 0 e_bytes) cr); [|split; [done|by apply Hset]].
  unfold remove; cbn -[DISPLAYS]. destruct (messages s !! i) as [e|]; simpl in *;
    (split; [done|apply Hset; [lia|done]]).
Qed.

Lemma pop_loop_inv n s :
  inv s -> let b := reachable_entries (messages s) in
  (cursor (pop_loop n b s).2 < DISPLAYS)%nat /\ forall d, 0 <= deficit (tracks (pop_loop n b s).2 d).
Proof.
  revert s; induction n as [|n IH]; intros s Hi b; [split; apply Hi|].
  cbn [pop_loop]; assert (Hp := pop_pass_inv b s Hi). assert (Hs := pop_pass_spec s).
  cbv zeta in Hs; fold b in Hs. destruct (pop_pass b s) as [[r|] s1]; [done|].
  destruct Hs as (Hm & Hb & _); destruct Hp as [Hc Hd]; specialize (IH s1); cbv zeta in IH.
  rewrite Hm in IH; apply IH; destruct Hi as [I1 I2 _ _]; split; try done; by rewrite Hm, ?Hb.
Qed.

Lemma pop_inv s : inv s -> inv (pop s).2.
Proof.
  intros Hi; assert (Hs := pop_spec s).
  assert (Hcd : (cursor (pop s).2 < DISPLAYS)%nat /\ forall d, 0 <= deficit (tracks (pop s).2 d)).
  { unfold pop; destruct (messages s) as [|e l] eqn:Hm; [split; apply Hi|].
    destruct (is_barrier e).
    - unfold remove; rewrite Hm; simpl; split; apply Hi.
    - rewrite <- Hm; by apply pop_loop_inv. }
  destruct (pop s) as [[e|] s']; simpl in *; destruct Hcd as [Hc Hd].
  - destruct Hs as (l1 & l2 & [Hl _] & Hm & Hb & _). eapply inv_shrink; try done.
    + rewrite Hl, Hm; apply sublist_app; [done|by apply sublist_cons].
    + rewrite Hl, Hm, !sum_bytes_app; simpl; lia.
  - destruct Hs as (Hm & Hb & _); destruct Hi as [I1 I2 _ _]; split; try done; rewrite Hm; [lia|done].
Qed.

Lemma lose_shrink it s d f :
  video it.2 = Some f -> display_index f = Some d -> shrink d s (lose it s).2.
Proof.
  unfold lose; intros -> ->. case_bool_decide; [|apply shrink_refl].
  assert (H' := shrink_loss d (frame_id f) s no_drops).
  by destruct (loss d (frame_id f) s no_drops).
Qed.

Lemma exec_inv o s : inv s -> inv (exec o s).2.
Proof.
  intros Hi; destruct o as [it| |it|l|now]; simpl.
  - by apply push_inv.
  - by apply pop_inv.
  - destruct (video it.2) as [f|] eqn:Ev; [|unfold lose; by rewrite Ev].
    destruct (display_index f) as [d|] eqn:Ed; [|unfold lose; by rewrite Ev, Ed].
    eapply shrink_inv; [by eapply lose_shrink|done].
  - apply set_displays_invariant; [|done]. intros d s0 dr H0.
    eapply shrink_inv; [apply set_display_shrink|done].
  - destruct Hi as [I1 I2 I3 I4]; split; try done; simpl. intros d; destruct (track_due _ _); apply I4.
Qed.

Lemma bounds_nil : bounds [].
Proof.
  with_constants; split; try constructor; unfold own_frames, own_bytes; simpl; try (intros; lia).
  unfold pending_displays; rewrite count_if_zero by done; lia.
Qed.

Lemma runs_inv os : inv (state (runs os)).
Proof.
  apply (runs_invariant (fun r => inv (state r))).
  - split; [done|apply bounds_nil|unfold DISPLAYS; simpl; lia|done].
  - intros r o Hi; apply (exec_inv o) in Hi; unfold run_step.
    by destruct (exec o (state r)).
Qed.

(** C33. Bounded memory: after any sequence of pushes, pops, reported losses and
    display changes, the queue holds at most 72 messages (64 of them video) and
    64 MiB, the byte count kept is the sum of the queued sizes, no display has
    more than four frames or 16 MiB queued, and at most 16 displays have any. *)
Theorem queue_bounded os :
  let s := state (runs os) in
  bytes s = sum_bytes (messages s) /\ bytes s <= 67108864 /\
  Z.of_nat (length (messages s)) <= 72 /\ count_if is_video (messages s) <= 64 /\
  pending_displays (messages s) <= 16 /\
  forall d, own_frames d (messages s) <= 4 /\ own_bytes d (messages s) <= 16777216.
Proof.
  cbv zeta; destruct (runs_inv os) as [H1 [B1 B2 B3 B4 B5 B6 B7] _ _].
  with_constants; split_and!; try done; try lia; intros d; specialize (B5 d); specialize (B6 d); lia.
Qed.

Lemma pop_live s : inv s -> messages s <> [] -> (pop s).1 <> None.
Proof.
  intros [H1 H2 H3 H4] Hn; unfold pop; destruct (messages s) as [|e l] eqn:Hm; [done|].
  destruct (is_barrier e) eqn:Hb; [unfold remove; by rewrite Hm|].
  unfold is_barrier in Hb; destruct (display e) as [d|] eqn:Hd; [|done].
  assert (He := b_entries _ H2); apply Forall_cons in He as [[He1 He2] _].
  specialize (He2 d Hd); assert (Hdb := dist_bounds (cursor s) d H3 He2). with_constants.
  eapply (pop_loop_live PASSES _ s e l d 256); try done; try lia.
  - simpl; unfold is_barrier at 1; rewrite Hd; simpl.
    destruct (position is_barrier l); simpl; lia.
  - specialize (H4 d); lia.
  - assert (Hp : Z.of_nat PASSES = 16448) by (by vm_compute). rewrite Hp. destruct (_ && _); lia.
Qed.

(** C31. The receiver is never starved and order is kept: on a queue that is not
    empty [pop] returns an entry, within the passes the code allows; a barrier
    leaves only from the front, a frame only if no barrier and no frame of its
    own display is before it; and the rest of the queue stays in order. *)
Theorem pop_serves os :
  let s := state (runs os) in
  match pop s with
  | (None, s') => messages s = [] /\ messages s' = []
  | (Some e, s') => exists l1 l2,
      messages s = l1 ++ e :: l2 /\ messages s' = l1 ++ l2 /\
      (is_barrier e = true -> l1 = []) /\
      (forall d, display e = Some d -> barriers l1 = [] /\ own d l1 = [])
  end.
Proof.
  intros s; assert (Hl := pop_live s (runs_inv os)); assert (Hs := pop_spec s).
  destruct (pop s) as [[e|] s']; simpl in *.
  - destruct Hs as (l1 & l2 & (Hl1 & Hb & Ho & Hf) & Hm & _). exists l1, l2; split_and!; try done.
    intros d Hd; split; [|by apply Ho]. clear -Hb; induction Hb as [|x l Hx _ IH]; [done|].
    unfold barriers in *; rewrite filter_cons_False; [done|congruence].
  - destruct Hs as (-> & _); destruct (messages s); [done|]. exfalso; by apply Hl.
Qed.

(** ** What the receiver can decode *)

Definition on (d : nat) (it : Queued) : Prop := video it.2 ≫= display_index = Some d.
#[export] Instance on_dec d it : Decision (on d it).
Proof. unfold on; apply _. Defined.
Definition item_stream (it : Queued) : Z := map_or (video it.2) 0 stream_id.
Definition item_key (it : Queued) : bool := is_some_and (video it.2) leading_keyframe.

(** The frames of a display, and those of one of its streams. *)
Definition frames (d : nat) (l : list Queued) : list Queued := filter (on d) l.
Definition stream_frames (d : nat) (st : Z) (l : list Queued) : list Queued :=
  filter (fun it => on d it /\ item_stream it = st) l.

(** [y] is the frame that was pushed just before [x] in its stream: the one a
    delta [x] refers to. *)
Definition predecessor (d : nat) (P : list Queued) (y x : Queued) : Prop :=
  exists P1 P2, stream_frames d (item_stream x) P = P1 ++ y :: x :: P2.

(** Every delta in [L] directly follows the frame it refers to. *)
Definition linked (d : nat) (P L : list Queued) : Prop :=
  forall i x, L !! i = Some x -> item_key x = false ->
  exists j y, i = S j /\ L !! j = Some y /\ predecessor d P y x.

Lemma predecessor_mono d P it y x : predecessor d P y x -> predecessor d (P ++ [it]) y x.
Proof.
  intros (P1 & P2 & H); unfold predecessor, stream_frames in *; rewrite filter_app, H.
  eexists P1, (P2 ++ _); by rewrite <- app_assoc.
Qed.

Lemma linked_mono d P it L : linked d P L -> linked d (P ++ [it]) L.
Proof.
  intros H i x Hi Hx; destruct (H i x Hi Hx) as (j & y & ? & ? & ?).
  exists j, y; auto using predecessor_mono.
Qed.

Lemma linked_keys d P D Q Q' :
  linked d P (D ++ Q) -> Forall (fun x => item_key x = true) Q' -> linked d P (D ++ Q').
Proof.
  intros H HQ i x Hi Hx; apply lookup_app_Some in Hi as [Hi|[_ Hi]].
  - destruct (H i x) as (j & y & -> & Hj & Hp); [by apply lookup_app_l_Some|done|].
    exists j, y; split_and!; try done. apply lookup_lt_Some in Hi.
    rewrite lookup_app_l in Hj |- * by lia; done.
  - rewrite Forall_lookup in HQ; specialize (HQ _ _ Hi); congruence.
Qed.

Lemma linked_snoc d P L x :
  linked d P L ->
  (item_key x = true \/ exists y, last L = Some y /\ predecessor d P y x) -> linked d P (L ++ [x]).
Proof.
  intros H Hx i z Hi Hz; apply lookup_app_Some in Hi as [Hi|[Hl Hi]].
  - destruct (H i z Hi Hz) as (j & y & -> & Hj & Hp); exists j, y; split_and!; try done.
    by apply lookup_app_l_Some.
  - apply list_lookup_singleton_Some in Hi as [Hi <-]; destruct Hx as [|(y & Hy & Hp)]; [congruence|].
    rewrite last_lookup in Hy. destruct L as [|a L]; [done|]; simpl in Hy, Hl, Hi.
    exists (length L), y; split_and!; [lia| |done].
    rewrite lookup_app_l by (simpl; lia); done.
Qed.

Lemma predecessor_snoc d P y x :
  on d x -> last (stream_frames d (item_stream x) P) = Some y -> predecessor d (P ++ [x]) y x.
Proof.
  intros Hx Hl; apply last_Some in Hl as [P1 Hl]; exists P1, [].
  unfold stream_frames in *; rewrite filter_app, Hl, filter_cons_True by done.
  rewrite filter_nil; by rewrite <- app_assoc.
Qed.

(** An entry carries what its message says. *)
Definition faithful (e : Entry) : Prop :=
  match display e with
  | Some d => exists f, video (item e).2 = Some f /\ display_index f = Some d /\
                        e = entry_of (item e) d f
  | None => video (item e).2 = None
  end.

Definition queued (d : nat) (s : State) : list Queued := item <$> own d (messages s).

(** The invariant of one display: its queued frames belong to its current stream;
    delivered and queued frames are linked; and while it is not recovering, the
    last frame pushed to its stream is the last one delivered or queued. *)
Record reference (d : nat) (P D : list Queued) (s : State) : Prop := {
  rf_faithful : Forall faithful (messages s);
  rf_stream : Forall (fun x => stream (tracks s d) = Some (item_stream x)) (queued d s);
  rf_linked : linked d P (frames d D ++ queued d s);
  rf_current : forall st,
    t_enabled (tracks s d) = true -> recovering (tracks s d) = false ->
    stream (tracks s d) = Some st ->
    exists y, last (stream_frames d st P) = Some y /\ last (frames d D ++ queued d s) = Some y;
}.

Lemma faithful_own d e :
  faithful e -> is_own d e = true -> on d (item e) /\ item_key (item e) = key e.
Proof.
  unfold is_own, on, item_key, faithful; intros Hf Ho; bools; rewrite Ho in Hf.
  destruct Hf as (f & -> & Hd & He); simpl; split; [done|]. by rewrite He.
Qed.

Lemma queued_keys d s :
  Forall faithful (messages s) -> Forall (fun e => key e = true) (own d (messages s)) ->
  Forall (fun x => item_key x = true) (queued d s).
Proof.
  intros Hf Hk; apply Forall_fmap; rewrite !Forall_forall in *; intros e He; simpl.
  specialize (Hk e He); apply list_elem_of_filter in He as [Ho He].
  destruct (faithful_own d e); [auto|done|congruence].
Qed.

Lemma faithful_sublist l l' : l `sublist_of` l' -> Forall faithful l' -> Forall faithful l.
Proof. intros Hs; rewrite !Forall_forall; intros H e He; eapply H, elem_of_sublist; eauto. Qed.

(** Work on another display changes nothing here. *)
Lemma reference_other d d' P D s s' :
  d <> d' -> shrink d' s s' -> reference d P D s -> reference d P D s'.
Proof.
  intros Hne Hs [R1 R2 R3 R4]; unfold queued in *.
  assert (Ho := sh_own _ _ _ Hs d Hne); assert (Ht := sh_tracks _ _ _ Hs d Hne).
  split; unfold queued; rewrite ?Ho, ?Ht; try done.
  eapply faithful_sublist; [apply (sh_sublist _ _ _ Hs)|done].
Qed.

(** Losing the deltas of the display, or all its frames, when it then waits for a
    keyframe. *)
Lemma reference_lost d P D s s' :
  shrink d s s' -> Forall (fun e => key e = true) (own d (messages s')) ->
  (own d (messages s') = [] \/
   stream (tracks s' d) = stream (tracks s d) /\
   own d (messages s') `sublist_of` own d (messages s)) ->
  t_enabled (tracks s' d) && negb (recovering (tracks s' d)) = false ->
  reference d P D s -> reference d P D s'.
Proof.
  intros Hs Hk Ho He [R1 R2 R3 R4].
  assert (Hf : Forall faithful (messages s'))
    by (eapply faithful_sublist; [apply (sh_sublist _ _ _ Hs)|done]).
  split; [done| | |].
  - unfold queued in *; destruct Ho as [-> |[-> Hsub]]; [done|].
    rewrite Forall_fmap, Forall_forall in R2 |- *. intros e He'; apply R2.
    by eapply elem_of_sublist.
  - eapply linked_keys; [exact R3|by apply queued_keys].
  - intros st E1 E2; by rewrite E1, E2 in He.
Qed.

(** A push of a frame the display's track does not wait for. *)
Lemma reference_log d P D s it :
  (on d it -> t_enabled (tracks s d) && negb (recovering (tracks s d)) = true ->
   stream (tracks s d) <> Some (item_stream it)) ->
  reference d P D s -> reference d (P ++ [it]) D s.
Proof.
  intros Hi [R1 R2 R3 R4]; split; try done; [by apply linked_mono|].
  intros st E1 E2 E3; destruct (R4 st E1 E2 E3) as (y & Hy & Hy'); exists y; split; [|done].
  unfold stream_frames in *; rewrite filter_app, filter_cons_False, filter_nil, app_nil_r; [done|].
  intros [Hon Hst]. rewrite E1, E2 in Hi; apply Hi; [done|done|congruence].
Qed.

Lemma on_display it d f : video it.2 = Some f -> display_index f = Some d ->
  (forall d', on d' it <-> d' = d) /\ item_stream it = stream_id f /\ item_key it = leading_keyframe f.
Proof. unfold on, item_stream, item_key; intros -> Hd; simpl; rewrite Hd; naive_solver. Qed.

Lemma queued_snoc d d' s s1 e :
  messages s = messages s1 ++ [e] -> display e = Some d' ->
  queued d s = queued d s1 ++ if decide (d = d') then [item e] else [].
Proof.
  intros Hm He; unfold queued, own; rewrite Hm, filter_app, fmap_app; f_equal.
  unfold is_own; case_decide.
  - rewrite filter_cons_True by (rewrite bool_decide_true; congruence); done.
  - rewrite filter_cons_False by (rewrite bool_decide_false; congruence); done.
Qed.

Lemma reference_push_frame it d0 f d P D s :
  video it.2 = Some f -> display_index f = Some d0 ->
  reference d P D s -> reference d (P ++ [it]) D (push_frame it d0 f s).2.
Proof.
  intros Hv Hd0 HR; destruct (on_display it d0 f Hv Hd0) as (Hon & Hst & Hkey).
  destruct (push_frame_spec it d0 f s) as [-> Hw|Hs Hk Hnew Hrec Hstr
    |s1 Hs _ Hm _ _ _ Ht _ Hstr Hen Hcase].
  - apply reference_log; [|done]. rewrite Hon, Hst; intros -> He; bools.
    destruct Hw as [Hw|(old & Hw & Hlt)]; [congruence|]. rewrite Hw; intros [= ->]; lia.
  - destruct (decide (d = d0)) as [->|Hne].
    + apply reference_log; [rewrite Hrec, andb_false_r; done|].
      eapply reference_lost; [exact Hs|done| |by rewrite Hrec, andb_false_r|done].
      destruct (decide (stream (tracks s d0) = Some (stream_id f))); [right|left; auto].
      split; [congruence|]. apply filter_sublist_mono, (sh_sublist _ _ _ Hs).
    + apply reference_log; [rewrite Hon; done|]. by eapply reference_other.
  - assert (He : faithful (entry_of it d0 f)) by (by exists f).
    destruct (decide (d = d0)) as [->|Hne].
    2: { assert (HR1 := reference_other d d0 _ _ _ _ Hne Hs HR).
         apply (reference_log _ _ _ _ it) in HR1 as [R1 R2 R3 R4]; [|by rewrite Hon].
         assert (Hq := queued_snoc d d0 _ s1 _ Hm eq_refl). rewrite decide_False, app_nil_r in Hq by done.
         split; rewrite ?Hq, ?Ht by done; try done.
         rewrite Hm; apply Forall_app; by repeat constructor. }
    assert (Hq := queued_snoc d0 d0 _ s1 _ Hm eq_refl). rewrite decide_True in Hq by done; simpl in Hq.
    assert (Hf : Forall faithful (messages (push_frame it d0 f s).2)).
    { rewrite Hm; apply Forall_app; split; [|by repeat constructor].
      eapply faithful_sublist; [apply (sh_sublist _ _ _ Hs)|apply HR]. }
    destruct (leading_keyframe f) eqn:Ek.
    + split; [done| | |].
      * rewrite Hq; unfold queued; rewrite Hcase; simpl; constructor; [congruence|done].
      * rewrite Hq, app_assoc; apply linked_snoc; [|left; congruence].
        unfold queued; rewrite Hcase; simpl. apply linked_mono.
        eapply linked_keys; [apply HR|done].
      * intros st _ _ Hst'; exists it. rewrite Hq, app_assoc, last_snoc; split; [|done].
        unfold stream_frames; rewrite filter_app, filter_cons_True, filter_nil, last_snoc; [done|].
        split; [by apply Hon|congruence].
    + destruct Hcase as (-> & Hnr & Hs0). destruct HR as [R1 R2 R3 R4].
      destruct (R4 _ Hen Hnr Hs0) as (y & Hy & Hy'). split; [done| | |].
      * rewrite Hq; apply Forall_app; split; [|by repeat constructor; congruence].
        eapply Forall_impl; [exact R2|]. simpl; congruence.
      * rewrite Hq, app_assoc; apply linked_snoc; [by apply linked_mono|right].
        exists y; split; [done|]. apply predecessor_snoc; [by apply Hon|by rewrite Hst].
      * intros st _ _ Hst'; exists it. rewrite Hq, app_assoc, last_snoc; split; [|done].
        unfold stream_frames; rewrite filter_app, filter_cons_True, filter_nil, last_snoc; [done|].
        split; [by apply Hon|congruence].
Qed.

Definition same_reference (t t' : Track) : Prop :=
  stream t' = stream t /\ t_enabled t' = t_enabled t /\ recovering t' = recovering t.

(** The reference invariant depends on the queue through the frames of [d] and the
    three fields of its track. *)
Lemma reference_same d P D s s' :
  Forall faithful (messages s') -> queued d s' = queued d s ->
  same_reference (tracks s d) (tracks s' d) -> reference d P D s -> reference d P D s'.
Proof.
  intros Hf Hq (E1 & E2 & E3) [R1 R2 R3 R4]; split; rewrite ?Hq, ?E1, ?E2, ?E3; done.
Qed.

Lemma reference_push it d P D s :
  reference d P D s -> reference d (P ++ [it]) D (push it s).2.
Proof.
  intros HR; unfold push; destruct (video it.2) as [f|] eqn:Ev.
  - destruct (display_index f) as [d0|] eqn:Ed; simpl; [by apply reference_push_frame|].
    apply reference_log; [|done]. unfold on; rewrite Ev; simpl; congruence.
  - simpl; apply (reference_log d P D s it) in HR; [|unfold on; by rewrite Ev].
    unfold push_barrier; destruct (_ || _); [by destruct HR|].
    apply (reference_same d _ _ s); [| |done|exact HR]; simpl.
    + apply Forall_app; split; [apply HR|]. repeat constructor; done.
    + unfold queued, own; simpl; rewrite filter_app, filter_cons_False, filter_nil, app_nil_r; [done|].
      unfold is_own; by rewrite bool_decide_false.
Qed.

Lemma reference_pop d P D s :
  reference d P D s ->
  reference d P (match (pop s).1 with Some e => D ++ [item e] | None => D end) (pop s).2.
Proof.
  intros HR; assert (Hs := pop_spec s); destruct (pop s) as [[e|] s']; simpl.
  2: { destruct Hs as (Hm & _ & _ & Ht). apply (reference_same d _ _ s); [| | |exact HR].
       - rewrite Hm; apply HR.
       - unfold queued; by rewrite Hm.
       - destruct (Ht d) as (? & ? & ? & _); by split_and!. }
  destruct Hs as (l1 & l2 & (Hl & _ & Ho & _) & Hm & _ & _ & Ht).
  destruct HR as [R1 R2 R3 R4]; destruct (Ht d) as (E1 & E2 & E3 & _).
  assert (Hf : Forall faithful (messages s')).
  { eapply faithful_sublist; [|exact R1]. rewrite Hl, Hm. apply sublist_app; [done|by apply sublist_cons]. }
  assert (He : faithful e) by (rewrite Hl in R1; apply Forall_app in R1 as [_ R1]; by inversion R1).
  assert (Hsame : frames d (D ++ [item e]) ++ queued d s' = frames d D ++ queued d s /\
                  queued d s' `sublist_of` queued d s).
  { unfold frames; rewrite filter_app, <- app_assoc. unfold queued, own; rewrite Hl, Hm, !filter_app, !fmap_app.
    rewrite !filter_cons, !filter_nil.
    destruct (is_own d e) eqn:Eo.
    - destruct (faithful_own d e He Eo) as [Hon _]. rewrite (decide_True _ _ Hon), decide_True by done.
      unfold is_own in Eo; bools. specialize (Ho d Eo); unfold own in Ho; rewrite Ho; simpl.
      split; [done|by apply sublist_cons].
    - rewrite (decide_False (P := false = true)) by done; split; [|done].
      rewrite decide_False; [done|]. intros Hon; unfold faithful, on in *; unfold is_own in Eo.
      destruct (display e) as [d'|]; [|by rewrite He in Hon].
      destruct He as (f & Hv & Hd & _); rewrite Hv in Hon; simpl in Hon; bools; congruence. }
  destruct Hsame as [Hsame Hsub]; split; [done| | |]; rewrite ?Hsame, ?E1, ?E2, ?E3; try done.
  rewrite Forall_forall in R2 |- *; intros x Hx; eapply R2, elem_of_sublist; eauto.
Qed.

Lemma reference_lose it d P D s : reference d P D s -> reference d P D (lose it s).2.
Proof.
  intros HR; unfold lose; destruct (video it.2) as [f|]; [|done].
  destruct (display_index f) as [d0|]; [|done]. case_bool_decide as Hst; [|done].
  assert (Hs := shrink_loss d0 (frame_id f) s no_drops).
  assert (Ho := loss_own d0 (frame_id f) s no_drops).
  destruct (loss_spec d0 (frame_id f) s no_drops) as (_ & _ & _ & Hr & Hs' & _).
  destruct (loss d0 (frame_id f) s no_drops) as [s1 dr]; simpl in *.
  destruct (decide (d = d0)) as [->|]; [|by eapply reference_other].
  eapply reference_lost; [exact Hs| | |by rewrite Hr, andb_false_r|done].
  - rewrite Ho; apply keys_only_keys.
  - right; split; [done|]. rewrite Ho; apply sublist_filter.
Qed.

Lemma reference_set_display l d0 s dr d P D :
  reference d P D s -> reference d P D (set_display l d0 s dr).1.
Proof.
  intros HR; assert (Hs := set_display_shrink l d0 s dr).
  destruct (decide (d = d0)) as [<-|]; [|by eapply reference_other].
  revert Hs; unfold set_display; destruct (t_enabled (tracks s d)) eqn:Ee; case_bool_decide as Hin; simpl;
    rewrite ?Ee; simpl; intros Hs.
  - apply (reference_same d _ _ s); [apply HR|done| |exact HR]; simpl. rewrite array_set_eq. by repeat split.
  - destruct (purge_spec d false s dr) as (Hm & _).
    destruct (purge d false s dr) as [s1 dr1]; simpl in *. rewrite array_set_eq in *; simpl in *.
    rewrite andb_false_r in *; simpl in *.
    assert (Ho : own d (messages s1) = []) by (rewrite Hm, own_kept; by rewrite decide_True).
    eapply reference_lost; [exact Hs|simpl; by rewrite Ho|by left| |done].
    simpl; by rewrite !array_set_eq.
  - destruct HR as [R1 R2 R3 R4]; split; simpl; by rewrite ?array_set_eq.
  - apply (reference_same d _ _ s); [apply HR|done| |exact HR]; simpl. rewrite array_set_eq. by repeat split.
Qed.

Lemma reference_runs d os :
  let r := runs os in reference d (pushed r) (popped r) (state r).
Proof.
  apply (runs_invariant (fun r => reference d (pushed r) (popped r) (state r))).
  - by split.
  - intros r o HR; unfold run_step; destruct o as [it| |it|l|now]; simpl.
    + by apply reference_push.
    + apply reference_pop in HR. by destruct (pop (state r)) as [[e|] s].
    + by apply reference_lose.
    + apply (set_displays_invariant (fun s => reference d (pushed r) (popped r) s)); [|done].
      intros; by apply reference_set_display.
    + apply (reference_same d _ _ (state r)); [apply HR|done| |exact HR].
      unfold same_reference; simpl; by destruct (track_due _ _).
Qed.

(** C1. What is delivered can be decoded: whatever is dropped, reported lost,
    purged or switched off on the way, every delta frame delivered for a display
    directly follows, in that display's deliveries, the frame pushed just before
    it in the same stream, the one it refers to.  A delivered frame with no such
    reference is a keyframe. *)
Theorem decodable_delivery os d i x :
  frames d (popped (runs os)) !! i = Some x -> item_key x = false ->
  exists j y, i = S j /\ frames d (popped (runs os)) !! j = Some y /\
              predecessor d (pushed (runs os)) y x.
Proof.
  intros Hi Hx; destruct (reference_runs d os) as [_ _ HL _].
  destruct (HL i x) as (j & y & -> & Hj & Hp); [by apply lookup_app_l_Some|done|].
  exists j, y; split_and!; try done. apply lookup_lt_Some in Hi.
  rewrite lookup_app_l in Hj by lia; done.
Qed.

Definition demo_item (t : instant) (st fr : Z) (k : bool) : Queued :=
  (t, {| size_ := 1000; video := Some {| v_display := 0; stream_id := st; frame_id := fr;
           v_union := Some (H264s [ {| data := [Byte.x00]; f_key := k |} ]) |} |}).
Definition demo_ops : list Op :=
  [Push (demo_item 1 1 1 true); Push (demo_item 2 1 2 false); Pop; Pop;
   Push (demo_item 3 1 3 false); Lose (demo_item 3 1 3 false); Push (demo_item 4 1 4 false);
   Push (demo_item 5 1 5 true); Push (demo_item 6 1 6 false); Pop; Pop; Pop].

Lemma decodable_delivery_witness :
  map fst (popped (runs demo_ops)) = [1; 2; 5; 6] /\
  exists j y, 3%nat = S j /\ frames 0 (popped (runs demo_ops)) !! j = Some y /\
              predecessor 0 (pushed (runs demo_ops)) y (demo_item 6 1 6 false).
Proof.
  split; [by vm_compute|].
  apply (decodable_delivery demo_ops 0 3 (demo_item 6 1 6 false)); by vm_compute.
Defined.

(** ** Barriers *)

Lemma barriers_app l l' : barriers (l ++ l') = barriers l ++ barriers l'.
Proof. apply filter_app. Qed.
Lemma barriers_one e : barriers [e] = if is_barrier e then [e] else [].
Proof. unfold barriers; rewrite filter_cons, filter_nil; by destruct (is_barrier e). Qed.

(** Everything but pushing or popping a barrier keeps the barriers and the flag. *)
Definition same_barriers (s s' : State) : Prop :=
  barriers (messages s') = barriers (messages s) /\ fatal s' = fatal s.

Lemma shrink_barriers d s s' : shrink d s s' -> same_barriers s s'.
Proof. by intros []. Qed.

Lemma push_frame_barriers it d f s : same_barriers s (push_frame it d f s).2.
Proof.
  destruct (push_frame_spec it d f s) as [-> _|Hs _ _ _ _|s1 Hs _ Hm _ _ Hf _ _ _ _ _];
    [done|by eapply shrink_barriers|].
  destruct (shrink_barriers _ _ _ Hs) as [Hb Hf']; split; [|congruence].
  rewrite Hm, barriers_app, barriers_one; simpl; by rewrite app_nil_r.
Qed.

Lemma exec_barriers o s :
  match o with
  | Push it => video it.2 = None \/ same_barriers s (exec o s).2
  | Pop => True
  | _ => same_barriers s (exec o s).2
  end.
Proof.
  destruct o as [it| |it|l|now]; simpl; [|done|..].
  - unfold push; destruct (video it.2) as [f|]; [right|by left].
    destruct (display_index f); [apply push_frame_barriers|done].
  - unfold lose; destruct (video it.2) as [f|] eqn:Ev; [|done].
    destruct (display_index f) as [d|] eqn:Ed; [|done]. apply (shrink_barriers d).
    assert (H := lose_shrink it s d f Ev Ed); unfold lose in H; by rewrite Ev, Ed in H.
  - apply (set_displays_invariant (same_barriers s)); [|done].
    intros d s0 dr [H1 H2]. destruct (shrink_barriers _ _ _ (set_display_shrink l d s0 dr)).
    split; congruence.
  - done.
Qed.

Definition only (l : list Queued) : list Queued := filter (fun it => video it.2 = None) l.

Lemma only_app l l' : only (l ++ l') = only l ++ only l'.
Proof. apply filter_app. Qed.
Lemma only_one it : only [it] = match video it.2 with None => [it] | Some _ => [] end.
Proof. unfold only; rewrite filter_cons, filter_nil; by destruct (video it.2). Qed.

Lemma push_barrier_spec it s :
  fatal (push_barrier it s) = true \/
  barriers (messages (push_barrier it s)) =
    barriers (messages s) ++ [{| item := it; display := None; e_bytes := compute_size it.2;
                                 key := false; frame := 0 |}] /\
  fatal (push_barrier it s) = fatal s.
Proof.
  unfold push_barrier; destruct (_ || _); [by left|right]; simpl.
  by rewrite barriers_app, barriers_one.
Qed.

Definition accounted (r : Run) : Prop :=
  fatal (state r) = false ->
  only (pushed r) = only (popped r) ++ (item <$> barriers (messages (state r))).

Lemma accounted_same r s' P :
  same_barriers (state r) s' -> only P = only (pushed r) -> accounted r ->
  accounted {| state := s'; pushed := P; popped := popped r |}.
Proof. intros [Hb Hf] HP Ha; unfold accounted in *; simpl; by rewrite Hf, Hb, HP. Qed.

Lemma accounted_pop r :
  Forall faithful (messages (state r)) -> accounted r -> accounted (run_step r Pop).
Proof.
  intros Hfa Ha; unfold run_step; simpl; assert (Hs := pop_spec (state r)).
  destruct (pop (state r)) as [[e|] s']; unfold accounted in *; simpl.
  - destruct Hs as (l1 & l2 & (Hl & _ & _ & Hb) & Hm & _ & Hf & _). rewrite Hf, Hm; intros H.
    rewrite (Ha H), only_app, only_one, Hl, !barriers_app. rewrite Hl in Hfa.
    apply Forall_app in Hfa as [_ Hfa]; apply Forall_cons in Hfa as [He _].
    change (e :: l2) with ([e] ++ l2); rewrite barriers_app, barriers_one.
    unfold faithful, is_barrier in *; destruct (display e); simpl in *.
    + destruct He as (f & -> & _); by rewrite app_nil_r.
    + rewrite He, (Hb eq_refl); simpl; by rewrite <- app_assoc.
  - destruct Hs as (Hm & _ & Hf & _). by rewrite Hf, Hm.
Qed.

Lemma accounted_step r o :
  Forall faithful (messages (state r)) -> accounted r -> accounted (run_step r o).
Proof.
  intros Hfa Ha; assert (He := exec_barriers o (state r)).
  destruct o as [it| |it|l|now]; [|by apply accounted_pop|..]; unfold run_step; simpl in *;
    try (by apply accounted_same).
  destruct He as [Hv|He].
  - unfold push; rewrite Hv; simpl. destruct (push_barrier_spec it (state r)) as [Hf|[Hb Hf]];
      unfold accounted in *; simpl; [by rewrite Hf|].
    rewrite Hf, Hb, only_app, only_one, Hv, fmap_app; simpl; intros H.
    by rewrite (Ha H), app_assoc.
  - destruct (video it.2) eqn:Hv; [apply accounted_same; [done| |done]|].
    + by rewrite only_app, only_one, Hv, app_nil_r.
    + unfold push in *; rewrite Hv in *; simpl in *.
      destruct (push_barrier_spec it (state r)) as [Hf|[Hb Hf]]; unfold accounted in *; simpl; [by rewrite Hf|].
      rewrite Hf, Hb, only_app, only_one, Hv, fmap_app; simpl; intros H.
      by rewrite (Ha H), app_assoc.
Qed.

Lemma fatal_sticky o s : fatal s = true -> fatal (exec o s).2 = true.
Proof.
  intros Hf; assert (He := exec_barriers o s); destruct o as [it| |it|l|now]; simpl in *;
    [| |unfold same_barriers in He; destruct He; congruence..].
  - destruct He as [Hv|[_ ->]]; [|done]. unfold push; rewrite Hv; simpl.
    destruct (push_barrier_spec it s) as [|[_ ->]]; done.
  - assert (Hs := pop_spec s); destruct (pop s) as [[e|] s']; simpl.
    + destruct Hs as (? & ? & _ & _ & _ & -> & _); done.
    + destruct Hs as (_ & _ & -> & _); done.
Qed.

(** Ordering barriers are never dropped or reordered: unless the queue has
    failed (and then [recv] reports an error for good), the barriers pushed so far
    are those popped, followed by those still queued, in the order of the pushes. *)
Theorem barriers_lossless os :
  let r := runs os in
  (fatal (state r) = false ->
   only (pushed r) = only (popped r) ++ (item <$> barriers (messages (state r)))) /\
  (fatal (state r) = true -> recv (state r) = (RecvError, state r) /\
     forall os', fatal (state (foldl run_step r os')) = true).
Proof.
  cbv zeta; split; [|intros Hf; split; [unfold recv; by rewrite Hf|]].
  - assert (H : accounted (runs os) /\ reference 0 (pushed (runs os)) (popped (runs os)) (state (runs os)));
      [|by destruct H].
    split; [|apply (reference_runs 0 os)].
    enough (accounted (runs os) /\ Forall faithful (messages (state (runs os)))) by tauto.
    clear. induction os as [|o os IH] using rev_ind; [by split|].
    split; [|apply (reference_runs 0 (os ++ [o]))].
    unfold runs; rewrite foldl_snoc; fold (runs os). apply accounted_step; apply IH.
  - intros os'; revert Hf; generalize (runs os) as r; induction os' as [|o os' IH]; intros r Hf; [done|].
    simpl; apply IH; unfold run_step; assert (H := fatal_sticky o (state r) Hf).
    by destruct (exec o (state r)).
Qed.
