(* ===== verification/QuicAdmission.v ===== *)
(** * Admission of QUIC connections before authentication

    Models src/src/quic_transport/admission.rs: the counters of pending
    connections (in all and per source), the decision on an incoming
    connection, the ticket that releases its slot when dropped, and the two
    pools of authentication permits.  The counters are shared between the
    listener and the tickets behind a mutex; the tickets alive are part of the
    modelled system, so that what they release can be accounted for. *)

From S2P Require Import Prelude.

Definition MAX_QUIC_PENDING : Z := 32.
Definition MAX_QUIC_PENDING_PER_SOURCE : Z := 4.
Definition QUIC_RETRY_THRESHOLD : Z := 16.
Definition MAX_TRUSTED_PIN_AUTHENTICATIONS : Z := 16.
Definition MAX_FIRST_CONTACT_AUTHENTICATIONS : Z := 8.

Inductive IncomingDecision := DAdmit | DRetry | DRefuse.

Definition incoming_decision (pending pending_from_source : Z)
    (address_validated may_retry : bool) : IncomingDecision :=
  if (MAX_QUIC_PENDING <=? pending) || (MAX_QUIC_PENDING_PER_SOURCE <=? pending_from_source)
  then DRefuse
  else if negb address_validated &&
          ((QUIC_RETRY_THRESHOLD <=? pending) || (0 <? pending_from_source))
  then if may_retry then DRetry else DRefuse
  else DAdmit.

(** [std::net::IpAddr]: the 32 or 128 bits of the address. *)
Inductive IpAddr := V4 (a : Z) | V6 (a : Z).
#[export] Instance IpAddr_eq_dec : EqDecision IpAddr.
Proof. solve_decision. Defined.
#[export] Instance IpAddr_countable : Countable IpAddr.
Proof.
  refine (inj_countable' (fun i => match i with V4 a => inl a | V6 a => inr a end)
    (fun i => match i with inl a => V4 a | inr a => V6 a end) _); by intros [].
Defined.

(** [IpAddr::to_canonical]: an IPv4-mapped address (::ffff:a.b.c.d) is its IPv4. *)
Definition to_canonical (ip : IpAddr) : IpAddr :=
  match ip with
  | V6 a => if Z.shiftr a 32 =? 65535 then V4 (Z.land a 4294967295) else V6 a
  | V4 _ => ip
  end.

(** [segments[4..].fill(0)] clears the lower 64 bits. *)
Definition source_key (ip : IpAddr) : IpAddr :=
  match to_canonical ip with
  | V6 a => V6 (Z.shiftl (Z.shiftr a 64) 64)
  | ip => ip
  end.

Record PendingConnections := { total : Z; per_source : gmap IpAddr Z }.
#[export] Instance eta_PendingConnections : Eta PendingConnections := fun r =>
  Build_PendingConnections (total r) (per_source r).

Definition default_pending : PendingConnections := {| total := 0; per_source := ∅ |}.

(** [PendingTicket], with a note of whether the address had been validated. *)
Record PendingTicket := { source : IpAddr; validated : bool }.

Inductive Admission := Admitted_ (t : PendingTicket) | Retry | Refuse.

Definition from_source (s : IpAddr) (c : PendingConnections) : Z :=
  unwrap_or (per_source c !! s) 0.

(** [HandshakeAdmission::admit] *)
Definition admit_connection (ip : IpAddr) (address_validated may_retry : bool)
    (c : PendingConnections) : Admission * PendingConnections :=
  let s := source_key ip in
  match incoming_decision (total c) (from_source s c) address_validated may_retry with
  | DAdmit =>
      (Admitted_ {| source := s; validated := address_validated |},
       c <| total ::= Z.add 1 |> <| per_source ::= <[s := from_source s c + 1]> |>)
  | DRetry => (Retry, c)
  | DRefuse => (Refuse, c)
  end.

(** [Drop for PendingTicket] *)
Definition drop_ticket (t : PendingTicket) (c : PendingConnections) : PendingConnections :=
  let c := c <| total ::= fun n => sat_sub n 1 |> in
  match per_source c !! source t with
  | Some n =>
      if n - 1 =? 0 then c <| per_source ::= delete (source t) |>
      else c <| per_source ::= <[source t := n - 1]> |>
  | None => c
  end.

(** The authentication pools: free permits of the two semaphores. *)
Record AuthenticationPools := { trusted_pin : Z; first_contact : Z }.
#[export] Instance eta_AuthenticationPools : Eta AuthenticationPools := fun r =>
  Build_AuthenticationPools (trusted_pin r) (first_contact r).

Definition default_pools : AuthenticationPools :=
  {| trusted_pin := MAX_TRUSTED_PIN_AUTHENTICATIONS;
     first_contact := MAX_FIRST_CONTACT_AUTHENTICATIONS |}.

Definition try_acquire (trusted : bool) (p : AuthenticationPools) : bool * AuthenticationPools :=
  if trusted then
    if 0 <? trusted_pin p then (true, p <| trusted_pin ::= fun n => n - 1 |>) else (false, p)
  else
    if 0 <? first_contact p then (true, p <| first_contact ::= fun n => n - 1 |>) else (false, p).

(** ** The listener with its live tickets *)

Record System := { counters : PendingConnections; next_id : nat; live : gmap nat PendingTicket }.
#[export] Instance eta_System : Eta System := fun r =>
  Build_System (counters r) (next_id r) (live r).

Definition start : System := {| counters := default_pending; next_id := 0; live := ∅ |}.

Inductive Event :=
  | Incoming (ip : IpAddr) (address_validated may_retry : bool)
  | DropTicket (id : nat).

Definition step (s : System) (e : Event) : System :=
  match e with
  | Incoming ip v r =>
      let '(a, c) := admit_connection ip v r (counters s) in
      match a with
      | Admitted_ t => s <| counters := c |> <| live ::= <[next_id s := t]> |> <| next_id ::= S |>
      | _ => s <| counters := c |>
      end
  | DropTicket id =>
      match live s !! id with
      | Some t => s <| counters ::= drop_ticket t |> <| live ::= delete id |>
      | None => s
      end
  end.

Definition steps (es : list Event) : System := foldl step start es.

(** ** The counters are the live tickets *)

(** Live tickets that satisfy a predicate. *)
Definition tickets (p : PendingTicket -> bool) (m : gmap nat PendingTicket) : Z :=
  count_if (fun kv => p kv.2) (map_to_list m).

Definition from (s : IpAddr) (t : PendingTicket) : bool := bool_decide (source t = s).
Definition unvalidated (t : PendingTicket) : bool := negb (validated t).

Lemma tickets_insert p id t m :
  m !! id = None -> tickets p (<[id := t]> m) = tickets p m + Z.b2z (p t).
Proof.
  intros H; unfold tickets; rewrite (count_if_perm _ _ _ (map_to_list_insert m id t H)); simpl; lia.
Qed.

Lemma tickets_delete p id t m :
  m !! id = Some t -> tickets p m = tickets p (delete id m) + Z.b2z (p t).
Proof.
  intros H; rewrite <- (insert_delete_id m id t H) at 1.
  by rewrite tickets_insert by apply lookup_delete_eq.
Qed.

Lemma tickets_nonneg p m : 0 <= tickets p m.
Proof. apply count_if_bounds. Qed.

Lemma tickets_and p q m : tickets (fun t => p t && q t) m <= tickets p m.
Proof. apply count_if_mono; intros [k t]; simpl; by destruct (p t). Qed.

Record accounted (s : System) : Prop := {
  ac_total : total (counters s) = tickets (fun _ => true) (live s);
  ac_source : forall i, from_source i (counters s) = tickets (from i) (live s);
  ac_positive : forall i n, per_source (counters s) !! i = Some n -> 0 < n;
  ac_fresh : forall id t, live s !! id = Some t -> (id < next_id s)%nat;
  ac_max : total (counters s) <= MAX_QUIC_PENDING;
  ac_max_source : forall i, from_source i (counters s) <= MAX_QUIC_PENDING_PER_SOURCE;
  ac_unvalidated : tickets unvalidated (live s) <= QUIC_RETRY_THRESHOLD;
  ac_unvalidated_source : forall i,
    tickets (fun t => from i t && unvalidated t) (live s) <= 1;
}.

Lemma from_source_insert i j n c :
  from_source i (c <| per_source ::= <[j := n]> |>) = if decide (i = j) then n else from_source i c.
Proof.
  unfold from_source; simpl; case_decide as H; [subst; by rewrite lookup_insert_eq|].
  by rewrite lookup_insert_ne.
Qed.

Lemma incoming_admit n k v r :
  incoming_decision n k v r = DAdmit ->
  n < MAX_QUIC_PENDING /\ k < MAX_QUIC_PENDING_PER_SOURCE /\
  (v = false -> n < QUIC_RETRY_THRESHOLD /\ k <= 0).
Proof.
  unfold incoming_decision. destruct (_ || _) eqn:E1; [done|].
  apply orb_false_iff in E1 as [?%Z.leb_gt ?%Z.leb_gt].
  destruct v; simpl; [by split; [|split]|].
  destruct (_ || _) eqn:E2; [by destruct r|]. apply orb_false_iff in E2 as [?%Z.leb_gt ?%Z.ltb_ge].
  split; [done|split; [done|intros _; lia]].
Qed.

Lemma incoming_accounted ip v r s : accounted s -> accounted (step s (Incoming ip v r)).
Proof.
  intros [A1 A2 A3 A4 A5 A6 A7 A8]; simpl; unfold admit_connection.
  destruct (incoming_decision _ _ _ _) eqn:E; [|by split..].
  apply incoming_admit in E as (E1 & E2 & E3). set (src := source_key ip) in *.
  assert (Hn : live s !! next_id s = None).
  { destruct (live s !! next_id s) as [t|] eqn:H; [|done]. apply A4 in H; lia. }
  assert (Hunv : tickets unvalidated (live s) <= total (counters s)).
  { rewrite A1; apply count_if_mono; done. }
  split; simpl.
  - rewrite tickets_insert, <- A1 by done; simpl; lia.
  - intros i; rewrite tickets_insert by done; unfold from at 2; simpl. rewrite <- A2.
    unfold from_source; simpl.
    destruct (decide (i = src)) as [->|Hne].
    + rewrite lookup_insert_eq, bool_decide_true by done; done.
    + rewrite lookup_insert_ne, bool_decide_false by congruence; simpl; lia.
  - intros i n. destruct (decide (i = src)) as [->|Hne];
      [rewrite lookup_insert_eq|rewrite lookup_insert_ne by congruence; apply A3].
    intros [= <-]. rewrite A2; assert (H := tickets_nonneg (from src) (live s)); lia.
  - intros id t. destruct (decide (id = next_id s)) as [->|Hne]; [lia|].
    rewrite lookup_insert_ne by congruence; intros H%A4; lia.
  - lia.
  - intros i; unfold from_source in E2 |- *; simpl; destruct (decide (i = src)) as [->|Hne];
      [rewrite lookup_insert_eq|rewrite lookup_insert_ne by congruence; apply A6]; simpl; lia.
  - rewrite tickets_insert by done; unfold unvalidated at 2; simpl. destruct v; simpl; [lia|].
    destruct (E3 eq_refl); lia.
  - intros i; rewrite tickets_insert by done; unfold from at 2, unvalidated at 2; simpl.
    specialize (A8 i). case_bool_decide as Hi; simpl; [|lia].
    destruct v; simpl; [lia|]. destruct (E3 eq_refl) as [_ H0].
    rewrite A2 in H0. assert (H := tickets_and (from src) unvalidated (live s)); subst i; lia.
Qed.

Lemma drop_accounted id s : accounted s -> accounted (step s (DropTicket id)).
Proof.
  intros [A1 A2 A3 A4 A5 A6 A7 A8]; simpl; destruct (live s !! id) as [t|] eqn:Hid; [|by split].
  assert (Hd : forall p, tickets p (live s) = tickets p (delete id (live s)) + Z.b2z (p t))
    by (intros p; by apply tickets_delete).
  assert (Hsrc := A2 (source t)); rewrite (Hd (from (source t))) in Hsrc.
  unfold from in Hsrc at 2; rewrite bool_decide_true in Hsrc by done; simpl in Hsrc.
  assert (Hpos := tickets_nonneg (from (source t)) (delete id (live s))).
  destruct (per_source (counters s) !! source t) as [n|] eqn:Hn.
  2: { unfold from_source in Hsrc; rewrite Hn in Hsrc; simpl in Hsrc; lia. }
  assert (Hfs : from_source (source t) (counters s) = n) by (unfold from_source; by rewrite Hn).
  assert (Hnew : forall i, from_source i (drop_ticket t (counters s)) =
    from_source i (counters s) - Z.b2z (from i t)).
  { intros i; unfold drop_ticket; simpl; rewrite Hn; unfold from_source, from.
    destruct (Z.eqb_spec (n - 1) 0); simpl; case_bool_decide as Hi; simpl;
      [subst i; rewrite lookup_delete_eq, Hn|rewrite lookup_delete_ne by done
      |subst i; rewrite lookup_insert_eq, Hn|rewrite lookup_insert_ne by done]; simpl; lia. }
  assert (Htot : total (drop_ticket t (counters s)) = total (counters s) - 1).
  { unfold drop_ticket; simpl; rewrite Hn. assert (Ht := tickets_nonneg (fun _ => true) (delete id (live s))).
    specialize (Hd (fun _ => true)); simpl in Hd. unfold sat_sub.
    destruct (n - 1 =? 0); simpl; lia. }
  split; simpl.
  - rewrite Htot, A1, (Hd (fun _ => true)); simpl; lia.
  - intros i; rewrite Hnew, A2, (Hd (from i)); lia.
  - intros i m; unfold drop_ticket; simpl; rewrite Hn. destruct (Z.eqb_spec (n - 1) 0); simpl.
    + intros [_ H]%lookup_delete_Some; by apply (A3 i).
    + intros [[<- <-]|[_ H]]%lookup_insert_Some; [|by apply (A3 i)]. specialize (A3 _ _ Hn); lia.
  - intros id' t' [_ H]%lookup_delete_Some; by apply (A4 id' t').
  - lia.
  - intros i; rewrite Hnew; specialize (A6 i); destruct (from i t); simpl; lia.
  - rewrite (Hd unvalidated) in A7; destruct (unvalidated t); simpl in A7; lia.
  - intros i; specialize (A8 i); rewrite (Hd (fun t => from i t && unvalidated t)) in A8.
    destruct (from i t && unvalidated t); simpl in A8; lia.
Qed.

Lemma steps_accounted es : accounted (steps es).
Proof.
  unfold steps; assert (H : accounted start).
  { split; simpl; unfold tickets, from_source, MAX_QUIC_PENDING, MAX_QUIC_PENDING_PER_SOURCE,
      QUIC_RETRY_THRESHOLD; simpl; try done; intros; rewrite ?lookup_empty in *; simpl in *; try done; lia. }
  revert H; generalize start; induction es as [|e es IH]; intros s H; [done|]; simpl; apply IH.
  destruct e; [by apply incoming_accounted|by apply drop_accounted].
Qed.

(** Slots are accounted for exactly: whatever connections arrive and whichever
    tickets are dropped, the counters equal the live tickets, in all (at most 32)
    and per source (at most 4, with no entry left for a source that has none). *)
Theorem slots_accounted es i :
  let s := steps es in
  total (counters s) = tickets (fun _ => true) (live s) /\ total (counters s) <= 32 /\
  from_source i (counters s) = tickets (from i) (live s) /\ from_source i (counters s) <= 4 /\
  (per_source (counters s) !! i = None <-> tickets (from i) (live s) = 0).
Proof.
  intros s; destruct (steps_accounted es) as [A1 A2 A3 A4 A5 A6 A7 A8]; fold s in A1, A2, A3, A5, A6.
  do 4 (split; [auto|]). rewrite <- A2; unfold from_source.
  destruct (per_source (counters s) !! i) as [n|] eqn:E; simpl; [|done].
  specialize (A3 i n E); split; [done|lia].
Qed.

(** Spoofed packets cannot crowd out real peers: at any time at most 16 slots,
    and at most one of any source, are held by connections whose address was not
    validated; so a peer with a validated address and fewer than four pending
    connections is admitted whenever fewer than 32 are pending, while one without is told
    to retry or refused as soon as its source holds a slot. *)
Theorem spoofing_contained es ip r :
  let s := steps es in
  let i := source_key ip in
  tickets unvalidated (live s) <= 16 /\
  tickets (fun t => from i t && unvalidated t) (live s) <= 1 /\
  (tickets (fun _ => true) (live s) < 32 -> tickets (from i) (live s) < 4 ->
   (admit_connection ip true r (counters s)).1 = Admitted_ {| source := i; validated := true |}) /\
  (0 < tickets (from i) (live s) ->
   (admit_connection ip false r (counters s)) =
     (if r && (tickets (fun _ => true) (live s) <? 32) && (tickets (from i) (live s) <? 4)
      then Retry else Refuse, counters s)).
Proof.
  intros s i; destruct (steps_accounted es) as [A1 A2 A3 A4 A5 A6 A7 A8]; fold s in A1, A2, A7, A8.
  split_and!; [done|apply A8| |]; unfold admit_connection; fold i; rewrite A2, A1; unfold incoming_decision,
    MAX_QUIC_PENDING, MAX_QUIC_PENDING_PER_SOURCE.
  - intros H1 H2. apply Z.leb_gt in H1, H2; by rewrite H1, H2.
  - intros Hp; apply Z.ltb_lt in Hp; rewrite Hp, orb_true_r; rewrite !Z.ltb_antisym.
    destruct (32 <=? _), (4 <=? _); simpl; rewrite ?andb_false_r; try done; by destruct r.
Qed.

Lemma spoofing_contained_witness :
  let s := steps [Incoming (V4 7) false true; Incoming (V6 (65535 * 4294967296 + 7)) false true] in
  tickets (from (V4 7)) (live s) = 1 /\
  (admit_connection (V4 7) true false (counters s)).1 =
    Admitted_ {| source := V4 7; validated := true |} /\
  admit_connection (V4 7) false true (counters s) = (Retry, counters s).
Proof.
  intros s; split; [by vm_compute|].
  destruct (spoofing_contained
    [Incoming (V4 7) false true; Incoming (V6 (65535 * 4294967296 + 7)) false true] (V4 7) false)
    as (_ & _ & H1 & _).
  destruct (spoofing_contained
    [Incoming (V4 7) false true; Incoming (V6 (65535 * 4294967296 + 7)) false true] (V4 7) true)
    as (_ & _ & _ & H2).
  split; [apply H1; by vm_compute|]. apply H2; by vm_compute.
Defined.

(** Addresses of one IPv6 /64 share a source; an IPv4-mapped address shares it with
    its IPv4 address. *)
Lemma source_key_prefix a b :
  Z.shiftr a 32 <> 65535 -> Z.shiftr b 32 <> 65535 ->
  source_key (V6 a) = source_key (V6 b) <-> Z.shiftr a 64 = Z.shiftr b 64.
Proof.
  intros Ha%Z.eqb_neq Hb%Z.eqb_neq; unfold source_key, to_canonical; rewrite Ha, Hb.
  split; [|by intros ->]. intros [= H]. rewrite !Z.shiftl_mul_pow2 in H by lia.
  apply Z.mul_cancel_r in H; [done|lia].
Qed.

(** First contacts cannot use up the permits of peers with a trusted pin. *)
Lemma pools_separate trusted p :
  let p' := (try_acquire trusted p).2 in
  (if trusted then first_contact p' = first_contact p else trusted_pin p' = trusted_pin p).
Proof. unfold try_acquire; destruct trusted; by case_match. Qed.
