(* ===== verification/PeerSecurity.v ===== *)
(** * Journalled changes of peer trust

    Models src/src/common/peer_security_mutation.rs: forgetting a peer's pairing
    (or the peer altogether) touches several stores, so the change is written to
    a journal first and replayed until it is committed.  The backend trait is
    a class, with the system backend over the trusted-peer store and the peer
    configurations as its instance.  Those stores and the file system are code
    outside the repository: they are the operations of the class [Storage],
    whose laws are what an operation that succeeds has done, and that one which
    fails, or during which the process dies, has either done that or nothing - except
    that, where the storage does not promise to write files as a whole
    ([atomic_writes]), the file that was being written may be torn: a journal that
    cannot be read, a configuration whose options are lost. *)

From S2P Require Import Prelude.

Definition JOURNAL_VERSION : Z := 1.
Definition MAX_MUTATION_IDS : nat := 4096.
Definition MAX_MUTATION_ID_BYTES : nat := 1024.

Inductive PeerSecurityMutationKind := ResetPairing | RemovePeer.
#[export] Instance Kind_eq_dec : EqDecision PeerSecurityMutationKind.
Proof. solve_decision. Defined.

Record PeerSecurityMutationJournal := {
  version : Z;
  committed : bool;
  operation : PeerSecurityMutationKind;
  peer_config_id : string;
  config_ids : list string;
  quic_peer_ids : list string;
}.
#[export] Instance eta_Journal : Eta PeerSecurityMutationJournal := fun r =>
  Build_PeerSecurityMutationJournal (version r) (committed r) (operation r)
    (peer_config_id r) (config_ids r) (quic_peer_ids r).

(** [String::contains('\0')] *)
Fixpoint contains_nul (s : string) : bool :=
  match s with
  | EmptyString => false
  | String c s => bool_decide (c = Ascii.zero) || contains_nul s
  end.

Definition bad_id (id : string) : bool :=
  bool_decide (id = "") || (MAX_MUTATION_ID_BYTES <? String.length id)%nat || contains_nul id.

(** The loop of [validate_ids] with the set of ids seen so far. *)
Fixpoint ids_ok (unique : gset string) (ids : list string) : bool :=
  match ids with
  | [] => true
  | id :: ids =>
      if bad_id id || bool_decide (id ∈ unique) then false else ids_ok ({[id]} ∪ unique) ids
  end.
Definition validate_ids (ids : list string) : bool :=
  negb (MAX_MUTATION_IDS <? length ids)%nat && ids_ok ∅ ids.

Definition validate (j : PeerSecurityMutationJournal) : bool :=
  (version j =? JOURNAL_VERSION) && validate_ids (config_ids j) && validate_ids (quic_peer_ids j)
  && negb (bad_id (peer_config_id j) || negb (bool_decide (peer_config_id j ∈ config_ids j))).

(** ** Operations on the stores

    [Crash] is the death of the process: unlike an error, no code runs after it. *)

Inductive result (A : Type) := Ok (a : A) | Err | Crash.
Arguments Ok {A} a.
Arguments Err {A}.
Arguments Crash {A}.

Definition IO (W A : Type) : Type := W -> result A * W.
Definition ret {W A} (a : A) : IO W A := fun w => (Ok a, w).
Definition err {W A} : IO W A := fun w => (Err, w).
(** The question mark: an error, and a crash, end the function. *)
Definition bind {W A B} (m : IO W A) (f : A -> IO W B) : IO W B := fun w =>
  match m w with
  | (Ok a, w) => f a w
  | (Err, w) => (Err, w)
  | (Crash, w) => (Crash, w)
  end.
Notation "'let!' x := m 'in' f" := (bind m (fun x => f))
  (at level 10, x pattern, m at level 100, f at level 200).
Notation "m ;; f" := (bind m (fun _ => f)) (at level 100, f at level 200, right associativity).

Definition guard (b : bool) {W} : IO W unit := if b then ret () else err.

(** What the trusted-peer store says of a peer. *)
Record TrustedPeerRecord := { identity_key : list Z; certificate_pin : list Z }.
#[export] Instance TrustedPeerRecord_eq_dec : EqDecision TrustedPeerRecord.
Proof. solve_decision. Defined.
(** [PeerConfig::options] *)
Abbreviation Options := (gmap string string).
Inductive JournalFile := Absent | Corrupt | Holds (j : PeerSecurityMutationJournal).

Class Storage (W : Type) := {
  (** the stores as their readers see them *)
  records : W -> gmap string TrustedPeerRecord;
  configs : W -> gmap string Options;
  file : W -> JournalFile;
  (** whether a write of a file that does not succeed leaves it whole *)
  atomic_writes : bool;
  (** [FileTrustedPeerStore]: [new], [load_all] and [remove], the latter with
      [None] for an id the store cannot hold *)
  open_store : IO W unit;
  load_all : IO W (list (string * TrustedPeerRecord));
  store_remove : string -> IO W (option bool);
  (** [PeerConfig]: [load], [store_result] and [remove_result] *)
  config_load : string -> IO W Options;
  config_store : string -> Options -> IO W unit;
  config_remove : string -> IO W bool;
  (** the journal file: read and parse, store, remove *)
  read_file : IO W (option PeerSecurityMutationJournal);
  write_file : PeerSecurityMutationJournal -> IO W unit;
  remove_file : IO W unit;
}.

(** An operation that leaves the stores alone. *)
Definition reads {W} `{Storage W} {A} (m : IO W A) : Prop :=
  forall w, records (m w).2 = records w /\ configs (m w).2 = configs w /\ file (m w).2 = file w.
(** An operation whose effect [E] happens when it succeeds and may have happened
    when it does not. *)
Definition effect {W} `{Storage W} {A} (m : IO W A) (E : W -> A -> W -> Prop) : Prop :=
  forall w, match m w with
            | (Ok a, w') => E w a w'
            | (_, w') => (records w' = records w /\ configs w' = configs w /\ file w' = file w) \/
                         exists a, E w a w'
            end.

(** The same of the write of a file, which [T] may have torn. *)
Definition write_effect {W} `{Storage W} {A} (m : IO W A) (E : W -> A -> W -> Prop) (T : W -> W -> Prop) : Prop :=
  forall w, match m w with
            | (Ok a, w') => E w a w'
            | (_, w') => ((records w' = records w /\ configs w' = configs w /\ file w' = file w) \/
                          exists a, E w a w') \/
                         atomic_writes = false /\ T w w'
            end.

Class StorageLaws (W : Type) `{Storage W} := {
  open_store_reads : reads open_store;
  load_all_reads : reads load_all;
  load_all_spec w l : (load_all w).1 = Ok l -> l ≡ₚ map_to_list (records w);
  store_remove_effect id : effect (store_remove id) (fun w r w' =>
    configs w' = configs w /\ file w' = file w /\ records w' = delete id (records w) /\
    match r with
    | Some b => b = is_some (records w !! id)
    | None => records w !! id = None
    end);
  config_load_reads id : reads (config_load id);
  config_load_spec id w o : (config_load id w).1 = Ok o -> o = unwrap_or (configs w !! id) ∅;
  config_store_effect id o : write_effect (config_store id o) (fun w _ w' =>
    records w' = records w /\ file w' = file w /\ configs w' = <[id := o]> (configs w))
    (fun w w' => records w' = records w /\ file w' = file w /\ configs w' = delete id (configs w));
  config_remove_effect id : effect (config_remove id) (fun w b w' =>
    records w' = records w /\ file w' = file w /\ configs w' = delete id (configs w) /\
    b = is_some (configs w !! id));
  read_file_reads : reads read_file;
  read_file_spec w o : (read_file w).1 = Ok o ->
    match file w with Absent => o = None | Corrupt => False | Holds j => o = Some j end;
  write_file_effect j : write_effect (write_file j) (fun w _ w' =>
    records w' = records w /\ configs w' = configs w /\ file w' = Holds j)
    (fun w w' => records w' = records w /\ configs w' = configs w /\ file w' = Corrupt);
  remove_file_effect : effect remove_file (fun w _ w' =>
    records w' = records w /\ configs w' = configs w /\ file w' = Absent);
}.

(** ** The journal *)

Section journal.
Context {W : Type} `{Storage W}.

Definition string_sort (l : list string) : list string := merge_sort String.le l.

Definition same_identity (a b : TrustedPeerRecord) : bool := bool_decide (a = b).

(** [planned_quic_peer_ids]: every peer id with the identity and the pin of this one. *)
Definition planned_quic_peer_ids (peer_id : string) : IO W (list string) :=
  open_store ;;
  let! recs := load_all in
  ret (match list_find (fun r => r.1 = peer_id) recs with
       | None => []
       | Some (_, target) =>
           dedup (string_sort (fst <$> filter (fun r => same_identity r.2 target.2 = true) recs))
       end).

Definition peer_security_config_ids (peer_id : string) (aliases : list string) : list string :=
  dedup (string_sort (peer_id :: aliases)).

Definition prepare (peer_id : string) (op : PeerSecurityMutationKind)
    : IO W PeerSecurityMutationJournal :=
  let! quic := planned_quic_peer_ids peer_id in
  let j := {| version := JOURNAL_VERSION; committed := false; operation := op;
              peer_config_id := peer_id;
              config_ids := peer_security_config_ids peer_id quic;
              quic_peer_ids := quic |} in
  guard (validate j) ;; ret j.

Definition load_journal : IO W (option PeerSecurityMutationJournal) :=
  let! o := read_file in
  match o with
  | None => ret None
  | Some j => guard (validate j) ;; ret (Some j)
  end.

Definition persist_journal (j : PeerSecurityMutationJournal) : IO W unit := write_file j.

(** A failure to remove the file is only logged. *)
Definition cleanup_journal : IO W unit := fun w =>
  match remove_file w with
  | (Crash, w) => (Crash, w)
  | (_, w) => (Ok (), w)
  end.
End journal.

(** [PeerSecurityMutationBackend] *)
Class Backend (W : Type) := {
  remove_quic_ids : list string -> IO W (list string);
  clear_pairing : string -> IO W bool;
  remove_peer_config : string -> IO W bool;
}.

Definition pairing_options : list string :=
  ["pinned-signing-key"; "direct-paired-viewer-confirmed"; "rendezvous-paired-viewer-confirmed"].

(** [clear_peer_pairing_options]: whether an option was there, and the rest. *)
Definition clear_peer_pairing_options (o : Options) : bool * Options :=
  foldl (fun '(changed, o) k => (changed || is_some (o !! k), delete k o)) (false, o) pairing_options.

#[global] Arguments clear_peer_pairing_options : simpl never.

Section system.
Context {W : Type} `{Storage W}.

(** The loop of [forget_paired_peer_ids]. *)
Fixpoint forget_ids (ids : list string) : IO W (list string) :=
  match ids with
  | [] => ret []
  | id :: ids =>
      let! r := store_remove id in
      let! rest := forget_ids ids in
      ret (match r with Some true => id :: rest | _ => rest end)
  end.

Definition forget_paired_peer_ids (ids : list string) : IO W (list string) :=
  open_store ;; forget_ids ids.

Definition system_clear_pairing (id : string) : IO W bool :=
  let! o := config_load id in
  let c := clear_peer_pairing_options o in
  if c.1 then config_store id c.2 ;; ret true else ret false.

#[export] Instance SystemPeerSecurityMutationBackend : Backend W := {|
  remove_quic_ids := forget_paired_peer_ids;
  clear_pairing := system_clear_pairing;
  remove_peer_config := config_remove;
|}.
End system.

Record PeerSecurityMutationResult := {
  cleared_peer_config_ids : list string;
  removed_quic_peer_ids : list string;
  removed_peer_config : bool;
}.
Definition default_result : PeerSecurityMutationResult :=
  {| cleared_peer_config_ids := []; removed_quic_peer_ids := []; removed_peer_config := false |}.

Section mutation.
Context {W : Type} `{Storage W} `{Backend W}.

Fixpoint clear_pairings (ids : list string) : IO W (list string) :=
  match ids with
  | [] => ret []
  | id :: ids =>
      let! b := clear_pairing id in
      let! rest := clear_pairings ids in
      ret (if b then id :: rest else rest)
  end.

Definition apply_journal (j : PeerSecurityMutationJournal) : IO W PeerSecurityMutationResult :=
  let! quic := remove_quic_ids (quic_peer_ids j) in
  let! cleared := clear_pairings (config_ids j) in
  let! removed :=
    if bool_decide (operation j = RemovePeer) then remove_peer_config (peer_config_id j)
    else ret false in
  ret {| cleared_peer_config_ids := cleared; removed_quic_peer_ids := quic;
         removed_peer_config := removed |}.

Definition complete_journal (j : PeerSecurityMutationJournal)
    : IO W PeerSecurityMutationResult :=
  if committed j then cleanup_journal ;; ret default_result
  else
    let! r := apply_journal j in
    persist_journal (j <| committed := true |>) ;;
    cleanup_journal ;;
    ret r.

Definition recover_pending_with : IO W PeerSecurityMutationResult :=
  let! o := load_journal in
  match o with
  | Some j => complete_journal j
  | None => ret default_result
  end.

(** [PeerSecurityRepository::mutate], under the global lock. *)
Definition mutate (peer_id : string) (op : PeerSecurityMutationKind)
    : IO W PeerSecurityMutationResult :=
  recover_pending_with ;;
  let! j := prepare peer_id op in
  persist_journal j ;;
  complete_journal j.
End mutation.

(** ** The backend's contract *)

Definition clear (o : Options) : Options := (clear_peer_pairing_options o).2.
Definition pairing_free (o : Options) : Prop := forall k, k ∈ pairing_options -> o !! k = None.

Lemma clear_lookup o k :
  clear o !! k = if decide (k ∈ pairing_options) then None else o !! k.
Proof.
  unfold clear, clear_peer_pairing_options, pairing_options; simpl.
  case_decide as H.
  - rewrite !elem_of_cons in H; destruct H as [->|[->|[->|H]]]; [..|set_solver];
      by rewrite ?lookup_delete_eq; repeat (rewrite lookup_delete_ne by done; rewrite ?lookup_delete_eq).
  - rewrite !lookup_delete_ne by set_solver; done.
Qed.

Lemma clear_free o : pairing_free (clear o).
Proof. intros k Hk; rewrite clear_lookup; by rewrite decide_True. Qed.

Lemma clear_id o : pairing_free o -> clear o = o.
Proof.
  intros Ho; apply map_eq; intros k; rewrite clear_lookup; case_decide; [by rewrite Ho|done].
Qed.

Lemma clear_changed o : (clear_peer_pairing_options o).1 = false <-> pairing_free o.
Proof.
  unfold clear_peer_pairing_options, pairing_free, pairing_options; simpl.
  rewrite !orb_false_iff, !lookup_delete_ne, !is_some_false by done. split.
  - intros [[H1 H2] H3] k Hk; rewrite !elem_of_cons in Hk.
    destruct Hk as [->|[->|[->|Hk]]]; [done..|set_solver].
  - intros Hk; split_and!; apply Hk; set_solver.
Qed.

(** What a backend operation does, whatever its outcome, and when it succeeds. *)
Class BackendLaws (W : Type) `{Storage W} `{Backend W} := {
  remove_quic_ids_spec ids w :
    let w' := (remove_quic_ids ids w).2 in
    configs w' = configs w /\ file w' = file w /\
    (forall id, records w' !! id = records w !! id \/ id ∈ ids /\ records w' !! id = None) /\
    (forall l, (remove_quic_ids ids w).1 = Ok l ->
       (forall id, id ∈ ids -> records w' !! id = None) /\
       (NoDup ids -> l = filter (fun id => is_some (records w !! id) = true) ids));
  clear_pairing_spec id w :
    let w' := (clear_pairing id w).2 in
    records w' = records w /\ file w' = file w /\
    (configs w' = configs w \/
     (exists o, configs w !! id = Some o /\ configs w' = <[id := clear o]> (configs w)) \/
     atomic_writes = false /\ configs w' = delete id (configs w)) /\
    (forall b, (clear_pairing id w).1 = Ok b ->
       (forall o, configs w' !! id = Some o -> pairing_free o) /\
       (is_Some (configs w' !! id) <-> is_Some (configs w !! id)) /\
       (b = false <-> pairing_free (unwrap_or (configs w !! id) ∅)));
  remove_peer_config_spec id w :
    let w' := (remove_peer_config id w).2 in
    records w' = records w /\ file w' = file w /\
    (configs w' = configs w \/ configs w' = delete id (configs w)) /\
    (forall b, (remove_peer_config id w).1 = Ok b ->
       configs w' !! id = None /\ b = is_some (configs w !! id));
}.

Section system_laws.
Context {W : Type} `{Storage W} `{!StorageLaws W}.

Lemma forget_ids_spec ids (w : W) :
  let w' := (forget_ids ids w).2 in
  configs w' = configs w /\ file w' = file w /\
  (forall id, records w' !! id = records w !! id \/ id ∈ ids /\ records w' !! id = None) /\
  (forall l, (forget_ids ids w).1 = Ok l ->
     (forall id, id ∈ ids -> records w' !! id = None) /\
     (NoDup ids -> l = filter (fun id => is_some (records w !! id) = true) ids)).
Proof.
  revert w; induction ids as [|i ids IH]; intros w; simpl.
  { split_and!; auto. intros l [= <-]; split; [set_solver|done]. }
  unfold bind. assert (He := store_remove_effect i w).
  destruct (store_remove i w) as [[r| |] w1]; simpl.
  2,3: destruct He as [(E1 & E2 & E3)|(r & E1 & E2 & E3 & _)]; rewrite ?E1, ?E2, ?E3;
      (split; [done|]); (split; [done|]); (split; [|done]); intros id; [by left|];
      destruct (decide (id = i)) as [->|]; [right; rewrite lookup_delete_eq; set_solver|left];
      by rewrite lookup_delete_ne.
  destruct He as (Hc & Hf & Hr & Hb); specialize (IH w1); simpl in IH.
  destruct (forget_ids ids w1) as [[l| |] w2]; simpl in *;
    destruct IH as (Hc' & Hf' & Hrec & Hok); (split; [congruence|]); (split; [congruence|]);
      (split; [intros id; destruct (Hrec id) as [E|[E1 E2]];
        [rewrite E, Hr; destruct (decide (id = i)) as [->|];
           [right; rewrite lookup_delete_eq; set_solver|left; by rewrite lookup_delete_ne]
        |right; set_solver]|]); try done.
    intros l' [= <-]; destruct (Hok l eq_refl) as [Hgone Hl]; split.
  - intros id Hid; destruct (decide (id ∈ ids)); [by apply Hgone|].
      assert (id = i) as -> by set_solver. destruct (Hrec i) as [E|[_ E]]; [|done].
      rewrite E, Hr; apply lookup_delete_eq.
  - intros Hnd; apply NoDup_cons in Hnd as [Hni Hnd]. rewrite filter_cons, (Hl Hnd).
      assert (Hsame : filter (fun id => is_some (records w1 !! id) = true) ids =
                      filter (fun id => is_some (records w !! id) = true) ids).
      { apply filter_ext_in; intros id Hid.
        rewrite Hr, lookup_delete_ne by (intros ->; done); done. }
      rewrite Hsame. destruct r as [b|]; [subst b|rewrite Hb]; simpl; [|done].
      by destruct (is_some (records w !! i)).
Qed.

Lemma system_clear_pairing_spec id (w : W) :
  let w' := (system_clear_pairing id w).2 in
  records w' = records w /\ file w' = file w /\
  (configs w' = configs w \/
   (exists o, configs w !! id = Some o /\ configs w' = <[id := clear o]> (configs w)) \/
   atomic_writes = false /\ configs w' = delete id (configs w)) /\
  (forall b, (system_clear_pairing id w).1 = Ok b ->
     (forall o, configs w' !! id = Some o -> pairing_free o) /\
     (is_Some (configs w' !! id) <-> is_Some (configs w !! id)) /\
     (b = false <-> pairing_free (unwrap_or (configs w !! id) ∅))).
Proof.
  unfold system_clear_pairing, bind.
  assert (Hr := config_load_reads id w); assert (Hs := config_load_spec id w).
  destruct (config_load id w) as [[o| |] w1]; cbn [fst snd] in *; destruct Hr as (R1 & R2 & R3);
    rewrite ?R1, ?R2, ?R3; [|by split_and!; auto..].
  specialize (Hs o eq_refl). assert (Hch := clear_changed o).
  destruct (clear_peer_pairing_options o) as [[] o'] eqn:Ec; cbn [fst snd] in *.
  - assert (Ho' : o' = clear o) by (unfold clear; by rewrite Ec).
    assert (Hsome : configs w !! id = Some o).
    { destruct (configs w !! id) as [x|] eqn:E; simpl in Hs; [by subst|].
      exfalso; assert (Hp : pairing_free o) by (rewrite Hs; intros k _; apply lookup_empty).
      by apply Hch in Hp. }
    assert (He := config_store_effect id o' w1). unfold ret.
    destruct (config_store id o' w1) as [[[]| |] w2]; cbn [fst snd].
    + destruct He as (E1 & E2 & E3); rewrite E1, E2, E3, R1, R2, R3. split_and!; try done.
      * right; left; exists o; by rewrite Ho'.
      * intros b [= <-]; rewrite lookup_insert_eq, Hsome; simpl; split_and!; [|done|by split; [|tauto]].
        intros x [= <-]; rewrite Ho'; apply clear_free.
    + destruct He as [[(E1 & E2 & E3)|(_ & E1 & E2 & E3)]|(Ha & E1 & E2 & E3)]; rewrite E1, E2, E3, ?R1, ?R2, ?R3;
        split_and!; try done; [by left|right; left; exists o; by rewrite Ho'|by right; right].
    + destruct He as [[(E1 & E2 & E3)|(_ & E1 & E2 & E3)]|(Ha & E1 & E2 & E3)]; rewrite E1, E2, E3, ?R1, ?R2, ?R3;
        split_and!; try done; [by left|right; left; exists o; by rewrite Ho'|by right; right].
  - unfold ret; cbn [fst snd]; rewrite R1, R2, R3; split_and!; auto. intros b [= <-].
    assert (Hfree : pairing_free o) by tauto. rewrite <- Hs; split; [|split; [done|tauto]].
    intros x Hx; rewrite Hx in Hs; simpl in Hs; by subst.
Qed.

#[export] Instance system_laws : BackendLaws W.
Proof.
  split; simpl.
  - intros ids w; unfold forget_paired_peer_ids, bind. destruct (open_store_reads w) as (R1 & R2 & R3).
    destruct (open_store w) as [[[]| |] w1]; simpl in *; rewrite <- R1, <- R2, <- R3.
    + apply forget_ids_spec.
    + split_and!; auto. done.
    + split_and!; auto. done.
  - apply system_clear_pairing_spec.
  - intros id w; assert (He := config_remove_effect id w).
    destruct (config_remove id w) as [[b| |] w1]; simpl.
    + destruct He as (E1 & E2 & E3 & ->); rewrite E3. split_and!; auto.
      intros b [= <-]; by rewrite lookup_delete_eq.
    + destruct He as [(E1 & E2 & E3)|(b & E1 & E2 & E3 & _)]; split_and!; auto; done.
    + destruct He as [(E1 & E2 & E3)|(b & E1 & E2 & E3 & _)]; split_and!; auto; done.
Qed.
End system_laws.

(** ** Replaying a journal *)

(** [partial j w w']: from [w] to [w'] nothing changed but by steps of [j], and by
    writes of its configurations that were torn. *)
Definition partial {W} `{Storage W} (j : PeerSecurityMutationJournal) (w w' : W) : Prop :=
  (forall id, records w' !! id = records w !! id \/
     id ∈ quic_peer_ids j /\ records w' !! id = None) /\
  (forall id, configs w' !! id = configs w !! id \/
     (id ∈ config_ids j /\ exists o, configs w !! id = Some o /\ configs w' !! id = Some (clear o)) \/
     (id = peer_config_id j /\ operation j = RemovePeer /\ configs w' !! id = None) \/
     (atomic_writes = false /\ id ∈ config_ids j /\ configs w' !! id = None)).

(** [goal j w]: the change [j] asks for has been made. *)
Definition goal {W} `{Storage W} (j : PeerSecurityMutationJournal) (w : W) : Prop :=
  (forall id, id ∈ quic_peer_ids j -> records w !! id = None) /\
  (forall id o, id ∈ config_ids j -> configs w !! id = Some o -> pairing_free o) /\
  (operation j = RemovePeer -> configs w !! peer_config_id j = None).

(** What a completed change reports: exactly what was there. *)
Definition reports {W} `{Storage W} (j : PeerSecurityMutationJournal) (w : W)
    (r : PeerSecurityMutationResult) : Prop :=
  removed_quic_peer_ids r =
    filter (fun id => is_some (records w !! id) = true) (quic_peer_ids j) /\
  (forall id, id ∈ cleared_peer_config_ids r <->
     id ∈ config_ids j /\ ~ pairing_free (unwrap_or (configs w !! id) ∅)) /\
  (removed_peer_config r = true <->
     operation j = RemovePeer /\ is_Some (configs w !! peer_config_id j)).

Section replay.
Context {W : Type} `{Storage W} `{Backend W} `{!BackendLaws W} `{!StorageLaws W}.

Lemma partial_refl j (w : W) : partial j w w.
Proof. by split; left. Qed.

Lemma partial_same j (w w' : W) : records w' = records w -> configs w' = configs w -> partial j w w'.
Proof. intros Hr Hc; split; intros id; left; congruence. Qed.

Lemma partial_trans j (w1 w2 w3 : W) : partial j w1 w2 -> partial j w2 w3 -> partial j w1 w3.
Proof.
  intros [R1 C1] [R2 C2]; split; intros id.
  - destruct (R2 id) as [->|[]]; [apply R1|by right].
  - destruct (C2 id) as [->|[(Hin & o & H1 & H2)|Hrm]]; [apply C1| |by right; right].
    destruct (C1 id) as [E|[(_ & o' & H3 & H4)|[(_ & _ & E)|(_ & _ & E)]]]; [|..|congruence|congruence].
    + right; left; split; [done|]. exists o; by rewrite <- E.
    + right; left; split; [done|]; exists o'; split; [done|].
      rewrite H4 in H1; simplify_eq. by rewrite H2, (clear_id (clear o')) by apply clear_free.
Qed.

Lemma goal_stable j (w w' : W) : goal j w -> partial j w w' -> goal j w'.
Proof.
  intros (G1 & G2 & G3) [R C]; split_and!.
  - intros id Hid; destruct (R id) as [->|[_ E]]; auto.
  - intros id o Hid Ho; destruct (C id) as [E|[(_ & o' & _ & E)|[(_ & _ & E)|(_ & _ & E)]]].
    + apply (G2 id); congruence.
    + rewrite E in Ho; simplify_eq; apply clear_free.
    + congruence.
    + congruence.
  - intros Hop; destruct (C (peer_config_id j)) as [E|[(_ & o & E & _)|[(_ & _ & E)|(_ & _ & E)]]]; auto.
    + by rewrite E, G3.
    + rewrite (G3 Hop) in E; done.
Qed.

Lemma clear_pairings_spec j ids (w : W) :
  (forall id, id ∈ ids -> id ∈ config_ids j) ->
  let w' := (clear_pairings ids w).2 in
  partial j w w' /\ records w' = records w /\ file w' = file w /\
  (forall id, id ∉ ids -> configs w' !! id = configs w !! id) /\
  (forall l, (clear_pairings ids w).1 = Ok l ->
     (forall id, is_Some (configs w' !! id) <-> is_Some (configs w !! id)) /\
     (forall id o, id ∈ ids -> configs w' !! id = Some o -> pairing_free o) /\
     (NoDup ids -> forall id, id ∈ l <-> id ∈ ids /\ ~ pairing_free (unwrap_or (configs w !! id) ∅))).
Proof.
  revert w; induction ids as [|i ids IH]; intros w Hids; simpl.
  { split_and!; auto using partial_refl. intros l [= <-]; set_solver. }
  assert (Hi : i ∈ config_ids j) by (apply Hids; left).
  assert (Hids' : forall id, id ∈ ids -> id ∈ config_ids j) by (intros; apply Hids; by right).
  unfold bind, ret; destruct (clear_pairing_spec i w) as (S1 & S2 & S3 & S4).
  assert (Hp : partial j w (clear_pairing i w).2).
  { split; intros id; [left; by rewrite S1|]. destruct S3 as [->|[(o & E1 & E2)|(Ha & E2)]]; [by left|..];
      (destruct (decide (id = i)) as [->|Hne]; [|left; by rewrite E2, ?lookup_insert_ne, ?lookup_delete_ne]).
    - right; left; split; [done|exists o; by rewrite E2, lookup_insert_eq].
    - right; right; right; by rewrite E2, lookup_delete_eq. }
  assert (Hoth : forall id, id <> i -> configs (clear_pairing i w).2 !! id = configs w !! id).
  { intros id Hne; destruct S3 as [->|[(o & _ & ->)|(_ & ->)]]; [done|by rewrite lookup_insert_ne|by rewrite lookup_delete_ne]. }
  destruct (clear_pairing i w) as [[b| |] w1]; cbn [fst snd] in *;
    [|do 3 (split; [done|]); (split; [intros id Hid; apply not_elem_of_cons in Hid as [? ?]; by apply Hoth|done])..].
  destruct (S4 b eq_refl) as (F1 & F0 & F2); clear S4.
  assert (Hsome : forall id, is_Some (configs w1 !! id) <-> is_Some (configs w !! id))
    by (intros id; destruct (decide (id = i)) as [->|Hne]; [done|by rewrite Hoth]).
  destruct (IH w1 Hids') as (P1 & P2 & P3 & P4 & P5).
  destruct (clear_pairings ids w1) as [[l| |] w2]; cbn [fst snd] in *;
    (split; [by eapply partial_trans|]); (split; [congruence|]); (split; [congruence|]);
    (split; [intros id Hid; apply not_elem_of_cons in Hid as [? ?]; by rewrite P4, Hoth|]); try done.
  intros l' [= <-]; destruct (P5 l eq_refl) as (P6 & F3 & F4); split; [intros id; by rewrite P6, Hsome|split].
  - intros id o Hid Ho; destruct (decide (id ∈ ids)); [by eapply F3|].
    apply elem_of_cons in Hid as [->|]; [|done]. rewrite P4 in Ho by done; by apply F1.
  - intros Hnd id; apply NoDup_cons in Hnd as [Hni Hnd]. specialize (F4 Hnd id).
    assert (Hl : id ∈ l <-> id ∈ ids /\ ~ pairing_free (unwrap_or (configs w !! id) ∅)).
    { rewrite F4; split; intros [H3 H4]; (split; [done|]).
      - rewrite <- (Hoth id) by (by intros ->). done.
      - rewrite (Hoth id) by (by intros ->). done. }
    destruct b; rewrite ?elem_of_cons, Hl; split.
    + intros [->|[H3 H4]]; [|by auto]. split; [by left|]. intros Hf; by apply F2 in Hf.
    + intros [[->|H3] H4]; auto.
    + intros [H3 H4]; auto.
    + intros [[->|H3] H4]; [|done]. exfalso; by apply H4, F2.
Qed.

Lemma apply_journal_spec j (w : W) :
  let w' := (apply_journal j w).2 in
  partial j w w' /\ file w' = file w /\
  (forall r, (apply_journal j w).1 = Ok r -> goal j w' /\
     (NoDup (quic_peer_ids j) -> NoDup (config_ids j) -> reports j w r)).
Proof.
  unfold apply_journal, bind, ret.
  destruct (remove_quic_ids_spec (quic_peer_ids j) w) as (S1 & S2 & S3 & S4).
  assert (Hp1 : partial j w (remove_quic_ids (quic_peer_ids j) w).2).
  { split; [exact S3|]. intros id; left; by rewrite S1. }
  destruct (remove_quic_ids (quic_peer_ids j) w) as [[q| |] w1]; cbn [fst snd] in *;
    [|by split_and!..]. destruct (S4 q eq_refl) as [Q1 Q2]; clear S3 S4.
  destruct (clear_pairings_spec j (config_ids j) w1) as (T1 & T2 & T3 & T4 & T5); [done|].
  destruct (clear_pairings (config_ids j) w1) as [[l| |] w2]; cbn [fst snd] in *;
    [|split_and!; [by eapply partial_trans|congruence|done]..].
  destruct (T5 l eq_refl) as (T6 & L1 & L2).
  case_bool_decide as Hop.
  - destruct (remove_peer_config_spec (peer_config_id j) w2) as (U1 & U2 & U3 & U4).
    assert (Hp3 : partial j w2 (remove_peer_config (peer_config_id j) w2).2).
    { split; intros id; [left; by rewrite U1|]. destruct U3 as [->|U3]; [by left|].
      destruct (decide (id = peer_config_id j)) as [->|]; [right; right; left|left; by rewrite U3, lookup_delete_ne].
      rewrite U3; by rewrite lookup_delete_eq. }
    destruct (remove_peer_config (peer_config_id j) w2) as [[b| |] w3]; cbn [fst snd] in *;
      (split; [by eapply partial_trans; [|eapply partial_trans]|]); (split; [congruence|]); try done.
    intros r [= <-]; destruct (U4 b eq_refl) as [B1 B2]. split.
    + apply (goal_stable j w3); [|apply partial_refl]. split_and!; [| |done].
      * intros id Hid; rewrite U1, T2; auto.
      * intros id o Hid Ho. destruct (decide (id = peer_config_id j)) as [->|]; [congruence|].
        apply (L1 id); [done|]. destruct U3 as [<-|U3]; [done|]. by rewrite U3, lookup_delete_ne in Ho.
    + intros Hnq Hnc; split_and!; simpl; [by apply Q2| |].
      * intros id; rewrite (L2 Hnc id), S1; done.
      * rewrite B2, is_some_true, T6, S1; tauto.
  - cbn [fst snd]. split; [by eapply partial_trans|]; split; [congruence|].
    intros r [= <-]; split; [split_and!|].
    + intros id Hid; rewrite T2; auto.
    + done.
    + done.
    + intros Hnq Hnc; split_and!; simpl; [by apply Q2| |].
      * intros id; rewrite (L2 Hnc id), S1; done.
      * split; [done|by intros [? _]].
Qed.

Definition commit (j : PeerSecurityMutationJournal) : PeerSecurityMutationJournal :=
  j <| committed := true |>.
(** The journal of a change that has been made: gone, marked as done, or torn while
    it was being marked. *)
Definition settled (j : PeerSecurityMutationJournal) (w : W) : Prop :=
  file w = Absent \/ file w = Holds (commit j) \/ atomic_writes = false /\ file w = Corrupt.

Lemma cleanup_spec (w : W) :
  let w' := (cleanup_journal w).2 in
  records w' = records w /\ configs w' = configs w /\ (file w' = file w \/ file w' = Absent).
Proof.
  unfold cleanup_journal; assert (He := remove_file_effect w).
  destruct (remove_file w) as [[[]| |] w1]; cbn [fst snd].
  - destruct He as (E1 & E2 & E3); auto.
  - destruct He as [(E1 & E2 & E3)|(_ & E1 & E2 & E3)]; auto.
  - destruct He as [(E1 & E2 & E3)|(_ & E1 & E2 & E3)]; auto.
Qed.

Lemma complete_spec j (w : W) :
  committed j = false ->
  let w' := (complete_journal j w).2 in
  partial j w w' /\ (file w' = file w \/ goal j w' /\ settled j w') /\
  (forall r, (complete_journal j w).1 = Ok r -> goal j w' /\ settled j w' /\
     (NoDup (quic_peer_ids j) -> NoDup (config_ids j) -> reports j w r)).
Proof.
  intros Hc; unfold complete_journal; rewrite Hc; unfold bind, ret.
  destruct (apply_journal_spec j w) as (A1 & A2 & A3).
  destruct (apply_journal j w) as [[r| |] w1]; cbn [fst snd] in *;
    [|split; [done|split; [by left|done]]..].
  destruct (A3 r eq_refl) as [G1 G2]; clear A3; unfold persist_journal.
  assert (He := write_file_effect (commit j) w1). fold (commit j).
  assert (Hstep : forall w2 : W, records w2 = records w1 -> configs w2 = configs w1 ->
    partial j w w2 /\ goal j w2).
  { intros w2 E1 E2; assert (partial j w1 w2) by (by apply partial_same).
    split; [by eapply partial_trans|by eapply goal_stable]. }
  destruct (write_file (commit j) w1) as [[[]| |] w2]; cbn [fst snd] in *.
  - destruct He as (E1 & E2 & E3). destruct (cleanup_spec w2) as (C1 & C2 & C3).
    destruct (Hstep (cleanup_journal w2).2) as [P G]; [congruence..|].
    assert (Hs : settled j (cleanup_journal w2).2) by (unfold settled; destruct C3 as [C3|C3]; [right; left; congruence|by left]).
    destruct (cleanup_journal w2) as [[[]| |] w3]; cbn [fst snd] in *;
      (split; [done|split; [by right|]]); try done. intros r' [= <-]; done.
  - destruct He as [[(E1 & E2 & E3)|(_ & E1 & E2 & E3)]|(Ha & E1 & E2 & E3)]; destruct (Hstep w2 E1 E2) as [P G];
      (split; [done|split; [|done]]); [left; congruence|right; split; [done|by right; left]|right; split; [done|by right; right]].
  - destruct He as [[(E1 & E2 & E3)|(_ & E1 & E2 & E3)]|(Ha & E1 & E2 & E3)]; destruct (Hstep w2 E1 E2) as [P G];
      (split; [done|split; [|done]]); [left; congruence|right; split; [done|by right; left]|right; split; [done|by right; right]].
Qed.

Lemma ids_ok_nodup ids seen : ids_ok seen ids = true -> NoDup ids /\ forall id, id ∈ ids -> id ∉ seen.
Proof.
  revert seen; induction ids as [|i ids IH]; intros seen; simpl.
  { intros _; split; [constructor|set_solver]. }
  destruct (_ || _) eqn:E; [done|]; apply orb_false_iff in E as [_ E]; bools.
  intros Hok; destruct (IH _ Hok) as [H1 H2]; split.
  - constructor; [|done]. intros Hi; by apply (H2 i Hi), elem_of_union_l, elem_of_singleton.
  - intros id Hid; apply elem_of_cons in Hid as [->|Hid]; [done|]. specialize (H2 id Hid); set_solver.
Qed.

Lemma validate_spec j :
  validate j = true ->
  NoDup (quic_peer_ids j) /\ NoDup (config_ids j) /\ peer_config_id j ∈ config_ids j.
Proof.
  unfold validate, validate_ids; intros H'; bools.
  repeat match goal with X : ids_ok _ _ = true |- _ => apply ids_ok_nodup in X as [? _] end.
  by split_and!.
Qed.

Lemma load_journal_spec (w : W) :
  let w' := (load_journal w).2 in
  records w' = records w /\ configs w' = configs w /\ file w' = file w /\
  (forall o, (load_journal w).1 = Ok o ->
     match o with
     | None => file w = Absent
     | Some j => file w = Holds j /\ validate j = true
     end).
Proof.
  unfold load_journal, bind; destruct (read_file_reads w) as (R1 & R2 & R3).
  assert (Hs := read_file_spec w). destruct (read_file w) as [[o| |] w1]; cbn [fst snd] in *;
    [|by split_and!..]. specialize (Hs o eq_refl).
  destruct o as [j|]; unfold guard, ret; cbn [fst snd].
  - destruct (validate j) eqn:Ev; cbn [fst snd]; (split_and!; try done).
    intros o [= <-]; split; [|done]. destruct (file w) as [| |j']; [done..|congruence].
  - split_and!; try done. intros o [= <-]. by destruct (file w).
Qed.

(** One attempt to recover a journal that is not committed. *)
Lemma recover_spec j (w : W) :
  file w = Holds j -> committed j = false ->
  let w' := (recover_pending_with w).2 in
  partial j w w' /\ (file w' = Holds j \/ goal j w' /\ settled j w') /\
  (forall r, (recover_pending_with w).1 = Ok r -> goal j w' /\ settled j w' /\ reports j w r).
Proof.
  intros Hf Hc; unfold recover_pending_with, bind.
  destruct (load_journal_spec w) as (L1 & L2 & L3 & L4).
  destruct (load_journal w) as [[o| |] w1]; cbn [fst snd] in *.
  2,3: split; [by apply partial_same|split; [left; congruence|done]].
  specialize (L4 o eq_refl); destruct o as [j'|]; [|congruence].
  destruct L4 as [E Hv]; rewrite E in Hf; simplify_eq.
  destruct (validate_spec j Hv) as (N1 & N2 & _).
  destruct (complete_spec j w1 Hc) as (C1 & C2 & C3).
  assert (Hp : partial j w w1) by (by apply partial_same).
  split; [by eapply partial_trans|]; split.
  - destruct C2 as [C2|C2]; [left; congruence|by right].
  - intros r Hr; destruct (C3 r Hr) as (G & S & R); split; [done|split; [done|]].
    destruct (R N1 N2) as (R1 & R2 & R3); unfold reports in *; by rewrite <- ?L1, <- ?L2.
Qed.

(** A committed journal, or none, or one that cannot be read: nothing is replayed. *)
Lemma recover_settled j (w : W) : settled j w ->
  let w' := (recover_pending_with w).2 in
  records w' = records w /\ configs w' = configs w /\ (file w' = file w \/ file w' = Absent).
Proof.
  intros Hf; unfold recover_pending_with, bind.
  destruct (load_journal_spec w) as (L1 & L2 & L3 & L4).
  destruct (load_journal w) as [[o| |] w1]; cbn [fst snd] in *; [|by auto..].
  specialize (L4 o eq_refl); destruct o as [j'|]; [|unfold ret; cbn [fst snd]; by auto].
  destruct L4 as [E _]; assert (j' = commit j) as -> by (destruct Hf as [Hf|[Hf|[_ Hf]]]; congruence).
  unfold complete_journal; change (committed (commit j)) with true; cbv iota; unfold bind, ret.
  destruct (cleanup_spec w1) as (C1 & C2 & C3).
  destruct (cleanup_journal w1) as [[[]| |] w2]; cbn [fst snd] in *;
    (split_and!; [congruence..|]); destruct C3 as [C3|C3]; [left; congruence|by right|left; congruence|by right|left; congruence|by right].
Qed.

Lemma settled_stays j (w w' : W) : settled j w -> file w' = file w \/ file w' = Absent -> settled j w'.
Proof. unfold settled; intros Hs [->|?]; auto. Qed.

(** The world after [n] attempts to recover. *)
Definition recoveries (n : nat) (w : W) : W :=
  Nat.iter n (fun w => (recover_pending_with w).2) w.

Lemma recoveries_settled n j (w : W) :
  goal j w -> settled j w -> goal j (recoveries n w) /\ settled j (recoveries n w) /\
  records (recoveries n w) = records w /\ configs (recoveries n w) = configs w.
Proof.
  intros G S; induction n as [|n (IH1 & IH2 & IH3 & IH4)]; [done|]; simpl.
  fold (recoveries n w). destruct (recover_settled j (recoveries n w) IH2) as (R1 & R2 & R3).
  split_and!; [|by eapply settled_stays|congruence|congruence].
  eapply goal_stable; [exact IH1|by apply partial_same].
Qed.

(** C39. A journalled change survives failures: with its journal on disk and not
    committed, whatever sequence of failing or crashing recoveries is run, the
    stores differ from the beginning only by steps of the change, and either the
    journal is still there to be replayed or the change is complete and its journal is
    gone, marked as done or unreadable; a recovery that returns has completed it.  And
    a change whose journal is so is not replayed: in whatever state the stores are by
    then, a recovery leaves them as they are.  A journal is unreadable, or the options
    of one of the configurations are lost, only if the storage tears a file it dies
    writing; a trusted peer, a configuration and the journal are removed wholly or not
    at all. *)
Theorem recovery_completes n j (w : W) :
  file w = Holds j -> committed j = false ->
  let w' := recoveries n w in
  partial j w w' /\ (file w' = Holds j \/ goal j w' /\ settled j w') /\
  (forall r, (recover_pending_with w').1 = Ok r -> goal j (recover_pending_with w').2) /\
  (forall u : W, settled j u ->
     let u' := (recover_pending_with u).2 in records u' = records u /\ configs u' = configs u /\ settled j u').
Proof.
  intros Hf Hc; cbv zeta.
  assert (Hinv : partial j w (recoveries n w) /\
    (file (recoveries n w) = Holds j \/ goal j (recoveries n w) /\ settled j (recoveries n w))).
  { induction n as [|n [IH1 IH2]]; [split; [apply partial_refl|by left]|].
    change (recoveries (S n) w) with (recover_pending_with (recoveries n w)).2.
    destruct IH2 as [IH2|[G S]].
    - destruct (recover_spec j _ IH2 Hc) as (R1 & R2 & _). split; [by eapply partial_trans|done].
    - destruct (recoveries_settled 1 j (recoveries n w) G S) as (G' & S' & E1 & E2).
      split; [|by right]. eapply partial_trans; [exact IH1|by apply partial_same]. }
  destruct Hinv as [H1 H2]; split; [done|]; split; [done|]; split.
  - intros r Hr; destruct H2 as [H2|[G S]].
    + destruct (recover_spec j _ H2 Hc) as (_ & _ & R3). by destruct (R3 r Hr).
    + by destruct (recoveries_settled 1 j (recoveries n w) G S).
  - intros u Hu; destruct (recover_settled j u Hu) as (R1 & R2 & R3); split_and!; [done|done|by eapply settled_stays].
Qed.

(** A journal that cannot be read stops every further change of peer trust. *)
Theorem unreadable_journal_blocks peer op (w : W) : file w = Corrupt -> forall r, (mutate peer op w).1 <> Ok r.
Proof.
  intros Hf r; unfold mutate, recover_pending_with, load_journal, bind.
  pose proof (read_file_spec w) as Hs; destruct (read_file w) as [[o| |] w1]; [|done..].
  specialize (Hs o eq_refl); by rewrite Hf in Hs.
Qed.

(** The journal [j] plans the change [op] of [peer]: it names every peer id that
    has the identity and the certificate pin of [peer], and [peer] itself. *)
Definition plans (peer : string) (op : PeerSecurityMutationKind) (w : W)
    (j : PeerSecurityMutationJournal) : Prop :=
  committed j = false /\ operation j = op /\ peer_config_id j = peer /\ validate j = true /\
  (forall id, id ∈ quic_peer_ids j <->
     exists t, records w !! peer = Some t /\ records w !! id = Some t) /\
  (forall id, id ∈ config_ids j <-> id = peer \/ id ∈ quic_peer_ids j).

Lemma elem_of_string_sort x l : x ∈ string_sort l <-> x ∈ l.
Proof. unfold string_sort; by rewrite merge_sort_Permutation. Qed.

Lemma planned_spec peer (w : W) :
  let w' := (planned_quic_peer_ids peer w).2 in
  records w' = records w /\ configs w' = configs w /\ file w' = file w /\
  (forall l, (planned_quic_peer_ids peer w).1 = Ok l ->
     forall id, id ∈ l <-> exists t, records w !! peer = Some t /\ records w !! id = Some t).
Proof.
  unfold planned_quic_peer_ids, bind, ret; destruct (open_store_reads w) as (O1 & O2 & O3).
  destruct (open_store w) as [[[]| |] w1]; cbn [fst snd] in *; [|by split_and!..].
  destruct (load_all_reads w1) as (R1 & R2 & R3); assert (Hs := load_all_spec w1).
  destruct (load_all w1) as [[recs| |] w2]; cbn [fst snd] in *;
    (split; [congruence|]); (split; [congruence|]); (split; [congruence|]); try done.
  specialize (Hs recs eq_refl). intros l [= <-] id.
  assert (Hin : forall p t, (p, t) ∈ recs <-> records w !! p = Some t).
  { intros p t; by rewrite Hs, <- O1, elem_of_map_to_list. }
  destruct (list_find _ recs) as [[i [p t]]|] eqn:Ef.
  - apply list_find_Some in Ef as (Hi & Hp & _); simpl in Hp; subst p.
    apply list_elem_of_lookup_2, Hin in Hi.
    rewrite elem_of_dedup, elem_of_string_sort, list_elem_of_fmap. split.
    + intros ([p t'] & -> & Hp); apply list_elem_of_filter in Hp as [He Hp]; simpl in *.
      unfold same_identity in He; bools; subst; exists t; split; [done|by apply Hin].
    + intros (t' & E1 & E2); exists (id, t'); split; [done|]. apply list_elem_of_filter; simpl.
      split; [unfold same_identity; rewrite bool_decide_true; congruence|by apply Hin].
  - apply list_find_None in Ef. split; [set_solver|]. intros (t & E1 & _).
    rewrite Forall_forall in Ef; apply Hin in E1; by destruct (Ef _ E1).
Qed.

Lemma prepare_spec peer op (w : W) :
  let w' := (prepare peer op w).2 in
  records w' = records w /\ configs w' = configs w /\ file w' = file w /\
  (forall j, (prepare peer op w).1 = Ok j -> plans peer op w j).
Proof.
  unfold prepare, bind, ret; destruct (planned_spec peer w) as (P1 & P2 & P3 & P4).
  destruct (planned_quic_peer_ids peer w) as [[q| |] w1]; cbn [fst snd] in *; [|by split_and!..].
  specialize (P4 q eq_refl); unfold guard; destruct (validate _) eqn:Ev; cbn [fst snd];
    (split_and!; try done).
  intros j [= <-]; split_and!; try done; simpl. intros id; unfold peer_security_config_ids.
  by rewrite elem_of_dedup, elem_of_string_sort, elem_of_cons.
Qed.

Lemma plans_same peer op (w w' : W) j :
  records w' = records w -> plans peer op w' j -> plans peer op w j.
Proof. unfold plans; by intros ->. Qed.

Lemma reports_same j (w w' : W) r :
  records w' = records w -> configs w' = configs w -> reports j w' r -> reports j w r.
Proof. unfold reports; by intros -> ->. Qed.

(** Forgetting a peer is all or nothing: started with no journal pending, the
    operation that returns has removed every trusted record with the identity of
    the peer and the pairing options of all its ids (and its configuration, for a
    removal), has touched nothing else and reports exactly what was there; one
    that fails or crashes has changed nothing, or has left the journal from which
    recovery completes it, or has completed it. *)
Theorem mutation_all_or_nothing peer op (w : W) :
  file w = Absent ->
  let w' := (mutate peer op w).2 in
  match (mutate peer op w).1 with
  | Ok r => exists j, plans peer op w j /\ partial j w w' /\ goal j w' /\ settled j w' /\
                      reports j w r
  | _ => (records w' = records w /\ configs w' = configs w /\
          (file w' = Absent \/ atomic_writes = false /\ file w' = Corrupt)) \/
         exists j, plans peer op w j /\ partial j w w' /\
                   (file w' = Holds j \/ goal j w' /\ settled j w')
  end.
Proof.
  intros Hf; unfold mutate, bind.
  destruct (recover_settled {| version := 0; committed := true; operation := op; peer_config_id := "";
    config_ids := []; quic_peer_ids := [] |} w (or_introl Hf)) as (R1 & R2 & R3).
  assert (R4 : file (recover_pending_with w).2 = Absent) by (destruct R3; congruence).
  destruct (recover_pending_with w) as [[r0| |] w1]; cbn [fst snd] in *; [|by left; auto..].
  destruct (prepare_spec peer op w1) as (P1 & P2 & P3 & P4).
  destruct (prepare peer op w1) as [[j| |] w2]; cbn [fst snd] in *; [|left; split_and!; [congruence|congruence|left; congruence]..].
  specialize (P4 j eq_refl). apply plans_same with (w := w) in P4; [|done].
  assert (Hc : committed j = false) by apply P4.
  destruct (validate_spec j) as (N1 & N2 & _); [apply P4|].
  unfold persist_journal; assert (He := write_file_effect j w2).
  assert (Hpart : forall w3 : W, records w3 = records w2 -> configs w3 = configs w2 -> partial j w w3).
  { intros w3 E1 E2; apply partial_same; congruence. }
  destruct (write_file j w2) as [[[]| |] w3]; cbn [fst snd] in *.
  - destruct He as (E1 & E2 & E3). destruct (complete_spec j w3 Hc) as (C1 & C2 & C3).
    assert (Hp : partial j w (complete_journal j w3).2) by (eapply partial_trans; [by apply Hpart|done]).
    destruct (complete_journal j w3) as [[r| |] w4]; cbn [fst snd] in *.
    + destruct (C3 r eq_refl) as (G & S & R). exists j; split_and!; try done.
      apply reports_same with (w' := w3); [congruence..|auto].
    + right; exists j; split_and!; try done. destruct C2; [left; congruence|by right].
    + right; exists j; split_and!; try done. destruct C2; [left; congruence|by right].
  - destruct He as [[(E1 & E2 & E3)|(_ & E1 & E2 & E3)]|(Ha & E1 & E2 & E3)];
      [left; split_and!; [congruence|congruence|left; congruence]|right|left; split_and!; [congruence|congruence|by right]].
    exists j; split_and!; auto.
  - destruct He as [[(E1 & E2 & E3)|(_ & E1 & E2 & E3)]|(Ha & E1 & E2 & E3)];
      [left; split_and!; [congruence|congruence|left; congruence]|right|left; split_and!; [congruence|congruence|by right]].
    exists j; split_and!; auto.
Qed.

(** The records left by a completed change: none with the identity of the peer. *)
Lemma goal_forgets peer op j (w w' : W) id t :
  plans peer op w j -> partial j w w' -> goal j w' ->
  records w !! peer = Some t -> records w' !! id <> Some t.
Proof.
  intros (_ & _ & _ & _ & Hq & _) [Hr _] (Hg & _) Hp Hid.
  destruct (Hr id) as [E|[_ E]]; [|congruence]. rewrite E in Hid.
  rewrite Hg in E; [congruence|]. apply Hq; eauto.
Qed.
End replay.

(** ** A disk with faults

    An instance of [Storage]: each operation takes the next fault of a list and
    then succeeds, fails or dies, before or after its effect, or while it writes. *)

Inductive Fault := Good | Fails | FailsAfter | Dies | DiesAfter | Tears.

Record Disk := {
  d_records : gmap string TrustedPeerRecord;
  d_configs : gmap string Options;
  d_file : JournalFile;
  d_faults : list Fault;
}.
#[export] Instance eta_Disk : Eta Disk := fun r =>
  Build_Disk (d_records r) (d_configs r) (d_file r) (d_faults r).

Definition disk_op {A} (f : Disk -> A * Disk) : IO Disk A := fun d =>
  let d0 := d <| d_faults ::= tail |> in
  match d_faults d with
  | [] | Good :: _ => (Ok (f d0).1, (f d0).2)
  | Fails :: _ => (Err, d0)
  | FailsAfter :: _ => (Err, (f d0).2)
  | Dies :: _ => (Crash, d0)
  | DiesAfter :: _ => (Crash, (f d0).2)
  | Tears :: _ => (Crash, d0)
  end.
(** The write of a file, which [torn] tears. *)
Definition disk_write {A} (f : Disk -> A * Disk) (torn : Disk -> Disk) : IO Disk A := fun d =>
  match d_faults d with
  | Tears :: _ => (Crash, torn (d <| d_faults ::= tail |>))
  | _ => disk_op f d
  end.

#[export] Instance disk_storage : Storage Disk := {|
  records := d_records;
  configs := d_configs;
  file := d_file;
  atomic_writes := false;
  open_store := disk_op (fun d => ((), d));
  load_all := disk_op (fun d => (map_to_list (d_records d), d));
  store_remove id := disk_op (fun d =>
    (Some (is_some (d_records d !! id)), d <| d_records ::= delete id |>));
  config_load id := disk_op (fun d => (unwrap_or (d_configs d !! id) ∅, d));
  config_store id o := disk_write (fun d => ((), d <| d_configs ::= <[id := o]> |>)) (fun d => d <| d_configs ::= delete id |>);
  config_remove id := disk_op (fun d =>
    (is_some (d_configs d !! id), d <| d_configs ::= delete id |>));
  read_file := fun d =>
    match d_file d with
    | Absent => disk_op (fun d => (None, d)) d
    | Corrupt => (Err, d)
    | Holds j => disk_op (fun d => (Some j, d)) d
    end;
  write_file j := disk_write (fun d => ((), d <| d_file := Holds j |>)) (fun d => d <| d_file := Corrupt |>);
  remove_file := disk_op (fun d => ((), d <| d_file := Absent |>));
|}.

Lemma disk_op_effect {A} (f : Disk -> A * Disk) (E : Disk -> A -> Disk -> Prop) :
  (forall d, E d (f (d <| d_faults ::= tail |>)).1 (f (d <| d_faults ::= tail |>)).2) ->
  effect (disk_op f) E.
Proof.
  intros H d; unfold disk_op; destruct (d_faults d) as [|[] l] eqn:Ef; simpl; eauto;
    specialize (H d); rewrite Ef in H; eauto.
Qed.

Lemma disk_write_effect {A} (f : Disk -> A * Disk) torn (E : Disk -> A -> Disk -> Prop) T :
  (forall d, E d (f (d <| d_faults ::= tail |>)).1 (f (d <| d_faults ::= tail |>)).2) ->
  (forall d, T d (torn (d <| d_faults ::= tail |>))) -> write_effect (disk_write f torn) E T.
Proof.
  intros HE HT d; pose proof (disk_op_effect f E HE d) as He; unfold disk_write.
  destruct (d_faults d) as [|[] l] eqn:Ef; try (right; split; [done|apply HT]);
    destruct (disk_op f d) as [[a| |] d']; auto.
Qed.

Lemma disk_op_reads {A} (f : Disk -> A * Disk) : (forall d, (f d).2 = d) -> reads (disk_op f).
Proof.
  intros H d; unfold disk_op; destruct (d_faults d) as [|[] l]; simpl; rewrite ?H; done.
Qed.

Lemma disk_op_ok {A} (f : Disk -> A * Disk) d a :
  (disk_op f d).1 = Ok a -> a = (f (d <| d_faults ::= tail |>)).1.
Proof. unfold disk_op; destruct (d_faults d) as [|[] l]; simpl; congruence. Qed.

#[export] Instance disk_laws : StorageLaws Disk.
Proof.
  split; simpl.
  - by apply disk_op_reads.
  - by apply disk_op_reads.
  - intros w l Hl; apply disk_op_ok in Hl; by subst.
  - intros id; by apply disk_op_effect.
  - intros id; by apply disk_op_reads.
  - intros id w o Ho; by apply disk_op_ok in Ho.
  - intros id o; by apply disk_write_effect.
  - intros id; by apply disk_op_effect.
  - intros d; destruct (d_file d) eqn:Ef; simpl; [|done|]; by apply disk_op_reads.
  - intros d o Ho; destruct (d_file d); [by apply disk_op_ok in Ho|done|by apply disk_op_ok in Ho].
  - intros j; by apply disk_write_effect.
  - by apply disk_op_effect.
Qed.

Definition demo_disk (f : list Fault) : Disk :=
  {| d_records := {[ "alias" := {| identity_key := [1]; certificate_pin := [2] |};
                     "other" := {| identity_key := [3]; certificate_pin := [2] |};
                     "peer" := {| identity_key := [1]; certificate_pin := [2] |} ]};
     d_configs := {[ "peer" := {[ "pinned-signing-key" := "k"; "alias" := "home" ]} ]};
     d_file := Absent; d_faults := f |}.

(** A run in which the process dies while the second store is written. *)
Definition demo_crashed : Disk :=
  (mutate "peer" RemovePeer (demo_disk [Good; Good; Good; Good; Good; Good; Dies])).2.

Definition demo_journal : PeerSecurityMutationJournal :=
  {| version := 1; committed := false; operation := RemovePeer; peer_config_id := "peer";
     config_ids := ["alias"; "peer"]; quic_peer_ids := ["alias"; "peer"] |}.

(** The same user trusts the peer again before the journal, committed by then, is
    gone: the recovery does not forget the peer a second time. *)
Definition demo_trusted_again : Disk :=
  demo_disk [] <| d_file := Holds (demo_journal <| committed := true |>) |>.

Lemma recovery_completes_witness :
  file demo_crashed = Holds demo_journal /\
  records (recoveries 1 demo_crashed) !! "peer" = None /\
  goal demo_journal (recover_pending_with (recoveries 0 demo_crashed)).2 /\
  is_Some (records demo_trusted_again !! "peer") /\
  records (recover_pending_with demo_trusted_again).2 = records demo_trusted_again.
Proof.
  split; [by vm_compute|]. split; [by vm_compute|].
  destruct (recovery_completes 0 demo_journal demo_crashed) as (_ & _ & H & H'); [by vm_compute|done|].
  split; [|split; [by eexists|]].
  - apply (H {| cleared_peer_config_ids := ["peer"]; removed_quic_peer_ids := ["peer"];
              removed_peer_config := true |}); by vm_compute.
  - apply H'; right; left; reflexivity.
Defined.

Lemma mutation_all_or_nothing_witness :
  let w := demo_disk [] in
  (mutate "peer" RemovePeer w).1 =
    Ok {| cleared_peer_config_ids := ["peer"]; removed_quic_peer_ids := ["alias"; "peer"];
          removed_peer_config := true |} /\
  exists j, plans "peer" RemovePeer w j /\ goal j (mutate "peer" RemovePeer w).2.
Proof.
  intros w; split; [by vm_compute|].
  assert (H := mutation_all_or_nothing "peer" RemovePeer w eq_refl).
  destruct (mutate "peer" RemovePeer w) as [[r| |] w'] eqn:E; simpl in *;
    [|by vm_compute in E..].
  destruct H as (j & H1 & _ & H2 & _); eauto.
Defined.
