(* ===== verification/PresentationClock.v ===== *)
(** * Presentation clock of decoded video

    Models src/libs/scrap/src/common/video_presentation_clock.rs: the instant at
    which a decoded frame is shown, from the sender's capture times and the local
    clock.  Nanoseconds are [i64] and saturate; capture times are [u64]
    milliseconds. *)

From S2P Require Import Prelude.

Definition DEFAULT_REFRESH_PERIOD_NS : Z := 16666667.
Definition MIN_REFRESH_PERIOD_NS : Z := 4000000.
Definition MAX_REFRESH_PERIOD_NS : Z := 33333334.
Definition MAX_FUTURE_LEAD_NS : Z := 50000000.
Definition LATE_TOLERANCE_PERIODS : Z := 3.
Definition MOVIE_PLAYOUT_DELAY_NS : Z := 50000000.

Inductive PresentationResetReason := RNone | Initial | SourceRegressed | Late | Future.
#[export] Instance Reason_eq_dec : EqDecision PresentationResetReason.
Proof. solve_decision. Defined.

Definition as_str (r : PresentationResetReason) : string :=
  match r with
  | RNone => "none"
  | Initial => "initial"
  | SourceRegressed => "source-regressed"
  | Late => "late"
  | Future => "future"
  end.

Record PresentationSchedule := {
  target_ns : Z;
  source_clock : bool;
  reset : bool;
  reset_reason : PresentationResetReason;
}.

Record VideoPresentationClock := {
  refresh_period_ns : Z;
  anchor_capture_time_ms : option Z;
  anchor_target_ns : Z;
  last_capture_time_ms : Z;
  last_target_ns : Z;
  movie_mode : bool;
}.
#[export] Instance eta_Clock : Eta VideoPresentationClock := fun r =>
  Build_VideoPresentationClock (refresh_period_ns r) (anchor_capture_time_ms r)
    (anchor_target_ns r) (last_capture_time_ms r) (last_target_ns r) (movie_mode r).

Definition normalized_refresh_period (p : Z) : Z :=
  if (MIN_REFRESH_PERIOD_NS <=? p) && (p <=? MAX_REFRESH_PERIOD_NS) then p
  else DEFAULT_REFRESH_PERIOD_NS.

Definition new (p : Z) : VideoPresentationClock :=
  {| refresh_period_ns := normalized_refresh_period p; anchor_capture_time_ms := None;
     anchor_target_ns := 0; last_capture_time_ms := 0; last_target_ns := 0;
     movie_mode := false |}.

Definition reset_anchor (c : VideoPresentationClock) : VideoPresentationClock :=
  c <| anchor_capture_time_ms := None |> <| anchor_target_ns := 0 |>
    <| last_capture_time_ms := 0 |>.

Definition update_refresh_period (p : Z) (c : VideoPresentationClock)
    : VideoPresentationClock :=
  let p := normalized_refresh_period p in
  if negb (refresh_period_ns c =? p) then reset_anchor (c <| refresh_period_ns := p |>) else c.

Definition set_movie_mode (enabled : bool) (c : VideoPresentationClock)
    : VideoPresentationClock :=
  if negb (Bool.eqb (movie_mode c) enabled) then reset_anchor (c <| movie_mode := enabled |>)
  else c.

Definition playout_delay_ms (c : VideoPresentationClock) : Z :=
  if movie_mode c then MOVIE_PLAYOUT_DELAY_NS / 1000000 else 0.

Definition next_monotonic_target (t : Z) (c : VideoPresentationClock) : Z :=
  if last_target_ns c =? 0 then t else Z.max t (i64_sat (last_target_ns c + 1)).

Definition immediate_schedule (now : Z) (c : VideoPresentationClock)
    : PresentationSchedule * VideoPresentationClock :=
  let t := next_monotonic_target now c in
  ({| target_ns := t; source_clock := false; reset := false; reset_reason := RNone |},
   c <| last_target_ns := t |>).

(** The lead a re-anchored frame gets. *)
Definition reset_lead_ns (c : VideoPresentationClock) : Z :=
  if movie_mode c then Z.max MOVIE_PLAYOUT_DELAY_NS (refresh_period_ns c)
  else refresh_period_ns c.

(** Why the anchor is taken anew, before the target is looked at. *)
Definition source_reason (capture : Z) (c : VideoPresentationClock) : PresentationResetReason :=
  if is_some (anchor_capture_time_ms c) && (capture <? last_capture_time_ms c) then SourceRegressed
  else if is_none (anchor_capture_time_ms c) then Initial
  else RNone.

(** The target that keeps the sender's spacing from the anchor. *)
Definition anchored_target (capture : Z) (c : VideoPresentationClock) : Z :=
  let elapsed_ms := sat_sub capture (unwrap_or (anchor_capture_time_ms c) capture) in
  let elapsed_ns := Z.min (sat_mul u64_max elapsed_ms 1000000) i64_max in
  i64_sat (anchor_target_ns c + elapsed_ns).

Definition late_limit_ns (now : Z) (c : VideoPresentationClock) : Z :=
  i64_sat (now - i64_sat (refresh_period_ns c * LATE_TOLERANCE_PERIODS)).
Definition future_limit_ns (now : Z) (c : VideoPresentationClock) : Z :=
  i64_sat (now + Z.max MAX_FUTURE_LEAD_NS (i64_sat (refresh_period_ns c * 3))).

Definition schedule_source (capture now : Z) (c : VideoPresentationClock)
    : PresentationSchedule * VideoPresentationClock :=
  let reason := source_reason capture c in
  let rst := negb (bool_decide (reason = RNone)) in
  let fresh := i64_sat (now + reset_lead_ns c) in
  let t := if rst then fresh else anchored_target capture c in
  let '(rst, reason, t) :=
    if t <? late_limit_ns now c then (true, Late, fresh)
    else if future_limit_ns now c <? t then (true, Future, fresh)
    else (rst, reason, Z.max t now) in
  let t := next_monotonic_target t c in
  let c := if rst then c <| anchor_capture_time_ms := Some capture |> <| anchor_target_ns := t |>
           else c in
  ({| target_ns := t; source_clock := true; reset := rst; reset_reason := reason |},
   c <| last_capture_time_ms := capture |> <| last_target_ns := t |>).

Definition schedule (capture : option Z) (now : Z) (c : VideoPresentationClock)
    : PresentationSchedule * VideoPresentationClock :=
  if now <? 0 then
    ({| target_ns := 0; source_clock := false; reset := false; reset_reason := RNone |},
     reset_anchor c)
  else match capture with
       | None => immediate_schedule now c
       | Some capture =>
           if capture =? 0 then immediate_schedule now (reset_anchor c)
           else schedule_source capture now c
       end.

(** ** Calls *)

Inductive Call :=
  | Schedule (capture : option Z) (now : Z)
  | SetMovieMode (enabled : bool)
  | UpdateRefreshPeriod (p : Z).

Definition exec (e : Call) (c : VideoPresentationClock)
    : option PresentationSchedule * VideoPresentationClock :=
  match e with
  | Schedule capture now => let '(s, c) := schedule capture now c in (Some s, c)
  | SetMovieMode b => (None, set_movie_mode b c)
  | UpdateRefreshPeriod p => (None, update_refresh_period p c)
  end.

(** The local clock: positive, not running backwards, and at most 2^61 ns, which
    is 73 years. *)
Fixpoint clock_ok (now : Z) (es : list Call) : Prop :=
  match es with
  | [] => True
  | Schedule capture now' :: es =>
      now <= now' /\ 0 < now' <= 2305843009213693952 /\ clock_ok now' es
  | _ :: es => clock_ok now es
  end.

Definition targets (es : list Call) (c : VideoPresentationClock) : list Z :=
  target_ns <$> omap id (execs exec es c).1.

(** The largest lead a schedule gives: 50 ms or three refresh periods. *)
Definition MAX_LEAD_NS : Z := 100000002.

Lemma normalized_bounds p :
  MIN_REFRESH_PERIOD_NS <= normalized_refresh_period p <= MAX_REFRESH_PERIOD_NS.
Proof.
  unfold normalized_refresh_period; destruct (_ && _) eqn:E.
  - apply andb_true_iff in E as [?%Z.leb_le ?%Z.leb_le]; done.
  - unfold MIN_REFRESH_PERIOD_NS, MAX_REFRESH_PERIOD_NS, DEFAULT_REFRESH_PERIOD_NS; lia.
Qed.

Lemma i64_sat_id a : i64_min <= a <= i64_max -> i64_sat a = a.
Proof. unfold i64_sat; lia. Qed.

Lemma i64_sat_eq a : i64_sat a = Z.max (-9223372036854775808) (Z.min a 9223372036854775807).
Proof. done. Qed.

Lemma clock_constants :
  MIN_REFRESH_PERIOD_NS = 4000000 /\ MAX_REFRESH_PERIOD_NS = 33333334 /\
  MAX_FUTURE_LEAD_NS = 50000000 /\ MOVIE_PLAYOUT_DELAY_NS = 50000000 /\
  MAX_LEAD_NS = 100000002 /\ LATE_TOLERANCE_PERIODS = 3.
Proof. done. Qed.
Ltac with_constants := destruct clock_constants as (? & ? & ? & ? & ? & ?); rewrite ?i64_sat_eq in *.

Definition period_ok (c : VideoPresentationClock) : Prop :=
  MIN_REFRESH_PERIOD_NS <= refresh_period_ns c <= MAX_REFRESH_PERIOD_NS.

Lemma reset_lead_bounds c : period_ok c -> 4000000 <= reset_lead_ns c <= 50000000.
Proof. intros [? ?]; with_constants; unfold reset_lead_ns; destruct (movie_mode c); lia. Qed.

Lemma future_limit_bound now c :
  period_ok c -> 0 < now <= 2305843009213693952 -> future_limit_ns now c <= now + MAX_LEAD_NS.
Proof. intros [? ?] ?; unfold future_limit_ns; with_constants; lia. Qed.

(** A scheduled target before the monotonic step lies between now and the lead. *)
Lemma schedule_spec capture now c :
  period_ok c -> 0 < now <= 2305843009213693952 ->
  exists t, now <= t <= now + MAX_LEAD_NS /\
    target_ns (schedule capture now c).1 = next_monotonic_target t c /\
    last_target_ns (schedule capture now c).2 = next_monotonic_target t c /\
    period_ok (schedule capture now c).2.
Proof.
  intros Hp Hn; unfold schedule; destruct (Z.ltb_spec now 0); [lia|].
  assert (Hnow : now <= now <= now + MAX_LEAD_NS) by (with_constants; lia).
  destruct capture as [cap|]; [|by exists now].
  destruct (cap =? 0); [by exists now|].
  unfold schedule_source. set (fresh := i64_sat (now + reset_lead_ns c)).
  assert (Hf : now <= fresh <= now + MAX_LEAD_NS).
  { assert (Hr := reset_lead_bounds c Hp). unfold fresh; with_constants; lia. }
  set (t0 := if negb _ then fresh else _).
  destruct (t0 <? late_limit_ns now c); [by exists fresh|].
  destruct (Z.ltb_spec (future_limit_ns now c) t0) as [Hu|Hu]; [by exists fresh|].
  assert (Hb := future_limit_bound now c Hp Hn).
  exists (Z.max t0 now); split; [lia|by destruct (negb _)].
Qed.

Definition nows (es : list Call) : list Z :=
  omap (fun e => match e with Schedule _ now => Some now | _ => None end) es.

Lemma settings_keep e c :
  (forall capture now, e <> Schedule capture now) -> period_ok c ->
  (exec e c).1 = None /\ period_ok (exec e c).2 /\
  last_target_ns (exec e c).2 = last_target_ns c.
Proof.
  intros He Hp; destruct e as [capture now|b|p]; [by destruct (He capture now)|..]; simpl.
  - unfold set_movie_mode; by destruct (negb _).
  - unfold update_refresh_period; destruct (negb _); [|done]. split_and!; try done.
    apply normalized_bounds.
Qed.

Lemma next_monotonic_spec t c :
  0 <= last_target_ns c < 9223372036854775807 -> 0 < t ->
  let t' := next_monotonic_target t c in
  last_target_ns c < t' /\ t <= t' /\ (t' = t \/ t' = last_target_ns c + 1).
Proof.
  intros Hl Ht; unfold next_monotonic_target.
  destruct (Z.eqb_spec (last_target_ns c) 0); [lia|]. with_constants; lia.
Qed.

Lemma targets_spec es c now0 k :
  period_ok c -> 0 <= last_target_ns c <= now0 + MAX_LEAD_NS + k -> 0 <= k ->
  k + Z.of_nat (length es) <= 2305843009213693952 -> 0 <= now0 <= 2305843009213693952 ->
  clock_ok now0 es ->
  StronglySorted Z.lt (last_target_ns c :: targets es c) /\
  Forall2 (fun now t => now <= t <= now + MAX_LEAD_NS + k + Z.of_nat (length es))
    (nows es) (targets es c).
Proof.
  revert c now0 k; induction es as [|e es IH]; intros c now0 k Hp Hl Hk Hlen Hn Hc.
  { split; repeat constructor. }
  unfold targets in *; rewrite execs_cons; cbn [fst snd]. cbn [length] in Hlen |- *.
  destruct e as [capture now|b|p].
  - destruct Hc as (Hle & Hpos & Hc). simpl in *.
    destruct (schedule_spec capture now c Hp Hpos) as (t & Ht & Htgt & Hlast & Hp').
    destruct (schedule capture now c) as [s c1]; cbn [fst snd] in *.
    destruct (next_monotonic_spec t c) as (M1 & M2 & M3); [with_constants; lia|lia|].
    set (t' := next_monotonic_target t c) in *.
    destruct (IH c1 now (k + 1)) as [S1 S2]; [done|rewrite Hlast; lia|lia|lia|lia|done|].
    rewrite Hlast in S1. cbn [omap list_omap id fmap list_fmap]. rewrite Htgt. split.
    + constructor; [done|]. constructor; [lia|]. apply StronglySorted_inv in S1 as [_ S1].
      eapply Forall_impl; [exact S1|]. simpl; lia.
    + constructor; [lia|]. eapply Forall2_impl; [exact S2|]. simpl; lia.
  - destruct (settings_keep (SetMovieMode b) c) as (E1 & E2 & E3); [done|done|].
    destruct (exec (SetMovieMode b) c) as [o c1]; cbn [fst snd] in *; subst o.
    destruct (IH c1 now0 k) as [S1 S2]; [done|lia|lia|lia|lia|done|]. rewrite E3 in S1.
    split; [done|]. eapply Forall2_impl; [exact S2|]. simpl; lia.
  - destruct (settings_keep (UpdateRefreshPeriod p) c) as (E1 & E2 & E3); [done|done|].
    destruct (exec (UpdateRefreshPeriod p) c) as [o c1]; cbn [fst snd] in *; subst o.
    destruct (IH c1 now0 k) as [S1 S2]; [done|lia|lia|lia|lia|done|]. rewrite E3 in S1.
    split; [done|]. eapply Forall2_impl; [exact S2|]. simpl; lia.
Qed.

(** Presentation times advance and stay close: for any capture times, missing
    or absurd ones included, and any mode or refresh changes, the targets of
    successive frames strictly increase, none is before the local clock, and none
    is further ahead of it than 100 ms (three slow refresh periods) plus a
    nanosecond per frame. *)
Theorem targets_monotone_bounded p es :
  clock_ok 0 es -> Z.of_nat (length es) <= 2305843009213693952 ->
  StronglySorted Z.lt (targets es (new p)) /\
  Forall2 (fun now t => now <= t <= now + MAX_LEAD_NS + Z.of_nat (length es))
    (nows es) (targets es (new p)).
Proof.
  intros Hc Hl; destruct (targets_spec es (new p) 0 0) as [S1 S2];
    [apply normalized_bounds|simpl; with_constants; lia|lia|lia|lia|done|].
  apply StronglySorted_inv in S1 as [S1 _]. split; [done|].
  eapply Forall2_impl; [exact S2|]. simpl; lia.
Qed.

Lemma targets_monotone_bounded_witness :
  let es := [Schedule (Some 1000) 10000000000; Schedule None 10001000000;
             SetMovieMode true; Schedule (Some 18446744073709551615) 10002000000] in
  targets es (new 8333333) = [10008333333; 10008333334; 10052000000] /\
  StronglySorted Z.lt (targets es (new 8333333)).
Proof.
  intros es; split; [by vm_compute|].
  apply (targets_monotone_bounded 8333333 es); [|by vm_compute].
  vm_compute; repeat split; discriminate.
Defined.

Lemma anchored_target_exact capture c a :
  anchor_capture_time_ms c = Some a -> a <= capture <= a + 2305843009213 ->
  0 <= anchor_target_ns c <= 2305843009213693952 ->
  anchored_target capture c = anchor_target_ns c + (capture - a) * 1000000.
Proof.
  intros Ha Hc Ht; unfold anchored_target; rewrite Ha; simpl.
  assert (E : sat_mul u64_max (sat_sub capture a) 1000000 = (capture - a) * 1000000).
  { unfold sat_mul, sat_sub, u64_max; lia. }
  rewrite E, i64_sat_id; unfold i64_max, i64_min; lia.
Qed.

Lemma source_reason_none capture c a :
  anchor_capture_time_ms c = Some a -> last_capture_time_ms c <= capture ->
  source_reason capture c = RNone.
Proof.
  intros Ha Hc; unfold source_reason; rewrite Ha; simpl.
  destruct (Z.ltb_spec capture (last_capture_time_ms c)); [lia|done].
Qed.

Lemma next_monotonic_past t c :
  0 <= last_target_ns c < t -> t <= 9223372036854775807 -> next_monotonic_target t c = t.
Proof.
  intros Hl Ht; unfold next_monotonic_target. destruct (_ =? 0); [done|]. with_constants; lia.
Qed.

Lemma limits_ordered now c :
  period_ok c -> 0 < now <= 2305843009213693952 ->
  late_limit_ns now c < now /\ future_limit_ns now c < 9223372036854775807 /\
  i64_sat (now + reset_lead_ns c) = now + reset_lead_ns c.
Proof.
  intros Hp Hn; assert (Hr := reset_lead_bounds c Hp); assert (Hf := future_limit_bound now c Hp Hn).
  destruct Hp; unfold late_limit_ns; with_constants; lia.
Qed.

(** The sender's cadence is kept: a frame whose capture time does not go back
    and whose anchored target is neither past nor further ahead than the limit
    is shown exactly at that target, the anchor's plus the time elapsed between
    the two captures, without touching the anchor; a frame that is too late or too
    far ahead is shown one lead after now and becomes the new anchor. *)
Theorem cadence_preserved capture now c a :
  anchor_capture_time_ms c = Some a -> period_ok c ->
  0 < now <= 2305843009213693952 -> 0 < a <= last_capture_time_ms c ->
  last_capture_time_ms c <= capture <= a + 2305843009213 ->
  0 <= anchor_target_ns c <= 2305843009213693952 -> 0 <= last_target_ns c ->
  let ideal := anchor_target_ns c + (capture - a) * 1000000 in
  let lead := reset_lead_ns c in
  let '(s, c') := schedule (Some capture) now c in
  last_capture_time_ms c' = capture /\ last_target_ns c' = target_ns s /\
  (now <= ideal <= future_limit_ns now c -> last_target_ns c < ideal ->
     s = {| target_ns := ideal; source_clock := true; reset := false; reset_reason := RNone |} /\
     anchor_capture_time_ms c' = Some a /\ anchor_target_ns c' = anchor_target_ns c) /\
  (ideal < late_limit_ns now c \/ future_limit_ns now c < ideal ->
     last_target_ns c < now + lead ->
     target_ns s = now + lead /\ reset s = true /\
     reset_reason s = (if ideal <? late_limit_ns now c then Late else Future) /\
     anchor_capture_time_ms c' = Some capture /\ anchor_target_ns c' = now + lead).
Proof.
  intros Ha Hp Hn Ha' Hc Ht Hl ideal lead; unfold schedule.
  destruct (Z.ltb_spec now 0); [lia|]. destruct (Z.eqb_spec capture 0); [lia|].
  unfold schedule_source; rewrite (source_reason_none _ _ a) by (done || lia). cbn [negb bool_decide].
  rewrite bool_decide_true by done; cbn [negb].
  rewrite (anchored_target_exact _ _ a) by (done || lia). fold ideal.
  destruct (limits_ordered now c Hp Hn) as (L1 & L2 & L3); rewrite L3; fold lead.
  assert (Hr := reset_lead_bounds c Hp); fold lead in Hr.
  destruct (Z.ltb_spec ideal (late_limit_ns now c)) as [Hlate|Hlate];
    [|destruct (Z.ltb_spec (future_limit_ns now c) ideal) as [Hfut|Hfut]]; cbn -[Z.max].
  - split_and!; try done; [lia|]. intros _ Hlt; rewrite next_monotonic_past by lia; done.
  - split_and!; try done; [lia|]. intros _ Hlt; rewrite next_monotonic_past by lia; done.
  - split_and!; try done; [|lia]. intros Hin Hlt. rewrite Z.max_l by lia.
    rewrite next_monotonic_past by lia; done.
Qed.

Lemma cadence_preserved_witness :
  let c := (schedule (Some 1000) 10000000000 (new 8333333)).2 in
  target_ns (schedule (Some 1033) 10033000000 c).1 = anchor_target_ns c + 33 * 1000000.
Proof.
  intros c.
  assert (H := cadence_preserved 1033 10033000000 c 1000 eq_refl
    ltac:(vm_compute; split; discriminate) ltac:(vm_compute; split; (reflexivity || discriminate))
    ltac:(vm_compute; split; (reflexivity || discriminate)) ltac:(vm_compute; split; discriminate)
    ltac:(vm_compute; split; discriminate) ltac:(vm_compute; discriminate)).
  cbv zeta in H. destruct (schedule (Some 1033) 10033000000 c) as [s c'].
  destruct H as (_ & _ & H & _). destruct H as [-> _]; [|by vm_compute|done].
  vm_compute; split; discriminate.
Defined.
