(* ===== verification/Floats.v ===== *)
(** * IEEE 754 arithmetic of the video controller

    [f32] and [f64] are the standard library's executable specification of
    binary floating point ([SpecFloat]) at precision 24 and 53.  On top of it:
    Rust's literals, [min], [max], [clamp], [abs], [round], [ceil], the casts
    from and to integers, and [Duration::from_secs_f32].  The lemmas say that
    the comparison is a total preorder on the values that are not NaN, what the
    bounds of [min], [max] and [clamp] are, and when a product or a quotient is
    not NaN. *)

From Stdlib Require Import SpecFloat.
From S2P Require Import Prelude.

Abbreviation f32 := spec_float (only parsing).
Abbreviation f64 := spec_float (only parsing).

#[export] Instance spec_float_eq_dec : EqDecision spec_float.
Proof. solve_decision. Defined.

Definition f32_mul (x y : f32) : f32 := SFmul 24 128 x y.
Definition f32_add (x y : f32) : f32 := SFadd 24 128 x y.
Definition f32_sub (x y : f32) : f32 := SFsub 24 128 x y.
Definition f32_div (x y : f32) : f32 := SFdiv 24 128 x y.
Definition f64_mul (x y : f64) : f64 := SFmul 53 1024 x y.
Definition f64_sub (x y : f64) : f64 := SFsub 53 1024 x y.
Definition f64_div (x y : f64) : f64 := SFdiv 53 1024 x y.

(** [z as f32] and [z as f64]. *)
Definition f32_of (z : Z) : f32 := binary_normalize 24 128 z 0 false.
Definition f64_of (z : Z) : f64 := binary_normalize 53 1024 z 0 false.

(** The decimal literal [n / d]; both parts are exact, so that the division is
    the correct rounding of the literal. *)
Definition f32_lit (n d : Z) : f32 := f32_div (f32_of n) (f32_of d).
Definition f64_lit (n d : Z) : f64 := f64_div (f64_of n) (f64_of d).

(** [x <= y], [x < y] and [x == y] of either width. *)
Definition fle (x y : spec_float) : bool := SFleb x y.
Definition flt (x y : spec_float) : bool := SFltb x y.
Definition feq (x y : spec_float) : bool := SFeqb x y.

Definition is_nan (x : spec_float) : bool := match x with S754_nan => true | _ => false end.

(** [f32::max], [f32::min]: the other argument when one is NaN. *)
Definition fmax (x y : spec_float) : spec_float :=
  if is_nan x then y else if is_nan y then x else if flt x y then y else x.
Definition fmin (x y : spec_float) : spec_float :=
  if is_nan x then y else if is_nan y then x else if flt y x then y else x.
(** [f32::clamp], which panics when its bounds are not ordered. *)
Definition fclamp (lo hi x : spec_float) : spec_float :=
  let x := if flt x lo then lo else x in
  if flt hi x then hi else x.

(** The integer part towards zero of [m * 2^e], and whether something is left. *)
Definition trunc_parts (m : positive) (e : Z) : Z * bool :=
  if 0 <=? e then (Z.pos m * 2 ^ e, false)
  else (Z.pos m / 2 ^ (- e), negb (Z.pos m mod 2 ^ (- e) =? 0)).

(** [x as u32]: truncated, saturating, NaN is 0. *)
Definition f32_as_u32 (x : f32) : Z :=
  match x with
  | S754_infinity false => u32_max
  | S754_finite false m e => Z.min (fst (trunc_parts m e)) u32_max
  | _ => 0
  end.

(** [f32::ceil] and [f64::round] (half away from zero). *)
Definition f32_ceil (x : f32) : f32 :=
  match x with
  | S754_finite s m e =>
      let '(t, rest) := trunc_parts m e in
      if s then binary_normalize 24 128 (- t) 0 true
      else binary_normalize 24 128 (t + Z.b2z rest) 0 false
  | _ => x
  end.
Definition f64_round (x : f64) : f64 :=
  match x with
  | S754_finite s m e =>
      if 0 <=? e then x
      else let t := (2 * Z.pos m + 2 ^ (- e)) / (2 * 2 ^ (- e)) in
           binary_normalize 53 1024 (if s then - t else t) 0 s
  | _ => x
  end.
Definition f64_abs (x : f64) : f64 := SFabs x.

(** [Duration::from_secs_f32]: the nearest nanosecond, ties to even; it panics
    on a negative or an infinite argument, which is [None]. *)
Definition from_secs_f32 (x : f32) : option duration :=
  match x with
  | S754_zero _ => Some 0
  | S754_finite false m e =>
      if 0 <=? e then Some (Z.pos m * 2 ^ e * 1000000000)
      else let n := Z.pos m * 1000000000 in
           let d := 2 ^ (- e) in
           let q := n / d in
           let r := 2 * (n mod d) in
           Some (if d <? r then q + 1 else if (r =? d) && Z.odd q then q + 1 else q)
  | _ => None
  end.

(** ** The order *)

Lemma compare_swap x y :
  SFcompare y x = match SFcompare x y with Some c => Some (CompOpp c) | None => None end.
Proof.
  destruct x as [[]|[]| |[] m e], y as [[]|[]| |[] m' e']; try reflexivity; simpl;
    rewrite (Z.compare_antisym e e'); destruct (e ?= e') eqn:He; simpl; try reflexivity;
    f_equal; fold (m ?= m')%positive; fold (m' ?= m)%positive;
    rewrite (Pos.compare_antisym m m'); by destruct (m ?= m')%positive.
Qed.

Lemma compare_nan x y : SFcompare x y = None <-> is_nan x = true \/ is_nan y = true.
Proof.
  split.
  - destruct x as [[]|[]| |[] m e], y as [[]|[]| |[] m' e']; simpl; intros H; auto; discriminate.
  - intros [H|H]; destruct x as [[]|[]| |[] m e], y as [[]|[]| |[] m' e']; done.
Qed.

Lemma fle_flt x y : is_nan x = false -> is_nan y = false -> fle x y = negb (flt y x).
Proof.
  intros Hx Hy; unfold fle, flt, SFleb, SFltb; rewrite (compare_swap x y).
  destruct (SFcompare x y) as [[]|] eqn:E; try done.
  apply compare_nan in E as [?|?]; congruence.
Qed.

Lemma flt_fle x y : flt x y = true -> fle x y = true.
Proof. unfold fle, flt, SFleb, SFltb; by destruct (SFcompare x y) as [[]|]. Qed.

Lemma flt_not_fle x y : flt x y = true -> fle y x = false.
Proof.
  unfold fle, flt, SFleb, SFltb; rewrite (compare_swap x y).
  by destruct (SFcompare x y) as [[]|].
Qed.

Lemma fle_refl x : is_nan x = false -> fle x x = true.
Proof.
  intros Hx; rewrite fle_flt by done; unfold flt, SFltb.
  pose proof (compare_swap x x) as H; destruct (SFcompare x x) as [[]|]; done.
Qed.

Lemma fle_not_nan x y : fle x y = true -> is_nan x = false /\ is_nan y = false.
Proof.
  unfold fle, SFleb; destruct (SFcompare x y) as [c|] eqn:E; [intros _|done].
  split; apply not_true_is_false; intros H;
    rewrite (proj2 (compare_nan x y)) in E by auto; done.
Qed.

Lemma fle_trans x y z : fle x y = true -> fle y z = true -> fle x z = true.
Proof.
  unfold fle, SFleb.
  destruct x as [[]|[]| |[] m1 e1], y as [[]|[]| |[] m2 e2]; simpl; try done;
    destruct z as [[]|[]| |[] m3 e3]; simpl; try done;
    change (Pos.compare_cont Eq) with Pos.compare;
    destruct (Z.compare_spec e1 e2), (Z.compare_spec e2 e3), (Z.compare_spec e1 e3); try done; try lia;
    destruct (Pos.compare_spec m1 m2), (Pos.compare_spec m2 m3), (Pos.compare_spec m1 m3);
    simpl; try done; lia.
Qed.

Lemma flt_fle_trans x y z : flt x y = true -> fle y z = true -> flt x z = true.
Proof.
  intros Hxy Hyz.
  destruct (fle_not_nan x y (flt_fle _ _ Hxy)) as [Hx Hy], (fle_not_nan _ _ Hyz) as [_ Hz].
  destruct (flt x z) eqn:E; [done|].
  assert (fle z x = true) as Hzx by (rewrite fle_flt, E by done; done).
  pose proof (fle_trans _ _ _ Hyz Hzx) as H; rewrite (flt_not_fle x y) in H by done; done.
Qed.

(** ** [min], [max] and [clamp] *)

Lemma fmax_not_nan x y : is_nan x = false \/ is_nan y = false -> is_nan (fmax x y) = false.
Proof. unfold fmax; intros H; cases; naive_solver. Qed.
Lemma fmin_not_nan x y : is_nan x = false \/ is_nan y = false -> is_nan (fmin x y) = false.
Proof. unfold fmin; intros H; cases; naive_solver. Qed.

Lemma fmax_ub_l x y : is_nan x = false -> fle x (fmax x y) = true.
Proof.
  intros Hx; unfold fmax; rewrite Hx.
  destruct (is_nan y) eqn:Hy; [by apply fle_refl|].
  destruct (flt x y) eqn:E; [by apply flt_fle|by apply fle_refl].
Qed.
Lemma fmax_ub_r x y : is_nan y = false -> fle y (fmax x y) = true.
Proof.
  intros Hy; unfold fmax; destruct (is_nan x) eqn:Hx; [by apply fle_refl|]; rewrite Hy.
  destruct (flt x y) eqn:E; [by apply fle_refl|by rewrite fle_flt, E].
Qed.
Lemma fmin_lb_l x y : is_nan x = false -> fle (fmin x y) x = true.
Proof.
  intros Hx; unfold fmin; rewrite Hx.
  destruct (is_nan y) eqn:Hy; [by apply fle_refl|].
  destruct (flt y x) eqn:E; [by apply flt_fle|by apply fle_refl].
Qed.
Lemma fmin_lb_r x y : is_nan y = false -> fle (fmin x y) y = true.
Proof.
  intros Hy; unfold fmin; destruct (is_nan x) eqn:Hx; [by apply fle_refl|]; rewrite Hy.
  destruct (flt y x) eqn:E; [by apply fle_refl|by rewrite fle_flt, E].
Qed.
Lemma fmin_cases x y : fmin x y = x \/ fmin x y = y.
Proof. unfold fmin; cases; auto. Qed.
Lemma fmax_cases x y : fmax x y = x \/ fmax x y = y.
Proof. unfold fmax; cases; auto. Qed.

(** A lower bound of both is a lower bound of the minimum. *)
Lemma fmin_glb z x y : fle z x = true -> fle z y = true -> fle z (fmin x y) = true.
Proof. destruct (fmin_cases x y) as [-> | ->]; auto. Qed.
Lemma fmax_lub x y z : fle x z = true -> fle y z = true -> fle (fmax x y) z = true.
Proof. destruct (fmax_cases x y) as [-> | ->]; auto. Qed.

Lemma fclamp_bounds lo hi x :
  fle lo hi = true -> is_nan x = false ->
  fle lo (fclamp lo hi x) = true /\ fle (fclamp lo hi x) hi = true.
Proof.
  intros Hle Hx; destruct (fle_not_nan _ _ Hle) as [Hlo Hhi]; unfold fclamp.
  destruct (flt x lo) eqn:E1.
  - destruct (flt hi lo) eqn:E2.
    + rewrite (flt_not_fle _ _ E2) in Hle; done.
    + by split; [apply fle_refl|].
  - assert (fle lo x = true) by (rewrite fle_flt, E1; done).
    destruct (flt hi x) eqn:E2; [by split; [|apply fle_refl]|].
    split; [done|]; by rewrite fle_flt, E2.
Qed.

(** ** Results that are not NaN *)

Lemma shr_1_nonneg r : 0 <= shr_m r -> 0 <= shr_m (shr_1 r).
Proof. destruct r as [[|[p|p|]|[p|p|]] r s]; simpl; lia. Qed.

Lemma iter_shr_nonneg p r : 0 <= shr_m r -> 0 <= shr_m (SpecFloat.iter_pos shr_1 p r).
Proof. revert r; induction p as [p IH|p IH|]; intros r H; simpl; auto using shr_1_nonneg. Qed.

Lemma shr_fexp_nonneg prec emax m e l : 0 <= m -> 0 <= shr_m (fst (shr_fexp prec emax m e l)).
Proof.
  intros H; unfold shr_fexp, shr.
  assert (0 <= shr_m (shr_record_of_loc m l)) by (destruct l as [|[]]; done).
  destruct (fexp prec emax (Z.add (Zdigits2 m) e) - e); simpl; auto using iter_shr_nonneg.
Qed.

Lemma round_even_nonneg m l : 0 <= m -> 0 <= round_nearest_even m l.
Proof. destruct l as [|[]]; simpl; try lia. destruct (Z.even m); lia. Qed.

Lemma binary_round_aux_not_nan prec emax s m e l :
  0 <= m -> is_nan (binary_round_aux prec emax s m e l) = false.
Proof.
  intros H; unfold binary_round_aux.
  pose proof (shr_fexp_nonneg prec emax m e l H) as H1.
  destruct (shr_fexp prec emax m e l) as [r1 e1]; simpl in H1.
  pose proof (shr_fexp_nonneg prec emax _ e1 loc_Exact
                (round_even_nonneg _ (loc_of_shr_record r1) H1)) as H2.
  destruct (shr_fexp _ _ (round_nearest_even _ _) e1 loc_Exact) as [r2 e2]; simpl in H2.
  destruct (shr_m r2); [done| |lia]. by destruct (Z.leb _ _).
Qed.

(** A finite number that is not zero. *)
Definition is_finite_nonzero (x : spec_float) : bool :=
  match x with S754_finite _ _ _ => true | _ => false end.

Lemma f32_mul_not_nan x y :
  is_nan x = false -> is_finite_nonzero y = true -> is_nan (f32_mul x y) = false.
Proof.
  intros Hx Hy; unfold f32_mul; destruct x, y; try done; simpl.
  apply binary_round_aux_not_nan; lia.
Qed.

Lemma f32_div_not_nan x y :
  is_nan x = false -> is_finite_nonzero y = true -> is_nan (f32_div x y) = false.
Proof.
  intros Hx Hy; unfold f32_div; destruct x, y as [| | |s2 m2 e2]; try done; cbn [SFdiv].
  unfold SFdiv_core_binary; cbv zeta.
  set (m' := match _ with Z0 => _ | Zpos _ => _ | Zneg _ => _ end).
  assert (0 <= m') as Hm'.
  { unfold m'; destruct (_ - _ - _); [lia| |done]. apply Z.shiftl_nonneg; lia. }
  pose proof (Z.div_pos m' (Z.pos m2) Hm' ltac:(lia)) as Hq; unfold Z.div in Hq.
  destruct (Z.div_eucl m' (Z.pos m2)) as [q r].
  by apply binary_round_aux_not_nan.
Qed.

Lemma f32_of_not_nan z : is_nan (f32_of z) = false.
Proof.
  unfold f32_of, binary_normalize, binary_round; destruct z as [|p|p]; [done|..];
    destruct (shl_align _ _ _); apply binary_round_aux_not_nan; lia.
Qed.

Lemma f32_as_u32_range x : 0 <= f32_as_u32 x <= u32_max.
Proof.
  unfold f32_as_u32, u32_max; destruct x as [|[]| |[] m e]; try lia.
  unfold trunc_parts; destruct (Z.leb_spec 0 e); simpl.
  - assert (0 <= 2 ^ e) by (apply Z.pow_nonneg; lia). assert (0 <= Z.pos m * 2 ^ e) by nia. lia.
  - assert (0 <= Z.pos m / 2 ^ (- e)) by (apply Z_div_nonneg_nonneg; [lia|apply Z.pow_nonneg; lia]); lia.
Qed.
