(* ===== verification/MovieCadence.v ===== *)
(** * The movie cadence controller of the host

    Models [MovieCadenceController] of src/src/server/video_qos.rs: the tiers of
    frame rates that suit the viewer's display, the probation phase after a
    movie starts, the steps down under sustained pressure and up after sustained
    health, and the way src/src/server/video_service.rs drives it ([round]): the
    encoder is recreated at the decided rate, a failed upshift is taken back,
    and a failed downshift ends the service. *)

From Stdlib Require Import SpecFloat.
From S2P Require Import Prelude Floats.

Definition FPS : Z := 30.
Definition MIN_FPS : Z := 1.
Definition MAX_FPS : Z := 120.
Definition MOVIE_PROBATION_HEALTHY : duration := from_secs 2.
Definition MOVIE_PRESSURE_DURATION : duration := from_secs 2.
Definition MOVIE_UPSHIFT_HEALTHY : duration := from_secs 20.
Definition MOVIE_MINIMUM_DWELL : duration := from_secs 10.

Record MovieViewerMetrics := {
  available : bool;
  all_rendered : bool;
  max_queue_depth_frames : Z;
  max_decode_time_us : Z;
  max_render_submit_time_us : Z;
  dropped_frames : Z;
  display_refresh_millihz : Z;
  presentation_late_frames : Z;
  presentation_dropped_frames : Z;
  presentation_jitter_p95_us : Z;
}.

#[export] Instance eta_metrics : Eta MovieViewerMetrics :=
  fun m => Build_MovieViewerMetrics (available m) (all_rendered m) (max_queue_depth_frames m)
    (max_decode_time_us m) (max_render_submit_time_us m) (dropped_frames m) (display_refresh_millihz m)
    (presentation_late_frames m) (presentation_dropped_frames m) (presentation_jitter_p95_us m).

Definition default_metrics : MovieViewerMetrics :=
  {| available := false; all_rendered := false; max_queue_depth_frames := 0;
     max_decode_time_us := 0; max_render_submit_time_us := 0; dropped_frames := 0;
     display_refresh_millihz := 0; presentation_late_frames := 0;
     presentation_dropped_frames := 0; presentation_jitter_p95_us := 0 |}.

Record MovieCadenceSample := {
  now : instant;
  sample_target_fps : Z;
  host_pipeline_p95_us : Z;
  host_iterations : Z;
  host_missed_slots : Z;
  viewer : MovieViewerMetrics;
  local_admission_pressure : bool;
}.

Inductive MovieCadenceReason :=
| ProbationComplete | HostCapacity | ViewerCapacity | DeliveryPressure | HealthyUpshift | TargetChanged.

Record MovieCadenceDecision := {
  previous_fps : Z;
  current_fps : Z;
  reason : MovieCadenceReason;
}.

Record MovieCadenceController := {
  target_fps : Z;
  tiers : list Z;
  current_tier : Z;
  last_change : instant;
  pressure_since : option instant;
  healthy_since : option instant;
  probation_complete : bool;
  refresh_millihz : Z;
  last_viewer_counters : option (Z * Z * Z);
}.

#[export] Instance eta_cadence : Eta MovieCadenceController :=
  fun c => Build_MovieCadenceController (target_fps c) (tiers c) (current_tier c) (last_change c)
    (pressure_since c) (healthy_since c) (probation_complete c) (refresh_millihz c)
    (last_viewer_counters c).

Definition monotonic_counter_delta (current previous : Z) : Z :=
  if previous <=? current then current - previous else 0.

(** ** The tiers *)

Definition COMMON_TIERS : list Z := [60; 50; 48; 45; 40; 30; 25; 24].

(** [tiers.sort_unstable_by(|l, r| r.cmp(l))]. *)
Definition desc (l r : Z) : Prop := r <= l.
#[export] Instance desc_dec l r : Decision (desc l r) := Z_le_dec r l.
#[export] Instance desc_total : Total desc.
Proof. intros x y; unfold desc; lia. Qed.
Definition sort_desc (l : list Z) : list Z := merge_sort desc l.

(** Whether [fps] divides the refresh rate of the display well enough. *)
Definition fits_refresh (refresh target fps : Z) : bool :=
  if target <? fps then false
  else if (fps =? FPS) && (FPS <=? target) then true
  else
    let periods := f64_div (f64_of refresh) (f64_mul (f64_of fps) (f64_of 1000)) in
    fle (f64_abs (f64_sub periods (f64_round periods))) (f64_lit 2 100).

Definition movie_cadence_tiers (target refresh : Z) : list Z :=
  let target := clampZ MIN_FPS MAX_FPS target in
  let t := if refresh =? 0 then take 1 (filter (fun fps => fps <= target) COMMON_TIERS)
           else filter (fun fps => fits_refresh refresh target fps = true) COMMON_TIERS in
  let t := if (FPS <=? target) && negb (bool_decide (FPS ∈ t)) then t ++ [FPS] else t in
  let t := if bool_decide (t = []) then [target] else t in
  dedup (sort_desc t).

(** ** The controller *)

Definition new (target refresh : Z) (at_ : instant) : MovieCadenceController :=
  let target := clampZ MIN_FPS MAX_FPS target in
  let t := movie_cadence_tiers target refresh in
  let current := match list_find (fun fps => fps <= FPS) t with
                 | Some (_, fps) => fps
                 | None => unwrap_or (last t) target
                 end in
  {| target_fps := target; tiers := t; current_tier := current; last_change := at_;
     pressure_since := None; healthy_since := None;
     probation_complete := current =? target; refresh_millihz := refresh;
     last_viewer_counters := None |}.

Definition reject_change (c : MovieCadenceController) (previous rejected : Z) (at_ : instant) :
    MovieCadenceController :=
  let c := c <| current_tier := previous |> in
  let c := if previous <? rejected
           then c <| tiers ::= filter (fun fps => fps <= previous) |> <| probation_complete := true |>
           else c in
  c <| last_change := at_ |> <| pressure_since := None |> <| healthy_since := None |>.

Definition change_tier (c : MovieCadenceController) (next : Z) (r : MovieCadenceReason)
    (at_ : instant) : option MovieCadenceDecision * MovieCadenceController :=
  if next =? current_tier c then (None, c)
  else (Some {| previous_fps := current_tier c; current_fps := next; reason := r |},
        c <| current_tier := next |> <| last_change := at_ |> <| pressure_since := None |>
          <| healthy_since := None |> <| probation_complete := true |>).

(** [tiers.iter().position(|fps| *fps == current_tier)]. *)
Definition tier_index (c : MovieCadenceController) : option nat :=
  fst <$> list_find (fun fps => fps = current_tier c) (tiers c).

Definition next_lower_tier (c : MovieCadenceController) : option Z :=
  i ← tier_index c; tiers c !! S i.

Definition next_higher_tier (c : MovieCadenceController) : option Z :=
  i ← tier_index c; match i with O => None | S j => tiers c !! j end.

Definition viewer_counter_deltas (c : MovieCadenceController) (v : MovieViewerMetrics) :
    (Z * Z * Z) * MovieCadenceController :=
  let current := (dropped_frames v, presentation_late_frames v, presentation_dropped_frames v) in
  let c' := c <| last_viewer_counters := Some current |> in
  match last_viewer_counters c with
  | None => ((0, 0, 0), c')
  | Some (d, l, p) =>
      ((monotonic_counter_delta (dropped_frames v) d,
        monotonic_counter_delta (presentation_late_frames v) l,
        monotonic_counter_delta (presentation_dropped_frames v) p), c')
  end.

Definition update_probation_tiers (c : MovieCadenceController) (refresh : Z) : MovieCadenceController :=
  if probation_complete c || (refresh =? 0) || (refresh =? refresh_millihz c) then c
  else
    let t := movie_cadence_tiers (target_fps c) refresh in
    if bool_decide (current_tier c ∈ t) then c <| tiers := t |> <| refresh_millihz := refresh |> else c.

Definition update_target (c : MovieCadenceController) (target refresh : Z) (at_ : instant) :
    option MovieCadenceDecision * MovieCadenceController :=
  let target := clampZ MIN_FPS MAX_FPS target in
  if target =? target_fps c then (None, c)
  else
    let previous_target := target_fps c in
    let t := movie_cadence_tiers target refresh in
    let t := if (previous_target <? target) && (current_tier c <? target)
                && negb (bool_decide (current_tier c ∈ t))
             then sort_desc (t ++ [current_tier c]) else t in
    let c := c <| target_fps := target |> <| tiers := t |> <| refresh_millihz := refresh |>
               <| pressure_since := None |> <| healthy_since := None |> in
    if bool_decide (current_tier c ∈ t)
    then (None, c <| probation_complete := target <=? current_tier c |>)
    else change_tier c (unwrap_or (head t) target) TargetChanged at_.

(** [1_000_000 / fps.max(1)]. *)
Definition period_us (fps : Z) : Z := 1000000 / Z.max fps 1.

Definition missed_ratio (s : MovieCadenceSample) : f64 :=
  if host_iterations s =? 0 then f64_of 0
  else f64_div (f64_of (host_missed_slots s)) (f64_of (host_iterations s)).

Definition host_pressure (c : MovieCadenceController) (s : MovieCadenceSample) : bool :=
  let frame_period_us := period_us (current_tier c) in
  if (FPS <=? target_fps c) && (current_tier c <=? FPS)
  then (frame_period_us * 95 / 100 <? host_pipeline_p95_us s) || flt (f64_lit 20 100) (missed_ratio s)
  else (frame_period_us <? host_pipeline_p95_us s) || flt (f64_lit 10 100) (missed_ratio s).

Definition viewer_pressure (c : MovieCadenceController) (s : MovieCadenceSample) : bool :=
  let frame_period_us := period_us (current_tier c) in
  available (viewer s)
    && ((3 <? max_queue_depth_frames (viewer s))
        || (frame_period_us * 95 / 100 <? max_decode_time_us (viewer s))
        || (frame_period_us * 95 / 100 <? max_render_submit_time_us (viewer s))
        || (frame_period_us / 2 <? presentation_jitter_p95_us (viewer s))).

Definition healthy (c : MovieCadenceController) (s : MovieCadenceSample) (next : Z) : bool :=
  let next_period_us := period_us next in
  let '(host_headroom_percent, viewer_headroom_percent) :=
    if probation_complete c then (65, 65) else (95, 90) in
  available (viewer s) && all_rendered (viewer s)
    && (0 <? host_pipeline_p95_us s)
    && (host_pipeline_p95_us s <=? next_period_us * host_headroom_percent / 100)
    && (host_missed_slots s =? 0)
    && (max_queue_depth_frames (viewer s) <=? 1)
    && (max_decode_time_us (viewer s) <=? next_period_us * viewer_headroom_percent / 100)
    && (max_render_submit_time_us (viewer s) <=? next_period_us * viewer_headroom_percent / 100).

(** The branch of [evaluate] under pressure. *)
Definition under_pressure (c : MovieCadenceController) (s : MovieCadenceSample) (host view : bool) :
    option MovieCadenceDecision * MovieCadenceController :=
  let since_ := or_insert (pressure_since c) (now s) in
  let c := c <| healthy_since := None |> <| pressure_since := Some since_ |> in
  if MOVIE_PRESSURE_DURATION <=? since (now s) since_ then
    match next_lower_tier c with
    | Some next =>
        change_tier c next
          (if host then HostCapacity else if view then ViewerCapacity else DeliveryPressure) (now s)
    | None => (None, c)
    end
  else (None, c).

(** The branch of [evaluate] without pressure. *)
Definition without_pressure (c : MovieCadenceController) (s : MovieCadenceSample) :
    option MovieCadenceDecision * MovieCadenceController :=
  let c := c <| pressure_since := None |> in
  match next_higher_tier c with
  | None => (None, c <| probation_complete := true |> <| healthy_since := None |>)
  | Some next =>
      if negb (healthy c s next) then (None, c <| healthy_since := None |>)
      else
        let since_ := or_insert (healthy_since c) (now s) in
        let c := c <| healthy_since := Some since_ |> in
        let required := if probation_complete c then MOVIE_UPSHIFT_HEALTHY else MOVIE_PROBATION_HEALTHY in
        if since (now s) since_ <? required then (None, c)
        else if probation_complete c && (since (now s) (last_change c) <? MOVIE_MINIMUM_DWELL)
        then (None, c)
        else change_tier c next
               (if probation_complete c then HealthyUpshift else ProbationComplete) (now s)
  end.

Definition evaluate (c : MovieCadenceController) (s : MovieCadenceSample) :
    option MovieCadenceDecision * MovieCadenceController :=
  match update_target c (sample_target_fps s) (display_refresh_millihz (viewer s)) (now s) with
  | (Some d, c) => (Some d, c)
  | (None, c) =>
      let c := update_probation_tiers c (display_refresh_millihz (viewer s)) in
      let '(deltas, c) := viewer_counter_deltas c (viewer s) in
      let '(dropped_delta, late_delta, presentation_dropped_delta) := deltas in
      let host := host_pressure c s in
      let view := viewer_pressure c s in
      let delivery := (0 <? dropped_delta) || (0 <? late_delta) || (0 <? presentation_dropped_delta)
                      || local_admission_pressure s in
      if host || view || delivery then under_pressure c s host view else without_pressure c s
  end.

(** One pass of the service's loop: the sample, whether the encoder could be
    recreated, the rate the encoder runs at afterwards and whether the service
    goes on. *)
Definition round (c : MovieCadenceController) (s : MovieCadenceSample) (recreated : bool) :
    option MovieCadenceController :=
  match evaluate c s with
  | (None, c) => Some c
  | (Some d, c) =>
      if recreated then Some c
      else if current_fps d <? previous_fps d then None
      else Some (reject_change c (previous_fps d) (current_fps d) (now s))
  end.

(** ** Well-formed controllers *)

Lemma constants :
  FPS = 30 /\ MIN_FPS = 1 /\ MAX_FPS = 120 /\ MOVIE_PROBATION_HEALTHY = 2000000000 /\
  MOVIE_PRESSURE_DURATION = 2000000000 /\ MOVIE_UPSHIFT_HEALTHY = 20000000000 /\
  MOVIE_MINIMUM_DWELL = 10000000000.
Proof. done. Qed.

Ltac with_cadence_constants :=
  pose proof constants as (HFPS & HMIN & HMAX & HPROB & HPRES & HUP & HDWELL).

Lemma elem_of_sort_desc x l : x ∈ sort_desc l <-> x ∈ l.
Proof. unfold sort_desc; by rewrite merge_sort_Permutation. Qed.

Lemma sort_desc_sorted l : Sorted desc (sort_desc l).
Proof. apply Sorted_merge_sort, _. Qed.

Lemma dedup_desc l : Sorted Z.gt (dedup (sort_desc l)).
Proof.
  pose proof (sort_desc_sorted l) as Hs; destruct (sort_desc l) as [|x l']; [done|].
  eapply Sorted_mono, dedup_after_distinct, Hs; unfold desc; simpl; intros; lia.
Qed.

(** Tiers that a controller of this target may use. *)
Definition good_tiers (target : Z) (t : list Z) : Prop :=
  Sorted Z.gt t /\ Forall (fun fps => 1 <= fps <= target) t.

Lemma common_tiers_pos x : x ∈ COMMON_TIERS -> 1 <= x.
Proof. unfold COMMON_TIERS; rewrite !elem_of_cons, elem_of_nil; lia. Qed.

Lemma clamp_target (target : Z) : 1 <= clampZ MIN_FPS MAX_FPS target <= 120.
Proof. apply (clampZ_bounds MIN_FPS MAX_FPS); done. Qed.

Lemma movie_cadence_tiers_good target refresh :
  good_tiers (clampZ MIN_FPS MAX_FPS target) (movie_cadence_tiers target refresh).
Proof.
  with_cadence_constants.
  split; [apply dedup_desc|apply Forall_forall; intros x].
  pose proof (clamp_target target) as Ht; unfold movie_cadence_tiers; cbv zeta.
  set (tg := clampZ MIN_FPS MAX_FPS target) in *.
  rewrite elem_of_dedup, elem_of_sort_desc; set (t0 := if refresh =? 0 then _ else _).
  assert (forall y, y ∈ t0 -> 1 <= y <= tg) as H0.
  { intros y; unfold t0; case_match; intros Hy.
    - apply (subseteq_take 1), list_elem_of_filter in Hy as [? Hy]; split; auto using common_tiers_pos.
    - apply list_elem_of_filter in Hy as [Hf Hy]; split; [by apply common_tiers_pos|].
      unfold fits_refresh in Hf; destruct (Z.ltb_spec tg y); [done|lia]. }
  set (t1 := if (FPS <=? tg) && _ then _ else _).
  assert (forall y, y ∈ t1 -> 1 <= y <= tg) as H1.
  { intros y; unfold t1; destruct (Z.leb_spec FPS tg); simpl; [|auto]; case_match; [|auto].
    rewrite elem_of_app, list_elem_of_singleton; intros [?| ->]; [auto|lia]. }
  case_bool_decide as He; [|by apply H1].
  rewrite list_elem_of_singleton; lia.
Qed.

Lemma tiers_good target refresh :
  1 <= target <= 120 -> good_tiers target (movie_cadence_tiers target refresh).
Proof.
  intros H; pose proof (movie_cadence_tiers_good target refresh) as Hg.
  rewrite clampZ_id in Hg; [done|]; with_cadence_constants; lia.
Qed.

(** What holds of a controller that has run up to time [t]. *)
Record sane (t : instant) (c : MovieCadenceController) : Prop := {
  sane_target : target_fps c <= MAX_FPS;
  sane_tier : 1 <= current_tier c <= target_fps c;
  sane_tiers : good_tiers (target_fps c) (tiers c);
  sane_change : last_change c <= t;
  sane_pressure : forall p, pressure_since c = Some p -> last_change c <= p <= t;
  sane_healthy : forall h, healthy_since c = Some h -> last_change c <= h <= t;
}.

Lemma new_sane target refresh t : sane t (new target refresh t).
Proof.
  with_cadence_constants; pose proof (clamp_target target) as Ht.
  pose proof (tiers_good _ refresh Ht) as Hg.
  split; simpl; try done; try lia.
  destruct Hg as [_ Hg]; rewrite Forall_forall in Hg.
  destruct (list_find _ _) as [[i fps]|] eqn:Hf.
  - apply list_find_Some in Hf as [Hf _]; eapply Hg, list_elem_of_lookup_2, Hf.
  - destruct (last _) as [x|] eqn:Hl; simpl; [|lia]. by apply Hg, last_Some_elem_of.
Qed.

Lemma good_tiers_filter target t (P : Z -> Prop) `{!forall x, Decision (P x)} :
  good_tiers target t -> good_tiers target (filter P t).
Proof.
  intros [Hs Hf]; split.
  - apply Sorted_StronglySorted in Hs; [|intros ???; lia].
    apply StronglySorted_Sorted. clear Hf; induction Hs as [|x l Hs IH Hx]; [constructor|].
    rewrite filter_cons; case_decide; [|done].
    constructor; [done|]. rewrite Forall_forall in Hx; apply Forall_forall; intros y Hy.
    apply list_elem_of_filter in Hy as [_ Hy]; auto.
  - rewrite Forall_forall in Hf; apply Forall_forall; intros x Hx.
    apply list_elem_of_filter in Hx as [_ Hx]; auto.
Qed.

Lemma good_tiers_lookup target t i x : good_tiers target t -> t !! i = Some x -> 1 <= x <= target.
Proof. intros [_ Hf] Hx; rewrite Forall_forall in Hf; eapply Hf, list_elem_of_lookup_2, Hx. Qed.

(** The next tier up or down is a tier, and on the right side. *)
Lemma good_tiers_order target t i j x y :
  good_tiers target t -> t !! i = Some x -> t !! j = Some y -> (i < j)%nat -> y < x.
Proof.
  intros [Hs _] Hi Hj Hij; apply Sorted_StronglySorted in Hs; [|intros ???; lia].
  revert i j Hi Hj Hij; induction Hs as [|z l Hs IH Hz]; intros [|i] [|j] Hi Hj Hij; simplify_eq/=; try lia.
  - rewrite Forall_forall in Hz; apply list_elem_of_lookup_2 in Hj; specialize (Hz _ Hj); lia.
  - eapply IH; eauto; lia.
Qed.

Lemma tier_index_spec c i : tier_index c = Some i -> tiers c !! i = Some (current_tier c).
Proof.
  unfold tier_index; destruct (list_find _ _) as [[j x]|] eqn:E; [|done].
  intros [= <-]; apply list_find_Some in E as (-> & -> & _); done.
Qed.

Lemma next_lower_spec t c next :
  sane t c -> next_lower_tier c = Some next -> 1 <= next < current_tier c.
Proof.
  intros Hc; unfold next_lower_tier; destruct (tier_index c) as [i|] eqn:Ei; [|done]; simpl; intros Hn.
  apply tier_index_spec in Ei; pose proof (good_tiers_lookup _ _ _ _ (sane_tiers _ _ Hc) Hn).
  pose proof (good_tiers_order _ _ _ _ _ _ (sane_tiers _ _ Hc) Ei Hn ltac:(lia)); lia.
Qed.

Lemma next_higher_spec t c next :
  sane t c -> next_higher_tier c = Some next -> current_tier c < next <= target_fps c.
Proof.
  intros Hc; unfold next_higher_tier; destruct (tier_index c) as [[|i]|] eqn:Ei; [done| |done].
  simpl; intros Hn.
  apply tier_index_spec in Ei; pose proof (good_tiers_lookup _ _ _ _ (sane_tiers _ _ Hc) Hn).
  pose proof (good_tiers_order _ _ _ _ _ _ (sane_tiers _ _ Hc) Hn Ei ltac:(lia)); lia.
Qed.

Lemma change_tier_none c next r t c' : change_tier c next r t = (None, c') -> c' = c.
Proof. unfold change_tier; case_match; naive_solver. Qed.

(** A change of tier: what is decided and what is left. *)
Lemma change_tier_some c next r t d c' :
  change_tier c next r t = (Some d, c') ->
  d = {| previous_fps := current_tier c; current_fps := next; reason := r |} /\
  next <> current_tier c /\
  c' = c <| current_tier := next |> <| last_change := t |> <| pressure_since := None |>
         <| healthy_since := None |> <| probation_complete := true |>.
Proof. unfold change_tier; destruct (Z.eqb_spec next (current_tier c)); naive_solver. Qed.

Lemma change_tier_sane t c next r o c' :
  sane t c -> 1 <= next <= target_fps c -> change_tier c next r t = (o, c') -> sane t c'.
Proof.
  intros [] Hn; unfold change_tier; case_match; intros [= <- <-]; split; simpl; try done; try lia.
Qed.

Lemma sane_later t t' c : sane t c -> t <= t' -> sane t' c.
Proof.
  intros [] Ht; split; try done; [lia|..]; intros x Hx;
    [specialize (sane_pressure0 x Hx)|specialize (sane_healthy0 x Hx)]; lia.
Qed.

Lemma update_probation_tiers_sane t c r : sane t c -> sane t (update_probation_tiers c r).
Proof.
  intros []; unfold update_probation_tiers; case_match; [by split|].
  case_bool_decide; [|by split].
  split; simpl; try done. apply tiers_good; with_cadence_constants; lia.
Qed.

Lemma viewer_counter_deltas_sane t c v : sane t c -> sane t (viewer_counter_deltas c v).2.
Proof. intros []; unfold viewer_counter_deltas; destruct (last_viewer_counters c) as [[[]]|]; by split. Qed.

(** The fields that neither of the two touches. *)
Lemma deltas_probation_same c r v :
  let c' := (viewer_counter_deltas (update_probation_tiers c r) v).2 in
  target_fps c' = target_fps c /\ current_tier c' = current_tier c /\
  last_change c' = last_change c /\ pressure_since c' = pressure_since c /\
  healthy_since c' = healthy_since c /\ probation_complete c' = probation_complete c.
Proof.
  unfold viewer_counter_deltas, update_probation_tiers; simpl.
  repeat case_match; simplify_eq/=; try done.
Qed.

Lemma insert_tier_good target t x :
  good_tiers target t -> 1 <= x <= target -> x ∉ t -> good_tiers target (sort_desc (t ++ [x])).
Proof.
  intros [Hs Hf] Hx Hn; split.
  - assert (NoDup (sort_desc (t ++ [x]))) as Hd.
    { unfold sort_desc; rewrite merge_sort_Permutation.
      apply NoDup_app; split_and!.
      - apply Sorted_StronglySorted in Hs; [|intros ???; lia].
        clear -Hs; induction Hs as [|y l Hs IH Hy]; constructor; [|done].
        rewrite Forall_forall in Hy; intros Hin; specialize (Hy _ Hin); lia.
      - intros y Hy; rewrite list_elem_of_singleton; by intros ->.
      - apply NoDup_singleton. }
    pose proof (sort_desc_sorted (t ++ [x])) as Ho; revert Ho Hd; clear.
    induction (sort_desc (t ++ [x])) as [|a l IH]; intros Ho Hd; [constructor|].
    apply Sorted_inv in Ho as [Ho Hh]; apply NoDup_cons in Hd as [Ha Hd].
    constructor; [auto|]; destruct Hh as [|b l Hb]; constructor.
    unfold desc in Hb; assert (a <> b) by (intros ->; apply Ha; left); lia.
  - rewrite Forall_forall in Hf; apply Forall_forall; intros y.
    rewrite elem_of_sort_desc, elem_of_app, list_elem_of_singleton; intros [?| ->]; auto.
Qed.

Lemma update_target_sane t c tg r o c' :
  sane t c -> update_target c tg r t = (o, c') -> sane t c'.
Proof.
  intros Hc; unfold update_target; cbv zeta.
  pose proof (clamp_target tg) as Htg; set (tg' := clampZ MIN_FPS MAX_FPS tg) in *; clearbody tg'.
  destruct (Z.eqb_spec tg' (target_fps c)) as [|Hne]; [by intros [= <- <-]|].
  set (ts := if _ && _ then _ else _).
  destruct Hc as [Hm Hcur Hts Hlc Hp Hh].
  assert (good_tiers tg' ts) as Hg.
  { unfold ts; pose proof (tiers_good tg' r Htg) as Hg0.
    destruct (Z.ltb_spec (target_fps c) tg'), (Z.ltb_spec (current_tier c) tg'); simpl; try done.
    destruct (bool_decide _) eqn:E; simpl; [done|]; bools.
    apply insert_tier_good; [done|lia|done]. }
  clearbody ts; with_cadence_constants; simpl.
  case_bool_decide as Hin.
  - intros [= <- <-]; destruct Hg as [Hg1 Hg2]; rewrite Forall_forall in Hg2.
    split; simpl; try done; [lia|by apply Hg2|by split; [|apply Forall_forall]].
  - intros Hct; unfold change_tier in Hct; simpl in Hct.
    assert (1 <= unwrap_or (head ts) tg' <= tg') as Hhd.
    { destruct ts as [|x ts]; simpl; [lia|]. eapply (good_tiers_lookup _ _ 0%nat); [done|done]. }
    destruct (Z.eqb_spec (unwrap_or (head ts) tg') (current_tier c)); injection Hct as <- <-;
      split; simpl; done || lia.
Qed.

Lemma update_target_none c tg r t c' :
  update_target c tg r t = (None, c') ->
  current_tier c' = current_tier c /\ last_change c' = last_change c /\
  (c' = c \/ (pressure_since c' = None /\ healthy_since c' = None)).
Proof.
  unfold update_target; cbv zeta; case_match; [intros [= <-]; auto|].
  set (ts := if _ && _ then _ else _); clearbody ts; simpl.
  case_bool_decide; [intros [= <-]; simpl; auto|].
  intros ->%change_tier_none; simpl; auto.
Qed.

Lemma update_target_some c tg r t d c' :
  update_target c tg r t = (Some d, c') ->
  previous_fps d = current_tier c /\ current_fps d = current_tier c' /\
  current_fps d <> previous_fps d /\ last_change c' = t /\ reason d = TargetChanged /\
  probation_complete c' = true.
Proof.
  unfold update_target; cbv zeta; case_match; [done|].
  set (ts := if _ && _ then _ else _); clearbody ts; simpl.
  case_bool_decide; [done|].
  intros (-> & Hne & ->)%change_tier_some; done.
Qed.

(** Why a change other than one of the target is made: the side of the new
    tier, and how long the pressure or the health has lasted by then. *)
Definition justified (c : MovieCadenceController) (s : MovieCadenceSample) (d : MovieCadenceDecision) : Prop :=
  match reason d with
  | TargetChanged => True
  | HostCapacity | ViewerCapacity | DeliveryPressure =>
      current_fps d < previous_fps d /\
      exists p, pressure_since c = Some p /\ MOVIE_PRESSURE_DURATION <= now s - p
  | HealthyUpshift =>
      previous_fps d < current_fps d /\ probation_complete c = true /\
      exists h, healthy_since c = Some h /\ MOVIE_UPSHIFT_HEALTHY <= now s - h
  | ProbationComplete =>
      previous_fps d < current_fps d /\ probation_complete c = false /\
      exists h, healthy_since c = Some h /\ MOVIE_PROBATION_HEALTHY <= now s - h
  end.

Definition step_ok (c : MovieCadenceController) (s : MovieCadenceSample)
    (o : option MovieCadenceDecision) (c' : MovieCadenceController) : Prop :=
  sane (now s) c' /\
  match o with
  | None => current_tier c' = current_tier c /\ last_change c' = last_change c
  | Some d => previous_fps d = current_tier c /\ current_fps d = current_tier c' /\
      current_fps d <> previous_fps d /\ last_change c' = now s /\ probation_complete c' = true /\
      justified c s d
  end.

Lemma long_enough (o : option Z) t d :
  0 < d -> d <= since t (or_insert o t) -> exists p, o = Some p /\ d <= t - p.
Proof.
  unfold or_insert, since; destruct o as [p|]; simpl; intros ??; [|lia].
  exists p; split; [done|lia].
Qed.

Lemma under_pressure_ok c s host view o c' :
  sane (now s) c -> under_pressure c s host view = (o, c') -> step_ok c s o c'.
Proof.
  intros Hc; unfold under_pressure; cbv zeta; with_cadence_constants.
  set (p := or_insert (pressure_since c) (now s)).
  set (c1 := c <| healthy_since := None |> <| pressure_since := Some p |>).
  assert (sane (now s) c1) as H1.
  { destruct Hc; split; simpl; try done. intros p' [= <-]; unfold p, or_insert.
    destruct (pressure_since c) as [q|]; simpl; [by apply sane_pressure0|lia]. }
  destruct (Z.leb_spec MOVIE_PRESSURE_DURATION (since (now s) p)) as [Hp|]; [|intros [= <- <-]; done].
  destruct (next_lower_tier c1) as [next|] eqn:En; [|intros [= <- <-]; done].
  pose proof (next_lower_spec _ _ _ H1 En) as Hn; intros Hct.
  pose proof (sane_tier _ _ H1) as Ht.
  assert (sane (now s) c') as H2 by (eapply change_tier_sane, Hct; [done|lia]).
  split; [done|]; destruct o as [d|]; [|apply change_tier_none in Hct as ->; done].
  apply change_tier_some in Hct as (-> & Hne & ->); simpl in *.
  split_and!; try done; unfold justified; simpl.
  apply long_enough in Hp as (q & Hq & Hd); [|lia].
  destruct host, view; eauto with lia.
Qed.

Lemma without_pressure_ok c s o c' :
  sane (now s) c -> without_pressure c s = (o, c') -> step_ok c s o c'.
Proof.
  intros Hc; unfold without_pressure; cbv zeta; with_cadence_constants.
  set (c1 := c <| pressure_since := None |>).
  assert (sane (now s) c1) as H1 by (destruct Hc; by split).
  destruct (next_higher_tier c1) as [next|] eqn:En;
    [|intros [= <- <-]; split; [destruct H1; by split|done]].
  pose proof (next_higher_spec _ _ _ H1 En) as Hn; pose proof (sane_tier _ _ H1) as Ht.
  destruct (negb (healthy c1 s next)); [intros [= <- <-]; split; [destruct H1; by split|done]|].
  set (h := or_insert (healthy_since c1) (now s)).
  set (c2 := c1 <| healthy_since := Some h |>).
  assert (sane (now s) c2) as H2.
  { destruct H1; split; simpl; try done. intros h' [= <-]; unfold h, or_insert; simpl.
    simpl in *; destruct (healthy_since c) as [q|]; simpl; [by apply sane_healthy0|lia]. }
  change (probation_complete c2) with (probation_complete c).
  destruct (Z.ltb_spec (since (now s) h)
    (if probation_complete c then MOVIE_UPSHIFT_HEALTHY else MOVIE_PROBATION_HEALTHY)) as [|Hh];
    [by intros [= <- <-]|].
  destruct (probation_complete c && _) eqn:Ed; [by intros [= <- <-]|]; intros Hct.
  assert (sane (now s) c') as H3 by (eapply change_tier_sane, Hct; [done|simpl in *; lia]).
  split; [done|]; destruct o as [d|]; [|apply change_tier_none in Hct as ->; done].
  apply change_tier_some in Hct as (-> & Hne & ->); simpl in *.
  split_and!; try done; unfold justified; simpl.
  destruct (probation_complete c) eqn:Epc; simpl;
    (apply long_enough in Hh as (q & Hq & Hd); [|lia]); eauto with lia.
Qed.

(** A step keeps the controller well formed, and a change it decides is justified. *)
Lemma evaluate_ok t c s o c' :
  sane t c -> t <= now s -> evaluate c s = (o, c') -> step_ok c s o c'.
Proof.
  intros Hc0 Ht; pose proof (sane_later _ _ _ Hc0 Ht) as Hc; unfold evaluate.
  destruct (update_target _ _ _ _) as [[d|] c1] eqn:Hu.
  - intros [= <- <-]. pose proof (update_target_sane _ _ _ _ _ _ Hc Hu).
    apply update_target_some in Hu as (?&?&?&?&Hr&?).
    split; [done|]; split_and!; try done. unfold justified; by rewrite Hr.
  - pose proof (update_target_sane _ _ _ _ _ _ Hc Hu) as H1.
    apply update_target_none in Hu as (Hcur & Hlc & Hsame).
    pose proof (deltas_probation_same c1 (display_refresh_millihz (viewer s)) (viewer s)) as Hs.
    pose proof (viewer_counter_deltas_sane _ _ (viewer s)
      (update_probation_tiers_sane _ _ (display_refresh_millihz (viewer s)) H1)) as H2.
    destruct (viewer_counter_deltas _ _) as [[[dd dl] dp] c2]; cbn [snd] in H2, Hs; cbv zeta in Hs.
    destruct Hs as (_ & Hcur2 & Hlc2 & Hp2 & Hh2 & Hpc2).
    assert (forall o c', step_ok c2 s o c' -> step_ok c s o c') as Hlift.
    { intros o0 c0 [Hs0 Hd]; split; [done|].
      destruct o0 as [d|]; rewrite Hcur2, Hcur in Hd; [|by rewrite Hlc2, Hlc in Hd].
      destruct Hd as (? & ? & ? & ? & ? & Hj); split_and!; try done.
      revert Hj; unfold justified; rewrite Hp2, Hh2, Hpc2.
      destruct Hsame as [-> | [-> ->]]; [done|].
      destruct (reason d); try done; intros Hj; repeat (destruct Hj as [? Hj]); destruct_and?; done. }
    destruct (_ || _ || _); intros He; apply Hlift;
      [eapply under_pressure_ok, He|eapply without_pressure_ok, He]; done.
Qed.

(** ** The loop *)

Fixpoint rounds (c : MovieCadenceController) (l : list (MovieCadenceSample * bool)) :
    option MovieCadenceController :=
  match l with
  | [] => Some c
  | (s, recreated) :: l => c ← round c s recreated; rounds c l
  end.

(** The samples are taken in order, after time [t]. *)
Fixpoint ordered (t : instant) (l : list MovieCadenceSample) : Prop :=
  match l with
  | [] => True
  | s :: l => t <= now s /\ ordered (now s) l
  end.

Lemma evaluate_target c s :
  target_fps (evaluate c s).2 = clampZ MIN_FPS MAX_FPS (sample_target_fps s).
Proof.
  unfold evaluate; destruct (update_target _ _ _ _) as [o c1] eqn:Hu.
  assert (target_fps c1 = clampZ MIN_FPS MAX_FPS (sample_target_fps s)) as H1.
  { revert Hu; unfold update_target; cbv zeta.
    destruct (Z.eqb_spec (clampZ MIN_FPS MAX_FPS (sample_target_fps s)) (target_fps c)) as [->|];
      [by intros [= <- <-]|].
    set (ts := if _ && _ then _ else _); clearbody ts; simpl.
    case_bool_decide; [by intros [= <- <-]|].
    unfold change_tier; case_match; by intros [= <- <-]. }
  destruct o as [d|]; [done|].
  pose proof (deltas_probation_same c1 (display_refresh_millihz (viewer s)) (viewer s)) as Hs.
  destruct (viewer_counter_deltas _ _) as [[[dd dl] dp] c2]; cbn [snd] in Hs; cbv zeta in Hs.
  destruct Hs as [<- _] in H1.
  unfold under_pressure, without_pressure, change_tier.
  repeat case_match; simpl; congruence.
Qed.

Lemma round_ok t c s b c' :
  sane t c -> t <= now s -> round c s b = Some c' ->
  sane (now s) c' /\ target_fps c' = clampZ MIN_FPS MAX_FPS (sample_target_fps s) /\
  last_change c' = match (evaluate c s).1 with Some _ => now s | None => last_change c end.
Proof.
  intros Hc Ht; unfold round; pose proof (evaluate_target c s) as Htg.
  destruct (evaluate c s) as [o c1] eqn:He.
  pose proof (evaluate_ok _ _ _ _ _ Hc Ht He) as [H1 Hd]; simpl in *.
  destruct o as [d|]; [|destruct Hd; intros [= <-]; done].
  destruct Hd as (Hprev & Hcur & Hne & Hlc & Hpc & _).
  destruct b; [by intros [= <-]|].
  destruct (Z.ltb_spec (current_fps d) (previous_fps d)); [done|]; intros [= <-].
  unfold reject_change; destruct (Z.ltb_spec (previous_fps d) (current_fps d)); [|lia].
  split; [|done].
  pose proof (sane_tier _ _ Hc) as Hold; destruct H1; split; simpl; try done; try lia.
  by apply good_tiers_filter.
Qed.

Lemma rounds_ok t c l c' :
  sane t c -> ordered t (l.*1) -> rounds c l = Some c' ->
  exists t', t <= t' /\ sane t' c' /\ (forall l', ordered t (l.*1 ++ l') -> ordered t' l') /\
    last_change c <= last_change c'.
Proof.
  revert t c; induction l as [|[s b] l IH]; intros t c Hc Ho Hr.
  - injection Hr as <-; exists t; split_and!; [lia|done|done|lia].
  - destruct Ho as [Ht Ho]; simpl in Hr, Ho, Ht; destruct (round c s b) as [c1|] eqn:E; [|done]; simpl in Hr.
    pose proof (round_ok _ _ _ _ _ Hc Ht E) as (H1 & _ & Hlc).
    destruct (IH _ _ H1 Ho Hr) as (t' & Hle & H2 & Hl & Hlc2).
    exists t'; split_and!; [lia|done|by intros l' [_ Hl']; apply Hl|].
    pose proof (sane_change _ _ Hc); simpl in *; destruct (evaluate c s).1; lia.
Qed.

Lemma rounds_app c l1 l2 : rounds c (l1 ++ l2) = (c' ← rounds c l1; rounds c' l2).
Proof.
  revert c; induction l1 as [|[s b] l1 IH]; intros c; [done|]; simpl.
  destruct (round c s b); simpl; auto.
Qed.

Lemma ordered_prefix t l1 l2 : ordered t (l1 ++ l2) -> ordered t l1.
Proof. revert t; induction l1; simpl; [done|]; intros t [? ?]; eauto. Qed.

(** Whatever the samples and whether the encoder can be recreated, the tier
    stays a rate of at least one frame a second that does not exceed the target
    of the last sample, nor the limit of 120. *)
Theorem cadence_bounded target refresh t l s b c :
  ordered t ((l ++ [(s, b)]).*1) ->
  rounds (new target refresh t) (l ++ [(s, b)]) = Some c ->
  1 <= current_tier c <= clampZ MIN_FPS MAX_FPS (sample_target_fps s) /\
  target_fps c = clampZ MIN_FPS MAX_FPS (sample_target_fps s) /\ target_fps c <= 120.
Proof.
  intros Ho Hr; rewrite rounds_app in Hr; rewrite fmap_app in Ho.
  destruct (rounds _ l) as [c1|] eqn:E; [|done]; simpl in Hr.
  destruct (rounds_ok _ _ _ _ (new_sane _ _ _) (ordered_prefix _ _ _ Ho) E) as (t' & _ & H1 & Hl & _).
  apply Hl in Ho as [Ht _]; destruct (round c1 s b) as [c2|] eqn:E2; [|done]; injection Hr as <-.
  destruct (round_ok _ _ _ _ _ H1 Ht E2) as (H2 & Htg & _).
  pose proof (sane_tier _ _ H2); pose proof (sane_target _ _ H2); with_cadence_constants.
  cbn [fst] in Htg; rewrite <- Htg; split_and!; lia || done.
Qed.

(** Between two changes of tier, except one that a new target forces, at
    least two seconds pass, and twenty when the second is an upshift after the
    probation; such a change goes down under pressure and up on health, whatever
    was sampled, decided or rejected in between. *)
Theorem cadence_hysteresis target refresh t l1 s1 b1 l2 s2 c1 c2 d1 d2 :
  ordered t (l1.*1 ++ s1 :: l2.*1 ++ [s2]) ->
  rounds (new target refresh t) l1 = Some c1 ->
  (evaluate c1 s1).1 = Some d1 ->
  rounds c1 ((s1, b1) :: l2) = Some c2 ->
  (evaluate c2 s2).1 = Some d2 ->
  reason d2 <> TargetChanged ->
  (match reason d2 with HealthyUpshift => 20000000000 | _ => 2000000000 end) <= now s2 - now s1 /\
  (previous_fps d2 < current_fps d2 <-> reason d2 = HealthyUpshift \/ reason d2 = ProbationComplete).
Proof.
  intros Ho Hr1 Hd1 Hr2 Hd2 Hreason; with_cadence_constants.
  destruct (rounds_ok _ _ _ _ (new_sane _ _ _) (ordered_prefix _ _ _ Ho) Hr1) as (t1 & _ & H1 & Hl & _).
  apply Hl in Ho as [Ht1 Ho]; simpl in Hr2.
  destruct (round c1 s1 b1) as [c1'|] eqn:E1; [|done]; simpl in Hr2.
  destruct (round_ok _ _ _ _ _ H1 Ht1 E1) as (H1' & _ & Hlc); rewrite Hd1 in Hlc.
  destruct (rounds_ok _ _ _ _ H1' (ordered_prefix _ _ _ Ho) Hr2) as (t2 & _ & H2 & Hl2 & Hlc2).
  apply Hl2 in Ho as [Ht2 _].
  destruct (evaluate c2 s2) as [o c3] eqn:E2; simpl in Hd2; subst o.
  pose proof (evaluate_ok _ _ _ _ _ H2 Ht2 E2) as [_ (_ & _ & Hne & _ & _ & Hj)].
  unfold justified in Hj; destruct (reason d2) eqn:Hr; try done; simpl in *;
    repeat match goal with H : _ /\ _ |- _ => destruct H | H : exists _, _ |- _ => destruct H end;
    repeat match goal with
    | H : pressure_since c2 = Some _ |- _ => apply (sane_pressure _ _ H2) in H
    | H : healthy_since c2 = Some _ |- _ => apply (sane_healthy _ _ H2) in H
    end; (split; [lia|split; [intros ?; first [by auto|lia]|intros [?|?]; first [done|lia]]]).
Qed.

(** ** Concrete runs *)

Definition well_viewer : MovieViewerMetrics :=
  default_metrics <| available := true |> <| all_rendered := true |>
    <| max_decode_time_us := 1000 |> <| max_render_submit_time_us := 1000 |>.
Definition at_ms (ms target refresh : Z) : MovieCadenceSample :=
  {| now := from_millis ms; sample_target_fps := target; host_pipeline_p95_us := 5000;
     host_iterations := 100; host_missed_slots := 0;
     viewer := well_viewer <| display_refresh_millihz := refresh |>; local_admission_pressure := false |}.
Definition pressed_ms (ms target refresh : Z) : MovieCadenceSample :=
  {| now := from_millis ms; sample_target_fps := target; host_pipeline_p95_us := 90000;
     host_iterations := 100; host_missed_slots := 0;
     viewer := well_viewer <| display_refresh_millihz := refresh |>; local_admission_pressure := false |}.

(** A movie starts at 30, is promoted to 60 after two healthy seconds, and falls
    back to 30 after two seconds of pressure. *)
Example promotion_and_fallback :
  let c0 := new 60 60000 0 in
  let c1 := rounds c0 [(at_ms 0 60 60000, true); (at_ms 2000 60 60000, true)] in
  let c2 := rounds c0 [(at_ms 0 60 60000, true); (at_ms 2000 60 60000, true);
                       (pressed_ms 3000 60 60000, true); (pressed_ms 5000 60 60000, true)] in
  current_tier c0 = 30 /\ current_tier <$> c1 = Some 60 /\ current_tier <$> c2 = Some 30.
Proof. vm_compute; auto. Qed.

(** A lower target may raise the tier when the display changes too; when the
    encoder then cannot be recreated, the controller is left on a tier that is
    not one of its tiers, and no pressure lowers it. *)
Example rejected_target_change_is_stuck :
  let at_120 := [(at_ms 0 120 144000, true); (at_ms 2000 120 144000, true)] in
  let c := rounds (new 120 144000 0) (at_120 ++ [(at_ms 3000 60 60000, false)]) in
  (fun c => (current_tier c, tiers c, target_fps c)) <$> c = Some (48, [30], 60) /\
  current_tier <$> (c ← c; rounds c ((fun k => (pressed_ms (4000 + 1000 * k) 60 60000, true)) <$> seqZ 0 60))
    = Some 48.
Proof. vm_compute; auto. Qed.

Lemma cadence_bounded_witness :
  ordered 0 (([] ++ [(at_ms 0 60 60000, true)]).*1) /\
  (exists c, rounds (new 60 60000 0) ([] ++ [(at_ms 0 60 60000, true)]) = Some c /\ 1 <= current_tier c <= 60).
Proof.
  assert (ordered 0 (([] ++ [(at_ms 0 60 60000, true)]).*1)) as Ho by (split; [|exact I]; vm_compute; discriminate).
  split; [exact Ho|].
  destruct (rounds (new 60 60000 0) ([] ++ [(at_ms 0 60 60000, true)])) as [c|] eqn:E;
    [|vm_compute in E; discriminate].
  exists c; split; [reflexivity|].
  exact (proj1 (cadence_bounded 60 60000 0 [] (at_ms 0 60 60000) true c Ho E)).
Defined.

Lemma cadence_hysteresis_witness :
  let l1 := [(at_ms 0 60 60000, true)] in
  let l2 := [(pressed_ms 3000 60 60000, true)] in
  let c1 := unwrap_or (rounds (new 60 60000 0) l1) (new 60 60000 0) in
  let c2 := unwrap_or (rounds c1 ((at_ms 2000 60 60000, true) :: l2)) c1 in
  exists d2, (evaluate c2 (pressed_ms 5000 60 60000)).1 = Some d2 /\
    2000000000 <= now (pressed_ms 5000 60 60000) - now (at_ms 2000 60 60000).
Proof.
  intros l1 l2 c1 c2.
  exists {| previous_fps := 60; current_fps := 30; reason := HostCapacity |}; split; [vm_compute; reflexivity|].
  exact (proj1 (cadence_hysteresis 60 60000 0 l1 (at_ms 2000 60 60000) true l2 (pressed_ms 5000 60 60000)
    c1 c2 {| previous_fps := 30; current_fps := 60; reason := ProbationComplete |}
    {| previous_fps := 60; current_fps := 30; reason := HostCapacity |}
    ltac:(repeat split; vm_compute; discriminate) ltac:(vm_compute; reflexivity) ltac:(vm_compute; reflexivity)
    ltac:(vm_compute; reflexivity) ltac:(vm_compute; reflexivity) ltac:(discriminate))).
Defined.
