(* ===== verification/ViewerNetwork.v ===== *)
(** * Network estimates of one viewer

    Models the estimators of src/src/server/video_qos.rs that the host keeps for
    each viewer: [RttCalculator] and [UserDelay] ([add_delay], [avg_delay]), the
    transport loss windows ([observe_transport_loss]), and the start of a
    stream on the viewer ([ViewerStartupState]).  A [VecDeque] is a list, a
    [HashMap] a finite map that iterates in the order of [map_to_list]. *)

From Stdlib Require Import SpecFloat.
From S2P Require Import Prelude Floats.

(** ** Round trip time *)

Definition WINDOW_SAMPLES : nat := 60.
Definition MIN_SAMPLES : nat := 10.
Definition ALPHA : f32 := f32_lit 5 10.
Definition HISTORY_DELAY_LEN : nat := 2.
Definition DELAY_THRESHOLD_150MS : Z := 150.

Record RttCalculator := {
  min_rtt : option Z;
  window_min_rtt : option Z;
  smoothed_rtt : option Z;
  samples : list Z;
}.

#[export] Instance eta_rtt : Eta RttCalculator := fun r =>
  Build_RttCalculator (min_rtt r) (window_min_rtt r) (smoothed_rtt r) (samples r).

Definition default_rtt : RttCalculator :=
  {| min_rtt := None; window_min_rtt := None; smoothed_rtt := None; samples := [] |}.

(** [iter().min()] *)
Definition list_min (l : list Z) : option Z :=
  match l with [] => None | x :: l => Some (foldr Z.min x l) end.

Definition smoothed (min window_min : Z) : Z :=
  f32_as_u32 (f32_add (f32_mul (f32_sub (f32_of 1) ALPHA) (f32_of min))
                      (f32_mul ALPHA (f32_of window_min))).

Definition update (r : RttCalculator) (delay : Z) : RttCalculator :=
  let r := match min_rtt r with
           | Some m => if delay <? m then r <| min_rtt := Some delay |> else r
           | None => r <| min_rtt := Some delay |>
           end in
  let r := if (WINDOW_SAMPLES <=? length (samples r))%nat then r <| samples ::= tail |> else r in
  let r := r <| samples ::= fun l => l ++ [delay] |> in
  let r := r <| window_min_rtt := list_min (samples r) |> in
  if (WINDOW_SAMPLES <=? length (samples r))%nat then
    match min_rtt r, window_min_rtt r with
    | Some m, Some w => r <| smoothed_rtt := Some (smoothed m w) |>
    | _, _ => r
    end
  else r.

Definition get_rtt (r : RttCalculator) : option Z :=
  match smoothed_rtt r with
  | Some rtt => Some rtt
  | None => if (MIN_SAMPLES <=? length (samples r))%nat then min_rtt r else None
  end.

(** ** Delay of a user *)

Record UserDelay := {
  response_delayed : bool;
  delay_history : list Z;
  delay_fps : option Z;
  rtt_calculator : RttCalculator;
  quick_increase_fps_count : Z;
  increase_fps_count : Z;
}.

#[export] Instance eta_delay : Eta UserDelay := fun d =>
  Build_UserDelay (response_delayed d) (delay_history d) (delay_fps d) (rtt_calculator d)
    (quick_increase_fps_count d) (increase_fps_count d).

Definition default_delay : UserDelay :=
  {| response_delayed := false; delay_history := []; delay_fps := None; rtt_calculator := default_rtt;
     quick_increase_fps_count := 0; increase_fps_count := 0 |}.

Definition add_delay (d : UserDelay) (delay : Z) : UserDelay :=
  let d := d <| rtt_calculator ::= fun r => update r delay |> in
  let d := if (HISTORY_DELAY_LEN <? length (delay_history d))%nat then d <| delay_history ::= tail |> else d in
  d <| delay_history ::= fun l => l ++ [delay] |>.

(** The sum of [u32]s wraps in a release build. *)
Definition sum_u32 (l : list Z) : Z := wrap_u32 (foldr Z.add 0 l).

Definition avg_delay (d : UserDelay) : Z :=
  let len := Z.of_nat (length (delay_history d)) in
  if 0 <? len then
    let avg := sum_u32 (delay_history d) / len in
    match get_rtt (rtt_calculator d) with
    | Some rtt => if rtt <? avg then avg - rtt else avg
    | None => avg
    end
  else DELAY_THRESHOLD_150MS.

(** ** Transport loss *)

Definition TRANSPORT_LOSS_WINDOW : duration := from_secs 10.
Definition TRANSPORT_LOSS_BURST_DROPS : Z := 3.
Definition TRANSPORT_LOSS_MIN_RATE_DROPS : Z := 3.
Definition TRANSPORT_LOSS_MIN_OBSERVED_FRAMES : Z := 30.
Definition TRANSPORT_LOSS_RATE_PERCENT : Z := 3.
Definition MAX_TRANSPORT_LOSS_WINDOWS : nat := 16.

(** A key is the display and the stream. *)
Abbreviation TransportLossKey := (Z * Z)%type (only parsing).

Record TransportLossWindow := {
  first_frame_id : Z;
  highest_frame_id : Z;
  window_dropped : Z;
  window_started_at : instant;
  window_updated_at : instant;
}.

#[export] Instance eta_window : Eta TransportLossWindow := fun w =>
  Build_TransportLossWindow (first_frame_id w) (highest_frame_id w) (window_dropped w)
    (window_started_at w) (window_updated_at w).

Record VideoTransportLossSample := {
  loss_display : Z;
  loss_stream_id : Z;
  received_frame_id : Z;
  sample_dropped : Z;
}.

Inductive TransportLossBackoffReason := Burst | Rate.

Record TransportLossObservation := {
  key : TransportLossKey;
  observed_frames : Z;
  observed_dropped : Z;
  loss_permille : Z;
  backoff_reason : option TransportLossBackoffReason;
  stale : bool;
}.

Abbreviation LossWindows := (gmap (Z * Z) TransportLossWindow) (only parsing).

Definition fresh_window (s : VideoTransportLossSample) (now : instant) : TransportLossWindow :=
  {| first_frame_id := received_frame_id s; highest_frame_id := received_frame_id s;
     window_dropped := 0; window_started_at := now; window_updated_at := now |}.

(** Makes room for a window that is not there yet. *)
Definition evict_window (windows : LossWindows) (k : TransportLossKey) : LossWindows :=
  if is_none (windows !! k) && (MAX_TRANSPORT_LOSS_WINDOWS <=? size windows)%nat then
    match min_by (fun a b => window_updated_at a.2 <? window_updated_at b.2) (map_to_list windows) with
    | Some (oldest, _) => delete oldest windows
    | None => windows
    end
  else windows.

(** The window the sample is counted in, after it has been counted. *)
Definition count_sample (windows : LossWindows) (k : TransportLossKey)
    (s : VideoTransportLossSample) (now : instant) : TransportLossWindow :=
  let w := unwrap_or (windows !! k) (fresh_window s now) in
  let w := if TRANSPORT_LOSS_WINDOW <=? since now (window_started_at w) then fresh_window s now else w in
  w <| highest_frame_id := received_frame_id s |>
    <| window_dropped := sat_add u64_max (window_dropped w) (sample_dropped s) |>
    <| window_updated_at := now |>.

Definition frames_of_window (w : TransportLossWindow) : Z :=
  Z.max (Z.max (sat_add u64_max (sat_sub (highest_frame_id w) (first_frame_id w)) 1)
               (window_dropped w)) 1.

Definition loss_reason (w : TransportLossWindow) (s : VideoTransportLossSample) :
    option TransportLossBackoffReason :=
  if TRANSPORT_LOSS_BURST_DROPS <=? sample_dropped s then Some Burst
  else if (TRANSPORT_LOSS_MIN_RATE_DROPS <=? window_dropped w)
          && (TRANSPORT_LOSS_MIN_OBSERVED_FRAMES <=? frames_of_window w)
          && (sat_mul u64_max (frames_of_window w) TRANSPORT_LOSS_RATE_PERCENT
                <=? sat_mul u64_max (window_dropped w) 100)
  then Some Rate else None.

Definition observe_transport_loss (windows : LossWindows) (s : VideoTransportLossSample)
    (now : instant) : TransportLossObservation * LossWindows :=
  let k := (loss_display s, loss_stream_id s) in
  let windows := filter (fun '(existing, _) =>
                   fst existing <> loss_display s \/ snd existing = loss_stream_id s) windows in
  if is_some_and (windows !! k) (fun w => received_frame_id s <=? highest_frame_id w)
  then ({| key := k; observed_frames := 0; observed_dropped := 0; loss_permille := 0;
           backoff_reason := None; stale := true |}, windows)
  else
    let windows := evict_window windows k in
    let w := count_sample windows k s now in
    ({| key := k; observed_frames := frames_of_window w; observed_dropped := window_dropped w;
        loss_permille := sat_mul u64_max (window_dropped w) 1000 / frames_of_window w;
        backoff_reason := loss_reason w s; stale := false |},
     <[k := w]> windows).

(** ** Start of a stream on the viewer *)

Record ViewerStartupState := {
  startup_stream_id : option Z;
  render_started : bool;
  startup_started_at : instant;
}.

#[export] Instance eta_startup : Eta ViewerStartupState := fun s =>
  Build_ViewerStartupState (startup_stream_id s) (render_started s) (startup_started_at s).

Definition new_startup (now : instant) : ViewerStartupState :=
  {| startup_stream_id := None; render_started := false; startup_started_at := now |}.

Definition begin_stream (s : ViewerStartupState) (stream_id : Z) (now : instant) : bool * ViewerStartupState :=
  if bool_decide (startup_stream_id s = Some stream_id) then (true, s)
  else if is_some_and (startup_stream_id s) (fun current => stream_id <? current) then (false, s)
  else (true, s <| startup_stream_id := Some stream_id |> <| render_started := false |>
                <| startup_started_at := now |>).

Definition reset_startup (s : ViewerStartupState) (now : instant) : ViewerStartupState :=
  s <| startup_stream_id := None |> <| render_started := false |> <| startup_started_at := now |>.

(** ** Theorems *)

(** The last [n] elements. *)
Definition last_n {A} (n : nat) (l : list A) : list A := drop (length l - n) l.

Lemma last_n_short {A} n (l : list A) : (length l <= n)%nat -> last_n n l = l.
Proof. intros H; unfold last_n; by replace (length l - n)%nat with 0%nat by lia. Qed.

Lemma length_last_n {A} n (l : list A) : length (last_n n l) = Nat.min n (length l).
Proof. unfold last_n; rewrite length_drop; lia. Qed.

(** Dropping the oldest of a full queue before adding to it. *)
Lemma push_last_n {A} n (l : list A) x :
  (0 < n)%nat ->
  (if (n <=? length (last_n n l))%nat then tail (last_n n l) else last_n n l) ++ [x] = last_n n (l ++ [x]).
Proof.
  intros Hn; rewrite length_last_n; unfold last_n; rewrite length_app; simpl.
  destruct (Nat.leb_spec n (Nat.min n (length l))) as [H|H].
  - rewrite drop_app_le by lia; f_equal.
    replace (length l + 1 - n)%nat with (S (length l - n)) by lia.
    generalize (length l - n)%nat; intros k; clear.
    revert k; induction l as [|y l IH]; intros [|k]; simpl; auto.
  - replace (length l - n)%nat with 0%nat by lia.
    by replace (length l + 1 - n)%nat with 0%nat by lia.
Qed.

Lemma list_min_snoc l x :
  list_min (l ++ [x]) = Some (match list_min l with Some m => Z.min m x | None => x end).
Proof.
  destruct l as [|y l]; simpl; [done|]; f_equal; rewrite foldr_app; simpl.
  induction l as [|z l IH]; simpl; [lia|]. rewrite IH; lia.
Qed.

Lemma list_min_le l m x : list_min l = Some m -> x ∈ l -> m <= x.
Proof.
  destruct l as [|y l]; [done|]; intros [= <-]; rewrite elem_of_cons; intros H.
  induction l as [|z l IH]; simpl; [set_solver|].
  rewrite elem_of_cons in H; destruct H as [H | [-> | H]]; [specialize (IH (or_introl H))| |specialize (IH (or_intror H))]; lia.
Qed.

Lemma list_min_elem l m : list_min l = Some m -> m ∈ l.
Proof.
  destruct l as [|y l]; [done|]; intros [= <-].
  induction l as [|z l IH]; simpl; [left|].
  destruct (Z.min_spec z (foldr Z.min y l)) as [[_ ->]|[_ ->]];
    [right; left|apply elem_of_cons in IH as [->|]; [left|do 2 right]; done].
Qed.

Definition feed (ds : list Z) : UserDelay := foldl add_delay default_delay ds.

(** What the calculator holds after the delays [ds]. *)
Record tracks (ds : list Z) (r : RttCalculator) : Prop := {
  tracks_min : min_rtt r = list_min ds;
  tracks_samples : samples r = last_n WINDOW_SAMPLES ds;
  tracks_window : window_min_rtt r = list_min (last_n WINDOW_SAMPLES ds);
  tracks_smoothed : smoothed_rtt r = None <-> (length ds < WINDOW_SAMPLES)%nat;
  tracks_nonneg : forall s, smoothed_rtt r = Some s -> 0 <= s;
}.

Lemma window_pos : (0 < WINDOW_SAMPLES)%nat.
Proof. unfold WINDOW_SAMPLES; lia. Qed.
#[local] Opaque WINDOW_SAMPLES.

Lemma update_tracks ds r x : tracks ds r -> tracks (ds ++ [x]) (update r x).
Proof.
  intros []; unfold update.
  set (r0 := match min_rtt r with Some m => _ | None => _ end).
  assert (min_rtt r0 = list_min (ds ++ [x])) as Hmin.
  { unfold r0; rewrite list_min_snoc, tracks_min0; destruct (list_min ds) as [m|]; simpl; [|done].
    destruct (Z.ltb_spec x m); simpl; [|rewrite tracks_min0]; f_equal; lia. }
  assert (samples r0 = samples r /\ smoothed_rtt r0 = smoothed_rtt r) as [Hs Hsm]
    by (unfold r0; repeat case_match; done).
  clearbody r0.
  set (r1 := if (WINDOW_SAMPLES <=? length (samples r0))%nat then _ else _).
  assert (min_rtt r1 = min_rtt r0 /\ smoothed_rtt r1 = smoothed_rtt r0 /\
          samples r1 ++ [x] = last_n WINDOW_SAMPLES (ds ++ [x])) as (Hm1 & Hs1 & Hl1).
  { rewrite <- push_last_n, <- tracks_samples0, <- Hs by apply window_pos.
    unfold r1; case_match; done. }
  clearbody r1; simpl; rewrite Hl1, length_last_n, Hm1, Hmin.
  rewrite list_min_snoc.
  assert (list_min (last_n WINDOW_SAMPLES (ds ++ [x])) <> None) as Hne
    by (rewrite <- Hl1, list_min_snoc; done).
  destruct (list_min (last_n WINDOW_SAMPLES (ds ++ [x]))) as [w|] eqn:Ew; [|done].
  rewrite length_app; simpl.
  destruct (Nat.leb_spec WINDOW_SAMPLES (Nat.min WINDOW_SAMPLES (length ds + 1))) as [H|H];
    split; simpl; rewrite ?length_app; simpl; rewrite ?list_min_snoc; try done;
    try (by rewrite Hm1, Hmin, list_min_snoc).
  - split; [done|lia].
  - intros s [= <-]; apply f32_as_u32_range.
  - rewrite Hs1, Hsm, tracks_smoothed0; lia.
  - rewrite Hs1, Hsm; exact tracks_nonneg0.
Qed.

Lemma feed_snoc ds x : feed (ds ++ [x]) = add_delay (feed ds) x.
Proof. unfold feed; by rewrite foldl_app. Qed.

Lemma feed_tracks ds :
  delay_history (feed ds) = last_n (S HISTORY_DELAY_LEN) ds /\ tracks ds (rtt_calculator (feed ds)).
Proof.
  induction ds as [|x ds [IHh IHr]] using rev_ind;
    [split; [done|split; try done; pose proof window_pos; simpl; split; [lia|done]]|].
  rewrite feed_snoc; unfold add_delay.
  set (d := feed ds <| rtt_calculator ::= _ |>).
  assert (tracks (ds ++ [x]) (rtt_calculator d)) as Ht by (by apply update_tracks).
  split.
  - rewrite <- push_last_n, <- IHh by lia.
    destruct (Nat.ltb_spec HISTORY_DELAY_LEN (length (delay_history d))) as [H|H]; cbn [d delay_history] in H;
      destruct (Nat.leb_spec (S HISTORY_DELAY_LEN) (length (delay_history (feed ds)))); simpl in H; try lia; done.
  - case_match; exact Ht.
Qed.

Lemma sum_bound (l : list Z) B :
  Forall (fun x => 0 <= x <= B) l -> 0 <= foldr Z.add 0 l <= Z.of_nat (length l) * B.
Proof. induction 1; simpl; lia. Qed.

Lemma rtt_some_nonneg ds r :
  tracks ds r -> Forall (fun x => 0 <= x) ds -> forall v, get_rtt r = Some v -> 0 <= v.
Proof.
  intros [Hmin _ _ _ Hnn] Hpos v; unfold get_rtt; rewrite Hmin.
  destruct (smoothed_rtt r) as [s|]; [intros [= <-]; auto|].
  case_match; [|done]; intros Hv; apply list_min_elem in Hv.
  rewrite Forall_forall in Hpos; auto.
Qed.

(** The average of at most three delays, less a round trip time. *)
Lemma avg_bound (l : list Z) (rtt : option Z) B :
  (0 < length l)%nat -> (length l <= 3)%nat -> 3 * B <= u32_max ->
  (forall v, rtt = Some v -> 0 <= v) -> Forall (fun x => 0 <= x <= B) l ->
  0 <= (let len := Z.of_nat (length l) in
        if 0 <? len then
          let avg := sum_u32 l / len in
          match rtt with Some rtt => if rtt <? avg then avg - rtt else avg | None => avg end
        else DELAY_THRESHOLD_150MS) <= B.
Proof.
  intros H0 H3 HB Hr Hall; pose proof (sum_bound _ _ Hall) as Hsum; cbv zeta.
  destruct (Z.ltb_spec 0 (Z.of_nat (length l))); [|lia].
  unfold sum_u32, wrap_u32; unfold u32_max in HB; rewrite Z.mod_small by nia.
  assert (0 <= foldr Z.add 0 l / Z.of_nat (length l) <= B) as Hq
    by (split; [apply Z.div_pos; lia|apply Z.div_le_upper_bound; lia]).
  destruct rtt as [v|]; [|done]; specialize (Hr v eq_refl); case_match; lia.
Qed.

(** After the delays [ds] the estimator holds exactly the last three of them,
    the last sixty as samples and the least of all; it gives a round trip time
    from ten samples on, the least delay until there are sixty; and the average
    delay, of which the round trip time has been taken, never exceeds the
    largest of the last three (150 ms when there is none), provided that their
    sum is a [u32]. *)
Theorem delay_estimates ds :
  delay_history (feed ds) = last_n 3 ds /\
  samples (rtt_calculator (feed ds)) = last_n 60 ds /\
  min_rtt (rtt_calculator (feed ds)) = list_min ds /\
  (get_rtt (rtt_calculator (feed ds)) = None <-> (length ds < 10)%nat) /\
  ((10 <= length ds < 60)%nat -> get_rtt (rtt_calculator (feed ds)) = list_min ds) /\
  avg_delay (feed []) = 150 /\
  (forall B, ds <> [] -> 3 * B <= u32_max -> Forall (fun x => 0 <= x) ds ->
     Forall (fun x => x <= B) (last_n 3 ds) -> 0 <= avg_delay (feed ds) <= B).
Proof.
  destruct (feed_tracks ds) as [Hh Ht]; change (S HISTORY_DELAY_LEN) with 3%nat in Hh.
  pose proof (rtt_some_nonneg _ _ Ht) as Hnn.
  destruct Ht as [Hmin Hs Hw Hsm _]; change WINDOW_SAMPLES with 60%nat in Hs, Hsm.
  assert (list_min ds = None <-> ds = []) as Hne by (by destruct ds).
  split_and!; try done; cycle 2.
  { intros B Hds HB Hpos Hall; unfold avg_delay; rewrite Hh.
    apply avg_bound; rewrite ?length_last_n; [destruct ds; [done|simpl; lia]|lia|done|auto|].
    apply Forall_forall; intros x Hx; rewrite !Forall_forall in *.
    split; [apply Hpos; unfold last_n in Hx; by apply subseteq_drop in Hx|auto]. }
  all: clear Hnn.
  all: unfold get_rtt; rewrite Hs, length_last_n, Hmin; change MIN_SAMPLES with 10%nat.
  - destruct (smoothed_rtt _) as [r|]; [split; [done|]; intros H|].
    + destruct Hsm as [_ Hsm]; discriminate Hsm; lia.
    + destruct (Nat.leb_spec 10 (Nat.min 60 (length ds))); [|split; [lia|done]].
      rewrite Hne; split; [intros ->; simpl; lia|lia].
  - intros H; destruct (smoothed_rtt _); [destruct Hsm as [_ Hsm]; discriminate Hsm; lia|].
    destruct (Nat.leb_spec 10 (Nat.min 60 (length ds))); [done|lia].
Qed.

(** ** Loss windows *)

Record windows_ok (ws : LossWindows) : Prop := {
  windows_size : (size ws <= MAX_TRANSPORT_LOSS_WINDOWS)%nat;
  windows_display : forall d s1 s2, is_Some (ws !! (d, s1)) -> is_Some (ws !! (d, s2)) -> s1 = s2;
  windows_ids : forall k w, ws !! k = Some w -> 0 <= first_frame_id w <= highest_frame_id w;
  windows_drops : forall k w, ws !! k = Some w -> 0 <= window_dropped w <= u64_max;
}.

(** Samples as the protocol can carry them. *)
Definition sample_ok (s : VideoTransportLossSample) : Prop :=
  0 <= received_frame_id s <= u64_max /\ 0 <= sample_dropped s <= u64_max.

Lemma windows_ok_sub ws ws' : ws' ⊆ ws -> windows_ok ws -> windows_ok ws'.
Proof.
  intros Hsub []; split.
  - etrans; [by apply map_subseteq_size|done].
  - intros d s1 s2 [w1 H1] [w2 H2]; eapply (windows_display0 d); eexists; eapply lookup_weaken; eauto.
  - intros k w Hk; eapply windows_ids0, lookup_weaken; eauto.
  - intros k w Hk; eapply windows_drops0, lookup_weaken; eauto.
Qed.

Lemma evict_window_sub ws k : evict_window ws k ⊆ ws.
Proof.
  unfold evict_window; case_match; [|done].
  destruct (min_by _ _) as [[o w]|]; [apply delete_subseteq|done].
Qed.

Lemma evict_window_room ws k :
  (size ws <= MAX_TRANSPORT_LOSS_WINDOWS)%nat -> ws !! k = None ->
  (size (evict_window ws k) < MAX_TRANSPORT_LOSS_WINDOWS)%nat.
Proof.
  intros Hs Hk; unfold evict_window; rewrite Hk; cbn [is_none andb].
  destruct (Nat.leb_spec MAX_TRANSPORT_LOSS_WINDOWS (size ws)); [|lia].
  destruct (min_by _ _) as [[o w]|] eqn:E.
  - apply min_by_elem_of, elem_of_map_to_list in E.
    pose proof (map_size_delete_Some o ws (mk_is_Some _ _ E)); unfold MAX_TRANSPORT_LOSS_WINDOWS in *; lia.
  - apply min_by_none in E; apply map_to_list_empty_iff in E; subst ws.
    rewrite map_size_empty in *; unfold MAX_TRANSPORT_LOSS_WINDOWS in *; lia.
Qed.

Lemma evict_window_keeps ws k : is_Some (ws !! k) -> evict_window ws k = ws.
Proof. intros [w Hw]; unfold evict_window; by rewrite Hw. Qed.

Lemma count_sample_ok ws k s now :
  windows_ok ws -> sample_ok s ->
  (forall w, ws !! k = Some w -> highest_frame_id w < received_frame_id s) ->
  let w := count_sample ws k s now in
  0 <= first_frame_id w <= highest_frame_id w /\ 0 <= window_dropped w <= u64_max /\
  sample_dropped s <= window_dropped w /\ highest_frame_id w = received_frame_id s.
Proof.
  intros Hw [Hid Hd] Hk; unfold count_sample; simpl.
  set (w0 := unwrap_or (ws !! k) (fresh_window s now)).
  assert (0 <= first_frame_id w0 <= received_frame_id s /\ 0 <= window_dropped w0) as [H1 H2].
  { unfold w0; destruct (ws !! k) as [w|] eqn:E; simpl; [|lia].
    pose proof (windows_ids _ Hw _ _ E); pose proof (windows_drops _ Hw _ _ E).
    specialize (Hk w eq_refl); lia. }
  clearbody w0; unfold sat_add; case_match; simpl; lia.
Qed.

Lemma observe_ok ws s now :
  windows_ok ws -> sample_ok s -> windows_ok (observe_transport_loss ws s now).2.
Proof.
  intros Hws Hs; unfold observe_transport_loss.
  set (k := (loss_display s, loss_stream_id s)); set (ws1 := filter _ ws).
  assert (windows_ok ws1) as H1 by (eapply windows_ok_sub, Hws; apply map_filter_subseteq).
  assert (forall k' w, ws1 !! k' = Some w -> fst k' = loss_display s -> k' = k) as Hdisp.
  { intros [d st] w Hl Hd; apply map_lookup_filter_Some in Hl as [_ Hf]; simpl in *.
    unfold k; destruct Hf; subst; [done|by f_equal]. }
  clearbody ws1.
  destruct (is_some_and (ws1 !! k) _) eqn:Est; [done|]; simpl.
  assert (forall w, ws1 !! k = Some w -> highest_frame_id w < received_frame_id s) as Hnew
    by (intros w Hw; rewrite Hw in Est; simpl in Est; lia).
  pose proof (evict_window_sub ws1 k) as Hsub.
  pose proof (windows_ok_sub _ _ Hsub H1) as H2.
  assert (forall w, evict_window ws1 k !! k = Some w -> highest_frame_id w < received_frame_id s) as Hnew2
    by (intros w Hw; eapply Hnew, lookup_weaken; eauto).
  pose proof (count_sample_ok _ _ _ now H2 Hs Hnew2) as (Hi & Hdr & _); cbv zeta in *.
  set (w := count_sample _ _ _ _) in *; clearbody w.
  split.
  - destruct (ws1 !! k) as [w1|] eqn:E.
    + rewrite evict_window_keeps, map_size_insert_Some by eauto. apply H1.
    + rewrite map_size_insert_None by (eapply lookup_weaken_None; eauto).
      pose proof (evict_window_room _ _ (windows_size _ H1) E); lia.
  - intros d s1 s2 [w1 Hw1] [w2 Hw2].
    assert (forall st w', <[k:=w]> (evict_window ws1 k) !! (d, st) = Some w' ->
              d = loss_display s -> st = loss_stream_id s) as Hone.
    { intros st w' Hl Hd; apply lookup_insert_Some in Hl as [[Hk _]|[_ Hl]]; [by injection Hk|].
      eapply lookup_weaken, Hdisp in Hl; [|done|done]. by injection Hl. }
    destruct (decide (d = loss_display s)) as [Hd|Hd].
    + rewrite (Hone _ _ Hw1 Hd), (Hone _ _ Hw2 Hd); done.
    + rewrite lookup_insert_ne in Hw1, Hw2 by (unfold k; congruence).
      eapply (windows_display _ H2 d); eauto.
  - intros k' w' Hl; apply lookup_insert_Some in Hl as [[_ <-]|[_ Hl]]; [done|by eapply windows_ids].
  - intros k' w' Hl; apply lookup_insert_Some in Hl as [[_ <-]|[_ Hl]]; [done|by eapply windows_drops].
Qed.

Fixpoint observe_all (ws : LossWindows) (l : list (VideoTransportLossSample * instant)) : LossWindows :=
  match l with
  | [] => ws
  | (s, now) :: l => observe_all (observe_transport_loss ws s now).2 l
  end.

Lemma observe_all_ok ws l :
  windows_ok ws -> Forall (fun x => sample_ok x.1) l -> windows_ok (observe_all ws l).
Proof.
  revert ws; induction l as [|[s now] l IH]; intros ws Hw Hl; [done|].
  apply Forall_cons in Hl as [Hs Hl]; apply IH; [by apply observe_ok|done].
Qed.

Lemma empty_windows_ok : windows_ok ∅.
Proof.
  split; [rewrite map_size_empty; lia|intros d s1 s2 [w Hw]; by rewrite lookup_empty in Hw|
    intros k w Hk; by rewrite lookup_empty in Hk..].
Qed.

Lemma permille_bound (d o : Z) : 0 <= d <= o -> 0 < o -> 0 <= sat_mul u64_max d 1000 / o <= 1000.
Proof.
  intros Hd Ho; unfold sat_mul; split.
  - apply Z.div_pos; [unfold u64_max; lia|lia].
  - apply Z.div_le_upper_bound; lia.
Qed.

(** Whatever loss a viewer reports, at most sixteen windows are kept, one
    stream per display; a sample that is counted has a frame number above all
    those of its window, leaves it as the highest, loses no drop of its own,
    and gives a loss between 0 and 1000 per mille; any other leaves the window
    of its stream as it was and asks for no back-off. *)
Theorem loss_windows_sound l s now :
  Forall (fun x => sample_ok x.1) l -> sample_ok s ->
  let ws := observe_all ∅ l in
  let k := (loss_display s, loss_stream_id s) in
  let '(o, ws') := observe_transport_loss ws s now in
  (size ws' <= 16)%nat /\
  (forall d s1 s2, is_Some (ws' !! (d, s1)) -> is_Some (ws' !! (d, s2)) -> s1 = s2) /\
  if stale o then backoff_reason o = None /\ ws' !! k = ws !! k
  else
    (forall w, ws !! k = Some w -> highest_frame_id w < received_frame_id s) /\
    (exists w, ws' !! k = Some w /\ highest_frame_id w = received_frame_id s /\
       sample_dropped s <= window_dropped w) /\
    0 <= loss_permille o <= 1000 /\ observed_dropped o <= observed_frames o.
Proof.
  intros Hl Hs ws k; pose proof (observe_all_ok _ _ empty_windows_ok Hl) as Hw; fold ws in Hw.
  pose proof (observe_ok _ _ now Hw Hs) as Hw'.
  destruct (observe_transport_loss ws s now) as [o ws'] eqn:E; simpl in Hw'.
  split; [apply Hw'|split; [apply Hw'|]].
  unfold observe_transport_loss in E; fold k in E.
  set (ws1 := filter _ ws) in E.
  assert (ws1 !! k = ws !! k) as Hk.
  { unfold ws1; destruct (ws !! k) as [w|] eqn:Ek.
    - apply map_lookup_filter_Some; split; [done|by right].
    - apply map_lookup_filter_None; by left. }
  assert (windows_ok ws1) as H1 by (eapply windows_ok_sub, Hw; apply map_filter_subseteq).
  clearbody ws1.
  cbv zeta in E; pose proof (count_sample_ok (evict_window ws1 k) k s now) as Hcnt; cbv zeta in Hcnt.
  set (w := count_sample (evict_window ws1 k) k s now) in E, Hcnt; clearbody w.
  destruct (is_some_and (ws1 !! k) _) eqn:Est; injection E as <- <-;
    cbn [stale backoff_reason loss_permille observed_dropped observed_frames]; [done|].
  assert (forall w, ws1 !! k = Some w -> highest_frame_id w < received_frame_id s) as Hnew
    by (intros w0 Hx; rewrite Hx in Est; simpl in Est; lia).
  assert (forall w, evict_window ws1 k !! k = Some w -> highest_frame_id w < received_frame_id s) as Hnew2
    by (intros w0 Hx; eapply Hnew, lookup_weaken; [eauto|apply evict_window_sub]).
  destruct (Hcnt (windows_ok_sub _ _ (evict_window_sub _ k) H1) Hs Hnew2) as (Hi & Hdr & Hd & Hh).
  split_and!.
  - by rewrite <- Hk.
  - exists w; rewrite lookup_insert_eq; done.
  - apply permille_bound; unfold frames_of_window; lia.
  - apply permille_bound; unfold frames_of_window; lia.
  - unfold frames_of_window; lia.
Qed.

Lemma delay_estimates_witness :
  0 <= avg_delay (feed [40; 20; 60; 100]) <= 100.
Proof.
  assert (Forall (fun x => x <= 100) (last_n 3 [40; 20; 60; 100])) as H1
    by (vm_compute; repeat constructor; discriminate).
  assert (Forall (fun x => 0 <= x) [40; 20; 60; 100]) as H2 by (repeat constructor; discriminate).
  destruct (delay_estimates [40; 20; 60; 100]) as (_ & _ & _ & _ & _ & _ & H).
  apply H; [discriminate|vm_compute; discriminate|exact H2|exact H1].
Defined.

Definition loss_sample (id drops : Z) : VideoTransportLossSample :=
  {| loss_display := 0; loss_stream_id := 1; received_frame_id := id; sample_dropped := drops |}.

Lemma loss_windows_sound_witness :
  exists o ws, observe_transport_loss (observe_all ∅ [(loss_sample 5 1, 0)]) (loss_sample 9 4) 1 = (o, ws) /\
    backoff_reason o = Some Burst /\ 0 <= loss_permille o <= 1000.
Proof.
  assert (sample_ok (loss_sample 5 1)) as H1 by (vm_compute; split; split; discriminate).
  assert (sample_ok (loss_sample 9 4)) as H2 by (vm_compute; split; split; discriminate).
  pose proof (loss_windows_sound [(loss_sample 5 1, 0)] (loss_sample 9 4) 1
    (Forall_cons_2 (fun x : VideoTransportLossSample * Z => sample_ok x.1) (loss_sample 5 1, 0) [] H1
       (Forall_nil_2 _)) H2) as H; cbv zeta in H.
  assert (stale (observe_transport_loss (observe_all ∅ [(loss_sample 5 1, 0)]) (loss_sample 9 4) 1).1 = false) as Hst
    by (vm_compute; reflexivity).
  assert (backoff_reason (observe_transport_loss (observe_all ∅ [(loss_sample 5 1, 0)]) (loss_sample 9 4) 1).1 = Some Burst) as Hb
    by (vm_compute; reflexivity).
  destruct (observe_transport_loss (observe_all ∅ [(loss_sample 5 1, 0)]) (loss_sample 9 4) 1) as [o ws].
  cbn [fst] in Hst, Hb; rewrite Hst in H.
  exists o, ws; split; [reflexivity|split; [exact Hb|apply H]].
Defined.
