(* ===== verification/VideoQos.v ===== *)
(** * The video quality controller of the host

    Models [VideoQoS] of src/src/server/video_qos.rs: for each connected user
    the settings, delays and admission samples, for each video service (display)
    the frame rate, the bitrate ratio and the congestion state, and every
    operation on them.  [Instant::now()] is the parameter [now] of the operation
    (one reading for the whole call); [Config::get_option] and the target
    operating system are parameters of the operations that use them; a
    [HashMap]'s iteration order is that of [elements] and [map_to_list]; logging
    is left out.  Ratios are the 32-bit floats of Floats.v. *)

From Stdlib Require Import SpecFloat Ascii.
From S2P Require Import Prelude Floats MovieCadence ViewerNetwork.

Definition INIT_FPS : Z := 15.
Definition STARTUP_SAFE_WINDOW : duration := from_secs 8.
Definition STARTUP_SAFE_FPS : Z := 5.
Definition STARTUP_SAFE_RATIO : f32 := f32_lit 25 100.
Definition BR_MAX : f32 := f32_lit 40 1.
Definition BR_MIN : f32 := f32_lit 2 10.
Definition BR_MIN_HIGH_RESOLUTION : f32 := f32_lit 1 10.
Definition MAX_BR_MULTIPLE : f32 := f32_lit 1 1.
Definition ADJUST_RATIO_INTERVAL : Z := 3.
Definition DYNAMIC_SCREEN_THRESHOLD : Z := 2.
Definition TRANSPORT_LOSS_BACKOFF_COOLDOWN : duration := from_secs 5.
Definition TRANSPORT_LOSS_BACKOFF_NUMERATOR : Z := 7.
Definition TRANSPORT_LOSS_BACKOFF_DENOMINATOR : Z := 8.
Definition DATAGRAM_ADMISSION_SAMPLE_FRESHNESS : duration := from_millis 1500.
Definition DATAGRAM_ADMISSION_PRESSURE_DURATION : duration := from_secs 1.
Definition DATAGRAM_ADMISSION_ACTION_COOLDOWN : duration := from_secs 2.
Definition DATAGRAM_ADMISSION_UPSHIFT_FREEZE : duration := from_secs 6.
Definition DATAGRAM_ADMISSION_CLEAN_RESET : duration := from_secs 5.
Definition DATAGRAM_ADMISSION_MAX_RATIO_REDUCTIONS : Z := 4.
Definition DATAGRAM_ADMISSION_CADENCE_EVENTS : Z := 3.
Definition DATAGRAM_ADMISSION_MIN_REJECT_PERMILLE : Z := 20.
Definition DATAGRAM_ADMISSION_PREEMPTIVE_QUEUE_PERMILLE : Z := 850.
Definition DATAGRAM_ADMISSION_EVENT_INTERVAL : duration := from_millis 500.
Definition MAX_DATAGRAM_ADMISSION_SERVICES : nat := 16.
Definition CUSTOM_CONGESTION_EPISODE_CLEAN_RESET : duration := from_secs 15.
Definition CUSTOM_CONGESTION_EPISODE_FLOOR_MULTIPLIER : f32 := f32_lit 5 10.
Definition CUSTOM_CONGESTION_MAX_TRANSPORT_REDUCTIONS : Z := 3.
Definition NVENC_RATIO_UPSHIFT_INTERVAL : duration := from_secs 10.
Definition NVENC_RATIO_UPSHIFT_KBPS : Z := 500.
Definition MOVIE_FEEDBACK_FRESHNESS : duration := from_secs 2.
Definition MAX_MOVIE_FEEDBACK_DISPLAYS : nat := 16.
Definition MOVIE_DEFAULT_TARGET_FPS : Z := 60.

(** ** Quality (libs/scrap/src/common/codec.rs) *)

Definition BR_BEST : f32 := f32_lit 15 10.
Definition BR_BALANCED : f32 := f32_lit 67 100.
Definition BR_SPEED : f32 := f32_lit 5 10.

Inductive Quality := Best | Balanced | Low | Custom (v : f32).

Definition is_custom (q : Quality) : bool := match q with Custom _ => true | _ => false end.

Definition quality_ratio (q : Quality) : f32 :=
  match q with Best => BR_BEST | Balanced => BR_BALANCED | Low => BR_SPEED | Custom v => v end.

(** The derived [PartialEq]: the floats are compared as numbers. *)
Definition quality_eqb (p q : Quality) : bool :=
  match p, q with
  | Best, Best | Balanced, Balanced | Low, Low => true
  | Custom v, Custom w => feq v w
  | _, _ => false
  end.

Definition minimum_ratio_for_quality (q : Quality) (current_ratio : f32) (current_bitrate : Z) : f32 :=
  let ratio_1mbps :=
    if 0 <? current_bitrate
    then Some (fmax (f32_div (f32_mul current_ratio (f32_of 1000)) (f32_of current_bitrate))
                    BR_MIN_HIGH_RESOLUTION)
    else None in
  match q with
  | Best =>
      let m := f32_div BR_BEST (f32_lit 25 10) in
      let m := map_or ratio_1mbps m (fmin m) in
      fmax m BR_MIN
  | Balanced =>
      let m := fmin (f32_div BR_BALANCED (f32_lit 2 1)) (f32_lit 4 10) in
      let m := map_or ratio_1mbps m (fmin m) in
      fmax m BR_MIN_HIGH_RESOLUTION
  | Low | Custom _ => BR_MIN_HIGH_RESOLUTION
  end.

(** ** State *)

Inductive VideoProfile := Standard | Movie.
#[export] Instance profile_eq_dec : EqDecision VideoProfile.
Proof. solve_decision. Defined.

Record MovieViewerFeedback := {
  fb_queue_depth_frames : Z;
  fb_decode_time_us : Z;
  fb_render_submit_time_us : Z;
  fb_dropped_frames : Z;
  fb_display_refresh_millihz : Z;
  fb_presentation_late_frames : Z;
  fb_presentation_dropped_frames : Z;
  fb_presentation_jitter_p95_us : Z;
  fb_updated_at : option instant;
}.

Record VideoDatagramAdmissionSample := {
  sample_rejected_active : Z;
  sample_frames_sent : Z;
  queue_delay_us : Z;
  queue_budget_bytes : Z;
  queued_bytes : Z;
  datagram_bytes_p99 : Z;
  required_bytes_p99 : Z;
}.

Record DatagramAdmissionState := {
  rejected_active : Z;
  frames_sent : Z;
  pressured : bool;
  updated_at : option instant;
}.

Definition default_admission : DatagramAdmissionState :=
  {| rejected_active := 0; frames_sent := 0; pressured := false; updated_at := None |}.

Record UserData := {
  auto_adjust_fps : option Z;
  custom_fps : option Z;
  fixed_fps : option Z;
  quality : option (Z * Quality);
  delay : UserDelay;
  record : bool;
  video_feedback_capable : bool;
  video_startup_by_service : gmap string ViewerStartupState;
  last_transport_loss_at : option instant;
  transport_loss_windows : gmap (Z * Z) TransportLossWindow;
  video_profile : VideoProfile;
  movie_transport_capable : bool;
  movie_feedback_by_display : gmap Z MovieViewerFeedback;
  datagram_admission_by_service : gmap string DatagramAdmissionState;
  transport_loss_upshift_frozen_until : gmap string instant;
}.

#[export] Instance eta_user : Eta UserData := fun u =>
  Build_UserData (auto_adjust_fps u) (custom_fps u) (fixed_fps u) (quality u) (delay u) (record u)
    (video_feedback_capable u) (video_startup_by_service u) (last_transport_loss_at u)
    (transport_loss_windows u) (video_profile u) (movie_transport_capable u)
    (movie_feedback_by_display u) (datagram_admission_by_service u)
    (transport_loss_upshift_frozen_until u).

Definition default_user : UserData :=
  {| auto_adjust_fps := None; custom_fps := None; fixed_fps := None; quality := None;
     delay := default_delay; record := false; video_feedback_capable := false;
     video_startup_by_service := ∅; last_transport_loss_at := None; transport_loss_windows := ∅;
     video_profile := Standard; movie_transport_capable := false; movie_feedback_by_display := ∅;
     datagram_admission_by_service := ∅; transport_loss_upshift_frozen_until := ∅ |}.

Record DisplayData := {
  send_counter : Z;
  support_changing_quality : bool;
  subscribers : gset Z;
  display_fps : Z;
  display_ratio : f32;
  bitrate_store : Z;
  capture_backend : option string;
  capture_frame : option string;
  encoder_backend : option string;
  encoder_input : option string;
  adjust_ratio_instant : instant;
  display_movie_target_fps : Z;
  movie_pacing_fps : Z;
  movie_host_pipeline_p95_us : Z;
  admission_pressure_since : option instant;
  admission_clean_since : option instant;
  admission_events : Z;
  admission_ratio_reductions : Z;
  movie_admission_pressure : bool;
  admission_latched_at : option instant;
  last_admission_event_at : option instant;
  upshift_frozen_until : option instant;
  last_congestion_reduction_at : option instant;
  congestion_episode_floor_ratio : option f32;
  congestion_episode_last_pressure_at : option instant;
  congestion_episode_transport_reductions : Z;
  last_nvenc_ratio_upshift_at : option instant;
}.

#[export] Instance eta_display : Eta DisplayData := fun d =>
  Build_DisplayData (send_counter d) (support_changing_quality d) (subscribers d) (display_fps d)
    (display_ratio d) (bitrate_store d) (capture_backend d) (capture_frame d) (encoder_backend d)
    (encoder_input d) (adjust_ratio_instant d) (display_movie_target_fps d) (movie_pacing_fps d)
    (movie_host_pipeline_p95_us d) (admission_pressure_since d) (admission_clean_since d)
    (admission_events d) (admission_ratio_reductions d) (movie_admission_pressure d)
    (admission_latched_at d) (last_admission_event_at d) (upshift_frozen_until d)
    (last_congestion_reduction_at d) (congestion_episode_floor_ratio d)
    (congestion_episode_last_pressure_at d) (congestion_episode_transport_reductions d)
    (last_nvenc_ratio_upshift_at d).

Definition default_display (now : instant) : DisplayData :=
  {| send_counter := 0; support_changing_quality := false; subscribers := ∅; display_fps := FPS;
     display_ratio := BR_BALANCED; bitrate_store := 0; capture_backend := None; capture_frame := None;
     encoder_backend := None; encoder_input := None; adjust_ratio_instant := now;
     display_movie_target_fps := 0; movie_pacing_fps := 0; movie_host_pipeline_p95_us := 0;
     admission_pressure_since := None; admission_clean_since := None; admission_events := 0;
     admission_ratio_reductions := 0; movie_admission_pressure := false; admission_latched_at := None;
     last_admission_event_at := None; upshift_frozen_until := None; last_congestion_reduction_at := None;
     congestion_episode_floor_ratio := None; congestion_episode_last_pressure_at := None;
     congestion_episode_transport_reductions := 0; last_nvenc_ratio_upshift_at := None |}.

Record VideoQoS := {
  users : gmap Z UserData;
  displays : gmap string DisplayData;
  abr_config : bool;
}.

#[export] Instance eta_qos : Eta VideoQoS := fun q => Build_VideoQoS (users q) (displays q) (abr_config q).

Definition default_qos : VideoQoS := {| users := ∅; displays := ∅; abr_config := true |}.

(** [if let Some(x) = map.get_mut(key) { .. }] *)
Definition update_user (q : VideoQoS) (id : Z) (f : UserData -> UserData) : VideoQoS :=
  q <| users ::= alter f id |>.
Definition update_display (q : VideoQoS) (name : string) (f : DisplayData -> DisplayData) : VideoQoS :=
  q <| displays ::= alter f name |>.

(** ** DisplayData *)

(** [haystack.contains(needle)] *)
Definition contains (haystack needle : string) : bool :=
  is_some (String.index 0 needle haystack).

Definition uses_nvenc (d : DisplayData) : bool :=
  is_some_and (encoder_backend d) (fun backend => contains backend "NVENC").

Definition clear_custom_congestion_episode (d : DisplayData) : DisplayData :=
  d <| congestion_episode_floor_ratio := None |> <| congestion_episode_last_pressure_at := None |>
    <| congestion_episode_transport_reductions := 0 |>.

Definition expire_custom_congestion_episode (d : DisplayData) (now : instant) : bool * DisplayData :=
  if is_some_and (congestion_episode_last_pressure_at d)
       (fun last => CUSTOM_CONGESTION_EPISODE_CLEAN_RESET <=? since now last)
  then (true, clear_custom_congestion_episode d)
  else (false, d).

Definition touch_custom_congestion_episode (d : DisplayData) (q : Quality) (now : instant) :
    option f32 * DisplayData :=
  if negb (is_custom q) then (None, clear_custom_congestion_episode d)
  else
    let d := (expire_custom_congestion_episode d now).2 in
    let d := if is_none (congestion_episode_floor_ratio d)
             then d <| congestion_episode_floor_ratio :=
                         Some (fmax (f32_mul (display_ratio d) CUSTOM_CONGESTION_EPISODE_FLOOR_MULTIPLIER)
                                 (minimum_ratio_for_quality q (display_ratio d) (bitrate_store d))) |>
             else d in
    let floor := unwrap_or (congestion_episode_floor_ratio d) (f32_of 0) in
    (Some floor, d <| congestion_episode_last_pressure_at := Some now |>).

(** The reset that [clear_datagram_admission_for_display] and the expiry of the
    latch share. *)
Definition reset_admission (d : DisplayData) : DisplayData :=
  d <| admission_pressure_since := None |> <| admission_clean_since := None |>
    <| admission_events := 0 |> <| admission_ratio_reductions := 0 |>
    <| movie_admission_pressure := false |> <| admission_latched_at := None |>
    <| last_admission_event_at := None |> <| upshift_frozen_until := None |>.

(** ** Reading the state *)

Definition subscribed_users (q : VideoQoS) (name : string) : list UserData :=
  match displays q !! name with
  | Some d => omap (fun id => users q !! id) (elements (subscribers d))
  | None => []
  end.

Definition display_names_for_user (q : VideoQoS) (id : Z) : list string :=
  (filter (fun '(_, d) => id ∈ subscribers d) (map_to_list (displays q))).*1.

(** [map(f).max()] and [map(f).min()] *)
Definition list_max (l : list Z) : option Z :=
  match l with [] => None | x :: l => Some (foldr Z.max x l) end.

(** [max_by_key]: the last of the largest elements. *)
Fixpoint max_by {A} (key : A -> Z) (l : list A) : option A :=
  match l with
  | [] => None
  | x :: l => match max_by key l with
              | Some y => Some (if key y <? key x then x else y)
              | None => Some x
              end
  end.

Definition nonempty {A} (l : list A) : bool := negb (bool_decide (length l = 0%nat)).

Definition in_vbr_state (q : VideoQoS) (name : string) : bool :=
  abr_config q && is_some_and (displays q !! name) support_changing_quality.

Definition locked_fps (q : VideoQoS) (name : string) : option Z :=
  clampZ MIN_FPS MAX_FPS <$> list_max (omap fixed_fps (subscribed_users q name)).

Definition requested_fps (u : UserData) : Z :=
  let fps := unwrap_or (custom_fps u) FPS in
  let fps := match auto_adjust_fps u with
             | Some auto => if (fps =? 0) || (auto <? fps) then auto else fps
             | None => fps
             end in
  clampZ MIN_FPS MAX_FPS fps.

Definition user_requested_fps (q : VideoQoS) (id : Z) : Z := map_or (users q !! id) FPS requested_fps.

Definition highest_fps (q : VideoQoS) (name : string) : Z :=
  match locked_fps q name with
  | Some fps => fps
  | None => unwrap_or (list_max (requested_fps <$> subscribed_users q name)) FPS
  end.

Definition latest_quality (q : VideoQoS) (name : string) : Quality :=
  (unwrap_or (max_by fst (omap quality (subscribed_users q name))) (0, Balanced)).2.

Definition fps (q : VideoQoS) (name : string) : Z :=
  let fps := map_or (displays q !! name) FPS display_fps in
  if (MIN_FPS <=? fps) && (fps <=? MAX_FPS) then fps else FPS.

Definition spf (q : VideoQoS) (name : string) : option duration :=
  from_secs_f32 (f32_div (f32_of 1) (f32_of (fps q name))).

Definition bitrate (q : VideoQoS) (name : string) : Z := map_or (displays q !! name) 0 bitrate_store.

Definition pipeline_status (q : VideoQoS) (name : string) :
    option string * option string * option string * option string :=
  match displays q !! name with
  | Some d => (capture_backend d, capture_frame d, encoder_backend d, encoder_input d)
  | None => (None, None, None, None)
  end.

Definition movie_runtime_status (q : VideoQoS) (name : string) : Z * Z * Z :=
  match displays q !! name with
  | Some d => (display_movie_target_fps d, movie_pacing_fps d, movie_host_pipeline_p95_us d)
  | None => (0, 0, 0)
  end.

Definition startup_safe_mode (q : VideoQoS) (name : string) (now : instant) : bool :=
  match displays q !! name with
  | None => false
  | Some _ =>
      if is_some (locked_fps q name) then false
      else
        let starts := omap (fun u => video_startup_by_service u !! name) (subscribed_users q name) in
        let has_established_viewer := existsb render_started starts in
        let has_starting_viewer :=
          existsb (fun s => negb (render_started s)
                            && (since now (startup_started_at s) <? STARTUP_SAFE_WINDOW)) starts in
        negb has_established_viewer && has_starting_viewer
  end.

Definition has_record (q : VideoQoS) (name : string) : bool := existsb record (subscribed_users q name).

Definition all_subscribers_request_movie (q : VideoQoS) (name : string) : bool :=
  nonempty (subscribed_users q name)
    && forallb (fun u => bool_decide (video_profile u = Movie)) (subscribed_users q name).

Definition full_movie_mode (q : VideoQoS) (name : string) : bool :=
  nonempty (subscribed_users q name)
    && forallb (fun u => bool_decide (video_profile u = Movie) && video_feedback_capable u
                         && movie_transport_capable u) (subscribed_users q name).

Definition movie_target_fps (q : VideoQoS) (name : string) : Z :=
  clampZ MIN_FPS MAX_FPS
    (unwrap_or (list_min ((fun u => clampZ MIN_FPS MAX_FPS (unwrap_or (custom_fps u) MOVIE_DEFAULT_TARGET_FPS))
                            <$> subscribed_users q name))
       MOVIE_DEFAULT_TARGET_FPS).

Definition custom_encoder_fps (q : VideoQoS) (name : string) : option Z :=
  clampZ MIN_FPS MAX_FPS <$> list_max (omap custom_fps (subscribed_users q name)).

Definition custom_adaptive_display_names_for_user (q : VideoQoS) (id : Z) : list string :=
  if is_some_and (users q !! id) (fun u => is_some_and (quality u) (fun x => is_custom x.2))
  then filter (fun name => in_vbr_state q name = true) (display_names_for_user q id)
  else [].

Definition transport_loss_upshift_frozen_for_display (q : VideoQoS) (name : string) (now : instant) : bool :=
  nonempty (subscribed_users q name)
    && forallb (fun u => is_some_and (quality u) (fun x => is_custom x.2)
                         && is_some_and (transport_loss_upshift_frozen_until u !! name)
                              (fun until => now <? until)) (subscribed_users q name).

(** ** The index of a service: "monitor3", "camera-1" *)

Definition digit (c : ascii) : option Z :=
  let n := Z.of_nat (nat_of_ascii c) - 48 in
  if (0 <=? n) && (n <=? 9) then Some n else None.

(** The value of a string of digits. *)
Fixpoint digits_value (acc : Z) (s : string) : option Z :=
  match s with
  | EmptyString => Some acc
  | String c s => n ← digit c; digits_value (acc * 10 + n) s
  end.

Definition nonempty_digits (s : string) : option Z :=
  match s with EmptyString => None | _ => digits_value 0 s end.

(** [str::parse::<i32>]: an optional sign, digits, within the range. *)
Definition parse_i32 (s : string) : option Z :=
  v ← match s with
      | String "-"%char s => Z.opp <$> nonempty_digits s
      | String "+"%char s => nonempty_digits s
      | s => nonempty_digits s
      end;
  if (- i32_max - 1 <=? v) && (v <=? i32_max) then Some v else None.

Fixpoint strip_prefix (p s : string) : option string :=
  match p, s with
  | EmptyString, _ => Some s
  | String a p, String b s => if decide (a = b) then strip_prefix p s else None
  | String _ _, EmptyString => None
  end.

(** [trim_start_matches('-')] *)
Fixpoint trim_dashes (s : string) : string :=
  match s with
  | String "-"%char s => trim_dashes s
  | s => s
  end.

Definition video_service_display_index (name : string) : option Z :=
  rest ← match strip_prefix "monitor" name with
         | Some rest => Some rest
         | None => strip_prefix "camera" name
         end;
  parse_i32 (trim_dashes rest).

(** ** Metrics of the viewers in movie mode *)

Definition add_feedback (m : MovieViewerMetrics) (f : MovieViewerFeedback) : MovieViewerMetrics :=
  {| available := available m;
     all_rendered := all_rendered m;
     max_queue_depth_frames := Z.max (max_queue_depth_frames m) (fb_queue_depth_frames f);
     max_decode_time_us := Z.max (max_decode_time_us m) (fb_decode_time_us f);
     max_render_submit_time_us := Z.max (max_render_submit_time_us m) (fb_render_submit_time_us f);
     dropped_frames := sat_add u64_max (dropped_frames m) (fb_dropped_frames f);
     display_refresh_millihz :=
       if 0 <? fb_display_refresh_millihz f then
         if display_refresh_millihz m =? 0 then fb_display_refresh_millihz f
         else Z.min (display_refresh_millihz m) (fb_display_refresh_millihz f)
       else display_refresh_millihz m;
     presentation_late_frames := sat_add u64_max (presentation_late_frames m) (fb_presentation_late_frames f);
     presentation_dropped_frames :=
       sat_add u64_max (presentation_dropped_frames m) (fb_presentation_dropped_frames f);
     presentation_jitter_p95_us := Z.max (presentation_jitter_p95_us m) (fb_presentation_jitter_p95_us f) |}.

Definition fresh_feedback (f : MovieViewerFeedback) (now : instant) : bool :=
  is_some_and (fb_updated_at f) (fun updated => since now updated <=? MOVIE_FEEDBACK_FRESHNESS).

Definition movie_viewer_metrics (q : VideoQoS) (name : string) (now : instant) : MovieViewerMetrics :=
  match video_service_display_index name with
  | None => default_metrics
  | Some display_idx =>
      let subs := subscribed_users q name in
      if negb (nonempty subs) then default_metrics
      else
        foldl (fun m u =>
          match movie_feedback_by_display u !! display_idx with
          | Some f => if fresh_feedback f now then add_feedback m f else m <| available := false |>
          | None => m <| available := false |>
          end)
          (default_metrics <| available := true |>
             <| all_rendered := forallb (fun u => is_some_and (video_startup_by_service u !! name) render_started) subs |>)
          subs
  end.

(** ** Storing what the encoder reports *)

Definition store_bitrate (q : VideoQoS) (name : string) (b : Z) : VideoQoS :=
  update_display q name (fun d => d <| bitrate_store := b |>).

Definition store_pipeline_status (q : VideoQoS) (name cap enc inp : string) : VideoQoS :=
  update_display q name (fun d =>
    d <| capture_backend := Some cap |> <| encoder_backend := Some enc |> <| encoder_input := Some inp |>).

Definition store_capture_frame (q : VideoQoS) (name frame : string) : bool * VideoQoS :=
  match displays q !! name with
  | None => (false, q)
  | Some d =>
      if bool_decide (capture_frame d = Some frame) then (false, q)
      else (true, update_display q name (fun d => d <| capture_frame := Some frame |>))
  end.

Definition store_movie_runtime_status (q : VideoQoS) (name : string) (target pacing p95_us : Z) : VideoQoS :=
  update_display q name (fun d =>
    let d := d <| display_movie_target_fps := target |> <| movie_pacing_fps := pacing |> in
    let d := if (0 <? target) && (0 <? pacing)
             then d <| display_fps := clampZ MIN_FPS MAX_FPS pacing |> else d in
    d <| movie_host_pipeline_p95_us := Z.min p95_us u32_max |>).

Definition set_support_changing_quality (q : VideoQoS) (name : string) (support : bool) : VideoQoS :=
  update_display q name (fun d => d <| support_changing_quality := support |>).

(** The latch of the admission pressure, read by the service's loop. *)
Definition movie_admission_pressure_at (q : VideoQoS) (name : string) (now : instant) : bool * VideoQoS :=
  match displays q !! name with
  | None => (false, q)
  | Some d =>
      let d := if is_some_and (admission_latched_at d)
                    (fun latched => DATAGRAM_ADMISSION_CLEAN_RESET * 2 <=? since now latched)
               then reset_admission d else d in
      (movie_admission_pressure d,
       q <| displays ::= <[name := d]> |>
         <| users ::= fmap (fun u => u <| datagram_admission_by_service ::= delete name |>) |>)
  end.

Definition ratio (q : VideoQoS) (name : string) (now : instant) : f32 * VideoQoS :=
  let startup_safe := startup_safe_mode q name now in
  match displays q !! name with
  | None => (BR_BALANCED, q)
  | Some d =>
      let d := if flt (display_ratio d) BR_MIN_HIGH_RESOLUTION || flt BR_MAX (display_ratio d)
               then d <| display_ratio := BR_BALANCED |> else d in
      (if startup_safe then fmin (display_ratio d) STARTUP_SAFE_RATIO else display_ratio d,
       q <| displays ::= <[name := d]> |>)
  end.

Definition clear_datagram_admission_for_display (q : VideoQoS) (name : string) : VideoQoS :=
  update_display q name reset_admission.

Definition clear_user_datagram_admission (q : VideoQoS) (id : Z) : VideoQoS :=
  let q := update_user q id (fun u => u <| datagram_admission_by_service := ∅ |>) in
  foldl (fun q name => if full_movie_mode q name then q else clear_datagram_admission_for_display q name)
    q (display_names_for_user q id).

(** ** The bitrate ratio *)

(** [reduce_ratio_for_congestion] on the display of the service. *)
Definition reduce_display (d : DisplayData) (target : Quality) (now : instant) (source : string)
    (freeze_upshift : bool) : bool * DisplayData :=
  let d := (expire_custom_congestion_episode d now).2 in
  let transport_recurrence := bool_decide (source = "transport-loss-recurrence"%string) in
  if transport_recurrence && is_custom target
     && (CUSTOM_CONGESTION_MAX_TRANSPORT_REDUCTIONS <=? congestion_episode_transport_reductions d)
  then (false, d)
  else
    let minimum := minimum_ratio_for_quality target (display_ratio d) (bitrate_store d) in
    let previous := display_ratio d in
    let unconstrained_next :=
      fmin (fmax (f32_mul (display_ratio d) (f32_lit 90 100)) minimum) (display_ratio d) in
    if fle previous unconstrained_next then (false, d)
    else
      let d :=
        if freeze_upshift then
          match checked_add now DATAGRAM_ADMISSION_UPSHIFT_FREEZE with
          | Some until =>
              if map_or (upshift_frozen_until d) true (fun current => current <? until)
              then d <| upshift_frozen_until := Some until |> else d
          | None => d
          end
        else d in
      if is_some_and (last_congestion_reduction_at d)
           (fun last => since now last <? DATAGRAM_ADMISSION_ACTION_COOLDOWN)
      then (false, d)
      else
        let '(floor, d) := touch_custom_congestion_episode d target now in
        let episode_floor := unwrap_or floor minimum in
        let next :=
          fmin (fmax (fmax (f32_mul (display_ratio d) (f32_lit 90 100)) minimum) episode_floor)
               (display_ratio d) in
        if fle previous next then (false, d)
        else
          let d := d <| display_ratio := next |> <| last_congestion_reduction_at := Some now |> in
          (true, if transport_recurrence && is_custom target
                 then d <| congestion_episode_transport_reductions ::= fun n => sat_add u8_max n 1 |>
                 else d).

Definition reduce_ratio_for_congestion (q : VideoQoS) (name : string) (now : instant) (source : string)
    (freeze_upshift : bool) : bool * VideoQoS :=
  if negb (in_vbr_state q name) then (false, q)
  else
    let target := latest_quality q name in
    match displays q !! name with
    | None => (false, q)
    | Some d =>
        let '(reduced, d) := reduce_display d target now source freeze_upshift in
        (reduced, q <| displays ::= <[name := d]> |>)
    end.

(** The factor [adjust_ratio_at] applies for a delay. *)
Definition ratio_for_delay (current_ratio : f32) (best_delay : Z) (dynamic_screen : bool) : f32 :=
  if best_delay <? 50 then
    if dynamic_screen then f32_mul current_ratio (f32_lit 115 100) else current_ratio
  else if best_delay <? 100 then
    if dynamic_screen then f32_mul current_ratio (f32_lit 11 10) else current_ratio
  else if best_delay <? DELAY_THRESHOLD_150MS then
    if dynamic_screen then f32_mul current_ratio (f32_lit 105 100) else current_ratio
  else if best_delay <? 200 then f32_mul current_ratio (f32_lit 95 100)
  else if best_delay <? 300 then f32_mul current_ratio (f32_lit 9 10)
  else if best_delay <? 500 then f32_mul current_ratio (f32_lit 85 100)
  else f32_mul current_ratio (f32_lit 8 10).

(** [adjust_ratio_at] on the display of the service. *)
Definition adjust_display_ratio (d : DisplayData) (target : Quality) (best_delay : Z)
    (transport_loss_frozen dynamic_screen : bool) (now : instant) : DisplayData :=
  let current_ratio := display_ratio d in
  let current_bitrate := bitrate_store d in
  let nvenc := uses_nvenc d in
  let nvenc_upshift_allowed :=
    negb nvenc || map_or (last_nvenc_ratio_upshift_at d) true
                    (fun last => NVENC_RATIO_UPSHIFT_INTERVAL <=? since now last) in
  let upshift_frozen :=
    is_some_and (upshift_frozen_until d) (fun until => now <? until) || transport_loss_frozen in
  let ratio_upshift_kbps := if nvenc then NVENC_RATIO_UPSHIFT_KBPS else 150 in
  let ratio_add_bitrate_step :=
    if 0 <? current_bitrate
    then Some (f32_div (f32_mul (f32_of (sat_add u32_max current_bitrate ratio_upshift_kbps)) current_ratio)
                       (f32_of current_bitrate))
    else None in
  let min := minimum_ratio_for_quality target current_ratio current_bitrate in
  let max := f32_mul (quality_ratio target) MAX_BR_MULTIPLE in
  let v := ratio_for_delay current_ratio best_delay dynamic_screen in
  let v := match ratio_add_bitrate_step with
           | Some step => if flt step v && flt current_ratio step && fle BR_SPEED current_ratio
                          then step else v
           | None => v
           end in
  let v := if nvenc && flt current_ratio v && negb nvenc_upshift_allowed then current_ratio else v in
  let d := (expire_custom_congestion_episode d now).2 in
  let '(episode_floor, d) :=
    if flt v current_ratio then touch_custom_congestion_episode d target now else (None, d) in
  let effective_min := fmin (fmax min (unwrap_or episode_floor min)) max in
  let next_ratio := fclamp effective_min max v in
  let next_ratio := if upshift_frozen && flt current_ratio next_ratio then current_ratio else next_ratio in
  let d := if nvenc && flt current_ratio next_ratio
           then d <| last_nvenc_ratio_upshift_at := Some now |> else d in
  d <| display_ratio := next_ratio |> <| adjust_ratio_instant := now |>.

Definition adjust_ratio_at (q : VideoQoS) (name : string) (dynamic_screen : bool) (now : instant) : VideoQoS :=
  if negb (in_vbr_state q name) then q
  else
    match list_min ((fun u => avg_delay (delay u)) <$> subscribed_users q name) with
    | None => q
    | Some best_delay =>
        update_display q name (fun d =>
          adjust_display_ratio d (latest_quality q name) best_delay
            (transport_loss_upshift_frozen_for_display q name now) dynamic_screen now)
    end.

(** ** The frame rate *)

Definition adjust_fps_at (q : VideoQoS) (name : string) (now : instant) : VideoQoS :=
  match locked_fps q name with
  | Some fps =>
      let movie_pacing := if full_movie_mode q name then map_or (displays q !! name) 0 movie_pacing_fps else 0 in
      update_display q name (fun d =>
        d <| display_fps := if 0 <? movie_pacing then Z.min fps movie_pacing else fps |>)
  | None =>
      let highest_fps := highest_fps q name in
      let subs := subscribed_users q name in
      let fps := unwrap_or (list_max ((fun u => unwrap_or (delay_fps (delay u)) INIT_FPS) <$> subs)) INIT_FPS in
      let all_subscribers_delayed := nonempty subs && forallb (fun u => response_delayed (delay u)) subs in
      let fps := if all_subscribers_delayed && (MIN_FPS + 1 <? fps) then MIN_FPS + 1 else fps in
      let fps := if startup_safe_mode q name now && (STARTUP_SAFE_FPS <? fps) then STARTUP_SAFE_FPS else fps in
      let next_fps := clampZ MIN_FPS highest_fps fps in
      let movie := full_movie_mode q name in
      update_display q name (fun d =>
        let next_fps := if movie && (0 <? movie_pacing_fps d) then Z.min next_fps (movie_pacing_fps d) else next_fps in
        let next_fps := if movie && is_some_and (upshift_frozen_until d) (fun until => now <? until)
                           && (display_fps d <? next_fps)
                        then display_fps d else next_fps in
        d <| display_fps := next_fps |>)
  end.

Definition adjust_displays (q : VideoQoS) (names : list string) (now : instant) : VideoQoS :=
  foldl (fun q name => adjust_fps_at q name now) q names.

Definition adjust_displays_for_user (q : VideoQoS) (id : Z) (now : instant) : VideoQoS :=
  adjust_displays q (display_names_for_user q id) now.

(** ** Sender admission *)

(** Counts a sample of the user's sender for the service. *)
Definition admit_sample (u : UserData) (name : string) (s : VideoDatagramAdmissionSample) (now : instant) : UserData :=
  let states := datagram_admission_by_service u in
  let states :=
    if is_none (states !! name) && (MAX_DATAGRAM_ADMISSION_SERVICES <=? size states)%nat then
      match min_by (fun a b => unwrap_or (updated_at a.2) (-1) <? unwrap_or (updated_at b.2) (-1))
                   (map_to_list states) with
      | Some (oldest, _) => delete oldest states
      | None => states
      end
    else states in
  let state := unwrap_or (states !! name) default_admission in
  let initialized := is_some (updated_at state) in
  let rejected_delta :=
    if initialized then monotonic_counter_delta (sample_rejected_active s) (rejected_active state) else 0 in
  let sent_delta :=
    if initialized then monotonic_counter_delta (sample_frames_sent s) (frames_sent state) else 0 in
  let observed := Z.max (sat_add u64_max rejected_delta sent_delta) 1 in
  let preemptive_queue_pressure :=
    (0 <? queue_budget_bytes s)
    && (sat_mul u64_max (queue_budget_bytes s) DATAGRAM_ADMISSION_PREEMPTIVE_QUEUE_PERMILLE
          <=? sat_mul u64_max (queued_bytes s) 1000) in
  let state :=
    {| rejected_active := sample_rejected_active s; frames_sent := sample_frames_sent s;
       pressured := preemptive_queue_pressure
                    || ((0 <? rejected_delta)
                        && (sat_mul u64_max observed DATAGRAM_ADMISSION_MIN_REJECT_PERMILLE
                              <=? sat_mul u64_max rejected_delta 1000));
       updated_at := Some now |} in
  u <| datagram_admission_by_service := <[name := state]> states |>.

(** What the display makes of the samples of all its subscribers, and whether
    the ratio should be reduced. *)
Definition admission_step (d : DisplayData) (all_pressured all_clean : bool) (now : instant) : bool * DisplayData :=
  if all_pressured then
    let d := d <| admission_clean_since := None |> in
    let d := if movie_admission_pressure d then d <| admission_latched_at := Some now |> else d in
    let pressure_since := or_insert (admission_pressure_since d) now in
    let d := d <| admission_pressure_since := Some pressure_since |> in
    if DATAGRAM_ADMISSION_PRESSURE_DURATION <=? since now pressure_since then
      let d :=
        if map_or (last_admission_event_at d) true
             (fun last => DATAGRAM_ADMISSION_EVENT_INTERVAL <=? since now last) then
          let d := d <| last_admission_event_at := Some now |>
                     <| admission_events ::= fun n => sat_add u8_max n 1 |> in
          if (DATAGRAM_ADMISSION_CADENCE_EVENTS <=? admission_events d) && negb (movie_admission_pressure d)
          then d <| movie_admission_pressure := true |> <| admission_latched_at := Some now |>
          else d
        else d in
      (admission_ratio_reductions d <? DATAGRAM_ADMISSION_MAX_RATIO_REDUCTIONS, d)
    else (false, d)
  else
    let d := d <| admission_pressure_since := None |> in
    if all_clean then
      let clean_since := or_insert (admission_clean_since d) now in
      let d := d <| admission_clean_since := Some clean_since |> in
      if DATAGRAM_ADMISSION_CLEAN_RESET <=? since now clean_since then
        (false, d <| admission_events := 0 |> <| admission_ratio_reductions := 0 |>
                  <| movie_admission_pressure := false |> <| admission_latched_at := None |>
                  <| last_admission_event_at := None |> <| upshift_frozen_until := None |>)
      else (false, d)
    else (false, d <| admission_clean_since := None |>).

Definition user_datagram_admission_at (q : VideoQoS) (id : Z) (name : string)
    (s : VideoDatagramAdmissionSample) (now : instant) : bool * VideoQoS :=
  if negb (full_movie_mode q name) then (false, clear_datagram_admission_for_display q name)
  else
    match users q !! id with
    | None => (false, q)
    | Some u =>
        let q := q <| users ::= <[id := admit_sample u name s now]> |> in
        match displays q !! name with
        | None => (false, q)
        | Some d =>
            let subs := elements (subscribers d) in
            let statuses := omap (fun id => u ← users q !! id; datagram_admission_by_service u !! name) subs in
            let all_fresh :=
              nonempty subs && bool_decide (length statuses = length subs)
              && forallb (fun st => is_some_and (updated_at st)
                   (fun updated => since now updated <=? DATAGRAM_ADMISSION_SAMPLE_FRESHNESS)) statuses in
            let all_pressured := all_fresh && forallb pressured statuses in
            let all_clean := all_fresh && forallb (fun st => negb (pressured st)) statuses in
            let '(should_reduce, d) := admission_step d all_pressured all_clean now in
            let q := q <| displays ::= <[name := d]> |> in
            if negb should_reduce then (false, q)
            else
              match reduce_ratio_for_congestion q name now "sender-admission" true with
              | (false, q) => (false, q)
              | (true, q) =>
                  (true, update_display q name (fun d =>
                           d <| admission_ratio_reductions ::= fun n => sat_add u8_max n 1 |>))
              end
        end
    end.

(** The number of the user's displays whose ratio was reduced. *)
Definition user_datagram_admission_for_user_at (q : VideoQoS) (id : Z) (s : VideoDatagramAdmissionSample)
    (now : instant) : Z * VideoQoS :=
  foldl (fun '(n, q) name =>
           let '(acted, q) := user_datagram_admission_at q id name s now in (n + Z.b2z acted, q))
    (0, q) (display_names_for_user q id).

(** ** User sessions *)

Definition on_connection_open (q : VideoQoS) (id : Z) (enable_abr : string) : VideoQoS :=
  q <| users ::= <[id := default_user]> |> <| abr_config := negb (bool_decide (enable_abr = "N"%string)) |>.

Definition on_connection_close (q : VideoQoS) (id : Z) (now : instant) : VideoQoS :=
  let affected_displays := display_names_for_user q id in
  let q := q <| users ::= delete id |> in
  foldl (fun q name =>
    let q := update_display q name (fun d => d <| subscribers ::= fun s => s ∖ {[id]} |>) in
    let q := if full_movie_mode q name then q else clear_datagram_admission_for_display q name in
    adjust_fps_at q name now) q affected_displays.

Definition valid_fps (fps : Z) : bool := (MIN_FPS <=? fps) && (fps <=? MAX_FPS).

Definition user_custom_fps (q : VideoQoS) (id fps : Z) (now : instant) : VideoQoS :=
  if negb (valid_fps fps) then q
  else match users q !! id with
       | None => q
       | Some _ =>
           adjust_displays_for_user
             (update_user q id (fun u => u <| custom_fps := Some fps |> <| fixed_fps := None |>)) id now
       end.

Definition user_fixed_fps (q : VideoQoS) (id fps : Z) (now : instant) : VideoQoS :=
  if negb (valid_fps fps) then q
  else match users q !! id with
       | None => q
       | Some _ =>
           adjust_displays_for_user
             (update_user q id (fun u => u <| custom_fps := Some fps |> <| fixed_fps := Some fps |>)) id now
       end.

Definition user_video_profile (q : VideoQoS) (id : Z) (profile : VideoProfile) (now : instant) : VideoQoS :=
  match users q !! id with
  | None => q
  | Some u =>
      let changed := negb (bool_decide (video_profile u = profile)) in
      let q := update_user q id (fun u =>
        let u :=
          if changed
          then u <| delay := default_delay |> <| auto_adjust_fps := None |>
                 <| last_transport_loss_at := None |> <| transport_loss_windows := ∅ |>
                 <| movie_feedback_by_display := ∅ |>
                 <| video_startup_by_service ::= fmap (fun s => reset_startup s now) |>
          else u in
        u <| video_profile := profile |>) in
      if changed
      then adjust_displays_for_user (clear_user_datagram_admission q id) id now
      else q
  end.

Definition user_movie_transport_capability (q : VideoQoS) (id : Z) (capable : bool) : VideoQoS :=
  let q := update_user q id (fun u => u <| movie_transport_capable := capable |>) in
  if capable then q else clear_user_datagram_admission q id.

Record VideoFeedback := {
  msg_display : Z;
  msg_stream_id : Z;
  msg_queue_depth_frames : Z;
  msg_decode_time_us : Z;
  msg_render_submit_time_us : Z;
  msg_dropped_frames : Z;
  msg_display_refresh_millihz : Z;
  msg_presentation_late_frames : Z;
  msg_presentation_dropped_frames : Z;
  msg_presentation_jitter_p95_us : Z;
}.

Definition viewer_feedback (f : VideoFeedback) (now : instant) : MovieViewerFeedback :=
  {| fb_queue_depth_frames := msg_queue_depth_frames f;
     fb_decode_time_us := msg_decode_time_us f;
     fb_render_submit_time_us := msg_render_submit_time_us f;
     fb_dropped_frames := msg_dropped_frames f;
     fb_display_refresh_millihz := msg_display_refresh_millihz f;
     fb_presentation_late_frames := msg_presentation_late_frames f;
     fb_presentation_dropped_frames := msg_presentation_dropped_frames f;
     fb_presentation_jitter_p95_us := msg_presentation_jitter_p95_us f;
     fb_updated_at := Some now |}.

Definition user_video_feedback (q : VideoQoS) (id : Z) (name : string) (f : VideoFeedback)
    (now : instant) : VideoQoS :=
  update_user q id (fun u =>
    match video_startup_by_service u !! name with
    | None => u
    | Some startup =>
        let '(accepted, startup) := begin_stream startup (msg_stream_id f) now in
        let u := u <| video_startup_by_service ::= <[name := startup]> |> in
        if negb accepted then u
        else if negb (bool_decide (video_profile u = Movie)) then u
        else if is_none (movie_feedback_by_display u !! msg_display f)
                && (MAX_MOVIE_FEEDBACK_DISPLAYS <=? size (movie_feedback_by_display u))%nat
        then u
        else u <| movie_feedback_by_display ::= <[msg_display f := viewer_feedback f now]> |>
    end).

Definition user_auto_adjust_fps (q : VideoQoS) (id fps : Z) (now : instant) : VideoQoS :=
  if negb (valid_fps fps) then q
  else adjust_displays_for_user (update_user q id (fun u => u <| auto_adjust_fps := Some fps |>)) id now.

(** The values of the protocol's [ImageQuality], generated from the protobuf. *)
Record ImageQualityValues := { iq_balanced : Z; iq_low : Z; iq_best : Z }.

Definition convert_quality (iq : ImageQualityValues) (v : Z) : Quality :=
  if v =? iq_balanced iq then Balanced
  else if v =? iq_low iq then Low
  else if v =? iq_best iq then Best
  else
    let b := f32_div (f32_of (Z.land (Z.shiftr v 8) 4095 * 2)) (f32_of 100) in
    Custom (fclamp BR_MIN BR_MAX b).

Definition user_image_quality (iq : ImageQualityValues) (q : VideoQoS) (id image_quality time : Z) : VideoQoS :=
  let converted := convert_quality iq image_quality in
  match users q !! id with
  | None => q
  | Some u =>
      let quality_changed :=
        negb (is_some_and (quality u) (fun x => quality_eqb x.2 converted)) in
      let u := if quality_changed then u <| transport_loss_upshift_frozen_until := ∅ |> else u in
      let q := q <| users ::= <[id := u <| quality := Some (time, converted) |>]> |> in
      foldl (fun q name =>
        let r := quality_ratio (latest_quality q name) in
        update_display q name (fun d =>
          let d := d <| display_ratio := r |> in
          if quality_changed then clear_custom_congestion_episode d else d))
        q (display_names_for_user q id)
  end.

Definition user_preset_image_quality (iq : ImageQualityValues) (q : VideoQoS) (id image_quality time : Z)
    (now : instant) : VideoQoS :=
  match users q !! id with
  | None => q
  | Some _ =>
      let q := update_user q id (fun u =>
                 u <| custom_fps := None |> <| fixed_fps := None |> <| auto_adjust_fps := None |>) in
      adjust_displays_for_user (user_image_quality iq q id image_quality time) id now
  end.

Definition user_record (q : VideoQoS) (id : Z) (v : bool) : VideoQoS :=
  update_user q id (fun u => u <| record := v |>).

Definition user_video_feedback_capability (q : VideoQoS) (id : Z) (capable : bool) (now : instant) : VideoQoS :=
  let q := update_user q id (fun u =>
    let u := u <| video_feedback_capable := capable |> in
    if capable then u
    else u <| video_startup_by_service ::= fmap (fun s => reset_startup s now) |>) in
  let q := if capable then q else clear_user_datagram_admission q id in
  adjust_displays_for_user q id now.

(** The first frame the viewer reports as rendered for the stream. *)
Definition user_video_frame_rendered_for_service (q : VideoQoS) (id : Z) (name : string) (stream_id : Z)
    (now : instant) : bool * VideoQoS :=
  let highest_fps := user_requested_fps q id in
  match users q !! id with
  | None => (false, q)
  | Some u =>
      match video_startup_by_service u !! name with
      | None => (false, q)
      | Some startup =>
          if negb (video_feedback_capable u) || negb (bool_decide (startup_stream_id startup = Some stream_id))
             || render_started startup
          then (false, q)
          else
            let u := u <| video_startup_by_service ::= <[name := startup <| render_started := true |>]> |> in
            let u := if is_none (delay_fps (delay u)) && negb (response_delayed (delay u))
                     then u <| delay ::= fun dl => dl <| delay_fps := Some highest_fps |> |> else u in
            (true, adjust_fps_at (q <| users ::= <[id := u]> |>) name now)
      end
  end.

(** ** Transport loss *)

(** Freezes the upshifts of the user's custom-quality displays; the names whose
    freeze was still running. *)
Definition freeze_displays (u : UserData) (names : list string) (until now : instant) : list string * UserData :=
  foldl (fun '(prev, u) name =>
    (if is_some_and (transport_loss_upshift_frozen_until u !! name) (fun current => now <? current)
     then prev ++ [name] else prev,
     u <| transport_loss_upshift_frozen_until ::= <[name := until]> |>)) ([], u) names.

(** Starts a congestion episode on a display. *)
Definition start_episode (q : VideoQoS) (name : string) (now : instant) : VideoQoS :=
  let target := latest_quality q name in
  update_display q name (fun d => (touch_custom_congestion_episode d target now).2).

Definition custom_transport_loss (q : VideoQoS) (id : Z) (names : list string) (now : instant) : bool * VideoQoS :=
  match checked_add now DATAGRAM_ADMISSION_UPSHIFT_FREEZE with
  | None => (false, q)
  | Some until =>
      match users q !! id with
      | None => (false, q)
      | Some u =>
          let '(previously_frozen, u) := freeze_displays u names until now in
          let q := q <| users ::= <[id := u]> |> in
          let q := foldl (fun q name => start_episode q name now) q
                     (filter (fun name => name ∉ previously_frozen) names) in
          let '(reduced, q) :=
            foldl (fun '(reduced, q) name =>
              if transport_loss_upshift_frozen_for_display q name now then
                let '(acted, q) := reduce_ratio_for_congestion q name now "transport-loss-recurrence" false in
                (if acted then reduced ++ [name] else reduced, q)
              else (reduced, q)) ([], q) previously_frozen in
          (nonempty reduced, q)
      end
  end.

(** The back-off of a user whose quality is not custom. *)
Definition loss_backoff (u : UserData) (k : Z * Z) (highest_fps : Z) (now : instant) : bool * UserData :=
  let u := u <| transport_loss_windows ::= delete k |> in
  if is_some_and (last_transport_loss_at u) (fun last => since now last <? TRANSPORT_LOSS_BACKOFF_COOLDOWN)
  then (false, u)
  else
    let previous_fps := unwrap_or (delay_fps (delay u)) highest_fps in
    let next_fps := clampZ MIN_FPS highest_fps
                      (sat_mul u32_max previous_fps TRANSPORT_LOSS_BACKOFF_NUMERATOR
                         / TRANSPORT_LOSS_BACKOFF_DENOMINATOR) in
    (true, u <| last_transport_loss_at := Some now |>
             <| delay ::= fun dl => dl <| quick_increase_fps_count := 0 |> <| increase_fps_count := 0 |>
                                       <| delay_fps := Some next_fps |> |>).

Definition user_transport_loss_at (q : VideoQoS) (id : Z) (s : VideoTransportLossSample) (now : instant) :
    bool * VideoQoS :=
  if sample_dropped s =? 0 then (false, q)
  else
    match users q !! id with
    | None => (false, q)
    | Some u =>
        let '(observation, windows) := observe_transport_loss (transport_loss_windows u) s now in
        let u := u <| transport_loss_windows := windows |> in
        let q := q <| users ::= <[id := u]> |> in
        if stale observation then (false, q)
        else
          let custom_displays := custom_adaptive_display_names_for_user q id in
          if nonempty custom_displays then custom_transport_loss q id custom_displays now
          else
            let highest_fps := user_requested_fps q id in
            match backoff_reason observation with
            | None => (false, q)
            | Some _ =>
                let '(acted, u) := loss_backoff u (key observation) highest_fps now in
                let q := q <| users ::= <[id := u]> |> in
                if negb acted then (false, q)
                else
                  (true, foldl (fun q name =>
                           let q := adjust_fps_at q name now in
                           (reduce_ratio_for_congestion q name now "transport-loss" false).2)
                         q (display_names_for_user q id))
            end
    end.

(** ** Network delay *)

(** The new frame rate of a user for an average delay, before it is clamped. *)
Definition fps_for_delay (min_fps normal_fps fps old_avg_delay avg_delay quick : Z) : Z :=
  let dividend_ms := DELAY_THRESHOLD_150MS * min_fps in
  if avg_delay <? 50 then
    Z.max min_fps (fps + (if 3 <=? quick then 5 else if fps <? normal_fps then 1 else 0))
  else if avg_delay <? 100 then
    Z.max min_fps (fps + (if avg_delay <? old_avg_delay then if fps <? normal_fps then 1 else 0 else 0))
  else if avg_delay <? DELAY_THRESHOLD_150MS then Z.max min_fps fps
  else
    let devide_fps :=
      f32_as_u32 (f32_ceil (f32_div (f32_of fps) (f32_div (f32_of avg_delay) (f32_of DELAY_THRESHOLD_150MS)))) in
    if avg_delay <? 200 then Z.max min_fps devide_fps
    else if avg_delay <? 300 then Z.min min_fps devide_fps
    else if avg_delay <? 600 then dividend_ms / avg_delay
    else Z.min (dividend_ms / avg_delay) devide_fps.

(** What a delay makes of the user's [UserDelay]. *)
Definition delay_step (dl : UserDelay) (min_fps normal_fps highest_fps dly : Z) : UserDelay :=
  let dly := Z.max dly 10 in
  let old_avg_delay := avg_delay dl in
  let dl := add_delay dl dly in
  let avg := Z.max (avg_delay dl) 10 in
  let fps := unwrap_or (delay_fps dl) INIT_FPS in
  let quick := if avg <? 50 then quick_increase_fps_count dl + 1 else quick_increase_fps_count dl in
  let fps := fps_for_delay min_fps normal_fps fps old_avg_delay avg quick in
  let quick := if (avg <? 50) && (3 <=? quick) then 0 else quick in
  let increase := if avg <? DELAY_THRESHOLD_150MS then increase_fps_count dl + 1 else 0 in
  let '(increase, fps) := if 3 <=? increase then (0, fps + 1) else (increase, fps) in
  let quick := if 50 <? avg then 0 else quick in
  dl <| quick_increase_fps_count := quick |> <| increase_fps_count := increase |>
     <| delay_fps := Some (clampZ MIN_FPS highest_fps fps) |>.

Definition user_network_delay (linux : bool) (q : VideoQoS) (id dly : Z) (now : instant) : VideoQoS :=
  let highest_fps := user_requested_fps q id in
  let target_ratio := map_or (u ← users q !! id; quality u) BR_BALANCED (fun x => quality_ratio x.2) in
  let '(min_fps, normal_fps) :=
    if fle BR_BEST target_ratio then (8, 16)
    else if fle BR_BALANCED target_ratio then (10, 20)
    else (12, 24) in
  let adjust_ratio := is_some_and (users q !! id) (fun u => is_none (delay_fps (delay u))) in
  let q := update_user q id (fun u => u <| delay ::= fun dl => delay_step dl min_fps normal_fps highest_fps dly |>) in
  let affected_displays := display_names_for_user q id in
  let q := adjust_displays q affected_displays now in
  if adjust_ratio && negb linux
  then foldl (fun q name => adjust_ratio_at q name false now) q affected_displays
  else q.

Definition user_delay_response_elapsed (q : VideoQoS) (id elapsed : Z) (now : instant) : VideoQoS :=
  let q := update_user q id (fun u =>
    u <| delay ::= fun dl =>
           let dl := dl <| response_delayed := 2000 <? elapsed |> in
           if response_delayed dl then add_delay dl (wrap_u32 elapsed) else dl |>) in
  adjust_displays_for_user q id now.

(** ** Displays *)

Definition new_display (q : VideoQoS) (name : string) (now : instant) : VideoQoS :=
  q <| displays ::= <[name := default_display now]> |>.

Definition remove_display (q : VideoQoS) (name : string) : VideoQoS :=
  q <| displays ::= delete name |>.

Definition sync_subscribers (q : VideoQoS) (name : string) (subs : gset Z) (now : instant) : VideoQoS :=
  let previous := map_or (displays q !! name) ∅ subscribers in
  let q := update_display q name (fun d => d <| subscribers := subs |>) in
  if bool_decide (previous = subs) then q
  else
    let q := foldl (fun q id => update_user q id (fun u => u <| video_startup_by_service ::= delete name |>))
               q (elements (previous ∖ subs)) in
    let q := foldl (fun q id => update_user q id (fun u =>
                 u <| video_startup_by_service ::= fun m =>
                        <[name := unwrap_or (m !! name) (new_startup now)]> m |>))
               q (elements (subs ∖ previous)) in
    let q := if full_movie_mode q name then q else clear_datagram_admission_for_display q name in
    adjust_fps_at q name now.

Definition update_display_data (q : VideoQoS) (name : string) (sent : Z) (now : instant) : VideoQoS :=
  let q := adjust_fps_at q name now in
  if in_vbr_state q name then
    match displays q !! name with
    | None => q
    | Some d =>
        let d := d <| send_counter ::= Z.add sent |> in
        if since now (adjust_ratio_instant d) / 1000000000 <? ADJUST_RATIO_INTERVAL
        then q <| displays ::= <[name := d]> |>
        else
          let dynamic := ADJUST_RATIO_INTERVAL * DYNAMIC_SCREEN_THRESHOLD <=? send_counter d in
          adjust_ratio_at (q <| displays ::= <[name := d <| send_counter := 0 |>]> |>) name dynamic now
    end
  else
    let r := quality_ratio (latest_quality q name) in
    update_display q name (fun d => d <| display_ratio := r |>).
