(* ===== verification/VideoQosTheory.v ===== *)
(** * Theorems about the video quality controller

    The invariant of [VideoQoS] and the contracts of its operations: the ranges
    of the frame rates and ratios it hands to the encoder, the rate of a shared
    encoder, the congestion reductions, the admission pressure. *)

From Stdlib Require Import SpecFloat.
From stdpp Require Import pretty.
From S2P Require Import Prelude Floats MovieCadence ViewerNetwork VideoQos.

(** ** Qualities *)

(** A ratio the encoder can be given. *)
Definition ratio_ok (r : f32) : Prop := fle BR_MIN_HIGH_RESOLUTION r = true /\ fle r BR_MAX = true.

Definition quality_ok (q : Quality) : Prop :=
  ratio_ok (quality_ratio q) /\ f32_mul (quality_ratio q) MAX_BR_MULTIPLE = quality_ratio q.

(** Every value of the protocol's custom quality has been computed. *)
Lemma custom_quality_table :
  forallb (fun n =>
    let v := fclamp BR_MIN BR_MAX (f32_div (f32_of (n * 2)) (f32_of 100)) in
    fle BR_MIN_HIGH_RESOLUTION v && fle v BR_MAX
    && bool_decide (f32_mul v MAX_BR_MULTIPLE = v)) (seqZ 0 4096) = true.
Proof. vm_compute; reflexivity. Qed.

Lemma convert_quality_ok iq v : quality_ok (convert_quality iq v).
Proof.
  unfold convert_quality.
  destruct (v =? iq_balanced iq); [split; [split|]; vm_compute; reflexivity|].
  destruct (v =? iq_low iq); [split; [split|]; vm_compute; reflexivity|].
  destruct (v =? iq_best iq); [split; [split|]; vm_compute; reflexivity|].
  set (n := Z.land (Z.shiftr v 8) 4095).
  assert (n ∈ seqZ 0 4096) as Hn.
  { apply elem_of_seqZ; unfold n; rewrite (Z.land_ones _ 12) by lia.
    apply Z.mod_pos_bound; lia. }
  pose proof custom_quality_table as H; rewrite forallb_forall in H.
  specialize (H n (proj1 (list_elem_of_In _ _) Hn)); cbv zeta in H; bools.
  repeat split; assumption.
Qed.

Lemma balanced_ok : ratio_ok BR_BALANCED.
Proof. split; vm_compute; reflexivity. Qed.

Lemma ratio_ok_not_nan r : ratio_ok r -> is_nan r = false.
Proof. intros [H _]; exact (proj2 (fle_not_nan _ _ H)). Qed.

Lemma minimum_ratio_low q r b : fle BR_MIN_HIGH_RESOLUTION (minimum_ratio_for_quality q r b) = true.
Proof.
  unfold minimum_ratio_for_quality; cbv zeta.
  assert (fle BR_MIN_HIGH_RESOLUTION BR_MIN = true) as H1 by (vm_compute; reflexivity).
  assert (fle BR_MIN_HIGH_RESOLUTION BR_MIN_HIGH_RESOLUTION = true) as H2 by (vm_compute; reflexivity).
  destruct q; [| |exact H2..].
  - eapply fle_trans; [exact H1|apply fmax_ub_r; vm_compute; reflexivity].
  - apply fmax_ub_r; vm_compute; reflexivity.
Qed.

(** A factor applied to a ratio does not give NaN. *)
Lemma scaled_not_nan r n d :
  is_nan r = false -> is_finite_nonzero (f32_lit n d) = true -> is_nan (f32_mul r (f32_lit n d)) = false.
Proof. apply f32_mul_not_nan. Qed.

Lemma ratio_for_delay_not_nan r delay dyn : is_nan r = false -> is_nan (ratio_for_delay r delay dyn) = false.
Proof.
  intros Hr; unfold ratio_for_delay.
  repeat match goal with |- context [if ?b then _ else _] => destruct b end; try exact Hr;
    (apply scaled_not_nan; [exact Hr|vm_compute; reflexivity]).
Qed.

(** ** Displays *)

Record display_ok (d : DisplayData) : Prop := {
  display_fps_ok : 1 <= display_fps d <= 120;
  display_ratio_ok : ratio_ok (display_ratio d);
  display_reductions_ok : 0 <= admission_ratio_reductions d <= 4;
  display_transport_ok : 0 <= congestion_episode_transport_reductions d <= 3;
}.

Lemma default_display_ok now : display_ok (default_display now).
Proof. split; simpl; try lia; [unfold FPS; lia|apply balanced_ok]. Qed.

(** The congestion bookkeeping leaves the rest of the display alone. *)
Definition same_rates (d d' : DisplayData) : Prop :=
  display_fps d' = display_fps d /\ display_ratio d' = display_ratio d /\
  admission_ratio_reductions d' = admission_ratio_reductions d /\
  bitrate_store d' = bitrate_store d /\ subscribers d' = subscribers d /\
  support_changing_quality d' = support_changing_quality d /\
  encoder_backend d' = encoder_backend d /\
  last_congestion_reduction_at d' = last_congestion_reduction_at d /\
  (congestion_episode_transport_reductions d' = congestion_episode_transport_reductions d \/
   congestion_episode_transport_reductions d' = 0).

Lemma same_rates_refl d : same_rates d d.
Proof. repeat split; auto. Qed.

Lemma same_rates_trans d1 d2 d3 : same_rates d1 d2 -> same_rates d2 d3 -> same_rates d1 d3.
Proof.
  intros (A1 & A2 & A3 & A4 & A5 & A6 & A7 & A8 & A9) (B1 & B2 & B3 & B4 & B5 & B6 & B7 & B8 & B9).
  repeat split; try congruence. destruct A9, B9; first [left; congruence|right; congruence].
Qed.

Lemma expire_same d now : same_rates d (expire_custom_congestion_episode d now).2.
Proof. unfold expire_custom_congestion_episode; case_match; repeat split; auto. Qed.

Lemma touch_same d q now : same_rates d (touch_custom_congestion_episode d q now).2.
Proof.
  unfold touch_custom_congestion_episode; case_match; [repeat split; auto|].
  eapply same_rates_trans; [apply (expire_same d now)|].
  cbv zeta; case_match; repeat split; auto.
Qed.

Lemma same_rates_ok d d' : same_rates d d' -> display_ok d -> display_ok d'.
Proof.
  intros (A1 & A2 & A3 & _ & _ & _ & _ & _ & A9) []; split; rewrite ?A1, ?A2, ?A3; try done.
  destruct A9 as [-> | ->]; [done|lia].
Qed.

(** What a congestion reduction changes on a display. *)
Lemma reduce_display_spec d q now source freeze b d' :
  reduce_display d q now source freeze = (b, d') ->
  is_nan (display_ratio d) = false ->
  display_fps d' = display_fps d /\
  admission_ratio_reductions d' = admission_ratio_reductions d /\
  (0 <= congestion_episode_transport_reductions d <= 3 ->
   0 <= congestion_episode_transport_reductions d' <= 3) /\
  if b then
    flt (display_ratio d') (display_ratio d) = true /\
    fle (minimum_ratio_for_quality q (display_ratio d) (bitrate_store d)) (display_ratio d') = true /\
    last_congestion_reduction_at d' = Some now /\
    (forall last, last_congestion_reduction_at d = Some last ->
       DATAGRAM_ADMISSION_ACTION_COOLDOWN <= since now last)
  else
    display_ratio d' = display_ratio d /\
    last_congestion_reduction_at d' = last_congestion_reduction_at d.
Proof.
  intros Hd Hnan; unfold reduce_display in Hd; cbv zeta in Hd.
  destruct (expire_same d now) as (E1 & E2 & E3 & E4 & _ & _ & _ & E8 & E9).
  set (d0 := (expire_custom_congestion_episode d now).2) in *; clearbody d0.
  set (rec := bool_decide (source = _)) in Hd; clearbody rec.
  assert (0 <= congestion_episode_transport_reductions d <= 3 ->
          0 <= congestion_episode_transport_reductions d0 <= 3) as Ht0 by (destruct E9 as [-> | ->]; lia).
  destruct (rec && is_custom q && _) eqn:Elim; [injection Hd as <- <-; done|].
  destruct (fle (display_ratio d0) _); [injection Hd as <- <-; done|].
  set (d1 := if freeze then _ else d0) in Hd.
  assert (same_rates d0 d1) as (F1 & F2 & F3 & F4 & _ & _ & _ & F8 & F9)
    by (unfold d1; repeat case_match; repeat split; auto).
  clearbody d1.
  assert (0 <= congestion_episode_transport_reductions d <= 3 ->
          0 <= congestion_episode_transport_reductions d1 <= 3) as Ht1
    by (destruct F9 as [-> | ->]; [done|lia]).
  destruct (is_some_and (last_congestion_reduction_at d1) _) eqn:Ecool;
    [injection Hd as <- <-; split_and!; try congruence; done|].
  destruct (touch_same d1 q now) as (G1 & G2 & G3 & G4 & _ & _ & _ & G8 & G9).
  destruct (touch_custom_congestion_episode d1 q now) as [floor d2]; cbn [snd] in *.
  assert (0 <= congestion_episode_transport_reductions d <= 3 ->
          0 <= congestion_episode_transport_reductions d2 <= 3) as Ht2
    by (destruct G9 as [-> | ->]; [done|lia]).
  assert (is_nan (display_ratio d0) = false) as Hn0 by congruence.
  assert (is_nan (display_ratio d2) = false) as Hn2 by congruence.
  set (m := minimum_ratio_for_quality q (display_ratio d0) (bitrate_store d0)) in Hd.
  assert (is_nan m = false) as Hm by (exact (proj2 (fle_not_nan _ _ (minimum_ratio_low q _ _)))).
  set (nx := fmin _ (display_ratio d2)) in Hd.
  assert (is_nan nx = false) as Hnx by (apply fmin_not_nan; auto).
  destruct (fle (display_ratio d0) nx) eqn:Ele; [injection Hd as <- <-; split_and!; try congruence; done|].
  rewrite fle_flt in Ele by done; apply negb_false_iff in Ele.
  assert (fle m nx = true) as Hmn.
  { unfold nx; destruct (fmin_cases (fmax (fmax (f32_mul (display_ratio d2) (f32_lit 90 100)) m)
      (unwrap_or floor m)) (display_ratio d2)) as [E|E]; fold nx in E |- *; rewrite E.
    - eapply fle_trans; [apply fmax_ub_r, Hm|]; apply fmax_ub_l, fmax_not_nan; auto.
    - rewrite E in Ele; apply flt_not_fle in Ele; rewrite G2, F2, fle_refl in Ele by done; done. }
  assert (forall last, last_congestion_reduction_at d = Some last ->
    DATAGRAM_ADMISSION_ACTION_COOLDOWN <= since now last) as Hcool.
  { intros last Hl; rewrite F8, E8, Hl in Ecool; cbn [is_some_and] in Ecool; lia. }
  clearbody nx.
  assert (flt nx (display_ratio d) = true /\
    fle (minimum_ratio_for_quality q (display_ratio d) (bitrate_store d)) nx = true) as [Hlt Hge]
    by (rewrite <- E2, <- E4; done).
  destruct (rec && is_custom q) eqn:Erec; simpl in Elim;
    injection Hd as <- <-; simpl; split_and!; try congruence; try done; intros Ht.
  specialize (Ht2 Ht); specialize (Ht1 Ht); specialize (Ht0 Ht).
  change CUSTOM_CONGESTION_MAX_TRANSPORT_REDUCTIONS with 3 in Elim.
  unfold sat_add, u8_max; destruct F9, G9; lia.
Qed.

Lemma reduce_display_ok d q now source freeze b d' :
  display_ok d -> reduce_display d q now source freeze = (b, d') ->
  display_ok d' /\ admission_ratio_reductions d' = admission_ratio_reductions d.
Proof.
  intros [Hf Hr Hn Ht] Hd; pose proof (ratio_ok_not_nan _ Hr) as Hnan.
  destruct (reduce_display_spec _ _ _ _ _ _ _ Hd Hnan) as (E1 & E2 & Ht' & Hb).
  split; [|done]; split; rewrite ?E1, ?E2; try done; [|auto].
  destruct b; [|by destruct Hb as [-> _]].
  destruct Hb as (Hlt & Hmin & _), Hr as [Hlo Hhi]; split.
  - eapply fle_trans, Hmin; apply minimum_ratio_low.
  - eapply fle_trans, Hhi; by apply flt_fle.
Qed.

(** The ratio an adjustment ends on: between the floor and the target quality,
    or the one before it when upshifts are frozen. *)
Lemma adjust_display_ratio_spec d q best frozen dyn now :
  ratio_ok (display_ratio d) -> quality_ok q ->
  let d' := adjust_display_ratio d q best frozen dyn now in
  (display_ratio d' = display_ratio d \/
   (fle (fmin (minimum_ratio_for_quality q (display_ratio d) (bitrate_store d)) (quality_ratio q))
        (display_ratio d') = true /\
    fle (display_ratio d') (quality_ratio q) = true)) /\
  (is_some_and (upshift_frozen_until d) (fun until => now <? until) || frozen = true ->
   flt (display_ratio d) (display_ratio d') = false) /\
  display_fps d' = display_fps d /\
  admission_ratio_reductions d' = admission_ratio_reductions d /\
  (0 <= congestion_episode_transport_reductions d <= 3 ->
   0 <= congestion_episode_transport_reductions d' <= 3).
Proof.
  intros Hr [Hq Hone]; unfold adjust_display_ratio; cbv zeta; rewrite Hone.
  pose proof (ratio_ok_not_nan _ Hr) as Hn; pose proof (ratio_ok_not_nan _ Hq) as Hqn.
  set (r := display_ratio d) in *; set (m := minimum_ratio_for_quality _ _ _).
  assert (is_nan m = false) as Hm by (exact (proj2 (fle_not_nan _ _ (minimum_ratio_low q _ _)))).
  pose proof (ratio_for_delay_not_nan r best dyn Hn) as Hv0.
  set (v0 := ratio_for_delay r best dyn) in *; clearbody v0.
  set (v1 := match _ with Some step => _ | None => v0 end).
  assert (is_nan v1 = false) as Hv1.
  { unfold v1; destruct (if 0 <? bitrate_store d then _ else _) as [step|]; [|done].
    destruct (flt step v0) eqn:Es; [|done]; cbn [andb].
    apply flt_fle, fle_not_nan in Es as [Es _]; by repeat case_match. }
  clearbody v1; set (v := if _ && flt r v1 && _ then r else v1).
  assert (is_nan v = false) as Hv by (unfold v; by case_match).
  clearbody v.
  destruct (expire_same d now) as (E1 & _ & E3 & _ & _ & _ & _ & _ & E9).
  set (d0 := (expire_custom_congestion_episode d now).2) in *; clearbody d0.
  set (ft := if flt v r then _ else _).
  assert (same_rates d0 ft.2) as (F1 & _ & F3 & _ & _ & _ & _ & _ & F9).
  { unfold ft; case_match; [apply touch_same|apply same_rates_refl]. }
  destruct ft as [floor d1]; cbn [snd] in *.
  set (lo := fmin (fmax m (unwrap_or floor m)) (quality_ratio q)).
  assert (fle lo (quality_ratio q) = true) as Hlo by (by apply fmin_lb_r).
  destruct (fclamp_bounds lo (quality_ratio q) v Hlo Hv) as [Hc1 Hc2].
  assert (fle (fmin m (quality_ratio q)) lo = true) as Hml.
  { apply fmin_glb; [|by apply fmin_lb_r].
    eapply fle_trans; [by apply fmin_lb_l|by apply fmax_ub_l]. }
  assert (fle (fmin m (quality_ratio q)) (fclamp lo (quality_ratio q) v) = true) as Hc3
    by (eapply fle_trans; [exact Hml|exact Hc1]).
  set (nx := fclamp lo (quality_ratio q) v) in *; clearbody nx lo.
  set (frz := is_some_and (upshift_frozen_until d) _ || frozen).
  set (nxt := if frz && flt r nx then r else nx).
  assert ((nxt = r \/ (fle (fmin m (quality_ratio q)) nxt = true /\ fle nxt (quality_ratio q) = true)) /\
          (frz = true -> flt r nxt = false)) as [H1 H2].
  { unfold nxt; destruct frz; cbn [andb]; [|split; [auto|done]].
    destruct (flt r nx) eqn:E; split; auto; intros _.
    pose proof (fle_flt r r Hn Hn) as Hrr; rewrite fle_refl in Hrr by done.
    by destruct (flt r r). }
  clearbody nxt frz.
  split; [case_match; exact H1|split; [case_match; exact H2|]].
  case_match; simpl; (split; [congruence|split; [congruence|]]);
    destruct E9 as [E9|E9], F9 as [F9|F9]; rewrite F9; rewrite ?E9; lia.
Qed.

Lemma adjust_display_ratio_ok d q best frozen dyn now :
  display_ok d -> quality_ok q -> display_ok (adjust_display_ratio d q best frozen dyn now).
Proof.
  intros [Hf Hr Hn Ht] Hq.
  destruct (adjust_display_ratio_spec d q best frozen dyn now Hr Hq) as (H1 & _ & E1 & E2 & Ht').
  split; rewrite ?E1, ?E2; try done; [|auto].
  destruct H1 as [->|[Hlo Hhi]]; [done|]; destruct Hq as [[Hq1 Hq2] _]; split.
  - eapply fle_trans, Hlo; apply fmin_glb; [apply minimum_ratio_low|done].
  - by eapply fle_trans, Hq2.
Qed.

Lemma admission_step_ok d p c now :
  display_ok d ->
  let '(b, d') := admission_step d p c now in
  display_ok d' /\ (b = true -> admission_ratio_reductions d' < 4).
Proof.
  intros []; unfold admission_step; cbv zeta.
  change DATAGRAM_ADMISSION_MAX_RATIO_REDUCTIONS with 4.
  repeat case_match; simplify_eq/=; split; try done; try (by split); try (by split; simpl; try done; lia);
    intros ?; simpl in *; lia.
Qed.

(** ** Users *)

Definition valid_setting (o : option Z) : Prop := forall f, o = Some f -> 1 <= f <= 120.

Record user_ok (u : UserData) : Prop := {
  user_auto_ok : valid_setting (auto_adjust_fps u);
  user_custom_ok : valid_setting (custom_fps u);
  user_fixed_ok : valid_setting (fixed_fps u);
  user_delay_fps_ok : valid_setting (delay_fps (delay u));
  user_history_ok : (length (delay_history (delay u)) <= 3)%nat;
  user_samples_ok : (length (samples (rtt_calculator (delay u))) <= 60)%nat;
  user_quality_ok : forall t q, quality u = Some (t, q) -> quality_ok q;
  user_windows_ok : windows_ok (transport_loss_windows u);
  user_admission_ok : (size (datagram_admission_by_service u) <= 16)%nat;
  user_feedback_ok : (size (movie_feedback_by_display u) <= 16)%nat;
}.

Lemma none_valid : valid_setting None.
Proof. done. Qed.
Lemma some_valid f : 1 <= f <= 120 -> valid_setting (Some f).
Proof. by intros ? ? [= <-]. Qed.
#[local] Hint Resolve none_valid some_valid : rust.

Lemma default_user_ok : user_ok default_user.
Proof. split; simpl; try done; try lia; try apply empty_windows_ok; rewrite map_size_empty; lia. Qed.

Lemma requested_fps_ok u : 1 <= requested_fps u <= 120.
Proof. unfold requested_fps; apply (clampZ_bounds MIN_FPS MAX_FPS); done. Qed.

Lemma add_delay_ok dl x :
  (length (delay_history dl) <= 3)%nat -> (length (samples (rtt_calculator dl)) <= 60)%nat ->
  let dl' := add_delay dl x in
  (length (delay_history dl') <= 3)%nat /\ (length (samples (rtt_calculator dl')) <= 60)%nat /\
  delay_fps dl' = delay_fps dl.
Proof.
  intros H1 H2; unfold add_delay; cbv zeta.
  set (d := dl <| rtt_calculator ::= _ |>).
  assert (length (samples (rtt_calculator d)) <= 60)%nat as Hs.
  { unfold d; simpl; unfold update; cbv zeta.
    set (r0 := match min_rtt (rtt_calculator dl) with Some m => _ | None => _ end).
    assert (samples r0 = samples (rtt_calculator dl)) as Hr0 by (unfold r0; repeat case_match; done).
    clearbody r0.
    set (r1 := if (WINDOW_SAMPLES <=? length (samples r0))%nat then _ else r0).
    assert (length (samples r1 ++ [x]) <= 60)%nat as Hr1.
    { unfold r1; rewrite length_app; destruct (Nat.leb_spec WINDOW_SAMPLES (length (samples r0))) as [H|H];
        change WINDOW_SAMPLES with 60%nat in H; simpl; rewrite Hr0 in *; [destruct (samples _); simpl in *|]; lia. }
    clearbody r1; repeat case_match; done. }
  assert (delay_history d = delay_history dl /\ delay_fps d = delay_fps dl) as [Hh Hf] by done.
  clearbody d.
  destruct (Nat.ltb_spec HISTORY_DELAY_LEN (length (delay_history d))) as [H|H];
    change HISTORY_DELAY_LEN with 2%nat in H; simpl; rewrite ?length_app, Hh in *; simpl;
    (split; [|done]); [destruct (delay_history dl); simpl in *|]; lia.
Qed.

Lemma delay_step_ok dl mn nm hi x :
  (length (delay_history dl) <= 3)%nat -> (length (samples (rtt_calculator dl)) <= 60)%nat ->
  1 <= hi <= 120 ->
  let dl' := delay_step dl mn nm hi x in
  (length (delay_history dl') <= 3)%nat /\ (length (samples (rtt_calculator dl')) <= 60)%nat /\
  valid_setting (delay_fps dl').
Proof.
  intros H1 H2 Hhi; unfold delay_step; cbv zeta.
  destruct (add_delay_ok dl (Z.max x 10) H1 H2) as (H3 & H4 & _).
  set (d := add_delay dl (Z.max x 10)) in *; clearbody d.
  set (p := if 3 <=? _ then _ else _); destruct p as [inc f]; simpl.
  split_and!; try done; apply some_valid.
  pose proof (clampZ_bounds MIN_FPS hi f); change MIN_FPS with 1 in *; lia.
Qed.

Lemma admit_sample_ok u name s now : user_ok u -> user_ok (admit_sample u name s now).
Proof.
  intros []; unfold admit_sample; cbv zeta.
  set (st0 := datagram_admission_by_service u) in *.
  set (st1 := if _ && _ then _ else st0); set (state := Build_DatagramAdmissionState _ _ _ _); clearbody state.
  split; simpl; try done.
  assert (size st1 <= 16 /\ (st1 !! name = None -> size st1 < 16))%nat as [H1 H2].
  { unfold st1; destruct (st0 !! name) as [x|] eqn:E; cbn [is_none andb]; [split; [done|congruence]|].
    change MAX_DATAGRAM_ADMISSION_SERVICES with 16%nat.
    destruct (Nat.leb_spec 16 (size st0)); [|split; [lia|done]].
    destruct (min_by _ _) as [[o w]|] eqn:Em.
    - apply min_by_elem_of, elem_of_map_to_list in Em.
      pose proof (map_size_delete_Some o st0 (mk_is_Some _ _ Em)); split; lia.
    - apply min_by_none, map_to_list_empty_iff in Em; rewrite Em, map_size_empty in *; lia. }
  destruct (st1 !! name) as [x|] eqn:E.
  - rewrite map_size_insert_Some by eauto; lia.
  - rewrite map_size_insert_None by done; specialize (H2 eq_refl); lia.
Qed.

(** ** The controller *)

Definition qos_ok (q : VideoQoS) : Prop :=
  (forall id u, users q !! id = Some u -> user_ok u) /\
  (forall name d, displays q !! name = Some d -> display_ok d).

Lemma update_user_ok q id f :
  qos_ok q -> (forall u, user_ok u -> user_ok (f u)) -> qos_ok (update_user q id f).
Proof.
  intros [Hu Hd] Hf; split; simpl; [|done]; intros id' u' Hl.
  apply lookup_alter_Some in Hl as [(-> & u & Hl & ->)|[_ Hl]]; eauto.
Qed.

Lemma update_display_ok q name f :
  qos_ok q -> (forall d, display_ok d -> display_ok (f d)) -> qos_ok (update_display q name f).
Proof.
  intros [Hu Hd] Hf; split; simpl; [done|]; intros name' d' Hl.
  apply lookup_alter_Some in Hl as [(-> & d & Hl & ->)|[_ Hl]]; eauto.
Qed.

Lemma update_display_lookup q name f :
  displays (update_display q name f) !! name = f <$> displays q !! name.
Proof. apply lookup_alter_eq. Qed.

Lemma update_display_at_ok q name f d :
  qos_ok q -> displays q !! name = Some d -> display_ok (f d) -> qos_ok (update_display q name f).
Proof.
  intros [Hu Hd] Hl Hf; split; simpl; [done|]; intros name' d' Hl'.
  apply lookup_alter_Some in Hl' as [(-> & d0 & Hl' & ->)|[_ Hl']]; [|eauto]. by simplify_eq.
Qed.

Lemma insert_user_ok q id u : qos_ok q -> user_ok u -> qos_ok (q <| users ::= <[id := u]> |>).
Proof.
  intros [Hu Hd] Hf; split; simpl; [|done]; intros id' u' Hl.
  apply lookup_insert_Some in Hl as [[_ <-]|[_ Hl]]; eauto.
Qed.

Lemma insert_display_ok q name d : qos_ok q -> display_ok d -> qos_ok (q <| displays ::= <[name := d]> |>).
Proof.
  intros [Hu Hd] Hf; split; simpl; [done|]; intros name' d' Hl.
  apply lookup_insert_Some in Hl as [[_ <-]|[_ Hl]]; eauto.
Qed.

Lemma foldl_ok {A} (f : VideoQoS -> A -> VideoQoS) l q :
  (forall q x, qos_ok q -> qos_ok (f q x)) -> qos_ok q -> qos_ok (foldl f q l).
Proof. intros Hf; revert q; induction l; simpl; auto. Qed.

Lemma subscribed_user q name u :
  u ∈ subscribed_users q name -> exists id, users q !! id = Some u.
Proof.
  unfold subscribed_users; destruct (displays q !! name); [|by rewrite elem_of_nil].
  intros (id & _ & Hid)%list_elem_of_omap; eauto.
Qed.

Lemma max_by_elem {A} (k : A -> Z) l x : max_by k l = Some x -> x ∈ l.
Proof.
  revert x; induction l as [|y l IH]; intros x; simpl; [done|].
  destruct (max_by k l) as [z|]; [|intros [= <-]; left].
  intros [= <-]; case_match; [left|right; auto].
Qed.

Lemma latest_quality_ok q name : qos_ok q -> quality_ok (latest_quality q name).
Proof.
  intros [Hu _]; unfold latest_quality; destruct (max_by _ _) as [[t ql]|] eqn:E; simpl;
    [|split; [apply balanced_ok|vm_compute; reflexivity]].
  apply max_by_elem, list_elem_of_omap in E as (u & Hin & Hq).
  apply subscribed_user in Hin as [id Hid]; eapply user_quality_ok; eauto.
Qed.

Lemma list_max_elem l m : list_max l = Some m -> m ∈ l.
Proof.
  destruct l as [|y l]; [done|]; intros [= <-].
  induction l as [|z l IH]; simpl; [left|].
  destruct (Z.max_spec z (foldr Z.max y l)) as [[_ ->]|[_ ->]];
    [apply elem_of_cons in IH as [->|]; [left|do 2 right]; done|right; left].
Qed.

Lemma list_max_ge l m x : list_max l = Some m -> x ∈ l -> x <= m.
Proof.
  destruct l as [|y l]; [done|]; intros [= <-]; rewrite elem_of_cons; intros H.
  induction l as [|z l IH]; simpl; [set_solver|].
  rewrite elem_of_cons in H; destruct H as [H | [-> | H]];
    [specialize (IH (or_introl H))| |specialize (IH (or_intror H))]; lia.
Qed.

Lemma locked_fps_ok q name f : locked_fps q name = Some f -> 1 <= f <= 120.
Proof.
  unfold locked_fps; destruct (list_max _); [|done]; intros [= <-].
  apply (clampZ_bounds MIN_FPS MAX_FPS); done.
Qed.

(** The bounds [adjust_fps_at] clamps to are ordered. *)
Lemma highest_fps_ok q name : 1 <= highest_fps q name <= 120.
Proof.
  unfold highest_fps; destruct (locked_fps q name) eqn:E; [by eapply locked_fps_ok|].
  destruct (list_max _) as [m|] eqn:Em; simpl; [|by vm_compute].
  apply list_max_elem, list_elem_of_fmap in Em as (u & -> & _); apply requested_fps_ok.
Qed.

Lemma user_requested_fps_ok q id : 1 <= user_requested_fps q id <= 120.
Proof.
  unfold user_requested_fps; destruct (users q !! id); simpl; [apply requested_fps_ok|by vm_compute].
Qed.

Lemma display_fps_set d f : display_ok d -> 1 <= f <= 120 -> display_ok (d <| display_fps := f |>).
Proof. intros [] Hf; split; simpl; done. Qed.

Lemma display_ratio_set d r : display_ok d -> ratio_ok r -> display_ok (d <| display_ratio := r |>).
Proof. intros [] Hf; split; simpl; done. Qed.

Lemma reset_admission_ok d : display_ok d -> display_ok (reset_admission d).
Proof. intros []; split; simpl; done || lia. Qed.

Lemma adjust_fps_ok q name now : qos_ok q -> qos_ok (adjust_fps_at q name now).
Proof.
  intros Hq; unfold adjust_fps_at; cbv zeta; destruct (locked_fps q name) as [f|] eqn:E.
  - apply locked_fps_ok in E; apply update_display_ok; [done|intros d Hd].
    apply display_fps_set; [done|]; case_match; lia.
  - pose proof (highest_fps_ok q name) as Hhi; set (x := if startup_safe_mode q name now && _ then _ else _).
    pose proof (clampZ_bounds MIN_FPS (highest_fps q name) x) as Hc; clearbody x; change MIN_FPS with 1 in *.
    apply update_display_ok; [done|intros d Hd]; apply display_fps_set; [done|].
    pose proof (display_fps_ok _ Hd); repeat case_match; lia.
Qed.

Lemma adjust_displays_ok q l now : qos_ok q -> qos_ok (adjust_displays q l now).
Proof. apply foldl_ok; intros; by apply adjust_fps_ok. Qed.

Lemma clear_display_ok q name : qos_ok q -> qos_ok (clear_datagram_admission_for_display q name).
Proof. intros; apply update_display_ok; [done|apply reset_admission_ok]. Qed.

Lemma clear_user_ok q id : qos_ok q -> qos_ok (clear_user_datagram_admission q id).
Proof.
  intros Hq; apply foldl_ok.
  - intros; case_match; [done|by apply clear_display_ok].
  - apply update_user_ok; [done|]; intros u []; split; simpl; try done. rewrite map_size_empty; lia.
Qed.

Lemma adjust_ratio_ok q name dyn now : qos_ok q -> qos_ok (adjust_ratio_at q name dyn now).
Proof.
  intros Hq; unfold adjust_ratio_at; case_match; [done|]; destruct (list_min _); [|done].
  apply update_display_ok; [done|]; intros d Hd; apply adjust_display_ratio_ok; [done|by apply latest_quality_ok].
Qed.

Lemma reduce_ratio_ok q name now source freeze :
  qos_ok q -> qos_ok (reduce_ratio_for_congestion q name now source freeze).2.
Proof.
  intros Hq; unfold reduce_ratio_for_congestion; case_match; [done|].
  destruct (displays q !! name) as [d|] eqn:E; [|done].
  destruct (reduce_display _ _ _ _ _) as [b d'] eqn:Er; simpl.
  apply insert_display_ok; [done|]; eapply reduce_display_ok, Er; by eapply (proj2 Hq).
Qed.

Lemma admission_at_ok q id name s now : qos_ok q -> qos_ok (user_datagram_admission_at q id name s now).2.
Proof.
  intros Hq; unfold user_datagram_admission_at; case_match; [by apply clear_display_ok|].
  destruct (users q !! id) as [u|] eqn:Eu; [|done].
  set (q1 := q <| users ::= _ |>).
  assert (qos_ok q1) as H1 by (apply insert_user_ok; [done|]; eapply admit_sample_ok, (proj1 Hq), Eu).
  clearbody q1; destruct (displays q1 !! name) as [d|] eqn:Ed; [|done]; cbv zeta.
  match goal with |- context [admission_step d ?p ?c now] =>
    pose proof (admission_step_ok d p c now (proj2 H1 _ _ Ed)) as Hs; destruct (admission_step d p c now) as [b d1] end.
  destruct Hs as [Hd1 Hred]; set (q2 := q1 <| displays ::= _ |>).
  assert (qos_ok q2) as H2 by (by apply insert_display_ok).
  destruct b; simpl; [|done]; specialize (Hred eq_refl).
  unfold reduce_ratio_for_congestion.
  destruct (negb (in_vbr_state q2 name)); [done|].
  assert (displays q2 !! name = Some d1) as Hl by apply lookup_insert_eq; rewrite Hl.
  destruct (reduce_display _ _ _ _ _) as [b d2] eqn:Er.
  destruct (reduce_display_ok _ _ _ _ _ _ _ Hd1 Er) as [Hd2 Hsame].
  assert (qos_ok (q2 <| displays ::= <[name := d2]> |>)) as H3 by (by apply insert_display_ok).
  destruct b; [|done]; cbn [snd].
  apply (update_display_at_ok _ _ _ d2); [done|apply lookup_insert_eq|].
  destruct Hd2; split; simpl; try done; unfold sat_add, u8_max; lia.
Qed.

Lemma frames_rendered_ok q id name st now :
  qos_ok q -> qos_ok (user_video_frame_rendered_for_service q id name st now).2.
Proof.
  intros Hq; unfold user_video_frame_rendered_for_service; cbv zeta.
  destruct (users q !! id) as [u|] eqn:Eu; [|done].
  destruct (video_startup_by_service u !! name) as [s|]; [|done]; case_match; [done|].
  apply adjust_fps_ok, insert_user_ok; [done|].
  pose proof (user_requested_fps_ok q id); destruct (proj1 Hq _ _ Eu).
  case_match; split; simpl; auto with rust.
Qed.

Lemma episode_ok q name now : qos_ok q -> qos_ok (start_episode q name now).
Proof.
  intros Hq; apply update_display_ok; [done|]; intros d; apply same_rates_ok, touch_same.
Qed.

Lemma freeze_displays_ok u names until now : user_ok u -> user_ok (freeze_displays u names until now).2.
Proof.
  unfold freeze_displays; lazymatch goal with |- context [foldl ?g _ names] => set (f := g) end.
  cut (forall prev u, user_ok u -> user_ok (foldl f (prev, u) names).2); [auto|]; clear u.
  induction names as [|n names IH]; intros prev u Hu; [done|]; simpl.
  apply IH; destruct Hu; by split.
Qed.

Lemma custom_loss_ok q id names now : qos_ok q -> qos_ok (custom_transport_loss q id names now).2.
Proof.
  intros Hq; unfold custom_transport_loss; destruct (checked_add _ _) as [i|]; [|done].
  destruct (users q !! id) as [u|] eqn:Eu; [|done].
  pose proof (freeze_displays_ok u names i now (proj1 Hq _ _ Eu)) as Hu.
  destruct (freeze_displays u names i now) as [prev u1]; simpl in Hu.
  set (q1 := q <| users ::= _ |>).
  assert (qos_ok q1) as H1 by (by apply insert_user_ok); clearbody q1.
  set (q2 := foldl _ q1 _).
  assert (qos_ok q2) as H2 by (apply foldl_ok; [intros; by apply episode_ok|done]); clearbody q2.
  lazymatch goal with |- context [foldl ?g _ prev] => set (f := g) end.
  assert (forall red q2, qos_ok q2 -> qos_ok (foldl f (red, q2) prev).2) as H3;
    [|specialize (H3 [] q2 H2); by destruct (foldl f _ prev)].
  clear q2 H2; induction prev as [|n prev IH]; intros red q2 H2; [done|]; simpl.
  destruct (transport_loss_upshift_frozen_for_display q2 n now); [|auto].
  pose proof (reduce_ratio_ok q2 n now "transport-loss-recurrence" false H2) as H3.
  destruct (reduce_ratio_for_congestion _ _ _ _ _) as [b q3]; auto.
Qed.

Lemma loss_backoff_ok u k hi now : user_ok u -> 1 <= hi <= 120 -> user_ok (loss_backoff u k hi now).2.
Proof.
  intros [] Hhi; unfold loss_backoff; cbv zeta.
  assert (windows_ok (delete k (transport_loss_windows u))) by (eapply windows_ok_sub; [apply delete_subseteq|done]).
  case_match; split; simpl; try done.
  apply some_valid; pose proof (clampZ_bounds MIN_FPS hi
    (sat_mul u32_max (unwrap_or (delay_fps (delay u)) hi) TRANSPORT_LOSS_BACKOFF_NUMERATOR
       / TRANSPORT_LOSS_BACKOFF_DENOMINATOR)); change MIN_FPS with 1 in *; lia.
Qed.

Lemma transport_loss_ok q id s now :
  sample_ok s -> qos_ok q -> qos_ok (user_transport_loss_at q id s now).2.
Proof.
  intros Hs Hq; unfold user_transport_loss_at; case_match; [done|].
  destruct (users q !! id) as [u|] eqn:Eu; [|done].
  pose proof (proj1 Hq _ _ Eu) as Hu.
  pose proof (observe_ok _ _ now (user_windows_ok _ Hu) Hs) as Hw.
  destruct (observe_transport_loss _ _ _) as [o ws]; simpl in Hw.
  set (u1 := u <| transport_loss_windows := ws |>).
  assert (user_ok u1) as Hu1 by (destruct Hu; by split).
  clearbody u1; set (q1 := q <| users ::= _ |>).
  assert (qos_ok q1) as H1 by (by apply insert_user_ok); clearbody q1.
  case_match; [done|]; cbv zeta.
  destruct (nonempty _); [by apply custom_loss_ok|].
  destruct (backoff_reason o); [|done].
  pose proof (loss_backoff_ok u1 (key o) (user_requested_fps q1 id) now Hu1 (user_requested_fps_ok q1 id)) as Hb.
  destruct (loss_backoff _ _ _ _) as [acted u2]; simpl in Hb.
  assert (qos_ok (q1 <| users ::= <[id := u2]> |>)) as H2 by (by apply insert_user_ok).
  destruct acted; [|done]; simpl.
  apply foldl_ok; [intros; by apply reduce_ratio_ok, adjust_fps_ok|done].
Qed.

(** ** Every call the server makes *)

Inductive Call :=
| StoreBitrate (name : string) (b : Z)
| StorePipelineStatus (name cap enc inp : string)
| StoreCaptureFrame (name frame : string)
| StoreMovieRuntimeStatus (name : string) (target pacing p95_us : Z)
| SetSupportChangingQuality (name : string) (support : bool)
| ReadMovieAdmissionPressure (name : string)
| ReadRatio (name : string)
| ClearUserDatagramAdmission (id : Z)
| UserDatagramAdmission (id : Z) (s : VideoDatagramAdmissionSample)
| OnConnectionOpen (id : Z) (enable_abr : string)
| OnConnectionClose (id : Z)
| UserCustomFps (id fps : Z)
| UserFixedFps (id fps : Z)
| UserVideoProfile (id : Z) (profile : VideoProfile)
| UserMovieTransportCapability (id : Z) (capable : bool)
| UserVideoFeedback (id : Z) (name : string) (f : VideoFeedback)
| UserAutoAdjustFps (id fps : Z)
| UserImageQuality (iq : ImageQualityValues) (id image_quality time : Z)
| UserPresetImageQuality (iq : ImageQualityValues) (id image_quality time : Z)
| UserRecord (id : Z) (v : bool)
| UserVideoFeedbackCapability (id : Z) (capable : bool)
| UserVideoFrameRendered (id : Z) (name : string) (stream_id : Z)
| UserTransportLoss (id : Z) (s : VideoTransportLossSample)
| UserNetworkDelay (linux : bool) (id dly : Z)
| UserDelayResponseElapsed (id elapsed : Z)
| NewDisplay (name : string)
| RemoveDisplay (name : string)
| SyncSubscribers (name : string) (subs : gset Z)
| UpdateDisplayData (name : string) (sent : Z).

Definition perform (q : VideoQoS) (c : Call) (now : instant) : VideoQoS :=
  match c with
  | StoreBitrate name b => store_bitrate q name b
  | StorePipelineStatus name cap enc inp => store_pipeline_status q name cap enc inp
  | StoreCaptureFrame name frame => (store_capture_frame q name frame).2
  | StoreMovieRuntimeStatus name t p us => store_movie_runtime_status q name t p us
  | SetSupportChangingQuality name s => set_support_changing_quality q name s
  | ReadMovieAdmissionPressure name => (movie_admission_pressure_at q name now).2
  | ReadRatio name => (ratio q name now).2
  | ClearUserDatagramAdmission id => clear_user_datagram_admission q id
  | UserDatagramAdmission id s => (user_datagram_admission_for_user_at q id s now).2
  | OnConnectionOpen id abr => on_connection_open q id abr
  | OnConnectionClose id => on_connection_close q id now
  | UserCustomFps id f => user_custom_fps q id f now
  | UserFixedFps id f => user_fixed_fps q id f now
  | UserVideoProfile id p => user_video_profile q id p now
  | UserMovieTransportCapability id c => user_movie_transport_capability q id c
  | UserVideoFeedback id name f => user_video_feedback q id name f now
  | UserAutoAdjustFps id f => user_auto_adjust_fps q id f now
  | UserImageQuality iq id v t => user_image_quality iq q id v t
  | UserPresetImageQuality iq id v t => user_preset_image_quality iq q id v t now
  | UserRecord id v => user_record q id v
  | UserVideoFeedbackCapability id c => user_video_feedback_capability q id c now
  | UserVideoFrameRendered id name st => (user_video_frame_rendered_for_service q id name st now).2
  | UserTransportLoss id s => (user_transport_loss_at q id s now).2
  | UserNetworkDelay linux id d => user_network_delay linux q id d now
  | UserDelayResponseElapsed id e => user_delay_response_elapsed q id e now
  | NewDisplay name => new_display q name now
  | RemoveDisplay name => remove_display q name
  | SyncSubscribers name s => sync_subscribers q name s now
  | UpdateDisplayData name n => update_display_data q name n now
  end.

Definition valid_call (c : Call) : Prop :=
  match c with UserTransportLoss _ s => sample_ok s | _ => True end.

Definition performs (l : list (Call * instant)) : VideoQoS :=
  foldl (fun q x => perform q x.1 x.2) default_qos l.

Lemma valid_fps_range f : valid_fps f = true -> 1 <= f <= 120.
Proof. unfold valid_fps; change MIN_FPS with 1; change MAX_FPS with 120; lia. Qed.

Lemma image_quality_ok iq q id v t : qos_ok q -> qos_ok (user_image_quality iq q id v t).
Proof.
  intros Hq; unfold user_image_quality; destruct (users q !! id) as [u|] eqn:Eu; [|done]; cbv zeta.
  set (changed := negb _); clearbody changed.
  set (u1 := if changed then _ else u).
  assert (user_ok u1) as Hu1 by (pose proof (proj1 Hq _ _ Eu) as []; unfold u1; case_match; by split).
  clearbody u1; apply foldl_ok.
  - intros q' name Hq'; apply update_display_ok; [done|]; intros d Hd.
    pose proof (proj1 (latest_quality_ok q' name Hq')) as Hr.
    pose proof (display_ratio_set d _ Hd Hr) as [].
    case_match; split; simpl in *; done || lia.
  - apply insert_user_ok; [done|]; pose proof (convert_quality_ok iq v) as Hc.
    destruct Hu1; split; simpl; try done. intros t' q' [= <- <-]; exact Hc.
Qed.

Lemma admission_for_user_ok q id s now :
  qos_ok q -> qos_ok (user_datagram_admission_for_user_at q id s now).2.
Proof.
  intros Hq; unfold user_datagram_admission_for_user_at.
  lazymatch goal with |- context [foldl ?g _ ?l] => set (f := g); generalize l end; intros l.
  generalize 0; revert q Hq; induction l as [|name l IH]; intros q Hq n; [done|]; simpl.
  pose proof (admission_at_ok q id name s now Hq) as H1.
  destruct (user_datagram_admission_at q id name s now); auto.
Qed.

Lemma close_ok q id now : qos_ok q -> qos_ok (on_connection_close q id now).
Proof.
  intros Hq; unfold on_connection_close; cbv zeta; apply foldl_ok.
  - intros q' name Hq'; apply adjust_fps_ok.
    assert (qos_ok (update_display q' name (fun d => d <| subscribers ::= fun s => s ∖ {[id]} |>)))
      by (apply update_display_ok; [done|]; intros d []; by split).
    case_match; [done|by apply clear_display_ok].
  - destruct Hq as [Hu Hd]; split; [|done]; intros id' u Hl; simpl in Hl.
    apply lookup_delete_Some in Hl as [_ Hl]; eauto.
Qed.

Lemma sync_ok q name subs now : qos_ok q -> qos_ok (sync_subscribers q name subs now).
Proof.
  intros Hq; unfold sync_subscribers; cbv zeta.
  set (q1 := update_display q name _).
  assert (qos_ok q1) as H1 by (apply update_display_ok; [done|]; intros d []; by split); clearbody q1.
  case_match; [done|].
  set (q2 := foldl _ q1 _).
  assert (qos_ok q2) as H2
    by (apply foldl_ok; [|done]; intros; apply update_user_ok; [done|]; intros u []; by split); clearbody q2.
  set (q3 := foldl _ q2 _).
  assert (qos_ok q3) as H3
    by (apply foldl_ok; [|done]; intros; apply update_user_ok; [done|]; intros u []; by split); clearbody q3.
  apply adjust_fps_ok; case_match; [done|by apply clear_display_ok].
Qed.

Lemma update_data_ok q name n now : qos_ok q -> qos_ok (update_display_data q name n now).
Proof.
  intros Hq; unfold update_display_data; cbv zeta; pose proof (adjust_fps_ok q name now Hq) as H1.
  set (q1 := adjust_fps_at q name now) in *; clearbody q1; case_match.
  - destruct (displays q1 !! name) as [d|] eqn:Ed; [|done]; pose proof (proj2 H1 _ _ Ed) as Hd.
    case_match; [|apply adjust_ratio_ok]; (apply insert_display_ok; [done|]; destruct Hd; by split).
  - apply update_display_ok; [done|]; intros d Hd; apply display_ratio_set; [done|].
    apply latest_quality_ok, H1.
Qed.

Lemma profile_ok q id p now : qos_ok q -> qos_ok (user_video_profile q id p now).
Proof.
  intros Hq; unfold user_video_profile; destruct (users q !! id) as [u|]; [|done]; cbv zeta.
  set (q1 := update_user q id _).
  assert (qos_ok q1) as H1.
  { apply update_user_ok; [done|]; intros v [].
    case_match; split; simpl; try done; try lia; [apply empty_windows_ok|rewrite map_size_empty; lia]. }
  clearbody q1; case_match; [|done]; by apply adjust_displays_ok, clear_user_ok.
Qed.

Lemma feedback_ok q id name f now : qos_ok q -> qos_ok (user_video_feedback q id name f now).
Proof.
  intros Hq; apply update_user_ok; [done|]; intros u Hu.
  destruct (video_startup_by_service u !! name) as [s|]; [|done].
  destruct (begin_stream s _ _) as [acc s']; set (u1 := u <| video_startup_by_service ::= _ |>).
  assert (user_ok u1) as H1 by (destruct Hu; by split); clearbody u1; cbv zeta.
  destruct (negb acc); [done|]; destruct (negb _); [done|].
  destruct (is_none (movie_feedback_by_display u1 !! msg_display f) && _) eqn:E; [done|].
  destruct H1; split; simpl; try done.
  change MAX_MOVIE_FEEDBACK_DISPLAYS with 16%nat in E.
  destruct (movie_feedback_by_display u1 !! msg_display f) as [x|] eqn:El.
  - rewrite map_size_insert_Some by eauto; done.
  - rewrite map_size_insert_None by done; cbn [is_none andb] in E; apply Nat.leb_gt in E; lia.
Qed.

Lemma network_delay_ok linux q id d now : qos_ok q -> qos_ok (user_network_delay linux q id d now).
Proof.
  intros Hq; unfold user_network_delay; cbv zeta; pose proof (user_requested_fps_ok q id) as Hhi.
  set (bounds := if fle BR_BEST _ then _ else _); destruct bounds as [mn nm].
  set (q1 := update_user q id _).
  assert (qos_ok q1) as H1.
  { apply update_user_ok; [done|]; intros u [].
    destruct (delay_step_ok (delay u) mn nm (user_requested_fps q id) d) as (?&?&?); done. }
  clearbody q1; pose proof (adjust_displays_ok q1 (display_names_for_user q1 id) now H1) as H2.
  case_match; [|done]; apply foldl_ok; [intros; by apply adjust_ratio_ok|done].
Qed.

Lemma response_ok q id e now : qos_ok q -> qos_ok (user_delay_response_elapsed q id e now).
Proof.
  intros Hq; apply adjust_displays_ok, update_user_ok; [done|]; intros u Hu.
  set (d0 := delay u <| response_delayed := 2000 <? e |>).
  assert (user_ok (u <| delay := d0 |>)) as H0 by (destruct Hu; by split).
  change (user_ok (u <| delay := if response_delayed d0 then add_delay d0 (wrap_u32 e) else d0 |>)).
  case_match; [|done].
  destruct (add_delay_ok d0 (wrap_u32 e)) as (?&?&Hf); [apply H0..|].
  destruct H0; split; simpl in *; try done. by rewrite Hf.
Qed.

Lemma perform_ok q c now : valid_call c -> qos_ok q -> qos_ok (perform q c now).
Proof.
  intros Hc Hq; destruct c; simpl.
  - apply update_display_ok; [done|]; intros d []; by split.
  - apply update_display_ok; [done|]; intros d []; by split.
  - unfold store_capture_frame; destruct (displays q !! name); [|done]; case_match; [done|].
    apply update_display_ok; [done|]; intros ? []; by split.
  - apply update_display_ok; [done|]; intros d []; case_match; split; simpl; try done.
    apply (clampZ_bounds MIN_FPS MAX_FPS); done.
  - apply update_display_ok; [done|]; intros d []; by split.
  - unfold movie_admission_pressure_at; destruct (displays q !! name) as [d|] eqn:E; [|done]; cbv zeta.
    pose proof (proj2 Hq _ _ E) as Hd; set (d1 := if is_some_and _ _ then _ else d).
    assert (display_ok d1) as H1 by (unfold d1; case_match; [by apply reset_admission_ok|done]).
    pose proof (insert_display_ok q name d1 Hq H1) as [Hu Hds]; split; [|done].
    intros id u Hl; cbn [users snd] in Hl; simpl in Hl; rewrite lookup_fmap in Hl.
    destruct (users q !! id) as [v|] eqn:Ev; [|done]; injection Hl as <-.
    destruct (Hu id v Ev); split; simpl; try done.
    etrans; [apply map_subseteq_size, delete_subseteq|done].
  - unfold ratio; destruct (displays q !! name) as [d|] eqn:E; [|done]; cbv zeta; cbn [snd].
    apply insert_display_ok; [done|]; pose proof (proj2 Hq _ _ E) as Hd.
    case_match; [|done]; apply display_ratio_set; [done|apply balanced_ok].
  - by apply clear_user_ok.
  - by apply admission_for_user_ok.
  - destruct Hq as [Hu Hd]; split; simpl; [|done]; intros i u Hl.
    apply lookup_insert_Some in Hl as [[_ <-]|[_ Hl]]; [apply default_user_ok|eauto].
  - by apply close_ok.
  - unfold user_custom_fps; destruct (valid_fps fps) eqn:E; [|done]; simpl; apply valid_fps_range in E.
    destruct (users q !! id); [|done]; apply adjust_displays_ok, update_user_ok; [done|].
    intros v []; split; simpl; auto with rust.
  - unfold user_fixed_fps; destruct (valid_fps fps) eqn:E; [|done]; simpl; apply valid_fps_range in E.
    destruct (users q !! id); [|done]; apply adjust_displays_ok, update_user_ok; [done|].
    intros v []; split; simpl; auto with rust.
  - by apply profile_ok.
  - unfold user_movie_transport_capability; cbv zeta.
    assert (qos_ok (update_user q id (fun u => u <| movie_transport_capable := capable |>)))
      by (apply update_user_ok; [done|]; intros u []; by split).
    case_match; [done|by apply clear_user_ok].
  - by apply feedback_ok.
  - unfold user_auto_adjust_fps; destruct (valid_fps fps) eqn:E; [|done]; simpl; apply valid_fps_range in E.
    apply adjust_displays_ok, update_user_ok; [done|]; intros u []; split; simpl; auto with rust.
  - by apply image_quality_ok.
  - unfold user_preset_image_quality; destruct (users q !! id); [|done]; cbv zeta.
    apply adjust_displays_ok, image_quality_ok, update_user_ok; [done|].
    intros v []; split; simpl; auto with rust.
  - apply update_user_ok; [done|]; intros u []; by split.
  - unfold user_video_feedback_capability; cbv zeta; apply adjust_displays_ok.
    set (q1 := update_user q id _).
    assert (qos_ok q1) by (apply update_user_ok; [done|]; intros u []; case_match; by split).
    case_match; [done|by apply clear_user_ok].
  - by apply frames_rendered_ok.
  - by apply transport_loss_ok.
  - by apply network_delay_ok.
  - by apply response_ok.
  - apply insert_display_ok; [done|apply default_display_ok].
  - destruct Hq as [Hu Hd]; split; [done|]; intros n d Hl; simpl in Hl.
    apply lookup_delete_Some in Hl as [_ Hl]; eauto.
  - by apply sync_ok.
  - by apply update_data_ok.
Qed.

(** ** Contracts *)

Lemma default_qos_ok : qos_ok default_qos.
Proof. split; intros ? ? Hl; cbn [default_qos users displays] in Hl; by rewrite lookup_empty in Hl. Qed.

Lemma performs_ok l : Forall (fun x => valid_call x.1) l -> qos_ok (performs l).
Proof.
  unfold performs; pose proof default_qos_ok as Hq; revert Hq; generalize default_qos.
  induction l as [|[c now] l IH]; intros q Hq Hl; [done|]; simpl.
  apply Forall_cons in Hl as [Hc Hl]; apply IH; [by apply perform_ok|done].
Qed.

(** The duration of a frame at every rate. *)
Lemma spf_table :
  forallb (fun f => match from_secs_f32 (f32_div (f32_of 1) (f32_of f)) with
                    | Some ns => (8333333 <=? ns) && (ns <=? 1000000000) && (Z.abs (ns * f - 1000000000) <=? 60 * f)
                    | None => false
                    end) (seqZ 1 120) = true.
Proof. vm_compute; reflexivity. Qed.

Lemma spf_of_rate f : 1 <= f <= 120 ->
  exists ns, from_secs_f32 (f32_div (f32_of 1) (f32_of f)) = Some ns /\
    8333333 <= ns <= 1000000000 /\ Z.abs (ns * f - 1000000000) <= 60 * f.
Proof.
  intros Hf; pose proof spf_table as H; rewrite forallb_forall in H.
  assert (f ∈ seqZ 1 120) as Hin by (apply elem_of_seqZ; lia).
  specialize (H f (proj1 (list_elem_of_In _ _) Hin)); destruct (from_secs_f32 _) as [ns|]; [|done].
  exists ns; bools; split_and!; [done|lia..].
Qed.

Lemma fps_range q name : 1 <= fps q name <= 120.
Proof.
  unfold fps; change MIN_FPS with 1; change MAX_FPS with 120; change FPS with 30.
  destruct (_ && _) eqn:E; lia.
Qed.

Lemma safe_ratio_ok r : ratio_ok r -> ratio_ok (fmin r STARTUP_SAFE_RATIO).
Proof.
  intros [Hlo Hhi]; split.
  - apply fmin_glb; [done|vm_compute; reflexivity].
  - eapply fle_trans, Hhi; apply fmin_lb_l, ratio_ok_not_nan; by split.
Qed.

(** C40. Whatever calls are made, the controller answers with a frame rate between 1
    and 120, a frame duration within 60 ns of its reciprocal, and a ratio between 0.1
    and 40: rate and duration drive the encoder of a display outside movie mode (a
    movie has the rates of MovieCadence.v), the ratio every encoder.  A display is
    answered exactly the rate and, outside the startup, the ratio that were computed
    for it; its ratio is reduced at most four times for admission pressure and three in
    a congestion episode.  Of each user at most three delays, sixty round-trip samples,
    and sixteen loss windows, admission states and movie feedbacks are kept. *)
Theorem encoder_inputs_in_range l name now :
  Forall (fun x => valid_call x.1) l ->
  let q := performs l in
  1 <= fps q name <= 120 /\
  (exists ns, spf q name = Some ns /\ Z.abs (ns * fps q name - 1000000000) <= 60 * fps q name) /\
  ratio_ok (ratio q name now).1 /\
  (forall d, displays q !! name = Some d ->
     fps q name = display_fps d /\
     (startup_safe_mode q name now = false -> (ratio q name now).1 = display_ratio d) /\
     admission_ratio_reductions d <= 4 /\ congestion_episode_transport_reductions d <= 3) /\
  (forall id u, users q !! id = Some u ->
     (length (delay_history (delay u)) <= 3)%nat /\
     (length (samples (rtt_calculator (delay u))) <= 60)%nat /\
     (size (transport_loss_windows u) <= 16)%nat /\
     (size (datagram_admission_by_service u) <= 16)%nat /\
     (size (movie_feedback_by_display u) <= 16)%nat).
Proof.
  intros Hl q; pose proof (performs_ok l Hl) as [Hu Hd]; fold q in Hu, Hd.
  assert (forall d, displays q !! name = Some d ->
    (flt (display_ratio d) BR_MIN_HIGH_RESOLUTION || flt BR_MAX (display_ratio d)) = false) as Hin.
  { intros d E; destruct (display_ratio_ok _ (Hd _ _ E)) as [Hlo Hhi]; apply orb_false_iff; split;
      apply not_true_is_false; intros H; apply flt_not_fle in H; congruence. }
  split; [apply fps_range|]; split; [|split; [|split]].
  - destruct (spf_of_rate _ (fps_range q name)) as (ns & H1 & _ & H2); by exists ns.
  - unfold ratio; destruct (displays q !! name) as [d|] eqn:E; [|apply balanced_ok]; cbv zeta; cbn [fst].
    rewrite (Hin d eq_refl); pose proof (display_ratio_ok _ (Hd _ _ E)) as Hr.
    case_match; [by apply safe_ratio_ok|done].
  - intros d E; pose proof (Hd _ _ E) as [Hf Hr Hn Ht].
    split; [|split; [|lia]].
    + unfold fps; rewrite E; cbn [map_or]; change MIN_FPS with 1; change MAX_FPS with 120.
      destruct ((1 <=? display_fps d) && (display_fps d <=? 120)) eqn:Ev; [done|lia].
    + intros Hs; unfold ratio; rewrite E, Hs; cbv zeta; cbn [fst]; by rewrite (Hin d E).
  - intros id u E; destruct (Hu _ _ E) as [? ? ? ? ? ? ? Hw ? ?]; split_and!; try done; apply Hw.
Qed.

(** The rate of a shared encoder: a fixed rate is kept exactly, but for the
    pacing of a movie; otherwise the rate never exceeds what the subscribers
    ask for, nor five before a viewer has rendered, nor two when all respond
    late; and except in these cases and in a movie it is never below what the
    best subscriber's path allows, so that a slow viewer does not throttle the
    others. *)
Theorem shared_encoder_fps q name now d :
  displays q !! name = Some d ->
  exists d', displays (adjust_fps_at q name now) !! name = Some d' /\
  (forall f, locked_fps q name = Some f ->
     display_fps d' = if full_movie_mode q name && (0 <? movie_pacing_fps d)
                      then Z.min f (movie_pacing_fps d) else f) /\
  (locked_fps q name = None ->
     let all_delayed := nonempty (subscribed_users q name)
                        && forallb (fun u => response_delayed (delay u)) (subscribed_users q name) in
     let movie := full_movie_mode q name in
     (movie = false -> 1 <= display_fps d' <= highest_fps q name) /\
     (movie = false -> startup_safe_mode q name now = true -> display_fps d' <= 5) /\
     (movie = false -> all_delayed = true -> display_fps d' <= 2) /\
     (movie = true -> 0 < movie_pacing_fps d -> upshift_frozen_until d = None ->
        display_fps d' <= movie_pacing_fps d) /\
     (forall u, u ∈ subscribed_users q name -> movie = false -> startup_safe_mode q name now = false ->
        all_delayed = false ->
        Z.min (highest_fps q name) (unwrap_or (delay_fps (delay u)) 15) <= display_fps d')).
Proof.
  intros Hd; unfold adjust_fps_at; cbv zeta; destruct (locked_fps q name) as [f|] eqn:El.
  - eexists; split; [by apply lookup_alter_Some; left; split; [|eexists; split]|].
    split; [|done]; intros f' [= <-]; simpl; rewrite Hd; cbn [map_or].
    destruct (full_movie_mode q name); simpl; [|done]. by destruct (Z.ltb_spec 0 (movie_pacing_fps d)).
  - eexists; split; [by apply lookup_alter_Some; left; split; [|eexists; split]|].
    split; [done|]; intros _; cbn [display_fps].
    pose proof (highest_fps_ok q name) as Hhi; change INIT_FPS with 15; change MIN_FPS with 1;
      change STARTUP_SAFE_FPS with 5.
    set (best := unwrap_or (list_max _) 15).
    set (all_delayed := nonempty _ && forallb _ _).
    assert (forall u, u ∈ subscribed_users q name -> unwrap_or (delay_fps (delay u)) 15 <= best) as Hbest.
    { intros u Hu; unfold best.
      assert (unwrap_or (delay_fps (delay u)) 15 ∈
        (fun u => unwrap_or (delay_fps (delay u)) 15) <$> subscribed_users q name) as Hin
        by (apply list_elem_of_fmap; eauto).
      destruct (list_max _) as [m|] eqn:Em; [by eapply list_max_ge|].
      destruct (subscribed_users q name); [by apply elem_of_nil in Hu|done]. }
    clearbody best all_delayed.
    set (movie := full_movie_mode q name); clearbody movie.
    set (safe := startup_safe_mode q name now); clearbody safe; simpl.
    unfold clampZ; split_and!.
    + intros ->; cbn [andb]; repeat case_match; lia.
    + intros -> ->; cbn [andb]; repeat case_match; lia.
    + intros -> ->; cbn [andb]; repeat case_match; lia.
    + intros -> Hp ->; cbn [andb is_some_and]; rewrite (proj2 (Z.ltb_lt _ _) Hp); cbn [andb]; lia.
    + intros u Hu -> -> ->; cbn [andb]; specialize (Hbest u Hu); repeat case_match; lia.
Qed.

(** A congestion reduction strictly lowers the ratio of its display, never
    under the minimum for its quality and bitrate, and no sooner than two seconds
    after the one before; a call that does not reduce leaves the ratio and the
    time of the last reduction as they were; other displays are not touched. *)
Theorem congestion_reduction_sound l name now source freeze :
  Forall (fun x => valid_call x.1) l ->
  let q := performs l in
  let '(reduced, q') := reduce_ratio_for_congestion q name now source freeze in
  (forall other, other <> name -> displays q' !! other = displays q !! other) /\
  if reduced then
    exists d d', displays q !! name = Some d /\ displays q' !! name = Some d' /\
      in_vbr_state q name = true /\
      flt (display_ratio d') (display_ratio d) = true /\
      fle (minimum_ratio_for_quality (latest_quality q name) (display_ratio d) (bitrate_store d))
          (display_ratio d') = true /\
      last_congestion_reduction_at d' = Some now /\
      (forall last, last_congestion_reduction_at d = Some last -> 2000000000 <= now - last)
  else
    forall d', displays q' !! name = Some d' ->
      exists d, displays q !! name = Some d /\ display_ratio d' = display_ratio d /\
        last_congestion_reduction_at d' = last_congestion_reduction_at d.
Proof.
  intros Hl q; pose proof (performs_ok l Hl) as Hq; fold q in Hq; unfold reduce_ratio_for_congestion.
  destruct (in_vbr_state q name) eqn:Ev; cbn [negb]; [|split; [done|eauto]].
  destruct (displays q !! name) as [d|] eqn:Ed; [|split; [done|intros d' Hd'; congruence]].
  destruct (reduce_display _ _ _ _ _) as [b d'] eqn:Er.
  pose proof (ratio_ok_not_nan _ (display_ratio_ok _ (proj2 Hq _ _ Ed))) as Hn.
  destruct (reduce_display_spec _ _ _ _ _ _ _ Er Hn) as (_ & _ & _ & Hb).
  split; [intros o Ho; simpl; by rewrite lookup_insert_ne|].
  destruct b.
  - destruct Hb as (H1 & H2 & H3 & H4); exists d, d'; simpl; rewrite lookup_insert_eq; split_and!; try done.
    intros last Hlast; specialize (H4 last Hlast).
    change DATAGRAM_ADMISSION_ACTION_COOLDOWN with 2000000000 in H4; unfold since in H4; lia.
  - destruct Hb as [H1 H2]; intros d2; simpl; rewrite lookup_insert_eq; intros [= <-]; eauto.
Qed.

(** An adjustment of the ratio to the delay leaves it either as it was, or
    between the minimum for the quality (or the quality's own ratio, when that
    is less) and the quality's own ratio; while upshifts are frozen, for the
    display or by losses of all its viewers, it never rises. *)
Theorem ratio_adjustment_bounded l name dyn now d d' :
  Forall (fun x => valid_call x.1) l ->
  let q := performs l in
  displays q !! name = Some d ->
  displays (adjust_ratio_at q name dyn now) !! name = Some d' ->
  let target := latest_quality q name in
  (display_ratio d' = display_ratio d \/
   (fle (fmin (minimum_ratio_for_quality target (display_ratio d) (bitrate_store d)) (quality_ratio target))
        (display_ratio d') = true /\
    fle (display_ratio d') (quality_ratio target) = true)) /\
  (is_some_and (upshift_frozen_until d) (fun until => now <? until)
     || transport_loss_upshift_frozen_for_display q name now = true ->
   flt (display_ratio d) (display_ratio d') = false).
Proof.
  intros Hl q Hd Hd' target; pose proof (performs_ok l Hl) as Hq; fold q in Hq.
  pose proof (display_ratio_ok _ (proj2 Hq _ _ Hd)) as Hr; pose proof (ratio_ok_not_nan _ Hr) as Hn.
  assert (flt (display_ratio d) (display_ratio d) = false) as Hirr.
  { pose proof (fle_flt _ _ Hn Hn) as H; rewrite fle_refl in H by done. by destruct (flt _ _). }
  revert Hd'; unfold adjust_ratio_at; case_match; [intros Hd'; rewrite Hd in Hd'; injection Hd' as <-; auto|].
  destruct (list_min _) as [best|]; [|intros Hd'; rewrite Hd in Hd'; injection Hd' as <-; auto].
  rewrite update_display_lookup, Hd; intros [= <-].
  destruct (adjust_display_ratio_spec d target best
    (transport_loss_upshift_frozen_for_display q name now) dyn now Hr (latest_quality_ok q name Hq))
    as (H1 & H2 & _); split; [exact H1|exact H2].
Qed.

Lemma omap_length_le {A B} (f : A -> option B) l : (length (omap f l) <= length l)%nat.
Proof. induction l as [|a l IH]; [done|]; cbn; destruct (f a); cbn; lia. Qed.

(** When no element is lost by [filter_map], all have an image. *)
Lemma omap_all {A B} (f : A -> option B) l :
  length (omap f l) = length l -> forall x, x ∈ l -> exists y, f x = Some y /\ y ∈ omap f l.
Proof.
  induction l as [|a l IH]; intros Hlen x Hx; [by apply elem_of_nil in Hx|].
  pose proof (omap_length_le f l) as Hle; cbn in Hlen, Hle |- *.
  destruct (f a) as [b|] eqn:E; cbn in Hlen; [|lia].
  apply elem_of_cons in Hx as [->|Hx]; [exists b; split; [done|left]|].
  destruct (IH ltac:(by injection Hlen) x Hx) as (y & Hy & Hin); exists y; split; [done|by right].
Qed.

Lemma reduce_ratio_users q name now source freeze :
  users (reduce_ratio_for_congestion q name now source freeze).2 = users q.
Proof.
  unfold reduce_ratio_for_congestion; case_match; [done|]; destruct (displays q !! name); [|done].
  by destruct (reduce_display _ _ _ _ _).
Qed.

Lemma admission_step_reduces d p c now d' :
  admission_step d p c now = (true, d') ->
  p = true /\ exists s, admission_pressure_since d = Some s /\ 1000000000 <= now - s /\
    admission_ratio_reductions d < 4.
Proof.
  unfold admission_step; cbv zeta; destruct p; [|repeat case_match; simpl; congruence].
  set (d0 := if movie_admission_pressure _ then _ else _).
  assert (admission_pressure_since d0 = admission_pressure_since d /\
          admission_ratio_reductions d0 = admission_ratio_reductions d) as [E1 E2] by (unfold d0; by case_match).
  clearbody d0; simpl.
  change DATAGRAM_ADMISSION_PRESSURE_DURATION with 1000000000;
    change DATAGRAM_ADMISSION_MAX_RATIO_REDUCTIONS with 4.
  destruct (Z.leb_spec 1000000000 (since now (or_insert (admission_pressure_since d0) now))) as [Hs|]; [|done].
  apply long_enough in Hs as (p & Hp & Hle); [|lia]; rewrite E1 in Hp.
  intros [= Hred _]; split; [done|]; exists p; split_and!; [done|done|].
  rewrite <- E2; revert Hred; repeat case_match; simpl; lia.
Qed.

(** The shared ratio is reduced for sender admission only when every
    subscriber is a movie viewer with a pressured sample at most 1.5 s old, the
    pressure has lasted for a second and fewer than four reductions have been
    made since it was last clean: one viewer with room, or one that has not
    reported, keeps the quality of all. *)
Theorem admission_needs_everyone q id name s now q' :
  user_datagram_admission_at q id name s now = (true, q') ->
  full_movie_mode q name = true /\
  exists d, displays q !! name = Some d /\ admission_ratio_reductions d < 4 /\
  (exists p, admission_pressure_since d = Some p /\ 1000000000 <= now - p) /\
  forall other, other ∈ subscribers d ->
    exists u st t, users q' !! other = Some u /\ datagram_admission_by_service u !! name = Some st /\
      pressured st = true /\ updated_at st = Some t /\ now - t <= 1500000000.
Proof.
  unfold user_datagram_admission_at; destruct (full_movie_mode q name); cbn [negb]; [|done].
  destruct (users q !! id) as [u|]; [|done].
  set (q1 := q <| users ::= _ |>).
  assert (displays q1 = displays q) as Hds by done; rewrite Hds.
  clearbody q1; destruct (displays q !! name) as [d|] eqn:Ed; [|done]; cbv zeta.
  set (statuses := omap _ _); set (fresh := _ && _ && forallb _ statuses).
  destruct (admission_step d _ _ now) as [b d1] eqn:Ea; destruct b; cbn [negb]; [|done].
  apply admission_step_reduces in Ea as (Hp & p & Hs & Hle & Hlt).
  set (q2 := q1 <| displays ::= _ |>).
  pose proof (reduce_ratio_users q2 name now "sender-admission" true) as Hus.
  destruct (reduce_ratio_for_congestion _ _ _ _ _) as [[] q3]; intros [= <-]; cbn [snd] in Hus.
  split; [done|]; exists d; split_and!; [done|done|eauto|]; intros other Hother.
  apply andb_true_iff in Hp as [Hf Hp]; unfold fresh in Hf; bools.
  destruct (omap_all _ _ ltac:(eassumption) other) as (st & Hst & Hin);
    [by apply elem_of_elements|]; fold statuses in Hin.
  rewrite forallb_forall in Hp, H0; apply list_elem_of_In in Hin.
  specialize (Hp st Hin); specialize (H0 st Hin).
  apply is_some_and_true in H0 as (t & Ht & Hfr).
  assert (users q2 = users q1) as Hq2 by done; rewrite Hq2 in Hus; clear Hq2.
  assert (forall f, users (update_display q3 name f) = users q1) as Hend by (intros f; by rewrite <- Hus).
  rewrite Hend.
  destruct (users q1 !! other) as [v|]; [|done]; cbn in Hst.
  exists v, st, t; split_and!; try done.
  change DATAGRAM_ADMISSION_SAMPLE_FRESHNESS with 1500000000 in Hfr; unfold since in Hfr; lia.
Qed.

(** Reading the latch of a service forgets the admission samples of every user,
    so that the next sample counts no rejection, whatever its counters: it is
    pressured only when the sender's queue is. *)
Theorem poll_forgets_rejections q name d t id u s now :
  displays q !! name = Some d ->
  users (movie_admission_pressure_at q name t).2 !! id = Some u ->
  exists st, datagram_admission_by_service (admit_sample u name s now) !! name = Some st /\
    pressured st = ((0 <? queue_budget_bytes s)
      && (sat_mul u64_max (queue_budget_bytes s) DATAGRAM_ADMISSION_PREEMPTIVE_QUEUE_PERMILLE
            <=? sat_mul u64_max (queued_bytes s) 1000)).
Proof.
  intros Hd Hu; unfold movie_admission_pressure_at in Hu; rewrite Hd in Hu; simpl in Hu.
  rewrite lookup_fmap in Hu; destruct (users q !! id) as [v|]; [|done]; injection Hu as <-.
  unfold admit_sample; simpl; rewrite lookup_delete_eq; cbn [is_none andb].
  match goal with |- context [if ?b then ?x else delete name ?m] =>
    set (states := if b then x else delete name m) end.
  assert (states !! name = None) as ->.
  { unfold states; case_match; [|apply lookup_delete_eq].
    destruct (min_by _ _) as [[o w]|]; [|apply lookup_delete_eq].
    apply lookup_delete_None; right; apply lookup_delete_eq. }
  eexists; rewrite lookup_insert_eq; split; [done|]; cbn [unwrap_or default_admission updated_at is_some is_none negb pressured].
  by rewrite orb_false_r.
Qed.

(** ** Concrete runs *)

Definition monitor : string := "monitor0".

(** A display watched by one viewer in movie mode. *)
Definition movie_calls : list (Call * instant) :=
  [(NewDisplay monitor, 0); (OnConnectionOpen 1 "", 0); (UserVideoProfile 1 Movie, 0);
   (UserVideoFeedbackCapability 1 true, 0); (UserMovieTransportCapability 1 true, 0);
   (SyncSubscribers monitor {[1]}, 0); (SetSupportChangingQuality monitor true, 0);
   (StoreBitrate monitor 2000, 0)].

(** A sender whose queue is nine tenths full. *)
Definition full_queue : VideoDatagramAdmissionSample :=
  {| sample_rejected_active := 0; sample_frames_sent := 10; queue_delay_us := 0; queue_budget_bytes := 1000;
     queued_bytes := 900; datagram_bytes_p99 := 0; required_bytes_p99 := 0 |}.

Definition pressured_calls : list (Call * instant) :=
  movie_calls ++ [(UserDatagramAdmission 1 full_queue, from_millis 100)].

Lemma movie_calls_valid : Forall (fun x => valid_call x.1) movie_calls.
Proof. repeat constructor. Defined.
Lemma pressured_calls_valid : Forall (fun x => valid_call x.1) pressured_calls.
Proof. repeat constructor. Defined.

Lemma encoder_inputs_in_range_witness : fps (performs movie_calls) monitor = 5 /\
  ratio_ok (ratio (performs movie_calls) monitor 0).1.
Proof.
  split; [vm_compute; reflexivity|].
  exact (proj1 (proj2 (proj2 (encoder_inputs_in_range movie_calls monitor 0 movie_calls_valid)))).
Defined.

(** What is kept of the startup of a display for its viewers outlives the display: a
    user who watches displays that come and go collects an entry for each. *)
Definition display_rounds (n : nat) : list (Call * instant) :=
  (OnConnectionOpen 1 "", 0) ::
  mjoin ((fun i => let name := ("monitor" +:+ pretty i)%string in
    [(NewDisplay name, 0); (SyncSubscribers name {[1]}, 0); (RemoveDisplay name, 0)]) <$> seqZ 0 (Z.of_nat n)).
Theorem startup_entries_outlive_displays :
  displays (performs (display_rounds 100)) = ∅ /\
  (fun u => size (video_startup_by_service u)) <$> users (performs (display_rounds 100)) !! 1 = Some 100%nat.
Proof. split; vm_compute; reflexivity. Qed.

Definition some_display (q : VideoQoS) (name : string) : DisplayData :=
  unwrap_or (displays q !! name) (default_display 0).

Lemma shared_encoder_fps_witness :
  exists d', displays (adjust_fps_at (performs movie_calls) monitor 0) !! monitor = Some d' /\
    display_fps d' = 5.
Proof.
  assert (displays (performs movie_calls) !! monitor = Some (some_display (performs movie_calls) monitor)) as Hd
    by (vm_compute; reflexivity).
  destruct (shared_encoder_fps (performs movie_calls) monitor 0 _ Hd) as (d' & H & _).
  exists d'; split; [exact H|].
  assert (display_fps <$> displays (adjust_fps_at (performs movie_calls) monitor 0) !! monitor = Some 5) as Hf
    by (vm_compute; reflexivity).
  rewrite H in Hf; injection Hf as ->; reflexivity.
Defined.

Lemma congestion_reduction_sound_witness :
  exists q', reduce_ratio_for_congestion (performs movie_calls) monitor 0 "transport-loss" false = (true, q') /\
  exists d d', displays (performs movie_calls) !! monitor = Some d /\ displays q' !! monitor = Some d' /\
    flt (display_ratio d') (display_ratio d) = true.
Proof.
  pose proof (congestion_reduction_sound movie_calls monitor 0 "transport-loss" false movie_calls_valid) as H;
    cbv zeta in H.
  destruct (reduce_ratio_for_congestion (performs movie_calls) monitor 0 "transport-loss" false) as [b q'] eqn:E.
  assert (b = true) as ->.
  { assert ((reduce_ratio_for_congestion (performs movie_calls) monitor 0 "transport-loss" false).1 = true) as Hb
      by (vm_compute; reflexivity).
    rewrite E in Hb; exact Hb. }
  exists q'; split; [reflexivity|]; destruct H as (_ & d & d' & H1 & H2 & _ & H3 & _).
  exists d, d'; auto.
Defined.

Lemma ratio_adjustment_bounded_witness :
  exists d', displays (adjust_ratio_at (performs movie_calls) monitor true 0) !! monitor = Some d' /\
    (display_ratio d' = BR_BALANCED \/ fle (display_ratio d') BR_BALANCED = true).
Proof.
  assert (displays (performs movie_calls) !! monitor = Some (some_display (performs movie_calls) monitor)) as Hd
    by (vm_compute; reflexivity).
  pose proof (ratio_adjustment_bounded movie_calls monitor true 0 (some_display (performs movie_calls) monitor)
    (some_display (adjust_ratio_at (performs movie_calls) monitor true 0) monitor) movie_calls_valid Hd
    ltac:(vm_compute; reflexivity)) as [H _].
  eexists; split; [vm_compute; reflexivity|].
  destruct H as [H|[_ H]]; [left; exact H|right; exact H].
Defined.

Lemma admission_needs_everyone_witness :
  exists q', user_datagram_admission_at (performs pressured_calls) 1 monitor full_queue (from_millis 1200) = (true, q') /\
    full_movie_mode (performs pressured_calls) monitor = true.
Proof.
  destruct (user_datagram_admission_at (performs pressured_calls) 1 monitor full_queue (from_millis 1200))
    as [b q'] eqn:E.
  assert (b = true) as ->.
  { assert ((user_datagram_admission_at (performs pressured_calls) 1 monitor full_queue (from_millis 1200)).1 = true) as Hb
      by (vm_compute; reflexivity).
    rewrite E in Hb; exact Hb. }
  exists q'; split; [reflexivity|].
  exact (proj1 (admission_needs_everyone _ _ _ _ _ _ E)).
Defined.
