(* ===== verification/VideoDelivery.v ===== *)
(** * Recovery of the video delivery to one viewer

    Models [VideoDeliveryController] of src/src/server/connection.rs: per
    display the frames sent, decoded and rendered, the phase of the delivery,
    and when the host asks the encoder for a new reference frame on its own
    ([poll_recovery]) or on the viewer's request; and the part of the connection
    around it: the handlers of the viewer's feedback and requests, with the
    snapshot that is restored when a request is suppressed under congestion,
    and the loop that reports sent frames and polls while the viewer is known
    to send feedback.  The protocol messages and the transport's statistics are
    records of the fields that are read; what the handlers ask of the shared
    quality controller and of the encoder is a list of effects. *)

From S2P Require Import Prelude ViewerNetwork.

Definition MAX_VIDEO_FEEDBACK_DISPLAYS : nat := 32.
Definition VIDEO_DELIVERY_DEFAULT_NETWORK_DELAY_MS : Z := 250.
Definition VIDEO_DELIVERY_MIN_PROGRESS_TIMEOUT : duration := from_millis 500.
Definition VIDEO_DELIVERY_MAX_PROGRESS_TIMEOUT : duration := from_secs 4.
Definition VIDEO_DELIVERY_MIN_REFRESH_COOLDOWN : duration := from_secs 1.
Definition VIDEO_DELIVERY_MAX_RECOVERY_REISSUES : Z := 2.
Definition VIDEO_DELIVERY_REISSUE_COOLDOWN_MULTIPLIER : Z := 3.
Definition VIDEO_DELIVERY_RECOVERY_CYCLE_COOLDOWN : duration := from_secs 10.
Definition QUIC_ADVISORY_REFRESH_CWND_MULTIPLIER : Z := 2.
Definition VIDEO_DELIVERY_PIPELINE_SLACK_FRAMES : Z := 2.
Definition VIDEO_FEEDBACK_LOG_INTERVAL : duration := from_secs 5.

Inductive VideoDeliveryPhase := Starting | Healthy | Recovering.
#[export] Instance phase_eq_dec : EqDecision VideoDeliveryPhase.
Proof. solve_decision. Defined.

Record VideoDeliveryState := {
  stream_id : Z;
  host_highest_sent_frame_id : Z;
  highest_sent_frame_id : Z;
  highest_decoded_frame_id : Z;
  highest_render_submitted_frame_id : Z;
  first_sent_at : instant;
  decode_pending_since : option instant;
  last_refresh_at : option instant;
  feedback_observed : bool;
  recovery_target_frame_id : option Z;
  recovery_generation : Z;
  recovery_reissues : Z;
  recovery_progress_at : option instant;
  last_sent_advance_at : instant;
  recovery_cycle_cooldown_until : option instant;
  phase : VideoDeliveryPhase;
  recovery_count : Z;
  latest_stall_ms : Z;
}.

#[export] Instance eta_delivery : Eta VideoDeliveryState := fun s =>
  Build_VideoDeliveryState (stream_id s) (host_highest_sent_frame_id s) (highest_sent_frame_id s)
    (highest_decoded_frame_id s) (highest_render_submitted_frame_id s) (first_sent_at s)
    (decode_pending_since s) (last_refresh_at s) (feedback_observed s) (recovery_target_frame_id s)
    (recovery_generation s) (recovery_reissues s) (recovery_progress_at s) (last_sent_advance_at s)
    (recovery_cycle_cooldown_until s) (phase s) (recovery_count s) (latest_stall_ms s).

Definition new_delivery (stream frame : Z) (now : instant) : VideoDeliveryState :=
  {| stream_id := stream; host_highest_sent_frame_id := frame; highest_sent_frame_id := frame;
     highest_decoded_frame_id := 0; highest_render_submitted_frame_id := 0; first_sent_at := now;
     decode_pending_since := Some now; last_refresh_at := None; feedback_observed := false;
     recovery_target_frame_id := None; recovery_generation := 0; recovery_reissues := 0;
     recovery_progress_at := None; last_sent_advance_at := now; recovery_cycle_cooldown_until := None;
     phase := Starting; recovery_count := 0; latest_stall_ms := 0 |}.

Record VideoRecoveryAction := {
  a_display : Z;
  a_stream_id : Z;
  a_highest_sent_frame_id : Z;
  a_highest_decoded_frame_id : Z;
  a_highest_render_submitted_frame_id : Z;
  a_stalled_ms : Z;
  a_previous_phase : VideoDeliveryPhase;
  a_recovery_generation : Z;
  a_recovery_reissue : Z;
}.

Inductive VideoReferenceRefreshError := InvalidRequest | UnknownDisplay | StaleStream | StaleRequest.

Record VideoFrame := { frame_display : Z; frame_stream_id : Z; frame_id : Z }.
Record VideoFeedback := {
  fb_display : Z; fb_stream_id : Z; received_frame_id : Z; decoded_frame_id : Z;
  render_submitted_frame_id : Z; fb_dropped_frames : Z;
}.
Record VideoReferenceRefresh := {
  req_display : Z; req_stream_id : Z; req_received_frame_id : Z; req_dropped_frames : Z;
  strict_recovery : bool;
}.

(** [VideoDeliveryController] *)
Abbreviation Controller := (gmap Z VideoDeliveryState) (only parsing).

(** ** Timing *)

Definition progress_timeout (network_delay_ms : Z) : duration :=
  let ms := if network_delay_ms =? 0 then VIDEO_DELIVERY_DEFAULT_NETWORK_DELAY_MS else network_delay_ms in
  clampZ VIDEO_DELIVERY_MIN_PROGRESS_TIMEOUT VIDEO_DELIVERY_MAX_PROGRESS_TIMEOUT
    (from_millis (sat_mul u64_max (Z.max ms 50) 3)).

Definition refresh_cooldown (network_delay_ms : Z) : duration :=
  Z.max (progress_timeout network_delay_ms) VIDEO_DELIVERY_MIN_REFRESH_COOLDOWN.

Definition recovery_reissue_timeout (network_delay_ms : Z) : duration :=
  refresh_cooldown network_delay_ms * VIDEO_DELIVERY_REISSUE_COOLDOWN_MULTIPLIER.

Definition clear_recovery_cycle (s : VideoDeliveryState) : VideoDeliveryState :=
  s <| recovery_target_frame_id := None |> <| recovery_reissues := 0 |> <| recovery_progress_at := None |>.

(** [a.into_iter().chain(b).max()] *)
Definition later_of (a b : option instant) : option instant :=
  match a, b with
  | Some x, Some y => Some (Z.max x y)
  | Some x, None => Some x
  | None, o => o
  end.

(** When the recovery in progress last moved. *)
Definition recovery_moved_at (s : VideoDeliveryState) : instant :=
  unwrap_or (later_of (recovery_progress_at s) (last_refresh_at s)) (first_sent_at s).

Definition refreshed_within (s : VideoDeliveryState) (now : instant) (d : duration) : bool :=
  is_some_and (last_refresh_at s) (fun last => since now last <? d).

(** ** Recovery *)

(** The end of [issue_recovery]: the action and what is recorded of it. *)
Definition send_recovery (display : Z) (previous_phase : VideoDeliveryPhase) (reissue : Z)
    (s : VideoDeliveryState) (now : instant) (stalled : duration) : VideoRecoveryAction * VideoDeliveryState :=
  let s := s <| phase := Recovering |> <| last_refresh_at := Some now |>
             <| recovery_count ::= fun n => sat_add u64_max n 1 |>
             <| latest_stall_ms := Z.min (stalled / 1000000) u64_max |> in
  ({| a_display := display; a_stream_id := stream_id s;
      a_highest_sent_frame_id := host_highest_sent_frame_id s;
      a_highest_decoded_frame_id := highest_decoded_frame_id s;
      a_highest_render_submitted_frame_id := highest_render_submitted_frame_id s;
      a_stalled_ms := stalled / 1000000; a_previous_phase := previous_phase;
      a_recovery_generation := recovery_generation s; a_recovery_reissue := reissue |}, s).

Definition issue_recovery (display : Z) (s : VideoDeliveryState) (now : instant) (network_delay_ms : Z)
    (stalled : duration) : option VideoRecoveryAction * VideoDeliveryState :=
  let cooldown := refresh_cooldown network_delay_ms in
  let previous_phase := phase s in
  if negb (feedback_observed s) then
    if refreshed_within s now cooldown then (None, s)
    else
      let s := s <| recovery_generation ::= fun g => sat_add u64_max g 1 |>
                 <| recovery_target_frame_id := None |> <| recovery_reissues := 0 |>
                 <| recovery_progress_at := None |> in
      let '(a, s) := send_recovery display previous_phase 0 s now stalled in (Some a, s)
  else if is_some_and (recovery_target_frame_id s) (fun target => highest_decoded_frame_id s <=? target) then
    let retry_elapsed := since now (recovery_moved_at s) in
    if retry_elapsed <? recovery_reissue_timeout network_delay_ms then (None, s)
    else if VIDEO_DELIVERY_MAX_RECOVERY_REISSUES <=? recovery_reissues s then
      (None, clear_recovery_cycle s
               <| recovery_cycle_cooldown_until := checked_add now VIDEO_DELIVERY_RECOVERY_CYCLE_COOLDOWN |>
               <| phase := Healthy |>)
    else
      let s := s <| recovery_reissues ::= fun n => sat_add u8_max n 1 |> in
      let '(a, s) := send_recovery display previous_phase (recovery_reissues s) s now stalled in (Some a, s)
  else
    let s := clear_recovery_cycle s <| phase := Healthy |> in
    if is_some_and (recovery_cycle_cooldown_until s) (fun until => now <? until)
       || (host_highest_sent_frame_id s =? 0) || refreshed_within s now cooldown
    then (None, s)
    else
      let s := s <| recovery_cycle_cooldown_until := None |>
                 <| recovery_generation ::= fun g => sat_add u64_max g 1 |>
                 <| recovery_target_frame_id := Some (host_highest_sent_frame_id s) |>
                 <| recovery_reissues := 0 |> <| recovery_progress_at := Some now |> in
      let '(a, s) := send_recovery display previous_phase 0 s now stalled in (Some a, s).

Definition on_frame_sent (c : Controller) (f : VideoFrame) (now : instant) : Controller :=
  if (frame_stream_id f =? 0) || (frame_id f =? 0) || (frame_display f <? 0) then c
  else if is_none (c !! frame_display f) && (MAX_VIDEO_FEEDBACK_DISPLAYS <=? size c)%nat then c
  else
    let s := unwrap_or (c !! frame_display f) (new_delivery (frame_stream_id f) (frame_id f) now) in
    if negb (stream_id s =? frame_stream_id f)
    then <[frame_display f := new_delivery (frame_stream_id f) (frame_id f) now]> c
    else
      let previous_host_frontier := host_highest_sent_frame_id s in
      let s := if previous_host_frontier <? frame_id f
               then s <| host_highest_sent_frame_id := frame_id f |> <| last_sent_advance_at := now |>
               else s in
      let s := if (previous_host_frontier <? frame_id f)
                  && (previous_host_frontier <=? highest_decoded_frame_id s)
               then s <| decode_pending_since := Some now |> else s in
      <[frame_display f := s <| highest_sent_frame_id ::= fun h => Z.max h (frame_id f) |>]> c.

(** A frame above the decoded ones has been decoded. *)
Definition decode_progress (s : VideoDeliveryState) (decoded : Z) (now : instant) : VideoDeliveryState :=
  let s := s <| highest_decoded_frame_id := decoded |> <| recovery_cycle_cooldown_until := None |> in
  let s := if is_some (recovery_target_frame_id s) then s <| recovery_progress_at := Some now |> else s in
  let s := s <| decode_pending_since :=
                 if host_highest_sent_frame_id s <=? highest_decoded_frame_id s then None
                 else Some now |> in
  if is_some_and (recovery_target_frame_id s) (fun target => target <? highest_decoded_frame_id s)
  then clear_recovery_cycle s <| phase := Healthy |>
  else if is_none (recovery_target_frame_id s) then s <| phase := Healthy |>
  else s.

(** What feedback makes of the state of its stream; whether it is the first
    frame that was rendered. *)
Definition feedback_state (s : VideoDeliveryState) (f : VideoFeedback) (now : instant) : bool * VideoDeliveryState :=
  let s := s <| feedback_observed := true |> in
  let s := if (highest_sent_frame_id s <? received_frame_id f)
              && (highest_sent_frame_id s <=? highest_decoded_frame_id s)
           then s <| decode_pending_since := Some now |> else s in
  let s := s <| highest_sent_frame_id ::= fun h => Z.max h (received_frame_id f) |> in
  let s := if highest_decoded_frame_id s <? decoded_frame_id f
           then decode_progress s (decoded_frame_id f) now else s in
  let first_render := (highest_render_submitted_frame_id s =? 0) && (0 <? render_submitted_frame_id f) in
  (first_render, s <| highest_render_submitted_frame_id ::= fun h => Z.max h (render_submitted_frame_id f) |>).

Definition on_feedback (c : Controller) (f : VideoFeedback) (now : instant) : bool * Controller :=
  if is_none (c !! fb_display f) && (MAX_VIDEO_FEEDBACK_DISPLAYS <=? size c)%nat then (false, c)
  else
    let s := unwrap_or (c !! fb_display f) (new_delivery (fb_stream_id f) 0 now) in
    let s := if negb (stream_id s =? fb_stream_id f) then new_delivery (fb_stream_id f) 0 now else s in
    let '(first_render, s) := feedback_state s f now in
    (first_render, <[fb_display f := s]> c).

(** One display of [poll_recovery]. *)
Definition poll_display (display : Z) (s : VideoDeliveryState) (now : instant) (network_delay_ms : Z) :
    option VideoRecoveryAction * VideoDeliveryState :=
  if is_some (recovery_target_frame_id s) then
    issue_recovery display s now network_delay_ms (since now (recovery_moved_at s))
  else if host_highest_sent_frame_id s <=? highest_decoded_frame_id s then (None, s)
  else
    let undecoded_frames := sat_sub (host_highest_sent_frame_id s) (highest_decoded_frame_id s) in
    if negb (bool_decide (phase s = Starting)) && (undecoded_frames <=? VIDEO_DELIVERY_PIPELINE_SLACK_FRAMES)
    then (None, s)
    else
      let stalled := since now (unwrap_or (decode_pending_since s) (first_sent_at s)) in
      if stalled <? progress_timeout network_delay_ms then (None, s)
      else if feedback_observed s && (progress_timeout network_delay_ms <=? since now (last_sent_advance_at s))
      then (None, s)
      else issue_recovery display s now network_delay_ms stalled.

Definition poll_recovery (c : Controller) (now : instant) (network_delay_ms : Z) :
    list VideoRecoveryAction * Controller :=
  (omap (fun '(display, s) => (poll_display display s now network_delay_ms).1) (map_to_list c),
   map_imap (fun display s => Some (poll_display display s now network_delay_ms).2) c).

Definition valid_video_reference_refresh (r : VideoReferenceRefresh) : bool :=
  negb (req_stream_id r =? 0) && (0 <=? req_display r) && negb (req_received_frame_id r =? 0).

Definition on_reference_refresh_request (c : Controller) (r : VideoReferenceRefresh) (now : instant)
    (network_delay_ms : Z) : (VideoReferenceRefreshError + option VideoRecoveryAction) * Controller :=
  if negb (valid_video_reference_refresh r) then (inl InvalidRequest, c)
  else
    match c !! req_display r with
    | None => (inl UnknownDisplay, c)
    | Some s =>
        if negb (stream_id s =? req_stream_id r) then (inl StaleStream, c)
        else if feedback_observed s && (req_received_frame_id r <=? highest_decoded_frame_id s)
        then (inl StaleRequest, c)
        else
          let progress_at :=
            if is_some (recovery_target_frame_id s) then recovery_moved_at s
            else unwrap_or (decode_pending_since s) (first_sent_at s) in
          let '(o, s) := issue_recovery (req_display r) s now network_delay_ms (since now progress_at) in
          (inr o, <[req_display r := s]> c)
    end.

(** What is reported of a display: its own state or, when there is none, that
    of a display in the worst phase; the later of equals, as [max_by_key]. *)
Definition severity (p : VideoDeliveryPhase) : Z :=
  match p with Healthy => 0 | Starting => 1 | Recovering => 2 end.

Definition status_ltb (a b : VideoDeliveryState) : bool :=
  (severity (phase a) <? severity (phase b))
  || ((severity (phase a) =? severity (phase b))
      && ((latest_stall_ms a <? latest_stall_ms b)
          || ((latest_stall_ms a =? latest_stall_ms b) && (recovery_count a <? recovery_count b)))).

Definition worst_display (l : list (Z * VideoDeliveryState)) : option VideoDeliveryState :=
  foldl (fun best x => match best with
                       | Some b => if status_ltb x.2 b then Some b else Some x.2
                       | None => Some x.2
                       end) None l.

Record VideoDeliveryStatus := {
  status_phase : VideoDeliveryPhase; status_recovery_count : Z; status_latest_stall_ms : Z;
}.

Definition status (c : Controller) (display : Z) : option VideoDeliveryStatus :=
  match (match c !! display with Some s => Some s | None => worst_display (map_to_list c) end) with
  | Some s => Some {| status_phase := phase s; status_recovery_count := recovery_count s;
                      status_latest_stall_ms := latest_stall_ms s |}
  | None => None
  end.

Definition snapshot_display (c : Controller) (display : Z) : option VideoDeliveryState := c !! display.

Definition restore_display (c : Controller) (display : Z) (s : option VideoDeliveryState) : Controller :=
  match s with Some s => <[display := s]> c | None => delete display c end.

(** ** The connection *)

Definition QUIC_COVERING_KEYFRAME_MAX_AGE_US : Z := 250000.

Record ReliableKeyframeMark := { mark_display : Z; mark_stream_id : Z; barrier_epoch : Z; age_us : Z }.
Record QuicStats := {
  congestion_window_bytes : Z;
  reliable_keyframe_last_bytes : Z;
  reliable_keyframe_last_mark : option ReliableKeyframeMark;
}.

Definition should_record_transport_loss (result : VideoReferenceRefreshError + option VideoRecoveryAction) : bool :=
  match result with inr _ | inl StaleRequest => true | _ => false end.

Definition should_suppress_quic_advisory_refresh (dropped : Z) (strict : bool) (reissue cwnd last_bytes : Z) : bool :=
  (0 <? dropped) && negb strict && (reissue =? 0) && (0 <? last_bytes)
  && (cwnd <? sat_mul u64_max last_bytes QUIC_ADVISORY_REFRESH_CWND_MULTIPLIER).

Definition should_coalesce_quic_strict_refresh (r : VideoReferenceRefresh) (mark : option ReliableKeyframeMark) : bool :=
  strict_recovery r
  && is_some_and mark (fun m =>
       (mark_display m =? req_display r) && (mark_stream_id m =? req_stream_id r)
       && (req_received_frame_id r <=? barrier_epoch m) && (age_us m <=? QUIC_COVERING_KEYFRAME_MAX_AGE_US)).

Definition valid_video_feedback (f : VideoFeedback) : bool :=
  negb (fb_stream_id f =? 0) && (0 <=? fb_display f) && negb (received_frame_id f =? 0)
  && (decoded_frame_id f <=? received_frame_id f) && (render_submitted_frame_id f <=? decoded_frame_id f).

Definition video_feedback_regressed (previous next : VideoFeedback) : bool :=
  (fb_stream_id next <? fb_stream_id previous)
  || ((fb_stream_id previous =? fb_stream_id next)
      && ((received_frame_id next <? received_frame_id previous)
          || (decoded_frame_id next <? decoded_frame_id previous)
          || (render_submitted_frame_id next <? render_submitted_frame_id previous)
          || (fb_dropped_frames next <? fb_dropped_frames previous))).

Record VideoFeedbackDiagnostics := { feedback : VideoFeedback; last_log : instant }.

(** The fields of the connection the handlers keep. *)
Record Session := {
  video_feedback_capable : bool;
  video_feedback_by_display : gmap Z VideoFeedbackDiagnostics;
  video_delivery : gmap Z VideoDeliveryState;
}.

#[export] Instance eta_session : Eta Session := fun s =>
  Build_Session (video_feedback_capable s) (video_feedback_by_display s) (video_delivery s).

Definition new_session : Session :=
  {| video_feedback_capable := false; video_feedback_by_display := ∅; video_delivery := ∅ |}.

(** What the handlers ask of the quality controller of the service
    ([user_video_feedback_capability], [user_video_feedback],
    [user_video_frame_rendered_for_service], [user_transport_loss]), of the
    connection ([refresh_effective_movie_mode]) and of the encoder
    ([refresh_video_reference], for an action). *)
Inductive Effect :=
| QosCapability (capable : bool)
| RefreshMovieMode
| QosFeedback (f : VideoFeedback)
| QosRendered (display stream : Z)
| QosTransportLoss (sample : VideoTransportLossSample)
| RefreshReference (a : VideoRecoveryAction).

Definition set_video_feedback_capability (s : Session) (capable : bool) : list Effect * Session :=
  let previous := video_feedback_capable s in
  let s := s <| video_feedback_capable := capable |> in
  if bool_decide (previous = capable) then ([], s)
  else ([QosCapability capable; RefreshMovieMode], s).

Definition log_feedback (previous : option VideoFeedbackDiagnostics) (f : VideoFeedback) (now : instant) : bool :=
  match previous with
  | None => true
  | Some d =>
      negb (fb_stream_id (feedback d) =? fb_stream_id f)
      || (fb_dropped_frames (feedback d) <? fb_dropped_frames f)
      || (VIDEO_FEEDBACK_LOG_INTERVAL <=? since now (last_log d))
  end.

Definition handle_video_feedback (s : Session) (f : VideoFeedback) (now : instant) : list Effect * Session :=
  if negb (valid_video_feedback f) then ([], s)
  else
    let previous := video_feedback_by_display s !! fb_display f in
    if is_some_and previous (fun d => video_feedback_regressed (feedback d) f) then ([], s)
    else if is_none previous && (MAX_VIDEO_FEEDBACK_DISPLAYS <=? size (video_feedback_by_display s))%nat
    then ([], s)
    else
      let '(capability, s) := set_video_feedback_capability s true in
      let last := if log_feedback previous f now then now
                  else match previous with Some d => last_log d | None => now end in
      let s := s <| video_feedback_by_display ::= <[fb_display f := {| feedback := f; last_log := last |}]> |> in
      let '(first_render, c) := on_feedback (video_delivery s) f now in
      (capability ++ [QosFeedback f] ++ (if first_render then [QosRendered (fb_display f) (fb_stream_id f)] else []),
       s <| video_delivery := c |>).

Definition handle_video_reference_refresh (s : Session) (r : VideoReferenceRefresh) (now : instant)
    (network_delay_ms : Z) (quic : option QuicStats) : list Effect * Session :=
  let previous := snapshot_display (video_delivery s) (req_display r) in
  let '(result, c) := on_reference_refresh_request (video_delivery s) r now network_delay_ms in
  let loss := if should_record_transport_loss result && (0 <? req_dropped_frames r)
              then [QosTransportLoss {| loss_display := req_display r; loss_stream_id := req_stream_id r;
                                        ViewerNetwork.received_frame_id := req_received_frame_id r;
                                        sample_dropped := req_dropped_frames r |}]
              else [] in
  let s := s <| video_delivery := c |> in
  match result with
  | inr (Some action) =>
      match quic with
      | Some stats =>
          if should_coalesce_quic_strict_refresh r (reliable_keyframe_last_mark stats) then (loss, s)
          else if should_suppress_quic_advisory_refresh (req_dropped_frames r) (strict_recovery r)
                    (a_recovery_reissue action) (congestion_window_bytes stats)
                    (reliable_keyframe_last_bytes stats)
          then (loss, s <| video_delivery := restore_display c (req_display r) previous |>)
          else (loss ++ [RefreshReference action], s)
      | None => (loss ++ [RefreshReference action], s)
      end
  | _ => (loss, s)
  end.

(** The loop's arm for a video frame that was sent. *)
Definition frame_sent (s : Session) (f : VideoFrame) (now : instant) : Session :=
  if video_feedback_capable s then s <| video_delivery ::= fun c => on_frame_sent c f now |> else s.

(** The loop's arm for the delivery timer, as far as the deliveries go. *)
Definition delivery_tick (s : Session) (now : instant) (network_delay_ms : Z) : list Effect * Session :=
  if video_feedback_capable s then
    let '(actions, c) := poll_recovery (video_delivery s) now network_delay_ms in
    (map RefreshReference actions, s <| video_delivery := c |>)
  else ([], s).

(** ** What a call does to the recovery of a display *)

(** No recovery is asked for: what the next one depends on is kept, or the
    cycle is over. *)
Definition calm (s s' : VideoDeliveryState) : Prop :=
  stream_id s' = stream_id s /\ last_refresh_at s' = last_refresh_at s /\
  recovery_generation s' = recovery_generation s /\
  (recovery_target_frame_id s' = None \/
   (recovery_target_frame_id s' = recovery_target_frame_id s /\ recovery_reissues s' = recovery_reissues s)).

(** The action [a] is asked for. *)
Definition asked (display : Z) (now : instant) (a : VideoRecoveryAction) (s s' : VideoDeliveryState) : Prop :=
  a_display a = display /\ a_stream_id a = stream_id s /\
  stream_id s' = stream_id s /\ last_refresh_at s' = Some now /\
  recovery_generation s' = a_recovery_generation a /\ recovery_reissues s' = a_recovery_reissue a /\
  a_recovery_reissue a <= 2 /\
  (forall l, last_refresh_at s = Some l -> 1000000000 <= since now l) /\
  ((a_recovery_generation a = sat_add u64_max (recovery_generation s) 1 /\ a_recovery_reissue a = 0) \/
   (a_recovery_generation a = recovery_generation s /\ recovery_target_frame_id s <> None /\
    recovery_reissues s < a_recovery_reissue a /\
    (forall l, last_refresh_at s = Some l -> 3000000000 <= since now l))).

Definition outcome (display : Z) (now : instant) (o : option VideoRecoveryAction) (s s' : VideoDeliveryState) : Prop :=
  match o with Some a => asked display now a s s' | None => calm s s' end.

Lemma calm_refl s : calm s s.
Proof. repeat split; auto. Qed.

Lemma cooldown_lower dly : 1000000000 <= refresh_cooldown dly.
Proof.
  unfold refresh_cooldown; change VIDEO_DELIVERY_MIN_REFRESH_COOLDOWN with 1000000000; lia.
Qed.

Lemma not_refreshed_within s now dly :
  refreshed_within s now (refresh_cooldown dly) = false ->
  forall l, last_refresh_at s = Some l -> 1000000000 <= since now l.
Proof.
  intros H l Hl; unfold refreshed_within in H; rewrite Hl in H; cbn [is_some_and] in H.
  pose proof (cooldown_lower dly); lia.
Qed.

Lemma issue_recovery_outcome display s now dly stalled :
  outcome display now (issue_recovery display s now dly stalled).1 s
    (issue_recovery display s now dly stalled).2.
Proof.
  unfold issue_recovery; cbv zeta; pose proof (cooldown_lower dly) as Hc.
  destruct (negb (feedback_observed s)) eqn:Ef.
  - destruct (refreshed_within s now (refresh_cooldown dly)) eqn:Er; [apply calm_refl|].
    pose proof (not_refreshed_within _ _ _ Er); repeat split; simpl; auto; lia.
  - destruct (is_some_and (recovery_target_frame_id s) _) eqn:Et.
    + apply is_some_and_true in Et as (target & Htarget & _).
      destruct (Z.ltb_spec (since now (recovery_moved_at s)) (recovery_reissue_timeout dly)) as [|Hto];
        [apply calm_refl|].
      change VIDEO_DELIVERY_MAX_RECOVERY_REISSUES with 2.
      destruct (Z.leb_spec 2 (recovery_reissues s)); [repeat split; simpl; auto|].
      unfold recovery_reissue_timeout in Hto; change VIDEO_DELIVERY_REISSUE_COOLDOWN_MULTIPLIER with 3 in Hto.
      assert (forall l, last_refresh_at s = Some l -> 3000000000 <= since now l) as H3.
      { intros l Hl; unfold recovery_moved_at in Hto; rewrite Hl in Hto.
        unfold since in *; destruct (recovery_progress_at s); simpl in Hto; lia. }
      repeat split; simpl; auto.
      * unfold sat_add; lia.
      * intros l Hl; specialize (H3 l Hl); lia.
      * right; rewrite Htarget; split_and!; try done; unfold sat_add, u8_max; lia.
    + simpl; destruct (_ || _ || refreshed_within _ _ _) eqn:Eb; [repeat split; simpl; auto|].
      apply orb_false_iff in Eb as [_ Er]; pose proof (not_refreshed_within _ _ _ Er) as Hr; simpl in Hr.
      repeat split; simpl; auto; lia.
Qed.

Lemma poll_display_outcome display s now dly :
  outcome display now (poll_display display s now dly).1 s (poll_display display s now dly).2.
Proof.
  unfold poll_display; cbv zeta.
  repeat (case_match; [first [apply calm_refl|apply issue_recovery_outcome]|]); apply issue_recovery_outcome.
Qed.

Lemma calm_trans s1 s2 s3 : calm s1 s2 -> calm s2 s3 -> calm s1 s3.
Proof.
  intros (A1 & A2 & A3 & A4) (B1 & B2 & B3 & B4); repeat split; try congruence.
  destruct A4 as [A4|[A4 A5]], B4 as [B4|[B4 B5]]; first [left; congruence|right; split; congruence].
Qed.

Lemma decode_progress_calm s decoded now : calm s (decode_progress s decoded now).
Proof.
  unfold decode_progress; cbv zeta.
  set (s1 := s <| highest_decoded_frame_id := decoded |> <| recovery_cycle_cooldown_until := None |>).
  assert (calm s s1) as H1 by (repeat split; auto); clearbody s1.
  set (s2 := if is_some _ then _ else s1).
  assert (calm s1 s2) as H2 by (unfold s2; case_match; repeat split; auto); clearbody s2.
  set (s3 := s2 <| decode_pending_since := _ |>).
  assert (calm s2 s3) as H3 by (repeat split; auto); clearbody s3.
  eapply calm_trans; [exact H1|eapply calm_trans; [exact H2|eapply calm_trans; [exact H3|]]].
  case_match; [repeat split; auto|]. case_match; repeat split; auto.
Qed.

Lemma feedback_state_calm s f now : calm s (feedback_state s f now).2.
Proof.
  unfold feedback_state; cbv zeta; cbn [snd].
  set (s1 := s <| feedback_observed := true |>).
  assert (calm s s1) as H1 by (repeat split; auto); clearbody s1.
  set (s2 := if _ && _ then _ else s1).
  assert (calm s1 s2) as H2 by (unfold s2; case_match; repeat split; auto); clearbody s2.
  set (s3 := s2 <| highest_sent_frame_id ::= _ |>).
  assert (calm s2 s3) as H3 by (repeat split; auto); clearbody s3.
  set (s4 := if _ <? _ then _ else s3).
  assert (calm s3 s4) as H4 by (unfold s4; case_match; [apply decode_progress_calm|apply calm_refl]); clearbody s4.
  eapply calm_trans; [exact H1|eapply calm_trans; [exact H2|eapply calm_trans; [exact H3|]]].
  eapply calm_trans; [exact H4|]; repeat split; auto.
Qed.

(** ** Calls *)

Inductive Call :=
| FrameSent (f : VideoFrame)
| Feedback (f : VideoFeedback)
| Poll (network_delay_ms : Z)
| Refresh (r : VideoReferenceRefresh) (network_delay_ms : Z) (quic : option QuicStats)
| Capability (capable : bool).

(** The effects of a call and the connection it leaves. *)
Definition perform (x : Session) (k : Call) (now : instant) : list Effect * Session :=
  match k with
  | FrameSent f => ([], frame_sent x f now)
  | Feedback f => handle_video_feedback x f now
  | Poll dly => delivery_tick x now dly
  | Refresh r dly quic => handle_video_reference_refresh x r now dly quic
  | Capability b => set_video_feedback_capability x b
  end.

(** The recoveries among the effects. *)
Definition recoveries (effects : list Effect) : list VideoRecoveryAction :=
  omap (fun e => match e with RefreshReference a => Some a | _ => None end) effects.

(** The call does not start another stream on the display. *)
Definition keeps_stream (display stream : Z) (k : Call) : Prop :=
  match k with
  | FrameSent f => frame_display f = display -> frame_stream_id f = stream
  | Feedback f => fb_display f = display -> fb_stream_id f = stream
  | _ => True
  end.

(** What a call makes of a display whose stream it keeps: it asks for one
    recovery of it or none; one that a suppressed request has undone, or that a
    keyframe in flight covers, leaves the display as it was or as if asked. *)
Definition display_step (display : Z) (now : instant) (acts : list VideoRecoveryAction)
    (s s' : VideoDeliveryState) : Prop :=
  (calm s s' /\ forall a, a ∈ acts -> a_display a <> display) \/
  (exists a, asked display now a s s' /\ forall a', a' ∈ acts -> a_display a' = display -> a' = a).

Lemma display_step_calm display now acts s s' :
  calm s s' -> (forall a, a ∈ acts -> a_display a <> display) -> display_step display now acts s s'.
Proof. by left. Qed.

Lemma untouched display now acts s :
  (forall a, a ∈ acts -> a_display a <> display) -> display_step display now acts s s.
Proof. left; split; [apply calm_refl|done]. Qed.

Lemma sent_step display c f now s :
  c !! display = Some s -> (frame_display f = display -> frame_stream_id f = stream_id s) ->
  exists s', on_frame_sent c f now !! display = Some s' /\ calm s s'.
Proof.
  intros Hs Hk; unfold on_frame_sent.
  case_match; [eauto using calm_refl|]; case_match; [eauto using calm_refl|].
  destruct (decide (frame_display f = display)) as [Hd|Hd].
  - rewrite Hd, Hs; cbn [unwrap_or]; rewrite (Hk Hd), Z.eqb_refl; cbn [negb].
    eexists; rewrite lookup_insert_eq; split; [done|]; repeat case_match; repeat split; auto.
  - exists s; split; [|apply calm_refl]; cbv zeta; case_match; by rewrite lookup_insert_ne.
Qed.

Lemma feedback_step display c f now s :
  c !! display = Some s -> (fb_display f = display -> fb_stream_id f = stream_id s) ->
  exists s', (on_feedback c f now).2 !! display = Some s' /\ calm s s'.
Proof.
  intros Hs Hk; unfold on_feedback; case_match; [eauto using calm_refl|].
  destruct (decide (fb_display f = display)) as [Hd|Hd].
  - rewrite Hd, Hs; cbn [unwrap_or]; rewrite (Hk Hd), Z.eqb_refl; cbn [negb].
    pose proof (feedback_state_calm s f now) as Hc; destruct (feedback_state s f now) as [b s1].
    exists s1; cbn [snd]; by rewrite lookup_insert_eq.
  - exists s; split; [|apply calm_refl]; cbv zeta.
    destruct (feedback_state _ f now); cbn [snd]; by rewrite lookup_insert_ne.
Qed.

Lemma poll_step display c now dly s :
  c !! display = Some s ->
  exists s', (poll_recovery c now dly).2 !! display = Some s' /\
    display_step display now (poll_recovery c now dly).1 s s'.
Proof.
  intros Hs; exists (poll_display display s now dly).2; unfold poll_recovery; cbn [fst snd].
  rewrite map_lookup_imap, Hs; split; [done|].
  assert (forall a, a ∈ omap (fun '(dp, s) => (poll_display dp s now dly).1) (map_to_list c) ->
    a_display a = display -> (poll_display display s now dly).1 = Some a) as Huniq.
  { intros a ([dp sp] & Hin & Hp)%list_elem_of_omap Hda.
    apply elem_of_map_to_list in Hin; pose proof (poll_display_outcome dp sp now dly) as Ho.
    rewrite Hp in Ho; destruct Ho as [Hdp _]; assert (dp = display) as -> by congruence.
    rewrite Hs in Hin; injection Hin as <-; exact Hp. }
  pose proof (poll_display_outcome display s now dly) as Ho.
  destruct (poll_display display s now dly).1 as [a|] eqn:Ea.
  - right; exists a; split; [exact Ho|]; intros a' Ha' Hd'; specialize (Huniq a' Ha' Hd'); congruence.
  - left; split; [exact Ho|]; intros a' Ha' Hd'; specialize (Huniq a' Ha' Hd'); congruence.
Qed.

(** A request changes the display it names and asks for it only. *)
Lemma request_spec c r now dly o c' :
  on_reference_refresh_request c r now dly = (o, c') ->
  (exists e, o = inl e /\ c' = c) \/
  (exists s s' oa, c !! req_display r = Some s /\ o = inr oa /\ c' = <[req_display r := s']> c /\
     outcome (req_display r) now oa s s').
Proof.
  unfold on_reference_refresh_request; case_match; [intros [= <- <-]; eauto|].
  destruct (c !! req_display r) as [s|] eqn:Es; [|intros [= <- <-]; eauto].
  case_match; [intros [= <- <-]; eauto|]; case_match; [intros [= <- <-]; eauto|]; cbv zeta.
  match goal with |- context [issue_recovery ?d s now dly ?st] =>
    pose proof (issue_recovery_outcome d s now dly st) as Ho; destruct (issue_recovery d s now dly st) as [oa s1] end.
  intros [= <- <-]; right; exists s, s1, oa; done.
Qed.

Lemma refresh_step display x r now dly quic s effs x' :
  video_delivery x !! display = Some s ->
  handle_video_reference_refresh x r now dly quic = (effs, x') ->
  exists s', video_delivery x' !! display = Some s' /\ display_step display now (recoveries effs) s s'.
Proof.
  intros Hs; unfold handle_video_reference_refresh, snapshot_display.
  set (c := video_delivery x) in *.
  destruct (on_reference_refresh_request c r now dly) as [o c1] eqn:Eo; cbv zeta.
  set (loss := if _ && _ then _ else []).
  assert (recoveries loss = []) as Hl by (unfold loss; by case_match).
  clearbody loss; apply request_spec in Eo as [(e & -> & ->)|(sr & s1 & oa & Hsr & -> & -> & Ho)].
  { intros [= <- <-]; exists s; rewrite Hl; split; [done|apply untouched; set_solver]. }
  assert (forall b, (forall a, oa = Some a -> b = [a] \/ b = []) -> (oa = None -> b = []) ->
    exists s', <[req_display r := s1]> c !! display = Some s' /\ display_step display now b s s') as Hmain.
  { intros b Hb Hnone; destruct (decide (req_display r = display)) as [Hd|Hd].
    - rewrite Hd in *; rewrite Hs in Hsr; injection Hsr as <-; exists s1; rewrite lookup_insert_eq; split; [done|].
      destruct oa as [a|]; [right; exists a; split; [exact Ho|]|left; split; [exact Ho|rewrite Hnone by done; set_solver]].
      intros a' Ha' _; destruct (Hb a eq_refl) as [-> | ->]; set_solver.
    - exists s; rewrite lookup_insert_ne by done; split; [done|]; apply untouched; intros a' Ha' Hd'.
      destruct oa as [a|]; [|rewrite Hnone in Ha' by done; set_solver].
      destruct (Hb a eq_refl) as [-> | ->]; [|set_solver].
      apply list_elem_of_singleton in Ha' as ->; destruct Ho as [Hda _]; congruence. }
  assert (forall a, recoveries (loss ++ [RefreshReference a]) = [a]) as Hla
    by (intros a; unfold recoveries in *; rewrite omap_app, Hl; done).
  destruct oa as [a|]; [|intros [= <- <-]; rewrite Hl; apply Hmain; done].
  destruct quic as [st|]; [|intros [= <- <-]; rewrite Hla; apply Hmain; [intros ? [= <-]; by left|done]].
  destruct (should_coalesce_quic_strict_refresh _ _);
    [intros [= <- <-]; rewrite Hl; apply Hmain; [by right|done]|].
  destruct (should_suppress_quic_advisory_refresh _ _ _ _ _); intros [= <- <-];
    [|rewrite Hla; apply Hmain; [intros ? [= <-]; by left|done]].
  rewrite Hl; exists s; rewrite Hsr; cbn; split; [|apply untouched; set_solver].
  destruct (decide (req_display r = display)) as [Hd|Hd].
  - rewrite Hd in *; rewrite lookup_insert_eq; congruence.
  - by rewrite !lookup_insert_ne.
Qed.

Lemma capability_delivery x b :
  video_delivery (set_video_feedback_capability x b).2 = video_delivery x /\
  recoveries (set_video_feedback_capability x b).1 = [].
Proof. unfold set_video_feedback_capability; cbv zeta; by case_bool_decide. Qed.

(** Feedback is dropped, or it is passed to the controller. *)
Lemma handle_feedback_spec x f now effs x' :
  handle_video_feedback x f now = (effs, x') ->
  recoveries effs = [] /\
  (x' = x \/ (valid_video_feedback f = true /\ video_delivery x' = (on_feedback (video_delivery x) f now).2)).
Proof.
  unfold handle_video_feedback.
  destruct (valid_video_feedback f); cbn [negb]; [|intros [= <- <-]; auto]; cbv zeta.
  case_match; [intros [= <- <-]; auto|]; case_match; [intros [= <- <-]; auto|].
  pose proof (capability_delivery x true) as [Hd Hr].
  destruct (set_video_feedback_capability x true) as [cap x1]; cbn [fst snd] in Hd, Hr.
  cbn [video_delivery set_field]; rewrite Hd.
  destruct (on_feedback (video_delivery x) f now) as [first c]; intros [= <- <-]; split; [|by right].
  unfold recoveries in *; rewrite omap_app, Hr; by destruct first.
Qed.

Lemma recoveries_map acts : recoveries (map RefreshReference acts) = acts.
Proof. induction acts as [|a l IH]; [done|]; unfold recoveries in *; cbn; by rewrite IH. Qed.

Lemma perform_step display x k now effs x' s :
  video_delivery x !! display = Some s -> keeps_stream display (stream_id s) k ->
  perform x k now = (effs, x') ->
  exists s', video_delivery x' !! display = Some s' /\ display_step display now (recoveries effs) s s'.
Proof.
  intros Hs Hk; destruct k as [f|f|dly|r dly quic|b]; cbn [perform].
  - intros [= <- <-]; unfold frame_sent; destruct (video_feedback_capable x);
      [|exists s; split; [done|apply untouched; set_solver]].
    destruct (sent_step display _ f now s Hs Hk) as (s' & H1 & H2).
    exists s'; split; [done|left; split; [done|set_solver]].
  - intros [Hr [->|[_ Hx]]]%handle_feedback_spec; rewrite Hr;
      [exists s; split; [done|apply untouched; set_solver]|].
    destruct (feedback_step display _ f now s Hs Hk) as (s' & H1 & H2).
    exists s'; rewrite Hx; split; [done|left; split; [done|set_solver]].
  - unfold delivery_tick; destruct (video_feedback_capable x);
      [|intros [= <- <-]; exists s; split; [done|apply untouched; set_solver]].
    destruct (poll_step display _ now dly s Hs) as (s' & H1 & H2).
    destruct (poll_recovery (video_delivery x) now dly) as [acts c]; intros [= <- <-].
    rewrite recoveries_map; eauto.
  - by apply refresh_step.
  - intros Hp; pose proof (capability_delivery x b) as [Hd Hr]; rewrite Hp in Hd, Hr; cbn [fst snd] in Hd, Hr.
    exists s; rewrite Hd, Hr; split; [done|apply untouched; set_solver].
Qed.

(** ** Pacing *)

(** [l] lists calls in order, none before [t]. *)
Fixpoint ordered (t : instant) (l : list (Call * instant)) : Prop :=
  match l with
  | [] => True
  | (_, now) :: l => t <= now /\ ordered now l
  end.

Definition performs (x : Session) (l : list (Call * instant)) : Session :=
  foldl (fun x k => (perform x k.1 k.2).2) x l.

(** What holds of a display since the action [a1] of time [t1]. *)
Definition since_action (t1 : instant) (a1 : VideoRecoveryAction) (s : VideoDeliveryState) : Prop :=
  stream_id s = a_stream_id a1 /\
  (exists l, last_refresh_at s = Some l /\ t1 <= l) /\
  a_recovery_generation a1 <= recovery_generation s /\
  (recovery_generation s = a_recovery_generation a1 ->
   recovery_target_frame_id s = None \/ a_recovery_reissue a1 <= recovery_reissues s \/
   a_recovery_generation a1 = u64_max).

(** The pace between the action [a1] and a later one. *)
Definition paced (t1 : instant) (a1 : VideoRecoveryAction) (t2 : instant) (a2 : VideoRecoveryAction) : Prop :=
  a_stream_id a2 = a_stream_id a1 /\ 1000000000 <= t2 - t1 /\ a_recovery_reissue a2 <= 2 /\
  (a_recovery_generation a1 < a_recovery_generation a2 \/ a_recovery_generation a1 = u64_max \/
   (a_recovery_generation a2 = a_recovery_generation a1 /\ 3000000000 <= t2 - t1 /\
    a_recovery_reissue a1 < a_recovery_reissue a2)).

Lemma asked_since display now a s s' :
  asked display now a s s' -> since_action now a s'.
Proof.
  intros (_ & Hst & H1 & H2 & H3 & H4 & _); split_and!; [congruence|exists now; split; [done|lia]|lia|].
  intros _; right; left; lia.
Qed.

Lemma calm_since t1 a1 s s' : since_action t1 a1 s -> calm s s' -> since_action t1 a1 s'.
Proof.
  intros (A & B & C & D) (E & F & G & H); split_and!; [congruence|by rewrite F|lia|].
  rewrite G; intros Hg; specialize (D Hg); destruct H as [H|[H1 H2]]; [by left|].
  rewrite H1, H2; exact D.
Qed.

Lemma asked_paced t1 a1 display now a s s' :
  since_action t1 a1 s -> asked display now a s s' -> a_recovery_generation a1 <= u64_max ->
  paced t1 a1 now a /\ (t1 <= now -> since_action t1 a1 s').
Proof.
  intros (A & (l & Hl & Htl) & C & D) (_ & Hst & H1 & H2 & H3 & H4 & H5 & H6 & H7) Hmax.
  specialize (H6 l Hl); unfold since in H6.
  assert (1000000000 <= now - t1) by lia.
  destruct H7 as [[Hg Hr]|(Hg & Ht & Hr & H7)].
  - assert (a_recovery_generation a1 < a_recovery_generation a \/ a_recovery_generation a1 = u64_max) as Hlt
      by (unfold sat_add in Hg; lia).
    split; [split_and!; [congruence|lia|lia|tauto]|].
    intros Htn; split_and!; [congruence|exists now; done| |]; rewrite H3; [unfold sat_add in Hg; lia|].
    intros Heq; right; right; lia.
  - specialize (H7 l Hl); unfold since in H7.
    assert (a_recovery_generation a1 < a_recovery_generation a \/ a_recovery_generation a1 = u64_max \/
      (a_recovery_generation a = a_recovery_generation a1 /\ 3000000000 <= now - t1 /\
       a_recovery_reissue a1 < a_recovery_reissue a)) as Hlt.
    { destruct (decide (recovery_generation s = a_recovery_generation a1)) as [He|He]; [|left; lia].
      destruct (D He) as [D1|[D1|D1]]; [done|right; right; split_and!; lia|auto]. }
    split; [split_and!; [congruence|lia|lia|exact Hlt]|].
    intros Htn; split_and!; [congruence|exists now; done| |]; rewrite H3; [lia|].
    intros Heq; destruct (D ltac:(lia)) as [D1|[D1|D1]]; [done|right; left; lia|auto].
Qed.

Lemma performs_since t1 a1 display x l s t :
  since_action t1 a1 s -> video_delivery x !! display = Some s -> t1 <= t -> ordered t l ->
  a_recovery_generation a1 <= u64_max ->
  Forall (fun k => keeps_stream display (a_stream_id a1) k.1) l ->
  exists s', video_delivery (performs x l) !! display = Some s' /\ since_action t1 a1 s'.
Proof.
  revert x s t; induction l as [|[k now] l IH]; intros x s t Hs Hc Ht Ho Hmax Hk; [eauto|].
  destruct Ho as [Hn Ho]; apply Forall_cons in Hk as [Hk1 Hk]; cbn [fst] in Hk1.
  unfold performs; cbn [foldl fst snd]; destruct (perform x k now) as [effs x1] eqn:E; cbn [snd].
  rewrite <- (proj1 Hs) in Hk1.
  destruct (perform_step display x k now effs x1 s Hc Hk1 E) as (s1 & Hs1 & [[Hcalm _]|(a & Ha & _)]).
  - eapply (IH x1 s1 now); [by eapply calm_since|done|lia|done..].
  - destruct (asked_paced _ _ _ _ _ _ _ Hs Ha Hmax) as [_ Hnext].
    eapply (IH x1 s1 now); [apply Hnext; lia|done|lia|done..].
Qed.

Lemma ordered_app t l l' : ordered t (l ++ l') -> ordered t l.
Proof. revert t; induction l as [|[k now] l IH]; intros t; [done|]; intros [? ?]; split; auto. Qed.

(** Recovery requests for a display are paced: after one, whatever frames
    are sent, feedback and requests arrive and polls are made, as long as the
    stream stays the same, the next comes at least a second later; it starts a
    new recovery, or it repeats the same one at least three seconds later with
    a higher repetition number, of which there are two. *)
Theorem delivery_recovery_paced display x0 k1 t1 effs1 x1 a1 l k2 t2 effs2 x2 a2 s0 :
  video_delivery x0 !! display = Some s0 -> 0 <= recovery_generation s0 <= u64_max ->
  keeps_stream display (stream_id s0) k1 ->
  perform x0 k1 t1 = (effs1, x1) -> a1 ∈ recoveries effs1 -> a_display a1 = display ->
  ordered t1 (l ++ [(k2, t2)]) ->
  Forall (fun k => keeps_stream display (stream_id s0) k.1) (l ++ [(k2, t2)]) ->
  perform (performs x1 l) k2 t2 = (effs2, x2) -> a2 ∈ recoveries effs2 -> a_display a2 = display ->
  paced t1 a1 t2 a2.
Proof.
  intros Hs0 Hg Hk1 E1 Ha1 Hd1 Ho Hk E2 Ha2 Hd2.
  destruct (perform_step display x0 k1 t1 effs1 x1 s0 Hs0 Hk1 E1) as (s1 & Hs1 & [[_ Hn]|(a & Ha & Hu)]);
    [by specialize (Hn _ Ha1)|].
  rewrite <- (Hu _ Ha1 Hd1) in Ha; clear Hu a.
  assert (a_recovery_generation a1 <= u64_max) as Hmax.
  { destruct Ha as (_&_&_&_&_&_&_&_&[[-> _]|(-> & _)]); [unfold sat_add; lia|lia]. }
  assert (a_stream_id a1 = stream_id s0) as Hst by (destruct Ha as (_&?&_); done).
  rewrite <- Hst in Hk; apply Forall_app in Hk as [Hkl Hk2]; apply Forall_cons in Hk2 as [Hk2 _]; cbn [fst] in Hk2.
  destruct (performs_since t1 a1 display x1 l s1 t1 (asked_since _ _ _ _ _ Ha) Hs1 ltac:(lia)
              (ordered_app _ _ _ Ho) Hmax Hkl) as (s2 & Hs2 & Hsince).
  rewrite <- (proj1 Hsince) in Hk2.
  destruct (perform_step display _ k2 t2 effs2 x2 s2 Hs2 Hk2 E2) as (s3 & _ & [[_ Hn]|(a & Ha' & Hu)]);
    [by specialize (Hn _ Ha2)|].
  rewrite <- (Hu _ Ha2 Hd2) in Ha'.
  by destruct (asked_paced _ _ _ _ _ _ _ Hsince Ha' Hmax).
Qed.

(** The hypotheses hold, and the pace is the one the code allows: the recovery
    asked for at 0.8 s is repeated at 3.8 s. *)
Definition paced_calls : list (Call * instant) :=
  [(Capability true, 0);
   (FrameSent {| frame_display := 0; frame_stream_id := 7; frame_id := 1 |}, 0);
   (Feedback {| fb_display := 0; fb_stream_id := 7; received_frame_id := 1; decoded_frame_id := 1;
                render_submitted_frame_id := 1; fb_dropped_frames := 0 |}, 10000000);
   (FrameSent {| frame_display := 0; frame_stream_id := 7; frame_id := 2 |}, 20000000);
   (FrameSent {| frame_display := 0; frame_stream_id := 7; frame_id := 5 |}, 700000000)].

Definition paced_example : Session := performs new_session paced_calls.

Definition paced_state : VideoDeliveryState :=
  unwrap_or (video_delivery paced_example !! 0) (new_delivery 0 0 0).
Definition paced_effects_1 := perform paced_example (Poll 100) 800000000.
Definition paced_effects_2 := perform (performs paced_effects_1.2 [(Poll 100, 1000000000)]) (Poll 100) 3800000000.
Definition paced_action (p : list Effect * Session) : VideoRecoveryAction :=
  match recoveries p.1 with
  | a :: _ => a
  | [] => {| a_display := 1; a_stream_id := 0; a_highest_sent_frame_id := 0; a_highest_decoded_frame_id := 0;
             a_highest_render_submitted_frame_id := 0; a_stalled_ms := 0; a_previous_phase := Healthy;
             a_recovery_generation := 0; a_recovery_reissue := 0 |}
  end.

Lemma delivery_recovery_paced_witness :
  paced 800000000 (paced_action paced_effects_1) 3800000000 (paced_action paced_effects_2) /\
  a_recovery_reissue (paced_action paced_effects_2) = 1.
Proof.
  split; [|vm_compute; reflexivity].
  apply (delivery_recovery_paced 0 paced_example (Poll 100) 800000000 paced_effects_1.1 paced_effects_1.2 _
           [(Poll 100, 1000000000)] (Poll 100) 3800000000 paced_effects_2.1 paced_effects_2.2 _ paced_state).
  - vm_compute; reflexivity.
  - vm_compute; split; discriminate.
  - exact I.
  - apply surjective_pairing.
  - apply list_elem_of_lookup; exists 0%nat; vm_compute; reflexivity.
  - vm_compute; reflexivity.
  - split; [vm_compute; discriminate|split; [vm_compute; discriminate|exact I]].
  - repeat constructor.
  - apply surjective_pairing.
  - apply list_elem_of_lookup; exists 0%nat; vm_compute; reflexivity.
  - vm_compute; reflexivity.
Defined.

(** ** Well-formed deliveries *)

(** What holds of the state of a display: the order of the frontiers, a running
    clock whenever the host is ahead of the decoder, and the recovery fields
    that go with the phase. *)
Record good (s : VideoDeliveryState) : Prop := {
  good_frontiers : 0 <= host_highest_sent_frame_id s <= highest_sent_frame_id s /\ highest_sent_frame_id s <= u64_max;
  good_decoded : 0 <= highest_render_submitted_frame_id s <= highest_decoded_frame_id s /\
                 highest_decoded_frame_id s <= highest_sent_frame_id s;
  good_clock : decode_pending_since s = None -> host_highest_sent_frame_id s <= highest_decoded_frame_id s;
  good_target : forall t, recovery_target_frame_id s = Some t ->
    0 < t <= host_highest_sent_frame_id s /\ feedback_observed s = true /\ phase s = Recovering;
  good_starting : phase s = Starting ->
    last_refresh_at s = None /\ highest_decoded_frame_id s = 0 /\ recovery_count s = 0;
  good_recovering : phase s = Recovering -> last_refresh_at s <> None;
  good_counters : 0 <= recovery_generation s <= u64_max /\ 0 <= recovery_count s <= u64_max /\
                  0 <= latest_stall_ms s <= u64_max;
  good_reissues : 0 <= recovery_reissues s <= 2 /\ (recovery_target_frame_id s = None -> recovery_reissues s = 0);
}.

Lemma good_new stream frame now : 0 <= frame <= u64_max -> good (new_delivery stream frame now).
Proof. split; simpl; try done; unfold u64_max in *; try lia; intros; lia. Qed.

Ltac good :=
  split; cbn in *; intros; unfold sat_add, u8_max in *;
  repeat match goal with
  | G : forall t, recovery_target_frame_id ?s = Some t -> _, H : recovery_target_frame_id ?s = Some ?t |- _ =>
      destruct (G t H) as ((?&?)&?&?); clear G
  | G : phase ?s = Starting -> _, H : phase ?s = Starting |- _ => destruct (G H) as (?&?&?); clear G
  | G : decode_pending_since ?s = None -> _, H : decode_pending_since ?s = None |- _ => specialize (G H)
  end;
  split_and?; intros; try done; try lia; try congruence; auto; try tauto.

Lemma good_issue display s now dly stalled :
  good s -> 0 <= stalled -> good (issue_recovery display s now dly stalled).2.
Proof.
  intros G Hst; pose proof (Z.div_pos stalled 1000000 Hst ltac:(lia)); unfold issue_recovery; cbv zeta.
  destruct (negb (feedback_observed s)) eqn:Ef.
  - destruct (refreshed_within _ _ _); [done|]; destruct G; good.
  - destruct (is_some_and (recovery_target_frame_id s) _) eqn:Et.
    + apply is_some_and_true in Et as (target & Htarget & _).
      destruct (since now (recovery_moved_at s) <? _); [done|].
      change VIDEO_DELIVERY_MAX_RECOVERY_REISSUES with 2.
      destruct (Z.leb_spec 2 (recovery_reissues s)); destruct G; good.
    + destruct (_ || _ || refreshed_within _ _ _) eqn:Eb; destruct G; [good|].
      cbn in Eb; apply orb_false_iff in Eb as [[_ E0]%orb_false_iff _].
      good; congruence || (apply negb_false_iff in Ef; simplify_eq; split_and?; done || lia).
Qed.

Lemma good_sent s f now :
  good s -> 0 < frame_id f <= u64_max ->
  good (let previous := host_highest_sent_frame_id s in
        let s := if previous <? frame_id f
                 then s <| host_highest_sent_frame_id := frame_id f |> <| last_sent_advance_at := now |> else s in
        let s := if (previous <? frame_id f) && (previous <=? highest_decoded_frame_id s)
                 then s <| decode_pending_since := Some now |> else s in
        s <| highest_sent_frame_id ::= fun h => Z.max h (frame_id f) |>).
Proof.
  intros G Hf; cbv zeta; destruct (Z.ltb_spec (host_highest_sent_frame_id s) (frame_id f)); cbn [andb].
  - cbn; destruct (Z.leb_spec (host_highest_sent_frame_id s) (highest_decoded_frame_id s)); destruct G; good.
  - destruct G; good.
Qed.

Lemma good_decoded_step s decoded now :
  good s -> highest_decoded_frame_id s < decoded <= highest_sent_frame_id s ->
  good (decode_progress s decoded now).
Proof.
  intros G Hd; unfold decode_progress; cbv zeta; cbn.
  destruct (recovery_target_frame_id s) as [t|] eqn:Et; cbn; rewrite ?Et; cbn;
    destruct (Z.leb_spec (host_highest_sent_frame_id s) decoded); try (destruct (Z.ltb_spec t decoded));
    destruct G; good; rewrite ?Et in *; cbn in *; simplify_eq; good.
Qed.

Lemma good_feedback s f now :
  good s -> valid_video_feedback f = true -> received_frame_id f <= u64_max ->
  0 <= render_submitted_frame_id f -> good (feedback_state s f now).2.
Proof.
  intros G Hv Hmax Hr; unfold valid_video_feedback in Hv.
  repeat (apply andb_true_iff in Hv as [Hv ?]); unfold feedback_state; cbv zeta; cbn [snd].
  set (s1 := if _ && _ then _ else _); set (s2 := s1 <| highest_sent_frame_id ::= _ |>).
  assert (good s2 /\ received_frame_id f <= highest_sent_frame_id s2) as [G2 Hs2].
  { unfold s2, s1; destruct (_ && _); cbn; (split; [destruct G; good|lia]). }
  clearbody s2; clear s1; set (s3 := if _ <? _ then _ else s2).
  assert (good s3 /\ highest_sent_frame_id s3 = highest_sent_frame_id s2 /\
          decoded_frame_id f <= highest_decoded_frame_id s3) as (G3 & Hs3 & Hd3).
  { unfold s3; destruct (Z.ltb_spec (highest_decoded_frame_id s2) (decoded_frame_id f)); [|done].
    split; [apply good_decoded_step; [done|lia]|].
    unfold decode_progress; cbv zeta; repeat case_match; cbn; lia. }
  clearbody s3; destruct G3; good.
Qed.

Lemma good_poll display s now dly : good s -> good (poll_display display s now dly).2.
Proof.
  intros G; unfold poll_display; cbv zeta.
  assert (forall a b, 0 <= since a b) by (unfold since; lia).
  repeat (case_match; [first [exact G|by apply good_issue]|]); by apply good_issue.
Qed.

(** The connection: each display is well formed and bears a stream, and the
    maps hold no more displays than allowed. *)
Definition session_good (x : Session) : Prop :=
  map_Forall (fun display s => 0 <= display /\ stream_id s <> 0 /\ good s) (video_delivery x) /\
  (size (video_delivery x) <= MAX_VIDEO_FEEDBACK_DISPLAYS)%nat /\
  (size (video_feedback_by_display x) <= MAX_VIDEO_FEEDBACK_DISPLAYS)%nat.

(** The message fields are in the range of their types. *)
Definition u64_call (k : Call) : Prop :=
  match k with
  | FrameSent f => 0 <= frame_id f <= u64_max
  | Feedback f => received_frame_id f <= u64_max /\ 0 <= render_submitted_frame_id f
  | _ => True
  end.

Lemma size_insert_room {A} (m : gmap Z A) k a (n : nat) :
  (size m <= n)%nat -> is_none (m !! k) && (n <=? size m)%nat = false -> (size (<[k := a]> m) <= n)%nat.
Proof.
  intros Hs Hr; destruct (m !! k) as [b|] eqn:E; cbn in Hr.
  - rewrite map_size_insert_Some by eauto; done.
  - rewrite map_size_insert_None by done; apply Nat.leb_gt in Hr; lia.
Qed.

Lemma session_sent x f now : session_good x -> u64_call (FrameSent f) -> session_good (frame_sent x f now).
Proof.
  intros (Hg & Hn & Hf) Hu; unfold frame_sent; destruct (video_feedback_capable x); [|done].
  split_and!; cbn; [| |done]; unfold on_frame_sent.
  - destruct (_ || _ || _) eqn:E; [done|]; destruct (_ && _); [done|]; cbv zeta.
    cbn in Hu; apply orb_false_iff in E as [[E1 E2]%orb_false_iff E3].
    assert (let s := unwrap_or (video_delivery x !! frame_display f)
      (new_delivery (frame_stream_id f) (frame_id f) now) in stream_id s <> 0 /\ good s) as [Hst Hgood].
    { destruct (video_delivery x !! frame_display f) as [s|] eqn:Es; cbn; [apply (Hg _ _ Es)|].
      split; [lia|apply good_new; lia]. }
    destruct (negb _); apply map_Forall_insert_2; try done; (split; [lia|]).
    + split; [cbn; lia|apply good_new; lia].
    + split; [cbn; by repeat case_match|apply good_sent; [done|lia]].
  - destruct (_ || _ || _); [done|]; destruct (is_none _ && _) eqn:Er; [done|].
    cbv zeta; destruct (negb _); by apply size_insert_room.
Qed.

Lemma session_feedback x f now :
  session_good x -> u64_call (Feedback f) -> session_good (handle_video_feedback x f now).2.
Proof.
  intros (Hg & Hn & Hf) [Hmax Hr]; unfold handle_video_feedback.
  destruct (valid_video_feedback f) eqn:Ev; cbn [negb]; [|done]; cbv zeta.
  destruct (is_some_and _ _); [done|]; destruct (is_none _ && _) eqn:Ed; [done|].
  pose proof (capability_delivery x true) as [Hd _].
  assert (video_feedback_by_display (set_video_feedback_capability x true).2 = video_feedback_by_display x) as Hm
    by (unfold set_video_feedback_capability; cbv zeta; by case_bool_decide).
  destruct (set_video_feedback_capability x true) as [cap x1]; cbn [snd] in Hd, Hm.
  cbn [video_delivery set_field]; rewrite Hd; destruct (on_feedback _ f now) as [first c] eqn:Eo.
  assert (size (<[fb_display f := {| feedback := f; last_log :=
    if log_feedback (video_feedback_by_display x !! fb_display f) f now then now
    else match video_feedback_by_display x !! fb_display f with Some d => last_log d | None => now end |}]>
    (video_feedback_by_display x)) <= MAX_VIDEO_FEEDBACK_DISPLAYS)%nat by by apply size_insert_room.
  unfold on_feedback in Eo; destruct (is_none (video_delivery x !! _) && _) eqn:Er.
  { injection Eo as <- <-; split_and!; cbn; rewrite ?Hm; done. }
  set (s := unwrap_or _ _) in Eo; set (s1 := if negb _ then _ else s) in Eo.
  pose proof Ev as Ev'; unfold valid_video_feedback in Ev'; repeat (apply andb_true_iff in Ev' as [Ev' ?]).
  assert (stream_id s1 <> 0 /\ good s1) as [Hst Hgood].
  { assert (stream_id s <> 0 /\ good s) by
      (unfold s; destruct (video_delivery x !! fb_display f) as [z|] eqn:Es; cbn;
         [apply (Hg _ _ Es)|split; [lia|by apply good_new]]).
    unfold s1; destruct (negb _); [split; [cbn; lia|by apply good_new]|done]. }
  clearbody s1; pose proof (good_feedback s1 f now Hgood Ev Hmax Hr) as Hgf.
  pose proof (feedback_state_calm s1 f now) as [Hst' _].
  destruct (feedback_state s1 f now) as [fr s2]; injection Eo as <- <-; cbn [snd] in *.
  split_and!; cbn; [|by apply size_insert_room|by rewrite Hm].
  apply map_Forall_insert_2; [|done]; split_and!; [lia|congruence|done].
Qed.

Lemma outcome_stream display now o s s' : outcome display now o s s' -> stream_id s' = stream_id s.
Proof. destruct o; [intros (_ & _ & ? & _)|intros (? & _)]; done. Qed.

Lemma session_tick x now dly : session_good x -> session_good (delivery_tick x now dly).2.
Proof.
  intros (Hg & Hn & Hf); unfold delivery_tick; destruct (video_feedback_capable x); [|done].
  unfold poll_recovery; split_and!; cbn; [| |done].
  - intros dp s' Hs'; rewrite map_lookup_imap in Hs'.
    destruct (video_delivery x !! dp) as [s|] eqn:Es; [|done]; injection Hs' as <-.
    destruct (Hg _ _ Es) as (? & ? & ?); split_and!; [done| |by apply good_poll].
    by rewrite (outcome_stream _ _ _ _ _ (poll_display_outcome dp s now dly)).
  - rewrite <- size_dom, (dom_imap_L (M := gmap Z) _ _ (dom (video_delivery x))), size_dom; [done|].
    intros i; rewrite elem_of_dom; unfold is_Some; split; [intros [s Hs]; eauto|intros (s & Hs & _); eauto].
Qed.

Lemma session_request x r now dly quic :
  session_good x -> session_good (handle_video_reference_refresh x r now dly quic).2.
Proof.
  intros (Hg & Hn & Hf); unfold handle_video_reference_refresh, snapshot_display.
  destruct (on_reference_refresh_request (video_delivery x) r now dly) as [o c1] eqn:Eo; cbv zeta.
  assert (session_good (x <| video_delivery := c1 |>)) as H1.
  { unfold on_reference_refresh_request in Eo; case_match; [by injection Eo as <- <-|].
    destruct (video_delivery x !! req_display r) as [s|] eqn:Es; [|by injection Eo as <- <-].
    case_match; [by injection Eo as <- <-|]; case_match; [by injection Eo as <- <-|]; cbv zeta in Eo.
    match type of Eo with context [issue_recovery ?d s now dly ?st] =>
      pose proof (outcome_stream _ _ _ _ _ (issue_recovery_outcome d s now dly st)) as Hst;
      assert (good (issue_recovery d s now dly st).2) as Hgood by
        (apply good_issue; [apply (Hg _ _ Es)|unfold since; lia]);
      destruct (issue_recovery d s now dly st) as [oa s1] end.
    injection Eo as <- <-; destruct (Hg _ _ Es) as (? & ? & _); cbn [snd] in *.
    split_and!; cbn; [|rewrite map_size_insert_Some by eauto; done|done].
    apply map_Forall_insert_2; [|done]; split_and!; congruence. }
  destruct o as [e|[a|]]; [exact H1| |exact H1]; destruct quic as [st|]; [|exact H1].
  destruct (should_coalesce_quic_strict_refresh _ _); [exact H1|].
  destruct (should_suppress_quic_advisory_refresh _ _ _ _ _); [|exact H1].
  apply request_spec in Eo as [(e & [=] & _)|(sr & s1 & oa & Hsr & _ & -> & _)].
  rewrite Hsr; split_and!; cbn; [|rewrite !map_size_insert_Some by (try rewrite lookup_insert_eq; eauto); done|done].
  rewrite insert_insert_eq; apply map_Forall_insert_2; [apply (Hg _ _ Hsr)|done].
Qed.

(** Whatever is sent, received and polled, at most 32 displays are kept;
    on each the frontiers are ordered (rendered, decoded, sent), the decode
    clock runs whenever the host is ahead of the decoder, a recovery is in
    progress only after feedback and towards a frame that was sent, a display
    is starting only until a frame is decoded or a recovery is asked for, and
    a recovery has been repeated at most twice. *)
Theorem delivery_well_formed l :
  Forall (fun k => u64_call k.1) l -> session_good (performs new_session l).
Proof.
  intros Hl; unfold performs.
  assert (session_good new_session) as H0 by
    (split_and!; [apply map_Forall_empty|unfold new_session; cbn; rewrite map_size_empty; apply Nat.le_0_l..]).
  revert H0; generalize new_session; induction Hl as [|[k now] l Hk Hl IH]; intros x Hx; [done|]; cbn [foldl].
  apply IH; destruct k as [f|f|dly|r dly quic|b]; cbn [perform fst snd] in *.
  - by apply session_sent.
  - by apply session_feedback.
  - by apply session_tick.
  - by apply session_request.
  - unfold set_video_feedback_capability; cbv zeta; case_bool_decide; done.
Qed.

Lemma delivery_well_formed_witness :
  session_good (performs new_session (paced_calls ++ [(Poll 100, 800000000)])) /\ phase paced_state = Healthy.
Proof.
  split; [|vm_compute; reflexivity].
  apply delivery_well_formed; repeat constructor; vm_compute; discriminate.
Defined.
