(* ===== verification/ClipboardTypes.v ===== *)
(** * Types shared by the file clipboard

    The error type and the messages of src/libs/clipboard/src/lib.rs, the
    outcome of a fallible call (a value, an error, or a panic of the thread),
    little-endian integers as [bytes::Buf] and [BufMut] read and write them, and
    what the code uses of the standard library's Unix paths.  A Rust string or
    path is the list of its Unicode scalar values; a path that is not valid
    Unicode is out of scope. *)

From S2P Require Import Prelude.

Abbreviation text := (list Z) (only parsing).

(** ** Outcomes *)

Inductive outcome (E A : Type) := Ok (a : A) | Err (e : E) | Panic.
Arguments Ok {E A} _.
Arguments Err {E A} _.
Arguments Panic {E A}.

#[export] Instance outcome_ret {E} : MRet (outcome E) := fun _ a => Ok a.
#[export] Instance outcome_bind {E} : MBind (outcome E) := fun A B f m =>
  match m with Ok a => f a | Err e => Err e | Panic => Panic end.

(** [o.ok_or(e)?] *)
Definition ok_or {E A} (o : option A) (e : E) : outcome E A :=
  match o with Some a => Ok a | None => Err e end.

Lemma bind_ok {E A B} (m : outcome E A) (f : A -> outcome E B) b :
  m ≫= f = Ok b <-> exists a, m = Ok a /\ f a = Ok b.
Proof. destruct m; cbn; naive_solver. Qed.

(** [std::io::Error] by its kind; an error of the system call by its number. *)
Inductive io_error := NotFound | InvalidData | InvalidInput | UnexpectedEof | TimedOut | Other | Os (code : Z).

Inductive CliprdrError :=
| CliprdrName
| CliprdrInit
| CliprdrOutOfMemory
| ClipboardInternalError
| ClipboardOccupied
| ConversionFailure
| OpenClipboard
| FileError (path : text) (err : io_error)
| InvalidRequest (description : string)
| CommonError (description : string)
| Unknown (code : Z).

Abbreviation result := (outcome CliprdrError) (only parsing).

Inductive ClipboardFile :=
| NotifyCallback (type title body : string)
| MonitorReady
| FormatList (format_list : list (Z * string))
| FormatListResponse (msg_flags : Z)
| FormatDataRequest (requested_format_id : Z)
| FormatDataResponse (msg_flags : Z) (format_data : list Z)
| FileContentsRequest (stream_id list_index dw_flags n_position_low n_position_high cb_requested : Z)
    (have_clip_data_id : bool) (clip_data_id : Z)
| FileContentsResponse (msg_flags stream_id : Z) (requested_data : list Z)
| TryEmpty
| Files (files : list (text * Z)).

(** ** Little-endian integers *)

Fixpoint le_bytes (n : nat) (z : Z) : list Z :=
  match n with
  | O => []
  | S n => z mod 256 :: le_bytes n (z / 256)
  end.

Fixpoint of_le (l : list Z) : Z :=
  match l with
  | [] => 0
  | b :: l => b + 256 * of_le l
  end.

(** [Buf::advance] and [Buf::get_uN_le], which panic past the end. *)
Definition advance {E} (n : nat) (buf : list Z) : outcome E (list Z) :=
  if (n <=? length buf)%nat then Ok (drop n buf) else Panic.

Definition get_le {E} (n : nat) (buf : list Z) : outcome E (Z * list Z) :=
  if (n <=? length buf)%nat then Ok (of_le (take n buf), drop n buf) else Panic.

Lemma length_le_bytes n z : length (le_bytes n z) = n.
Proof. revert z; induction n; intros; cbn; auto. Qed.

Lemma of_le_bytes n z : of_le (le_bytes n z) = z mod 256 ^ Z.of_nat n.
Proof.
  revert z; induction n as [|n IH]; intros z; [by rewrite Z.mod_1_r|].
  cbn [le_bytes of_le]; rewrite IH, Nat2Z.inj_succ, Z.pow_succ_r by lia.
  rewrite (Z.rem_mul_r z 256) by lia; lia.
Qed.

Definition is_byte (b : Z) : Prop := 0 <= b < 256.

Lemma le_bytes_byte n z : Forall is_byte (le_bytes n z).
Proof.
  revert z; induction n; intros z; constructor; [|done].
  apply Z.mod_pos_bound; lia.
Qed.

Lemma of_le_range l : Forall is_byte l -> 0 <= of_le l < 256 ^ Z.of_nat (length l).
Proof.
  induction 1 as [|b l Hb Hl IH]; [done|]; cbn [of_le length].
  rewrite Nat2Z.inj_succ, Z.pow_succ_r by lia; unfold is_byte in Hb; lia.
Qed.

Lemma get_le_app {E} n l r : length l = n -> @get_le E n (l ++ r) = Ok (of_le l, r).
Proof.
  intros <-; unfold get_le; rewrite length_app, take_app_length, drop_app_length.
  destruct (Nat.leb_spec (length l) (length l + length r)); [done|lia].
Qed.

Lemma get_le_bytes {E} n z r : @get_le E n (le_bytes n z ++ r) = Ok (z mod 256 ^ Z.of_nat n, r).
Proof. by rewrite get_le_app, of_le_bytes by apply length_le_bytes. Qed.

Lemma advance_app {E} n l r : length l = n -> @advance E n (l ++ r) = Ok r.
Proof.
  intros <-; unfold advance; rewrite length_app, drop_app_length.
  destruct (Nat.leb_spec (length l) (length l + length r)); [done|lia].
Qed.

(** ** Paths

    [components] is the sequence [Path::components] yields on Unix: empty
    segments and inner [.] are dropped.  Two paths are equal, and hash alike,
    when their components are. *)

Definition slash : Z := 47.
Definition dot : Z := 46.
Definition backslash : Z := 92.

Inductive component := RootDir | CurDir | ParentDir | Normal (name : text).
#[export] Instance component_eq_dec : EqDecision component.
Proof. solve_decision. Defined.
#[export] Instance component_countable : Countable component.
Proof.
  refine (inj_countable' (fun c => match c with RootDir => inl 0%nat | CurDir => inl 1%nat | ParentDir => inl 2%nat
                                            | Normal n => inr n end)
            (fun x => match x with inl 0%nat => RootDir | inl 1%nat => CurDir | inl _ => ParentDir
                                 | inr n => Normal n end) _).
  by intros [].
Defined.

Abbreviation Path := (list component) (only parsing).

(** The segments between the separators, never none. *)
Fixpoint segments (p : text) : list text :=
  match p with
  | [] => [[]]
  | c :: p => if c =? slash then [] :: segments p
              else match segments p with s :: l => (c :: s) :: l | [] => [[c]] end
  end.

Fixpoint join_segments (l : list text) : text :=
  match l with
  | [] => []
  | [s] => s
  | s :: l => s ++ slash :: join_segments l
  end.

(** A segment that is no component of the body of a path. *)
Definition skipped (s : text) : bool := bool_decide (s = []) || bool_decide (s = [dot]).

Definition body_component (s : text) : option component :=
  if skipped s then None else if bool_decide (s = [dot; dot]) then Some ParentDir else Some (Normal s).

Definition rooted (p : text) : bool := match p with c :: _ => c =? slash | [] => false end.

Definition components (p : text) : Path :=
  if rooted p then RootDir :: omap body_component (segments p)
  else match segments p with
       | s :: l => if bool_decide (s = [dot]) then CurDir :: omap body_component l
                   else omap body_component (s :: l)
       | [] => []
       end.

(** [Path::parent]: there is none for the root and for the empty path. *)
Definition parent (p : text) : option Path :=
  match last (components p) with
  | None | Some RootDir => None
  | Some _ => Some (removelast (components p))
  end.

Definition file_name (p : text) : option text :=
  match last (components p) with Some (Normal n) => Some n | _ => None end.

(** [Path::strip_prefix]: what is left of the text behind the components of
    the prefix, without the separators around it. *)
Fixpoint drop_body (n : nat) (l : list text) : list text :=
  match n, l with
  | O, _ | _, [] => l
  | S n', s :: l => if skipped s then drop_body n l else drop_body n' l
  end.

Fixpoint trim_left (l : list text) : list text :=
  match l with
  | s :: l' => if skipped s then trim_left l' else l
  | [] => []
  end.

Definition trim_right (l : list text) : list text := reverse (trim_left (reverse l)).

Definition strip_prefix (p : text) (base : Path) : option text :=
  if negb (bool_decide (base `prefix_of` components p)) then None
  else
    match base with
    | [] => match segments p with
            | s :: l => Some (if rooted p then slash :: join_segments (trim_right l)
                              else join_segments (s :: trim_right l))
            | [] => Some []
            end
    | c :: base' =>
        let rest := match c, segments p with
                    | RootDir, l => drop_body (length base') l
                    | CurDir, _ :: l => drop_body (length base') l
                    | _, l => drop_body (length base) l
                    end in
        Some (join_segments (trim_right (trim_left rest)))
    end.

(** [dir.join(name)] for a relative name. *)
Definition join_name (dir name : text) : text :=
  match last dir with
  | None => name
  | Some c => if c =? slash then dir ++ name else dir ++ slash :: name
  end.

(** [s.replace(a, b)] for characters and [s.trim_end_matches(c)]. *)
Definition replace_char (a b : Z) (s : text) : text := map (fun c => if c =? a then b else c) s.

Fixpoint drop_while_eq (c : Z) (s : text) : text :=
  match s with
  | x :: s' => if x =? c then drop_while_eq c s' else s
  | [] => []
  end.

Definition trim_start_matches (c : Z) (s : text) : text := drop_while_eq c s.
Definition trim_end_matches (c : Z) (s : text) : text := reverse (drop_while_eq c (reverse s)).
