(* ===== verification/FileDescriptor.v ===== *)
(** * File descriptors of the file clipboard

    Models [FileDescription] with its parser (src/libs/clipboard/src/platform/
    unix/filetype.rs) and [LocalFile::as_bin] with the file list PDU
    (src/libs/clipboard/src/platform/unix/local_file.rs, serv_files.rs): the
    592-byte CLIPRDR file descriptors that announce copied files to the peer.
    The UTF-16 crate is a parameter ([Utf16]) with its documented laws and a
    concrete instance. *)

From S2P Require Import Prelude ClipboardTypes.

(** ** UTF-16, the [utf16string] crate *)

(** A Unicode scalar value. *)
Definition is_scalar (c : Z) : Prop := 0 <= c < 55296 \/ 57344 <= c < 1114112.
#[export] Instance is_scalar_dec c : Decision (is_scalar c).
Proof. unfold is_scalar; apply _. Defined.

(** [WString::<LE>::from(s).as_bytes()], and [WStr::from_utf16le(b)] followed by
    [to_utf8], [None] when the bytes are not valid. *)
Class Utf16 := {
  wstring_bytes : text -> list Z;
  wstr_to_utf8 : list Z -> option text;
}.

(** What the crate documents: bytes come in pairs, and what was encoded is
    decoded, also when zero code units follow, which are NUL characters. *)
Class Utf16Laws `{Utf16} := {
  wstring_bytes_even s : exists k, length (wstring_bytes s) = (2 * k)%nat;
  wstring_bytes_byte s : Forall is_byte (wstring_bytes s);
  wstr_decodes s k : Forall is_scalar s ->
    wstr_to_utf8 (wstring_bytes s ++ replicate (2 * k) 0) = Some (s ++ replicate k 0);
}.

(** ** Data *)

Definition FLAGS_FD_ATTRIBUTES : Z := 4.
Definition FLAGS_FD_SIZE : Z := 64.
Definition FLAGS_FD_LAST_WRITE : Z := 32.
Definition FLAGS_FD_PROGRESSUI : Z := 16384.
Definition FLAGS_FD_UNIX_MODE : Z := 8.
Definition BLOCK_SIZE : Z := 4 * 1024 * 1024.
Definition LDAP_EPOCH_DELTA : Z := 116444772610000000.
Definition PERM_READ : Z := 292.
Definition PERM_RW : Z := 420.
Definition PERM_SELF_RO : Z := 256.
Definition PERM_RWX : Z := 493.
Definition MAX_NAME_LEN : nat := 255.

Inductive FileType := File | Directory | Symlink.
#[export] Instance file_type_eq_dec : EqDecision FileType.
Proof. solve_decision. Defined.

(** Times are nanoseconds since the Unix epoch. *)
Record FileDescription := {
  conn_id : Z;
  fd_name : text;
  kind : FileType;
  atime : Z;
  last_modified : Z;
  last_metadata_changed : Z;
  creation_time : Z;
  fd_size : Z;
  fd_perm : Z;
}.

(** [handle] is the position of the open file. *)
Record LocalFile := {
  relative_root : Path;
  path : text;
  handle : option Z;
  offset : Z;
  name : text;
  size : Z;
  last_write_time : Z;
  is_dir : bool;
  perm : Z;
  read_only : bool;
  hidden : bool;
  system : bool;
  archive : bool;
  normal : bool;
}.

#[export] Instance eta_local_file : Eta LocalFile := fun f =>
  Build_LocalFile (relative_root f) (path f) (handle f) (offset f) (name f) (size f) (last_write_time f)
    (is_dir f) (perm f) (read_only f) (hidden f) (system f) (archive f) (normal f).

Section descriptor.
Context `{Utf16}.

(** ** Writing a descriptor *)

Definition file_attributes (f : LocalFile) : Z :=
  Z.lor (Z.lor (Z.lor (Z.lor (Z.lor (if read_only f then 1 else 0) (if hidden f then 2 else 0))
    (if system f then 4 else 0)) (if is_dir f then 16 else 0)) (if archive f then 32 else 0))
    (if normal f then 128 else 0).

Definition win32_time (f : LocalFile) : Z :=
  wrap_u64 (wrap_u64 (Z.max (last_write_time f) 0) / 100 + LDAP_EPOCH_DELTA).

(** The path the peer is told. *)
Definition relative_path (f : LocalFile) : text := unwrap_or (strip_prefix (path f) (relative_root f)) (path f).

Definition descriptor_flags : Z :=
  Z.lor (Z.lor (Z.lor (Z.lor FLAGS_FD_SIZE FLAGS_FD_LAST_WRITE) FLAGS_FD_ATTRIBUTES) FLAGS_FD_PROGRESSUI)
    FLAGS_FD_UNIX_MODE.

(** The buffer [as_bin] fills. *)
Definition record_bytes (f : LocalFile) : list Z :=
  let size_high := wrap_u32 (Z.shiftr (size f) 32) in
  let size_low := wrap_u32 (Z.land (size f) u32_max) in
  let wname := wstring_bytes (relative_path f) in
  le_bytes 4 descriptor_flags ++ replicate 32 0 ++ le_bytes 4 (file_attributes f) ++ replicate 12 0
  ++ le_bytes 4 (perm f) ++ le_bytes 8 (win32_time f) ++ le_bytes 4 size_high ++ le_bytes 4 size_low
  ++ wname ++ replicate (520 - length wname) 0.

(** The padding of a name longer than its block has a negative length, which
    panics. *)
Definition as_bin (f : LocalFile) : result (list Z) :=
  if (520 <? length (wstring_bytes (relative_path f)))%nat then Panic else Ok (record_bytes f).

(** [build_file_list_pdu] *)
Fixpoint as_bins (files : list LocalFile) : result (list Z) :=
  match files with
  | [] => Ok []
  | f :: files => b ← as_bin f; bs ← as_bins files; Ok (b ++ bs)
  end.

Definition file_list_pdu (files : list LocalFile) : result (list Z) :=
  bs ← as_bins files; Ok (le_bytes 4 (Z.of_nat (length files)) ++ bs).

(** ** Reading descriptors *)

Definition flag (flags mask : Z) : bool := negb (Z.land flags mask =? 0).

Definition choose_perm (from_unix normal readonly hidden directory : bool) (perm : Z) : Z :=
  if from_unix then perm
  else if normal then PERM_RWX
  else if readonly then PERM_READ
  else if hidden then PERM_SELF_RO
  else if directory then PERM_RWX
  else PERM_RW.

Definition write_time_of (valid : bool) (last_write_time : Z) : Z :=
  if valid && (LDAP_EPOCH_DELTA <=? last_write_time)
  then wrap_u64 ((last_write_time - LDAP_EPOCH_DELTA) * 100) else 0.

Definition parse_file_descriptor (bytes : list Z) (conn : Z) : result (FileDescription * list Z) :=
  '(flags, bytes) ← get_le 4 bytes;
  bytes ← advance 32 bytes;
  '(attributes, bytes) ← get_le 4 bytes;
  bytes ← advance 12 bytes;
  '(mode, bytes) ← get_le 4 bytes;
  let perm := mode mod 65536 in
  '(write_time, bytes) ← get_le 8 bytes;
  '(file_size_high, bytes) ← get_le 4 bytes;
  '(file_size_low, bytes) ← get_le 4 bytes;
  let block := bytes in
  bytes ← advance 520 bytes;
  wname ← ok_or (wstr_to_utf8 (take 520 block)) ConversionFailure;
  let from_unix := flag flags FLAGS_FD_UNIX_MODE in
  let valid_attributes := flag flags FLAGS_FD_ATTRIBUTES in
  if negb valid_attributes then Err (InvalidRequest "file description must have valid attributes")
  else
    let directory := flag attributes 16 in
    let perm := choose_perm from_unix (attributes =? 128) (flag attributes 1) (flag attributes 2) directory perm in
    let modified := write_time_of (flag flags FLAGS_FD_LAST_WRITE) write_time in
    Ok ({| conn_id := conn;
           fd_name := trim_end_matches 0 (replace_char backslash slash wname);
           kind := if directory then Directory else File;
           atime := modified; last_modified := modified; last_metadata_changed := modified;
           creation_time := modified;
           fd_size := wrap_u64 (Z.shiftl file_size_high 32 + file_size_low); fd_perm := perm |}, bytes).

Fixpoint parse_loop (count : nat) (data : list Z) (conn : Z) : result (list FileDescription) :=
  match count with
  | O => Ok []
  | S count =>
      '(desc, data) ← parse_file_descriptor data conn;
      files ← parse_loop count data conn;
      Ok (desc :: files)
  end.

Definition parse_file_descriptors (pdu : list Z) (conn : Z) : result (list FileDescription) :=
  if (length pdu <? 4)%nat then Err (InvalidRequest "file descriptor request with infficient length")
  else
    '(count, data) ← get_le 4 pdu;
    if (length data =? 0)%nat && (count =? 0) then Ok []
    else if negb (Z.of_nat (length data) =? 592 * count)
    then Err (InvalidRequest "file descriptor request with invalid length")
    else parse_loop (Z.to_nat count) data conn.

(** ** A reference reading

    The layout of a descriptor, by offsets. *)

Definition field (r : list Z) (off n : nat) : Z := of_le (take n (drop off r)).

Definition describe (conn : Z) (r : list Z) : result FileDescription :=
  wname ← ok_or (wstr_to_utf8 (take 520 (drop 72 r))) ConversionFailure;
  let flags := field r 0 4 in
  let attributes := field r 36 4 in
  if negb (flag flags FLAGS_FD_ATTRIBUTES) then Err (InvalidRequest "file description must have valid attributes")
  else
    let directory := flag attributes 16 in
    let modified := write_time_of (flag flags FLAGS_FD_LAST_WRITE) (field r 56 8) in
    Ok {| conn_id := conn; fd_name := trim_end_matches 0 (replace_char backslash slash wname);
          kind := if directory then Directory else File;
          atime := modified; last_modified := modified; last_metadata_changed := modified;
          creation_time := modified;
          fd_size := field r 64 4 * 4294967296 + field r 68 4;
          fd_perm := choose_perm (flag flags FLAGS_FD_UNIX_MODE) (attributes =? 128) (flag attributes 1)
                       (flag attributes 2) directory (field r 52 4 mod 65536) |}.

Definition record_at (pdu : list Z) (i : nat) : list Z := take 592 (drop (4 + 592 * i) pdu).

Definition read_pdu (conn : Z) (pdu : list Z) : result (list FileDescription) :=
  if (length pdu <? 4)%nat then Err (InvalidRequest "file descriptor request with infficient length")
  else
    let count := field pdu 0 4 in
    if Z.of_nat (length pdu) =? 4 + 592 * count
    then mapM (describe conn) (record_at pdu <$> seq 0 (Z.to_nat count))
    else Err (InvalidRequest "file descriptor request with invalid length").

(** ** The parser reads the layout *)

Lemma get_le_drop {E} n m (l rest : list Z) :
  (m + n <= length l)%nat ->
  @get_le E n (drop m l ++ rest) = Ok (field l m n, drop (m + n) l ++ rest).
Proof.
  intros Hl; unfold get_le, field; rewrite length_app, length_drop.
  destruct (Nat.leb_spec n (length l - m + length rest)); [|lia].
  rewrite take_app_le, drop_app_le, drop_drop by (rewrite length_drop; lia); done.
Qed.

Lemma advance_drop {E} n m (l rest : list Z) :
  (m + n <= length l)%nat -> @advance E n (drop m l ++ rest) = Ok (drop (m + n) l ++ rest).
Proof.
  intros Hl; unfold advance; rewrite length_app, length_drop.
  destruct (Nat.leb_spec n (length l - m + length rest)); [|lia].
  rewrite drop_app_le, drop_drop by (rewrite length_drop; lia); done.
Qed.

Lemma Forall_field l m n : Forall is_byte l -> (m + n <= length l)%nat -> 0 <= field l m n < 256 ^ Z.of_nat n.
Proof.
  intros Hl Hn; unfold field; pose proof (of_le_range (take n (drop m l))) as Hr.
  rewrite length_take, length_drop, Nat.min_l in Hr by lia; apply Hr.
  by apply Forall_take, Forall_drop.
Qed.

Lemma parse_one r rest conn :
  length r = 592%nat -> Forall is_byte r ->
  parse_file_descriptor (r ++ rest) conn = (d ← describe conn r; Ok (d, rest)).
Proof.
  intros Hl Hb; unfold parse_file_descriptor, describe.
  rewrite <- (drop_0 r) at 1.
  rewrite get_le_drop by lia; cbn [mbind outcome_bind].
  rewrite advance_drop by lia; cbn [mbind outcome_bind].
  rewrite get_le_drop by lia; cbn [mbind outcome_bind].
  rewrite advance_drop by lia; cbn [mbind outcome_bind].
  rewrite get_le_drop by lia; cbn [mbind outcome_bind].
  rewrite get_le_drop by lia; cbn [mbind outcome_bind].
  rewrite get_le_drop by lia; cbn [mbind outcome_bind].
  rewrite get_le_drop by lia; cbn [mbind outcome_bind].
  rewrite advance_drop by lia; cbn [mbind outcome_bind Nat.add].
  rewrite take_app_le by (rewrite length_drop; lia); cbv zeta.
  replace (drop 592 r) with (@nil Z) by (rewrite drop_ge; [done|lia]).
  destruct (wstr_to_utf8 _) as [w|]; [|done]; cbn [ok_or mbind outcome_bind app].
  destruct (flag _ FLAGS_FD_ATTRIBUTES); cbn [negb mbind outcome_bind]; [|done].
  pose proof (Forall_field r 64 4 Hb ltac:(lia)); pose proof (Forall_field r 68 4 Hb ltac:(lia)).
  change (256 ^ Z.of_nat 4) with 4294967296 in *.
  repeat f_equal; unfold wrap_u64; rewrite Z.shiftl_mul_pow2 by lia; change (2 ^ 32) with 4294967296.
  rewrite Z.mod_small; lia.
Qed.

Lemma parse_loop_spec n data rest conn :
  length data = (592 * n)%nat -> Forall is_byte data ->
  parse_loop n (data ++ rest) conn =
    mapM (describe conn) ((fun i => take 592 (drop (592 * i) data)) <$> seq 0 n).
Proof.
  revert data; induction n as [|n IH]; intros data Hl Hb; [done|].
  cbn [parse_loop]; rewrite <- (take_drop 592 data) at 1; rewrite <- app_assoc.
  rewrite parse_one by (first [rewrite length_take; lia|by apply Forall_take]).
  rewrite <- cons_seq, fmap_cons, <- fmap_S_seq, <- list_fmap_compose; cbn [mapM].
  rewrite Nat.mul_0_r, drop_0; destruct (describe conn (take 592 data)); cbn [mbind outcome_bind]; try done.
  rewrite IH by (first [rewrite length_drop; lia|by apply Forall_drop]).
  erewrite (list_fmap_ext (_ ∘ S)); [reflexivity|].
  intros i x _; cbn [compose]; unfold compose; rewrite drop_drop; f_equal; f_equal; lia.
Qed.

Lemma parse_reads_layout pdu conn :
  Forall is_byte pdu -> parse_file_descriptors pdu conn = read_pdu conn pdu.
Proof.
  intros Hb; unfold parse_file_descriptors, read_pdu.
  destruct (Nat.ltb_spec (length pdu) 4); [done|].
  rewrite <- (app_nil_r pdu) at 1; rewrite <- (drop_0 pdu) at 1.
  rewrite get_le_drop by lia; cbn [mbind outcome_bind Nat.add]; rewrite app_nil_r, length_drop.
  pose proof (Forall_field pdu 0 4 Hb ltac:(lia)) as Hc.
  replace (Z.of_nat (length pdu - 4)) with (Z.of_nat (length pdu) - 4) by lia; cbv zeta.
  destruct (Z.eqb_spec (Z.of_nat (length pdu)) (4 + 592 * field pdu 0 4)) as [Hl|Hl].
  - destruct (Nat.eqb_spec (length pdu - 4) 0) as [Hz|Hz]; cbn [andb].
    + assert (field pdu 0 4 = 0) as -> by lia; done.
    + destruct (Z.eqb_spec (Z.of_nat (length pdu) - 4) (592 * field pdu 0 4)); [|lia]; cbn [negb].
      rewrite <- (app_nil_r (drop 4 pdu)), parse_loop_spec by
        (first [rewrite length_drop; lia|by apply Forall_drop]).
      apply (f_equal (mapM _)), list_fmap_ext; intros i x _; unfold record_at; by rewrite drop_drop.
  - destruct (_ && _) eqn:E; [apply andb_true_iff in E as [E1%Nat.eqb_eq E2%Z.eqb_eq]; lia|].
    destruct (Z.eqb_spec (Z.of_nat (length pdu) - 4) (592 * field pdu 0 4)); [lia|done].
Qed.

Lemma describe_no_panic conn r : describe conn r <> Panic.
Proof. unfold describe; destruct (wstr_to_utf8 _); cbn; [|done]; by case_match. Qed.

(** A traversal stops at the first error. *)
Lemma mapM_outcome {E A B} (f : A -> outcome E B) l :
  (forall a, f a <> Panic) ->
  match mapM f l with
  | Ok bs => Forall2 (fun a b => f a = Ok b) l bs
  | Err e => exists l1 a l2 bs, l = l1 ++ a :: l2 /\ f a = Err e /\ Forall2 (fun a b => f a = Ok b) l1 bs
  | Panic => False
  end.
Proof.
  intros Hf; induction l as [|a l IH]; [constructor|]; cbn [mapM].
  destruct (f a) as [b|e|] eqn:Ea; cbn [mbind outcome_bind]; [|exists [], a, l, []; done|by apply (Hf a)].
  destruct (mapM f l) as [bs|e|]; cbn [mbind outcome_bind]; [constructor; done| |done].
  destruct IH as (l1 & a' & l2 & bs & -> & ? & ?); exists (a :: l1), a', l2, (b :: bs); auto.
Qed.

(** The parser of a received file list never panics, whatever the bytes:
    it returns one description per 592-byte record, each as the layout reads,
    exactly when the length is that of the announced count and every record is
    well formed; otherwise the error of the length, or of the first bad
    record. *)
Theorem descriptor_parser_total pdu conn :
  Forall is_byte pdu ->
  match parse_file_descriptors pdu conn with
  | Ok files => Z.of_nat (length pdu) = 4 + 592 * field pdu 0 4 /\ Z.of_nat (length files) = field pdu 0 4 /\
      forall i f, files !! i = Some f -> describe conn (record_at pdu i) = Ok f
  | Err e =>
      (e = InvalidRequest "file descriptor request with infficient length" /\ (length pdu < 4)%nat) \/
      (e = InvalidRequest "file descriptor request with invalid length" /\ (4 <= length pdu)%nat /\
       Z.of_nat (length pdu) <> 4 + 592 * field pdu 0 4) \/
      (Z.of_nat (length pdu) = 4 + 592 * field pdu 0 4 /\
       exists i, Z.of_nat i < field pdu 0 4 /\ describe conn (record_at pdu i) = Err e /\
         forall j, (j < i)%nat -> exists f, describe conn (record_at pdu j) = Ok f)
  | Panic => False
  end.
Proof.
  intros Hb; rewrite (parse_reads_layout _ _ Hb); unfold read_pdu.
  destruct (Nat.ltb_spec (length pdu) 4); [by left|]; cbv zeta.
  pose proof (Forall_field pdu 0 4 Hb ltac:(lia)) as Hc.
  destruct (Z.eqb_spec (Z.of_nat (length pdu)) (4 + 592 * field pdu 0 4)) as [Hl|]; [|right; left; done].
  pose proof (mapM_outcome (describe conn) (record_at pdu <$> seq 0 (Z.to_nat (field pdu 0 4)))
    (describe_no_panic conn)) as Hm.
  destruct (mapM _ _) as [files|e|]; [| |done].
  - pose proof (Forall2_length _ _ _ Hm) as Hn; rewrite length_fmap, length_seq in Hn.
    split_and!; [done|lia|]; intros i f Hi; destruct (Forall2_lookup_r _ _ _ _ _ Hm Hi) as (r & Hr & Hd).
    apply list_lookup_fmap_Some in Hr as (j & -> & Hj); apply lookup_seq in Hj as [-> _]; exact Hd.
  - right; right; split; [done|]; destruct Hm as (l1 & r & l2 & bs & Hl1 & He & Hf2).
    assert (forall j, (j <= length l1)%nat -> (l1 ++ r :: l2) !! j = Some (record_at pdu j)) as Hat.
    { intros j Hj; rewrite <- Hl1, list_lookup_fmap, lookup_seq_lt; [done|].
      apply (f_equal length) in Hl1; rewrite length_fmap, length_seq, length_app in Hl1; cbn in Hl1; lia. }
    exists (length l1); split_and!.
    + apply (f_equal length) in Hl1; rewrite length_fmap, length_seq, length_app in Hl1; cbn in Hl1; lia.
    + specialize (Hat (length l1) ltac:(lia)); rewrite list_lookup_middle in Hat by done; congruence.
    + intros j Hj; specialize (Hat j ltac:(lia)); rewrite lookup_app_l in Hat by done.
      destruct (Forall2_lookup_l _ _ _ _ _ Hf2 Hat) as (f & _ & Hd); eauto.
Qed.

(** ** What is written is read back *)

(** A file whose fields are in the range of their types, with a path of Unicode
    characters other than NUL. *)
Definition describable (f : LocalFile) : Prop :=
  0 <= size f <= u64_max /\ 0 <= perm f <= u32_max /\
  Forall is_scalar (relative_path f) /\ 0 ∉ relative_path f.

(** What the peer learns of a file: times to 100 ns, the permission bits, and a
    name in which backslashes have become separators. *)
Definition seen (conn : Z) (f : LocalFile) : FileDescription :=
  let modified := wrap_u64 (Z.max (last_write_time f) 0) / 100 * 100 in
  {| conn_id := conn; fd_name := replace_char backslash slash (relative_path f);
     kind := if is_dir f then Directory else File;
     atime := modified; last_modified := modified; last_metadata_changed := modified;
     creation_time := modified; fd_size := size f; fd_perm := perm f mod 65536 |}.

Lemma drop_while_eq_replicate c k s : drop_while_eq c (replicate k c ++ s) = drop_while_eq c s.
Proof. induction k as [|k IH]; [done|]; cbn; by rewrite Z.eqb_refl. Qed.

Lemma trim_end_padding s k : 0 ∉ s -> trim_end_matches 0 (s ++ replicate k 0) = s.
Proof.
  intros Hs; unfold trim_end_matches; rewrite reverse_app, reverse_replicate, drop_while_eq_replicate.
  assert (0 ∉ reverse s) as Hr by (rewrite elem_of_reverse; done).
  rewrite <- (reverse_involutive s) at 2; f_equal; destruct (reverse s) as [|c r]; [done|].
  cbn; destruct (Z.eqb_spec c 0); [subst; set_solver|done].
Qed.

Lemma replace_char_app a b s t : replace_char a b (s ++ t) = replace_char a b s ++ replace_char a b t.
Proof. apply map_app. Qed.

Lemma replace_keeps_zero a b s : a <> 0 -> b <> 0 -> 0 ∉ s -> 0 ∉ replace_char a b s.
Proof.
  intros Ha Hb Hs [c [Hc Hin]]%list_elem_of_fmap; destruct (Z.eqb_spec c a); [done|by subst].
Qed.

Lemma replace_zeros a b k : a <> 0 -> replace_char a b (replicate k 0) = replicate k 0.
Proof.
  intros Ha; induction k as [|k IH]; [done|]; cbn; fold (replace_char a b (replicate k 0)); rewrite IH.
  destruct (Z.eqb_spec 0 a); [congruence|done].
Qed.

Lemma attributes_directory f : flag (file_attributes f) 16 = is_dir f.
Proof.
  unfold file_attributes; by destruct (read_only f), (hidden f), (system f), (is_dir f), (archive f), (normal f).
Qed.

Lemma attributes_range f : 0 <= file_attributes f < 256.
Proof.
  unfold file_attributes; destruct (read_only f), (hidden f), (system f), (is_dir f), (archive f), (normal f);
    vm_compute; split; congruence.
Qed.

Lemma written_time f :
  write_time_of true (win32_time f) = wrap_u64 (Z.max (last_write_time f) 0) / 100 * 100.
Proof.
  unfold write_time_of, win32_time, wrap_u64; set (t := Z.max _ _).
  pose proof (Z.mod_pos_bound t 18446744073709551616 ltac:(lia)) as Ht; set (w := t mod _) in *; clearbody w; clear t.
  change LDAP_EPOCH_DELTA with 116444772610000000.
  pose proof (Z.div_mod w 100 ltac:(lia)); pose proof (Z.mod_pos_bound w 100 ltac:(lia)).
  rewrite (Z.mod_small (w / 100 + _)) by lia; cbn [andb].
  destruct (Z.leb_spec 116444772610000000 (w / 100 + 116444772610000000)); [|lia].
  rewrite Z.mod_small; lia.
Qed.

Lemma split_size s : 0 <= s <= u64_max ->
  wrap_u64 (Z.shiftl (wrap_u32 (Z.shiftr s 32) mod 256 ^ Z.of_nat 4) 32 +
    wrap_u32 (Z.land s u32_max) mod 256 ^ Z.of_nat 4) = s.
Proof.
  intros Hs; unfold wrap_u32, wrap_u64, u64_max in *; change u32_max with (Z.ones 32).
  change (256 ^ Z.of_nat 4) with 4294967296; rewrite !Zmod_mod.
  rewrite Z.shiftl_mul_pow2, Z.shiftr_div_pow2, Z.land_ones by lia; change (2 ^ 32) with 4294967296.
  rewrite Zmod_mod; pose proof (Z.div_mod s 4294967296 ltac:(lia)).
  pose proof (Z.mod_pos_bound s 4294967296 ltac:(lia)).
  rewrite (Z.mod_small (s / 4294967296)) by lia; rewrite Z.mod_small; lia.
Qed.

Context `{!Utf16Laws}.

Lemma parse_written f bin rest conn :
  describable f -> as_bin f = Ok bin ->
  parse_file_descriptor (bin ++ rest) conn = Ok (seen conn f, rest).
Proof.
  intros (Hsize & Hperm & Hscalar & Hnul) Hbin; unfold as_bin in Hbin.
  destruct (Nat.ltb_spec 520 (length (wstring_bytes (relative_path f)))) as [|Hlen]; [done|].
  injection Hbin as <-; destruct (wstring_bytes_even (relative_path f)) as [k Hk].
  set (w := wstring_bytes (relative_path f)) in *.
  assert (520 - length w = 2 * (260 - k))%nat as Hpad by lia.
  unfold parse_file_descriptor, record_bytes; cbv zeta; fold w; rewrite <- !app_assoc.
  rewrite get_le_bytes; cbn [mbind outcome_bind]; rewrite advance_app by apply length_replicate.
  cbn [mbind outcome_bind]; rewrite get_le_bytes; cbn [mbind outcome_bind].
  rewrite advance_app by apply length_replicate; cbn [mbind outcome_bind].
  do 4 (rewrite get_le_bytes; cbn [mbind outcome_bind]).
  rewrite app_assoc, advance_app by (rewrite length_app, length_replicate; lia); cbn [mbind outcome_bind].
  rewrite take_app_length' by (rewrite length_app, length_replicate; lia).
  rewrite Hpad; unfold w; rewrite wstr_decodes by done; cbn [ok_or mbind outcome_bind]; cbv zeta.
  change (256 ^ Z.of_nat 4) with 4294967296; change (256 ^ Z.of_nat 8) with 18446744073709551616.
  rewrite (Z.mod_small descriptor_flags) by done.
  rewrite (Z.mod_small (file_attributes f)) by (pose proof (attributes_range f); lia).
  change (flag descriptor_flags FLAGS_FD_UNIX_MODE) with true.
  change (flag descriptor_flags FLAGS_FD_ATTRIBUTES) with true.
  change (flag descriptor_flags FLAGS_FD_LAST_WRITE) with true; cbn [negb choose_perm].
  rewrite attributes_directory, (Z.mod_small (win32_time f)), written_time by
    (unfold win32_time, wrap_u64; apply Z.mod_pos_bound; lia).
  rewrite (Z.mod_small (perm f)) by (unfold u32_max in Hperm; lia).
  change 4294967296 with (256 ^ Z.of_nat 4); rewrite (split_size _ Hsize).
  rewrite replace_char_app, replace_zeros, trim_end_padding by (try apply replace_keeps_zero; done).
  reflexivity.
Qed.

Lemma list_read_back files pdu conn :
  Forall describable files -> Z.of_nat (length files) <= u32_max ->
  file_list_pdu files = Ok pdu ->
  parse_file_descriptors pdu conn = Ok (map (seen conn) files).
Proof.
  intros Hd Hn; unfold file_list_pdu.
  intros (bs & Hbs & Heq)%bind_ok.
  assert (pdu = le_bytes 4 (Z.of_nat (length files)) ++ bs) as -> by congruence.
  clear Heq; unfold parse_file_descriptors.
  assert (length bs = (592 * length files)%nat /\
    forall rest, parse_loop (length files) (bs ++ rest) conn = Ok (map (seen conn) files)) as [Hl Hloop].
  { clear Hn; revert bs Hbs; induction Hd as [|f files Hf _ IH]; intros bs Hbs; [by injection Hbs as <-|].
    cbn [as_bins] in Hbs; apply bind_ok in Hbs as (b & Hb & (bs' & Hbs' & [= <-])%bind_ok).
    destruct (IH bs' Hbs') as [Hl Hloop]; split.
    - rewrite length_app, Hl; unfold as_bin in Hb.
      destruct (Nat.ltb_spec 520 (length (wstring_bytes (relative_path f)))); [done|]; injection Hb as <-.
      unfold record_bytes; rewrite !length_app, !length_replicate, !length_le_bytes; cbn [length]; lia.
    - intros rest; cbn [length parse_loop map]; rewrite <- app_assoc, (parse_written f b) by done.
      cbn [mbind outcome_bind]; by rewrite Hloop. }
  rewrite length_app, length_le_bytes.
  destruct (Nat.ltb_spec (4 + length bs) 4); [lia|]; rewrite get_le_bytes; cbn [mbind outcome_bind].
  change (256 ^ Z.of_nat 4) with 4294967296; unfold u32_max in Hn; rewrite Z.mod_small by lia.
  destruct (_ && _) eqn:E.
  { apply andb_true_iff in E as [_ E%Z.eqb_eq]; by destruct files. }
  destruct (Z.eqb_spec (Z.of_nat (length bs)) (592 * Z.of_nat (length files))); [|lia]; cbn [negb].
  rewrite Nat2Z.id, <- (app_nil_r bs); apply Hloop.
Qed.

(** What a description tells of a file.  A name without backslashes is the path the
    peer is told; a time from 1970 on that fits is told to 100 ns. *)
Record tells (conn : Z) (f : LocalFile) (d : FileDescription) : Prop := {
  told_conn : conn_id d = conn;
  told_name : backslash ∉ relative_path f -> fd_name d = relative_path f;
  told_path : fd_name d = replace_char backslash slash (relative_path f);
  told_kind : kind d = if is_dir f then Directory else File;
  told_size : fd_size d = size f;
  told_perm : 0 <= perm f < 65536 -> fd_perm d = perm f;
  told_time : 0 <= last_write_time f <= u64_max ->
    last_modified d <= last_write_time f < last_modified d + 100 /\ (100 | last_modified d);
  told_times : atime d = last_modified d /\ last_metadata_changed d = last_modified d /\ creation_time d = last_modified d;
  told_before_1970 : last_write_time f <= 0 -> last_modified d = 0;
}.

Lemma replace_absent a b s : a ∉ s -> replace_char a b s = s.
Proof.
  induction s as [|c s IH]; [done|]; intros Hs; apply not_elem_of_cons in Hs as [Hc Hs]; cbn.
  fold (replace_char a b s); rewrite IH by done; by destruct (Z.eqb_spec c a).
Qed.

Lemma seen_tells conn f : tells conn f (seen conn f).
Proof.
  constructor; cbn; try done.
  - apply replace_absent.
  - intros Hp; apply Z.mod_small; lia.
  - intros Ht; unfold wrap_u64, u64_max in *; rewrite Z.max_l, Z.mod_small by lia.
    pose proof (Z.div_mod (last_write_time f) 100 ltac:(lia)); pose proof (Z.mod_pos_bound (last_write_time f) 100 ltac:(lia)).
    split; [lia|by exists (last_write_time f / 100)].
  - intros Ht; by rewrite Z.max_r.
Qed.

(** C32. A copied file list survives the wire: when every path can be written, the peer
    parses the PDU into one description per file, in order, that tells its kind and its
    size, the path with slashes for the backslashes in it - which is the path itself if
    it has none -, the mode if it fits sixteen bits, and the time of the last write,
    from 1970 on and as far as 64 bits of nanoseconds reach, to 100 ns; an earlier
    time is told as 1970. *)
Theorem file_list_roundtrip files pdu conn :
  Forall describable files -> Z.of_nat (length files) <= u32_max ->
  file_list_pdu files = Ok pdu ->
  exists told, parse_file_descriptors pdu conn = Ok told /\ Forall2 (tells conn) files told.
Proof.
  intros Hd Hn Hp; exists (map (seen conn) files); split; [by apply list_read_back|].
  clear; induction files as [|f files IH]; constructor; [apply seen_tells|done].
Qed.
End descriptor.

(** ** UTF-16LE, as an instance *)

Definition encode_char (c : Z) : list Z :=
  if c <? 65536 then [c] else [55296 + (c - 65536) / 1024; 56320 + (c - 65536) mod 1024].

Fixpoint decode_units (l : list Z) : option text :=
  match l with
  | [] => Some []
  | u :: l =>
      if (55296 <=? u) && (u <? 56320) then
        match l with
        | v :: l => if (56320 <=? v) && (v <? 57344)
                    then (fun s => (65536 + (u - 55296) * 1024 + (v - 56320)) :: s) <$> decode_units l
                    else None
        | [] => None
        end
      else if (56320 <=? u) && (u <? 57344) then None
      else (fun s => u :: s) <$> decode_units l
  end.

Fixpoint units (l : list Z) : option (list Z) :=
  match l with
  | [] => Some []
  | a :: b :: l => (fun r => (a + 256 * b) :: r) <$> units l
  | [_] => None
  end.

#[export] Instance utf16le : Utf16 :=
  {| wstring_bytes s := flat_map (le_bytes 2) (flat_map encode_char s);
     wstr_to_utf8 b := match units b with Some l => decode_units l | None => None end |}.

Lemma units_bytes l : Forall (fun u => 0 <= u < 65536) l -> forall r, units (flat_map (le_bytes 2) l ++ r) = app l <$> units r.
Proof.
  induction 1 as [|u l Hu Hl IH]; intros r; [cbn; by destruct (units r)|].
  cbn [flat_map le_bytes app units]; rewrite IH; destruct (units r); [|done]; cbn; f_equal; f_equal.
  pose proof (Z.div_mod u 256 ltac:(lia)).
  assert (u / 256 < 256) by (apply Z.div_lt_upper_bound; lia).
  pose proof (Z.div_pos u 256 ltac:(lia) ltac:(lia)); rewrite (Z.mod_small (u / 256)) by lia; lia.
Qed.

Lemma units_of_scalars s : Forall is_scalar s -> Forall (fun u => 0 <= u < 65536) (flat_map encode_char s).
Proof.
  induction 1 as [|c s Hc Hs IH]; [constructor|]; cbn; apply Forall_app; split; [|done].
  unfold encode_char, is_scalar in *; destruct (Z.ltb_spec c 65536); repeat constructor; try lia.
  - pose proof (Z.div_pos (c - 65536) 1024 ltac:(lia) ltac:(lia)); lia.
  - assert ((c - 65536) / 1024 < 1024) by (apply Z.div_lt_upper_bound; lia); lia.
  - pose proof (Z.mod_pos_bound (c - 65536) 1024 ltac:(lia)); lia.
  - pose proof (Z.mod_pos_bound (c - 65536) 1024 ltac:(lia)); lia.
Qed.

Lemma decode_encoded s r : Forall is_scalar s -> decode_units (flat_map encode_char s ++ r) = app s <$> decode_units r.
Proof.
  induction 1 as [|c s Hc Hs IH]; [cbn; by destruct (decode_units r)|].
  cbn [flat_map]; rewrite <- app_assoc; unfold encode_char, is_scalar in *.
  destruct (Z.ltb_spec c 65536); cbn [app decode_units].
  - destruct (Z.leb_spec 55296 c), (Z.ltb_spec c 56320); cbn [andb]; try lia;
      destruct (Z.leb_spec 56320 c), (Z.ltb_spec c 57344); cbn [andb]; try lia;
      rewrite IH; by destruct (decode_units r).
  - pose proof (Z.div_mod (c - 65536) 1024 ltac:(lia)).
    pose proof (Z.mod_pos_bound (c - 65536) 1024 ltac:(lia)).
    assert ((c - 65536) / 1024 < 1024) by (apply Z.div_lt_upper_bound; lia).
    pose proof (Z.div_pos (c - 65536) 1024 ltac:(lia) ltac:(lia)).
    destruct (Z.leb_spec 55296 (55296 + (c - 65536) / 1024)), (Z.ltb_spec (55296 + (c - 65536) / 1024) 56320); try lia.
    destruct (Z.leb_spec 56320 (56320 + (c - 65536) mod 1024)), (Z.ltb_spec (56320 + (c - 65536) mod 1024) 57344); try lia.
    cbn [andb]; rewrite IH; destruct (decode_units r); [|done]; cbn; do 2 f_equal; lia.
Qed.

Lemma zero_units k : units (replicate (2 * k) 0) = Some (replicate k 0) /\ decode_units (replicate k 0) = Some (replicate k 0).
Proof.
  induction k as [|k [IH1 IH2]]; [done|].
  replace (2 * S k)%nat with (S (S (2 * k))) by lia; cbn [replicate units decode_units]; by rewrite IH1, IH2.
Qed.

#[export] Instance utf16le_laws : Utf16Laws.
Proof.
  split.
  - intros s; exists (length (flat_map encode_char s)); unfold wstring_bytes, utf16le.
    induction (flat_map encode_char s) as [|u l IH]; [done|].
    cbn [flat_map length]; rewrite length_app, length_le_bytes, IH; lia.
  - intros s; unfold wstring_bytes, utf16le; induction (flat_map encode_char s) as [|u l IH]; [constructor|].
    cbn [flat_map]; apply Forall_app; split; [apply le_bytes_byte|done].
  - intros s k Hs; unfold wstr_to_utf8, wstring_bytes, utf16le; rewrite units_bytes by (by apply units_of_scalars).
    destruct (zero_units k) as [-> Hd]; cbn [fmap option_fmap option_map]; rewrite decode_encoded, Hd by done; done.
Qed.

(** ** Examples *)

(** A directory [/home/b] of mode 0755 with a file [/home/b/é.txt]. *)
Definition example_dir : LocalFile :=
  {| relative_root := [RootDir; Normal [104; 111; 109; 101]]; path := [47; 104; 111; 109; 101; 47; 98];
     handle := None; offset := 0; name := [104; 111; 109; 101; 92; 98]; size := 4096;
     last_write_time := 1700000000123456789; is_dir := true; perm := 16877; read_only := false;
     hidden := false; system := false; archive := false; normal := false |}.
Definition example_file : LocalFile :=
  example_dir <| path := [47; 104; 111; 109; 101; 47; 98; 47; 233; 46; 116; 120; 116] |>
    <| size := 4294967297 |> <| is_dir := false |> <| perm := 33188 |> <| normal := true |>.

Definition example_pdu : list Z :=
  match file_list_pdu [example_dir; example_file] with Ok b => b | _ => [] end.

Example example_names :
  map fd_name (map (seen 3) [example_dir; example_file]) = [[98]; [98; 47; 233; 46; 116; 120; 116]].
Proof. reflexivity. Qed.

Lemma example_describable : Forall describable [example_dir; example_file].
Proof.
  assert (forall f, bool_decide (Forall is_scalar (relative_path f)) && bool_decide (0 ∉ relative_path f) &&
    (0 <=? size f) && (size f <=? u64_max) && (0 <=? perm f) && (perm f <=? u32_max) = true -> describable f) as H.
  { intros f H; bools; repeat split; lia || done. }
  apply Forall_cons; split; [|apply Forall_singleton]; apply H; vm_compute; reflexivity.
Qed.

Lemma file_list_roundtrip_witness :
  exists told, parse_file_descriptors example_pdu 3 = Ok told /\ Forall2 (tells 3) [example_dir; example_file] told.
Proof.
  apply file_list_roundtrip; [apply example_describable|vm_compute; discriminate|vm_compute; reflexivity].
Defined.

(** The name [a\b] of one file, which a desktop with slashes for separators allows,
    reaches the peer as a file [b] in a directory [a] that no description announces. *)
Theorem backslash_in_a_name_is_a_separator :
  let f := example_file <| path := [47; 104; 111; 109; 101; 47; 97; 92; 98] |> in
  relative_path f = [97; 92; 98] /\
  match file_list_pdu [f] with
  | Ok pdu => match parse_file_descriptors pdu 3 with Ok told => map fd_name told = [[97; 47; 98]] | _ => False end
  | _ => False
  end.
Proof. vm_compute; split; reflexivity. Qed.

Lemma descriptor_parser_total_witness : parse_file_descriptors (1 :: replicate 595 0) 3 <> Panic.
Proof.
  assert (Forall is_byte (1 :: replicate 595 0)) as Hb
    by (constructor; [unfold is_byte; lia|apply Forall_replicate; unfold is_byte; lia]).
  intros Hp; pose proof (descriptor_parser_total (1 :: replicate 595 0) 3 Hb) as Ht.
  rewrite Hp in Ht; exact Ht.
Defined.

Example missing_attributes :
  parse_file_descriptors (1 :: replicate 595 0) 3 =
    Err (InvalidRequest "file description must have valid attributes").
Proof. vm_compute; reflexivity. Qed.

(** The epoch of the descriptors is 134774 days before the Unix epoch; the
    constant is an hour, a minute and a second more. *)
Lemma ldap_epoch_off : LDAP_EPOCH_DELTA = (134774 * 86400 + 3661) * 10000000.
Proof. reflexivity. Qed.

(** A path of more than 260 UTF-16 code units cannot be announced. *)
Lemma long_path_panics : as_bin (example_file <| path := 47 :: replicate 261 97 |> <| relative_root := [RootDir] |>) = Panic.
Proof. vm_compute; reflexivity. Qed.
