(* ===== verification/FileList.v ===== *)
(** * The list of copied files

    Models [LocalFile::try_open] and [construct_file_list] of
    src/libs/clipboard/src/platform/unix/local_file.rs: the recursion through
    the copied directories that builds the list the peer is told of.  The file
    system is a parameter; its recursion is by fuel, [None] when it runs out,
    and terminates because only finitely many paths resolve. *)

From S2P Require Import Prelude ClipboardTypes FileDescriptor.

Record Metadata := {
  m_len : Z;
  m_is_dir : bool;
  m_is_file : bool;
  m_readonly : bool;
  m_mode : Z;
  m_modified : option Z;
}.

(** [std::fs::metadata], [std::fs::read_dir] with the names it yields, and the
    bytes [std::fs::File::open] gives access to. *)
Class FileSystem := {
  metadata : text -> io_error + Metadata;
  read_dir : text -> io_error + list (io_error + text);
  open_file : text -> io_error + list Z;
}.

(** Files listed so far, and the paths visited. *)
Abbreviation Listing := (list LocalFile * gset (list component))%type (only parsing).

Section listing.
Context `{FileSystem}.

Definition try_open (root : Path) (p : text) : result LocalFile :=
  match metadata p with
  | inl e => Err (FileError p e)
  | inr mt =>
      let hidden := match p with c :: _ => c =? dot | [] => false end in
      let normal := negb (m_is_dir mt || m_readonly mt || false || hidden || false) in
      Ok {| relative_root := root; path := p; handle := None; offset := 0;
            name := replace_char slash backslash (trim_start_matches slash p);
            size := m_len mt; last_write_time := unwrap_or (m_modified mt) 0; is_dir := m_is_dir mt;
            perm := m_mode mt; read_only := m_readonly mt; hidden := hidden; system := false;
            archive := false; normal := normal |}
  end.

(** The loop over the entries of a directory, with the recursive call. *)
Fixpoint visit_entries (visit : text -> Listing -> option (result Listing)) (dir : text)
    (entries : list (io_error + text)) (acc : Listing) : option (result Listing) :=
  match entries with
  | [] => Some (Ok acc)
  | inl e :: _ => Some (Err (FileError dir e))
  | inr entry :: entries =>
      match visit (join_name dir entry) acc with
      | Some (Ok acc) => visit_entries visit dir entries acc
      | r => r
      end
  end.

Fixpoint constr_file_lst (fuel : nat) (root : Path) (p : text) (acc : Listing) : option (result Listing) :=
  match fuel with
  | O => None
  | S fuel =>
      let '(file_list, visited) := acc in
      if decide (components p ∈ visited) then Some (Ok (file_list, visited))
      else
        let visited := {[components p]} ∪ visited in
        match try_open root p with
        | Ok f =>
            let file_list := file_list ++ [f] in
            match metadata p with
            | inl e => Some (Err (FileError p e))
            | inr mt =>
                if m_is_dir mt then
                  match read_dir p with
                  | inl e => Some (Err (FileError p e))
                  | inr entries => visit_entries (constr_file_lst fuel root) p entries (file_list, visited)
                  end
                else Some (Ok (file_list, visited))
            end
        | Err e => Some (Err e)
        | Panic => Some Panic
        end
  end.

Fixpoint visit_paths (fuel : nat) (root : Path) (paths : list text) (acc : Listing) : option (result Listing) :=
  match paths with
  | [] => Some (Ok acc)
  | p :: paths =>
      match constr_file_lst fuel root p acc with
      | Some (Ok acc) => visit_paths fuel root paths acc
      | r => r
      end
  end.

Definition construct_file_list (fuel : nat) (paths : list text) : option (result (list LocalFile)) :=
  match paths with
  | [] => Some (Err (InvalidRequest "empty file list"))
  | first :: _ =>
      match parent first with
      | None => Some (Err (InvalidRequest "empty parent"))
      | Some root => fmap (fun r => '(file_list, _) ← r; Ok file_list) (visit_paths fuel root paths ([], ∅))
      end
  end.

(** ** Termination *)

(** Only the paths in [S] resolve: the system limits the length of a path and
    the symbolic links it follows. *)
Definition resolves_in (S : gset (list component)) : Prop :=
  forall p mt, metadata p = inr mt -> components p ∈ S.

Lemma try_open_ok root p f : try_open root p = Ok f -> exists mt, metadata p = inr mt /\ is_dir f = m_is_dir mt /\ path f = p.
Proof. unfold try_open; destruct (metadata p) as [|mt]; [done|]; intros [= <-]; eauto. Qed.

(** A visit with enough fuel has a result, which is the same with more, and
    only adds to the paths visited. *)
Definition settled (acc : Listing) (r : option (result Listing)) : Prop :=
  match r with
  | None => False
  | Some (Ok acc') => acc.2 ⊆ acc'.2
  | Some _ => True
  end.

Lemma visit_entries_settled (visit1 visit2 : text -> Listing -> option (result Listing))
    (dir : text) (entries : list (io_error + text)) (acc : Listing) :
  (forall (p : text) (acc' : Listing), acc.2 ⊆ acc'.2 -> settled acc' (visit1 p acc') /\ visit2 p acc' = visit1 p acc') ->
  settled acc (visit_entries visit1 dir entries acc) /\
  visit_entries visit2 dir entries acc = visit_entries visit1 dir entries acc.
Proof.
  revert acc; induction entries as [|[e|entry] entries IH]; intros acc Hv.
  1, 2: by (split; [cbn; set_solver|]).
  cbn [visit_entries]; destruct (Hv (join_name dir entry) acc) as [Hs ->]; [done|].
  destruct (visit1 (join_name dir entry) acc) as [[acc1|e|]|] eqn:E; cbn in Hs; [|by (split; [cbn|])..].
  destruct (IH acc1) as [Hs1 Heq].
  { intros p acc' Ha; apply Hv; set_solver. }
  split; [|exact Heq]; unfold settled in *.
  destruct (visit_entries visit1 dir entries acc1) as [[acc2|e|]|]; [set_solver|done..].
Qed.

Ltac settle := split; [cbn; first [exact I|set_solver]|done].

Lemma constr_settled (S : gset (list component)) (root : Path) (fuel : nat) (p : text) (acc : Listing) (k : nat) :
  resolves_in S -> (base.size (S ∖ acc.2) < fuel)%nat ->
  settled acc (constr_file_lst fuel root p acc) /\
  constr_file_lst (fuel + k) root p acc = constr_file_lst fuel root p acc.
Proof.
  intros HS; revert p acc; induction fuel as [|fuel IH]; intros p [l visited] Hf; [lia|].
  cbn [constr_file_lst Nat.add]; cbn [snd] in Hf.
  destruct (decide (components p ∈ visited)) as [Hin|Hout]; [settle|]; cbv zeta.
  destruct (try_open root p) as [f|e|] eqn:Eo; [|settle..].
  destruct (metadata p) as [e|mt] eqn:Em; [settle|]; destruct (m_is_dir mt); [|settle].
  destruct (read_dir p) as [e|entries]; [settle|].
  assert (base.size (S ∖ ({[components p]} ∪ visited)) < fuel)%nat as Hsize.
  { assert (base.size (S ∖ ({[components p]} ∪ visited)) < base.size (S ∖ visited))%nat; [|lia].
    apply subset_size; specialize (HS _ _ Em); set_solver. }
  edestruct (visit_entries_settled (constr_file_lst fuel root) (constr_file_lst (fuel + k) root) p entries
    (l ++ [f], {[components p]} ∪ visited)) as [Hs Heq].
  { intros p' acc' Ha; apply IH; cbn [snd] in Ha.
    eapply Nat.le_lt_trans; [|exact Hsize]; apply subseteq_size; set_solver. }
  rewrite Heq; split; [|done]; unfold settled in *; cbn [snd] in *.
  destruct (visit_entries _ _ _ _) as [[acc2|e|]|]; [set_solver|done..].
Qed.

Lemma visit_paths_settled (S : gset (list component)) (root : Path) (fuel k : nat) (paths : list text) (acc : Listing) :
  resolves_in S -> (base.size (S ∖ acc.2) < fuel)%nat ->
  is_Some (visit_paths fuel root paths acc) /\
  visit_paths (fuel + k) root paths acc = visit_paths fuel root paths acc.
Proof.
  intros HS; revert acc; induction paths as [|p paths IH]; intros acc Hf; [by split; [eexists|]|].
  cbn [visit_paths]; destruct (constr_settled S root fuel p acc k HS Hf) as [Hs ->].
  destruct (constr_file_lst fuel root p acc) as [[acc1|e|]|]; cbn in Hs; [|split; [eexists|]; done..|done].
  apply IH; eapply Nat.le_lt_trans; [|exact Hf]; apply subseteq_size; set_solver.
Qed.

(** C36. Building the list of copied files terminates: when only finitely many
    paths resolve, one more step of recursion than there are such paths is
    enough, and more make no difference. *)
Theorem file_list_terminates (S : gset (list component)) (fuel : nat) (paths : list text) :
  resolves_in S -> (base.size S < fuel)%nat ->
  exists r, forall k, construct_file_list (fuel + k) paths = Some r.
Proof.
  intros HS Hf; destruct paths as [|first paths]; [eexists; done|]; unfold construct_file_list.
  destruct (parent first) as [root|]; [|eexists; done].
  assert (base.size (S ∖ (∅ : gset (list component))) < fuel)%nat as Hf'
    by (eapply Nat.le_lt_trans; [|exact Hf]; apply subseteq_size; set_solver).
  destruct (visit_paths_settled S root fuel 0 (first :: paths) ([], ∅) HS Hf') as [[r Hr] _].
  eexists; intros k; destruct (visit_paths_settled S root fuel k (first :: paths) ([], ∅) HS Hf') as [_ ->].
  rewrite Hr; reflexivity.
Qed.

(** ** What is listed *)

Definition listed (f : LocalFile) : list component := components (path f).

(** [p] is the path of an entry of the directory [d]. *)
Definition entry_of (d : LocalFile) (p : text) : Prop :=
  is_dir d = true /\
  exists entries name, read_dir (path d) = inr entries /\ inr name ∈ entries /\ p = join_name (path d) name.

(** Every entry of the directory [d] could be read and is among [visited]. *)
Definition explored (visited : gset (list component)) (d : LocalFile) : Prop :=
  is_dir d = true ->
  exists entries, read_dir (path d) = inr entries /\
    forall e, e ∈ entries -> exists name, e = inr name /\ components (join_name (path d) name) ∈ visited.

(** What a visit adds: files opened at paths not visited before, each once,
    their directories explored, each file an [origin] or an entry of a
    directory added before it. *)
Record grown (root : Path) (origin : text -> Prop) (acc acc' : Listing) (new : list LocalFile) : Prop := {
  grown_list : acc'.1 = acc.1 ++ new;
  grown_visited : acc'.2 = acc.2 ∪ list_to_set (map listed new);
  grown_nodup : NoDup (map listed new);
  grown_fresh : forall f, f ∈ new -> listed f ∉ acc.2;
  grown_opened : forall f, f ∈ new -> try_open root (path f) = Ok f;
  grown_explored : forall f, f ∈ new -> explored acc'.2 f;
  grown_origin : forall i f, new !! i = Some f ->
    origin (path f) \/ exists j d, (j < i)%nat /\ new !! j = Some d /\ entry_of d (path f);
}.

Lemma explored_mono (v v' : gset (list component)) d : v ⊆ v' -> explored v d -> explored v' d.
Proof. intros Hv He Hd; destruct (He Hd) as (en & Hr & Hen); exists en; split; [done|]; naive_solver. Qed.

Lemma grown_nothing root origin acc : grown root origin acc acc [].
Proof. split; cbn; try rewrite app_nil_r; try done; try set_solver; constructor. Qed.

Lemma grown_weaken root (o o' : text -> Prop) acc acc' new :
  (forall p, o p -> o' p) -> grown root o acc acc' new -> grown root o' acc acc' new.
Proof. intros Ho []; split; try done; intros i f Hi; destruct (grown_origin0 i f Hi); auto. Qed.

Lemma grown_app root origin acc acc1 acc2 n1 n2 :
  grown root origin acc acc1 n1 -> grown root origin acc1 acc2 n2 -> grown root origin acc acc2 (n1 ++ n2).
Proof.
  intros [A1 A2 A3 A4 A5 A6 A7] [B1 B2 B3 B4 B5 B6 B7]; split.
  - by rewrite B1, A1, app_assoc.
  - rewrite B2, A2, map_app, list_to_set_app_L; set_solver.
  - rewrite map_app; apply NoDup_app; split_and!; [done| |done].
    intros c (f1 & Hc1 & Hf1)%list_elem_of_fmap (f2 & Hc2 & Hf2)%list_elem_of_fmap; subst c.
    apply (B4 f2 Hf2); rewrite A2, <- Hc2; apply elem_of_union; right.
    by apply elem_of_list_to_set, list_elem_of_fmap_2.
  - intros f [Hf|Hf]%elem_of_app; [by apply A4|]; specialize (B4 f Hf); set_solver.
  - intros f [Hf|Hf]%elem_of_app; auto.
  - intros f [Hf|Hf]%elem_of_app; [|auto]; eapply explored_mono; [|by apply A6]; set_solver.
  - intros i f [Hi|[Hl Hi]]%lookup_app_Some.
    + destruct (A7 i f Hi) as [|(j & d & Hj & Hd & He)]; [by left|right; exists j, d].
      split_and!; [done|by apply lookup_app_l_Some|done].
    + destruct (B7 _ f Hi) as [|(j & d & Hj & Hd & He)]; [by left|right; exists (length n1 + j)%nat, d].
      split_and!; [lia|rewrite lookup_app_r, <- Hd by lia; f_equal; lia|done].
Qed.

Lemma grown_head root p acc f acc1 new :
  components p ∉ acc.2 -> try_open root p = Ok f ->
  (is_dir f = false -> new = [] /\ acc1 = (acc.1 ++ [f], {[components p]} ∪ acc.2)) ->
  explored acc1.2 f ->
  grown root (entry_of f) (acc.1 ++ [f], {[components p]} ∪ acc.2) acc1 new ->
  grown root (eq p) acc acc1 (f :: new).
Proof.
  intros Hp Ho Hnd Hex [A1 A2 A3 A4 A5 A6 A7]; cbn [fst snd] in *.
  destruct (try_open_ok _ _ _ Ho) as (mt & Hm & _ & Hpath).
  assert (listed f = components p) as Hlf by (unfold listed; by rewrite Hpath).
  split.
  - rewrite A1; by rewrite <- app_assoc.
  - rewrite A2; cbn [map list_to_set]; rewrite Hlf; set_solver.
  - cbn [map]; constructor; [|done]; rewrite Hlf; intros (g & Hc & Hg)%list_elem_of_fmap.
    apply (A4 g Hg); set_solver.
  - intros g [->|Hg]%elem_of_cons; [by rewrite Hlf|]; specialize (A4 g Hg); set_solver.
  - intros g [->|Hg]%elem_of_cons; [by rewrite Hpath|auto].
  - intros g [->|Hg]%elem_of_cons; auto.
  - intros [|i] g Hi; cbn in Hi; [injection Hi as <-; left; by rewrite Hpath|right].
    destruct (A7 i g Hi) as [He|(j & d & Hj & Hd & He)].
    + exists O, f; split_and!; [lia|done|done].
    + exists (S j), d; split_and!; [lia|done|done].
Qed.

Definition visits (root : Path) (visit : text -> Listing -> option (result Listing)) : Prop :=
  forall p acc acc', visit p acc = Some (Ok acc') ->
    exists new, grown root (eq p) acc acc' new /\ components p ∈ acc'.2.

Lemma visit_entries_grown root visit f entries all acc acc' :
  visits root visit -> is_dir f = true -> read_dir (path f) = inr all -> (forall e, e ∈ entries -> e ∈ all) ->
  visit_entries visit (path f) entries acc = Some (Ok acc') ->
  (exists new, grown root (entry_of f) acc acc' new) /\
  forall e, e ∈ entries -> exists name, e = inr name /\ components (join_name (path f) name) ∈ acc'.2.
Proof.
  intros Hv Hd Hr; revert acc; induction entries as [|[e|entry] entries IH]; intros acc Hall.
  - intros [= <-]; split; [exists []; apply grown_nothing|set_solver].
  - done.
  - cbn [visit_entries]; destruct (visit _ acc) as [[acc1|e|]|] eqn:E; try done; intros Hrest.
    destruct (Hv _ _ _ E) as (n1 & Hg1 & Hin).
    destruct (IH acc1 ltac:(set_solver) Hrest) as [[n2 Hg2] Hen].
    split.
    + exists (n1 ++ n2); eapply grown_app; [|exact Hg2]; eapply grown_weaken; [|exact Hg1].
      intros p <-; split; [done|]; exists all, entry; split_and!; [done| |done]; apply Hall; left.
    + intros e [->|He]%elem_of_cons; [exists entry; split; [done|]|by apply Hen].
      rewrite (grown_visited _ _ _ _ _ Hg2); set_solver.
Qed.

Lemma constr_visits root fuel : visits root (constr_file_lst fuel root).
Proof.
  induction fuel as [|fuel IH]; intros p [l visited] acc'; [done|]; cbn [constr_file_lst].
  destruct (decide (components p ∈ visited)) as [Hin|Hout].
  { intros [= <-]; exists []; split; [apply grown_nothing|done]. }
  cbv zeta; destruct (try_open root p) as [f|e|] eqn:Eo; try done.
  destruct (try_open_ok _ _ _ Eo) as (mt & Hm & Hdir & Hpath); rewrite Hm.
  destruct (m_is_dir mt).
  - destruct (read_dir p) as [e|entries] eqn:Er; [done|]; rewrite <- Hpath at 1; intros Hv.
    destruct (visit_entries_grown root _ f entries entries _ _ IH Hdir ltac:(by rewrite Hpath) ltac:(done) Hv)
      as [[new Hg] Hen].
    exists (f :: new); split; [apply grown_head; [done|done|congruence| |exact Hg]|].
    + intros _; exists entries; by rewrite Hpath in *.
    + rewrite (grown_visited _ _ _ _ _ Hg); cbn; set_solver.
  - intros [= <-]; exists [f]; split; [apply grown_head; [done|done|done| |apply grown_nothing]|cbn; set_solver].
    intros Hd; congruence.
Qed.

Lemma visit_paths_grown root fuel paths acc acc' :
  visit_paths fuel root paths acc = Some (Ok acc') ->
  (exists new, grown root (fun p => p ∈ paths) acc acc' new) /\ forall p, p ∈ paths -> components p ∈ acc'.2.
Proof.
  revert acc; induction paths as [|p paths IH]; intros acc; cbn [visit_paths].
  { intros [= <-]; split; [exists []; apply grown_nothing|set_solver]. }
  destruct (constr_file_lst fuel root p acc) as [[acc1|e|]|] eqn:E; try done; intros Hrest.
  destruct (constr_visits root fuel _ _ _ E) as (n1 & Hg1 & Hin); destruct (IH _ Hrest) as [[n2 Hg2] Hps]; split.
  - exists (n1 ++ n2); eapply grown_app; (eapply grown_weaken; [|eassumption]); set_solver.
  - intros q [->|Hq]%elem_of_cons; [|auto]; rewrite (grown_visited _ _ _ _ _ Hg2); set_solver.
Qed.

(** A list of copied files that is built holds the copied paths and
    everything below them, each path once and as it was opened, every directory
    explored and listed before its entries, and nothing else. *)
Theorem file_list_exact fuel paths files :
  construct_file_list fuel paths = Some (Ok files) ->
  NoDup (map listed files) /\
  (forall p, p ∈ paths -> components p ∈ map listed files) /\
  (exists root, forall f, f ∈ files -> try_open root (path f) = Ok f) /\
  (forall f, f ∈ files -> explored (list_to_set (map listed files)) f) /\
  (forall i f, files !! i = Some f ->
     path f ∈ paths \/ exists j d, (j < i)%nat /\ files !! j = Some d /\ entry_of d (path f)).
Proof.
  unfold construct_file_list; destruct paths as [|first paths]; [done|].
  destruct (parent first) as [root|]; [|done].
  destruct (visit_paths fuel root (first :: paths) ([], ∅)) as [[acc|e|]|] eqn:E; try done.
  destruct acc as [l visited]; intros [= <-].
  destruct (visit_paths_grown _ _ _ _ _ E) as [[new []] Hps]; cbn [fst snd] in *.
  rewrite app_nil_l in *; rewrite union_empty_l_L in *; subst; split_and!; [done| |by exists root|done|done].
  intros p Hp; apply (elem_of_list_to_set (C := gset (list component))); by apply Hps.
Qed.
End listing.

(** ** A file system with a cycle

    The directory [/a] holds the file [f] and, when [looped], a link [l] to
    itself; the system follows two links and then fails with ELOOP (40). *)

Definition node_dir : Metadata :=
  {| m_len := 4096; m_is_dir := true; m_is_file := false; m_readonly := false; m_mode := 16877; m_modified := Some 0 |}.
Definition node_file : Metadata :=
  {| m_len := 3; m_is_dir := false; m_is_file := true; m_readonly := false; m_mode := 33188; m_modified := Some 0 |}.

Definition dir_a : list component := [RootDir; Normal [97]].
Definition below (links : nat) (last : list component) : list component :=
  dir_a ++ replicate links (Normal [108]) ++ last.

Definition cyclic (looped : bool) : FileSystem :=
  {| metadata p :=
       if decide (components p ∈ [below 0 []; below 1 []; below 2 []]) then inr node_dir
       else if decide (components p ∈ [below 0 [Normal [102]]; below 1 [Normal [102]]; below 2 [Normal [102]]])
       then inr node_file else inl (Os 40);
     read_dir p := inr (inr [102] :: if looped then [inr [108]] else []);
     open_file p := inr [1; 2; 3] |}.

Definition cyclic_paths : gset (list component) :=
  list_to_set [below 0 []; below 1 []; below 2 []; below 0 [Normal [102]]; below 1 [Normal [102]]; below 2 [Normal [102]]].

Lemma cyclic_resolves looped : @resolves_in (cyclic looped) cyclic_paths.
Proof.
  intros p mt Hm; unfold metadata, cyclic in Hm; unfold cyclic_paths.
  destruct (decide _) as [Hin|]; [set_solver|]; destruct (decide _) as [Hin|]; [set_solver|done].
Qed.

Lemma file_list_terminates_witness :
  exists r, forall k, @construct_file_list (cyclic true) (7 + k) [[47; 97]] = Some r.
Proof.
  apply (@file_list_terminates (cyclic true) cyclic_paths 7 [[47; 97]]).
  - apply cyclic_resolves.
  - apply Nat.ltb_lt; vm_compute; reflexivity.
Defined.

Definition plain_files : list LocalFile :=
  match @construct_file_list (cyclic false) 7 [[47; 97]] with Some (Ok l) => l | _ => [] end.

Lemma file_list_exact_witness : NoDup (map listed plain_files) /\ map path plain_files = [[47; 97]; [47; 97; 47; 102]].
Proof.
  split; [|vm_compute; reflexivity].
  apply (@file_list_exact (cyclic false) 7 [[47; 97]]); vm_compute; reflexivity.
Defined.

(** The paths through a link differ, so the set of visited paths does not stop
    the recursion: the copy of the directory fails where the system gives up. *)
Lemma cycle_fails_the_copy :
  @construct_file_list (cyclic true) 7 [[47; 97]] = Some (Err (FileError [47; 97; 47; 108; 47; 108; 47; 108] (Os 40))).
Proof. vm_compute; reflexivity. Qed.
