(* ===== verification/ServFiles.v ===== *)
(** * Serving copied files to the peer

    Models the file handle of [LocalFile] (src/libs/clipboard/src/platform/
    unix/local_file.rs) and [ClipFiles] with the functions around it
    (src/libs/clipboard/src/platform/unix/serv_files.rs): the list of copied
    files the host keeps and the requests for their sizes and contents. *)

From stdpp Require Import pretty.
From S2P Require Import Prelude ClipboardTypes FileDescriptor FileList.

Definition usize_max : Z := 18446744073709551615.

(** The error of [seek] is the system's; a length that cannot be allocated
    panics. *)
Section serving.
Context `{FileSystem, Utf16}.

(** ** The handle of a file *)

Definition load_handle (f : LocalFile) : result unit * LocalFile :=
  if negb (is_dir f) && is_none (handle f) then
    match open_file (path f) with
    | inl e => (Err (FileError (path f) e), f)
    | inr _ => (Ok tt, f <| handle := Some 0 |>)
    end
  else (Ok tt, f).

(** The bytes of an open file; empty when it is gone. *)
Definition contents (f : LocalFile) : list Z := match open_file (path f) with inr b => b | inl _ => [] end.

(** [read_exact_at] for a buffer of [len] bytes. *)
Definition read_exact_at (f : LocalFile) (len at_ : Z) : result (list Z) * LocalFile :=
  let '(r, f) := load_handle f in
  match r with
  | Err e => (Err e, f)
  | Panic => (Panic, f)
  | Ok _ =>
      match handle f with
      | None => (Err (FileError (path f) NotFound), f)
      | Some position =>
          if negb (at_ =? offset f) && (i64_max <? at_) then (Err (FileError (path f) InvalidInput), f)
          else
            let position := if at_ =? offset f then position else at_ in
            let available := Z.of_nat (length (contents f)) in
            if available <? position + len
            then (Err (FileError (path f) UnexpectedEof), f <| handle := Some (Z.max position available) |>)
            else
              let data := take (Z.to_nat len) (drop (Z.to_nat position) (contents f)) in
              let f := f <| handle := Some (position + len) |> in
              let new_offset := wrap_u64 (at_ + len) in
              let f := f <| offset := new_offset |> in
              (Ok data, if size f <=? new_offset then f <| offset := 0 |> <| handle := None |> else f)
      end
  end.

(** ** The list that is served *)

Inductive ContentsRequest :=
| Size (stream_id file_idx : Z)
| Range (stream_id file_idx offset length : Z).

Record ClipFiles := {
  files : list text;
  file_list : list LocalFile;
  first_file_index : Z;
  files_pdu : list Z;
}.

#[local] Instance eta_clip_files : Eta ClipFiles := fun s =>
  Build_ClipFiles (files s) (file_list s) (first_file_index s) (files_pdu s).

Definition default_files : ClipFiles := {| files := []; file_list := []; first_file_index := 0; files_pdu := [] |}.

Definition clear (s : ClipFiles) : ClipFiles :=
  s <| files := [] |> <| file_list := [] |> <| first_file_index := usize_max |> <| files_pdu := [] |>.

(** [Path::is_dir] and [Path::is_file] *)
Definition path_is_dir (p : text) : bool := match metadata p with inr mt => m_is_dir mt | inl _ => false end.
Definition path_is_file (p : text) : bool := match metadata p with inr mt => m_is_file mt | inl _ => false end.

Fixpoint position {A} (p : A -> bool) (l : list A) : option nat :=
  match l with
  | [] => None
  | a :: l => if p a then Some O else fmap S (position p l)
  end.

(** [ClipFiles::sync_files]; [None] when the recursion runs out of fuel. *)
Definition sync_clip_files (fuel : nat) (s : ClipFiles) (clipboard_files : list text) : option (result ClipFiles) :=
  fmap (fun r =>
    l ← r;
    Ok (s <| file_list := l |>
          <| first_file_index := map_or (position (fun f => negb (path_is_dir (path f))) l) usize_max Z.of_nat |>
          <| files := clipboard_files |>))
    (construct_file_list fuel clipboard_files).

Definition build_file_list_pdu (s : ClipFiles) : result ClipFiles :=
  pdu ← file_list_pdu (file_list s); Ok (s <| files_pdu := pdu |>).

(** [sync_files]: nothing is done when the paths are those already listed. *)
Definition sync_files (fuel : nat) (s : ClipFiles) (paths : list text) : option (result ClipFiles) :=
  if bool_decide (files s = paths) then Some (Ok s)
  else fmap (fun r => r ≫= build_file_list_pdu) (sync_clip_files fuel s paths).

Definition get_files_for_audit (s : ClipFiles) (request : ContentsRequest) : option ClipboardFile :=
  match request with
  | Range _ file_idx at_ _ =>
      if (file_idx =? first_file_index s) && (at_ =? 0) then
        let l := omap (fun f => if path_is_file (path f) then Some (path f, size f) else None) (file_list s) in
        match l with [] => None | _ => Some (Files l) end
      else None
  | Size _ _ => None
  end.

Definition invalid_index (file_idx conn : Z) : CliprdrError :=
  InvalidRequest ("invalid file index " +:+ pretty file_idx +:+ " requested from conn: " +:+ pretty conn).
Definition invalid_offset (conn : Z) : CliprdrError :=
  InvalidRequest ("invalid reading offset requested from conn: " +:+ pretty conn).

(** The handle of the next file that is no directory is opened in advance. *)
Fixpoint preload (l : list LocalFile) : result unit * list LocalFile :=
  match l with
  | [] => (Ok tt, [])
  | f :: l =>
      if negb (is_dir f) then let '(r, f) := load_handle f in (r, f :: l)
      else let '(r, l) := preload l in (r, f :: l)
  end.

Definition preload_after (idx : nat) (l : list LocalFile) : result unit * list LocalFile :=
  let '(r, rest) := preload (drop (S idx) l) in (r, take (S idx) l ++ rest).

(** The bytes of a range request. *)
Definition read_range (f : LocalFile) (at_ len conn : Z) : result (list Z) * LocalFile :=
  if size f <? at_ then (Err (invalid_offset conn), f)
  else
    let read_size := if size f <? wrap_u64 (at_ + len) then size f - at_ else len in
    if i64_max <? read_size then (Panic, f) else read_exact_at f read_size at_.

Definition request_index (request : ContentsRequest) : Z :=
  match request with Size _ i => i | Range _ i _ _ => i end.
Definition request_stream (request : ContentsRequest) : Z :=
  match request with Size s _ => s | Range s _ _ _ => s end.

Definition serve_file_contents (s : ClipFiles) (conn : Z) (request : ContentsRequest) :
    result ClipboardFile * ClipFiles :=
  let idx := Z.to_nat (request_index request) in
  match file_list s !! idx with
  | None => (Err (invalid_index (request_index request) conn), s)
  | Some file =>
      let '(data, file) := match request with
                           | Size _ _ => (Ok (le_bytes 8 (size file)), file)
                           | Range _ _ at_ len => read_range file at_ len conn
                           end in
      let s := s <| file_list ::= <[idx := file]> |> in
      match data with
      | Ok data =>
          let '(r, l) := preload_after idx (file_list s) in
          let s := s <| file_list := l |> in
          (_ ← r; Ok (FileContentsResponse 1 (request_stream request) data), s)
      | Err e => (Err e, s)
      | Panic => (Panic, s)
      end
  end.

(** The request of the message's [i32] fields, as cast. *)
Definition contents_request (stream_id list_index dw_flags n_position_low n_position_high cb_requested : Z) :
    option ContentsRequest :=
  if dw_flags =? 1 then Some (Size stream_id (wrap_u64 list_index))
  else if dw_flags =? 2 then
    let at_ := Z.lor (wrap_u64 (Z.shiftl (wrap_u64 n_position_high) 32)) (wrap_u64 n_position_low) in
    Some (Range stream_id (wrap_u64 list_index) at_ (wrap_u64 cb_requested))
  else None.

Definition read_file_contents (s : ClipFiles) (conn stream_id list_index dw_flags n_position_low n_position_high
    cb_requested : Z) : list (result ClipboardFile) * ClipFiles :=
  match contents_request stream_id list_index dw_flags n_position_low n_position_high cb_requested with
  | None => ([Err (InvalidRequest ("got invalid FileContentsRequest, dw_flats: " +:+ pretty dw_flags))], s)
  | Some fcr =>
      let audit := match get_files_for_audit s fcr with Some m => [Ok m] | None => [] end in
      let '(r, s) := serve_file_contents s conn fcr in
      (audit ++ [r], s)
  end.

(** ** What a request returns *)

(** A file of the list between requests: its handle, when open, stands where
    the recorded offset says; a directory is never open. *)
Record ready (f : LocalFile) : Prop := {
  ready_size : 0 <= size f <= i64_max;
  ready_offset : 0 <= offset f;
  ready_handle : match handle f with Some p => p = offset f | None => offset f = 0 end;
  ready_dir : is_dir f = true -> handle f = None;
}.

(** The file can be opened and holds as many bytes as was announced. *)
Definition readable (f : LocalFile) : Prop :=
  is_dir f = false -> exists b, open_file (path f) = inr b /\ Z.of_nat (length b) = size f.

(** Only the handle and its position differ. *)
Definition same_file (f f' : LocalFile) : Prop := f' = f <| handle := handle f' |> <| offset := offset f' |>.

Lemma same_file_refl f : same_file f f.
Proof. unfold same_file; by destruct f. Qed.

Lemma same_file_trans f1 f2 f3 : same_file f1 f2 -> same_file f2 f3 -> same_file f1 f3.
Proof. unfold same_file; intros -> ->; by destruct f1. Qed.

Lemma same_file_fields f f' : same_file f f' ->
  path f' = path f /\ size f' = size f /\ is_dir f' = is_dir f /\ contents f' = contents f.
Proof. unfold same_file, contents; intros ->; done. Qed.

Lemma readable_same f f' : same_file f f' -> readable f -> readable f'.
Proof. unfold same_file; intros ->; done. Qed.

Lemma load_handle_ready f :
  ready f -> readable f ->
  exists f', load_handle f = (Ok tt, f') /\ ready f' /\ same_file f f' /\ offset f' = offset f /\
    (is_dir f = false -> handle f' = Some (offset f)).
Proof.
  intros [H1 H2 H3 H4] Hr; unfold load_handle; destruct (is_dir f) eqn:Ed; cbn [negb andb].
  - exists f; split_and!; [done|by split; try rewrite Ed|apply same_file_refl|done|done].
  - destruct (handle f) as [q|] eqn:Eh; cbn [is_none].
    + exists f; split_and!; [done|split; rewrite ?Ed, ?Eh; done|apply same_file_refl|done|intros _; congruence].
    + destruct (Hr Ed) as (b & -> & Hb).
      exists (f <| handle := Some 0 |>); split_and!; [done| |by unfold same_file; destruct f|done|cbn; congruence].
      split; cbn; [done|done|congruence|congruence].
Qed.

Lemma same_file_moved f o h : same_file f (f <| offset := o |> <| handle := h |>).
Proof. unfold same_file; by destruct f. Qed.

Lemma ready_moved f o h :
  0 <= size f <= i64_max -> 0 <= o -> match h with Some p => p = o | None => o = 0 end ->
  (is_dir f = true -> h = None) -> ready (f <| offset := o |> <| handle := h |>).
Proof. by split. Qed.

Lemma read_exact_ready f len at_ :
  ready f -> readable f -> 0 <= at_ -> 0 <= len -> at_ + len <= size f ->
  exists f', read_exact_at f len at_ =
    (if is_dir f then Err (FileError (path f) NotFound)
     else Ok (take (Z.to_nat len) (drop (Z.to_nat at_) (contents f))), f') /\ ready f' /\ same_file f f'.
Proof.
  intros Hf Hr Ha Hl Hs; unfold read_exact_at.
  destruct (load_handle_ready f Hf Hr) as (f1 & -> & Hf1 & Hsame & Hoff & Hh).
  destruct (same_file_fields _ _ Hsame) as (Hp & Hsz & Hd & Hc).
  destruct (is_dir f) eqn:Ed.
  - rewrite (ready_dir _ Hf1) by congruence; rewrite Hp; eauto.
  - rewrite (Hh eq_refl); destruct Hf as [[Hmin Hmax] _ _ _].
    destruct (Z.ltb_spec i64_max at_); [lia|]; rewrite andb_false_r; cbv zeta.
    replace (if at_ =? offset f1 then offset f else at_) with at_ by (destruct (Z.eqb_spec at_ (offset f1)); lia).
    rewrite Hc; destruct (Hr Ed) as (b & Hb & Hlen).
    assert (contents f = b) as Hcb by (unfold contents; by rewrite Hb).
    rewrite Hcb; destruct (Z.ltb_spec (Z.of_nat (length b)) (at_ + len)); [lia|].
    cbn [size set_field]; unfold wrap_u64; rewrite (Z.mod_small (at_ + len)) by (unfold i64_max in *; lia).
    exists (if size f <=? at_ + len then f <| offset := 0 |> <| handle := None |>
            else f <| offset := at_ + len |> <| handle := Some (at_ + len) |>); split.
    { unfold same_file in Hsame; rewrite Hsame; reflexivity. }
    assert (0 <= size f <= i64_max) by done.
    destruct (Z.leb_spec (size f) (at_ + len)); (split; [|by apply same_file_moved]); apply ready_moved; first [done|lia|congruence].
Qed.

Definition serveable (f : LocalFile) : Prop := ready f /\ readable f.

Lemma read_range_ready f at_ len conn :
  serveable f -> 0 <= at_ -> 0 <= len -> at_ + len <= u64_max \/ i64_max < at_ ->
  exists f', read_range f at_ len conn =
    (if size f <? at_ then Err (invalid_offset conn)
     else if is_dir f then Err (FileError (path f) NotFound)
     else Ok (take (Z.to_nat (Z.min len (size f - at_))) (drop (Z.to_nat at_) (contents f))), f') /\
    serveable f' /\ same_file f f'.
Proof.
  intros [Hf Hr] Ha Hl Hs; unfold read_range; pose proof (ready_size _ Hf) as Hmax.
  destruct (Z.ltb_spec (size f) at_); [exists f; split_and!; [done|done|apply same_file_refl]|].
  unfold wrap_u64; rewrite (Z.mod_small (at_ + len)) by (unfold u64_max in Hs; lia); cbv zeta.
  pose proof (ready_size _ Hf) as Hsz.
  replace (if size f <? at_ + len then size f - at_ else len) with (Z.min len (size f - at_))
    by (destruct (Z.ltb_spec (size f) (at_ + len)); lia).
  destruct (Z.ltb_spec i64_max (Z.min len (size f - at_))); [lia|].
  destruct (read_exact_ready f (Z.min len (size f - at_)) at_ Hf Hr ltac:(lia) ltac:(lia) ltac:(lia))
    as (f' & -> & Hf' & Hsame).
  exists f'; split_and!; [done|split; [done|by eapply readable_same]|done].
Qed.

Lemma preload_ready l :
  Forall serveable l ->
  exists l', preload l = (Ok tt, l') /\ Forall serveable l' /\ Forall2 same_file l l'.
Proof.
  induction 1 as [|f l [Hf Hr] Hl IH]; [by exists []|]; cbn [preload].
  destruct (is_dir f) eqn:Ed; cbn [negb].
  - destruct IH as (l' & -> & Hl' & Hs); exists (f :: l'); split_and!; [done|by constructor|].
    constructor; [apply same_file_refl|done].
  - destruct (load_handle_ready f Hf Hr) as (f' & -> & Hf' & Hs & _).
    exists (f' :: l); split_and!; [done| |].
    + constructor; [split; [done|by eapply readable_same]|done].
    + constructor; [done|]; clear; induction l; constructor; auto using same_file_refl.
Qed.

Lemma same_files_refl l : Forall2 same_file l l.
Proof. induction l; constructor; auto using same_file_refl. Qed.

Lemma preload_after_ready idx l :
  Forall serveable l ->
  exists l', preload_after idx l = (Ok tt, l') /\ Forall serveable l' /\ Forall2 same_file l l'.
Proof.
  intros Hl; unfold preload_after.
  destruct (preload_ready (drop (S idx) l) (Forall_drop _ _ _ Hl)) as (l' & -> & Hl' & Hs).
  exists (take (S idx) l ++ l'); split_and!; [done|apply Forall_app; split; [by apply Forall_take|done]|].
  rewrite <- (take_drop (S idx) l) at 1; apply Forall2_app; [apply same_files_refl|done].
Qed.

Lemma same_files_insert l i f f' : l !! i = Some f -> same_file f f' -> Forall2 same_file l (<[i := f']> l).
Proof.
  revert i; induction l as [|g l IH]; intros [|i] Hi Hs; try done; cbn in *.
  - injection Hi as ->; constructor; [done|apply same_files_refl].
  - constructor; [apply same_file_refl|by apply IH].
Qed.

Lemma same_files_trans l1 l2 l3 : Forall2 same_file l1 l2 -> Forall2 same_file l2 l3 -> Forall2 same_file l1 l3.
Proof.
  intros H12; revert l3; induction H12 as [|f1 f2 l1 l2 Hs H12 IH]; intros l3 H23; inversion H23; subst; constructor.
  - by eapply same_file_trans.
  - by apply IH.
Qed.

(** The answer to a request, whatever was requested before. *)
Definition answer (l : list LocalFile) (conn : Z) (request : ContentsRequest) : result ClipboardFile :=
  match l !! Z.to_nat (request_index request) with
  | None => Err (invalid_index (request_index request) conn)
  | Some f =>
      match request with
      | Size stream _ => Ok (FileContentsResponse 1 stream (le_bytes 8 (size f)))
      | Range stream _ at_ len =>
          if size f <? at_ then Err (invalid_offset conn)
          else if is_dir f then Err (FileError (path f) NotFound)
          else Ok (FileContentsResponse 1 stream
                     (take (Z.to_nat (Z.min len (size f - at_))) (drop (Z.to_nat at_) (contents f))))
      end
  end.

(** The end of a range does not overflow, or the range is behind any file. *)
Definition in_range (request : ContentsRequest) : Prop :=
  match request with
  | Size _ _ => True
  | Range _ _ at_ len => 0 <= at_ /\ 0 <= len /\ (at_ + len <= u64_max \/ i64_max < at_)
  end.

Lemma serve_answers s conn request :
  Forall serveable (file_list s) -> in_range request ->
  exists s', serve_file_contents s conn request = (answer (file_list s) conn request, s') /\
    Forall serveable (file_list s') /\ Forall2 same_file (file_list s) (file_list s') /\
    files s' = files s /\ first_file_index s' = first_file_index s /\ files_pdu s' = files_pdu s.
Proof.
  intros Hl Hin; unfold serve_file_contents, answer.
  destruct (file_list s !! Z.to_nat (request_index request)) as [f|] eqn:Ef;
    [|exists s; split_and!; auto using same_files_refl].
  assert (serveable f) as Hf by (by eapply Forall_lookup_1).
  assert (forall f', serveable f' -> same_file f f' ->
    let l := <[Z.to_nat (request_index request) := f']> (file_list s) in
    Forall serveable l /\ Forall2 same_file (file_list s) l) as Hins.
  { intros f' Hf' Hs; split; [by apply Forall_insert|by eapply same_files_insert]. }
  destruct request as [stream i|stream i at_ len]; cbn [request_index request_stream] in *.
  - destruct (Hins f Hf (same_file_refl f)) as [H1 H2]; cbn.
    destruct (preload_after_ready (Z.to_nat i) _ H1) as (l' & -> & H3 & H4).
    eexists; split_and!; [reflexivity|done|by eapply same_files_trans|done..].
  - destruct Hin as (Ha & Hlen & Hmax).
    destruct (read_range_ready f at_ len conn Hf Ha Hlen Hmax) as (f' & -> & Hf' & Hs).
    destruct (Hins f' Hf' Hs) as [H1 H2]; cbn.
    destruct (size f <? at_); [eexists; split_and!; [reflexivity|done..]|].
    destruct (is_dir f); [eexists; split_and!; [reflexivity|done..]|]; cbn.
    destruct (preload_after_ready (Z.to_nat i) _ H1) as (l' & -> & H3 & H4).
    eexists; split_and!; [reflexivity|done|by eapply same_files_trans|done..].
Qed.

Lemma answer_same l l' conn request : Forall2 same_file l l' -> answer l' conn request = answer l conn request.
Proof.
  intros Hs; unfold answer; destruct (l !! _) as [f|] eqn:E.
  - destruct (Forall2_lookup_l _ _ _ _ _ Hs E) as (f' & -> & Hf).
    destruct (same_file_fields _ _ Hf) as (-> & -> & -> & ->); done.
  - apply lookup_ge_None in E; rewrite (Forall2_length _ _ _ Hs) in E; apply lookup_ge_None in E; by rewrite E.
Qed.

(** Requests one after the other. *)
Fixpoint serve_all (s : ClipFiles) (requests : list (Z * ContentsRequest)) : list (result ClipboardFile) :=
  match requests with
  | [] => []
  | (conn, request) :: requests =>
      let '(r, s) := serve_file_contents s conn request in r :: serve_all s requests
  end.

(** Serving copied files: whatever was requested before, from whichever
    files and positions, a request whose range does not overflow (or lies behind
    the end of any file) is answered with the size of its file, or with exactly
    the bytes of its range that the file has, or with the error of a bad index,
    an offset behind the end, or a directory. *)
Theorem serving_is_random_access s requests :
  Forall serveable (file_list s) -> Forall (fun x => in_range x.2) requests ->
  serve_all s requests = map (fun x => answer (file_list s) x.1 x.2) requests.
Proof.
  intros Hl Hr; revert s Hl; induction Hr as [|[conn request] requests Hin Hr IH]; intros s Hl; [done|].
  cbn [serve_all map fst snd] in *; destruct (serve_answers s conn request Hl Hin) as (s' & -> & Hl' & Hs & _).
  f_equal; rewrite IH by done; apply list_fmap_ext; intros i x _; by apply answer_same.
Qed.

(** A range whose end overflows stops the thread: the buffer it asks for cannot
    be allocated. *)
Lemma overflow_panics s conn stream idx f at_ len :
  file_list s !! Z.to_nat idx = Some f -> 0 <= at_ <= size f -> size f <= i64_max ->
  0 <= len <= u64_max -> u64_max < at_ + len ->
  (serve_file_contents s conn (Range stream idx at_ len)).1 = Panic.
Proof.
  intros Hf Ha Hs Hl Ho; unfold serve_file_contents; cbn [request_index]; rewrite Hf; unfold read_range.
  destruct (Z.ltb_spec (size f) at_); [lia|].
  unfold wrap_u64, u64_max, i64_max in *.
  replace (at_ + len) with (at_ + len - 18446744073709551616 + 1 * 18446744073709551616) by lia.
  rewrite Z.mod_add, Z.mod_small by lia.
  destruct (Z.ltb_spec (size f) (at_ + len - 18446744073709551616)); [lia|].
  destruct (Z.ltb_spec 9223372036854775807 len); [done|lia].
Qed.
End serving.

(** ** Examples *)

(** The host lists the directory [/a] with its file of three bytes. *)
Definition served : ClipFiles :=
  match @sync_files (cyclic false) _ 7 default_files [[47; 97]] with Some (Ok s) => s | _ => default_files end.

Lemma served_serveable : Forall (@serveable (cyclic false)) (file_list served).
Proof.
  assert (forall f, (0 <=? size f) && (size f <=? i64_max) && bool_decide (handle f = None) && (offset f =? 0) = true ->
    size f = 3 \/ is_dir f = true -> @serveable (cyclic false) f) as H.
  { intros f (((Hf1 & Hf2)%andb_true_iff & Hh%bool_decide_eq_true)%andb_true_iff & Ho)%andb_true_iff Hs; split.
    - split; [lia|lia|rewrite Hh; lia|done].
    - intros Hd; exists [1; 2; 3]; split; [done|]; destruct Hs as [-> |]; [done|congruence]. }
  replace (file_list served) with [nth 0 (file_list served) example_dir; nth 1 (file_list served) example_dir]
    by (vm_compute; reflexivity).
  repeat constructor; apply H; first [vm_compute; reflexivity|by right; vm_compute|by left; vm_compute].
Qed.

Lemma serving_is_random_access_witness :
  @serve_all (cyclic false) served [(7, Range 9 1 1 5); (7, Range 9 1 0 2); (7, Size 9 1); (7, Range 9 1 4 1)] =
    [Ok (FileContentsResponse 1 9 [2; 3]); Ok (FileContentsResponse 1 9 [1; 2]);
     Ok (FileContentsResponse 1 9 [3; 0; 0; 0; 0; 0; 0; 0]); Err (invalid_offset 7)].
Proof.
  rewrite (@serving_is_random_access (cyclic false) served); [vm_compute; reflexivity|apply served_serveable|].
  repeat constructor; vm_compute; try discriminate; reflexivity.
Defined.

(** A file that cannot be opened makes the read of the file before it fail. *)
Definition unreadable_second : FileSystem :=
  {| metadata p := inr node_file;
     read_dir p := inr [];
     open_file p := if decide (p = [47; 97]) then inr [1; 2; 3] else inl (Os 13) |}.

Lemma unreadable_next_file_fails_read :
  let s := match @sync_files unreadable_second _ 7 default_files [[47; 97]; [47; 98]] with
           | Some (Ok s) => s | _ => default_files end in
  (@serve_file_contents unreadable_second s 7 (Range 9 0 0 3)).1 = Err (FileError [47; 98] (Os 13)).
Proof. vm_compute; reflexivity. Qed.
