(* ===== verification/FuseTree.v ===== *)
(** * The mounted copy of the peer's files

    Models [FuseServer], [FuseNode], [FileHandles] and [InodeAttributes] of
    src/libs/clipboard/src/platform/unix/fuse/cs.rs: the tree built from the
    peer's file list, the handlers of the FUSE requests and the read of a file
    through the clipboard channel.  The clock and the random stream identifiers
    are parameters; a channel is the list of what [recv_timeout] returns. *)

From S2P Require Import Prelude ClipboardTypes FileDescriptor.

Definition FUSE_ROOT_ID : Z := 1.
Definition READ_RETRY : Z := 3.

Inductive Errno := ENOENT | ENOTDIR | EBUSY | EBADF | ENFILE | EIO | ENAMETOOLONG.

Record InodeAttributes := {
  inode : Z;
  a_size : Z;
  last_accessed : Z;
  a_last_modified : Z;
  a_last_metadata_changed : Z;
  a_creation_time : Z;
  a_kind : FileType;
  a_perm : Z;
}.

(** [handlers] and [gc] are the node's [FileHandles]. *)
Record FuseNode := {
  n_conn_id : Z;
  stream_id : Z;
  index : Z;
  n_parent : option Z;
  n_name : text;
  attributes : InodeAttributes;
  children : list Z;
  handlers : list Z;
  gc : bool;
}.

#[export] Instance eta_node : Eta FuseNode := fun n =>
  Build_FuseNode (n_conn_id n) (stream_id n) (index n) (n_parent n) (n_name n) (attributes n) (children n)
    (handlers n) (gc n).

Record FuseServer := {
  generation : Z;
  tree : list FuseNode;
  file_handle_counter : Z;
}.

#[export] Instance eta_server : Eta FuseServer := fun s =>
  Build_FuseServer (generation s) (tree s) (file_handle_counter s).

Definition new_server : FuseServer := {| generation := 0; tree := []; file_handle_counter := 0 |}.

(** ** The tree *)

Section tree.
(** The time of the call, and what [rand::random()] draws for an inode. *)
Variable now : Z.
Variable random : Z -> Z.

Definition attributes_from_description (ino : Z) (d : FileDescription) : InodeAttributes :=
  {| inode := ino; a_size := fd_size d; last_accessed := now; a_last_modified := last_modified d;
     a_last_metadata_changed := last_metadata_changed d; a_creation_time := creation_time d;
     a_kind := kind d; a_perm := fd_perm d |}.

Definition attributes_new_root : InodeAttributes :=
  {| inode := FUSE_ROOT_ID; a_size := 0; last_accessed := now; a_last_modified := now;
     a_last_metadata_changed := now; a_creation_time := now; a_kind := Directory; a_perm := PERM_RWX |}.

Definition from_description (ino : Z) (d : FileDescription) : FuseNode :=
  {| n_conn_id := conn_id d; stream_id := random ino; index := wrap_u64 (ino - 2); n_parent := None;
     n_name := fd_name d; attributes := attributes_from_description ino d; children := []; handlers := [];
     gc := false |}.

Definition new_root : FuseNode :=
  {| n_conn_id := 0; stream_id := random FUSE_ROOT_ID; index := 0; n_parent := None; n_name := [slash];
     attributes := attributes_new_root; children := []; handlers := []; gc := false |}.

Definition add_child (n : FuseNode) (ino : Z) : FuseNode := n <| children ::= fun l => l ++ [ino] |>.

(** One file of [build_tree]: the nodes so far and the inodes of directories. *)
Definition add_file (st : list FuseNode * gmap (list component) Z) (file : FileDescription) :
    result (list FuseNode * gmap (list component) Z) :=
  let '(tree_list, sub_root_map) := st in
  let ino := Z.of_nat (length tree_list) + FUSE_ROOT_ID in
  let parent_inode := match parent (fd_name file) with
                      | Some parent => unwrap_or (sub_root_map !! parent) FUSE_ROOT_ID
                      | None => FUSE_ROOT_ID
                      end in
  match tree_list !! Z.to_nat (parent_inode - 1) with
  | None => Panic
  | Some p =>
      let tree_list := <[Z.to_nat (parent_inode - 1) := add_child p ino]> tree_list in
      base_name ← ok_or (file_name (fd_name file)) (FileError (fd_name file) InvalidData);
      let sub_root_map := if bool_decide (kind file = Directory)
                          then <[components (fd_name file) := ino]> sub_root_map else sub_root_map in
      let desc := {| conn_id := conn_id file; fd_name := base_name; kind := kind file; atime := atime file;
                     last_modified := last_modified file; last_metadata_changed := last_metadata_changed file;
                     creation_time := creation_time file; fd_size := fd_size file; fd_perm := fd_perm file |} in
      let fuse_node := from_description ino desc <| n_parent := Some parent_inode |> in
      Ok (tree_list ++ [fuse_node], sub_root_map)
  end.

Definition root_map : gmap (list component) Z :=
  <[components [] := FUSE_ROOT_ID]> (<[components [slash] := FUSE_ROOT_ID]> ∅).

Fixpoint add_files (st : list FuseNode * gmap (list component) Z) (files : list FileDescription) :
    result (list FuseNode * gmap (list component) Z) :=
  match files with
  | [] => Ok st
  | file :: files => st ← add_file st file; add_files st files
  end.

Definition build_tree (files : list FileDescription) : result (list FuseNode) :=
  st ← add_files ([new_root], root_map) files; Ok st.1.

(** ** The server *)

Definition load_file_list (s : FuseServer) (files : list FileDescription) : result FuseServer :=
  t ← build_tree files;
  Ok (s <| tree := t |> <| generation ::= fun g => wrap_u64 (g + 1) |>).

Definition init (s : FuseServer) : FuseServer :=
  match tree s with [] => s <| tree := [new_root] |> | _ => s end.
End tree.

(** [files.get(ino as usize - 1)], which wraps to no entry at all for 0. *)
Definition node_at (s : FuseServer) (ino : Z) : option FuseNode :=
  if ino <=? 0 then None else tree s !! Z.to_nat (ino - 1).

Definition set_node (s : FuseServer) (ino : Z) (n : FuseNode) : FuseServer :=
  s <| tree ::= <[Z.to_nat (ino - 1) := n]> |>.

(** [FileHandles]: a search in a sorted vector. *)
Definition have_handler (n : FuseNode) (fh : Z) : bool := bool_decide (fh ∈ handlers n).
Definition add_handler (n : FuseNode) (fh : Z) : option FuseNode :=
  if gc n then None else Some (n <| handlers ::= fun l => l ++ [fh] |>).
Definition unregister_handler (n : FuseNode) (fh : Z) : option FuseNode :=
  if have_handler n fh
  then Some (n <| handlers ::= fun l => match list_find (eq fh) l with Some (i, _) => delete i l | None => l end |>)
  else None.

Definition alloc_fd (s : FuseServer) : Z * FuseServer :=
  (file_handle_counter s, s <| file_handle_counter ::= fun c => wrap_u64 (c + 1) |>).

(** The child whose name is the one looked for; a child that is no node panics. *)
Fixpoint find_child (s : FuseServer) (wanted : text) (l : list Z) : outcome Errno InodeAttributes :=
  match l with
  | [] => Err ENOENT
  | ino :: l =>
      match node_at s ino with
      | None => Panic
      | Some child => if bool_decide (n_name child = wanted) then Ok (attributes child) else find_child s wanted l
      end
  end.

(** [name_bytes] is the length of the name in bytes. *)
Definition lookup (s : FuseServer) (parent : Z) (wanted : text) (name_bytes : nat) : outcome Errno (InodeAttributes * Z) :=
  if (MAX_NAME_LEN <? name_bytes)%nat then Err ENAMETOOLONG
  else
    match node_at s parent with
    | None => Err ENOENT
    | Some p =>
        if negb (bool_decide (a_kind (attributes p) = Directory)) then Err ENOTDIR
        else a ← find_child s wanted (children p); Ok (a, generation s)
    end.

(** [open] and [opendir] differ in the kind asked for and its error. *)
Definition open_node (s : FuseServer) (ino : Z) (k : FileType) (wrong : Errno) : outcome Errno Z * FuseServer :=
  match node_at s ino with
  | None => (Err ENOENT, s)
  | Some n =>
      if negb (bool_decide (a_kind (attributes n) = k)) then (Err wrong, s)
      else if gc n then (Err EBUSY, s)
      else
        let '(fh, s) := alloc_fd s in
        match add_handler n fh with
        | Some n => (Ok fh, set_node s ino n)
        | None => (Panic, s)
        end
  end.

Definition open (s : FuseServer) (ino : Z) : outcome Errno Z * FuseServer := open_node s ino File ENFILE.
Definition opendir (s : FuseServer) (ino : Z) : outcome Errno Z * FuseServer := open_node s ino Directory ENOTDIR.

Definition releasedir (s : FuseServer) (ino fh : Z) : outcome Errno unit * FuseServer :=
  match node_at s ino with
  | None => (Err ENOENT, s)
  | Some n =>
      if negb (bool_decide (a_kind (attributes n) = Directory)) then (Err ENOTDIR, s)
      else if negb (have_handler n fh) then (Err EBADF, s)
      else (Ok tt, set_node s ino (unwrap_or (unregister_handler n fh) n))
  end.

Definition release (s : FuseServer) (ino fh : Z) : outcome Errno unit * FuseServer :=
  match node_at s ino with
  | None => (Err ENOENT, s)
  | Some n =>
      match unregister_handler n fh with
      | Some n => (Ok tt, set_node s ino n)
      | None => (Err EBADF, s)
      end
  end.

Fixpoint child_entries (s : FuseServer) (l : list Z) : outcome Errno (list (Z * FileType * text)) :=
  match l with
  | [] => Ok []
  | ino :: l =>
      match node_at s ino with
      | None => Panic
      | Some child => es ← child_entries s l; Ok ((ino, a_kind (attributes child), n_name child) :: es)
      end
  end.

(** The entries offered to the reply, each with its offset; the reply stops
    taking them when its buffer is full.  A negative offset is past the end. *)
Definition readdir (s : FuseServer) (ino fh offset : Z) : outcome Errno (list (Z * Z * FileType * text)) :=
  match node_at s ino with
  | None => Err ENOENT
  | Some n =>
      if negb (have_handler n fh) then Err EBADF
      else if negb (bool_decide (a_kind (attributes n) = Directory)) then Err ENOTDIR
      else
        children ← child_entries s (children n);
        let entries := (ino, Directory, [dot])
                       :: match n_parent n with Some p => [(p, Directory, [dot; dot])] | None => [] end
                       ++ children in
        Ok (if offset <? 0 then []
            else drop (Z.to_nat offset)
                   (imap (fun i '(ino, k, name) => (ino, Z.of_nat i + 1, k, name)) entries))
  end.

Definition getattr (s : FuseServer) (ino : Z) : outcome Errno InodeAttributes :=
  match node_at s ino with None => Err ENOENT | Some n => Ok (attributes n) end.

Definition statfs (s : FuseServer) : Z :=
  foldl (fun blocks n => wrap_u64 (blocks + (a_size (attributes n) / BLOCK_SIZE
                                   + Z.b2z (negb (a_size (attributes n) mod BLOCK_SIZE =? 0))))) 0 (tree s).

(** The blocks of a file's attributes. *)
Definition attr_blocks (a : InodeAttributes) : Z :=
  if a_size a mod BLOCK_SIZE =? 0 then a_size a / BLOCK_SIZE else a_size a / BLOCK_SIZE + 1.

Definition list_root (s : FuseServer) : outcome CliprdrError (list text) :=
  match tree s with
  | [] => Panic
  | root :: _ =>
      mapM (fun ino => match node_at s ino with Some n => Ok (n_name n) | None => Panic end) (children root)
  end.

(** ** Reading a file *)

Section read.
(** [send_data] for the request. *)
Variable send_data : ClipboardFile -> outcome CliprdrError unit.

Definition contents_request_of (n : FuseNode) (offset size : Z) : ClipboardFile :=
  FileContentsRequest (stream_id n) (as_i32 (index n)) 2 (as_i32 (Z.land offset u32_max))
    (as_i32 (Z.shiftr offset 32)) (as_i32 size) false 0.

Definition send_request (r : ClipboardFile) : outcome io_error unit :=
  match send_data r with Ok _ => Ok tt | Err _ => Err Other | Panic => Panic end.

(** The loop over the replies; [None] is a timeout, as is the end of the list.
    The requests sent are collected. *)
Fixpoint await_reply (request : ClipboardFile) (stream retry_times : Z) (replies : list (option ClipboardFile)) :
    outcome io_error (list Z) * list ClipboardFile :=
  match replies with
  | [] | None :: _ => (Err TimedOut, [])
  | Some (FileContentsResponse msg_flags sid requested_data) :: replies =>
      if negb (sid =? stream) then await_reply request stream retry_times replies
      else if Z.land msg_flags 1 =? 0 then
        let retry_times := retry_times + 1 in
        if READ_RETRY <? retry_times then (Err Other, [])
        else
          match send_request request with
          | Ok _ => let '(r, sent) := await_reply request stream retry_times replies in (r, request :: sent)
          | Err e => (Err e, [])
          | Panic => (Panic, [])
          end
      else (Ok requested_data, [])
  | Some _ :: _ => (Err Other, [])
  end.

Definition read_node (n : FuseNode) (offset size : Z) (replies : list (option ClipboardFile)) :
    outcome io_error (list Z) * list ClipboardFile :=
  let request := contents_request_of n offset size in
  match send_request request with
  | Ok _ => let '(r, sent) := await_reply request (stream_id n) 0 replies in (r, request :: sent)
  | Err e => (Err e, [])
  | Panic => (Panic, [])
  end.

Definition read (s : FuseServer) (ino fh offset size : Z) (replies : list (option ClipboardFile)) :
    outcome Errno (list Z) * list ClipboardFile :=
  match node_at s ino with
  | None => (Err ENOENT, [])
  | Some n =>
      if negb (have_handler n fh) then (Err EBADF, [])
      else if negb (bool_decide (a_kind (attributes n) = File)) then (Err ENFILE, [])
      else if gc n then (Err EBUSY, [])
      else
        let '(r, sent) := read_node n offset size replies in
        (match r with Ok b => Ok b | Err _ => Err EIO | Panic => Panic end, sent)
  end.
End read.

(** ** The tree that is built *)

(** The last directory of [ds] at the path [p]. *)
Definition last_dir (ds : list FileDescription) (p : list component) : option nat :=
  last (omap id (imap (fun j d => if bool_decide (kind d = Directory /\ components (fd_name d) = p)
                                  then Some j else None) ds)).

(** The inode under which [d] goes, after the files [ds]: that of the last
    directory with the path of its parent, or the root. *)
Definition parent_inode (ds : list FileDescription) (d : FileDescription) : Z :=
  match parent (fd_name d) with
  | Some p => match last_dir ds p with Some j => Z.of_nat j + 2 | None => FUSE_ROOT_ID end
  | None => FUSE_ROOT_ID
  end.

(** The inodes under the inode [v], in order. *)
Definition children_of (ds : list FileDescription) (v : Z) : list Z :=
  omap id (imap (fun k d => if bool_decide (parent_inode (take k ds) d = v) then Some (Z.of_nat k + 2) else None) ds).

Definition based (d : FileDescription) : FileDescription :=
  {| conn_id := conn_id d; fd_name := unwrap_or (file_name (fd_name d)) []; kind := kind d; atime := atime d;
     last_modified := last_modified d; last_metadata_changed := last_metadata_changed d;
     creation_time := creation_time d; fd_size := fd_size d; fd_perm := fd_perm d |}.

Section tree_theory.
Variable now : Z.
Variable random : Z -> Z.

Definition node_of (ds : list FileDescription) (k : nat) (d : FileDescription) : FuseNode :=
  from_description now random (Z.of_nat k + 2) (based d)
    <| n_parent := Some (parent_inode (take k ds) d) |> <| children := children_of ds (Z.of_nat k + 2) |>.

(** The root, and a node for each file at its place in the list. *)
Definition reference_tree (ds : list FileDescription) : list FuseNode :=
  (new_root now random <| children := children_of ds FUSE_ROOT_ID |>) :: imap (node_of ds) ds.

Lemma last_dir_snoc ds d p :
  last_dir (ds ++ [d]) p =
    if bool_decide (kind d = Directory /\ components (fd_name d) = p) then Some (length ds) else last_dir ds p.
Proof.
  unfold last_dir; rewrite imap_app, omap_app; cbn [imap omap list_omap]; unfold compose.
  rewrite Nat.add_0_r; case_bool_decide; cbn; [by rewrite last_snoc|by rewrite app_nil_r].
Qed.

Lemma last_dir_lt ds p j : last_dir ds p = Some j -> (j < length ds)%nat.
Proof.
  induction ds as [|d ds IH] using rev_ind; [done|]; rewrite last_dir_snoc, length_app; cbn.
  case_bool_decide; [intros [= <-]; lia|]; intros Hj%IH; lia.
Qed.

Lemma parent_inode_range ds d : 1 <= parent_inode ds d <= Z.of_nat (length ds) + 1.
Proof.
  unfold parent_inode, FUSE_ROOT_ID; destruct (parent _) as [p|]; [|lia].
  destruct (last_dir ds p) as [j|] eqn:E; [apply last_dir_lt in E|]; lia.
Qed.

Lemma children_snoc ds d v :
  children_of (ds ++ [d]) v =
    children_of ds v ++ if bool_decide (parent_inode ds d = v) then [Z.of_nat (length ds) + 2] else [].
Proof.
  unfold children_of; rewrite imap_app, omap_app; cbn [imap omap list_omap]; unfold compose.
  rewrite Nat.add_0_r, take_app_length; f_equal; [|by case_bool_decide].
  f_equal; apply imap_ext; intros k d' Hk; rewrite take_app_le; [done|].
  apply lookup_lt_Some in Hk; lia.
Qed.

Lemma children_above ds v : Z.of_nat (length ds) + 1 < v -> children_of ds v = [].
Proof.
  induction ds as [|d ds IH] using rev_ind; [done|]; rewrite length_app, children_snoc; cbn; intros Hv.
  rewrite IH by lia; pose proof (parent_inode_range ds d); by rewrite bool_decide_eq_false_2 by lia.
Qed.

Lemma reference_length ds : length (reference_tree ds) = S (length ds).
Proof. cbn; by rewrite length_imap. Qed.

Lemma node_of_snoc ds d k d' :
  (k < length ds)%nat -> node_of (ds ++ [d]) k d' = 
    node_of ds k d' <| children ::= fun l => l ++ if bool_decide (parent_inode ds d = Z.of_nat k + 2)
                                                  then [Z.of_nat (length ds) + 2] else [] |>.
Proof. intros Hk; unfold node_of; rewrite take_app_le by lia; by rewrite children_snoc. Qed.

(** The next file is a new node at the end, and one more child of its parent. *)
Lemma reference_snoc ds d :
  exists p, reference_tree ds !! Z.to_nat (parent_inode ds d - 1) = Some p /\
    reference_tree (ds ++ [d]) =
      <[Z.to_nat (parent_inode ds d - 1) := add_child p (Z.of_nat (length ds) + 2)]> (reference_tree ds)
      ++ [from_description now random (Z.of_nat (length ds) + 2) (based d)
            <| n_parent := Some (parent_inode ds d) |>].
Proof.
  pose proof (parent_inode_range ds d) as Hr; set (v := parent_inode ds d) in *.
  assert (imap (node_of (ds ++ [d])) (ds ++ [d]) =
    imap (fun k d' => node_of ds k d' <| children ::= fun l => l ++ if bool_decide (v = Z.of_nat k + 2)
      then [Z.of_nat (length ds) + 2] else [] |>) ds ++
    [from_description now random (Z.of_nat (length ds) + 2) (based d) <| n_parent := Some v |>]) as Himap.
  { rewrite imap_app; f_equal.
    - apply imap_ext; intros k d' Hk; apply node_of_snoc; by eapply lookup_lt_Some.
    - cbn; unfold compose; rewrite Nat.add_0_r; unfold node_of; rewrite take_app_length.
      rewrite children_snoc, children_above, bool_decide_eq_false_2 by lia; done. }
  unfold reference_tree; rewrite Himap, children_snoc; fold v; unfold FUSE_ROOT_ID.
  destruct (decide (v = 1)) as [Hv|Hv].
  - exists (new_root now random <| children := children_of ds 1 |>); rewrite Hv; split; [done|].
    rewrite bool_decide_eq_true_2 by done; change (Z.to_nat (1 - 1)) with O; cbn [insert list_insert app].
    erewrite (imap_ext _ (node_of ds)); [reflexivity|].
    intros k d' _; rewrite bool_decide_eq_false_2 by lia; cbn; rewrite app_nil_r; reflexivity.
  - assert (exists j, v = Z.of_nat j + 2 /\ (j < length ds)%nat) as (j & Hj & Hlt).
    { exists (Z.to_nat (v - 2)); lia. }
    destruct (lookup_lt_is_Some_2 ds j Hlt) as [dj Hdj].
    replace (Z.to_nat (v - 1)) with (S j) by lia.
    exists (node_of ds j dj); split; [change (imap (node_of ds) ds !! j = Some (node_of ds j dj)); by rewrite list_lookup_imap, Hdj|].
    rewrite bool_decide_eq_false_2 by done; rewrite app_nil_r.
    match goal with |- _ = <[S j := ?x]> (?a :: ?l) ++ ?r =>
      change (<[S j := x]> (a :: l) ++ r) with (a :: (<[j := x]> l ++ r)) end.
    cbn [app]; do 2 f_equal.
    apply list_eq; intros k; destruct (decide (k = j)) as [->|Hkj].
    + rewrite list_lookup_imap, Hdj, list_lookup_insert_eq by (by rewrite length_imap); cbn.
      by rewrite bool_decide_eq_true_2.
    + rewrite list_lookup_insert_ne, !list_lookup_imap by done.
      destruct (ds !! k) as [dk|]; [|done]; cbn; rewrite bool_decide_eq_false_2 by lia; by rewrite app_nil_r.
Qed.

(** The map of directories finds the last one, or the root. *)
Definition finds (ds : list FileDescription) (m : gmap (list component) Z) : Prop :=
  forall p, unwrap_or (m !! p) FUSE_ROOT_ID =
    match last_dir ds p with Some j => Z.of_nat j + 2 | None => FUSE_ROOT_ID end.

Lemma root_map_finds : finds [] root_map.
Proof.
  intros p; unfold root_map; cbn.
  destruct (decide (p = [])) as [->|]; [by rewrite lookup_insert_eq|rewrite lookup_insert_ne by done].
  destruct (decide (p = [RootDir])) as [->|]; [by rewrite lookup_insert_eq|by rewrite lookup_insert_ne].
Qed.

Lemma add_file_reference ds m d :
  finds ds m ->
  match file_name (fd_name d) with
  | None => add_file now random (reference_tree ds, m) d = Err (FileError (fd_name d) InvalidData)
  | Some _ => exists m', add_file now random (reference_tree ds, m) d = Ok (reference_tree (ds ++ [d]), m') /\
                         finds (ds ++ [d]) m'
  end.
Proof.
  intros Hm; unfold add_file.
  assert ((match parent (fd_name d) with Some p => unwrap_or (m !! p) FUSE_ROOT_ID | None => FUSE_ROOT_ID end)
    = parent_inode ds d) as Hp by (unfold parent_inode; destruct (parent _); [apply Hm|done]).
  rewrite Hp, reference_length; clear Hp; destruct (reference_snoc ds d) as (p & -> & Hsnoc); cbv zeta.
  replace (Z.of_nat (S (length ds)) + FUSE_ROOT_ID) with (Z.of_nat (length ds) + 2) by (unfold FUSE_ROOT_ID; lia).
  unfold based in Hsnoc; destruct (file_name (fd_name d)) as [b|]; [|done]; cbn [ok_or mbind outcome_bind].
  eexists; split; [f_equal; f_equal; rewrite Hsnoc; reflexivity|].
  intros q; rewrite last_dir_snoc; case_bool_decide as Hd; case_bool_decide as Hq; try tauto.
  - destruct Hq as [_ <-]; by rewrite lookup_insert_eq.
  - rewrite lookup_insert_ne by tauto; apply Hm.
  - apply Hm.
Qed.

Lemma add_files_reference ds m files :
  finds ds m ->
  match add_files now random (reference_tree ds, m) files with
  | Ok st => Forall (fun d => is_Some (file_name (fd_name d))) files /\ st.1 = reference_tree (ds ++ files)
  | Err e => exists l1 d l2, files = l1 ++ d :: l2 /\ Forall (fun d => is_Some (file_name (fd_name d))) l1 /\
               file_name (fd_name d) = None /\ e = FileError (fd_name d) InvalidData
  | Panic => False
  end.
Proof.
  revert ds m; induction files as [|d files IH]; intros ds m Hm; cbn [add_files]; [by rewrite app_nil_r|].
  pose proof (add_file_reference ds m d Hm) as Hd; destruct (file_name (fd_name d)) as [b|] eqn:En.
  - destruct Hd as (m' & -> & Hm'); cbn [mbind outcome_bind]; specialize (IH _ _ Hm').
    destruct (add_files _ _ _ files) as [st|e|]; [| |done].
    + destruct IH as [IH1 IH2]; split; [constructor; [by rewrite En|done]|by rewrite IH2, <- app_assoc].
    + destruct IH as (l1 & d' & l2 & -> & H1 & H2 & H3); exists (d :: l1), d', l2; split_and!; try done.
      constructor; [by rewrite En|done].
  - rewrite Hd; cbn [mbind outcome_bind]; exists [], d, files; done.
Qed.

Lemma build_tree_spec files :
  match build_tree now random files with
  | Ok t => Forall (fun d => is_Some (file_name (fd_name d))) files /\ t = reference_tree files
  | Err e => exists l1 d l2, files = l1 ++ d :: l2 /\ Forall (fun d => is_Some (file_name (fd_name d))) l1 /\
               file_name (fd_name d) = None /\ e = FileError (fd_name d) InvalidData
  | Panic => False
  end.
Proof.
  pose proof (add_files_reference [] root_map files root_map_finds) as H; unfold build_tree.
  assert (reference_tree [] = [new_root now random]) as Hr by reflexivity; rewrite Hr in H.
  destruct (add_files now random ([new_root now random], root_map) files) as [st|e|]; [|done..].
  destruct H as [H1 H2]; split; [done|]; exact H2.
Qed.

(** ** The shape of the reference tree *)

Lemma reference_lookup ds i n :
  reference_tree ds !! i = Some n ->
  (i = O /\ n = new_root now random <| children := children_of ds FUSE_ROOT_ID |>) \/
  exists k d, i = S k /\ ds !! k = Some d /\ n = node_of ds k d.
Proof.
  destruct i as [|k]; intros Hi; [left; by injection Hi as <-|right].
  change (imap (node_of ds) ds !! k = Some n) in Hi; rewrite list_lookup_imap in Hi.
  destruct (ds !! k) as [d|] eqn:Ed; [|done]; injection Hi as <-; eauto.
Qed.

Lemma elem_children ds v c :
  c ∈ children_of ds v <-> exists k d, c = Z.of_nat k + 2 /\ ds !! k = Some d /\ parent_inode (take k ds) d = v.
Proof.
  unfold children_of; rewrite list_elem_of_omap; split.
  - intros (o & Ho & Hc); apply elem_of_lookup_imap in Ho as (k & d & -> & Hk); cbn in Hc.
    case_bool_decide; [|done]; injection Hc as <-; eauto.
  - intros (k & d & -> & Hk & Hp); exists (Some (Z.of_nat k + 2)); split; [|done].
    apply elem_of_lookup_imap; exists k, d; by rewrite bool_decide_eq_true_2.
Qed.

Lemma children_sorted ds v : StronglySorted Z.lt (children_of ds v).
Proof.
  induction ds as [|d ds IH] using rev_ind; [constructor|]; rewrite children_snoc.
  case_bool_decide; [|by rewrite app_nil_r].
  apply StronglySorted_app_2; [|done|repeat constructor].
  intros c c' Hc ->%list_elem_of_singleton; apply elem_children in Hc as (k & d' & -> & Hk & _).
  apply lookup_lt_Some in Hk; lia.
Qed.

(** A node's parent exists, comes before it and is a directory that lists it
    once among its children; a child's parent is the node. *)
Lemma reference_shape ds i n :
  reference_tree ds !! i = Some n ->
  inode (attributes n) = Z.of_nat i + 1 /\ StronglySorted Z.lt (children n) /\
  match i with
  | O => n_parent n = None
  | S k => exists p pn, n_parent n = Some p /\ 1 <= p <= Z.of_nat i /\ (Z.of_nat k <= u64_max -> index n = Z.of_nat k) /\
      reference_tree ds !! Z.to_nat (p - 1) = Some pn /\ a_kind (attributes pn) = Directory /\
      Z.of_nat i + 1 ∈ children pn
  end /\
  forall c, c ∈ children n -> exists cn, Z.of_nat i + 1 < c /\
    reference_tree ds !! Z.to_nat (c - 1) = Some cn /\ n_parent cn = Some (Z.of_nat i + 1).
Proof.
  intros Hi.
  assert (children n = children_of ds (Z.of_nat i + 1)) as Hch.
  { apply reference_lookup in Hi as [[-> ->]|(k & d & -> & Hd & ->)]; [done|]; cbn; f_equal; lia. }
  rewrite Hch; split_and!.
  - apply reference_lookup in Hi as [[-> ->]|(k & d & -> & Hd & ->)]; [done|]; cbn; lia.
  - apply children_sorted.
  - apply reference_lookup in Hi as [[-> ->]|(k & d & -> & Hd & ->)]; [done|].
    set (p := parent_inode (take k ds) d); pose proof (parent_inode_range (take k ds) d) as Hr; fold p in Hr.
    pose proof (lookup_lt_Some _ _ _ Hd) as Hk; rewrite length_take, Nat.min_l in Hr by lia.
    assert (Z.of_nat (S k) + 1 ∈ children_of ds p) as Hin.
    { apply elem_children; exists k, d; split_and!; [lia|done|done]. }
    destruct (decide (p = 1)) as [Hp|Hp].
    + exists p, (new_root now random <| children := children_of ds FUSE_ROOT_ID |>); rewrite Hp in *.
      split_and!; [cbn; by f_equal|lia|lia| |done|done|exact Hin].
      intros Hu; cbn; unfold wrap_u64, u64_max in *; rewrite Z.mod_small; lia.
    + unfold p, parent_inode in Hp; destruct (parent (fd_name d)) as [pp|] eqn:Epp; [|done].
      destruct (last_dir (take k ds) pp) as [j|] eqn:Ej; [|done].
      assert (p = Z.of_nat j + 2) as Hpj by (unfold p, parent_inode; by rewrite Epp, Ej).
      pose proof (last_dir_lt _ _ _ Ej) as Hj; rewrite length_take in Hj.
      destruct (lookup_lt_is_Some_2 ds j ltac:(lia)) as [dj Hdj].
      assert (kind dj = Directory) as Hkind.
      { unfold last_dir in Ej; apply last_Some_elem_of, list_elem_of_omap in Ej as (o & Ho & Hid); cbn in Hid; subst o.
        apply elem_of_lookup_imap in Ho as (j' & d' & Heq & Hd'); case_bool_decide as Hc; [|done].
        injection Heq as <-; rewrite lookup_take_lt in Hd' by lia; rewrite Hdj in Hd'; injection Hd' as <-; tauto. }
      exists p, (node_of ds j dj); split_and!; [done|lia|lia| | |done|].
      * intros Hu; cbn; unfold wrap_u64, u64_max in *; rewrite Z.mod_small; lia.
      * replace (Z.to_nat (p - 1)) with (S j) by lia.
        change (imap (node_of ds) ds !! j = Some (node_of ds j dj)); by rewrite list_lookup_imap, Hdj.
      * cbn; rewrite <- Hpj; exact Hin.
  - intros c (k & d & -> & Hd & Hp)%elem_children; exists (node_of ds k d).
    pose proof (parent_inode_range (take k ds) d) as Hr; rewrite Hp, length_take in Hr; split_and!; [lia| |by rewrite <- Hp].
    replace (Z.to_nat (Z.of_nat k + 2 - 1)) with (S k) by lia.
    change (imap (node_of ds) ds !! k = Some (node_of ds k d)); by rewrite list_lookup_imap, Hd.
Qed.

(** C34. The tree built from the peer's file list is the reference tree: the
    root and one node per file at its place in the list, each under the last
    directory listed before it whose path is its parent's, or under the root.
    Every node's parent is a directory before it that lists it among its
    children, in order, and the children of a node have it as their parent.
    Building fails only for the first name that has no last component, and
    never panics. *)
Theorem tree_is_reference files :
  match build_tree now random files with
  | Ok t => Forall (fun d => is_Some (file_name (fd_name d))) files /\ t = reference_tree files /\
      forall i n, t !! i = Some n ->
        inode (attributes n) = Z.of_nat i + 1 /\ StronglySorted Z.lt (children n) /\
        match i with
        | O => n_parent n = None
        | S k => exists p pn, n_parent n = Some p /\ 1 <= p <= Z.of_nat i /\
            (Z.of_nat k <= u64_max -> index n = Z.of_nat k) /\
            t !! Z.to_nat (p - 1) = Some pn /\ a_kind (attributes pn) = Directory /\
            Z.of_nat i + 1 ∈ children pn
        end /\
        forall c, c ∈ children n -> exists cn, Z.of_nat i + 1 < c /\
          t !! Z.to_nat (c - 1) = Some cn /\ n_parent cn = Some (Z.of_nat i + 1)
  | Err e => exists l1 d l2, files = l1 ++ d :: l2 /\ Forall (fun d => is_Some (file_name (fd_name d))) l1 /\
               file_name (fd_name d) = None /\ e = FileError (fd_name d) InvalidData
  | Panic => False
  end.
Proof.
  pose proof (build_tree_spec files) as H; destruct (build_tree now random files) as [t|e|]; [|done..].
  destruct H as [H ->]; split_and!; [done|done|apply reference_shape].
Qed.
End tree_theory.

(** ** File handles

    The abstract view of the handles is the set of the pairs of an inode and a
    handle that are open: given out by [open] or [opendir] and neither released
    nor dropped with the tree they were for. *)

Inductive FuseOp :=
| OpInit (now : Z) (random : Z -> Z)
| OpLoad (now : Z) (random : Z -> Z) (files : list FileDescription)
| OpOpen (ino : Z)
| OpOpenDir (ino : Z)
| OpRelease (ino fh : Z)
| OpReleaseDir (ino fh : Z).

Definition opened_by (r : outcome Errno Z) (ino : Z) (o : gset (Z * Z)) : gset (Z * Z) :=
  match r with Ok fh => {[(ino, fh)]} ∪ o | _ => o end.
Definition released_by (r : outcome Errno unit) (ino fh : Z) (o : gset (Z * Z)) : gset (Z * Z) :=
  match r with Ok _ => o ∖ {[(ino, fh)]} | _ => o end.

Definition fuse_step (x : FuseServer * gset (Z * Z)) (op : FuseOp) : FuseServer * gset (Z * Z) :=
  let '(s, o) := x in
  match op with
  | OpInit now random => (init now random s, o)
  | OpLoad now random files =>
      match load_file_list now random s files with Ok s => (s, ∅) | _ => (s, o) end
  | OpOpen ino => let '(r, s) := open s ino in (s, opened_by r ino o)
  | OpOpenDir ino => let '(r, s) := opendir s ino in (s, opened_by r ino o)
  | OpRelease ino fh => let '(r, s) := release s ino fh in (s, released_by r ino fh o)
  | OpReleaseDir ino fh => let '(r, s) := releasedir s ino fh in (s, released_by r ino fh o)
  end.

(** The server [s] represents the open handles [o]; [m] bounds the handles. *)
Record represents (m : Z) (s : FuseServer) (o : gset (Z * Z)) : Prop := {
  rep_counter : 0 <= file_handle_counter s <= m;
  rep_node : forall ino n, node_at s ino = Some n ->
    StronglySorted Z.lt (handlers n) /\ gc n = false /\ forall fh, fh ∈ handlers n <-> (ino, fh) ∈ o;
  rep_used : forall ino fh, (ino, fh) ∈ o -> fh < file_handle_counter s /\ is_Some (node_at s ino);
  rep_unique : forall ino ino' fh, (ino, fh) ∈ o -> (ino', fh) ∈ o -> ino = ino';
}.

Lemma node_at_set s ino n ino' :
  is_Some (node_at s ino) ->
  node_at (set_node s ino n) ino' = if decide (ino = ino') then Some n else node_at s ino'.
Proof.
  unfold node_at, set_node; intros [x Hx]; destruct (Z.leb_spec ino 0); [done|]; cbn.
  destruct (Z.leb_spec ino' 0); [by case_decide; [lia|]|]; case_decide as Hd.
  - subst; rewrite list_lookup_insert_eq; [done|by eapply lookup_lt_Some].
  - rewrite list_lookup_insert_ne; [done|lia].
Qed.

Lemma node_at_counter s f ino : node_at (s <| file_handle_counter ::= f |>) ino = node_at s ino.
Proof. done. Qed.

(** Replacing the handles of one node by those of the pairs [o']. *)
Lemma represents_set m s o ino n h o' c :
  represents m s o -> node_at s ino = Some n ->
  file_handle_counter s <= c <= m ->
  StronglySorted Z.lt h -> (forall fh, fh ∈ h <-> (ino, fh) ∈ o') ->
  (forall i fh, i <> ino -> (i, fh) ∈ o' <-> (i, fh) ∈ o) ->
  (forall fh, (ino, fh) ∈ o' -> fh < c) ->
  (forall i fh, (ino, fh) ∈ o' -> (i, fh) ∈ o' -> i = ino) ->
  represents m (set_node (s <| file_handle_counter := c |>) ino (n <| handlers := h |>)) o'.
Proof.
  intros [R1 R2 R3 R4] Hn Hc Hs Hin Hother Hlt Huniq.
  assert (forall i, node_at (set_node (s <| file_handle_counter := c |>) ino (n <| handlers := h |>)) i =
    if decide (ino = i) then Some (n <| handlers := h |>) else node_at s i) as Hat.
  { intros i; rewrite node_at_set; [done|]; rewrite <- (node_at_counter s (fun _ => c)) in Hn; by eexists. }
  split.
  - cbn; lia.
  - intros i n'; rewrite Hat; case_decide as Hd.
    + intros [= <-]; subst; cbn; destruct (R2 _ _ Hn) as (_ & Hgc & _); done.
    + intros Hi; destruct (R2 _ _ Hi) as (H1 & H2 & H3); split_and!; [done..|].
      intros fh; rewrite H3; symmetry; apply Hother; congruence.
  - intros i fh Hfh; rewrite Hat; destruct (decide (ino = i)) as [<-|Hd]; cbn.
    + split; [by apply Hlt|by eexists].
    + apply Hother in Hfh; [|congruence]; destruct (R3 _ _ Hfh); split; [lia|done].
  - intros i i' fh H1 H2; destruct (decide (i = ino)) as [->|Hi]; [symmetry; by eapply Huniq|].
    destruct (decide (i' = ino)) as [->|Hi']; [by eapply Huniq|].
    apply Hother in H1, H2; [|done..]; by eapply R4.
Qed.

Lemma open_node_represents m s o ino k wrong :
  represents m s o -> file_handle_counter s < m -> m <= u64_max -> wrong <> EBUSY ->
  represents m (open_node s ino k wrong).2 (opened_by (open_node s ino k wrong).1 ino o) /\
  file_handle_counter (open_node s ino k wrong).2 <= file_handle_counter s + 1 /\
  (open_node s ino k wrong).1 <> Panic /\ (open_node s ino k wrong).1 <> Err EBUSY.
Proof.
  intros R Hc Hm Hw; unfold open_node.
  destruct (node_at s ino) as [n|] eqn:En; [|split_and!; [exact R|cbn; lia|done|done]].
  destruct (negb _); [split_and!; [exact R|cbn; lia|done|cbn; congruence]|].
  destruct (rep_node _ _ _ R _ _ En) as (Hs & Hgc & Hh); rewrite Hgc.
  cbn [alloc_fd]; unfold add_handler; rewrite Hgc; cbn [fst snd opened_by].
  assert (wrap_u64 (file_handle_counter s + 1) = file_handle_counter s + 1) as Hw1.
  { unfold wrap_u64, u64_max in *; pose proof (rep_counter _ _ _ R); rewrite Z.mod_small; lia. }
  pose proof (represents_set m s o ino n (handlers n ++ [file_handle_counter s])
    ({[(ino, file_handle_counter s)]} ∪ o) (file_handle_counter s + 1) R En) as Hset.
  cbn in Hset; unfold set_node; cbn; rewrite Hw1; split; [|split_and!; [lia|done|done]]; apply Hset; clear Hset.
  - lia.
  - apply StronglySorted_app_2; [|done|repeat constructor].
    intros a b Ha ->%list_elem_of_singleton; apply Hh in Ha; apply (rep_used _ _ _ R) in Ha as [Ha _]; done.
  - intros fh; rewrite elem_of_app, list_elem_of_singleton, Hh; set_solver.
  - intros i fh Hi; set_solver.
  - intros fh [Hfh|Hfh]%elem_of_union; [|apply (rep_used _ _ _ R) in Hfh; lia].
    apply elem_of_singleton in Hfh; injection Hfh as ->; lia.
  - intros i fh H1 H2; apply elem_of_union in H1, H2; destruct H1 as [H1|H1], H2 as [H2|H2].
    + set_solver.
    + apply elem_of_singleton in H1; injection H1 as ->; apply (rep_used _ _ _ R) in H2; lia.
    + apply elem_of_singleton in H2; injection H2 as -> ->; done.
    + by eapply (rep_unique _ _ _ R).
Qed.

Lemma sorted_delete i (l : list Z) : StronglySorted Z.lt l -> StronglySorted Z.lt (delete i l).
Proof.
  intros Hs; revert i; induction Hs as [|x l Hs IH Hx]; intros [|i]; cbn; [constructor..|done|].
  constructor; [apply IH|]; rewrite Forall_forall in *; intros y Hy; apply Hx.
  eapply elem_of_sublist in Hy; [exact Hy|apply sublist_delete].
Qed.

Lemma sorted_delete_elem i (l : list Z) x y :
  StronglySorted Z.lt l -> l !! i = Some x -> y ∈ delete i l <-> y ∈ l /\ y <> x.
Proof.
  intros Hs; revert i; induction Hs as [|z l Hs IH Hz]; intros [|i] Hi; try done; cbn in *.
  - injection Hi as ->; rewrite Forall_forall in Hz; split; [|set_solver].
    intros Hy; split; [set_solver|]; intros ->; specialize (Hz x Hy); lia.
  - assert (x ∈ l) by (by eapply list_elem_of_lookup_2); rewrite Forall_forall in Hz; specialize (Hz x ltac:(done)).
    rewrite elem_of_cons, IH, elem_of_cons by done; split; [intros [->|[]]; split; auto; lia|].
    intros [[->|] ?]; auto.
Qed.

Lemma unregister_represents m s o ino fh n n' :
  represents m s o -> node_at s ino = Some n -> unregister_handler n fh = Some n' ->
  represents m (set_node s ino n') (o ∖ {[(ino, fh)]}).
Proof.
  intros R En Hu; unfold unregister_handler, have_handler in Hu; case_bool_decide as Hfh; [|done].
  destruct (rep_node _ _ _ R _ _ En) as (Hs & Hgc & Hh).
  destruct (list_find (eq fh) (handlers n)) as [[i y]|] eqn:Ef.
  2: { apply list_find_None in Ef; rewrite Forall_forall in Ef; by destruct (Ef fh Hfh). }
  assert (n' = n <| handlers := delete i (handlers n) |>) as ->.
  { injection Hu as <-; cbn; by rewrite Ef. }
  apply list_find_Some in Ef as (Hi & <- & _); clear Hu.
  pose proof (represents_set m s o ino n (delete i (handlers n)) (o ∖ {[(ino, fh)]})
    (file_handle_counter s) R En) as Hset.
  assert (s <| file_handle_counter := file_handle_counter s |> = s) as Hid by (by destruct s).
  rewrite Hid in Hset; apply Hset; clear Hset Hid.
  - pose proof (rep_counter _ _ _ R); lia.
  - by apply sorted_delete.
  - intros f; rewrite (sorted_delete_elem _ _ fh), Hh by done; set_solver.
  - set_solver.
  - intros f [Hf _]%elem_of_difference; by apply (rep_used _ _ _ R ino).
  - intros j f [H1 _]%elem_of_difference [H2 _]%elem_of_difference; by eapply (rep_unique _ _ _ R).
Qed.

Lemma release_represents m s o ino fh :
  represents m s o ->
  represents m (release s ino fh).2 (released_by (release s ino fh).1 ino fh o) /\
  file_handle_counter (release s ino fh).2 = file_handle_counter s.
Proof.
  intros R; unfold release; destruct (node_at s ino) as [n|] eqn:En; [|split; [exact R|done]].
  destruct (unregister_handler n fh) as [n'|] eqn:Eu; [|split; [exact R|done]].
  split; [by eapply unregister_represents|done].
Qed.

Lemma releasedir_represents m s o ino fh :
  represents m s o ->
  represents m (releasedir s ino fh).2 (released_by (releasedir s ino fh).1 ino fh o) /\
  file_handle_counter (releasedir s ino fh).2 = file_handle_counter s.
Proof.
  intros R; unfold releasedir; destruct (node_at s ino) as [n|] eqn:En; [|split; [exact R|done]].
  destruct (negb _); [split; [exact R|done]|].
  destruct (have_handler n fh) eqn:Eh; cbn [negb]; [|split; [exact R|done]].
  split; [|done]; cbn [fst snd released_by].
  assert (exists n', unregister_handler n fh = Some n') as [n' Hu] by (unfold unregister_handler; rewrite Eh; eauto).
  rewrite Hu; by eapply unregister_represents.
Qed.

(** A tree none of whose nodes has a handle. *)
Lemma represents_fresh m s t g :
  0 <= file_handle_counter s <= m ->
  Forall (fun n => handlers n = [] /\ gc n = false) t ->
  represents m {| generation := g; tree := t; file_handle_counter := file_handle_counter s |} ∅.
Proof.
  intros Hc Ht; split; [done| |set_solver|set_solver].
  intros ino n Hn; unfold node_at in Hn; case_match; [done|]; cbn in Hn.
  apply (Forall_lookup_1 _ _ _ _ Ht) in Hn as [-> ->]; split_and!; [constructor|done|set_solver].
Qed.

Lemma fuse_step_represents m x op :
  represents m x.1 x.2 -> file_handle_counter x.1 < m -> m <= u64_max ->
  represents m (fuse_step x op).1 (fuse_step x op).2 /\
  file_handle_counter (fuse_step x op).1 <= file_handle_counter x.1 + 1.
Proof.
  destruct x as [s o]; cbn [fst snd]; intros R Hc Hm.
  destruct op as [now random|now random files|ino|ino|ino fh|ino fh]; cbn [fuse_step].
  - unfold init; destruct (tree s) as [|r t] eqn:Et; cbn [fst snd]; [|split; [done|lia]].
    assert (o = ∅) as ->.
    { apply set_eq; intros [i fh]; split; [|set_solver].
      intros Hi; apply (rep_used _ _ _ R) in Hi as [_ [n Hn]]; unfold node_at in Hn; rewrite Et in Hn; by case_match. }
    split; [|cbn; lia]; change (represents m {| generation := generation s; tree := [new_root now random];
      file_handle_counter := file_handle_counter s |} ∅).
    apply represents_fresh; [apply (rep_counter _ _ _ R)|by repeat constructor].
  - unfold load_file_list; pose proof (build_tree_spec now random files) as Ht.
    destruct (build_tree now random files) as [t|e|]; cbn [mbind outcome_bind fst snd]; [|split; [done|lia]..].
    destruct Ht as [_ ->]; split; [|cbn; lia]; apply represents_fresh; [apply (rep_counter _ _ _ R)|].
    apply Forall_lookup; intros i n Hi; by apply reference_lookup in Hi as [[_ ->]|(k & d & _ & _ & ->)].
  - pose proof (open_node_represents m s o ino File ENFILE R Hc Hm ltac:(done)) as (H1 & H2 & _).
    unfold open; destruct (open_node s ino File ENFILE); cbn in *; done.
  - pose proof (open_node_represents m s o ino Directory ENOTDIR R Hc Hm ltac:(done)) as (H1 & H2 & _).
    unfold opendir; destruct (open_node s ino Directory ENOTDIR); cbn in *; done.
  - pose proof (release_represents m s o ino fh R) as [H1 H2].
    destruct (release s ino fh); cbn in *; split; [done|lia].
  - pose proof (releasedir_represents m s o ino fh R) as [H1 H2].
    destruct (releasedir s ino fh); cbn in *; split; [done|lia].
Qed.

(** File handles: after any requests, of which fewer than 2^64, the handles
    of each node are in increasing order, a handle passes the check of a node
    exactly when it was given out for that node and neither released nor lost
    with a new file list, it belongs to that node only, and no node refuses to
    be opened because it is being collected. *)
Theorem handles_are_those_open ops :
  Z.of_nat (length ops) <= u64_max ->
  let x := foldl fuse_step (new_server, ∅) ops in
  forall ino n fh, node_at x.1 ino = Some n ->
    StronglySorted Z.lt (handlers n) /\ (have_handler n fh = true <-> (ino, fh) ∈ x.2) /\ gc n = false /\
    forall ino', (ino, fh) ∈ x.2 -> (ino', fh) ∈ x.2 -> ino' = ino.
Proof.
  intros Hops.
  assert (forall ops x, represents u64_max x.1 x.2 ->
    file_handle_counter x.1 + Z.of_nat (length ops) <= u64_max ->
    represents u64_max (foldl fuse_step x ops).1 (foldl fuse_step x ops).2) as H.
  { clear; induction ops as [|op ops IH]; intros x R Hc; [done|]; cbn [foldl length] in *.
    destruct (fuse_step_represents u64_max x op R ltac:(lia) ltac:(lia)) as [R' Hc']; apply IH; [done|lia]. }
  specialize (H ops (new_server, ∅)); cbv zeta; intros ino n fh Hn.
  destruct H as [R1 R2 R3 R4]; [|cbn; lia|].
  { apply (represents_fresh u64_max new_server [] 0); [cbn; unfold u64_max; lia|constructor]. }
  destruct (R2 _ _ Hn) as (Hs & Hgc & Hh); split_and!; [done| |done|].
  - unfold have_handler; rewrite bool_decide_eq_true; apply Hh.
  - intros ino' H1 H2; by eapply R4.
Qed.

(** ** A read asks at most four times *)

Lemma await_reply_spec send request stream retry replies :
  let '(r, sent) := await_reply send request stream retry replies in
  (length sent <= Z.to_nat (READ_RETRY - retry))%nat /\ Forall (eq request) sent /\
  forall data, r = Ok data ->
    exists flags, Some (FileContentsResponse flags stream data) ∈ replies /\ Z.land flags 1 <> 0.
Proof.
  revert retry; induction replies as [|[m|] replies IH]; intros retry; cbn [await_reply];
    [split_and!; [cbn; lia|constructor|done]| |split_and!; [cbn; lia|constructor|done]].
  destruct m as [| | | | | | |flags sid data| |]; try (split_and!; [cbn; lia|constructor|done]).
  destruct (Z.eqb_spec sid stream) as [->|]; cbn [negb].
  - destruct (Z.eqb_spec (Z.land flags 1) 0) as [Hf|Hf].
    + cbv zeta; destruct (Z.ltb_spec READ_RETRY (retry + 1)); [split_and!; [cbn; lia|constructor|done]|].
      destruct (send_request send request) as [u|e|]; [|split_and!; [cbn; lia|constructor|done]..].
      specialize (IH (retry + 1)).
      destruct (await_reply send request stream (retry + 1) replies) as [r sent].
      destruct IH as (H1 & H2 & H3); split_and!; [cbn [length]; lia|by constructor|].
      intros d Hd; destruct (H3 d Hd) as (fl & Hin & Hfl); exists fl; split; [by right|done].
    + split_and!; [cbn; lia|constructor|]; intros d [= <-]; exists flags; split; [left|done].
  - specialize (IH retry); destruct (await_reply send request stream retry replies) as [r sent].
    destruct IH as (H1 & H2 & H3); split_and!; [done|done|].
    intros d Hd; destruct (H3 d Hd) as (fl & Hin & Hfl); exists fl; split; [by right|done].
Qed.

(** ** Examples *)

Definition example_description (name : text) (k : FileType) : FileDescription :=
  {| conn_id := 5; fd_name := name; kind := k; atime := 0; last_modified := 0; last_metadata_changed := 0;
     creation_time := 0; fd_size := 3; fd_perm := 420 |}.
(** The directory [b], the file [b/c] and the file [d]. *)
Definition example_list : list FileDescription :=
  [example_description [98] Directory; example_description [98; 47; 99] File; example_description [100] File].

Example example_tree :
  (fun t => map (fun n => (n_name n, children n)) t) <$>
    (match build_tree 0 (fun i => i) example_list with Ok t => Some t | _ => None end) =
  Some [([47], [2; 4]); ([98], [3]); ([99], []); ([100], [])].
Proof. reflexivity. Qed.

Definition example_ops : list FuseOp :=
  [OpInit 0 (fun i => i); OpLoad 0 (fun i => i) example_list; OpOpen 3; OpOpenDir 2; OpOpen 3; OpRelease 3 0].

Lemma handles_are_those_open_witness :
  match node_at (foldl fuse_step (new_server, ∅) example_ops).1 3 with
  | Some n => have_handler n 2 = true /\ handlers n = [2] /\
              StronglySorted Z.lt (handlers n)
  | None => False
  end.
Proof.
  destruct (node_at (foldl fuse_step (new_server, ∅) example_ops).1 3) as [n|] eqn:E; [|vm_compute in E; discriminate].
  assert (Z.of_nat (length example_ops) <= u64_max) as Hl by (vm_compute; discriminate).
  pose proof (handles_are_those_open example_ops Hl 3 n 2 E) as (Hs & _).
  vm_compute in E; injection E as E; split; [subst n; reflexivity|split; [subst n; reflexivity|exact Hs]].
Defined.
