(* ===== verification/ClipboardMessages.v ===== *)
(** * Messages of the file clipboard

    Models src/src/clipboard_file.rs (the conversions between clipboard events
    and protocol messages, and the handler [serve_clip_messages] of a Linux
    build), the mount contexts of src/libs/clipboard/src/platform/unix/fuse/
    mod.rs and the channel registry of src/libs/clipboard/src/lib.rs.  The
    generated protobuf types are inductive types with the fields that are set;
    mounting, and the updates of the desktop's clipboard, are a parameter and
    effects. *)

From S2P Require Import Prelude ClipboardTypes FileDescriptor FileList ServFiles FuseTree.

(** ** Protocol messages *)

Inductive Cliprdr :=
| PReady
| PFormatList (formats : list (Z * string))
| PFormatListResponse (msg_flags : Z)
| PFormatDataRequest (requested_format_id : Z)
| PFormatDataResponse (msg_flags : Z) (format_data : list Z)
| PFileContentsRequest (stream_id list_index dw_flags n_position_low n_position_high cb_requested : Z)
    (have_clip_data_id : bool) (clip_data_id : Z)
| PFileContentsResponse (msg_flags stream_id : Z) (requested_data : list Z)
| PTryEmpty
| PFiles (files : list (text * Z)).

Inductive Message :=
| MessageBox (msgtype title body link : string)
| MCliprdr (union : option Cliprdr).

Section conversions.
Context `{FileSystem}.

(** The size of a file announced as empty is looked up again. *)
Definition audited_file (f : text * Z) : option (text * Z) :=
  let '(f, s) := f in
  if s =? 0 then match metadata f with inr meta => Some (f, m_len meta) | inl _ => None end
  else Some (f, s).

Definition clip_2_msg (clip : ClipboardFile) : Message :=
  match clip with
  | NotifyCallback type title body => MessageBox type title body ""
  | MonitorReady => MCliprdr (Some PReady)
  | FormatList l => MCliprdr (Some (PFormatList (map (fun v => (v.1, v.2)) l)))
  | FormatListResponse f => MCliprdr (Some (PFormatListResponse f))
  | FormatDataRequest i => MCliprdr (Some (PFormatDataRequest i))
  | FormatDataResponse f d => MCliprdr (Some (PFormatDataResponse f d))
  | FileContentsRequest s i f lo hi cb h c => MCliprdr (Some (PFileContentsRequest s i f lo hi cb h c))
  | FileContentsResponse f s d => MCliprdr (Some (PFileContentsResponse f s d))
  | TryEmpty => MCliprdr (Some PTryEmpty)
  | Files l => MCliprdr (Some (PFiles (omap audited_file l)))
  end.

Definition msg_2_clip (union : option Cliprdr) : option ClipboardFile :=
  match union with
  | Some PReady => Some MonitorReady
  | Some (PFormatList l) => Some (FormatList (map (fun v => (v.1, v.2)) l))
  | Some (PFormatListResponse f) => Some (FormatListResponse f)
  | Some (PFormatDataRequest i) => Some (FormatDataRequest i)
  | Some (PFormatDataResponse f d) => Some (FormatDataResponse f d)
  | Some (PFileContentsRequest s i f lo hi cb h c) => Some (FileContentsRequest s i f lo hi cb h c)
  | Some (PFileContentsResponse f s d) => Some (FileContentsResponse f s d)
  | Some PTryEmpty => Some TryEmpty
  | _ => None
  end.

Definition is_stopping_allowed (c : ClipboardFile) : bool :=
  match c with MonitorReady | FormatList _ | FormatDataRequest _ => true | _ => false end.
Definition is_beginning_message (c : ClipboardFile) : bool :=
  match c with MonitorReady | FormatList _ => true | _ => false end.

(** What arrives of a message. *)
Definition receive (m : Message) : option ClipboardFile :=
  match m with MCliprdr u => msg_2_clip u | MessageBox _ _ _ _ => None end.

Lemma map_pairs {A B} (l : list (A * B)) : map (fun v => (v.1, v.2)) l = l.
Proof. induction l as [|[a b] l IH]; [done|]; cbn; by rewrite IH. Qed.

(** An event survives its message, but for the notices to the peer's user and
    the audit of sent files, which are not clipboard events there. *)
Lemma receive_sent c :
  receive (clip_2_msg c) =
    match c with NotifyCallback _ _ _ | Files _ => None | _ => Some c end.
Proof. destruct c; cbn; try done; by rewrite !map_pairs. Qed.

End conversions.

(** ** The mount of one side *)

Record FuseContext := {
  fuse_server : FuseServer;
  tx : list ClipboardFile;
  mount_point : text;
  ctx_conn_id : Z;
}.

#[export] Instance eta_context : Eta FuseContext := fun c =>
  Build_FuseContext (fuse_server c) (tx c) (mount_point c) (ctx_conn_id c).

(** The process: the files it serves and its two mounts. *)
Record Clip := {
  clip_files : ClipFiles;
  fuse_context_client : option FuseContext;
  fuse_context_server : option FuseContext;
}.

#[export] Instance eta_clip : Eta Clip := fun c =>
  Build_Clip (clip_files c) (fuse_context_client c) (fuse_context_server c).

Definition context (c : Clip) (is_client : bool) : option FuseContext :=
  if is_client then fuse_context_client c else fuse_context_server c.
Definition set_context (c : Clip) (is_client : bool) (x : option FuseContext) : Clip :=
  if is_client then c <| fuse_context_client := x |> else c <| fuse_context_server := x |>.

Inductive ClipboardSide := Host | Client.
Definition is_client (side : ClipboardSide) : bool := match side with Client => true | Host => false end.

(** [update_clipboard_files] and [try_empty_clipboard_files], which act on the
    desktop's clipboard in threads of their own. *)
Inductive Effect :=
| UpdateClipboardFiles (files : list text) (side : ClipboardSide)
| TryEmptyClipboardFiles (side : ClipboardSide) (conn : Z).

Section handler.
Context `{FileSystem, Utf16}.
Variable now : Z.
Variable random : Z -> Z.
(** The mount point of a side, and whether mounting it succeeds. *)
Variable mount_path : bool -> text.
Variable mounts : bool -> bool.

Definition init_fuse_context (c : Clip) (client : bool) : result unit * Clip :=
  match context c client with
  | Some _ => (Ok tt, c)
  | None =>
      if mounts client
      then (Ok tt, set_context c client (Some {| fuse_server := new_server; tx := []; mount_point := mount_path client;
                                                 ctx_conn_id := 0 |}))
      else (Err CliprdrInit, c)
  end.

Definition uninit_fuse_context (c : Clip) (client : bool) : Clip := set_context c client None.
Definition is_fuse_context_inited (c : Clip) (client : bool) : bool := is_some (context c client).

(** [mount_point.join(p)] *)
Definition context_urls (x : FuseContext) (format_data : list Z) (conn : Z) : result (list text) * FuseContext :=
  match parse_file_descriptors format_data conn with
  | Err e => (Err e, x)
  | Panic => (Panic, x)
  | Ok files =>
      match load_file_list now random (fuse_server x) files with
      | Err e => (Err e, x)
      | Panic => (Panic, x)
      | Ok server =>
          let x := x <| fuse_server := server |> <| ctx_conn_id := conn |> in
          (paths ← list_root server; Ok (map (join_name (mount_point x)) paths), x)
      end
  end.

Definition format_data_response_to_urls (c : Clip) (client : bool) (format_data : list Z) (conn : Z) :
    result (list text) * Clip :=
  match context c client with
  | None => (Err CliprdrInit, c)
  | Some x => let '(r, x) := context_urls x format_data conn in (r, set_context c client (Some x))
  end.

Definition handle_file_content_response (c : Clip) (client : bool) (clip : ClipboardFile) : result unit * Clip :=
  match context c client with
  | None => (Err CliprdrInit, c)
  | Some x => (Ok tt, set_context c client (Some (x <| tx ::= fun l => l ++ [clip] |>)))
  end.

Definition context_empty (x : FuseContext) (conn : Z) : bool * FuseContext :=
  if negb (conn =? 0) && negb (ctx_conn_id x =? conn) then (false, x)
  else (true, match load_file_list now random (fuse_server x) [] with
              | Ok s => x <| fuse_server := s |>
              | _ => x
              end).

Definition empty_local_files (c : Clip) (client : bool) (conn : Z) : bool * Clip :=
  match context c client with
  | None => (false, c)
  | Some x => let '(b, x) := context_empty x conn in (b, set_context c client (Some x))
  end.

(** ** The handler *)

Definition FILEDESCRIPTOR_FORMAT_ID : Z := 49334.
Definition FILEDESCRIPTORW_FORMAT_NAME : string := "FileGroupDescriptorW".
Definition FILECONTENTS_FORMAT_ID : Z := 49267.
Definition FILECONTENTS_FORMAT_NAME : string := "FileContents".

Definition get_local_format (remote_id : Z) : option string :=
  if remote_id =? FILEDESCRIPTOR_FORMAT_ID then Some FILEDESCRIPTORW_FORMAT_NAME
  else if remote_id =? FILECONTENTS_FORMAT_ID then Some FILECONTENTS_FORMAT_NAME else None.

Definition get_format_list : ClipboardFile :=
  FormatList [(FILEDESCRIPTOR_FORMAT_ID, unwrap_or (get_local_format FILEDESCRIPTOR_FORMAT_ID) FILEDESCRIPTORW_FORMAT_NAME);
              (FILECONTENTS_FORMAT_ID, unwrap_or (get_local_format FILECONTENTS_FORMAT_ID) FILECONTENTS_FORMAT_NAME)].

Definition msg_resp_format_data_failure : Message := clip_2_msg (FormatDataResponse 2 []).
Definition resp_file_contents_fail (stream_id : Z) : Message := clip_2_msg (FileContentsResponse 2 stream_id []).

Definition find_format (l : list (Z * string)) (name : string) : option Z :=
  match list_find (fun v => v.2 = name) l with Some (_, v) => Some v.1 | None => None end.

(** The answers to a contents request; a panic of one is the handler's. *)
Definition contents_messages (stream_id : Z) (l : list (result ClipboardFile)) : outcome unit (list Message) :=
  mapM (fun res => match res with
                   | Ok data => Ok (clip_2_msg data)
                   | Err _ => Ok (resp_file_contents_fail stream_id)
                   | Panic => Panic
                   end) l.

(** The messages to send, the effects and the state left; [Panic] ends the
    thread. *)
Definition serve_clip_messages (c : Clip) (side : ClipboardSide) (clip : ClipboardFile) (conn : Z) :
    outcome unit (list Message * list Effect) * Clip :=
  match clip with
  | FormatList format_list =>
      match find_format format_list FILECONTENTS_FORMAT_NAME with
      | None => (Ok ([], []), c)
      | Some _ =>
          match find_format format_list FILEDESCRIPTORW_FORMAT_NAME with
          | None => (Ok ([], []), c)
          | Some id => (Ok ([clip_2_msg (FormatDataRequest id)], []), c)
          end
      end
  | FormatDataRequest _ =>
      match files_pdu (clip_files c) with
      | [] => (Ok ([msg_resp_format_data_failure], []), c)
      | format_data => (Ok ([clip_2_msg (FormatDataResponse 1 format_data)], []), c)
      end
  | FormatDataResponse _ format_data =>
      let '(r, c) := init_fuse_context c true in
      match r with
      | Ok _ =>
          let '(urls, c) := format_data_response_to_urls c (is_client side) format_data conn in
          match urls with
          | Ok files => (Ok ([], [UpdateClipboardFiles files side]), c)
          | Err _ => (Ok ([], []), c)
          | Panic => (Panic, c)
          end
      | _ => (Ok ([], []), c)
      end
  | FileContentsRequest stream_id list_index dw_flags n_position_low n_position_high cb_requested _ _ =>
      let '(l, files) := read_file_contents (clip_files c) conn stream_id list_index dw_flags n_position_low
                           n_position_high cb_requested in
      (ms ← contents_messages stream_id l; Ok (ms, []), c <| clip_files := files |>)
  | FileContentsResponse _ _ _ =>
      let '(r, c) := init_fuse_context c true in
      match r with
      | Ok _ => let '(_, c) := handle_file_content_response c (is_client side) clip in (Ok ([], []), c)
      | _ => (Ok ([], []), c)
      end
  | TryEmpty => (Ok ([], [TryEmptyClipboardFiles side conn]), c)
  | MonitorReady | FormatListResponse _ | NotifyCallback _ _ _ | Files _ => (Ok ([], []), c)
  end.
End handler.

(** ** The channels to the connections *)

Record MsgChannel := { peer_id : string; chan_conn_id : Z; queue : list ClipboardFile }.
#[export] Instance eta_channel : Eta MsgChannel := fun m =>
  Build_MsgChannel (peer_id m) (chan_conn_id m) (queue m).

(** [VEC_MSG_CHANNEL] and [CLIENT_CONN_ID_COUNTER]; a channel's receiver is
    kept with it, so sending to it succeeds. *)
Record Channels := { vec_msg_channel : list MsgChannel; client_conn_id_counter : Z }.
#[export] Instance eta_channels : Eta Channels := fun r =>
  Build_Channels (vec_msg_channel r) (client_conn_id_counter r).

Definition get_client_conn_id (r : Channels) (peer : string) : option Z :=
  match list_find (fun x => peer_id x = peer) (vec_msg_channel r) with
  | Some (_, x) => Some (chan_conn_id x)
  | None => None
  end.

Definition get_conn_id (r : Channels) : Z * Channels :=
  let c := as_i32 (client_conn_id_counter r + 1) in (c, r <| client_conn_id_counter := c |>).

Definition add_channel (r : Channels) (peer : string) (conn : Z) : Channels :=
  r <| vec_msg_channel ::= fun l => l ++ [{| peer_id := peer; chan_conn_id := conn; queue := [] |}] |>.

Definition get_rx_cliprdr_client (r : Channels) (peer : string) : Z * Channels :=
  match get_client_conn_id r peer with
  | Some conn => (conn, r)
  | None => let '(conn, r) := get_conn_id r in (conn, add_channel r peer conn)
  end.

Definition get_rx_cliprdr_server (r : Channels) (conn : Z) : Channels :=
  match list_find (fun x => chan_conn_id x = conn) (vec_msg_channel r) with
  | Some _ => r
  | None => add_channel r "" conn
  end.

Definition remove_channel_by_conn_id (r : Channels) (conn : Z) : Channels :=
  match list_find (fun x => chan_conn_id x = conn) (vec_msg_channel r) with
  | Some (i, _) => r <| vec_msg_channel ::= delete i |>
  | None => r
  end.

Definition push (data : ClipboardFile) (m : MsgChannel) : MsgChannel := m <| queue ::= fun l => l ++ [data] |>.

Definition send_data_to_channel (r : Channels) (conn : Z) (data : ClipboardFile) : result unit * Channels :=
  match list_find (fun x => chan_conn_id x = conn) (vec_msg_channel r) with
  | Some (i, x) => (Ok tt, r <| vec_msg_channel ::= <[i := push data x]> |>)
  | None => (Err (InvalidRequest "conn_id not found"), r)
  end.

Definition send_data_to_all (r : Channels) (data : ClipboardFile) : Channels :=
  r <| vec_msg_channel ::= map (push data) |>.

Definition send_data (r : Channels) (conn : Z) (data : ClipboardFile) : result unit * Channels :=
  if conn =? 0 then (Ok tt, send_data_to_all r data) else send_data_to_channel r conn data.
