(* ===== verification/RemoteFiles.v ===== *)
(** * Reading a copied file across the connection

    Composes the file clipboard's parts: a read in the mounted copy
    (FuseTree.v) sends a contents request, the message reaches the peer
    (ClipboardMessages.v), which serves it from its files (ServFiles.v), and the
    answer comes back.  It shows that the viewer reads the bytes of the peer's
    file, up to the position where the two halves of the offset stop agreeing,
    and that what a peer announces stays inside the mount. *)

From S2P Require Import Prelude ClipboardTypes FileDescriptor FileList ServFiles FuseTree ClipboardMessages.

(** ** The offset on the wire *)

(** The halves [read_node] sends of an offset, as [read_file_contents] puts them
    together. *)
Definition sent_high (offset : Z) : Z := as_i32 (Z.shiftr offset 32).
Definition sent_low (offset : Z) : Z := as_i32 (Z.land offset u32_max).
Definition received_offset (high low : Z) : Z := Z.lor (wrap_u64 (Z.shiftl (wrap_u64 high) 32)) (wrap_u64 low).

Lemma as_i32_small x : 0 <= x < 2147483648 -> as_i32 x = x.
Proof. intros Hx; unfold as_i32; rewrite Z.mod_small; lia. Qed.

Lemma as_i32_big x : 2147483648 <= x < 4294967296 -> as_i32 x = x - 4294967296.
Proof.
  intros Hx; unfold as_i32.
  replace (x + 2147483648) with (x - 2147483648 + 1 * 4294967296) by lia; rewrite Z.mod_add, Z.mod_small; lia.
Qed.

Lemma offset_received offset :
  0 <= offset <= i64_max ->
  received_offset (sent_high offset) (sent_low offset) =
    if Z.testbit offset 31 then 18446744069414584320 + offset mod 4294967296 else offset.
Proof.
  intros Ho; unfold received_offset, sent_high, sent_low, i64_max in *.
  change u32_max with (Z.ones 32); rewrite Z.land_ones, Z.shiftr_div_pow2 by lia; change (2 ^ 32) with 4294967296.
  pose proof (Z.div_mod offset 4294967296 ltac:(lia)) as Hdm.
  pose proof (Z.mod_pos_bound offset 4294967296 ltac:(lia)) as Hl.
  set (h := offset / 4294967296) in *; set (l := offset mod 4294967296) in *.
  assert (0 <= h < 2147483648) as Hh by lia.
  rewrite (as_i32_small h) by lia; unfold wrap_u64 at 2; rewrite (Z.mod_small h) by lia.
  rewrite Z.shiftl_mul_pow2 by lia; change (2 ^ 32) with 4294967296.
  unfold wrap_u64 at 1; rewrite (Z.mod_small (h * 4294967296)) by lia.
  assert (Z.testbit offset 31 = (2147483648 <=? l)) as ->.
  { transitivity (Z.testbit l 31).
    - unfold l; change 4294967296 with (2 ^ 32); by rewrite Z.mod_pow2_bits_low by lia.
    - destruct (Z.leb_spec 2147483648 l) as [Hb|Hb].
      + apply Z.testbit_true; [lia|]; change (2 ^ 31) with 2147483648.
        replace (l / 2147483648) with 1; [done|]; apply Z.div_unique with (l - 2147483648); lia.
      + apply Z.testbit_false; [lia|]; change (2 ^ 31) with 2147483648; by rewrite Z.div_small by lia. }
  assert (forall a b, 0 <= b < 4294967296 -> Z.lor (a * 4294967296) b = a * 4294967296 + b) as Hlor.
  { intros a b Hb; rewrite <- Z.add_lor_land.
    replace (Z.land (a * 4294967296) b) with 0; [lia|]; symmetry; apply Z.bits_inj'; intros i Hi.
    rewrite Z.bits_0, Z.land_spec; destruct (Z.ltb_spec i 32).
    - change 4294967296 with (2 ^ 32); by rewrite Z.mul_pow2_bits_low by lia.
    - assert (Z.testbit b i = false) as ->; [|by rewrite andb_false_r].
      destruct (Z.eqb_spec b 0) as [->|]; [apply Z.bits_0|].
      apply Z.bits_above_log2; [lia|]; assert (Z.log2 b < 32) by (apply Z.log2_lt_pow2; lia); lia. }
  destruct (Z.leb_spec 2147483648 l).
  - rewrite (as_i32_big l) by lia; unfold wrap_u64.
    replace (l - 4294967296) with (4294967295 * 4294967296 + l + (-1) * 18446744073709551616) by lia.
    rewrite Z.mod_add, Z.mod_small by lia; rewrite <- Hlor by lia; rewrite Z.lor_assoc.
    replace (Z.lor (h * 4294967296) (4294967295 * 4294967296)) with (4294967295 * 4294967296).
    { rewrite Hlor by lia; lia. }
    change 4294967296 with (2 ^ 32); rewrite <- !Z.shiftl_mul_pow2, <- Z.shiftl_lor by lia.
    change 4294967295 with (Z.ones 32); f_equal; symmetry; apply Z.lor_ones_low; [lia|].
    destruct (Z.eqb_spec h 0) as [->|]; [done|]; apply Z.log2_lt_pow2; lia.
  - rewrite (as_i32_small l) by lia; unfold wrap_u64; rewrite (Z.mod_small l) by lia; rewrite Hlor by lia; lia.
Qed.

(** ** The round trip of a request *)

Section remote.
Context `{FileSystem, Utf16}.
Variable now : Z.
Variable random : Z -> Z.
Variable mount_path : bool -> text.
Variable mounts : bool -> bool.

(** What comes back for the events of connection [conn], one after the other. *)
Fixpoint host_replies (c : Clip) (conn : Z) (events : list ClipboardFile) : list ClipboardFile :=
  match events with
  | [] => []
  | e :: events =>
      match serve_clip_messages now random mount_path mounts c Host e conn with
      | (Ok (messages, _), c) => omap receive messages ++ host_replies c conn events
      | (_, c) => host_replies c conn events
      end
  end.

(** The peer's view of a request of [read_node]. *)
Definition wire_request (n : FuseNode) (offset size : Z) : ContentsRequest :=
  Range (stream_id n) (index n) (received_offset (sent_high offset) (sent_low offset)) size.

Definition reply_of (stream : Z) (r : result ClipboardFile) : ClipboardFile :=
  match r with Ok m => m | _ => FileContentsResponse 2 stream [] end.

Lemma answer_no_panic l conn request : answer l conn request <> Panic.
Proof. unfold answer; destruct (l !! _); [|done]; destruct request; [done|]; by repeat case_match. Qed.

Lemma answer_is_response l conn request m :
  answer l conn request = Ok m -> exists d, m = FileContentsResponse 1 (request_stream request) d.
Proof.
  unfold answer; destruct (l !! _); [|done]; destruct request; [intros [= <-]; by eexists|].
  repeat case_match; try done; intros [= <-]; by eexists.
Qed.

Lemma wire_in_range n offset size :
  0 <= offset <= i64_max -> 0 <= size < 2147483648 -> in_range (wire_request n offset size).
Proof.
  intros Ho Hs; unfold wire_request, in_range; rewrite offset_received by done; unfold i64_max, u64_max in *.
  pose proof (Z.mod_pos_bound offset 4294967296 ltac:(lia)).
  destruct (Z.testbit offset 31); split_and!; try lia.
Qed.

Lemma host_answers c conn n offset size :
  Forall serveable (file_list (clip_files c)) -> 0 <= index n < 2147483648 ->
  0 <= offset <= i64_max -> 0 <= size < 2147483648 ->
  exists c' ms, serve_clip_messages now random mount_path mounts c Host (contents_request_of n offset size) conn =
      (Ok (ms, []), c') /\
    omap receive ms = [reply_of (stream_id n) (answer (file_list (clip_files c)) conn (wire_request n offset size))] /\
    Forall serveable (file_list (clip_files c')) /\
    Forall2 same_file (file_list (clip_files c)) (file_list (clip_files c')).
Proof.
  intros Hl Hi Ho Hs; unfold contents_request_of, serve_clip_messages, read_file_contents, contents_request.
  change (2 =? 1) with false; change (2 =? 2) with true; cbv iota zeta.
  fold (sent_high offset) (sent_low offset); fold (received_offset (sent_high offset) (sent_low offset)).
  rewrite !as_i32_small by lia.
  assert (wrap_u64 (index n) = index n /\ wrap_u64 size = size) as [-> ->]
    by (unfold wrap_u64; rewrite !Z.mod_small by lia; done).
  fold (wire_request n offset size).
  destruct (serve_answers (clip_files c) conn (wire_request n offset size) Hl (wire_in_range n offset size Ho Hs))
    as (s' & -> & Hl' & Hsame & _).
  set (a := answer _ _ _); pose proof (answer_no_panic (file_list (clip_files c)) conn (wire_request n offset size)) as Hnp.
  pose proof (answer_is_response (file_list (clip_files c)) conn (wire_request n offset size)) as Hresp; fold a in Hnp, Hresp.
  assert (exists m, contents_messages (stream_id n) [a] = Ok [m] /\ receive m = Some (reply_of (stream_id n) a))
    as (m & Hm & Hrm).
  { destruct a as [r|e|]; [|by eexists|done]; destruct (Hresp r eq_refl) as [d ->]; by eexists. }
  assert (forall l, Forall (fun r => exists fs, r = Ok (Files fs)) l ->
    exists ms, contents_messages (stream_id n) (l ++ [a]) = Ok ms /\ omap receive ms = [reply_of (stream_id n) a]) as Haudit.
  { intros l Hfs; induction Hfs as [|r l [fs ->] Hfs (ms & Hms & Hr)].
    - exists [m]; split; [exact Hm|]; cbn; by rewrite Hrm.
    - exists (clip_2_msg (Files fs) :: ms); split; [|exact Hr].
      change ((Ok (Files fs) :: l) ++ [a]) with (Ok (Files fs) :: (l ++ [a])).
      unfold contents_messages in *; cbn [mapM mbind outcome_bind]; rewrite Hms; done. }
  destruct (Haudit (match get_files_for_audit (clip_files c) (wire_request n offset size) with
                    | Some m => [Ok m] | None => [] end)) as (ms & Hms & Hr).
  { destruct (get_files_for_audit _ _) as [f|] eqn:Ef; [|constructor].
    unfold get_files_for_audit, wire_request in Ef; case_match; [|done]; case_match; [done|].
    injection Ef as <-; repeat constructor; by eexists. }
  rewrite Hms; eexists _, ms; split_and!; [reflexivity|exact Hr|done|done].
Qed.

Lemma host_replies_repeat k c conn n offset size :
  Forall serveable (file_list (clip_files c)) -> 0 <= index n < 2147483648 ->
  0 <= offset <= i64_max -> 0 <= size < 2147483648 ->
  host_replies c conn (replicate k (contents_request_of n offset size)) =
    replicate k (reply_of (stream_id n) (answer (file_list (clip_files c)) conn (wire_request n offset size))).
Proof.
  intros Hl Hi Ho Hs; revert c Hl; induction k as [|k IH]; intros c Hl; [done|].
  cbn [replicate host_replies].
  destruct (host_answers c conn n offset size Hl Hi Ho Hs) as (c' & ms & -> & -> & Hl' & Hsame).
  cbn [app]; f_equal; rewrite IH by done; by rewrite (answer_same _ _ conn (wire_request n offset size) Hsame).
Qed.

(** A late answer to a read of another file. *)
Definition stale (stream : Z) (m : ClipboardFile) : Prop :=
  match m with FileContentsResponse _ s _ => s <> stream | _ => False end.

Lemma await_skips_stale send request stream retry l replies :
  Forall (stale stream) l ->
  await_reply send request stream retry (map Some l ++ replies) = await_reply send request stream retry replies.
Proof.
  induction 1 as [|m l Hm Hl IH]; [done|]; destruct m as [| | | | | | |fl sid d| |]; try done; cbn in Hm.
  cbn [map app await_reply]; destruct (Z.eqb_spec sid stream); [done|exact IH].
Qed.

(** What the peer answers to a read of the file [f]. *)
Definition bytes_at (f : LocalFile) (offset size : Z) : list Z :=
  take (Z.to_nat (Z.min size (FileDescriptor.size f - offset))) (drop (Z.to_nat offset) (contents f)).
Definition unreadable_offset (f : LocalFile) (offset : Z) : bool := Z.testbit offset 31 || (FileDescriptor.size f <? offset).

Lemma host_reply c conn n k f offset size j :
  Forall serveable (file_list (clip_files c)) ->
  file_list (clip_files c) !! k = Some f -> is_dir f = false ->
  index n = Z.of_nat k -> Z.of_nat k < 2147483648 ->
  0 <= offset <= i64_max -> 0 <= size < 2147483648 ->
  host_replies c conn (replicate j (contents_request_of n offset size)) =
  replicate j (if unreadable_offset f offset then FileContentsResponse 2 (stream_id n) []
               else FileContentsResponse 1 (stream_id n) (bytes_at f offset size)).
Proof.
  intros Hl Hf Hd Hi Hk Ho Hs; rewrite host_replies_repeat by (done || lia); f_equal.
  unfold answer, wire_request; cbn [request_index]; rewrite Hi, Nat2Z.id, Hf, Hd, (offset_received _ Ho).
  destruct (Forall_lookup_1 _ _ _ _ Hl Hf) as [[Hsz _ _ _] _]; unfold unreadable_offset, bytes_at.
  pose proof (Z.mod_pos_bound offset 4294967296 ltac:(lia)); unfold i64_max in *.
  destruct (Z.testbit offset 31); cbn [orb]; [|by destruct (_ <? _)].
  destruct (Z.ltb_spec (FileDescriptor.size f) (18446744069414584320 + offset mod 4294967296)); [done|lia].
Qed.

(** C2. Reading through the mount: when the mounted node [n] is that of the
    file [f] the peer serves, and every file on the peer's list can be read, a
    read of up to 2 GiB returns exactly the bytes of the peer's file from the
    offset on, whatever was read before and whatever answers to reads of other
    files are late, except that every read whose offset has bit 31 set, or lies
    behind the end, fails.  A late answer to a read of the same file is not
    told from the answer: [late_answer_is_taken]; and a file that cannot be
    read can fail the read of another: [unreadable_next_file_fails_read]. *)
Theorem remote_read c conn n k f offset size late :
  Forall serveable (file_list (clip_files c)) ->
  file_list (clip_files c) !! k = Some f -> is_dir f = false ->
  index n = Z.of_nat k -> Z.of_nat k < 2147483648 ->
  0 <= offset <= i64_max -> 0 <= size < 2147483648 -> Forall (stale (stream_id n)) late ->
  let request := contents_request_of n offset size in
  (read_node (fun _ => Ok tt) n offset size
     (map Some late ++ map Some (host_replies c conn (replicate 4 request)))).1 =
  if Z.testbit offset 31 || (FileDescriptor.size f <? offset) then Err Other
  else Ok (take (Z.to_nat (Z.min size (FileDescriptor.size f - offset))) (drop (Z.to_nat offset) (contents f))).
Proof.
  intros Hl Hf Hd Hi Hk Ho Hs Hlate; cbv zeta; unfold read_node, send_request.
  rewrite await_skips_stale, (host_reply c conn n k f offset size 4) by done.
  fold (unreadable_offset f offset) (bytes_at f offset size).
  by destruct (unreadable_offset f offset); cbn; rewrite Z.eqb_refl.
Qed.

(** The answer to a read that timed out answers the next read of the same file:
    it returns the bytes at the offset of the first. *)
Theorem late_answer_is_taken c conn n k f offset size offset' size' replies :
  Forall serveable (file_list (clip_files c)) ->
  file_list (clip_files c) !! k = Some f -> is_dir f = false ->
  index n = Z.of_nat k -> Z.of_nat k < 2147483648 ->
  0 <= offset <= i64_max -> 0 <= size < 2147483648 -> unreadable_offset f offset = false ->
  (read_node (fun _ => Ok tt) n offset size [None]).1 = Err TimedOut /\
  (read_node (fun _ => Ok tt) n offset' size'
     (map Some (host_replies c conn (replicate 1 (contents_request_of n offset size))) ++ replies)).1 = Ok (bytes_at f offset size).
Proof.
  intros Hl Hf Hd Hi Hk Ho Hs Hr; split; [done|]; rewrite (host_reply c conn n k f offset size 1), Hr by done.
  unfold read_node, send_request; cbn; by rewrite Z.eqb_refl.
Qed.
End remote.

(** ** What a peer announces stays in the mount *)

(** A name that is one component: it cannot lead out of its directory. *)
Definition plain (n : text) : Prop := n <> [] /\ slash ∉ n /\ n <> [dot] /\ n <> [dot; dot].

Lemma segments_plain p : Forall (fun s => slash ∉ s) (segments p).
Proof.
  induction p as [|c p IH]; cbn [segments]; [repeat constructor; set_solver|].
  destruct (Z.eqb_spec c slash) as [|Hc]; [constructor; [set_solver|done]|].
  destruct (segments p) as [|s l]; [repeat constructor; set_solver|].
  apply Forall_cons in IH as [Hs Hl]; constructor; [set_solver|done].
Qed.

Lemma body_component_plain s n : slash ∉ s -> body_component s = Some (Normal n) -> plain n.
Proof.
  unfold body_component, skipped, plain; intros Hs; destruct (_ || _) eqn:E; [done|].
  destruct (bool_decide (s = [dot; dot])) eqn:E2; [done|]; intros [= <-]; bools; done.
Qed.

Lemma file_name_plain p n : file_name p = Some n -> plain n.
Proof.
  assert (forall l, Forall (fun s => slash ∉ s) l -> Normal n ∈ omap body_component l -> plain n) as H.
  { intros l Hl (s & Hs & Hb)%list_elem_of_omap; rewrite Forall_forall in Hl; eapply body_component_plain; eauto. }
  unfold file_name; destruct (last (components p)) as [[]|] eqn:E; try done; intros [= <-].
  apply last_Some_elem_of in E; unfold components in E; pose proof (segments_plain p) as Hp.
  destruct (rooted p); [apply elem_of_cons in E as [|E]; [done|by eapply H]|].
  destruct (segments p) as [|s l]; [set_solver|]; case_bool_decide; [|by eapply H].
  apply elem_of_cons in E as [|E]; [done|]; apply Forall_cons in Hp as [_ Hp]; by eapply H.
Qed.

Lemma list_root_plain now random s files s' :
  load_file_list now random s files = Ok s' ->
  match list_root s' with Ok names => Forall plain names | Err _ => False | Panic => False end.
Proof.
  unfold load_file_list; pose proof (build_tree_spec now random files) as Ht.
  destruct (build_tree now random files) as [t|e|]; [|done..]; destruct Ht as [Hnames ->].
  intros [= <-]; unfold list_root; cbn [tree]; unfold reference_tree at 1.
  assert (forall l, Forall (fun c => exists n, node_at
      (s <| tree := reference_tree now random files |> <| generation ::= fun g => wrap_u64 (g + 1) |>) c = Some n /\
      plain (n_name n)) l ->
    match mapM (fun ino => match node_at (s <| tree := reference_tree now random files |>
        <| generation ::= fun g => wrap_u64 (g + 1) |>) ino with Some n => Ok (n_name n) | None => Panic end) l : result _ with
    | Ok names => Forall plain names | Err _ => False | Panic => False end) as Hmap.
  { intros l Hl; induction Hl as [|c l (n & Hn & Hp) Hl IH]; [constructor|]; cbn [mapM]; rewrite Hn.
    destruct (mapM _ l); cbn; [by constructor|done..]. }
  apply Hmap, Forall_forall; intros c Hc; cbn in Hc; apply elem_children in Hc as (k & d & -> & Hk & _).
  exists (node_of now random files k d); split.
  - unfold node_at; destruct (Z.leb_spec (Z.of_nat k + 2) 0); [lia|]; cbn.
    replace (Z.to_nat (Z.of_nat k + 2 - 1)) with (S k) by lia.
    change (imap (node_of now random files) files !! k = Some (node_of now random files k d)).
    by rewrite list_lookup_imap, Hk.
  - apply (Forall_lookup_1 _ _ _ _ Hnames) in Hk as [n Hn]; cbn; rewrite Hn; by eapply file_name_plain.
Qed.

(** C37. A peer cannot make the viewer paste anything from outside the mount:
    whatever bytes it sends as a file list, handling them does not panic, and
    every path put on the clipboard is a plain name directly under the mount
    point. *)
Theorem pasted_paths_inside `{FileSystem, Utf16} now random mount_path mounts c side flags data conn :
  Forall is_byte data ->
  match (serve_clip_messages now random mount_path mounts c side (FormatDataResponse flags data) conn).1 with
  | Ok (messages, effects) => messages = [] /\
      forall e, e ∈ effects -> exists urls x, e = UpdateClipboardFiles urls side /\
        context (serve_clip_messages now random mount_path mounts c side (FormatDataResponse flags data) conn).2
          (is_client side) = Some x /\
        Forall (fun u => exists name, plain name /\ u = join_name (mount_point x) name) urls
  | _ => False
  end.
Proof.
  intros Hb; unfold serve_clip_messages; destruct (init_fuse_context mount_path mounts c true) as [[u|e|] c1] eqn:Ei;
    cbn [fst]; [|split; [done|set_solver]|].
  2: { unfold init_fuse_context in Ei; case_match; [done|]; by destruct (mounts true). }
  unfold format_data_response_to_urls; destruct (context c1 (is_client side)) as [x|]; [|split; [done|set_solver]].
  unfold context_urls; rewrite (parse_reads_layout data conn Hb).
  assert (read_pdu conn data <> Panic) as Hnp.
  { unfold read_pdu; case_match; [done|]; cbv zeta; case_match; [|done].
    pose proof (mapM_outcome (describe conn) (record_at data <$> seq 0 (Z.to_nat (field data 0 4)))
      (describe_no_panic conn)) as Hm; by destruct (mapM _ _). }
  destruct (read_pdu conn data) as [files|e|]; [|split; [done|set_solver]|done].
  pose proof (list_root_plain now random (fuse_server x) files) as Hroot.
  unfold load_file_list in *; pose proof (build_tree_spec now random files) as Ht.
  destruct (build_tree now random files) as [t|e|]; [|split; [done|set_solver]|done].
  cbn [mbind outcome_bind] in *; specialize (Hroot _ eq_refl); cbv zeta.
  destruct (list_root _) as [names|e|] eqn:En; [|done..]; cbn [mbind outcome_bind fst snd].
  split; [done|]; intros e ->%list_elem_of_singleton.
  eexists _, _; split_and!; [reflexivity|unfold context, set_context; destruct side; reflexivity|].
  apply Forall_forall; intros p (name & -> & Hn)%list_elem_of_fmap.
  rewrite Forall_forall in Hroot; exists name; split; [by apply Hroot|done].
Qed.

(** ** An example: the host's directory [/a] read through the viewer's mount *)

Definition host : Clip := {| clip_files := served; fuse_context_client := None; fuse_context_server := None |}.
Definition viewer_tree : list FuseNode :=
  match parse_file_descriptors (files_pdu served) 5 with
  | Ok l => match build_tree 0 (fun i => 10 + i) l with Ok t => t | _ => [] end
  | _ => []
  end.
Definition viewer_node : FuseNode := nth 2 viewer_tree (new_root 0 (fun i => i)).
Definition mount_example (_ : bool) : text := [47; 109].

Lemma remote_read_witness :
  (@read_node (fun _ => Ok tt) viewer_node 1 10
     (map Some [FileContentsResponse 1 12 [7]] ++
      map Some (@host_replies (cyclic false) _ 0 (fun i => i) mount_example (fun _ => true) host 5
        (replicate 4 (contents_request_of viewer_node 1 10))))).1 = Ok [2; 3].
Proof.
  etransitivity.
  - apply (@remote_read (cyclic false) _ 0 (fun i => i) mount_example (fun _ => true) host 5 viewer_node 1
      (nth 1 (file_list served) example_dir) 1 10 [FileContentsResponse 1 12 [7]]).
    + apply served_serveable.
    + vm_compute; reflexivity.
    + vm_compute; reflexivity.
    + vm_compute; reflexivity.
    + vm_compute; reflexivity.
    + vm_compute; split; discriminate.
    + vm_compute; split; [discriminate|reflexivity].
    + repeat constructor; vm_compute; discriminate.
  - vm_compute; reflexivity.
Defined.

Lemma pasted_paths_inside_witness :
  match (@serve_clip_messages (cyclic false) _ 0 (fun i => i) mount_example (fun _ => true) host Client
           (FormatDataResponse 1 (files_pdu served)) 5).1 with
  | Ok (_, effects) => effects = [UpdateClipboardFiles [[47; 109; 47; 97]] Client]
  | _ => False
  end.
Proof.
  assert (Forall is_byte (files_pdu served)) as Hb.
  { change (Forall (fun b => 0 <= b < 256) (files_pdu served)); apply (bool_decide_unpack _).
    vm_compute; exact I. }
  pose proof (@pasted_paths_inside (cyclic false) _ 0 (fun i => i) mount_example (fun _ => true) host Client 1
    (files_pdu served) 5 Hb) as Hp.
  destruct (serve_clip_messages _ _ _ _ _ _ _ _).1 as [[ms effects]|e|] eqn:E; [|exact Hp|exact Hp].
  vm_compute in E; congruence.
Defined.
