(* ===== verification/Subscriptions.v ===== *)
(** * Subscriptions of a service

    Models src/src/server/service.rs: a service of the host (a display's video,
    audio, cursor, ...) and the connections subscribed to it.  A new subscriber
    of a service that sends a snapshot first is deferred, and promoted by the
    snapshot or, for video, by the first frame that starts with a keyframe.

    The state is behind one read-write lock; each definition is what runs
    under it.  The subscriber type is the one the program instantiates the
    trait with, the sender half of a connection: a send does not change it,
    and is an output.  The hash maps are iterated in the order of
    [map_to_list]. *)

From S2P Require Import Prelude.

Section service.
(** The sender half of a connection, its id, and the messages. *)
Context {T Message : Type}.
Variable id : T -> Z.

(** The calls of [Subscriber::send], in their order. *)
Abbreviation Sent := (list (T * Message)).

(** ** State *)

Record ServiceInner := {
  name : string;
  handle : bool;
  subscribes : gmap Z T;
  new_subscribes : gmap Z T;
  active : bool;
  need_snapshot : bool;
  options : gmap string string;
}.
#[export] Instance eta_ServiceInner : Eta ServiceInner := fun r =>
  Build_ServiceInner (name r) (handle r) (subscribes r) (new_subscribes r) (active r)
    (need_snapshot r) (options r).

Definition new (n : string) (need : bool) : ServiceInner :=
  {| name := n; handle := false; subscribes := ∅; new_subscribes := ∅; active := true;
     need_snapshot := need; options := ∅ |}.

(** A loop over [values_mut] that sends to each. *)
Definition send_values (msg : Message) (m : gmap Z T) : Sent :=
  (fun p => (p.2, msg)) <$> map_to_list m.

Definition send_new_subscribes (msg : Message) (s : ServiceInner) : Sent :=
  send_values msg (new_subscribes s).

(** [insert] of the values drained from the deferred subscribers. *)
Definition promote (deferred : list (Z * T)) (m : gmap Z T) : gmap Z T :=
  foldl (fun m p => <[id p.2 := p.2]> m) m deferred.
Definition swap_new_subscribes (s : ServiceInner) : ServiceInner :=
  s <| subscribes ::= promote (map_to_list (new_subscribes s)) |> <| new_subscribes := ∅ |>.

Definition has_subscribes (s : ServiceInner) : bool :=
  (0 <? Z.of_nat (base.size (subscribes s))) || (0 <? Z.of_nat (base.size (new_subscribes s))).

(** ** The service as the server sees it *)

Definition is_subed (i : Z) (s : ServiceInner) : bool :=
  is_some (subscribes s !! i) || is_some (new_subscribes s !! i).

Definition on_subscribe (sub : T) (s : ServiceInner) : ServiceInner :=
  if is_some (subscribes s !! id sub) then s
  else if need_snapshot s then s <| new_subscribes ::= <[id sub := sub]> |>
  else s <| subscribes ::= <[id sub := sub]> |>.

Definition on_unsubscribe (i : Z) (s : ServiceInner) : ServiceInner :=
  let active_removed := is_some (subscribes s !! i) in
  let s := s <| subscribes ::= delete i |> in
  if active_removed then s else s <| new_subscribes ::= delete i |>.

(** [join]: the flag is cleared before the thread is awaited, without the lock. *)
Definition join_begin (s : ServiceInner) : ServiceInner := s <| active := false |>.
Definition join_take (s : ServiceInner) : bool * ServiceInner :=
  (handle s, s <| handle := false |>).

Definition get_option (opt : string) (s : ServiceInner) : option string := options s !! opt.
Definition set_option (opt val : string) (s : ServiceInner) : option string * ServiceInner :=
  (options s !! opt, s <| options ::= <[opt := val]> |>).
Definition ok (s : ServiceInner) : bool := active s && has_subscribes s.

Definition SERVICE_OPTION_VALUE_TRUE : string := "1".
Definition SERVICE_OPTION_VALUE_FALSE : string := "0".
Definition is_option_true (opt : string) (s : ServiceInner) : bool :=
  map_or (get_option opt s) false (fun v => bool_decide (v = SERVICE_OPTION_VALUE_TRUE)).
Definition set_option_bool (opt : string) (val : bool) (s : ServiceInner) : ServiceInner :=
  (set_option opt (if val then SERVICE_OPTION_VALUE_TRUE else SERVICE_OPTION_VALUE_FALSE) s).2.

Definition subscriber_ids (s : ServiceInner) : gset Z :=
  dom (subscribes s) ∪ dom (new_subscribes s).
Definition has_pending_subscribers (s : ServiceInner) : bool :=
  bool_decide (new_subscribes s <> ∅).

(** ** Sending *)

(** The ids collected by a loop over [values_mut] that sends to each. *)
Definition sent_ids (m : gmap Z T) : gset Z :=
  foldl (fun ids p => ids ∪ {[ id p.2 ]}) ∅ (map_to_list m).

Definition send_video_frame_with_join (msg : Message) (starts_with_keyframe : bool)
    (s : ServiceInner) : gset Z * Sent * ServiceInner :=
  let s := if starts_with_keyframe then swap_new_subscribes s else s in
  (sent_ids (subscribes s), send_values msg (subscribes s), s).

Definition send_shared (msg : Message) (s : ServiceInner) : Sent :=
  send_values msg (subscribes s).
Definition send := send_shared.
Definition send_to (msg : Message) (i : Z) (s : ServiceInner) : Sent :=
  match subscribes s !! i with Some t => [(t, msg)] | None => [] end.
(** The test is on the key. *)
Definition send_to_others (msg : Message) (i : Z) (s : ServiceInner) : Sent :=
  (fun p => (p.2, msg)) <$> filter (fun p => p.1 <> i) (map_to_list (subscribes s)).
Definition send_video_frame_shared (msg : Message) (s : ServiceInner) : gset Z * Sent :=
  (sent_ids (subscribes s), send_values msg (subscribes s)).
Definition send_video_frame := send_video_frame_shared.
(** The test is on the subscriber's own id. *)
Definition send_without (msg : Message) (sub : Z) (s : ServiceInner) : Sent :=
  (fun p => (p.2, msg)) <$> filter (fun p => sub <> id p.2) (map_to_list (subscribes s)).

(** [ServiceSwap::send_shared], [ServiceSwap::has_subscribes] and the swap's
    [Drop]. *)
Definition swap_send_shared (msg : Message) (s : ServiceInner) : Sent := send_new_subscribes msg s.
Definition swap_send := swap_send_shared.
Definition swap_has_subscribes (s : ServiceInner) : bool :=
  0 <? Z.of_nat (base.size (subscribes s)).
Definition swap_drop (s : ServiceInner) : ServiceInner := swap_new_subscribes s.

(** ** Interleavings

    The operations of all threads, each under the lock once. *)

Inductive Op :=
  | Subscribe (sub : T)
  | Unsubscribe (i : Z)
  | VideoFrameJoin (msg : Message) (starts_with_keyframe : bool)
  | SendShared (msg : Message)
  | SendTo (msg : Message) (i : Z)
  | SendToOthers (msg : Message) (i : Z)
  | SendVideoFrame (msg : Message)
  | SendWithout (msg : Message) (i : Z)
  | SwapSend (msg : Message)
  | SwapDrop
  | SetOption (opt val : string)
  | JoinBegin
  | JoinTake
  | Spawned.

Definition exec (o : Op) (s : ServiceInner) : Sent * ServiceInner :=
  match o with
  | Subscribe sub => ([], on_subscribe sub s)
  | Unsubscribe i => ([], on_unsubscribe i s)
  | VideoFrameJoin msg k => let '(_, out, s) := send_video_frame_with_join msg k s in (out, s)
  | SendShared msg => (send_shared msg s, s)
  | SendTo msg i => (send_to msg i s, s)
  | SendToOthers msg i => (send_to_others msg i s, s)
  | SendVideoFrame msg => ((send_video_frame msg s).2, s)
  | SendWithout msg i => (send_without msg i s, s)
  | SwapSend msg => (swap_send_shared msg s, s)
  | SwapDrop => ([], swap_drop s)
  | SetOption opt val => ([], (set_option opt val s).2)
  | JoinBegin => ([], join_begin s)
  | JoinTake => ([], (join_take s).2)
  | Spawned => ([], s <| handle := true |>)
  end.

Fixpoint execs (os : list Op) (s : ServiceInner) : Sent * ServiceInner :=
  match os with
  | [] => ([], s)
  | o :: os => let '(out, s) := exec o s in let '(out', s) := execs os s in (out ++ out', s)
  end.

(** [snapshot]: the check, and then the callback with the swap, whose drop
    follows whatever the callback returns.  [body] is what the callback and
    the other threads do meanwhile, [result] what it returns. *)
Definition snapshot {E} (body : list Op) (result : E + unit) (s : ServiceInner)
    : list Op * (E + unit) :=
  if 0 <? Z.of_nat (base.size (new_subscribes s)) then (body ++ [SwapDrop], result)
  else ([], inr tt).

(** ** One subscriber

    What one connection sees of a service: whether it is subscribed, and the
    messages it is sent. *)

Inductive View := Away | Deferred (t : T) | Joined (t : T).

Definition view (i : Z) (s : ServiceInner) : View :=
  match subscribes s !! i, new_subscribes s !! i with
  | Some t, _ => Joined t
  | None, Some t => Deferred t
  | None, None => Away
  end.

Definition heard (i : Z) (out : Sent) : Sent := filter (fun p => id p.1 = i) out.

(** Its own automaton, which no other connection takes part in. *)
Definition to_joined (msg : Message) (v : View) : Sent :=
  match v with Joined t => [(t, msg)] | _ => [] end.
Definition to_deferred (msg : Message) (v : View) : Sent :=
  match v with Deferred t => [(t, msg)] | _ => [] end.
Definition promoted (v : View) : View :=
  match v with Deferred t => Joined t | _ => v end.

Definition view_exec (need : bool) (i : Z) (o : Op) (v : View) : Sent * View :=
  match o with
  | Subscribe sub =>
      ([], match v with
           | Joined _ => v
           | _ => if bool_decide (id sub = i) then if need then Deferred sub else Joined sub
                  else v
           end)
  | Unsubscribe j => ([], if bool_decide (j = i) then Away else v)
  | VideoFrameJoin msg k => let v := if k : bool then promoted v else v in (to_joined msg v, v)
  | SendShared msg | SendVideoFrame msg => (to_joined msg v, v)
  | SendTo msg j => (if bool_decide (j = i) then to_joined msg v else [], v)
  | SendToOthers msg j | SendWithout msg j =>
      (if bool_decide (j = i) then [] else to_joined msg v, v)
  | SwapSend msg => (to_deferred msg v, v)
  | SwapDrop => ([], promoted v)
  | SetOption _ _ | JoinBegin | JoinTake | Spawned => ([], v)
  end.

Fixpoint view_execs (need : bool) (i : Z) (os : list Op) (v : View) : Sent * View :=
  match os with
  | [] => ([], v)
  | o :: os =>
      let '(out, v) := view_exec need i o v in
      let '(out', v) := view_execs need i os v in (out ++ out', v)
  end.

(** ** The threads of a service

    [S] is the state of the [repeat] callback, [Event] what it does to the
    outside. *)

Definition HIBERNATE_TIMEOUT : Z := 30.
Definition MAX_ERROR_TIMEOUT : Z := 1000.

(** What an iteration of [run] finds: whether the service is active and has
    subscribers, the time the callback took and whether it failed. *)
Record Tick := { t_active : bool; t_subscribed : bool; t_elapsed : duration; t_failed : bool }.

(** The new value of [error_timeout] after a failed callback. *)
Definition backoff (elapsed : duration) (error_timeout : Z) : Z :=
  let e := if from_millis MAX_ERROR_TIMEOUT <? elapsed then HIBERNATE_TIMEOUT
           else wrap_u64 (error_timeout * 2) in
  if MAX_ERROR_TIMEOUT <? e then MAX_ERROR_TIMEOUT else e.

(** One iteration: the milliseconds slept and the new [error_timeout]. *)
Definition run_iteration (t : Tick) (error_timeout : Z) : Z * Z :=
  if t_subscribed t && t_failed t then
    let e := backoff (t_elapsed t) error_timeout in (e + HIBERNATE_TIMEOUT, e)
  else (HIBERNATE_TIMEOUT, error_timeout).

(** The loop ends at the first tick that finds the service inactive; the list
    of the sleeps of its iterations, and what is left of the ticks. *)
Fixpoint run_loop (ts : list Tick) (error_timeout : Z) : list Z * list Tick :=
  match ts with
  | [] => ([], [])
  | t :: ts =>
      if t_active t then
        let '(slept, e) := run_iteration t error_timeout in
        let '(sleeps, rest) := run_loop ts e in (slept :: sleeps, rest)
      else ([], ts)
  end.
Definition run (ts : list Tick) : list Z * list Tick := run_loop ts HIBERNATE_TIMEOUT.

(** [repeat]: one iteration of the loop on the callback's state and
    [may_reset]; the calls it makes are the events. *)
Inductive Call := Init | Callback | Reset.
Definition repeat_iteration (subscribed may_reset : bool) : list Call * bool :=
  if subscribed then
    ((if negb may_reset then [Init] else []) ++ [Callback], true)
  else if may_reset then ([Reset], false)
  else ([], false).
Fixpoint repeat_loop (subs : list bool) (may_reset : bool) : list Call * bool :=
  match subs with
  | [] => ([], may_reset)
  | b :: subs =>
      let '(calls, m) := repeat_iteration b may_reset in
      let '(calls', m) := repeat_loop subs m in (calls ++ calls', m)
  end.

(** ** Well-formedness

    Each subscriber is under its own id and in one of the two maps; a service
    without a snapshot defers nobody. *)

Record wf (s : ServiceInner) : Prop := {
  wf_subscribes : forall i t, subscribes s !! i = Some t -> id t = i;
  wf_new : forall i t, new_subscribes s !! i = Some t -> id t = i;
  wf_disjoint : subscribes s ##ₘ new_subscribes s;
  wf_snapshot : need_snapshot s = false -> new_subscribes s = ∅;
}.

Lemma wf_fresh n need : wf (new n need).
Proof. constructor; simpl; [done|done|apply map_disjoint_empty_l|done]. Qed.

Lemma promote_spec (l : list (Z * T)) (m : gmap Z T) :
  (forall p, p ∈ l -> id p.2 = p.1) -> promote l m = list_to_map (reverse l) ∪ m.
Proof.
  revert m; induction l as [|[i t] l IH]; intros m Hid; cbn [promote foldl].
  { by rewrite reverse_nil, list_to_map_nil, (left_id_L ∅ (∪)). }
  rewrite (Hid (i, t)) by left; cbn [fst snd]; fold (promote l (<[i := t]> m)).
  rewrite IH by (intros; apply Hid; by right).
  rewrite reverse_cons, list_to_map_app; cbn [list_to_map foldr fst snd].
  by rewrite <- (assoc_L (∪)), insert_empty, <- insert_union_singleton_l.
Qed.

Lemma swap_subscribes s : wf s ->
  subscribes (swap_new_subscribes s) = new_subscribes s ∪ subscribes s.
Proof.
  intros W; simpl; rewrite promote_spec.
  - f_equal; rewrite <- (list_to_map_to_list (new_subscribes s)) at 2.
    symmetry; apply list_to_map_proper; [apply NoDup_fst_map_to_list|by rewrite reverse_Permutation].
  - intros [i t] Hp; apply elem_of_map_to_list in Hp; by apply (wf_new s W).
Qed.

Lemma swap_wf s : wf s -> wf (swap_new_subscribes s).
Proof.
  intros W; constructor; rewrite ?swap_subscribes by done; simpl.
  - intros i t [H|[_ H]]%lookup_union_Some_raw; [by apply (wf_new s W)|by apply (wf_subscribes s W)].
  - done.
  - apply map_disjoint_empty_r.
  - done.
Qed.

Lemma on_subscribe_wf sub s : wf s -> wf (on_subscribe sub s).
Proof.
  intros W; unfold on_subscribe, is_some.
  destruct (subscribes s !! id sub) eqn:E; simpl; [done|].
  destruct (need_snapshot s) eqn:En; constructor; simpl; try apply W.
  - intros i t [[<- <-]|[? ?]]%lookup_insert_Some; [done|by apply (wf_new s W)].
  - apply map_disjoint_insert_r_2; [done|apply W].
  - congruence.
  - intros i t [[<- <-]|[? ?]]%lookup_insert_Some; [done|by apply (wf_subscribes s W)].
  - rewrite (wf_snapshot s W En); apply map_disjoint_empty_r.
  - intros _; by apply (wf_snapshot s W).
Qed.

Lemma on_unsubscribe_wf i s : wf s -> wf (on_unsubscribe i s).
Proof.
  intros W; unfold on_unsubscribe; destruct (is_some _); constructor; simpl.
  1, 5: intros j t [_ ?]%lookup_delete_Some; by apply (wf_subscribes s W).
  1: apply W.
  1: by apply map_disjoint_delete_l, W.
  1: apply W.
  - intros j t [_ ?]%lookup_delete_Some; by apply (wf_new s W).
  - by apply map_disjoint_delete_l, map_disjoint_delete_r, W.
  - intros En; rewrite (wf_snapshot s W En); apply delete_empty.
Qed.

Lemma exec_wf o s : wf s -> wf (exec o s).2.
Proof.
  intros W; destruct o; simpl; try done; auto using on_subscribe_wf, on_unsubscribe_wf, swap_wf.
  all: try (by destruct W).
  destruct starts_with_keyframe; simpl; auto using swap_wf.
Qed.

Lemma exec_need_snapshot o s : need_snapshot (exec o s).2 = need_snapshot s.
Proof.
  destruct o; simpl; try done; unfold on_subscribe, on_unsubscribe; repeat case_match; done.
Qed.

(** ** Each subscriber follows its own automaton *)

Lemma filter_key (i : Z) (m : gmap Z T) :
  filter (fun p => p.1 = i) (map_to_list m) = match m !! i with Some t => [(i, t)] | None => [] end.
Proof.
  destruct (m !! i) as [t|] eqn:E.
  - apply Permutation_singleton_r; rewrite <- (insert_delete_id m i t E) at 1.
    rewrite map_to_list_insert, filter_cons_True by (done || apply lookup_delete_eq).
    apply Permutation_skip, Permutation_nil_r, filter_none.
    intros [j u] [Hne _]%elem_of_map_to_list%lookup_delete_Some Heq; simpl in Heq; congruence.
  - apply filter_none.
    intros [j u] Hp%elem_of_map_to_list Heq; simpl in Heq; congruence.
Qed.

Lemma heard_filter (Q : Z * T -> Prop) `{!forall p, Decision (Q p)} (msg : Message) i (m : gmap Z T) :
  (forall j t, m !! j = Some t -> id t = j) ->
  heard i ((fun p => (p.2, msg)) <$> filter Q (map_to_list m)) =
  match m !! i with Some t => if decide (Q (i, t)) then [(t, msg)] else [] | None => [] end.
Proof.
  intros Hid; unfold heard; rewrite filter_fmap, list_filter_filter.
  rewrite (filter_ext_in _ (fun p => Q p /\ p.1 = i)).
  - rewrite <- list_filter_filter, filter_key; destruct (m !! i) as [t|]; [|done].
    rewrite filter_cons; by destruct (decide (Q (i, t))).
  - intros [j t] Hp%elem_of_map_to_list; simpl; rewrite (Hid j t Hp); tauto.
Qed.

Lemma heard_values (msg : Message) i (m : gmap Z T) :
  (forall j t, m !! j = Some t -> id t = j) ->
  heard i (send_values msg m) = match m !! i with Some t => [(t, msg)] | None => [] end.
Proof.
  intros Hid; unfold send_values.
  replace (map_to_list m) with (filter (fun _ => True) (map_to_list m)).
  - by rewrite (heard_filter _ msg i m Hid); destruct (m !! i).
  - by apply filter_all.
Qed.

Lemma heard_joined i s msg : wf s -> heard i (send_values msg (subscribes s)) = to_joined msg (view i s).
Proof.
  intros W; rewrite heard_values by apply W; unfold view, to_joined; repeat case_match; naive_solver.
Qed.

Lemma not_both i s t : wf s -> subscribes s !! i = Some t -> new_subscribes s !! i = None.
Proof. intros W E; by apply (map_disjoint_Some_l (subscribes s) (new_subscribes s) i t), E; apply W. Qed.

Lemma view_swap i s : wf s -> view i (swap_new_subscribes s) = promoted (view i s).
Proof.
  intros W; unfold view; rewrite swap_subscribes by done; simpl.
  rewrite lookup_empty, lookup_union.
  destruct (subscribes s !! i) eqn:E; [by rewrite (not_both i s _ W E)|].
  by destruct (new_subscribes s !! i).
Qed.

Lemma view_subscribe i sub s : wf s ->
  view i (on_subscribe sub s) = (view_exec (need_snapshot s) i (Subscribe sub) (view i s)).2.
Proof.
  intros W; unfold on_subscribe, view; simpl.
  destruct (decide (id sub = i)) as [<-|Hne].
  - rewrite bool_decide_true by done; destruct (subscribes s !! id sub) eqn:E; simpl.
    + by rewrite E.
    + destruct (need_snapshot s) eqn:En; simpl; rewrite ?E, lookup_insert_eq;
        by destruct (new_subscribes s !! id sub).
  - rewrite bool_decide_false by done.
    destruct (is_some _), (need_snapshot s); simpl; rewrite ?lookup_insert_ne by done;
      by destruct (subscribes s !! i), (new_subscribes s !! i).
Qed.

Lemma view_unsubscribe i j s : wf s ->
  view i (on_unsubscribe j s) = (view_exec (need_snapshot s) i (Unsubscribe j) (view i s)).2.
Proof.
  intros W; unfold on_unsubscribe, view; simpl.
  destruct (decide (j = i)) as [->|Hne].
  - rewrite bool_decide_true by done; destruct (subscribes s !! i) as [t|] eqn:E; simpl.
    + by rewrite lookup_delete_eq, (not_both i s t W E).
    + by rewrite !lookup_delete_eq.
  - rewrite bool_decide_false by done.
    by destruct (is_some _); simpl; rewrite !lookup_delete_ne by done.
Qed.

Lemma heard_send_to i j s msg : wf s ->
  heard i (send_to msg j s) = if bool_decide (j = i) then to_joined msg (view i s) else [].
Proof.
  intros W; unfold send_to, heard, view; destruct (decide (j = i)) as [->|Hne].
  - rewrite bool_decide_true by done; destruct (subscribes s !! i) as [t|] eqn:E.
    + by rewrite filter_cons_True by (by apply (wf_subscribes s W)).
    + by destruct (new_subscribes s !! i).
  - rewrite bool_decide_false by done; destruct (subscribes s !! j) as [t|] eqn:E; [|done].
    rewrite filter_cons_False; [done|]; simpl; by rewrite (wf_subscribes s W j t E).
Qed.

Lemma heard_send_others (Q : Z * T -> Prop) `{!forall p, Decision (Q p)} i j s msg : wf s ->
  (forall t, id t = i -> Q (i, t) <-> j <> i) ->
  heard i ((fun p => (p.2, msg)) <$> filter Q (map_to_list (subscribes s))) =
  if bool_decide (j = i) then [] else to_joined msg (view i s).
Proof.
  intros W HQ; rewrite (heard_filter Q msg i) by apply W; unfold view.
  destruct (subscribes s !! i) as [t|] eqn:E.
  - specialize (HQ t (wf_subscribes s W i t E)); case_bool_decide; case_decide; tauto.
  - case_bool_decide; by destruct (new_subscribes s !! i).
Qed.

Lemma exec_view i o s : wf s ->
  (heard i (exec o s).1, view i (exec o s).2) = view_exec (need_snapshot s) i o (view i s).
Proof.
  intros W; destruct o as [sub|j|msg k|msg|msg j|msg j|msg|msg j|msg| |opt val| | |]; cbn [exec fst snd];
    try (by rewrite ?view_subscribe, ?view_unsubscribe by done).
  - destruct k; cbn [send_video_frame_with_join view_exec fst snd];
      by rewrite ?heard_joined, ?view_swap by auto using swap_wf.
  - by apply (f_equal (fun l => (l, view i s))), heard_joined.
  - simpl; by rewrite heard_send_to.
  - simpl; unfold send_to_others; rewrite (heard_send_others _ i j) by done || (simpl; done); done.
  - by apply (f_equal (fun l => (l, view i s))), heard_joined.
  - simpl; unfold send_without; rewrite (heard_send_others _ i j); [done|done|].
    intros t Ht; simpl; by rewrite Ht.
  - simpl; unfold swap_send_shared, send_new_subscribes; rewrite heard_values by apply W.
    f_equal; unfold view; destruct (subscribes s !! i) eqn:E; [by rewrite (not_both i s _ W E)|].
    by destruct (new_subscribes s !! i).
  - simpl; unfold swap_drop; by rewrite view_swap.
Qed.

Lemma execs_view i os s : wf s ->
  (heard i (execs os s).1, view i (execs os s).2) = view_execs (need_snapshot s) i os (view i s).
Proof.
  revert s; induction os as [|o os IH]; intros s W; [done|]; simpl.
  pose proof (exec_view i o s W) as Hv; pose proof (exec_wf o s W) as W'.
  pose proof (exec_need_snapshot o s) as Hn.
  destruct (exec o s) as [out s'] eqn:E; simpl in *; rewrite <- Hv.
  specialize (IH s' W'); rewrite Hn in IH; rewrite <- IH.
  destruct (execs os s') as [out' s'']; simpl; unfold heard; by rewrite filter_app.
Qed.

(** ** What the operations promise *)

Lemma execs_wf os s : wf s -> wf (execs os s).2.
Proof.
  revert s; induction os as [|o os IH]; intros s W; [done|]; simpl.
  pose proof (exec_wf o s W); destruct (exec o s) as [out s']; simpl in *.
  specialize (IH s' H); by destruct (execs os s').
Qed.

Lemma service_execs_app os os' s :
  execs (os ++ os') s =
  ((execs os s).1 ++ (execs os' (execs os s).2).1, (execs os' (execs os s).2).2).
Proof.
  revert s; induction os as [|o os IH]; intros s; simpl; [by destruct (execs os' s)|].
  destruct (exec o s) as [out s']; rewrite IH; destruct (execs os s') as [out' s'']; simpl.
  by rewrite (assoc_L (++)).
Qed.

Lemma is_subed_view i s : is_subed i s = true <-> view i s <> Away.
Proof using. clear id Message. unfold is_subed, view; destruct (subscribes s !! i), (new_subscribes s !! i); naive_solver. Qed.

(** A subscription and its end take effect at once, for that id only. *)
Lemma is_subed_subscribe i sub s : wf s ->
  is_subed i (on_subscribe sub s) = bool_decide (id sub = i) || is_subed i s.
Proof.
  intros W; apply eq_true_iff_eq; rewrite orb_true_iff, !is_subed_view, bool_decide_eq_true.
  rewrite view_subscribe by done; simpl.
  destruct (view i s), (decide (id sub = i)); rewrite ?(bool_decide_true (_ = _)) by done;
    rewrite ?(bool_decide_false (_ = _)) by done; destruct (need_snapshot s); naive_solver.
Qed.

Lemma is_subed_unsubscribe i j s : wf s ->
  is_subed i (on_unsubscribe j s) = negb (bool_decide (j = i)) && is_subed i s.
Proof.
  intros W; apply eq_true_iff_eq; rewrite andb_true_iff, !is_subed_view, negb_true_iff, bool_decide_eq_false.
  rewrite view_unsubscribe by done; simpl; case_bool_decide; naive_solver.
Qed.

Lemma elem_of_sent_ids (m : gmap Z T) i :
  (forall j t, m !! j = Some t -> id t = j) -> i ∈ sent_ids m <-> is_Some (m !! i).
Proof.
  intros Hid; unfold sent_ids.
  assert (forall l (X : gset Z), i ∈ foldl (fun ids p => ids ∪ {[ id (p : Z * T).2 ]}) X l <->
    i ∈ X \/ exists p, p ∈ l /\ id p.2 = i) as ->.
  { induction l as [|p l IH]; intros X; simpl; [set_solver|]; rewrite IH; set_solver. }
  split.
  - intros [?%elem_of_empty|([j t] & Hp%elem_of_map_to_list & <-)]; [done|]; simpl.
    rewrite (Hid j t Hp); by eexists.
  - intros [t Ht]; right; exists (i, t); rewrite elem_of_map_to_list; split; [done|]; by apply Hid.
Qed.

(** The ids a frame is reported to have been sent to are those it was sent to. *)
Lemma sent_ids_exact msg k s i : wf s ->
  i ∈ (send_video_frame_with_join msg k s).1.1 <-> heard i (send_video_frame_with_join msg k s).1.2 <> [].
Proof.
  intros W; unfold send_video_frame_with_join.
  set (s' := if k then _ else _); assert (wf s') as W' by (subst s'; destruct k; auto using swap_wf).
  simpl; rewrite elem_of_sent_ids, heard_values by apply W'.
  by destruct (subscribes s' !! i); rewrite is_Some_alt.
Qed.

(** Whatever the callback of a snapshot returns, nobody stays deferred. *)
Lemma snapshot_promotes {E} body (result : E + unit) s : wf s ->
  new_subscribes (execs (snapshot body result s).1 s).2 = ∅.
Proof.
  intros W; unfold snapshot; destruct (Z.ltb_spec 0 (Z.of_nat (base.size (new_subscribes s)))); simpl.
  - by rewrite service_execs_app.
  - apply map_size_empty_inv; lia.
Qed.

(** Each connection follows its own automaton: under any interleaving of
    the operations of all threads on a service, what one connection is sent
    and whether it is away, deferred or joined depend only on its own
    subscriptions and on what is sent, never on the other connections. *)
Theorem subscribers_independent n need i os :
  (heard i (execs os (new n need)).1, view i (execs os (new n need)).2) = view_execs need i os Away.
Proof. rewrite execs_view by apply wf_fresh; done. Qed.

(** ** The pace of the threads *)

Lemma backoff_bounds elapsed t : HIBERNATE_TIMEOUT <= t <= MAX_ERROR_TIMEOUT ->
  HIBERNATE_TIMEOUT <= backoff elapsed t <= MAX_ERROR_TIMEOUT /\
  (elapsed <= from_millis MAX_ERROR_TIMEOUT -> backoff elapsed t = Z.min (2 * t) MAX_ERROR_TIMEOUT).
Proof.
  unfold backoff, HIBERNATE_TIMEOUT, MAX_ERROR_TIMEOUT, wrap_u64; intros Ht.
  rewrite Z.mod_small by lia.
  destruct (Z.ltb_spec (from_millis 1000) elapsed); case_match eqn:E; lia.
Qed.

(** The wait after [n] failures in a row that each took at most a second. *)
Definition failure_wait (n : nat) : Z := Z.min (HIBERNATE_TIMEOUT * 2 ^ Z.of_nat n) MAX_ERROR_TIMEOUT.

Lemma run_iteration_bounds t e : HIBERNATE_TIMEOUT <= e <= MAX_ERROR_TIMEOUT ->
  HIBERNATE_TIMEOUT <= (run_iteration t e).1 <= MAX_ERROR_TIMEOUT + HIBERNATE_TIMEOUT /\
  HIBERNATE_TIMEOUT <= (run_iteration t e).2 <= MAX_ERROR_TIMEOUT.
Proof.
  intros He; unfold run_iteration; pose proof (backoff_bounds (t_elapsed t) e He) as [? _].
  unfold HIBERNATE_TIMEOUT, MAX_ERROR_TIMEOUT in *; destruct (_ && _); simpl; lia.
Qed.

Lemma run_loop_bounds ts e : HIBERNATE_TIMEOUT <= e <= MAX_ERROR_TIMEOUT ->
  Forall (fun w => HIBERNATE_TIMEOUT <= w <= MAX_ERROR_TIMEOUT + HIBERNATE_TIMEOUT) (run_loop ts e).1.
Proof.
  revert e; induction ts as [|t ts IH]; intros e He; simpl; [constructor|].
  destruct (t_active t); [|constructor].
  pose proof (run_iteration_bounds t e He) as [H1 H2]; destruct (run_iteration t e) as [w e']; simpl in *.
  specialize (IH e' H2); destruct (run_loop ts e'); by constructor.
Qed.

Definition fast_failure (t : Tick) : bool :=
  t_active t && t_subscribed t && t_failed t && (t_elapsed t <=? from_millis MAX_ERROR_TIMEOUT).

Lemma fast_failures_wait ts n :
  forallb fast_failure ts = true ->
  run_loop ts (failure_wait n) =
  ((fun k => failure_wait k + HIBERNATE_TIMEOUT) <$> seq (S n) (length ts), []).
Proof.
  revert n; induction ts as [|t ts IH]; intros n Ht; [done|]; simpl in Ht |- *.
  apply andb_true_iff in Ht as [Hf Ht]; unfold fast_failure in Hf; bools; use_bools.
  unfold run_iteration; use_bools.
  assert (HIBERNATE_TIMEOUT <= failure_wait n <= MAX_ERROR_TIMEOUT) as Hb.
  { unfold failure_wait, HIBERNATE_TIMEOUT, MAX_ERROR_TIMEOUT.
    assert (0 < 2 ^ Z.of_nat n) by (apply Z.pow_pos_nonneg; lia); lia. }
  destruct (backoff_bounds (t_elapsed t) (failure_wait n) Hb) as [_ ->]; [|by apply Z.leb_le].
  assert (Z.min (2 * failure_wait n) MAX_ERROR_TIMEOUT = failure_wait (S n)) as ->.
  { unfold failure_wait; rewrite Nat2Z.inj_succ, Z.pow_succ_r by lia; unfold MAX_ERROR_TIMEOUT; lia. }
  by rewrite IH.
Qed.

(** A service whose callback keeps failing is paced: every iteration waits at
    least 30 ms and at most 1.03 s, and the waits of immediate failures double
    up to a second, without an overflow of the counter. *)
Lemma run_paced ts :
  Forall (fun w => HIBERNATE_TIMEOUT <= w <= MAX_ERROR_TIMEOUT + HIBERNATE_TIMEOUT) (run ts).1 /\
  (forallb fast_failure ts = true ->
   run ts = ((fun k => failure_wait k + HIBERNATE_TIMEOUT) <$> seq 1 (length ts), [])).
Proof.
  split; [by apply run_loop_bounds|].
  intros Hf; by rewrite <- (fast_failures_wait ts 0 Hf).
Qed.

(** The calls [repeat] makes, as the language of an automaton: the callback
    runs only between an [init] and the [reset] that follows it. *)
Definition bracket_step (m : bool) (c : Call) : option bool :=
  match c, m with
  | Init, false | Callback, true => Some true
  | Reset, true => Some false
  | _, _ => None
  end.
Fixpoint bracket (m : bool) (cs : list Call) : option bool :=
  match cs with [] => Some m | c :: cs => bracket_step m c ≫= fun m => bracket m cs end.

Lemma bracket_app m cs cs' : bracket m (cs ++ cs') = bracket m cs ≫= fun m => bracket m cs'.
Proof.
  revert m; induction cs as [|c cs IH]; intros m; [done|]; simpl.
  destruct (bracket_step m c); simpl; [apply IH|done].
Qed.

Lemma repeat_bracketed subs m : bracket m (repeat_loop subs m).1 = Some (repeat_loop subs m).2.
Proof.
  revert m; induction subs as [|b subs IH]; intros m; [done|]; simpl.
  assert (bracket m (repeat_iteration b m).1 = Some (repeat_iteration b m).2) as Hi by (by destruct b, m).
  destruct (repeat_iteration b m) as [calls m']; simpl in Hi |- *.
  specialize (IH m'); destruct (repeat_loop subs m') as [calls' m'']; simpl in *.
  by rewrite bracket_app, Hi.
Qed.

(** After an iteration without subscribers the state is reset. *)
Lemma repeat_resets subs m : (repeat_loop (subs ++ [false]) m).2 = false.
Proof.
  revert m; induction subs as [|b subs IH]; intros m; simpl; [by destruct m|].
  destruct (repeat_iteration b m) as [calls m']; specialize (IH m').
  by destruct (repeat_loop (subs ++ [false]) m').
Qed.
End service.
