(* ===== verification/CaptureServer.v ===== *)
(** * The server of the host and the displays a connection captures

    Models the table of services and connections of src/src/server.rs, and the
    two requests of a viewer that change which displays it is sent:
    [capture_displays] and [switch_display_to] of src/src/server/connection.rs.
    They subscribe the connection to the services of the displays
    (file Subscriptions) and enable the tracks of those displays in its video
    queue (file VideoQueue).  The number of displays, which the platform
    reports, is an argument.  macOS's retina bookkeeping is not modelled. *)

From stdpp Require Import pretty.
From S2P Require Import Prelude Subscriptions.
From S2P Require VideoQueue.

(** ** Services and connections *)

Inductive VideoSource := Monitor | Camera.
#[export] Instance VideoSource_eq_dec : EqDecision VideoSource.
Proof. solve_decision. Defined.

Definition service_name_prefix (source : VideoSource) : string :=
  match source with Monitor => "monitor" | Camera => "camera" end.
(** [format!] of a [usize] is its decimal representation. *)
Definition get_service_name (source : VideoSource) (idx : nat) : string :=
  String.app (service_name_prefix source) (pretty idx).

(** [ConnInner]: the id and whether the two channels of the connection are
    present; a clone shares them. *)
Record ConnInner := {
  conn_id : Z;
  tx : bool;
  tx_video : bool;
  conn_source : VideoSource;
}.

(** A message, and whether it is a [SwitchDisplay]. *)
Record HostMessage := { wire : VideoQueue.Message; switch_display : bool }.
Inductive Channel := TxVideo | Tx.

(** [ConnInner::send]: the channel the message is queued on, if any. *)
Definition conn_send (c : ConnInner) (m : HostMessage) : option Channel :=
  if is_some (VideoQueue.video (wire m)) || switch_display m then
    if tx_video c then Some TxVideo else None
  else if tx c then Some Tx else None.

Abbreviation Service := (ServiceInner (T := ConnInner)).

Record Server := {
  connections : gmap Z ConnInner;
  services : gmap string Service;
  id_count : Z;
}.
#[export] Instance eta_Server : Eta Server := fun r =>
  Build_Server (connections r) (services r) (id_count r).

Definition is_video_service_name (n : string) : bool :=
  String.prefix (service_name_prefix Monitor) n || String.prefix (service_name_prefix Camera) n.

Definition contains (n : string) (s : Server) : bool := is_some (services s !! n).
Definition add_service (sv : Service) (s : Server) : Server :=
  s <| services ::= <[name sv := sv]> |>.
(** [video_service::new]: a service that snapshots, whose thread is spawned. *)
Definition new_video_service (source : VideoSource) (idx : nat) : Service :=
  new (get_service_name source idx) true <| handle := true |>.

Definition try_add_monitor_service (idx : nat) (s : Server) : Server :=
  let n := get_service_name Monitor idx in
  if negb (contains n s) then add_service (new_video_service Monitor idx) s else s.

Definition PRIMARY_CAMERA_IDX : nat := 0.
Definition try_add_primary_camera_service (exists_ : bool) (s : Server) : Server :=
  if negb exists_ then s
  else
    let n := get_service_name Camera PRIMARY_CAMERA_IDX in
    if negb (contains n s) then add_service (new_video_service Camera PRIMARY_CAMERA_IDX) s else s.

Definition add_camera_connection (exists_ : bool) (c : ConnInner) (s : Server) : Server :=
  let s :=
    if exists_ : bool then
      s <| services ::= alter (on_subscribe conn_id c) (get_service_name Camera PRIMARY_CAMERA_IDX) |>
    else s in
  s <| connections ::= <[conn_id c := c]> |>.

Definition add_monitor_connection (c : ConnInner) (noperms : list string) (idx : nat) (s : Server)
    : Server :=
  let monitor := get_service_name Monitor idx in
  s <| services ::= fmap (fun sv : Service =>
         if is_video_service_name (name sv) && bool_decide (name sv <> monitor) then sv
         else if bool_decide (name sv ∈ noperms) then sv
         else on_subscribe conn_id c sv) |>
    <| connections ::= <[conn_id c := c]> |>.

Definition remove_connection (c : ConnInner) (s : Server) : Server :=
  s <| services ::= fmap (on_unsubscribe (conn_id c)) |>
    <| connections ::= delete (conn_id c) |>.

(** The [StopService] message goes to every connection. *)
Definition close_connections (stop : HostMessage) (s : Server) : list (ConnInner * HostMessage) :=
  (fun p => (p.2, stop)) <$> map_to_list (connections s).

Definition subscribe (n : string) (c : ConnInner) (sub : bool) (s : Server) : Server :=
  match services s !! n with
  | Some sv =>
      if Bool.eqb (is_subed (conn_id c) sv) sub then s
      else s <| services ::= <[n := if sub then on_subscribe conn_id c sv
                                    else on_unsubscribe (conn_id c) sv]> |>
  | None => s
  end.

(** The increment of an [i32] of a release build. *)
Definition get_new_id (s : Server) : Z * Server :=
  let i := as_i32 (id_count s + 1) in (i, s <| id_count := i |>).

Definition set_video_service_opt (display : option (VideoSource * nat)) (opt value : string)
    (s : Server) : Server :=
  s <| services ::= map_imap (fun k sv => Some (
         if map_or display false (fun '(src, d) => bool_decide (k <> get_service_name src d)) then sv
         else if is_video_service_name k then (set_option opt value sv).2
         else sv)) |>.

Definition subscribed (i : Z) (n : string) (s : Server) : bool :=
  map_or (services s !! n) false (is_subed i).
Definition get_subbed_displays_count (i : Z) (s : Server) : nat :=
  length (filter (fun k => is_video_service_name k && subscribed i k s = true)
                 (map_to_list (services s)).*1).

(** ** Capture requests *)

Inductive CaptureDisplaysOperation := Include | ExcludeListed | Set_.
#[export] Instance CaptureDisplaysOperation_eq_dec : EqDecision CaptureDisplaysOperation.
Proof. solve_decision. Defined.

Definition request (add sub set : list nat) : CaptureDisplaysOperation * list nat :=
  match add, sub with
  | _ :: _, _ => (Include, add)
  | [], _ :: _ => (ExcludeListed, sub)
  | [], [] => (Set_, set)
  end.

(** [sort_unstable] and [dedup] of displays. *)
Definition sort_dedup (l : list nat) : list nat := dedup (merge_sort Nat.le l).

Definition validated_request (add sub set : list nat) (available : nat)
    : option (CaptureDisplaysOperation * list nat) :=
  let '(operation, requested) := request add sub set in
  let valid := filter (fun d => (d < available)%nat) requested in
  match requested, valid with
  | _ :: _, [] => None
  | _, _ => Some (operation, sort_dedup valid)
  end.

Definition subscription (o : CaptureDisplaysOperation) (listed subscribed : bool) : bool :=
  match o with
  | Include => subscribed || listed
  | ExcludeListed => subscribed && negb listed
  | Set_ => listed
  end.

(** One iteration of the loop over the names of the services. *)
Definition capture_one (c : ConnInner) (names : list string) (o : CaptureDisplaysOperation)
    (s : Server) (n : string) : Server :=
  if is_video_service_name n then
    match services s !! n with
    | None => s
    | Some sv =>
        let before := is_subed (conn_id c) sv in
        let after := subscription o (bool_decide (n ∈ names)) before in
        subscribe n c after s
    end
  else s.

Definition capture_displays (c : ConnInner) (source : VideoSource) (displays : list nat)
    (o : CaptureDisplaysOperation) (s : Server) : Server :=
  let names := get_service_name source <$> displays in
  let keys := merge_sort String.le (map_to_list (services s)).*1 in
  foldl (capture_one c names o) s keys.

(** ** The connection

    The part of a connection these requests use: its sender half, the state of
    the queue behind [tx_video], and its flags. *)
Record Connection := {
  inner : ConnInner;
  queue : VideoQueue.State;
  view_camera : bool;
  display_idx : nat;
  multi_ui_session : bool;
  follow_remote_window : bool;
}.
#[export] Instance eta_Connection : Eta Connection := fun r =>
  Build_Connection (inner r) (queue r) (view_camera r) (display_idx r) (multi_ui_session r)
    (follow_remote_window r).

Definition video_source (c : Connection) : VideoSource := if view_camera c then Camera else Monitor.

(** The fetch notifications for dropped frames: display and instant. *)
Definition notify_video_drops (drops : VideoQueue.Drops) : list (nat * instant) :=
  omap (fun d => (fun t => (d, t)) <$> drops d) (seq 0 VideoQueue.DISPLAYS).

(** The displays below the count whose service the connection is subscribed to. *)
Definition subscribed_displays (source : VideoSource) (count : nat) (i : Z) (s : Server) : list nat :=
  filter (fun d => subscribed i (get_service_name source d) s = true) (seq 0 count).

Definition sync_queue (count : nat) (c : Connection) (s : Server) : list (nat * instant) * Connection :=
  if tx_video (inner c) then
    let '(drops, q) := VideoQueue.set_displays
      (subscribed_displays (video_source c) count (conn_id (inner c)) s) (queue c) in
    (notify_video_drops drops, c <| queue := q |>)
  else ([], c).

Definition NAME_WINDOW_FOCUS : string := "window_focus".

Definition add_missing (source : VideoSource) (displays : list nat) (s : Server) : Server :=
  foldl (fun s d => if negb (contains (get_service_name source d) s)
                    then add_service (new_video_service source d) s else s) s displays.

(** [Connection::capture_displays], with the server it upgraded to. *)
Definition connection_capture_displays (add sub set : list nat) (count : nat) (c : Connection)
    (s : Server) : list (nat * instant) * Connection * Server :=
  match validated_request add sub set count with
  | None => ([], c, s)
  | Some (operation, displays) =>
      let source := video_source c in
      let s := add_missing source
                 (filter (fun _ => operation <> ExcludeListed) displays) s in
      let s := capture_displays (inner c) source displays operation s in
      let '(drops, c) := sync_queue count c s in
      let c := c <| multi_ui_session :=
                      bool_decide (1 < get_subbed_displays_count (conn_id (inner c)) s)%nat |> in
      let s := if follow_remote_window c
               then subscribe NAME_WINDOW_FOCUS (inner c) (negb (multi_ui_session c)) s else s in
      (drops, c, s)
  end.

(** [Connection::switch_display_to]; [multi] is whether the peer's version
    supports several displays in a session. *)
Definition switch_display_to (idx : nat) (multi : bool) (count : nat) (c : Connection) (s : Server)
    : bool * list (nat * instant) * Connection * Server :=
  let source := video_source c in
  if (count <=? idx)%nat then (false, [], c, s)
  else
    let new_name := get_service_name source idx in
    let old_name := get_service_name source (display_idx c) in
    let s := if negb (contains new_name s) then add_service (new_video_service source idx) s else s in
    let s := if negb multi then subscribe old_name (inner c) false s else s in
    let s := subscribe new_name (inner c) true s in
    let '(drops, c) := sync_queue count c s in
    (true, drops, c <| display_idx := idx |>, s).

(** ** Names *)

Lemma prefix_app p r : String.prefix p (String.app p r) = true.
Proof. induction p as [|a p IH]; simpl; [by destruct r|]. by destruct (Ascii.ascii_dec a a). Qed.

Lemma service_name_inj source d d' : get_service_name source d = get_service_name source d' -> d = d'.
Proof. unfold get_service_name; intros H; by apply (inj pretty), (inj (String.app (service_name_prefix source))). Qed.

Lemma service_name_video source d : is_video_service_name (get_service_name source d) = true.
Proof.
  unfold is_video_service_name, get_service_name; rewrite orb_true_iff.
  destruct source; [left|right]; apply prefix_app.
Qed.

Lemma service_names_mem source d (ds : list nat) :
  bool_decide (get_service_name source d ∈ get_service_name source <$> ds) = bool_decide (d ∈ ds).
Proof.
  apply bool_decide_ext; rewrite list_elem_of_fmap; split.
  - by intros (d' & ->%service_name_inj & ?).
  - intros Hd; by exists d.
Qed.

(** ** Well-formed servers *)

Record wf_server (s : Server) : Prop := {
  wf_service : forall n sv, services s !! n = Some sv -> name sv = n /\ wf conn_id sv;
  wf_connection : forall i c, connections s !! i = Some c -> conn_id c = i;
}.

Lemma wf_service_insert s n sv : wf_server s -> name sv = n -> wf conn_id sv ->
  wf_server (s <| services ::= <[n := sv]> |>).
Proof.
  intros W Hn Hw; constructor; simpl; [|apply W].
  intros m u [[<- <-]|[? ?]]%lookup_insert_Some; [done|by apply (wf_service s W)].
Qed.

Lemma on_subscribe_name c (sv : Service) : name (on_subscribe conn_id c sv) = name sv.
Proof. unfold on_subscribe; by repeat case_match. Qed.
Lemma on_unsubscribe_name i (sv : Service) : name (on_unsubscribe i sv) = name sv.
Proof. unfold on_unsubscribe; by repeat case_match. Qed.

Lemma add_service_wf source d s : wf_server s -> wf_server (add_service (new_video_service source d) s).
Proof.
  intros W; apply wf_service_insert; [done..|].
  unfold new_video_service; pose proof (wf_fresh conn_id (get_service_name source d) true) as W'.
  by destruct W'; constructor.
Qed.

Lemma subscribe_wf n c b s : wf_server s -> wf_server (subscribe n c b s).
Proof.
  intros W; unfold subscribe; destruct (services s !! n) as [sv|] eqn:E; [|done].
  destruct (Bool.eqb _ _); [done|]; destruct (wf_service s W n sv E) as [Hn Hw].
  apply wf_service_insert; [done|destruct b; by rewrite ?on_subscribe_name, ?on_unsubscribe_name|].
  destruct b; auto using on_subscribe_wf, on_unsubscribe_wf.
Qed.

Lemma add_missing_wf source ds s : wf_server s -> wf_server (add_missing source ds s).
Proof.
  unfold add_missing; revert s; induction ds as [|d ds IH]; intros s W; simpl; [done|].
  apply IH; destruct (negb _); auto using add_service_wf.
Qed.

Lemma capture_one_wf c names o s n : wf_server s -> wf_server (capture_one c names o s n).
Proof. intros W; unfold capture_one; repeat case_match; auto using subscribe_wf. Qed.

Lemma capture_displays_wf c source ds o s : wf_server s -> wf_server (capture_displays c source ds o s).
Proof.
  unfold capture_displays; generalize (merge_sort String.le (map_to_list (services s)).*1) as keys.
  intros keys; revert s; induction keys as [|k keys IH]; intros s W; simpl; auto using capture_one_wf.
Qed.

(** ** What a request does to one service *)

Definition resubscribe (c : ConnInner) (after : bool) (sv : Service) : Service :=
  if Bool.eqb (is_subed (conn_id c) sv) after then sv
  else if after then on_subscribe conn_id c sv else on_unsubscribe (conn_id c) sv.

Lemma subscribe_services n c b s m :
  services (subscribe n c b s) !! m =
  if decide (m = n) then resubscribe c b <$> services s !! m else services s !! m.
Proof.
  unfold subscribe, resubscribe; destruct (decide (m = n)) as [->|Hne].
  - destruct (services s !! n) as [sv|] eqn:E; [|by rewrite E]; simpl.
    destruct (Bool.eqb _ _); [done|]; simpl; by rewrite lookup_insert_eq.
  - destruct (services s !! n); [|done]; destruct (Bool.eqb _ _); [done|]; simpl.
    by rewrite lookup_insert_ne.
Qed.

Definition capture_service (c : ConnInner) (names : list string) (o : CaptureDisplaysOperation)
    (n : string) (sv : Service) : Service :=
  if is_video_service_name n then
    resubscribe c (subscription o (bool_decide (n ∈ names)) (is_subed (conn_id c) sv)) sv
  else sv.

Lemma capture_one_services c names o s n m :
  services (capture_one c names o s n) !! m =
  if decide (m = n) then capture_service c names o n <$> services s !! m else services s !! m.
Proof.
  unfold capture_one, capture_service; destruct (is_video_service_name n).
  - destruct (services s !! n) as [sv|] eqn:E.
    + rewrite subscribe_services; case_decide as H; [|done]; subst m; by rewrite E.
    + case_decide as H; [|done]; subst m; by rewrite E.
  - case_decide; [|done]; by destruct (services s !! m).
Qed.

Lemma capture_fold c names o keys s m : NoDup keys ->
  services (foldl (capture_one c names o) s keys) !! m =
  if decide (m ∈ keys) then capture_service c names o m <$> services s !! m else services s !! m.
Proof.
  intros Hn; revert s; induction Hn as [|k keys Hk Hn IH]; intros s; cbn [foldl].
  { by rewrite decide_False by set_solver. }
  rewrite IH, capture_one_services; destruct (decide (m = k)) as [->|Hne].
  - rewrite decide_False by done; by rewrite decide_True by set_solver.
  - by destruct (decide (m ∈ keys)); [rewrite decide_True by set_solver|rewrite decide_False by set_solver].
Qed.

Lemma capture_displays_services c source ds o s m :
  services (capture_displays c source ds o s) !! m =
  capture_service c (get_service_name source <$> ds) o m <$> services s !! m.
Proof.
  unfold capture_displays; rewrite capture_fold.
  - case_decide as Hm; [done|]; destruct (services s !! m) as [sv|] eqn:E; [|done].
    destruct Hm; rewrite merge_sort_Permutation; apply list_elem_of_fmap.
    exists (m, sv); by rewrite elem_of_map_to_list.
  - rewrite merge_sort_Permutation; apply NoDup_fst_map_to_list.
Qed.

(** ** What each connection sees of it *)

Definition view_of (i : Z) (n : string) (s : Server) : View :=
  match services s !! n with Some sv => view i sv | None => Away end.

Lemma subscribed_view i n s : subscribed i n s = true <-> view_of i n s <> Away.
Proof. unfold subscribed, view_of; destruct (services s !! n); simpl; [apply is_subed_view|naive_solver]. Qed.

Lemma subscribed_view_eq i n s s' : view_of i n s = view_of i n s' -> subscribed i n s = subscribed i n s'.
Proof. intros H; apply eq_true_iff_eq; by rewrite !subscribed_view, H. Qed.

Lemma resubscribe_other j c b sv : wf conn_id sv -> j <> conn_id c -> view j (resubscribe c b sv) = view j sv.
Proof.
  intros W Hj; unfold resubscribe; destruct (Bool.eqb _ _); [done|].
  destruct b; [rewrite (view_subscribe conn_id (Message := HostMessage)) by done
              |rewrite (view_unsubscribe conn_id (Message := HostMessage)) by done]; simpl.
  - rewrite bool_decide_false by done; by destruct (view j sv).
  - by rewrite bool_decide_false.
Qed.

Lemma resubscribe_subed c b sv : wf conn_id sv -> is_subed (conn_id c) (resubscribe c b sv) = b.
Proof.
  intros W; unfold resubscribe; destruct (Bool.eqb _ _) eqn:E; [by apply eqb_prop|].
  destruct b; [rewrite (is_subed_subscribe conn_id (Message := HostMessage)) by done
              |rewrite (is_subed_unsubscribe conn_id (Message := HostMessage)) by done];
    by rewrite bool_decide_true.
Qed.

Lemma resubscribe_same c sv b : is_subed (conn_id c) sv = b -> resubscribe c b sv = sv.
Proof. unfold resubscribe; intros ->; by rewrite eqb_reflx. Qed.

Lemma capture_other j c source ds o s n : wf_server s -> j <> conn_id c ->
  view_of j n (capture_displays c source ds o s) = view_of j n s.
Proof.
  intros W Hj; unfold view_of; rewrite capture_displays_services.
  destruct (services s !! n) as [sv|] eqn:E; [|done]; simpl.
  unfold capture_service; destruct (is_video_service_name n); [|done].
  apply resubscribe_other; [by apply (wf_service s W n sv E)|done].
Qed.

Lemma capture_self c source ds o s d : wf_server s -> is_Some (services s !! get_service_name source d) ->
  subscribed (conn_id c) (get_service_name source d) (capture_displays c source ds o s) =
  subscription o (bool_decide (d ∈ ds)) (subscribed (conn_id c) (get_service_name source d) s).
Proof.
  intros W [sv E]; unfold subscribed; rewrite capture_displays_services, E; simpl.
  unfold capture_service; rewrite service_name_video, service_names_mem.
  apply resubscribe_subed; by apply (wf_service s W _ sv E).
Qed.

(** A subscription that a request keeps is not touched: the service is the same. *)
Lemma capture_retained c source ds o s n :
  is_video_service_name n = true ->
  subscribed (conn_id c) n s =
    subscription o (bool_decide (n ∈ get_service_name source <$> ds)) (subscribed (conn_id c) n s) ->
  services (capture_displays c source ds o s) !! n = services s !! n.
Proof.
  intros Hv Hs; rewrite capture_displays_services.
  unfold subscribed in Hs; destruct (services s !! n) as [sv|]; [|done]; simpl in Hs |- *.
  by unfold capture_service; rewrite Hv, resubscribe_same.
Qed.

Lemma view_new_service i source d : view i (new_video_service source d) = Away.
Proof. done. Qed.

Lemma add_missing_view source ds s i n : view_of i n (add_missing source ds s) = view_of i n s.
Proof.
  unfold add_missing; revert s; induction ds as [|d ds IH]; intros s; [done|]; cbn [foldl]; rewrite IH.
  unfold contains, is_some; destruct (services s !! get_service_name source d) eqn:E; [done|]; simpl.
  unfold view_of, add_service; simpl; destruct (decide (n = get_service_name source d)) as [->|Hne].
  - by rewrite lookup_insert_eq, E.
  - by rewrite lookup_insert_ne.
Qed.

Lemma add_missing_keeps source ds s n sv :
  services s !! n = Some sv -> services (add_missing source ds s) !! n = Some sv.
Proof.
  unfold add_missing; revert s; induction ds as [|d ds IH]; intros s Hn; [done|]; cbn [foldl]; apply IH.
  unfold contains, is_some; destruct (services s !! get_service_name source d) eqn:E; [done|]; simpl.
  rewrite lookup_insert_ne; [done|]; intros <-; congruence.
Qed.

Lemma add_missing_adds source ds s d : d ∈ ds ->
  is_Some (services (add_missing source ds s) !! get_service_name source d).
Proof.
  revert s; induction ds as [|e ds IH]; intros s Hd; [by apply not_elem_of_nil in Hd|].
  unfold add_missing in *; cbn [foldl]; apply elem_of_cons in Hd as [->|Hd]; [|by apply IH].
  unfold contains, is_some; destruct (services s !! get_service_name source e) as [sv|] eqn:E; simpl.
  - exists sv; by apply add_missing_keeps.
  - eexists; apply add_missing_keeps; simpl; apply lookup_insert_eq.
Qed.

(** ** The queue follows the subscriptions *)

Lemma set_display_enabled l d s dr d' :
  VideoQueue.t_enabled (VideoQueue.tracks (VideoQueue.set_display l d s dr).1 d') =
  if decide (d' = d) then bool_decide (d ∈ l) else VideoQueue.t_enabled (VideoQueue.tracks s d').
Proof.
  unfold VideoQueue.set_display, VideoQueue.purge, VideoQueue.set_track.
  destruct (VideoQueue.purge_from _ _ _ _ _) as [[? ?] ?].
  repeat case_match; simplify_eq/=; unfold VideoQueue.array_set; repeat case_decide; simplify_eq/=; done.
Qed.

Lemma set_displays_enabled l q d : (d < VideoQueue.DISPLAYS)%nat ->
  VideoQueue.t_enabled (VideoQueue.tracks (VideoQueue.set_displays l q).2 d) = bool_decide (d ∈ l).
Proof.
  intros Hd; unfold VideoQueue.set_displays.
  assert (forall ds q dr,
    VideoQueue.t_enabled (VideoQueue.tracks (foldl (fun '(s, drops) d => VideoQueue.set_display l d s drops)
      (q, dr) ds).1 d) = if decide (d ∈ ds) then bool_decide (d ∈ l)
                         else VideoQueue.t_enabled (VideoQueue.tracks q d)) as H.
  { induction ds as [|e ds IH]; intros q0 dr; cbn [foldl]; [by rewrite decide_False by set_solver|].
    pose proof (set_display_enabled l e q0 dr d) as He.
    destruct (VideoQueue.set_display l e q0 dr) as [q1 dr1]; simpl in He; rewrite IH, He.
    destruct (decide (d = e)) as [->|Hne].
    - rewrite (decide_True _ _ (P := e ∈ e :: ds)) by set_solver; by case_decide.
    - by destruct (decide (d ∈ ds)); [rewrite decide_True by set_solver|rewrite decide_False by set_solver]. }
  specialize (H (seq 0 VideoQueue.DISPLAYS) q VideoQueue.no_drops).
  rewrite decide_True in H by (apply elem_of_seq; lia).
  by destruct (foldl _ _ _).
Qed.

(** ** The requests *)

Lemma subscribe_view_other j n c b s m : wf_server s -> j <> conn_id c ->
  view_of j m (subscribe n c b s) = view_of j m s.
Proof.
  intros W Hj; unfold view_of; rewrite subscribe_services; case_decide as H; [|done]; subst m.
  destruct (services s !! n) as [sv|] eqn:E; [|done]; simpl.
  apply resubscribe_other; [by apply (wf_service s W n sv E)|done].
Qed.

Lemma subscribe_self n c b s m : wf_server s ->
  subscribed (conn_id c) m (subscribe n c b s) =
  if decide (m = n) then contains n s && b else subscribed (conn_id c) m s.
Proof.
  intros W; unfold subscribed, contains; rewrite subscribe_services; case_decide as H; [|done]; subst m.
  destruct (services s !! n) as [sv|] eqn:E; [|done]; simpl.
  apply resubscribe_subed; by apply (wf_service s W n sv E).
Qed.

Lemma elem_of_subscribed_displays source count i s d :
  d ∈ subscribed_displays source count i s <->
  (d < count)%nat /\ subscribed i (get_service_name source d) s = true.
Proof. unfold subscribed_displays; rewrite list_elem_of_filter, elem_of_seq; intuition lia. Qed.

Lemma sync_queue_enabled count c s d : tx_video (inner c) = true -> (d < VideoQueue.DISPLAYS)%nat ->
  VideoQueue.t_enabled (VideoQueue.tracks (queue (sync_queue count c s).2) d) =
  bool_decide (d < count)%nat &&
    subscribed (conn_id (inner c)) (get_service_name (video_source c) d) s.
Proof.
  intros Ht Hd; unfold sync_queue; rewrite Ht.
  pose proof (set_displays_enabled
    (subscribed_displays (video_source c) count (conn_id (inner c)) s) (queue c) d Hd) as H.
  destruct (VideoQueue.set_displays _ _) as [drops q]; simpl in H |- *; rewrite H.
  apply eq_true_iff_eq; rewrite andb_true_iff, !bool_decide_eq_true; apply elem_of_subscribed_displays.
Qed.

Lemma sync_queue_fixed count c s :
  inner (sync_queue count c s).2 = inner c /\ view_camera (sync_queue count c s).2 = view_camera c.
Proof. unfold sync_queue; destruct (tx_video _); [|done]; by destruct (VideoQueue.set_displays _ _). Qed.

Lemma window_focus_not_video n : is_video_service_name n = true -> n <> NAME_WINDOW_FOCUS.
Proof. intros H ->; by vm_compute in H. Qed.

Lemma focus_services n c b s : is_video_service_name n = true ->
  services (subscribe NAME_WINDOW_FOCUS c b s) !! n = services s !! n.
Proof.
  intros Hn; rewrite subscribe_services; case_decide as H; [by apply window_focus_not_video in H|done].
Qed.

(** The server before the last step of the request. *)
Definition captured (c : Connection) (o : CaptureDisplaysOperation) (ds : list nat) (s : Server) : Server :=
  capture_displays (inner c) (video_source c) ds o
    (add_missing (video_source c) (filter (fun _ => o <> ExcludeListed) ds) s).

Lemma captured_self c o ds s d : wf_server s ->
  subscribed (conn_id (inner c)) (get_service_name (video_source c) d) (captured c o ds s) =
  subscription o (bool_decide (d ∈ ds))
    (subscribed (conn_id (inner c)) (get_service_name (video_source c) d) s).
Proof.
  intros W; unfold captured; set (s1 := add_missing _ _ s).
  assert (subscribed (conn_id (inner c)) (get_service_name (video_source c) d) s1 =
          subscribed (conn_id (inner c)) (get_service_name (video_source c) d) s) as Hs
    by (apply subscribed_view_eq, add_missing_view).
  destruct (services s1 !! get_service_name (video_source c) d) as [sv|] eqn:E.
  - rewrite capture_self, Hs; [done|by apply add_missing_wf|by eexists].
  - assert (o = ExcludeListed \/ bool_decide (d ∈ ds) = false) as Ho.
    { destruct (bool_decide (d ∈ ds)) eqn:Ed; [left|by right]; apply bool_decide_eq_true in Ed.
      destruct (decide (o = ExcludeListed)) as [|Ho]; [done|exfalso].
      assert (d ∈ filter (fun _ => o <> ExcludeListed) ds) as Hd by by apply list_elem_of_filter.
      apply (add_missing_adds (video_source c) _ s) in Hd as [sv Hd]; fold s1 in Hd; congruence. }
    unfold subscribed at 1; rewrite capture_displays_services, E; rewrite <- Hs.
    unfold subscribed; rewrite E; destruct Ho as [->| ->]; [done|by destruct o].
Qed.

Lemma captured_request add sub set count c s : wf_server s ->
  let '(_, c', s') := connection_capture_displays add sub set count c s in
  match validated_request add sub set count with
  | None => c' = c /\ s' = s
  | Some (o, ds) =>
      let i := conn_id (inner c) in
      let display := get_service_name (video_source c) in
      wf_server s' /\
      (forall d, subscribed i (display d) s' =
                 subscription o (bool_decide (d ∈ ds)) (subscribed i (display d) s)) /\
      (forall d sv, services s !! display d = Some sv ->
         subscribed i (display d) s' = subscribed i (display d) s ->
         services s' !! display d = Some sv) /\
      (forall j n, j <> i -> view_of j n s' = view_of j n s) /\
      (tx_video (inner c) = true -> forall d, (d < VideoQueue.DISPLAYS)%nat ->
         VideoQueue.t_enabled (VideoQueue.tracks (queue c') d) =
         bool_decide (d < count)%nat && subscribed i (display d) s')
  end.
Proof.
  intros W; unfold connection_capture_displays.
  destruct (validated_request add sub set count) as [[o ds]|] eqn:Ev; [|done].
  fold (captured c o ds s); set (s1 := captured c o ds s).
  assert (wf_server s1) as W1 by by apply capture_displays_wf, add_missing_wf.
  pose proof (sync_queue_fixed count c s1) as [Hi Hv].
  pose proof (sync_queue_enabled count c s1) as Hq.
  destruct (sync_queue count c s1) as [drops c1]; simpl in Hi, Hv, Hq |- *.
  set (s2 := if follow_remote_window c1 then _ else s1).
  assert (forall n, is_video_service_name n = true -> services s2 !! n = services s1 !! n) as Hs2.
  { intros n Hn; subst s2; destruct (follow_remote_window c1); [by apply focus_services|done]. }
  assert (forall i d, subscribed i (get_service_name (video_source c) d) s2 =
                      subscribed i (get_service_name (video_source c) d) s1) as Hd2.
  { intros i d; unfold subscribed; by rewrite Hs2 by apply service_name_video. }
  split_and!.
  - subst s2; destruct (follow_remote_window c1); auto using subscribe_wf.
  - intros d; rewrite Hd2; by apply captured_self.
  - intros d sv E Hk; rewrite Hs2 by apply service_name_video; unfold s1, captured.
    rewrite capture_retained; [by apply add_missing_keeps|apply service_name_video|].
    rewrite service_names_mem, (subscribed_view_eq _ _ _ s) by apply add_missing_view.
    rewrite Hd2 in Hk; rewrite <- Hk at 1; by apply captured_self.
  - intros j n Hj; trans (view_of j n s1).
    + subst s2; destruct (follow_remote_window c1); [|done].
      by apply subscribe_view_other; rewrite ?Hi.
    + unfold s1, captured; rewrite capture_other by auto using add_missing_wf; apply add_missing_view.
  - intros Ht d Hd; rewrite Hd2; by apply Hq.
Qed.

Lemma sort_dedup_mem l d : d ∈ sort_dedup l <-> d ∈ l.
Proof. unfold sort_dedup; by rewrite elem_of_dedup, merge_sort_Permutation. Qed.

(** A request is refused when it names displays and none of them exists. *)
Definition refused (requested : list nat) (count : nat) : bool :=
  bool_decide (requested <> []) && forallb (fun d => count <=? d)%nat requested.

Lemma validated_request_spec add sub set count :
  let '(o, requested) := request add sub set in
  match validated_request add sub set count with
  | None => refused requested count = true
  | Some (o', ds) => refused requested count = false /\ o' = o /\
      forall d, d ∈ ds <-> d ∈ requested /\ (d < count)%nat
  end.
Proof.
  unfold validated_request; destruct (request add sub set) as [o requested].
  set (valid := filter _ requested).
  assert (forall d, d ∈ valid <-> d ∈ requested /\ (d < count)%nat) as Hv.
  { intros d; unfold valid; rewrite list_elem_of_filter; tauto. }
  assert (forall d, d ∈ sort_dedup valid <-> d ∈ requested /\ (d < count)%nat) as Hs
    by (intros d; by rewrite sort_dedup_mem).
  unfold refused; destruct requested as [|r requested]; [done|].
  destruct valid as [|v valid].
  - apply andb_true_iff; split; [done|]; apply forallb_forall; intros d Hd%list_elem_of_In.
    apply Nat.leb_le; destruct (decide (count <= d)%nat) as [|Hlt]; [done|].
    assert (d ∈ []) as []%not_elem_of_nil by (apply Hv; split; [done|lia]).
  - split_and!; [|done|done]; apply not_true_is_false; intros [_ H]%andb_true_iff.
    destruct (proj1 (Hv v)) as [H1%list_elem_of_In H2]; [left|].
    rewrite forallb_forall in H; specialize (H v H1); apply Nat.leb_le in H; lia.
Qed.

(** C30. A capture request does what it says and nothing else.  One that names
    displays of which none exists changes nothing.  Any other leaves the
    connection subscribed to the displays it had and the named ones, to those it
    had but the named ones, or to exactly the named ones, according to its
    operation and whatever it names that does not exist; a subscription that it
    keeps is the same service as before, whose stream is not restarted; no other
    connection sees anything change in any service; and the tracks of the
    connection's video queue are enabled for exactly the displays it is
    subscribed to. *)
Theorem capture_request_exact add sub set count c s : wf_server s ->
  let '(_, c', s') := connection_capture_displays add sub set count c s in
  let '(o, requested) := request add sub set in
  let named d := bool_decide (d ∈ requested /\ (d < count)%nat) in
  let i := conn_id (inner c) in
  let display := get_service_name (video_source c) in
  if refused requested count then c' = c /\ s' = s
  else
    wf_server s' /\
    (forall d, subscribed i (display d) s' =
       let before := subscribed i (display d) s in
       match o with
       | Include => before || named d
       | ExcludeListed => before && negb (named d)
       | Set_ => named d
       end) /\
    (forall d sv, services s !! display d = Some sv ->
       subscribed i (display d) s' = subscribed i (display d) s ->
       services s' !! display d = Some sv) /\
    (forall j n, j <> i -> view_of j n s' = view_of j n s) /\
    (tx_video (inner c) = true -> forall d, (d < VideoQueue.DISPLAYS)%nat ->
       VideoQueue.t_enabled (VideoQueue.tracks (queue c') d) =
       bool_decide (d < count)%nat && subscribed i (display d) s').
Proof.
  intros W; pose proof (captured_request add sub set count c s W) as H.
  pose proof (validated_request_spec add sub set count) as V.
  destruct (connection_capture_displays _ _ _ _ _ _) as [[dr c'] s'].
  destruct (request add sub set) as [o requested].
  destruct (validated_request add sub set count) as [[o' ds]|]; [|by rewrite V].
  destruct V as (-> & -> & V); destruct H as (W' & Hd & H); split; [done|split; [|exact H]].
  intros d; rewrite Hd; rewrite (bool_decide_ext _ _ (V d)); by destruct o.
Qed.

(** The server of two connections and three displays of the tests. *)
Definition fixture (i : Z) (q : VideoQueue.State) : Connection :=
  {| inner := {| conn_id := i; tx := true; tx_video := true; conn_source := Monitor |};
     queue := q; view_camera := false; display_idx := 0; multi_ui_session := false;
     follow_remote_window := false |}.
Definition empty_server : Server := {| connections := ∅; services := ∅; id_count := 0 |}.
Definition after_requests : Server :=
  let '(_, _, s) := connection_capture_displays [] [] [0; 1; 2]%nat 3 (fixture 1 VideoQueue.new) empty_server in
  let '(_, _, s) := connection_capture_displays [1]%nat [] [] 3 (fixture 2 VideoQueue.new) s in s.

Lemma empty_server_wf : wf_server empty_server.
Proof. by constructor. Qed.

Lemma capture_request_exact_witness :
  let '(_, c', s') := connection_capture_displays [] [] [0; 2; 7]%nat 3
                        (fixture 1 VideoQueue.new) empty_server in
  subscribed 1 "monitor2" s' = true /\ subscribed 1 "monitor1" s' = false /\
  VideoQueue.t_enabled (VideoQueue.tracks (queue c') 1) = false.
Proof.
  pose proof (capture_request_exact [] [] [0; 2; 7]%nat 3 (fixture 1 VideoQueue.new) empty_server
                empty_server_wf) as H.
  destruct (connection_capture_displays _ _ _ _ _ _) as [[dr c'] s'].
  destruct H as (_ & Hd & _ & _ & Hq).
  assert (subscribed 1 "monitor1" s' = false) as H1 by by etrans; [apply (Hd 1%nat)|vm_compute].
  split; [by etrans; [apply (Hd 2%nat)|vm_compute]|split; [exact H1|]].
  rewrite (Hq eq_refl 1%nat) by (unfold VideoQueue.DISPLAYS; lia).
  exact (f_equal (andb _) H1).
Defined.

(** ** The other operations of the server *)

Lemma remove_connection_wf c s : wf_server s -> wf_server (remove_connection c s).
Proof.
  intros W; constructor; simpl.
  - intros n sv; rewrite lookup_fmap; intros (u & Hu & ->)%fmap_Some; destruct (wf_service s W n u Hu).
    split; [by rewrite on_unsubscribe_name|by apply on_unsubscribe_wf].
  - intros i d [_ Hd]%lookup_delete_Some; by apply (wf_connection s W).
Qed.

(** A connection that ends is subscribed to nothing and no longer listed, and
    nobody else is affected. *)
Lemma remove_connection_exact c s j n : wf_server s ->
  subscribed (conn_id c) n (remove_connection c s) = false /\
  connections (remove_connection c s) !! conn_id c = None /\
  (j <> conn_id c -> view_of j n (remove_connection c s) = view_of j n s /\
                     connections (remove_connection c s) !! j = connections s !! j).
Proof.
  intros W; split_and!; [|simpl; by rewrite lookup_delete_eq|].
  - unfold subscribed; simpl; rewrite lookup_fmap; destruct (services s !! n) as [sv|] eqn:E; [|done]; simpl.
    rewrite (is_subed_unsubscribe conn_id (Message := HostMessage)) by (by apply (wf_service s W n sv E)).
    by rewrite bool_decide_true.
  - intros Hj; split; [|simpl; by rewrite lookup_delete_ne].
    unfold view_of; simpl; rewrite lookup_fmap; destruct (services s !! n) as [sv|] eqn:E; [|done]; simpl.
    rewrite (view_unsubscribe conn_id (Message := HostMessage)) by (by apply (wf_service s W n sv E)).
    simpl; by rewrite bool_decide_false.
Qed.

(** A new viewer is subscribed to every permitted service and to one display. *)
Lemma add_monitor_connection_exact c noperms idx s n sv : wf_server s -> services s !! n = Some sv ->
  subscribed (conn_id c) n (add_monitor_connection c noperms idx s) =
  subscribed (conn_id c) n s ||
  (negb (is_video_service_name n && bool_decide (n <> get_service_name Monitor idx)) &&
   negb (bool_decide (n ∈ noperms))).
Proof.
  intros W E; destruct (wf_service s W n sv E) as [Hn Hw].
  unfold subscribed; simpl; rewrite lookup_fmap, E; simpl; rewrite Hn.
  destruct (_ && bool_decide (n <> _)); simpl; [by rewrite orb_false_r|].
  destruct (bool_decide (n ∈ noperms)); simpl; [by rewrite orb_false_r|].
  rewrite (is_subed_subscribe conn_id (Message := HostMessage)) by done.
  by rewrite bool_decide_true, orb_true_r.
Qed.

(** Switching moves a viewer without multi-display support from one display to
    another; one that supports several keeps what it had. *)
Lemma switch_display_exact idx multi count c s d : wf_server s -> (idx < count)%nat ->
  let '(ok, _, c', s') := switch_display_to idx multi count c s in
  ok = true /\ display_idx c' = idx /\
  subscribed (conn_id (inner c)) (get_service_name (video_source c) d) s' =
    bool_decide (d = idx) ||
    (subscribed (conn_id (inner c)) (get_service_name (video_source c) d) s &&
     negb (negb multi && bool_decide (d = display_idx c))).
Proof.
  intros W Hc; unfold switch_display_to.
  replace (count <=? idx)%nat with false by (symmetry; apply Nat.leb_gt; lia).
  set (s1 := if negb (contains _ s) then _ else s).
  assert (s1 = add_missing (video_source c) [idx] s) as Hs1 by done.
  assert (wf_server s1) as W1 by (rewrite Hs1; by apply add_missing_wf).
  set (s2 := if negb multi then _ else s1).
  assert (wf_server s2) as W2 by (subst s2; destruct (negb multi); auto using subscribe_wf).
  destruct (sync_queue _ _ _) as [drops c1]; split_and!; [done..|].
  rewrite subscribe_self by done; unfold s2.
  assert (forall n, subscribed (conn_id (inner c)) n s1 = subscribed (conn_id (inner c)) n s) as Hv1
    by (intros n; rewrite Hs1; apply subscribed_view_eq, add_missing_view).
  destruct (decide (d = idx)) as [->|Hne].
  - rewrite decide_True, bool_decide_true by done; simpl.
    unfold contains, is_some; destruct (services _ !! _) eqn:E; [done|exfalso].
    assert (is_Some (services s1 !! get_service_name (video_source c) idx)) as [sv Hsv]
      by (rewrite Hs1; apply add_missing_adds; set_solver).
    unfold s2 in E; destruct (negb multi); [|congruence].
    rewrite subscribe_services, Hsv in E; by case_decide.
  - rewrite decide_False by (by intros ?%service_name_inj); rewrite (bool_decide_false (d = idx)) by done.
    destruct multi; simpl; [by rewrite andb_true_r, Hv1|].
    rewrite subscribe_self by done; destruct (decide (d = display_idx c)) as [->|Hd].
    + rewrite decide_True, bool_decide_true by done; by rewrite !andb_false_r.
    + rewrite decide_False by (by intros ?%service_name_inj).
      by rewrite bool_decide_false, andb_true_r, Hv1.
Qed.
