(* ===== verification/VideoStream.v ===== *)
(** * The frames of a video service

    Models, of src/src/server/video_service.rs, how a video service numbers the
    frames it encodes, hands them to its subscribers ([handle_one_frame]), gives
    up on an encoder that fails, and decides when the encoder must produce a
    reference frame: for a subscriber that joins ([subscriber_join_action]) and
    for quality and delivery ([HqReferenceRefreshPolicy]).  The encoder is not
    part of the sources modelled; what a call of it returned is an argument.

    [VideoEvent] and [video_step] put the operations in the order [run] makes
    them, together with what the threads of the connections do to the service
    meanwhile. *)

From S2P Require Import Prelude Subscriptions CaptureServer.
From S2P Require VideoQueue.
Import VideoQueue (VideoFrame, EncodedVideoFrame, Vp8s, Vp9s, Av1s, H264s, H265s,
  v_display, stream_id, frame_id, v_union).

#[export] Instance eta_VideoFrame : Eta VideoFrame := fun r =>
  VideoQueue.Build_VideoFrame (v_display r) (stream_id r) (frame_id r) (v_union r).

Definition HW_ENCODER_WARMUP_TIMEOUT : duration := from_secs 3.
Definition HQ_REFERENCE_REFRESH_BITRATE_MULTIPLIER : Z := 3.
Definition HQ_REFERENCE_REFRESH_BITRATE_DIVISOR : Z := 2.
Definition HQ_REFERENCE_REFRESH_COOLDOWN : duration := from_secs 6.
Definition DELIVERY_REFERENCE_REFRESH_COOLDOWN : duration := from_millis 250.
Definition IN_PLACE_REFERENCE_REFRESH_TIMEOUT : duration := from_secs 1.

(** ** Stamps *)

(** [fetch_add] of the counter of streams returns the old value; zero is skipped. *)
Definition next_video_stream_id (counter : Z) : Z * Z :=
  if counter =? 0 then (1, 2) else (counter, wrap_u64 (counter + 1)).

(** The frame id, the next one, the frame and its capture time. *)
Definition stamp_video_frame (vf : VideoFrame) (stream next_frame_id capture_time_ms : Z)
    : Z * Z * VideoFrame * Z :=
  let fid := Z.max next_frame_id 1 in
  (fid, Z.max (wrap_u64 (fid + 1)) 1, vf <| stream_id := stream |> <| frame_id := fid |>,
   Z.max capture_time_ms 0).

Definition starts_with_keyframe (f : VideoFrame) : bool :=
  match v_union f with
  | Some (Vp8s frames | Vp9s frames | Av1s frames | H264s frames | H265s frames) =>
      is_some_and (head frames) (fun f =>
        VideoQueue.f_key f && negb (bool_decide (VideoQueue.data f = [])))
  | _ => false
  end.

(** The keyframe flag of [video_frame_payload_stats] in a build with hardware
    codecs, the numbers being logged. *)
Definition has_keyframe (f : VideoFrame) : bool :=
  match v_union f with
  | Some (Vp8s frames | Vp9s frames | Av1s frames | H264s frames | H265s frames) =>
      existsb VideoQueue.f_key frames
  | _ => false
  end.

(** ** Reference frames *)

Inductive ReferenceRefreshReason :=
  | StartupSafeEnded
  | SignificantBitrateIncrease
  | DeliveryRecovery
  | SecureDesktopTransition
  | MovieCadenceChange
  | SubscriberJoin.

Inductive SubscriberJoinAction := Wait | Reference | Restart.

Definition subscriber_join_action (pending has_encoded_frame replayable_frame : bool)
    (started : option instant) (now : instant) : SubscriberJoinAction * option instant :=
  if negb pending then (Wait, None)
  else if negb has_encoded_frame then (Wait, started)
  else if negb replayable_frame || is_some_and started (fun at_ => from_secs 10 <=? since now at_)
  then (Restart, started)
  else if is_none started then (Reference, Some now)
  else (Wait, started).

Record HqReferenceRefreshPolicy := {
  startup_safe : bool;
  reference_bitrate : Z;
  last_refresh : option instant;
  last_delivery_refresh_attempt : option instant;
  delivery_refresh_pending : bool;
}.
#[export] Instance eta_HqReferenceRefreshPolicy : Eta HqReferenceRefreshPolicy := fun r =>
  Build_HqReferenceRefreshPolicy (startup_safe r) (reference_bitrate r) (last_refresh r)
    (last_delivery_refresh_attempt r) (delivery_refresh_pending r).

Definition new_policy (safe : bool) (bitrate : Z) : HqReferenceRefreshPolicy :=
  {| startup_safe := safe; reference_bitrate := bitrate; last_refresh := None;
     last_delivery_refresh_attempt := None; delivery_refresh_pending := false |}.

(** [duration_since] of an earlier instant; both are from the monotonic clock. *)
Definition evaluate (eligible safe : bool) (bitrate : Z) (now : instant) (p : HqReferenceRefreshPolicy)
    : option ReferenceRefreshReason * HqReferenceRefreshPolicy :=
  let startup_safe_ended := startup_safe p && negb safe in
  let p := p <| startup_safe := safe |> in
  if negb eligible || safe || (bitrate =? 0) then (None, p)
  else if startup_safe_ended then (Some StartupSafeEnded, p)
  else
    let threshold := sat_mul u32_max (reference_bitrate p) HQ_REFERENCE_REFRESH_BITRATE_MULTIPLIER
                     / HQ_REFERENCE_REFRESH_BITRATE_DIVISOR in
    let cooldown_elapsed :=
      map_or (last_refresh p) true (fun l => HQ_REFERENCE_REFRESH_COOLDOWN <=? since now l) in
    if (0 <? reference_bitrate p) && (threshold <=? bitrate) && cooldown_elapsed
    then (Some SignificantBitrateIncrease, p)
    else (None, p).

Definition record_refresh (bitrate : Z) (now : instant) (p : HqReferenceRefreshPolicy)
    : HqReferenceRefreshPolicy :=
  p <| reference_bitrate := bitrate |> <| last_refresh := Some now |>
    <| delivery_refresh_pending := false |>.

Definition request_delivery_refresh (requested : bool) (now : instant) (p : HqReferenceRefreshPolicy)
    : option ReferenceRefreshReason * HqReferenceRefreshPolicy :=
  let p :=
    if requested &&
       negb (is_some_and (last_refresh p) (fun l => since now l <? DELIVERY_REFERENCE_REFRESH_COOLDOWN))
    then p <| delivery_refresh_pending := true |> else p in
  if negb (delivery_refresh_pending p) then (None, p)
  else if is_some_and (last_delivery_refresh_attempt p)
            (fun l => since now l <? DELIVERY_REFERENCE_REFRESH_COOLDOWN) then (None, p)
  else (Some DeliveryRecovery, p <| last_delivery_refresh_attempt := Some now |>).

Record PendingReferenceRefresh := {
  reason : ReferenceRefreshReason;
  requested_at : instant;
  non_keyframe_frames : Z;
}.
#[export] Instance eta_PendingReferenceRefresh : Eta PendingReferenceRefresh := fun r =>
  Build_PendingReferenceRefresh (reason r) (requested_at r) (non_keyframe_frames r).

(** The order of the reasons of one iteration of [run], and the test for a
    refresh whose keyframe does not come. *)
Definition refresh_reason (secure join delivery policy : option ReferenceRefreshReason)
    : option ReferenceRefreshReason :=
  match secure, join, delivery with
  | Some r, _, _ | None, Some r, _ | None, None, Some r => Some r
  | None, None, None => policy
  end.
Definition timed_out_refresh (now : instant) (pending : option PendingReferenceRefresh) : bool :=
  is_some_and pending (fun r => (0 <? non_keyframe_frames r)
    && (IN_PLACE_REFERENCE_REFRESH_TIMEOUT <=? since now (requested_at r))).

(** ** One frame *)

(** The error of the encoder: whether a cause of it is "no valid frame", and
    whether it asks for a switch. *)
Record EncodeError := { no_valid_frame : bool; need_switch : bool }.
Inductive EncodeResult := Encoded (vf : VideoFrame) | Failed (e : EncodeError).

(** What the encoder says of itself, and whether the peers can decode one of
    the software codecs [set_software_fallback_codec] falls back to. *)
Record EncoderView := { is_hardware : bool; latency_free : bool; fallback : bool }.

(** The variables of [run] that [handle_one_frame] borrows. *)
Record Counters := {
  encode_fail_counter : Z;
  hw_no_valid_frame_since : option instant;
  first_frame : bool;
  next_frame_id : Z;
  reference_refresh_pending : option PendingReferenceRefresh;
}.
#[export] Instance eta_Counters : Eta Counters := fun r =>
  Build_Counters (encode_fail_counter r) (hw_no_valid_frame_since r) (first_frame r)
    (next_frame_id r) (reference_refresh_pending r).
Definition new_counters : Counters :=
  {| encode_fail_counter := 0; hw_no_valid_frame_since := None; first_frame := true;
     next_frame_id := 1; reference_refresh_pending := None |}.

Inductive Outcome := Delivered (ids : gset Z) | Switch | Error (e : EncodeError).

(** [set_software_fallback_codec] and the [bail] or return that follows it. *)
Definition fall_back (v : EncoderView) (e : EncodeError) : Outcome :=
  if fallback v then Switch else Error e.

Definition settle_refresh (key : bool) (pending : option PendingReferenceRefresh)
    : option PendingReferenceRefresh :=
  match pending with
  | Some r => if key then None else Some (r <| non_keyframe_frames ::= fun n => sat_add u32_max n 1 |>)
  | None => None
  end.

(** What [run] does to these when it asks its encoder for a keyframe, and when it
    replaces the encoder in the middle of a stream: for another rate, for a refresh
    that does not come, or when the encoder makes no keyframe on request. *)
Definition refresh_requested (why : ReferenceRefreshReason) (now : instant) (k : Counters) : Counters :=
  k <| reference_refresh_pending := Some {| reason := why; requested_at := now; non_keyframe_frames := 0 |} |>.
Definition encoder_replaced (why : ReferenceRefreshReason) (now : instant) (k : Counters) : Counters :=
  refresh_requested why now k <| encode_fail_counter := 0 |> <| hw_no_valid_frame_since := None |>.

(** The [Err] branch of [handle_one_frame]. *)
Definition encode_failed (android first : bool) (v : EncoderView) (e : EncodeError) (now : instant)
    (k : Counters) : Outcome * Counters :=
  let k := k <| encode_fail_counter ::= fun n => wrap_u64 (n + 1) |> in
  if is_hardware v && no_valid_frame e then
    let start := or_insert (hw_no_valid_frame_since k) now in
    let k := k <| hw_no_valid_frame_since := Some start |> in
    if since now start <? HW_ENCODER_WARMUP_TIMEOUT then (Delivered ∅, k)
    else (fall_back v e, k <| encode_fail_counter := 0 |> <| hw_no_valid_frame_since := None |>)
  else
    let k := k <| hw_no_valid_frame_since := None |> in
    let max_fail_times := if android && is_hardware v then 9 else 3 in
    let repeat := negb (latency_free v) in
    let exhausted := (first && negb repeat) || (max_fail_times <=? encode_fail_counter k) in
    let k := if exhausted then k <| encode_fail_counter := 0 |> else k in
    if exhausted && is_hardware v then (fall_back v e, k)
    else if need_switch e then (fall_back v e, k)
    else (Delivered ∅, k).

Section stream.
(** [compute_size] of the generated code, and the target platform. *)
Variable size_of : VideoFrame -> N.
Variable android : bool.

Definition frame_message (vf : VideoFrame) : HostMessage :=
  {| wire := {| VideoQueue.size_ := size_of vf; VideoQueue.video := Some vf |}; switch_display := false |}.

Definition handle_one_frame (display stream ms : Z) (res : EncodeResult) (v : EncoderView)
    (now : instant) (k : Counters) (sv : Service)
    : Outcome * Counters * list (ConnInner * HostMessage) * Service :=
  let first := first_frame k in
  let k := k <| first_frame := false |> in
  match res with
  | Encoded vf =>
      let k := k <| encode_fail_counter := 0 |> <| hw_no_valid_frame_since := None |> in
      let vf := vf <| v_display := as_i32 display |> in
      let '(_, next, vf, _) := stamp_video_frame vf stream (next_frame_id k) ms in
      let k := k <| next_frame_id := next |> in
      let '(ids, out, sv) :=
        send_video_frame_with_join conn_id (frame_message vf) (starts_with_keyframe vf) sv in
      (Delivered ids,
       k <| reference_refresh_pending ::= settle_refresh (has_keyframe vf) |>, out, sv)
  | Failed e =>
      let '(o, k) := encode_failed android first v e now k in (o, k, [], sv)
  end.

(** ** The service and its threads *)

Inductive Phase := Stopped | Setup | Live.

Record VideoState := {
  service : Service;
  phase : Phase;
  stream : Z;
  counters : Counters;
}.
#[local] Instance eta_VideoState : Eta VideoState := fun r =>
  Build_VideoState (service r) (phase r) (stream r) (counters r).

Abbreviation ServiceOp := (Op (T := ConnInner) (Message := HostMessage)).

Inductive VideoEvent :=
  (** [run] begins, with a fresh stream and a fresh encoder. *)
  | Begin (id : Z)
  (** A captured frame is encoded and sent. *)
  | Frame (display ms : Z) (res : EncodeResult) (v : EncoderView) (now : instant)
  (** [try_broadcast_display_changed] of a changed display, with what the other
      threads do before the subscribers it found pending are promoted. *)
  | DisplayChanged (msg : HostMessage) (before during : list ServiceOp)
  (** The encoder is asked for a keyframe, or replaced by another one of the same
      stream. *)
  | RequestKeyframe (reason : ReferenceRefreshReason) (now : instant)
  | Recreate (reason : ReferenceRefreshReason) (now : instant)
  (** [run] returns, for any other reason. *)
  | End
  (** An operation of another thread, or a message that is no frame. *)
  | Other (o : ServiceOp).

(** Messages that are not video frames. *)
Definition is_frame (m : HostMessage) : bool := is_some (VideoQueue.video (wire m)).

(** What the rest of the program does to a video service: it does not send
    frames, nor promote subscribers. *)
Definition outside (o : ServiceOp) : bool :=
  match o with
  | Subscribe _ | Unsubscribe _ | SetOption _ _ | JoinBegin | JoinTake | Spawned => true
  | SendShared m | SendTo m _ | SendToOthers m _ | SendWithout m _ => negb (is_frame m)
  | SendVideoFrame _ | VideoFrameJoin _ _ | SwapSend _ | SwapDrop => false
  end.

Definition display_changed (msg : HostMessage) (before during : list ServiceOp) (sv : Service)
    : list (ConnInner * HostMessage) * Service :=
  let '(out, sv) := execs conn_id (SendShared msg :: before) sv in
  let '(ops, _) := snapshot (SwapSend msg :: during) (inr tt : unit + unit) sv in
  let '(out', sv) := execs conn_id ops sv in (out ++ out', sv).

(** [None]: the event is not one that can happen in this phase. *)
Definition video_step (e : VideoEvent) (s : VideoState)
    : option (list (ConnInner * HostMessage) * VideoState) :=
  match e, phase s with
  | Begin id, Stopped => Some ([], s <| phase := Setup |> <| stream := id |> <| counters := new_counters |>)
  | Frame display ms res v now, (Setup | Live) =>
      let '(o, k, out, sv) := handle_one_frame display (stream s) ms res v now (counters s) (service s) in
      let s := s <| service := sv |> <| counters := k |> in
      Some (out, s <| phase ::= fun p =>
        match o, res with
        | Delivered _, Encoded _ => Live
        | Delivered _, Failed _ => p
        | _, _ => Stopped
        end |>)
  | DisplayChanged msg before during, (Setup | Live) =>
      if negb (is_frame msg) && forallb outside before && forallb outside during then
        let '(out, sv) := display_changed msg before during (service s) in
        Some (out, s <| service := sv |> <| phase := Stopped |>)
      else None
  | RequestKeyframe why now, (Setup | Live) => Some ([], s <| counters ::= refresh_requested why now |>)
  | Recreate why now, (Setup | Live) => Some ([], s <| counters ::= encoder_replaced why now |>)
  | End, (Setup | Live) => Some ([], s <| phase := Stopped |>)
  | Other o, _ =>
      if outside o then
        let '(out, sv) := exec conn_id o (service s) in Some (out, s <| service := sv |>)
      else None
  | _, _ => None
  end.

Fixpoint video_run (es : list VideoEvent) (s : VideoState)
    : option (list (ConnInner * HostMessage) * VideoState) :=
  match es with
  | [] => Some ([], s)
  | e :: es =>
      '(out, s) ← video_step e s; '(out', s) ← video_run es s; Some (out ++ out', s)
  end.

Definition video_service (n : string) : VideoState :=
  {| service := new n true; phase := Stopped; stream := 0; counters := new_counters |}.

(** What encoders may promise: the first frame of a fresh one starts with a keyframe.
    [fresh] says that none was encoded since the stream began or the encoder was
    replaced. *)
Fixpoint encoder_law (fresh : bool) (es : list VideoEvent) : bool :=
  match es with
  | [] => true
  | (Begin _ | Recreate _ _) :: es => encoder_law true es
  | Frame _ _ (Encoded vf) _ _ :: es => (negb fresh || starts_with_keyframe vf) && encoder_law false es
  | _ :: es => encoder_law fresh es
  end.

(** The frames one connection is sent, in their order. *)
Definition frames_for (i : Z) (out : list (ConnInner * HostMessage)) : list VideoFrame :=
  omap (fun p => VideoQueue.video (wire p.2)) (heard conn_id i out).

(** A frame that starts with a keyframe, or continues the one before it. *)
Definition continues (prev : option VideoFrame) (f : VideoFrame) : bool :=
  starts_with_keyframe f ||
  is_some_and prev (fun p => (stream_id f =? stream_id p)
                             && (frame_id f =? Z.max (wrap_u64 (frame_id p + 1)) 1)).
(** ... or is the first frame of its stream. *)
Definition continues_or_begins (prev : option VideoFrame) (f : VideoFrame) : bool :=
  continues prev f || (frame_id f =? 1).
Fixpoint chained (ok : option VideoFrame -> VideoFrame -> bool) (prev : option VideoFrame) (l : list VideoFrame) : bool :=
  match l with
  | [] => true
  | f :: l => ok prev f && chained ok (Some f) l
  end.
Definition last_of (prev : option VideoFrame) (l : list VideoFrame) : option VideoFrame :=
  foldl (fun _ f => Some f) prev l.

Lemma chained_app ok prev l l' :
  chained ok prev (l ++ l') = chained ok prev l && chained ok (last_of prev l) l'.
Proof.
  revert prev; induction l as [|f l IH]; intros prev; [done|]; simpl; by rewrite IH, andb_assoc.
Qed.

(** ** What a connection sees of each step *)

Lemma frames_for_app i out out' : frames_for i (out ++ out') = frames_for i out ++ frames_for i out'.
Proof. unfold frames_for, heard; by rewrite filter_app, omap_app. Qed.

Abbreviation frames_of := (omap (fun p : ConnInner * HostMessage => VideoQueue.video (wire p.2))).

Lemma not_frame m : is_frame m = false -> VideoQueue.video (wire m) = None.
Proof. unfold is_frame; apply is_some_false. Qed.

Definition is_joined (v : View (T := ConnInner)) : bool := match v with Joined _ => true | _ => false end.

Lemma outside_view i o v : outside o = true ->
  frames_of (view_exec conn_id true i o v).1 = [] /\
  (is_joined (view_exec conn_id true i o v).2 = true -> is_joined v = true).
Proof.
  intros Ho; destruct o; simpl in *; try done; try apply negb_true_iff, not_frame in Ho.
  all: try (destruct v; simpl; rewrite ?Ho; by repeat case_bool_decide).
  all: case_bool_decide; destruct v; simpl; rewrite ?Ho; done.
Qed.

Lemma outside_views i os v : forallb outside os = true ->
  frames_of (view_execs conn_id true i os v).1 = [] /\
  (is_joined (view_execs conn_id true i os v).2 = true -> is_joined v = true).
Proof.
  revert v; induction os as [|o os IH]; intros v Ho; [done|]; simpl in Ho |- *; bools.
  destruct (outside_view i o v H) as [Hf Hj]; destruct (view_exec conn_id true i o v) as [out v'].
  destruct (IH v' H0) as [Hf' Hj']; destruct (view_execs conn_id true i os v') as [out' v'']; simpl in *.
  rewrite omap_app, Hf, Hf'; auto.
Qed.

(** What a connection hears of some operations, and its view after them, from
    its own automaton (file Subscriptions). *)
Lemma execs_for i os sv : wf conn_id sv -> need_snapshot sv = true ->
  let r := view_execs conn_id true i os (view i sv) in
  frames_for i (execs conn_id os sv).1 = frames_of r.1 /\ view i (execs conn_id os sv).2 = r.2 /\
  wf conn_id (execs conn_id os sv).2 /\ need_snapshot (execs conn_id os sv).2 = true.
Proof.
  intros W N; pose proof (execs_view conn_id i os sv W) as Hv; rewrite N in Hv; rewrite <- Hv; simpl.
  split_and!; [done..|by apply execs_wf|].
  clear Hv W; revert sv N; induction os as [|o os IH]; intros sv N; [done|]; simpl.
  pose proof (exec_need_snapshot conn_id o sv) as Hn; destruct (exec conn_id o sv) as [out sv'].
  simpl in Hn; specialize (IH sv' (eq_trans Hn N)); by destruct (execs conn_id os sv').
Qed.

(** Messages that are no frames, and the promotion they may come with, deliver
    no frames. *)
Lemma display_changed_for i msg before during sv : wf conn_id sv -> need_snapshot sv = true ->
  is_frame msg = false -> forallb outside before = true -> forallb outside during = true ->
  frames_for i (display_changed msg before during sv).1 = [] /\
  wf conn_id (display_changed msg before during sv).2 /\
  need_snapshot (display_changed msg before during sv).2 = true.
Proof.
  intros W N Hm Hb Hd; unfold display_changed.
  assert (forallb outside (SendShared msg :: before) = true) as Ho by (simpl; by rewrite Hm).
  destruct (execs_for i (SendShared msg :: before) sv W N) as (Hf & _ & W1 & N1).
  destruct (outside_views i _ (view i sv) Ho) as [He _]; rewrite He in Hf.
  destruct (execs conn_id (SendShared msg :: before) sv) as [out sv1]; simpl in Hf, W1, N1.
  unfold snapshot; destruct (0 <? _); cbn [fst snd].
  - destruct (execs_for i ((SwapSend msg :: during) ++ [SwapDrop]) sv1 W1 N1) as (Hf2 & _ & W2 & N2).
    destruct (execs conn_id _ sv1) as [out2 sv2]; simpl in *; split_and!; [|done..].
    rewrite frames_for_app, Hf, Hf2; clear -Hd Hm.
    apply not_frame in Hm; simpl; destruct (view_execs conn_id true i (during ++ [SwapDrop]) _) as [o v] eqn:E.
    simpl; rewrite omap_app; assert (frames_of (to_deferred msg (view i sv1)) = []) as ->
      by (destruct (view i sv1); simpl; by rewrite ?Hm).
    revert o v E; generalize (view i sv1); induction during as [|d ds IH]; intros w o v E; simpl in *.
    + by simplify_eq/=.
    + bools; destruct (outside_view i d w H) as [Hw _].
      destruct (view_exec conn_id true i d w) as [o1 w1]; destruct (view_execs _ _ _ _ w1) as [o2 w2] eqn:E2.
      simplify_eq/=; rewrite omap_app, Hw; by apply (IH H0 w1 o2 v).
  - simpl; split_and!; [by rewrite app_nil_r|done..].
Qed.

Record inv (i : Z) (prev : option VideoFrame) (s : VideoState) : Prop := {
  inv_wf : wf conn_id (service s);
  inv_snapshot : need_snapshot (service s) = true;
  inv_next : 1 <= next_frame_id (counters s);
  inv_first : phase s = Setup -> next_frame_id (counters s) = 1;
  inv_live : phase s = Live -> is_joined (view i (service s)) = true ->
    is_some_and prev (fun p => (stream_id p =? stream s)
      && (Z.max (wrap_u64 (frame_id p + 1)) 1 =? next_frame_id (counters s))) = true;
}.

(** What is to be shown of each frame: with the promise of the encoders that the stream
    goes on without a break, without it that it breaks at its beginnings only. *)
Definition link (promise : bool) : option VideoFrame -> VideoFrame -> bool :=
  if promise then continues else continues_or_begins.
Lemma link_continues promise prev f : continues prev f = true -> link promise prev f = true.
Proof. destruct promise; [done|]; cbn; unfold continues_or_begins; by intros ->. Qed.

Lemma frame_step promise i prev s display ms vf v now fresh :
  inv i prev s -> (promise = true -> phase s = Setup -> fresh = true) ->
  (promise = true -> negb fresh || starts_with_keyframe vf = true) -> phase s <> Stopped ->
  let '(o, k, out, sv) := handle_one_frame display (stream s) ms (Encoded vf) v now (counters s) (service s) in
  chained (link promise) prev (frames_for i out) = true /\
  inv i (last_of prev (frames_for i out)) (s <| service := sv |> <| counters := k |> <| phase := Live |>).
Proof.
  intros [W N Hn H1 Hl] Hp Hlaw Hstop; unfold handle_one_frame, stamp_video_frame; cbn [counters].
  set (f := vf <| v_display := _ |> <| stream_id := _ |> <| frame_id := _ |>).
  assert (starts_with_keyframe f = starts_with_keyframe vf) as Hk by done.
  pose proof (exec_view conn_id i (VideoFrameJoin (frame_message f) (starts_with_keyframe f)) (service s) W) as Hv.
  pose proof (exec_wf conn_id (VideoFrameJoin (frame_message f) (starts_with_keyframe f)) (service s) W) as W'.
  pose proof (exec_need_snapshot conn_id (VideoFrameJoin (frame_message f) (starts_with_keyframe f)) (service s)) as N'.
  cbn [exec] in Hv, W', N'.
  destruct (send_video_frame_with_join conn_id _ _ (service s)) as [[ids out] sv].
  cbn [fst snd view_exec] in Hv, W', N'; rewrite N in N'; injection Hv as Hout Hview.
  unfold frames_for; rewrite Hout.
  assert (frame_id f = next_frame_id (counters s)) as Hid by (subst f; simpl; lia).
  destruct (is_joined (if starts_with_keyframe f then promoted (view i (service s)) else view i (service s)))
    eqn:Hj.
  - destruct (if starts_with_keyframe f then _ else _) as [| |t] eqn:Ev; try done; simpl.
    split.
    + rewrite andb_true_r; destruct (starts_with_keyframe f) eqn:Ek; [apply link_continues; unfold continues; by rewrite Ek|].
      destruct (phase s) eqn:Eph; [done| |].
      * destruct promise; [rewrite Hp, <- Hk in Hlaw by done; by specialize (Hlaw eq_refl)|].
        cbn; unfold continues_or_begins; by rewrite Hid, H1, orb_true_r.
      * apply link_continues; unfold continues; rewrite Ek; specialize (Hl eq_refl); rewrite Ev in Hl; specialize (Hl eq_refl).
        destruct prev as [p|]; [|done]; simpl in Hl |- *; bools; apply Z.eqb_eq in H, H0.
        rewrite andb_true_iff, !Z.eqb_eq; split; [by subst f|]; lia.
    + constructor; simpl; [done|done|lia|done|]; intros _ _.
      rewrite Z.eqb_refl; simpl; apply Z.eqb_eq; lia.
  - destruct (if starts_with_keyframe f then _ else _) as [|t|] eqn:Ev; try done; simpl;
      (split; [done|constructor; simpl; [done|done|lia|done|]]; intros _; rewrite Hview; by cbn).
Qed.

Lemma failed_step i prev s display ms e v now :
  inv i prev s ->
  let '(o, k, out, sv) := handle_one_frame display (stream s) ms (Failed e) v now (counters s) (service s) in
  out = [] /\ sv = service s /\ next_frame_id k = next_frame_id (counters s).
Proof.
  intros _; unfold handle_one_frame, encode_failed; repeat case_match; simplify_eq/=; done.
Qed.

Lemma video_step_inv promise i prev s e out s' fresh es :
  video_step e s = Some (out, s') -> inv i prev s -> (promise = true -> phase s = Setup -> fresh = true) ->
  (promise = true -> encoder_law fresh (e :: es) = true) ->
  chained (link promise) prev (frames_for i out) = true /\ inv i (last_of prev (frames_for i out)) s' /\
  exists fresh', (promise = true -> phase s' = Setup -> fresh' = true) /\ (promise = true -> encoder_law fresh' es = true).
Proof.
  intros Hs I Hp Hlaw; pose proof I as [W N Hn H1 Hl].
  destruct e as [id|display ms [vf|err] v now|msg before during|why now|why now| |o]; cbn [video_step encoder_law] in Hs, Hlaw.
  - destruct (phase s); simplify_eq/=; split_and!; [done| |by exists true].
    constructor; simpl; [done..|lia|done|done].
  - assert (phase s <> Stopped) as Hstop by (intros E; by rewrite E in Hs).
    pose proof (frame_step promise i prev s display ms vf v now fresh I Hp
      (fun E => proj1 (andb_prop _ _ (Hlaw E))) Hstop) as Hf.
    destruct (handle_one_frame _ _ _ _ _ _ _ _) as [[[o k] out0] sv] eqn:Eh.
    assert (exists ids, o = Delivered ids) as [ids ->].
    { unfold handle_one_frame, stamp_video_frame in Eh.
      destruct (send_video_frame_with_join _ _ _ _) as [[ids ?] ?]; simplify_eq/=; by eexists. }
    clear Eh; destruct (phase s); simplify_eq/=; destruct Hf as [Hd Hi]; (split_and!; [done|exact Hi|exists false; split; [done|]]);
      intros E; exact (proj2 (andb_prop _ _ (Hlaw E))).
  - pose proof (failed_step i prev s display ms err v now I) as Hf.
    destruct (handle_one_frame _ _ _ _ _ _ _ _) as [[[o k] out0] sv].
    destruct Hf as (-> & -> & Hk).
    destruct (phase s) eqn:Ep; simplify_eq/=; (split_and!; [done| |exists fresh; split; [|exact Hlaw]]).
    + constructor; simpl; [done..|lia|by rewrite Hk, H1|]; rewrite Ep; by destruct o.
    + intros Ht _; by apply Hp.
    + constructor; simpl; [done..|lia| |]; rewrite ?Hk, ?Ep; [by destruct o|intros _; by apply Hl].
    + rewrite Ep; by destruct o.
  - assert (phase s <> Stopped) as Hstop by (intros E; by rewrite E in Hs).
    destruct (negb (is_frame msg) && _ && _) eqn:Eo; [|by destruct (phase s)]; bools.
    destruct (display_changed_for i msg before during (service s)) as (Hf & W' & N'); try done.
    destruct (display_changed msg before during (service s)) as [out0 sv]; simpl in Hf, W', N'.
    destruct (phase s); simplify_eq/=; rewrite Hf; (split_and!; [done|by constructor|by exists fresh]).
  - destruct (phase s) eqn:Ep; simplify_eq/=; (split_and!; [done| |exists fresh; split; [cbn; by rewrite Ep|done]]);
      constructor; cbn; rewrite ?Ep; done.
  - destruct (phase s) eqn:Ep; simplify_eq/=; (split_and!; [done| |by exists true]); constructor; cbn; rewrite ?Ep; done.
  - destruct (phase s); simplify_eq/=; (split_and!; [done|by constructor|by exists fresh]).
  - destruct (outside o) eqn:Eo; [|by destruct (phase s)].
    pose proof (exec_view conn_id i o (service s) W) as Hv; rewrite N in Hv.
    pose proof (exec_wf conn_id o (service s) W) as W'; pose proof (exec_need_snapshot conn_id o (service s)) as N'.
    destruct (outside_view i o (view i (service s)) Eo) as [Hf Hj].
    destruct (exec conn_id o (service s)) as [out0 sv]; simpl in Hv, W', N'; rewrite <- Hv in Hf, Hj; simpl in Hf, Hj.
    assert (Some (out0, s <| service := sv |>) = Some (out, s')) as [= <- <-] by (by destruct (phase s)).
    unfold frames_for; rewrite Hf; split_and!; [done| |by exists fresh].
    constructor; simpl; [done|congruence|done|done|]; intros HL HJ; apply Hl; auto.
Qed.

Lemma video_run_inv promise i es : forall prev s out s' fresh,
  video_run es s = Some (out, s') -> inv i prev s -> (promise = true -> phase s = Setup -> fresh = true) ->
  (promise = true -> encoder_law fresh es = true) -> chained (link promise) prev (frames_for i out) = true.
Proof.
  induction es as [|e es IH]; intros prev s out s' fresh Hr I Hp Hl; [by simplify_eq/=|].
  cbn [video_run] in Hr; destruct (video_step e s) as [[out1 s1]|] eqn:Es; [|done]; simpl in Hr.
  destruct (video_run es s1) as [[out2 s2]|] eqn:Er; [|done]; simplify_eq/=.
  destruct (video_step_inv promise i prev s e out1 s1 fresh es Es I Hp Hl) as (Hd & I1 & fresh1 & Hp1 & Hl1).
  rewrite frames_for_app, chained_app, Hd; simpl; by apply (IH _ s1 _ s' fresh1).
Qed.

(** C28. A viewer is sent no gap and no deltas it has no reference for, over any run of
    a video service: streams that begin and end, frames that encode or fail, encoders
    that are replaced, displays that change, viewers that subscribe, unsubscribe and
    return at any time.  Each frame one connection is sent starts with a keyframe, or
    follows the one sent before it in the same stream, with the next frame id, or is
    the first frame of its stream.  If every fresh encoder begins with a keyframe, the
    last case is one of the first two: what is sent starts with a keyframe, and each
    later frame starts with one or continues the frame before it. *)
Theorem joined_frames_decodable n es out s' i :
  video_run es (video_service n) = Some (out, s') ->
  chained continues_or_begins None (frames_for i out) = true /\
  (encoder_law true es = true -> chained continues None (frames_for i out) = true).
Proof.
  intros Hr; assert (I : inv i None (video_service n)) by (constructor; simpl; [apply wf_fresh|done|lia|done|done]).
  split; [exact (video_run_inv false i es None (video_service n) out s' true Hr I (fun E => ltac:(done)) (fun E => ltac:(done)))|].
  intros Hl; exact (video_run_inv true i es None (video_service n) out s' true Hr I (fun _ _ => eq_refl) (fun _ => Hl)).
Qed.

(** ** Giving up on an encoder *)

(** Frames that fail to encode one after the other, each with the time it is
    tried at; [None] when one of them ends the stream. *)
Fixpoint failing (v : EncoderView) (l : list (EncodeError * instant)) (k : Counters) : option Counters :=
  match l with
  | [] => Some k
  | (e, now) :: l =>
      match encode_failed android (first_frame k) v e now (k <| first_frame := false |>) with
      | (Delivered _, k) => failing v l k
      | _ => None
      end
  end.

(** One failure that the stream survives. *)
Lemma survived first v e now k ids k' :
  encode_failed android first v e now k = (Delivered ids, k') -> is_hardware v = true -> android = false ->
  0 <= encode_fail_counter k < u64_max ->
  encode_fail_counter k' = encode_fail_counter k + 1 /\
  (no_valid_frame e = true ->
     hw_no_valid_frame_since k' = Some (or_insert (hw_no_valid_frame_since k) now) /\
     since now (or_insert (hw_no_valid_frame_since k) now) < HW_ENCODER_WARMUP_TIMEOUT) /\
  (no_valid_frame e = false -> hw_no_valid_frame_since k' = None /\ encode_fail_counter k < 2).
Proof.
  intros Hf Hh Ha Hk; unfold encode_failed, fall_back in Hf; rewrite Hh, Ha in Hf.
  assert (wrap_u64 (encode_fail_counter k + 1) = encode_fail_counter k + 1) as Hw
    by (unfold wrap_u64; rewrite Z.mod_small; unfold u64_max in Hk; lia).
  destruct (no_valid_frame e); simpl in Hf; rewrite Hw in Hf.
  - destruct (since now _ <? _) eqn:Ew; [|by destruct (fallback v)].
    simplify_eq/=; apply Z.ltb_lt in Ew; split_and!; done.
  - destruct (Z.leb_spec 3 (encode_fail_counter k + 1)) as [Hc|Hc];
      rewrite ?orb_true_r, ?orb_false_r in Hf; [by destruct (fallback v)|].
    destruct (first && _); simpl in Hf; [by destruct (fallback v)|].
    destruct (need_switch e); [by destruct (fallback v)|]; simplify_eq/=.
    split_and!; [done|done|]; intros _; split; [done|lia].
Qed.

Lemma failing_cons v e now l k k' : failing v ((e, now) :: l) k = Some k' ->
  exists ids k1, encode_failed android (first_frame k) v e now (k <| first_frame := false |>) = (Delivered ids, k1) /\
    failing v l k1 = Some k'.
Proof.
  cbn [failing]; destruct (encode_failed _ _ _ _ _ _) as [[ids| |] k1]; intros; [|done..].
  by exists ids, k1.
Qed.

Lemma failing_app v l l' k : failing v (l ++ l') k = failing v l k ≫= failing v l'.
Proof.
  revert k; induction l as [|[e now] l IH]; intros k; [done|]; cbn [failing app].
  destruct (encode_failed _ _ _ _ _ _) as [[ids| |] k1]; [apply IH|done..].
Qed.

Section patience.
Context (v : EncoderView) (Hhw : is_hardware v = true) (Handroid : android = false).

Lemma failing_counts l : forall k k', failing v l k = Some k' ->
  0 <= encode_fail_counter k -> encode_fail_counter k + Z.of_nat (length l) <= u64_max ->
  encode_fail_counter k' = encode_fail_counter k + Z.of_nat (length l) /\
  (forall idx e t, l !! idx = Some (e, t) -> no_valid_frame e = false ->
     encode_fail_counter k + Z.of_nat idx < 2) /\
  (forall s0, hw_no_valid_frame_since k' = Some s0 -> hw_no_valid_frame_since k = Some s0 \/ s0 ∈ l.*2).
Proof.
  induction l as [|[e now] l IH]; intros k k' Hf H0 Hl; [simplify_eq/=; split_and!; [lia|done|auto]|].
  destruct (failing_cons v e now l k k' Hf) as (ids & k1 & Hs & Hf1); cbn [length] in Hl.
  destruct (survived _ _ _ _ _ _ _ Hs Hhw Handroid) as (Hc & Hv & Hn); [simpl; lia|]; simpl in Hc, Hv, Hn.
  destruct (IH k1 k' Hf1) as (Hc1 & Hi1 & Hs1); [lia..|].
  split_and!; [cbn [length]; lia| |].
  - intros [|idx] e' t Hidx He; simpl in Hidx; [simplify_eq; destruct (Hn He); lia|].
    specialize (Hi1 idx e' t Hidx He); lia.
  - intros s0 Hs0; destruct (Hs1 s0 Hs0) as [Hk1|Hin]; [|right; by right].
    destruct (no_valid_frame e); [|destruct (Hn eq_refl); congruence].
    destruct (Hv eq_refl) as [Hv' _]; rewrite Hk1 in Hv'; injection Hv' as ->; unfold or_insert.
    destruct (hw_no_valid_frame_since k); simpl; [by left|right; left].
Qed.

Lemma warming_up l : forall k k' s0, failing v l k = Some k' ->
  hw_no_valid_frame_since k = Some s0 ->
  0 <= encode_fail_counter k -> encode_fail_counter k + Z.of_nat (length l) <= u64_max ->
  Forall (fun p => no_valid_frame p.1 = true) l ->
  Forall (fun p => since p.2 s0 < HW_ENCODER_WARMUP_TIMEOUT) l.
Proof.
  induction l as [|[e now] l IH]; intros k k' s0 Hf Hk H0 Hl Hv; [constructor|].
  apply Forall_cons in Hv as [He Hv]; cbn [length] in Hl.
  destruct (failing_cons v e now l k k' Hf) as (ids & k1 & Hs & Hf1).
  destruct (survived _ _ _ _ _ _ _ Hs Hhw Handroid) as (Hc & Hw & _); [simpl; lia|]; simpl in Hc, Hw.
  destruct (Hw He) as [Hs0 Hlt]; rewrite Hk in Hs0, Hlt; simpl in Hs0, Hlt.
  constructor; [done|]; apply (IH k1 k'); [done..|lia|lia|done].
Qed.
End patience.

(** A hardware encoder that keeps failing does not keep a stream: of the
    failures in a row from the start of the stream that do not end it, only the
    first two can be anything but "no frame yet", and a block of "no frame
    yet" spans less than three seconds. *)
Theorem failing_encoder_replaced v l k' :
  is_hardware v = true -> android = false -> Z.of_nat (length l) <= u64_max ->
  failing v l new_counters = Some k' ->
  (forall idx e t, l !! idx = Some (e, t) -> no_valid_frame e = false -> (idx < 2)%nat) /\
  (forall l1 e1 t1 mid l2, l = l1 ++ (e1, t1) :: mid ++ l2 ->
     no_valid_frame e1 = true -> Forall (fun p => no_valid_frame p.1 = true) mid ->
     Forall (fun t => t <= t1) (l1.*2) ->
     Forall (fun p => since p.2 t1 < HW_ENCODER_WARMUP_TIMEOUT) mid).
Proof.
  intros Hh Ha Hl Hf; split.
  - intros idx e t Hidx He.
    destruct (failing_counts v Hh Ha l new_counters k' Hf) as (_ & Hi & _); [done..|].
    specialize (Hi idx e t Hidx He); simpl in Hi; lia.
  - intros l1 e1 t1 mid l2 -> He1 Hmid Ht.
    rewrite length_app in Hl; cbn [length] in Hl; rewrite length_app in Hl.
    rewrite failing_app in Hf; destruct (failing v l1 new_counters) as [k1|] eqn:E1; [|done]; simpl in Hf.
    destruct (failing_counts v Hh Ha l1 new_counters k1 E1) as (Hc1 & _ & Hs1); [done|simpl; lia|].
    destruct (failing_cons v e1 t1 (mid ++ l2) k1 k' Hf) as (ids & k2 & Hs & Hf2).
    simpl in Hc1; destruct (survived _ _ _ _ _ _ _ Hs Hh Ha) as (Hc2 & Hv & _); [simpl; lia|]; simpl in Hc2, Hv.
    destruct (Hv He1) as [Hs2 _].
    rewrite failing_app in Hf2; destruct (failing v mid k2) as [k3|] eqn:E3; [|done].
    eapply Forall_impl; [eapply (warming_up v Hh Ha mid k2 k3); [done..|lia|lia|done]|].
    intros [e t] Hlt; simpl in Hlt |- *; assert (or_insert (hw_no_valid_frame_since k1) t1 <= t1).
    + destruct (hw_no_valid_frame_since k1) as [s0|] eqn:Ek; simpl; [|lia].
      destruct (Hs1 s0 eq_refl) as [?|Hin]; [done|]; by apply (proj1 (Forall_forall _ _) Ht).
    + revert Hlt; unfold since, HW_ENCODER_WARMUP_TIMEOUT; lia.
Qed.
End stream.

(** A viewer joins a running stream between two of its deltas. *)
Definition key_frame : VideoFrame := {| v_display := 0; stream_id := 0; frame_id := 0;
  v_union := Some (Vp9s [{| VideoQueue.data := [Byte.x01]; VideoQueue.f_key := true |}]) |}.
Definition delta_frame : VideoFrame := {| v_display := 0; stream_id := 0; frame_id := 0;
  v_union := Some (Vp9s [{| VideoQueue.data := [Byte.x02]; VideoQueue.f_key := false |}]) |}.
Definition software : EncoderView := {| is_hardware := false; latency_free := true; fallback := true |}.
Definition viewer (i : Z) : ConnInner :=
  {| conn_id := i; tx := true; tx_video := true; conn_source := Monitor |}.
Definition joining : list VideoEvent :=
  let frame f := Frame 0 0 (Encoded f) software 0 in
  [Other (Subscribe (viewer 1)); Begin 99; frame key_frame; frame delta_frame;
   Other (Subscribe (viewer 2)); frame delta_frame; frame key_frame; Recreate MovieCadenceChange 0; frame key_frame; frame delta_frame].
(** An encoder that does not begin with a keyframe. *)
Definition promise_broken : list VideoEvent :=
  joining ++ [End; Begin 100; Frame 0 0 (Encoded delta_frame) software 0].

Lemma joined_frames_decodable_witness :
  (encoder_law true joining = true /\
   match video_run (fun _ => 1%N) false joining (video_service "monitor0") with
   | Some (out, _) => chained continues None (frames_for 2 out) = true /\ frame_id <$> frames_for 2 out = [4; 5; 6]
                     /\ frame_id <$> frames_for 1 out = [1; 2; 3; 4; 5; 6]
   | None => False
   end) /\
  match video_run (fun _ => 1%N) false promise_broken (video_service "monitor0") with
  | Some (out, _) => chained continues_or_begins None (frames_for 2 out) = true /\ chained continues None (frames_for 2 out) = false
  | None => False
  end.
Proof.
  split.
  - split; [reflexivity|].
    destruct (video_run _ _ joining (video_service "monitor0")) as [[out s']|] eqn:E; [|by vm_compute in E].
    split; [by apply (joined_frames_decodable (fun _ => 1%N) false "monitor0" joining out s' 2)|].
    vm_compute in E; injection E as <- _; by vm_compute.
  - destruct (video_run _ _ promise_broken (video_service "monitor0")) as [[out s']|] eqn:E; [|by vm_compute in E].
    split; [by apply (joined_frames_decodable (fun _ => 1%N) false "monitor0" promise_broken out s' 2)|].
    vm_compute in E; injection E as <- _; by vm_compute.
Defined.

Definition hardware : EncoderView := {| is_hardware := true; latency_free := false; fallback := false |}.
Definition no_frame_yet : EncodeError := {| no_valid_frame := true; need_switch := false |}.
Definition broken : EncodeError := {| no_valid_frame := false; need_switch := false |}.

Lemma failing_encoder_replaced_witness :
  let l := [(broken, 0); (broken, 1); (no_frame_yet, 2); (no_frame_yet, from_secs 2)] in
  exists k', failing false hardware l new_counters = Some k' /\
  Forall (fun p => since p.2 2 < HW_ENCODER_WARMUP_TIMEOUT) [(no_frame_yet, from_secs 2)].
Proof.
  intros l; eexists; split; [vm_compute; reflexivity|].
  refine (proj2 (failing_encoder_replaced false hardware l _ eq_refl eq_refl _ _)
            [(broken, 0); (broken, 1)] no_frame_yet 2 [(no_frame_yet, from_secs 2)] [] eq_refl eq_refl _ _);
    [unfold u64_max; simpl; lia|vm_compute; reflexivity|by repeat constructor|repeat constructor; simpl; lia].
Defined.

(** ** The policies *)

(** While a subscriber waits and the last frame can be encoded again, a
    reference is asked for at once and only once, and the stream is restarted
    when none came for ten seconds. *)
Fixpoint join_polls (started : option instant) (ts : list instant) : list SubscriberJoinAction :=
  match ts with
  | [] => []
  | t :: ts => let '(a, s) := subscriber_join_action true true true started t in a :: join_polls s ts
  end.

Lemma join_polls_started t0 ts :
  join_polls (Some t0) ts =
  (fun t => if from_secs 10 <=? since t t0 then Restart else Wait) <$> ts.
Proof.
  induction ts as [|t ts IH]; [done|]; rewrite fmap_cons; cbn [join_polls].
  unfold subscriber_join_action; cbn [negb orb is_some_and is_none]; destruct (from_secs 10 <=? since t t0); by rewrite IH.
Qed.

Lemma join_is_bounded t0 ts :
  join_polls None (t0 :: ts) =
  Reference :: ((fun t => if from_secs 10 <=? since t t0 then Restart else Wait) <$> ts).
Proof. cbn [join_polls]; unfold subscriber_join_action; simpl; by rewrite join_polls_started. Qed.

(** Without an encoded frame to refer to, the stream is left alone. *)
Lemma join_waits_for_the_encoder replayable started now :
  subscriber_join_action true false replayable started now = (Wait, started).
Proof. done. Qed.

(** The polls of one encoder: whether a connection asked, and the time. *)
Fixpoint delivery_polls (ps : list (bool * instant)) (p : HqReferenceRefreshPolicy) : list instant :=
  match ps with
  | [] => []
  | (requested, now) :: ps =>
      let '(r, p) := request_delivery_refresh requested now p in
      match r with Some _ => now :: delivery_polls ps p | None => delivery_polls ps p end
  end.

Fixpoint all_spaced (d : Z) (last : option instant) (l : list instant) : Prop :=
  match l with
  | [] => True
  | t :: l => (forall t0, last = Some t0 -> d <= since t t0) /\ all_spaced d (Some t) l
  end.

Lemma delivery_refresh_paced ps p :
  all_spaced DELIVERY_REFERENCE_REFRESH_COOLDOWN (last_delivery_refresh_attempt p) (delivery_polls ps p).
Proof.
  revert p; induction ps as [|[requested now] ps IH]; intros p; [done|]; cbn [delivery_polls].
  unfold request_delivery_refresh.
  set (p1 := if requested && _ then _ else p).
  assert (last_delivery_refresh_attempt p1 = last_delivery_refresh_attempt p) as Hp1
    by (subst p1; by destruct (requested && _)).
  destruct (negb (delivery_refresh_pending p1)); [rewrite <- Hp1; apply IH|].
  destruct (is_some_and (last_delivery_refresh_attempt p1) _) eqn:E; [rewrite <- Hp1; apply IH|].
  cbn [all_spaced]; split;
    [|pose proof (IH (p1 <| last_delivery_refresh_attempt := Some now |>)) as H; simpl in H; exact H].
  intros t0 Ht0; rewrite Hp1, Ht0 in E; simpl in E; by apply Z.ltb_ge in E.
Qed.

(** A request outside the cooldown is not forgotten: until a refresh is
    recorded, the first poll a cooldown after the last attempt asks for one. *)
Lemma delivery_request_kept p now : delivery_refresh_pending p = true ->
  (forall t, last_delivery_refresh_attempt p = Some t -> DELIVERY_REFERENCE_REFRESH_COOLDOWN <= since now t) ->
  (request_delivery_refresh false now p).1 = Some DeliveryRecovery /\
  delivery_refresh_pending (request_delivery_refresh false now p).2 = true.
Proof.
  intros Hp Ht; unfold request_delivery_refresh; simpl; rewrite Hp; simpl.
  destruct (last_delivery_refresh_attempt p) as [t|]; simpl; [|done].
  specialize (Ht t eq_refl); by rewrite (proj2 (Z.ltb_ge _ _) Ht).
Qed.

(** A quality refresh is asked for when the startup mode ends, or when the
    bitrate has grown by half since the last one, at most every six seconds. *)
Lemma evaluate_exact eligible safe bitrate now p r p' :
  0 <= reference_bitrate p <= u32_max -> 0 <= bitrate <= u32_max ->
  evaluate eligible safe bitrate now p = (Some r, p') ->
  eligible = true /\ safe = false /\ 0 < bitrate /\
  ((startup_safe p = true /\ r = StartupSafeEnded) \/
   (startup_safe p = false /\ r = SignificantBitrateIncrease /\ 0 < reference_bitrate p /\
    (3 * reference_bitrate p <= u32_max -> 3 * reference_bitrate p <= 2 * bitrate + 1) /\
    forall t, last_refresh p = Some t -> HQ_REFERENCE_REFRESH_COOLDOWN <= since now t)).
Proof.
  intros Hr Hb He; unfold evaluate in He.
  destruct eligible, safe; simpl in He; try done.
  destruct (Z.eqb_spec bitrate 0) as [|Hb0]; [done|]; simpl in He.
  split_and!; [done|done|lia|].
  destruct (startup_safe p); simpl in He; [left; by simplify_eq|right].
  destruct (_ && _ && _) eqn:E in He; [|done]; bools; simplify_eq.
  apply Z.ltb_lt in H; apply Z.leb_le in H1; split_and!; [done|done|done| |].
  - intros Hs; unfold sat_mul, HQ_REFERENCE_REFRESH_BITRATE_MULTIPLIER, HQ_REFERENCE_REFRESH_BITRATE_DIVISOR in H1.
    rewrite Z.min_l in H1 by lia; pose proof (Z.div_mod (reference_bitrate p * 3) 2 ltac:(lia)).
    pose proof (Z.mod_pos_bound (reference_bitrate p * 3) 2); lia.
  - intros t Ht; rewrite Ht in H0; by apply Z.leb_le in H0.
Qed.

(** Frame ids run from one without a gap, and zero is never a frame id. *)
Lemma stamps_consecutive vf stream next ms :
  let '(fid, next', vf', cap) := stamp_video_frame vf stream next ms in
  frame_id vf' = fid /\ stream_id vf' = stream /\ 1 <= fid /\ 1 <= next' /\ 0 <= cap /\
  (1 <= next < u64_max -> fid = next /\ next' = next + 1).
Proof.
  unfold stamp_video_frame; simpl; split_and!; [done|done|lia|lia|lia|].
  intros Hn; assert (Z.max next 1 = next) as -> by lia; split; [done|].
  unfold wrap_u64; rewrite Z.mod_small; unfold u64_max in Hn; lia.
Qed.
