(* ===== verification/FramePacing.v ===== *)
(** * Pacing of a video service

    Models, of src/src/server/video_service.rs, what paces the capture loop: the
    deadlines of the film mode ([MovieFramePacer]), the wait for the viewers to
    fetch the last frame ([VideoFrameController]) with the notifications that
    end it, and the samples of durations the cadence controller is fed with
    ([DurationSamples], [MovieHostCadenceWindow]).  The channel of a stream is
    the list of the ids queued on it; the instants that travel with them are
    only logged. *)

From S2P Require Import Prelude CaptureServer.

(** [normalized_encoder_fps] of src/libs/scrap/src/common/codec.rs. *)
Definition MAX_ENCODER_FPS : Z := 120.
Definition DEFAULT_ENCODER_FPS : Z := 30.
Definition normalized_encoder_fps (fps : Z) : Z :=
  if (1 <=? fps) && (fps <=? MAX_ENCODER_FPS) then fps else DEFAULT_ENCODER_FPS.

(** ** Deadlines *)

Record MoviePacerDecision := { scheduled_at : instant; missed_slots : Z }.
Record MovieFramePacer := { period : duration; next_deadline : instant; skipped_slots : Z }.
#[export] Instance eta_MovieFramePacer : Eta MovieFramePacer := fun r =>
  Build_MovieFramePacer (period r) (next_deadline r) (skipped_slots r).

Definition period_of (fps : Z) : duration := 1000000000 / normalized_encoder_fps fps.
Definition new_pacer (fps : Z) (now : instant) : MovieFramePacer :=
  {| period := period_of fps; next_deadline := now; skipped_slots := 0 |}.

(** [checked_div] gives [None] for a divisor of zero. *)
Definition checked_div (a b : Z) : option Z := if b =? 0 then None else Some (a / b).

Definition plan_at (now : instant) (p : MovieFramePacer) : MoviePacerDecision * MovieFramePacer :=
  let at_ := next_deadline p in
  let missed :=
    if at_ <? now
    then Z.min (unwrap_or (checked_div (since now at_) (period p)) 0) u32_max
    else 0 in
  let at_ := at_ + period p * missed in
  let p := p <| skipped_slots ::= fun n => if 0 <? missed then sat_add u64_max n missed else n |>
             <| next_deadline := at_ + period p |> in
  ({| scheduled_at := at_; missed_slots := missed |}, p).

Definition set_fps (fps : Z) (now : instant) (p : MovieFramePacer) : MovieFramePacer :=
  p <| period := period_of fps |> <| next_deadline := now + period_of fps |>.

(** [wait_next]: the plan, and the time slept at the second reading of the clock. *)
Definition wait_next (now now' : instant) (p : MovieFramePacer)
    : MoviePacerDecision * duration * MovieFramePacer :=
  let '(d, p) := plan_at now p in
  (d, if now' <? scheduled_at d then scheduled_at d - now' else 0, p).

(** ** Fetched frames *)

Abbreviation VideoStreamKey := (VideoSource * nat)%type.
#[export] Instance VideoSource_countable : Countable VideoSource.
Proof.
  refine (inj_countable' (fun s => match s with Monitor => true | Camera => false end)
                         (fun b : bool => if b then Monitor else Camera) _).
  by intros [].
Defined.

(** [FRAME_FETCHED_NOTIFIERS] and [DISPLAY_CONN_IDS]. *)
Record Fetches := {
  notifiers : gmap VideoStreamKey (list Z);
  display_conn_ids : gmap VideoStreamKey (gset Z);
}.
#[export] Instance eta_Fetches : Eta Fetches := fun r =>
  Build_Fetches (notifiers r) (display_conn_ids r).

Definition notify_video_frame_fetched (key : VideoStreamKey) (conn : Z) (g : Fetches) : Fetches :=
  g <| notifiers ::= alter (fun q => q ++ [conn]) key |>.

Definition notify_video_frame_fetched_by_conn_id (conn : Z) (g : Fetches) : Fetches :=
  let keys := omap (fun '(k, ids) => if bool_decide (conn ∈ (ids : gset Z)) then Some k else None)
                (map_to_list (display_conn_ids g)) in
  foldl (fun g k => notify_video_frame_fetched k conn g) g keys.

Record VideoFrameController := { stream_key : VideoStreamKey; cur : instant; send_conn_ids : gset Z }.
#[export] Instance eta_VideoFrameController : Eta VideoFrameController := fun r =>
  Build_VideoFrameController (stream_key r) (cur r) (send_conn_ids r).

Definition new_controller (source : VideoSource) (idx : nat) (now : instant) : VideoFrameController :=
  {| stream_key := (source, idx); cur := now; send_conn_ids := ∅ |}.
Definition reset (c : VideoFrameController) : VideoFrameController := c <| send_conn_ids := ∅ |>.
Definition set_send (tm : instant) (ids : gset Z) (c : VideoFrameController) (g : Fetches)
    : VideoFrameController * Fetches :=
  if bool_decide (ids <> ∅) then
    (c <| cur := tm |> <| send_conn_ids := ids |>,
     g <| display_conn_ids ::= <[stream_key c := ids]> |>)
  else (c, g).

Definition delivery_ready (c : VideoFrameController) (fetched : gset Z) : bool :=
  let expected := base.size (send_conn_ids c) in
  let fetched_expected := length (filter (.∈ fetched) (elements (send_conn_ids c))) in
  bool_decide (send_conn_ids c = ∅) || (fetched_expected =? expected)%nat
  || ((1 <? expected)%nat && (0 <? fetched_expected)%nat).

(** The ids taken from the channel that are waited for. *)
Definition take_fetched (c : VideoFrameController) (ids : list Z) (fetched : gset Z) : gset Z :=
  foldl (fun fetched i => if bool_decide (i ∈ send_conn_ids c) then fetched ∪ {[i]} else fetched)
    fetched ids.

(** [arrived] is what is queued until the wait ends; nothing is a timeout. *)
Definition try_wait_next (c : VideoFrameController) (arrived : list Z) (fetched : gset Z) (g : Fetches)
    : gset Z * Fetches :=
  if bool_decide (send_conn_ids c = ∅) then (fetched, g)
  else match notifiers g !! stream_key c with
       | None => (fetched, g)
       | Some q => (take_fetched c (q ++ arrived) fetched,
                    g <| notifiers ::= <[stream_key c := []]> |>)
       end.

(** [locked]: another thread holds the receiver. *)
Definition drain_available (c : VideoFrameController) (locked : bool) (fetched : gset Z) (g : Fetches)
    : nat * gset Z * Fetches :=
  if bool_decide (send_conn_ids c = ∅) then (0%nat, fetched, g)
  else match notifiers g !! stream_key c with
       | None => (0%nat, fetched, g)
       | Some q =>
           if locked then (0%nat, fetched, g)
           else (length q, take_fetched c q fetched, g <| notifiers ::= <[stream_key c := []]> |>)
       end.

(** The wait of [run] for the last frame: the time elapsed and the ids that
    arrive at each round; the loop ends when the frame is delivered or after
    three seconds. *)
Definition WAIT_TIMEOUT_MILLIS : Z := 3000.
Fixpoint wait_delivery (c : VideoFrameController) (rounds : list (Z * list Z)) (fetched : gset Z)
    (g : Fetches) : gset Z * Fetches * bool :=
  match rounds with
  | [] => (fetched, g, false)
  | (elapsed_ms, arrived) :: rounds =>
      if elapsed_ms <? WAIT_TIMEOUT_MILLIS then
        let '(fetched, g) := try_wait_next c arrived fetched g in
        if delivery_ready c fetched then (fetched, g, true) else wait_delivery c rounds fetched g
      else (fetched, g, true)
  end.

(** ** Samples *)

Definition HOST_VIDEO_DIAG_SAMPLE_CAPACITY : nat := 512.
Definition MOVIE_CADENCE_SAMPLE_INTERVAL : duration := from_millis 500.

Record DurationSummary := { p50_us : Z; p95_us : Z; max_us : Z }.
Record DurationSamples := { samples_us : list Z; next_index : nat }.
#[export] Instance eta_DurationSamples : Eta DurationSamples := fun r =>
  Build_DurationSamples (samples_us r) (next_index r).
Definition default_samples : DurationSamples := {| samples_us := []; next_index := 0 |}.

(** [as_micros], capped to 64 bits. *)
Definition micros (d : duration) : Z := Z.min (d / 1000) u64_max.

Definition record (d : duration) (s : DurationSamples) : DurationSamples :=
  if (length (samples_us s) <? HOST_VIDEO_DIAG_SAMPLE_CAPACITY)%nat then
    s <| samples_us ::= fun l => l ++ [micros d] |>
  else
    s <| samples_us ::= <[next_index s := micros d]> |>
      <| next_index := ((next_index s + 1) mod HOST_VIDEO_DIAG_SAMPLE_CAPACITY)%nat |>.

Definition percentile_us (sorted : list Z) (percentile : Z) : Z :=
  match sorted with
  | [] => 0
  | _ =>
      let n := Z.of_nat (length sorted) in
      let rank := sat_add u64_max (sat_mul u64_max n percentile) 99 / 100 in
      unwrap_or (sorted !! Z.to_nat (Z.min (sat_sub rank 1) (n - 1))) 0
  end.

Definition summary_of (l : list Z) : DurationSummary :=
  match l with
  | [] => {| p50_us := 0; p95_us := 0; max_us := 0 |}
  | _ =>
      let sorted := sort l in
      {| p50_us := percentile_us sorted 50; p95_us := percentile_us sorted 95;
         max_us := unwrap_or (last sorted) 0 |}
  end.
Definition summary (s : DurationSamples) : DurationSummary := summary_of (samples_us s).

Record MovieHostCadenceMetrics := { pipeline_p95_us : Z; m_iterations : Z; m_missed_slots : Z }.
Record MovieHostCadenceWindow := {
  started_at : instant;
  iterations : Z;
  w_missed_slots : Z;
  capture : DurationSamples;
  pipeline : DurationSamples;
}.
#[export] Instance eta_MovieHostCadenceWindow : Eta MovieHostCadenceWindow := fun r =>
  Build_MovieHostCadenceWindow (started_at r) (iterations r) (w_missed_slots r) (capture r) (pipeline r).

Definition new_window (now : instant) : MovieHostCadenceWindow :=
  {| started_at := now; iterations := 0; w_missed_slots := 0; capture := default_samples;
     pipeline := default_samples |}.
Definition record_iteration (w : MovieHostCadenceWindow) : MovieHostCadenceWindow :=
  w <| iterations ::= fun n => sat_add u64_max n 1 |>.
Definition record_missed_slots (n : Z) (w : MovieHostCadenceWindow) : MovieHostCadenceWindow :=
  w <| w_missed_slots ::= fun m => sat_add u64_max m n |>.
Definition record_pipeline (d : duration) (w : MovieHostCadenceWindow) : MovieHostCadenceWindow :=
  w <| pipeline ::= record d |>.
Definition record_capture (d : duration) (w : MovieHostCadenceWindow) : MovieHostCadenceWindow :=
  w <| capture ::= record d |>.
Definition take_if_due (now : instant) (w : MovieHostCadenceWindow)
    : option MovieHostCadenceMetrics * MovieHostCadenceWindow :=
  if since now (started_at w) <? MOVIE_CADENCE_SAMPLE_INTERVAL then (None, w)
  else
    let c := summary (capture w) in
    let p := summary (pipeline w) in
    (Some {| pipeline_p95_us := sat_add u64_max (p95_us c) (p95_us p);
             m_iterations := iterations w; m_missed_slots := w_missed_slots w |},
     {| started_at := now; iterations := 0; w_missed_slots := 0; capture := default_samples;
        pipeline := default_samples |}).

(** ** The deadlines are on a grid *)

Lemma period_pos fps : 0 < period_of fps.
Proof.
  unfold period_of, normalized_encoder_fps, MAX_ENCODER_FPS, DEFAULT_ENCODER_FPS.
  destruct ((1 <=? fps) && (fps <=? 120)) eqn:E; [|done]; bools.
  apply Z.leb_le in H, H0; apply Z.div_str_pos; lia.
Qed.

Lemma plan_spec now p : 0 < period p ->
  let '(d, p') := plan_at now p in
  scheduled_at d = next_deadline p + period p * missed_slots d /\
  period p' = period p /\ next_deadline p' = scheduled_at d + period p /\
  0 <= missed_slots d <= u32_max /\
  (missed_slots d < u32_max -> now < scheduled_at d + period p) /\
  (0 < missed_slots d -> scheduled_at d <= now) /\
  skipped_slots p' = (if 0 <? missed_slots d then sat_add u64_max (skipped_slots p) (missed_slots d)
                      else skipped_slots p).
Proof.
  intros Hp; unfold plan_at, checked_div; simpl.
  destruct (Z.ltb_spec (next_deadline p) now) as [Hlt|Hge]; simpl.
  - replace (period p =? 0) with false by (symmetry; apply Z.eqb_neq; lia); simpl.
    assert (since now (next_deadline p) = now - next_deadline p) as -> by (unfold since; lia).
    set (late := now - next_deadline p).
    pose proof (Z.div_mod late (period p) ltac:(lia)); pose proof (Z.mod_pos_bound late (period p) Hp).
    assert (0 <= late / period p) by (apply Z.div_pos; lia).
    assert (0 < u32_max) by done.
    split_and!; try done; try (subst late; nia).
  - split_and!; try done; lia.
Qed.

Fixpoint plans (nows : list instant) (p : MovieFramePacer) : list MoviePacerDecision :=
  match nows with
  | [] => []
  | now :: nows => let '(d, p) := plan_at now p in d :: plans nows p
  end.

Fixpoint sum (l : list Z) : Z := match l with [] => 0 | x :: l => x + sum l end.

Lemma plans_grid nows : forall p idx d, 0 < period p -> plans nows p !! idx = Some d ->
  scheduled_at d = next_deadline p +
    period p * (Z.of_nat idx + sum (missed_slots <$> take (S idx) (plans nows p))) /\
  (missed_slots d < u32_max -> forall now, nows !! idx = Some now -> now < scheduled_at d + period p) /\
  (0 < missed_slots d -> forall now, nows !! idx = Some now -> scheduled_at d <= now).
Proof.
  induction nows as [|now nows IH]; intros p idx d Hp Hd; [done|]; cbn [plans] in Hd |- *.
  pose proof (plan_spec now p Hp) as Hs; destruct (plan_at now p) as [d0 p1].
  destruct Hs as (Hs & Hp1 & Hn1 & Hm & Hl & Hsk & _).
  destruct idx as [|idx].
  - injection Hd as ->; cbn [take fmap list_fmap sum]; rewrite take_0; cbn [fmap list_fmap sum].
    split_and!; [lia|intros ? ? [= <-]; auto|intros ? ? [= <-]; auto].
  - simpl in Hd; destruct (IH p1 idx d ltac:(lia) Hd) as (Hs1 & Hl1 & Hk1).
    rewrite Hp1 in Hs1, Hl1; split_and!; [|by simpl..].
    rewrite Hs1, Hn1, Hs; change (take (S (S idx)) (d0 :: plans nows p1)) with (d0 :: take (S idx) (plans nows p1)).
    cbn [fmap list_fmap sum]; lia.
Qed.

Lemma missed_nonneg nows p : 0 < period p -> Forall (fun d => 0 <= missed_slots d) (plans nows p).
Proof.
  revert p; induction nows as [|now nows IH]; intros p Hp; [constructor|]; cbn [plans].
  pose proof (plan_spec now p Hp) as Hs; destruct (plan_at now p) as [d p1].
  destruct Hs as (_ & Hp1 & _ & ? & _); constructor; [lia|]; apply IH; lia.
Qed.

(** The film mode keeps to a fixed grid: from [start] at a rate, whatever
    the times the loop comes around, the n-th frame is scheduled a whole number
    of periods after the start, at least n and exactly as many more as slots
    were reported missed, so that frames never come faster than the rate and
    lateness does not accumulate; a slot is skipped only when its time has
    passed, and a frame is never scheduled a full period late (up to 2^32 - 1
    missed slots). *)
Theorem pacer_keeps_grid fps start nows idx d :
  plans nows (new_pacer fps start) !! idx = Some d ->
  let missed := sum (missed_slots <$> take (S idx) (plans nows (new_pacer fps start))) in
  scheduled_at d = start + period_of fps * (Z.of_nat idx + missed) /\ 0 <= missed /\
  (forall now, nows !! idx = Some now ->
     (missed_slots d < u32_max -> now < scheduled_at d + period_of fps) /\
     (0 < missed_slots d -> scheduled_at d <= now)).
Proof.
  intros Hd missed; pose proof (period_pos fps) as Hp.
  destruct (plans_grid nows (new_pacer fps start) idx d Hp Hd) as (Hs & Hl & Hk); simpl in Hs, Hl, Hk.
  split_and!; [done| |intros now Hn; split; auto].
  subst missed; pose proof (Forall_take _ (S idx) _ (missed_nonneg nows (new_pacer fps start) Hp)) as Hf.
  revert Hf; generalize (take (S idx) (plans nows (new_pacer fps start))) as l.
  induction 1; cbn [fmap list_fmap sum]; lia.
Qed.

Lemma pacer_keeps_grid_witness :
  scheduled_at <$> plans [0; 5; 70000000; 80000000] (new_pacer 60 0) =
    [0; 16666666; 66666664; 83333330] /\
  exists d, plans [0; 5; 70000000; 80000000] (new_pacer 60 0) !! 2%nat = Some d /\
    scheduled_at d = 0 + period_of 60 * (2 + 2).
Proof.
  split; [by vm_compute|]; eexists; split; [by vm_compute|].
  refine (eq_trans (proj1 (pacer_keeps_grid 60 0 [0; 5; 70000000; 80000000] 2 _ _)) _); by vm_compute.
Defined.

(** ** The wait for the viewers *)

Lemma elem_of_take_fetched c ids fetched i :
  i ∈ take_fetched c ids fetched <-> i ∈ fetched \/ (i ∈ ids /\ i ∈ send_conn_ids c).
Proof.
  unfold take_fetched; revert fetched; induction ids as [|j ids IH]; intros fetched; cbn [foldl]; [set_solver|].
  rewrite IH; case_bool_decide; set_solver.
Qed.

Lemma fetched_count c fetched :
  length (filter (.∈ fetched) (elements (send_conn_ids c))) = base.size (send_conn_ids c ∩ fetched).
Proof.
  unfold base.size at 1, set_size; apply Permutation_length, NoDup_Permutation.
  - apply NoDup_filter, NoDup_elements.
  - apply NoDup_elements.
  - intros x; rewrite list_elem_of_filter, !elem_of_elements; set_solver.
Qed.

(** The loop goes on when every viewer has fetched the frame, or when the
    stream is shared and one of them has. *)
Lemma delivery_ready_exact c fetched :
  delivery_ready c fetched = true <->
  send_conn_ids c ⊆ fetched \/
  ((1 < base.size (send_conn_ids c))%nat /\ exists i, i ∈ send_conn_ids c /\ i ∈ fetched).
Proof.
  unfold delivery_ready; rewrite fetched_count, !orb_true_iff, andb_true_iff, bool_decide_eq_true.
  rewrite Nat.eqb_eq, !Nat.ltb_lt.
  assert (send_conn_ids c ∩ fetched ⊆ send_conn_ids c) as Hsub by set_solver.
  split.
  - intros [[->|He]|[H1 H2]]; [left; set_solver|left|right; split; [done|]].
    + assert (send_conn_ids c ∩ fetched = send_conn_ids c) by (apply set_subseteq_size_eq; [done|by rewrite He]).
      set_solver.
    + apply size_pos_elem_of in H2 as [i ?]; exists i; set_solver.
  - intros [Hs|[H1 (i & Hi & Hf)]]; [left; right|right; split; [done|]].
    + f_equal; set_solver.
    + assert (base.size (send_conn_ids c ∩ fetched) <> 0%nat); [|lia].
      intros H0%size_empty_inv; set_solver.
Qed.

(** The queue of a stream after a connection is reported for all its streams. *)
Lemma notify_fold keys conn g k : NoDup keys ->
  notifiers (foldl (fun g k => notify_video_frame_fetched k conn g) g keys) !! k =
  (fun q => if decide (k ∈ keys) then q ++ [conn] else q) <$> notifiers g !! k.
Proof.
  intros Hn; revert g; induction Hn as [|k0 keys Hk Hn IH]; intros g; cbn [foldl].
  { destruct (notifiers g !! k); cbn [fmap option_fmap option_map]; [|done].
    by rewrite decide_False by set_solver. }
  rewrite IH; simpl; destruct (decide (k = k0)) as [->|Hne].
  - rewrite lookup_alter_eq; destruct (notifiers g !! k0); cbn [fmap option_fmap option_map]; [|done].
    by rewrite decide_False, decide_True by set_solver.
  - rewrite lookup_alter_ne by done; destruct (notifiers g !! k); cbn [fmap option_fmap option_map]; [|done].
    by destruct (decide (k ∈ keys)); [rewrite decide_True by set_solver|rewrite decide_False by set_solver].
Qed.

(** The stream waits for the connection. *)
Definition waits_for (conn : Z) (g : Fetches) (k : VideoStreamKey) : bool :=
  map_or (display_conn_ids g !! k) false (fun ids => bool_decide (conn ∈ ids)).

(** A connection that closes is reported to exactly the streams that wait for
    it, once each. *)
Lemma close_releases conn g k :
  notifiers (notify_video_frame_fetched_by_conn_id conn g) !! k =
  (fun q => if waits_for conn g k then q ++ [conn] else q) <$> notifiers g !! k.
Proof.
  unfold notify_video_frame_fetched_by_conn_id; set (keys := omap _ _).
  assert (forall k, k ∈ keys <-> waits_for conn g k = true) as Hk.
  { intros k'; unfold keys, waits_for; rewrite list_elem_of_omap; split.
    - intros ([k2 ids] & Hp%elem_of_map_to_list & Hc); case_bool_decide; simplify_eq.
      rewrite Hp; simpl; by rewrite bool_decide_true.
    - destruct (display_conn_ids g !! k') as [ids|] eqn:Hp; [|done]; simpl; intros Hc.
      exists (k', ids); rewrite elem_of_map_to_list; split; [done|]; by rewrite Hc. }
  rewrite notify_fold.
  - destruct (notifiers g !! k); cbn [fmap option_fmap option_map]; [|done]; f_equal.
    specialize (Hk k); destruct (waits_for conn g k); [rewrite decide_True|rewrite decide_False]; naive_solver.
  - unfold keys; apply (sublist_NoDup _ ((map_to_list (display_conn_ids g)).*1)); [apply NoDup_fst_map_to_list|].
    clear Hk; unfold keys; clear keys; induction (map_to_list (display_conn_ids g)) as [|[k2 ids] l IH]; simpl; [done|].
    destruct (bool_decide (conn ∈ ids)); simpl; [by apply sublist_skip|by apply sublist_cons].
Qed.

(** One viewer's report ends the wait of a shared stream; of the ids that come
    in, only those waited for count. *)
Lemma shared_stream_advances c elapsed arrived rounds fetched g q i :
  notifiers g !! stream_key c = Some q -> elapsed < WAIT_TIMEOUT_MILLIS ->
  (1 < base.size (send_conn_ids c))%nat -> i ∈ q ++ arrived -> i ∈ send_conn_ids c ->
  (wait_delivery c ((elapsed, arrived) :: rounds) fetched g).2 = true.
Proof.
  intros Hq He Hs Hi Hc; cbn [wait_delivery]; rewrite (proj2 (Z.ltb_lt _ _) He); unfold try_wait_next.
  rewrite bool_decide_false by set_solver; rewrite Hq.
  replace (delivery_ready c (take_fetched c (q ++ arrived) fetched)) with true; [done|].
  symmetry; apply delivery_ready_exact; right; split; [done|].
  exists i; rewrite elem_of_take_fetched; auto.
Qed.

(** ** The samples are those of the last calls *)

Lemma sort_permutation l l' : l ≡ₚ l' -> sort l = sort l'.
Proof.
  intros H; unfold sort; apply (Sorted_unique Z.le); [apply Sorted_merge_sort, _..|].
  by rewrite !merge_sort_Permutation.
Qed.

Definition CAP := HOST_VIDEO_DIAG_SAMPLE_CAPACITY.
(** The last 512 of a list. *)
Definition recent (l : list Z) : list Z := drop (length l - CAP) l.

(** The ring: once full, it is the last values from the next index on. *)
Record ring (l : list Z) (s : DurationSamples) : Prop := {
  ring_next : (next_index s < CAP)%nat;
  ring_short : (length l < CAP)%nat -> samples_us s = l /\ next_index s = 0%nat;
  ring_full : (CAP <= length l)%nat -> length (samples_us s) = CAP /\
    drop (next_index s) (samples_us s) ++ take (next_index s) (samples_us s) = recent l;
}.

Lemma recent_snoc l x : (CAP <= length l)%nat -> recent (l ++ [x]) = drop 1 (recent l) ++ [x].
Proof.
  assert (0 < CAP)%nat by (unfold CAP, HOST_VIDEO_DIAG_SAMPLE_CAPACITY; lia).
  intros Hl; unfold recent; rewrite length_app, drop_drop; cbn [length].
  rewrite drop_app_le by lia; do 2 f_equal; lia.
Qed.

#[local] Arguments Nat.modulo : simpl never.

Lemma ring_record l s d : ring l s -> ring (l ++ [micros d]) (record d s).
Proof.
  intros [Hn Hs Hf]; assert (0 < CAP)%nat by (unfold CAP, HOST_VIDEO_DIAG_SAMPLE_CAPACITY; lia).
  unfold record; fold CAP; destruct (decide (length l < CAP)%nat) as [Hl|Hl].
  - destruct (Hs Hl) as [Hsl Hn0]; rewrite Hsl, (proj2 (Nat.ltb_lt _ _) Hl).
    constructor; simpl; [done|by rewrite Hsl|]; rewrite length_app; cbn [length]; intros Hc.
    rewrite Hsl, Hn0, length_app; cbn [length]; split; [lia|].
    unfold recent; rewrite length_app; cbn [length]; replace (length l + 1 - CAP)%nat with 0%nat by lia.
    by rewrite take_0, app_nil_r.
  - destruct Hf as [Hlen Hrot]; [lia|].
    rewrite Hlen, (proj2 (Nat.ltb_ge _ _) (Nat.le_refl CAP)).
    set (k := next_index s) in *; set (S := samples_us s) in *.
    constructor; simpl; fold k; fold S.
    + apply Nat.mod_upper_bound; lia.
    + rewrite length_app; cbn [length]; lia.
    + intros _; rewrite length_insert; split; [done|].
      rewrite recent_snoc, <- Hrot by lia.
      assert (drop 1 (drop k S ++ take k S) = drop (k + 1) S ++ take k S) as ->
        by (rewrite drop_app_le, drop_drop by (rewrite length_drop; lia); do 2 f_equal; lia).
      assert (take k (<[k:=micros d]> S) = take k S) as Ht by (apply take_insert_ge; lia).
      assert (drop (k + 1) (<[k:=micros d]> S) = drop (k + 1) S) as Hd by (apply drop_insert_lt; lia).
      assert (take (k + 1) (<[k:=micros d]> S) = take k S ++ [micros d]) as Ht1.
      { rewrite Nat.add_1_r, (take_S_r _ _ (micros d)) by (apply list_lookup_insert_eq; lia); by rewrite Ht. }
      destruct (decide (k + 1 = CAP)%nat) as [E|E].
      * rewrite E, Nat.Div0.mod_same, drop_0, take_0, app_nil_r; rewrite <- E at 1.
        rewrite (drop_ge S (k + 1)) by lia; simpl.
        rewrite <- (take_drop (k + 1) (<[k:=micros d]> S)), Ht1, drop_ge by (rewrite length_insert; lia).
        by rewrite app_nil_r.
      * rewrite Nat.mod_small by lia; rewrite Hd, Ht1; by rewrite (assoc_L (++)).
Qed.

Definition recorded (ds : list duration) : DurationSamples := foldl (fun s d => record d s) default_samples ds.

Lemma recorded_ring ds : ring (micros <$> ds) (recorded ds).
Proof.
  induction ds as [|d ds IH] using rev_ind.
  - constructor; simpl; unfold CAP, HOST_VIDEO_DIAG_SAMPLE_CAPACITY; [lia|done|simpl; lia].
  - unfold recorded; rewrite foldl_app, fmap_app; by apply ring_record.
Qed.

Lemma recorded_recent ds : samples_us (recorded ds) ≡ₚ recent (micros <$> ds).
Proof.
  destruct (recorded_ring ds) as [_ Hs Hf]; destruct (decide (length (micros <$> ds) < CAP)%nat) as [Hl|Hl].
  - destruct (Hs Hl) as [-> _]; unfold recent; by replace (_ - CAP)%nat with 0%nat by lia.
  - destruct Hf as [_ <-]; [lia|]; rewrite (comm (++)); by rewrite take_drop.
Qed.

Lemma summary_permutation l l' : l ≡ₚ l' -> summary_of l = summary_of l'.
Proof.
  intros H; unfold summary_of; rewrite (sort_permutation l l' H).
  destruct l as [|x l], l' as [|y l']; [done|by apply Permutation_nil_l in H|by apply Permutation_nil_r in H|done].
Qed.

(** The summary of the samples is that of the last 512 durations recorded:
    the ring that overwrites the oldest value in place loses and repeats
    none. *)
Theorem summary_is_of_recent ds : summary (recorded ds) = summary_of (recent (micros <$> ds)).
Proof. apply summary_permutation, recorded_recent. Qed.

(** In a sorted list, what comes before an element is at most it, and what
    comes after at least. *)
Lemma sorted_split S idx v : StronglySorted Z.le S -> S !! idx = Some v ->
  Forall (fun x => x <= v) (take (idx + 1) S) /\ Forall (fun x => v <= x) (drop idx S).
Proof.
  intros Hs; revert idx; induction Hs as [|x S Hs IH Hx]; intros idx Hv; [done|].
  destruct idx as [|idx]; simpl in Hv |- *.
  - simplify_eq; split; [by repeat constructor|constructor; [lia|done]].
  - destruct (IH idx Hv) as [Ht Hd]; split; [|done].
    constructor; [|done]; apply (proj1 (Forall_forall _ _) Hx), list_elem_of_lookup; by exists idx.
Qed.

Lemma count_if_all {A} (p : A -> bool) (l : list A) :
  Forall (fun x => p x = true) l -> count_if p l = Z.of_nat (length l).
Proof. induction 1 as [|x l Hx Hl IH]; [done|]; cbn [count_if length]; rewrite Hx, IH; simpl; lia. Qed.

(** The percentiles are by nearest rank: at least the percentage of the
    samples is at most the value, and less than the percentage is below it. *)
Lemma percentile_exact l p : l <> [] -> 1 <= p <= 100 -> Z.of_nat (length l) * p + 99 <= u64_max ->
  let v := percentile_us (sort l) p in
  v ∈ l /\ p * Z.of_nat (length l) <= 100 * count_if (fun x => x <=? v) l /\
  100 * count_if (fun x => x <? v) l < p * Z.of_nat (length l).
Proof.
  intros Hl Hp Hn; set (n := Z.of_nat (length l)) in *.
  assert (l ≡ₚ sort l) as Hperm by (unfold sort; by rewrite merge_sort_Permutation).
  assert (0 < n) by (subst n; destruct l; [done|simpl; lia]).
  assert (length (sort l) = length l) as Hlen by by rewrite <- Hperm.
  set (rank := (n * p + 99) / 100).
  assert (100 * rank <= n * p + 99 < 100 * rank + 100) as Hr
    by (unfold rank; pose proof (Z.div_mod (n * p + 99) 100); pose proof (Z.mod_pos_bound (n * p + 99) 100); lia).
  assert (1 <= rank <= n) as Hrn by nia.
  set (idx := Z.to_nat (rank - 1)).
  assert (Z.of_nat idx = rank - 1 /\ (idx < length l)%nat) as [Hidx Hlt].
  { unfold idx, n in *; clearbody rank; lia. }
  destruct (lookup_lt_is_Some_2 (sort l) idx) as [v0 Hv0]; [by rewrite Hlen|].
  assert (percentile_us (sort l) p = v0) as ->.
  { unfold percentile_us; destruct (sort l) as [|x S] eqn:E; [done|]; rewrite <- E in *.
    rewrite Hlen; fold n; unfold sat_mul, sat_add, sat_sub; 
    rewrite (Z.min_l (n * p) u64_max), (Z.min_l (n * p + 99) u64_max) by (clearbody n; lia).
    fold rank; replace (Z.to_nat (Z.min (Z.max (rank - 1) 0) (n - 1))) with idx by (unfold idx; f_equal; clearbody rank; lia).
    by rewrite Hv0. }
  intros v; subst v; split; [rewrite Hperm; by eapply list_elem_of_lookup_2|].
  rewrite (count_if_perm _ l (sort l) Hperm), (count_if_perm (fun x => x <? v0) l (sort l) Hperm).
  destruct (sorted_split (sort l) idx v0) as [Ht Hd]; [apply Sorted_StronglySorted, sort_sorted; exact Z.le_trans|done|].
  split.
  - rewrite <- (take_drop (idx + 1) (sort l)), count_if_app.
    rewrite count_if_all by (eapply Forall_impl; [exact Ht|]; intros; by apply Z.leb_le).
    pose proof (count_if_bounds (fun x => x <=? v0) (drop (idx + 1) (sort l))).
    rewrite length_take, Hlen; clearbody n rank idx; lia.
  - rewrite <- (take_drop idx (sort l)), count_if_app.
    rewrite (count_if_zero _ (drop idx (sort l))).
    + pose proof (count_if_bounds (fun x => x <? v0) (take idx (sort l))).
      rewrite length_take in H0; clearbody n rank idx; lia.
    + intros x Hx; apply Z.ltb_ge; by apply (proj1 (Forall_forall _ _) Hd).
Qed.

(** A window reports at most every half second, and starts afresh. *)
Lemma window_reports now w m w' : take_if_due now w = (Some m, w') ->
  MOVIE_CADENCE_SAMPLE_INTERVAL <= since now (started_at w) /\ w' = new_window now.
Proof. unfold take_if_due; destruct (Z.ltb_spec (since now (started_at w)) MOVIE_CADENCE_SAMPLE_INTERVAL); naive_solver. Qed.
