(* ===== verification/TerminalBuffer.v ===== *)
(** * The output buffer of a terminal

    Models [OutputBuffer] of src/src/server/terminal_service.rs: the lines a
    terminal has printed, kept to replay the most recent of them to a client
    that reconnects.

    [total_size] is a [usize] of the 64-bit targets and a release build wraps.
    [append] gives [None] when its trimming loop does not end. *)

From S2P Require Import Prelude.

Abbreviation byte := Byte.byte.
Abbreviation bytes := (list Byte.byte).

Definition MAX_OUTPUT_BUFFER_SIZE : Z := 1024 * 1024.
Definition MAX_BUFFER_LINES : Z := 10000.

#[export] Instance terminal_byte_eq_dec : EqDecision Byte.byte := Byte.byte_eq_dec.

Definition len {A} (l : list A) : Z := Z.of_nat (length l).
Definition newline (b : byte) : bool := Byte.eqb b Byte.x0a.

Record OutputBuffer := {
  lines : list bytes;
  total_size : Z;
  last_line_incomplete : bool;
}.
#[export] Instance eta_OutputBuffer : Eta OutputBuffer := fun r =>
  Build_OutputBuffer (lines r) (total_size r) (last_line_incomplete r).

Definition new : OutputBuffer := {| lines := []; total_size := 0; last_line_incomplete := false |}.

(** [position] of the first newline. *)
Fixpoint newline_pos (l : bytes) : option nat :=
  match l with
  | [] => None
  | b :: l => if newline b then Some 0%nat else S <$> newline_pos l
  end.

(** [split] at newlines; the parts do not hold them. *)
Fixpoint split (l : bytes) : list bytes :=
  match l with
  | [] => [[]]
  | b :: l =>
      if newline b then [] :: split l
      else match split l with p :: ps => (b :: p) :: ps | [] => [[b]] end
  end.

Definition ends_with_newline (l : bytes) : bool := is_some_and (last l) newline.

(** [push_back] of a line. *)
Definition push_line (line : bytes) (s : OutputBuffer) : OutputBuffer :=
  s <| total_size ::= fun n => wrap_u64 (n + len line) |> <| lines ::= fun l => l ++ [line] |>.

(** The loop over the parts; [part] is the last one if nothing follows. *)
Fixpoint push_parts (ends : bool) (parts : list bytes) (s : OutputBuffer) : OutputBuffer :=
  match parts with
  | [] => s
  | part :: rest =>
      let is_last := match rest with [] => true | _ => false end in
      let empty := match part with [] => true | _ => false end in
      let s := if is_last && negb ends && negb empty then s <| last_line_incomplete := true |> else s in
      let s :=
        if negb empty || negb is_last then
          push_line (if negb is_last || ends then part ++ [Byte.x0a] else part) s
        else s in
      push_parts ends rest s
  end.

(** The trimming loop: [None] when it goes on with nothing left to remove. *)
Fixpoint trim (ls : list bytes) (total : Z) : option (list bytes * Z) :=
  if (MAX_OUTPUT_BUFFER_SIZE <? total) || (MAX_BUFFER_LINES <? len ls) then
    match ls with
    | [] => None
    | l :: ls => trim ls (wrap_u64 (total - len l))
    end
  else Some (ls, total).

(** The last line of a non-empty buffer is replaced. *)
Definition extend_last (data : bytes) (ls : list bytes) : list bytes :=
  alter (fun l => l ++ data) (length ls - 1)%nat ls.

(** The rest of [append], from [start] on. *)
Definition append_rest (remaining : bytes) (s : OutputBuffer) : option OutputBuffer :=
  let s := push_parts (ends_with_newline remaining) (split remaining) s in
  '(ls, total) ← trim (lines s) (total_size s);
  Some (s <| lines := ls |> <| total_size := total |>).

Definition append (data : bytes) (s : OutputBuffer) : option OutputBuffer :=
  match data with
  | [] => Some s
  | _ =>
      match last_line_incomplete s, lines s with
      | true, _ :: _ =>
          match newline_pos data with
          | Some pos =>
              append_rest (drop (pos + 1) data)
                (s <| lines ::= extend_last (take (pos + 1) data) |> <| last_line_incomplete := false |>)
          | None =>
              Some (s <| lines ::= extend_last data |> <| total_size ::= fun n => wrap_u64 (n + len data) |>)
          end
      | _, _ => append_rest data s
      end
  end.

(** Continuation bytes of UTF-8. *)
Definition continuation (b : byte) : bool := Z.land (Z.of_N (Byte.to_N b)) 192 =? 128.
Fixpoint skip_continuation (n offset : nat) (line : bytes) : nat :=
  match n with
  | O => offset
  | S n => match line !! offset with
           | Some b => if continuation b then skip_continuation n (S offset) line else offset
           | None => offset
           end
  end.

(** The loop over the lines from the newest, [chunks] in their final order. *)
Fixpoint collect (newest_first : list bytes) (max_bytes size : Z) (chunks : list bytes) : list bytes :=
  match newest_first with
  | [] => chunks
  | line :: older =>
      if max_bytes <? size + len line then
        if (size =? 0) && (max_bytes <? len line) then
          let offset := skip_continuation 3 (Z.to_nat (len line - max_bytes)) line in
          if (offset <? length line)%nat then drop offset line :: chunks else chunks
        else chunks
      else collect older max_bytes (size + len line) (line :: chunks)
  end.

Definition get_recent (max_bytes : Z) (s : OutputBuffer) : bytes :=
  if max_bytes =? 0 then [] else concat (collect (reverse (lines s)) max_bytes 0 []).

Fixpoint appends (ds : list bytes) (s : OutputBuffer) : option OutputBuffer :=
  match ds with [] => Some s | d :: ds => append d s ≫= appends ds end.

(** ** Lines *)

Definition contents (s : OutputBuffer) : bytes := concat (lines s).

(** The pieces of the data the loop pushes. *)
Fixpoint pieces (ends : bool) (parts : list bytes) : list bytes :=
  match parts with
  | [] => []
  | part :: rest =>
      let is_last := match rest with [] => true | _ => false end in
      let empty := match part with [] => true | _ => false end in
      (if negb empty || negb is_last
       then [if negb is_last || ends then part ++ [Byte.x0a] else part] else []) ++ pieces ends rest
  end.

Lemma push_parts_spec ends parts s :
  lines (push_parts ends parts s) = lines s ++ pieces ends parts /\
  total_size (push_parts ends parts s) =
    foldl (fun n l => wrap_u64 (n + len l)) (total_size s) (pieces ends parts) /\
  last_line_incomplete (push_parts ends parts s) =
    last_line_incomplete s || (negb ends && is_some_and (last parts) (fun p => negb (bool_decide (p = [])))).
Proof.
  revert s; induction parts as [|part rest IH]; intros s; cbn [push_parts pieces last is_some_and].
  { rewrite app_nil_r, andb_false_r, orb_false_r; done. }
  set (s1 := if _ && negb _ && negb _ then _ else s); set (s2 := if _ || _ then _ else s1).
  destruct (IH s2) as (-> & -> & ->).
  subst s2 s1; destruct rest as [|r rest], part as [|b part], ends; simpl;
    rewrite ?app_nil_r, ?andb_false_r, ?orb_false_r, ?orb_true_r, <- ?(assoc_L (++)); done.
Qed.

Lemma newline_byte b : newline b = true -> b = Byte.x0a.
Proof. apply Byte.byte_dec_bl. Qed.

Lemma split_not_nil l : exists p ps, split l = p :: ps.
Proof. destruct l as [|b l]; simpl; [by eexists _, _|]. destruct (newline b); [by eexists _, _|]. destruct (split l); by eexists _, _. Qed.

(** The text the parts come from. *)
Fixpoint join (parts : list bytes) : bytes :=
  match parts with
  | [] => []
  | [p] => p
  | p :: rest => p ++ [Byte.x0a] ++ join rest
  end.

Lemma join_split l : join (split l) = l.
Proof.
  induction l as [|b l IH]; [done|]; simpl.
  destruct (split_not_nil l) as (p & ps & E); destruct (newline b) eqn:Eb.
  - rewrite E; change (Byte.x0a :: join (p :: ps) = b :: l); rewrite <- E, IH.
    by rewrite (newline_byte b Eb).
  - rewrite E in IH |- *; destruct ps; simpl in IH |- *; by rewrite IH.
Qed.

Lemma split_nothing l : split l = [[]] -> l = [].
Proof. intros E; rewrite <- (join_split l), E; done. Qed.

Lemma split_ends l : ends_with_newline l = true -> last (split l) = Some [].
Proof.
  induction l as [|b l IH]; intros He; [done|]; destruct l as [|c l].
  { unfold ends_with_newline in He; simpl in He |- *; by rewrite He. }
  assert (ends_with_newline (c :: l) = true) as He' by done; specialize (IH He').
  cbn [split]; fold (split (c :: l)); destruct (split_not_nil (c :: l)) as (p & ps & E).
  change (if newline c then _ else _) with (split (c :: l)); rewrite E in IH |- *.
  destruct (newline b); [done|]; destruct ps as [|q ps]; [|done].
  simpl in IH; injection IH as ->; by apply split_nothing in E.
Qed.

Lemma pieces_join ends parts : (ends = true -> last parts = Some []) ->
  concat (pieces ends parts) = join parts.
Proof.
  induction parts as [|p rest IH]; intros He; [done|]; destruct rest as [|q rest].
  - simpl; destruct p as [|b p]; simpl; [done|]; destruct ends; [by specialize (He eq_refl)|].
    by rewrite app_nil_r.
  - assert (pieces ends (p :: q :: rest) = (p ++ [Byte.x0a]) :: pieces ends (q :: rest)) as ->
      by by destruct p.
    rewrite concat_cons, IH by done; by rewrite <- (assoc_L (++)).
Qed.

Lemma pieces_concat l : concat (pieces (ends_with_newline l) (split l)) = l.
Proof. rewrite pieces_join by apply split_ends; apply join_split. Qed.

Lemma pieces_not_empty ends parts p : p ∈ pieces ends parts -> p <> [].
Proof.
  induction parts as [|q rest IH]; cbn [pieces]; [set_solver|].
  intros [Hp|Hp]%elem_of_app; [|auto].
  destruct rest, q; simpl in Hp; try destruct ends; simpl in Hp; try apply list_elem_of_singleton in Hp;
    subst; try (by apply not_elem_of_nil in Hp); try done; by intros ?%app_nil.
Qed.

Lemma extend_last_concat data ls : ls <> [] -> concat (extend_last data ls) = concat ls ++ data.
Proof.
  intros Hl; destruct ls as [|x l _] using rev_ind; [done|]; unfold extend_last.
  rewrite length_app; cbn [length]; replace (length l + 1 - 1)%nat with (length l + 0)%nat by lia.
  rewrite alter_app_r; simpl; rewrite !concat_app; simpl; by rewrite !app_nil_r, (assoc_L (++)).
Qed.

Lemma trim_suffix ls total ls' total' : trim ls total = Some (ls', total') ->
  exists gone, ls = gone ++ ls' /\ len ls' <= MAX_BUFFER_LINES /\ total' <= MAX_OUTPUT_BUFFER_SIZE.
Proof.
  revert total; induction ls as [|l ls IH]; intros total; cbn [trim];
    (destruct (_ || _) eqn:E; [|intros [= <- <-]; exists []; bools; split_and!;
       [done|by apply Z.ltb_ge in H0|by apply Z.ltb_ge in H]]); [done|].
  intros Ht; destruct (IH _ Ht) as (gone & -> & ? & ?); by exists (l :: gone).
Qed.

(** The buffer always holds the end of the output: whatever it discards,
    the text of its lines is a suffix of all the output appended since it was
    empty, in the chunks the terminal happened to produce, and no line of it is
    empty. *)
Lemma append_suffix data s s' : append data s = Some s' ->
  Forall (fun l => l <> []) (lines s) ->
  (exists gone, contents s ++ data = gone ++ contents s') /\ Forall (fun l => l <> []) (lines s').
Proof.
  assert (forall rem s s', append_rest rem s = Some s' -> Forall (fun l => l <> []) (lines s) ->
    (exists gone, contents s ++ rem = gone ++ contents s') /\ Forall (fun l => l <> []) (lines s')) as Hrest.
  { clear data s s'; intros rem s s' Ha Hne; unfold append_rest in Ha.
    destruct (push_parts_spec (ends_with_newline rem) (split rem) s) as (Hl & _ & _).
    destruct (trim _ _) as [[ls total]|] eqn:Et; [|done]; injection Ha as <-.
    apply trim_suffix in Et as (gone & Hg & _); rewrite Hl in Hg; unfold contents; simpl; split.
    - exists (concat gone); rewrite <- concat_app, <- Hg, concat_app, pieces_concat; done.
    - assert (Forall (fun l => l <> []) (gone ++ ls)) as Hf; [|by apply Forall_app in Hf as [_ ?]].
      rewrite <- Hg; apply Forall_app; split; [done|]; apply Forall_forall, pieces_not_empty. }
  intros Ha Hne; unfold append in Ha; destruct data as [|b data].
  { injection Ha as <-; split; [exists []; by rewrite app_nil_r|done]. }
  revert Ha; generalize (b :: data) as d; clear b data; intros d Ha.
  destruct (last_line_incomplete s); [|by apply Hrest].
  destruct (lines s) as [|l0 ls0] eqn:El; [by apply Hrest; rewrite ?El|].
  assert (forall x, Forall (fun l => l <> []) (extend_last x (l0 :: ls0))) as Hext.
  { intros x; unfold extend_last; apply Forall_alter; [done|]; intros l _ Hl; destruct l; naive_solver. }
  assert (forall x, concat (extend_last x (l0 :: ls0)) = contents s ++ x) as Hc
    by (intros x; unfold contents; rewrite El; by apply extend_last_concat).
  destruct (newline_pos d) as [pos|].
  - apply Hrest in Ha as [[gone Hg] Hn]; [|simpl; rewrite El; apply Hext].
    split; [|done]; exists gone; rewrite <- Hg; unfold contents at 2; simpl; rewrite El, Hc.
    by rewrite <- (assoc_L (++)), take_drop.
  - injection Ha as <-; split; [exists []; unfold contents at 2|]; simpl; rewrite El; [by rewrite Hc|apply Hext].
Qed.

(** ** Replay *)

Lemma skip_continuation_bounds n offset line :
  (offset <= skip_continuation n offset line <= offset + n)%nat.
Proof.
  revert offset; induction n as [|n IH]; intros offset; simpl; [lia|].
  destruct (line !! offset) as [b|]; [|lia]; destruct (continuation b); [|lia].
  specialize (IH (S offset)); lia.
Qed.

Lemma collect_spec nf max_bytes size chunks : size = len (concat chunks) -> size <= max_bytes ->
  (exists older, concat (reverse nf) ++ concat chunks = older ++ concat (collect nf max_bytes size chunks)) /\
  len (concat (collect nf max_bytes size chunks)) <= max_bytes.
Proof.
  revert size chunks; induction nf as [|line nf IH]; intros size chunks Hs Hm; cbn [collect].
  { split; [by exists []|lia]. }
  rewrite reverse_cons, concat_app; cbn [concat]; rewrite app_nil_r.
  destruct (Z.ltb_spec max_bytes (size + len line)) as [Hbig|Hfit].
  - assert (exists older, (concat (reverse nf) ++ line) ++ concat chunks = older ++ concat chunks) as Hc
      by by eexists.
    destruct ((size =? 0) && (max_bytes <? len line)) eqn:E; [|split; [done|lia]]; bools.
    apply Z.eqb_eq in H; apply Z.ltb_lt in H0.
    set (offset := skip_continuation 3 _ line); destruct (offset <? length line)%nat eqn:Eo; [|split; [done|lia]].
    pose proof (skip_continuation_bounds 3 (Z.to_nat (len line - max_bytes)) line) as Hb; fold offset in Hb.
    cbn [concat]; split.
    + exists (concat (reverse nf) ++ take offset line).
      rewrite <- (take_drop offset line) at 1; by rewrite <- !(assoc_L (++)).
    + unfold len in *; rewrite length_app, length_drop; lia.
  - destruct (IH (size + len line) (line :: chunks)) as [[older Ho] Hl]; [|lia|].
    + subst size; unfold len; cbn [concat]; rewrite length_app; lia.
    + split; [|done]; exists older; rewrite <- Ho; by rewrite <- (assoc_L (++)).
Qed.

Lemma get_recent_spec max_bytes s : 0 <= max_bytes ->
  (exists older, contents s = older ++ get_recent max_bytes s) /\ len (get_recent max_bytes s) <= max_bytes.
Proof.
  intros Hm; unfold get_recent; destruct (Z.eqb_spec max_bytes 0) as [->|Hne].
  { split; [exists (contents s); by rewrite app_nil_r|done]. }
  destruct (collect_spec (reverse (lines s)) max_bytes 0 []) as [[older Ho] Hl]; [done|lia|].
  split; [|done]; exists older; by rewrite reverse_involutive, app_nil_r in Ho.
Qed.

Lemma appends_suffix ds : forall s s', appends ds s = Some s' -> Forall (fun l => l <> []) (lines s) ->
  exists gone, contents s ++ concat ds = gone ++ contents s'.
Proof.
  induction ds as [|d ds IH]; intros s s' Ha Hn; simpl in Ha.
  { injection Ha as <-; exists []; simpl; by rewrite app_nil_r. }
  destruct (append d s) as [s1|] eqn:E; [|done]; simpl in Ha.
  destruct (append_suffix d s s1 E Hn) as [[gone1 Hg1] Hn1]; destruct (IH s1 s' Ha Hn1) as [gone2 Hg2].
  exists (gone1 ++ gone2); cbn [concat]; by rewrite (assoc_L (++)), Hg1, <- (assoc_L (++)), Hg2, (assoc_L (++)).
Qed.

(** What is replayed to a client that reconnects is the most recent output:
    whatever the chunks in which a terminal produced its output, the replay of
    at most [max_bytes] is a suffix of all of it, no byte lost, repeated or
    out of order, and is no longer than asked for. *)
Theorem replay_is_recent ds s max_bytes : appends ds new = Some s -> 0 <= max_bytes ->
  (exists older, concat ds = older ++ get_recent max_bytes s) /\ len (get_recent max_bytes s) <= max_bytes.
Proof.
  intros Ha Hm; destruct (get_recent_spec max_bytes s Hm) as [[older Ho] Hl]; split; [|done].
  destruct (appends_suffix ds new s Ha ltac:(constructor)) as [gone Hg]; simpl in Hg.
  exists (gone ++ older); rewrite Hg, Ho; by rewrite (assoc_L (++)).
Qed.

(** Bytes of a text. *)
Definition text (t : string) : bytes := String.list_byte_of_string t.
Definition lf : bytes := [Byte.x0a].

Lemma replay_is_recent_witness :
  let ds := [text "one" ++ lf ++ text "tw"; text "o" ++ lf ++ text "three" ++ lf; text "fo"; text "ur"] in
  exists s, appends ds new = Some s /\ get_recent 12 s = text "three" ++ lf ++ text "four" /\
  exists older, concat ds = older ++ get_recent 12 s.
Proof.
  intros ds; eexists; split; [vm_compute; reflexivity|]; split; [vm_compute; reflexivity|].
  refine (proj1 (replay_is_recent ds _ 12 _ _)); [vm_compute; reflexivity|lia].
Defined.

(** A replay that fits leaves nothing out. *)
Lemma collect_all nf max_bytes size chunks : size + len (concat nf) <= max_bytes ->
  concat (collect nf max_bytes size chunks) = concat (reverse nf) ++ concat chunks.
Proof.
  revert size chunks; induction nf as [|line nf IH]; intros size chunks Hf; cbn [collect]; [done|].
  unfold len in Hf; cbn [concat] in Hf; rewrite length_app in Hf.
  replace (max_bytes <? size + len line) with false by (symmetry; apply Z.ltb_ge; unfold len; lia).
  rewrite IH by (unfold len; lia); rewrite reverse_cons, concat_app; cbn [concat].
  by rewrite app_nil_r, <- (assoc_L (++)).
Qed.

Lemma concat_reverse_len (ls : list bytes) : len (concat (reverse ls)) = len (concat ls).
Proof.
  unfold len; induction ls as [|l ls IH]; [done|]; rewrite reverse_cons, concat_app; cbn [concat].
  rewrite !length_app; cbn [length]; lia.
Qed.

Lemma replay_complete max_bytes s : 0 < max_bytes -> len (contents s) <= max_bytes ->
  get_recent max_bytes s = contents s.
Proof.
  intros Hm Hc; unfold get_recent; replace (max_bytes =? 0) with false by (symmetry; apply Z.eqb_neq; lia).
  rewrite collect_all; [by rewrite reverse_involutive, app_nil_r|].
  rewrite concat_reverse_len; unfold contents in Hc; lia.
Qed.

(** ** The limits *)

(** The size that is tracked is the size of the lines. *)
Definition accounted (s : OutputBuffer) : Prop := total_size s = len (contents s).

Lemma len_nonneg {A} (l : list A) : 0 <= len l.
Proof. unfold len; lia. Qed.

Lemma len_concat_cons (l : bytes) ls : len (concat (l :: ls)) = len l + len (concat ls).
Proof. unfold len; cbn [concat]; rewrite length_app; lia. Qed.

Lemma wrap_id x : 0 <= x <= u64_max -> wrap_u64 x = x.
Proof. intros H; apply Z.mod_small; unfold u64_max in H; lia. Qed.

Lemma pushed_total (ls : list bytes) n : 0 <= n -> n + len (concat ls) <= u64_max ->
  foldl (fun n l => wrap_u64 (n + len l)) n ls = n + len (concat ls).
Proof.
  revert n; induction ls as [|l ls IH]; intros n H0 Hn; [unfold len; simpl; lia|].
  rewrite len_concat_cons in Hn |- *; pose proof (len_nonneg l); pose proof (len_nonneg (concat ls)).
  cbn [foldl]; rewrite wrap_id, IH by lia; lia.
Qed.

(** With the true size, the loop ends with the limits respected. *)
Lemma trim_accounted ls : len (concat ls) <= u64_max ->
  exists ls', trim ls (len (concat ls)) = Some (ls', len (concat ls')) /\
    len (concat ls') <= MAX_OUTPUT_BUFFER_SIZE /\ len ls' <= MAX_BUFFER_LINES.
Proof.
  induction ls as [|l ls IH]; intros Hu; cbn [trim].
  { exists []; split_and!; done. }
  destruct (_ || _) eqn:E.
  - rewrite len_concat_cons in Hu |- *; pose proof (len_nonneg l); pose proof (len_nonneg (concat ls)).
    replace (len l + len (concat ls) - len l) with (len (concat ls)) by lia.
    rewrite wrap_id by lia; apply IH; lia.
  - bools; apply Z.ltb_ge in H, H0; by exists (l :: ls).
Qed.

Lemma append_rest_accounted rem s : accounted s -> len (contents s) + len rem <= u64_max ->
  exists s', append_rest rem s = Some s' /\ accounted s' /\
    len (contents s') <= MAX_OUTPUT_BUFFER_SIZE /\ len (lines s') <= MAX_BUFFER_LINES /\
    last_line_incomplete s' =
      last_line_incomplete s || (negb (ends_with_newline rem) &&
        is_some_and (last (split rem)) (fun p => negb (bool_decide (p = [])))).
Proof.
  intros Ha Hu; unfold append_rest.
  destruct (push_parts_spec (ends_with_newline rem) (split rem) s) as (Hl & Ht & Hi).
  pose proof (pieces_concat rem) as Hp; pose proof (len_nonneg (contents s)).
  rewrite pushed_total in Ht by (rewrite ?Hp, Ha; lia); rewrite Hp, Ha in Ht.
  assert (len (concat (lines (push_parts (ends_with_newline rem) (split rem) s))) = len (contents s) + len rem) as Hc.
  { rewrite Hl, concat_app, Hp; unfold contents, len; rewrite length_app; lia. }
  rewrite Ht, <- Hc; destruct (trim_accounted (lines (push_parts (ends_with_newline rem) (split rem) s)))
    as (ls' & -> & ? & ?); [lia|]; simpl.
  eexists; split_and!; [done|done|done|done|exact Hi].
Qed.

(** Output that arrives in whole lines is kept within the limits: if each
    chunk ends with a newline, every [append] returns, the tracked size is the
    true one, and the buffer holds at most a mebibyte and ten thousand lines. *)
Theorem whole_lines_bounded ds :
  Forall (fun d => ends_with_newline d = true /\ len d <= i64_max) ds ->
  exists s, appends ds new = Some s /\ total_size s = len (contents s) /\
    len (contents s) <= MAX_OUTPUT_BUFFER_SIZE /\ len (lines s) <= MAX_BUFFER_LINES.
Proof.
  assert (forall ds s, accounted s -> last_line_incomplete s = false ->
    len (contents s) <= MAX_OUTPUT_BUFFER_SIZE -> len (lines s) <= MAX_BUFFER_LINES ->
    Forall (fun d => ends_with_newline d = true /\ len d <= i64_max) ds ->
    exists s', appends ds s = Some s' /\ total_size s' = len (contents s') /\
      len (contents s') <= MAX_OUTPUT_BUFFER_SIZE /\ len (lines s') <= MAX_BUFFER_LINES) as H;
    [|by intros Hd; apply H].
  clear ds; induction ds as [|d ds IH]; intros s Ha Hi Hc Hl Hd; [by exists s|].
  apply Forall_cons in Hd as [[He Hd] Hds].
  destruct (append_rest_accounted d s Ha) as (s1 & Hs1 & Ha1 & Hc1 & Hl1 & Hi1).
  { unfold MAX_OUTPUT_BUFFER_SIZE, i64_max, u64_max in *; lia. }
  destruct (IH s1 Ha1) as (s' & Hs' & ?); [by rewrite Hi1, Hi, He|done..|].
  exists s'; split; [|done]; cbn [appends].
  assert (append d s = append_rest d s) as -> by (unfold append; rewrite Hi; by destruct d).
  by rewrite Hs1.
Qed.

Lemma whole_lines_bounded_witness :
  exists s, appends [text "one" ++ lf; text "two" ++ lf ++ text "three" ++ lf] new = Some s /\
    total_size s = 14.
Proof.
  destruct (whole_lines_bounded [text "one" ++ lf; text "two" ++ lf ++ text "three" ++ lf])
    as (s & Hs & Ht & _); [by repeat constructor|].
  exists s; split; [done|]; rewrite Ht; vm_compute in Hs; injection Hs as <-; by vm_compute.
Defined.

(** ** Where the limits fail *)

(** The part of a chunk that completes a line is not counted. *)
Lemma completion_not_counted d s : last_line_incomplete s = true -> lines s <> [] ->
  newline_pos d = Some (length d - 1)%nat -> (1 <= length d)%nat ->
  append d s = ('(ls, total) ← trim (extend_last d (lines s)) (total_size s);
                Some (s <| lines := ls |> <| total_size := total |> <| last_line_incomplete := false |>)).
Proof.
  intros Hi Hl Hp Hd; unfold append; destruct d as [|b d]; [simpl in Hd; lia|].
  rewrite Hi, Hp; destruct (lines s) as [|l ls] eqn:El; [done|].
  replace (length (b :: d) - 1 + 1)%nat with (length (b :: d)) by (simpl; lia).
  rewrite take_ge, drop_ge by lia; unfold append_rest; simpl; rewrite El; by destruct (trim _ _) as [[? ?]|].
Qed.

(** One line without an end is never trimmed: chunks that hold no newline grow
    the buffer past any limit. *)
Lemma endless_line_grows d n s : newline_pos d = None -> d <> [] ->
  last_line_incomplete s = true -> lines s <> [] ->
  exists s', appends (replicate n d) s = Some s' /\ len (contents s') = len (contents s) + Z.of_nat n * len d.
Proof.
  intros Hp Hd; revert s; induction n as [|n IH]; intros s Hi Hl; [exists s; split; [done|lia]|].
  cbn [replicate appends]; unfold append at 1; destruct d as [|b d0] eqn:Ed; [done|]; rewrite <- Ed in *.
  destruct (lines s) as [|l ls] eqn:El; [done|]; rewrite Hi, Hp; simpl.
  set (s1 := s <| lines ::= extend_last d |> <| total_size ::= fun n => wrap_u64 (n + len d) |>).
  assert (contents s1 = contents s ++ d) as Hc
    by (unfold contents, s1; simpl; rewrite El; by apply extend_last_concat).
  destruct (IH s1) as (s' & Hs & Hn); [done| |].
  - unfold s1; simpl; rewrite El; intros H0; apply (f_equal length) in H0.
    unfold extend_last in H0; rewrite length_alter in H0; done.
  - exists s'; split; [done|]; rewrite Hn, Hc; unfold len; rewrite length_app; lia.
Qed.

(** Once the tracked size is below the size of the lines that the line limit
    makes the loop remove, it wraps around and the loop removes everything and
    does not end. *)
Lemma trim_wrapped ls total : len (concat ls) <= i64_max -> u64_max - i64_max <= total - len (concat ls) ->
  total <= u64_max -> trim ls total = None.
Proof.
  revert total; induction ls as [|l ls IH]; intros total Hc Ht Hu; cbn [trim].
  - replace (MAX_OUTPUT_BUFFER_SIZE <? total) with true; [done|]; symmetry; apply Z.ltb_lt.
    unfold MAX_OUTPUT_BUFFER_SIZE, u64_max, i64_max, len in *; simpl in *; lia.
  - rewrite len_concat_cons in Hc, Ht; pose proof (len_nonneg l); pose proof (len_nonneg (concat ls)).
    replace (MAX_OUTPUT_BUFFER_SIZE <? total) with true
      by (symmetry; apply Z.ltb_lt; unfold MAX_OUTPUT_BUFFER_SIZE, u64_max, i64_max in *; lia).
    simpl; rewrite wrap_id by (unfold i64_max, u64_max in *; lia); apply IH; lia.
Qed.

Lemma trim_underflow gone ls total : len ls = MAX_BUFFER_LINES ->
  0 <= total < len (concat gone) -> len (concat (gone ++ ls)) <= i64_max ->
  trim (gone ++ ls) total = None.
Proof.
  intros Hls; revert total; induction gone as [|l gone IH]; intros total Ht Hc; [unfold len in Ht; simpl in Ht; lia|].
  cbn [app] in *; rewrite len_concat_cons in Ht, Hc; cbn [trim].
  pose proof (len_nonneg l); pose proof (len_nonneg (concat gone)); pose proof (len_nonneg (concat ls)).
  assert (len (concat (gone ++ ls)) = len (concat gone) + len (concat ls))
    by (unfold len; rewrite concat_app, length_app; lia).
  replace (MAX_BUFFER_LINES <? len (l :: gone ++ ls)) with true
    by (symmetry; apply Z.ltb_lt; unfold len in *; cbn [length]; rewrite length_app; lia).
  rewrite orb_true_r; destruct (Z.le_gt_cases (len l) total) as [Hle|Hgt].
  - rewrite wrap_id by (unfold i64_max, u64_max in *; lia); apply IH; lia.
  - replace (wrap_u64 (total - len l)) with (total - len l + (u64_max + 1)).
    + apply trim_wrapped; unfold i64_max, u64_max in *; lia.
    + unfold wrap_u64; rewrite <- (Z.mod_add _ 1) by done.
      rewrite Z.mod_small; unfold i64_max, u64_max in *; lia.
Qed.

Lemma append_newlines m s : last_line_incomplete s = false -> (0 < m)%nat ->
  0 <= total_size s -> total_size s + Z.of_nat m <= u64_max ->
  append (replicate m Byte.x0a) s =
  ('(ls, total) ← trim (lines s ++ replicate m lf) (total_size s + Z.of_nat m);
   Some (s <| lines := ls |> <| total_size := total |>)).
Proof.
  intros Hi Hm H0 Ht.
  assert (split (replicate m Byte.x0a) = replicate (S m) []) as Hs by (clear; induction m; simpl in *; congruence).
  assert (ends_with_newline (replicate m Byte.x0a) = true) as He.
  { unfold ends_with_newline; destruct m as [|m]; [lia|]; by rewrite replicate_S_end, last_snoc. }
  assert (forall m, pieces true (replicate (S m) []) = replicate m lf) as Hp.
  { clear; induction m as [|m IH]; [done|]; change (replicate (S (S m)) []) with ([] :: replicate (S m) ([] : bytes)).
    change (pieces true ([] :: replicate (S m) [])) with (lf :: pieces true (replicate (S m) [])); by rewrite IH. }
  assert (len (concat (replicate m lf)) = Z.of_nat m) as Hc
    by (clear; unfold len; induction m; [done|]; cbn [replicate concat]; rewrite length_app; unfold lf at 1; simpl in *; lia).
  assert (append (replicate m Byte.x0a) s = append_rest (replicate m Byte.x0a) s) as ->
    by (unfold append; rewrite Hi; by destruct m).
  unfold append_rest; rewrite He, Hs.
  destruct (push_parts_spec true (replicate (S m) []) s) as (Hl & Htot & Hinc); rewrite Hp in Hl, Htot.
  rewrite pushed_total, Hc in Htot by lia; rewrite Hl, Htot.
  destruct (trim _ _) as [[ls total]|]; [|done]; simpl; do 2 f_equal.
  simpl in Hinc; rewrite orb_false_r in Hinc.
  destruct (push_parts _ _ _); simpl in *; by subst.
Qed.

Lemma trim_within ls total : total <= MAX_OUTPUT_BUFFER_SIZE -> len ls <= MAX_BUFFER_LINES ->
  trim ls total = Some (ls, total).
Proof.
  intros Ht Hl; destruct ls; cbn [trim]; by rewrite (proj2 (Z.ltb_ge _ _) Ht), (proj2 (Z.ltb_ge _ _) Hl).
Qed.

(** A long line that arrives in two chunks is counted by its first chunk. *)
Definition split_line : list bytes := [text "x"; replicate 4095 Byte.x79 ++ lf].
Definition split_lines : list bytes := split_line ++ split_line ++ split_line.

(** A chunk of newlines, and the lines it becomes. *)
Definition blank (m : Z) : bytes := replicate (Z.to_nat m) Byte.x0a.
Definition blank_lines (m : Z) : list bytes := replicate (Z.to_nat m) lf.

Lemma len_app {A} (a b : list A) : len (a ++ b) = len a + len b.
Proof. unfold len; rewrite length_app; lia. Qed.
Lemma len_blank_lines m : 0 <= m -> len (blank_lines m) = m.
Proof. intros; unfold len, blank_lines; rewrite length_replicate; lia. Qed.
Lemma blank_lines_add m n : 0 <= m -> 0 <= n -> blank_lines (m + n) = blank_lines m ++ blank_lines n.
Proof. intros; unfold blank_lines; rewrite Z2Nat.inj_add by done; apply replicate_add. Qed.
Lemma len_blank_text m : 0 <= m -> len (concat (blank_lines m)) = m.
Proof.
  intros Hm; unfold blank_lines; rewrite <- (Z2Nat.id m) at 2 by done; generalize (Z.to_nat m) as n; clear.
  unfold len; induction n; [done|]; cbn [replicate concat]; rewrite length_app; unfold lf at 1; simpl in *; lia.
Qed.

Lemma append_blank m s : last_line_incomplete s = false -> 0 < m ->
  0 <= total_size s -> total_size s + m <= u64_max ->
  append (blank m) s =
  ('(ls, total) ← trim (lines s ++ blank_lines m) (total_size s + m);
   Some (s <| lines := ls |> <| total_size := total |>)).
Proof. intros; unfold blank; rewrite append_newlines by (done || lia); by rewrite Z2Nat.id by lia. Qed.

(** The state after [m] such lines on top of some. *)
Definition with_blank (ls : list bytes) (total m : Z) : OutputBuffer :=
  {| lines := ls ++ blank_lines m; total_size := total + m; last_line_incomplete := false |}.

Lemma append_blank_within ls total k m : 0 <= k -> 0 < m -> 0 <= total ->
  total + k + m <= MAX_OUTPUT_BUFFER_SIZE -> len ls + k + m <= MAX_BUFFER_LINES ->
  append (blank m) (with_blank ls total k) = Some (with_blank ls total (k + m)).
Proof.
  intros Hk Hm Ht Hs Hl; unfold with_blank.
  rewrite append_blank; simpl lines; simpl total_size; simpl last_line_incomplete;
    [|done|done|lia|unfold MAX_OUTPUT_BUFFER_SIZE, u64_max in *; lia].
  rewrite <- (assoc_L (++)), <- blank_lines_add by lia.
  rewrite trim_within; [by rewrite <- Z.add_assoc|lia|].
  rewrite len_app, len_blank_lines; lia.
Qed.

Lemma append_blank_hangs ls total k m : 0 <= k -> 0 < m -> 0 <= total ->
  k + m = MAX_BUFFER_LINES -> total + k + m < len (concat ls) -> len (concat ls) + k + m <= i64_max ->
  append (blank m) (with_blank ls total k) = None.
Proof.
  intros Hk Hm Ht Hs Hl Hu; unfold with_blank.
  rewrite append_blank; simpl lines; simpl total_size; simpl last_line_incomplete;
    [|done|done|lia|unfold i64_max, u64_max in *; lia].
  rewrite <- (assoc_L (++)), <- blank_lines_add by lia.
  rewrite trim_underflow; [done| |lia|].
  - rewrite len_blank_lines; lia.
  - rewrite concat_app, len_app, len_blank_text; lia.
Qed.

Lemma appends_app ds ds' s s' : appends ds s = Some s' -> appends (ds ++ ds') s = appends ds' s'.
Proof.
  revert s; induction ds as [|d ds IH]; intros s H; simpl in H |- *; [by simplify_eq|].
  destruct (append d s); [|done]; simpl in H |- *; by apply IH.
Qed.

Lemma appends_two_blanks ls total a b : 0 < a -> 0 < b -> 0 <= total ->
  total + a + b <= MAX_OUTPUT_BUFFER_SIZE -> len ls + a + b <= MAX_BUFFER_LINES ->
  appends [blank a; blank b] (with_blank ls total 0) = Some (with_blank ls total (a + b)).
Proof.
  intros Ha Hb Ht Hs Hl; cbn [appends]; rewrite append_blank_within by lia; rewrite Z.add_0_l.
  cbn [mbind option_bind]; by rewrite append_blank_within by lia.
Qed.

Lemma hanging ds l total a b c : appends ds new = Some (with_blank l total 0) ->
  0 < a -> 0 < b -> 0 < c -> 0 <= total -> total + a + b <= MAX_OUTPUT_BUFFER_SIZE ->
  len l + a + b <= MAX_BUFFER_LINES -> a + b + c = MAX_BUFFER_LINES ->
  total + a + b + c < len (concat l) -> len (concat l) + a + b + c <= i64_max ->
  exists s, appends (ds ++ [blank a; blank b]) new = Some s /\ append (blank c) s = None.
Proof.
  intros Hs Ha Hb Hc Ht Hm Hl He Hu Hi; exists (with_blank l total (a + b)); split.
  - rewrite (appends_app _ _ _ _ Hs); by apply appends_two_blanks.
  - apply append_blank_hangs; lia.
Qed.

(** Three such lines, then ten thousand short ones, in chunks of at most the
    4096 bytes the reader takes at once: [append] does not return.  A debug
    build panics there instead. *)
Lemma output_can_hang : exists s,
  appends (split_lines ++ [blank 4000; blank 4000]) new = Some s /\ append (blank 2000) s = None.
Proof.
  assert (exists l, appends split_lines new = Some (with_blank [l; l; l] 3 0) /\ len l = 4097)
    as (l & Hs & Hl) by (exists (text "x" ++ replicate 4095 Byte.x79 ++ lf); by vm_compute).
  assert (len (concat [l; l; l]) = 12291) as Hc by (cbn [concat]; rewrite !len_app, Hl; done).
  apply (hanging split_lines [l; l; l] 3); rewrite ?Hc;
    unfold MAX_OUTPUT_BUFFER_SIZE, MAX_BUFFER_LINES, i64_max; (done || lia).
Qed.
