(* ===== verification/Terminal.v ===== *)
(** * Terminals that outlive a connection

    Models src/src/server/terminal_service.rs in a Linux build: the sessions of
    a terminal service, the registry of services, the actions of a client and
    [read_outputs], which streams the output of the sessions and redraws a
    full-screen program after a reconnection by resizing its terminal twice.

    The pseudo-terminal, the shell and the threads that read and write it are
    outside; what the code does to them is an [Effect], and what it learns of
    them ([Poll], [Spawn]) an argument.  A session that is dropped is stopped
    first, as its [Drop] does.  [read_outputs] gives [None] when the buffer of
    a session does not return (file TerminalBuffer). *)

From S2P Require Import Prelude TerminalBuffer.

Definition MAX_SERVICES : nat := 100.
Definition SERVICE_IDLE_TIMEOUT : duration := from_secs 3600.
Definition COMPRESS_THRESHOLD : Z := 512.
Definition DEFAULT_RECONNECT_BUFFER_BYTES : Z := 8 * 1024.
Definition MAX_SIGWINCH_PHASE_ATTEMPTS : nat := 3.

(** ** Sessions *)

Inductive SigwinchPhase := Idle | TempResize (retries : nat) | Restore (retries : nat).
Inductive SigwinchAction := DoTempResize | DoRestore.
Inductive SessionState :=
  | Closed
  | Active (pending_buffer : option bytes) (sigwinch : SigwinchPhase).

(** What the code does to the terminal and its child. *)
Inductive Effect :=
  | WriteInput (data : bytes)
  | Resize (rows cols : Z)
  | Kill
  | Reap.

(** The handles of threads, channels and the terminal are present or not. *)
Record TerminalSession := {
  s_created_at : instant;
  s_last_activity : instant;
  pty_pair : bool;
  child : bool;
  input_tx : bool;
  output_rx : bool;
  exiting : bool;
  reader_thread : bool;
  writer_thread : bool;
  output_buffer : OutputBuffer;
  title : string;
  pid : Z;
  rows : Z;
  cols : Z;
  closed_message_sent : bool;
  state : SessionState;
}.
#[export] Instance eta_TerminalSession : Eta TerminalSession := fun r =>
  Build_TerminalSession (s_created_at r) (s_last_activity r) (pty_pair r) (child r) (input_tx r)
    (output_rx r) (exiting r) (reader_thread r) (writer_thread r) (output_buffer r) (title r)
    (pid r) (rows r) (cols r) (closed_message_sent r) (state r).

Definition as_u16 (n : Z) : Z := n mod 65536.

Definition new_session (title : string) (rows cols : Z) (now : instant) : TerminalSession :=
  {| s_created_at := now; s_last_activity := now; pty_pair := false; child := false; input_tx := false;
     output_rx := false; exiting := false; reader_thread := false; writer_thread := false;
     output_buffer := TerminalBuffer.new; title := title; pid := 0; rows := rows; cols := cols;
     closed_message_sent := false; state := Closed |}.

Definition crlf : bytes := [Byte.x0d; Byte.x0a].

Definition stop (s : TerminalSession) : list Effect * TerminalSession :=
  ((if input_tx s then [WriteInput crlf] else []) ++ (if child s then [Kill; Reap] else []),
   s <| state := Closed |> <| exiting := true |> <| input_tx := false |> <| output_rx := false |>
     <| pty_pair := false |> <| reader_thread := false |> <| writer_thread := false |> <| child := false |>).

(** ** Services *)

Record PersistentTerminalService := {
  service_id : string;
  sessions : gmap Z TerminalSession;
  created_at : instant;
  last_activity : instant;
  is_persistent : bool;
  needs_session_sync : bool;
  is_specified_user : bool;
}.
#[export] Instance eta_PersistentTerminalService : Eta PersistentTerminalService := fun r =>
  Build_PersistentTerminalService (service_id r) (sessions r) (created_at r) (last_activity r)
    (is_persistent r) (needs_session_sync r) (is_specified_user r).

Definition new_service (id : string) (persistent specified_user : bool) (now : instant)
    : PersistentTerminalService :=
  {| service_id := id; sessions := ∅; created_at := now; last_activity := now;
     is_persistent := persistent; needs_session_sync := false; is_specified_user := specified_user |}.

Definition get_terminal_buffer (id max_bytes : Z) (sv : PersistentTerminalService) : option bytes :=
  (fun s => get_recent max_bytes (output_buffer s)) <$> sessions sv !! id.
Definition get_terminal_info (id : Z) (sv : PersistentTerminalService) : option (Z * Z * bytes) :=
  (fun s => (rows s, cols s, get_recent DEFAULT_RECONNECT_BUFFER_BYTES (output_buffer s)))
    <$> sessions sv !! id.
Definition list_terminals (sv : PersistentTerminalService) : list (Z * string * Z * instant) :=
  (fun p => (p.1, title p.2, pid p.2, s_created_at p.2)) <$> map_to_list (sessions sv).
Definition has_active_terminals (sv : PersistentTerminalService) : bool := bool_decide (sessions sv <> ∅).

Definition reset_status (persistent : bool) (sv : PersistentTerminalService) : PersistentTerminalService :=
  sv <| is_persistent := persistent |> <| needs_session_sync := true |>
     <| sessions ::= fmap (fun s => s <| state := Closed |>) |>.

(** [TERMINAL_SERVICES] *)
Abbreviation Registry := (gmap string PersistentTerminalService).

(** [None]: the maximum number of services is reached. *)
Definition get_or_create_service (id : string) (persistent specified_user : bool) (now : instant)
    (r : Registry) : option Registry :=
  if negb (is_some (r !! id)) && (MAX_SERVICES <=? base.size r)%nat then None
  else
    let sv := unwrap_or (r !! id) (new_service id persistent specified_user now) in
    Some (<[id := reset_status persistent sv]> r).

Definition remove_service (id : string) (r : Registry) : list Effect * Registry :=
  match r !! id with
  | Some sv => (map_to_list (sessions sv) ≫= (fun p => (stop p.2).1), delete id r)
  | None => ([], r)
  end.

Definition set_persistent (id : string) (persistent : bool) (r : Registry) : option Registry :=
  sv ← r !! id; Some (<[id := sv <| is_persistent := persistent |>]> r).

Definition inactive (now : instant) (sv : PersistentTerminalService) : bool :=
  let idle := since now (last_activity sv) in
  (negb (is_persistent sv) && (SERVICE_IDLE_TIMEOUT <? idle)) ||
  (is_persistent sv && bool_decide (sessions sv = ∅) && (SERVICE_IDLE_TIMEOUT * 2 <? idle)).

(** The list is made under the lock of the registry, which is released before
    the services are removed one by one; nothing is checked again. *)
Definition inactive_services (now : instant) (r : Registry) : list string :=
  (filter (fun p => inactive now p.2 = true) (map_to_list r)).*1.
Definition cleanup_inactive_services (now : instant) (r : Registry) : list Effect * Registry :=
  foldl (fun '(e, r) id => let '(e', r) := remove_service id r in (e ++ e', r)) ([], r)
    (inactive_services now r).

Definition is_service_specified_user (id : string) (r : Registry) : option bool :=
  is_specified_user <$> r !! id.
Definition list_services (r : Registry) : list (string * instant * nat * bool) :=
  (fun p => (p.1, created_at p.2, base.size (sessions p.2), is_persistent p.2)) <$> map_to_list r.

(** The zombies: what [try_wait] reports of each, [Some] if it is over. *)
Definition check_zombie_terminals {A} (over : A -> bool) (tasks : list A) : list A :=
  filter (fun t => over t = false) tasks.

(** ** Messages *)

Record OpenTerminal := { o_terminal_id : Z; o_rows : Z; o_cols : Z }.
Record ResizeTerminal := { r_terminal_id : Z; r_rows : Z; r_cols : Z }.
Record TerminalData := { d_terminal_id : Z; d_data : bytes; d_compressed : bool }.
Record CloseTerminal := { c_terminal_id : Z }.

Inductive TerminalAction :=
  | ActOpen (o : OpenTerminal)
  | ActResize (r : ResizeTerminal)
  | ActData (d : TerminalData)
  | ActClose (c : CloseTerminal)
  | ActOther.

Inductive TerminalResponse :=
  | Opened (terminal_id pid : Z) (service : string) (persistent_sessions : list Z)
  | Data (d : TerminalData)
  | ClosedTerminal (terminal_id exit_code : Z)
  | TerminalError.

(** ** Actions *)

(** What opening a terminal came to: an error on the way, or the pid of the
    shell. *)
Inductive Spawn := SpawnError | Spawned (pid : Z).

(** The key of the session that a client that reconnects takes over. *)
Definition lowest_id (m : gmap Z TerminalSession) : option Z :=
  match (map_to_list m).*1 with
  | [] => None
  | k :: ks => Some (foldl Z.min k ks)
  end.

Definition remap (id : Z) (sv : PersistentTerminalService) : PersistentTerminalService :=
  if negb (is_some (sessions sv !! id)) && needs_session_sync sv && bool_decide (sessions sv <> ∅) then
    match lowest_id (sessions sv) with
    | Some low =>
        match sessions sv !! low with
        | Some s => sv <| sessions ::= fun m => <[id := s]> (delete low m) |>
        | None => sv
        end
    | None => sv
    end
  else sv.

(** The reconnection of a session. *)
Definition reconnect (s : TerminalSession) : TerminalSession :=
  let buffer := get_recent DEFAULT_RECONNECT_BUFFER_BYTES (output_buffer s) in
  s <| state := Active (match buffer with [] => None | _ => Some buffer end)
                       (TempResize MAX_SIGWINCH_PHASE_ATTEMPTS) |>.

(** The error of the result is [None]. *)
Definition handle_open (proxy_id : string) (title : string) (spawn : Spawn) (now : instant)
    (o : OpenTerminal) (sv : PersistentTerminalService)
    : option TerminalResponse * PersistentTerminalService :=
  let id := o_terminal_id o in
  let sv := remap id sv in
  match sessions sv !! id with
  | Some s =>
      let sv := sv <| sessions ::= <[id := reconnect s]> |> in
      let others :=
        if needs_session_sync sv && (1 <? base.size (sessions sv))%nat
        then filter (fun k => k <> id) (map_to_list (sessions sv)).*1 else [] in
      (Some (Opened id (pid s) proxy_id others), sv <| needs_session_sync := false |>)
  | None =>
      match spawn with
      | SpawnError => (None, sv)
      | Spawned p =>
          let s := new_session title (as_u16 (o_rows o)) (as_u16 (o_cols o)) now in
          let s := s <| pid := p |> <| pty_pair := true |> <| child := true |> <| input_tx := true |>
                     <| output_rx := true |> <| reader_thread := true |> <| writer_thread := true |>
                     <| state := Active None Idle |> in
          let others := if needs_session_sync sv then (map_to_list (sessions sv)).*1 else [] in
          (Some (Opened id p (service_id sv) others),
           sv <| needs_session_sync := false |> <| sessions ::= <[id := s]> |>)
      end
  end.

(** The session is changed even when the resize of the terminal fails. *)
Definition handle_resize (resize_ok : bool) (now : instant) (m : ResizeTerminal)
    (sv : PersistentTerminalService) : bool * list Effect * PersistentTerminalService :=
  match sessions sv !! r_terminal_id m with
  | Some s =>
      let r := as_u16 (r_rows m) in let c := as_u16 (r_cols m) in
      let s := s <| s_last_activity := now |> <| rows := r |> <| cols := c |> in
      (if pty_pair s then resize_ok else true, if pty_pair s then [Resize r c] else [],
       sv <| sessions ::= <[r_terminal_id m := s]> |>)
  | None => (true, [], sv)
  end.

Definition handle_data (now : instant) (d : TerminalData) (sv : PersistentTerminalService)
    : list Effect * PersistentTerminalService :=
  match sessions sv !! d_terminal_id d with
  | Some s =>
      (if input_tx s then [WriteInput (d_data d)] else [],
       sv <| sessions ::= <[d_terminal_id d := s <| s_last_activity := now |>]> |>)
  | None => ([], sv)
  end.

(** The outer [None] is the error of [kill]; the session is dropped either way. *)
Definition handle_close (kill_ok : bool) (c : CloseTerminal) (sv : PersistentTerminalService)
    : option (option TerminalResponse) * list Effect * PersistentTerminalService :=
  let id := c_terminal_id c in
  match sessions sv !! id with
  | Some s =>
      let sv := sv <| sessions ::= delete id |> in
      let dropped := (stop (s <| child := false |>)).1 in
      if child s then
        if kill_ok then (Some (Some (ClosedTerminal id (-1))), [Kill; Reap] ++ dropped, sv)
        else (None, [Kill] ++ dropped, sv)
      else (Some (Some (ClosedTerminal id 0)), dropped, sv)
  | None => (Some None, [], sv)
  end.

(** What the environment answers to an action. *)
Record ActionEnv := { a_now : instant; a_title : string; a_spawn : Spawn; a_resize_ok : bool; a_kill_ok : bool }.

Inductive ActionResult := NoResponse | Response (r : TerminalResponse) | ActionError.
Definition of_option (o : option TerminalResponse) : ActionResult :=
  match o with Some r => Response r | None => NoResponse end.

(** [handle_action] of the proxy of service [id]. *)
Definition handle_action (id : string) (e : ActionEnv) (a : TerminalAction) (r : Registry)
    : ActionResult * list Effect * Registry :=
  match r !! id with
  | None => (Response TerminalError, [], r)
  | Some sv =>
      let sv := sv <| last_activity := a_now e |> in
      match a with
      | ActOpen o =>
          let '(resp, sv) := handle_open id (a_title e) (a_spawn e) (a_now e) o sv in
          (match resp with Some m => Response m | None => ActionError end, [], <[id := sv]> r)
      | ActResize m =>
          let '(ok, eff, sv) := handle_resize (a_resize_ok e) (a_now e) m sv in
          (if ok then NoResponse else ActionError, eff, <[id := sv]> r)
      | ActData d => let '(eff, sv) := handle_data (a_now e) d sv in (NoResponse, eff, <[id := sv]> r)
      | ActClose c =>
          let '(resp, eff, sv) := handle_close (a_kill_ok e) c sv in
          (match resp with Some o => of_option o | None => ActionError end, eff, <[id := sv]> r)
      | ActOther => (NoResponse, [], <[id := sv]> r)
      end
  end.

(** ** Streaming *)

Section streaming.
(** [compress] of the library, which takes and gives bytes. *)
Variable compress : bytes -> bytes.

Definition create_terminal_data_response (id : Z) (data : bytes) : TerminalResponse :=
  Data
    (if COMPRESS_THRESHOLD <? len data then
       let compressed := compress data in
       if len compressed <? len data
       then {| d_terminal_id := id; d_data := compressed; d_compressed := true |}
       else {| d_terminal_id := id; d_data := data; d_compressed := false |}
     else {| d_terminal_id := id; d_data := data; d_compressed := false |}).

(** The size the terminal is set to, if its own is known. *)
Definition sigwinch_size (rows cols : Z) (a : SigwinchAction) : option (Z * Z) :=
  if (rows =? 0) || (cols =? 0) then None
  else Some (match a with
             | DoTempResize => if 2 <? rows then sat_sub rows 1 else Z.min (rows + 1) 65535
             | DoRestore => rows
             end, cols).

(** [do_sigwinch_resize]: whether it succeeded, [resize_ok] being the answer of
    the terminal. *)
Definition do_sigwinch_resize (resize_ok : bool) (s : TerminalSession) (a : SigwinchAction)
    : bool * list Effect :=
  match sigwinch_size (rows s) (cols s) a with
  | None => (false, [])
  | Some (r, c) => if pty_pair s then (resize_ok, [Resize r c]) else (false, [])
  end.

(** The step of the phase before the resize, and after it. *)
Definition sigwinch_next (p : SigwinchPhase) : option SigwinchAction * SigwinchPhase :=
  match p with
  | Idle => (None, Idle)
  | TempResize O | Restore O => (None, Idle)
  | TempResize (S n) => (Some DoTempResize, TempResize n)
  | Restore (S n) => (Some DoRestore, Restore n)
  end.
Definition sigwinch_done (a : SigwinchAction) (ok : bool) (p : SigwinchPhase) : SigwinchPhase :=
  if ok then match a with
             | DoTempResize => Restore MAX_SIGWINCH_PHASE_ATTEMPTS
             | DoRestore => Idle
             end
  else p.

(** What a poll finds of a session: whether its lock is taken, its reader has
    ended, what is in its channel, whether a resize succeeds, and the status of
    its child if that is over. *)
Record Poll := {
  locked : bool;
  reader_finished : bool;
  received : list bytes;
  resize_ok : bool;
  exit_status : option Z;
}.

(** The body of the loop of [read_outputs]: the responses, whether the terminal
    has just closed, the effects and the session. *)
Definition read_session (id : Z) (p : Poll) (now : instant) (s : TerminalSession)
    : option (list TerminalResponse * bool * list Effect * TerminalSession) :=
  if locked p then Some ([], false, [], s)
  else
    let close := negb (closed_message_sent s) && reader_thread s && reader_finished p in
    let s := if close then s <| closed_message_sent := true |> else s in
    let data := if output_rx s then received p else [] in
    let s := match data with [] => s | _ => s <| s_last_activity := now |> end in
    buffer ← appends data (output_buffer s);
    let s := s <| output_buffer := buffer |> in
    match state s with
    | Closed => Some ([], close, [], s)
    | Active pending phase =>
        let replay :=
          match pending with
          | Some b => match b with [] => [] | _ => [create_terminal_data_response id b] end
          | None => []
          end in
        let '(action, phase) := sigwinch_next phase in
        let '(eff, phase) :=
          match action with
          | Some a => let '(ok, eff) := do_sigwinch_resize (resize_ok p) s a in (eff, sigwinch_done a ok phase)
          | None => ([], phase)
          end in
        Some (replay ++ (create_terminal_data_response id <$> data), close, eff,
              s <| state := Active None phase |>)
    end.

(** The loop over the sessions; the service is updated as it goes. *)
Fixpoint read_sessions (polls : Z -> Poll) (now : instant) (l : list (Z * TerminalSession))
    (m : gmap Z TerminalSession)
    : option (list TerminalResponse * list Z * list Effect * gmap Z TerminalSession) :=
  match l with
  | [] => Some ([], [], [], m)
  | (id, s) :: l =>
      '(out, close, eff, s) ← read_session id (polls id) now s;
      '(out', closed, eff', m) ← read_sessions polls now l (<[id := s]> m);
      Some (out ++ out', (if close : bool then [id] else []) ++ closed, eff ++ eff', m)
  end.

(** A terminal that has closed: its session is dropped, or only its child is. *)
Definition close_terminal (persistent : bool) (id : Z) (p : Poll) (m : gmap Z TerminalSession)
    : TerminalResponse * list Effect * gmap Z TerminalSession :=
  match m !! id with
  | Some s =>
      let code := if child s then as_i32 (unwrap_or (exit_status p) 0) else 0 in
      let reap := if child s then [Reap] else [] in
      if persistent then
        (ClosedTerminal id code, reap, <[id := s <| child := false |>]> m)
      else (ClosedTerminal id code, reap ++ (stop (s <| child := false |>)).1, delete id m)
  | None => (ClosedTerminal id 0, [], m)
  end.

Fixpoint close_terminals (persistent : bool) (polls : Z -> Poll) (ids : list Z)
    (m : gmap Z TerminalSession) : list TerminalResponse * list Effect * gmap Z TerminalSession :=
  match ids with
  | [] => ([], [], m)
  | id :: ids =>
      let '(r, e, m) := close_terminal persistent id (polls id) m in
      let '(rs, e', m) := close_terminals persistent polls ids m in (r :: rs, e ++ e', m)
  end.

(** [read_outputs] of the proxy made for one poll, which takes the persistence
    from the service. *)
Definition read_outputs (id : string) (polls : Z -> Poll) (now : instant) (r : Registry)
    : option (list TerminalResponse * list Effect * Registry) :=
  match r !! id with
  | None => Some ([], [], r)
  | Some sv =>
      '(out, closed, eff, m) ← read_sessions polls now (map_to_list (sessions sv)) (sessions sv);
      let '(out', eff', m) := close_terminals (is_persistent sv) polls closed m in
      Some (out ++ out', eff ++ eff', <[id := sv <| sessions := m |>]> r)
  end.

(** The end of a connection, and of the loop of [run]. *)
Definition on_disconnect (id : string) (persistent : bool) (r : Registry) : list Effect * Registry :=
  if negb persistent then remove_service id r else ([], r).
Definition run_exit (id : string) (r : Registry) : list Effect * Registry :=
  match r !! id with
  | Some sv => if negb (is_persistent sv) then remove_service id r else ([], r)
  | None => ([], r)
  end.

(** ** The two resizes *)

(** The polls of a session that is not locked: whether a resize would succeed,
    and what follows of the phase and the size of the terminal. *)
Fixpoint redraw (oks : list bool) (s : TerminalSession) (p : SigwinchPhase) (size : Z * Z)
    : SigwinchPhase * (Z * Z) :=
  match oks with
  | [] => (p, size)
  | ok :: oks =>
      let '(action, p) := sigwinch_next p in
      match action with
      | None => redraw oks s p size
      | Some a =>
          let '(done, eff) := do_sigwinch_resize ok s a in
          let size := match eff with [Resize r c] => if done then (r, c) else size | _ => size end in
          redraw oks s (sigwinch_done a done p) size
      end
  end.

(** The polls a phase has left at most. *)
Definition polls_left (p : SigwinchPhase) : nat :=
  match p with
  | Idle => 0
  | Restore n => S n
  | TempResize n => S n + S MAX_SIGWINCH_PHASE_ATTEMPTS
  end.

Lemma redraw_ends oks s p size : (polls_left p <= length oks)%nat -> (redraw oks s p size).1 = Idle.
Proof.
  revert p size; induction oks as [|ok oks IH]; intros p size Hp.
  { destruct p; simpl in Hp; [done|lia|lia]. }
  cbn [redraw length] in *; destruct p as [|[|n]|[|n]]; cbn [sigwinch_next] in *.
  - apply IH; simpl; lia.
  - apply IH; simpl; lia.
  - destruct (do_sigwinch_resize ok s DoTempResize) as [[] eff]; cbn [sigwinch_done]; apply IH;
      simpl polls_left in *; unfold MAX_SIGWINCH_PHASE_ATTEMPTS in *; lia.
  - apply IH; simpl; lia.
  - destruct (do_sigwinch_resize ok s DoRestore) as [[] eff]; cbn [sigwinch_done]; apply IH;
      simpl polls_left in *; lia.
Qed.

Lemma redraw_idle oks s size : redraw oks s Idle size = (Idle, size).
Proof. induction oks as [|ok oks IH]; [done|]; apply IH. Qed.

(** No three resizes in a row fail. *)
Fixpoint no_three_failures (oks : list bool) : bool :=
  match oks with
  | a :: ((b :: c :: _) as rest) => (a || b || c) && no_three_failures rest
  | _ => true
  end.

Lemma resize_size ok s a : pty_pair s = true -> 0 < rows s -> 0 < cols s ->
  exists r, do_sigwinch_resize ok s a = (ok, [Resize r (cols s)]) /\
    (a = DoRestore -> r = rows s) /\ (a = DoTempResize -> rows s < 65535 -> r <> rows s).
Proof.
  intros Hp Hr Hc; unfold do_sigwinch_resize, sigwinch_size.
  rewrite (proj2 (Z.eqb_neq _ _)), (proj2 (Z.eqb_neq (cols s) 0)) by lia; cbn [orb]; rewrite Hp.
  eexists; split; [done|]; split; intros ->; [done|]; unfold sat_sub; case_match; lia.
Qed.

Lemma redraw_fails oks s p n size : pty_pair s = true -> 0 < rows s -> 0 < cols s ->
  p = TempResize n \/ p = Restore n ->
  redraw (false :: oks) s (match p with TempResize _ => TempResize (S n) | _ => Restore (S n) end) size =
  redraw oks s p size.
Proof.
  intros Hp Hr Hc [->| ->]; cbn [redraw sigwinch_next];
    [destruct (resize_size false s DoTempResize Hp Hr Hc) as (r & -> & _)
    |destruct (resize_size false s DoRestore Hp Hr Hc) as (r & -> & _)]; done.
Qed.

Lemma redraw_temp oks s n size : pty_pair s = true -> 0 < rows s -> 0 < cols s ->
  exists size', redraw (true :: oks) s (TempResize (S n)) size =
                redraw oks s (Restore MAX_SIGWINCH_PHASE_ATTEMPTS) size'.
Proof.
  intros Hp Hr Hc; cbn [redraw sigwinch_next].
  destruct (resize_size true s DoTempResize Hp Hr Hc) as (r & -> & _); by exists (r, cols s).
Qed.

Lemma redraw_restored oks s n size : pty_pair s = true -> 0 < rows s -> 0 < cols s ->
  redraw (true :: oks) s (Restore (S n)) size = (Idle, (rows s, cols s)).
Proof.
  intros Hp Hr Hc; cbn [redraw sigwinch_next].
  destruct (resize_size true s DoRestore Hp Hr Hc) as (r & -> & He & _).
  rewrite (He eq_refl); apply redraw_idle.
Qed.

Lemma restore_within_three oks s size : pty_pair s = true -> 0 < rows s -> 0 < cols s ->
  no_three_failures oks = true -> (3 <= length oks)%nat ->
  redraw oks s (Restore MAX_SIGWINCH_PHASE_ATTEMPTS) size = (Idle, (rows s, cols s)).
Proof.
  intros Hp Hr Hc Hn Hl; unfold MAX_SIGWINCH_PHASE_ATTEMPTS.
  destruct oks as [|[] oks]; [simpl in Hl; lia|by apply redraw_restored|].
  rewrite (redraw_fails oks s (Restore 2) 2) by auto.
  destruct oks as [|[] oks]; [simpl in Hl; lia|by apply redraw_restored|].
  rewrite (redraw_fails oks s (Restore 1) 1) by auto.
  destruct oks as [|[] oks]; [simpl in Hl; lia|by apply redraw_restored|done].
Qed.

Lemma no_three_tail ok oks : no_three_failures (ok :: oks) = true -> no_three_failures oks = true.
Proof. destruct oks as [|b [|c oks]]; [done..|]; cbn [no_three_failures]; by intros [_ ?]%andb_true_iff. Qed.

(** The redraw after a reconnection leaves the terminal as it was: it ends
    within eight polls whatever fails; and unless three resizes in a row fail,
    then after six polls the terminal has its own size again, the program
    having seen another size in between. *)
Theorem redraw_restores_size oks s size :
  pty_pair s = true -> 0 < rows s < 65535 -> 0 < cols s ->
  ((8 <= length oks)%nat ->
   (redraw oks s (TempResize MAX_SIGWINCH_PHASE_ATTEMPTS) size).1 = Idle) /\
  ((6 <= length oks)%nat -> no_three_failures oks = true ->
   redraw oks s (TempResize MAX_SIGWINCH_PHASE_ATTEMPTS) size = (Idle, (rows s, cols s))) /\
  (exists r, sigwinch_size (rows s) (cols s) DoTempResize = Some (r, cols s) /\ r <> rows s /\ 0 < r <= 65535).
Proof.
  intros Hp Hr Hc; split_and!.
  - intros Hl; apply redraw_ends; simpl; unfold MAX_SIGWINCH_PHASE_ATTEMPTS; lia.
  - intros Hl Hn; unfold MAX_SIGWINCH_PHASE_ATTEMPTS.
    destruct oks as [|a oks]; [simpl in Hl; lia|]; pose proof (no_three_tail a oks Hn) as Hn1; destruct a.
    { destruct (redraw_temp oks s 2 size Hp) as [size' ->]; [lia..|].
      apply restore_within_three; [done|lia|lia|done|simpl in Hl; lia]. }
    rewrite (redraw_fails oks s (TempResize 2) 2) by (auto || lia).
    destruct oks as [|b oks]; [simpl in Hl; lia|]; pose proof (no_three_tail b oks Hn1) as Hn2; destruct b.
    { destruct (redraw_temp oks s 1 size Hp) as [size' ->]; [lia..|].
      apply restore_within_three; [done|lia|lia|done|simpl in Hl; lia]. }
    rewrite (redraw_fails oks s (TempResize 1) 1) by (auto || lia).
    destruct oks as [|c oks]; [simpl in Hl; lia|]; pose proof (no_three_tail c oks Hn2) as Hn3; destruct c; [|done].
    destruct (redraw_temp oks s 0 size Hp) as [size' ->]; [lia..|].
    apply restore_within_three; [done|lia|lia|done|simpl in Hl; lia].
  - unfold sigwinch_size, sat_sub; rewrite (proj2 (Z.eqb_neq _ _)), (proj2 (Z.eqb_neq (cols s) 0)) by lia.
    cbn [orb]; eexists; split; [done|]; destruct (Z.ltb_spec 2 (rows s)); lia.
Qed.

(** ** The stream of one session *)

(** What a client makes of a data response. *)
Variable decompress : bytes -> bytes.
Definition payload (r : TerminalResponse) : bytes :=
  match r with
  | Data d => if d_compressed d then decompress (d_data d) else d_data d
  | _ => []
  end.

(** Polls of one session, each at its time; what was sent, and the session. *)
Fixpoint stream (id : Z) (ps : list (Poll * instant)) (s : TerminalSession)
    : option (list TerminalResponse * TerminalSession) :=
  match ps with
  | [] => Some ([], s)
  | (p, now) :: ps =>
      '(out, _, _, s) ← read_session id p now s;
      '(out', s) ← stream id ps s; Some (out ++ out', s)
  end.
(** The output the polls found. *)
Definition found (ps : list (Poll * instant)) : list bytes :=
  ps ≫= fun p => if locked p.1 then [] else received p.1.

Hypothesis compress_law : forall b, decompress (compress b) = b.

Lemma payload_response id b : payload (create_terminal_data_response id b) = b.
Proof. unfold create_terminal_data_response; repeat case_match; simpl; auto. Qed.

Lemma payload_responses id ds : concat (payload <$> (create_terminal_data_response id <$> ds)) = concat ds.
Proof. induction ds as [|d ds IH]; [done|]; rewrite !fmap_cons; cbn [concat]; by rewrite payload_response, IH. Qed.

Lemma read_session_active id p now s pending phase out close eff s' :
  state s = Active pending phase -> output_rx s = true -> read_session id p now s = Some (out, close, eff, s') ->
  (locked p = true /\ out = [] /\ s' = s) \/
  (locked p = false /\ concat (payload <$> out) = unwrap_or pending [] ++ concat (received p) /\
   (exists phase', state s' = Active None phase') /\ output_rx s' = true /\
   appends (received p) (output_buffer s) = Some (output_buffer s')).
Proof.
  intros Hs Hrx Hr; unfold read_session in Hr; destruct (locked p); [left; by simplify_eq|right].
  set (s1 := if negb (closed_message_sent s) && _ && _ then _ else s) in Hr.
  assert (output_rx s1 = true /\ state s1 = state s /\ output_buffer s1 = output_buffer s) as (Hrx1 & Hs1 & Hb1)
    by (subst s1; by destruct (_ && _ && _)).
  cbv zeta in Hr; rewrite Hrx1 in Hr.
  set (s2 := match received p with [] => s1 | _ => _ end) in Hr.
  assert (output_rx s2 = true /\ state s2 = state s /\ output_buffer s2 = output_buffer s) as (Hrx2 & Hs2 & Hb2)
    by (subst s2; by destruct (received p)).
  rewrite Hb2 in Hr; destruct (appends (received p) (output_buffer s)) as [b|] eqn:Eb; [|done]; simpl in Hr.
  rewrite Hs2, Hs in Hr; destruct (sigwinch_next phase) as [action phase1].
  destruct (match action with Some _ => _ | None => _ end) as [eff1 phase2]; simplify_eq/=.
  split_and!; [done| |by eexists|done|done].
  rewrite fmap_app, concat_app, payload_responses; f_equal.
  destruct pending as [[|x l]|]; [done| |done].
  cbn [fmap list_fmap concat unwrap_or]; by rewrite payload_response, app_nil_r.
Qed.

(** Once a poll got at the session, all that is pending and found was sent. *)
Lemma stream_sends id ps : forall s pending phase out s',
  state s = Active pending phase -> output_rx s = true -> stream id ps s = Some (out, s') ->
  existsb (fun p => negb (locked p.1)) ps = true \/ pending = None ->
  concat (payload <$> out) = unwrap_or pending [] ++ concat (found ps) /\
  appends (found ps) (output_buffer s) = Some (output_buffer s').
Proof.
  induction ps as [|[p now] ps IH]; intros s pending phase out s' Hs Hrx Hr Hp.
  { destruct Hp as [?| ->]; [done|]; simpl in *; by simplify_eq. }
  cbn [stream] in Hr; destruct (read_session id p now s) as [[[[out1 close] eff] s1]|] eqn:E1; [|done]; simpl in Hr.
  destruct (stream id ps s1) as [[out2 s2]|] eqn:E2; [|done]; simplify_eq/=.
  unfold found; cbn [mbind list_bind]; fold (found ps); cbn [fst].
  destruct (read_session_active id p now s pending phase out1 close eff s1 Hs Hrx E1)
    as [(Hl & -> & ->)|(Hl & Ho & [phase' Hs1] & Hrx1 & Hb)]; rewrite Hl in *; cbn [negb orb app] in *.
  - by apply (IH s pending phase).
  - destruct (IH s1 None phase' out2 s' Hs1 Hrx1 E2) as [Ho2 Hb2]; [by right|].
    rewrite fmap_app, concat_app, Ho, Ho2, concat_app; simpl; rewrite (assoc_L (++)); split; [done|].
    by rewrite (appends_app _ _ _ _ Hb).
Qed.

(** A poll comes back exactly when the buffer takes what it found, and so do polls. *)
Lemma read_session_returns id p now s pending phase : state s = Active pending phase -> output_rx s = true ->
  is_Some (read_session id p now s) <-> locked p = true \/ is_Some (appends (received p) (output_buffer s)).
Proof.
  intros Hs Hrx; unfold read_session; destruct (locked p); [split; [by left|by eexists]|].
  set (s1 := if negb (closed_message_sent s) && _ && _ then _ else s).
  assert (output_rx s1 = true /\ state s1 = state s /\ output_buffer s1 = output_buffer s) as (Hrx1 & Hs1 & Hb1)
    by (subst s1; by destruct (_ && _ && _)).
  cbv zeta; rewrite Hrx1; set (s2 := match received p with [] => s1 | _ => _ end).
  assert (output_rx s2 = true /\ state s2 = state s /\ output_buffer s2 = output_buffer s) as (Hrx2 & Hs2 & Hb2)
    by (subst s2; by destruct (received p)).
  rewrite Hb2; destruct (appends (received p) (output_buffer s)) as [b|] eqn:Eb; cbn.
  - rewrite Hs2, Hs; destruct (sigwinch_next phase) as [action phase1].
    destruct (match action with Some _ => _ | None => _ end) as [eff1 phase2]; split; [by right; eexists|by eexists].
  - split; [by intros []|by intros [|[]]].
Qed.

Lemma stream_returns id ps : forall s pending phase, state s = Active pending phase -> output_rx s = true ->
  is_Some (stream id ps s) <-> is_Some (appends (found ps) (output_buffer s)).
Proof.
  induction ps as [|[p now] ps IH]; intros s pending phase Hs Hrx; [split; by eexists|].
  cbn [stream]; unfold found; cbn [mbind list_bind]; fold (found ps); cbn [fst].
  pose proof (read_session_returns id p now s pending phase Hs Hrx) as Hr.
  destruct (read_session id p now s) as [[[[out1 close] eff] s1]|] eqn:E1; cbn.
  - assert (He : is_Some (stream id ps s1) <-> is_Some ('(out', s'') ← stream id ps s1; Some (out1 ++ out', s''))).
    { destruct (stream id ps s1) as [[out2 s2]|]; cbn; split; try (by intros []); by eexists. }
    rewrite <- He; destruct (read_session_active id p now s pending phase out1 close eff s1 Hs Hrx E1)
      as [(Hl & -> & ->)|(Hl & _ & [phase' Hs1] & Hrx1 & Hb)]; rewrite Hl; cbn [app].
    + by apply (IH s pending phase).
    + rewrite (appends_app _ _ _ _ Hb); by apply (IH s1 None phase').
  - split; [by intros []|]; destruct (locked p); [destruct (proj2 Hr (or_introl eq_refl)) as [? ?]; done|].
    intros [b Hb]; destruct (proj2 Hr) as [? ?]; [right|done].
    destruct (appends (received p) (output_buffer s)) as [b'|] eqn:Eb; [by eexists|].
    exfalso; clear -Hb Eb; revert Eb Hb; generalize (output_buffer s); induction (received p) as [|d ds IHd]; intros x; [done|].
    cbn [app appends]; destruct (append d x); cbn; [apply IHd|done].
Qed.

(** C29. A client that reconnects sees the recent output and then everything, each byte
    once and in order: if [history] is all the output of a session until the client
    reconnects, then what the client is sent by polls, of which one at least is not
    blocked by an action on the session, reads as an end of that history, of at most
    8 KiB, followed by all the output the polls found - provided that the client undoes
    the compression of the host.  The polls come back exactly when the buffer takes all
    they found, which it does if all the output came in whole lines. *)
Theorem reconnected_stream_seamless id history s ps :
  appends history TerminalBuffer.new = Some (output_buffer s) -> output_rx s = true ->
  existsb (fun p => negb (locked p.1)) ps = true ->
  (forall out s', stream id ps (reconnect s) = Some (out, s') ->
     exists older replay, concat history = older ++ replay /\ len replay <= DEFAULT_RECONNECT_BUFFER_BYTES /\
       concat (payload <$> out) = replay ++ concat (found ps)) /\
  (is_Some (stream id ps (reconnect s)) <-> is_Some (appends (found ps) (output_buffer s))) /\
  (Forall (fun d => ends_with_newline d = true /\ len d <= i64_max) (history ++ found ps) -> is_Some (stream id ps (reconnect s))).
Proof.
  intros Hh Hrx Hp; assert (Hret : is_Some (stream id ps (reconnect s)) <-> is_Some (appends (found ps) (output_buffer s)))
    by (by apply (stream_returns id ps (reconnect s) _ _ eq_refl)).
  split_and!; [|done|].
  - intros out s' Hr; set (replay := get_recent DEFAULT_RECONNECT_BUFFER_BYTES (output_buffer s)).
    destruct (get_recent_spec DEFAULT_RECONNECT_BUFFER_BYTES (output_buffer s)) as [[older Ho] Hl]; [done|].
    destruct (appends_suffix history _ _ Hh ltac:(constructor)) as [gone Hg]; simpl in Hg.
    exists (gone ++ older), replay; split_and!; [by rewrite Hg, Ho, (assoc_L (++))|done|].
    destruct (stream_sends id ps (reconnect s) _ _ out s' eq_refl Hrx Hr (or_introl Hp)) as [-> _].
    by unfold replay; destruct (get_recent _ _).
  - intros Hw; apply Hret; destruct (whole_lines_bounded _ Hw) as (b & Hb & _).
    rewrite (appends_app _ _ _ _ Hh) in Hb; by eexists.
Qed.
End streaming.

(** A session with a shell, after its client has gone. *)
Definition shell (b : OutputBuffer) : TerminalSession :=
  new_session "Terminal 1" 24 80 0 <| pid := 7 |> <| pty_pair := true |> <| child := true |>
    <| input_tx := true |> <| output_rx := true |> <| reader_thread := true |> <| writer_thread := true |>
    <| output_buffer := b |>.
Definition quiet (d : list bytes) : Poll :=
  {| locked := false; reader_finished := false; received := d; resize_ok := true; exit_status := None |}.

Lemma redraw_restores_size_witness :
  redraw [false; true; false; false; true; true] (shell TerminalBuffer.new) (TempResize 3) (24, 80) =
  (Idle, (24, 80)).
Proof.
  refine (proj1 (proj2 (redraw_restores_size [false; true; false; false; true; true]
    (shell TerminalBuffer.new) (24, 80) eq_refl _ _)) _ _); [simpl; lia|simpl; lia|simpl; lia|reflexivity].
Defined.

Lemma reconnected_stream_seamless_witness :
  let b := {| lines := [text "one" ++ lf; text "two" ++ lf]; total_size := 8; last_line_incomplete := false |} in
  let ps := [(quiet [text "three" ++ lf], 5); (quiet [lf], 6)] in
  exists out s', stream (fun b => b) 1 ps (reconnect (shell b)) = Some (out, s') /\
  exists older replay, concat [text "one" ++ lf ++ text "two" ++ lf] = older ++ replay /\
    concat (payload (fun b => b) <$> out) = replay ++ concat [text "three" ++ lf; lf].
Proof.
  intros b ps.
  destruct (reconnected_stream_seamless (fun b => b) (fun b => b) (fun b => eq_refl) 1
    [text "one" ++ lf ++ text "two" ++ lf] (shell b) ps ltac:(vm_compute; reflexivity) eq_refl eq_refl) as (H1 & _ & H2).
  destruct H2 as [[out s'] H2]; [repeat constructor; vm_compute; (reflexivity || discriminate)|].
  exists out, s'; split; [exact H2|]; destruct (H1 out s' H2) as (older & replay & H3 & _ & H4).
  exists older, replay; split; [exact H3|exact H4].
Defined.

(** ** Reconnection to a service *)

Lemma lowest_id_spec m low : lowest_id m = Some low -> exists s, m !! low = Some s.
Proof.
  unfold lowest_id; intros H.
  assert (low ∈ (map_to_list m).*1) as Hin.
  { destruct ((map_to_list m).*1) as [|k ks]; [done|]; injection H as <-; revert k.
    induction ks as [|x ks IH]; intros k; cbn [foldl]; [left|].
    destruct (Z.min_spec k x) as [[_ ->]|[_ ->]]; [specialize (IH k)|specialize (IH x)]; set_solver. }
  apply list_elem_of_fmap in Hin as ([k s] & -> & Hin%elem_of_map_to_list); by exists s.
Qed.

Lemma lowest_id_some m : m <> ∅ -> is_Some (lowest_id m).
Proof.
  intros Hm; unfold lowest_id; destruct ((map_to_list m).*1) eqn:E; [|by eexists].
  apply fmap_nil_inv, map_to_list_empty_iff in E; done.
Qed.

(** The session a client is given when it opens [id]. *)
Definition taken (id : Z) (sv : PersistentTerminalService) : option Z :=
  if is_some (sessions sv !! id) then Some id
  else if needs_session_sync sv then lowest_id (sessions sv) else None.

Lemma remap_spec id sv : 
  (forall k s, taken id sv = Some k -> sessions sv !! k = Some s ->
     sessions (remap id sv) = <[id := s]> (delete k (sessions sv))) /\
  (taken id sv = None -> remap id sv = sv /\ sessions sv !! id = None) /\
  needs_session_sync (remap id sv) = needs_session_sync sv /\ service_id (remap id sv) = service_id sv.
Proof.
  unfold taken, remap, is_some; destruct (sessions sv !! id) as [s0|] eqn:E; simpl.
  { split_and!; [|done..]; intros k s [= <-] Hs; rewrite insert_delete_eq; by rewrite insert_id. }
  destruct (needs_session_sync sv) eqn:En; simpl; [|rewrite En; naive_solver].
  destruct (decide (sessions sv = ∅)) as [He|He].
  { rewrite bool_decide_false by (intros H; by apply H); rewrite He, En; naive_solver. }
  rewrite bool_decide_true by done; destruct (lowest_id_some (sessions sv) He) as [low Hlow]; rewrite Hlow.
  destruct (lowest_id_spec _ _ Hlow) as [s Hs]; rewrite Hs; simpl.
  split_and!; [|done|done|done]; intros k s' [= <-] Hs'; congruence.
Qed.

Lemma dom_keys (m : gmap Z TerminalSession) k : k ∈ (map_to_list m).*1 <-> is_Some (m !! k).
Proof.
  rewrite list_elem_of_fmap; split.
  - intros ([k' s] & -> & H%elem_of_map_to_list); by exists s.
  - intros [s Hs]; exists (k, s); by rewrite elem_of_map_to_list.
Qed.

(** No surviving session is lost to a client that comes back: when it opens
    a terminal of a service with sessions, it is given one of them - the one it
    names, or else the one with the lowest id, under the name it uses - to be
    replayed; the other sessions are untouched; and the answer lists exactly
    their ids, so that it can open every one of them. *)
Theorem reconnection_finds_every_session proxy title spawn now o sv :
  needs_session_sync sv = true -> sessions sv <> ∅ ->
  let id := o_terminal_id o in
  exists k s others,
    taken id sv = Some k /\ sessions sv !! k = Some s /\
    handle_open proxy title spawn now o sv =
      (Some (Opened id (pid s) proxy others),
       sv <| sessions := <[id := reconnect s]> (delete k (sessions sv)) |> <| needs_session_sync := false |>) /\
    (forall j, j ∈ others <-> j <> id /\ j <> k /\ is_Some (sessions sv !! j)).
Proof.
  intros Hsync Hne id.
  assert (exists k, taken id sv = Some k /\ is_Some (sessions sv !! k)) as (k & Hk & [s Hs]).
  { unfold taken, is_some; destruct (sessions sv !! id) as [s0|] eqn:E; simpl; [by exists id; rewrite E|].
    rewrite Hsync; destruct (lowest_id_some _ Hne) as [low Hlow]; exists low; split; [done|].
    by destruct (lowest_id_spec _ _ Hlow) as [s ->]. }
  destruct (remap_spec id sv) as (Hr & _ & Hrs & Hrid); specialize (Hr k s Hk Hs).
  unfold handle_open; fold id; rewrite Hr, lookup_insert_eq.
  set (sv1 := remap id sv <| sessions ::= <[id := reconnect s]> |>).
  assert (sessions sv1 = <[id := reconnect s]> (delete k (sessions sv))) as Hs1
    by (unfold sv1; simpl; by rewrite Hr, insert_insert_eq).
  assert (needs_session_sync sv1 = true) as Hn1 by (unfold sv1; simpl; by rewrite Hrs).
  eexists k, s, _; split_and!; [done|done|f_equal|].
  - unfold sv1; simpl; rewrite Hr, insert_insert_eq.
    assert (created_at (remap id sv) = created_at sv /\ last_activity (remap id sv) = last_activity sv /\
            is_persistent (remap id sv) = is_persistent sv /\
            is_specified_user (remap id sv) = is_specified_user sv) as (-> & -> & -> & ->)
      by (unfold remap; repeat case_match; done).
    by rewrite Hrid.
  - intros j; fold sv1; rewrite Hn1; cbn [andb].
    assert (forall j, j <> id -> is_Some (sessions sv1 !! j) <-> j <> k /\ is_Some (sessions sv !! j)) as Hj.
    { intros i Hi; rewrite Hs1, lookup_insert_ne, lookup_delete_is_Some by done; naive_solver. }
    destruct (1 <? base.size (sessions sv1))%nat eqn:Esz.
    + rewrite list_elem_of_filter, dom_keys; specialize (Hj j); naive_solver.
    + split; [by intros ?%not_elem_of_nil|]; intros (H1 & H2 & H3); exfalso.
      apply Nat.ltb_ge in Esz; destruct (proj2 (Hj j H1) (conj H2 H3)) as [u Hu].
      assert (sessions sv1 !! id = Some (reconnect s)) as Hid by (by rewrite Hs1, lookup_insert_eq).
      rewrite <- (insert_delete_id _ _ _ Hid), map_size_insert_None in Esz by apply lookup_delete_eq.
      assert (base.size (delete id (sessions sv1)) <> 0%nat); [|lia].
      intros H0%map_size_empty_inv.
      assert (delete id (sessions sv1) !! j = Some u) as Hd by (by rewrite lookup_delete_ne).
      by rewrite H0 in Hd.
Qed.

Lemma reconnection_finds_every_session_witness :
  let s n := shell TerminalBuffer.new <| pid := n |> in
  let sv := new_service "ts" true false 0 <| sessions := {[2 := s 20; 5 := s 50]} |>
              <| needs_session_sync := true |> in
  exists others sv', handle_open "ts" "Terminal 1" SpawnError 1 {| o_terminal_id := 1; o_rows := 24; o_cols := 80 |} sv =
    (Some (Opened 1 20 "ts" others), sv') /\ 5 ∈ others.
Proof.
  intros s sv.
  destruct (reconnection_finds_every_session "ts" "Terminal 1" SpawnError 1
    {| o_terminal_id := 1; o_rows := 24; o_cols := 80 |} sv eq_refl ltac:(by vm_compute))
    as (k & u & others & Hk & Hu & Ho & Hj).
  assert (k = 2) as -> by (vm_compute in Hk; congruence).
  assert (pid u = 20) as Hp by (vm_compute in Hu; injection Hu as <-; reflexivity).
  rewrite Hp in Ho; exists others; eexists; split; [exact Ho|].
  apply Hj; split; [discriminate|split; [discriminate|eexists; vm_compute; reflexivity]].
Defined.

(** ** The registry *)

Record registry_ok (r : Registry) : Prop := {
  registry_size : (base.size r <= MAX_SERVICES)%nat;
  registry_keys : forall id sv, r !! id = Some sv -> service_id sv = id;
}.

Lemma registry_insert r id sv sv' : registry_ok r -> r !! id = Some sv -> service_id sv' = id ->
  registry_ok (<[id := sv']> r).
Proof.
  intros [Hs Hk] E Hid; constructor; [by rewrite map_size_insert_Some by (by eexists)|].
  intros i u [[<- <-]|[_ Hu]]%lookup_insert_Some; [done|by apply Hk].
Qed.

Lemma registry_delete r id : registry_ok r -> registry_ok (delete id r).
Proof.
  intros [Hs Hk]; constructor; [|intros i u [_ Hu]%lookup_delete_Some; by apply Hk].
  pose proof (map_subseteq_size (delete id r) r (delete_subseteq r id)); lia.
Qed.

Lemma get_or_create_ok id persistent user now r r' :
  get_or_create_service id persistent user now r = Some r' -> registry_ok r -> registry_ok r'.
Proof.
  unfold get_or_create_service, is_some; intros Hg R.
  destruct (r !! id) as [sv|] eqn:E; cbn [negb is_none andb unwrap_or] in Hg.
  - injection Hg as <-; apply (registry_insert r id sv); [done|done|]; exact (registry_keys r R id sv E).
  - destruct (Nat.leb_spec MAX_SERVICES (base.size r)) as [|Hlt]; [done|]; injection Hg as <-.
    constructor; [rewrite map_size_insert_None by done; lia|].
    intros i u [[<- <-]|[_ Hu]]%lookup_insert_Some; [done|by apply (registry_keys r R)].
Qed.

(** A service that exists is always found again, whatever the number of them. *)
Lemma get_or_create_existing id persistent user now r sv : r !! id = Some sv ->
  get_or_create_service id persistent user now r = Some (<[id := reset_status persistent sv]> r).
Proof. unfold get_or_create_service; by intros ->. Qed.

Lemma remove_service_spec id r : (remove_service id r).2 = delete id r.
Proof. unfold remove_service; destruct (r !! id) eqn:E; [done|]; simpl; by rewrite delete_id. Qed.

Lemma cleanup_sessions_spec now r : (cleanup_inactive_services now r).2 =
  foldl (fun r id => delete id r) r (inactive_services now r).
Proof.
  unfold cleanup_inactive_services; generalize (inactive_services now r) as ids, ([] : list Effect) as e.
  intros ids; revert r; induction ids as [|id ids IH]; intros r e; [done|]; cbn [foldl].
  pose proof (remove_service_spec id r) as Hr; destruct (remove_service id r) as [e' r'].
  simpl in Hr; subst r'; apply IH.
Qed.

Lemma delete_all_lookup (ids : list string) (r : Registry) id :
  foldl (fun r id => delete id r) r ids !! id = if decide (id ∈ ids) then None else r !! id.
Proof.
  revert r; induction ids as [|i ids IH]; intros r; cbn [foldl]; [by rewrite decide_False by set_solver|].
  rewrite IH; destruct (decide (id = i)) as [->|Hne].
  - rewrite lookup_delete_eq, (decide_True _ _ (P := i ∈ i :: ids)) by set_solver; by case_decide.
  - rewrite lookup_delete_ne by done.
    by destruct (decide (id ∈ ids)); [rewrite decide_True by set_solver|rewrite decide_False by set_solver].
Qed.

(** The cleanup removes the services that have been idle for their time, and
    no other: a service of a client that comes back is one it has kept. *)
Lemma cleanup_exact now r id :
  (cleanup_inactive_services now r).2 !! id =
  match r !! id with Some sv => if inactive now sv then None else Some sv | None => None end.
Proof.
  rewrite cleanup_sessions_spec, delete_all_lookup.
  assert (id ∈ inactive_services now r <-> exists sv, r !! id = Some sv /\ inactive now sv = true) as Hi.
  { unfold inactive_services; rewrite list_elem_of_fmap; split.
    - intros ([k sv] & -> & [H Hin%elem_of_map_to_list]%list_elem_of_filter); by exists sv.
    - intros (sv & Hsv & Ha); exists (id, sv); split; [done|]; rewrite list_elem_of_filter, elem_of_map_to_list; done. }
  case_decide as Hd; [apply Hi in Hd as (sv & -> & ->); done|].
  destruct (r !! id) as [sv|] eqn:E; [|done]; destruct (inactive now sv) eqn:Ea; [|done].
  exfalso; apply Hd, Hi; by exists sv.
Qed.

(** A persistent service is kept as long as it has a session; any service that
    was used within the hour is kept. *)
Lemma cleanup_keeps now r id sv : r !! id = Some sv ->
  (is_persistent sv = true /\ sessions sv <> ∅) \/ since now (last_activity sv) <= SERVICE_IDLE_TIMEOUT ->
  (cleanup_inactive_services now r).2 !! id = Some sv.
Proof.
  intros E H; rewrite cleanup_exact, E.
  replace (inactive now sv) with false; [done|]; symmetry; unfold inactive.
  destruct H as [[Hp Hs]|Ht].
  - rewrite Hp, bool_decide_false by done; done.
  - rewrite (proj2 (Z.ltb_ge _ _) Ht), (proj2 (Z.ltb_ge _ _)); [by rewrite !andb_false_r|].
    unfold SERVICE_IDLE_TIMEOUT, from_secs in *; lia.
Qed.

Lemma handle_open_id proxy title spawn now o sv :
  service_id (handle_open proxy title spawn now o sv).2 = service_id sv.
Proof.
  destruct (remap_spec (o_terminal_id o) sv) as (_ & _ & _ & Hid); unfold handle_open.
  destruct (sessions (remap _ sv) !! _); [done|]; by destruct spawn.
Qed.

Lemma handle_action_ok id e a r : registry_ok r -> registry_ok (handle_action id e a r).2.
Proof.
  intros R; unfold handle_action; destruct (r !! id) as [sv|] eqn:E; [|done].
  pose proof (registry_keys r R id sv E) as Hid.
  set (sv1 := sv <| last_activity := a_now e |>); assert (service_id sv1 = id) as Hid1 by done.
  destruct a as [o|m|d|c|].
  - pose proof (handle_open_id id (a_title e) (a_spawn e) (a_now e) o sv1) as Ho.
    destruct (handle_open _ _ _ _ o sv1) as [resp sv2]; simpl in Ho |- *; apply (registry_insert r id sv); congruence.
  - unfold handle_resize; destruct (sessions sv1 !! _); by apply (registry_insert r id sv).
  - unfold handle_data; destruct (sessions sv1 !! _); by apply (registry_insert r id sv).
  - unfold handle_close; destruct (sessions sv1 !! _) as [s|]; [|by apply (registry_insert r id sv)].
    destruct (child s), (a_kill_ok e); by apply (registry_insert r id sv).
  - by apply (registry_insert r id sv).
Qed.

Lemma read_outputs_ok compress id polls now r out eff r' :
  read_outputs compress id polls now r = Some (out, eff, r') -> registry_ok r -> registry_ok r'.
Proof.
  unfold read_outputs; intros Hr R; destruct (r !! id) as [sv|] eqn:E; [|by simplify_eq].
  destruct (read_sessions compress polls now _ (sessions sv)) as [[[[o c] e] m]|]; [|done]; simpl in Hr.
  destruct (close_terminals _ polls c m) as [[o' e'] m']; simplify_eq/=.
  apply (registry_insert r id sv); [done|done|]; exact (registry_keys r R id sv E).
Qed.

(** The operations of all connections and of the cleanup task. *)
Inductive RegistryOp :=
  | OpGetOrCreate (id : string) (persistent user : bool) (now : instant)
  | OpSetPersistent (id : string) (persistent : bool)
  | OpAction (id : string) (e : ActionEnv) (a : TerminalAction)
  | OpReadOutputs (id : string) (polls : Z -> Poll) (now : instant)
  | OpDisconnect (id : string) (persistent : bool)
  | OpRunExit (id : string)
  | OpCleanup (now : instant).

Definition registry_step (compress : bytes -> bytes) (r : Registry) (o : RegistryOp) : Registry :=
  match o with
  | OpGetOrCreate id p u now => unwrap_or (get_or_create_service id p u now r) r
  | OpSetPersistent id p => unwrap_or (set_persistent id p r) r
  | OpAction id e a => (handle_action id e a r).2
  | OpReadOutputs id polls now =>
      match read_outputs compress id polls now r with Some (_, _, r) => r | None => r end
  | OpDisconnect id p => (on_disconnect id p r).2
  | OpRunExit id => (run_exit id r).2
  | OpCleanup now => (cleanup_inactive_services now r).2
  end.

(** Never more than a hundred services, each under its own id. *)
Lemma registry_bounded compress ops : registry_ok (foldl (registry_step compress) ∅ ops).
Proof.
  assert (forall r o, registry_ok r -> registry_ok (registry_step compress r o)) as Hstep.
  { intros r o R; destruct o as [id p u now|id p|id e a|id polls now|id p|id|now]; simpl.
    - destruct (get_or_create_service id p u now r) eqn:E; [by eapply get_or_create_ok|done].
    - unfold set_persistent; destruct (r !! id) as [sv|] eqn:E; simpl; [|done].
      apply (registry_insert r id sv); [done|done|]; exact (registry_keys r R id sv E).
    - by apply handle_action_ok.
    - destruct (read_outputs compress id polls now r) as [[[out eff] r']|] eqn:E; [|done].
      by eapply read_outputs_ok.
    - unfold on_disconnect; destruct (negb p); [|done]; rewrite remove_service_spec; by apply registry_delete.
    - unfold run_exit; destruct (r !! id) as [sv|]; [|done]; destruct (negb (is_persistent sv)); [|done].
      rewrite remove_service_spec; by apply registry_delete.
    - rewrite cleanup_sessions_spec; generalize (inactive_services now r) as ids; revert R; intros R ids.
      revert r R; induction ids as [|id ids IH]; intros r R; [done|]; by apply IH, registry_delete. }
  assert (registry_ok ∅) as R
    by (constructor; [rewrite map_size_empty; lia|by intros ? ? ?%lookup_empty_Some]).
  revert R; generalize (∅ : Registry); induction ops as [|o ops IH]; intros r R; [done|]; apply IH; auto.
Qed.
