(* ===== verification/SessionPermissions.v ===== *)
(** * What a session may do

    Models the permissions of a connection of the host, of src/src/server/
    connection.rs in a Linux build: the policy for sessions that are not
    unattended, the table of sessions and what the local user granted to them,
    the requests of a viewer for a permission and the answers of the local
    user, the switches of the connection manager, the options of the viewer,
    and the gate every input event passes
    (src/src/server/input_authorization.rs).

    Options are read from the configuration, which is an argument ([Env]).  The
    keys of options and the numbering of the control permissions are in the
    protocol library: the keys are constructors, the numbering is a parameter.
    Keycodes are translated by a library, which is a parameter too. *)

From S2P Require Import Prelude.
From S2P Require CaptureServer Subscriptions.

Abbreviation Server := CaptureServer.Server.
Abbreviation ConnInner := CaptureServer.ConnInner.

(** ** Policy *)

Inductive SessionAuthKind := Unknown | OneTimePassword | UnattendedPassword | ClickApproval.
#[export] Instance SessionAuthKind_eq_dec : EqDecision SessionAuthKind.
Proof. solve_decision. Defined.

Definition allows_privacy_mode (k : SessionAuthKind) : bool := bool_decide (k = UnattendedPassword).
Definition is_unattended_access (k : SessionAuthKind) : bool := bool_decide (k = UnattendedPassword).
Definition is_low_permission_support (k : SessionAuthKind) : bool := negb (is_unattended_access k).

Definition privacy_mode_policy_denial_reason (k : SessionAuthKind) (value : string) : option string :=
  if negb (allows_privacy_mode k) then
    Some "Privacy mode is available only for unattended access sessions."
  else if negb (value =? "Y")%string then Some "Privacy mode is disabled on this device."
  else None.

Inductive Permission := Keyboard | Clipboard | Audio | File | Restart | Recording | BlockInput.
#[export] Instance Permission_eq_dec : EqDecision Permission.
Proof. solve_decision. Defined.

(** A [match] on a string: the first case that is the name. *)
Fixpoint cases {A} (l : list (string * A)) (name : string) : option A :=
  match l with
  | [] => None
  | (k, x) :: l => if (name =? k)%string then Some x else cases l name
  end.

Definition switch_permission_from_name : string -> option Permission :=
  cases [("keyboard", Keyboard); ("clipboard", Clipboard); ("audio", Audio); ("file", File);
         ("restart", Restart); ("recording", Recording); ("block_input", BlockInput)]%string.

Definition low_permission_default (name : string) (current : bool) : bool :=
  if (name =? "keyboard")%string then current else false.

Definition session_default_permission (k : SessionAuthKind) (name : string) (current : bool) : bool :=
  if is_unattended_access k then current else low_permission_default name current.

Definition should_block_remote_control_for_permission_prompt (k : SessionAuthKind)
    (has_active_pending_prompt : bool) : bool :=
  is_low_permission_support k && has_active_pending_prompt.
Definition should_reject_additional_permission_request (k : SessionAuthKind)
    (has_active_pending_prompt : bool) : bool :=
  is_low_permission_support k && has_active_pending_prompt.

Definition switch_permission_policy_denial_reason_with_grant (k : SessionAuthKind) (name : string)
    (enabled has_grant : bool) : option string :=
  if negb enabled || is_unattended_access k || low_permission_default name true || has_grant then None
  else Some "Permission upgrades require local approval for this session.".

Inductive AuthConnType := Remote | FileTransfer | PortForward | ViewCamera | Terminal.
#[export] Instance AuthConnType_eq_dec : EqDecision AuthConnType.
Proof. solve_decision. Defined.

Definition connection_policy_denial_reason_with_grant (k : SessionAuthKind) (t : AuthConnType)
    (has_grant : bool) : option string :=
  if negb (is_low_permission_support k) || has_grant then None
  else
    match t with
    | Remote => None
    | FileTransfer => Some "File transfer requires local approval for this session."
    | PortForward => Some "IP tunneling requires local approval for this session."
    | ViewCamera => Some "Camera viewing requires local approval for this session."
    | Terminal => Some "Terminal access requires local approval for this session."
    end.

Definition connection_type_grant_name (t : AuthConnType) : string :=
  match t with
  | Remote => "remote"
  | FileTransfer => "file_transfer"
  | PortForward => "port_forward"
  | ViewCamera => "view_camera"
  | Terminal => "terminal"
  end.
Definition permission_request_connection_type : string -> option AuthConnType :=
  cases [("file_transfer", FileTransfer); ("port_forward", PortForward);
         ("view_camera", ViewCamera); ("terminal", Terminal)]%string.

Definition file_clipboard_allowed (clipboard_enabled file_transfer_enabled : bool)
    (one_way_file_transfer : string) : bool :=
  clipboard_enabled && file_transfer_enabled && negb (one_way_file_transfer =? "Y")%string.
Definition text_clipboard_allowed (clipboard_enabled keyboard_enabled : bool) : bool :=
  clipboard_enabled && keyboard_enabled.
Definition cursor_tracking_allowed (keyboard_enabled show_remote_cursor : bool) : bool :=
  keyboard_enabled || show_remote_cursor.

(** ** The gate of input events (input_authorization.rs) *)

Inductive RemoteInputKind := KindMouse | KindPointer | KindKeyboard.
Inductive RemoteInputDecision := Deny | CursorOnly | Control.
#[export] Instance RemoteInputDecision_eq_dec : EqDecision RemoteInputDecision.
Proof. solve_decision. Defined.

Record RemoteInputAuthorizationGate := { platform_state_dirty : bool }.
Definition gate_revoke (g : RemoteInputAuthorizationGate) : bool * RemoteInputAuthorizationGate :=
  (platform_state_dirty g, {| platform_state_dirty := false |}).

Record RemoteInputAuthorizationOutcome := { decision : RemoteInputDecision; reset_required : bool }.
Definition gate_evaluate (kind : RemoteInputKind)
    (view_camera_session blocked_by_permission_prompt keyboard_enabled show_cursor : bool)
    (g : RemoteInputAuthorizationGate)
    : RemoteInputAuthorizationOutcome * RemoteInputAuthorizationGate :=
  let decision :=
    if view_camera_session || blocked_by_permission_prompt then Deny
    else if keyboard_enabled then Control
    else match kind with
         | KindMouse => if show_cursor then CursorOnly else Deny
         | _ => Deny
         end in
  let '(reset, g) := if bool_decide (decision <> Control) then gate_revoke g else (false, g) in
  ({| decision := decision; reset_required := reset |},
   if bool_decide (decision = Control) then {| platform_state_dirty := true |} else g).

(** ** Sessions

    The key of a session is what the viewer says of itself.  [last_recv_time]
    is shared with the connections of the session: it is the index of a cell. *)

Record SessionKey := { peer_id : string; name : string; session_id : Z }.
#[export] Instance SessionKey_eq_dec : EqDecision SessionKey.
Proof. solve_decision. Defined.
#[export] Instance SessionKey_countable : Countable SessionKey.
Proof.
  refine (inj_countable' (fun k => (peer_id k, name k, session_id k))
    (fun '(p, n, i) => {| peer_id := p; name := n; session_id := i |}) _).
  by intros [].
Defined.

Record SessionPermissionGrants := { permissions : gset string; connection_types : gset string }.
#[export] Instance eta_SessionPermissionGrants : Eta SessionPermissionGrants := fun r =>
  Build_SessionPermissionGrants (permissions r) (connection_types r).
Definition no_grants : SessionPermissionGrants := {| permissions := ∅; connection_types := ∅ |}.

Record Session := {
  last_recv_time : nat;
  random_password : string;
  tfa : bool;
  s_auth_kind : SessionAuthKind;
  grants : SessionPermissionGrants;
}.
#[export] Instance eta_Session : Eta Session := fun r =>
  Build_Session (last_recv_time r) (random_password r) (tfa r) (s_auth_kind r) (grants r).

(** The process-wide table [SESSIONS], with the cells of its instants. *)
Record Sessions := { table : gmap SessionKey Session; cells : list instant }.
#[export] Instance eta_Sessions : Eta Sessions := fun r => Build_Sessions (table r) (cells r).

Definition insert_session (k : SessionKey) (password : string) (two_factor : bool)
    (kind : SessionAuthKind) (now : instant) (ss : Sessions) : Sessions :=
  {| table := <[k := {| last_recv_time := length (cells ss); random_password := password;
                        tfa := two_factor; s_auth_kind := kind; grants := no_grants |}]> (table ss);
     cells := cells ss ++ [now] |}.

Definition update_or_insert_session (k : SessionKey) (password : option string)
    (two_factor : option bool) (kind : option SessionAuthKind) (now : instant) (ss : Sessions)
    : Sessions :=
  match table ss !! k with
  | Some s =>
      let s := match password with Some p => s <| random_password := p |> | None => s end in
      let s := match two_factor with Some b => s <| tfa := b |> | None => s end in
      let s := match kind with Some a => s <| s_auth_kind := a |> | None => s end in
      ss <| table ::= <[k := s]> |>
  | None => insert_session k (unwrap_or password "") (unwrap_or two_factor false)
              (unwrap_or kind Unknown) now ss
  end.

Definition set_session_2fa (k : SessionKey) (kind : SessionAuthKind) (now : instant) (ss : Sessions)
    : Sessions :=
  match table ss !! k with
  | Some s => ss <| table ::= <[k := s <| tfa := true |> <| s_auth_kind := kind |>]> |>
  | None => insert_session k "" true kind now ss
  end.

(** An entry of the list [AUTHED_CONNS] of authorized connections. *)
Record AuthedConn := {
  a_conn_id : Z;
  a_conn_type : AuthConnType;
  a_session_key : SessionKey;
  a_auth_kind : SessionAuthKind;
}.

Definition check_remove_session (conn_id : Z) (k : SessionKey) (authed : list AuthedConn)
    (ss : Sessions) : Sessions :=
  let is_remote := existsb (fun a => (a_conn_id a =? conn_id) && bool_decide (a_conn_type a = Remote)) authed in
  let another_remote := existsb (fun a => negb (a_conn_id a =? conn_id) &&
      bool_decide (a_session_key a = k) && bool_decide (a_conn_type a = Remote)) authed in
  if is_remote || negb another_remote then ss <| table ::= delete k |> else ss.

Definition session_permission_granted (k : SessionKey) (n : string) (ss : Sessions) : bool :=
  map_or (table ss !! k) false (fun s => bool_decide (n ∈ permissions (grants s))).
Definition session_connection_granted (k : SessionKey) (t : AuthConnType) (ss : Sessions) : bool :=
  map_or (table ss !! k) false
    (fun s => bool_decide (connection_type_grant_name t ∈ connection_types (grants s))).
Definition grant_session_permission (k : SessionKey) (n : string) (ss : Sessions) : Sessions :=
  ss <| table ::= alter (fun s => s <| grants ::= fun g => g <| permissions ::= fun p => {[n]} ∪ p |> |>) k |>.
Definition grant_session_connection (k : SessionKey) (t : AuthConnType) (ss : Sessions) : Sessions :=
  ss <| table ::= alter (fun s => s <| grants ::= fun g =>
           g <| connection_types ::= fun p => {[connection_type_grant_name t]} ∪ p |> |>) k |>.

(** ** A connection

    [perms] are the seven permission fields of [Connection], [option_flags] the
    ones the viewer's options set.  [pressed_modifiers] holds keycodes. *)

Record Permissions := {
  keyboard : bool; clipboard : bool; audio : bool; file : bool;
  restart : bool; recording : bool; block_input : bool;
}.
#[export] Instance eta_Permissions : Eta Permissions := fun r =>
  Build_Permissions (keyboard r) (clipboard r) (audio r) (file r) (restart r) (recording r) (block_input r).
Definition enabled (p : Permission) (r : Permissions) : bool :=
  match p with
  | Keyboard => keyboard r | Clipboard => clipboard r | Audio => audio r | File => file r
  | Restart => restart r | Recording => recording r | BlockInput => block_input r
  end.
Definition set_enabled (p : Permission) (b : bool) (r : Permissions) : Permissions :=
  match p with
  | Keyboard => r <| keyboard := b |>
  | Clipboard => r <| clipboard := b |>
  | Audio => r <| audio := b |>
  | File => r <| file := b |>
  | Restart => r <| restart := b |>
  | Recording => r <| recording := b |>
  | BlockInput => r <| block_input := b |>
  end.

Record PendingPermissionRequest := { p_name : string; p_enabled : bool; requested_at : instant }.
Record KeyboardInputReceiveState := { epoch : Z; last_sequence : Z }.
Record OptionFlags := {
  disable_keyboard : bool; disable_clipboard : bool; disable_audio : bool;
  enable_file_transfer : bool; show_remote_cursor : bool; follow_remote_window : bool;
  show_my_cursor : bool; lock_after_session_end : bool;
}.
#[export] Instance eta_OptionFlags : Eta OptionFlags := fun r =>
  Build_OptionFlags (disable_keyboard r) (disable_clipboard r) (disable_audio r)
    (enable_file_transfer r) (show_remote_cursor r) (follow_remote_window r) (show_my_cursor r)
    (lock_after_session_end r).

(** The options of a viewer that concern permissions; [None] is one that is not
    set. *)
Record OptionMessage := {
  o_lock_after_session_end : option bool;
  o_show_remote_cursor : option bool;
  o_follow_remote_window : option bool;
  o_disable_audio : option bool;
  o_enable_file_transfer : option bool;
  o_disable_clipboard : option bool;
  o_disable_keyboard : option bool;
  o_block_input : option bool;
  o_show_my_cursor : option bool;
}.

(** The fields of a [LoginRequest] that are read; [login_option] is whether the
    terminal persists, and the options. *)
Inductive LoginUnion :=
  | LoginFileTransfer (dir : string) (show_hidden : bool)
  | LoginViewCamera
  | LoginTerminal (service_id : string)
  | LoginPortForward (host : string) (port : Z)
  | LoginOther.
Record LoginRequest := {
  username : string;
  password : list Z;
  my_id : string;
  my_name : string;
  lr_session_id : Z;
  lr_union : LoginUnion;
  os_username : string;
  hwid : string;
  my_platform : string;
  login_option : option (bool * OptionMessage);
}.
Definition default_login : LoginRequest :=
  {| username := ""; password := []; my_id := ""; my_name := ""; lr_session_id := 0;
     lr_union := LoginOther; os_username := ""; hwid := ""; my_platform := ""; login_option := None |}.
Record Hash := { salt : string; challenge : string }.

Record Connection := {
  inner : ConnInner;
  authorized : bool;
  session_auth_kind : SessionAuthKind;
  authed_conn_id : option AuthConnType;
  lr : LoginRequest;
  perms : Permissions;
  option_flags : OptionFlags;
  voice_calling : bool;
  control_permissions : option Z;
  pending_permission_requests : gmap Z PendingPermissionRequest;
  remote_input_authorization : RemoteInputAuthorizationGate;
  pressed_modifiers : gset Z;
  keyboard_input_receive_state : KeyboardInputReceiveState;
  require_2fa : bool;
  from_switch : bool;
  file_transfer : option (string * bool);
  view_camera : bool;
  terminal : bool;
  terminal_service_id : string;
  terminal_persistent : bool;
  terminal_user_token : bool;
  port_forward_address : string;
  port_forward_socket : bool;
  session_last_recv_time : option nat;
  hash : Hash;
  ip : string;
  options_in_login : option (bool * OptionMessage);
  services_subed : bool;
  display_idx : nat;
  closed : bool;
}.
#[export] Instance eta_Connection : Eta Connection := fun r =>
  Build_Connection (inner r) (authorized r) (session_auth_kind r) (authed_conn_id r) (lr r) (perms r)
    (option_flags r) (voice_calling r) (control_permissions r) (pending_permission_requests r)
    (remote_input_authorization r) (pressed_modifiers r) (keyboard_input_receive_state r)
    (require_2fa r) (from_switch r) (file_transfer r) (view_camera r) (terminal r)
    (terminal_service_id r) (terminal_persistent r) (terminal_user_token r) (port_forward_address r)
    (port_forward_socket r) (session_last_recv_time r) (hash r) (ip r) (options_in_login r)
    (services_subed r) (display_idx r) (closed r).

Definition session_key (c : Connection) : SessionKey :=
  {| peer_id := my_id (lr c); name := my_name (lr c); session_id := lr_session_id (lr c) |}.
Definition is_authed_view_camera_conn (c : Connection) : bool :=
  bool_decide (authed_conn_id c = Some ViewCamera).
Definition peer_keyboard_enabled (c : Connection) : bool :=
  keyboard (perms c) && negb (disable_keyboard (option_flags c)).
Definition clipboard_enabled (c : Connection) : bool :=
  clipboard (perms c) && negb (disable_clipboard (option_flags c)).
Definition audio_enabled (c : Connection) : bool :=
  audio (perms c) && negb (disable_audio (option_flags c)).
Definition file_transfer_enabled (c : Connection) : bool :=
  file (perms c) && enable_file_transfer (option_flags c).
Definition can_sub_cursor_tracking_services (c : Connection) : bool :=
  cursor_tracking_allowed (peer_keyboard_enabled c) (show_remote_cursor (option_flags c)).
Definition is_remote (c : Connection) : bool :=
  negb (is_some (file_transfer c)) && negb (port_forward_socket c) && negb (view_camera c) &&
  negb (terminal c).

(** ** What an operation does outside the connection *)

Inductive Effect :=
  | SendPermission (p : Permission) (b : bool)
  | PermissionResponse (request_id : Z) (n : string) (b approved : bool) (reason : string)
  | CmPermissionUpdate (n : string) (b : bool)
  | CmPermissionRequest (request_id : Z) (n : string) (b : bool)
  | ReleaseModifier (key : Z)
  | InputMouse (simulate show_cursor : bool)
  | InputPointer
  | InputKey (press : bool)
  | BlockOn
  | BlockOff
  | BlockInputError (on : bool)
  | ApplyClipboard
  | EmptyFileClipboard
  | TurnOnPrivacy
  | PrivacyDenied (reason : string)
  | TerminalInput
  | LoginError (e : string)
  | LoginResponse (error : string)
  | QosConnectionOpen
  | InitTerminal
  | ReadDir (dir : string) (show_hidden : bool)
  | StartCm (is_authorized : bool)
  | AddTrustedDevice (device : string)
  | LockScreen
  | CmClosed.

(** ** Options of the configuration *)

Inductive OptionKey :=
  | OPTION_ENABLE_KEYBOARD | OPTION_ENABLE_CLIPBOARD | OPTION_ENABLE_AUDIO
  | OPTION_ENABLE_FILE_TRANSFER | OPTION_ENABLE_REMOTE_RESTART | OPTION_ENABLE_RECORD_SESSION
  | OPTION_ENABLE_BLOCK_INPUT | OPTION_ENABLE_TUNNEL | OPTION_ENABLE_CAMERA
  | OPTION_ENABLE_TERMINAL | OPTION_ENABLE_REMOTE_PRINTER | OPTION_ENABLE_PRIVACY_MODE
  | OPTION_ACCESS_MODE | OPTION_ONE_WAY_CLIPBOARD_REDIRECTION | OPTION_ONE_WAY_FILE_TRANSFER
  | OPTION_ALLOW_LOGON_SCREEN_PASSWORD | OPTION_ENABLE_TRUSTED_DEVICES.

(** What an operation reads: the clock, [Config::get_option] and
    [get_builtin_option]. *)
Record Env := {
  now : instant;
  get_option : OptionKey -> string;
  get_builtin_option : OptionKey -> string;
}.

(** ASCII case is ignored; the values are written without other whitespace than
    ASCII's. *)
Definition lower_ascii (c : Ascii.ascii) : Ascii.ascii :=
  let n := Ascii.nat_of_ascii c in
  if (65 <=? n)%nat && (n <=? 90)%nat then Ascii.ascii_of_nat (n + 32) else c.
Definition eq_ignore_ascii_case (a b : string) : bool :=
  bool_decide (map lower_ascii (String.list_ascii_of_string a) = map lower_ascii (String.list_ascii_of_string b)).
Definition is_space (c : Ascii.ascii) : bool :=
  let n := Ascii.nat_of_ascii c in (n =? 32)%nat || ((9 <=? n)%nat && (n <=? 13)%nat).
Fixpoint skip_spaces (l : list Ascii.ascii) : list Ascii.ascii :=
  match l with c :: l' => if is_space c then skip_spaces l' else l | [] => [] end.
Definition trim (s : string) : string :=
  String.string_of_list_ascii (rev (skip_spaces (rev (skip_spaces (String.list_ascii_of_string s))))).

Inductive ClipboardDirectionPolicy := Both | LocalToRemote | RemoteToLocal | Off.
Definition from_option_value (value : string) : ClipboardDirectionPolicy :=
  let value := trim value in
  let one_of := existsb (eq_ignore_ascii_case value) in
  if one_of [""; "N"; "both"; "bidirectional"; "all"]%string then Both
  else if one_of ["local-to-remote"; "local_to_remote"; "send"; "send-only"; "outbound"]%string
  then LocalToRemote
  else if one_of ["Y"; "yes"; "true"; "1"; "remote-to-local"; "remote_to_local"; "receive";
              "receive-only"; "inbound"]%string then RemoteToLocal
  else Off.
Definition allows_local_to_remote (p : ClipboardDirectionPolicy) : bool :=
  match p with Both | LocalToRemote => true | _ => false end.
Definition allows_remote_to_local (p : ClipboardDirectionPolicy) : bool :=
  match p with Both | RemoteToLocal => true | _ => false end.
(** [clipboard_direction_policy_for_side(ClipboardSide::Host)] *)
Definition host_clipboard_policy (e : Env) : ClipboardDirectionPolicy :=
  let built_in := get_builtin_option e OPTION_ONE_WAY_CLIPBOARD_REDIRECTION in
  from_option_value (if (built_in =? "")%string
                     then get_option e OPTION_ONE_WAY_CLIPBOARD_REDIRECTION else built_in).

Definition can_sub_clipboard_service (e : Env) (c : Connection) : bool :=
  text_clipboard_allowed (clipboard_enabled c) (peer_keyboard_enabled c) &&
  allows_local_to_remote (host_clipboard_policy e).
Definition can_apply_remote_clipboard (e : Env) (c : Connection) : bool :=
  text_clipboard_allowed (clipboard_enabled c) (peer_keyboard_enabled c) &&
  allows_remote_to_local (host_clipboard_policy e).
Definition can_sub_file_clipboard_service (e : Env) (c : Connection) : bool :=
  file_clipboard_allowed (clipboard_enabled c) (file_transfer_enabled c)
    (get_builtin_option e OPTION_ONE_WAY_FILE_TRANSFER).

Definition CLIPBOARD_NAME : string := "clipboard".
Definition FILE_CLIPBOARD_NAME : string := "file-clipboard".
Definition AUDIO_NAME : string := "audio".
Definition NAME_CURSOR : string := "mouse_cursor".
Definition NAME_POS : string := "mouse_pos".

(** The numbers of the permissions in the bitmap a rendezvous server sends. *)
Inductive ControlPermission :=
  | CtlKeyboard | CtlRemotePrinter | CtlClipboard | CtlFile | CtlAudio | CtlCamera | CtlTerminal
  | CtlTunnel | CtlRestart | CtlRecording | CtlBlockInput.

Section config.
Variable option2bool : OptionKey -> string -> bool.
Variable control_value : ControlPermission -> Z.

Definition get_control_permission (permissions : Z) (p : ControlPermission) : option bool :=
  let index := control_value p in
  if (0 <=? index) && (index <? 32) then
    match Z.land (Z.shiftr permissions (index * 2)) 3 with
    | 1 => Some false
    | 2 => Some true
    | _ => None
    end
  else None.

Definition is_permission_enabled_locally (e : Env) (k : OptionKey) : bool :=
  let access_mode := get_option e OPTION_ACCESS_MODE in
  if (access_mode =? "full")%string then true
  else if (access_mode =? "view")%string then false
  else option2bool k (get_option e k).

Definition control_permission_of (k : OptionKey) : option ControlPermission :=
  match k with
  | OPTION_ENABLE_KEYBOARD => Some CtlKeyboard
  | OPTION_ENABLE_REMOTE_PRINTER => Some CtlRemotePrinter
  | OPTION_ENABLE_CLIPBOARD => Some CtlClipboard
  | OPTION_ENABLE_FILE_TRANSFER => Some CtlFile
  | OPTION_ENABLE_AUDIO => Some CtlAudio
  | OPTION_ENABLE_CAMERA => Some CtlCamera
  | OPTION_ENABLE_TERMINAL => Some CtlTerminal
  | OPTION_ENABLE_TUNNEL => Some CtlTunnel
  | OPTION_ENABLE_REMOTE_RESTART => Some CtlRestart
  | OPTION_ENABLE_RECORD_SESSION => Some CtlRecording
  | OPTION_ENABLE_BLOCK_INPUT => Some CtlBlockInput
  | _ => None
  end.

Definition permission (e : Env) (k : OptionKey) (control : option Z) : bool :=
  let by_server := permissions ← control; p ← control_permission_of k;
                   get_control_permission permissions p in
  match by_server with Some b => b | None => is_permission_enabled_locally e k end.

Definition option_of_request : string -> option OptionKey :=
  cases [("keyboard", OPTION_ENABLE_KEYBOARD); ("clipboard", OPTION_ENABLE_CLIPBOARD);
         ("audio", OPTION_ENABLE_AUDIO); ("file", OPTION_ENABLE_FILE_TRANSFER);
         ("file_transfer", OPTION_ENABLE_FILE_TRANSFER); ("restart", OPTION_ENABLE_REMOTE_RESTART);
         ("recording", OPTION_ENABLE_RECORD_SESSION); ("block_input", OPTION_ENABLE_BLOCK_INPUT);
         ("port_forward", OPTION_ENABLE_TUNNEL); ("view_camera", OPTION_ENABLE_CAMERA);
         ("terminal", OPTION_ENABLE_TERMINAL)]%string.
Definition local_permission_enabled_for_request (e : Env) (c : Connection) (n : string) : bool :=
  map_or (option_of_request n) false (fun k => permission e k (control_permissions c)).

Definition permission_request_denial_reason (e : Env) (c : Connection) (n : string) : option string :=
  if (n =? "privacy_mode")%string then
    Some "Privacy mode is available only for unattended access sessions."
  else if negb (is_some (switch_permission_from_name n)) &&
          negb (is_some (permission_request_connection_type n)) then
    Some "Unknown permission requested."
  else if negb (local_permission_enabled_for_request e c n) then
    Some "Permission is disabled on this device."
  else None.

(** ** Switching a permission

    Each operation returns what it did outside, the connection and, where it
    subscribes, the server. *)

Definition sub (n : string) (b : bool) (c : Connection) : Server -> Server :=
  CaptureServer.subscribe n (inner c) b.

Definition release_pressed_modifiers (c : Connection) : list Effect * Connection :=
  (ReleaseModifier <$> elements (pressed_modifiers c), c <| pressed_modifiers := ∅ |>).
Definition revoke_remote_input_authorization (c : Connection) : list Effect * Connection :=
  let '(dirty, g) := gate_revoke (remote_input_authorization c) in
  let c := c <| remote_input_authorization := g |> in
  if dirty then release_pressed_modifiers c else ([], c).

Definition sub_audio (c : Connection) (s : Server) : Server :=
  if is_authed_view_camera_conn c then
    if voice_calling c || negb (audio_enabled c) then sub AUDIO_NAME (audio_enabled c) c s else s
  else sub AUDIO_NAME (audio_enabled c) c s.

Definition sub_cursor (c : Connection) (s : Server) : Server :=
  sub NAME_POS (can_sub_cursor_tracking_services c) c
    (sub NAME_CURSOR (can_sub_cursor_tracking_services c) c s).

Definition apply_switch_permission (e : Env) (n : string) (b : bool) (c : Connection) (s : Server)
    : list Effect * Connection * Server :=
  match switch_permission_from_name n with
  | None => ([], c, s)
  | Some p =>
      let c := c <| perms ::= set_enabled p b |> in
      let '(released, c) :=
        if bool_decide (p = Keyboard) && negb b then revoke_remote_input_authorization c else ([], c) in
      let emptied := if bool_decide (p = File) && negb b then [EmptyFileClipboard] else [] in
      let s :=
        match p with
        | Keyboard =>
            let s := sub CLIPBOARD_NAME (can_sub_clipboard_service e c) c s in
            let s := sub FILE_CLIPBOARD_NAME (can_sub_file_clipboard_service e c) c s in
            sub_cursor c s
        | Clipboard => sub CLIPBOARD_NAME (can_sub_clipboard_service e c) c s
        | Audio => if authorized c then sub_audio c s else s
        | File => sub FILE_CLIPBOARD_NAME (can_sub_file_clipboard_service e c) c s
        | Restart | Recording | BlockInput => s
        end in
      (released ++ SendPermission p b :: emptied ++ [CmPermissionUpdate n b], c, s)
  end.

(** ** Requests of the viewer for a permission *)

Definition PENDING_PERMISSION_REQUEST_TIMEOUT : Z := 120 * 1000000000.

Definition is_active (e : Env) (r : PendingPermissionRequest) : bool :=
  since (now e) (requested_at r) <? PENDING_PERMISSION_REQUEST_TIMEOUT.
Definition cleanup_pending_permission_requests (e : Env) (c : Connection) : Connection :=
  c <| pending_permission_requests ::= filter (fun '(_, r) => is_active e r) |>.
Definition has_active_pending_permission_request (e : Env) (c : Connection) : bool :=
  existsb (fun '(_, r) => is_active e r) (map_to_list (pending_permission_requests c)).

Definition approve_permission_request (e : Env) (id : Z) (n : string) (b : bool) (c : Connection)
    (ss : Sessions) (s : Server) : list Effect * Connection * Sessions * Server :=
  let response := PermissionResponse id n b true "" in
  match permission_request_connection_type n with
  | Some t => ([response], c, grant_session_connection (session_key c) t ss, s)
  | None =>
      if is_some (switch_permission_from_name n) then
        let '(es, c', s) := apply_switch_permission e n b c s in
        (es ++ [response], c', grant_session_permission (session_key c) n ss, s)
      else ([response], c, ss, s)
  end.

Record SessionPermissionRequest := { r_request_id : Z; r_name : string; r_enabled : bool }.

Definition needs_approval (c : Connection) (ss : Sessions) (n : string) (b : bool) : bool :=
  match permission_request_connection_type n with
  | Some t => is_some (connection_policy_denial_reason_with_grant (session_auth_kind c) t
                         (session_connection_granted (session_key c) t ss))
  | None => is_some (switch_permission_policy_denial_reason_with_grant (session_auth_kind c) n b
                       (session_permission_granted (session_key c) n ss))
  end.

Definition handle_session_permission_request (e : Env) (r : SessionPermissionRequest)
    (c : Connection) (ss : Sessions) (s : Server) : list Effect * Connection * Sessions * Server :=
  let c := cleanup_pending_permission_requests e c in
  let '(id, n, b) := (r_request_id r, r_name r, r_enabled r) in
  let deny reason := ([PermissionResponse id n b false reason], c, ss, s) in
  if id =? 0 then ([], c, ss, s)
  else if negb b then deny "Only enabling permissions can be requested."
  else
    match permission_request_denial_reason e c n with
    | Some reason => deny reason
    | None =>
        if negb (needs_approval c ss n b) then approve_permission_request e id n b c ss s
        else if should_reject_additional_permission_request (session_auth_kind c)
                  (has_active_pending_permission_request e c)
        then deny "Another permission request is already pending."
        else if (16 <=? size (pending_permission_requests c))%nat
        then deny "Too many pending permission requests."
        else if is_some (pending_permission_requests c !! id)
        then deny "Permission request id is already pending."
        else
          let c := c <| pending_permission_requests ::=
                     <[id := {| p_name := n; p_enabled := b; requested_at := now e |}]> |> in
          let '(released, c) := revoke_remote_input_authorization c in
          (released ++ [CmPermissionRequest id n b], c, ss, s)
    end.

Definition handle_permission_request_result (e : Env) (id : Z) (approved : bool) (c : Connection)
    (ss : Sessions) (s : Server) : list Effect * Connection * Sessions * Server :=
  let c := cleanup_pending_permission_requests e c in
  match pending_permission_requests c !! id with
  | None => ([], c, ss, s)
  | Some r =>
      let c := c <| pending_permission_requests ::= delete id |> in
      let '(n, b) := (p_name r, p_enabled r) in
      let deny reason := ([PermissionResponse id n b false reason], c, ss, s) in
      if 120 * 1000000000 <=? since (now e) (requested_at r) then deny "Permission request expired."
      else if negb approved then deny "Permission request declined."
      else
        match permission_request_denial_reason e c n with
        | Some reason => deny reason
        | None => approve_permission_request e id n b c ss s
        end
  end.

(** The connection manager's switch, in the loop of [start]. *)
Definition handle_switch_permission (e : Env) (n : string) (b : bool) (c : Connection)
    (ss : Sessions) (s : Server) : list Effect * Connection * Server :=
  match switch_permission_policy_denial_reason_with_grant (session_auth_kind c) n b
          (session_permission_granted (session_key c) n ss) with
  | Some _ =>
      (match switch_permission_from_name n with Some p => [SendPermission p false] | None => [] end, c, s)
  | None => apply_switch_permission e n b c s
  end.

Definition apply_session_permission_defaults (c : Connection) : Connection :=
  let k := session_auth_kind c in
  c <| perms ::= fun r =>
    {| keyboard := session_default_permission k "keyboard" (keyboard r);
       clipboard := session_default_permission k "clipboard" (clipboard r);
       audio := session_default_permission k "audio" (audio r);
       file := session_default_permission k "file" (file r);
       restart := session_default_permission k "restart" (restart r);
       recording := session_default_permission k "recording" (recording r);
       block_input := session_default_permission k "block_input" (block_input r) |} |>.

Definition effective_permission_updates (c : Connection) : list Effect :=
  (fun p => SendPermission p (enabled p (perms c))) <$>
    [Keyboard; Clipboard; Audio; File; Restart; Recording; BlockInput].

Definition conn_type_of_login (c : Connection) : AuthConnType :=
  if is_some (file_transfer c) then FileTransfer
  else if port_forward_socket c || negb (port_forward_address c =? "")%string then PortForward
  else if view_camera c then ViewCamera
  else if terminal c then Terminal
  else Remote.
Definition session_connection_policy_denial_reason (c : Connection) (ss : Sessions) : option string :=
  connection_policy_denial_reason_with_grant (session_auth_kind c) (conn_type_of_login c)
    (session_connection_granted (session_key c) (conn_type_of_login c) ss).

(** ** Input *)

Definition authorize_remote_input (e : Env) (kind : RemoteInputKind) (c : Connection)
    : RemoteInputDecision * list Effect * Connection :=
  let '(outcome, g) :=
    gate_evaluate kind (is_authed_view_camera_conn c)
      (should_block_remote_control_for_permission_prompt (session_auth_kind c)
         (has_active_pending_permission_request e c))
      (peer_keyboard_enabled c) (show_my_cursor (option_flags c)) (remote_input_authorization c) in
  let c := c <| remote_input_authorization := g |> in
  let '(es, c) := if reset_required outcome then release_pressed_modifiers c else ([], c) in
  (decision outcome, es, c).

Inductive KeyboardMode := Map | Translate | OtherMode.
(** The control keys that are modifiers, and the others. *)
Inductive ControlKey :=
  | Alt | Shift | CtrlKey | Meta | RAlt | RShift | RControl | RWin | Backspace | Delete | OtherKey.
Inductive KeyUnion := Chr (code : Z) | Control_ (k : ControlKey) | Seq (s : string) | Unicode (u : Z) | NoKey.
Record KeyEvent := { mode : KeyboardMode; key_union : KeyUnion; down : bool; press : bool }.

Definition is_modifier (k : KeyEvent) : bool :=
  match key_union k with
  | Control_ (Alt | Shift | CtrlKey | Meta | RAlt | RShift | RControl | RWin) => true
  | _ => false
  end.

(** [keycode_to_rdev_key] followed by the filter [keyboard::is_modifier]. *)
Variable rdev_modifier : Z -> option Z.

Definition modifier_key (k : KeyEvent) : option Z :=
  match mode k with
  | Map => rdev_modifier (match key_union k with Chr code => code | _ => 0 end)
  | Translate => match key_union k with Chr code => rdev_modifier (Z.land code 65535) | _ => None end
  | OtherMode => None
  end.

(** A Linux build. *)
Definition dispatch_key_event (k : KeyEvent) (stateful_physical_key : bool) (c : Connection)
    : list Effect * Connection :=
  let key := modifier_key k in
  let is_press := (press k || down k) && negb (is_modifier k || is_some key) in
  let c :=
    match key with
    | Some key =>
        if (stateful_physical_key && down k) || (negb stateful_physical_key && is_press)
        then c <| pressed_modifiers ::= fun m => {[key]} ∪ m |>
        else c <| pressed_modifiers ::= fun m => m ∖ {[key]} |>
    | None => c
    end in
  ([InputKey (is_press && match key_union k with Unicode _ | Seq _ => false | _ => true end)], c).

Inductive KeyboardInputSequenceDecision := Accept | ResetEpoch | RejectDuplicateOrStale.
Definition update_keyboard_input_sequence (ep sequence : Z) (st : KeyboardInputReceiveState)
    : KeyboardInputSequenceDecision * KeyboardInputReceiveState :=
  if negb (epoch st =? ep) then (ResetEpoch, {| epoch := ep; last_sequence := sequence |})
  else if sequence <=? last_sequence st then (RejectDuplicateOrStale, st)
  else (Accept, {| epoch := epoch st; last_sequence := sequence |}).

Record CommittedText := { text : string; delete_before_graphemes : Z; delete_after_graphemes : Z }.
Record PhysicalKey := { usb_hid_usage : Z; pk_down : bool }.
Inductive KeyboardUnion := Committed (t : CommittedText) | Physical (k : PhysicalKey) | OtherUnion.
Record KeyboardInput := { input_epoch : Z; sequence : Z; ki_union : KeyboardUnion }.

(** [validate_keyboard_input] of the protocol library, and the platform's
    keycode of a USB HID usage. *)
Variable validate_keyboard_input : KeyboardInput -> bool.
Variable keycode_from_usb_hid : Z -> option Z.

Definition accept_keyboard_input (i : KeyboardInput) (c : Connection) : bool * list Effect * Connection :=
  if negb (validate_keyboard_input i) then (false, [], c)
  else
    match ki_union i with
    | OtherUnion => (false, [], c)
    | _ =>
        let previous_epoch := epoch (keyboard_input_receive_state c) in
        let '(d, st) := update_keyboard_input_sequence (input_epoch i) (sequence i)
                          (keyboard_input_receive_state c) in
        let c := c <| keyboard_input_receive_state := st |> in
        match d with
        | ResetEpoch =>
            let '(es, c) := if negb (previous_epoch =? 0) then release_pressed_modifiers c else ([], c) in
            (true, es, c)
        | RejectDuplicateOrStale => (false, [], c)
        | Accept => (true, [], c)
        end
    end.

Definition dispatch_all (ks : list (KeyEvent * bool)) (c : Connection) : list Effect * Connection :=
  foldl (fun '(es, c) '(k, stateful) => let '(es', c) := dispatch_key_event k stateful c in (es ++ es', c))
    ([], c) ks.

Definition input_keyboard_v2 (i : KeyboardInput) (c : Connection) : list Effect * Connection :=
  match ki_union i with
  | Committed t =>
      let control k := ({| mode := OtherMode; key_union := Control_ k; down := false; press := true |}, false) in
      dispatch_all
        (replicate (Z.to_nat (delete_before_graphemes t)) (control Backspace) ++
         replicate (Z.to_nat (delete_after_graphemes t)) (control Delete) ++
         if (text t =? "")%string then []
         else [({| mode := Translate; key_union := Seq (text t); down := false; press := false |}, false)]) c
  | Physical k =>
      match keycode_from_usb_hid (usb_hid_usage k) with
      | Some code =>
          dispatch_key_event {| mode := Map; key_union := Chr code; down := pk_down k; press := false |} true c
      | None => ([], c)
      end
  | OtherUnion => ([], c)
  end.

(** The input messages of [on_message], each behind the gate. *)
Definition handle_mouse (e : Env) (c : Connection) : list Effect * Connection :=
  let '(d, es, c) := authorize_remote_input e KindMouse c in
  match d with
  | Deny => (es, c)
  | Control => (es ++ [InputMouse true (show_my_cursor (option_flags c))], c)
  | CursorOnly => (es ++ [InputMouse false true], c)
  end.
Definition handle_pointer (e : Env) (c : Connection) : list Effect * Connection :=
  let '(d, es, c) := authorize_remote_input e KindPointer c in
  match d with
  | Control => (es ++ (if peer_keyboard_enabled c then [InputPointer] else []), c)
  | _ => (es, c)
  end.
Definition handle_key (e : Env) (k : KeyEvent) (c : Connection) : list Effect * Connection :=
  let '(d, es, c) := authorize_remote_input e KindKeyboard c in
  match d with
  | Control => let '(es', c) := dispatch_key_event k false c in (es ++ es', c)
  | _ => (es, c)
  end.
Definition handle_keyboard_input (e : Env) (i : KeyboardInput) (c : Connection) : list Effect * Connection :=
  let '(d, es, c) := authorize_remote_input e KindKeyboard c in
  match d with
  | Control =>
      let '(accepted, es', c) := accept_keyboard_input i c in
      if accepted then let '(es'', c) := input_keyboard_v2 i c in (es ++ es' ++ es'', c) else (es ++ es', c)
  | _ => (es, c)
  end.

(** ** Options of the viewer

    The parts of [update_options] that concern permissions; the others are the
    quality controller's. *)

(** A step of a sequence that collects effects. *)
Definition Step : Type := Connection * Server -> list Effect * (Connection * Server).
Definition both (f g : Step) : Step :=
  fun x => let '(es, x) := f x in let '(es', x) := g x in (es ++ es', x).
Definition when_set (o : option bool) (f : bool -> Step) : Step :=
  match o with Some q => f q | None => fun x => ([], x) end.

Definition option_lock (q : bool) : Step := fun '(c, s) =>
  ([], (c <| option_flags ::= fun r => r <| lock_after_session_end := q |> |>, s)).
Definition option_cursor (q : bool) : Step := fun '(c, s) =>
  let c := c <| option_flags ::= fun r => r <| show_remote_cursor := q |> |> in
  ([], (c, sub_cursor c s)).
Definition option_window (q : bool) : Step := fun '(c, s) =>
  let c := c <| option_flags ::= fun r => r <| follow_remote_window := q |> |> in
  ([], (c, sub CaptureServer.NAME_WINDOW_FOCUS q c s)).
Definition option_audio (q : bool) : Step := fun '(c, s) =>
  let c := c <| option_flags ::= fun r => r <| disable_audio := q |> |> in
  ([], (c, sub_audio c s)).
Definition option_file (e : Env) (q : bool) : Step := fun '(c, s) =>
  let c := c <| option_flags ::= fun r => r <| enable_file_transfer := q |> |> in
  (if q then [] else [EmptyFileClipboard],
   (c, sub FILE_CLIPBOARD_NAME (can_sub_file_clipboard_service e c) c s)).
Definition option_clipboard (e : Env) (q : bool) : Step := fun '(c, s) =>
  let c := c <| option_flags ::= fun r => r <| disable_clipboard := q |> |> in
  ([], (c, sub CLIPBOARD_NAME (can_sub_clipboard_service e c) c s)).
Definition option_keyboard (e : Env) (q : bool) : Step := fun '(c, s) =>
  let c := c <| option_flags ::= fun r => r <| disable_keyboard := q |> |> in
  let '(es, c) := if q then revoke_remote_input_authorization c else ([], c) in
  let s := sub CLIPBOARD_NAME (can_sub_clipboard_service e c) c s in
  let s := sub FILE_CLIPBOARD_NAME (can_sub_file_clipboard_service e c) c s in
  (es, (c, sub_cursor c s)).
Definition option_block_input (q : bool) : Step := fun '(c, s) =>
  (if keyboard (perms c) && block_input (perms c) then [if q then BlockOn else BlockOff]
   else [BlockInputError q], (c, s)).
Definition option_my_cursor (q : bool) : Step := fun '(c, s) =>
  ([], (c <| option_flags ::= fun r => r <| show_my_cursor := q |> |>, s)).

Definition update_options (e : Env) (o : OptionMessage) : Step :=
  both (when_set (o_lock_after_session_end o) option_lock)
  (both (when_set (o_show_remote_cursor o) option_cursor)
  (both (when_set (o_follow_remote_window o) option_window)
  (both (when_set (o_disable_audio o) option_audio)
  (both (when_set (o_enable_file_transfer o) (option_file e))
  (both (when_set (o_disable_clipboard o) (option_clipboard e))
  (both (when_set (o_disable_keyboard o) (option_keyboard e))
  (both (when_set (o_block_input o) option_block_input)
        (when_set (o_show_my_cursor o) option_my_cursor)))))))).

(** ** Other messages that need a permission *)

Definition handle_clipboard (e : Env) (c : Connection) : list Effect :=
  if can_apply_remote_clipboard e c then [ApplyClipboard] else [].
(** The head of [turn_on_privacy] in a Linux build: what follows is the
    platform's. *)
Definition turn_on_privacy (e : Env) (c : Connection) : list Effect :=
  match privacy_mode_policy_denial_reason (session_auth_kind c)
          (get_option e OPTION_ENABLE_PRIVACY_MODE) with
  | Some reason => [PrivacyDenied reason]
  | None => [TurnOnPrivacy]
  end.
Definition handle_terminal_action (c : Connection) : list Effect :=
  if terminal_user_token c then [TerminalInput] else [].

(** The messages of an authorized connection that are modelled. *)
Inductive SessionMessage :=
  | Mouse
  | Pointer
  | Key (k : KeyEvent)
  | KeyboardV2 (i : KeyboardInput)
  | ClipboardUpdate
  | Options (o : OptionMessage)
  | PermissionRequest (r : SessionPermissionRequest)
  | TogglePrivacyOn
  | TerminalAction.

Definition handle_session_message (e : Env) (m : SessionMessage) (c : Connection) (ss : Sessions)
    (s : Server) : list Effect * Connection * Sessions * Server :=
  if port_forward_socket c then ([], c, ss, s)
  else
    match m with
    | Mouse => let '(es, c) := handle_mouse e c in (es, c, ss, s)
    | Pointer => let '(es, c) := handle_pointer e c in (es, c, ss, s)
    | Key k => let '(es, c) := handle_key e k c in (es, c, ss, s)
    | KeyboardV2 i => let '(es, c) := handle_keyboard_input e i c in (es, c, ss, s)
    | ClipboardUpdate => (handle_clipboard e c, c, ss, s)
    | Options o => let '(es, (c, s)) := update_options e o (c, s) in (es, c, ss, s)
    | PermissionRequest r => handle_session_permission_request e r c ss s
    | TogglePrivacyOn => (turn_on_privacy e c, c, ss, s)
    | TerminalAction => (handle_terminal_action c, c, ss, s)
    end.

(** ** What the operations leave alone

    Everything of a connection but its permissions, options, prompts and input
    state. *)
Definition login_part (c : Connection) :=
  (inner c, authorized c, session_auth_kind c, authed_conn_id c, lr c, control_permissions c,
   require_2fa c, from_switch c, file_transfer c, view_camera c, terminal c,
   terminal_user_token c, port_forward_socket c, (port_forward_address c, session_last_recv_time c, hash c, ip c)).

(** An operation on the input state only. *)
Definition input_only (c c' : Connection) : Prop :=
  login_part c' = login_part c /\ perms c' = perms c /\ option_flags c' = option_flags c /\
  pending_permission_requests c' = pending_permission_requests c /\ voice_calling c' = voice_calling c.

#[export] Instance input_only_preorder : PreOrder input_only.
Proof. split; [done|]; intros c1 c2 c3; unfold input_only; intuition congruence. Qed.

Lemma revoke_input_only c : input_only c (revoke_remote_input_authorization c).2.
Proof. unfold revoke_remote_input_authorization; simpl; by destruct (platform_state_dirty _). Qed.

Lemma authorize_input_only e k c : input_only c (authorize_remote_input e k c).2.
Proof.
  unfold authorize_remote_input; destruct (gate_evaluate _ _ _ _ _ _) as [o g]; by destruct (reset_required o).
Qed.

(** The keys themselves leave the gate alone too. *)
Definition keys_only (c c' : Connection) : Prop :=
  input_only c c' /\ remote_input_authorization c' = remote_input_authorization c.
#[export] Instance keys_only_preorder : PreOrder keys_only.
Proof. split; [done|]; intros c1 c2 c3 [] []; split; [by etrans|congruence]. Qed.

Lemma dispatch_keys_only k b c : keys_only c (dispatch_key_event k b c).2.
Proof. unfold dispatch_key_event; destruct (modifier_key k); [|done]; simpl; by case_match. Qed.

Lemma dispatch_all_keys_only ks es c :
  keys_only c (foldl (fun '(es, c) '(k, stateful) =>
    let '(es', c) := dispatch_key_event k stateful c in (es ++ es', c)) (es, c) ks).2.
Proof.
  revert es c; induction ks as [|[k b] ks IH]; intros es c; [done|]; cbn [foldl].
  pose proof (dispatch_keys_only k b c) as H; destruct (dispatch_key_event k b c) as [es' c'].
  etrans; [exact H|apply IH].
Qed.

Lemma accept_keys_only i c : keys_only c (accept_keyboard_input i c).2.
Proof.
  unfold accept_keyboard_input; destruct (validate_keyboard_input i); [simpl|done].
  destruct (ki_union i); try done; destruct (update_keyboard_input_sequence _ _ _) as [[] st]; try done;
    by destruct (negb (epoch (keyboard_input_receive_state c) =? 0)).
Qed.

Lemma keyboard_v2_keys_only i c : keys_only c (input_keyboard_v2 i c).2.
Proof.
  unfold input_keyboard_v2; destruct (ki_union i); [apply dispatch_all_keys_only| |done].
  case_match; [apply dispatch_keys_only|done].
Qed.

Lemma mouse_input_only e c : input_only c (handle_mouse e c).2.
Proof.
  unfold handle_mouse; pose proof (authorize_input_only e KindMouse c) as H.
  by destruct (authorize_remote_input e _ c) as [[[] es] c'].
Qed.

Lemma pointer_input_only e c : input_only c (handle_pointer e c).2.
Proof.
  unfold handle_pointer; pose proof (authorize_input_only e KindPointer c) as H.
  by destruct (authorize_remote_input e _ c) as [[[] es] c'].
Qed.

Lemma key_input_only e k c : input_only c (handle_key e k c).2.
Proof.
  unfold handle_key; pose proof (authorize_input_only e KindKeyboard c) as H.
  destruct (authorize_remote_input e _ c) as [[[] es] c']; [done|done|].
  pose proof (dispatch_keys_only k false c') as [H' _]; destruct (dispatch_key_event k false c'); by etrans.
Qed.

Lemma keyboard_input_only e i c : input_only c (handle_keyboard_input e i c).2.
Proof.
  unfold handle_keyboard_input; pose proof (authorize_input_only e KindKeyboard c) as H.
  destruct (authorize_remote_input e _ c) as [[[] es] c']; [done|done|].
  pose proof (accept_keys_only i c') as [H' _].
  destruct (accept_keyboard_input i c') as [[[] es'] c'']; [|by etrans].
  pose proof (keyboard_v2_keys_only i c'') as [H'' _].
  destruct (input_keyboard_v2 i c''); etrans; [exact H|]; by etrans.
Qed.

(** ** What the operations change *)

Lemma cases_spec {A} (l : list (string * A)) n x : cases l n = Some x -> (n, x) ∈ l.
Proof.
  induction l as [|[k y] l IH]; simpl; [done|].
  destruct (String.eqb_spec n k) as [->|]; [intros [= ->]; left|right; auto].
Qed.

Definition permission_name (p : Permission) : string :=
  match p with
  | Keyboard => "keyboard" | Clipboard => "clipboard" | Audio => "audio" | File => "file"
  | Restart => "restart" | Recording => "recording" | BlockInput => "block_input"
  end.
Lemma switch_name n p : switch_permission_from_name n = Some p -> n = permission_name p.
Proof. intros H%cases_spec; rewrite !elem_of_cons, elem_of_nil in H; naive_solver. Qed.
Lemma connection_name n t :
  permission_request_connection_type n = Some t -> n = connection_type_grant_name t /\ t <> Remote.
Proof. intros H%cases_spec; rewrite !elem_of_cons, elem_of_nil in H; naive_solver. Qed.

Lemma enabled_set p q b r : enabled p (set_enabled q b r) = if decide (p = q) then b else enabled p r.
Proof. by destruct p, q. Qed.

(** Some session was granted [n]. *)
Definition has_grant (ss : Sessions) (n : string) : Prop :=
  exists k s, table ss !! k = Some s /\ (n ∈ permissions (grants s) \/ n ∈ connection_types (grants s)).

Lemma permission_granted k n ss : session_permission_granted k n ss = true -> has_grant ss n.
Proof.
  unfold session_permission_granted; destruct (table ss !! k) as [s|] eqn:E; [simpl|done].
  intros H%bool_decide_eq_true; exists k, s; auto.
Qed.
Lemma connection_granted k t ss :
  session_connection_granted k t ss = true -> has_grant ss (connection_type_grant_name t).
Proof.
  unfold session_connection_granted; destruct (table ss !! k) as [s|] eqn:E; [simpl|done].
  intros H%bool_decide_eq_true; exists k, s; auto.
Qed.
Lemma alter_grants k f n m ss :
  (forall s, (m ∈ permissions (grants (f s)) \/ m ∈ connection_types (grants (f s))) ->
     m = n \/ m ∈ permissions (grants s) \/ m ∈ connection_types (grants s)) ->
  has_grant (ss <| table ::= alter f k |>) m -> m = n \/ has_grant ss m.
Proof.
  intros Hf (k' & s & Hk & Hm); simpl in Hk; destruct (decide (k = k')) as [<-|].
  - rewrite lookup_alter_eq in Hk; apply fmap_Some in Hk as (s' & Hs & ->).
    destruct (Hf s' Hm) as [|H]; [by left|right; by exists k, s'].
  - rewrite lookup_alter_ne in Hk by done; right; by exists k', s.
Qed.
Lemma grant_permission_grants k n m ss :
  has_grant (grant_session_permission k n ss) m -> m = n \/ has_grant ss m.
Proof. apply alter_grants; simpl; set_solver. Qed.
Lemma grant_connection_grants k t m ss :
  has_grant (grant_session_connection k t ss) m -> m = connection_type_grant_name t \/ has_grant ss m.
Proof. apply alter_grants; simpl; set_solver. Qed.

(** [gains b n c c' ss ss'] says that at most the permission or connection type
    [n] was gained, and only if [b]. *)
Definition gains (b : Prop) (n : string) (c c' : Connection) (ss ss' : Sessions) : Prop :=
  login_part c' = login_part c /\
  (forall p, enabled p (perms c') = true -> enabled p (perms c) = true \/ b /\ n = permission_name p) /\
  (forall m, has_grant ss' m -> has_grant ss m \/ b /\ m = n).

Lemma gains_nothing b n c c' ss :
  login_part c' = login_part c -> perms c' = perms c -> gains b n c c' ss ss.
Proof. intros H H'; split_and!; rewrite ?H'; auto. Qed.
Lemma gains_input b n c c' ss : input_only c c' -> gains b n c c' ss ss.
Proof. intros (H & H' & _); by apply gains_nothing. Qed.
Lemma gains_weaken (b b' : Prop) n c c' ss ss' : (b -> b') -> gains b n c c' ss ss' -> gains b' n c c' ss ss'.
Proof.
  intros Hb (Hl & Hp & Hg); split_and!; [done| |].
  - intros p H; destruct (Hp p H) as [|[? ?]]; auto.
  - intros m H; destruct (Hg m H) as [|[? ?]]; auto.
Qed.

Lemma apply_switch_spec e n b c s :
  let '(_, c', _) := apply_switch_permission e n b c s in
  login_part c' = login_part c /\ option_flags c' = option_flags c /\
  pending_permission_requests c' = pending_permission_requests c /\
  perms c' = match switch_permission_from_name n with
             | Some p => set_enabled p b (perms c)
             | None => perms c
             end.
Proof.
  unfold apply_switch_permission; destruct (switch_permission_from_name n) as [p|]; [|done].
  set (c1 := c <| perms ::= set_enabled p b |>).
  pose proof (revoke_input_only c1) as (Hl & Hp & Ho & Hr & _).
  destruct (bool_decide (p = Keyboard) && negb b); [|done].
  destruct (revoke_remote_input_authorization c1) as [es c2]; simpl in *; by rewrite Hl, Hp, Ho, Hr.
Qed.

Lemma apply_switch_gains e n b c s ss :
  let '(_, c', _) := apply_switch_permission e n b c s in gains (b = true) n c c' ss ss.
Proof.
  pose proof (apply_switch_spec e n b c s) as H.
  destruct (apply_switch_permission e n b c s) as [[es c'] s'], H as (Hl & _ & _ & Hp).
  split_and!; [done| |auto]; intros p; rewrite Hp.
  destruct (switch_permission_from_name n) as [q|] eqn:E; [|auto].
  rewrite enabled_set; case_decide; [subst; right; auto using switch_name|auto].
Qed.

Lemma approve_gains e id n b c ss s :
  let '(_, c', ss', _) := approve_permission_request e id n b c ss s in gains True n c c' ss ss'.
Proof.
  unfold approve_permission_request.
  destruct (permission_request_connection_type n) as [t|] eqn:Et.
  - apply connection_name in Et as [-> _]; split_and!; [done|auto|].
    intros m [->|]%grant_connection_grants; auto.
  - destruct (switch_permission_from_name n); [simpl|by apply gains_nothing].
    pose proof (apply_switch_gains e n b c s ss) as H.
    destruct (apply_switch_permission e n b c s) as [[es c'] s'], H as (Hl & Hp & _).
    split_and!; [done|intros q Hq; destruct (Hp q Hq) as [|[_ ?]]; auto|].
    intros m [->|]%grant_permission_grants; auto.
Qed.

Lemma no_approval_needed c ss n b :
  needs_approval c ss n b = false -> b = true ->
  is_unattended_access (session_auth_kind c) = true \/ n = "keyboard"%string \/ has_grant ss n.
Proof.
  unfold needs_approval, connection_policy_denial_reason_with_grant,
    switch_permission_policy_denial_reason_with_grant, is_low_permission_support, low_permission_default.
  destruct (is_unattended_access _); [by left|]; intros H ->; right; revert H.
  destruct (permission_request_connection_type n) as [t|] eqn:Et; simpl.
  - destruct (connection_name n t Et) as [-> Ht].
    destruct (session_connection_granted _ _ _) eqn:E; [right; by eapply connection_granted|by destruct t].
  - destruct (String.eqb_spec n "keyboard"); [by left|simpl].
    destruct (session_permission_granted _ _ _) eqn:E; [right; by eapply permission_granted|done].
Qed.

(** A request of the viewer gains nothing but what is unattended, the keyboard
    or granted before. *)
Lemma request_gains e r c ss s :
  let '(_, c', ss', _) := handle_session_permission_request e r c ss s in
  gains (is_unattended_access (session_auth_kind c) = true \/ r_name r = "keyboard"%string \/
         has_grant ss (r_name r)) (r_name r) c c' ss ss'.
Proof.
  unfold handle_session_permission_request; destruct (r_request_id r =? 0); [by apply gains_nothing|].
  destruct (r_enabled r) eqn:Eb; [cbn [negb]|by apply gains_nothing].
  destruct (permission_request_denial_reason _ _ _); [by apply gains_nothing|].
  set (c1 := cleanup_pending_permission_requests e c).
  destruct (needs_approval c1 ss (r_name r) true) eqn:En; cbn [negb].
  - destruct (should_reject_additional_permission_request _ _); [by apply gains_nothing|].
    destruct (16 <=? size (pending_permission_requests c1))%nat; [by apply gains_nothing|].
    destruct (is_some (pending_permission_requests c1 !! r_request_id r)); [by apply gains_nothing|].
    pose proof (revoke_input_only (c1 <| pending_permission_requests ::= <[r_request_id r :=
      {| p_name := r_name r; p_enabled := true; requested_at := now e |}]> |>)) as (Hl & Hp & _).
    destruct (revoke_remote_input_authorization _) as [es c2]; simpl in *; by apply gains_nothing.
  - pose proof (approve_gains e (r_request_id r) (r_name r) true c1 ss s) as H.
    destruct (approve_permission_request _ _ _ _ _ _ _) as [[[es c'] ss'] s'].
    destruct (no_approval_needed c1 ss (r_name r) true En eq_refl) as [Hn|Hn];
      apply (gains_weaken True); auto.
Qed.

(** An answer of the local user gains what the pending request asked for. *)
Lemma result_gains e id approved c ss s :
  let '(_, c', ss', _) := handle_permission_request_result e id approved c ss s in
  gains (approved = true /\ exists r, pending_permission_requests c !! id = Some r)
    (map_or (pending_permission_requests c !! id) "" p_name)%string c c' ss ss'.
Proof.
  unfold handle_permission_request_result; simpl.
  destruct (filter _ (pending_permission_requests c) !! id) as [r|] eqn:E; [|by apply gains_nothing].
  apply map_lookup_filter_Some in E as [E _]; rewrite E; cbn [map_or].
  destruct (_ <=? since _ _); [by apply gains_nothing|].
  destruct approved; [cbn [negb]|by apply gains_nothing].
  destruct (permission_request_denial_reason _ _ _); [by apply gains_nothing|].
  match goal with |- context [approve_permission_request ?e ?i ?n ?b ?c1 ss s] =>
    pose proof (approve_gains e i n b c1 ss s) as H;
    destruct (approve_permission_request e i n b c1 ss s) as [[[es c'] ss'] s'] end.
  apply (gains_weaken True); [eauto|done].
Qed.

Lemma switch_gains e n b c ss s :
  let '(_, c', _) := handle_switch_permission e n b c ss s in
  gains (is_unattended_access (session_auth_kind c) = true \/ n = "keyboard"%string \/ has_grant ss n)
    n c c' ss ss.
Proof.
  unfold handle_switch_permission.
  destruct (switch_permission_policy_denial_reason_with_grant _ _ _ _) eqn:E; [by apply gains_nothing|].
  pose proof (apply_switch_gains e n b c s ss) as H.
  destruct (apply_switch_permission e n b c s) as [[es c'] s']; eapply gains_weaken, H; intros ->.
  unfold switch_permission_policy_denial_reason_with_grant, low_permission_default in E; simpl in E.
  destruct (is_unattended_access _); [by left|right].
  destruct (String.eqb_spec n "keyboard"); [by left|right].
  destruct (session_permission_granted _ _ _) eqn:Eg; [by eapply permission_granted|done].
Qed.

(** No input of the viewer is held. *)
Definition clean (c : Connection) : bool :=
  bool_decide (pressed_modifiers c = ∅) && negb (platform_state_dirty (remote_input_authorization c)).
Lemma clean_spec c : clean c = true <->
  pressed_modifiers c = ∅ /\ platform_state_dirty (remote_input_authorization c) = false.
Proof. unfold clean; by rewrite andb_true_iff, bool_decide_eq_true, negb_true_iff. Qed.
Lemma revoke_clean c : clean c = true -> clean (revoke_remote_input_authorization c).2 = true.
Proof. rewrite !clean_spec; intros [Hp Hd]; unfold revoke_remote_input_authorization; simpl; by rewrite Hd. Qed.

(** A step of [update_options] keeps the permissions, the prompts and a clean
    input state. *)
Definition keeps (f : Step) : Prop := forall c s,
  let '(_, (c', _)) := f (c, s) in
  login_part c' = login_part c /\ perms c' = perms c /\
  pending_permission_requests c' = pending_permission_requests c /\ (clean c = true -> clean c' = true).

Lemma keeps_both f g : keeps f -> keeps g -> keeps (both f g).
Proof.
  intros Hf Hg c s; unfold both; specialize (Hf c s); destruct (f (c, s)) as [es [c1 s1]].
  specialize (Hg c1 s1); destruct (g (c1, s1)) as [es' [c2 s2]]; intuition congruence.
Qed.
Lemma keeps_when o f : (forall q, keeps (f q)) -> keeps (when_set o f).
Proof. intros H; destruct o; [apply H|by intros c s]. Qed.
Lemma keeps_keyboard e q : keeps (option_keyboard e q).
Proof.
  intros c s; unfold option_keyboard; set (c1 := c <| option_flags ::= _ |>).
  pose proof (revoke_input_only c1) as (Hl & Hp & _ & Hr & _); pose proof (revoke_clean c1) as Hc.
  destruct q; [|done]; by destruct (revoke_remote_input_authorization c1).
Qed.

Lemma update_options_keeps e o : keeps (update_options e o).
Proof.
  unfold update_options; repeat apply keeps_both; apply keeps_when; intros q;
    first [apply keeps_keyboard|by intros c s].
Qed.

(** What a message gains: nothing, unless it is a request for a permission. *)
Definition requested (m : SessionMessage) : string :=
  match m with PermissionRequest r => r_name r | _ => "" end.

Lemma message_gains e m c ss s :
  let '(_, c', ss', _) := handle_session_message e m c ss s in
  gains ((is_unattended_access (session_auth_kind c) = true /\ exists r, m = PermissionRequest r) \/
         requested m = "keyboard"%string \/
         has_grant ss (requested m)) (requested m) c c' ss ss'.
Proof.
  unfold handle_session_message; destruct (port_forward_socket c); [by apply gains_nothing|].
  destruct m as [| |k|i| |o|r| |]; try by apply gains_nothing.
  - pose proof (mouse_input_only e c) as H; destruct (handle_mouse e c); by apply gains_input.
  - pose proof (pointer_input_only e c) as H; destruct (handle_pointer e c); by apply gains_input.
  - pose proof (key_input_only e k c) as H; destruct (handle_key e k c); by apply gains_input.
  - pose proof (keyboard_input_only e i c) as H; destruct (handle_keyboard_input e i c); by apply gains_input.
  - pose proof (update_options_keeps e o c s) as H.
    destruct (update_options e o (c, s)) as [es [c' s']], H as (Hl & Hp & _); by apply gains_nothing.
  - pose proof (request_gains e r c ss s) as H; destruct (handle_session_permission_request e r c ss s) as [[[? ?] ?] ?].
    eapply gains_weaken; [|exact H]; simpl; intros [|[|]]; eauto.
Qed.

End config.
