(* ===== verification/InputGate.v ===== *)
(** * The gate of input events

    What the permissions of file SessionPermissions mean for the desktop: which
    effects control it and under which conditions a message has one
    ([message_controls]), and that the modifier keys a viewer holds down are
    held by a connection that may type, and are released when it may no longer
    ([message_held], [switch_held], [result_held]). *)

From S2P Require Import Prelude SessionPermissions.
From S2P Require CaptureServer.
#[local] Open Scope Z_scope.

(** ** What reaches the desktop *)

(** The effects that control the desktop: the input of a viewer, and the keys that
    lock the screen. *)
Definition controls (x : Effect) : bool :=
  match x with InputMouse true _ | InputPointer | InputKey _ | LockScreen => true | _ => false end.
Definition harmless (es : list Effect) : Prop := Forall (fun x => controls x = false) es.
Ltac is_harmless := unfold harmless; repeat (case_match || constructor || apply Forall_app; try done).
Lemma revoke_harmless c : harmless (revoke_remote_input_authorization c).1.
Proof.
  unfold revoke_remote_input_authorization; simpl; destruct (platform_state_dirty _); simpl; [|constructor].
  apply Forall_fmap, Forall_true; done.
Qed.

(** A step of [update_options] releases modifiers at most. *)
Definition mild (f : Step) : Prop := forall x, harmless (f x).1.
Lemma mild_both f g : mild f -> mild g -> mild (both f g).
Proof.
  intros Hf Hg x; unfold both; specialize (Hf x); destruct (f x) as [es y]; specialize (Hg y).
  destruct (g y) as [es' z]; simpl in *; by apply Forall_app.
Qed.
Lemma mild_when o f : (forall q, mild (f q)) -> mild (when_set o f).
Proof. intros H; destruct o; [apply H|intros x; constructor]. Qed.
Lemma keyboard_mild e q : mild (option_keyboard e q).
Proof.
  intros [c s]; unfold option_keyboard; destruct q; [|constructor].
  match goal with |- context [revoke_remote_input_authorization ?c1] => pose proof (revoke_harmless c1) as H;
    by destruct (revoke_remote_input_authorization c1) end.
Qed.
Lemma update_options_mild e o : mild (update_options e o).
Proof.
  unfold update_options; repeat apply mild_both; apply mild_when; intros q; try apply keyboard_mild;
    intros [c s]; simpl; try by constructor.
  - destruct q; repeat constructor.
  - destruct (_ && _); repeat constructor; by destruct q.
Qed.
Lemma permission_updates_harmless c : harmless (effective_permission_updates c).
Proof. repeat constructor. Qed.

(** ** Keys that are held down *)

(** A connection that holds modifier keys down is one the gate knows of, and may
    type. *)
Definition typing (c : Connection) : Prop := authorized c = true /\ peer_keyboard_enabled c = true.
Definition registered (c : Connection) : Prop :=
  pressed_modifiers c <> ∅ -> platform_state_dirty (remote_input_authorization c) = true.
Definition held_ok (c : Connection) : Prop :=
  registered c /\ (platform_state_dirty (remote_input_authorization c) = true -> typing c).

(** Every key that is no longer held was released on the desktop. *)
Definition released (es : list Effect) (c c' : Connection) : Prop :=
  forall k, k ∈ pressed_modifiers c -> k ∈ pressed_modifiers c' \/ ReleaseModifier k ∈ es.

Lemma clean_held c : clean c = true -> held_ok c.
Proof. rewrite clean_spec; intros [Hp Hd]; split; [by intros H|by rewrite Hd]. Qed.
Lemma unauthorized_clean c : held_ok c -> authorized c = false -> clean c = true.
Proof.
  intros [Hr Ht] Ha; apply clean_spec; destruct (platform_state_dirty _) eqn:E;
    [destruct (Ht eq_refl); congruence|]; split; [|done].
  destruct (decide (pressed_modifiers c = ∅)) as [|Hn]; [done|]; specialize (Hr Hn); congruence.
Qed.

Lemma released_same es c c' : pressed_modifiers c' = pressed_modifiers c -> released es c c'.
Proof. intros H k; rewrite H; by left. Qed.
Lemma released_trans es es' c1 c2 c3 : released es c1 c2 -> released es' c2 c3 -> released (es ++ es') c1 c3.
Proof.
  intros H1 H2 k Hk; rewrite elem_of_app; destruct (H1 k Hk) as [Hk'|]; [|auto].
  destruct (H2 k Hk'); auto.
Qed.
Lemma released_more es es' c c' : released es c c' -> (forall x, x ∈ es -> x ∈ es') -> released es' c c'.
Proof. intros H Hi k Hk; destruct (H k Hk); auto. Qed.

Lemma release_elem c k : k ∈ pressed_modifiers c -> ReleaseModifier k ∈ (release_pressed_modifiers c).1.
Proof. intros Hk; by apply list_elem_of_fmap_2, elem_of_elements. Qed.

(** Revoking the gate releases everything. *)
Lemma revoke_releases c : registered c ->
  let '(es, c') := revoke_remote_input_authorization c in
  clean c' = true /\ forall k, k ∈ pressed_modifiers c -> ReleaseModifier k ∈ es.
Proof.
  intros Hr; unfold revoke_remote_input_authorization; simpl; destruct (platform_state_dirty _) eqn:E.
  - split; [by apply clean_spec|]; intros k Hk; exact (release_elem c k Hk).
  - assert (pressed_modifiers c = ∅) as Hp.
    { destruct (decide (pressed_modifiers c = ∅)) as [|Hn]; [done|]; specialize (Hr Hn); congruence. }
    split; [by apply clean_spec|]; rewrite Hp; by intros k ?%elem_of_empty.
Qed.

Lemma held_revoke es1 es2 c c1 : registered c1 -> pressed_modifiers c1 = pressed_modifiers c ->
  let '(es, c') := revoke_remote_input_authorization c1 in
  held_ok c' /\ released (es1 ++ es ++ es2) c c'.
Proof.
  intros Hr Hp; pose proof (revoke_releases c1 Hr) as H.
  destruct (revoke_remote_input_authorization c1) as [es c'], H as [Hc He].
  split; [by apply clean_held|]; intros k Hk; right; rewrite !elem_of_app, <- Hp in *; auto.
Qed.

Lemma keys_held c c' : keys_only c c' -> platform_state_dirty (remote_input_authorization c) = true ->
  held_ok c -> held_ok c'.
Proof.
  intros [(Hl & Hp & Ho & _) Hg] Hd [_ Ht]; injection Hl as _ Ha _.
  unfold held_ok, registered, typing, peer_keyboard_enabled in *; rewrite Hg, Hp, Ho, Ha; auto.
Qed.

(** A change that leaves the input state and the keyboard alone. *)
Lemma same_held es c c' : remote_input_authorization c' = remote_input_authorization c ->
  pressed_modifiers c' = pressed_modifiers c -> authorized c' = authorized c ->
  peer_keyboard_enabled c' = peer_keyboard_enabled c -> held_ok c -> held_ok c' /\ released es c c'.
Proof.
  intros Hg Hp Ha Hk [Hr Ht]; split; [|by apply released_same].
  unfold held_ok, registered, typing; by rewrite Hg, Hp, Ha, Hk.
Qed.

Lemma authorize_held e k c : authorized c = true -> held_ok c ->
  let '(d, es, c') := authorize_remote_input e k c in
  held_ok c' /\ released es c c' /\
  (d = Control -> platform_state_dirty (remote_input_authorization c') = true).
Proof.
  intros Ha [Hr Ht]; unfold authorize_remote_input, gate_evaluate.
  set (d := if _ || _ then Deny else _).
  assert (d = Control -> peer_keyboard_enabled c = true) as Hd.
  { subst d; destruct (is_authed_view_camera_conn c || _); [done|].
    destruct (peer_keyboard_enabled c); [done|by destruct k, (show_my_cursor (option_flags c))]. }
  case_bool_decide as Hc; unfold gate_revoke; simpl; rewrite ?(bool_decide_eq_false_2 (d = Control)) by done.
  - pose proof (revoke_releases c Hr) as H; unfold revoke_remote_input_authorization, gate_revoke in H.
    destruct (platform_state_dirty (remote_input_authorization c)); simpl in *; destruct H as [H1 H2];
      (split; [by apply clean_held|split; [|done]]); intros m Hm; auto.
  - assert (d = Control) as Hd' by (by destruct d); rewrite (bool_decide_eq_true_2 _ Hd'); simpl.
    split_and!; [|by apply released_same|done]; split; [done|]; intros _; split; [done|by apply Hd].
Qed.

(** The options of the viewer. *)
Definition holds (f : Step) : Prop := forall c s, held_ok c ->
  let '(es, (c', _)) := f (c, s) in held_ok c' /\ released es c c'.
Lemma holds_both f g : holds f -> holds g -> holds (both f g).
Proof.
  intros Hf Hg c s H; unfold both; specialize (Hf c s H); destruct (f (c, s)) as [es [c1 s1]], Hf as [H1 R1].
  specialize (Hg c1 s1 H1); destruct (g (c1, s1)) as [es' [c2 s2]], Hg as [H2 R2].
  split; [done|by eapply released_trans].
Qed.
Lemma holds_when o f : (forall q, holds (f q)) -> holds (when_set o f).
Proof. intros H; destruct o; [apply H|by intros c s Hc; split; [|apply released_same]]. Qed.
Lemma holds_keyboard e q : holds (option_keyboard e q).
Proof.
  intros c s [Hr Ht]; unfold option_keyboard; set (c1 := c <| option_flags ::= _ |>); destruct q.
  - pose proof (held_revoke [] [] c c1 Hr eq_refl) as H.
    destruct (revoke_remote_input_authorization c1) as [es c2]; simpl in H; by rewrite app_nil_r in H.
  - split; [split; [done|]|by apply released_same]; intros Hd; destruct (Ht Hd) as [Ha Hk]; split; [done|].
    subst c1; unfold peer_keyboard_enabled in *; simpl; apply andb_true_iff in Hk as [-> _]; done.
Qed.
Lemma update_options_held e o : holds (update_options e o).
Proof.
  unfold update_options; repeat apply holds_both; apply holds_when; intros q; try apply holds_keyboard;
    intros c s Hc; by apply same_held.
Qed.

(** Switching a permission, and granting one. *)
Lemma apply_switch_held e n b c s : held_ok c ->
  let '(es, c', _) := apply_switch_permission e n b c s in held_ok c' /\ released es c c'.
Proof.
  intros Hc; unfold apply_switch_permission; destruct (switch_permission_from_name n) as [p|];
    [|by split; [|apply released_same]].
  set (c1 := c <| perms ::= set_enabled p b |>); destruct Hc as [Hr Ht].
  destruct (bool_decide (p = Keyboard) && negb b) eqn:E.
  - set (tail := SendPermission p b :: _); pose proof (held_revoke [] tail c c1 Hr eq_refl) as H.
    by destruct (revoke_remote_input_authorization c1).
  - split; [split; [done|]|by apply released_same]; intros Hd; destruct (Ht Hd) as [Ha Hk]; split; [done|].
    subst c1; unfold peer_keyboard_enabled in *; simpl; apply andb_true_iff in Hk as [Hk ->]; by destruct p, b; simpl; rewrite ?Hk.
Qed.
Lemma approve_held e id n b c ss s : held_ok c ->
  let '(es, c', _, _) := approve_permission_request e id n b c ss s in held_ok c' /\ released es c c'.
Proof.
  intros Hc; unfold approve_permission_request; destruct (permission_request_connection_type n);
    [by split; [|apply released_same]|].
  destruct (is_some _); [|by split; [|apply released_same]].
  pose proof (apply_switch_held e n b c s Hc) as H; destruct (apply_switch_permission e n b c s) as [[es c'] s'].
  destruct H as [H1 H2]; split; [done|]; eapply released_more; [exact H2|]; intros x ?; rewrite elem_of_app; auto.
Qed.
Lemma switch_held e n b c ss s : held_ok c ->
  let '(es, c', _) := handle_switch_permission e n b c ss s in held_ok c' /\ released es c c'.
Proof.
  intros Hc; unfold handle_switch_permission; destruct (switch_permission_policy_denial_reason_with_grant _ _ _ _);
    [by split; [|apply released_same]|by apply apply_switch_held].
Qed.

Section gate.
Context (option2bool : OptionKey -> string -> bool) (control_value : ControlPermission -> Z).
Context (rdev_modifier : Z -> option Z) (validate_keyboard_input : KeyboardInput -> bool).
Context (keycode_from_usb_hid : Z -> option Z).

(** The conditions under which input of a viewer reaches the desktop. *)
Record may_control (e : Env) (c : Connection) : Prop := {
  m_keyboard : keyboard (perms c) = true;
  m_option : disable_keyboard (option_flags c) = false;
  m_camera : authed_conn_id c <> Some ViewCamera;
  m_tunnel : port_forward_socket c = false;
  m_prompt : is_unattended_access (session_auth_kind c) = false ->
    forall id r, pending_permission_requests c !! id = Some r -> is_active e r = false;
}.

Lemma no_prompt e c id r : has_active_pending_permission_request e c = false ->
  pending_permission_requests c !! id = Some r -> is_active e r = false.
Proof.
  unfold has_active_pending_permission_request; intros H Hr; destruct (is_active e r) eqn:E; [|done].
  apply elem_of_map_to_list, list_elem_of_In in Hr; rewrite <- H; symmetry; apply existsb_exists; eauto.
Qed.

Lemma authorize_spec e k c : port_forward_socket c = false ->
  let '(d, es, c') := authorize_remote_input e k c in harmless es /\ (d = Control -> may_control e c).
Proof.
  intros Hs; unfold authorize_remote_input.
  destruct (gate_evaluate _ _ _ _ _ _) as [o g] eqn:E.
  assert (decision o = Control -> may_control e c) as Hc.
  { revert E; unfold gate_evaluate, peer_keyboard_enabled; intros E Hd.
    destruct (is_authed_view_camera_conn c || _) eqn:Eb; [by simplify_eq/=|].
    apply orb_false_iff in Eb as [Ev Eb].
    destruct (keyboard (perms c) && negb (disable_keyboard (option_flags c))) eqn:Ek;
      [|by destruct k, (show_my_cursor (option_flags c)); simplify_eq/=].
    apply andb_true_iff in Ek as [Ek1 Ek2%negb_true_iff]; constructor; [done|done| |done|].
    - by apply bool_decide_eq_false in Ev.
    - intros Hu id r; apply no_prompt; unfold should_block_remote_control_for_permission_prompt,
        is_low_permission_support in Eb; by rewrite Hu in Eb. }
  destruct (reset_required o); [|split; [constructor|done]].
  split; [|done]; by apply Forall_fmap, Forall_true.
Qed.

Lemma apply_switch_harmless e n b c s : harmless (apply_switch_permission e n b c s).1.1.
Proof.
  unfold apply_switch_permission; destruct (switch_permission_from_name n) as [p|]; [|constructor].
  match goal with |- context [revoke_remote_input_authorization ?c1] => pose proof (revoke_harmless c1) as H end.
  destruct (bool_decide (p = Keyboard) && negb b); [destruct (revoke_remote_input_authorization _)|]; simpl in *;
    repeat (apply Forall_app; split || constructor); try done; by destruct (_ && _); repeat constructor.
Qed.
Lemma approve_harmless e id n b c ss s : harmless (approve_permission_request e id n b c ss s).1.1.1.
Proof.
  unfold approve_permission_request; destruct (permission_request_connection_type n); [repeat constructor|].
  destruct (is_some _); [|repeat constructor]; pose proof (apply_switch_harmless e n b c s) as H.
  destruct (apply_switch_permission e n b c s) as [[es c'] s']; apply Forall_app; split; [done|repeat constructor].
Qed.
Lemma request_harmless e r c ss s :
  harmless (handle_session_permission_request option2bool control_value e r c ss s).1.1.1.
Proof.
  unfold handle_session_permission_request; destruct (r_request_id r =? 0); [constructor|].
  destruct (negb _); [repeat constructor|].
  destruct (permission_request_denial_reason _ _ _ _ _); [repeat constructor|].
  destruct (negb _); [apply approve_harmless|]; destruct (should_reject_additional_permission_request _ _);
    [repeat constructor|]; destruct (_ <=? _)%nat; [repeat constructor|]; destruct (is_some _); [repeat constructor|].
  match goal with |- context [revoke_remote_input_authorization ?c1] => pose proof (revoke_harmless c1) as H;
    destruct (revoke_remote_input_authorization c1) end.
  apply Forall_app; split; [done|repeat constructor].
Qed.
Lemma result_harmless e id b c ss s :
  harmless (handle_permission_request_result option2bool control_value e id b c ss s).1.1.1.
Proof.
  unfold handle_permission_request_result; destruct (pending_permission_requests _ !! id); [|constructor].
  destruct (_ <=? _); [repeat constructor|]; destruct (negb b); [repeat constructor|].
  destruct (permission_request_denial_reason _ _ _ _ _); [repeat constructor|apply approve_harmless].
Qed.

(** Input events are the messages of an authorized connection that may control. *)
Lemma message_controls e m c ss s x :
  let '(es, _, _, _) := handle_session_message option2bool control_value rdev_modifier validate_keyboard_input
    keycode_from_usb_hid e m c ss s in
  x ∈ es -> controls x = true -> may_control e c.
Proof.
  unfold handle_session_message; destruct (port_forward_socket c) eqn:Hs; [by intros ?%elem_of_nil|].
  assert (forall es, harmless es -> x ∈ es -> controls x = true -> may_control e c) as Hh.
  { intros es Hes Hx; pose proof (proj1 (Forall_forall _ _) Hes x Hx) as H; simpl in H; congruence. }
  destruct m as [| |k|i| |o|r| |].
  - pose proof (authorize_spec e KindMouse c Hs) as H; unfold handle_mouse.
    destruct (authorize_remote_input e KindMouse c) as [[[] es] c'], H as [H1 H2]; [by apply Hh| |auto].
    apply Hh, Forall_app; by repeat constructor.
  - pose proof (authorize_spec e KindPointer c Hs) as H; unfold handle_pointer.
    destruct (authorize_remote_input e KindPointer c) as [[[] es] c'], H as [H1 H2]; [by apply Hh|by apply Hh|auto].
  - pose proof (authorize_spec e KindKeyboard c Hs) as H; unfold handle_key.
    destruct (authorize_remote_input e KindKeyboard c) as [[[] es] c'], H as [H1 H2]; [by apply Hh|by apply Hh|].
    destruct (dispatch_key_event _ k false c'); auto.
  - pose proof (authorize_spec e KindKeyboard c Hs) as H; unfold handle_keyboard_input.
    destruct (authorize_remote_input e KindKeyboard c) as [[[] es] c'], H as [H1 H2]; [by apply Hh|by apply Hh|].
    destruct (accept_keyboard_input _ i c') as [[[] ?] c'']; [|auto].
    destruct (input_keyboard_v2 _ _ i c''); auto.
  - apply Hh; unfold handle_clipboard; destruct (can_apply_remote_clipboard e c); repeat constructor.
  - pose proof (update_options_mild e o (c, s)) as H; destruct (update_options e o (c, s)) as [es [c' s']]; by apply Hh.
  - pose proof (request_harmless e r c ss s) as H.
    destruct (handle_session_permission_request _ _ e r c ss s) as [[[es c'] ss'] s']; by apply Hh.
  - apply Hh; unfold turn_on_privacy; case_match; repeat constructor.
  - apply Hh; unfold handle_terminal_action; case_match; repeat constructor.
Qed.

Lemma result_held e id b c ss s : held_ok c ->
  let '(es, c', _, _) := handle_permission_request_result option2bool control_value e id b c ss s in
  held_ok c' /\ released es c c'.
Proof.
  intros Hc; unfold handle_permission_request_result.
  assert (forall f es, held_ok (c <| pending_permission_requests := f |>) /\
    released es c (c <| pending_permission_requests := f |>)) as H by (intros f es; by apply same_held).
  simpl; destruct (filter _ _ !! id) as [r|]; [|apply H].
  destruct (_ <=? _); [apply H|]; destruct (negb b); [apply H|].
  destruct (permission_request_denial_reason _ _ _ _ _); [apply H|].
  match goal with |- context [approve_permission_request e ?i ?n ?b ?c1 ss s] =>
    destruct (H (pending_permission_requests c1) []) as [H1 _]; pose proof (approve_held e i n b c1 ss s H1) as H2;
    destruct (approve_permission_request e i n b c1 ss s) as [[[es c'] ss'] s'] end.
  exact H2.
Qed.

Lemma request_held e r c ss s : held_ok c ->
  let '(es, c', _, _) := handle_session_permission_request option2bool control_value e r c ss s in
  held_ok c' /\ released es c c'.
Proof.
  intros Hc; unfold handle_session_permission_request.
  set (c0 := cleanup_pending_permission_requests e c).
  assert (forall es, held_ok c0 /\ released es c c0) as H by (intros es; by apply same_held).
  destruct (r_request_id r =? 0); [apply H|]; destruct (negb (r_enabled r)); [apply H|].
  destruct (permission_request_denial_reason _ _ _ _ _); [apply H|]; destruct (negb _).
  { pose proof (approve_held e (r_request_id r) (r_name r) (r_enabled r) c0 ss s (proj1 (H []))) as H2.
    by destruct (approve_permission_request e _ _ _ c0 ss s) as [[[es c'] ss'] s']. }
  destruct (should_reject_additional_permission_request _ _); [apply H|]; destruct (_ <=? _)%nat; [apply H|].
  destruct (is_some _); [apply H|].
  match goal with |- context [revoke_remote_input_authorization ?c1] =>
    pose proof (held_revoke [] [CmPermissionRequest (r_request_id r) (r_name r) (r_enabled r)] c c1
      (proj1 Hc) eq_refl) as H2; by destruct (revoke_remote_input_authorization c1) end.
Qed.

(** The messages with which a viewer itself lets go of a key. *)
Definition is_key (m : SessionMessage) : bool := match m with Key _ | KeyboardV2 _ => true | _ => false end.

Lemma message_held e m c ss s : authorized c = true -> held_ok c ->
  let '(es, c', _, _) := handle_session_message option2bool control_value rdev_modifier validate_keyboard_input
    keycode_from_usb_hid e m c ss s in
  held_ok c' /\ (is_key m = false -> released es c c').
Proof.
  intros Ha Hc; unfold handle_session_message.
  assert (forall es, held_ok c /\ (is_key m = false -> released es c c)) as Hd
    by (intros es; split; [done|by intros _; apply released_same]).
  destruct (port_forward_socket c); [apply Hd|]; destruct m as [| |k|i| |o|r| |]; try apply Hd.
  - pose proof (authorize_held e KindMouse c Ha Hc) as H; unfold handle_mouse.
    destruct (authorize_remote_input e KindMouse c) as [[d es] c'], H as (H1 & H2 & _).
    destruct d; (split; [done|intros _]); eapply released_more; try exact H2; intros x ?; rewrite ?elem_of_app; auto.
  - pose proof (authorize_held e KindPointer c Ha Hc) as H; unfold handle_pointer.
    destruct (authorize_remote_input e KindPointer c) as [[d es] c'], H as (H1 & H2 & _).
    destruct d; (split; [done|intros _]); eapply released_more; try exact H2; intros x ?; rewrite ?elem_of_app; auto.
  - pose proof (authorize_held e KindKeyboard c Ha Hc) as H; unfold handle_key.
    destruct (authorize_remote_input e KindKeyboard c) as [[d es] c'], H as (H1 & H2 & H3); destruct d; [done|done|].
    pose proof (dispatch_keys_only rdev_modifier k false c') as Hk; destruct (dispatch_key_event _ k false c').
    split; [|done]; eapply keys_held; eauto.
  - pose proof (authorize_held e KindKeyboard c Ha Hc) as H; unfold handle_keyboard_input.
    destruct (authorize_remote_input e KindKeyboard c) as [[d es] c'], H as (H1 & H2 & H3); destruct d; [done|done|].
    pose proof (accept_keys_only validate_keyboard_input i c') as Hk.
    destruct (accept_keyboard_input _ i c') as [[a es'] c1].
    assert (held_ok c1) as Hc1 by (eapply keys_held; eauto); destruct a; [|done].
    pose proof (keyboard_v2_keys_only rdev_modifier keycode_from_usb_hid i c1) as Hk'.
    destruct (input_keyboard_v2 _ _ i c1) as [es'' c2]; simpl in Hk, Hk'.
    split; [|done]; eapply (keys_held c'); eauto; by etrans.
  - pose proof (update_options_held e o c s Hc) as H; destruct (update_options e o (c, s)) as [es [c' s']].
    by destruct H.
  - pose proof (request_held e r c ss s Hc) as H.
    destruct (handle_session_permission_request _ _ e r c ss s) as [[[es c'] ss'] s']; by destruct H.
Qed.

End gate.
