(* ===== verification/HostLogin.v ===== *)
(** * The login of a viewer

    Models how a connection of the host becomes authorized, of src/src/server/
    connection.rs in a Linux build: the login request and the answers to it
    ([on_message]), the passwords and their limits ([validate_password],
    [check_update_temporary_password], file LoginFailure), the session that is
    resumed ([is_recent_session]), the second factor, the approval by the local
    user, what authorization sets up ([send_logon_response_and_keep_alive]), and the
    end of the connection, which may lock the screen ([on_close]).
    It composes them with the permissions of the session (file
    SessionPermissions) and the server's services (file CaptureServer) into a
    host with several connections ([host_step]).

    The hash function, the stored form of the permanent password, one-time
    codes and the configuration are outside; they are parameters, or arguments
    of the operation that asks for them ([LoginEnv]). *)

From S2P Require Import Prelude SessionPermissions InputGate.
From S2P Require CaptureServer LoginFailure.
From stdpp Require Import pretty.
#[local] Open Scope Z_scope.

#[local] Arguments LoginFailure.check_failure_with_scope : simpl never.
#[local] Arguments LoginFailure.update_failure_with_scope : simpl never.

(** ** The host *)

(** The current temporary password, and the failures counted for it. *)
Record Temporary := { temporary_password : string; counted_password : string; failures : Z }.
#[export] Instance eta_Temporary : Eta Temporary := fun r =>
  Build_Temporary (temporary_password r) (counted_password r) (failures r).

(** What the process shares between its connections.  [LOGIN_FAILURES] is the
    pair of [password_failures] and [code_failures]. *)
Record Shared := {
  sessions : Sessions;
  authed_conns : list AuthedConn;
  password_failures : LoginFailure.Stores;
  code_failures : LoginFailure.Stores;
  temporary : Temporary;
  switch_sides_uuid : gmap string (instant * Z);
  server : Server;
}.
#[export] Instance eta_Shared : Eta Shared := fun r =>
  Build_Shared (sessions r) (authed_conns r) (password_failures r) (code_failures r) (temporary r)
    (switch_sides_uuid r) (server r).

Record TrustedDevice := { d_hwid : string; d_id : string; d_name : string; d_platform : string; outdate : bool }.
Inductive ApproveMode := ApproveBoth | ApprovePassword | ApproveClick.
#[export] Instance ApproveMode_eq_dec : EqDecision ApproveMode.
Proof. solve_decision. Defined.

(** What the configuration and the platform answer during a message. *)
Record LoginEnv := {
  env : Env;
  now_ms : Z;
  valid_username : string -> bool;
  supports_no_password_access : bool;
  in_privacy_mode : bool;
  is_headless_allowed : bool;
  headless_user : string;
  desktop_error : string;
  logon_screen : bool;
  approve_mode : ApproveMode;
  has_valid_password : bool;
  temporary_enabled : bool;
  permanent_enabled : bool;
  local_storage : string;
  hard_password : string;
  next_password : string;
  trusted_devices : list TrustedDevice;
  totp_accepts : option bool;
  service_specified_user : option bool;
  port_forward_connects : bool;
  display_server_error : string;
  displays : string + nat;
  camera_exists : bool;
}.

Definition LOGIN_MSG_DESKTOP_SESSION_NOT_READY : string := "Desktop session not ready".
Definition LOGIN_MSG_PASSWORD_WRONG : string := "Wrong Password".
Definition SESSION_TIMEOUT : Z := 30 * 1000000000.
Definition LOGIN_MSG_DESKTOP_SESSION_NOT_READY_PASSWORD_EMPTY : string :=
  "Desktop session not ready, password empty".
Definition LOGIN_MSG_DESKTOP_SESSION_NOT_READY_PASSWORD_WRONG : string :=
  "Desktop session not ready, password wrong".
Definition LOGIN_MSG_2FA_WRONG : string := "Wrong 2FA Code".
Definition REQUIRE_2FA : string := "2FA Required".
Definition LOGIN_MSG_NO_PASSWORD_ACCESS : string := "No Password Access".
Definition LOGIN_MSG_OFFLINE : string := "Offline".

(** ** A computation on a connection and the shared state, which emits effects *)

Definition State : Type := Connection * Shared.
Definition M (A : Type) : Type := State -> A * list Effect * State.

Definition ret {A} (x : A) : M A := fun st => (x, [], st).
Definition bind {A B} (m : M A) (f : A -> M B) : M B :=
  fun st => let '(x, es, st) := m st in let '(y, es', st) := f x st in (y, es ++ es', st).

Declare Scope login_scope.
Delimit Scope login_scope with login.
Notation "x <- m ;; f" := (bind m (fun x => f))
  (at level 100, m at next level, right associativity) : login_scope.
Notation "m ;;; f" := (bind m (fun _ => f)) (at level 100, right associativity) : login_scope.
#[local] Open Scope login_scope.

Definition emit (es : list Effect) : M () := fun st => ((), es, st).
Definition conn {A} (f : Connection -> A) : M A := fun st => (f st.1, [], st).
Definition shared {A} (f : Shared -> A) : M A := fun st => (f st.2, [], st).
Definition set_conn (f : Connection -> Connection) : M () := fun '(c, h) => ((), [], (f c, h)).
Definition set_shared (f : Shared -> Shared) : M () := fun '(c, h) => ((), [], (c, f h)).
Definition when (b : bool) (m : M ()) : M () := if b then m else ret ().

(** A message that says the login failed, and whether the connection stays. *)
Definition login_error (error : string) (keep : bool) : M bool := emit [LoginError error] ;;; ret keep.

Section host.
Variable option2bool : OptionKey -> string -> bool.
Variable control_value : ControlPermission -> Z.
Variable rdev_modifier : Z -> option Z.
Variable validate_keyboard_input : KeyboardInput -> bool.
Variable keycode_from_usb_hid : Z -> option Z.
Variable parse_v6 : string -> option Z.
(** SHA-256, the UTF-8 bytes of a string, and
    [decode_permanent_password_h1_from_storage]. *)
Variable sha256 : list Z -> list Z.
Variable utf8 : string -> list Z.
Variable decode_h1 : string -> option (list Z).

(** ** Passwords *)

Fixpoint constant_time_fold (a b : list Z) (x : Z) : Z :=
  match a, b with
  | p :: a, q :: b => constant_time_fold a b (Z.lor x (Z.lxor p q))
  | _, _ => x
  end.
Definition constant_time_eq (a b : list Z) : bool :=
  if negb (length a =? length b)%nat then false else constant_time_fold a b 0 =? 0.

Definition verify_h1 (h1 : list Z) (c : Connection) : bool :=
  constant_time_eq (sha256 (h1 ++ utf8 (challenge (hash c)))) (password (lr c)).
Definition validate_password_plain (p : string) (c : Connection) : bool :=
  if (p =? "")%string then false
  else verify_h1 (sha256 (utf8 p ++ utf8 (salt (hash c)))) c.
Definition validate_password_storage (storage : string) (c : Connection) : bool :=
  if (storage =? "")%string then false
  else match decode_h1 storage with
       | Some h1 => verify_h1 h1 c
       | None => validate_password_plain storage c
       end.

Definition MAX_CONSECUTIVE_FAILURES : Z := 10.
Definition check_update_temporary_password (e : LoginEnv) (success : bool) (t : Temporary) : Temporary :=
  if negb (temporary_enabled e) then t
  else
    let current := temporary_password t in
    if (current =? "")%string then t
    else
      let t := if (counted_password t =? current)%string then t
               else t <| counted_password := current |> <| failures := 0 |> in
      if success then t <| failures := 0 |>
      else
        let t := t <| failures ::= fun n => n + 1 |> in
        if failures t <? MAX_CONSECUTIVE_FAILURES then t
        else {| temporary_password := next_password e; counted_password := next_password e; failures := 0 |}.

Definition update_or_insert_session_auth (e : LoginEnv) (kind : SessionAuthKind) (pw : option string)
    (two_factor : option bool) : M () :=
  set_conn (fun c => c <| session_auth_kind := kind |>) ;;;
  k <- conn session_key ;;
  set_shared (fun h => h <| sessions ::=
    update_or_insert_session k pw two_factor (Some kind) (now (env e)) |>).

(** The part of [validate_password] behind the temporary password. *)
Definition permanent_password_matches (e : LoginEnv) (c : Connection) : bool :=
  if negb (local_storage e =? "")%string then validate_password_storage (local_storage e) c
  else negb (hard_password e =? "")%string && validate_password_plain (hard_password e) c.
Definition validate_permanent_password (e : LoginEnv) : M bool :=
  ok <- conn (permanent_password_matches e) ;;
  when ok (update_or_insert_session_auth e UnattendedPassword None None) ;;;
  ret ok.

Definition validate_password (e : LoginEnv) (allow_permanent_password : bool) : M bool :=
  pw <- shared (fun h => temporary_password (temporary h)) ;;
  by_temporary <- conn (fun c => temporary_enabled e && validate_password_plain pw c) ;;
  if by_temporary then
    update_or_insert_session_auth e OneTimePassword (Some pw) (Some false) ;;;
    set_shared (fun h => h <| temporary ::= check_update_temporary_password e true |>) ;;;
    ret true
  else if permanent_enabled e || allow_permanent_password then validate_permanent_password e
  else ret false.

(** The failure tables. *)
Definition check_failure (e : LoginEnv) (codes : bool) : M (bool * LoginFailure.FailureEntry * Z) :=
  address <- conn ip ;;
  stores <- shared (if codes then code_failures else password_failures) ;;
  let '((f, time, v), _) :=
    LoginFailure.check_failure_with_scope parse_v6 address LoginFailure.Default (now_ms e) stores in
  match v with
  | LoginFailure.Pass => ret (true, f, time)
  | LoginFailure.Refuse error _ => emit [LoginError error] ;;; ret (false, f, time)
  end.
Definition update_failure (e : LoginEnv) (codes : bool) (f : LoginFailure.FailureEntry) (time : Z)
    (remove : bool) : M () :=
  address <- conn ip ;;
  let update := LoginFailure.update_failure_with_scope parse_v6 address f time remove
                  LoginFailure.Default (now_ms e) in
  set_shared (fun h => if codes then h <| code_failures ::= update |>
                       else h <| password_failures ::= update |>).

(** ** Sessions that are resumed *)

Definition last_recv (ss : Sessions) (s : Session) : instant :=
  unwrap_or (cells ss !! last_recv_time s) 0.
Definition retain_recent (now_ : instant) (ss : Sessions) : Sessions :=
  ss <| table ::= filter (fun '(_, s) => since now_ (last_recv ss s) < SESSION_TIMEOUT) |>.

Definition is_recent_session (e : LoginEnv) (two_factor : bool) : M bool :=
  set_shared (fun h => h <| sessions ::= retain_recent (now (env e)) |>) ;;;
  k <- conn session_key ;;
  found <- shared (fun h => table (sessions h) !! k) ;;
  match found with
  | None => ret false
  | Some s =>
      ok <- conn (fun c => bool_decide (password (lr c) <> []) &&
        (two_factor && tfa s || negb two_factor && validate_password_plain (random_password s) c)) ;;
      when ok (set_conn (fun c => c <| session_auth_kind := s_auth_kind s |>)) ;;;
      ret ok
  end.

(** ** Authorization *)

(** A Linux build: the token of the session's user always suffices.  [Some
    keep] ends the login. *)
Definition prepare_terminal_login_for_authorization (e : LoginEnv) : M (option bool) :=
  skip <- conn (fun c => negb (terminal c) || terminal_user_token c) ;;
  if skip then ret None
  else
    set_conn (fun c => c <| terminal_user_token := true |>) ;;;
    if bool_decide (service_specified_user e = Some true) then
      keep <- login_error "Terminal service user mismatch detected." false ;; ret (Some keep)
    else ret None.

Definition normalize_port_forward_target (host : string) (port : Z) : string * bool :=
  let is_rdp := (host =? "RDP")%string && (port =? 0) in
  let '(host, port) := if is_rdp then ("localhost"%string, 3389) else (host, port) in
  let host := if (host =? "")%string then "localhost"%string else host in
  (host +:+ ":" +:+ pretty port, is_rdp).

Definition connect_port_forward_if_needed (e : LoginEnv) : M bool :=
  connected <- conn port_forward_socket ;;
  if connected then ret true
  else
    u <- conn (fun c => lr_union (lr c)) ;;
    match u with
    | LoginPortForward host port =>
        let '(addr, is_rdp) := normalize_port_forward_target host port in
        set_conn (fun c => c <| port_forward_address := addr |>) ;;;
        if port_forward_connects e then
          set_conn (fun c => c <| port_forward_socket := true |>) ;;; ret true
        else login_error ("Failed to access remote " +:+ (if is_rdp then "RDP" else addr) +:+
                          ". Please make sure it is reachable/open.") false
    | _ => ret true
    end.

(** The type under which [AuthedConnID] lists the connection. *)
Definition authed_type (c : Connection) : AuthConnType :=
  if is_some (file_transfer c) then FileTransfer
  else if port_forward_socket c then PortForward
  else if view_camera c then ViewCamera
  else if terminal c then Terminal
  else Remote.

Definition new_authed_conn_id : M () :=
  t <- conn authed_type ;;
  set_conn (fun c => c <| authorized := true |> <| authed_conn_id := Some t |>) ;;;
  entry <- conn (fun c => {| a_conn_id := CaptureServer.conn_id (inner c); a_conn_type := t;
                             a_session_key := session_key c; a_auth_kind := session_auth_kind c |}) ;;
  set_shared (fun h => h <| authed_conns ::= fun l => l ++ [entry] |>) ;;;
  emit (if bool_decide (t = Remote) || bool_decide (t = ViewCamera) then [QosConnectionOpen] else []) ;;;
  k <- conn session_key ;;
  cell <- shared (fun h => last_recv_time <$> table (sessions h) !! k) ;;
  set_conn (fun c => c <| session_last_recv_time := cell |>).

Definition noperms (e : Env) (c : Connection) : list string :=
  (if can_sub_cursor_tracking_services c then [] else [NAME_CURSOR; NAME_POS]) ++
  (if follow_remote_window (option_flags c) then [] else [CaptureServer.NAME_WINDOW_FOCUS]) ++
  (if can_sub_clipboard_service e c then [] else [CLIPBOARD_NAME]) ++
  (if can_sub_file_clipboard_service e c then [] else [FILE_CLIPBOARD_NAME]) ++
  (if audio_enabled c then [] else [AUDIO_NAME]).

Definition try_sub_monitor_services (e : Env) : M () :=
  go <- conn (fun c => is_remote c && negb (services_subed c)) ;;
  when go (
    set_conn (fun c => c <| services_subed := true |>) ;;;
    c <- conn (fun c => c) ;;
    set_shared (fun h => h <| server ::= fun s =>
      CaptureServer.add_monitor_connection (inner c) (noperms e c) (display_idx c)
        (CaptureServer.try_add_monitor_service (display_idx c) s) |>)).

Definition try_sub_camera_displays (e : LoginEnv) : M () :=
  c <- conn inner ;;
  set_shared (fun h => h <| server ::= fun s =>
    CaptureServer.add_camera_connection (camera_exists e) c
      (CaptureServer.try_add_primary_camera_service (camera_exists e) s) |>).

Definition step_of (f : Step) : M () := fun '(c, h) =>
  let '(es, (c, s)) := f (c, server h) in ((), es, (c, h <| server := s |>)).

(** What follows the login response of a connection that is not a tunnel. *)
Definition after_login_response (e : LoginEnv) (sub_service : bool) : M () :=
  o <- conn options_in_login ;;
  set_conn (fun c => c <| options_in_login := None |>) ;;;
  match o with
  | Some (_, o) => step_of (update_options (env e) o)
  | None => ret ()
  end ;;;
  c <- conn (fun c => c) ;;
  match file_transfer c with
  | Some (dir, show_hidden) => emit [ReadDir dir show_hidden]
  | None =>
      if terminal c then
        set_conn (fun c => c <| perms ::= fun r => r <| keyboard := false |> |>) ;;; emit [InitTerminal]
      else if view_camera c then
        try_sub_camera_displays e ;;;
        set_conn (fun c => c <| perms ::= fun r => r <| keyboard := false |> |>) ;;;
        emit [SendPermission Keyboard false]
      else when sub_service (try_sub_monitor_services (env e))
  end.

(** The second half of [send_logon_response_and_keep_alive], once authorized. *)
Definition send_logon_response (e : LoginEnv) (permission_updates : list Effect) : M () :=
  c <- conn (fun c => c) ;;
  if port_forward_socket c then emit (LoginResponse "" :: permission_updates)
  else if is_remote c && negb (display_server_error e =? "")%string then
    emit [LoginResponse (display_server_error e)]
  else
    let desktop := negb (is_some (file_transfer c)) && negb (terminal c) && negb (view_camera c) in
    prepared <- (if desktop then
        match displays e with
        | inr primary => set_conn (fun c => c <| display_idx := primary |>) ;;; ret (true, ""%string)
        | inl error => ret (false, error)
        end
      else ret (false, ""%string)) ;;
    let '(sub_service, error) := prepared in
    emit (LoginResponse error :: permission_updates) ;;;
    after_login_response e sub_service.

Definition send_logon_response_and_keep_alive (e : LoginEnv) : M bool :=
  already <- conn authorized ;;
  if already then ret true
  else
    second <- conn require_2fa ;;
    missing <- (if second then
        recent <- is_recent_session e true ;;
        switched <- conn from_switch ;;
        ret (negb recent && negb switched)
      else ret false) ;;
    if missing then login_error REQUIRE_2FA true
    else
      c <- conn (fun c => c) ;;
      denied <- shared (fun h => session_connection_policy_denial_reason c (sessions h)) ;;
      match denied with
      | Some reason => login_error reason false
      | None =>
          ended <- prepare_terminal_login_for_authorization e ;;
          match ended with
          | Some keep => ret keep
          | None =>
              set_conn apply_session_permission_defaults ;;;
              permission_updates <- conn effective_permission_updates ;;
              connected <- connect_port_forward_if_needed e ;;
              if negb connected then ret false
              else
                new_authed_conn_id ;;;
                send_logon_response e permission_updates ;;;
                ret true
          end
      end.

(** ** Messages *)

Definition bypassed_by_device (e : LoginEnv) (r : LoginRequest) : bool :=
  match List.find (fun d => (d_hwid d =? hwid r)%string) (trusted_devices e) with
  | Some d => negb (outdate d) && (d_id d =? my_id r)%string && (d_name d =? my_name r)%string &&
              (d_platform d =? my_platform r)%string
  | None => false
  end.
Definition enable_trusted_devices (e : LoginEnv) : bool :=
  option2bool OPTION_ENABLE_TRUSTED_DEVICES (get_option (env e) OPTION_ENABLE_TRUSTED_DEVICES).

Definition handle_login_request_without_validation (e : LoginEnv) (r : LoginRequest) : M () :=
  set_conn (fun c => c <| lr := r |>) ;;;
  set_conn (fun c => match login_option r with
                     | Some o => c <| options_in_login := Some o |>
                     | None => c
                     end) ;;;
  set_conn (fun c =>
    if require_2fa c && negb (hwid r =? "")%string && enable_trusted_devices e && bypassed_by_device e r
    then c <| require_2fa := false |> else c).

(** The type of connection a login asks for; [Some keep] ends the login. *)
Definition handle_login_union (e : LoginEnv) (u : LoginUnion) : M (option bool) :=
  let allowed k := conn (fun c => permission option2bool control_value (env e) k (control_permissions c)) in
  let refuse error := keep <- login_error error false ;; ret (Some keep) in
  match u with
  | LoginFileTransfer dir show_hidden =>
      ok <- allowed OPTION_ENABLE_FILE_TRANSFER ;;
      if negb ok then refuse "No permission of file transfer"
      else set_conn (fun c => c <| file_transfer := Some (dir, show_hidden) |>) ;;; ret None
  | LoginViewCamera =>
      ok <- allowed OPTION_ENABLE_CAMERA ;;
      if negb ok then refuse "No permission of viewing camera"
      else set_conn (fun c => c <| view_camera := true |> <| inner ::= fun i =>
             {| CaptureServer.conn_id := CaptureServer.conn_id i; CaptureServer.tx := CaptureServer.tx i;
                CaptureServer.tx_video := CaptureServer.tx_video i;
                CaptureServer.conn_source := CaptureServer.Camera |} |>) ;;; ret None
  | LoginTerminal service_id =>
      ok <- allowed OPTION_ENABLE_TERMINAL ;;
      if negb ok then refuse "No permission of terminal"
      else
        set_conn (fun c => c <| terminal := true |> <| terminal_service_id := service_id |>) ;;;
        set_conn (fun c => match options_in_login c with
                           | Some (p, _) => c <| terminal_persistent := p |>
                           | None => c
                           end) ;;;
        ret None
  | LoginPortForward host port =>
      ok <- allowed OPTION_ENABLE_TUNNEL ;;
      if negb ok then refuse "No permission of IP tunneling"
      else set_conn (fun c => c <| port_forward_address := (normalize_port_forward_target host port).1 |>) ;;;
           ret None
  | LoginOther =>
      if in_privacy_mode e then refuse "Someone turns on privacy mode, exit" else ret None
  end.

Definition try_start_cm (is_authorized : bool) : M () := emit [StartCm is_authorized].

(** Authorization, followed by the window of the connection manager. *)
Definition log_on (e : LoginEnv) : M bool :=
  keep <- send_logon_response_and_keep_alive e ;;
  if negb keep then ret false
  else a <- conn authorized ;; try_start_cm a ;;; ret true.

Definition allow_logon_screen_password (e : LoginEnv) : bool :=
  (get_builtin_option (env e) OPTION_ALLOW_LOGON_SCREEN_PASSWORD =? "Y")%string && logon_screen e.

(** A password, or none, was given; [err_msg] is what starting a desktop said. *)

Definition handle_login_password (e : LoginEnv) (r : LoginRequest) (err_msg : string) : M bool :=
  let ready := (err_msg =? "")%string in
  recent <- is_recent_session e false ;;
  if recent then if ready then log_on e else login_error err_msg true
  else if bool_decide (password r = []) then
    if ready then try_start_cm false ;;; ret true
    else login_error LOGIN_MSG_DESKTOP_SESSION_NOT_READY_PASSWORD_EMPTY true
  else
    checked <- check_failure e false ;;
    let '(res, f, time) := checked in
    if negb res then ret true
    else
      valid <- validate_password e (allow_logon_screen_password e) ;;
      if negb valid then
        update_failure e false f time false ;;;
        set_shared (fun h => h <| temporary ::= check_update_temporary_password e false |>) ;;;
        if ready then login_error LOGIN_MSG_PASSWORD_WRONG true ;;; try_start_cm false ;;; ret true
        else login_error LOGIN_MSG_DESKTOP_SESSION_NOT_READY_PASSWORD_WRONG true
      else
        update_failure e false f time true ;;;
        if ready then log_on e else login_error err_msg true.

(** The desktop a headless host starts for the user; [Some keep] ends the
    login. *)
Definition start_headless_desktop (e : LoginEnv) (r : LoginRequest) : M (option bool) :=
  let os_login := is_headless_allowed e && negb (trim (os_username r) =? "")%string in
  res <- (if os_login && (headless_user e =? "")%string
          then checked <- check_failure e false ;; ret checked.1.1 else ret true) ;;
  if negb res then ret (Some true)
  else if negb (desktop_error e =? "")%string &&
          negb (desktop_error e =? LOGIN_MSG_DESKTOP_SESSION_NOT_READY)%string then
    res <- (if os_login && (desktop_error e =? LOGIN_MSG_PASSWORD_WRONG)%string then
              checked <- check_failure e false ;;
              let '(res, f, time) := checked in
              when res (update_failure e false f time false) ;;; ret res
            else ret true) ;;
    if negb res then ret (Some true) else keep <- login_error (desktop_error e) true ;; ret (Some keep)
  else ret None.

Definition handle_login_request (e : LoginEnv) (r : LoginRequest) : M bool :=
  handle_login_request_without_validation e r ;;;
  already <- conn authorized ;;
  if already then ret true
  else
    ended <- handle_login_union e (lr_union r) ;;
    match ended with
    | Some keep => ret keep
    | None =>
        if negb (valid_username e (username r)) then login_error LOGIN_MSG_OFFLINE false
        else
          ended <- start_headless_desktop e r ;;
          match ended with
          | Some keep => ret keep
          | None =>
              if (bool_decide (approve_mode e = ApproveClick) && negb (allow_logon_screen_password e)) ||
                 (bool_decide (approve_mode e = ApproveBoth) && negb (has_valid_password e)) then
                try_start_cm false ;;;
                emit (if supports_no_password_access e then [LoginError LOGIN_MSG_NO_PASSWORD_ACCESS] else []) ;;;
                ret true
              else handle_login_password e r (desktop_error e)
          end
    end.

Definition handle_auth_2fa (e : LoginEnv) (device : string) : M bool :=
  checked <- check_failure e true ;;
  let '(res, f, time) := checked in
  if negb res then ret true
  else
    second <- conn require_2fa ;;
    if negb second then ret true
    else
      match totp_accepts e with
      | Some true =>
          update_failure e true f time true ;;;
          set_conn (fun c => c <| require_2fa := false |>) ;;;
          c <- conn (fun c => c) ;;
          set_shared (fun h => h <| sessions ::=
            set_session_2fa (session_key c) (session_auth_kind c) (now (env e)) |>) ;;;
          keep <- log_on e ;;
          emit (if keep && negb (device =? "")%string && enable_trusted_devices e
                then [AddTrustedDevice device] else []) ;;;
          ret keep
      | Some false => update_failure e true f time false ;;; login_error LOGIN_MSG_2FA_WRONG true
      | None => ret true
      end.

Definition handle_switch_sides (e : LoginEnv) (r : LoginRequest) (uuid : option Z) : M bool :=
  handle_login_request_without_validation e r ;;;
  set_shared (fun h => h <| switch_sides_uuid ::=
    filter (fun '(_, (t, _)) => since (now (env e)) t < 10 * 1000000000) |>) ;;;
  expected <- shared (fun h => switch_sides_uuid h !! my_id r) ;;
  set_shared (fun h => h <| switch_sides_uuid ::= delete (my_id r) |>) ;;;
  match expected with
  | Some (_, u) =>
      if bool_decide (uuid = Some u) then set_conn (fun c => c <| from_switch := true |>) ;;; log_on e else ret true
  | None => ret true
  end.

(** The end of a connection, at most once; [lock_screen] types the keys that lock
    the desktop. *)
Definition on_close (lock : bool) (c : Connection) : list Effect * Connection :=
  if closed c then ([], c)
  else
    ((if lock && lock_after_session_end (option_flags c) && keyboard (perms c) then [LockScreen] else []) ++ [CmClosed],
     c <| closed := true |> <| port_forward_socket := false |>).
Definition close_connection (lock : bool) : M () := fun '(c, h) => let '(es, c) := on_close lock c in ((), es, (c, h)).

(** The messages of a viewer; [device] is the hardware id sent with a code. *)
Inductive PeerMessage :=
  | CloseReason
  | LoginMessage (r : LoginRequest)
  | Auth2fa (device : string)
  | SwitchSidesResponse (r : LoginRequest) (uuid : option Z)
  | Authorized (m : SessionMessage).

(** [on_message]: the message [authorized] connections handle are the last
    branch.  The result is whether the connection goes on. *)
Definition on_message (e : LoginEnv) (m : PeerMessage) : M bool :=
  match m with
  | CloseReason =>
      close_connection true ;;;
      c <- conn (fun c => c) ;;
      set_shared (fun h => h <| sessions ::=
        check_remove_session (CaptureServer.conn_id (inner c)) (session_key c) (authed_conns h) |>) ;;;
      ret false
  | LoginMessage r => handle_login_request e r
  | Auth2fa device => handle_auth_2fa e device
  | SwitchSidesResponse r uuid => handle_switch_sides e r uuid
  | Authorized m =>
      ok <- conn authorized ;;
      if ok then fun '(c, h) =>
        let '(es, c, ss, s) :=
          handle_session_message option2bool control_value rdev_modifier validate_keyboard_input
            keycode_from_usb_hid (env e) m c (sessions h) (server h) in
        (true, es, (c, h <| sessions := ss |> <| server := s |>))
      else ret true
  end.

(** The messages of the connection manager. *)
Inductive CmMessage :=
  | Authorize
  | Close
  | SwitchPermission (n : string) (b : bool)
  | PermissionRequestResult (request_id : Z) (approved : bool).

Definition handle_cm (e : LoginEnv) (m : CmMessage) : M bool :=
  match m with
  | Authorize =>
      set_conn (fun c => c <| session_auth_kind := ClickApproval |>) ;;;
      set_conn (fun c => c <| require_2fa := false |>) ;;;
      send_logon_response_and_keep_alive e
  | Close =>
      c <- conn (fun c => c) ;;
      set_shared (fun h => h <| sessions ::=
        check_remove_session (CaptureServer.conn_id (inner c)) (session_key c) (authed_conns h) |>) ;;;
      close_connection true ;;;
      ret false
  | SwitchPermission n b => fun '(c, h) =>
      let '(es, c, s) := handle_switch_permission (env e) n b c (sessions h) (server h) in
      (true, es, (c, h <| server := s |>))
  | PermissionRequestResult id approved => fun '(c, h) =>
      let '(es, c, ss, s) :=
        handle_permission_request_result option2bool control_value (env e) id approved c
          (sessions h) (server h) in
      (true, es, (c, h <| sessions := ss |> <| server := s |>))
  end.

(** ** The host and its connections *)

Definition new_connection (e : Env) (i : ConnInner) (two_factor : bool) (h : Hash) (address : string)
    (control : option Z) : Connection :=
  let allowed k := permission option2bool control_value e k control in
  {| inner := i; authorized := false; session_auth_kind := Unknown; authed_conn_id := None;
     lr := default_login;
     perms := {| keyboard := allowed OPTION_ENABLE_KEYBOARD; clipboard := allowed OPTION_ENABLE_CLIPBOARD;
                 audio := allowed OPTION_ENABLE_AUDIO; file := allowed OPTION_ENABLE_FILE_TRANSFER;
                 restart := allowed OPTION_ENABLE_REMOTE_RESTART;
                 recording := allowed OPTION_ENABLE_RECORD_SESSION;
                 block_input := allowed OPTION_ENABLE_BLOCK_INPUT |};
     option_flags := {| disable_keyboard := false; disable_clipboard := false; disable_audio := false;
                        enable_file_transfer := false; show_remote_cursor := false;
                        follow_remote_window := false; show_my_cursor := false; lock_after_session_end := false |};
     voice_calling := false; control_permissions := control; pending_permission_requests := ∅;
     remote_input_authorization := {| platform_state_dirty := false |}; pressed_modifiers := ∅;
     keyboard_input_receive_state := {| epoch := 0; last_sequence := 0 |}; require_2fa := two_factor;
     from_switch := false; file_transfer := None; view_camera := false; terminal := false;
     terminal_service_id := ""; terminal_persistent := false; terminal_user_token := false;
     port_forward_address := ""; port_forward_socket := false; session_last_recv_time := None;
     hash := h; ip := address; options_in_login := None; services_subed := false; display_idx := 0; closed := false |}.

(** Behind the loop of [start]. *)
Definition after_loop (e : LoginEnv) (c : Connection) (h : Shared) : Shared :=
  if authorized c then h <| temporary ::= fun t => t <| temporary_password := next_password e |> |> else h.

(** What a connection leaves behind when its loop ends and it is dropped. *)
Definition drop_connection (e : LoginEnv) (c : Connection) (h : Shared) : list Effect * Shared :=
  let '(es, c) := revoke_remote_input_authorization c in
  let '(es', c) := release_pressed_modifiers c in
  let h := after_loop e c h in
  let h := if is_some (authed_conn_id c)
           then h <| authed_conns ::= List.filter (fun a => negb (a_conn_id a =? CaptureServer.conn_id (inner c))) |>
           else h in
  (es ++ es' ++ (on_close true c).1, h <| server ::= CaptureServer.remove_connection (inner c) |>).

Record Host := { connections : gmap Z Connection; common : Shared }.
#[export] Instance eta_Host : Eta Host := fun r => Build_Host (connections r) (common r).

(** [Disconnect]: the transport fails, times out or is reset, or the connection
    manager is gone; [lock] is what the loop passes to [on_close]. *)
Inductive HostEvent :=
  | Connect (i : ConnInner) (two_factor : bool) (h : Hash) (address : string) (control : option Z)
  | Receive (id : Z) (m : PeerMessage)
  | FromCm (id : Z) (m : CmMessage)
  | Disconnect (id : Z) (lock : bool)
  | InsertSwitchSidesUuid (peer : string) (uuid : Z).

(** A message read from the stream renews the session of the connection. *)
Definition renew_session (e : LoginEnv) (c : Connection) (h : Shared) : Shared :=
  match session_last_recv_time c with
  | Some cell => h <| sessions ::= fun ss => ss <| cells ::= <[cell := now (env e)]> |> |>
  | None => h
  end.

Definition run_handler (e : LoginEnv) (id : Z) (m : M bool) (c : Connection) (h : Shared) (s : Host)
    : list Effect * Host :=
  let '(keep, es, (c, h)) := m (c, h) in
  if keep : bool then (es, {| connections := <[id := c]> (connections s); common := h |})
  else let '(es', h) := drop_connection e c h in
       (es ++ es', {| connections := delete id (connections s); common := h |}).

Definition host_step (e : LoginEnv) (ev : HostEvent) (s : Host) : list Effect * Host :=
  match ev with
  | Connect i two_factor h address control =>
      let id := CaptureServer.conn_id i in
      match connections s !! id with
      | Some _ => ([], s)
      | None => ([], s <| connections ::= <[id := new_connection (env e) i two_factor h address control]> |>)
      end
  | Receive id m =>
      match connections s !! id with
      | Some c => run_handler e id (on_message e m) c (renew_session e c (common s)) s
      | None => ([], s)
      end
  | FromCm id m =>
      match connections s !! id with
      | Some c => run_handler e id (handle_cm e m) c (common s) s
      | None => ([], s)
      end
  | Disconnect id lock =>
      match connections s !! id with
      | Some c => run_handler e id (close_connection lock ;;; ret false) c (common s) s
      | None => ([], s)
      end
  | InsertSwitchSidesUuid peer uuid =>
      ([], s <| common ::= fun h => h <| switch_sides_uuid ::= <[peer := (now (env e), uuid)]> |> |>)
  end.

Fixpoint host_run (es : list (LoginEnv * HostEvent)) (s : Host) : list (list Effect) * Host :=
  match es with
  | [] => ([], s)
  | (e, ev) :: es => let '(out, s) := host_step e ev s in
                     let '(outs, s) := host_run es s in (out :: outs, s)
  end.

(** ** Weakest preconditions *)

Definition wp {A} (m : M A) (Q : A -> list Effect -> State -> Prop) (st : State) : Prop :=
  let '(x, es, st') := m st in Q x es st'.

Lemma wp_ret {A} (x : A) Q st : wp (ret x) Q st = Q x [] st.
Proof. done. Qed.
Lemma wp_bind {A B} (m : M A) (f : A -> M B) Q st :
  wp m (fun x es st' => wp (f x) (fun y es' st'' => Q y (es ++ es') st'') st') st ->
  wp (bind m f) Q st.
Proof. unfold wp, bind; destruct (m st) as [[x es] st']; by destruct (f x st') as [[y es'] st'']. Qed.
Lemma wp_emit es Q st : wp (emit es) Q st = Q () es st.
Proof. done. Qed.
Lemma wp_conn {A} (f : Connection -> A) Q st : wp (conn f) Q st = Q (f st.1) [] st.
Proof. done. Qed.
Lemma wp_shared {A} (f : Shared -> A) Q st : wp (shared f) Q st = Q (f st.2) [] st.
Proof. done. Qed.
Lemma wp_set_conn f Q c h : wp (set_conn f) Q (c, h) = Q () [] (f c, h).
Proof. done. Qed.
Lemma wp_set_shared f Q c h : wp (set_shared f) Q (c, h) = Q () [] (c, f h).
Proof. done. Qed.
Lemma wp_mono {A} (m : M A) (Q Q' : A -> list Effect -> State -> Prop) st :
  wp m Q st -> (forall x es st', Q x es st' -> Q' x es st') -> wp m Q' st.
Proof. unfold wp; destruct (m st) as [[x es] st']; auto. Qed.

(** ** Relations every step of a computation keeps *)

Definition steps {A} (R : State -> State -> Prop) (m : M A) : Prop := forall st, R st (m st).2.

Section steps.
Context (R : State -> State -> Prop) `{!PreOrder R}.

Lemma steps_ret {A} (x : A) : steps R (ret x).
Proof. intros st; reflexivity. Qed.
Lemma steps_emit es : steps R (emit es).
Proof. intros st; reflexivity. Qed.
Lemma steps_conn {A} (f : Connection -> A) : steps R (conn f).
Proof. intros st; reflexivity. Qed.
Lemma steps_shared {A} (f : Shared -> A) : steps R (shared f).
Proof. intros st; reflexivity. Qed.
Lemma steps_bind {A B} (m : M A) (f : A -> M B) :
  steps R m -> (forall x, steps R (f x)) -> steps R (bind m f).
Proof.
  intros Hm Hf st; unfold bind; specialize (Hm st); destruct (m st) as [[x es] st'].
  specialize (Hf x st'); destruct (f x st') as [[y es'] st'']; simpl in *; by etrans.
Qed.
Lemma steps_when b m : steps R m -> steps R (when b m).
Proof. intros H; destruct b; [done|apply steps_ret]. Qed.
Lemma steps_login_error error keep : steps R (login_error error keep).
Proof. apply steps_bind; [apply steps_emit|intros; apply steps_ret]. Qed.
Lemma steps_set_conn f : (forall c h, R (c, h) (f c, h)) -> steps R (set_conn f).
Proof. intros H [c h]; apply H. Qed.
Lemma steps_set_shared f : (forall c h, R (c, h) (c, f h)) -> steps R (set_shared f).
Proof. intros H [c h]; apply H. Qed.
Lemma steps_wp {A} (m : M A) Q st :
  steps R m -> (forall x es st', R st st' -> Q x es st') -> wp m Q st.
Proof. intros Hm H; specialize (Hm st); unfold wp; destruct (m st) as [[x es] st']; by apply H. Qed.

End steps.

(** Takes a computation apart; what is left are its changes of the state. *)
Ltac walk :=
  repeat match goal with
  | |- steps _ (bind _ _) => apply steps_bind; [typeclasses eauto| |intros ?]
  | |- steps _ (ret _) => apply steps_ret; typeclasses eauto
  | |- steps _ (emit _) => apply steps_emit; typeclasses eauto
  | |- steps _ (conn _) => apply steps_conn; typeclasses eauto
  | |- steps _ (shared _) => apply steps_shared; typeclasses eauto
  | |- steps _ (when _ _) => apply steps_when; [typeclasses eauto|]
  | |- steps _ (login_error _ _) => apply steps_login_error; typeclasses eauto
  | |- steps _ (try_start_cm _) => apply steps_emit; typeclasses eauto
  | |- steps _ (set_conn _) => apply steps_set_conn; intros c h
  | |- steps _ (set_shared _) => apply steps_set_shared; intros c h
  | |- steps _ (if ?b then _ else _) => destruct b
  | |- steps _ (match ?x with _ => _ end) => destruct x
  | |- steps _ _ => solve [eauto with steps]
  end.
Create HintDb steps.

(** Nothing is gained: no authorization, grant or permission. *)
Record quiet (st st' : State) : Prop := {
  q_id : CaptureServer.conn_id (inner st'.1) = CaptureServer.conn_id (inner st.1);
  q_authorized : authorized st'.1 = authorized st.1;
  q_authed : authed_conn_id st'.1 = authed_conn_id st.1;
  q_list : authed_conns st'.2 = authed_conns st.2;
  q_grants : forall n, has_grant (sessions st'.2) n -> has_grant (sessions st.2) n;
  q_perms : forall p, enabled p (perms st'.1) = true -> enabled p (perms st.1) = true;
  q_clean : clean st.1 = true -> clean st'.1 = true;
}.
#[export] Instance quiet_preorder : PreOrder quiet.
Proof.
  split; [done|]; intros st1 st2 st3 [] []; constructor; try congruence; auto.
Qed.

(** Moreover the kind of session and the type of connection stay. *)
Record steady (st st' : State) : Prop := {
  s_quiet : quiet st st';
  s_kind : session_auth_kind st'.1 = session_auth_kind st.1;
  s_file : file_transfer st'.1 = file_transfer st.1;
  s_camera : view_camera st'.1 = view_camera st.1;
  s_terminal : terminal st'.1 = terminal st.1;
  s_socket : port_forward_socket st.1 = true -> port_forward_socket st'.1 = true;
}.
#[export] Instance steady_preorder : PreOrder steady.
Proof.
  split; [done|]; intros st1 st2 st3 [] []; constructor; try congruence; auto; by etrans.
Qed.

Lemma steady_conn (f : Connection -> Connection) c h :
  login_part (f c) = login_part c -> perms (f c) = perms c -> (clean c = true -> clean (f c) = true) -> steady (c, h) (f c, h).
Proof.
  unfold login_part; intros [= Hi Ha Hk Hc _ _ _ _ Hf Hv Ht _ Hs] Hp.
  repeat split; simpl; rewrite ?Hi, ?Hp, ?Hs; auto.
Qed.

Lemma quiet_sessions c h ss :
  (forall n, has_grant ss n -> has_grant (sessions h) n) -> quiet (c, h) (c, h <| sessions := ss |>).
Proof. by constructor. Qed.

Lemma update_session_grants k pw tf kind t ss n :
  has_grant (update_or_insert_session k pw tf kind t ss) n -> has_grant ss n.
Proof.
  unfold update_or_insert_session, insert_session; intros (k' & s & Hk & Hn).
  destruct (table ss !! k) as [s0|] eqn:E; simpl in Hk; apply lookup_insert_Some in Hk as [[<- <-]|[_ Hk]];
    try (by exists k', s).
  - exists k, s0; split; [done|]; revert Hn; by destruct pw, tf, kind.
  - simpl in Hn; set_solver.
Qed.
Lemma session_2fa_grants k kind t ss n : has_grant (set_session_2fa k kind t ss) n -> has_grant ss n.
Proof.
  unfold set_session_2fa, insert_session; intros (k' & s & Hk & Hn).
  destruct (table ss !! k) as [s0|] eqn:E; simpl in Hk; apply lookup_insert_Some in Hk as [[<- <-]|[_ Hk]];
    try (by exists k', s).
  - by exists k, s0.
  - simpl in Hn; set_solver.
Qed.
Lemma shrink_grants f ss n :
  (forall k s, f !! k = Some s -> table ss !! k = Some s) -> has_grant (ss <| table := f |>) n -> has_grant ss n.
Proof. intros H (k & s & Hk & Hn); exists k, s; auto. Qed.

Lemma without_validation_steady e r : steps steady (handle_login_request_without_validation e r).
Proof.
  unfold handle_login_request_without_validation; walk.
  - by repeat split.
  - destruct (login_option r); by repeat split.
  - case_match; by repeat split.
Qed.

Lemma steady_steps {A} (m : M A) : steps steady m -> steps quiet m.
Proof. intros H st; apply H. Qed.

(** Closing changes nothing of a connection but that it is closed, and its tunnel. *)
Lemma close_same lock c : exists b q, (on_close lock c).2 = c <| closed := b |> <| port_forward_socket := q |>.
Proof. unfold on_close; destruct (closed c) eqn:E; [exists true, (port_forward_socket c); rewrite <- E; by destruct c|by eexists _, _]. Qed.
Lemma close_quiet lock : steps quiet (close_connection lock).
Proof.
  intros [c h]; unfold close_connection; destruct (close_same lock c) as (b & q & Hc).
  destruct (on_close lock c) as [es c']; simpl in *; subst c'; by constructor.
Qed.

(** Quiet, and of the same kind of session: the end of a connection. *)
Definition parting (st st' : State) : Prop := quiet st st' /\ session_auth_kind st'.1 = session_auth_kind st.1.
#[local] Instance parting_preorder : PreOrder parting.
Proof. split; [done|]; intros ? ? ? [] []; split; [by etrans|congruence]. Qed.

Lemma close_parting lock : steps parting (close_connection lock).
Proof.
  intros [c h]; split; [apply close_quiet|]; unfold close_connection; destruct (close_same lock c) as (b & q & Hc).
  by destruct (on_close lock c) as [es c']; simpl in *; subst c'.
Qed.

Lemma disconnect_quiet lock : steps quiet (close_connection lock ;;; ret false).
Proof. apply steps_bind; [typeclasses eauto|apply close_quiet|intros; apply steps_ret; typeclasses eauto]. Qed.

Lemma recent_quiet e b : steps quiet (is_recent_session e b).
Proof.
  unfold is_recent_session; walk.
  - apply quiet_sessions; intros n; apply shrink_grants; intros k s [? _]%map_lookup_filter_Some; done.
  - by constructor.
Qed.

Lemma check_failure_steady e b : steps steady (check_failure e b).
Proof. unfold check_failure; walk. Qed.

Lemma update_failure_steady e b f t r : steps steady (update_failure e b f t r).
Proof. unfold update_failure; walk; by destruct b; repeat split. Qed.

Lemma session_auth_quiet e kind pw tf : steps quiet (update_or_insert_session_auth e kind pw tf).
Proof.
  unfold update_or_insert_session_auth; walk; [by constructor|].
  apply quiet_sessions; intros n; apply update_session_grants.
Qed.
#[local] Hint Resolve close_quiet close_parting without_validation_steady steady_steps recent_quiet check_failure_steady
  update_failure_steady session_auth_quiet : steps.

Lemma validate_password_quiet e b : steps quiet (validate_password e b).
Proof. unfold validate_password, validate_permanent_password; walk; by constructor. Qed.

Lemma login_union_quiet e u : steps quiet (handle_login_union e u).
Proof.
  unfold handle_login_union; walk; try (by constructor).
  destruct (options_in_login c) as [[]|]; by constructor.
Qed.

Lemma headless_quiet e r : steps quiet (start_headless_desktop e r).
Proof. unfold start_headless_desktop; walk. Qed.

Lemma prepare_steady e : steps steady (prepare_terminal_login_for_authorization e).
Proof. unfold prepare_terminal_login_for_authorization; walk; by repeat split. Qed.

Lemma defaults_perms k n b : session_default_permission k n b = true -> b = true.
Proof. unfold session_default_permission, low_permission_default; repeat case_match; done. Qed.
Lemma defaults_steady : steps steady (set_conn apply_session_permission_defaults).
Proof.
  walk; repeat split; auto; intros p; destruct p; simpl; apply defaults_perms.
Qed.

Lemma forward_steady e : steps steady (connect_port_forward_if_needed e).
Proof. unfold connect_port_forward_if_needed; walk; by repeat split. Qed.

Lemma step_of_steady f : keeps f -> steps steady (step_of f).
Proof.
  intros Hf [c h]; unfold step_of; specialize (Hf c (server h)).
  destruct (f (c, server h)) as [es [c' s]], Hf as (Hl & Hp & _ & Hcl); simpl.
  destruct (steady_conn (fun _ => c') c h Hl Hp Hcl) as [[] ? ? ? ? ?]; by repeat split.
Qed.
#[local] Hint Resolve validate_password_quiet login_union_quiet headless_quiet prepare_steady
  defaults_steady forward_steady step_of_steady : steps.

Lemma monitor_steady e : steps steady (try_sub_monitor_services e).
Proof. unfold try_sub_monitor_services; walk; by repeat split. Qed.
Lemma camera_steady e : steps steady (try_sub_camera_displays e).
Proof. unfold try_sub_camera_displays; walk; by repeat split. Qed.
#[local] Hint Resolve monitor_steady camera_steady : steps.

Lemma after_response_steady e b : steps steady (after_login_response e b).
Proof.
  unfold after_login_response; walk; try (by repeat split).
  - apply step_of_steady, update_options_keeps.
  - repeat split; auto; intros p; by destruct p.
  - repeat split; auto; intros p; by destruct p.
Qed.
#[local] Hint Resolve after_response_steady : steps.

Lemma logon_response_steady e us : steps steady (send_logon_response e us).
Proof. unfold send_logon_response; walk; by repeat split. Qed.
#[local] Hint Resolve logon_response_steady : steps.

(** ** What authorization takes *)

(** The second factor, when it is asked for, was given to a session that is
    resumed, or the connection comes from the other side. *)
Definition second_factor_ok (e : LoginEnv) (st : State) : Prop :=
  require_2fa st.1 = true -> from_switch st.1 = true \/
  exists s, table (sessions st.2) !! session_key st.1 = Some s /\ tfa s = true /\
    since (now (env e)) (last_recv (sessions st.2) s) < SESSION_TIMEOUT.

(** What is known of the entry [a] of a connection that is not unattended. *)
Definition limited (st st' : State) (a : AuthedConn) : Prop :=
  (forall p, enabled p (perms st'.1) = true -> p = Keyboard) /\
  (a_conn_type a = FileTransfer -> has_grant (sessions st.2) (connection_type_grant_name FileTransfer)) /\
  (a_conn_type a <> Remote -> a_conn_type a <> PortForward ->
     exists t, t <> Remote /\ has_grant (sessions st.2) (connection_type_grant_name t)).

Record authorizes (st st' : State) : Prop := {
  z_id : CaptureServer.conn_id (inner st'.1) = CaptureServer.conn_id (inner st.1);
  z_grants : forall n, has_grant (sessions st'.2) n -> has_grant (sessions st.2) n;
  z_authorized : authorized st'.1 = true;
  z_authed : is_some (authed_conn_id st'.1) = true;
  z_clean : clean st.1 = true -> clean st'.1 = true;
  z_entry : exists a, authed_conns st'.2 = authed_conns st.2 ++ [a] /\
    a_conn_id a = CaptureServer.conn_id (inner st.1) /\ a_auth_kind a = session_auth_kind st'.1 /\
    (is_unattended_access (session_auth_kind st'.1) = false -> limited st st' a);
}.

Lemma quiet_authorizes st1 st2 st3 : quiet st1 st2 -> authorizes st2 st3 -> authorizes st1 st3.
Proof.
  intros [Hi _ _ Hl Hg _ Hcl] [Hi' Hg' Ha Hc Hcl' (a & He & Hid & Hk & Hlim)]; constructor; try congruence; [auto|auto|].
  exists a; rewrite He, Hl, Hid; split_and!; [done|done|done|].
  intros Hu; destruct (Hlim Hu) as (Hp & Hf & Ht); split_and!; [done|auto|].
  intros H1 H2; destruct (Ht H1 H2) as (t & ? & ?); eauto.
Qed.

Lemma authorizes_steady st1 st2 st3 : authorizes st1 st2 -> steady st2 st3 -> authorizes st1 st3.
Proof.
  intros [Hi Hg Ha Hc Hcl (a & He & Hid & Hk & Hlim)] [[Hi' Ha' Hc' Hl' Hg' Hp' Hcl'] Hk' _ _ _ _].
  constructor; try congruence; [auto|auto|].
  exists a; rewrite Hl', Hk'; split_and!; [done|done|done|].
  intros Hu; destruct (Hlim Hu) as (Hp & Hf & Ht); split_and!; auto.
Qed.

Lemma defaults_limited k r : is_unattended_access k = false -> forall p,
  enabled p {| keyboard := session_default_permission k "keyboard" (keyboard r);
       clipboard := session_default_permission k "clipboard" (clipboard r);
       audio := session_default_permission k "audio" (audio r);
       file := session_default_permission k "file" (file r);
       restart := session_default_permission k "restart" (restart r);
       recording := session_default_permission k "recording" (recording r);
       block_input := session_default_permission k "block_input" (block_input r) |} = true -> p = Keyboard.
Proof. unfold session_default_permission; intros -> p; by destruct p. Qed.

(** The policy let a limited session pass: its type was granted. *)
Lemma policy_passed c ss :
  session_connection_policy_denial_reason c ss = None -> is_unattended_access (session_auth_kind c) = false ->
  conn_type_of_login c <> Remote -> has_grant ss (connection_type_grant_name (conn_type_of_login c)).
Proof.
  unfold session_connection_policy_denial_reason, connection_policy_denial_reason_with_grant,
    is_low_permission_support; intros H Hu Hr; rewrite Hu in H; revert H; simpl.
  destruct (session_connection_granted _ _ _) eqn:E; [intros _; by eapply connection_granted|].
  by destruct (conn_type_of_login c).
Qed.

Lemma login_type_file c : is_some (file_transfer c) = true -> conn_type_of_login c = FileTransfer.
Proof. unfold conn_type_of_login; by intros ->. Qed.
Lemma login_type_other c : view_camera c = true \/ terminal c = true -> conn_type_of_login c <> Remote.
Proof.
  unfold conn_type_of_login; intros H; repeat case_match; try done; destruct H; congruence.
Qed.

(** The moment of authorization: [c] is the connection the policy let pass. *)
Lemma new_authed_authorizes c h st :
  session_connection_policy_denial_reason c (sessions h) = None -> steady (c, h) st ->
  (is_unattended_access (session_auth_kind c) = false -> forall p, enabled p (perms st.1) = true -> p = Keyboard) ->
  wp new_authed_conn_id (fun _ _ st' => authorizes (c, h) st') st.
Proof.
  destruct st as [c1 h1]; intros Hd [[Hi _ _ Hl Hg _] Hk Hf Hv Ht Hs] Hp; simpl in *.
  unfold wp, new_authed_conn_id, bind; simpl; constructor; simpl; try done.
  exists {| a_conn_id := CaptureServer.conn_id (inner c1); a_conn_type := authed_type c1;
            a_session_key := session_key c1; a_auth_kind := session_auth_kind c1 |}.
  rewrite Hl; split_and!; [done|done|done|]; simpl; rewrite Hk; intros Hu; split_and!; [by apply Hp| |].
  - unfold authed_type; rewrite Hf; destruct (is_some (file_transfer c)) eqn:E; [intros _|by repeat case_match].
    rewrite <- (login_type_file c E); apply policy_passed; [done|done|by rewrite login_type_file].
  - unfold authed_type; rewrite Hf, Hv, Ht; intros H1 H2; exists (conn_type_of_login c).
    assert (conn_type_of_login c <> Remote) as Hr.
    { destruct (is_some (file_transfer c)) eqn:E; [by rewrite login_type_file|].
      destruct (port_forward_socket c1); [done|]; apply login_type_other.
      destruct (view_camera c); [by left|]; destruct (terminal c); [by right|done]. }
    split; [done|]; by apply policy_passed.
Qed.

Lemma recent_second_factor e st :
  wp (is_recent_session e true) (fun ok _ st' => quiet st st' /\ from_switch st'.1 = from_switch st.1 /\
    (ok = true -> exists s, table (sessions st.2) !! session_key st.1 = Some s /\ tfa s = true /\
       since (now (env e)) (last_recv (sessions st.2) s) < SESSION_TIMEOUT)) st.
Proof.
  pose proof (recent_quiet e true st) as Hq; revert Hq.
  destruct st as [c h]; unfold wp, is_recent_session, bind; simpl.
  destruct (filter _ _ !! session_key c) as [s|] eqn:E; simpl; [|by intros Hq].
  apply map_lookup_filter_Some in E as [E Ht].
  destruct (bool_decide (password (lr c) <> [])), (tfa s) eqn:Ef; simpl; intros Hq;
    (split; [exact Hq|split; [done|intros; try done; eauto]]).
Qed.

Lemma logon_spec e st : authorized st.1 = false ->
  wp (send_logon_response_and_keep_alive e) (fun _ _ st' =>
    quiet st st' \/ authorizes st st' /\ second_factor_ok e st) st.
Proof.
  intros Ha; unfold send_logon_response_and_keep_alive.
  apply wp_bind; rewrite wp_conn, Ha; apply wp_bind; rewrite wp_conn; apply wp_bind.
  apply (wp_mono _ (fun missing _ st1 => quiet st st1 /\ (missing = false -> second_factor_ok e st))).
  { unfold second_factor_ok; destruct (require_2fa st.1); [|done].
    apply wp_bind; eapply wp_mono; [apply recent_second_factor|]; simpl; intros ok _ st1 (Hq & Hs & Hr).
    apply wp_bind; rewrite wp_conn, wp_ret; split; [done|]; rewrite Hs.
    destruct ok; [eauto|]; destruct (from_switch st.1); auto. }
  intros missing _ st1 [Hq Hok]; destruct missing; [by left|]; specialize (Hok eq_refl).
  apply wp_bind; rewrite wp_conn; apply wp_bind; rewrite wp_shared.
  destruct (session_connection_policy_denial_reason _ _) eqn:Hd; [by left|].
  apply wp_bind; apply (steps_wp steady); [apply prepare_steady|]; intros ended _ st2 H2.
  destruct ended; [left; etrans; [exact Hq|apply H2]|].
  apply wp_bind; destruct st2 as [c2 h2]; rewrite wp_set_conn.
  pose proof (defaults_steady (c2, h2)) as H3; simpl in H3.
  apply wp_bind; rewrite wp_conn; apply wp_bind, (steps_wp steady); [apply forward_steady|].
  intros connected _ st4 H4; destruct connected; simpl;
    [|left; etrans; [exact Hq|]; etrans; [apply H2|]; etrans; [apply H3|apply H4]].
  apply wp_bind; eapply wp_mono.
  { destruct st1 as [c1 h1]; eapply (new_authed_authorizes c1 h1); [exact Hd|by do 2 (etrans; [eassumption|])|].
    intros Hu p Hp; destruct H4 as [[_ _ _ _ _ Hp4] _ _ _ _ _]; apply Hp4 in Hp.
    pose proof (s_kind _ _ H2) as Hk; simpl in Hk; rewrite <- Hk in Hu; exact (defaults_limited _ _ Hu p Hp). }
  intros [] es5 st5 H5; apply wp_bind, (steps_wp steady); [apply logon_response_steady|].
  intros _ _ st6 H6; right; split; [|done].
  eapply quiet_authorizes; [exact Hq|]; destruct st1; by eapply authorizes_steady.
Qed.

(** ** What a login request must prove *)

Definition may_try (e : LoginEnv) (stores : LoginFailure.Stores) (address : string) : Prop :=
  (LoginFailure.check_failure_with_scope parse_v6 address LoginFailure.Default (now_ms e) stores).1.2 =
  LoginFailure.Pass.

(** The password of the request is the one of a session that is resumed; or it
    may be tried, and is the temporary or the permanent one. *)
Definition password_given (e : LoginEnv) (st : State) : Prop :=
  (exists s, table (sessions st.2) !! session_key st.1 = Some s /\
     since (now (env e)) (last_recv (sessions st.2) s) < SESSION_TIMEOUT /\
     validate_password_plain (random_password s) st.1 = true) \/
  may_try e (password_failures st.2) (ip st.1) /\
  (temporary_enabled e = true /\
   validate_password_plain (temporary_password (temporary st.2)) st.1 = true \/
   (permanent_enabled e = true \/ allow_logon_screen_password e = true) /\
   permanent_password_matches e st.1 = true).

(** What the steps between a request and its authorization keep. *)
Record kept (e : LoginEnv) (st st' : State) : Prop := {
  k_lr : lr st'.1 = lr st.1;
  k_second : require_2fa st'.1 = require_2fa st.1;
  k_switch : from_switch st'.1 = from_switch st.1;
  k_authorized : authorized st'.1 = authorized st.1;
  k_session : forall s', table (sessions st'.2) !! session_key st.1 = Some s' -> tfa s' = true ->
    since (now (env e)) (last_recv (sessions st'.2) s') < SESSION_TIMEOUT ->
    exists s, table (sessions st.2) !! session_key st.1 = Some s /\ tfa s = true /\
      since (now (env e)) (last_recv (sessions st.2) s) < SESSION_TIMEOUT;
}.
#[local] Instance kept_preorder e : PreOrder (kept e).
Proof.
  split; [intros st; constructor; eauto|].
  intros st1 st2 st3 [Hl H2 Hw Ha Hs] [Hl' H2' Hw' Ha' Hs']; constructor; try congruence.
  intros s' E Hf Hr; unfold session_key in *; rewrite Hl in Hs'.
  destruct (Hs' s' E Hf Hr) as (s & Es & Hfs & Hrs); eauto.
Qed.

Lemma kept_second_factor e st st' : kept e st st' -> second_factor_ok e st' -> second_factor_ok e st.
Proof.
  intros [Hl H2 Hw _ Hs] H; unfold second_factor_ok, session_key in *.
  rewrite Hl, H2, Hw in H; intros Hr; destruct (H Hr) as [|(s' & E & Hf & Ht)]; [by left|right; eauto].
Qed.

Lemma kept_same e c h c' h' :
  lr c' = lr c -> require_2fa c' = require_2fa c -> from_switch c' = from_switch c ->
  authorized c' = authorized c -> sessions h' = sessions h -> kept e (c, h) (c', h').
Proof. intros; constructor; simpl; try done; intros s'; rewrite H3; eauto. Qed.

Lemma recent_kept e b : steps (kept e) (is_recent_session e b).
Proof.
  unfold is_recent_session; walk; [|by apply kept_same].
  constructor; simpl; try done; intros s' [E _]%map_lookup_filter_Some; eauto.
Qed.

Lemma check_failure_kept e b : steps (kept e) (check_failure e b).
Proof. unfold check_failure; walk. Qed.

Lemma update_failure_kept e b f t r : steps (kept e) (update_failure e b f t r).
Proof. unfold update_failure; walk; by destruct b; apply kept_same. Qed.

Lemma session_auth_kept e kind pw tf : tf <> Some true ->
  steps (kept e) (update_or_insert_session_auth e kind pw tf).
Proof.
  intros Ht [c h]; unfold update_or_insert_session_auth, bind; simpl; constructor; simpl; try done.
  intros s'; unfold update_or_insert_session, insert_session, session_key; simpl.
  destruct (table (sessions h) !! _) as [s|] eqn:E; simpl; rewrite lookup_insert_eq; intros [= <-].
  - intros Hf Hr; exists s; split; [done|]; destruct pw, tf as [[]|]; try done.
  - by destruct tf as [[]|].
Qed.
#[local] Hint Resolve recent_kept check_failure_kept update_failure_kept session_auth_kept : steps.

Lemma validate_password_kept e b : steps (kept e) (validate_password e b).
Proof. unfold validate_password, validate_permanent_password; walk; by apply kept_same. Qed.
#[local] Hint Resolve validate_password_kept : steps.

Lemma recent_session_spec e st :
  wp (is_recent_session e false) (fun ok _ st' =>
    kept e st st' /\ password_failures st'.2 = password_failures st.2 /\
    temporary st'.2 = temporary st.2 /\
    if ok : bool then password_given e st else st'.1 = st.1) st.
Proof.
  pose proof (recent_kept e false st) as Hk; revert Hk.
  destruct st as [c h]; unfold wp, is_recent_session, bind; simpl.
  destruct (filter _ _ !! session_key c) as [s|] eqn:E; simpl; [|by intros Hk].
  apply map_lookup_filter_Some in E as [E Ht].
  destruct (bool_decide (password (lr c) <> [])); simpl; [|by intros Hk].
  destruct (validate_password_plain (random_password s) c) eqn:Ev; simpl; intros Hk; split_and!; try done.
  left; eauto.
Qed.

Lemma check_failure_spec e codes st :
  wp (check_failure e codes) (fun x _ st' => st' = st /\
    (x.1.1 = true -> may_try e ((if codes then code_failures else password_failures) st.2) (ip st.1))) st.
Proof.
  destruct st as [c h]; unfold wp, check_failure, may_try, bind; simpl.
  destruct (LoginFailure.check_failure_with_scope parse_v6 _ _ _ _) as [[[f time] v] ss]; by destruct v.
Qed.

Lemma validate_password_spec e b st :
  wp (validate_password e b) (fun ok _ _ => ok = true ->
    temporary_enabled e = true /\
    validate_password_plain (temporary_password (temporary st.2)) st.1 = true \/
    (permanent_enabled e = true \/ b = true) /\ permanent_password_matches e st.1 = true) st.
Proof.
  unfold validate_password; apply wp_bind; rewrite wp_shared; apply wp_bind; rewrite wp_conn.
  destruct (temporary_enabled e && _) eqn:E.
  - apply andb_true_iff in E; eapply (steps_wp (fun _ _ => True)); [by intros|by intros; left].
  - destruct (permanent_enabled e || b) eqn:Ep; [|done]; apply orb_true_iff in Ep.
    unfold validate_permanent_password; apply wp_bind; rewrite wp_conn; apply wp_bind.
    eapply (steps_wp (fun _ _ => True)); [by intros|].
    intros _ _ st' _; rewrite wp_ret; by right.
Qed.

Lemma log_on_spec e st : authorized st.1 = false ->
  wp (log_on e) (fun _ _ st' => quiet st st' \/ authorizes st st' /\ second_factor_ok e st) st.
Proof.
  intros Ha; unfold log_on; apply wp_bind; eapply wp_mono; [by apply logon_spec|].
  intros keep es st' H; destruct keep; [|exact H]; exact H.
Qed.

(** A computation that authorizes only with a proof. *)
Definition proven (P : Prop) {A} (m : M A) (st : State) : Prop :=
  wp m (fun _ _ st' => quiet st st' \/ authorizes st st' /\ P) st.

Lemma proven_quiet P {A} (m : M A) st : steps quiet m -> proven P m st.
Proof. intros H; apply (steps_wp quiet); [done|]; intros; by left. Qed.
Lemma proven_after (P P' : Prop) {A} (m : M A) st st' :
  quiet st st' -> (P' -> P) -> proven P' m st' -> wp m (fun _ _ st'' => quiet st st'' \/ authorizes st st'' /\ P) st'.
Proof.
  intros Hq HP H; eapply wp_mono; [exact H|]; simpl; intros _ _ st'' [|[]];
    [left; by etrans|right; split; [by eapply quiet_authorizes|auto]].
Qed.

Lemma login_password_spec e r err st : authorized st.1 = false ->
  proven (password_given e st /\ second_factor_ok e st) (handle_login_password e r err) st.
Proof.
  intros Ha; unfold proven, handle_login_password; apply wp_bind.
  pose proof (recent_quiet e false st) as Hq; revert Hq; unfold wp at 1.
  pose proof (recent_session_spec e st) as H; unfold wp in H.
  destruct (is_recent_session e false st) as [[recent es1] st1]; simpl; intros Hq.
  destruct H as (Hk & Hf & Ht & H); assert (authorized st1.1 = false) as Ha1 by by rewrite (k_authorized _ _ _ Hk).
  destruct recent.
  { destruct (err =? "")%string.
    - eapply (proven_after _ (second_factor_ok e st1)); [exact Hq| |by apply log_on_spec].
      intros Hs; split; [exact H|by eapply kept_second_factor].
    - apply (steps_wp quiet); [walk|]; intros; left; by etrans. }
  destruct (bool_decide (password r = [])).
  { apply (steps_wp quiet); [walk|]; intros; left; by etrans. }
  apply wp_bind; eapply wp_mono; [apply (check_failure_spec e false)|]; simpl.
  intros [[res f] time] _ st2 [-> Hm]; simpl in Hm; destruct res; simpl; [|by left].
  apply wp_bind; unfold wp at 1.
  pose proof (validate_password_spec e (allow_logon_screen_password e) st1) as Hv; unfold wp in Hv.
  pose proof (validate_password_quiet e (allow_logon_screen_password e) st1) as Hq2.
  pose proof (validate_password_kept e (allow_logon_screen_password e) st1) as Hk2.
  destruct (validate_password e (allow_logon_screen_password e) st1) as [[valid es2] st2]; simpl in *.
  assert (quiet st st2) as Hq12 by by etrans.
  destruct valid; simpl; [|apply (steps_wp quiet); [|by intros; left; etrans]; walk; by constructor].
  apply wp_bind; unfold wp at 1.
  pose proof (update_failure_steady e false f time true st2) as Hq3.
  pose proof (update_failure_kept e false f time true st2) as Hk3.
  destruct (update_failure e false f time true st2) as [[[] es3] st3]; simpl in *.
  assert (quiet st st3) as Hq13 by (etrans; [exact Hq12|apply Hq3]).
  destruct (err =? "")%string; [|apply (steps_wp quiet); [walk|]; intros; left; by etrans].
  eapply (proven_after _ (second_factor_ok e st3)); [exact Hq13| |].
  - intros Hs; split; [|do 3 (eapply kept_second_factor; [eassumption|]); done].
    right; rewrite <- Hf, <- Ht, <- H; auto.
  - apply log_on_spec; by rewrite (k_authorized _ _ _ Hk3), (k_authorized _ _ _ Hk2).
Qed.

(** What a proof is about; the second factor may be lifted by a device. *)
Definition login_inputs (st : State) :=
  (lr st.1, hash st.1, ip st.1, from_switch st.1, authorized st.1,
   (sessions st.2, temporary st.2, password_failures st.2)).
Definition same_inputs (st st' : State) : Prop :=
  login_inputs st' = login_inputs st /\ require_2fa st'.1 = require_2fa st.1.
#[local] Instance same_inputs_preorder : PreOrder same_inputs.
Proof. split; [done|]; unfold same_inputs; intros ? ? ? [] []; split; congruence. Qed.

Lemma password_given_inputs e st st' : login_inputs st' = login_inputs st ->
  password_given e st' -> password_given e st.
Proof.
  unfold login_inputs, password_given, permanent_password_matches, validate_password_storage,
    validate_password_plain, verify_h1, session_key.
  intros [= -> -> -> _ _ -> -> ->]; done.
Qed.
Lemma second_factor_inputs e st st' : login_inputs st' = login_inputs st ->
  second_factor_ok e st' -> require_2fa st'.1 = require_2fa st.1 -> second_factor_ok e st.
Proof.
  unfold login_inputs, second_factor_ok, session_key; intros [= -> _ _ -> _ -> _ _] H Hr.
  by rewrite Hr in H.
Qed.

Lemma login_union_inputs e u : steps same_inputs (handle_login_union e u).
Proof. unfold handle_login_union; walk; try done. by destruct (options_in_login c) as [[]|]. Qed.

Lemma headless_spec e r st :
  wp (start_headless_desktop e r) (fun ended _ st' => quiet st st' /\ (ended = None -> st' = st)) st.
Proof.
  pose proof (headless_quiet e r st) as Hq; revert Hq; unfold wp at 1, start_headless_desktop, bind.
  set (os_login := is_headless_allowed e && _).
  pose proof (check_failure_spec e false st) as Hc; unfold wp in Hc.
  destruct (os_login && (headless_user e =? "")%string).
  - destruct (check_failure e false st) as [[[[res f] time] es] st1], Hc as [-> _]; simpl.
    destruct res; simpl; [|done].
    destruct (negb (desktop_error e =? "")%string && _); [|done].
    destruct (os_login && _); [|done].
    destruct (check_failure e false st) as [[[[res f'] time'] es'] st1]; simpl.
    destruct res; simpl; [|done]; by destruct (update_failure _ _ _ _ _ _) as [[? ?] ?].
  - simpl; destruct (negb (desktop_error e =? "")%string && _); [|done].
    destruct (os_login && _); [|done].
    destruct (check_failure e false st) as [[[[res f'] time'] es'] st1]; simpl.
    destruct res; simpl; [|done]; by destruct (update_failure _ _ _ _ _ _) as [[? ?] ?].
Qed.

(** The proof a request brings for the connection it arrives on. *)
Definition lifted_by_device (e : LoginEnv) (r : LoginRequest) : Prop :=
  hwid r <> ""%string /\ enable_trusted_devices e = true /\ bypassed_by_device e r = true.
Definition login_proof (e : LoginEnv) (r : LoginRequest) (st : State) : Prop :=
  let st := (st.1 <| lr := r |>, st.2) in
  password_given e st /\ (lifted_by_device e r \/ second_factor_ok e st).

Lemma without_validation_inputs e r c h :
  wp (handle_login_request_without_validation e r) (fun _ _ st' =>
    steady (c, h) st' /\ login_inputs st' = login_inputs (c <| lr := r |>, h) /\
    (require_2fa st'.1 = require_2fa c \/ lifted_by_device e r)) (c, h).
Proof.
  pose proof (without_validation_steady e r (c, h)) as Hs; revert Hs.
  unfold wp, handle_login_request_without_validation, bind; simpl; destruct (login_option r); simpl.
  all: destruct (require_2fa c && _ && _ && _) eqn:E; simpl; intros Hs; split_and!; auto.
  all: apply andb_true_iff in E as [[[_ Eh]%andb_true_iff ?]%andb_true_iff ?].
  all: right; split_and!; [|done|done]; by intros Hh; rewrite Hh in Eh.
Qed.

Lemma login_request_spec e r c h : authorized c = false ->
  proven (login_proof e r (c, h)) (handle_login_request e r) (c, h).
Proof.
  intros Ha; unfold proven, handle_login_request; apply wp_bind.
  eapply wp_mono; [apply without_validation_inputs|]; simpl; intros _ _ st1 (Hs1 & Hi1 & Hr1).
  assert (authorized st1.1 = false) as Ha1 by by rewrite (q_authorized _ _ (s_quiet _ _ Hs1)).
  apply wp_bind; rewrite wp_conn, Ha1; apply wp_bind; unfold wp at 1.
  pose proof (login_union_quiet e (lr_union r) st1) as Hq2.
  pose proof (login_union_inputs e (lr_union r) st1) as [Hi2 Hr2].
  destruct (handle_login_union e (lr_union r) st1) as [[ended es2] st2]; simpl in *.
  assert (quiet (c, h) st2) as Hq by (etrans; [apply Hs1|done]).
  destruct ended as [keep|]; [left; exact Hq|].
  destruct (negb (valid_username e (username r))).
  { apply (steps_wp quiet); [walk|]; intros; left; by etrans. }
  apply wp_bind; eapply wp_mono; [apply headless_spec|]; simpl; intros ended _ st3 [Hq3 H3].
  destruct ended as [keep|]; [left; by etrans|]; rewrite (H3 eq_refl); clear H3 Hq3 st3.
  assert (login_inputs st2 = login_inputs (c <| lr := r |>, h)) as Hi by (etrans; [exact Hi2|exact Hi1]).
  destruct ((_ && _) || (_ && _)).
  { apply (steps_wp quiet); [walk|]; intros; left; by etrans. }
  eapply (proven_after _ (password_given e st2 /\ second_factor_ok e st2)); [exact Hq| |].
  - intros [Hp Hf]; split; [by eapply password_given_inputs|].
    destruct Hr1 as [Hr1|]; [right|by left]; eapply second_factor_inputs; [exact Hi|done|].
    by rewrite Hr2, Hr1.
  - apply login_password_spec; by rewrite (q_authorized _ _ Hq).
Qed.

Lemma remove_session_grants i k l ss n : has_grant (check_remove_session i k l ss) n -> has_grant ss n.
Proof.
  unfold check_remove_session; case_match; [|done]; apply shrink_grants.
  by intros k' s [_ ?]%lookup_delete_Some.
Qed.

Lemma session_2fa_quiet e : steps quiet (
  c <- conn (fun c => c) ;;
  set_shared (fun h => h <| sessions ::= set_session_2fa (session_key c) (session_auth_kind c) (now (env e)) |>)).
Proof. walk; apply quiet_sessions; intros n; apply session_2fa_grants. Qed.

(** The proof that comes with a message. *)
Definition message_proof (e : LoginEnv) (m : PeerMessage) (st : State) : Prop :=
  match m with
  | LoginMessage r => login_proof e r st
  | Auth2fa _ => require_2fa st.1 = true /\ totp_accepts e = Some true /\ may_try e (code_failures st.2) (ip st.1)
  | SwitchSidesResponse r uuid => exists t u, switch_sides_uuid st.2 !! my_id r = Some (t, u) /\
      since (now (env e)) t < 10 * 1000000000 /\ uuid = Some u
  | _ => False
  end.

Lemma auth_2fa_spec e d st : authorized st.1 = false ->
  proven (message_proof e (Auth2fa d) st) (handle_auth_2fa e d) st.
Proof.
  intros Ha; unfold proven; set (P := message_proof e (Auth2fa d) st).
  unfold handle_auth_2fa; apply wp_bind.
  eapply wp_mono; [apply (check_failure_spec e true)|]; simpl; intros [[res f] time] es st' [-> Hm].
  destruct res; simpl; [specialize (Hm eq_refl)|by left].
  apply wp_bind; rewrite wp_conn; destruct (require_2fa st.1) eqn:Er; simpl; [|by left].
  destruct (totp_accepts e) as [[]|] eqn:Et; [| |by left].
  2:{ apply (steps_wp quiet); [walk|]; intros; by left. }
  apply wp_bind, (steps_wp quiet); [eauto with steps|]; intros [] _ st1 Hq1.
  apply wp_bind; destruct st1 as [c1 h1]; rewrite wp_set_conn.
  assert (quiet (c1, h1) (c1 <| require_2fa := false |>, h1)) as Hq2 by by constructor.
  apply wp_bind; rewrite wp_conn; apply wp_bind; rewrite wp_set_shared.
  set (st2 := (_, _)); assert (quiet st st2) as Hq.
  { do 2 (etrans; [eassumption|]); apply quiet_sessions; intros n; apply session_2fa_grants. }
  apply wp_bind; eapply wp_mono.
  - apply (proven_after P True (log_on e) st st2); [exact Hq|done|].
    eapply wp_mono; [apply log_on_spec; by rewrite (q_authorized _ _ Hq)|].
    simpl; intros _ _ st3 [|[]]; auto.
  - simpl; intros keep es2 st3 H; exact H.
Qed.

Lemma switch_sides_spec e r uuid c h : authorized c = false ->
  proven (message_proof e (SwitchSidesResponse r uuid) (c, h)) (handle_switch_sides e r uuid) (c, h).
Proof.
  intros Ha; unfold proven, handle_switch_sides; apply wp_bind.
  unfold wp at 1; pose proof (without_validation_steady e r (c, h)) as [Hq _ _ _ _ _].
  assert (switch_sides_uuid (handle_login_request_without_validation e r (c, h)).2.2 = switch_sides_uuid h) as Hu
    by (unfold handle_login_request_without_validation, bind; by destruct (login_option r)).
  destruct (handle_login_request_without_validation e r (c, h)) as [[[] es] [c1 h1]]; simpl in Hq, Hu.
  apply wp_bind; rewrite wp_set_shared; apply wp_bind; rewrite wp_shared; apply wp_bind; rewrite wp_set_shared.
  assert (forall f, quiet (c, h) (c1, h1 <| switch_sides_uuid := f |>)) as Hq2
    by (intros f; etrans; [exact Hq|by constructor]).
  simpl; rewrite Hu; destruct (filter _ _ !! my_id r) as [[t u]|] eqn:E; [|left; apply Hq2].
  apply map_lookup_filter_Some in E as [E Ht]; case_bool_decide as Huu; [|left; apply Hq2].
  apply wp_bind; rewrite wp_set_conn; simpl.
  eapply (proven_after _ True); [etrans; [apply Hq2|by constructor]|intros _; eauto|].
  eapply wp_mono; [apply log_on_spec; exact (eq_trans (q_authorized _ _ Hq) Ha)|].
  simpl; intros _ _ st3 [|[]]; auto.
Qed.

Lemma on_message_proven e m c h : authorized c = false ->
  proven (message_proof e m (c, h)) (on_message e m) (c, h).
Proof.
  intros Ha; destruct m as [|r|d|r uuid|m]; [|by apply login_request_spec|by apply auth_2fa_spec
    |by apply switch_sides_spec|].
  - apply proven_quiet; clear Ha c h; unfold on_message; walk; apply quiet_sessions; intros n; apply remove_session_grants.
  - unfold proven, on_message; apply wp_bind; rewrite wp_conn; simpl; rewrite Ha; by left.
Qed.

(** ** Connections of the host *)

(** The connection [id] after a handler of [id] or of another. *)
Lemma run_handler_lookup e id (m : M bool) c h s id' c' :
  connections (run_handler e id m c h s).2 !! id' = Some c' ->
  id' = id /\ c' = (m (c, h)).2.1 \/ id' <> id /\ connections s !! id' = Some c'.
Proof.
  unfold run_handler; destruct (m (c, h)) as [[keep es] [c1 h1]].
  destruct keep; [|destruct (drop_connection e c1 h1)]; simpl.
  - intros [[<- <-]|[]]%lookup_insert_Some; auto.
  - intros [??]%lookup_delete_Some; auto.
Qed.

Lemma switch_authorized e n b c ss s :
  authorized (handle_switch_permission e n b c ss s).1.2 = authorized c.
Proof.
  pose proof (switch_gains e n b c ss s) as H.
  destruct (handle_switch_permission e n b c ss s) as [[es c'] s'], H as (Hl & _); by injection Hl.
Qed.
Lemma result_authorized e id b c ss s :
  authorized (handle_permission_request_result option2bool control_value e id b c ss s).1.1.2 = authorized c.
Proof.
  pose proof (result_gains option2bool control_value e id b c ss s) as H.
  destruct (handle_permission_request_result _ _ e id b c ss s) as [[[es c'] ss'] s'], H as (Hl & _).
  by injection Hl.
Qed.

Lemma cm_authorizes e m c h : authorized c = false -> authorized (handle_cm e m (c, h)).2.1 = true ->
  m = Authorize.
Proof.
  intros Ha; destruct m as [| |n b|id b]; [done| | |]; simpl.
  - unfold bind; simpl; destruct (close_same true c) as (b & q & Hc); destruct (on_close true c); simpl in *; subst; simpl; congruence.
  - pose proof (switch_authorized (env e) n b c (sessions h) (server h)) as H.
    destruct (handle_switch_permission _ _ _ _ _ _) as [[es c'] s']; simpl in *; congruence.
  - pose proof (result_authorized (env e) id b c (sessions h) (server h)) as H.
    destruct (handle_permission_request_result _ _ _ _ _ _ _ _) as [[[es c'] ss'] s']; simpl in *; congruence.
Qed.

(** C3. A connection becomes authorized in one step of the host only when the
    local user accepts it, or when a message arrives on it that brings a proof:
    a login request with a password that matches (of a session resumed within
    thirty seconds, or the temporary or the permanent password, with no
    failures in the way) and the second factor where it is asked for, an
    accepted one-time code, or the answer to a switch of sides this host itself
    asked for within ten seconds. *)
Theorem authorization_needs_proof e ev s id c c' :
  connections s !! id = Some c -> authorized c = false ->
  connections (host_step e ev s).2 !! id = Some c' -> authorized c' = true ->
  ev = FromCm id Authorize \/
  exists m, ev = Receive id m /\ message_proof e m (c, renew_session e c (common s)).
Proof.
  intros Hc Ha Hc' Ha'; destruct ev as [i tf hs a ctl|id' m|id' m|id' lock|peer uuid]; simpl in Hc'.
  - destruct (connections s !! CaptureServer.conn_id i) eqn:E; simpl in Hc'; [congruence|].
    apply lookup_insert_Some in Hc' as [[<- <-]|[_ Hc']]; [done|]; congruence.
  - destruct (connections s !! id') as [c0|] eqn:E; [|simpl in Hc'; congruence].
    apply run_handler_lookup in Hc' as [[-> ->]|[]]; [|congruence].
    right; exists m; split; [done|]; assert (c0 = c) as -> by congruence.
    pose proof (on_message_proven e m c (renew_session e c (common s)) Ha) as H; revert H Ha'.
    unfold proven, wp; destruct (on_message e m _) as [[k es] st]; simpl.
    intros [Hq|[_ H]]; [|done]; rewrite (q_authorized _ _ Hq); simpl; congruence.
  - destruct (connections s !! id') as [c0|] eqn:E; [|simpl in Hc'; congruence].
    apply run_handler_lookup in Hc' as [[-> ->]|[]]; [|congruence].
    left; assert (c0 = c) as -> by congruence; f_equal; by eapply cm_authorizes.
  - destruct (connections s !! id') as [c0|] eqn:E; [|simpl in Hc'; congruence].
    apply run_handler_lookup in Hc' as [[-> ->]|[]]; [|congruence].
    assert (c0 = c) as -> by congruence; rewrite (q_authorized _ _ (disconnect_quiet lock (c, common s))) in Ha'; simpl in Ha'; congruence.
  - simpl in Hc'; congruence.
Qed.

(** ** What the local user approved *)

(** The names an event approves: the permission or connection type of a pending
    request the local user accepts, ... *)
Definition accepted_by (ev : HostEvent) (s : Host) : list string :=
  match ev with
  | FromCm id (PermissionRequestResult request true) =>
      match connections s !! id with
      | Some c => match pending_permission_requests c !! request with Some r => [p_name r] | None => [] end
      | None => []
      end
  | _ => []
  end.
(** ... and what an unattended session asks for, which is granted without asking. *)
Definition asked_unattended (ev : HostEvent) (s : Host) : list string :=
  match ev with
  | Receive id (Authorized (PermissionRequest r)) =>
      match connections s !! id with
      | Some c => if is_unattended_access (session_auth_kind c) then [r_name r] else []
      | None => []
      end
  | _ => []
  end.
Definition approved_by (ev : HostEvent) (s : Host) : list string := accepted_by ev s ++ asked_unattended ev s.
#[local] Arguments approved_by : simpl never.

(** Over a run: what [by_event] names in its events. *)
Fixpoint over_run (by_event : HostEvent -> Host -> list string) (es : list (LoginEnv * HostEvent)) (s : Host) : list string :=
  match es with
  | [] => []
  | (e, ev) :: es => by_event ev s ++ over_run by_event es (host_step e ev s).2
  end.
Definition approved := over_run approved_by.

Lemma approved_split es s n : n ∈ approved es s <-> n ∈ over_run accepted_by es s \/ n ∈ over_run asked_unattended es s.
Proof.
  unfold approved; revert s; induction es as [|[e ev] es IH]; intros s; simpl; [set_solver|].
  unfold approved_by at 1; rewrite !elem_of_app, IH; naive_solver.
Qed.

(** A computation that authorizes nothing, and gains at most what is in [N]. *)
Record advances (N : string -> Prop) (st st' : State) : Prop := {
  v_id : CaptureServer.conn_id (inner st'.1) = CaptureServer.conn_id (inner st.1);
  v_authorized : authorized st'.1 = authorized st.1;
  v_authed : authed_conn_id st'.1 = authed_conn_id st.1;
  v_list : authed_conns st'.2 = authed_conns st.2;
  v_grants : forall n, has_grant (sessions st'.2) n -> has_grant (sessions st.2) n \/ N n;
  v_low : authorized st.1 = true -> is_unattended_access (session_auth_kind st.1) = false ->
    is_unattended_access (session_auth_kind st'.1) = false /\
    forall p, enabled p (perms st'.1) = true -> enabled p (perms st.1) = true \/ N (permission_name p);
}.

Lemma quiet_advances N st st' : quiet st st' -> authorized st.1 = false -> advances N st st'.
Proof. intros [Hi Ha Hc Hl Hg Hp _] H; constructor; auto; congruence. Qed.
Lemma steady_advances N st st' : steady st st' -> advances N st st'.
Proof. intros [[Hi Ha Hc Hl Hg Hp _] Hk _ _ _ _]; constructor; auto; rewrite Hk; auto. Qed.

Lemma parting_advances N st st' : parting st st' -> advances N st st'.
Proof. intros [[Hi Ha Hc Hl Hg Hp _] Hk]; constructor; auto; rewrite Hk; auto. Qed.

(** A session is taken off the table. *)
Lemma remove_parting c h i k l : parting (c, h) (c, h <| sessions ::= check_remove_session i k l |>).
Proof. split; [|done]; apply quiet_sessions; intros n; apply remove_session_grants. Qed.
Lemma close_reason_parting e : steps parting (on_message e CloseReason).
Proof. unfold on_message; walk; apply remove_parting. Qed.
Lemma cm_close_parting e : steps parting (handle_cm e Close).
Proof. unfold handle_cm; walk; apply remove_parting. Qed.
Lemma disconnect_parting lock : steps parting (close_connection lock ;;; ret false).
Proof. walk. Qed.

Lemma gains_advances (N : string -> Prop) b n c c' h h' :
  gains b n c c' (sessions h) (sessions h') -> authed_conns h' = authed_conns h ->
  (b -> is_unattended_access (session_auth_kind c) = true \/ N n) ->
  sessions h' = sessions h \/ (b -> N n) ->
  advances N (c, h) (c', h').
Proof.
  intros (Hl & Hp & Hg) Ha Hb Hn; injection Hl as Hi Hz Hk Hc _.
  constructor; simpl; try congruence.
  - destruct Hn as [->|Hn]; [auto|]; intros m Hm; destruct (Hg m Hm) as [|[Hx ->]]; auto.
  - intros _ Hu; rewrite Hk; split; [done|]; intros p Hq; destruct (Hp p Hq) as [|[Hx <-]]; [by left|].
    destruct (Hb Hx); [congruence|by right].
Qed.

Lemma log_on_authorized e st : authorized st.1 = true -> (log_on e st).2 = st.
Proof.
  by destruct st as [c h]; intros H; unfold log_on, send_logon_response_and_keep_alive, bind; simpl in *; rewrite H.
Qed.

(** ** A message gains what is approved *)

Definition allowed_names (names : list string) (h : Shared) (n : string) : Prop :=
  n = "keyboard"%string \/ has_grant (sessions h) n \/ n ∈ names.

(** Until [log_on], an authorized connection keeps also its permissions, options
    and input state. *)
Definition input_part (c : Connection) :=
  (perms c, option_flags c, remote_input_authorization c, pressed_modifiers c).
Record still (st st' : State) : Prop := {
  t_steady : steady st st';
  t_input : input_part st'.1 = input_part st.1;
}.
#[local] Instance still_preorder : PreOrder still.
Proof. split; [done|]; intros st1 st2 st3 [] []; constructor; [by etrans|congruence]. Qed.

Lemma still_authorized st st' : still st st' -> authorized st'.1 = authorized st.1.
Proof. intros [[[] _ _ _ _ _] _]; done. Qed.

Lemma without_validation_still e r : steps still (handle_login_request_without_validation e r).
Proof.
  intros st; constructor; [apply without_validation_steady|].
  unfold handle_login_request_without_validation, bind; destruct st as [c h]; simpl.
  by destruct (login_option r); simpl; case_match.
Qed.

Lemma update_failure_still e b f t r : steps still (update_failure e b f t r).
Proof. intros st; constructor; [apply update_failure_steady|by destruct st]. Qed.
#[local] Hint Resolve without_validation_still update_failure_still : steps.

Lemma login_request_authorized e r c h : authorized c = true ->
  still (c, h) (handle_login_request e r (c, h)).2.
Proof.
  intros Ha; pose proof (without_validation_still e r (c, h)) as H.
  unfold handle_login_request, bind at 1; destruct (handle_login_request_without_validation e r (c, h)) as [[[] es] st].
  unfold bind; simpl; simpl in H; by rewrite (eq_trans (still_authorized _ _ H) Ha).
Qed.

Lemma check_failure_state e b st : (check_failure e b st).2 = st.
Proof.
  destruct st as [c h]; unfold check_failure, bind; simpl.
  destruct (LoginFailure.check_failure_with_scope _ _ _ _ _) as [[[f t] v] ss]; by destruct v.
Qed.

(** A computation that goes on after [log_on], from an authorized connection. *)
Lemma still_log_on {A} e (f : bool -> M A) st st' : (forall k, steps still (f k)) ->
  still st st' -> authorized st.1 = true ->
  wp (bind (log_on e) f) (fun _ _ st'' => still st st'') st'.
Proof.
  intros Hf Hs Ha; apply wp_bind; unfold wp at 1.
  pose proof (log_on_authorized e st' (eq_trans (still_authorized _ _ Hs) Ha)) as H.
  destruct (log_on e st') as [[k es] st1]; simpl in H; subst st1.
  apply (steps_wp still); [apply Hf|]; intros; by etrans.
Qed.

Lemma auth_2fa_authorized e d st : authorized st.1 = true ->
  wp (handle_auth_2fa e d) (fun _ _ st' => still st st') st.
Proof.
  intros Ha; unfold handle_auth_2fa; apply wp_bind; unfold wp at 1.
  pose proof (check_failure_state e true st) as H.
  destruct (check_failure e true st) as [[[[res f] time] es] st1]; simpl in H; subst st1.
  destruct res; simpl; [|done]; apply wp_bind; rewrite wp_conn; destruct (require_2fa st.1); simpl; [|done].
  destruct (totp_accepts e) as [[]|]; [| |done].
  2:{ apply (steps_wp still); [walk|done]. }
  apply wp_bind, (steps_wp still); [eauto with steps|]; intros [] _ st1 H1.
  apply wp_bind; destruct st1 as [c1 h1]; rewrite wp_set_conn.
  apply wp_bind; rewrite wp_conn; apply wp_bind; rewrite wp_set_shared.
  apply still_log_on; [intros k; walk| |done].
  etrans; [exact H1|]; repeat split; simpl; auto; intros n; apply session_2fa_grants.
Qed.

Lemma switch_sides_authorized e r u st : authorized st.1 = true ->
  wp (handle_switch_sides e r u) (fun _ _ st' => still st st') st.
Proof.
  intros Ha; unfold handle_switch_sides; apply wp_bind.
  apply (steps_wp still); [eauto with steps|]; intros [] _ [c1 h1] H1.
  apply wp_bind; rewrite wp_set_shared; apply wp_bind; rewrite wp_shared; apply wp_bind; rewrite wp_set_shared.
  assert (forall f, still st (c1, h1 <| switch_sides_uuid := f |>)) as H2
    by (intros f; etrans; [exact H1|by repeat split]).
  simpl; destruct (filter _ _ !! my_id r) as [[t v]|]; [|apply H2].
  case_bool_decide; [|apply H2]; apply wp_bind; rewrite wp_set_conn; unfold wp.
  assert (forall f, still st (c1 <| from_switch := true |>, h1 <| switch_sides_uuid := f |>)) as H3
    by (intros f; etrans; [exact H1|by repeat split]).
  match goal with |- context [log_on e ?s] => pose proof (log_on_authorized e s) as Hl; specialize (H3 (switch_sides_uuid s.2)) end.
  specialize (Hl (eq_trans (still_authorized _ _ H1) Ha)).
  destruct (log_on _ _) as [[k es] st']; simpl in Hl |- *; subst st'; exact H3.
Qed.

Definition message_names (m : PeerMessage) (c : Connection) : list string :=
  match m with
  | Authorized (PermissionRequest r) => if is_unattended_access (session_auth_kind c) then [r_name r] else []
  | _ => []
  end.
Definition cm_names (m : CmMessage) (c : Connection) : list string :=
  match m with
  | PermissionRequestResult request true =>
      match pending_permission_requests c !! request with Some r => [p_name r] | None => [] end
  | _ => []
  end.

Lemma session_message_advances e m c h : authorized c = true ->
  wp (on_message e (Authorized m)) (fun _ _ st' =>
    advances (allowed_names (message_names (Authorized m) c) h) (c, h) st') (c, h).
Proof.
  intros Ha; unfold wp, on_message, bind; simpl; rewrite Ha.
  pose proof (message_gains option2bool control_value rdev_modifier validate_keyboard_input
    keycode_from_usb_hid (env e) m c (sessions h) (server h)) as H.
  destruct (handle_session_message _ _ _ _ _ (env e) m c _ _) as [[[es c'] ss'] s'].
  eapply (gains_advances _ _ _ _ _ h); [exact H|done| |right]; intros Hb; unfold allowed_names.
  - destruct Hb as [[]|[|]]; auto.
  - destruct Hb as [[Hu [r ->]]|[|]]; auto; right; right; simpl; rewrite Hu; by left.
Qed.

Lemma on_message_advances e m c h : authorized c = true ->
  wp (on_message e m) (fun _ _ st' => advances (allowed_names (message_names m c) h) (c, h) st') (c, h).
Proof.
  intros Ha; destruct m as [|r|d|r uuid|m]; [| | | |by apply session_message_advances].
  - apply (steps_wp parting); [apply close_reason_parting|]; intros _ _ st'; apply parting_advances.
  - pose proof (login_request_authorized e r c h Ha) as H; unfold wp; simpl.
    destruct (handle_login_request e r (c, h)) as [[k es] st]; apply steady_advances, H.
  - eapply wp_mono; [by apply auth_2fa_authorized|]; simpl; intros _ _ st' []; by apply steady_advances.
  - eapply wp_mono; [by apply switch_sides_authorized|]; simpl; intros _ _ st' []; by apply steady_advances.
Qed.

Lemma message_effect e m c h :
  wp (on_message e m) (fun _ _ st' =>
    advances (allowed_names (message_names m c) h) (c, h) st' \/ authorized c = false /\ authorizes (c, h) st') (c, h).
Proof.
  destruct (authorized c) eqn:Ha; [eapply wp_mono; [by apply on_message_advances|]; auto|].
  eapply wp_mono; [by apply on_message_proven|]; simpl; intros _ _ st' [|[]]; [left|auto].
  by apply quiet_advances.
Qed.

Lemma cm_effect e m c h :
  wp (handle_cm e m) (fun _ _ st' =>
    advances (allowed_names (cm_names m c) h) (c, h) st' \/ authorized c = false /\ authorizes (c, h) st') (c, h).
Proof.
  destruct m as [| |n b|id b]; unfold handle_cm.
  - apply wp_bind; rewrite wp_set_conn; apply wp_bind; rewrite wp_set_conn.
    set (c1 := _ <| require_2fa := false |>).
    assert (quiet (c, h) (c1, h)) as Hq by by constructor.
    destruct (authorized c) eqn:Ha.
    + unfold wp, send_logon_response_and_keep_alive, bind; simpl; rewrite Ha; left; constructor; auto.
    + eapply wp_mono; [by apply logon_spec|]; simpl; intros _ _ st' [Hq'|[Hz _]]; [left|right; split; [done|]].
      * apply quiet_advances; [by etrans|done].
      * by eapply quiet_authorizes.
  - apply (steps_wp parting); [exact (cm_close_parting e)|]; intros _ _ st' H; left; by apply parting_advances.
  - unfold wp; pose proof (switch_gains (env e) n b c (sessions h) (server h)) as H.
    destruct (handle_switch_permission _ _ _ _ _ _) as [[es c'] s']; left.
    eapply (gains_advances _ _ _ _ _ h); [exact H|done| |by left]; unfold allowed_names; intros [|[|]]; auto.
  - unfold wp; pose proof (result_gains option2bool control_value (env e) id b c (sessions h) (server h)) as H.
    destruct (handle_permission_request_result _ _ _ _ _ _ _ _) as [[[es c'] ss'] s']; left.
    eapply (gains_advances _ _ _ _ _ h); [exact H|done| |right]; intros [-> [r Hr]]; unfold allowed_names; simpl;
      rewrite Hr; [right; right; right|right; right]; by left.
Qed.

(** ** The invariant of the host *)

(** What the entry [a] of the list of authorized connections stands for: its
    connection [c], which gained only names in [names] when it is limited. *)
Definition entry_ok (names : string -> Prop) (c : Connection) (a : AuthedConn) : Prop :=
  authorized c = true /\ is_some (authed_conn_id c) = true /\
  (is_unattended_access (a_auth_kind a) = false ->
     is_unattended_access (session_auth_kind c) = false /\
     (forall p, enabled p (perms c) = true -> p = Keyboard \/ names (permission_name p)) /\
     (a_conn_type a = FileTransfer -> names "file_transfer"%string) /\
     (a_conn_type a <> Remote -> a_conn_type a <> PortForward ->
        exists t, t <> Remote /\ names (connection_type_grant_name t))).

Record host_inv (names : string -> Prop) (s : Host) : Prop := {
  i_id : forall id c, connections s !! id = Some c -> CaptureServer.conn_id (inner c) = id;
  i_grants : forall n, has_grant (sessions (common s)) n -> n = "keyboard"%string \/ names n;
  i_entries : forall a, a ∈ authed_conns (common s) ->
    exists c, connections s !! a_conn_id a = Some c /\ entry_ok names c a;
}.

Lemma entry_ok_weaken (names names' : string -> Prop) c a :
  (forall n, names n -> names' n) -> entry_ok names c a -> entry_ok names' c a.
Proof.
  intros Hn (Ha & Hs & H); split_and!; [done|done|]; intros Hu; destruct (H Hu) as (Hk & Hp & Hf & Ht).
  split_and!; [done| |auto|].
  - intros p E; destruct (Hp p E); auto.
  - intros H1 H2; destruct (Ht H1 H2) as (t & ? & ?); eauto.
Qed.

Lemma host_inv_weaken (names names' : string -> Prop) s :
  (forall n, names n -> names' n) -> host_inv names s -> host_inv names' s.
Proof.
  intros Hn [Hi Hg He]; constructor; [done| |].
  - intros n E; destruct (Hg n E); auto.
  - intros a E; destruct (He a E) as (c & Hc & H); exists c; split; [done|]; by eapply entry_ok_weaken.
Qed.

(** A permission's name that is the keyboard's is the keyboard. *)
Lemma name_keyboard p : permission_name p = "keyboard"%string -> p = Keyboard.
Proof. by destruct p. Qed.

Lemma advances_entry (names N : string -> Prop) c h c' h' a :
  (forall n, N n -> n = "keyboard"%string \/ names n) ->
  advances N (c, h) (c', h') -> entry_ok names c a -> entry_ok names c' a.
Proof.
  intros HN [_ Ha Hc _ _ Hl] (Hz & Hs & H); simpl in *; split_and!; [congruence|congruence|].
  intros Hu; destruct (H Hu) as (Hk & Hp & Hft); destruct (Hl Hz Hk) as [Hk' Hp']; split_and!; [done| |apply Hft..].
  intros p E; destruct (Hp' p E) as [E'|E']; [auto|].
  destruct (HN _ E'); [left; by apply name_keyboard|by right].
Qed.

Lemma limited_entry (names : string -> Prop) st st' a :
  (forall n, has_grant (sessions st.2) n -> n = "keyboard"%string \/ names n) ->
  authorizes st st' -> authed_conns st'.2 = authed_conns st.2 ++ [a] -> entry_ok names st'.1 a.
Proof.
  intros Hg [_ _ Ha Hc _ (a' & He & _ & Hk & Hl)] He'; rewrite He in He'; simplify_list_eq.
  split_and!; [done|done|]; rewrite Hk; intros Hu; destruct (Hl Hu) as (Hp & Hf & Ht); split_and!; [done| | |].
  - intros p E; left; auto.
  - intros E; by destruct (Hg _ (Hf E)).
  - intros H1 H2; destruct (Ht H1 H2) as (t & Hr & E); exists t; split; [done|].
    destruct (Hg _ E) as [E'|]; [by destruct t|done].
Qed.

(** Dropping a connection leaves the others and their entries. *)
Lemma drop_inv (names : string -> Prop) e c h id (cs : gmap Z Connection) :
  host_inv names {| connections := <[id := c]> cs; common := h |} ->
  host_inv names {| connections := delete id cs; common := (drop_connection e c h).2 |}.
Proof.
  intros [Hi Hg He]; simpl in *; pose proof (Hi id c (lookup_insert_eq _ _ _)) as Hid.
  unfold drop_connection, after_loop; pose proof (revoke_input_only c) as (Hl & _).
  destruct (revoke_remote_input_authorization c) as [es c1]; simpl in Hl.
  injection Hl as Hi1 Hz1 _ Hc1 _; constructor; simpl; rewrite ?Hi1, ?Hz1, ?Hc1.
  - intros id' c' [Hne E]%lookup_delete_Some; apply Hi; by rewrite lookup_insert_ne.
  - intros n Hn; apply Hg; destruct (authorized c), (is_some (authed_conn_id c)); exact Hn.
  - intros a Ha; assert (a ∈ authed_conns h /\ a_conn_id a <> id) as [Ha' Hne].
    { destruct (is_some (authed_conn_id c)) eqn:Es; simpl in Ha.
      - apply list_elem_of_In, filter_In in Ha as [Ha Hb]; split.
        + apply list_elem_of_In; by destruct (authorized c).
        + rewrite Hid in Hb; by destruct (Z.eqb_spec (a_conn_id a) id).
      - assert (a ∈ authed_conns h) as Ha' by (by destruct (authorized c)); split; [done|]; intros E.
        destruct (He a Ha') as (c' & Hc' & _ & Hs & _); rewrite E, lookup_insert_eq in Hc'; congruence. }
    destruct (He a Ha') as (c' & Hc' & Hok); rewrite lookup_insert_ne in Hc' by done.
    exists c'; split; [by rewrite lookup_delete_ne|done].
Qed.

Lemma advances_inv (names N : string -> Prop) id c h c' h' (cs : gmap Z Connection) :
  cs !! id = Some c -> (forall n, N n -> n = "keyboard"%string \/ names n) ->
  host_inv names {| connections := cs; common := h |} -> advances N (c, h) (c', h') ->
  host_inv names {| connections := <[id := c']> cs; common := h' |}.
Proof.
  intros Hc HN [Hi Hg He] Hv; pose proof Hv as [Hi' _ _ Hl Hg' _]; simpl in *; constructor; simpl.
  - intros id' c1 [[<- <-]|[_ E]]%lookup_insert_Some; [rewrite Hi'|]; auto.
  - intros n E; destruct (Hg' n E); auto.
  - intros a Ha; rewrite Hl in Ha; destruct (He a Ha) as (c1 & Hc1 & Hok).
    destruct (decide (a_conn_id a = id)) as [<-|Hne].
    + exists c'; rewrite lookup_insert_eq; split; [done|]; assert (c1 = c) as -> by congruence.
      exact (advances_entry names N c h c' h' a HN Hv Hok).
    + exists c1; by rewrite lookup_insert_ne.
Qed.

Lemma authorizes_inv (names : string -> Prop) id c h c' h' (cs : gmap Z Connection) :
  cs !! id = Some c -> authorized c = false ->
  host_inv names {| connections := cs; common := h |} -> authorizes (c, h) (c', h') ->
  host_inv names {| connections := <[id := c']> cs; common := h' |}.
Proof.
  intros Hc Hz [Hi Hg He] Hv; pose proof Hv as [Hi' Hg' _ _ _ (a & Hl & Ha & _)]; simpl in *; constructor; simpl.
  - intros id' c1 [[<- <-]|[_ E]]%lookup_insert_Some; [rewrite Hi'|]; auto.
  - auto.
  - intros a' Ha'; rewrite Hl in Ha'; apply elem_of_app in Ha' as [Ha'|Ha'%list_elem_of_singleton]; [|subst a'].
    + destruct (He a' Ha') as (c1 & Hc1 & Hok); exists c1; split; [|done]; rewrite lookup_insert_ne; [done|].
      intros ->; destruct Hok; congruence.
    + exists c'; split; [rewrite Ha, (Hi _ _ Hc); apply lookup_insert_eq|].
      by eapply (limited_entry names (c, h) (c', h')).
Qed.

Lemma run_handler_inv (names : string -> Prop) N e id (m : M bool) c h s :
  connections s !! id = Some c -> (forall n, N n -> n = "keyboard"%string \/ names n) ->
  host_inv names {| connections := connections s; common := h |} ->
  wp m (fun _ _ st' => advances N (c, h) st' \/ authorized c = false /\ authorizes (c, h) st') (c, h) ->
  host_inv names (run_handler e id m c h s).2.
Proof.
  intros Hc HN Hinv; unfold wp, run_handler; destruct (m (c, h)) as [[keep es] [c' h']]; intros H.
  assert (host_inv names {| connections := <[id := c']> (connections s); common := h' |}) as Hinv'.
  { destruct H as [|[]]; [by eapply advances_inv|by eapply authorizes_inv]. }
  destruct keep; [done|]; pose proof (drop_inv names e c' h' id (connections s) Hinv') as Hd.
  by destruct (drop_connection e c' h').
Qed.

Lemma host_step_inv (names : string -> Prop) e ev s :
  host_inv names s -> (forall n, n ∈ approved_by ev s -> names n) -> host_inv names (host_step e ev s).2.
Proof.
  intros Hs Hn; pose proof Hs as [Hi Hg He]; destruct ev as [i tf hs a ctl|id m|id m|id lock|peer uuid]; simpl in *.
  - destruct (connections s !! CaptureServer.conn_id i) eqn:E; [done|]; constructor; simpl; [|done|].
    + by intros id c [[<- <-]|[_ ?]]%lookup_insert_Some; [|apply Hi].
    + intros x Hx; destruct (He x Hx) as (c & Hc & Hok); exists c; split; [|done].
      rewrite lookup_insert_ne; [done|]; congruence.
  - destruct (connections s !! id) as [c|] eqn:Hc; [|done].
    eapply run_handler_inv; [exact Hc| | |apply message_effect].
    + intros n [|[H|H]]; [by left| |].
      * apply Hg; unfold renew_session in H; by destruct (session_last_recv_time c).
      * right; apply Hn, elem_of_app; right; unfold asked_unattended; rewrite Hc; by destruct m as [| | | |[]].
    + unfold renew_session; destruct (session_last_recv_time c); by constructor.
  - destruct (connections s !! id) as [c|] eqn:Hc; [|done].
    eapply run_handler_inv; [exact Hc| |by destruct s|apply cm_effect].
    intros n [|[H|H]]; [by left|by apply Hg|]; right; apply Hn, elem_of_app; left; unfold accepted_by; rewrite Hc; by destruct m as [| | |? []].
  - destruct (connections s !! id) as [c|] eqn:Hc; [|done].
    eapply (run_handler_inv names (fun _ => False)); [exact Hc|done|by destruct s|].
    apply (steps_wp parting); [apply disconnect_parting|]; intros _ _ st' H; left; by apply parting_advances.
  - by constructor.
Qed.

Lemma host_run_inv (names : string -> Prop) es s :
  host_inv names s -> (forall n, n ∈ approved es s -> names n) -> host_inv names (host_run es s).2.
Proof.
  unfold approved; revert s; induction es as [|[e ev] es IH]; intros s Hs Hn; [done|]; simpl in *.
  pose proof (host_step_inv names e ev s Hs (fun n H => Hn n (proj2 (elem_of_app _ _ _) (or_introl H)))) as H.
  specialize (IH (host_step e ev s).2 H (fun n H => Hn n (proj2 (elem_of_app _ _ _) (or_intror H)))).
  destruct (host_step e ev s) as [out s1]; simpl in *; by destruct (host_run es s1).
Qed.

(** A host that has not been connected to. *)
Definition fresh (s : Host) : Prop :=
  connections s = ∅ /\ authed_conns (common s) = [] /\ table (sessions (common s)) = ∅.

Lemma fresh_inv names s : fresh s -> host_inv names s.
Proof.
  intros (Hc & Ha & Ht); constructor; rewrite ?Hc, ?Ha.
  - by intros id c E%lookup_empty_Some.
  - intros n (k & x & E & _); rewrite Ht in E; by apply lookup_empty_Some in E.
  - by intros a ?%elem_of_nil.
Qed.

(** Approved on this host before: by the local user in answer to a request of some
    connection, or because a session with unattended access asked for it. *)
Definition approved_before (es : list (LoginEnv * HostEvent)) (s : Host) (n : string) : Prop :=
  n ∈ over_run accepted_by es s \/ n ∈ over_run asked_unattended es s.

(** C4. Whatever viewers send to a host and in whatever order, a connection
    that was not authorized as an unattended one has, of the permissions other
    than the keyboard, only those whose name was approved on this host before: by
    the local user in answer to a request, of this connection or another
    ([grants_are_borrowed]), or because an unattended session asked for it.  A
    file transfer was approved under its own name, and a camera or a terminal is
    only listed when some type of connection was approved. *)
Theorem low_permission_needs_approval es s a :
  fresh s -> a ∈ authed_conns (common (host_run es s).2) -> is_unattended_access (a_auth_kind a) = false ->
  exists c, connections (host_run es s).2 !! a_conn_id a = Some c /\ authorized c = true /\
    (forall p, enabled p (perms c) = true -> p = Keyboard \/ approved_before es s (permission_name p)) /\
    (a_conn_type a = FileTransfer -> approved_before es s "file_transfer") /\
    (a_conn_type a <> Remote -> a_conn_type a <> PortForward ->
       exists t, t <> Remote /\ approved_before es s (connection_type_grant_name t)).
Proof.
  intros Hf Ha Hu; pose proof (host_run_inv (approved_before es s) es s (fresh_inv _ s Hf)
    (fun n H => proj1 (approved_split es s n) H)) as [_ _ He].
  destruct (He a Ha) as (c & Hc & Hz & _ & H); destruct (H Hu) as (_ & Hp & Hft & Ht).
  exists c; auto.
Qed.

(** ** What reaches the desktop *)

Definition inert {A} (m : M A) : Prop := forall st, harmless (m st).1.2.

Lemma inert_bind {A B} (m : M A) (f : A -> M B) : inert m -> (forall x, inert (f x)) -> inert (bind m f).
Proof.
  intros Hm Hf st; unfold bind; specialize (Hm st); destruct (m st) as [[x es] st'].
  specialize (Hf x st'); destruct (f x st') as [[y es'] st'']; simpl in *; by apply Forall_app.
Qed.
Lemma inert_emit es : harmless es -> inert (emit es).
Proof. by intros H st. Qed.
Lemma inert_ret {A} (x : A) : inert (ret x).
Proof. intros st; constructor. Qed.
Lemma inert_conn {A} (f : Connection -> A) : inert (conn f).
Proof. intros st; constructor. Qed.
Lemma inert_shared {A} (f : Shared -> A) : inert (shared f).
Proof. intros st; constructor. Qed.
Lemma inert_set_conn f : inert (set_conn f).
Proof. intros [c h]; constructor. Qed.
Lemma inert_set_shared f : inert (set_shared f).
Proof. intros [c h]; constructor. Qed.
Lemma inert_when b m : inert m -> inert (when b m).
Proof. intros H; destruct b; [done|apply inert_ret]. Qed.

Ltac inspect :=
  repeat match goal with
  | |- inert (bind _ _) => apply inert_bind; [|intros ?]
  | |- inert (ret _) => apply inert_ret
  | |- inert (conn _) => apply inert_conn
  | |- inert (shared _) => apply inert_shared
  | |- inert (set_conn _) => apply inert_set_conn
  | |- inert (set_shared _) => apply inert_set_shared
  | |- inert (when _ _) => apply inert_when
  | |- inert (login_error _ _) => unfold login_error
  | |- inert (try_start_cm _) => unfold try_start_cm
  | |- inert (emit _) => apply inert_emit; solve [is_harmless]
  | |- inert (if ?b then _ else _) => destruct b
  | |- inert (match ?x with _ => _ end) => destruct x
  | |- inert _ => solve [eauto with inert]
  end.
Create HintDb inert.

Lemma recent_inert e b : inert (is_recent_session e b).
Proof. unfold is_recent_session; inspect. Qed.
Lemma check_failure_inert e b : inert (check_failure e b).
Proof. unfold check_failure; inspect. Qed.
Lemma update_failure_inert e b f t r : inert (update_failure e b f t r).
Proof. unfold update_failure; inspect. Qed.
Lemma session_auth_inert e kind pw tf : inert (update_or_insert_session_auth e kind pw tf).
Proof. unfold update_or_insert_session_auth; inspect. Qed.
#[local] Hint Resolve recent_inert check_failure_inert update_failure_inert session_auth_inert : inert.
Lemma validate_password_inert e b : inert (validate_password e b).
Proof. unfold validate_password, validate_permanent_password; inspect. Qed.
Lemma prepare_inert e : inert (prepare_terminal_login_for_authorization e).
Proof. unfold prepare_terminal_login_for_authorization; inspect. Qed.
Lemma forward_inert e : inert (connect_port_forward_if_needed e).
Proof. unfold connect_port_forward_if_needed; inspect. Qed.
Lemma new_authed_inert : inert new_authed_conn_id.
Proof. unfold new_authed_conn_id; inspect. Qed.
Lemma without_validation_inert e r : inert (handle_login_request_without_validation e r).
Proof. unfold handle_login_request_without_validation; inspect. Qed.
Lemma login_union_inert e u : inert (handle_login_union e u).
Proof. unfold handle_login_union; inspect. Qed.
Lemma headless_inert e r : inert (start_headless_desktop e r).
Proof. unfold start_headless_desktop; inspect. Qed.
#[local] Hint Resolve validate_password_inert prepare_inert forward_inert new_authed_inert
  without_validation_inert login_union_inert headless_inert : inert.

Lemma step_of_inert f : mild f -> inert (step_of f).
Proof. intros Hf [c h]; unfold step_of; specialize (Hf (c, server h)); by destruct (f (c, server h)) as [es [? ?]]. Qed.

Lemma after_response_inert e b : inert (after_login_response e b).
Proof.
  unfold after_login_response, try_sub_monitor_services, try_sub_camera_displays; inspect.
  apply step_of_inert, update_options_mild.
Qed.
#[local] Hint Resolve after_response_inert : inert.
Lemma logon_response_inert e us : harmless us -> inert (send_logon_response e us).
Proof.
  intros Hu; unfold send_logon_response; inspect; apply inert_emit; by constructor.
Qed.
Lemma logon_inert e : inert (send_logon_response_and_keep_alive e).
Proof.
  unfold send_logon_response_and_keep_alive.
  apply inert_bind; [inspect|intros []]; [inspect|]; apply inert_bind; [inspect|intros second].
  apply inert_bind; [inspect|intros []]; [inspect|]; apply inert_bind; [inspect|intros c].
  apply inert_bind; [inspect|intros []]; [inspect|]; apply inert_bind; [inspect|intros []]; [inspect|].
  apply inert_bind; [inspect|intros []]; intros [c1 h1].
  set (m := connect_port_forward_if_needed e); unfold bind at 1; simpl; revert c1 h1.
  assert (forall us, harmless us -> inert (connected <- m ;;
     if negb connected then ret false else new_authed_conn_id ;;; send_logon_response e us ;;; ret true)) as H.
  { intros us Hus; inspect; by apply logon_response_inert. }
  intros c1 h1; specialize (H _ (permission_updates_harmless c1) (c1, h1)); revert H.
  by destruct (bind m _ (c1, h1)) as [[? ?] ?].
Qed.
#[local] Hint Resolve logon_inert : inert.

Lemma log_on_inert e : inert (log_on e).
Proof. unfold log_on; inspect. Qed.
#[local] Hint Resolve log_on_inert : inert.
Lemma login_password_inert e r err : inert (handle_login_password e r err).
Proof. unfold handle_login_password; inspect. Qed.
#[local] Hint Resolve login_password_inert : inert.
Lemma login_request_inert e r : inert (handle_login_request e r).
Proof. unfold handle_login_request; inspect. Qed.
Lemma auth_2fa_inert e d : inert (handle_auth_2fa e d).
Proof. unfold handle_auth_2fa; inspect. Qed.
Lemma switch_sides_inert e r u : inert (handle_switch_sides e r u).
Proof. unfold handle_switch_sides; inspect. Qed.
#[local] Hint Resolve login_request_inert auth_2fa_inert switch_sides_inert : inert.

Lemma cm_inert e m : m <> Close -> inert (handle_cm e m).
Proof.
  intros Hm; destruct m as [| |n b|id b]; unfold handle_cm; [inspect|done| |]; intros [c h].
  - unfold handle_switch_permission; destruct (switch_permission_policy_denial_reason_with_grant _ _ _ _); simpl.
    + destruct (switch_permission_from_name n); repeat constructor.
    + pose proof (apply_switch_harmless (env e) n b c (server h)) as H.
      by destruct (apply_switch_permission _ _ _ _ _) as [[es c'] s'].
  - pose proof (result_harmless option2bool control_value (env e) id b c (sessions h) (server h)) as H.
    by destruct (handle_permission_request_result _ _ _ _ _ _ _ _) as [[[es c'] ss'] s'].
Qed.

Lemma inert_elem {A} (m : M A) st x : inert m -> x ∈ (m st).1.2 -> controls x = true -> False.
Proof. intros Hm Hx Hc; apply (proj1 (Forall_forall _ _) (Hm st)) in Hx; congruence. Qed.

(** ** The lock at the end of a session *)

(** What decides on the lock, and that it is asked for by sessions that are
    authorized. *)
Definition lock_part (c : Connection) : bool * bool := (keyboard (perms c), lock_after_session_end (option_flags c)).
Definition locks_at_end (c : Connection) : bool := keyboard (perms c) && lock_after_session_end (option_flags c).
Definition asked (c : Connection) : Prop := lock_after_session_end (option_flags c) = true -> authorized c = true.

Lemma close_effects lock c x : x ∈ (on_close lock c).1 -> controls x = true -> x = LockScreen /\ locks_at_end c = true.
Proof.
  unfold on_close, locks_at_end; destruct (closed c); [by intros ?%elem_of_nil|]; cbn [fst].
  destruct lock, (lock_after_session_end (option_flags c)), (keyboard (perms c)); cbn; set_solver.
Qed.

(** Everything keeps it until the login response, after which the connection is
    authorized and goes on. *)
Definition same_lock (st st' : State) : Prop := lock_part st'.1 = lock_part st.1.
#[local] Instance same_lock_preorder : PreOrder same_lock.
Proof. split; [done|]; unfold same_lock; intros ? ? ? ? ?; congruence. Qed.
Definition ends (m : M bool) : Prop := forall st,
  same_lock st (m st).2 \/ (m st).1.1 = true /\ authorized (m st).2.1 = true.

Lemma ends_steps m : steps same_lock m -> ends m.
Proof. intros H st; left; apply H. Qed.
Lemma ends_bind {A} (m : M A) f : steps same_lock m -> (forall x, ends (f x)) -> ends (bind m f).
Proof.
  intros Hm Hf st; unfold bind; specialize (Hm st); destruct (m st) as [[x es] st'].
  specialize (Hf x st'); destruct (f x st') as [[y es'] st'']; simpl in *.
  destruct Hf as [Hf|Hf]; [left; by etrans|by right].
Qed.
Lemma ends_then m (f : bool -> M bool) : ends m -> (forall b, steps same_lock (f b)) ->
  (forall st, (f true st).1.1 = true /\ authorized (f true st).2.1 = authorized st.1) -> ends (bind m f).
Proof.
  intros Hm Hs Hf st; unfold bind; specialize (Hm st); destruct (m st) as [[x es] st']; simpl in *.
  destruct Hm as [Hm|[-> Hm]].
  - specialize (Hs x st'); destruct (f x st') as [[y es'] st'']; left; by etrans.
  - specialize (Hf st'); destruct (f true st') as [[y es'] st'']; right; simpl in *; destruct Hf; split; congruence.
Qed.

Ltac walk_end :=
  repeat match goal with
  | |- ends (bind _ _) => apply ends_bind; [solve [walk; try done]|intros ?]
  | |- ends (if ?b then _ else _) => destruct b
  | |- ends (match ?x with _ => _ end) => destruct x
  | |- ends _ => first [solve [eauto with ends]|apply ends_steps; solve [walk; try done]]
  end.
Create HintDb ends.

Lemma close_lock lock : steps same_lock (close_connection lock).
Proof.
  intros [c h]; unfold close_connection; destruct (close_same lock c) as (b & q & Hc).
  by destruct (on_close lock c) as [es c']; simpl in *; subst c'.
Qed.
Lemma recent_lock e b : steps same_lock (is_recent_session e b).
Proof. unfold is_recent_session; walk; done. Qed.
Lemma check_failure_lock e b : steps same_lock (check_failure e b).
Proof. unfold check_failure; walk. Qed.
Lemma update_failure_lock e b f t r : steps same_lock (update_failure e b f t r).
Proof. unfold update_failure; walk; by destruct b. Qed.
Lemma session_auth_lock e kind pw tf : steps same_lock (update_or_insert_session_auth e kind pw tf).
Proof. unfold update_or_insert_session_auth; walk; done. Qed.
#[local] Hint Resolve close_lock recent_lock check_failure_lock update_failure_lock session_auth_lock : steps.
Lemma validate_password_lock e b : steps same_lock (validate_password e b).
Proof. unfold validate_password, validate_permanent_password; walk; done. Qed.
Lemma without_validation_lock e r : steps same_lock (handle_login_request_without_validation e r).
Proof. unfold handle_login_request_without_validation; walk; [done|by destruct (login_option r)|by case_match]. Qed.
Lemma login_union_lock e u : steps same_lock (handle_login_union e u).
Proof. unfold handle_login_union; walk; try done; by destruct (options_in_login c) as [[]|]. Qed.
Lemma headless_lock e r : steps same_lock (start_headless_desktop e r).
Proof. unfold start_headless_desktop; walk. Qed.
Lemma prepare_lock e : steps same_lock (prepare_terminal_login_for_authorization e).
Proof. unfold prepare_terminal_login_for_authorization; walk; done. Qed.
Lemma forward_lock e : steps same_lock (connect_port_forward_if_needed e).
Proof. unfold connect_port_forward_if_needed; walk; done. Qed.
Lemma defaults_lock : steps same_lock (set_conn apply_session_permission_defaults).
Proof. walk; unfold same_lock, lock_part; simpl; f_equal; unfold session_default_permission; by destruct (is_unattended_access _). Qed.
#[local] Hint Resolve validate_password_lock without_validation_lock login_union_lock headless_lock prepare_lock
  forward_lock defaults_lock : steps.

Lemma logon_ends e : ends (send_logon_response_and_keep_alive e).
Proof.
  unfold send_logon_response_and_keep_alive; walk_end; apply ends_bind; [apply defaults_lock|intros _]; walk_end.
  intros st; right; unfold bind; pose proof (logon_response_steady e) as H.
  destruct (new_authed_conn_id st) as [[[] es] st1] eqn:E; specialize (H x1 st1).
  destruct (send_logon_response e x1 st1) as [[[] es2] st2]; split; [done|]; simpl in *.
  rewrite (q_authorized _ _ (s_quiet _ _ H)); destruct st; unfold new_authed_conn_id, bind in E; simpl in E; by injection E as <- <-.
Qed.
#[local] Hint Resolve logon_ends : ends.

Lemma log_on_ends e : ends (log_on e).
Proof.
  unfold log_on; apply ends_then; [apply logon_ends|intros []; walk|done].
Qed.
#[local] Hint Resolve log_on_ends : ends.
Lemma login_password_ends e r err : ends (handle_login_password e r err).
Proof. unfold handle_login_password; walk_end. Qed.
#[local] Hint Resolve login_password_ends : ends.
Lemma login_request_ends e r : ends (handle_login_request e r).
Proof. unfold handle_login_request; walk_end. Qed.
Lemma auth_2fa_ends e d : ends (handle_auth_2fa e d).
Proof.
  unfold handle_auth_2fa; walk_end; apply ends_then; [apply log_on_ends|intros []; walk|done].
Qed.
Lemma switch_sides_ends e r u : ends (handle_switch_sides e r u).
Proof. unfold handle_switch_sides; walk_end. Qed.

(** A message, of a connection or of the connection manager. *)
Definition ends_at (m : M bool) (c : Connection) (h : Shared) : Prop :=
  ((m (c, h)).1.1 = false -> lock_part (m (c, h)).2.1 = lock_part c) /\ (asked c -> asked (m (c, h)).2.1).

Lemma ends_asked m c h : ends m -> (authorized c = true -> authorized (m (c, h)).2.1 = true) -> ends_at m c h.
Proof.
  intros Hm Ha; destruct (Hm (c, h)) as [H|[Hk Hz]]; [split; [by intros _|]|split; [congruence|by intros _ _]].
  unfold asked; intros Hc Hl; apply Ha, Hc; unfold same_lock, lock_part in H; simpl in H; congruence.
Qed.

Lemma close_reason_ends e : ends (on_message e CloseReason).
Proof. apply ends_steps; unfold on_message; walk; done. Qed.
Lemma cm_close_ends e : ends (handle_cm e Close).
Proof. apply ends_steps; unfold handle_cm; walk; done. Qed.
Lemma authorize_ends e : ends (handle_cm e Authorize).
Proof.
  unfold handle_cm; apply ends_bind; [by walk|intros _]; apply ends_bind; [by walk|intros _]; apply logon_ends.
Qed.

Lemma message_ends e m c h : ends_at (on_message e m) c h.
Proof.
  destruct m as [|r|d|r uuid|m]; [apply ends_asked..|].
  - apply close_reason_ends.
  - intros Ha; rewrite <- Ha; apply (q_authorized _ _ (proj1 (close_reason_parting e (c, h)))).
  - apply login_request_ends.
  - intros Ha; rewrite <- Ha; exact (still_authorized _ _ (login_request_authorized e r c h Ha)).
  - apply auth_2fa_ends.
  - intros Ha; pose proof (auth_2fa_authorized e d (c, h) Ha) as H; unfold wp in H; simpl.
    destruct (handle_auth_2fa e d (c, h)) as [[k es] st]; rewrite <- Ha; exact (still_authorized _ _ H).
  - apply switch_sides_ends.
  - intros Ha; pose proof (switch_sides_authorized e r uuid (c, h) Ha) as H; unfold wp in H; simpl.
    destruct (handle_switch_sides e r uuid (c, h)) as [[k es] st]; rewrite <- Ha; exact (still_authorized _ _ H).
  - destruct (authorized c) eqn:Ha.
    + pose proof (session_message_advances e m c h Ha) as H; unfold ends_at; revert H; unfold wp, on_message, bind; simpl; rewrite Ha.
      destruct (handle_session_message _ _ _ _ _ _ m c _ _) as [[[es c'] ss'] s']; simpl; intros H.
      split; [done|]; intros _ _; rewrite <- Ha; exact (v_authorized _ _ _ H).
    + unfold ends_at, on_message, bind; simpl; rewrite Ha; done.
Qed.

(** The switches of the connection manager keep what was asked for, and go on. *)
Lemma apply_switch_lock e n b c s : lock_after_session_end (option_flags (apply_switch_permission e n b c s).1.2) =
  lock_after_session_end (option_flags c) /\ authorized (apply_switch_permission e n b c s).1.2 = authorized c.
Proof.
  unfold apply_switch_permission; destruct (switch_permission_from_name n) as [p|]; [|done].
  destruct (bool_decide (p = Keyboard) && negb b); [|done].
  unfold revoke_remote_input_authorization; simpl; by destruct (platform_state_dirty _).
Qed.
Lemma switch_lock e n b c ss s : lock_after_session_end (option_flags (handle_switch_permission e n b c ss s).1.2) =
  lock_after_session_end (option_flags c) /\ authorized (handle_switch_permission e n b c ss s).1.2 = authorized c.
Proof. unfold handle_switch_permission; destruct (switch_permission_policy_denial_reason_with_grant _ _ _ _); [done|apply apply_switch_lock]. Qed.
Lemma result_lock e id b c ss s :
  let c' := (handle_permission_request_result option2bool control_value e id b c ss s).1.1.2 in
  lock_after_session_end (option_flags c') = lock_after_session_end (option_flags c) /\ authorized c' = authorized c.
Proof.
  unfold handle_permission_request_result; simpl; destruct (_ !! id) as [r|]; [|done]; simpl; destruct (_ <=? _); [done|].
  destruct b; simpl; [|done]; destruct (permission_request_denial_reason _ _ _ _ _); [done|].
  unfold approve_permission_request; destruct (permission_request_connection_type _); [done|].
  destruct (is_some _); [|done]; match goal with |- context [apply_switch_permission ?e ?n ?b ?c ?s] =>
    pose proof (apply_switch_lock e n b c s) as H; by destruct (apply_switch_permission e n b c s) as [[es c'] s'] end.
Qed.

Lemma kept_ends m c h : (m (c, h)).1.1 = true ->
  lock_after_session_end (option_flags (m (c, h)).2.1) = lock_after_session_end (option_flags c) /\ authorized (m (c, h)).2.1 = authorized c ->
  ends_at m c h.
Proof.
  intros Hk [Hl Ha]; split; [intros E; by pose proof (eq_trans (eq_sym Hk) E)|].
  intros Hc E; exact (eq_trans Ha (Hc (eq_trans (eq_sym Hl) E))).
Qed.

Lemma cm_ends e m c h : ends_at (handle_cm e m) c h.
Proof.
  pose proof (cm_effect e m c h) as H; unfold wp in H.
  assert (authorized c = true -> authorized (handle_cm e m (c, h)).2.1 = true) as Hz.
  { intros Ha; destruct (handle_cm e m (c, h)) as [[k es] st']; destruct H as [H|[H _]]; [|congruence].
    rewrite <- Ha; exact (v_authorized _ _ _ H). }
  destruct m as [| |n b|id b].
  - apply ends_asked; [apply authorize_ends|done].
  - apply ends_asked; [apply cm_close_ends|done].
  - apply kept_ends; [simpl; by destruct (handle_switch_permission _ _ _ _ _ _) as [[? ?] ?]|].
    pose proof (switch_lock (env e) n b c (sessions h) (server h)) as Hl; simpl.
    by destruct (handle_switch_permission _ _ _ _ _ _) as [[es c'] s'].
  - apply kept_ends; [simpl; by destruct (handle_permission_request_result _ _ _ _ _ _ _ _) as [[[? ?] ?] ?]|].
    pose proof (result_lock (env e) id b c (sessions h) (server h)) as Hl; simpl.
    by destruct (handle_permission_request_result _ _ _ _ _ _ _ _) as [[[es c'] ss'] s'].
Qed.

Lemma close_ends lock c h : ends_at (close_connection lock ;;; ret false) c h.
Proof.
  apply ends_asked; [apply ends_steps, steps_bind; [typeclasses eauto|apply close_lock|intros; apply steps_ret; typeclasses eauto]|].
  intros Ha; rewrite <- Ha; exact (q_authorized _ _ (disconnect_quiet lock (c, h))).
Qed.

Definition all_asked (s : Host) : Prop := forall id c, connections s !! id = Some c -> asked c.

Lemma run_handler_asked e id (m : M bool) c h s : all_asked s -> asked c -> ends_at m c h -> all_asked (run_handler e id m c h s).2.
Proof.
  intros Hs Hc [_ Hm] id' c' [[-> ->]|[Hne Hl]]%run_handler_lookup; [by apply Hm|by apply (Hs id')].
Qed.

Lemma host_step_asked e ev s : all_asked s -> all_asked (host_step e ev s).2.
Proof.
  intros Hs; destruct ev as [i tf hs a ctl|id m|id m|id lock|peer uuid]; simpl.
  - destruct (connections s !! _) eqn:E; [done|]; intros id c; simpl; intros [[_ <-]|[_ Hl]]%lookup_insert_Some; [done|by apply (Hs id)].
  - destruct (connections s !! id) as [c|] eqn:E; [|done]; apply run_handler_asked; [done|by apply (Hs id)|apply message_ends].
  - destruct (connections s !! id) as [c|] eqn:E; [|done]; apply run_handler_asked; [done|by apply (Hs id)|apply cm_ends].
  - destruct (connections s !! id) as [c|] eqn:E; [|done]; apply run_handler_asked; [done|by apply (Hs id)|apply close_ends].
  - done.
Qed.

Lemma host_run_asked es s : fresh s -> all_asked (host_run es s).2.
Proof.
  intros (Hf & _); assert (all_asked s) as Hs by (intros id c; rewrite Hf; by intros ?%lookup_empty_Some).
  clear Hf; revert s Hs; induction es as [|[e ev] es IH]; intros s Hs; [done|]; simpl.
  pose proof (host_step_asked e ev s Hs) as H; destruct (host_step e ev s) as [out s1].
  specialize (IH s1 H); by destruct (host_run es s1).
Qed.

Lemma drop_effects e c h x : x ∈ (drop_connection e c h).1 -> controls x = true -> x = LockScreen /\ locks_at_end c = true.
Proof.
  unfold drop_connection; pose proof (revoke_harmless c) as H; pose proof (revoke_input_only c) as (_ & Hp & Ho & _).
  destruct (revoke_remote_input_authorization c) as [es c1]; simpl in *; rewrite !elem_of_app; intros [Hx|[Hx|Hx]] Hc.
  - apply (proj1 (Forall_forall _ _) H) in Hx; congruence.
  - apply list_elem_of_fmap in Hx as (k & -> & _); done.
  - apply close_effects in Hx as [-> Hl]; [|done]; split; [done|]; unfold locks_at_end in *; simpl in Hl; by rewrite <- Hp, <- Ho.
Qed.

(** What controls the desktop comes from the handler, or locks the screen at the end
    of a connection that asked for it. *)
Lemma run_handler_effects e id (m : M bool) c h s x :
  x ∈ (run_handler e id m c h s).1 -> controls x = true -> ends_at m c h ->
  x ∈ (m (c, h)).1.2 \/
  x = LockScreen /\ locks_at_end c = true /\ connections (run_handler e id m c h s).2 !! id = None.
Proof.
  unfold run_handler; intros Hx Hc [He _]; revert Hx He; destruct (m (c, h)) as [[keep es] [c' h']]; simpl.
  destruct keep; [auto|]; pose proof (drop_effects e c' h' x) as Hd; destruct (drop_connection e c' h') as [es' h'']; simpl in *.
  rewrite elem_of_app; intros [Hx|Hx] He; [auto|right]; destruct (Hd Hx Hc) as [-> Hl].
  split; [done|split; [|by rewrite lookup_delete_eq]]; specialize (He eq_refl); unfold lock_part, locks_at_end in *; congruence.
Qed.

Lemma run_handler_gone e id (m : M bool) c h s : (m (c, h)).1.1 = false -> connections (run_handler e id m c h s).2 !! id = None.
Proof.
  unfold run_handler; destruct (m (c, h)) as [[keep es] [c' h']]; simpl; intros ->.
  destruct (drop_connection e c' h'); apply lookup_delete_eq.
Qed.

(** The handlers that close a connection type nothing else. *)
Lemma close_handler_effects lock st x : x ∈ (close_connection lock st).1.2 -> controls x = true ->
  x = LockScreen /\ locks_at_end st.1 = true.
Proof.
  destruct st as [c h]; unfold close_connection; pose proof (close_effects lock c x) as H.
  destruct (on_close lock c) as [es c']; simpl in *; auto.
Qed.

Lemma close_reason_effects e c h x : x ∈ (on_message e CloseReason (c, h)).1.2 -> controls x = true ->
  x = LockScreen /\ locks_at_end c = true.
Proof.
  pose proof (close_handler_effects true (c, h) x) as H; unfold on_message, bind.
  destruct (close_connection true (c, h)) as [[[] es] [c1 h1]]; simpl in *; rewrite app_nil_r; auto.
Qed.
Lemma cm_close_effects e c h x : x ∈ (handle_cm e Close (c, h)).1.2 -> controls x = true ->
  x = LockScreen /\ locks_at_end c = true.
Proof.
  unfold handle_cm, bind; simpl; pose proof (close_effects true c x) as H; destruct (on_close true c) as [es c1]; simpl in *.
  rewrite app_nil_r; auto.
Qed.

(** The lock of the screen. *)
Definition locked_by (e : LoginEnv) (ev : HostEvent) (s : Host) (x : Effect) : Prop :=
  x = LockScreen /\ exists id c, connections s !! id = Some c /\ connections (host_step e ev s).2 !! id = None /\
    authorized c = true /\ keyboard (perms c) = true /\ lock_after_session_end (option_flags c) = true.

(** C35. In every state of a host a step moves the mouse, touches the screen or types
    a key only in two cases.  It handles an input message of a connection that is
    authorized, is no tunnel and no camera view, has the keyboard permission and did
    not turn the keyboard off, and of which, unless it is unattended, no request for
    a permission is waiting for the local user; or a connection ends that is
    authorized, has the keyboard permission and asked for the screen to be locked
    at its end, and the keys that lock it are typed. *)
Theorem input_needs_permission es s0 e ev x :
  fresh s0 -> let s := (host_run es s0).2 in
  x ∈ (host_step e ev s).1 -> controls x = true ->
  (exists id c m, ev = Receive id (Authorized m) /\ connections s !! id = Some c /\
    authorized c = true /\ may_control (env e) c) \/
  locked_by e ev s x.
Proof.
  intros Hf s Hx Hc; pose proof (host_run_asked es s0 Hf) as Ha; fold s in Ha; clearbody s.
  assert (forall id c, connections s !! id = Some c -> x = LockScreen -> locks_at_end c = true ->
    connections (host_step e ev s).2 !! id = None -> locked_by e ev s x) as Hlock.
  { intros id c E -> [Hk Hl]%andb_true_iff Hg; split; [done|]; exists id, c; split_and!; try done; by apply (Ha id c). }
  destruct ev as [i tf hs a ctl|id m|id m|id lock|peer uuid]; simpl in Hx.
  - destruct (connections s !! CaptureServer.conn_id i); by apply elem_of_nil in Hx.
  - destruct (connections s !! id) as [c|] eqn:E; [|by apply elem_of_nil in Hx].
    specialize (Hlock id c E); simpl in Hlock; rewrite E in Hlock.
    set (h := renew_session e c (common s)) in *.
    destruct (run_handler_effects _ _ _ _ _ _ _ Hx Hc (message_ends e m c h)) as [Hm|(Hl & Hk & Hg)]; [|right; auto].
    destruct m as [|r|d|r uuid|m].
    + right; destruct (close_reason_effects e c h x Hm Hc) as [Hl Hk]; apply Hlock; [done|done|].
      apply run_handler_gone; simpl; unfold bind; simpl; by destruct (on_close true c).
    + exfalso; eapply (inert_elem (handle_login_request e r)); [inspect|done|done].
    + exfalso; eapply (inert_elem (handle_auth_2fa e d)); [inspect|done|done].
    + exfalso; eapply (inert_elem (handle_switch_sides e r uuid)); [inspect|done|done].
    + left; exists id, c, m; split; [done|split; [done|]]; revert Hm; unfold on_message, bind; simpl.
      destruct (authorized c); [|by intros ?%elem_of_nil]; intros Hm; split; [done|].
      pose proof (message_controls option2bool control_value rdev_modifier validate_keyboard_input keycode_from_usb_hid (env e) m c (sessions h)
        (server h) x) as H.
      destruct (handle_session_message _ _ _ _ _ _ m c _ _) as [[[es' c'] ss'] s']; by apply H.
  - destruct (connections s !! id) as [c|] eqn:E; [|by apply elem_of_nil in Hx].
    specialize (Hlock id c E); simpl in Hlock; rewrite E in Hlock; right.
    destruct (run_handler_effects _ _ _ _ _ _ _ Hx Hc (cm_ends e m c (common s))) as [Hm|(Hl & Hk & Hg)]; [|auto].
    assert (m = Close \/ m <> Close) as [->|Hn] by (destruct m; auto); [|by apply (inert_elem _ _ _ (cm_inert e m Hn)) in Hm].
    destruct (cm_close_effects e c (common s) x Hm Hc) as [Hl Hk]; apply Hlock; [done|done|].
    apply run_handler_gone; simpl; unfold bind; simpl; by destruct (on_close true c).
  - destruct (connections s !! id) as [c|] eqn:E; [|by apply elem_of_nil in Hx].
    specialize (Hlock id c E); simpl in Hlock; rewrite E in Hlock; right.
    destruct (run_handler_effects _ _ _ _ _ _ _ Hx Hc (close_ends lock c (common s))) as [Hm|(Hl & Hk & Hg)]; [|auto].
    assert (x ∈ (close_connection lock (c, common s)).1.2) as Hm'.
    { revert Hm; unfold bind; destruct (close_connection lock (c, common s)) as [[[] es1] st1]; simpl; by rewrite app_nil_r. }
    destruct (close_handler_effects lock (c, common s) x Hm' Hc) as [Hl Hk]; apply Hlock; [done|done|].
    apply run_handler_gone; unfold bind; simpl; by destruct (on_close lock c).
  - by apply elem_of_nil in Hx.
Qed.

(** ** Keys that are held down *)

Lemma still_held es c h st : still (c, h) st -> held_ok c -> held_ok st.1 /\ released es c st.1.
Proof.
  intros [[[_ Ha _ _ _ _ _] _ _ _ _ _] Hi]; injection Hi as Hp Ho Hg Hm; apply same_held; [done|done|done|].
  by unfold peer_keyboard_enabled; rewrite Hp, Ho.
Qed.
Lemma clean_released es c c' : clean c = true -> clean c' = true -> held_ok c' /\ released es c c'.
Proof.
  intros Hc Hc'; split; [by apply clean_held|]; apply clean_spec in Hc as [Hp _]; intros k; rewrite Hp.
  by intros ?%elem_of_empty.
Qed.

Definition own_key (m : PeerMessage) : bool := match m with Authorized m => is_key m | _ => false end.

Lemma close_held lock es c : held_ok c -> held_ok (on_close lock c).2 /\ released es c (on_close lock c).2.
Proof. intros Hc; destruct (close_same lock c) as (b & q & ->); by apply same_held. Qed.

Lemma on_message_held e m c h : held_ok c ->
  wp (on_message e m) (fun _ es st' => held_ok st'.1 /\ (own_key m = false -> released es c st'.1)) (c, h).
Proof.
  intros Hc; destruct (authorized c) eqn:Ha.
  - destruct m as [|r|d|r uuid|m].
    + unfold wp, on_message, bind; simpl; pose proof (fun es => close_held true es c Hc) as H.
      destruct (on_close true c) as [es c']; simpl in *; destruct (H (es ++ [])); auto.
    + pose proof (login_request_authorized e r c h Ha) as H; unfold wp; simpl.
      destruct (handle_login_request e r (c, h)) as [[k es] st]; destruct (still_held es c h st H Hc); auto.
    + eapply wp_mono; [by apply auth_2fa_authorized|]; simpl; intros _ es st' H; destruct (still_held es c h st' H Hc); auto.
    + eapply wp_mono; [by apply switch_sides_authorized|]; simpl; intros _ es st' H; destruct (still_held es c h st' H Hc); auto.
    + unfold wp, on_message, bind; simpl; rewrite Ha.
      pose proof (message_held option2bool control_value rdev_modifier validate_keyboard_input
        keycode_from_usb_hid (env e) m c (sessions h) (server h) Ha Hc) as H.
      by destruct (handle_session_message _ _ _ _ _ _ m c _ _) as [[[es c'] ss'] s'].
  - pose proof (unauthorized_clean c Hc Ha) as Hcl; eapply wp_mono; [by apply on_message_proven|].
    simpl; intros _ es st' [Hq|[Hz _]]; destruct (clean_released es c st'.1 Hcl); auto;
      [by apply (q_clean _ _ Hq)|by apply (z_clean _ _ Hz)].
Qed.

Lemma cm_held e m c h : held_ok c ->
  wp (handle_cm e m) (fun _ es st' => held_ok st'.1 /\ released es c st'.1) (c, h).
Proof.
  intros Hc; destruct m as [| |n b|id b].
  - destruct (authorized c) eqn:Ha.
    + unfold wp, handle_cm, send_logon_response_and_keep_alive, bind; simpl; rewrite Ha; by apply same_held.
    + pose proof (unauthorized_clean c Hc Ha) as Hcl; unfold handle_cm.
      apply wp_bind; rewrite wp_set_conn; apply wp_bind; rewrite wp_set_conn.
      eapply wp_mono; [by apply logon_spec|]; simpl; intros _ es st' [Hq|[Hz _]]; apply clean_released; auto;
        [by apply (q_clean _ _ Hq)|by apply (z_clean _ _ Hz)].
  - unfold wp, handle_cm, bind; simpl; pose proof (fun es => close_held true es c Hc) as H.
    destruct (on_close true c) as [es c']; simpl in *; destruct (H (es ++ [])); auto.
  - unfold wp, handle_cm; pose proof (switch_held (env e) n b c (sessions h) (server h) Hc) as H.
    by destruct (handle_switch_permission _ _ _ _ _ _) as [[es c'] s'].
  - unfold wp, handle_cm.
    pose proof (result_held option2bool control_value (env e) id b c (sessions h) (server h) Hc) as H.
    by destruct (handle_permission_request_result _ _ _ _ _ _ _ _) as [[[es c'] ss'] s'].
Qed.

Definition all_held (s : Host) : Prop := forall id c, connections s !! id = Some c -> held_ok c.
(** What becomes of the keys [c] held, when the connection may be gone. *)
Definition accounted (es : list Effect) (c : Connection) (oc : option Connection) : Prop :=
  forall k, k ∈ pressed_modifiers c ->
    ReleaseModifier k ∈ es \/ exists c', oc = Some c' /\ k ∈ pressed_modifiers c'.

Lemma drop_releases e c h : held_ok c ->
  forall k, k ∈ pressed_modifiers c -> ReleaseModifier k ∈ (drop_connection e c h).1.
Proof.
  intros [Hr _] k Hk; unfold drop_connection; pose proof (revoke_releases c Hr) as H.
  destruct (revoke_remote_input_authorization c) as [es c'], H as [_ H]; simpl; rewrite elem_of_app; auto.
Qed.

Lemma run_handler_held e id (m : M bool) c h s (own : bool) :
  all_held s -> wp m (fun _ es st' => held_ok st'.1 /\ (own = false -> released es c st'.1)) (c, h) ->
  all_held (run_handler e id m c h s).2 /\
  (own = false -> accounted (run_handler e id m c h s).1 c (connections (run_handler e id m c h s).2 !! id)).
Proof.
  intros Hs; unfold wp, run_handler; destruct (m (c, h)) as [[keep es] [c' h']]; simpl; intros [Hc Hr].
  destruct keep; simpl.
  - split; [intros id' c1 E; simpl in E; apply lookup_insert_Some in E as [[_ <-]|[_ ?]]; [done|by apply (Hs id')]|].
    intros Ho k Hk; destruct (Hr Ho k Hk); [right; exists c'; by rewrite lookup_insert_eq|by left].
  - pose proof (drop_releases e c' h' Hc) as Hd; destruct (drop_connection e c' h') as [es' h'']; simpl in *.
    split; [intros id' c1 E; simpl in E; apply lookup_delete_Some in E as [_ ?]; by apply (Hs id')|].
    intros Ho k Hk; left; rewrite elem_of_app; destruct (Hr Ho k Hk); auto.
Qed.

Definition lets_go (ev : HostEvent) (id : Z) : bool :=
  match ev with Receive id' m => (id' =? id) && own_key m | _ => false end.

(** An event of another connection leaves this one alone. *)
Lemma other_accounted e id id' (m : M bool) c0 h s c es : id' <> id -> connections s !! id = Some c ->
  accounted es c (connections (run_handler e id' m c0 h s).2 !! id).
Proof.
  intros Hne Hc k Hk; right; exists c; split; [|done]; unfold run_handler.
  destruct (m (c0, h)) as [[[] es'] [c' h']]; [|destruct (drop_connection e c' h')]; simpl;
    [by rewrite lookup_insert_ne|by rewrite lookup_delete_ne].
Qed.

Lemma host_step_held e ev s : all_held s ->
  all_held (host_step e ev s).2 /\
  forall id c, connections s !! id = Some c -> lets_go ev id = false ->
    accounted (host_step e ev s).1 c (connections (host_step e ev s).2 !! id).
Proof.
  intros Hs; assert (forall es id c, connections s !! id = Some c -> accounted es c (connections s !! id)) as Hsame
    by (intros es id c E k Hk; right; eauto).
  assert (forall id' c0 h (m : M bool) own, connections s !! id' = Some c0 ->
    wp m (fun _ es st' => held_ok st'.1 /\ (own = false -> released es c0 st'.1)) (c0, h) ->
    all_held (run_handler e id' m c0 h s).2 /\ forall id c, connections s !! id = Some c ->
      (id' =? id) && own = false ->
      accounted (run_handler e id' m c0 h s).1 c (connections (run_handler e id' m c0 h s).2 !! id)) as Hrun.
  { intros id' c0 h m own E Hm; destruct (run_handler_held e id' m c0 h s own Hs Hm) as [H1 H2]; split; [done|].
    intros id c Hc Ho; destruct (Z.eqb_spec id' id) as [<-|]; [|by apply other_accounted].
    assert (c0 = c) as -> by congruence; auto. }
  destruct ev as [i tf hs a ctl|id' m|id' m|id' lock|peer uuid]; simpl.
  - destruct (connections s !! CaptureServer.conn_id i) eqn:E; [split; [done|auto]|]; simpl; split.
    + intros id c E'; simpl in E'; apply lookup_insert_Some in E' as [[_ <-]|[_ ?]]; [by apply clean_held|by apply (Hs id)].
    + intros id c Hc _; rewrite lookup_insert_ne by congruence; auto.
  - destruct (connections s !! id') as [c0|] eqn:E; [|split; [done|auto]].
    apply Hrun; [done|]; apply on_message_held; by apply (Hs id').
  - destruct (connections s !! id') as [c0|] eqn:E; [|split; [done|auto]].
    destruct (Hrun id' c0 (common s) (handle_cm e m) false E) as [H1 H2].
    { eapply wp_mono; [apply cm_held; by apply (Hs id')|]; simpl; intros _ es st' []; auto. }
    split; [done|]; intros id c Hc _; apply H2; [done|apply andb_false_r].
  - destruct (connections s !! id') as [c0|] eqn:E; [|split; [done|auto]].
    destruct (Hrun id' c0 (common s) (close_connection lock ;;; ret false) false E) as [H1 H2].
    { unfold wp, bind; simpl; pose proof (fun es => close_held lock es c0 (Hs id' c0 E)) as H.
      destruct (on_close lock c0) as [es c']; simpl in *; destruct (H (es ++ [])); auto. }
    split; [done|]; intros id c Hc _; apply H2; [done|apply andb_false_r].
  - split; [done|auto].
Qed.

Lemma host_run_held es s : all_held s -> all_held (host_run es s).2.
Proof.
  revert s; induction es as [|[e ev] es IH]; intros s Hs; [done|]; simpl.
  destruct (host_step_held e ev s Hs) as [H _]; destruct (host_step e ev s) as [out s1].
  specialize (IH s1 H); by destruct (host_run es s1).
Qed.

(** Whenever a connection of the host holds modifier keys of the desktop
    down, it is authorized and may still type.  Any event but a key message of
    its own that makes it let go of a key, the end of the connection included,
    releases the key on the desktop. *)
Theorem modifiers_released es s id c :
  fresh s -> connections (host_run es s).2 !! id = Some c ->
  (pressed_modifiers c <> ∅ -> authorized c = true /\ peer_keyboard_enabled c = true) /\
  forall e ev k, k ∈ pressed_modifiers c -> lets_go ev id = false ->
    ReleaseModifier k ∈ (host_step e ev (host_run es s).2).1 \/
    exists c', connections (host_step e ev (host_run es s).2).2 !! id = Some c' /\ k ∈ pressed_modifiers c'.
Proof.
  intros (Hf & _) Hc; assert (all_held (host_run es s).2) as Hs.
  { apply host_run_held; intros i x; rewrite Hf; by intros ?%lookup_empty_Some. }
  split; [intros Hp; destruct (Hs id c Hc) as [Hr Ht]; exact (Ht (Hr Hp))|].
  intros e ev k Hk Hg; exact (proj2 (host_step_held e ev _ Hs) id c Hc Hg k Hk).
Qed.

(** ** Passwords *)

Lemma constant_time_fold_spec a b x : length a = length b ->
  constant_time_fold a b x = 0 <-> x = 0 /\ a = b.
Proof.
  revert b x; induction a as [|p a IH]; intros [|q b] x Hl; simpl in *; try done; [by split; [|intros []]|].
  rewrite IH by lia; rewrite Z.lor_eq_0_iff, Z.lxor_eq_0_iff; split; [intros [[] ->]; by subst|].
  by intros [-> [= -> ->]].
Qed.

(** The comparison whose time does not depend on the contents is equality. *)
Lemma constant_time_eq_spec a b : constant_time_eq a b = bool_decide (a = b).
Proof.
  unfold constant_time_eq; destruct (Nat.eqb_spec (length a) (length b)) as [Hl|Hl]; simpl.
  - pose proof (constant_time_fold_spec a b 0 Hl) as H; case_bool_decide as E; [apply Z.eqb_eq; by apply H|].
    apply Z.eqb_neq; intros H0; by apply H in H0 as [_ ?].
  - symmetry; apply bool_decide_eq_false; congruence.
Qed.

(** The password a login attempt is checked against, after a sequence of
    attempts of which [true] are the successful ones. *)
Definition after_attempts (e : LoginEnv) (l : list bool) (t : Temporary) : Temporary :=
  foldl (fun t ok => check_update_temporary_password e ok t) t l.

Definition counted (t : Temporary) : Z :=
  if (counted_password t =? temporary_password t)%string then failures t else 0.

Lemma attempts_count e l t : temporary_enabled e = true -> temporary_password t <> ""%string ->
  0 <= counted t -> counted t + Z.of_nat (length l) < MAX_CONSECUTIVE_FAILURES ->
  Forall (fun ok => ok = false) l ->
  temporary_password (after_attempts e l t) = temporary_password t /\
  counted (after_attempts e l t) = counted t + Z.of_nat (length l).
Proof.
  intros He; revert t; induction l as [|ok l IH]; intros t Ht H0 Hn Hf; [split; [done|simpl; lia]|].
  inversion Hf as [|? ? -> Hf']; subst; cbn [after_attempts foldl]; fold (after_attempts e l).
  set (t' := check_update_temporary_password e false t).
  assert (temporary_password t' = temporary_password t /\ counted t' = counted t + 1) as [Hp Hc].
  { clear IH; subst t'; revert H0 Hn; unfold check_update_temporary_password, counted, MAX_CONSECUTIVE_FAILURES.
    rewrite He; cbn [length negb]; destruct (String.eqb_spec (temporary_password t) ""); [done|].
    destruct (String.eqb_spec (counted_password t) (temporary_password t)) as [E|E]; simpl; intros H0 Hn;
      [destruct (Z.ltb_spec (failures t + 1) 10); [simpl|lia]; by rewrite E, String.eqb_refl|].
    by rewrite String.eqb_refl. }
  change (foldl _ t' l) with (after_attempts e l t'); cbn [length] in Hn |- *; clearbody t'.
  destruct (IH t') as [H1 H2]; [congruence|lia|lia|done|]; split; [congruence|lia].
Qed.

(** A temporary password survives nine wrong guesses in a row and not the
    tenth: then the next login is checked against a new one, whose own count
    starts at zero; and a success starts the count of the old one again. *)
Theorem temporary_password_rotates e t wrong :
  temporary_enabled e = true -> temporary_password t <> ""%string -> counted t = 0 ->
  Forall (fun ok => ok = false) wrong -> (length wrong < 10)%nat ->
  temporary_password (after_attempts e wrong t) = temporary_password t /\
  (length wrong = 9%nat -> temporary_password (after_attempts e (wrong ++ [false]) t) = next_password e /\
     counted (after_attempts e (wrong ++ [false]) t) = 0) /\
  temporary_password (after_attempts e (wrong ++ [true]) t) = temporary_password t /\
  counted (after_attempts e (wrong ++ [true]) t) = 0.
Proof.
  intros He Ht H0 Hf Hl.
  destruct (attempts_count e wrong t He Ht ltac:(lia) ltac:(unfold MAX_CONSECUTIVE_FAILURES; lia) Hf) as [Hp Hc].
  unfold after_attempts in *; rewrite !foldl_app; simpl; set (t' := foldl _ t wrong) in *.
  assert (temporary_password t' <> ""%string) as Ht' by congruence; revert Hc.
  unfold check_update_temporary_password, counted at 1 3 4; rewrite He; simpl.
  destruct (String.eqb_spec (temporary_password t') ""); [done|].
  intros Hc; split; [done|]; split.
  - intros E; rewrite E, H0 in Hc; revert Hc; unfold counted.
    destruct (String.eqb_spec (counted_password t') (temporary_password t')); simpl; [intros ->|done].
    unfold counted; simpl; by rewrite String.eqb_refl.
  - destruct (String.eqb_spec (counted_password t') (temporary_password t')) as [E'|]; simpl; split; try done;
      unfold counted; simpl; rewrite ?E', ?String.eqb_refl; done.
Qed.

End host.
