(* ===== verification/HostExamples.v ===== *)
(** * Sessions of a host

    Concrete runs of the host of file HostLogin, with the parameters
    instantiated: the theorems of that file at inputs where their hypotheses
    hold, and the sequences of messages behind what modelling it showed. *)

From S2P Require Import Prelude SessionPermissions InputGate HostLogin.
From S2P Require CaptureServer LoginFailure Subscriptions.
#[local] Open Scope Z_scope.

(** ** A host *)

Definition bytes (s : string) : list Z :=
  map (fun c => Z.of_nat (Ascii.nat_of_ascii c)) (String.list_ascii_of_string s).
Definition step := host_step (fun _ v => negb (v =? "N")%string) (fun _ => 40) (fun k => if k =? 42 then Some k else None)
  (fun _ => true) (fun k => Some k) (fun _ => None) (fun l => l) bytes (fun _ => None).
Definition run := host_run (fun _ v => negb (v =? "N")%string) (fun _ => 40) (fun k => if k =? 42 then Some k else None)
  (fun _ => true) (fun k => Some k) (fun _ => None) (fun l => l) bytes (fun _ => None).
Definition approved_names := approved_before (fun _ v => negb (v =? "N")%string) (fun _ => 40) (fun k => if k =? 42 then Some k else None)
  (fun _ => true) (fun k => Some k) (fun _ => None) (fun l => l) bytes (fun _ => None).
Definition names := approved (fun _ v => negb (v =? "N")%string) (fun _ => 40) (fun k => if k =? 42 then Some k else None)
  (fun _ => true) (fun k => Some k) (fun _ => None) (fun l => l) bytes (fun _ => None).

Definition quiet_stores : LoginFailure.Stores :=
  {| LoginFailure.table := ∅; LoginFailure.os_state := LoginFailure.default_os_state |}.
Definition file_clipboard_service : CaptureServer.Service :=
  Subscriptions.new FILE_CLIPBOARD_NAME false.
Definition start : Host :=
  {| connections := ∅;
     common := {| sessions := {| table := ∅; cells := [] |}; authed_conns := [];
                  password_failures := quiet_stores; code_failures := quiet_stores;
                  temporary := {| temporary_password := "tp"; counted_password := ""; failures := 0 |};
                  switch_sides_uuid := ∅;
                  server := CaptureServer.add_service file_clipboard_service CaptureServer.empty_server |} |}.

(** A host with a temporary password, whose local user may also accept. *)
Definition at_ (seconds : Z) : LoginEnv :=
  {| env := {| now := seconds * 1000000000; get_option := fun _ => ""; get_builtin_option := fun _ => "" |};
     now_ms := seconds * 1000; valid_username := fun _ => true; supports_no_password_access := true;
     in_privacy_mode := false; is_headless_allowed := false; headless_user := ""; desktop_error := "";
     logon_screen := false; approve_mode := ApproveBoth; has_valid_password := true;
     temporary_enabled := true; permanent_enabled := true; local_storage := ""; hard_password := "";
     next_password := "np"; trusted_devices := []; totp_accepts := Some true; service_specified_user := None;
     port_forward_connects := true; display_server_error := ""; displays := inr 0%nat; camera_exists := true |}.

Definition login (password_ : string) (u : LoginUnion) : LoginRequest :=
  {| username := ""; password := bytes password_; my_id := "peer"; my_name := ""; lr_session_id := 7;
     lr_union := u; os_username := ""; hwid := ""; my_platform := ""; login_option := None |}.
(** The answer to the salt and the challenge of the connections below. *)
Definition right_password : string := "tpsc".
Definition connect (i : Z) (two_factor : bool) : HostEvent :=
  Connect {| CaptureServer.conn_id := i; CaptureServer.tx := true; CaptureServer.tx_video := true;
             CaptureServer.conn_source := CaptureServer.Monitor |}
    two_factor {| salt := "s"; challenge := "c" |} "10.0.0.1" None.
Definition ask (id : Z) (n : string) : PeerMessage :=
  Authorized (PermissionRequest {| r_request_id := id; r_name := n; r_enabled := true |}).
Definition connected (i : Z) (s : Host) : Connection :=
  unwrap_or (connections s !! i) (new_connection (fun _ _ => true) (fun _ => 0) (env (at_ 0))
    {| CaptureServer.conn_id := 0; CaptureServer.tx := false; CaptureServer.tx_video := false;
       CaptureServer.conn_source := CaptureServer.Monitor |} false {| salt := ""; challenge := "" |} "" None).

Definition logged_in : list (LoginEnv * HostEvent) :=
  [(at_ 0, connect 1 false); (at_ 1, Receive 1 (LoginMessage (login right_password LoginOther)))].
Definition granted : list (LoginEnv * HostEvent) :=
  logged_in ++ [(at_ 2, Receive 1 (ask 5 "file")); (at_ 3, FromCm 1 (PermissionRequestResult 5 true))].


(** ** The theorems at work *)

(** A request with the temporary password is what [authorization_needs_proof] says. *)
Lemma authorization_needs_proof_witness :
  let s := (run [(at_ 0, connect 1 false)] start).2 in
  let ev := Receive 1 (LoginMessage (login right_password LoginOther)) in
  authorized (connected 1 s) = false /\ authorized (connected 1 (step (at_ 1) ev s).2) = true /\
  (ev = FromCm 1 Authorize \/
   exists m, ev = Receive 1 m /\
     message_proof (fun _ v => negb (v =? "N")%string) (fun _ => None) (fun l => l) bytes (fun _ => None) (at_ 1) m
       (connected 1 s, renew_session (at_ 1) (connected 1 s) (common s))).
Proof.
  intros s ev; split; [vm_compute; reflexivity|split; [vm_compute; reflexivity|]].
  apply (authorization_needs_proof (fun _ v => negb (v =? "N")%string) (fun _ => 40)
    (fun k => if k =? 42 then Some k else None) (fun _ => true) (fun k => Some k) (fun _ => None)
    (fun l => l) bytes (fun _ => None) (at_ 1) ev s 1 (connected 1 s) (connected 1 (step (at_ 1) ev s).2));
    vm_compute; reflexivity.
Defined.

(** A session with a temporary password gets the file permission it asks for
    when the local user accepts. *)
Lemma low_permission_needs_approval_witness :
  names granted start = ["file"]%string /\
  enabled File (perms (connected 1 (run granted start).2)) = true /\
  exists c, connections (run granted start).2 !! 1 = Some c /\ authorized c = true /\
    (forall p, enabled p (perms c) = true -> p = Keyboard \/ approved_names granted start (permission_name p)) /\
    (Remote = FileTransfer -> approved_names granted start "file_transfer") /\
    (Remote <> Remote -> Remote <> PortForward ->
       exists t, t <> Remote /\ approved_names granted start (connection_type_grant_name t)).
Proof.
  split; [vm_compute; reflexivity|split; [vm_compute; reflexivity|]].
  apply (low_permission_needs_approval (fun _ v => negb (v =? "N")%string) (fun _ => 40)
    (fun k => if k =? 42 then Some k else None) (fun _ => true) (fun k => Some k) (fun _ => None)
    (fun l => l) bytes (fun _ => None) granted start
    {| a_conn_id := 1; a_conn_type := Remote;
       a_session_key := {| peer_id := "peer"; name := ""; session_id := 7 |}; a_auth_kind := OneTimePassword |}).
  - split; [reflexivity|split; reflexivity].
  - assert (authed_conns (common (run granted start).2) = [
      {| a_conn_id := 1; a_conn_type := Remote;
         a_session_key := {| peer_id := "peer"; name := ""; session_id := 7 |}; a_auth_kind := OneTimePassword |}])
      as E by (vm_compute; reflexivity).
    unfold run in E; rewrite E; by left.
  - reflexivity.
Defined.

(** A viewer that moves the mouse, asks for the lock of the screen and leaves. *)
Definition lock_option : OptionMessage :=
  {| o_lock_after_session_end := Some true; o_show_remote_cursor := None; o_follow_remote_window := None; o_disable_audio := None;
     o_enable_file_transfer := None; o_disable_clipboard := None; o_disable_keyboard := None; o_block_input := None; o_show_my_cursor := None |}.
Definition lock_asked : list (LoginEnv * HostEvent) := logged_in ++ [(at_ 2, Receive 1 (Authorized (Options lock_option)))].

Lemma input_needs_permission_witness :
  let s := (run lock_asked start).2 in
  let driven_by := locked_by (fun _ v => negb (v =? "N")%string) (fun _ => 40) (fun k => if k =? 42 then Some k else None)
    (fun _ => true) (fun k => Some k) (fun _ => None) (fun l => l) bytes (fun _ => None) (at_ 3) in
  (step (at_ 3) (Receive 1 (Authorized Mouse)) s).1 = [InputMouse true false] /\
  LockScreen ∈ (step (at_ 3) (Receive 1 CloseReason) s).1 /\
  ((exists id c m, Receive 1 (Authorized Mouse) = Receive id (Authorized m) /\ connections s !! id = Some c /\
     authorized c = true /\ may_control (env (at_ 3)) c) \/ driven_by (Receive 1 (Authorized Mouse)) s (InputMouse true false)) /\
  ((exists id c m, Receive 1 CloseReason = Receive id (Authorized m) /\ connections s !! id = Some c /\
     authorized c = true /\ may_control (env (at_ 3)) c) \/ driven_by (Receive 1 CloseReason) s LockScreen).
Proof.
  intros s driven_by.
  assert ((step (at_ 3) (Receive 1 (Authorized Mouse)) s).1 = [InputMouse true false]) as E by (vm_compute; reflexivity).
  assert ((step (at_ 3) (Receive 1 CloseReason) s).1 = [LockScreen; CmClosed]) as E' by (vm_compute; reflexivity).
  assert (LockScreen ∈ (step (at_ 3) (Receive 1 CloseReason) s).1) as H by (rewrite E'; left).
  split; [exact E|split; [exact H|split]].
  - apply (input_needs_permission (fun _ v => negb (v =? "N")%string) (fun _ => 40)
      (fun k => if k =? 42 then Some k else None) (fun _ => true) (fun k => Some k) (fun _ => None)
      (fun l => l) bytes (fun _ => None) lock_asked start (at_ 3) (Receive 1 (Authorized Mouse)) (InputMouse true false));
      [split; [reflexivity|split; reflexivity]| |reflexivity].
    unfold step, s, run in E; rewrite E; left.
  - apply (input_needs_permission (fun _ v => negb (v =? "N")%string) (fun _ => 40)
      (fun k => if k =? 42 then Some k else None) (fun _ => true) (fun k => Some k) (fun _ => None)
      (fun l => l) bytes (fun _ => None) lock_asked start (at_ 3) (Receive 1 CloseReason) LockScreen);
      [split; [reflexivity|split; reflexivity]|exact H|reflexivity].
Defined.

(** The lock does not wait for the local user: with a request pending the viewer's
    mouse is refused, and the keys are typed all the same when it leaves. *)
Lemma lock_ignores_the_prompt :
  let s := (run (lock_asked ++ [(at_ 3, Receive 1 (ask 5 "file"))]) start).2 in
  (step (at_ 4) (Receive 1 (Authorized Mouse)) s).1 = [] /\ (step (at_ 4) (Receive 1 CloseReason) s).1 = [LockScreen; CmClosed].
Proof. split; vm_compute; reflexivity. Qed.

(** A modifier that is held down when the connection ends. *)
Definition hold_shift : list (LoginEnv * HostEvent) :=
  logged_in ++ [(at_ 2, Receive 1 (Authorized (KeyboardV2
    {| input_epoch := 1; sequence := 1; ki_union := Physical {| usb_hid_usage := 42; pk_down := true |} |})))].
Lemma modifiers_released_witness :
  let s := (run hold_shift start).2 in
  pressed_modifiers (connected 1 s) = {[42]} /\
  (ReleaseModifier 42 ∈ (step (at_ 3) (Disconnect 1 true) s).1 \/
   exists c', connections (step (at_ 3) (Disconnect 1 true) s).2 !! 1 = Some c' /\ 42 ∈ pressed_modifiers c').
Proof.
  intros s; assert (pressed_modifiers (connected 1 s) = {[42]}) as E by (vm_compute; reflexivity).
  split; [exact E|].
  refine (proj2 (modifiers_released (fun _ v => negb (v =? "N")%string) (fun _ => 40)
    (fun k => if k =? 42 then Some k else None) (fun _ => true) (fun k => Some k) (fun _ => None)
    (fun l => l) bytes (fun _ => None) hold_shift start 1 (connected 1 s) _ _) (at_ 3) (Disconnect 1 true) 42 _ eq_refl).
  - split; [reflexivity|split; reflexivity].
  - vm_compute; reflexivity.
  - rewrite E; by apply elem_of_singleton.
Defined.

(** ** What modelling showed *)

(** A one-time code alone authorizes: the connection never sent a login
    request. *)
Lemma code_alone_authorizes :
  authorized (connected 1 (run [(at_ 0, connect 1 true); (at_ 1, Receive 1 (Auth2fa ""))] start).2) = true.
Proof. vm_compute; reflexivity. Qed.

(** A second login request of another type: the grant for file transfers opens a
    terminal, which was never approved. *)
Definition second_type : list (LoginEnv * HostEvent) :=
  logged_in ++
  [(at_ 2, Receive 1 (ask 5 "file_transfer")); (at_ 3, FromCm 1 (PermissionRequestResult 5 true));
   (at_ 4, connect 2 false);
   (at_ 5, Receive 2 (LoginMessage (login "wrong" (LoginFileTransfer "" false))));
   (at_ 6, Receive 2 (LoginMessage (login right_password (LoginTerminal ""))));
   (at_ 7, Receive 2 (Authorized TerminalAction))].
Lemma grant_opens_terminal :
  names second_type start = ["file_transfer"]%string /\
  List.last (run second_type start).1 [] = [TerminalInput].
Proof. split; vm_compute; reflexivity. Qed.

(** The answer to a switch of sides that was never asked for still replaces the
    login request: what the local user accepts becomes a tunnel, though the
    device forbids tunnels and none was approved. *)
Definition no_tunnels (seconds : Z) : LoginEnv :=
  let e := at_ seconds in
  {| env := {| now := now (env e);
               get_option := fun k => match k with OPTION_ENABLE_TUNNEL => "N"%string | _ => ""%string end;
               get_builtin_option := get_builtin_option (env e) |};
     now_ms := now_ms e; valid_username := valid_username e;
     supports_no_password_access := supports_no_password_access e; in_privacy_mode := in_privacy_mode e;
     is_headless_allowed := is_headless_allowed e; headless_user := headless_user e;
     desktop_error := desktop_error e; logon_screen := logon_screen e; approve_mode := approve_mode e;
     has_valid_password := has_valid_password e; temporary_enabled := temporary_enabled e;
     permanent_enabled := permanent_enabled e; local_storage := local_storage e;
     hard_password := hard_password e; next_password := next_password e; trusted_devices := trusted_devices e;
     totp_accepts := totp_accepts e; service_specified_user := service_specified_user e;
     port_forward_connects := port_forward_connects e; display_server_error := display_server_error e;
     displays := displays e; camera_exists := camera_exists e |}.
Definition swapped_login : list (LoginEnv * HostEvent) :=
  [(no_tunnels 0, connect 1 false); (no_tunnels 1, Receive 1 (LoginMessage (login "" LoginOther)));
   (no_tunnels 2, Receive 1 (SwitchSidesResponse (login "" (LoginPortForward "10.0.0.2" 22)) None));
   (no_tunnels 3, FromCm 1 Authorize)].
Lemma answer_opens_tunnel :
  names swapped_login start = [] /\
  port_forward_socket (connected 1 (run swapped_login start).2) = true /\
  authed_conn_id (connected 1 (run swapped_login start).2) = Some PortForward.
Proof. split_and!; vm_compute; reflexivity. Qed.

(** Switching the clipboard off leaves the subscription to copied files. *)
Lemma files_stay_subscribed :
  let options := {| o_lock_after_session_end := None; o_show_remote_cursor := None; o_follow_remote_window := None; o_disable_audio := None;
                    o_enable_file_transfer := Some true; o_disable_clipboard := None;
                    o_disable_keyboard := None; o_block_input := None; o_show_my_cursor := None |} in
  let s := (run (granted ++
    [(at_ 4, Receive 1 (ask 6 "clipboard")); (at_ 5, FromCm 1 (PermissionRequestResult 6 true));
     (at_ 6, Receive 1 (Authorized (Options options))); (at_ 7, FromCm 1 (SwitchPermission "clipboard" false))])
    start).2 in
  can_sub_file_clipboard_service (env (at_ 8)) (connected 1 s) = false /\
  CaptureServer.subscribed 1 FILE_CLIPBOARD_NAME (server (common s)) = true.
Proof. split; vm_compute; reflexivity. Qed.

(** In a Linux build an ordinary key event never records a modifier. *)
Lemma modifiers_not_recorded rdev_modifier k c :
  pressed_modifiers (dispatch_key_event rdev_modifier k false c).2 ⊆ pressed_modifiers c.
Proof.
  unfold dispatch_key_event; destruct (modifier_key rdev_modifier k) as [m|]; [|done]; simpl.
  rewrite orb_true_r, andb_false_r; simpl; set_solver.
Qed.

(** A connection that is authorized takes over the grants of another session by
    sending a login request with its identity. *)
Definition borrowed : list (LoginEnv * HostEvent) :=
  granted ++
  [(at_ 4, connect 2 false);
   (at_ 5, Receive 2 (LoginMessage {| username := ""; password := bytes right_password; my_id := "other";
      my_name := ""; lr_session_id := 9; lr_union := LoginOther; os_username := ""; hwid := "";
      my_platform := ""; login_option := None |}));
   (at_ 6, Receive 2 (LoginMessage (login "" LoginOther)));
   (at_ 7, Receive 2 (ask 8 "file"))].
Lemma grants_are_borrowed :
  names borrowed start = ["file"]%string /\
  enabled File (perms (connected 2 (run borrowed start).2)) = true.
Proof. split; vm_compute; reflexivity. Qed.

Lemma temporary_password_rotates_witness :
  let t := {| temporary_password := "tp"; counted_password := ""; failures := 0 |} in
  let wrong := replicate 9 false in
  temporary_password (after_attempts (at_ 0) (wrong ++ [false]) t) = "np"%string /\
  (temporary_password (after_attempts (at_ 0) wrong t) = temporary_password t /\
   (length wrong = 9%nat -> temporary_password (after_attempts (at_ 0) (wrong ++ [false]) t) = next_password (at_ 0) /\
      counted (after_attempts (at_ 0) (wrong ++ [false]) t) = 0) /\
   temporary_password (after_attempts (at_ 0) (wrong ++ [true]) t) = temporary_password t /\
   counted (after_attempts (at_ 0) (wrong ++ [true]) t) = 0).
Proof.
  intros t wrong; split; [vm_compute; reflexivity|].
  apply (temporary_password_rotates (at_ 0) t wrong); [reflexivity|discriminate|reflexivity| |simpl; lia].
  repeat constructor.
Defined.
