(* ===== verification/Fingerprint.v ===== *)
(** * Fingerprints and trust phrases

    Models the texts by which a user recognizes a peer's key, of src/src/
    common.rs: the fingerprint is the key in hexadecimal, in groups of four
    digits, and the trust phrase is six words that spell the first 36 bits of the
    digest of the key.  SHA-256 is outside: it is the class [Sha256], whose laws
    are the length of a digest and that it is made of bytes.  A byte is a [Z], an
    ASCII text a [string]. *)

From S2P Require Import Prelude ClipboardTypes.
From Stdlib Require Import Ascii.
From Stdlib Require String.
#[local] Open Scope list_scope.
#[local] Open Scope Z_scope.

Class Sha256 := {
  sha256 : list Z -> list Z;
  length_sha256 l : length (sha256 l) = 32%nat;
  sha256_bytes l : Forall is_byte (sha256 l);
}.

(** ** Bytes and characters *)

Definition char_of (b : Z) : ascii := ascii_of_N (Z.to_N b).
Definition byte_of (c : ascii) : Z := Z.of_N (N_of_ascii c).
(** [str::as_bytes], and the text of some bytes. *)
Definition as_bytes (s : string) : list Z := byte_of <$> String.list_ascii_of_string s.
Definition of_bytes (l : list Z) : string := String.string_of_list_ascii (char_of <$> l).

Lemma byte_of_range c : is_byte (byte_of c).
Proof. unfold byte_of, is_byte; pose proof (N_ascii_bounded c); lia. Qed.

Lemma char_of_byte_of c : char_of (byte_of c) = c.
Proof. unfold char_of, byte_of; by rewrite N2Z.id, ascii_N_embedding. Qed.

Lemma byte_of_char_of b : is_byte b -> byte_of (char_of b) = b.
Proof. unfold char_of, byte_of, is_byte; intros; rewrite N_ascii_embedding; lia. Qed.

Lemma of_bytes_as_bytes s : of_bytes (as_bytes s) = s.
Proof.
  unfold of_bytes, as_bytes; rewrite <- list_fmap_compose.
  rewrite (list_fmap_ext _ id); [by rewrite list_fmap_id, String.string_of_list_ascii_of_string|].
  intros; apply char_of_byte_of.
Qed.

Lemma as_bytes_of_bytes l : Forall is_byte l -> as_bytes (of_bytes l) = l.
Proof.
  intros Hl; unfold of_bytes, as_bytes; rewrite String.list_ascii_of_string_of_list_ascii, <- list_fmap_compose.
  induction Hl as [|b l Hb Hl IH]; [done|]; cbn; by rewrite byte_of_char_of, IH.
Qed.

#[export] Instance as_bytes_inj : Inj (=) (=) as_bytes.
Proof. intros s t E; by rewrite <- (of_bytes_as_bytes s), E, of_bytes_as_bytes. Qed.

Lemma as_bytes_byte s : Forall is_byte (as_bytes s).
Proof. apply Forall_fmap, Forall_true; intros; apply byte_of_range. Qed.

Lemma length_as_bytes s : length (as_bytes s) = String.length s.
Proof. unfold as_bytes; rewrite length_fmap; induction s; cbn; lia. Qed.

(** ** The fingerprint *)

Definition zero_char : Z := 48.
Definition lower_a : Z := 97.
Definition upper_a : Z := 65.
Definition space : Z := 32.

(** A digit of [format!("{:02x}")]. *)
Definition hex_digit (d : Z) : Z := if d <? 10 then zero_char + d else lower_a + (d - 10).
Definition hex_byte (u : Z) : list Z := [hex_digit (u / 16); hex_digit (u mod 16)].

(** The character [c] at index [i], with the space that goes before a group. *)
Definition grouped (i : nat) (c : Z) : list Z :=
  if (0 <? i)%nat && (i mod 4 =? 0)%nat then [space; c] else [c].

Definition fingerprint_bytes (pk : list Z) : list Z :=
  concat (imap grouped (concat (hex_byte <$> pk))).
Definition pk_to_fingerprint (pk : list Z) : string := of_bytes (fingerprint_bytes pk).

Definition decode_hex_char (ch : Z) : option Z :=
  if (zero_char <=? ch) && (ch <=? 57) then Some (ch - zero_char)
  else if (lower_a <=? ch) && (ch <=? 102) then Some (ch - lower_a + 10)
  else if (upper_a <=? ch) && (ch <=? 70) then Some (ch - upper_a + 10)
  else None.

Definition is_ascii_hexdigit (ch : Z) : bool :=
  (zero_char <=? ch) && (ch <=? 57) || (lower_a <=? ch) && (ch <=? 102) || (upper_a <=? ch) && (ch <=? 70).

(** The loop of [decode_fingerprint_bytes] over [chunks_exact(2)]. *)
Fixpoint decode_pairs (hex : list Z) : option (list Z) :=
  match hex with
  | hi :: lo :: hex =>
      hi ← decode_hex_char hi;
      lo ← decode_hex_char lo;
      out ← decode_pairs hex;
      Some (Z.lor (Z.land (Z.shiftl hi 4) u8_max) lo :: out)
  | _ => Some []
  end.

Definition decode_fingerprint_bytes (fingerprint : string) : option (list Z) :=
  let hex := filter (fun ch => is_ascii_hexdigit ch = true) (as_bytes fingerprint) in
  if (length hex <? 2)%nat || negb (length hex mod 2 =? 0)%nat then None else decode_pairs hex.

(** ** The trust phrase *)

Definition TRUST_PHRASE_WORDS : list string :=
  ["able"; "anchor"; "apple"; "arch"; "ash"; "badge"; "bamboo"; "beacon"; "birch"; "blade";
   "blue"; "bridge"; "cabin"; "cactus"; "candle"; "canyon"; "cedar"; "circle"; "cloud"; "cobalt";
   "coral"; "crown"; "delta"; "drift"; "echo"; "ember"; "falcon"; "field"; "flame"; "forest";
   "frost"; "garden"; "globe"; "harbor"; "hazel"; "island"; "ivory"; "jade"; "lagoon"; "lantern";
   "maple"; "meadow"; "meteor"; "mint"; "mountain"; "nova"; "oasis"; "olive"; "orbit"; "petal";
   "pine"; "planet"; "prairie"; "quartz"; "raven"; "river"; "saffron"; "shadow"; "silver";
   "solar"; "spruce"; "stone"; "summit"; "thunder"]%string.

Definition PHRASE_WORDS : nat := 6.

(** The loops of [bytes_to_trust_phrase]: the buffer of bits, their number, and
    the indices of the words so far. *)
Record Bits := { bit_buffer : Z; bit_count : Z; indices : list Z }.

(** The inner loop; [fuel] bounds its rounds, each of which uses six bits. *)
Fixpoint take_words (fuel : nat) (b : Bits) : Bits :=
  match fuel with
  | O => b
  | S fuel =>
      if (6 <=? bit_count b) && (length (indices b) <? PHRASE_WORDS)%nat then
        let shift := bit_count b - 6 in
        let idx := Z.land (Z.shiftr (bit_buffer b) shift) 63 in
        take_words fuel {| bit_buffer := Z.land (bit_buffer b) (sat_sub (Z.shiftl 1 shift) 1);
                           bit_count := bit_count b - 6; indices := indices b ++ [idx] |}
      else b
  end.

Fixpoint spell (digest : list Z) (b : Bits) : Bits :=
  match digest with
  | [] => b
  | byte :: digest =>
      let b := {| bit_buffer := Z.lor (wrap_u64 (Z.shiftl (bit_buffer b) 8)) byte;
                  bit_count := bit_count b + 8; indices := indices b |} in
      let b := take_words (Z.to_nat (bit_count b)) b in
      if (length (indices b) =? PHRASE_WORDS)%nat then b else spell digest b
  end.

(** [TRUST_PHRASE_WORDS[idx]]; an index past the end, which would panic, does not occur. *)
Definition word (idx : Z) : string := nth (Z.to_nat idx) TRUST_PHRASE_WORDS String.EmptyString.

Definition phrase_indices `{Sha256} (bytes : list Z) : list Z :=
  indices (spell (sha256 bytes) {| bit_buffer := 0; bit_count := 0; indices := [] |}).

Definition bytes_to_trust_phrase `{Sha256} (bytes : list Z) : string :=
  if bool_decide (bytes = []) then String.EmptyString
  else String.concat " " (word <$> phrase_indices bytes).

Definition fingerprint_to_trust_phrase `{Sha256} (fingerprint : string) : string :=
  match decode_fingerprint_bytes fingerprint with
  | Some bytes => bytes_to_trust_phrase bytes
  | None => String.EmptyString
  end.

(** ** The fingerprint is read back *)

Lemma hex_digit_decodes d : 0 <= d < 16 ->
  decode_hex_char (hex_digit d) = Some d /\ is_ascii_hexdigit (hex_digit d) = true.
Proof.
  intros Hd; assert (d = 0 \/ d = 1 \/ d = 2 \/ d = 3 \/ d = 4 \/ d = 5 \/ d = 6 \/ d = 7 \/ d = 8 \/
    d = 9 \/ d = 10 \/ d = 11 \/ d = 12 \/ d = 13 \/ d = 14 \/ d = 15) by lia.
  naive_solver.
Qed.

Lemma lor_low a b n : 0 <= n -> 0 <= b < 2 ^ n -> Z.lor (a * 2 ^ n) b = a * 2 ^ n + b.
Proof.
  intros Hn Hb; rewrite <- Z.add_lor_land, (Z.bits_inj' (Z.land _ _) 0); [lia|].
  intros i Hi; rewrite Z.land_spec, Z.bits_0; destruct (Z.ltb_spec i n).
  - by rewrite Z.mul_pow2_bits_low by lia.
  - rewrite <- (Z.mod_small b (2 ^ n)), Z.mod_pow2_bits_high by lia; apply andb_false_r.
Qed.

Lemma hex_byte_decodes u rest : is_byte u ->
  decode_pairs (hex_byte u ++ rest) = out ← decode_pairs rest; Some (u :: out).
Proof.
  intros Hu; unfold is_byte in Hu; assert (0 <= u / 16 < 16) by (split; [apply Z.div_pos|apply Z.div_lt_upper_bound]; lia).
  assert (0 <= u mod 16 < 16) by (apply Z.mod_pos_bound; lia).
  cbn [hex_byte app decode_pairs]; rewrite (proj1 (hex_digit_decodes (u / 16) ltac:(done))), (proj1 (hex_digit_decodes (u mod 16) ltac:(done))); cbn.
  destruct (decode_pairs rest); [|done]; cbn; do 2 f_equal.
  replace u8_max with (Z.ones 8) by done; rewrite Z.land_ones, Z.shiftl_mul_pow2, Z.mod_small by lia.
  rewrite (lor_low _ _ 4) by lia; pose proof (Z.div_mod u 16); lia.
Qed.

Lemma ungroup (k : nat) l : Forall (fun c => is_ascii_hexdigit c = true) l ->
  filter (fun ch => is_ascii_hexdigit ch = true) (concat (imap (fun i => grouped (k + i)) l)) = l.
Proof.
  intros Hl; revert k; induction Hl as [|c l Hc Hl IH]; intros k; [done|].
  cbn [imap concat]; rewrite filter_app.
  rewrite (imap_ext _ (fun i => grouped (S k + i))) by (intros; cbn; f_equal; lia); rewrite (IH (S k)).
  unfold grouped; destruct (_ && _); rewrite ?filter_cons; repeat case_decide; try done; congruence.
Qed.

Lemma hex_byte_digits u : is_byte u -> Forall (fun c => is_ascii_hexdigit c = true) (hex_byte u).
Proof.
  intros Hu; unfold is_byte in Hu; repeat constructor; apply hex_digit_decodes.
  - split; [apply Z.div_pos|apply Z.div_lt_upper_bound]; lia.
  - apply Z.mod_pos_bound; lia.
Qed.

Lemma hex_is_byte c : is_ascii_hexdigit c = true -> is_byte c.
Proof. unfold is_ascii_hexdigit, is_byte, zero_char, lower_a, upper_a; lia. Qed.

Lemma grouped_byte i c : is_byte c -> Forall is_byte (grouped i c).
Proof. intros; unfold grouped, is_byte, space; destruct (_ && _); repeat constructor; unfold is_byte in *; lia. Qed.

Lemma hex_digits pk : Forall is_byte pk -> Forall (fun c => is_ascii_hexdigit c = true) (concat (hex_byte <$> pk)).
Proof. induction 1; [constructor|]; cbn [fmap list_fmap concat]; apply Forall_app; auto using hex_byte_digits. Qed.

Lemma fingerprint_bytes_byte pk : Forall is_byte pk -> Forall is_byte (fingerprint_bytes pk).
Proof.
  intros Hpk; apply hex_digits in Hpk; unfold fingerprint_bytes; generalize 0%nat as k.
  revert Hpk; generalize (concat (hex_byte <$> pk)) as l; intros l Hl _.
  apply Forall_concat, Forall_forall; intros x Hx.
  apply elem_of_lookup_imap in Hx as (i & c & -> & Hc); apply grouped_byte, hex_is_byte.
  by eapply Forall_lookup_1 in Hl.
Qed.

Lemma decode_pairs_hex pk : Forall is_byte pk -> decode_pairs (concat (hex_byte <$> pk)) = Some pk.
Proof.
  induction 1 as [|u pk Hu Hpk IH]; [done|]; cbn [fmap list_fmap concat].
  by rewrite hex_byte_decodes, IH.
Qed.

Lemma length_hex pk : length (concat (hex_byte <$> pk)) = (2 * length pk)%nat.
Proof. induction pk as [|u pk IH]; [done|]; cbn [fmap list_fmap concat]; rewrite length_app, IH; cbn; lia. Qed.

Lemma fingerprint_decodes pk : pk <> [] -> Forall is_byte pk ->
  decode_fingerprint_bytes (pk_to_fingerprint pk) = Some pk.
Proof.
  intros Hne Hpk; unfold decode_fingerprint_bytes, pk_to_fingerprint.
  rewrite as_bytes_of_bytes by (by apply fingerprint_bytes_byte); unfold fingerprint_bytes.
  rewrite (ungroup 0) by (by apply hex_digits); rewrite length_hex, decode_pairs_hex by done.
  destruct pk as [|u pk]; [done|]; rewrite (Nat.mul_comm 2), Nat.Div0.mod_mul.
  by destruct (Nat.ltb_spec (length (u :: pk) * 2) 2); [cbn in *; lia|].
Qed.

(** ** The words of a phrase *)

(** The number the bytes spell, most significant byte first, and the one the
    indices spell in base 64. *)
Definition of_be (base : Z) (l : list Z) : Z := fold_left (fun a b => a * base + b) l 0.

Lemma of_be_snoc base l b : of_be base (l ++ [b]) = of_be base l * base + b.
Proof. unfold of_be; by rewrite fold_left_app. Qed.

(** What the buffer holds after [n] bits that spell [v]. *)
Record holds (v : Z) (b : Bits) : Prop := {
  value_eq : v = of_be 64 (indices b) * 2 ^ bit_count b + bit_buffer b;
  buffer_range : 0 <= bit_buffer b < 2 ^ bit_count b;
  count_range : 0 <= bit_count b;
  indices_range : Forall (fun i => 0 <= i < 64) (indices b);
}.

Lemma take_word v b : holds v b -> 6 <= bit_count b <= 14 ->
  let shift := bit_count b - 6 in
  holds v {| bit_buffer := Z.land (bit_buffer b) (sat_sub (Z.shiftl 1 shift) 1); bit_count := shift;
             indices := indices b ++ [Z.land (Z.shiftr (bit_buffer b) shift) 63] |}.
Proof.
  intros [Hv Hb Hc Hi] Hn shift; cbv zeta; set (q := bit_buffer b / 2 ^ shift).
  assert (0 < 2 ^ shift) by (apply Z.pow_pos_nonneg; lia).
  assert (E64 : 2 ^ bit_count b = 64 * 2 ^ shift) by (unfold shift; rewrite <- (Z.pow_add_r 2 6) by lia; f_equal; lia).
  assert (Hq : 0 <= q < 64) by (unfold q; split; [apply Z.div_pos|apply Z.div_lt_upper_bound]; lia).
  assert (Eidx : Z.land (Z.shiftr (bit_buffer b) shift) 63 = q).
  { rewrite Z.shiftr_div_pow2 by lia; change 63 with (Z.ones 6); rewrite Z.land_ones by lia; by apply Z.mod_small. }
  assert (Ebuf : Z.land (bit_buffer b) (sat_sub (Z.shiftl 1 shift) 1) = bit_buffer b mod 2 ^ shift).
  { rewrite Z.shiftl_1_l; unfold sat_sub; rewrite Z.max_l by lia.
    rewrite <- Z.land_ones by lia; rewrite Z.ones_equiv; f_equal. }
  rewrite Eidx, Ebuf; constructor; cbn [bit_buffer bit_count indices].
  - rewrite of_be_snoc, Hv, E64; pose proof (Z.div_mod (bit_buffer b) (2 ^ shift)); subst q; nia.
  - apply Z.mod_pos_bound; lia.
  - lia.
  - apply Forall_app; repeat constructor; try done; lia.
Qed.

Lemma take_words_spec fuel v b : holds v b -> bit_count b <= Z.min 14 (Z.of_nat fuel) -> (length (indices b) <= 6)%nat ->
  let r := take_words fuel b in
  holds v r /\ 6 * Z.of_nat (length (indices r)) + bit_count r = 6 * Z.of_nat (length (indices b)) + bit_count b /\
  (length (indices r) <= 6)%nat /\ (bit_count r < 6 \/ length (indices r) = 6%nat).
Proof.
  revert b; induction fuel as [|fuel IH]; intros b Hb Hf Hl; cbv zeta; cbn [take_words].
  { destruct Hb; repeat split; try done; lia. }
  unfold PHRASE_WORDS; destruct (Z.leb_spec 6 (bit_count b)); [|by repeat split; try apply Hb; auto].
  destruct (Nat.ltb_spec (length (indices b)) 6); cbn [andb]; [|repeat split; try apply Hb; auto; right; lia].
  pose proof (take_word v b Hb ltac:(lia)) as Hn.
  specialize (IH _ Hn); cbn [bit_count indices] in IH; rewrite length_app in IH; cbn [length] in IH.
  destruct IH as (Hr & E & Hl' & Hd); [lia..|].
  split; [done|split; [cbn in *; lia|done]].
Qed.

Lemma spell_byte v b byte : holds v b -> is_byte byte -> bit_count b < 6 ->
  holds (v * 256 + byte) {| bit_buffer := Z.lor (wrap_u64 (Z.shiftl (bit_buffer b) 8)) byte;
                            bit_count := bit_count b + 8; indices := indices b |}.
Proof.
  intros [Hv Hb Hc Hi] Hbyte Hn; unfold is_byte in Hbyte.
  assert (2 ^ bit_count b <= 2 ^ 6) by (apply Z.pow_le_mono_r; lia).
  assert (E : Z.lor (wrap_u64 (Z.shiftl (bit_buffer b) 8)) byte = bit_buffer b * 256 + byte).
  { rewrite Z.shiftl_mul_pow2 by lia; unfold wrap_u64; rewrite Z.mod_small by lia; by apply (lor_low _ _ 8). }
  assert (2 ^ (bit_count b + 8) = 2 ^ bit_count b * 256) by (by rewrite Z.pow_add_r by lia).
  rewrite E; constructor; cbn [bit_buffer bit_count indices]; [nia|lia|lia|done].
Qed.

Lemma spell_spec digest v b : holds v b -> Forall is_byte digest -> bit_count b < 6 ->
  (length (indices b) < 6)%nat ->
  36 <= 6 * Z.of_nat (length (indices b)) + bit_count b + 8 * Z.of_nat (length digest) ->
  let r := spell digest b in
  exists n, holds (fold_left (fun a b => a * 256 + b) (take n digest) v) r /\ length (indices r) = 6%nat /\
    (n <= length digest)%nat /\ bit_count r <= 7 /\
    36 + bit_count r = 6 * Z.of_nat (length (indices b)) + bit_count b + 8 * Z.of_nat n.
Proof.
  revert v b; induction digest as [|byte digest IH]; intros v b Hb Hd Hc Hl Hlen; cbv zeta.
  { cbn in Hlen; lia. }
  inversion_clear Hd as [|? ? Hbyte Hd']; cbn [length] in Hlen.
  pose proof (spell_byte v b byte Hb Hbyte Hc) as Hs; cbn [spell].
  pose proof (take_words_spec (Z.to_nat (bit_count b + 8)) _ _ Hs) as Ht; cbn [bit_count indices] in Ht.
  pose proof (count_range _ _ Hb).
  destruct Ht as (Hr & E & Hl' & Hor); [lia|lia|].
  cbn [bit_count]; set (r := take_words _ _) in *; unfold PHRASE_WORDS; destruct (Nat.eqb_spec (length (indices r)) 6) as [E6|N6].
  - exists 1%nat; cbn [take fold_left]; rewrite take_0; cbn [fold_left length].
    split; [done|]; split; [done|]; lia.
  - destruct Hor as [Hor|]; [|lia].
    destruct (IH _ r Hr Hd' Hor) as (n & Hn & ? & ? & ? & ?); [lia|lia|].
    exists (S n); cbn [take fold_left length]; split; [done|]; split; [done|]; lia.
Qed.

(** The first 36 bits of the digest. *)
Definition leading_bits `{Sha256} (bytes : list Z) : Z := of_be 256 (take 5 (sha256 bytes)) / 16.

Lemma phrase_indices_spec `{Sha256} bytes :
  length (phrase_indices bytes) = 6%nat /\ Forall (fun i => 0 <= i < 64) (phrase_indices bytes) /\
  of_be 64 (phrase_indices bytes) = leading_bits bytes.
Proof.
  unfold phrase_indices, leading_bits.
  destruct (spell_spec (sha256 bytes) 0 {| bit_buffer := 0; bit_count := 0; indices := [] |})
    as (n & [Hv Hb Hc Hi] & Hl & Hn & Hle & E).
  1: by repeat constructor.
  1: apply sha256_bytes.
  1: done.
  1: cbn; lia.
  1: rewrite length_sha256; cbn; lia.
  cbn [indices bit_count length] in E; set (r := spell _ _) in *.
  assert (n = 5%nat /\ bit_count r = 4) as [-> E4] by lia.
  split; [done|]; split; [done|]; unfold of_be at 2; rewrite Hv, E4 in *.
  apply Z.div_unique with (bit_buffer r); lia.
Qed.

(** ** Phrases are told apart by their words *)

Definition no_space (s : string) : bool := forallb (fun c => negb (Ascii.eqb c " ")) (String.list_ascii_of_string s).

Lemma words_distinct : NoDup TRUST_PHRASE_WORDS.
Proof. apply (bool_decide_unpack _); vm_compute; exact I. Qed.

Lemma words_spaceless : forallb no_space TRUST_PHRASE_WORDS = true.
Proof. by vm_compute. Qed.

Lemma word_lookup i : 0 <= i < 64 -> TRUST_PHRASE_WORDS !! Z.to_nat i = Some (word i).
Proof.
  intros Hi; unfold word; rewrite nth_lookup.
  destruct (TRUST_PHRASE_WORDS !! Z.to_nat i) eqn:E; [done|].
  apply lookup_ge_None in E; cbn [length TRUST_PHRASE_WORDS] in E; lia.
Qed.

Lemma word_inj i j : 0 <= i < 64 -> 0 <= j < 64 -> word i = word j -> i = j.
Proof.
  intros Hi Hj E; pose proof (word_lookup i Hi) as Ei; pose proof (word_lookup j Hj) as Ej.
  rewrite <- E in Ej; pose proof (NoDup_lookup _ _ _ _ words_distinct Ei Ej); lia.
Qed.

Lemma word_spaceless i : 0 <= i < 64 -> no_space (word i) = true.
Proof.
  intros Hi; pose proof words_spaceless as Hw; rewrite forallb_forall in Hw; apply Hw, list_elem_of_In.
  eapply list_elem_of_lookup_2, word_lookup, Hi.
Qed.

Lemma split_at_space s t u v : no_space s = true -> no_space t = true ->
  (s ++ String " " u = t ++ String " " v)%string -> s = t /\ u = v.
Proof.
  revert t; induction s as [|c s IH]; intros [|d t] Hs Ht E; unfold no_space in *; cbn in *.
  - by injection E.
  - injection E as <- _; by rewrite Ascii.eqb_refl in Ht.
  - injection E as -> _; by rewrite Ascii.eqb_refl in Hs.
  - injection E as -> E; apply andb_true_iff in Hs as [_ Hs], Ht as [_ Ht].
    by destruct (IH t Hs Ht E) as [-> ->].
Qed.

Lemma concat_words_inj l l' : length l = length l' ->
  Forall (fun i => 0 <= i < 64) l -> Forall (fun i => 0 <= i < 64) l' ->
  String.concat " " (word <$> l) = String.concat " " (word <$> l') -> l = l'.
Proof.
  revert l'; induction l as [|i l IH]; intros [|j l'] Hlen Hl Hl' E; try done.
  inversion_clear Hl as [|? ? Hi Hl2]; inversion_clear Hl' as [|? ? Hj Hl2'].
  destruct l as [|i2 l], l' as [|j2 l']; try done.
  - cbn in E; f_equal; by apply word_inj.
  - cbn [fmap list_fmap String.concat] in E.
    apply split_at_space in E as [E1 E2]; [|by apply word_spaceless..].
    f_equal; [by apply word_inj|]; apply IH; [by apply (f_equal pred) in Hlen|done|done|exact E2].
Qed.

Lemma of_be_inj base l l' : length l = length l' ->
  Forall (fun i => 0 <= i < base) l -> Forall (fun i => 0 <= i < base) l' -> of_be base l = of_be base l' -> l = l'.
Proof.
  revert l'; induction l as [|b l IH] using rev_ind; intros l' Hlen Hl Hl' E.
  { by destruct l'. }
  destruct l' as [|b' l' _] using rev_ind; [by rewrite length_app in Hlen; cbn in Hlen; lia|].
  rewrite !length_app in Hlen; apply Forall_app in Hl as [Hl Hb], Hl' as [Hl' Hb'].
  inversion_clear Hb; inversion_clear Hb'; rewrite !of_be_snoc in E.
  destruct (Z.div_mod_unique base (of_be base l) (of_be base l') b b') as [El ->]; [lia..|].
  f_equal; apply IH; [cbn in *; lia|done..].
Qed.

(** The trust phrase names a key by exactly the first 36 bits of its digest:
    two keys read the same aloud if and only if those bits agree.  The
    fingerprint carries the whole key, so the phrase is of the key itself. *)
Theorem trust_phrase_is_36_bits `{Sha256} a b : a <> [] -> b <> [] -> Forall is_byte a -> Forall is_byte b ->
  fingerprint_to_trust_phrase (pk_to_fingerprint a) = fingerprint_to_trust_phrase (pk_to_fingerprint b) <->
  leading_bits a = leading_bits b.
Proof.
  intros Na Nb Ha Hb; unfold fingerprint_to_trust_phrase; rewrite !fingerprint_decodes by done.
  unfold bytes_to_trust_phrase; rewrite !bool_decide_false by done.
  destruct (phrase_indices_spec a) as (La & Ra & <-), (phrase_indices_spec b) as (Lb & Rb & <-).
  split; intros E.
  - apply concat_words_inj in E; congruence.
  - apply of_be_inj in E; congruence.
Qed.

(** ** A concrete digest

    Padding and truncation stand in for SHA-256 in the examples. *)

#[local] Obligation Tactic := idtac.
#[export] Program Instance padding_digest : Sha256 :=
  {| sha256 l := resize 32 0 ((fun b => b mod 256) <$> l) |}.
Next Obligation. intros l; apply length_resize. Qed.
Next Obligation.
  intros l; apply Forall_resize; [done|]; apply Forall_fmap, Forall_true; intros b; cbn; apply Z.mod_pos_bound; lia.
Qed.

(** Two keys whose digests agree in 36 bits, and differ in the 37th. *)
Lemma trust_phrase_is_36_bits_witness :
  fingerprint_to_trust_phrase (pk_to_fingerprint [7; 1; 2; 3; 240]) =
  fingerprint_to_trust_phrase (pk_to_fingerprint [7; 1; 2; 3; 248]).
Proof.
  apply (trust_phrase_is_36_bits [7; 1; 2; 3; 240] [7; 1; 2; 3; 248]).
  1,2: discriminate.
  1,2: unfold is_byte; repeat (apply Forall_cons; split; [lia|]); apply Forall_nil_2.
  vm_compute; reflexivity.
Defined.
