(* ===== verification/SignedIdentity.v ===== *)
(** * Signed identities of peers

    Models the messages by which two peers name themselves and their keys, of
    src/src/common.rs: the signed identity a host sends first, in the formats of
    a direct connection and of one through a rendezvous server, with or without
    a pairing challenge or a QUIC certificate; and the payload with which the
    viewer answers (the sealed session key, the pairing proof and the viewer's
    own identity).  A decoder reads bytes of an unauthenticated peer: its slices
    and copies are written with the panic they would be.

    Signatures, the protobuf message [IdPk], the key derivation and SHA-256 are
    outside: they are classes, with the laws the code relies on. *)

From S2P Require Import Prelude ClipboardTypes Fingerprint.
From Stdlib Require Import Ascii.
From Stdlib Require String.
#[local] Open Scope list_scope.
#[local] Open Scope Z_scope.

Abbreviation bytes := (list Z) (only parsing).
Abbreviation result := (outcome string) (only parsing).

(** ** What is outside *)

Definition PUBLICKEYBYTES : nat := 32.
Definition SIGNATUREBYTES : nat := 64.
Definition SECRETKEYBYTES : nat := 64.
Definition SALTBYTES : nat := 16.

(** [sodiumoxide::crypto::sign] *)
Class Signing := {
  sign : bytes -> bytes -> bytes;
  verify : bytes -> bytes -> option bytes;
  key_pair : bytes -> bytes -> Prop;
  verify_sign m pk sk : key_pair pk sk -> verify (sign m sk) pk = Some m;
  length_sign m sk : length (sign m sk) = (SIGNATUREBYTES + length m)%nat;
}.

(** The message [IdPk], and its serialization; a parser that fails says why. *)
Record IdPk := { id_ : string; pk_ : bytes; secure_channel_ : Z }.
Class IdPkCodec := {
  write_to_bytes : IdPk -> bytes;
  parse_from_bytes : bytes -> IdPk + string;
  parse_write p : Forall is_byte (pk_ p) -> 0 <= secure_channel_ p <= u32_max ->
    parse_from_bytes (write_to_bytes p) = inl p;
  write_holds_key p : (length (pk_ p) <= length (write_to_bytes p))%nat;
}.

(** [argon2id13::derive_key], which may fail for want of memory. *)
Class KeyDerivation := { derive_key : bytes -> bytes -> option bytes }.

(** ** Bytes, with the panics of Rust *)

Definition slice (lo hi : nat) (l : bytes) : result bytes :=
  if (lo <=? hi)%nat && (hi <=? length l)%nat then Ok (take (hi - lo) (drop lo l)) else Panic.
Definition slice_from (lo : nat) (l : bytes) : result bytes :=
  if (lo <=? length l)%nat then Ok (drop lo l) else Panic.
Definition index (i : nat) (l : bytes) : result Z :=
  match l !! i with Some b => Ok b | None => Panic end.
(** [copy_from_slice] into an array of [n] bytes. *)
Definition array (n : nat) (l : bytes) : result bytes :=
  if (length l =? n)%nat then Ok l else Panic.
Definition starts_with (magic l : bytes) : bool := bool_decide (take (length magic) l = magic).

(** The fallible end of an expression, [map_err] with a prefix. *)
Definition with_prefix {A} (prefix : string) (r : result A) : result A :=
  match r with Err e => Err (prefix +:+ e)%string | r => r end.

Definition be16 (n : Z) : bytes := [n / 256; n mod 256].
Definition checked_add_usize (a b : nat) : option nat :=
  if Z.of_nat (a + b) <=? u64_max then Some (a + b)%nat else None.
Definition u16_try_from (n : nat) : option Z :=
  if Z.of_nat n <=? 65535 then Some (Z.of_nat n) else None.

(** ** Constants *)

Definition magic (s : string) : bytes := as_bytes s ++ [0].
Definition SECURE_SIGNED_ID_V2_MAGIC : bytes := Eval vm_compute in magic "RDSECV2".
Definition DIRECT_SIGNED_ID_V2_MAGIC : bytes := Eval vm_compute in magic "RDDIRV2".
Definition DIRECT_SIGNED_ID_V3_MAGIC : bytes := Eval vm_compute in magic "RDDIRV3".
Definition DIRECT_PUBLIC_KEY_V2_MAGIC : bytes := Eval vm_compute in magic "RDPUBV2".
Definition DIRECT_PUBLIC_KEY_V3_MAGIC : bytes := Eval vm_compute in magic "RDPUBV3".
Definition DIRECT_HANDSHAKE_ACK_OK : bytes := Eval vm_compute in as_bytes "direct-ok".
Definition DIRECT_HANDSHAKE_FLAG_PAIRING_REQUIRED : Z := 1.
Definition DIRECT_HANDSHAKE_FLAG_PAIRED_VIEWER_IDENTITY : Z := 2.
Definition DIRECT_HANDSHAKE_FLAG_QUIC_CERTIFICATE : Z := 4.
Definition DIRECT_QUIC_CERTIFICATE_MAX_LEN : Z := 16 * 1024.
Definition DIRECT_PUBLIC_KEY_FLAG_PAIRING_PROOF : Z := 1.
Definition DIRECT_PUBLIC_KEY_FLAG_INITIATOR_ID : Z := 2.
Definition DIRECT_PAIRING_PROOF_LEN : nat := 32.

Definition has_flag (flags f : Z) : bool := negb (Z.land flags f =? 0).

Record DirectSignedId := {
  id : string;
  sign_pk : bytes;
  box_pk : bytes;
  pairing_required : bool;
  pairing_salt : option bytes;
  supports_paired_viewer_identity : bool;
  quic_certificate_der : option bytes;
  secure_channel : Z;
}.
#[export] Instance eta_DirectSignedId : Eta DirectSignedId := fun r =>
  Build_DirectSignedId (id r) (sign_pk r) (box_pk r) (pairing_required r) (pairing_salt r)
    (supports_paired_viewer_identity r) (quic_certificate_der r) (secure_channel r).

(** [SecureSignedId]; its fields carry a prefix. *)
Record SecureSignedId := {
  s_id : string;
  s_box_pk : bytes;
  s_pairing_required : bool;
  s_pairing_salt : option bytes;
  s_supports_paired_viewer_identity : bool;
  s_quic_certificate_der : option bytes;
  s_secure_channel : Z;
}.
#[export] Instance eta_SecureSignedId : Eta SecureSignedId := fun r =>
  Build_SecureSignedId (s_id r) (s_box_pk r) (s_pairing_required r) (s_pairing_salt r)
    (s_supports_paired_viewer_identity r) (s_quic_certificate_der r) (s_secure_channel r).

Record DirectPublicKeyPayload := {
  pairing_proof : option bytes;
  initiator : option DirectSignedId;
  symmetric_value : bytes;
}.

Definition get_pk (pk : bytes) : option bytes :=
  if (length pk =? PUBLICKEYBYTES)%nat then Some pk else None.

Section identity.
Context `{Signing} `{IdPkCodec}.

Definition parse_id_pk (l : bytes) : result IdPk :=
  match parse_from_bytes l with inl p => Ok p | inr e => Err e end.

Definition verified_by (pk signed : bytes) : result bytes :=
  ok_or (verify signed pk) "Signature mismatch"%string.

Definition key_of (p : IdPk) : result bytes :=
  ok_or (get_pk (pk_ p)) "Wrong their public length"%string.

Definition decode_id_pk (signed key : bytes) : result (string * bytes) :=
  m ← verified_by key signed;
  res ← parse_id_pk m;
  pk ← key_of res;
  Ok (id_ res, pk).
(** ** Writing identities *)

Definition encode_id_pk (id : string) (pk : bytes) (secure_channel : Z) : bytes :=
  write_to_bytes {| id_ := id; pk_ := pk; secure_channel_ := secure_channel |}.

Definition pairing_flags : Z :=
  Z.lor DIRECT_HANDSHAKE_FLAG_PAIRING_REQUIRED DIRECT_HANDSHAKE_FLAG_PAIRED_VIEWER_IDENTITY.

Definition sign_secure_id_with_pairing (id_pk sign_sk pairing_salt : bytes) : bytes :=
  sign (SECURE_SIGNED_ID_V2_MAGIC ++ [pairing_flags; Z.of_nat (length pairing_salt) mod 256]
        ++ pairing_salt ++ id_pk) sign_sk.

Definition create_secure_signed_id_with_pairing (id : string) (pk sign_sk pairing_salt : bytes) : bytes :=
  sign_secure_id_with_pairing (encode_id_pk id pk 0) sign_sk pairing_salt.

Definition sign_direct_id (id_pk sign_pk sign_sk : bytes) : bytes := sign_pk ++ sign id_pk sign_sk.

Definition create_direct_signed_id (id : string) (pk sign_pk sign_sk : bytes) : bytes :=
  sign_direct_id (encode_id_pk id pk 0) sign_pk sign_sk.

Definition sign_direct_id_with_pairing (id_pk sign_pk sign_sk pairing_salt : bytes) : bytes :=
  DIRECT_SIGNED_ID_V2_MAGIC ++ sign_pk
  ++ sign ([pairing_flags; Z.of_nat (length pairing_salt) mod 256] ++ pairing_salt ++ id_pk) sign_sk.

Definition create_direct_signed_id_with_pairing (id : string) (pk sign_pk sign_sk pairing_salt : bytes) : bytes :=
  sign_direct_id_with_pairing (encode_id_pk id pk 0) sign_pk sign_sk pairing_salt.

Definition create_host_signed_id (direct : bool) (id : string) (box_pk sign_pk sign_sk : bytes)
    (pairing_salt : option bytes) (secure_channel : Z) : bytes :=
  let id_pk := encode_id_pk id box_pk secure_channel in
  match direct, pairing_salt with
  | false, None => sign id_pk sign_sk
  | false, Some salt => sign_secure_id_with_pairing id_pk sign_sk salt
  | true, None => sign_direct_id id_pk sign_pk sign_sk
  | true, Some salt => sign_direct_id_with_pairing id_pk sign_pk sign_sk salt
  end.

Definition create_direct_signed_id_v3 (id : string) (pk sign_pk sign_sk : bytes)
    (pairing_salt : option bytes) (quic_certificate_der : bytes) : result bytes :=
  if negb (length sign_pk =? PUBLICKEYBYTES)%nat || bool_decide (quic_certificate_der = [])
     || (DIRECT_QUIC_CERTIFICATE_MAX_LEN <? Z.of_nat (length quic_certificate_der))
  then Err "Handshake failed: invalid QUIC identity metadata"%string
  else
    certificate_len ← ok_or (u16_try_from (length quic_certificate_der))
      "Handshake failed: QUIC certificate is too large"%string;
    let id_pk := write_to_bytes {| id_ := id; pk_ := pk; secure_channel_ := 0 |} in
    let flags := Z.lor DIRECT_HANDSHAKE_FLAG_PAIRED_VIEWER_IDENTITY DIRECT_HANDSHAKE_FLAG_QUIC_CERTIFICATE in
    let salt := unwrap_or pairing_salt [] in
    let flags := if is_some pairing_salt then Z.lor flags DIRECT_HANDSHAKE_FLAG_PAIRING_REQUIRED else flags in
    let signed_payload := [flags; Z.of_nat (length salt) mod 256] ++ be16 certificate_len
                          ++ salt ++ quic_certificate_der ++ id_pk in
    Ok (DIRECT_SIGNED_ID_V3_MAGIC ++ sign_pk ++ sign signed_payload sign_sk).

Definition create_direct_signed_id_with_quic (id : string) (pk sign_pk sign_sk quic_certificate_der : bytes) : result bytes :=
  create_direct_signed_id_v3 id pk sign_pk sign_sk None quic_certificate_der.

Definition create_direct_signed_id_with_pairing_and_quic (id : string)
    (pk sign_pk sign_sk pairing_salt quic_certificate_der : bytes) : result bytes :=
  create_direct_signed_id_v3 id pk sign_pk sign_sk (Some pairing_salt) quic_certificate_der.

(** ** Reading identities *)

Definition decode_secure_signed_id (signed key : bytes) : result SecureSignedId :=
  verified ← verified_by key signed;
  if starts_with SECURE_SIGNED_ID_V2_MAGIC verified then
    let meta_offset := length SECURE_SIGNED_ID_V2_MAGIC in
    if (length verified <? meta_offset + 2)%nat
    then Err "Handshake failed: missing secure handshake metadata"%string
    else
    flags ← index meta_offset verified;
    salt_len ← index (meta_offset + 1) verified;
  let salt_len := Z.to_nat salt_len in
    if (length verified <? meta_offset + 2 + salt_len)%nat
    then Err "Handshake failed: truncated secure handshake metadata"%string
    else
    let required := has_flag flags DIRECT_HANDSHAKE_FLAG_PAIRING_REQUIRED in
    salt ← (if required then
              if negb (salt_len =? SALTBYTES)%nat
              then Err "Handshake failed: invalid secure pairing salt length"%string
              else s ← slice (meta_offset + 2) (meta_offset + 2 + salt_len) verified; a ← array SALTBYTES s; Ok (Some a)
            else Ok None);
    rest ← slice_from (meta_offset + 2 + salt_len) verified;
    res ← parse_id_pk rest;
    pk ← key_of res;
    Ok {| s_id := id_ res; s_box_pk := pk; s_pairing_required := required; s_pairing_salt := salt;
          s_supports_paired_viewer_identity := has_flag flags DIRECT_HANDSHAKE_FLAG_PAIRED_VIEWER_IDENTITY;
          s_quic_certificate_der := None; s_secure_channel := secure_channel_ res |}
  else
    res ← parse_id_pk verified;
    pk ← key_of res;
    Ok {| s_id := id_ res; s_box_pk := pk; s_pairing_required := false; s_pairing_salt := None;
          s_supports_paired_viewer_identity := false; s_quic_certificate_der := None;
          s_secure_channel := secure_channel_ res |}.

(** The signing key behind a magic, and the message it verifies after it. *)
Definition verified_after (magic payload : bytes) : result (bytes * bytes) :=
  let header_len := (length magic + PUBLICKEYBYTES)%nat in
  if (length payload <=? header_len)%nat then Err "Handshake failed: missing peer signing key"%string
  else
  key ← slice (length magic) (length magic + PUBLICKEYBYTES) payload;
  sign_pk ← ok_or (get_pk key) "Handshake failed: invalid peer signing key length"%string;
  signed ← slice_from header_len payload;
  verified ← verified_by sign_pk signed;
  Ok (sign_pk, verified).

(** The three formats of [decode_direct_id_pk]. *)
Definition decode_direct_id_v3_body (sign_pk verified : bytes) : result DirectSignedId :=
  if (length verified <? 4)%nat then Err "Handshake failed: missing direct QUIC metadata"%string
  else
  flags ← index 0 verified;
  if negb (Z.ldiff flags (Z.lor pairing_flags DIRECT_HANDSHAKE_FLAG_QUIC_CERTIFICATE) =? 0)
  then Err "Handshake failed: invalid direct handshake flags"%string
  else
  salt_len ← index 1 verified;
  let salt_len := Z.to_nat salt_len in
  hi ← index 2 verified;
  lo ← index 3 verified;
  let certificate_len := Z.to_nat (of_be 256 [hi; lo]) in
  metadata_len ← ok_or (length ← checked_add_usize 4 salt_len; checked_add_usize length certificate_len)
    "Handshake failed: direct metadata length overflow"%string;
  if (length verified <=? metadata_len)%nat || (certificate_len =? 0)%nat
     || (DIRECT_QUIC_CERTIFICATE_MAX_LEN <? Z.of_nat certificate_len)
     || negb (has_flag flags DIRECT_HANDSHAKE_FLAG_QUIC_CERTIFICATE)
  then Err "Handshake failed: invalid direct QUIC certificate metadata"%string
  else
  let required := has_flag flags DIRECT_HANDSHAKE_FLAG_PAIRING_REQUIRED in
  salt ← (if required then
            if negb (salt_len =? SALTBYTES)%nat
            then Err "Handshake failed: invalid direct pairing salt length"%string
            else s ← slice 4 (4 + salt_len) verified; a ← array SALTBYTES s; Ok (Some a)
          else if negb (salt_len =? 0)%nat
               then Err "Handshake failed: unexpected direct pairing salt"%string
               else Ok None);
  let certificate_start := (4 + salt_len)%nat in
  let certificate_end := (certificate_start + certificate_len)%nat in
  rest ← slice_from certificate_end verified;
  res ← parse_id_pk rest;
  pk ← key_of res;
  certificate ← slice certificate_start certificate_end verified;
  Ok {| id := id_ res; sign_pk := sign_pk; box_pk := pk; pairing_required := required; pairing_salt := salt;
        supports_paired_viewer_identity := has_flag flags DIRECT_HANDSHAKE_FLAG_PAIRED_VIEWER_IDENTITY;
        quic_certificate_der := Some certificate; secure_channel := secure_channel_ res |}.

Definition decode_direct_id_v3 (payload : bytes) : result DirectSignedId :=
  '(sign_pk, verified) ← verified_after DIRECT_SIGNED_ID_V3_MAGIC payload;
  decode_direct_id_v3_body sign_pk verified.

Definition decode_direct_id_v2 (payload : bytes) : result DirectSignedId :=
  '(sign_pk, verified) ← verified_after DIRECT_SIGNED_ID_V2_MAGIC payload;
  if (length verified <? 2)%nat then Err "Handshake failed: missing direct handshake metadata"%string
  else
  flags ← index 0 verified;
  salt_len ← index 1 verified;
  let salt_len := Z.to_nat salt_len in
  if (length verified <? 2 + salt_len)%nat
  then Err "Handshake failed: truncated direct handshake metadata"%string
  else
  let required := has_flag flags DIRECT_HANDSHAKE_FLAG_PAIRING_REQUIRED in
  salt ← (if required then
            if negb (salt_len =? SALTBYTES)%nat
            then Err "Handshake failed: invalid direct pairing salt length"%string
            else s ← slice 2 (2 + salt_len) verified; a ← array SALTBYTES s; Ok (Some a)
          else Ok None);
  rest ← slice_from (2 + salt_len) verified;
  res ← parse_id_pk rest;
  pk ← key_of res;
  Ok {| id := id_ res; sign_pk := sign_pk; box_pk := pk; pairing_required := required; pairing_salt := salt;
        supports_paired_viewer_identity := has_flag flags DIRECT_HANDSHAKE_FLAG_PAIRED_VIEWER_IDENTITY;
        quic_certificate_der := None; secure_channel := secure_channel_ res |}.

Definition decode_direct_id_v1 (payload : bytes) : result DirectSignedId :=
  '(sign_pk, verified) ← verified_after [] payload;
  res ← parse_id_pk verified;
  pk ← key_of res;
  Ok {| id := id_ res; sign_pk := sign_pk; box_pk := pk; pairing_required := false; pairing_salt := None;
        supports_paired_viewer_identity := false; quic_certificate_der := None;
        secure_channel := secure_channel_ res |}.

Definition decode_direct_id_pk (payload : bytes) : result DirectSignedId :=
  if starts_with DIRECT_SIGNED_ID_V3_MAGIC payload then decode_direct_id_v3 payload
  else if starts_with DIRECT_SIGNED_ID_V2_MAGIC payload then decode_direct_id_v2 payload
  else decode_direct_id_v1 payload.

(** Adding the certificate of the signed QUIC identity to what was decoded. *)
Definition attach_direct_quic_identity (direct_id : DirectSignedId) (payload : bytes) : result DirectSignedId :=
  if bool_decide (payload = []) then Ok direct_id
  else
  identity ← with_prefix "Handshake failed: invalid signed QUIC identity: " (decode_direct_id_pk payload);
  if negb (bool_decide (id identity = id direct_id)) || negb (bool_decide (sign_pk identity = sign_pk direct_id))
     || negb (bool_decide (box_pk identity = box_pk direct_id)) || is_none (quic_certificate_der identity)
  then Err "Handshake failed: signed QUIC identity does not match direct peer identity"%string
  else Ok (direct_id <| quic_certificate_der := quic_certificate_der identity |>).

Definition attach_secure_quic_identity (secure_id : SecureSignedId) (expected_sign_pk payload : bytes) : result SecureSignedId :=
  if bool_decide (payload = []) then Ok secure_id
  else
  identity ← with_prefix "Handshake failed: invalid signed QUIC identity: " (decode_direct_id_pk payload);
  if negb (bool_decide (id identity = s_id secure_id)) || negb (bool_decide (sign_pk identity = expected_sign_pk))
     || negb (bool_decide (box_pk identity = s_box_pk secure_id)) || is_none (quic_certificate_der identity)
  then Err "Handshake failed: signed QUIC identity does not match rendezvous peer identity"%string
  else Ok (secure_id <| s_quic_certificate_der := quic_certificate_der identity |>).

(** ** The viewer's answer *)

Definition wrap_direct_public_key_symmetric_value (sealed_key : bytes) (pairing_proof : option bytes) : bytes :=
  match pairing_proof with
  | None => sealed_key
  | Some pairing_proof => DIRECT_PUBLIC_KEY_V2_MAGIC ++ pairing_proof ++ sealed_key
  end.

Definition wrap_direct_public_key_symmetric_value_with_identity (sealed_key : bytes)
    (pairing_proof initiator_signed_id : option bytes) : result bytes :=
  match initiator_signed_id with
  | None => Ok (wrap_direct_public_key_symmetric_value sealed_key pairing_proof)
  | Some initiator_signed_id =>
      initiator_len ← ok_or (u16_try_from (length initiator_signed_id))
        "Handshake failed: initiator identity too large"%string;
      let flags := if is_some pairing_proof
                   then Z.lor DIRECT_PUBLIC_KEY_FLAG_INITIATOR_ID DIRECT_PUBLIC_KEY_FLAG_PAIRING_PROOF
                   else DIRECT_PUBLIC_KEY_FLAG_INITIATOR_ID in
      Ok (DIRECT_PUBLIC_KEY_V3_MAGIC ++ [flags] ++ unwrap_or pairing_proof [] ++ be16 initiator_len
          ++ initiator_signed_id ++ sealed_key)
  end.

(** The proof and the initiator of the newer payload, each with the offset after it. *)
Definition read_pairing_proof (payload : bytes) (flags : Z) (offset : nat) : result (option bytes * nat) :=
  if has_flag flags DIRECT_PUBLIC_KEY_FLAG_PAIRING_PROOF then
    if (length payload <? offset + DIRECT_PAIRING_PROOF_LEN)%nat
    then Err "Handshake failed: truncated direct pairing proof"%string
    else
    s ← slice offset (offset + DIRECT_PAIRING_PROOF_LEN) payload;
    proof ← array DIRECT_PAIRING_PROOF_LEN s;
    Ok (Some proof, offset + DIRECT_PAIRING_PROOF_LEN)%nat
  else Ok (None, offset).

Definition read_initiator (payload : bytes) (flags : Z) (offset : nat) : result (option DirectSignedId * nat) :=
  if has_flag flags DIRECT_PUBLIC_KEY_FLAG_INITIATOR_ID then
    if (length payload <? offset + 2)%nat
    then Err "Handshake failed: missing direct initiator identity length"%string
    else
    hi ← index offset payload;
    lo ← index (offset + 1) payload;
    let initiator_len := Z.to_nat (of_be 256 [hi; lo]) in
    let offset := (offset + 2)%nat in
    if (initiator_len =? 0)%nat || (length payload <? offset + initiator_len)%nat
    then Err "Handshake failed: truncated direct initiator identity"%string
    else
    s ← slice offset (offset + initiator_len) payload;
    initiator ← with_prefix "Handshake failed: invalid direct initiator identity: " (decode_direct_id_pk s);
    Ok (Some initiator, offset + initiator_len)%nat
  else Ok (None, offset).

Definition unwrap_direct_public_key_v3 (payload : bytes) (pairing_required : bool) : result DirectPublicKeyPayload :=
  let offset := length DIRECT_PUBLIC_KEY_V3_MAGIC in
  if (length payload <=? offset)%nat then Err "Handshake failed: missing direct public key flags"%string
  else
  flags ← index offset payload;
  let offset := (offset + 1)%nat in
  if negb (Z.ldiff flags (Z.lor DIRECT_PUBLIC_KEY_FLAG_PAIRING_PROOF DIRECT_PUBLIC_KEY_FLAG_INITIATOR_ID) =? 0)
  then Err "Handshake failed: invalid direct public key flags"%string
  else
  '(proof, offset) ← read_pairing_proof payload flags offset;
  '(initiator, offset) ← read_initiator payload flags offset;
  if pairing_required && is_none proof && is_none initiator
  then Err "Handshake failed: missing direct pairing proof"%string
  else if (length payload <=? offset)%nat
  then Err "Handshake failed: missing encrypted direct session key"%string
  else
  symmetric_value ← slice_from offset payload;
  Ok {| pairing_proof := proof; initiator := initiator; symmetric_value := symmetric_value |}.

Definition unwrap_direct_public_key_payload (payload : bytes) (pairing_required : bool) : result DirectPublicKeyPayload :=
  if starts_with DIRECT_PUBLIC_KEY_V3_MAGIC payload then unwrap_direct_public_key_v3 payload pairing_required
  else if negb pairing_required
  then Ok {| pairing_proof := None; initiator := None; symmetric_value := payload |}
  else
  let header_len := (length DIRECT_PUBLIC_KEY_V2_MAGIC + DIRECT_PAIRING_PROOF_LEN)%nat in
  if (length payload <=? header_len)%nat || negb (starts_with DIRECT_PUBLIC_KEY_V2_MAGIC payload)
  then Err "Handshake failed: missing direct pairing proof"%string
  else
  s ← slice (length DIRECT_PUBLIC_KEY_V2_MAGIC) header_len payload;
  proof ← array DIRECT_PAIRING_PROOF_LEN s;
  symmetric_value ← slice_from header_len payload;
  Ok {| pairing_proof := Some proof; initiator := None; symmetric_value := symmetric_value |}.

Definition unwrap_direct_public_key_symmetric_value (payload : bytes) (pairing_required : bool) : result (option bytes * bytes) :=
  payload ← unwrap_direct_public_key_payload payload pairing_required;
  Ok (pairing_proof payload, symmetric_value payload).

Definition validate_direct_public_key_initiator (initiator : DirectSignedId) (asymmetric_value : bytes) : result unit :=
  match get_pk asymmetric_value with
  | None => Err "Handshake failed: invalid initiator public key length"%string
  | Some pk =>
      if bool_decide (box_pk initiator = pk) then Ok ()
      else Err "Handshake failed: initiator identity does not match public key"%string
  end.
End identity.

(** ** The pairing proof, and the acknowledgement *)

Section proof.
Context `{Sha256} `{KeyDerivation}.

Definition derive_direct_pairing_key (passphrase : string) (salt : bytes) : result bytes :=
  ok_or (derive_key (as_bytes passphrase) salt) "Handshake failed: could not derive direct pairing key"%string.

(** What [compute_direct_pairing_proof] hashes. *)
Definition pairing_proof_input (derived : bytes) (peer_id : string)
    (responder_sign_pk responder_box_pk initiator_box_pk : bytes) : bytes :=
  as_bytes "rustdesk-direct-pairing-v1" ++ derived ++ as_bytes peer_id
  ++ responder_sign_pk ++ responder_box_pk ++ initiator_box_pk.

Definition compute_direct_pairing_proof (passphrase : string) (salt : bytes) (peer_id : string)
    (responder_sign_pk responder_box_pk initiator_box_pk : bytes) : result bytes :=
  derived ← derive_direct_pairing_key passphrase salt;
  let digest := sha256 (pairing_proof_input derived peer_id responder_sign_pk responder_box_pk initiator_box_pk) in
  s ← slice 0 DIRECT_PAIRING_PROOF_LEN digest;
  array DIRECT_PAIRING_PROOF_LEN s.
End proof.

Definition direct_handshake_ack_ok : bytes := DIRECT_HANDSHAKE_ACK_OK.
Definition is_direct_handshake_ack_ok (payload : bytes) : bool := bool_decide (payload = DIRECT_HANDSHAKE_ACK_OK).

(** ** What a fallible call returns

    [returns Q r]: [r] is not a panic, and a value it gives satisfies [Q]. *)

Definition returns {A} (Q : A -> Prop) (r : result A) : Prop :=
  match r with Ok a => Q a | Err _ => True | Panic => False end.

Lemma returns_bind {A B} (P : A -> Prop) (Q : B -> Prop) (m : result A) (f : A -> result B) :
  returns P m -> (forall a, P a -> returns Q (f a)) -> returns Q (m ≫= f).
Proof. destruct m; cbn; naive_solver. Qed.

Lemma returns_mono {A} (P Q : A -> Prop) (r : result A) : returns P r -> (forall a, P a -> Q a) -> returns Q r.
Proof. destruct r; cbn; naive_solver. Qed.

Lemma returns_ok {A} (Q : A -> Prop) a (r : result A) : returns Q r -> r = Ok a -> Q a.
Proof. by intros Hr ->. Qed.

Lemma returns_no_panic {A} (Q : A -> Prop) (r : result A) : returns Q r -> r <> Panic.
Proof. by destruct r. Qed.

Lemma returns_slice lo hi l : (lo <= hi <= length l)%nat ->
  returns (fun s => s = take (hi - lo) (drop lo l) /\ length s = (hi - lo)%nat) (slice lo hi l).
Proof.
  intros Hl; unfold slice; destruct (Nat.leb_spec lo hi), (Nat.leb_spec hi (length l)); cbn; [|lia..].
  split; [done|]; rewrite length_take, length_drop; lia.
Qed.
Lemma returns_slice_from lo l : (lo <= length l)%nat -> returns (fun s => s = drop lo l) (slice_from lo l).
Proof. intros Hl; unfold slice_from; by destruct (Nat.leb_spec lo (length l)); [|lia]. Qed.
Lemma returns_index i l : (i < length l)%nat -> returns (fun b => l !! i = Some b) (index i l).
Proof. intros Hl; unfold index; destruct (l !! i) eqn:E; [done|]; apply lookup_ge_None in E; lia. Qed.
Lemma returns_array n l : length l = n -> returns (fun s => s = l) (array n l).
Proof. intros <-; unfold array; by rewrite Nat.eqb_refl. Qed.
Lemma returns_ok_or {A} (o : option A) e : returns (fun a => o = Some a) (ok_or o e).
Proof. by destruct o. Qed.
Lemma returns_prefix {A} (Q : A -> Prop) p r : returns Q r -> returns Q (with_prefix p r).
Proof. by destruct r. Qed.

Lemma get_pk_some l k : get_pk l = Some k <-> k = l /\ length l = PUBLICKEYBYTES.
Proof. unfold get_pk; destruct (Nat.eqb_spec (length l) PUBLICKEYBYTES); naive_solver. Qed.

(** Salts and certificates as the decoders bound them. *)
Definition salt_ok (required : bool) (salt : option bytes) : Prop :=
  match salt with
  | Some s => required = true /\ length s = SALTBYTES
  | None => required = false
  end.
Definition certificate_ok (c : option bytes) : Prop :=
  match c with
  | Some c => 1 <= Z.of_nat (length c) <= DIRECT_QUIC_CERTIFICATE_MAX_LEN
  | None => True
  end.

Lemma bind_Ok {A B} (a : A) (f : A -> result B) : (Ok a : result A) ≫= f = f a.
Proof. done. Qed.

Lemma checked_add_some a b r : checked_add_usize a b = Some r -> r = (a + b)%nat.
Proof. unfold checked_add_usize; destruct (_ <=? _); congruence. Qed.

Section decoders.
Context `{Signing} `{IdPkCodec}.

(** [m], verified under the key of [d], ends with a message that carries the id
    and the box key of [d]. *)
Definition signed_fields (key m : bytes) (id : string) (box_pk : bytes) (secure_channel : Z) : Prop :=
  exists signed n p, verify signed key = Some m /\ parse_from_bytes (drop n m) = inl p /\
    id_ p = id /\ pk_ p = box_pk /\ secure_channel_ p = secure_channel.

Record direct_ok (d : DirectSignedId) : Prop := {
  d_sign_pk : length (sign_pk d) = PUBLICKEYBYTES;
  d_box_pk : length (box_pk d) = PUBLICKEYBYTES;
  d_salt : salt_ok (pairing_required d) (pairing_salt d);
  d_certificate : certificate_ok (quic_certificate_der d);
  d_signed : exists m, signed_fields (sign_pk d) m (id d) (box_pk d) (secure_channel d);
}.

Record secure_ok (key : bytes) (d : SecureSignedId) : Prop := {
  so_box_pk : length (s_box_pk d) = PUBLICKEYBYTES;
  so_salt : salt_ok (s_pairing_required d) (s_pairing_salt d);
  so_certificate : certificate_ok (s_quic_certificate_der d);
  so_signed : exists m, signed_fields key m (s_id d) (s_box_pk d) (s_secure_channel d);
}.

Lemma returns_verified pk signed : returns (fun m => verify signed pk = Some m) (verified_by pk signed).
Proof. apply returns_ok_or. Qed.
Lemma returns_parse l : returns (fun p => parse_from_bytes l = inl p) (parse_id_pk l).
Proof. unfold parse_id_pk; by destruct (parse_from_bytes l). Qed.
Lemma returns_key p : returns (fun k => k = pk_ p /\ length k = PUBLICKEYBYTES) (key_of p).
Proof. unfold key_of; eapply returns_mono; [apply returns_ok_or|]; intros k Hk; apply get_pk_some in Hk; naive_solver. Qed.

(** Reads the salt of [n] bytes that follows the header of [start] bytes. *)
Lemma returns_salt (required : bool) start n m e : (start + n <= length m)%nat ->
  returns (salt_ok required)
    (if required then
       if negb (n =? SALTBYTES)%nat then Err e
       else s ← slice start (start + n) m; a ← array SALTBYTES s; Ok (Some a)
     else Ok None).
Proof.
  intros Hm; destruct required; [|done]; destruct (Nat.eqb_spec n SALTBYTES) as [->|]; [|done]; cbn [negb].
  eapply returns_bind; [apply returns_slice; lia|]; intros s [_ Hs].
  eapply returns_bind; [apply returns_array; lia|]; intros a ->; cbn; split; [done|lia].
Qed.

(** The message at the end of what was signed, read into its fields. *)
Lemma returns_tail {A} (Q : A -> Prop) n m (f : IdPk -> bytes -> result A) :
  (n <= length m)%nat ->
  (forall p, parse_from_bytes (drop n m) = inl p -> length (pk_ p) = PUBLICKEYBYTES -> returns Q (f p (pk_ p))) ->
  returns Q (rest ← slice_from n m; res ← parse_id_pk rest; pk ← key_of res; f res pk).
Proof.
  intros Hn Hf; eapply returns_bind; [by apply returns_slice_from|]; intros rest ->.
  eapply returns_bind; [apply returns_parse|]; intros p Hp.
  eapply returns_bind; [apply returns_key|]; intros k [-> Hk]; auto.
Qed.
Lemma returns_verified_after magic payload :
  returns (fun r => length r.1 = PUBLICKEYBYTES /\ exists signed, verify signed r.1 = Some r.2)
    (verified_after magic payload).
Proof.
  unfold verified_after; destruct (Nat.leb_spec (length payload) (length magic + PUBLICKEYBYTES)); [done|].
  eapply returns_bind; [apply returns_slice; lia|]; intros key _.
  eapply returns_bind; [apply returns_ok_or|]; intros k Hk; apply get_pk_some in Hk as [-> Hk].
  eapply returns_bind; [apply returns_slice_from; lia|]; intros signed _.
  eapply returns_bind; [apply returns_verified|]; cbn; eauto.
Qed.

Lemma returns_v1 payload : returns direct_ok (decode_direct_id_v1 payload).
Proof.
  unfold decode_direct_id_v1; eapply returns_bind; [apply returns_verified_after|].
  intros [key m] [Hk [signed Hs]]; cbn [fst snd] in *.
  eapply returns_bind; [apply returns_parse|]; intros p Hp.
  eapply returns_bind; [apply returns_key|]; intros k [-> Hl].
  constructor; cbn; try done; exists m, signed, 0%nat, p; by rewrite drop_0.
Qed.

Lemma returns_v2 payload : returns direct_ok (decode_direct_id_v2 payload).
Proof.
  unfold decode_direct_id_v2; eapply returns_bind; [apply returns_verified_after|].
  intros [key m] [Hk [signed Hs]]; cbn [fst snd] in *.
  destruct (Nat.ltb_spec (length m) 2); [done|].
  eapply returns_bind; [apply returns_index; lia|]; intros flags _.
  eapply returns_bind; [apply returns_index; lia|]; intros b _; cbv zeta; set (n := Z.to_nat b).
  destruct (Nat.ltb_spec (length m) (2 + n)); [done|].
  eapply returns_bind; [apply returns_salt; lia|]; intros salt Hsalt.
  apply returns_tail; [lia|]; intros p Hp Hl.
  constructor; cbn; try done; by exists m, signed, (2 + n)%nat, p.
Qed.

Lemma returns_v3 payload : returns direct_ok (decode_direct_id_v3 payload).
Proof.
  unfold decode_direct_id_v3; eapply returns_bind; [apply returns_verified_after|].
  intros [key m] [Hk [signed Hs]]; cbn [fst snd] in *; unfold decode_direct_id_v3_body.
  destruct (Nat.ltb_spec (length m) 4); [done|].
  eapply returns_bind; [apply returns_index; lia|]; intros flags _.
  destruct (negb _); [done|].
  eapply returns_bind; [apply returns_index; lia|]; intros b _; cbv zeta; set (n := Z.to_nat b).
  eapply returns_bind; [apply returns_index; lia|]; intros hi _.
  eapply returns_bind; [apply returns_index; lia|]; intros lo _; set (c := Z.to_nat _).
  eapply returns_bind; [apply returns_ok_or|]; intros len Hlen.
  assert (len = 4 + n + c)%nat as ->.
  { apply bind_Some in Hlen as (a & Ha & Hlen); apply checked_add_some in Ha as ->; by apply checked_add_some in Hlen. }
  destruct (Nat.leb_spec (length m) (4 + n + c)); [done|].
  destruct (Nat.eqb_spec c 0); [done|]; destruct (Z.ltb_spec DIRECT_QUIC_CERTIFICATE_MAX_LEN (Z.of_nat c)); [done|].
  destruct (negb _); [done|]; cbn [orb].
  eapply returns_bind with (P := salt_ok (has_flag flags DIRECT_HANDSHAKE_FLAG_PAIRING_REQUIRED)).
  { destruct (has_flag _ _); [apply (returns_salt true); lia|]; by destruct (negb _). }
  intros salt Hsalt; apply returns_tail; [lia|]; intros p Hp Hl.
  eapply returns_bind; [apply returns_slice; lia|]; intros cert [_ Hcert].
  constructor; cbn [sign_pk box_pk pairing_required pairing_salt quic_certificate_der certificate_ok]; try done; [lia|].
  by exists m, signed, (4 + n + c)%nat, p.
Qed.

Lemma returns_direct payload : returns direct_ok (decode_direct_id_pk payload).
Proof.
  unfold decode_direct_id_pk; destruct (starts_with _ _); [apply returns_v3|].
  destruct (starts_with _ _); [apply returns_v2|apply returns_v1].
Qed.

Lemma returns_secure signed key : returns (secure_ok key) (decode_secure_signed_id signed key).
Proof.
  unfold decode_secure_signed_id; eapply returns_bind; [apply returns_verified|]; intros m Hm.
  destruct (starts_with _ _); cbv zeta.
  - destruct (Nat.ltb_spec (length m) (length SECURE_SIGNED_ID_V2_MAGIC + 2)); [done|].
    eapply returns_bind; [apply returns_index; lia|]; intros flags _.
    eapply returns_bind; [apply returns_index; lia|]; intros b _; set (n := Z.to_nat b).
    destruct (Nat.ltb_spec (length m) (length SECURE_SIGNED_ID_V2_MAGIC + 2 + n)); [done|].
    eapply returns_bind; [apply returns_salt; lia|]; intros salt Hsalt.
    apply returns_tail; [lia|]; intros p Hp Hl.
    constructor; cbn [s_box_pk s_pairing_required s_pairing_salt s_quic_certificate_der certificate_ok]; try done.
    by exists m, signed, (length SECURE_SIGNED_ID_V2_MAGIC + 2 + n)%nat, p.
  - eapply returns_bind; [apply returns_parse|]; intros p Hp.
    eapply returns_bind; [apply returns_key|]; intros k [-> Hl].
    constructor; cbn; try done; exists m, signed, 0%nat, p; by rewrite drop_0.
Qed.

Lemma returns_attach_direct d payload : direct_ok d -> returns direct_ok (attach_direct_quic_identity d payload).
Proof.
  intros Hd; unfold attach_direct_quic_identity; case_bool_decide; [done|].
  eapply returns_bind; [apply returns_prefix, returns_direct|]; intros i Hi.
  destruct (_ || _); [done|]; destruct Hd, Hi; by constructor.
Qed.

Lemma returns_attach_secure d key payload : secure_ok key d -> returns (secure_ok key) (attach_secure_quic_identity d key payload).
Proof.
  intros Hd; unfold attach_secure_quic_identity; case_bool_decide; [done|].
  eapply returns_bind; [apply returns_prefix, returns_direct|]; intros i Hi.
  destruct (_ || _); [done|]; destruct Hd, Hi; by constructor.
Qed.
End decoders.

(** ** The answer is read into well-formed parts *)

Record payload_ok `{Signing} `{IdPkCodec} (required : bool) (p : DirectPublicKeyPayload) : Prop := {
  p_proof : forall s, pairing_proof p = Some s -> length s = DIRECT_PAIRING_PROOF_LEN;
  p_initiator : forall i, initiator p = Some i -> direct_ok i;
  p_claim : required = true -> is_some (pairing_proof p) || is_some (initiator p) = true;
}.

Section answers.
Context `{Signing} `{IdPkCodec}.

Lemma returns_proof payload flags offset : (offset <= length payload)%nat ->
  returns (fun r => (forall s, r.1 = Some s -> length s = DIRECT_PAIRING_PROOF_LEN) /\ (r.2 <= length payload)%nat)
    (read_pairing_proof payload flags offset).
Proof.
  intros Ho; unfold read_pairing_proof; destruct (has_flag _ _); [|by cbn].
  destruct (Nat.ltb_spec (length payload) (offset + DIRECT_PAIRING_PROOF_LEN)); [done|].
  eapply returns_bind; [apply returns_slice; lia|]; intros s [_ Hs].
  eapply returns_bind; [apply returns_array; lia|]; intros a ->; cbn [fst snd returns].
  split; [|lia]; intros t [= ->]; lia.
Qed.

Lemma returns_initiator payload flags offset : (offset <= length payload)%nat ->
  returns (fun r => (forall i, r.1 = Some i -> direct_ok i) /\ (r.2 <= length payload)%nat)
    (read_initiator payload flags offset).
Proof.
  intros Ho; unfold read_initiator; destruct (has_flag _ _); [|by cbn].
  destruct (Nat.ltb_spec (length payload) (offset + 2)); [done|].
  eapply returns_bind; [apply returns_index; lia|]; intros hi _.
  eapply returns_bind; [apply returns_index; lia|]; intros lo _; cbv zeta; set (n := Z.to_nat _).
  destruct (Nat.eqb_spec n 0); [done|]; destruct (Nat.ltb_spec (length payload) (offset + 2 + n)); [done|]; cbn [orb].
  eapply returns_bind; [apply returns_slice; lia|]; intros s _.
  eapply returns_bind; [apply returns_prefix, returns_direct|]; intros i Hi; cbn [fst snd returns].
  split; [|lia]; by intros ? [= <-].
Qed.

Lemma returns_unwrap payload required : returns (payload_ok required) (unwrap_direct_public_key_payload payload required).
Proof.
  unfold unwrap_direct_public_key_payload; destruct (starts_with _ _).
  - unfold unwrap_direct_public_key_v3; cbv zeta.
    destruct (Nat.leb_spec (length payload) (length DIRECT_PUBLIC_KEY_V3_MAGIC)); [done|].
    eapply returns_bind; [apply returns_index; lia|]; intros flags _; destruct (negb _); [done|].
    eapply returns_bind; [apply returns_proof; lia|]; intros [proof o1] [Hp Ho1]; cbn [fst snd] in *.
    eapply returns_bind; [by apply returns_initiator|]; intros [i o2] [Hi Ho2]; cbn [fst snd] in *.
    destruct (required && _ && _) eqn:E; [done|]; destruct (Nat.leb_spec (length payload) o2); [done|].
    eapply returns_bind; [apply returns_slice_from; lia|]; intros v _; constructor; cbn; auto.
    intros ->; destruct proof, i; done.
  - destruct required; cbn [negb]; [|by constructor].
    destruct (Nat.leb_spec (length payload) (length DIRECT_PUBLIC_KEY_V2_MAGIC + DIRECT_PAIRING_PROOF_LEN)); [done|].
    destruct (negb _); [done|]; cbn [orb].
    eapply returns_bind; [apply returns_slice; lia|]; intros s [_ Hs].
    eapply returns_bind; [apply returns_array; lia|]; intros a ->.
    eapply returns_bind; [apply returns_slice_from; lia|]; intros v _; constructor; cbn; try done.
    intros t [= <-]; lia.
Qed.
End answers.

(** ** Round trips *)

Lemma slice_app a b c lo hi : length a = lo -> (lo + length b)%nat = hi -> slice lo hi (a ++ b ++ c) = Ok b.
Proof.
  intros <- <-; unfold slice; rewrite !length_app.
  destruct (Nat.leb_spec (length a) (length a + length b)), (Nat.leb_spec (length a + length b) (length a + (length b + length c))); cbn; [|lia..].
  replace (length a + length b - length a)%nat with (length b) by lia; by rewrite drop_app_length, take_app_length.
Qed.
Lemma slice_from_app a b n : length a = n -> slice_from n (a ++ b) = Ok b.
Proof.
  intros <-; unfold slice_from; rewrite length_app, drop_app_length.
  by destruct (Nat.leb_spec (length a) (length a + length b)); [|lia].
Qed.
Lemma index_app a b c n : length a = n -> index n (a ++ b :: c) = Ok b.
Proof. intros <-; unfold index; by rewrite list_lookup_middle. Qed.
Lemma array_id n l : length l = n -> array n l = Ok l.
Proof. intros <-; unfold array; by rewrite Nat.eqb_refl. Qed.
Lemma starts_with_app m l : starts_with m (m ++ l) = true.
Proof. unfold starts_with; rewrite take_app_length; by apply bool_decide_true. Qed.
Lemma starts_with_prefix m a b : (length m <= length a)%nat -> starts_with m (a ++ b) = starts_with m a.
Proof. intros; unfold starts_with; by rewrite take_app_le. Qed.
(** Two magics of one length are told apart. *)
Lemma starts_with_other m m' l : length m' = length m -> m <> m' -> starts_with m (m' ++ l) = false.
Proof.
  intros Hl Hne; rewrite starts_with_prefix by lia; unfold starts_with; apply bool_decide_false.
  rewrite <- Hl, take_ge by lia; congruence.
Qed.
Lemma be16_of n : 0 <= n <= 65535 -> of_be 256 [n / 256; n mod 256] = n.
Proof. intros; unfold of_be; cbn; pose proof (Z.div_mod n 256); lia. Qed.
Lemma u16_try n : Z.of_nat n <= 65535 -> u16_try_from n = Some (Z.of_nat n).
Proof. intros; unfold u16_try_from; by destruct (Z.leb_spec (Z.of_nat n) 65535); [|lia]. Qed.

Section round_trips.
Context `{Signing} `{IdPkCodec}.

(** The keys and the fields an identity is made of. *)
Record identity_inputs (box_pk key sk : bytes) (salt : option bytes) (channel : Z) : Prop := {
  in_pair : key_pair key sk;
  in_key : length key = PUBLICKEYBYTES;
  in_box : length box_pk = PUBLICKEYBYTES;
  in_box_bytes : Forall is_byte box_pk;
  in_salt : forall s, salt = Some s -> length s = SALTBYTES;
  in_channel : 0 <= channel <= u32_max;
}.

Lemma parse_encoded id box_pk channel : Forall is_byte box_pk -> 0 <= channel <= u32_max ->
  parse_id_pk (encode_id_pk id box_pk channel) =
  Ok {| id_ := id; pk_ := box_pk; secure_channel_ := channel |}.
Proof. intros; unfold parse_id_pk, encode_id_pk; by rewrite parse_write. Qed.

Lemma key_of_ok p : length (pk_ p) = PUBLICKEYBYTES -> key_of p = Ok (pk_ p).
Proof. intros Hp; unfold key_of, get_pk; by rewrite Hp. Qed.

Lemma tail_app {A} h id box_pk channel n (f : IdPk -> bytes -> result A) :
  length h = n -> length box_pk = PUBLICKEYBYTES -> Forall is_byte box_pk -> 0 <= channel <= u32_max ->
  (rest ← slice_from n (h ++ encode_id_pk id box_pk channel); res ← parse_id_pk rest; pk ← key_of res; f res pk) =
  f {| id_ := id; pk_ := box_pk; secure_channel_ := channel |} box_pk.
Proof. intros Hh Hl Hb Hc; rewrite slice_from_app by done; cbn; rewrite parse_encoded by done; cbn; by rewrite key_of_ok. Qed.

Lemma verified_after_app magic key sk m : key_pair key sk -> length key = PUBLICKEYBYTES ->
  verified_after magic (magic ++ key ++ sign m sk) = Ok (key, m).
Proof.
  intros Hp Hk; unfold verified_after.
  pose proof (length_sign m sk) as Hs; unfold SIGNATUREBYTES in Hs.
  destruct (Nat.leb_spec (length (magic ++ key ++ sign m sk)) (length magic + PUBLICKEYBYTES)) as [Hle|_].
  { rewrite !length_app, Hk in Hle; lia. }
  rewrite slice_app by (try done; by rewrite Hk); cbn.
  replace (get_pk key) with (Some key) by (symmetry; by apply get_pk_some); cbn.
  rewrite app_assoc, slice_from_app by (by rewrite length_app, Hk); cbn.
  unfold verified_by; by rewrite verify_sign.
Qed.

Lemma ok_inj {A} (a b : A) : @Ok string A a = Ok b -> a = b.
Proof. congruence. Qed.

Lemma length_ge (l : bytes) n : (n <= length l)%nat -> (length l <? n)%nat = false.
Proof. apply Nat.ltb_ge. Qed.

Lemma read_salt start h s t (required : bool) e : length h = start -> length s = SALTBYTES ->
  (if required then
     if negb (SALTBYTES =? SALTBYTES)%nat then Err e
     else x ← slice start (start + SALTBYTES) (h ++ s ++ t); a ← array SALTBYTES x; Ok (Some a)
   else Ok None) = @Ok string (option bytes) (if required then Some s else None).
Proof.
  intros Hh Hs; destruct required; [|done]; cbn [negb Nat.eqb SALTBYTES].
  rewrite slice_app by (rewrite ?Hh, ?Hs; done); cbn [mbind outcome_bind]; by rewrite array_id.
Qed.

Lemma decode_v2 id box_pk key sk salt channel : identity_inputs box_pk key sk (Some salt) channel ->
  decode_direct_id_v2 (sign_direct_id_with_pairing (encode_id_pk id box_pk channel) key sk salt) =
  Ok {| id := id; sign_pk := key; box_pk := box_pk; pairing_required := true; pairing_salt := Some salt;
        supports_paired_viewer_identity := true; quic_certificate_der := None; secure_channel := channel |}.
Proof.
  intros [Hp Hk Hb Hbb Hs Hc]; specialize (Hs _ eq_refl).
  unfold decode_direct_id_v2, sign_direct_id_with_pairing; rewrite verified_after_app by done; cbn [mbind outcome_bind].
  rewrite Hs; change (Z.of_nat SALTBYTES mod 256) with 16.
  set (m := encode_id_pk _ _ _); cbn [app].
  rewrite length_ge by (cbn; lia); change (index 0 _) with (@Ok string Z pairing_flags); cbn [mbind outcome_bind].
  change (index 1 _) with (@Ok string Z 16); cbn [mbind outcome_bind]; change (Z.to_nat 16) with SALTBYTES.
  rewrite length_ge by (cbn [length]; rewrite length_app, Hs; lia); cbv zeta.
  change (pairing_flags :: 16 :: salt ++ m) with ([pairing_flags; 16] ++ salt ++ m).
  rewrite read_salt by done; change (has_flag pairing_flags _) with true; cbn [mbind outcome_bind].
  rewrite app_assoc; unfold m; rewrite tail_app; [done|rewrite length_app, Hs; done|done..].
Qed.
Lemma decode_v1 id box_pk key sk channel : identity_inputs box_pk key sk None channel ->
  decode_direct_id_v1 (sign_direct_id (encode_id_pk id box_pk channel) key sk) =
  Ok {| id := id; sign_pk := key; box_pk := box_pk; pairing_required := false; pairing_salt := None;
        supports_paired_viewer_identity := false; quic_certificate_der := None; secure_channel := channel |}.
Proof.
  intros [Hp Hk Hb Hbb Hs Hc]; unfold decode_direct_id_v1, sign_direct_id.
  pose proof (verified_after_app [] key sk (encode_id_pk id box_pk channel) Hp Hk) as E; cbn [app] in E.
  rewrite E; cbn [mbind outcome_bind]; rewrite parse_encoded by done; cbn [mbind outcome_bind].
  by rewrite key_of_ok by done.
Qed.

Lemma decode_secure_v2 id box_pk key sk salt channel : identity_inputs box_pk key sk (Some salt) channel ->
  decode_secure_signed_id (sign_secure_id_with_pairing (encode_id_pk id box_pk channel) sk salt) key =
  Ok {| s_id := id; s_box_pk := box_pk; s_pairing_required := true; s_pairing_salt := Some salt;
        s_supports_paired_viewer_identity := true; s_quic_certificate_der := None; s_secure_channel := channel |}.
Proof.
  intros [Hp Hk Hb Hbb Hs Hc]; specialize (Hs _ eq_refl).
  unfold decode_secure_signed_id, sign_secure_id_with_pairing, verified_by; rewrite verify_sign by done.
  cbn [ok_or mbind outcome_bind]; rewrite starts_with_app, Hs; change (Z.of_nat SALTBYTES mod 256) with 16.
  set (m := encode_id_pk _ _ _); cbv zeta; change (length SECURE_SIGNED_ID_V2_MAGIC) with 8%nat; cbn [SECURE_SIGNED_ID_V2_MAGIC app].
  rewrite length_ge by (cbn; lia).
  change (index 8 _) with (@Ok string Z pairing_flags); cbn [mbind outcome_bind].
  change (index (8 + 1) _) with (@Ok string Z 16); cbn [mbind outcome_bind]; change (Z.to_nat 16) with SALTBYTES.
  rewrite length_ge by (cbn [length]; rewrite length_app, Hs; lia); cbv zeta.
  change (82 :: _) with ((SECURE_SIGNED_ID_V2_MAGIC ++ [pairing_flags; 16]) ++ salt ++ m).
  rewrite read_salt by done; change (has_flag pairing_flags _) with true; cbn [mbind outcome_bind].
  rewrite app_assoc; unfold m; rewrite tail_app; [done|rewrite !length_app, Hs; done|done..].
Qed.

Lemma decode_secure_v1 id box_pk key sk channel : identity_inputs box_pk key sk None channel ->
  starts_with SECURE_SIGNED_ID_V2_MAGIC (encode_id_pk id box_pk channel) = false ->
  decode_secure_signed_id (sign (encode_id_pk id box_pk channel) sk) key =
  Ok {| s_id := id; s_box_pk := box_pk; s_pairing_required := false; s_pairing_salt := None;
        s_supports_paired_viewer_identity := false; s_quic_certificate_der := None; s_secure_channel := channel |}.
Proof.
  intros [Hp Hk Hb Hbb Hs Hc] Hm; unfold decode_secure_signed_id, verified_by; rewrite verify_sign by done.
  cbn [ok_or mbind outcome_bind]; rewrite Hm, parse_encoded by done; cbn [mbind outcome_bind].
  by rewrite key_of_ok by done.
Qed.

(** A key that could be taken for the start of a newer format; one in 2^63 is. *)
Definition no_magic (key : bytes) : bool :=
  negb (starts_with DIRECT_SIGNED_ID_V3_MAGIC key) && negb (starts_with DIRECT_SIGNED_ID_V2_MAGIC key).

Lemma decode_v2_tag x : decode_direct_id_pk (DIRECT_SIGNED_ID_V2_MAGIC ++ x) = decode_direct_id_v2 (DIRECT_SIGNED_ID_V2_MAGIC ++ x).
Proof. unfold decode_direct_id_pk; rewrite starts_with_other by done; by rewrite starts_with_app. Qed.
Lemma decode_v1_tag key x : no_magic key = true -> length key = PUBLICKEYBYTES ->
  decode_direct_id_pk (key ++ x) = decode_direct_id_v1 (key ++ x).
Proof.
  intros Hm Hk; unfold no_magic in Hm; bools; unfold decode_direct_id_pk.
  rewrite !starts_with_prefix by (rewrite Hk; vm_compute; lia); by use_bools.
Qed.

(** The certificate an identity can carry. *)
Lemma read_v3 flags sl s id box_pk key cert :
  let n := Z.of_nat (length cert) in
  let m := encode_id_pk id box_pk 0 in
  let required := has_flag flags DIRECT_HANDSHAKE_FLAG_PAIRING_REQUIRED in
  let verified := [flags; sl] ++ be16 n ++ s ++ cert ++ m in
  length box_pk = PUBLICKEYBYTES -> Forall is_byte box_pk -> 0 < n <= 16384 -> length s = Z.to_nat sl ->
  (flags = 6 /\ sl = 0) \/ (flags = 7 /\ sl = 16) ->
  decode_direct_id_v3_body key verified =
  Ok {| id := id; sign_pk := key; box_pk := box_pk; pairing_required := required;
        pairing_salt := if required then Some s else None;
        supports_paired_viewer_identity := true; quic_certificate_der := Some cert; secure_channel := 0 |}.
Proof.
  intros n m required verified Hb Hbb Hn Hs Hcase; unfold decode_direct_id_v3_body.
  assert (Hm : (0 < length m)%nat).
  { unfold m, encode_id_pk; match goal with |- context [write_to_bytes ?p] => pose proof (write_holds_key p) as Hw end.
    cbn [pk_] in Hw; rewrite Hb in Hw; unfold PUBLICKEYBYTES in Hw; lia. }
  assert (Hsl : sl <= 16) by lia.
  assert (Hlen : length verified = (4 + length s + length cert + length m)%nat).
  { unfold verified, be16; cbn [app length]; rewrite !length_app; lia. }
  assert (E1 : verified = ([flags; sl] ++ be16 n ++ s ++ cert) ++ m) by (unfold verified; by rewrite <- !app_assoc).
  assert (E2 : verified = ([flags; sl] ++ be16 n ++ s) ++ cert ++ m) by (unfold verified; by rewrite <- !app_assoc).
  assert (E3 : verified = ([flags; sl] ++ be16 n) ++ s ++ cert ++ m) by (unfold verified; by rewrite <- !app_assoc).
  assert (I : index 0 verified = Ok flags /\ index 1 verified = Ok sl /\ index 2 verified = Ok (n / 256) /\
              index 3 verified = Ok (n mod 256)) by done.
  destruct I as (I0 & I1 & I2 & I3); clearbody verified.
  rewrite length_ge, I0, bind_Ok by lia.
  replace (negb _) with false by (destruct Hcase as [[-> _]|[-> _]]; done).
  rewrite I1, bind_Ok, I2, bind_Ok, I3, bind_Ok; cbv zeta.
  rewrite be16_of by lia; subst n; rewrite Nat2Z.id, <- Hs.
  unfold checked_add_usize, u64_max; destruct (Z.leb_spec (Z.of_nat (4 + length s)) 18446744073709551615); [|lia].
  cbn [mbind option_bind]; destruct (Z.leb_spec (Z.of_nat (4 + length s + length cert)) 18446744073709551615); [|lia].
  cbn [ok_or mbind outcome_bind option_bind].
  destruct (Nat.leb_spec (length verified) (4 + length s + length cert)); [lia|].
  destruct (Nat.eqb_spec (length cert) 0); [lia|].
  destruct (Z.ltb_spec DIRECT_QUIC_CERTIFICATE_MAX_LEN (Z.of_nat (length cert))); [unfold DIRECT_QUIC_CERTIFICATE_MAX_LEN in *; lia|].
  replace (negb (has_flag flags _)) with false by (destruct Hcase as [[-> _]|[-> _]]; done); cbn [orb].
  fold required; match goal with |- mbind _ ?t = _ => replace t with (@Ok string _ (if required then Some s else None)) end.
  2: { unfold required; destruct Hcase as [[-> ->]|[-> ->]]; cbn [has_flag]; rewrite Hs; [done|].
       change (has_flag 7 _) with true; cbn [negb Nat.eqb Z.to_nat Pos.to_nat SALTBYTES].
       change (Z.to_nat 16) with SALTBYTES in *; cbn [negb Nat.eqb SALTBYTES].
       rewrite E3, slice_app by (rewrite ?Hs; done); cbn [mbind outcome_bind].
       by rewrite array_id. }
  cbn [mbind outcome_bind]; rewrite E1 at 1; unfold m; rewrite tail_app; [|rewrite !length_app; cbn; lia|done|done|done].
  rewrite E2, slice_app by (rewrite ?length_app; cbn; lia); cbn [mbind outcome_bind].
  by replace (has_flag flags DIRECT_HANDSHAKE_FLAG_PAIRED_VIEWER_IDENTITY) with true by (destruct Hcase as [[-> _]|[-> _]]; done).
Qed.

Lemma decode_v3 id box_pk key sk salt cert payload : identity_inputs box_pk key sk salt 0 ->
  create_direct_signed_id_v3 id box_pk key sk salt cert = Ok payload ->
  decode_direct_id_pk payload =
  Ok {| id := id; sign_pk := key; box_pk := box_pk; pairing_required := is_some salt; pairing_salt := salt;
        supports_paired_viewer_identity := true; quic_certificate_der := Some cert; secure_channel := 0 |}.
Proof.
  intros [Hp Hk Hb Hbb Hs Hc]; unfold create_direct_signed_id_v3; rewrite Hk; cbn [negb Nat.eqb PUBLICKEYBYTES orb].
  case_bool_decide as Hne; [done|]; destruct (Z.ltb_spec DIRECT_QUIC_CERTIFICATE_MAX_LEN (Z.of_nat (length cert))) as [|Hmax]; [done|].
  unfold DIRECT_QUIC_CERTIFICATE_MAX_LEN in Hmax; rewrite u16_try by lia; cbn [ok_or mbind outcome_bind orb].
  set (n := Z.of_nat (length cert)); assert (Hn : 0 < n) by (destruct cert; [done|cbn in *; lia]).
  intros E; apply ok_inj in E as <-; unfold decode_direct_id_pk; rewrite starts_with_app.
  unfold decode_direct_id_v3; rewrite verified_after_app by done; cbn [mbind outcome_bind].
  change (write_to_bytes _) with (encode_id_pk id box_pk 0); set (m := encode_id_pk id box_pk 0).
  destruct salt as [s|]; cbn [is_some is_none negb unwrap_or]; [specialize (Hs s eq_refl); rewrite Hs|].
  - apply (read_v3 7 16 s); first [done|lia].
  - apply (read_v3 6 0 []); first [done|lia].
Qed.
(** What the viewer wraps, the host reads. *)
Definition initiator_of (signed : option bytes) (i : DirectSignedId) : option DirectSignedId :=
  match signed with Some _ => Some i | None => None end.

Lemma read_proof_app h flags proof t :
  has_flag flags DIRECT_PUBLIC_KEY_FLAG_PAIRING_PROOF = is_some proof ->
  (forall p, proof = Some p -> length p = DIRECT_PAIRING_PROOF_LEN) ->
  read_pairing_proof (h ++ unwrap_or proof [] ++ t) flags (length h) =
  Ok (proof, length h + length (unwrap_or proof []))%nat.
Proof.
  intros Hf Hp; unfold read_pairing_proof; rewrite Hf; destruct proof as [p|]; cbn [is_some is_none negb unwrap_or length].
  - specialize (Hp p eq_refl); rewrite <- Hp, length_ge by (rewrite !length_app; lia).
    rewrite slice_app by done; cbn [mbind outcome_bind]; by rewrite array_id.
  - by rewrite Nat.add_0_r.
Qed.

Lemma read_initiator_app h flags signed i t :
  has_flag flags DIRECT_PUBLIC_KEY_FLAG_INITIATOR_ID = true ->
  0 < Z.of_nat (length signed) <= 65535 -> decode_direct_id_pk signed = Ok i ->
  read_initiator (h ++ be16 (Z.of_nat (length signed)) ++ signed ++ t) flags (length h) =
  Ok (Some i, length h + 2 + length signed)%nat.
Proof.
  intros Hf Hn Hi; unfold read_initiator; rewrite Hf; set (n := Z.of_nat (length signed)).
  rewrite length_ge by (rewrite !length_app; cbn; lia).
  change (be16 n ++ signed ++ t) with (n / 256 :: n mod 256 :: signed ++ t).
  rewrite (index_app h _ _ (length h)) by done; rewrite bind_Ok.
  change (n / 256 :: n mod 256 :: signed ++ t) with ([n / 256] ++ n mod 256 :: signed ++ t); rewrite (app_assoc h).
  rewrite (index_app (h ++ [n / 256])) by (rewrite length_app; cbn; lia); rewrite bind_Ok; cbv zeta.
  rewrite be16_of by (unfold n; lia); unfold n; rewrite Nat2Z.id.
  destruct (Nat.eqb_spec (length signed) 0); [lia|].
  replace ((h ++ [_]) ++ _) with ((h ++ be16 n) ++ signed ++ t) by (unfold be16, n; by rewrite <- !app_assoc).
  rewrite length_ge by (rewrite !length_app; cbn; lia); cbn [orb].
  rewrite slice_app by (rewrite ?length_app; cbn; lia); rewrite bind_Ok, Hi; cbn [with_prefix]; by rewrite bind_Ok.
Qed.

Lemma unwrap_wrap sealed proof signed i required payload :
  required = is_some proof || is_some signed ->
  (forall p, proof = Some p -> length p = DIRECT_PAIRING_PROOF_LEN) ->
  match signed with
  | Some s => s <> [] /\ decode_direct_id_pk s = Ok i
  | None => starts_with DIRECT_PUBLIC_KEY_V3_MAGIC sealed = false
  end ->
  sealed <> [] ->
  wrap_direct_public_key_symmetric_value_with_identity sealed proof signed = Ok payload ->
  unwrap_direct_public_key_payload payload required =
  Ok {| pairing_proof := proof; initiator := initiator_of signed i; symmetric_value := sealed |}.
Proof.
  intros -> Hp Hsigned Hne; unfold wrap_direct_public_key_symmetric_value_with_identity.
  destruct signed as [s|].
  - destruct Hsigned as [Hs Hi]; unfold u16_try_from; destruct (Z.leb_spec (Z.of_nat (length s)) 65535); [|done].
    cbn [ok_or]; rewrite bind_Ok; cbv zeta; set (flags := if is_some proof then Z.lor _ _ else _); intros E; apply ok_inj in E as <-.
    assert (Hf : flags = if is_some proof then 3 else 2) by by destruct proof.
    unfold unwrap_direct_public_key_payload; rewrite starts_with_app.
    unfold unwrap_direct_public_key_v3; cbv zeta; set (tail := be16 _ ++ s ++ sealed).
    destruct (Nat.leb_spec (length (DIRECT_PUBLIC_KEY_V3_MAGIC ++ [flags] ++ unwrap_or proof [] ++ tail)) (length DIRECT_PUBLIC_KEY_V3_MAGIC)) as [Hl|_].
    { rewrite length_app in Hl; cbn [app length] in Hl; lia. }
    pose proof (index_app DIRECT_PUBLIC_KEY_V3_MAGIC flags (unwrap_or proof [] ++ tail) _ eq_refl) as Hx.
    change (flags :: _ ++ tail) with ([flags] ++ unwrap_or proof [] ++ tail) in Hx; rewrite Hx, bind_Ok; clear Hx.
    replace (negb (Z.ldiff flags _ =? 0)) with false by (rewrite Hf; by destruct (is_some proof)).
    rewrite app_assoc; set (h := DIRECT_PUBLIC_KEY_V3_MAGIC ++ [flags]).
    change (length DIRECT_PUBLIC_KEY_V3_MAGIC + 1)%nat with (length h).
    rewrite read_proof_app by (auto; rewrite Hf; by destruct proof); rewrite bind_Ok.
    rewrite app_assoc, <- length_app; unfold tail.
    assert (0 < Z.of_nat (length s)) by (destruct s; [done|cbn; lia]).
    rewrite (read_initiator_app _ _ _ i) by (try done; rewrite Hf; by destruct proof); rewrite bind_Ok.
    cbn [is_some is_none negb]; rewrite !andb_false_r.
    replace ((h ++ unwrap_or proof []) ++ _) with (((h ++ unwrap_or proof []) ++ be16 (Z.of_nat (length s)) ++ s) ++ sealed)
      by (by rewrite <- !app_assoc).
    rewrite (proj2 (Nat.leb_gt _ _)) by (rewrite !length_app; destruct sealed; [done|cbn; lia]).
    rewrite slice_from_app by (rewrite !length_app; cbn; lia); by rewrite bind_Ok.
  - intros E; apply ok_inj in E as <-; unfold wrap_direct_public_key_symmetric_value, unwrap_direct_public_key_payload.
    destruct proof as [p|].
    + rewrite starts_with_other by done; cbn [is_some is_none negb orb]; specialize (Hp p eq_refl).
      rewrite starts_with_app; cbn [negb]; rewrite orb_false_r.
      rewrite (proj2 (Nat.leb_gt _ _)) by (rewrite !length_app, Hp; destruct sealed; [done|cbn [length]; lia]).
      rewrite slice_app by (rewrite ?Hp; done); rewrite bind_Ok, array_id, bind_Ok by done.
      rewrite app_assoc, slice_from_app by (rewrite !length_app, Hp; done); by rewrite bind_Ok.
    + by rewrite Hsigned.
Qed.
End round_trips.

(** What the proof hashes determines every part: a proof is for one host, one
    session of it, and one viewer. *)
Lemma pairing_proof_input_inj derived derived' id id' a a' b b' c c' :
  length derived = length derived' -> length a = length a' -> length b = length b' -> length c = length c' ->
  pairing_proof_input derived id a b c = pairing_proof_input derived' id' a' b' c' ->
  derived = derived' /\ id = id' /\ a = a' /\ b = b' /\ c = c'.
Proof.
  intros Hd Ha Hb Hc E; unfold pairing_proof_input in E; apply app_inv_head in E.
  apply app_inj_1 in E as [-> E]; [|done]; rewrite !app_assoc in E.
  apply app_inj_2 in E as [E ->]; [|done]; apply app_inj_2 in E as [E ->]; [|done].
  apply app_inj_2 in E as [E ->]; [|done]; by apply (inj as_bytes) in E.
Qed.

(** ** Concrete primitives

    A signature that is the secret key's public half and padding, and a message
    written field by field, stand in for the libraries in the examples. *)

Fixpoint escape (l : bytes) : bytes := match l with [] => [0] | b :: l => 1 :: b :: escape l end.
Fixpoint unescape (l : bytes) : option (bytes * bytes) :=
  match l with
  | 0 :: t => Some ([], t)
  | 1 :: b :: t => '(l, t) ← unescape t; Some (b :: l, t)
  | _ => None
  end.
Lemma unescape_escape l t : unescape (escape l ++ t) = Some (l, t).
Proof. induction l as [|b l IH]; [done|]; cbn; by rewrite IH. Qed.
Lemma length_escape l : (length l <= length (escape l))%nat.
Proof. induction l as [|b l IH]; cbn; lia. Qed.

#[local] Obligation Tactic := idtac.
#[export] Program Instance plain_signing : Signing :=
  {| sign m sk := resize 64 0 (drop 32 sk) ++ m;
     verify s pk := if bool_decide (take 64 s = resize 64 0 pk) then Some (drop 64 s) else None;
     key_pair pk sk := pk = drop 32 sk |}.
Next Obligation.
  intros m pk sk ->; cbn beta; rewrite bool_decide_true; [f_equal; apply drop_app_length'|apply take_app_length'];
    by rewrite length_resize.
Qed.
Next Obligation. intros m sk; cbn beta; by rewrite length_app, length_resize. Qed.

#[export] Program Instance plain_codec : IdPkCodec :=
  {| write_to_bytes p := escape (as_bytes (id_ p)) ++ escape (pk_ p) ++ le_bytes 4 (secure_channel_ p);
     parse_from_bytes l :=
       match unescape l with
       | Some (id, l) => match unescape l with
                         | Some (pk, l) => inl {| id_ := of_bytes id; pk_ := pk; secure_channel_ := of_le l |}
                         | None => inr "bad key"%string
                         end
       | None => inr "bad id"%string
       end |}.
Next Obligation.
  intros [i k c] Hk Hc; cbn [id_ pk_ secure_channel_] in *; rewrite !unescape_escape, of_le_bytes, of_bytes_as_bytes.
  do 2 f_equal; apply Z.mod_small; unfold u32_max in Hc; cbn; lia.
Qed.
Next Obligation.
  intros [i k c]; cbn [id_ pk_ secure_channel_]; rewrite !length_app; pose proof (length_escape k); lia.
Qed.

#[export] Instance plain_derivation : KeyDerivation := {| derive_key p s := Some (resize 32 0 (p ++ s)) |}.

(** ** The properties *)

(** C10. Whatever bytes a peer sends, reading them never panics, and what is read
    is well formed: the keys have their length, a salt is there exactly when
    pairing is required, a certificate is not empty and at most 16 KiB, and the
    id, the box key and the channel come from a message verified under the very
    signing key that is returned. *)
Theorem decoders_are_typed `{Signing} `{IdPkCodec} payload key required :
  returns direct_ok (decode_direct_id_pk payload) /\
  returns (secure_ok key) (decode_secure_signed_id payload key) /\
  returns (payload_ok required) (unwrap_direct_public_key_payload payload required).
Proof. split; [apply returns_direct|split; [apply returns_secure|apply returns_unwrap]]. Qed.

(** The identity a host signs is read back as it was meant, in the format
    of a direct connection, of a connection through a rendezvous server, and with
    a QUIC certificate. *)
Theorem host_identity_read_back `{Signing} `{IdPkCodec} (id : string) box_pk key sk salt channel
    (I : identity_inputs box_pk key sk salt channel)
    (D : salt = None -> no_magic key = true)
    (S : salt = None -> starts_with SECURE_SIGNED_ID_V2_MAGIC (encode_id_pk id box_pk channel) = false) :
  decode_direct_id_pk (create_host_signed_id true id box_pk key sk salt channel) =
    Ok {| id := id; sign_pk := key; box_pk := box_pk; pairing_required := is_some salt; pairing_salt := salt;
          supports_paired_viewer_identity := is_some salt; quic_certificate_der := None; secure_channel := channel |} /\
  decode_secure_signed_id (create_host_signed_id false id box_pk key sk salt channel) key =
    Ok {| s_id := id; s_box_pk := box_pk; s_pairing_required := is_some salt; s_pairing_salt := salt;
          s_supports_paired_viewer_identity := is_some salt; s_quic_certificate_der := None; s_secure_channel := channel |} /\
  forall cert payload, channel = 0 -> create_direct_signed_id_v3 id box_pk key sk salt cert = Ok payload ->
    decode_direct_id_pk payload =
    Ok {| id := id; sign_pk := key; box_pk := box_pk; pairing_required := is_some salt; pairing_salt := salt;
          supports_paired_viewer_identity := true; quic_certificate_der := Some cert; secure_channel := 0 |}.
Proof.
  split; [|split; [|intros cert payload -> E; by eapply decode_v3]].
  - unfold create_host_signed_id; destruct salt as [s|].
    + unfold sign_direct_id_with_pairing; rewrite decode_v2_tag; by apply decode_v2.
    + unfold sign_direct_id; rewrite decode_v1_tag by (auto; apply I); by apply decode_v1.
  - unfold create_host_signed_id; destruct salt as [s|]; [by apply decode_secure_v2|].
    apply decode_secure_v1; auto.
Qed.

(** What a viewer wraps in its answer, the host reads: the sealed key, the
    pairing proof and the viewer's identity. *)
Theorem answer_read_back `{Signing} `{IdPkCodec} sealed proof signed i required payload :
  required = is_some proof || is_some signed ->
  (forall p, proof = Some p -> length p = DIRECT_PAIRING_PROOF_LEN) ->
  match signed with
  | Some s => s <> [] /\ decode_direct_id_pk s = Ok i
  | None => starts_with DIRECT_PUBLIC_KEY_V3_MAGIC sealed = false
  end ->
  sealed <> [] ->
  wrap_direct_public_key_symmetric_value_with_identity sealed proof signed = Ok payload ->
  unwrap_direct_public_key_payload payload required =
  Ok {| pairing_proof := proof; initiator := initiator_of signed i; symmetric_value := sealed |}.
Proof. apply unwrap_wrap. Qed.

(** ** Witnesses *)

Definition example_key (n : Z) : bytes := replicate 32 n.
Definition example_secret (n : Z) : bytes := replicate 32 0 ++ example_key n.
Definition example_salt : bytes := replicate 16 9.

Lemma example_inputs salt : (forall s, salt = Some s -> length s = SALTBYTES) ->
  identity_inputs (example_key 5) (example_key 7) (example_secret 7) salt 0.
Proof. intros; constructor; try done; vm_compute; try done; repeat constructor; done. Qed.

Lemma host_identity_read_back_witness :
  decode_direct_id_pk (create_host_signed_id true "host" (example_key 5) (example_key 7) (example_secret 7) (Some example_salt) 0) =
    Ok {| id := "host"; sign_pk := example_key 7; box_pk := example_key 5; pairing_required := true;
          pairing_salt := Some example_salt; supports_paired_viewer_identity := true;
          quic_certificate_der := None; secure_channel := 0 |} /\
  decode_secure_signed_id (create_host_signed_id false "host" (example_key 5) (example_key 7) (example_secret 7) None 0) (example_key 7) =
    Ok {| s_id := "host"; s_box_pk := example_key 5; s_pairing_required := false; s_pairing_salt := None;
          s_supports_paired_viewer_identity := false; s_quic_certificate_der := None; s_secure_channel := 0 |}.
Proof.
  split.
  - apply (host_identity_read_back "host" (example_key 5) (example_key 7) (example_secret 7) (Some example_salt) 0).
    + apply example_inputs; by intros s [= <-].
    + discriminate.
    + discriminate.
  - apply (host_identity_read_back "host" (example_key 5) (example_key 7) (example_secret 7) None 0).
    + by apply example_inputs.
    + reflexivity.
    + reflexivity.
Defined.

Definition example_viewer : bytes := create_direct_signed_id "viewer" (example_key 5) (example_key 7) (example_secret 7).
Definition example_viewer_id : DirectSignedId :=
  {| id := "viewer"; sign_pk := example_key 7; box_pk := example_key 5; pairing_required := false; pairing_salt := None;
     supports_paired_viewer_identity := false; quic_certificate_der := None; secure_channel := 0 |}.
Definition example_payload : bytes :=
  DIRECT_PUBLIC_KEY_V3_MAGIC ++ [3] ++ example_key 1 ++ be16 (Z.of_nat (length example_viewer)) ++ example_viewer ++ [1; 2; 3].

Lemma answer_read_back_witness :
  unwrap_direct_public_key_payload example_payload true =
  Ok {| pairing_proof := Some (example_key 1); initiator := Some example_viewer_id; symmetric_value := [1; 2; 3] |}.
Proof.
  apply (answer_read_back [1; 2; 3] (Some (example_key 1)) (Some example_viewer) example_viewer_id true example_payload).
  - reflexivity.
  - intros p [= <-]; reflexivity.
  - split; [discriminate|vm_compute; reflexivity].
  - discriminate.
  - vm_compute; reflexivity.
Defined.
