(* ===== verification/PeerTrust.v ===== *)
(** * What the viewer trusts of a peer

    Models the viewer's memory of the peers it has connected to, of src/src/
    common.rs: the signing key pinned for a peer and what may replace it, and the
    confirmation that a peer accepts this viewer without its passphrase, which
    lasts thirty days.  Both are options of the peer's configuration; loading and
    storing a configuration is outside, and is a map from ids to options here.
    The key an administrator has distributed for a peer
    ([Config::get_bootstrap_trusted_peer_key]) is a parameter, and so is Base64. *)

From S2P Require Import Prelude ClipboardTypes Fingerprint SignedIdentity.
From Stdlib Require Import Ascii.
From Stdlib Require String.
From stdpp Require Import pretty.
#[local] Open Scope list_scope.
#[local] Open Scope Z_scope.

Abbreviation bytes := (list Z) (only parsing).
Abbreviation result := (outcome string) (only parsing).

(** The crate [base64]. *)
Class Base64 := {
  encode64 : bytes -> string;
  decode64 : string -> bytes + string;
  decode_encode l : Forall is_byte l -> decode64 (encode64 l) = inl l;
  encode_nonempty l : l <> [] -> encode64 l <> ""%string;
}.

Definition PEER_OPTION_PINNED_SIGNING_KEY : string := "pinned-signing-key".
Definition PEER_OPTION_DIRECT_PAIRED_VIEWER_CONFIRMED : string := "direct-paired-viewer-confirmed".
Definition PEER_OPTION_RENDEZVOUS_PAIRED_VIEWER_CONFIRMED : string := "rendezvous-paired-viewer-confirmed".
Definition DIRECT_PAIRING_SCOPE : string := "direct".
Definition RENDEZVOUS_PAIRING_SCOPE : string := "rendezvous".
Definition PAIRED_VIEWER_CONFIRMATION_TTL_MS : Z := 30 * 24 * 60 * 60 * 1000.

(** [PeerConfig::options] of every peer. *)
Abbreviation Options := (gmap string string).
Abbreviation Peers := (gmap string Options).
Definition load (peers : Peers) (peer_config_id : string) : Options := unwrap_or (peers !! peer_config_id) ∅.
Definition store (peer_config_id : string) (o : Options) (peers : Peers) : Peers := <[peer_config_id := o]> peers.

Inductive TrustedPeerSigningKeyStatus :=
| Trusted
| Missing
| Changed (expected_fingerprint actual_fingerprint : string)
| InvalidPinnedKey (reason : string).

(** [Option::filter(|v| !v.is_empty())] *)
Definition non_empty (o : option string) : option string :=
  match o with Some s => if bool_decide (s = ""%string) then None else Some s | None => None end.

Section keys.
Context `{Base64}.
Variable get_bootstrap_trusted_peer_key : string -> string.

Definition encode_pinned_peer_signing_key (pk : bytes) : string := encode64 pk.
Definition decode_pinned_peer_signing_key (value : string) : result bytes :=
  match decode64 value with
  | inl l => Ok l
  | inr e => Err ("Handshake failed: invalid pinned peer signing key: " +:+ e)%string
  end.

Definition changed_text (what expected actual : string) : string :=
  ("Handshake failed: " +:+ what +:+ " (expected " +:+ expected +:+ ", got " +:+ actual +:+ ")")%string.

Definition validate_pinned_peer_signing_key (pinned_key : option string) (pk : bytes) : result bool :=
  match non_empty pinned_key with
  | None => Ok true
  | Some pinned_key =>
      expected ← decode_pinned_peer_signing_key pinned_key;
      if negb (bool_decide (expected = pk))
      then Err (changed_text "peer identity changed" (pk_to_fingerprint expected) (pk_to_fingerprint pk))
      else Ok false
  end.

Definition pinned_peer_signing_key_status (pinned_key : option string) (pk : bytes) : TrustedPeerSigningKeyStatus :=
  match non_empty pinned_key with
  | None => Missing
  | Some pinned_key =>
      match decode64 pinned_key with
      | inr e => InvalidPinnedKey ("Handshake failed: invalid pinned peer signing key: " +:+ e)%string
      | inl expected =>
          if bool_decide (expected = pk) then Trusted
          else Changed (pk_to_fingerprint expected) (pk_to_fingerprint pk)
      end
  end.

Definition trusted_peer_signing_key_status_error (status : TrustedPeerSigningKeyStatus) : option string :=
  match status with
  | Trusted | Missing => None
  | Changed expected actual => Some (changed_text "peer identity changed" expected actual)
  | InvalidPinnedKey reason => Some reason
  end.

Definition validate_bootstrap_trusted_peer_signing_key (trusted_key : string) (pk : bytes) : result unit :=
  if bool_decide (trusted_key = ""%string) then Ok ()
  else
  expected ← with_prefix "Handshake failed: invalid bootstrap trusted peer signing key: "
    (decode_pinned_peer_signing_key trusted_key);
  if negb (bool_decide (expected = pk))
  then Err (changed_text "bootstrap trusted peer identity mismatch" (pk_to_fingerprint expected) (pk_to_fingerprint pk))
  else Ok ().

Definition empty_key_text : string := "Handshake failed: empty peer signing key".

Definition trusted_peer_signing_key_status (peers : Peers) (peer_id peer_config_id : string) (pk : bytes) : result TrustedPeerSigningKeyStatus :=
  if bool_decide (pk = []) then Err empty_key_text
  else
  let bootstrap_key := get_bootstrap_trusted_peer_key peer_id in
  if negb (bool_decide (bootstrap_key = ""%string)) then
    _ ← validate_bootstrap_trusted_peer_signing_key bootstrap_key pk;
    Ok Trusted
  else Ok (pinned_peer_signing_key_status (load peers peer_config_id !! PEER_OPTION_PINNED_SIGNING_KEY) pk).

(** [needs_trusted_peer_signing_key] and [has_trusted_peer_signing_key] answer
    the status, and turn a changed or invalid key into an error. *)
Definition needs_trusted_peer_signing_key (peers : Peers) (peer_id peer_config_id : string) (pk : bytes) : result bool :=
  status ← trusted_peer_signing_key_status peers peer_id peer_config_id pk;
  match status with
  | Trusted => Ok false
  | Missing => Ok true
  | status => match trusted_peer_signing_key_status_error status with Some e => Err e | None => Ok false end
  end.

Definition has_trusted_peer_signing_key (peers : Peers) (peer_id : string) (pk : bytes) : result bool :=
  status ← trusted_peer_signing_key_status peers peer_id peer_id pk;
  match status with
  | Trusted => Ok true
  | Missing => Ok false
  | status => match trusted_peer_signing_key_status_error status with Some e => Err e | None => Ok false end
  end.

Definition needs_pinned_peer_signing_key (peers : Peers) (peer_config_id : string) (pk : bytes) : result bool :=
  if bool_decide (pk = []) then Err empty_key_text
  else validate_pinned_peer_signing_key (load peers peer_config_id !! PEER_OPTION_PINNED_SIGNING_KEY) pk.

Definition pin_peer_signing_key (peer_config_id : string) (pk : bytes) (peers : Peers) : result Peers :=
  if bool_decide (pk = []) then Err empty_key_text
  else
  let config := load peers peer_config_id in
  needs_pin ← validate_pinned_peer_signing_key (config !! PEER_OPTION_PINNED_SIGNING_KEY) pk;
  Ok (if needs_pin : bool
      then store peer_config_id (<[PEER_OPTION_PINNED_SIGNING_KEY := encode_pinned_peer_signing_key pk]> config) peers
      else peers).

Definition pin_trusted_peer_signing_key (peer_id peer_config_id : string) (pk : bytes) (peers : Peers) : result Peers :=
  if bool_decide (pk = []) then Err empty_key_text
  else
  let bootstrap_key := get_bootstrap_trusted_peer_key peer_id in
  if negb (bool_decide (bootstrap_key = ""%string)) then
    _ ← validate_bootstrap_trusted_peer_signing_key bootstrap_key pk;
    Ok peers
  else pin_peer_signing_key peer_config_id pk peers.

Definition ensure_pinned_peer_signing_key (peer_config_id : string) (pk : bytes) (peers : Peers) : result Peers :=
  pin_peer_signing_key peer_config_id pk peers.

Definition trust_peer_signing_key_after_pairing (peer_id peer_config_id : string) (pk : bytes) (peers : Peers) : result Peers :=
  if bool_decide (pk = []) then Err empty_key_text
  else
  let bootstrap_key := get_bootstrap_trusted_peer_key peer_id in
  if negb (bool_decide (bootstrap_key = ""%string)) then
    _ ← validate_bootstrap_trusted_peer_signing_key bootstrap_key pk;
    Ok peers
  else
  let config := load peers peer_config_id in
  let encoded := encode_pinned_peer_signing_key pk in
  let previous := config !! PEER_OPTION_PINNED_SIGNING_KEY in
  Ok (if negb (bool_decide (previous = Some encoded))
      then store peer_config_id (<[PEER_OPTION_PINNED_SIGNING_KEY := encoded]> config) peers
      else peers).
End keys.

(** ** Numbers in options

    [str::parse::<i64>] and [i64::to_string]. *)

Fixpoint parse_digits (l : bytes) (acc : Z) : option Z :=
  match l with
  | [] => Some acc
  | c :: l => if (48 <=? c) && (c <=? 57) then parse_digits l (acc * 10 + (c - 48)) else None
  end.

Definition in_i64 (z : Z) : option Z := if (i64_min <=? z) && (z <=? i64_max) then Some z else None.

Definition parse_i64 (s : string) : option Z :=
  match as_bytes s with
  | [] | [45] | [43] => None
  | 45 :: l => z ← parse_digits l 0; in_i64 (- z)
  | 43 :: l => z ← parse_digits l 0; in_i64 z
  | l => z ← parse_digits l 0; in_i64 z
  end.

Definition i64_to_string (z : Z) : string := pretty z.

(** ** The confirmation that a peer remembers this viewer *)

Definition paired_viewer_confirmed_option (scope : string) : option string :=
  if bool_decide (scope = DIRECT_PAIRING_SCOPE) then Some PEER_OPTION_DIRECT_PAIRED_VIEWER_CONFIRMED
  else if bool_decide (scope = RENDEZVOUS_PAIRING_SCOPE) then Some PEER_OPTION_RENDEZVOUS_PAIRED_VIEWER_CONFIRMED
  else None.

Definition is_paired_viewer_confirmation_current (value : string) (now : Z) : bool :=
  if bool_decide (value = "Y"%string) then true
  else match parse_i64 value with
       | None => false
       | Some confirmed_at =>
           (0 <? confirmed_at)
           && ((now <=? confirmed_at) || (i64_sat (now - confirmed_at) <=? PAIRED_VIEWER_CONFIRMATION_TTL_MS))
       end.

Definition set_confirmed_paired_viewer (scope peer_config_id : string) (confirmed : bool) (now : Z) (peers : Peers) : Peers :=
  match paired_viewer_confirmed_option scope with
  | None => peers
  | Some option =>
      let config := load peers peer_config_id in
      if confirmed then
        let value := i64_to_string now in
        if bool_decide (config !! option = Some value) then peers
        else store peer_config_id (<[option := value]> config) peers
      else if is_some (config !! option) then store peer_config_id (delete option config) peers
      else peers
  end.

(** The answer, and the configurations after it: the old value [Y] is rewritten. *)
Definition has_confirmed_paired_viewer (scope peer_config_id : string) (now : Z) (peers : Peers) : bool * Peers :=
  match paired_viewer_confirmed_option scope with
  | None => (false, peers)
  | Some option =>
      match load peers peer_config_id !! option with
      | None => (false, peers)
      | Some value =>
          if bool_decide (value = "Y"%string) then (true, set_confirmed_paired_viewer scope peer_config_id true now peers)
          else (is_paired_viewer_confirmation_current value now, peers)
      end
  end.

Definition has_confirmed_direct_paired_viewer := has_confirmed_paired_viewer DIRECT_PAIRING_SCOPE.
Definition set_confirmed_direct_paired_viewer := set_confirmed_paired_viewer DIRECT_PAIRING_SCOPE.
Definition has_confirmed_rendezvous_paired_viewer := has_confirmed_paired_viewer RENDEZVOUS_PAIRING_SCOPE.
Definition set_confirmed_rendezvous_paired_viewer := set_confirmed_paired_viewer RENDEZVOUS_PAIRING_SCOPE.

(** ** Pinning *)

Lemma non_empty_some o s : non_empty o = Some s <-> o = Some s /\ s <> ""%string.
Proof. destruct o as [t|]; cbn; [case_bool_decide|]; naive_solver. Qed.

Section pinning.
Context `{Base64}.
Variable bootstrap : string -> string.

Lemma pinned_status_encoded o pk : Forall is_byte pk -> pk <> [] ->
  o = Some (encode_pinned_peer_signing_key pk) -> pinned_peer_signing_key_status o pk = Trusted.
Proof.
  intros Hb Hne ->; unfold pinned_peer_signing_key_status, encode_pinned_peer_signing_key.
  rewrite (proj2 (non_empty_some _ (encode64 pk))) by (by split; [|apply encode_nonempty]).
  by rewrite decode_encode, bool_decide_true.
Qed.

Lemma validate_bootstrap_ok k pk u : k <> ""%string ->
  validate_bootstrap_trusted_peer_signing_key k pk = Ok u -> decode64 k = inl pk.
Proof.
  intros Hk; unfold validate_bootstrap_trusted_peer_signing_key, decode_pinned_peer_signing_key.
  rewrite bool_decide_false by done; destruct (decode64 k) as [e|]; [|done]; cbn.
  by case_bool_decide; [subst|].
Qed.

(** A key is trusted exactly when it is the one distributed for the peer or, if
    none is, the one pinned for it. *)
Lemma status_trusted peers peer_id cfg pk :
  trusted_peer_signing_key_status bootstrap peers peer_id cfg pk = Ok Trusted <->
  pk <> [] /\
  if bool_decide (bootstrap peer_id = ""%string)
  then exists s, load peers cfg !! PEER_OPTION_PINNED_SIGNING_KEY = Some s /\ s <> ""%string /\ decode64 s = inl pk
  else decode64 (bootstrap peer_id) = inl pk.
Proof.
  unfold trusted_peer_signing_key_status; case_bool_decide as Hpk; [naive_solver|].
  case_bool_decide as Hb; cbn [negb].
  - unfold pinned_peer_signing_key_status; destruct (non_empty _) as [s|] eqn:E.
    + apply non_empty_some in E as [E Hne]; destruct (decode64 s) as [e|e] eqn:Es.
      * case_bool_decide; [subst|]; split; try done; [by intros _; split; [|exists s]|].
        intros (_ & s' & Hs' & _ & Hd); congruence.
      * split; [done|]; intros (_ & s' & Hs' & _ & Hd); congruence.
    + split; [done|]; intros (_ & s' & Hs' & Hne & Hd).
      assert (non_empty (Some s') = Some s') as E' by (by apply non_empty_some); congruence.
  - split.
    + intros E; split; [done|]; destruct (validate_bootstrap_trusted_peer_signing_key _ _) as [u| |] eqn:Ev; try done.
      by eapply validate_bootstrap_ok.
    + intros [_ Hd]; unfold validate_bootstrap_trusted_peer_signing_key, decode_pinned_peer_signing_key.
      rewrite bool_decide_false, Hd by done; cbn; by rewrite bool_decide_true.
Qed.

Definition pinned_with (cfg : string) (pk : bytes) (peers : Peers) : Peers :=
  store cfg (<[PEER_OPTION_PINNED_SIGNING_KEY := encode_pinned_peer_signing_key pk]> (load peers cfg)) peers.

Lemma load_store cfg o peers : load (store cfg o peers) cfg = o.
Proof. unfold load, store; by rewrite lookup_insert_eq. Qed.
Lemma load_store_ne cfg cfg' o peers : cfg <> cfg' -> load (store cfg o peers) cfg' = load peers cfg'.
Proof. intros; unfold load, store; by rewrite lookup_insert_ne. Qed.

Lemma status_pinned peers peer_id cfg pk : pk <> [] -> Forall is_byte pk -> bootstrap peer_id = ""%string ->
  trusted_peer_signing_key_status bootstrap (pinned_with cfg pk peers) peer_id cfg pk = Ok Trusted.
Proof.
  intros Hne Hb He; unfold trusted_peer_signing_key_status; rewrite bool_decide_false, He by done; cbn [negb bool_decide_pack].
  rewrite bool_decide_true by done; cbn [negb]; f_equal; apply pinned_status_encoded; [done..|].
  unfold pinned_with; by rewrite load_store, lookup_insert_eq.
Qed.

(** Pinning writes a key only where none is: a pin that differs is an error. *)
Lemma pin_spec peer_id cfg pk peers peers' :
  pin_trusted_peer_signing_key bootstrap peer_id cfg pk peers = Ok peers' ->
  (trusted_peer_signing_key_status bootstrap peers peer_id cfg pk = Ok Trusted /\ peers' = peers) \/
  (trusted_peer_signing_key_status bootstrap peers peer_id cfg pk = Ok Missing /\ peers' = pinned_with cfg pk peers).
Proof.
  unfold pin_trusted_peer_signing_key, trusted_peer_signing_key_status; case_bool_decide; [done|].
  case_bool_decide as Hb; cbn [negb].
  - unfold pin_peer_signing_key, validate_pinned_peer_signing_key, pinned_peer_signing_key_status.
    rewrite bool_decide_false by done.
    destruct (non_empty _) as [s|]; [|intros E; right; split; [done|by injection E]].
    unfold decode_pinned_peer_signing_key; destruct (decode64 s) as [e|]; [|done]; cbn.
    case_bool_decide; cbn; [|done]; intros [= <-]; by left.
  - destruct (validate_bootstrap_trusted_peer_signing_key _ _); try done; cbn; intros [= <-]; by left.
Qed.

(** After a pairing the key is pinned whatever was pinned before. *)
Lemma trust_after_pairing_spec peer_id cfg pk peers peers' :
  trust_peer_signing_key_after_pairing bootstrap peer_id cfg pk peers = Ok peers' ->
  if bool_decide (bootstrap peer_id = ""%string)
  then peers' = peers /\ load peers cfg !! PEER_OPTION_PINNED_SIGNING_KEY = Some (encode_pinned_peer_signing_key pk)
       \/ peers' = pinned_with cfg pk peers
  else peers' = peers /\ decode64 (bootstrap peer_id) = inl pk.
Proof.
  unfold trust_peer_signing_key_after_pairing; case_bool_decide; [done|].
  case_bool_decide as Hb; cbn [negb].
  - intros E; injection E as <-; case_bool_decide; cbn [negb]; [by left|by right].
  - destruct (validate_bootstrap_trusted_peer_signing_key _ _) eqn:Ev; try done; cbn; intros [= <-].
    split; [done|by eapply validate_bootstrap_ok].
Qed.

Lemma trusted_after_pin peer_id cfg pk peers peers' : Forall is_byte pk ->
  pin_trusted_peer_signing_key bootstrap peer_id cfg pk peers = Ok peers' ->
  trusted_peer_signing_key_status bootstrap peers' peer_id cfg pk = Ok Trusted.
Proof.
  intros Hb E; destruct (pin_spec _ _ _ _ _ E) as [[Ht ->]|[Hm ->]]; [done|].
  unfold trusted_peer_signing_key_status in Hm; case_bool_decide; [done|]; case_bool_decide as He; cbn [negb] in Hm.
  - by apply status_pinned.
  - destruct (validate_bootstrap_trusted_peer_signing_key _ _); done.
Qed.

Lemma trusted_after_pairing peer_id cfg pk peers peers' : Forall is_byte pk ->
  trust_peer_signing_key_after_pairing bootstrap peer_id cfg pk peers = Ok peers' ->
  trusted_peer_signing_key_status bootstrap peers' peer_id cfg pk = Ok Trusted.
Proof.
  intros Hb E; assert (Hne : pk <> []) by (by unfold trust_peer_signing_key_after_pairing in E; case_bool_decide).
  pose proof (trust_after_pairing_spec _ _ _ _ _ E) as Hs; case_bool_decide as He.
  - destruct Hs as [[-> Hl]| ->]; [|by apply status_pinned].
    apply status_trusted; rewrite bool_decide_true by done; split; [done|].
    eexists; split; [done|split; [by apply encode_nonempty|by apply decode_encode]].
  - destruct Hs as [-> Hd]; apply status_trusted; by rewrite bool_decide_false.
Qed.
End pinning.

(** ** Thirty days *)

Lemma byte_of_digit n : (n < 10)%N -> byte_of (pretty_N_char n) = 48 + Z.of_N n.
Proof.
  intros Hn; assert (Hall : Forall (fun k => byte_of (pretty_N_char (N.of_nat k)) = 48 + Z.of_nat k) (seq 0 10))
    by (repeat constructor).
  rewrite Forall_forall in Hall; specialize (Hall (N.to_nat n)); rewrite N2Nat.id in Hall.
  rewrite Hall by (apply elem_of_seq; lia); lia.
Qed.

Lemma parse_digits_go x s : parse_digits (as_bytes (pretty_N_go x s)) 0 = parse_digits (as_bytes s) (Z.of_N x).
Proof.
  revert s; induction (N.lt_wf_0 x) as [x _ IH]; intros s; destruct (decide (0 < x)%N) as [Hx|Hx].
  - rewrite pretty_N_go_step, IH by (try done; apply N.div_lt; lia).
    unfold as_bytes; cbn [String.list_ascii_of_string fmap list_fmap parse_digits].
    pose proof (N.mod_lt x 10 ltac:(lia)); rewrite byte_of_digit by done; pose proof (N.div_mod x 10 ltac:(lia)).
    set (d := (x `mod` 10)%N) in *; set (q := (x `div` 10)%N) in *; clearbody d q.
    destruct (Z.leb_spec 48 (48 + Z.of_N d)), (Z.leb_spec (48 + Z.of_N d) 57); [|lia..]; cbn [andb].
    f_equal; lia.
  - assert (x = 0%N) as -> by lia; by rewrite pretty_N_go_0.
Qed.

Lemma digits_of_positive z : 0 < z -> exists c l, as_bytes (pretty z) = c :: l /\ 48 <= c <= 57 /\ parse_digits (c :: l) 0 = Some z.
Proof.
  intros Hz; assert (E : pretty z = pretty_N_go (Z.to_N z) "") by (destruct z; try lia; done).
  pose proof (parse_digits_go (Z.to_N z) "") as Hp; rewrite <- E, Z2N.id in Hp by lia; cbn in Hp.
  destruct (as_bytes (pretty z)) as [|c l]; [injection Hp; lia|]; exists c, l; split; [done|]; split; [|done].
  cbn [parse_digits] in Hp; destruct (Z.leb_spec 48 c), (Z.leb_spec c 57); try done; lia.
Qed.

Lemma parse_to_string z : 0 < z <= i64_max -> parse_i64 (i64_to_string z) = Some z.
Proof.
  intros Hz; destruct (digits_of_positive z) as (c & l & E & Hc & Hp); [lia|].
  unfold parse_i64, i64_to_string; rewrite E.
  assert (parse_digits (c :: l) 0 ≫= in_i64 = Some z) as Hs.
  { rewrite Hp; cbn; unfold in_i64, i64_min; destruct (Z.leb_spec (-9223372036854775808) z), (Z.leb_spec z i64_max); cbn; first [done|lia]. }
  assert (c = 48 \/ c = 49 \/ c = 50 \/ c = 51 \/ c = 52 \/ c = 53 \/ c = 54 \/ c = 55 \/ c = 56 \/ c = 57) as Hcs by lia.
  by destruct l; repeat destruct Hcs as [->|Hcs]; try subst c.
Qed.

Lemma not_y z : 0 < z -> i64_to_string z <> "Y"%string.
Proof.
  intros Hz E; destruct (digits_of_positive z Hz) as (c & l & E' & Hc & _); unfold i64_to_string in E.
  rewrite E in E'; change (as_bytes "Y") with [89] in E'; injection E'; lia.
Qed.

(** A confirmation lasts thirty days, and while the clock is behind it. *)
Lemma confirmation_lasts scope option cfg t now peers :
  paired_viewer_confirmed_option scope = Some option -> 0 < t <= i64_max -> 0 <= now <= i64_max ->
  has_confirmed_paired_viewer scope cfg now (set_confirmed_paired_viewer scope cfg true t peers) =
  (now <=? t + PAIRED_VIEWER_CONFIRMATION_TTL_MS, set_confirmed_paired_viewer scope cfg true t peers).
Proof.
  intros Ho Ht Hn; unfold has_confirmed_paired_viewer, set_confirmed_paired_viewer; rewrite Ho; cbv zeta.
  assert (Hl : load (if bool_decide (load peers cfg !! option = Some (i64_to_string t)) then peers
                     else store cfg (<[option:=i64_to_string t]> (load peers cfg)) peers) cfg !! option = Some (i64_to_string t)).
  { case_bool_decide; [done|]; by rewrite load_store, lookup_insert_eq. }
  rewrite Hl, bool_decide_false by (apply not_y; lia); f_equal.
  unfold is_paired_viewer_confirmation_current; rewrite bool_decide_false by (apply not_y; lia).
  rewrite parse_to_string by done; unfold i64_sat, i64_min, i64_max, PAIRED_VIEWER_CONFIRMATION_TTL_MS in *; lia.
Qed.

(** ** The properties *)

(** Pinning a key never replaces another: it succeeds only for a key that is
    already trusted, which changes nothing, or for a peer that has no pin, which
    then has this one; the other options and peers are left alone.  A changed
    key can only be accepted by way of a pairing. *)
Theorem pinning_is_conservative `{Base64} (bootstrap : string -> string) peer_id cfg pk peers peers' :
  Forall is_byte pk -> pin_trusted_peer_signing_key bootstrap peer_id cfg pk peers = Ok peers' ->
  trusted_peer_signing_key_status bootstrap peers' peer_id cfg pk = Ok Trusted /\
  (trusted_peer_signing_key_status bootstrap peers peer_id cfg pk = Ok Trusted /\ peers' = peers \/
   trusted_peer_signing_key_status bootstrap peers peer_id cfg pk = Ok Missing /\
   (forall cfg', cfg' <> cfg -> load peers' cfg' = load peers cfg') /\
   (forall o, o <> PEER_OPTION_PINNED_SIGNING_KEY -> load peers' cfg !! o = load peers cfg !! o)).
Proof.
  intros Hb E; split; [by eapply trusted_after_pin|].
  destruct (pin_spec _ _ _ _ _ _ E) as [|[Hm ->]]; [by left|right]; unfold pinned_with; split; [done|split].
  - intros cfg' Hne; by rewrite load_store_ne.
  - intros o Ho; by rewrite load_store, lookup_insert_ne.
Qed.

(** ** A concrete encoding and a witness *)

#[local] Obligation Tactic := idtac.
#[export] Program Instance plain_base64 : Base64 := {| encode64 := of_bytes; decode64 s := inl (as_bytes s) |}.
Next Obligation. intros l Hl; cbn beta; by rewrite as_bytes_of_bytes. Qed.
Next Obligation. intros [|b l]; done. Qed.

Lemma pinning_is_conservative_witness :
  let peers : Peers := {["host" := {["alias" := "desk"]}]} in
  let peers' := pinned_with "host" [1; 2; 3] peers in
  trusted_peer_signing_key_status (fun _ => "") peers' "host" "host" [1; 2; 3] = Ok Trusted /\
  load peers' "host" !! "alias"%string = Some "desk"%string.
Proof.
  set (peers := {["host" := {["alias" := "desk"]}]}).
  destruct (pinning_is_conservative (fun _ => "") "host" "host" [1; 2; 3] peers (pinned_with "host" [1; 2; 3] peers))
    as [T [[M _]|(_ & _ & O)]].
  - unfold is_byte; repeat (apply Forall_cons; split; [lia|]); apply Forall_nil_2.
  - vm_compute; reflexivity.
  - exfalso; vm_compute in M; discriminate.
  - split; [exact T|]; cbv zeta; rewrite O by discriminate; vm_compute; reflexivity.
Defined.
