(* ===== verification/LanDiscovery.v ===== *)
(** * Discovery on the local network

    Models the signed texts by which peers find each other on a local network, of
    src/src/common.rs: a ping and the answer to it carry, as JSON, a nonce, a
    signing key and a signature over everything the reader is going to rely on.
    JSON is outside: it is the class [Json], an object being the map of its
    fields; Base64 and signatures are those of the files PeerTrust and
    SignedIdentity. *)

From S2P Require Import Prelude ClipboardTypes Fingerprint SignedIdentity PeerTrust.
From Stdlib Require Import Ascii.
From Stdlib Require String.
#[local] Open Scope list_scope.
#[local] Open Scope Z_scope.

Abbreviation bytes := (list Z) (only parsing).
Abbreviation result := (outcome string) (only parsing).

Definition LAN_DISCOVERY_AUTH_MAGIC : bytes := Eval vm_compute in as_bytes "rustdesk-lan-discovery-v1".
Definition LAN_DISCOVERY_PING_AUTH_MAGIC : bytes := Eval vm_compute in as_bytes "rustdesk-lan-ping-v1".
Definition LAN_DISCOVERY_AUTH_VERSION : Z := 1.
Definition LAN_DISCOVERY_NONCE_LEN : nat := 16.

(** [serde_json]: the values the code looks at, an object and its text.  What is
    not an object has no fields. *)
Inductive Value := Number (n : Z) | Text (s : string) | Else.
Abbreviation Object := (gmap string Value).
Class Json := {
  to_string : Object -> string;
  from_str : string -> option Object;
  from_to o : from_str (to_string o) = Some o;
}.

(** [value.get(k).and_then(Value::as_u64)], and [as_str]. *)
Definition as_u64 (v : Value) : option Z :=
  match v with Number n => if (0 <=? n) && (n <=? u64_max) then Some n else None | _ => None end.
Definition as_str (v : Value) : option string := match v with Text s => Some s | _ => None end.

(** The message [PeerDiscovery]. *)
Record PeerDiscovery := { id : string; username : string; hostname : string; platform : string; mac : string; misc : string }.

Definition append_len_prefixed_bytes (out l : bytes) : bytes :=
  out ++ le_bytes 4 (wrap_u32 (Z.of_nat (length l))) ++ l.
Definition append_len_prefixed_str (out : bytes) (value : string) : bytes := append_len_prefixed_bytes out (as_bytes value).

Definition build_lan_discovery_signed_payload (peer : PeerDiscovery) (nonce : string) : bytes :=
  let out := LAN_DISCOVERY_AUTH_MAGIC ++ le_bytes 8 LAN_DISCOVERY_AUTH_VERSION in
  let out := append_len_prefixed_str out nonce in
  let out := append_len_prefixed_str out (id peer) in
  let out := append_len_prefixed_str out (username peer) in
  let out := append_len_prefixed_str out (hostname peer) in
  let out := append_len_prefixed_str out (platform peer) in
  append_len_prefixed_str out (mac peer).

Definition build_lan_discovery_ping_signed_payload (peer_id : string) (sign_pk : bytes) (nonce : string) : bytes :=
  let out := LAN_DISCOVERY_PING_AUTH_MAGIC ++ le_bytes 8 LAN_DISCOVERY_AUTH_VERSION in
  let out := append_len_prefixed_str out nonce in
  let out := append_len_prefixed_str out peer_id in
  append_len_prefixed_bytes out sign_pk.

Record LanDiscoveryPingRequest := { r_nonce : string; r_id : string; r_sign_pk : bytes }.

(** The modes of discovery, and what they answer. *)
Definition LAN_DISCOVERY_MODE_OFF : string := "off".
Definition LAN_DISCOVERY_MODE_TRUSTED_ONLY : string := "trusted-only".
Definition LAN_DISCOVERY_MODE_STANDARD : string := "standard".

Definition normalize_lan_discovery_mode (value : string) : string :=
  if bool_decide (value = LAN_DISCOVERY_MODE_OFF) then LAN_DISCOVERY_MODE_OFF
  else if bool_decide (value = LAN_DISCOVERY_MODE_TRUSTED_ONLY) then LAN_DISCOVERY_MODE_TRUSTED_ONLY
  else LAN_DISCOVERY_MODE_STANDARD.

(** From the option of the mode and the older switch. *)
Definition get_lan_discovery_mode (mode_option : string) (enabled : bool) : string :=
  if negb (bool_decide (mode_option = ""%string)) then normalize_lan_discovery_mode mode_option
  else if enabled then LAN_DISCOVERY_MODE_STANDARD else LAN_DISCOVERY_MODE_OFF.
Definition lan_discovery_is_enabled (mode_option : string) (enabled : bool) : bool :=
  negb (bool_decide (get_lan_discovery_mode mode_option enabled = LAN_DISCOVERY_MODE_OFF)).
Definition lan_discovery_replies_to_unknown_peers (mode_option : string) (enabled : bool) : bool :=
  bool_decide (get_lan_discovery_mode mode_option enabled = LAN_DISCOVERY_MODE_STANDARD).

Section discovery.
Context `{Json} `{Base64} `{Signing}.

(** ** Writing *)

Definition create_lan_discovery_ping_misc_with_keys (peer_id nonce : string) (sign_pk sign_sk : bytes) : string :=
  let signed := sign (build_lan_discovery_ping_signed_payload peer_id sign_pk nonce) sign_sk in
  to_string (<["v" := Number LAN_DISCOVERY_AUTH_VERSION]> (<["nonce" := Text nonce]> (<["id" := Text peer_id]>
    (<["pk" := Text (encode64 sign_pk)]> {["proof" := Text (encode64 signed)]}))))%string.

Definition create_lan_discovery_response_misc_with_keys (peer : PeerDiscovery) (nonce : string) (sign_pk sign_sk : bytes) : string :=
  let signed := sign (build_lan_discovery_signed_payload peer nonce) sign_sk in
  to_string (<["v" := Number LAN_DISCOVERY_AUTH_VERSION]> (<["nonce" := Text nonce]>
    (<["pk" := Text (encode64 sign_pk)]> {["proof" := Text (encode64 signed)]})))%string.

(** [get_local_signing_keypair] on what the configuration holds. *)
Definition get_local_signing_keypair (secret_key public_key : bytes) : result (bytes * bytes) :=
  if negb (length public_key =? PUBLICKEYBYTES)%nat || negb (length secret_key =? SECRETKEYBYTES)%nat
  then Err "Handshake failed: invalid local signing key length"%string
  else
  pk ← array PUBLICKEYBYTES public_key;
  sk ← array SECRETKEYBYTES secret_key;
  Ok (pk, sk).

Definition is_local_signing_public_key (pk secret_key public_key : bytes) : result bool :=
  keys ← get_local_signing_keypair secret_key public_key;
  Ok (bool_decide (keys.1 = pk)).

(** An unsigned ping is sent when there are no usable keys. *)
Definition create_lan_discovery_ping_misc (peer_id nonce : string) (secret_key public_key : bytes) : string :=
  match get_local_signing_keypair secret_key public_key with
  | Ok (sign_pk, sign_sk) => create_lan_discovery_ping_misc_with_keys peer_id nonce sign_pk sign_sk
  | _ => to_string (<["v" := Number LAN_DISCOVERY_AUTH_VERSION]> (<["nonce" := Text nonce]> {["id" := Text peer_id]}))%string
  end.

Definition create_lan_discovery_response_misc (peer : PeerDiscovery) (nonce : string) (secret_key public_key : bytes) : result string :=
  keys ← get_local_signing_keypair secret_key public_key;
  Ok (create_lan_discovery_response_misc_with_keys peer nonce keys.1 keys.2).

(** ** Reading *)

Definition get_u64 (o : Object) (k e : string) : result Z := ok_or (v ← o !! k; as_u64 v) e.
Definition get_str (o : Object) (k e : string) : result string := ok_or (v ← o !! k; as_str v) e.
(** [decode64(..).map_err(|_| ..)] *)
Definition decode64_or (s e : string) : result bytes := match decode64 s with inl l => Ok l | inr _ => Err e end.

Definition verify_lan_discovery_ping (misc : string) : result LanDiscoveryPingRequest :=
  value ← ok_or (from_str misc) "LAN discovery failed: invalid ping metadata"%string;
  version ← get_u64 value "v" "LAN discovery failed: missing ping version";
  if negb (version =? LAN_DISCOVERY_AUTH_VERSION) then Err "LAN discovery failed: unsupported ping version"%string
  else
  nonce ← get_str value "nonce" "LAN discovery failed: missing ping nonce";
  if bool_decide (nonce = ""%string) then Err "LAN discovery failed: empty ping nonce"%string
  else
  peer_id ← get_str value "id" "LAN discovery failed: missing ping peer id";
  if bool_decide (peer_id = ""%string) then Err "LAN discovery failed: empty ping peer id"%string
  else
  pk ← get_str value "pk" "LAN discovery failed: missing ping signing key";
  pk ← decode64_or pk "LAN discovery failed: invalid ping signing key";
  sign_pk ← ok_or (get_pk pk) "LAN discovery failed: invalid ping signing key length"%string;
  proof ← get_str value "proof" "LAN discovery failed: missing ping proof";
  proof ← decode64_or proof "LAN discovery failed: invalid ping proof";
  verified ← ok_or (verify proof sign_pk) "LAN discovery failed: ping signature mismatch"%string;
  if negb (bool_decide (verified = build_lan_discovery_ping_signed_payload peer_id sign_pk nonce))
  then Err "LAN discovery failed: ping signed payload mismatch"%string
  else Ok {| r_nonce := nonce; r_id := peer_id; r_sign_pk := sign_pk |}.

Definition decode_lan_discovery_ping_nonce (misc : string) : option string :=
  match verify_lan_discovery_ping misc with Ok r => Some (r_nonce r) | _ => None end.

Variable get_bootstrap_trusted_peer_key : string -> string.

Definition verify_discovered_peer_signing_key (peers : Peers) (peer_id : string) (pk : bytes) : result unit :=
  if bool_decide (peer_id = ""%string) then Err "LAN discovery failed: missing peer id"%string
  else
  _ ← needs_trusted_peer_signing_key get_bootstrap_trusted_peer_key peers peer_id peer_id pk;
  Ok ().

Definition verify_lan_discovery_response (peers : Peers) (peer : PeerDiscovery) (expected_nonce : string) : result bytes :=
  value ← ok_or (from_str (misc peer)) "LAN discovery failed: invalid response metadata"%string;
  version ← get_u64 value "v" "LAN discovery failed: missing response version";
  if negb (version =? LAN_DISCOVERY_AUTH_VERSION) then Err "LAN discovery failed: unsupported response version"%string
  else
  nonce ← get_str value "nonce" "LAN discovery failed: missing response nonce";
  if negb (bool_decide (nonce = expected_nonce)) then Err "LAN discovery failed: nonce mismatch"%string
  else
  pk ← get_str value "pk" "LAN discovery failed: missing response signing key";
  pk ← decode64_or pk "LAN discovery failed: invalid response signing key";
  sign_pk ← ok_or (get_pk pk) "LAN discovery failed: invalid response signing key length"%string;
  proof ← get_str value "proof" "LAN discovery failed: missing response proof";
  proof ← decode64_or proof "LAN discovery failed: invalid response proof";
  verified ← ok_or (verify proof sign_pk) "LAN discovery failed: signature mismatch"%string;
  if negb (bool_decide (verified = build_lan_discovery_signed_payload peer expected_nonce))
  then Err "LAN discovery failed: signed payload mismatch"%string
  else
  _ ← verify_discovered_peer_signing_key peers (id peer) sign_pk;
  Ok sign_pk.
End discovery.

(** ** The signed texts are unambiguous *)

Definition short (s : string) : Prop := Z.of_nat (String.length s) <= u32_max.
Definition prefixed (l : bytes) : bytes := le_bytes 4 (wrap_u32 (Z.of_nat (length l))) ++ l.

Lemma append_prefixed out l : append_len_prefixed_bytes out l = out ++ prefixed l.
Proof. done. Qed.

Lemma prefixed_inj a b x y : Z.of_nat (length a) <= u32_max -> Z.of_nat (length b) <= u32_max ->
  prefixed a ++ x = prefixed b ++ y -> a = b /\ x = y.
Proof.
  unfold prefixed, u32_max, wrap_u32; intros Ha Hb E; rewrite !Z.mod_small in E by lia; rewrite <- !app_assoc in E.
  apply app_inj_1 in E as [El E]; [|by rewrite !length_le_bytes].
  assert (length a = length b) as Hl.
  { apply (f_equal of_le) in El; rewrite !of_le_bytes in El; change (256 ^ Z.of_nat 4) with 4294967296 in El.
    rewrite !Z.mod_small in El by lia; lia. }
  by apply app_inj_1.
Qed.

Lemma short_bytes s : short s -> Z.of_nat (length (as_bytes s)) <= u32_max.
Proof. unfold short; by rewrite length_as_bytes. Qed.

Lemma prefixed_str_inj a b x y : short a -> short b ->
  prefixed (as_bytes a) ++ x = prefixed (as_bytes b) ++ y -> a = b /\ x = y.
Proof. intros Ha Hb E; apply prefixed_inj in E as [E ->]; [|by apply short_bytes..]; by apply (inj as_bytes) in E. Qed.

Lemma response_text peer nonce : build_lan_discovery_signed_payload peer nonce =
  LAN_DISCOVERY_AUTH_MAGIC ++ le_bytes 8 LAN_DISCOVERY_AUTH_VERSION ++ prefixed (as_bytes nonce)
  ++ prefixed (as_bytes (id peer)) ++ prefixed (as_bytes (username peer)) ++ prefixed (as_bytes (hostname peer))
  ++ prefixed (as_bytes (platform peer)) ++ prefixed (as_bytes (mac peer)).
Proof. unfold build_lan_discovery_signed_payload, append_len_prefixed_str; cbv zeta; rewrite !append_prefixed, <- !app_assoc; done. Qed.

Lemma ping_text peer_id pk nonce : build_lan_discovery_ping_signed_payload peer_id pk nonce =
  LAN_DISCOVERY_PING_AUTH_MAGIC ++ le_bytes 8 LAN_DISCOVERY_AUTH_VERSION ++ prefixed (as_bytes nonce)
  ++ prefixed (as_bytes peer_id) ++ prefixed pk.
Proof. unfold build_lan_discovery_ping_signed_payload, append_len_prefixed_str; cbv zeta; rewrite !append_prefixed, <- !app_assoc; done. Qed.

(** The fields a response is signed for. *)
Definition all_short (p : PeerDiscovery) : Prop :=
  short (id p) /\ short (username p) /\ short (hostname p) /\ short (platform p) /\ short (mac p).
Definition same_fields (p q : PeerDiscovery) : Prop :=
  id p = id q /\ username p = username q /\ hostname p = hostname q /\ platform p = platform q /\ mac p = mac q.

Lemma response_inj p q n m : all_short p -> all_short q -> short n -> short m ->
  build_lan_discovery_signed_payload p n = build_lan_discovery_signed_payload q m -> same_fields p q /\ n = m.
Proof.
  intros (P1 & P2 & P3 & P4 & P5) (Q1 & Q2 & Q3 & Q4 & Q5) Hn Hm E; rewrite !response_text in E.
  apply app_inv_head, app_inv_head in E.
  apply prefixed_str_inj in E as [-> E]; [|done..]; apply prefixed_str_inj in E as [E1 E]; [|done..].
  apply prefixed_str_inj in E as [E2 E]; [|done..]; apply prefixed_str_inj in E as [E3 E]; [|done..].
  apply prefixed_str_inj in E as [E4 E]; [|done..].
  rewrite <- (app_nil_r (prefixed (as_bytes (mac p)))), <- (app_nil_r (prefixed (as_bytes (mac q)))) in E.
  apply prefixed_str_inj in E as [E5 _]; [|done..]; by repeat split.
Qed.

Lemma ping_inj i j pk pk' n m : short i -> short j -> short n -> short m -> length pk = length pk' ->
  build_lan_discovery_ping_signed_payload i pk n = build_lan_discovery_ping_signed_payload j pk' m ->
  i = j /\ pk = pk' /\ n = m.
Proof.
  intros Hi Hj Hn Hm Hl E; rewrite !ping_text in E; apply app_inv_head, app_inv_head in E.
  apply prefixed_str_inj in E as [-> E]; [|done..]; apply prefixed_str_inj in E as [-> E]; [|done..].
  unfold prefixed in E; rewrite Hl in E; by apply app_inv_head in E as ->.
Qed.

(** The signature of a ping is no signature of a response. *)
Lemma ping_is_not_response i pk n p m :
  build_lan_discovery_ping_signed_payload i pk n <> build_lan_discovery_signed_payload p m.
Proof. rewrite response_text, ping_text; unfold LAN_DISCOVERY_AUTH_MAGIC, LAN_DISCOVERY_PING_AUTH_MAGIC; cbn [app]; intros E; congruence. Qed.

Section verified.
Context `{Json} `{Base64} `{Signing}.
Variable bootstrap : string -> string.

Lemma ok_or_ok {A} (o : option A) (e : string) a : ok_or o e = Ok a -> o = Some a.
Proof. by destruct o; [intros [= ->]|]. Qed.

Lemma ping_verified misc r : verify_lan_discovery_ping misc = Ok r ->
  exists proof, verify proof (r_sign_pk r) = Some (build_lan_discovery_ping_signed_payload (r_id r) (r_sign_pk r) (r_nonce r)) /\
    length (r_sign_pk r) = PUBLICKEYBYTES /\ r_id r <> ""%string /\ r_nonce r <> ""%string.
Proof.
  unfold verify_lan_discovery_ping; intros E.
  apply bind_ok in E as (value & _ & E); apply bind_ok in E as (version & _ & E).
  destruct (negb _); [done|]; apply bind_ok in E as (nonce & _ & E); case_bool_decide; [done|].
  apply bind_ok in E as (i & _ & E); case_bool_decide; [done|].
  apply bind_ok in E as (pk & _ & E); apply bind_ok in E as (pk' & _ & E).
  apply bind_ok in E as (k & Hk & E); apply ok_or_ok, get_pk_some in Hk as [-> Hk].
  apply bind_ok in E as (s & _ & E); apply bind_ok in E as (proof & _ & E).
  apply bind_ok in E as (m & Hm & E); apply ok_or_ok in Hm.
  case_bool_decide; cbn [negb] in E; [|done]; injection E as <-; subst m; by exists proof.
Qed.

Lemma response_verified peers peer nonce pk : verify_lan_discovery_response bootstrap peers peer nonce = Ok pk ->
  exists proof, verify proof pk = Some (build_lan_discovery_signed_payload peer nonce) /\
    length pk = PUBLICKEYBYTES /\ id peer <> ""%string /\
    (trusted_peer_signing_key_status bootstrap peers (id peer) (id peer) pk = Ok Trusted \/
     trusted_peer_signing_key_status bootstrap peers (id peer) (id peer) pk = Ok Missing).
Proof.
  unfold verify_lan_discovery_response; intros E.
  apply bind_ok in E as (value & _ & E); apply bind_ok in E as (version & _ & E).
  destruct (negb _); [done|]; apply bind_ok in E as (n & _ & E).
  case_bool_decide; cbn [negb] in E; [subst n|done].
  apply bind_ok in E as (p & _ & E); apply bind_ok in E as (p' & _ & E).
  apply bind_ok in E as (k & Hk & E); apply ok_or_ok, get_pk_some in Hk as [-> Hk].
  apply bind_ok in E as (s & _ & E); apply bind_ok in E as (proof & _ & E).
  apply bind_ok in E as (m & Hm & E); apply ok_or_ok in Hm.
  case_bool_decide; cbn [negb] in E; [|done]; subst m.
  apply bind_ok in E as (u & Hu & E); injection E as <-; exists proof; split; [done|]; split; [done|].
  unfold verify_discovered_peer_signing_key in Hu; case_bool_decide; [done|]; split; [done|].
  apply bind_ok in Hu as (b & Hb & _); unfold needs_trusted_peer_signing_key in Hb.
  apply bind_ok in Hb as ([| | |] & Hs & Hb); [by left|by right|done..].
Qed.

(** What a peer signs is accepted. *)
Lemma ping_accepted peer_id nonce pk sk : key_pair pk sk -> length pk = PUBLICKEYBYTES -> Forall is_byte pk ->
  Forall is_byte (sign (build_lan_discovery_ping_signed_payload peer_id pk nonce) sk) ->
  peer_id <> ""%string -> nonce <> ""%string ->
  verify_lan_discovery_ping (create_lan_discovery_ping_misc_with_keys peer_id nonce pk sk) =
  Ok {| r_nonce := nonce; r_id := peer_id; r_sign_pk := pk |}.
Proof.
  intros Hp Hl Hb Hs Hi Hn; unfold verify_lan_discovery_ping, create_lan_discovery_ping_misc_with_keys, get_u64, get_str.
  rewrite from_to; cbn [ok_or mbind outcome_bind]; rewrite lookup_insert_eq; cbn [mbind option_bind as_u64].
  change (if (_ <=? _) && _ then _ else _) with (Some LAN_DISCOVERY_AUTH_VERSION); cbn [ok_or mbind outcome_bind].
  rewrite Z.eqb_refl; cbn [negb].
  rewrite !(lookup_insert_ne _ "v"%string) by done; rewrite lookup_insert_eq; cbn [mbind option_bind as_str ok_or outcome_bind].
  rewrite (bool_decide_false (nonce = _)) by done.
  rewrite !(lookup_insert_ne _ "nonce"%string) by done; rewrite lookup_insert_eq; cbn [mbind option_bind as_str ok_or outcome_bind].
  rewrite (bool_decide_false (peer_id = _)) by done.
  rewrite !(lookup_insert_ne _ "id"%string) by done; rewrite lookup_insert_eq; cbn [mbind option_bind as_str ok_or outcome_bind].
  unfold decode64_or; rewrite decode_encode by done; cbn [mbind outcome_bind].
  replace (get_pk pk) with (Some pk) by (symmetry; by apply get_pk_some); cbn [ok_or mbind outcome_bind].
  rewrite (lookup_insert_ne _ "pk"%string), lookup_singleton_eq by done; cbn [mbind option_bind as_str ok_or outcome_bind].
  rewrite decode_encode by done; cbn [mbind outcome_bind]; rewrite verify_sign by done; cbn [ok_or mbind outcome_bind].
  by rewrite bool_decide_true.
Qed.
End verified.

(** ** A concrete serialization *)

#[export] Instance Value_eq_dec : EqDecision Value.
Proof. solve_decision. Defined.
#[export] Instance Value_countable : Countable Value.
Proof.
  refine (inj_countable' (fun v => match v with Number n => inl (inl n) | Text s => inl (inr s) | Else => inr () end)
    (fun x => match x with inl (inl n) => Number n | inl (inr s) => Text s | inr _ => Else end) _); by intros [].
Defined.

Fixpoint binary_text (p : positive) : string :=
  match p with
  | xH => ""
  | xO p => String.String "0" (binary_text p)
  | xI p => String.String "1" (binary_text p)
  end.
Fixpoint text_binary (s : string) : positive :=
  match s with
  | String.EmptyString => xH
  | String.String c s => if Ascii.eqb c "0" then xO (text_binary s) else xI (text_binary s)
  end.
Lemma text_binary_text p : text_binary (binary_text p) = p.
Proof. induction p as [p IH|p IH|]; cbn; by rewrite ?IH. Qed.

#[local] Obligation Tactic := idtac.
#[export] Program Instance plain_json : Json :=
  {| to_string o := binary_text (encode o); from_str s := decode (text_binary s) |}.
Next Obligation. intros o; cbn beta; by rewrite text_binary_text, countable.decode_encode. Qed.

(** ** The property *)

(** The answer to a discovery ping is accepted only if its key signed it for
    this very peer and this very ping: the signed text can have been meant for no
    other id, user, host, platform, address or nonce, and is not that of a ping;
    and the key is one trusted for the peer, or the peer has none. *)
Theorem discovery_is_signed_for `{Json} `{Base64} `{Signing} (bootstrap : string -> string) peers peer nonce pk :
  all_short peer -> short nonce ->
  verify_lan_discovery_response bootstrap peers peer nonce = Ok pk ->
  exists proof text, verify proof pk = Some text /\
    (forall peer' nonce', all_short peer' -> short nonce' ->
       text = build_lan_discovery_signed_payload peer' nonce' -> same_fields peer peer' /\ nonce = nonce') /\
    (forall i k n, text <> build_lan_discovery_ping_signed_payload i k n) /\
    (trusted_peer_signing_key_status bootstrap peers (id peer) (id peer) pk = Ok Trusted \/
     trusted_peer_signing_key_status bootstrap peers (id peer) (id peer) pk = Ok Missing).
Proof.
  intros Hp Hn E; destruct (response_verified _ _ _ _ _ E) as (proof & Hv & _ & _ & Hs).
  exists proof, (build_lan_discovery_signed_payload peer nonce); split; [done|]; split; [|split; [|done]].
  - intros peer' nonce' Hp' Hn' Et; by apply response_inj in Et.
  - intros i k n Et; by eapply ping_is_not_response.
Qed.

Definition example_peer : PeerDiscovery :=
  let p := {| id := "host"; username := "u"; hostname := "h"; platform := "Linux"; mac := "m"; misc := "" |}%string in
  {| id := "host"; username := "u"; hostname := "h"; platform := "Linux"; mac := "m";
     misc := create_lan_discovery_response_misc_with_keys p "n" (example_key 7) (example_secret 7) |}%string.

Lemma discovery_is_signed_for_witness :
  verify_lan_discovery_response (fun _ => "") ∅ example_peer "n" = Ok (example_key 7) /\
  exists proof, is_some (verify proof (example_key 7)) = true.
Proof.
  assert (E : verify_lan_discovery_response (fun _ => ""%string) ∅ example_peer "n" = Ok (example_key 7))
    by (vm_compute; reflexivity).
  split; [exact E|].
  destruct (discovery_is_signed_for (fun _ => ""%string) ∅ example_peer "n" (example_key 7)) as (proof & text & V & _).
  - unfold all_short, short; repeat split; vm_compute; discriminate.
  - unfold short; vm_compute; discriminate.
  - exact E.
  - exists proof; rewrite V; reflexivity.
Defined.
