(* ===== verification/PeerHandshake.v ===== *)
(** * The handshake of two peers

    Models how a viewer and a host agree on the key of a session, and what each
    comes to trust: the host's side is the handshake of
    create_tcp_connection_with_mode (src/src/server.rs), the viewer's are
    secure_direct_connection_with_input, secure_connection_with_input and the
    loops that retry them (src/src/client.rs), and the identities of the QUIC
    transport that a handshake stores are remember_peer (src/src/
    quic_transport.rs).  One attempt of the viewer is a function of what the peer
    sends ([Exchange]; the peer's answer is a function of the viewer's message),
    in a monad of the viewer's state and errors that keeps the state an error was
    reached in.

    The boxes of libsodium and the framing of the session key
    ([tcp::Encrypt::decode_session]), the store of QUIC identities and the list
    of paired viewers are outside: they are classes and parameters. *)

From S2P Require Import Prelude ClipboardTypes Fingerprint SignedIdentity PeerTrust.
From S2P Require LanDiscovery.
From Stdlib Require Import Ascii.
From Stdlib Require String.
#[local] Open Scope list_scope.
#[local] Open Scope Z_scope.

Abbreviation bytes := (list Z) (only parsing).
Abbreviation result := (outcome string) (only parsing).

(** [crypto::box_], and the session key it carries.  A key that is sealed alone
    selects the older nonces; sealed with the byte of the mode, the directional
    ones, which the host accepts if it offered them. *)
Class Boxes := {
  SESSION_KEY_MODE_DIRECTIONAL : Z;
  SECURE_CHANNEL_DIRECTIONAL : Z;
  box_pair : bytes -> bytes -> Prop;
  seal : bytes -> bytes -> bytes -> bytes;
  decode_session : bytes -> bytes -> bytes -> bool -> result (bytes * bool);
  channel_range : 0 < SECURE_CHANNEL_DIRECTIONAL <= u32_max;
  decode_seal key (directional offered : bool) pk_a sk_a pk_b sk_b :
    box_pair pk_a sk_a -> box_pair pk_b sk_b -> length key = 32%nat -> (directional = true -> offered = true) ->
    decode_session (seal (key ++ if directional then [SESSION_KEY_MODE_DIRECTIONAL] else []) pk_b sk_a) pk_a sk_b offered =
    Ok (key, directional);
  seal_nonempty m pk sk : seal m pk sk <> [];
}.

Inductive SessionRole := Viewer_ | Host_.
Inductive NonceMode := Directional (role : SessionRole) | Legacy.

Definition session_nonce_mode (directional : bool) (role : SessionRole) : NonceMode :=
  if directional then Directional role else Legacy.

(** The randomness of [create_symmetric_key_msg_with_mode]: a box key pair and
    the key of the session. *)
Record Fresh := { our_pk_b : bytes; our_sk_b : bytes; session_key : bytes }.

Definition create_symmetric_key_msg_with_mode `{Boxes} (r : Fresh) (their_pk_b : bytes) (directional : bool) : bytes * bytes * bytes :=
  let plaintext := session_key r ++ if directional then [SESSION_KEY_MODE_DIRECTIONAL] else [] in
  (our_pk_b r, seal plaintext their_pk_b (our_sk_b r), session_key r).

Definition host_secure_channel `{Boxes} (directional_secretbox_enabled : bool) : Z :=
  if directional_secretbox_enabled then SECURE_CHANNEL_DIRECTIONAL else 0.
Definition viewer_selects_directional_secretbox `{Boxes} (secure_channel : Z) (directional_secretbox_enabled : bool) : bool :=
  (secure_channel =? SECURE_CHANNEL_DIRECTIONAL) && directional_secretbox_enabled.

(** ** Identities of the QUIC transport *)

Record TrustedPeerRecord := { identity_key : bytes; certificate_pin : bytes; certificate_der : bytes; confirmed_at : Z }.
Abbreviation QuicPeers := (gmap string TrustedPeerRecord).

(** [PairingCandidate::new] and its [confirm]: the record of a confirmed peer. *)
Class Candidates := {
  confirmed : string -> bytes -> bytes -> Z -> result TrustedPeerRecord;
  confirmed_fields i k c t r : confirmed i k c t = Ok r -> identity_key r = k /\ certificate_der r = c;
}.

(** [remember_peer]; [io] is whether the store can be opened and written. *)
Definition remember_peer `{Candidates} (io : result unit) (now : Z) (peer_id : string) (identity_key_ certificate_der_ : bytes)
    (allow_replace : bool) (store : QuicPeers) : result QuicPeers :=
  if bool_decide (certificate_der_ = []) then Ok store
  else
  _ ← io;
  record ← confirmed peer_id identity_key_ certificate_der_ now;
  match store !! peer_id with
  | Some existing =>
      if bool_decide (identity_key existing = identity_key record)
         && bool_decide (certificate_pin existing = certificate_pin record)
         && bool_decide (certificate_der existing = certificate_der record)
      then Ok store
      else if allow_replace then Ok (<[peer_id := record]> store)
      else Err ("QUIC identity for peer " +:+ peer_id +:+ " changed; explicit trust replacement is required")%string
  | None => Ok (<[peer_id := record]> store)
  end.

Definition remember_paired_peer `{Candidates} io now peer_id key certificate store :=
  remember_peer io now peer_id key certificate false store.
Definition remember_authenticated_peer `{Candidates} io now peer_id key certificate store :=
  remember_peer io now peer_id key certificate true store.

(** ** Messages *)

Record PublicKey := { asymmetric_value : bytes; symmetric_value_ : bytes; quic_identity : bytes }.

(** What reading the next message of a stream gives: an error, the end, bytes
    that are no message, or a message. *)
Inductive Received :=
| ReadError (e : string)
| Closed
| Unparsed (e : string)
| SignedIdMsg (id quic_identity : bytes)
| PublicKeyMsg (k : PublicKey)
| MessageBoxMsg (msgtype text : string)
| OtherMsg.

(** ** The viewer *)

Inductive Prompt :=
| TrustConfirmed (peer_id fingerprint : string)
| PassphraseEntered (peer_id : string).

Record HandshakeInput := {
  peer : option (string * bytes);
  passphrase : option string;
  can_reopen : bool;
  require_authenticated_repair : bool;
  repair_identity_approved : bool;
  reopen_requested : bool;
}.
#[export] Instance eta_HandshakeInput : Eta HandshakeInput := fun r =>
  Build_HandshakeInput (peer r) (passphrase r) (can_reopen r) (require_authenticated_repair r)
    (repair_identity_approved r) (reopen_requested r).
Definition default_input : HandshakeInput := {| peer := None; passphrase := None; can_reopen := false;
  require_authenticated_repair := false; repair_identity_approved := false; reopen_requested := false |}.

(** An error, or the request to start over with the input kept. *)
Inductive failure := Text (s : string) | ReopenAfterApproval | QuicIdentityRepairRequired (s : string).

(** The viewer's state: what it trusts, the input of the handshake, the prompts
    the user has answered, the message sent and the key set on the stream. *)
Record Viewer := {
  peers : Peers;
  quic_peers : QuicPeers;
  input : HandshakeInput;
  prompts : list Prompt;
  sent : option PublicKey;
  session : option (bytes * NonceMode);
}.
#[export] Instance eta_Viewer : Eta Viewer := fun r =>
  Build_Viewer (peers r) (quic_peers r) (input r) (prompts r) (sent r) (session r).

(** The viewer's configuration. *)
Record Settings := {
  local_id : string;
  secret_key : bytes;
  public_key : bytes;
  allow_unverified_peer_trust : bool;
  remember_paired_viewers : bool;
  directional_secretbox_enabled : bool;
  get_bootstrap_trusted_peer_key : string -> string;
  get_bootstrap_key : string;
  local_quic_certificate_der : result bytes;
}.

(** One connection to a peer: what it sends, how the user answers, the clocks,
    and the randomness.  [late_confirm] and [late_passphrase] are whether half of
    CONNECT_TIMEOUT has passed when the user has answered. *)
Record Exchange := {
  first : Received;
  answer : PublicKey -> Received;
  is_quic : bool;
  verify_binding : bytes -> bytes -> result unit;
  confirm_peer_trust : string -> string -> string -> result unit;
  request_pairing_passphrase : string -> result string;
  late_confirm : bool;
  late_passphrase : bool;
  send : result unit;
  time_before : Z;
  time_after : Z;
  store_io : result unit;
  fresh : Fresh;
}.

(** *** Computations

    A state and an error; the state is kept when there is one. *)

Definition ST (S A : Type) : Type := S -> outcome failure A * S.
#[export] Instance ST_ret {S} : MRet (ST S) := fun A a s => (Ok a, s).
#[export] Instance ST_bind {S} : MBind (ST S) := fun A B f m s =>
  match m s with
  | (Ok a, s) => f a s
  | (Err e, s) => (Err e, s)
  | (Panic, s) => (Panic, s)
  end.
Definition fail {S A} (f : failure) : ST S A := fun s => (Err f, s).
Definition bail {S A} (text : string) : ST S A := fail (Text text).
Definition lift {S A} (r : result A) : ST S A := fun s =>
  (match r with Ok a => Ok a | Err e => Err (Text e) | Panic => Panic end, s).
Definition gets {S A} (f : S -> A) : ST S A := fun s => (Ok (f s), s).
Definition modify {S} (f : S -> S) : ST S unit := fun s => (Ok (), f s).
Definition when {S} (b : bool) (m : ST S unit) : ST S unit := if b then m else mret ().
(** The result of a computation as a value. *)
Definition attempt {S A} (m : ST S A) : ST S (outcome failure A) := fun s =>
  match m s with
  | (Panic, s) => (Panic, s)
  | (r, s) => (Ok r, s)
  end.

Abbreviation M := (ST Viewer).
Definition update_peers (f : Peers -> result Peers) : M unit :=
  p ← gets peers; p ← lift (f p); modify (fun s => s <| peers := p |>).

Definition bind_peer (id : string) (signing_key : bytes) : M unit :=
  i ← gets input;
  match peer i with
  | Some (expected_id, expected_key) =>
      if negb (bool_decide (expected_id = id)) || negb (bool_decide (expected_key = signing_key))
      then bail "Handshake failed: peer identity changed during authentication; verify the remote device before retrying"
      else mret ()
  | None => modify (fun s => s <| input ::= (fun i => i <| peer := Some (id, signing_key) |>) |>)
  end.

Definition needs_fresh_socket (late : bool) : M bool := i ← gets input; mret (can_reopen i && late).

(** Starting over, with the answers of the user kept. *)
Definition reopen {A} : M A :=
  _ ← modify (fun s => s <| input ::= (fun i => i <| reopen_requested := true |>) |>);
  fail ReopenAfterApproval.

Record PendingPeerTrust := { fingerprint : string; trust_phrase : string; replace_existing_pin : bool }.

Section handshake.
Context `{Signing} `{IdPkCodec} `{KeyDerivation} `{Sha256} `{Base64} `{Boxes} `{Candidates}.

Definition pending_peer_trust (pk : bytes) (replace_existing_pin : bool) : PendingPeerTrust :=
  let fingerprint := pk_to_fingerprint pk in
  {| fingerprint := fingerprint; trust_phrase := fingerprint_to_trust_phrase fingerprint;
     replace_existing_pin := replace_existing_pin |}.

Definition pending_peer_trust_from_status (status : TrustedPeerSigningKeyStatus) (pk : bytes) : option PendingPeerTrust :=
  match status with
  | Trusted => None
  | Missing => Some (pending_peer_trust pk false)
  | Changed _ _ | InvalidPinnedKey _ => Some (pending_peer_trust pk true)
  end.

Definition authenticated_peer_allows_quic_pin (signing_key_was_trusted trust_was_confirmed pairing_was_proven paired_viewer_was_confirmed : bool) : bool :=
  signing_key_was_trusted || trust_was_confirmed || pairing_was_proven || paired_viewer_was_confirmed.

Definition create_direct_public_key_initiator_id (C : Settings) (box_pk : bytes) : result bytes :=
  match get_pk box_pk with
  | None => Err "Handshake failed: invalid local public key length"%string
  | Some box_pk =>
      keys ← LanDiscovery.get_local_signing_keypair (secret_key C) (public_key C);
      Ok (create_direct_signed_id (local_id C) box_pk keys.1 keys.2)
  end.

Definition create_direct_quic_identity (C : Settings) (box_pk : bytes) : result bytes :=
  match get_pk box_pk with
  | None => Err "Handshake failed: invalid local public key length"%string
  | Some box_pk =>
      keys ← LanDiscovery.get_local_signing_keypair (secret_key C) (public_key C);
      certificate ← local_quic_certificate_der C;
      create_direct_signed_id_with_quic (local_id C) box_pk keys.1 keys.2 certificate
  end.
(** *** One attempt *)

Inductive Scope := Direct | Rendezvous.
Definition scope_name (sc : Scope) : string :=
  match sc with Direct => DIRECT_PAIRING_SCOPE | Rendezvous => RENDEZVOUS_PAIRING_SCOPE end.

Definition receive_signed_id (r : Received) : M (bytes * bytes) :=
  match r with
  | ReadError e => bail e
  | Closed => bail "Reset by the peer"
  | Unparsed e => bail ("Handshake failed: invalid message format: " +:+ e)%string
  | SignedIdMsg id quic => mret (id, quic)
  | _ => bail "Handshake failed: invalid message type"
  end.

Definition check_quic_binding (X : Exchange) (signing_key : bytes) (certificate : option bytes) : M unit :=
  if is_quic X then
    certificate ← lift (ok_or certificate "Handshake failed: QUIC peer omitted its signed TLS certificate"%string);
    lift (verify_binding X signing_key certificate)
  else mret ().

Definition ask_trust (X : Exchange) (peer_id : string) (pending : PendingPeerTrust) : M unit :=
  _ ← lift (confirm_peer_trust X peer_id (fingerprint pending) (trust_phrase pending));
  modify (fun s => s <| prompts ::= (fun l => l ++ [TrustConfirmed peer_id (fingerprint pending)]) |>).

(** The passphrase kept from an attempt before this one, or the user's. *)
Definition ask_passphrase (X : Exchange) (peer_id : string) : M string :=
  i ← gets input;
  _ ← modify (fun s => s <| input ::= (fun i => i <| passphrase := None |>) |>);
  match passphrase i with
  | Some p => mret p
  | None =>
      p ← lift (request_pairing_passphrase X peer_id);
      _ ← modify (fun s => s <| prompts ::= (fun l => l ++ [PassphraseEntered peer_id]) |>);
      mret p
  end.

Definition has_confirmed (sc : Scope) (peer_config_id : string) (now : Z) : M bool := fun s =>
  let '(b, p) := has_confirmed_paired_viewer (scope_name sc) peer_config_id now (peers s) in
  (Ok b, s <| peers := p |>).

Definition set_confirmed (sc : Scope) (peer_config_id : string) (confirmed : bool) (now : Z) : M unit :=
  modify (fun s => s <| peers ::= set_confirmed_paired_viewer (scope_name sc) peer_config_id confirmed now |>).

(** The texts of the two refusals of a key that is not trusted. *)
Definition changed_key_text (sc : Scope) : string :=
  match sc with
  | Direct => "Handshake failed: trusted peer key changed or is invalid; local or rendezvous pairing passphrase is required to repair trust. No pairing challenge was offered; configure Local pairing passphrase on the remote device and reconnect. The remote-access password is separate"
  | Rendezvous => "Handshake failed: trusted peer key changed or is invalid; rendezvous pairing passphrase is required to repair trust. No pairing challenge was offered; configure the rendezvous pairing passphrase on the remote device and reconnect"
  end.
Definition unverified_text (sc : Scope) : string :=
  match sc with
  | Direct => "Handshake failed: first direct secure contact requires a trusted peer key or local/rendezvous pairing passphrase. Enable 'Allow unverified peer trust' to allow legacy first-contact trust"
  | Rendezvous => "Handshake failed: first secure contact requires a trusted peer key or rendezvous pairing passphrase. Enable 'Allow unverified peer trust' to allow legacy first-contact trust"
  end.

(** A key that is not trusted, of a host that asks for no pairing: the user may
    accept it, if that is allowed and no key is pinned.  Gives whether the trust
    was confirmed, and the trust that is still pending. *)
Definition confirm_unpaired (sc : Scope) (C : Settings) (X : Exchange) (peer_config_id : string) (d : DirectSignedId)
    (pending : option PendingPeerTrust) : M (bool * option PendingPeerTrust) :=
  match pending with
  | Some p =>
      if negb (pairing_required d) then
        if replace_existing_pin p then bail (changed_key_text sc)
        else if negb (allow_unverified_peer_trust C) then bail (unverified_text sc)
        else
        _ ← ask_trust X (id d) p;
        _ ← update_peers (pin_trusted_peer_signing_key (get_bootstrap_trusted_peer_key C) (id d) peer_config_id (sign_pk d));
        late ← needs_fresh_socket (late_confirm X);
        if late : bool then reopen else mret (true, None)
      else mret (false, Some p)
  | None => mret (false, None)
  end.

(** The repair of a QUIC identity: a changed key needs a host with a passphrase,
    and the user's check of the fingerprint. *)
Definition confirm_repair (X : Exchange) (d : DirectSignedId) (was_trusted : bool) (pending : option PendingPeerTrust) : M unit :=
  i ← gets input;
  if require_authenticated_repair i && negb was_trusted && negb (repair_identity_approved i) then
    match pending with
    | Some p =>
        _ ← ask_trust X (id d) p;
        modify (fun s => s <| input ::= (fun i => i <| repair_identity_approved := true |>) |>)
    | None => mret ()
    end
  else mret ().

(** Half of the challenge: the proof that the user knows the passphrase of this
    host, unless the host is to recognize this viewer. *)
Definition prove_pairing (C : Settings) (X : Exchange) (d : DirectSignedId) (use_paired_viewer : bool) : M (option bytes) :=
  match pairing_salt d with
  | Some salt =>
      our_pk_b ← lift (array PUBLICKEYBYTES (our_pk_b (fresh X)));
      if use_paired_viewer then mret None
      else
      secret ← ask_passphrase X (id d);
      late ← needs_fresh_socket (late_passphrase X);
      if late : bool then
        _ ← modify (fun s => s <| input ::= (fun i => i <| passphrase := Some secret |>) |>);
        reopen
      else
      proof ← lift (compute_direct_pairing_proof secret salt (id d) (sign_pk d) (box_pk d) our_pk_b);
      mret (Some proof)
  | None => mret None
  end.

(** What the answer settled: the message, whether the host was to recognize the
    viewer, whether a proof was sent, and whether the viewer named itself. *)
Record Answered := { message : PublicKey; use_paired_viewer : bool; pairing_was_proven : bool; named : bool }.

Definition answer_host (sc : Scope) (C : Settings) (X : Exchange) (peer_config_id : string) (d : DirectSignedId)
    (pending : option PendingPeerTrust) : M Answered :=
  let directional := viewer_selects_directional_secretbox (secure_channel d) (directional_secretbox_enabled C) in
  let '(asymmetric_value, sealed, key) := create_symmetric_key_msg_with_mode (fresh X) (box_pk d) directional in
  let by_identity := pairing_required d && supports_paired_viewer_identity d && remember_paired_viewers C in
  use_paired ← (if by_identity && is_none pending
                       then has_confirmed sc peer_config_id (time_before X) else mret false);
  initiator_signed_id ← (if by_identity
                         then i ← lift (create_direct_public_key_initiator_id C asymmetric_value); mret (Some i)
                         else mret None);
  quic ← (if is_some (quic_certificate_der d)
                   then lift (create_direct_quic_identity C asymmetric_value) else mret []);
  proof ← prove_pairing C X d use_paired;
  symmetric_value ← lift (wrap_direct_public_key_symmetric_value_with_identity sealed proof initiator_signed_id);
  let msg := {| asymmetric_value := asymmetric_value; symmetric_value_ := symmetric_value;
                    quic_identity := quic |} in
  _ ← lift (send X);
  _ ← modify (fun s => s <| sent := Some msg |> <| session := Some (key, session_nonce_mode directional Viewer_) |>);
  mret {| message := msg; use_paired_viewer := use_paired; pairing_was_proven := is_some proof;
          named := is_some initiator_signed_id |}.

(** [clear_refused_direct_paired_viewer], and the rendezvous one. *)
Definition clear_refused_paired_viewer (sc : Scope) (peer_config_id : string) (used_paired_viewer : bool) (now : Z) : M unit :=
  when used_paired_viewer (set_confirmed sc peer_config_id false now).

Definition ack_name (sc : Scope) : string :=
  match sc with Direct => "direct handshake acknowledgement" | Rendezvous => "pairing acknowledgement" end.
Definition ack_missing_text (sc : Scope) : string :=
  match sc with
  | Direct => "Handshake failed: missing direct handshake acknowledgement"
  | Rendezvous => "Handshake failed: pairing acknowledgement missing"
  end.

Definition read_acknowledgement (sc : Scope) (X : Exchange) (peer_config_id : string) (d : DirectSignedId) (a : Answered) : M unit :=
  let refused {A} (text : string) : M A :=
    _ ← clear_refused_paired_viewer sc peer_config_id (use_paired_viewer a) (time_after X); bail text in
  let invalid := ("Handshake failed: invalid " +:+ ack_name sc)%string in
  if pairing_required d then
    match answer X (message a) with
    | ReadError e => bail e
    | Unparsed e => bail (invalid +:+ ": " +:+ e)%string
    | Closed => refused (ack_missing_text sc)
    | SignedIdMsg id _ => if is_direct_handshake_ack_ok id then mret () else refused invalid
    | MessageBoxMsg msgtype text => if bool_decide (msgtype = "error"%string) then refused text else refused invalid
    | _ => refused invalid
    end
  else mret ().

(** Storing the QUIC identity of an authenticated peer. *)
Definition remember_quic (X : Exchange) (peer_id : string) (key certificate : bytes) : M unit :=
  q ← gets quic_peers;
  q ← lift (remember_authenticated_peer (store_io X) (time_after X) peer_id key certificate q);
  modify (fun s => s <| quic_peers := q |>).

(** What a completed handshake leaves: the confirmation and the QUIC identity,
    and before them the trust that was pending. *)
Definition settle_pairing (sc : Scope) (X : Exchange) (peer_config_id : string) (d : DirectSignedId)
    (was_trusted trust_was_confirmed : bool) (a : Answered) : M unit :=
  let now := time_after X in
  _ ← when (pairing_was_proven a && named a)
        (_ ← set_confirmed sc peer_config_id true now;
         when (match sc with Direct => false | Rendezvous => is_some (quic_certificate_der d) end)
              (set_confirmed Direct peer_config_id true now));
  confirmed ← (match sc with
               | Direct => has_confirmed Direct peer_config_id now
               | Rendezvous => b ← has_confirmed Rendezvous peer_config_id now;
                               if b : bool then mret true else has_confirmed Direct peer_config_id now
               end);
  if authenticated_peer_allows_quic_pin was_trusted trust_was_confirmed (pairing_was_proven a) confirmed then
    match quic_certificate_der d with
    | Some certificate =>
        _ ← (match sc with Direct => mret () | Rendezvous => set_confirmed Direct peer_config_id true now end);
        _ ← remember_quic X (id d) (sign_pk d) certificate;
        when (negb (bool_decide (peer_config_id = id d))) (remember_quic X peer_config_id (sign_pk d) certificate)
    | None => mret ()
    end
  else mret ().

Definition settle (sc : Scope) (C : Settings) (X : Exchange) (peer_config_id : string) (d : DirectSignedId)
    (was_trusted trust_was_confirmed : bool) (pending : option PendingPeerTrust) (a : Answered) : M unit :=
  _ ← when (is_some pending)
        (update_peers (trust_peer_signing_key_after_pairing (get_bootstrap_trusted_peer_key C) (id d) peer_config_id (sign_pk d)));
  settle_pairing sc X peer_config_id d was_trusted (trust_was_confirmed || is_some pending) a.

(** The rest of an attempt, once the status of the host's key is known. *)
Definition complete (sc : Scope) (C : Settings) (X : Exchange) (peer_config_id : string) (d : DirectSignedId)
    (was_trusted : bool) (pending : option PendingPeerTrust) : M bytes :=
  '(trust_was_confirmed, pending) ← confirm_unpaired sc C X peer_config_id d pending;
  a ← answer_host sc C X peer_config_id d pending;
  _ ← read_acknowledgement sc X peer_config_id d a;
  _ ← settle sc C X peer_config_id d was_trusted trust_was_confirmed pending a;
  mret (sign_pk d).

Definition no_passphrase_text : string :=
  "Handshake failed: server identity changed and no pairing passphrase is configured on the server; configure Local pairing passphrase on the remote device and reconnect. The remote-access password is separate".

Definition secure_direct_connection_with_input (C : Settings) (X : Exchange) (peer_config_id : string) : M bytes :=
  i ← gets input;
  if reopen_requested i then fail ReopenAfterApproval
  else
  '(signed, quic) ← receive_signed_id (first X);
  d ← lift (with_prefix "Handshake failed: invalid direct peer key: " (decode_direct_id_pk signed));
  d ← lift (attach_direct_quic_identity d quic);
  _ ← check_quic_binding X (sign_pk d) (quic_certificate_der d);
  _ ← bind_peer (id d) (sign_pk d);
  if bool_decide (id d = ""%string) then bail "Handshake failed: empty peer id"
  else
  p ← gets peers;
  status ← lift (trusted_peer_signing_key_status (get_bootstrap_trusted_peer_key C) p (id d) peer_config_id (sign_pk d));
  let was_trusted := match status with Trusted => true | _ => false end in
  if require_authenticated_repair i && negb was_trusted && negb (pairing_required d)
  then bail no_passphrase_text
  else
  let pending := pending_peer_trust_from_status status (sign_pk d) in
  _ ← confirm_repair X d was_trusted pending;
  complete Direct C X peer_config_id d was_trusted pending.

(** [get_rs_pk] *)
Definition get_rs_pk (str_base64 : string) : option bytes :=
  match decode64 str_base64 with inl pk => get_pk pk | inr _ => None end.

(** The identity of a connection through a rendezvous server, as that of a
    direct one: the signing key is the one the server vouches for. *)
Definition as_direct (pk : bytes) (d : SecureSignedId) : DirectSignedId :=
  {| id := s_id d; sign_pk := pk; box_pk := s_box_pk d; pairing_required := s_pairing_required d;
     pairing_salt := s_pairing_salt d; supports_paired_viewer_identity := s_supports_paired_viewer_identity d;
     quic_certificate_der := s_quic_certificate_der d; secure_channel := s_secure_channel d |}.

Definition secure_connection_with_input (C : Settings) (X : Exchange) (peer_id peer_config_id : string)
    (signed_id_pk : bytes) (key : string) : M bytes :=
  i ← gets input;
  if reopen_requested i then fail ReopenAfterApproval
  else
  let key := if bool_decide (key = ""%string) then get_bootstrap_key C else key in
  rs_pk ← lift (ok_or (get_rs_pk key) "Handshake failed: no valid rendezvous signing key is configured"%string);
  if bool_decide (signed_id_pk = []) then bail "Handshake failed: missing public key from rendezvous server"
  else
  '(id', pk) ← lift (with_prefix "Handshake failed: invalid public key from rendezvous server: " (decode_id_pk signed_id_pk rs_pk));
  if negb (bool_decide (id' = peer_id)) then bail "Handshake failed: peer id mismatch from rendezvous server"
  else
  '(signed, quic) ← receive_signed_id (first X);
  sd ← lift (with_prefix "Handshake failed: invalid signed peer key: " (decode_secure_signed_id signed pk));
  sd ← lift (attach_secure_quic_identity sd pk quic);
  _ ← check_quic_binding X pk (s_quic_certificate_der sd);
  if negb (bool_decide (s_id sd = peer_id)) then bail "Handshake failed: peer id mismatch"
  else
  let d := as_direct pk sd in
  _ ← bind_peer peer_id pk;
  p ← gets peers;
  status ← lift (trusted_peer_signing_key_status (get_bootstrap_trusted_peer_key C) p peer_id peer_config_id pk);
  let was_trusted := match status with Trusted => true | _ => false end in
  let pending := pending_peer_trust_from_status status pk in
  complete Rendezvous C X peer_config_id d was_trusted pending.
(** *** The loops *)

Definition error_text (f : failure) : string :=
  match f with
  | Text s => s
  | ReopenAfterApproval => "Restarting authentication after user approval"
  | QuicIdentityRepairRequired s => "QUIC saved identity verification failed; authenticated re-pairing required: " +:+ s
  end.
Definition rejected_text : string := "Handshake failed: pairing passphrase rejected".
Definition is_rejected (f : failure) : bool := bool_decide (error_text f = rejected_text).

(** Opening a stream: the ordinary way, and to a peer whose QUIC identity is to
    be repaired. *)
Record Connection := { direct_transport : outcome failure Exchange; pairing_candidate : outcome failure Exchange }.

(** [connect_direct_transport]: the configured transport, and the race of the two
    when it is chosen automatically.  [tcp] and [quic] are what the two connections
    come to, [quic_first] is whether QUIC is the first to end, and [quic_in_time]
    whether it ends within AUTO_QUIC_RACE_TIMEOUT. *)
Inductive RemoteTransportMode := Tcp | QuicOnly | Auto.
Definition connect_direct_transport {T} (mode : result RemoteTransportMode) (tcp : outcome failure T) (quic : outcome failure (option T))
    (quic_first quic_in_time : bool) : outcome failure T :=
  match mode with
  | Err e => Err (Text e)
  | Panic => Panic
  | Ok Tcp => tcp
  | Ok QuicOnly =>
      match quic with
      | Ok (Some stream) => Ok stream
      | Ok None => Err (Text "QUIC only mode requires a confirmed peer identity")
      | Err e => Err e
      | Panic => Panic
      end
  | Ok Auto =>
      if quic_first then
        match quic with
        | Ok (Some stream) => Ok stream
        | Ok None => tcp
        | Err e => Err e
        | Panic => Panic
        end
      else match tcp with
      | Ok stream =>
          if quic_in_time then
            match quic with
            | Ok (Some quic) => Ok quic
            | Ok None => Ok stream
            | Err e => Err e
            | Panic => Panic
            end
          else Ok stream
      | Err tcp_error =>
          match quic with
          | Ok (Some stream) => Ok stream
          | Ok None => Err tcp_error
          | Err e => Err e
          | Panic => Panic
          end
      | Panic => Panic
      end
  end.

Definition from {S A} (r : outcome failure A) : ST S A := fun s => (r, s).

Definition open_connection (c : Connection) : M Exchange :=
  i ← gets input;
  if require_authenticated_repair i then from (pairing_candidate c)
  else
  match direct_transport c with
  | Err (QuicIdentityRepairRequired _) =>
      _ ← modify (fun s => s <| input ::= (fun i => i <| require_authenticated_repair := true |>) |>);
      from (pairing_candidate c)
  | r => from r
  end.

(** The loop of [connect_secure_direct_with_pairing_retry]; [fuel] is the number
    of attempts left. *)
Fixpoint direct_attempts (fuel : nat) (C : Settings) (peer_config_id : string) (had_confirmed_pairing : bool)
    (now : nat -> Z)
    (connection : nat -> Connection) (retried_rejected retried_remembered : bool) : M (Exchange * bytes) :=
  match fuel with
  | O => bail "Handshake failed: authentication retry limit reached"
  | S fuel =>
      _ ← modify (fun s => s <| input ::= (fun i => i <| reopen_requested := false |>) |>);
      X ← open_connection (connection fuel);
      result ← attempt (secure_direct_connection_with_input C X peer_config_id);
      match result with
      | Ok pk => mret (X, pk)
      | Panic => from Panic
      | Err ReopenAfterApproval => direct_attempts fuel C peer_config_id had_confirmed_pairing now connection retried_rejected retried_remembered
      | Err error =>
          if negb retried_rejected && is_rejected error
          then direct_attempts fuel C peer_config_id had_confirmed_pairing now connection true retried_remembered
          else if retried_rejected && is_rejected error
          then bail "Handshake failed: pairing passphrase rejected after retry"
          else
          still ← (if had_confirmed_pairing then has_confirmed Direct peer_config_id (now fuel) else mret true);
          if negb (had_confirmed_pairing && negb still) || retried_remembered then fail error
          else direct_attempts fuel C peer_config_id had_confirmed_pairing now connection retried_rejected true
      end
  end.

(** Moving a confirmed connection to QUIC. *)
Inductive Promotion := PromotionTimedOut | NoIdentity | Connected (X : Exchange) | PromotionFailed (f : failure).

Fixpoint promote (fuel : nat) (C : Settings) (peer_config_id : string) (promotion : nat -> Promotion) (X : Exchange) (pk : bytes)
    : M (Exchange * bytes) :=
  match fuel with
  | O => bail "Handshake failed: QUIC upgrade authentication retry limit reached"
  | S fuel =>
      _ ← modify (fun s => s <| input ::= (fun i => i <| reopen_requested := false |>) |>);
      match promotion fuel with
      | PromotionTimedOut | NoIdentity => mret (X, pk)
      | PromotionFailed f => fail f
      | Connected Q =>
          result ← attempt (secure_direct_connection_with_input C Q peer_config_id);
          match result with
          | Ok quic_pk =>
              if negb (bool_decide (quic_pk = pk))
              then bail "Handshake failed: QUIC upgrade identity does not match the paired TCP identity"
              else mret (Q, quic_pk)
          | Err ReopenAfterApproval => promote fuel C peer_config_id promotion X pk
          | Err error => fail error
          | Panic => from Panic
          end
      end
  end.

Definition promote_confirmed_direct_to_quic (C : Settings) (peer_config_id : string) (promotion : nat -> Promotion) (X : Exchange) (pk : bytes)
    : M (Exchange * bytes) :=
  if is_quic X then mret (X, pk) else promote 3 C peer_config_id promotion X pk.

Definition MAX_ATTEMPTS : nat := 5.

Definition connect_secure_direct_with_pairing_retry (C : Settings) (peer_config_id : string) (now : nat -> Z) (store_io : result unit)
    (connection : nat -> Connection) (promotion : nat -> Promotion) : M (Exchange * bytes) :=
  had_confirmed_pairing ← has_confirmed Direct peer_config_id (now MAX_ATTEMPTS);
  _ ← lift store_io;
  q ← gets quic_peers;
  let had_quic_trust := is_some (q !! peer_config_id) in
  _ ← modify (fun s => s <| input := default_input <| can_reopen := true |> |>);
  '(X, pk) ← direct_attempts MAX_ATTEMPTS C peer_config_id had_confirmed_pairing now connection false false;
  if had_quic_trust && negb (is_quic X) then mret (X, pk)
  else promote_confirmed_direct_to_quic C peer_config_id promotion X pk.

(** The closure of [Client::start] around one attempt, and the loop that repeats it. *)
Definition start_attempt {T} (op : M T) : M T :=
  result ← attempt op;
  i ← gets input;
  match result with
  | Ok t => mret t
  | Panic => from Panic
  | Err error =>
      if reopen_requested i then
        _ ← modify (fun s => s <| input ::= (fun i => i <| reopen_requested := false |>) |>);
        fail ReopenAfterApproval
      else match error with
           | QuicIdentityRepairRequired _ =>
               if negb (require_authenticated_repair i) then
                 _ ← modify (fun s => s <| input ::= (fun i => i <| require_authenticated_repair := true |>) |>);
                 fail ReopenAfterApproval
               else fail error
           | _ => fail error
           end
  end.

Fixpoint rendezvous_attempts {T} (fuel : nat) (peer_config_id : string) (now : nat -> Z) (had_confirmed_pairing : bool) (op : nat -> M T)
    (retried_remembered retried_rejected : bool) : M T :=
  match fuel with
  | O => bail "Handshake failed: authentication retry limit reached"
  | S fuel =>
      result ← attempt (op fuel);
      match result with
      | Ok t => mret t
      | Panic => from Panic
      | Err ReopenAfterApproval => rendezvous_attempts fuel peer_config_id now had_confirmed_pairing op retried_remembered retried_rejected
      | Err error =>
          if negb retried_rejected && is_rejected error
          then rendezvous_attempts fuel peer_config_id now had_confirmed_pairing op retried_remembered true
          else
          still ← (if had_confirmed_pairing then has_confirmed Rendezvous peer_config_id (now fuel) else mret true);
          if negb (had_confirmed_pairing && negb still) || retried_remembered then fail error
          else rendezvous_attempts fuel peer_config_id now had_confirmed_pairing op true retried_rejected
      end
  end.

Definition retry_after_cleared_rendezvous_pairing {T} (peer_config_id : string) (now : nat -> Z) (op : nat -> M T) : M T :=
  had_confirmed_pairing ← has_confirmed Rendezvous peer_config_id (now MAX_ATTEMPTS);
  rendezvous_attempts MAX_ATTEMPTS peer_config_id now had_confirmed_pairing op false false.
(** ** The host *)

Inductive HandshakeMode := ModeDisabled | ModeRendezvous | ModeDirect.
#[export] Instance HandshakeMode_eq_dec : EqDecision HandshakeMode.
Proof. solve_decision. Defined.

Record HostSettings := {
  h_local_id : string;
  h_secret_key : bytes;
  h_public_key : bytes;
  direct_access_pairing_passphrase : string;
  peer_pairing_passphrase : string;
  h_remember_paired_viewers : bool;
  h_directional_secretbox_enabled : bool;
  h_quic_certificate_der : result bytes;
}.

Definition get_effective_direct_access_pairing_passphrase (C : HostSettings) : string :=
  if negb (bool_decide (direct_access_pairing_passphrase C = ""%string))
  then direct_access_pairing_passphrase C else peer_pairing_passphrase C.

(** The passphrase a viewer is to prove, by the mode of the connection. *)
Definition pairing_passphrase (C : HostSettings) (mode : HandshakeMode) : string :=
  match mode with
  | ModeDirect => get_effective_direct_access_pairing_passphrase C
  | ModeRendezvous => peer_pairing_passphrase C
  | ModeDisabled => ""
  end.

(** What the host chooses for a connection: its box key pair and the salt. *)
Record HostFresh := { h_our_pk_b : bytes; h_our_sk_b : bytes; h_random_salt : bytes }.

Record Hello := { hello : Received; salt : option bytes; directional_offered : bool }.

Definition say_hello (C : HostSettings) (mode : HandshakeMode) (R : HostFresh) : result Hello :=
  if negb (length (h_public_key C) =? PUBLICKEYBYTES)%nat || negb (length (h_secret_key C) =? SECRETKEYBYTES)%nat
  then Err "Handshake failed: invalid local signing key length"%string
  else
  let pairing_salt := if bool_decide (pairing_passphrase C mode = ""%string) then None else Some (h_random_salt R) in
  let channel := host_secure_channel (h_directional_secretbox_enabled C) in
  let signed_id := create_host_signed_id (bool_decide (mode = ModeDirect)) (h_local_id C) (h_our_pk_b R)
                     (h_public_key C) (h_secret_key C) pairing_salt channel in
  certificate ← h_quic_certificate_der C;
  quic_identity ← create_direct_signed_id_with_quic (h_local_id C) (h_our_pk_b R) (h_public_key C) (h_secret_key C) certificate;
  Ok {| hello := SignedIdMsg signed_id quic_identity; salt := pairing_salt;
        directional_offered := channel =? SECURE_CHANNEL_DIRECTIONAL |}.
End handshake.

(** The list of paired viewers of the configuration. *)
Record PairedViewer := { v_sign_pk : bytes; v_time : Z; v_id : string; v_scope : string }.
Class PairedViewers (V : Type) := {
  has_paired_viewer : V -> string -> string -> bytes -> bool;
  add_paired_viewer : PairedViewer -> V -> V;
  has_add v l : has_paired_viewer (add_paired_viewer v l) (v_scope v) (v_id v) (v_sign_pk v) = true;
  add_invents_nothing v l scope i k : has_paired_viewer (add_paired_viewer v l) scope i k = true ->
    (scope = v_scope v /\ i = v_id v /\ k = v_sign_pk v) \/ has_paired_viewer l scope i k = true;
}.

(** The host's state: the viewers it remembers, the QUIC identities it trusts,
    whether its registration is confirmed, what it has sent, and the key set on
    the stream. *)
Record Host (V : Type) := {
  paired : V;
  h_quic_peers : QuicPeers;
  key_confirmed : bool;
  acks : list Received;
  h_session : option (bytes * NonceMode);
}.
Arguments paired {V} _.
Arguments h_quic_peers {V} _.
Arguments key_confirmed {V} _.
Arguments acks {V} _.
Arguments h_session {V} _.
#[export] Instance eta_Host V : Eta (Host V) := fun r =>
  Build_Host V (paired r) (h_quic_peers r) (key_confirmed r) (acks r) (h_session r).

(** The connection as the host sees it. *)
Record HostExchange := {
  h_received : Received;
  h_is_quic : bool;
  h_verify_binding : bytes -> bytes -> result unit;
  h_send : result unit;
  h_time : Z;
  h_store_io : result unit;
}.

Section host.
Context `{Signing} `{IdPkCodec} `{KeyDerivation} `{Sha256} `{Boxes} `{Candidates} {V : Type} `{PairedViewers V}.

Definition mode_scope (mode : HandshakeMode) : option string :=
  match mode with
  | ModeDirect => Some DIRECT_PAIRING_SCOPE
  | ModeRendezvous => Some RENDEZVOUS_PAIRING_SCOPE
  | ModeDisabled => None
  end.

(** The signed QUIC identity the viewer sent, checked against its key and the stream. *)
Definition read_quic_initiator (X : HostExchange) (k : PublicKey) : ST (Host V) (option DirectSignedId) :=
  if bool_decide (quic_identity k = []) then
    if h_is_quic X then bail "Handshake failed: QUIC client omitted its signed TLS certificate binding" else mret None
  else
  identity ← lift (decode_direct_id_pk (quic_identity k));
  _ ← lift (validate_direct_public_key_initiator identity (asymmetric_value k));
  certificate ← lift (ok_or (quic_certificate_der identity) "Handshake failed: client QUIC identity has no certificate"%string);
  _ ← (if h_is_quic X then lift (h_verify_binding X (sign_pk identity) certificate) else mret ());
  mret (Some identity).

Definition same_initiators (legacy quic : option DirectSignedId) : bool :=
  match legacy, quic with
  | Some l, Some q => bool_decide (id l = id q) && bool_decide (sign_pk l = sign_pk q)
  | _, _ => true
  end.

Definition required_text : string := "Handshake failed: pairing passphrase required".

(** Judges the viewer's claim to be paired: the viewer to remember, or the text
    of a refusal. *)
Definition judge_pairing (C : HostSettings) (mode : HandshakeMode) (R : HostFresh) (pairing_salt : bytes) (k : PublicKey)
    (p : DirectPublicKeyPayload) : ST (Host V) (option (string * DirectSignedId) + string) :=
  match pairing_proof p with
  | Some proof =>
      expected ← lift (compute_direct_pairing_proof (pairing_passphrase C mode) pairing_salt (h_local_id C)
                         (h_public_key C) (h_our_pk_b R) (asymmetric_value k));
      if bool_decide (proof = expected) then
        if h_remember_paired_viewers C then
          match initiator p with
          | Some i =>
              _ ← lift (validate_direct_public_key_initiator i (asymmetric_value k));
              mret (inl (scope ← mode_scope mode; Some (scope, i)))
          | None => mret (inl None)
          end
        else mret (inl None)
      else mret (inr rejected_text)
  | None =>
      trusted ← (if h_remember_paired_viewers C then
                   match initiator p with
                   | Some i =>
                       _ ← lift (validate_direct_public_key_initiator i (asymmetric_value k));
                       l ← gets paired;
                       mret (is_some_and (mode_scope mode) (fun scope => has_paired_viewer l scope (id i) (sign_pk i)))
                   | None => mret false
                   end
                 else mret false);
      mret (if trusted : bool then inl None else inr required_text)
  end.

Definition send_ack (X : HostExchange) (m : Received) : ST (Host V) unit :=
  _ ← lift (h_send X);
  modify (fun s => s <| acks ::= (fun l => l ++ [m]) |>).

Definition remember_viewer (now : Z) (scope : string) (i : DirectSignedId) (quic : bool) : ST (Host V) unit :=
  let viewer := {| v_sign_pk := sign_pk i; v_time := now; v_id := id i; v_scope := scope |} in
  _ ← modify (fun s => s <| paired ::= add_paired_viewer viewer |>);
  when quic (modify (fun s => s <| paired ::= add_paired_viewer
    {| v_sign_pk := sign_pk i; v_time := now; v_id := id i; v_scope := DIRECT_PAIRING_SCOPE |} |>)).

(** The pairing of a host that asks for it. *)
Definition accept_pairing (C : HostSettings) (mode : HandshakeMode) (R : HostFresh) (X : HostExchange) (pairing_salt : bytes)
    (k : PublicKey) (p : DirectPublicKeyPayload) (quic_initiator : option DirectSignedId) : ST (Host V) unit :=
  verdict ← judge_pairing C mode R pairing_salt k p;
  match verdict with
  | inr error_text =>
      _ ← send_ack X (MessageBoxMsg "error" error_text);
      bail error_text
  | inl paired_initiator =>
      _ ← (match quic_initiator with
           | Some i =>
               match quic_certificate_der i with
               | Some certificate =>
                   _ ← lift (validate_direct_public_key_initiator i (asymmetric_value k));
                   q ← gets h_quic_peers;
                   q ← lift (remember_paired_peer (h_store_io X) (h_time X) (id i) (sign_pk i) certificate q);
                   modify (fun s => s <| h_quic_peers := q |>)
               | None => mret ()
               end
           | None => mret ()
           end);
      _ ← (match paired_initiator with
           | Some (scope, i) => remember_viewer (h_time X) scope i (is_some quic_initiator)
           | None => mret ()
           end);
      send_ack X (SignedIdMsg direct_handshake_ack_ok [])
  end.

Definition set_session (key : bytes) (directional : bool) : ST (Host V) unit :=
  modify (fun s => s <| h_session := Some (key, session_nonce_mode directional Host_) |>).

Definition accept_public_key (C : HostSettings) (mode : HandshakeMode) (R : HostFresh) (X : HostExchange) (h : Hello) (k : PublicKey) : ST (Host V) unit :=
  if (length (asymmetric_value k) =? PUBLICKEYBYTES)%nat then
    if bool_decide (mode = ModeDirect) || is_some (salt h) then
      p ← lift (unwrap_direct_public_key_payload (symmetric_value_ k) (is_some (salt h)));
      quic_initiator ← read_quic_initiator X k;
      if negb (same_initiators (initiator p) quic_initiator)
      then bail "Handshake failed: client QUIC identity does not match paired viewer identity"
      else
      '(key, directional) ← lift (decode_session (symmetric_value p) (asymmetric_value k) (h_our_sk_b R) (directional_offered h));
      _ ← set_session key directional;
      match salt h with
      | Some pairing_salt => accept_pairing C mode R X pairing_salt k p quic_initiator
      | None => mret ()
      end
    else
      '(key, directional) ← lift (decode_session (symmetric_value_ k) (asymmetric_value k) (h_our_sk_b R) (directional_offered h));
      set_session key directional
  else if bool_decide (asymmetric_value k = []) then
    _ ← modify (fun s => s <| key_confirmed := false |>);
    bail "Handshake failed: peer rejected secure session due to missing or stale key binding"
  else bail "Handshake failed: invalid public key length from peer".

(** The handshake of [create_tcp_connection_with_mode] after the hello. *)
Definition accept_viewer (C : HostSettings) (mode : HandshakeMode) (R : HostFresh) (X : HostExchange) (h : Hello) : ST (Host V) unit :=
  match h_received X with
  | ReadError e => bail e
  | Closed => bail "Failed to receive public key"
  | Unparsed _ => bail "Handshake failed: invalid message format"
  | PublicKeyMsg k => accept_public_key C mode R X h k
  | _ => bail "Handshake failed: invalid message type"
  end.

(** The whole of it: nothing is asked of a connection without a handshake. *)
Definition create_tcp_connection_with_mode (C : HostSettings) (mode : HandshakeMode) (R : HostFresh) (X : HostExchange) : ST (Host V) unit :=
  if bool_decide (mode = ModeDisabled) then mret ()
  else
  h ← lift (say_hello C mode R);
  _ ← send_ack X (hello h);
  accept_viewer C mode R X h.

Definition mode_of_secure (secure : bool) : HandshakeMode := if secure then ModeRendezvous else ModeDisabled.

Definition create_tcp_connection (C : HostSettings) (secure : bool) : HostFresh -> HostExchange -> ST (Host V) unit :=
  create_tcp_connection_with_mode C (mode_of_secure secure).

Definition create_direct_tcp_connection (C : HostSettings) : HostFresh -> HostExchange -> ST (Host V) unit :=
  create_tcp_connection_with_mode C ModeDirect.

(** How a connection reaches the host: over a relay the other side asked for, with the
    [secure] of its request; over a relay the host itself offers; accepted on the
    socket of a punched hole or of the local network; over a punched UDP hole; at the
    listener of direct access, plain or QUIC.  Of src/src/rendezvous_mediator.rs these are
    [handle_request_relay]; [handle_intranet] and [handle_punch_hole], where they call
    [create_relay]; [handle_intranet_] and [handle_punch_hole], where they call
    [accept_connection]; [udp_nat_listen]; and [direct_server], as does src/src/
    quic_transport.rs. *)
Inductive Entry := RelayRequested (secure : bool) | RelayOffered | TcpAccepted | UdpPunched | DirectAccess.
#[export] Instance Entry_eq_dec : EqDecision Entry.
Proof. solve_decision. Defined.

Definition host_serves (C : HostSettings) (e : Entry) : HostFresh -> HostExchange -> ST (Host V) unit :=
  match e with
  | RelayRequested secure => create_tcp_connection C secure
  | RelayOffered | TcpAccepted | UdpPunched => create_tcp_connection C true
  | DirectAccess => create_direct_tcp_connection C
  end.

(** The passphrase a viewer that comes this way is to know. *)
Definition entry_passphrase (C : HostSettings) (e : Entry) : string :=
  match e with
  | DirectAccess => get_effective_direct_access_pairing_passphrase C
  | _ => peer_pairing_passphrase C
  end.
Definition entry_mode (e : Entry) : HandshakeMode :=
  match e with
  | RelayRequested secure => mode_of_secure secure
  | DirectAccess => ModeDirect
  | _ => ModeRendezvous
  end.
End host.
