(* ===== verification/HandshakeTheory.v ===== *)
(** * What the handshake guarantees

    The properties of the file PeerHandshake: what the viewer may come to trust
    and on whose word, what the user is asked, what a host accepts and
    remembers, and that two peers with the same passphrase end with the same
    key. *)

From S2P Require Import Prelude ClipboardTypes Fingerprint SignedIdentity PeerTrust PeerHandshake.
From Stdlib Require Import Ascii.
From Stdlib Require String.
#[local] Open Scope list_scope.
#[local] Open Scope Z_scope.

Abbreviation bytes := (list Z) (only parsing).

(** ** Computations, taken apart *)

(** [wp m s N E]: run from [s], [m] ends with a value and a state in [N], or in
    an error or a panic with a state in [E]. *)
Definition wp {S A} (m : ST S A) (s : S) (N : A -> S -> Prop) (E : S -> Prop) : Prop :=
  match m s with (Ok a, s') => N a s' | (_, s') => E s' end.

Section wp.
Context {S : Type}.

Lemma wps_bind {A B} (m : ST S A) (f : A -> ST S B) s N E :
  wp m s (fun a s' => wp (f a) s' N E) E -> wp (m ≫= f) s N E.
Proof. unfold wp, mbind, ST_bind; by destruct (m s) as [[a|e|] s1]. Qed.
Lemma wps_ret {A} (a : A) s (N : A -> S -> Prop) E : N a s -> wp (mret a) s N E.
Proof. done. Qed.
Lemma wps_lift {A} (r : outcome string A) s (N : A -> S -> Prop) (E : S -> Prop) :
  (forall a, r = Ok a -> N a s) -> E s -> wp (lift r) s N E.
Proof. unfold wp, lift; destruct r; auto. Qed.
Lemma wps_fail {A} f s (N : A -> S -> Prop) (E : S -> Prop) : E s -> wp (fail f) s N E.
Proof. done. Qed.
Lemma wps_gets {A} (g : S -> A) s (N : A -> S -> Prop) E : N (g s) s -> wp (gets g) s N E.
Proof. done. Qed.
Lemma wps_modify (g : S -> S) s (N : unit -> S -> Prop) E : N () (g s) -> wp (modify g) s N E.
Proof. done. Qed.
Lemma wps_mono {A} (m : ST S A) s N N' (E E' : S -> Prop) :
  wp m s N E -> (forall a s', N a s' -> N' a s') -> (forall s', E s' -> E' s') -> wp m s N' E'.
Proof. unfold wp; destruct (m s) as [[a|e|] s1]; auto. Qed.
Lemma wps_end {A} (m : ST S A) s N E r s' : wp m s N E -> m s = (r, s') ->
  match r with Ok a => N a s' | _ => E s' end.
Proof. unfold wp; by intros Hw Em; rewrite Em in Hw; destruct r. Qed.
Lemma wps_attempt {A} (m : ST S A) s (N : A -> S -> Prop) (E : S -> Prop) :
  wp m s N E -> wp (attempt m) s (fun r s' => match r with Ok a => N a s' | _ => E s' end) E.
Proof. unfold wp, attempt; by destruct (m s) as [[a|e|] s1]. Qed.
Lemma wps_eq {A} (m : ST S A) s (N : A -> S -> Prop) (E : S -> Prop) :
  (forall a s', m s = (Ok a, s') -> N a s') -> (forall r s', m s = (r, s') -> (forall a, r <> Ok a) -> E s') -> wp m s N E.
Proof. unfold wp; intros HN HE; destruct (m s) as [[a|e|] s1]; eauto. Qed.
End wp.

(** [steps R m]: whatever [m] returns, it leaves a state [R]-related to the one
    it was run from. *)
Definition steps {S A} (R : S -> S -> Prop) (m : ST S A) : Prop := forall s, R s (m s).2.
(** The states that agree on what [f] reads. *)
Definition same {S X} (f : S -> X) : S -> S -> Prop := fun s s' => f s' = f s.
Abbreviation keeps f := (steps (same f)).

#[export] Instance same_preorder {S X} (f : S -> X) : PreOrder (same f).
Proof. unfold same; split; [by intros s|intros s t u; congruence]. Qed.

Section stepping.
Context {S : Type} (R : S -> S -> Prop) `{!PreOrder R}.

Lemma step_ret {A} (a : A) : steps R (mret a).
Proof. intros s; cbn; reflexivity. Qed.
Lemma step_lift {A} (r : outcome string A) : steps R (lift r).
Proof. intros s; cbn; reflexivity. Qed.
Lemma step_fail {A} (e : failure) : steps R (@fail S A e).
Proof. intros s; cbn; reflexivity. Qed.
Lemma step_from {A} (r : outcome failure A) : steps R (from r).
Proof. intros s; cbn; reflexivity. Qed.
Lemma step_gets {A} (g : S -> A) : steps R (gets g).
Proof. intros s; cbn; reflexivity. Qed.
Lemma step_modify (g : S -> S) : (forall s, R s (g s)) -> steps R (modify g).
Proof. intros Hg s; apply Hg. Qed.
Lemma step_bind {A B} (m : ST S A) (g : A -> ST S B) : steps R m -> (forall a, steps R (g a)) -> steps R (m ≫= g).
Proof.
  intros Hm Hg s; unfold mbind, ST_bind; specialize (Hm s).
  destruct (m s) as [[a|e|] s1]; cbn in *; [|done..].
  etrans; [exact Hm|apply Hg].
Qed.
Lemma step_when (b : bool) (m : ST S unit) : steps R m -> steps R (when b m).
Proof. destruct b; [done|]; intros _; apply step_ret. Qed.
Lemma step_attempt {A} (m : ST S A) : steps R m -> steps R (attempt m).
Proof. intros Hm s; unfold attempt; specialize (Hm s); by destruct (m s) as [[a|e|] s1]. Qed.
Lemma step_run {A} (m : ST S A) s r s' : steps R m -> m s = (r, s') -> R s s'.
Proof. intros Hm E; specialize (Hm s); by rewrite E in Hm. Qed.
Lemma wp_steps {A} (m : ST S A) s : steps R m -> wp m s (fun _ s' => R s s') (fun s' => R s s').
Proof. intros Hm; specialize (Hm s); unfold wp; by destruct (m s) as [[a|e|] s1]. Qed.
(** A specification with what [R] adds to it. *)
Lemma wp_and_steps {A} (m : ST S A) s N E : steps R m -> wp m s N E -> wp m s (fun a s' => N a s' /\ R s s') (fun s' => E s' /\ R s s').
Proof. intros Hm; specialize (Hm s); unfold wp; by destruct (m s) as [[a|e|] s1]. Qed.
End stepping.

Create HintDb steps discriminated.
#[export] Hint Resolve step_ret step_lift step_fail step_from step_gets : steps.
#[export] Hint Extern 1 (PreOrder _) => typeclasses eauto : steps.

(** Descends through binds, conditionals and matches. *)
Ltac steps :=
  repeat (cbv zeta; lazymatch goal with
  | |- steps _ (mbind _ _) => apply step_bind; [typeclasses eauto| |intros ?]
  | |- steps _ (when _ _) => apply step_when; [typeclasses eauto|]
  | |- steps _ (attempt _) => apply step_attempt
  | |- steps _ (modify _) => apply step_modify; intros ?; try (red; reflexivity)
  | |- steps _ (bail _) => apply step_fail; typeclasses eauto
  | |- steps _ reopen => unfold reopen
  | |- steps _ (if ?b then _ else _) => destruct b
  | |- steps _ (match ?x with _ => _ end) => destruct x
  | |- steps _ _ => solve [auto with steps]
  end).

Lemma elem_snoc {A} (l : list A) x : x ∈ l ++ [x].
Proof. apply elem_of_app; right; by left. Qed.

Section viewer.
Context `{Signing} `{IdPkCodec} `{KeyDerivation} `{Sha256} `{Base64} `{Boxes} `{Candidates}.

(** *** The pins *)

(** The key pinned for each peer. *)
Definition pins (s : Viewer) (cfg : string) : option string := load (peers s) cfg !! PEER_OPTION_PINNED_SIGNING_KEY.

Lemma option_is_no_pin scope option : paired_viewer_confirmed_option scope = Some option -> option <> PEER_OPTION_PINNED_SIGNING_KEY.
Proof. unfold paired_viewer_confirmed_option; repeat case_bool_decide; intros [= <-]; done. Qed.

Lemma set_confirmed_pins scope cfg b now p cfg' :
  load (set_confirmed_paired_viewer scope cfg b now p) cfg' !! PEER_OPTION_PINNED_SIGNING_KEY =
  load p cfg' !! PEER_OPTION_PINNED_SIGNING_KEY.
Proof.
  unfold set_confirmed_paired_viewer; destruct (paired_viewer_confirmed_option scope) as [o|] eqn:E; [|done].
  apply option_is_no_pin in E; cbv zeta; destruct (decide (cfg' = cfg)) as [->|Hne].
  - destruct b; [case_bool_decide|destruct (is_some _)]; try done; rewrite load_store.
    + by rewrite lookup_insert_ne.
    + by rewrite lookup_delete_ne.
  - destruct b; [case_bool_decide|destruct (is_some _)]; try done; by rewrite load_store_ne.
Qed.

Lemma has_confirmed_pins scope cfg now p cfg' :
  load (has_confirmed_paired_viewer scope cfg now p).2 cfg' !! PEER_OPTION_PINNED_SIGNING_KEY =
  load p cfg' !! PEER_OPTION_PINNED_SIGNING_KEY.
Proof.
  unfold has_confirmed_paired_viewer; destruct (paired_viewer_confirmed_option scope); [|done].
  destruct (load p cfg !! _); [|done]; case_bool_decide; [apply set_confirmed_pins|done].
Qed.

Definition pin_of (cfg : string) (s : Viewer) : option string := pins s cfg.

Lemma keeps_has_confirmed sc cfg now cfg' : keeps (pin_of cfg') (has_confirmed sc cfg now).
Proof.
  intros s; unfold has_confirmed; pose proof (has_confirmed_pins (scope_name sc) cfg now (peers s) cfg') as E.
  by destruct (has_confirmed_paired_viewer _ _ _ _).
Qed.
Lemma keeps_set_confirmed sc cfg b now cfg' : keeps (pin_of cfg') (set_confirmed sc cfg b now).
Proof. intros s; apply set_confirmed_pins. Qed.
Hint Resolve keeps_has_confirmed keeps_set_confirmed : steps.

Lemma keeps_prove_pairing C X d u cfg : keeps (pin_of cfg) (prove_pairing C X d u).
Proof. unfold prove_pairing, ask_passphrase, needs_fresh_socket; steps. Qed.
Lemma keeps_answer sc C X cfg d p cfg' : keeps (pin_of cfg') (answer_host sc C X cfg d p).
Proof.
  unfold answer_host; destruct (create_symmetric_key_msg_with_mode _ _ _) as [[asym sealed] key]; cbv zeta; steps.
  apply keeps_prove_pairing.
Qed.
Lemma keeps_read_ack sc X cfg d a cfg' : keeps (pin_of cfg') (read_acknowledgement sc X cfg d a).
Proof. unfold read_acknowledgement, clear_refused_paired_viewer; steps. Qed.
Lemma keeps_remember_quic X i k c cfg : keeps (pin_of cfg) (remember_quic X i k c).
Proof. unfold remember_quic; steps. Qed.


Lemma wp_update_peers g s (N : unit -> Viewer -> Prop) (E : Viewer -> Prop) :
  (forall p, g (peers s) = Ok p -> N () (s <| peers := p |>)) -> E s -> wp (update_peers g) s N E.
Proof.
  intros HN HE; unfold update_peers; apply wps_bind, wps_gets, wps_bind, wps_lift; [|done].
  intros p Hp; by apply wps_modify, HN.
Qed.

Lemma pin_trusted_pins bootstrap peer_id cfg pk p q : pin_trusted_peer_signing_key bootstrap peer_id cfg pk p = Ok q ->
  (forall c, c <> cfg -> load q c = load p c) /\
  (q = p \/ non_empty (load p cfg !! PEER_OPTION_PINNED_SIGNING_KEY) = None /\
   load q cfg !! PEER_OPTION_PINNED_SIGNING_KEY = Some (encode_pinned_peer_signing_key pk)).
Proof.
  intros E; destruct (pin_spec _ _ _ _ _ _ E) as [[_ ->]|[Hm ->]]; [by auto|]; unfold pinned_with; split.
  - intros c Hc; by rewrite load_store_ne.
  - right; rewrite load_store, lookup_insert_eq; split; [|done].
    unfold trusted_peer_signing_key_status in Hm; case_bool_decide; [done|]; case_bool_decide; cbn [negb] in Hm.
    + unfold pinned_peer_signing_key_status in Hm; destruct (non_empty _); [|done].
      destruct (decode64 _); [case_bool_decide|]; done.
    + by destruct (validate_bootstrap_trusted_peer_signing_key _ _).
Qed.

(** What confirming a key without a pairing does to the pins. *)
Lemma wp_confirm_unpaired sc C X cfg d pending s :
  let same s' := forall c, c <> cfg -> pins s' c = pins s c in
  let consent s' := pairing_required d = false /\ allow_unverified_peer_trust C = true /\ non_empty (pins s cfg) = None /\
    pins s' cfg = Some (encode_pinned_peer_signing_key (sign_pk d)) /\
    exists p, pending = Some p /\ TrustConfirmed (id d) (fingerprint p) ∈ prompts s' in
  wp (confirm_unpaired sc C X cfg d pending) s
    (fun r s' => same s' /\ (pins s' cfg = pins s cfg \/ consent s') /\
       (forall p, r.2 = Some p -> s' = s /\ pending = Some p /\ pairing_required d = true))
    (fun s' => same s' /\ (pins s' cfg = pins s cfg \/ consent s')).
Proof.
  cbv zeta; unfold confirm_unpaired; destruct pending as [p|]; [|apply wps_ret; cbn; naive_solver].
  destruct (pairing_required d) eqn:Er; cbn [negb]; [apply wps_ret; cbn; naive_solver|].
  destruct (replace_existing_pin p); [by apply wps_fail; auto|].
  destruct (allow_unverified_peer_trust C) eqn:Ea; cbn [negb]; [|by apply wps_fail; auto].
  unfold ask_trust; apply wps_bind, wps_bind, wps_lift; [|by auto]; intros [] _; apply wps_modify, wps_bind, wp_update_peers; [|by auto].
  cbn; intros q Hq.
  apply pin_trusted_pins in Hq as [Hsame Hq].
  assert (Hl : forall t, pins t cfg = load q cfg !! PEER_OPTION_PINNED_SIGNING_KEY ->
    TrustConfirmed (id d) (fingerprint p) ∈ prompts t ->
    pins t cfg = pins s cfg \/ pairing_required d = false /\ allow_unverified_peer_trust C = true /\
    non_empty (pins s cfg) = None /\ pins t cfg = Some (encode_pinned_peer_signing_key (sign_pk d)) /\
    exists p', Some p = Some p' /\ TrustConfirmed (id d) (fingerprint p') ∈ prompts t).
  { intros t Ht Hin; rewrite Ht; destruct Hq as [->|[Hn Hq]]; [by left|right]; rewrite Hq; eauto 8. }
  rewrite Er, Ea in Hl.
  apply wps_bind, wps_bind, wps_gets, wps_ret; destruct (_ && _).
  - apply wps_bind, wps_modify, wps_fail; split; [intros c Hc; unfold pins; cbn; by rewrite Hsame|].
    apply Hl; [done|apply elem_snoc].
  - apply wps_ret; split; [intros c Hc; unfold pins; cbn; by rewrite Hsame|]; split; [|done].
    apply Hl; [done|apply elem_snoc].
Qed.

(** *** The prompts *)

(** The user's answers are only ever added to. *)
Definition more_prompts (s s' : Viewer) : Prop := prompts s `prefix_of` prompts s'.
#[local] Instance more_prompts_preorder : PreOrder more_prompts.
Proof. unfold more_prompts; split; [by intros s|intros s t u; intros; by etrans]. Qed.

Lemma more_has_confirmed sc cfg now : steps more_prompts (has_confirmed sc cfg now).
Proof. intros s; unfold has_confirmed, more_prompts; destruct (has_confirmed_paired_viewer _ _ _ _); reflexivity. Qed.
Lemma more_set_confirmed sc cfg b now : steps more_prompts (set_confirmed sc cfg b now).
Proof. intros s; unfold more_prompts; reflexivity. Qed.
Lemma more_update_peers g : steps more_prompts (update_peers g).
Proof. unfold update_peers; steps. Qed.
Lemma more_remember_quic X i k c : steps more_prompts (remember_quic X i k c).
Proof. unfold remember_quic; steps. Qed.
Hint Resolve more_has_confirmed more_set_confirmed more_update_peers more_remember_quic : steps.

Lemma more_ask_trust X i p : steps more_prompts (ask_trust X i p).
Proof. unfold ask_trust; steps; unfold more_prompts; cbn; by apply prefix_app_r. Qed.
Lemma more_confirm_repair X d b p : steps more_prompts (confirm_repair X d b p).
Proof. unfold confirm_repair; steps; apply more_ask_trust. Qed.
Lemma more_prove_pairing C X d u : steps more_prompts (prove_pairing C X d u).
Proof. unfold prove_pairing, ask_passphrase, needs_fresh_socket; steps; unfold more_prompts; cbn; by apply prefix_app_r. Qed.
Hint Resolve more_ask_trust more_confirm_repair more_prove_pairing : steps.
Lemma more_answer sc C X cfg d p : steps more_prompts (answer_host sc C X cfg d p).
Proof. unfold answer_host; destruct (create_symmetric_key_msg_with_mode _ _ _) as [[asym sealed] key]; steps. Qed.
Lemma more_confirm_unpaired sc C X cfg d p : steps more_prompts (confirm_unpaired sc C X cfg d p).
Proof. unfold confirm_unpaired, needs_fresh_socket; steps. Qed.
Lemma more_read_ack sc X cfg d a : steps more_prompts (read_acknowledgement sc X cfg d a).
Proof. unfold read_acknowledgement, clear_refused_paired_viewer; steps. Qed.
Lemma more_settle sc C X cfg d b t p a : steps more_prompts (settle sc C X cfg d b t p a).
Proof. unfold settle, settle_pairing; steps. Qed.
Hint Resolve more_answer more_confirm_unpaired more_read_ack more_settle : steps.
Lemma more_complete sc C X cfg d b p : steps more_prompts (complete sc C X cfg d b p).
Proof. unfold complete; steps. Qed.
Lemma more_bind_peer i k : steps more_prompts (bind_peer i k).
Proof. unfold bind_peer; steps. Qed.
Hint Resolve more_complete more_bind_peer : steps.

(** *** The answer *)

(** A proof is sent exactly for a host that asks for one and is not to recognize
    the viewer, and it is computed from what the user has typed. *)
Definition typed (d : DirectSignedId) (s s' : Viewer) : Prop :=
  is_some (passphrase (input s)) = true \/ PassphraseEntered (id d) ∈ prompts s'.

Lemma wp_prove C X d use s :
  wp (prove_pairing C X d use) s
    (fun proof s' => peers s' = peers s /\
       (use = false -> pairing_salt d <> None -> is_some proof = true /\ typed d s s') /\
       (is_some proof = true -> typed d s s'))
    (fun s' => peers s' = peers s).
Proof.
  unfold prove_pairing, typed; destruct (pairing_salt d) as [sl|]; [|by apply wps_ret].
  apply wps_bind, wps_lift; [|done]; intros our _; destruct use; [by apply wps_ret|].
  unfold ask_passphrase; apply wps_bind, wps_bind, wps_gets, wps_bind, wps_modify.
  assert (Hrest : forall secret s1, peers s1 = peers s ->
    (is_some (passphrase (input s)) = true \/ PassphraseEntered (id d) ∈ prompts s1) ->
    wp (late ← needs_fresh_socket (late_passphrase X);
        if late : bool then
          _ ← modify (fun s => s <| input ::= (fun i => i <| passphrase := Some secret |>) |>); reopen
        else
        proof ← lift (compute_direct_pairing_proof secret sl (id d) (sign_pk d) (box_pk d) our);
        mret (Some proof)) s1
      (fun proof s' => peers s' = peers s /\
       (false = false -> Some sl <> None -> is_some proof = true /\
          (is_some (passphrase (input s)) = true \/ PassphraseEntered (id d) ∈ prompts s')) /\
       (is_some proof = true -> is_some (passphrase (input s)) = true \/ PassphraseEntered (id d) ∈ prompts s'))
    (fun s' => peers s' = peers s)).
  { intros secret s1 Hp Ht; apply wps_bind; unfold needs_fresh_socket; apply wps_bind, wps_gets, wps_ret.
    destruct (_ && _).
    - apply wps_bind, wps_modify; unfold reopen; by apply wps_bind, wps_modify, wps_fail.
    - apply wps_bind, wps_lift; [|done]; intros proof _; apply wps_ret; cbn; auto. }
  destruct (passphrase (input s)) eqn:Ep; cbn [is_some is_none negb] in *.
  - apply wps_ret; apply Hrest; [done|by left].
  - apply wps_bind, wps_lift; [|done]; intros secret _; apply wps_bind, wps_modify, wps_ret, Hrest; [done|right; apply elem_snoc].
Qed.

Lemma peers_answer_tail C X d use : keeps peers (prove_pairing C X d use).
Proof. unfold prove_pairing, ask_passphrase, needs_fresh_socket; steps. Qed.

Lemma wp_answer sc C X cfg d pending s :
  wp (answer_host sc C X cfg d pending) s
    (fun a s' => sent s' = Some (message a) /\
       (is_some pending = true -> pairing_salt d <> None ->
        pairing_was_proven a = true /\ use_paired_viewer a = false) /\
       (pairing_was_proven a = true -> typed d s s'))
    (fun _ => True).
Proof.
  unfold answer_host; destruct (create_symmetric_key_msg_with_mode _ _ _) as [[asym sealed] key]; cbv zeta.
  set (by_identity := _ && _ && _).
  assert (Huse : wp (if by_identity && is_none pending then has_confirmed sc cfg (time_before X) else mret false) s
    (fun use s' => input s' = input s /\ prompts s' = prompts s /\ (is_some pending = true -> use = false)) (fun _ => True)).
  { destruct (by_identity && is_none pending) eqn:Eb; [|by apply wps_ret].
    unfold wp, has_confirmed; destruct (has_confirmed_paired_viewer _ _ _ _); cbn; repeat split.
    apply andb_true_iff in Eb as [_ Eb]; by destruct pending. }
  apply wps_bind; eapply wps_mono; [exact Huse| |done]; intros use s1 (Hi & Hpr & Hu); cbn.
  apply wps_bind; eapply wps_mono with (N := fun _ s' => s' = s1) (E := fun _ => True); [| |done].
  { destruct by_identity; [apply wps_bind, wps_lift; [|done]; intros; by apply wps_ret|by apply wps_ret]. }
  intros initiator ? ->; cbn.
  apply wps_bind; eapply wps_mono with (N := fun _ s' => s' = s1) (E := fun _ => True); [| |done].
  { destruct (is_some (quic_certificate_der d)); [by apply wps_lift|by apply wps_ret]. }
  intros quic ? ->; cbn.
  apply wps_bind; eapply wps_mono; [apply wp_prove| |done]; intros proof s2 (Hp & Hproof & Ht); cbn.
  apply wps_bind, wps_lift; [|done]; intros sv _; apply wps_bind, wps_lift; [|done]; intros [] _.
  apply wps_bind, wps_modify, wps_ret; cbn [message pairing_was_proven use_paired_viewer].
  split; [done|]; unfold typed in *; rewrite Hi in *; split.
  - intros Hpend Hsalt; specialize (Hu Hpend); subst use; split; [by apply Hproof|done].
  - intros Hs; cbn; auto.
Qed.

Lemma wp_read_ack sc X cfg d a s :
  wp (read_acknowledgement sc X cfg d a) s
    (fun _ s' => s' = s /\ (pairing_required d = true -> exists q, answer X (message a) = SignedIdMsg direct_handshake_ack_ok q))
    (fun _ => True).
Proof.
  unfold read_acknowledgement; destruct (pairing_required d); [|by apply wps_ret].
  assert (Hrefused : forall (text : string) (N : unit -> Viewer -> Prop),
    wp (_ ← clear_refused_paired_viewer sc cfg (use_paired_viewer a) (time_after X); bail text) s N (fun _ => True)).
  { intros text N; apply wps_bind; unfold clear_refused_paired_viewer, when, set_confirmed.
    destruct (use_paired_viewer a); [apply wps_modify|apply wps_ret]; by apply wps_fail. }
  destruct (answer X (message a)) as [e| |e|i q|k|t text|] eqn:E; try apply Hrefused; try by apply wps_fail.
  - unfold is_direct_handshake_ack_ok; case_bool_decide as Hi; [|apply Hrefused].
    apply wps_ret; split; [done|]; intros _; exists q; by rewrite Hi.
  - case_bool_decide; apply Hrefused.
Qed.

Lemma trust_after_pins bootstrap peer_id cfg pk p q : trust_peer_signing_key_after_pairing bootstrap peer_id cfg pk p = Ok q ->
  (forall c, c <> cfg -> load q c = load p c) /\
  (q = p \/ load q cfg !! PEER_OPTION_PINNED_SIGNING_KEY = Some (encode_pinned_peer_signing_key pk)).
Proof.
  intros E; pose proof (trust_after_pairing_spec _ _ _ _ _ _ E) as Hs; case_bool_decide.
  - destruct Hs as [[-> _]| ->]; [by auto|]; unfold pinned_with; split.
    + intros c Hc; by rewrite load_store_ne.
    + right; by rewrite load_store, lookup_insert_eq.
  - destruct Hs as [-> _]; by auto.
Qed.

Lemma keeps_settle_pairing sc X cfg d was tc a c : keeps (pin_of c) (settle_pairing sc X cfg d was tc a).
Proof. unfold settle_pairing; steps; apply keeps_remember_quic. Qed.

(** Everything after the trust that was pending leaves the pins alone. *)
Lemma wp_settle sc C X cfg d was tc pending a s :
  let changed s' := (forall c, c <> cfg -> pins s' c = pins s c) /\
    (pins s' cfg = pins s cfg \/
     is_some pending = true /\ pins s' cfg = Some (encode_pinned_peer_signing_key (sign_pk d))) in
  wp (settle sc C X cfg d was tc pending a) s (fun _ => changed) changed.
Proof.
  cbv zeta; unfold settle; apply wps_bind.
  assert (Hgo : forall s1, (forall c, c <> cfg -> pins s1 c = pins s c) ->
    (pins s1 cfg = pins s cfg \/ is_some pending = true /\ pins s1 cfg = Some (encode_pinned_peer_signing_key (sign_pk d))) ->
    forall (s' : Viewer), (forall c, same (pin_of c) s1 s') ->
    (forall c, c <> cfg -> pins s' c = pins s c) /\
    (pins s' cfg = pins s cfg \/ is_some pending = true /\ pins s' cfg = Some (encode_pinned_peer_signing_key (sign_pk d)))).
  { unfold same, pin_of; intros s1 Ha Hb s' Hs; split; [intros c Hc; by rewrite Hs, Ha|by rewrite Hs]. }
  assert (Hs1 : wp (when (is_some pending) (update_peers (trust_peer_signing_key_after_pairing
      (get_bootstrap_trusted_peer_key C) (id d) cfg (sign_pk d)))) s
    (fun _ s1 => (forall c, c <> cfg -> pins s1 c = pins s c) /\
      (pins s1 cfg = pins s cfg \/ is_some pending = true /\ pins s1 cfg = Some (encode_pinned_peer_signing_key (sign_pk d))))
    (fun s' => s' = s)).
  { destruct (is_some pending); cbn [when]; [|by apply wps_ret; auto]; apply wp_update_peers; [|done].
    intros q Hq; apply trust_after_pins in Hq as [Ho Hp]; split; [intros c Hc; unfold pins; cbn; by rewrite Ho|].
    destruct Hp as [->|Hp]; [by left|by right]. }
  eapply wps_mono; [exact Hs1| |intros ? ->; by auto].
  intros [] s1 [Ha Hb]; cbn; apply wps_eq; [intros ? s' Es|intros r s' Es _]; apply (Hgo s1 Ha Hb); intros c;
    (eapply step_run; [apply keeps_settle_pairing|exact Es]).
Qed.

(** *** Consent

    What the user has agreed to when the key pinned for a peer changes: the
    fingerprint of a peer that has no pin, or a passphrase the peer has
    acknowledged. *)
Inductive consent (C : Settings) (X : Exchange) (d : DirectSignedId) (s s' : Viewer) (pin : option string) : Prop :=
| by_fingerprint :
    pairing_required d = false -> allow_unverified_peer_trust C = true -> non_empty pin = None ->
    TrustConfirmed (id d) (pk_to_fingerprint (sign_pk d)) ∈ prompts s' -> consent C X d s s' pin
| by_passphrase k q :
    pairing_required d = true -> typed d s s' -> sent s' = Some k ->
    answer X k = SignedIdMsg direct_handshake_ack_ok q -> consent C X d s s' pin.

Definition pins_follow (C : Settings) (X : Exchange) (cfg : string) (d : DirectSignedId) (s s' : Viewer) : Prop :=
  (forall c, c <> cfg -> pins s' c = pins s c) /\
  (pins s' cfg = pins s cfg \/
   pins s' cfg = Some (encode_pinned_peer_signing_key (sign_pk d)) /\ consent C X d s s' (pins s cfg)).

Lemma keeps_sent_settle sc C X cfg d was tc p a : keeps sent (settle sc C X cfg d was tc p a).
Proof.
  unfold settle, settle_pairing, remember_quic, update_peers, set_confirmed; steps;
    intros s; unfold has_confirmed, same; by destruct (has_confirmed_paired_viewer _ _ _ _).
Qed.

Lemma more_elem s s' x : more_prompts s s' -> x ∈ prompts s -> x ∈ prompts s'.
Proof. intros [k E] Hx; rewrite E; apply elem_of_app; by left. Qed.

Lemma typed_later d s s1 s2 : typed d s s1 -> more_prompts s1 s2 -> typed d s s2.
Proof. intros [Ht|Ht] Hm; [by left|right]; by eapply more_elem. Qed.

(** Steps that leave the pins alone and only add prompts. *)
Definition quiet (s s' : Viewer) : Prop := (forall c, pins s' c = pins s c) /\ more_prompts s s'.
#[local] Instance quiet_preorder : PreOrder quiet.
Proof.
  split; [by intros s; split|]; intros s t u [P1 M1] [P2 M2]; split; [intros c; by rewrite P2, P1|by etrans].
Qed.
Lemma quiet_steps {A} (m : M A) : (forall c, keeps (pin_of c) m) -> steps more_prompts m -> steps quiet m.
Proof. intros Hp Hm s; split; [intros c; apply Hp|apply Hm]. Qed.
Lemma quiet_answer sc C X cfg d p : steps quiet (answer_host sc C X cfg d p).
Proof. apply quiet_steps; [intros; apply keeps_answer|apply more_answer]. Qed.
Lemma quiet_read_ack sc X cfg d a : steps quiet (read_acknowledgement sc X cfg d a).
Proof. apply quiet_steps; [intros; apply keeps_read_ack|apply more_read_ack]. Qed.

Lemma wp_complete sc C X cfg d was pending s :
  (forall p, pending = Some p -> fingerprint p = pk_to_fingerprint (sign_pk d)) ->
  (pairing_required d = true -> pairing_salt d <> None) ->
  wp (complete sc C X cfg d was pending) s (fun _ => pins_follow C X cfg d s) (pins_follow C X cfg d s).
Proof.
  intros Hfp Hsalt; unfold complete; apply wps_bind.
  pose proof (wp_and_steps _ _ s _ _ (more_confirm_unpaired sc C X cfg d pending) (wp_confirm_unpaired sc C X cfg d pending s)) as Hc.
  assert (Hfirst : forall s1, (forall c, c <> cfg -> pins s1 c = pins s c) ->
    (pins s1 cfg = pins s cfg \/ pairing_required d = false /\ allow_unverified_peer_trust C = true /\
     non_empty (pins s cfg) = None /\ pins s1 cfg = Some (encode_pinned_peer_signing_key (sign_pk d)) /\
     exists p, pending = Some p /\ TrustConfirmed (id d) (fingerprint p) ∈ prompts s1) ->
    forall s2, (forall c, pins s2 c = pins s1 c) -> more_prompts s1 s2 -> pins_follow C X cfg d s s2).
  { intros s1 Ho Hp s2 Heq Hm; split; [intros c Hne; by rewrite Heq, Ho|]; rewrite Heq.
    destruct Hp as [Hp|(Hr & Ha & Hn & Hp & p & Ep & Hin)]; [by left|right; split; [done|]].
    rewrite (Hfp p Ep) in Hin; eapply by_fingerprint; eauto using more_elem. }
  eapply wps_mono; [exact Hc| |intros s1 [[Ho Hp] _]; by eapply Hfirst].
  intros [tc pending'] s1 [(Ho & Hp & Hpend) Hm1]; cbn [snd] in Hpend.
  assert (Hquiet : forall s2, quiet s1 s2 -> pins_follow C X cfg d s s2) by (intros s2 [Heq Hm]; by eapply Hfirst).
  apply wps_bind; eapply wps_mono; [apply (wp_and_steps quiet), wp_answer; apply quiet_answer| |intros s2 [_ Hq]; auto].
  intros a s2 [(Hsent & Hpair & Ht) Hq2].
  apply wps_bind; eapply wps_mono; [apply (wp_and_steps quiet), wp_read_ack; apply quiet_read_ack| |intros s3 [_ Hq]; apply Hquiet; by etrans].
  intros [] ? [[-> Hack] _].
  assert (Hset : forall s4, more_prompts s2 s4 -> sent s4 = sent s2 -> (forall c, c <> cfg -> pins s4 c = pins s2 c) ->
    (pins s4 cfg = pins s2 cfg \/ is_some pending' = true /\ pins s4 cfg = Some (encode_pinned_peer_signing_key (sign_pk d))) ->
    pins_follow C X cfg d s s4).
  { intros s4 Hm4 Hs4 Ho4 [Hp4|[Hp4 Hpin]].
    - apply Hquiet; split; [|etrans; [apply Hq2|done]].
      intros c; destruct (decide (c = cfg)) as [->|Hne]; [by rewrite Hp4; apply Hq2|by rewrite Ho4 by done; apply Hq2].
    - destruct pending' as [p|]; [|done]; destruct (Hpend p eq_refl) as (-> & Ep & Hr).
      split; [intros c Hne; rewrite Ho4 by done; apply Hq2|right; split; [done|]].
      destruct (Hack Hr) as [q Hans]; destruct (Hpair eq_refl (Hsalt Hr)) as [Hproven _].
      eapply by_passphrase; [done|exact (typed_later _ _ _ _ (Ht Hproven) Hm4)|by rewrite Hs4|exact Hans]. }
  pose proof (wp_settle sc C X cfg d was tc pending' a s2) as Hw; cbv zeta in Hw.
  apply (wp_and_steps more_prompts) in Hw; [|apply more_settle]; apply (wp_and_steps (same sent)) in Hw; [|apply keeps_sent_settle].
  apply wps_bind; eapply wps_mono; [exact Hw|intros [] s4 [[[Ho4 Hp4] Hm4] Hs4]; apply wps_ret|intros s4 [[[Ho4 Hp4] Hm4] Hs4]];
    by apply Hset.
Qed.

(** The steps before the host's key is judged. *)
Definition ready (s s' : Viewer) : Prop := quiet s s' /\ passphrase (input s') = passphrase (input s).
#[local] Instance ready_preorder : PreOrder ready.
Proof.
  split; [by intros s; split|]; intros s t u [Q1 P1] [Q2 P2]; split; [by etrans|by rewrite P2].
Qed.

Lemma ready_bind_peer i k : steps ready (bind_peer i k).
Proof. unfold bind_peer; steps; split; [split; [done|red; reflexivity]|done]. Qed.
Lemma ready_confirm_repair X d b p : steps ready (confirm_repair X d b p).
Proof.
  unfold confirm_repair, ask_trust; steps.
  - split; [split; [done|red; cbn; by apply prefix_app_r]|done].
  - split; [split; [done|red; reflexivity]|done].
Qed.

Lemma wp_receive r s : wp (receive_signed_id r) s (fun iq s' => s' = s /\ r = SignedIdMsg iq.1 iq.2) (fun s' => s' = s).
Proof. by destruct r. Qed.
Lemma wp_check_quic X k c s : wp (check_quic_binding X k c) s (fun _ s' => s' = s) (fun s' => s' = s).
Proof.
  unfold check_quic_binding; destruct (is_quic X); [|done]; apply wps_bind, wps_lift; [|done]; intros ? _; by apply wps_lift.
Qed.

(** The pins after an attempt: the key of the host that was read, with consent. *)
Definition pins_follow_from (C : Settings) (X : Exchange) (cfg : string) (known : DirectSignedId -> Prop) (s s' : Viewer) : Prop :=
  (forall c, c <> cfg -> pins s' c = pins s c) /\
  (pins s' cfg = pins s cfg \/
   exists d, known d /\ pins s' cfg = Some (encode_pinned_peer_signing_key (sign_pk d)) /\ consent C X d s s' (pins s cfg)).

Lemma pins_unchanged C X cfg known s s' : quiet s s' -> pins_follow_from C X cfg known s s'.
Proof. intros [Hp _]; split; [intros; apply Hp|left; apply Hp]. Qed.

Lemma pins_follow_ready C X cfg (known : DirectSignedId -> Prop) d s s1 s' : ready s s1 -> known d ->
  pins_follow C X cfg d s1 s' -> pins_follow_from C X cfg known s s'.
Proof.
  intros [[Hp Hm] Hpass] Hk [Ho Hc]; split; [intros c Hne; by rewrite Ho, Hp|].
  destruct Hc as [Hc|[Hc Hcons]]; [left; by rewrite Hc|right; exists d; split; [done|]; split; [done|]].
  rewrite <- Hp; destruct Hcons as [| k q Hr Ht Hs Ha]; [by apply by_fingerprint|].
  eapply by_passphrase; [done| |done|done]; unfold typed in *; by rewrite <- Hpass.
Qed.

(** The identity a host sends of itself. *)
Definition sent_by_host (X : Exchange) (d : DirectSignedId) : Prop :=
  direct_ok d /\ exists signed quic d0, first X = SignedIdMsg signed quic /\
    decode_direct_id_pk signed = Ok d0 /\ attach_direct_quic_identity d0 quic = Ok d.

Lemma fingerprint_of_pending status pk p : pending_peer_trust_from_status status pk = Some p ->
  fingerprint p = pk_to_fingerprint pk.
Proof. by destruct status; intros [= <-]. Qed.

Lemma with_prefix_ok {A} p (r : outcome string A) a : with_prefix p r = Ok a -> r = Ok a.
Proof. by destruct r. Qed.

Lemma salt_required d : direct_ok d -> pairing_required d = true -> pairing_salt d <> None.
Proof. intros Hd Hr; pose proof (d_salt _ Hd) as Hs; destruct (pairing_salt d); [done|]; cbn in Hs; congruence. Qed.

Lemma wp_direct C X cfg s :
  let Q := pins_follow_from C X cfg (sent_by_host X) s in
  wp (secure_direct_connection_with_input C X cfg) s (fun _ => Q) Q.
Proof.
  intros Q; assert (Hq : forall s', quiet s s' -> Q s') by (intros; by apply pins_unchanged).
  assert (Hs : Q s) by (apply Hq; reflexivity).
  unfold secure_direct_connection_with_input; apply wps_bind, wps_gets; destruct (reopen_requested _); [by apply wps_fail|].
  apply wps_bind; eapply wps_mono; [apply wp_receive| |by intros ? ->]; intros [signed quic] ? [-> Hfirst]; cbn [fst snd] in Hfirst.
  apply wps_bind, wps_lift; [|done]; intros d0 Hd0; apply with_prefix_ok in Hd0.
  apply wps_bind, wps_lift; [|done]; intros d Hd.
  assert (Hok : direct_ok d).
  { eapply returns_ok; [|exact Hd]; apply returns_attach_direct; eapply returns_ok; [apply returns_direct|exact Hd0]. }
  assert (Hk : sent_by_host X d) by (split; [done|]; by exists signed, quic, d0).
  apply wps_bind; eapply wps_mono; [apply wp_check_quic| |by intros ? ->]; intros [] ? ->.
  apply wps_bind; eapply wps_mono; [apply (wp_steps ready), ready_bind_peer| |intros s1 Hr; by apply Hq; apply Hr].
  intros [] s1 Hr1; case_bool_decide; [by apply wps_fail, Hq, Hr1|].
  apply wps_bind, wps_gets, wps_bind, wps_lift; [|by apply Hq, Hr1]; intros status _; cbv zeta.
  destruct (_ && _); [by apply wps_fail, Hq, Hr1|].
  apply wps_bind; eapply wps_mono; [apply (wp_steps ready), ready_confirm_repair| |intros s2 Hr; apply Hq; etrans; [apply Hr1|apply Hr]].
  intros [] s2 Hr2; assert (ready s s2) by (by etrans).
  eapply wps_mono; [apply wp_complete; [intros p; apply fingerprint_of_pending|by apply salt_required]|..];
    intros; by eapply pins_follow_ready.
Qed.

(** The identity a host sends, of the peer a rendezvous server vouches for. *)
Definition vouched_for (X : Exchange) (peer_id : string) (d : DirectSignedId) : Prop :=
  id d = peer_id /\ exists signed quic pk sd0 sd, first X = SignedIdMsg signed quic /\
    decode_secure_signed_id signed pk = Ok sd0 /\ attach_secure_quic_identity sd0 pk quic = Ok sd /\ d = as_direct pk sd.

Lemma wp_rendezvous C X peer_id cfg signed_id_pk key s :
  let Q := pins_follow_from C X cfg (vouched_for X peer_id) s in
  wp (secure_connection_with_input C X peer_id cfg signed_id_pk key) s (fun _ => Q) Q.
Proof.
  intros Q; assert (Hq : forall s', quiet s s' -> Q s') by (intros; by apply pins_unchanged).
  assert (Hs : Q s) by (apply Hq; reflexivity).
  unfold secure_connection_with_input; apply wps_bind, wps_gets; destruct (reopen_requested _); [by apply wps_fail|].
  cbv zeta; apply wps_bind, wps_lift; [|done]; intros rs_pk _; case_bool_decide; [by apply wps_fail|].
  apply wps_bind, wps_lift; [|done]; intros [i pk] _; case_bool_decide; cbn [negb]; [|by apply wps_fail].
  apply wps_bind; eapply wps_mono; [apply wp_receive| |by intros ? ->]; intros [signed quic] ? [-> Hfirst]; cbn [fst snd] in Hfirst.
  apply wps_bind, wps_lift; [|done]; intros sd0 Hd0; apply with_prefix_ok in Hd0.
  apply wps_bind, wps_lift; [|done]; intros sd Hd.
  assert (Hok : secure_ok pk sd).
  { eapply returns_ok; [|exact Hd]; apply returns_attach_secure; eapply returns_ok; [apply returns_secure|exact Hd0]. }
  apply wps_bind; eapply wps_mono; [apply wp_check_quic| |by intros ? ->]; intros [] ? ->.
  case_bool_decide as Hid; cbn [negb]; [|by apply wps_fail].
  assert (Hk : vouched_for X peer_id (as_direct pk sd)) by (split; [done|]; by exists signed, quic, pk, sd0, sd).
  apply wps_bind; eapply wps_mono; [apply (wp_steps ready), ready_bind_peer| |intros s1 Hr; by apply Hq; apply Hr].
  intros [] s1 Hr1; apply wps_bind, wps_gets, wps_bind, wps_lift; [|by apply Hq, Hr1]; intros status _; cbv zeta.
  eapply wps_mono; [apply wp_complete; [intros p; apply fingerprint_of_pending|]|..]; [|intros; by eapply pins_follow_ready..].
  cbn; intros Hr; pose proof (so_salt _ _ Hok) as Hsalt; destruct (s_pairing_salt sd); [done|]; cbn in Hsalt; congruence.
Qed.

(** *** One identity per connection *)

Definition prompt_id (p : Prompt) : string := match p with TrustConfirmed i _ => i | PassphraseEntered i => i end.

(** Bound to the peer [x], the input stays bound to it and asks of nothing else. *)
Definition asks_for (x : string * bytes) (s s' : Viewer) : Prop :=
  peer (input s) = Some x ->
  peer (input s') = Some x /\ exists new, prompts s' = prompts s ++ new /\ Forall (fun p => prompt_id p = x.1) new.
#[local] Instance asks_for_preorder x : PreOrder (asks_for x).
Proof.
  split; [intros s Hs; split; [done|exists []; by rewrite app_nil_r]|].
  intros s t u H1' H2' Hs; destruct (H1' Hs) as (Ht & n1 & E1 & F1); destruct (H2' Ht) as (Hu & n2 & E2 & F2).
  split; [done|]; exists (n1 ++ n2); rewrite E2, E1, app_assoc; split; [done|by apply Forall_app].
Qed.

(** A step that leaves the prompts and the bound peer. *)
Lemma asks_same x s s' : prompts s' = prompts s -> peer (input s') = peer (input s) -> asks_for x s s'.
Proof. intros Hp Hi Hs; split; [by rewrite Hi|]; exists []; by rewrite app_nil_r. Qed.

Lemma asks_ask_trust X i p k : steps (asks_for (i, k)) (ask_trust X i p).
Proof. unfold ask_trust; steps; intros Hs; split; [done|]; eexists; split; [done|]; by repeat constructor. Qed.
Lemma asks_has_confirmed x sc cfg now : steps (asks_for x) (has_confirmed sc cfg now).
Proof. intros s; unfold has_confirmed; destruct (has_confirmed_paired_viewer _ _ _ _); by apply asks_same. Qed.
Lemma asks_set_confirmed x sc cfg b now : steps (asks_for x) (set_confirmed sc cfg b now).
Proof. unfold set_confirmed; steps; by apply asks_same. Qed.
Lemma asks_update_peers x g : steps (asks_for x) (update_peers g).
Proof. unfold update_peers; steps; by apply asks_same. Qed.
Lemma asks_remember x X i k c : steps (asks_for x) (remember_quic X i k c).
Proof. unfold remember_quic; steps; by apply asks_same. Qed.
Hint Resolve asks_ask_trust asks_has_confirmed asks_set_confirmed asks_update_peers asks_remember : steps.

Lemma asks_reopen {A} x : steps (asks_for x) (@reopen A).
Proof. unfold reopen; steps; by apply asks_same. Qed.
Lemma asks_prove C X d u k : steps (asks_for (id d, k)) (prove_pairing C X d u).
Proof.
  unfold prove_pairing, ask_passphrase, needs_fresh_socket; steps; try by apply asks_same.
  intros Hs; split; [done|]; eexists; split; [done|]; by repeat constructor.
Qed.
Hint Resolve asks_prove : steps.

Lemma asks_complete sc C X cfg d was p k : steps (asks_for (id d, k)) (complete sc C X cfg d was p).
Proof.
  unfold complete, confirm_unpaired, needs_fresh_socket, read_acknowledgement, clear_refused_paired_viewer, settle, settle_pairing.
  steps; try by apply asks_same.
  unfold answer_host; destruct (create_symmetric_key_msg_with_mode _ _ _) as [[asym sealed] key]; steps; by apply asks_same.
Qed.
Lemma asks_confirm_repair X d b p k : steps (asks_for (id d, k)) (confirm_repair X d b p).
Proof. unfold confirm_repair; steps; by apply asks_same. Qed.

(** All that the user has answered since [s0] was asked of the bound peer, and
    a peer that was bound stays so. *)
Definition one_peer (s0 s : Viewer) : Prop :=
  (forall x, peer (input s0) = Some x -> peer (input s) = Some x) /\
  exists new, prompts s = prompts s0 ++ new /\
    match peer (input s) with
    | None => new = []
    | Some x => Forall (fun p => prompt_id p = x.1) new
    end.
#[local] Instance one_peer_preorder : PreOrder one_peer.
Proof.
  split.
  - intros s; split; [done|]; exists []; rewrite app_nil_r; split; [done|]; by destruct (peer (input s)).
  - intros s t u [B1 (n1 & E1 & F1)] [B2 (n2 & E2 & F2)]; split; [auto|]; exists (n1 ++ n2).
    rewrite E2, E1, app_assoc; split; [done|]; destruct (peer (input t)) as [x|] eqn:Et.
    + rewrite (B2 x eq_refl) in *; by apply Forall_app.
    + by subst n1.
Qed.

Lemma asks_one_peer x s s' : peer (input s) = Some x -> asks_for x s s' -> one_peer s s'.
Proof. intros Hx Ha; destruct (Ha Hx) as (Hx' & n & E & F); rewrite <- Hx in Hx'; split; [by rewrite Hx'|]; exists n; by rewrite Hx', Hx. Qed.

Lemma one_peer_same s s' : prompts s' = prompts s -> peer (input s') = peer (input s) -> one_peer s s'.
Proof.
  intros Hp Hi; split; [by rewrite Hi|]; exists []; rewrite Hp, app_nil_r; split; [done|]; by destruct (peer (input s')).
Qed.

Lemma wp_bind_peer s i k :
  wp (bind_peer i k) s (fun _ s' => one_peer s s' /\ peer (input s') = Some (i, k)) (one_peer s).
Proof.
  unfold bind_peer; apply wps_bind, wps_gets; destruct (peer (input s)) as [[ei ek]|] eqn:Ep.
  - destruct (bool_decide_reflect (ei = i)) as [->|], (bool_decide_reflect (ek = k)) as [->|]; cbn [negb orb];
      first [apply wps_fail; reflexivity|apply wps_ret; split; [reflexivity|done]].
  - apply wps_modify; cbn; split; [|done]; split; [by rewrite Ep|]; exists []; rewrite app_nil_r; split; [done|by constructor].
Qed.

Lemma wp_complete_sign sc C X cfg d was p s : wp (complete sc C X cfg d was p) s (fun pk _ => pk = sign_pk d) (fun _ => True).
Proof.
  unfold complete, wp, mbind, ST_bind; destruct (confirm_unpaired _ _ _ _ _ _ s) as [[[tc p']|e|] s1]; try done.
  destruct (answer_host _ _ _ _ _ _ s1) as [[a|e|] s2]; try done.
  destruct (read_acknowledgement _ _ _ _ _ s2) as [[[]|e|] s3]; try done.
  by destruct (settle _ _ _ _ _ _ _ _ _ s3) as [[[]|e|] s4].
Qed.

Lemma wp_one_peer C X cfg s :
  wp (secure_direct_connection_with_input C X cfg) s
    (fun pk s' => one_peer s s' /\ exists i, peer (input s') = Some (i, pk)) (one_peer s).
Proof.
  assert (Hs : one_peer s s) by reflexivity.
  unfold secure_direct_connection_with_input; apply wps_bind, wps_gets; destruct (reopen_requested _); [by apply wps_fail|].
  apply wps_bind; eapply wps_mono; [apply wp_receive| |by intros ? ->]; intros [signed quic] ? [-> _].
  apply wps_bind, wps_lift; [|done]; intros d0 _; apply wps_bind, wps_lift; [|done]; intros d _.
  apply wps_bind; eapply wps_mono; [apply wp_check_quic| |by intros ? ->]; intros [] ? ->.
  apply wps_bind; eapply wps_mono; [by apply wp_bind_peer| |done]; intros [] s1 [Ho1 Hx].
  case_bool_decide; [by apply wps_fail|]; apply wps_bind, wps_gets, wps_bind, wps_lift; [|done]; intros status _; cbv zeta.
  destruct (_ && _); [by apply wps_fail|].
  assert (Hask : forall s2 s3, peer (input s2) = Some (id d, sign_pk d) -> one_peer s s2 -> asks_for (id d, sign_pk d) s2 s3 -> one_peer s s3)
    by (intros s2 s3 Hx2 Ho2 Ha; etrans; [exact Ho2|by eapply asks_one_peer]).
  apply wps_bind; eapply wps_mono; [apply (wp_steps (asks_for (id d, sign_pk d))), asks_confirm_repair|intros [] s2 Ha|intros s2 Ha; by eapply Hask].
  pose proof (Hask _ _ Hx Ho1 Ha) as Ho2; destruct (Ha Hx) as [Hx2 _].
  eapply wps_mono; [apply (wp_and_steps (asks_for (id d, sign_pk d))), wp_complete_sign; apply asks_complete|..].
  - intros pk s3 [-> Ha3]; split; [by eapply Hask|]; exists (id d); by apply Ha3.
  - intros s3 [_ Ha3]; by eapply Hask.
Qed.

(** *** The loops *)

(** Nothing the network does within the deadline makes the race settle for TCP
    when the peer's saved QUIC identity is refused. *)
Lemma no_downgrade {T} (tcp : outcome failure T) e first in_time stream :
  connect_direct_transport (Ok Auto) tcp (Err e) first in_time = Ok stream -> first = false /\ in_time = false /\ tcp = Ok stream.
Proof. cbn; destruct first; [done|]; destruct tcp as [t| |]; try done; destruct in_time; [done|]; by intros [= ->]. Qed.

Lemma one_peer_open c : steps one_peer (open_connection c).
Proof.
  unfold open_connection; steps; by apply one_peer_same.
Qed.
Lemma one_peer_has_confirmed sc cfg now : steps one_peer (has_confirmed sc cfg now).
Proof. intros s; unfold has_confirmed; destruct (has_confirmed_paired_viewer _ _ _ _); by apply one_peer_same. Qed.

Lemma wp_direct_attempts fuel C cfg had now connection rr rm s :
  wp (direct_attempts fuel C cfg had now connection rr rm) s
    (fun r s' => one_peer s s' /\ exists i, peer (input s') = Some (i, r.2)) (one_peer s).
Proof.
  revert rr rm s; induction fuel as [|fuel IH]; intros rr rm s; cbn [direct_attempts]; [by apply wps_fail|].
  apply wps_bind, wps_modify, wps_bind; set (s1 := s <| input ::= _ |>).
  assert (Ho1 : one_peer s s1) by (by apply one_peer_same).
  assert (Hmore : forall {A} (m : M A) s2 (N : A -> Viewer -> Prop), one_peer s s2 ->
    wp m s2 (fun r s' => one_peer s2 s' /\ N r s') (one_peer s2) -> wp m s2 (fun r s' => one_peer s s' /\ N r s') (one_peer s)).
  { intros A m s2 N Hs2 Hm; eapply wps_mono; [exact Hm|..]; [intros r s' [Ho Hn]; split; [by etrans|done]|intros; by etrans]. }
  eapply wps_mono; [apply (wp_steps one_peer), one_peer_open| |intros s2 Ho; by etrans]; intros X s2 Ho2.
  assert (Ho : one_peer s s2) by (by etrans).
  apply wps_bind; eapply wps_mono; [apply wps_attempt, wp_one_peer| |intros s3 Ho3; by etrans].
  intros [pk|e|] s3 Ho3; [apply wps_ret; destruct Ho3; split; [by etrans|done]| |change (one_peer s s3); by etrans].
  assert (Ho3' : one_peer s s3) by (by etrans).
  assert (Hrest : wp (if negb rr && is_rejected e then direct_attempts fuel C cfg had now connection true rm
      else if rr && is_rejected e then bail "Handshake failed: pairing passphrase rejected after retry"
      else still ← (if had then has_confirmed Direct cfg (now fuel) else mret true);
           if negb (had && negb still) || rm then fail e else direct_attempts fuel C cfg had now connection rr true) s3
    (fun r s' => one_peer s s' /\ exists i, peer (input s') = Some (i, r.2)) (one_peer s)).
  { destruct (negb rr && is_rejected e); [by apply Hmore, IH|]; destruct (rr && is_rejected e); [by apply wps_fail|].
    apply wps_bind; eapply wps_mono with (N := fun _ => one_peer s3) (E := one_peer s3); [| |intros; by etrans].
    - destruct had; [apply (wp_steps one_peer), one_peer_has_confirmed|by apply wps_ret].
    - intros still s4 Ho4; destruct (_ || _); [apply wps_fail; by etrans|apply Hmore, IH; by etrans]. }
  destruct e; [exact Hrest|by apply Hmore, IH|exact Hrest].
Qed.

Lemma wp_promote fuel C cfg promotion X pk s : (exists i, peer (input s) = Some (i, pk)) ->
  wp (promote fuel C cfg promotion X pk) s
    (fun r s' => one_peer s s' /\ exists i, peer (input s') = Some (i, r.2)) (one_peer s).
Proof.
  revert s; induction fuel as [|fuel IH]; intros s Hx; cbn [promote]; [by apply wps_fail|].
  apply wps_bind, wps_modify; set (s1 := s <| input ::= _ |>).
  assert (Ho1 : one_peer s s1) by (by apply one_peer_same).
  destruct (promotion fuel) as [| |Q|f]; [by apply wps_ret..| |by apply wps_fail].
  apply wps_bind; eapply wps_mono; [apply wps_attempt, wp_one_peer| |intros s2 Ho2; by etrans].
  intros [quic_pk|e|] s2 Ho2; [| |change (one_peer s s2); by etrans].
  - destruct Ho2 as [Ho2 Hx2]; case_bool_decide; cbn [negb]; [apply wps_ret|apply wps_fail; by etrans].
    split; [by etrans|done].
  - assert (Ho : one_peer s s2) by (by etrans).
    destruct e; try (by apply wps_fail).
    destruct Hx as [i Hi]; eapply wps_mono; [apply IH|..].
    + exists i; apply Ho; exact Hi.
    + intros r s3 [Ho3 Hx3]; split; [by etrans|done].
    + intros s3 Ho3; by etrans.
Qed.

(** The whole connection: the input is new, so nothing is bound. *)
Lemma wp_connect C cfg now io connection promotion s :
  let asked s' := exists new, prompts s' = prompts s ++ new /\
    forall p q, p ∈ new -> q ∈ new -> prompt_id p = prompt_id q in
  wp (connect_secure_direct_with_pairing_retry C cfg now io connection promotion) s
    (fun r s' => exists i new, prompts s' = prompts s ++ new /\ peer (input s') = Some (i, r.2) /\
       Forall (fun p => prompt_id p = i) new) asked.
Proof.
  intros asked; unfold connect_secure_direct_with_pairing_retry.
  assert (Hasked : forall s1 s2, prompts s1 = prompts s -> one_peer s1 s2 -> asked s2).
  { intros s1 s2 Hp [_ (new & E & F)]; exists new; rewrite E, Hp; split; [done|]; intros p q Hpn Hqn.
    destruct (peer (input s2)) as [x|]; [|subst new; by apply not_elem_of_nil in Hpn].
    rewrite Forall_forall in F; by rewrite (F p Hpn), (F q Hqn). }
  assert (Hdone : forall s1 s2 i pk, prompts s1 = prompts s -> one_peer s1 s2 -> peer (input s2) = Some (i, pk) ->
    exists i new, prompts s2 = prompts s ++ new /\ peer (input s2) = Some (i, pk) /\ Forall (fun p => prompt_id p = i) new).
  { intros s1 s2 i pk Hp [_ (new & E & F)] Hx; rewrite Hx in F; exists i, new; by rewrite E, Hp. }
  apply wps_bind; unfold wp at 1, has_confirmed; destruct (has_confirmed_paired_viewer _ _ _ _) as [had p'].
  set (s1 := s <| peers := p' |>); assert (Hs1 : prompts s1 = prompts s) by done.
  apply wps_bind, wps_lift; [|by apply (Hasked s1)]; intros [] _.
  apply wps_bind, wps_gets; cbv zeta; apply wps_bind, wps_modify; set (s2 := s1 <| input := _ |>).
  apply wps_bind; eapply wps_mono; [apply wp_direct_attempts| |intros s3; by apply Hasked].
  intros [X pk] s3 [Ho [i Hi]]; cbn [snd] in Hi; destruct (_ && _); [apply wps_ret; by apply (Hdone s2 s3 i pk)|].
  unfold promote_confirmed_direct_to_quic; destruct (is_quic X); [apply wps_ret; by apply (Hdone s2 s3 i pk)|].
  eapply wps_mono; [apply wp_promote; by exists i| |].
  - intros r s4 [Ho4 [j Hj]]; eapply (Hdone s2); [done|by etrans|done].
  - intros s4 Ho4; eapply (Hasked s2); [done|by etrans].
Qed.

(** *** How often the user is asked *)

Definition is_passphrase (p : Prompt) : bool := match p with PassphraseEntered _ => true | _ => false end.
(** How many passphrases have been typed, and whether the next one will be. *)
Definition entered (s : Viewer) : Z := count_if is_passphrase (prompts s).
Definition unanswered (s : Viewer) : Z := if is_some (passphrase (input s)) then 0 else 1.

Lemma unanswered_range s : 0 <= unanswered s <= 1.
Proof. unfold unanswered; destruct (is_some _); lia. Qed.

(** A computation that never asks to start over. *)
Definition final {A} (m : M A) : Prop := forall s, (m s).1 <> Err ReopenAfterApproval.
Lemma final_bind {A B} (m : M A) (f : A -> M B) : final m -> (forall a, final (f a)) -> final (m ≫= f).
Proof.
  intros Hm Hf s; specialize (Hm s); unfold mbind, ST_bind; destruct (m s) as [[a|e|] s1]; cbn in *; [apply Hf|congruence..].
Qed.
Lemma final_ret {A} (a : A) : final (mret a).
Proof. by intros s. Qed.
Lemma final_lift {A} (r : outcome string A) : final (lift r).
Proof. by intros s; destruct r. Qed.
Lemma final_bail {A} t : final (@bail Viewer A t).
Proof. by intros s. Qed.
Lemma final_gets {A} (g : Viewer -> A) : final (gets g).
Proof. by intros s. Qed.
Lemma final_modify g : final (modify g).
Proof. by intros s. Qed.
Lemma final_when (b : bool) m : final m -> final (when b m).
Proof. destruct b; [done|intros _; apply final_ret]. Qed.
Lemma final_has_confirmed sc cfg now : final (has_confirmed sc cfg now).
Proof. intros s; unfold has_confirmed; by destruct (has_confirmed_paired_viewer _ _ _ _). Qed.
Hint Resolve final_ret final_lift final_bail final_gets final_modify final_has_confirmed : steps.

Ltac final :=
  repeat (cbv zeta; lazymatch goal with
  | |- final (mbind _ _) => apply final_bind; [|intros ?]
  | |- final (when _ _) => apply final_when
  | |- final (if ?b then _ else _) => destruct b
  | |- final (match ?x with _ => _ end) => destruct x
  | |- final _ => solve [auto with steps]
  end).

(** Steps that keep the answers as they are. *)
Definition plain (s s' : Viewer) : Prop := entered s' = entered s /\ passphrase (input s') = passphrase (input s).
#[local] Instance plain_preorder : PreOrder plain.
Proof. unfold plain; split; [by intros s|intros s t u [] []; split; congruence]. Qed.

Lemma count_snoc l p : count_if is_passphrase (l ++ [p]) = count_if is_passphrase l + Z.b2z (is_passphrase p).
Proof. rewrite count_if_app; cbn; lia. Qed.

Lemma plain_ask_trust X i p : steps plain (ask_trust X i p).
Proof. unfold ask_trust; steps; split; [|done]; unfold entered; cbn [prompts set_field]; rewrite count_snoc; cbn; lia. Qed.
Lemma plain_has_confirmed sc cfg now : steps plain (has_confirmed sc cfg now).
Proof. intros s; unfold has_confirmed; by destruct (has_confirmed_paired_viewer _ _ _ _). Qed.
Lemma plain_set_confirmed sc cfg b now : steps plain (set_confirmed sc cfg b now).
Proof. by intros s. Qed.
Lemma plain_update_peers g : steps plain (update_peers g).
Proof. unfold update_peers; steps; by split. Qed.
Lemma plain_remember X i k c : steps plain (remember_quic X i k c).
Proof. unfold remember_quic; steps; by split. Qed.
Lemma plain_reopen {A} : steps plain (@reopen A).
Proof. unfold reopen; steps; by split. Qed.
Hint Resolve plain_ask_trust plain_has_confirmed plain_set_confirmed plain_update_peers plain_remember plain_reopen : steps.
Lemma plain_confirm_repair X d b p : steps plain (confirm_repair X d b p).
Proof. unfold confirm_repair; steps; by split. Qed.
Lemma plain_bind_peer i k : steps plain (bind_peer i k).
Proof. unfold bind_peer; steps; by split. Qed.
Lemma plain_confirm_unpaired sc C X cfg d p : steps plain (confirm_unpaired sc C X cfg d p).
Proof. unfold confirm_unpaired, needs_fresh_socket; steps; by split. Qed.
Lemma plain_read_ack sc X cfg d a : steps plain (read_acknowledgement sc X cfg d a).
Proof. unfold read_acknowledgement, clear_refused_paired_viewer; steps. Qed.
Lemma plain_settle sc C X cfg d b t p a : steps plain (settle sc C X cfg d b t p a).
Proof. unfold settle, settle_pairing; steps. Qed.
Lemma plain_open c : steps plain (open_connection c).
Proof. unfold open_connection; steps; by split. Qed.
Hint Resolve plain_confirm_repair plain_bind_peer plain_confirm_unpaired plain_read_ack plain_settle plain_open : steps.
Lemma final_read_ack sc X cfg d a : final (read_acknowledgement sc X cfg d a).
Proof. unfold read_acknowledgement, clear_refused_paired_viewer, set_confirmed; final. Qed.
Lemma final_settle sc C X cfg d b t p a : final (settle sc C X cfg d b t p a).
Proof. unfold settle, settle_pairing, update_peers, remember_quic, set_confirmed; final. Qed.
Hint Resolve final_read_ack final_settle : steps.

(** A run types at most what was unanswered; and if it is to be started over, the
    answer is kept. *)
Definition frugal {A} (m : M A) : Prop := forall s,
  entered (m s).2 <= entered s + unanswered s /\
  ((m s).1 = Err ReopenAfterApproval -> entered (m s).2 + unanswered (m s).2 <= entered s + unanswered s).

Lemma frugal_plain {A} (m : M A) : steps plain m -> frugal m.
Proof. intros Hm s; destruct (Hm s) as [He Hp]; pose proof (unanswered_range s); unfold unanswered in *; rewrite He, Hp; lia. Qed.

Lemma frugal_before {A B} (m : M A) (f : A -> M B) : steps plain m -> (forall a, frugal (f a)) -> frugal (m ≫= f).
Proof.
  intros Hm Hf s; pose proof (frugal_plain _ Hm s) as Hp; specialize (Hm s); unfold mbind, ST_bind.
  destruct (m s) as [[a|e|] s1]; cbn in *; [|split; [lia|intros E; apply Hp; congruence]..].
  destruct Hm as [He Hps]; specialize (Hf a s1); unfold unanswered in *; by rewrite He, Hps in Hf.
Qed.
Lemma frugal_after {A B} (m : M A) (f : A -> M B) : frugal m ->
  (forall a, steps plain (f a)) -> (forall a, final (f a)) -> frugal (m ≫= f).
Proof.
  intros Hs Hm Hf s; specialize (Hs s); unfold mbind, ST_bind; destruct (m s) as [[a|e|] s1]; cbn in *;
    [|split; [lia|intros E; apply Hs; congruence]..].
  specialize (Hm a s1); specialize (Hf a s1); destruct (f a s1) as [r s2]; cbn in *; destruct Hm as [-> _].
  split; [lia|done].
Qed.

Lemma frugal_prove C X d use : frugal (prove_pairing C X d use).
Proof.
  unfold prove_pairing; destruct (pairing_salt d) as [sl|]; [|apply frugal_plain; steps].
  apply frugal_before; [steps|intros our]; destruct use; [apply frugal_plain; steps|].
  intros s; unfold ask_passphrase, needs_fresh_socket, reopen, entered, unanswered, mbind, ST_bind, gets, modify, mret, ST_ret, fail, lift.
  destruct (passphrase (input s)) as [p|] eqn:Ep; cbn; rewrite ?Ep; cbn.
  - destruct (can_reopen (input s) && late_passphrase X); cbn; [lia|].
    destruct (compute_direct_pairing_proof _ _ _ _ _ _); cbn; split; try lia; try discriminate.
  - destruct (request_pairing_passphrase X (id d)) as [p|e|]; cbn; [|rewrite ?Ep; cbn; split; [lia|discriminate]..].
    destruct (can_reopen (input s) && late_passphrase X); cbn; [rewrite count_snoc; cbn; lia|].
    destruct (compute_direct_pairing_proof _ _ _ _ _ _); cbn; rewrite ?count_snoc; cbn; split; try lia; try discriminate.
Qed.

Lemma frugal_answer sc C X cfg d p : frugal (answer_host sc C X cfg d p).
Proof.
  unfold answer_host; destruct (create_symmetric_key_msg_with_mode _ _ _) as [[asym sealed] key]; cbv zeta.
  do 3 (apply frugal_before; [steps|intros ?]); apply frugal_after; [apply frugal_prove|intros ?; steps; by split|intros ?; final].
Qed.

Lemma frugal_complete sc C X cfg d was p : frugal (complete sc C X cfg d was p).
Proof.
  unfold complete; apply frugal_before; [steps|intros [tc p']]; apply frugal_after; [apply frugal_answer|intros a; steps|intros a; final].
Qed.

Lemma plain_check_quic X k c : steps plain (check_quic_binding X k c).
Proof. unfold check_quic_binding; steps. Qed.
Lemma plain_receive r : steps plain (receive_signed_id r).
Proof. unfold receive_signed_id; steps. Qed.
Hint Resolve plain_check_quic plain_receive : steps.

Lemma frugal_direct C X cfg : frugal (secure_direct_connection_with_input C X cfg).
Proof.
  unfold secure_direct_connection_with_input; apply frugal_before; [steps|intros i].
  destruct (reopen_requested i); [apply frugal_plain; steps|].
  apply frugal_before; [steps|intros [signed quic]]; do 4 (apply frugal_before; [steps|intros ?]).
  case_bool_decide; [apply frugal_plain; steps|]; do 2 (apply frugal_before; [steps|intros ?]); cbv zeta.
  destruct (_ && _); [apply frugal_plain; steps|]; apply frugal_before; [steps|intros _]; apply frugal_complete.
Qed.

(** What is still to be typed when an attempt ends in an error. *)
Lemma frugal_attempt {A} (m : M A) s : frugal m ->
  wp (attempt m) s (fun r s' => entered s' <= entered s + unanswered s /\
      (r = Err ReopenAfterApproval -> entered s' + unanswered s' <= entered s + unanswered s))
    (fun s' => entered s' <= entered s + unanswered s).
Proof. intros Hm; specialize (Hm s); unfold wp, attempt; destruct (m s) as [[a|e|] s1]; cbn in *; naive_solver. Qed.

Lemma plain_potential s s' : plain s s' -> entered s' = entered s /\ unanswered s' = unanswered s.
Proof. unfold unanswered; intros [-> ->]; done. Qed.

Definition unused (b : bool) : Z := if b then 0 else 1.

Lemma wp_direct_attempts_frugal fuel C cfg had now connection rr rm s n :
  entered s + unanswered s + unused rr + unused rm <= n ->
  wp (direct_attempts fuel C cfg had now connection rr rm) s (fun _ s' => entered s' <= n) (fun s' => entered s' <= n).
Proof.
  revert rr rm s; induction fuel as [|fuel IH]; intros rr rm s Hn; cbn [direct_attempts];
    pose proof (unanswered_range s); assert (0 <= unused rr <= 1 /\ 0 <= unused rm <= 1) by (destruct rr, rm; cbn; lia).
  { apply wps_fail; lia. }
  apply wps_bind, wps_modify, wps_bind; set (s1 := s <| input ::= _ |>).
  change (entered s1 + unanswered s1 + unused rr + unused rm <= n) in Hn; change (unanswered s) with (unanswered s1) in *.
  eapply wps_mono; [apply (wp_steps plain), plain_open|intros X s2 Hp%plain_potential|intros s2 Hp%plain_potential; lia].
  apply wps_bind; eapply wps_mono; [apply frugal_attempt, frugal_direct|intros r s3 [Hs3 Ha]|cbv beta; intros; lia].
  pose proof (unanswered_range s3).
  assert (Hrest : forall e, wp (if negb rr && is_rejected e then direct_attempts fuel C cfg had now connection true rm
      else if rr && is_rejected e then bail "Handshake failed: pairing passphrase rejected after retry"
      else still ← (if had then has_confirmed Direct cfg (now fuel) else mret true);
           if negb (had && negb still) || rm then fail e else direct_attempts fuel C cfg had now connection rr true) s3
    (fun _ s' => entered s' <= n) (fun s' => entered s' <= n)).
  { intros e; destruct (negb rr && is_rejected e) eqn:Er.
    { apply IH; destruct rr; [done|]; cbn in *; lia. }
    destruct (rr && is_rejected e); [apply wps_fail; lia|].
    apply wps_bind; eapply wps_mono with (N := fun _ => plain s3) (E := plain s3).
    - destruct had; [apply (wp_steps plain), plain_has_confirmed|by apply wps_ret].
    - intros still s4 Hp4%plain_potential; destruct rm; rewrite ?orb_true_r, ?orb_false_r; [apply wps_fail; lia|].
      destruct (negb (had && negb still)); [apply wps_fail; lia|apply IH; cbn in *; lia].
    - intros s4 Hp4%plain_potential; lia. }
  destruct r as [pk|e|]; [apply wps_ret; lia| |change (entered s3 <= n); lia].
  destruct e; [apply Hrest| |apply Hrest]; specialize (Ha eq_refl); apply IH; lia.
Qed.

Lemma wp_promote_frugal fuel C cfg promotion X pk s n : entered s + unanswered s <= n ->
  wp (promote fuel C cfg promotion X pk) s (fun _ s' => entered s' <= n) (fun s' => entered s' <= n).
Proof.
  revert s; induction fuel as [|fuel IH]; intros s Hn; cbn [promote]; pose proof (unanswered_range s); [apply wps_fail; lia|].
  apply wps_bind, wps_modify; set (s1 := s <| input ::= _ |>); change (entered s1 + unanswered s1 <= n) in Hn;
    change (unanswered s) with (unanswered s1) in *.
  destruct (promotion fuel) as [| |Q|f]; [apply wps_ret; lia..| |apply wps_fail; lia].
  apply wps_bind; eapply wps_mono; [apply frugal_attempt, frugal_direct|intros r s2 [Hs2 Ha]|cbv beta; intros; lia].
  destruct r as [quic_pk|e|]; [|destruct e; try (apply wps_fail; lia)|change (entered s2 <= n); lia].
  - case_bool_decide; cbn [negb]; [apply wps_ret|apply wps_fail]; lia.
  - specialize (Ha eq_refl); apply IH; lia.
Qed.

(** A connection, with its retries and its promotion, has at most four
    passphrases typed. *)
Lemma wp_connect_frugal C cfg now io connection promotion s :
  wp (connect_secure_direct_with_pairing_retry C cfg now io connection promotion) s
    (fun _ s' => entered s' <= entered s + 4) (fun s' => entered s' <= entered s + 4).
Proof.
  unfold connect_secure_direct_with_pairing_retry; apply wps_bind.
  eapply wps_mono; [apply (wp_steps plain), plain_has_confirmed|intros had s1 Hp%plain_potential|intros s1 Hp%plain_potential; lia].
  apply wps_bind, wps_lift; [|lia]; intros [] _; apply wps_bind, wps_gets; cbv zeta; apply wps_bind, wps_modify.
  set (s2 := s1 <| input := _ |>); apply wps_bind.
  assert (Hs2 : entered s2 = entered s) by (change (entered s2) with (entered s1); lia).
  eapply wps_mono; [apply (wp_direct_attempts_frugal _ _ _ _ _ _ _ _ _ (entered s + 3)); rewrite Hs2; cbn; lia| |cbn; intros; lia].
  intros [X pk] s3 Hs3; pose proof (unanswered_range s3); destruct (_ && _); [apply wps_ret; lia|].
  unfold promote_confirmed_direct_to_quic; destruct (is_quic X); [apply wps_ret; lia|].
  apply wp_promote_frugal; lia.
Qed.

(** ** The properties *)

(** C5. The key pinned for a peer changes in a handshake only to the signing
    key of the host that was read, and only with the user's consent: the
    fingerprint of that key confirmed where nothing was pinned and no passphrase
    is asked for, or a passphrase that the user typed and the host acknowledged.
    No other peer's pin changes, and a handshake that fails changes none
    without that consent. *)
Theorem pin_needs_consent C X peer_id cfg signed_id_pk key s :
  pins_follow_from C X cfg (sent_by_host X) s (secure_direct_connection_with_input C X cfg s).2 /\
  pins_follow_from C X cfg (vouched_for X peer_id) s (secure_connection_with_input C X peer_id cfg signed_id_pk key s).2.
Proof.
  pose proof (wp_direct C X cfg s) as Hd; pose proof (wp_rendezvous C X peer_id cfg signed_id_pk key s) as Hr.
  cbv zeta in Hd, Hr; unfold wp in Hd, Hr; split.
  - by destruct (secure_direct_connection_with_input C X cfg s) as [[a|e|] s'].
  - by destruct (secure_connection_with_input C X peer_id cfg signed_id_pk key s) as [[a|e|] s'].
Qed.

(** C8. However often a connection is retried, and when it is moved to QUIC, all
    that the user answers is asked of one peer, which is the one whose key is
    returned, and at most four passphrases are typed. *)
Theorem connection_asks_for_one_peer C cfg now io connection promotion s :
  match connect_secure_direct_with_pairing_retry C cfg now io connection promotion s with
  | (Ok (_, pk), s') =>
      entered s' <= entered s + 4 /\
      exists i new, prompts s' = prompts s ++ new /\ peer (input s') = Some (i, pk) /\ Forall (fun p => prompt_id p = i) new
  | (_, s') =>
      entered s' <= entered s + 4 /\
      exists new, prompts s' = prompts s ++ new /\ forall p q, p ∈ new -> q ∈ new -> prompt_id p = prompt_id q
  end.
Proof.
  pose proof (wp_connect C cfg now io connection promotion s) as Ha; cbv zeta in Ha.
  pose proof (wp_connect_frugal C cfg now io connection promotion s) as Hf; unfold wp in *.
  destruct (connect_secure_direct_with_pairing_retry C cfg now io connection promotion s) as [[[X pk]|e|] s']; by split.
Qed.
End viewer.
