(* ===== verification/HostHandshake.v ===== *)
(** * What a host admits

    The host's side of the handshake of the file PeerHandshake: whom it
    acknowledges, by whichever way a connection comes ([host_serves]), and what it comes
    to remember, over one connection and over any sequence of them. *)

From S2P Require Import Prelude ClipboardTypes Fingerprint SignedIdentity PeerTrust PeerHandshake HandshakeTheory.
From S2P Require LanDiscovery.
From Stdlib Require Import Ascii.
From Stdlib Require String.
#[local] Open Scope list_scope.
#[local] Open Scope Z_scope.

Section host.
Context `{Signing} `{IdPkCodec} `{KeyDerivation} `{Sha256} `{Boxes} `{Candidates} {V : Type} `{PairedViewers V}.

(** The proof of a viewer that knows the passphrase of this connection. *)
Definition expected_proof (C : HostSettings) (mode : HandshakeMode) (R : HostFresh) (sl : list Z) (k : PublicKey) : outcome string (list Z) :=
  compute_direct_pairing_proof (pairing_passphrase C mode) sl (h_local_id C) (h_public_key C) (h_our_pk_b R) (asymmetric_value k).

(** The answer [p] carries that proof. *)
Definition proves C mode R sl k (p : DirectPublicKeyPayload) : Prop :=
  exists proof, pairing_proof p = Some proof /\ expected_proof C mode R sl k = Ok proof.

(** The answer [p] names a viewer whose identity is for the key of this answer. *)
Definition names (k : PublicKey) (p : DirectPublicKeyPayload) (i : DirectSignedId) : Prop :=
  initiator p = Some i /\ direct_ok i /\ box_pk i = asymmetric_value k.

Definition remembers (l : V) (scope : string) (i : DirectSignedId) : Prop := has_paired_viewer l scope (id i) (sign_pk i) = true.

Definition admitted C mode R sl (l : V) k p : Prop :=
  proves C mode R sl k p \/
  h_remember_paired_viewers C = true /\ exists scope i, names k p i /\ mode_scope mode = Some scope /\ remembers l scope i.

Lemma validate_ok i k u : validate_direct_public_key_initiator i k = Ok u -> box_pk i = k.
Proof.
  unfold validate_direct_public_key_initiator; destruct (get_pk k) as [pk|] eqn:E; [|done]; apply get_pk_some in E as [-> _].
  by case_bool_decide.
Qed.

Lemma wp_judge C mode R sl k p s : payload_ok true p ->
  wp (judge_pairing C mode R sl k p) s
    (fun v s' => s' = s /\ match v with
       | inl who => admitted C mode R sl (paired s) k p /\
           (forall scope i, who = Some (scope, i) -> proves C mode R sl k p /\ names k p i /\ mode_scope mode = Some scope)
       | inr _ => ~ proves C mode R sl k p
       end)
    (fun s' => s' = s).
Proof.
  intros Hok; assert (Hn : forall i u, initiator p = Some i -> validate_direct_public_key_initiator i (asymmetric_value k) = Ok u -> names k p i)
    by (intros i u Hi Hu; split; [done|]; split; [by apply (p_initiator _ _ Hok)|by eapply validate_ok]).
  unfold judge_pairing; destruct (pairing_proof p) as [proof|] eqn:Ep.
  - apply wps_bind, wps_lift; [|done]; intros expected He.
    assert (Hp : proof = expected -> proves C mode R sl k p) by (intros ->; by exists expected).
    case_bool_decide as Heq; [|apply wps_ret; split; [done|]; intros (? & E1 & E2); unfold expected_proof in E2; congruence].
    specialize (Hp Heq).
    assert (Hnone : wp (mret (inl None : option (string * DirectSignedId) + string)) s (fun v s' => s' = s /\ match v with
       | inl who => admitted C mode R sl (paired s) k p /\
           (forall scope i, who = Some (scope, i) -> proves C mode R sl k p /\ names k p i /\ mode_scope mode = Some scope)
       | inr _ => ~ proves C mode R sl k p end) (fun s' => s' = s)) by (apply wps_ret; split; [done|]; split; [by left|done]).
    destruct (h_remember_paired_viewers C); [|done]; destruct (initiator p) as [i|] eqn:Ei; [|done].
    apply wps_bind, wps_lift; [|done]; intros u Hu; apply wps_ret; split; [done|]; split; [by left|].
    intros scope j E; destruct (mode_scope mode); [|done]; injection E as -> ->; split; [done|]; split; [by eapply Hn|done].
  - apply wps_bind; eapply wps_mono with (E := fun s' => s' = s)
      (N := fun b s' => s' = s /\ (b = true -> admitted C mode R sl (paired s) k p)); [| |done].
    + destruct (h_remember_paired_viewers C) eqn:Er; [|by apply wps_ret]; destruct (initiator p) as [i|] eqn:Ei; [|by apply wps_ret].
      apply wps_bind, wps_lift; [|done]; intros u Hu; apply wps_bind, wps_gets, wps_ret; split; [done|].
      destruct (mode_scope mode) as [scope|] eqn:Es; [|done]; intros Hin; right; split; [done|]; exists scope, i; split; [by eapply Hn|done].
    + intros [|] ? [-> Ha]; apply wps_ret; split; try done; [by split; [apply Ha|]|].
      intros (? & E1 & _); congruence.
Qed.

(** What one connection may add to the viewers that are remembered: the viewer
    that named itself and proved the passphrase, for the scope of the connection
    and, if it sent a QUIC identity, for direct connections. *)
Definition earned C mode R (salt : option (list Z)) (received : Received) (scope i : string) (key : list Z) : Prop :=
  exists sl k p d, salt = Some sl /\ received = PublicKeyMsg k /\
    unwrap_direct_public_key_payload (symmetric_value_ k) true = Ok p /\
    proves C mode R sl k p /\ names k p d /\ i = id d /\ key = sign_pk d /\
    (mode_scope mode = Some scope \/ scope = DIRECT_PAIRING_SCOPE /\ quic_identity k <> []).

(** QUIC identities are never replaced. *)
Definition quic_kept (s s' : Host V) : Prop := h_quic_peers s ⊆ h_quic_peers s'.

Definition host_effect C mode R salt received (s s' : Host V) : Prop :=
  (forall scope i key, has_paired_viewer (paired s') scope i key = true ->
     has_paired_viewer (paired s) scope i key = true \/ earned C mode R salt received scope i key) /\
  quic_kept s s'.

Lemma host_effect_refl C mode R sl rc s s' : paired s' = paired s -> h_quic_peers s' = h_quic_peers s -> host_effect C mode R sl rc s s'.
Proof. unfold host_effect, quic_kept; intros -> ->; split; [by left|done]. Qed.
Lemma host_effect_same C mode R sl rc s s1 s' : paired s1 = paired s -> h_quic_peers s1 = h_quic_peers s ->
  host_effect C mode R sl rc s1 s' -> host_effect C mode R sl rc s s'.
Proof. unfold host_effect, quic_kept; by intros -> ->. Qed.

Lemma remember_paired_kept io now peer_id key cert q q' : remember_paired_peer io now peer_id key cert q = Ok q' -> q ⊆ q'.
Proof.
  unfold remember_paired_peer, remember_peer; case_bool_decide; [by intros [= <-]|].
  destruct io as [[]| |]; try done; cbn; destruct (confirmed _ _ _ _) as [r| |]; try done; cbn.
  destruct (q !! peer_id) as [e|] eqn:E; [|intros [= <-]; by apply insert_subseteq].
  destruct (_ && _); [by intros [= <-]|done].
Qed.

(** Two identities that are the same viewer. *)
Lemma same_initiators_spec l q : same_initiators (Some l) (Some q) = true -> id l = id q /\ sign_pk l = sign_pk q.
Proof. cbn; intros; bools; split; done. Qed.

Lemma wp_accept_pairing C mode R X sl k p quic s : payload_ok true p ->
  h_received X = PublicKeyMsg k -> unwrap_direct_public_key_payload (symmetric_value_ k) true = Ok p ->
  (is_some quic = true -> quic_identity k <> []) ->
  wp (accept_pairing C mode R X sl k p quic) s
    (fun _ s' => host_effect C mode R (Some sl) (h_received X) s s' /\ admitted C mode R sl (paired s) k p /\
       acks s' = acks s ++ [SignedIdMsg direct_handshake_ack_ok []] /\ h_session s' = h_session s)
    (fun s' => host_effect C mode R (Some sl) (h_received X) s s' /\ h_session s' = h_session s /\
       (acks s' = acks s \/ exists t, acks s' = acks s ++ [MessageBoxMsg "error" t] /\ ~ proves C mode R sl k p)).
Proof.
  intros Hok Hr Hu Hq; unfold accept_pairing; rewrite Hr.
  assert (Hs : host_effect C mode R (Some sl) (PublicKeyMsg k) s s) by by apply host_effect_refl.
  apply wps_bind; eapply wps_mono; [by apply wp_judge| |intros ? ->; auto].
  intros [who|text] ? [-> Hv].
  2: { apply wps_bind; unfold send_ack; apply wps_bind, wps_lift; [|by auto]; intros [] _; apply wps_modify, wps_fail; cbn.
       split; [by apply host_effect_refl|]; split; [done|right; by eexists]. }
  destruct Hv as [Ha Hwho].
  set (Q := fun s' => host_effect C mode R (Some sl) (PublicKeyMsg k) s s' /\ acks s' = acks s /\ h_session s' = h_session s).
  apply wps_bind; eapply wps_mono with (E := Q) (N := fun _ s' => Q s' /\ paired s' = paired s);
    [| |intros s' (E1 & E2 & E3); auto].
  { destruct quic as [i|]; [|by apply wps_ret]; destruct (quic_certificate_der i) as [cert|]; [|by apply wps_ret].
    apply wps_bind, wps_lift; [|done]; intros [] _; apply wps_bind, wps_gets, wps_bind, wps_lift; [|done]; intros q' Hq'.
    apply wps_modify; split; [|done]; split; [|done]; split; [by left|]; by eapply remember_paired_kept. }
  intros [] s1 [(He & Hacks & Hses) Hpaired].
  apply wps_bind; eapply wps_mono with (E := Q) (N := fun _ s' => Q s');
    [| |intros s' (E1 & E2 & E3); auto].
  { destruct who as [[scope i]|]; [|by apply wps_ret]; destruct (Hwho scope i eq_refl) as (Hp & Hn & Hm).
    assert (Hearn : forall sc, mode_scope mode = Some sc \/ sc = DIRECT_PAIRING_SCOPE /\ quic_identity k <> [] ->
      earned C mode R (Some sl) (PublicKeyMsg k) sc (id i) (sign_pk i)) by (intros; by exists sl, k, p, i).
    unfold remember_viewer; apply wps_bind, wps_modify; destruct (is_some quic) eqn:Eq; cbn [when];
      [apply wps_modify|apply wps_ret]; (split; [|done]; split; [|exact (proj2 He)]); cbn; intros sc i' key' Hin.
    - apply add_invents_nothing in Hin as [(-> & -> & ->)|Hin]; [right; apply Hearn; auto|].
      apply add_invents_nothing in Hin as [(-> & -> & ->)|Hin]; [right; apply Hearn; auto|]; by apply He.
    - apply add_invents_nothing in Hin as [(-> & -> & ->)|Hin]; [right; apply Hearn; auto|]; by apply He. }
  intros [] s2 (He2 & Hacks2 & Hses2); unfold send_ack; apply wps_bind, wps_lift; [|by auto].
  intros [] _; apply wps_modify; cbn; rewrite Hacks2, Hses2; by split.
Qed.

(** The key a connection ends with, and whose it is. *)
Definition keyed (R : HostFresh) (h : Hello) (k : PublicKey) (sealed : list Z) (s' : Host V) : Prop :=
  exists key directional, decode_session sealed (asymmetric_value k) (h_our_sk_b R) (directional_offered h) = Ok (key, directional) /\
    h_session s' = Some (key, session_nonce_mode directional Host_).

Lemma wp_read_quic X k s :
  wp (read_quic_initiator (V := V) X k) s
    (fun q s' => s' = s /\ (is_some q = true -> quic_identity k <> []) /\ (h_is_quic X = true -> is_some q = true) /\
       (forall i, q = Some i -> box_pk i = asymmetric_value k))
    (fun s' => s' = s).
Proof.
  unfold read_quic_initiator; case_bool_decide; [destruct (h_is_quic X); [by apply wps_fail|by apply wps_ret]|].
  apply wps_bind, wps_lift; [|done]; intros i _; apply wps_bind, wps_lift; [|done]; intros u Hu.
  apply wps_bind, wps_lift; [|done]; intros c _; apply wps_bind; eapply wps_mono with (N := fun _ s' => s' = s) (E := fun s' => s' = s); [| |done].
  - destruct (h_is_quic X); [by apply wps_lift|by apply wps_ret].
  - intros [] ? ->; apply wps_ret; repeat split; try done; intros j [= <-]; by eapply validate_ok.
Qed.

Lemma wp_accept_viewer C mode R X h s :
  wp (accept_viewer C mode R X h) s
    (fun _ s' => host_effect C mode R (salt h) (h_received X) s s' /\ exists k, h_received X = PublicKeyMsg k /\
       match salt h with
       | Some sl => exists p, unwrap_direct_public_key_payload (symmetric_value_ k) true = Ok p /\
           admitted C mode R sl (paired s) k p /\ keyed R h k (symmetric_value p) s' /\
           acks s' = acks s ++ [SignedIdMsg direct_handshake_ack_ok []]
       | None => acks s' = acks s
       end)
    (fun s' => host_effect C mode R (salt h) (h_received X) s s' /\
       (acks s' = acks s \/ exists t, acks s' = acks s ++ [MessageBoxMsg "error" t])).
Proof.
  assert (Hs : forall s', paired s' = paired s -> h_quic_peers s' = h_quic_peers s ->
    host_effect C mode R (salt h) (h_received X) s s') by (intros; by apply host_effect_refl).
  unfold accept_viewer; destruct (h_received X) as [e| |e|i q|k|t text|] eqn:Er; try (apply wps_fail; by auto).
  unfold accept_public_key; destruct (_ =? _)%nat; [|case_bool_decide; [apply wps_bind, wps_modify|]; apply wps_fail; by auto].
  destruct (_ || _) eqn:Eh.
  - apply wps_bind, wps_lift; [|by auto]; intros p Hp.
    apply wps_bind; eapply wps_mono; [apply wp_read_quic| |intros ? ->; by auto]; intros quic ? (-> & Hq & _).
    destruct (negb _); [apply wps_fail; by auto|].
    apply wps_bind, wps_lift; [|by auto]; intros [key directional] Hkey; apply wps_bind; unfold set_session; apply wps_modify.
    set (s1 := s <| h_session := _ |>); destruct (salt h) as [sl|] eqn:Esalt.
    + cbn [is_some is_none negb] in Hp.
      assert (Hok : payload_ok true p) by (eapply returns_ok; [apply returns_unwrap|exact Hp]).
      pose proof (wp_accept_pairing C mode R X sl k p quic s1 Hok Er Hp Hq) as Hw; rewrite Er in Hw.
      eapply wps_mono; [exact Hw|..].
      * intros [] s' (He & Ha & Hacks & Hses); split; [by apply (host_effect_same _ _ _ _ _ s s1)|].
        exists k; split; [done|]; exists p; repeat split; try done; exists key, directional; split; [done|by rewrite Hses].
      * intros s' (He & Hses & Hacks); split; [by apply (host_effect_same _ _ _ _ _ s s1)|].
        destruct Hacks as [|(t & Ht & _)]; [by left|right; by exists t].
    + apply wps_ret; split; [by apply Hs|]; by exists k.
  - apply orb_false_iff in Eh as [_ Esalt]; destruct (salt h); [done|].
    apply wps_bind, wps_lift; [|by auto]; intros [key directional] Hkey; unfold set_session; apply wps_modify.
    split; [by apply Hs|]; by exists k.
Qed.
End host.

(** ** Every connection of a host *)

Record Arrival := { a_settings : HostSettings; a_mode : HandshakeMode; a_fresh : HostFresh; a_exchange : HostExchange }.

Section arrivals.
Context `{Signing} `{IdPkCodec} `{KeyDerivation} `{Sha256} `{Boxes} `{Candidates} {V : Type} `{PairedViewers V}.

Lemma say_hello_spec C mode R h : say_hello C mode R = Ok h ->
  salt h = (if bool_decide (pairing_passphrase C mode = ""%string) then None else Some (h_random_salt R)) /\
  exists signed quic, hello h = SignedIdMsg signed quic /\ quic <> [].
Proof.
  unfold say_hello; destruct (_ || _); [done|]; cbv zeta; destruct (h_quic_certificate_der C) as [cert| |]; try done; cbn.
  unfold create_direct_signed_id_with_quic, create_direct_signed_id_v3; destruct (_ || _ || _); [done|].
  destruct (u16_try_from _) as [n|]; [|done]; cbn; intros [= <-]; cbn; split; [done|]; by do 2 eexists.
Qed.

(** What a connection, refused or not, does to the host. *)
Lemma wp_create C mode R X s :
  let E s' := host_effect C mode R (Some (h_random_salt R)) (h_received X) s s' /\
    exists new, acks s' = acks s ++ new /\ SignedIdMsg direct_handshake_ack_ok [] ∉ new in
  wp (create_tcp_connection_with_mode C mode R X) s
    (fun _ s' => host_effect C mode R (Some (h_random_salt R)) (h_received X) s s' /\
       (mode = ModeDisabled \/ pairing_passphrase C mode = ""%string \/
        exists k p, h_received X = PublicKeyMsg k /\ unwrap_direct_public_key_payload (symmetric_value_ k) true = Ok p /\
          admitted C mode R (h_random_salt R) (paired s) k p))
    E.
Proof.
  intros E; assert (Hs : E s) by (split; [by apply host_effect_refl|exists []; rewrite app_nil_r; split; [done|apply not_elem_of_nil]]).
  unfold create_tcp_connection_with_mode; case_bool_decide; [apply wps_ret; split; [apply Hs|by left]|].
  apply wps_bind, wps_lift; [|done]; intros h Hh; apply say_hello_spec in Hh as (Esalt & signed & quic & Eh & Hq).
  apply wps_bind; unfold send_ack; apply wps_bind, wps_lift; [|done]; intros [] _; apply wps_modify.
  set (s1 := s <| acks ::= _ |>).
  assert (Heff : forall s', host_effect C mode R (salt h) (h_received X) s1 s' ->
    host_effect C mode R (Some (h_random_salt R)) (h_received X) s s').
  { intros s' He; apply (host_effect_same _ _ _ _ _ s s1); [done..|]; destruct He as [He Hk]; split; [|done].
    intros sc i key Hin; apply He in Hin as [Hin|(sl & k & p & d & Es & Hrest)]; [by left|right].
    rewrite Esalt in Es; case_bool_decide; [done|]; injection Es as <-; by exists (h_random_salt R), k, p, d. }
  eapply wps_mono; [apply wp_accept_viewer|..].
  - intros [] s' [He (k & Hk & Hrest)]; split; [by apply Heff|right]; rewrite Esalt in Hrest; case_bool_decide; [by left|right].
    destruct Hrest as (p & Hu & Ha & _); by exists k, p.
  - intros s' [He Hacks]; split; [by apply Heff|].
    assert (Hn : SignedIdMsg direct_handshake_ack_ok [] <> hello h) by (rewrite Eh; congruence).
    destruct Hacks as [->|[t ->]]; cbn.
    + exists [hello h]; split; [done|]; by rewrite list_elem_of_singleton.
    + exists [hello h; MessageBoxMsg "error" t]; rewrite <- app_assoc; split; [done|].
      rewrite elem_of_cons, list_elem_of_singleton; naive_solver.
Qed.

(** The host after one connection, whatever it came to, and after many. *)
Definition serve (s : Host V) (a : Arrival) : Host V :=
  (create_tcp_connection_with_mode (a_settings a) (a_mode a) (a_fresh a) (a_exchange a) s).2.
Definition serve_all (l : list Arrival) (s : Host V) : Host V := foldl serve s l.

(** The arrival [a] proved the passphrase for the viewer [i] with [key]. *)
Definition earned_by (scope i : string) (key : list Z) (a : Arrival) : Prop :=
  earned (a_settings a) (a_mode a) (a_fresh a) (Some (h_random_salt (a_fresh a))) (h_received (a_exchange a)) scope i key.

Lemma serve_effect s a : host_effect (a_settings a) (a_mode a) (a_fresh a) (Some (h_random_salt (a_fresh a)))
  (h_received (a_exchange a)) s (serve s a).
Proof.
  pose proof (wp_create (a_settings a) (a_mode a) (a_fresh a) (a_exchange a) s) as Hw; cbv zeta in Hw.
  unfold serve, wp in *; destruct (create_tcp_connection_with_mode _ _ _ _ s) as [[[]|e|] s']; apply Hw.
Qed.

(** C9. Over any sequence of connections, refused or not, a host comes to
    remember only viewers that proved the passphrase of a connection with an
    identity signed for the key of that very answer, and it never gives up a QUIC
    identity for another. *)
Theorem remembered_viewers_proved_the_passphrase l s :
  (forall scope i key, has_paired_viewer (paired (serve_all l s)) scope i key = true ->
     has_paired_viewer (paired s) scope i key = true \/ exists a, a ∈ l /\ earned_by scope i key a) /\
  h_quic_peers s ⊆ h_quic_peers (serve_all l s).
Proof.
  revert s; induction l as [|a l IH]; intros s; [by split; [left|]|].
  destruct (serve_effect s a) as [He Hk], (IH (serve s a)) as [IHp IHk]; split; [|by etrans].
  intros scope i key Hin; apply IHp in Hin as [Hin|(b & Hb & Hearn)].
  - apply He in Hin as [Hin|Hin]; [by left|right; exists a; split; [by left|exact Hin]].
  - right; exists b; split; [by right|done].
Qed.

Lemma serves_by_mode C e R X s : host_serves C e R X s = create_tcp_connection_with_mode C (entry_mode e) R X s.
Proof. by destruct e. Qed.

(** C6. However a connection reaches a host that has a passphrase for that way, the
    host accepts it only of a viewer that proved the passphrase, or that it remembers
    and that signed the key of its answer - except over a relay whose request says
    [secure = false], where it asks for nothing.  A connection it does not accept gets
    no acknowledgement. *)
Theorem host_admits_only_the_paired C e R X s :
  match host_serves C e R X s with
  | (Ok _, _) =>
      e = RelayRequested false \/ entry_passphrase C e = ""%string \/
      exists k p, h_received X = PublicKeyMsg k /\ unwrap_direct_public_key_payload (symmetric_value_ k) true = Ok p /\
        admitted C (entry_mode e) R (h_random_salt R) (paired s) k p
  | (_, s') => exists new, acks s' = acks s ++ new /\ SignedIdMsg direct_handshake_ack_ok [] ∉ new
  end.
Proof.
  rewrite serves_by_mode; pose proof (wp_create C (entry_mode e) R X s) as Hw; cbv zeta in Hw; unfold wp in Hw.
  destruct (create_tcp_connection_with_mode C (entry_mode e) R X s) as [[[]|e'|] s']; [|apply Hw..].
  destruct (decide (e = RelayRequested false)) as [|Hne]; [by left|right].
  destruct Hw as (_ & [Hm|[Hp|Hk]]); [by destruct e as [[]| | | |]|left|by right]; by destruct e as [[]| | | |].
Qed.

(** The exception: the sender of a relay request decides whether the passphrase of the
    host is asked for. *)
Theorem relay_request_waives_the_passphrase C R X s : host_serves C (RelayRequested false) R X s = (Ok tt, s).
Proof. done. Qed.
End arrivals.
