(* ===== verification/HandshakeAgreement.v ===== *)
(** * Two peers with one passphrase

    Runs the viewer of the file PeerHandshake against the host of the same file:
    when both are honest, the user types the passphrase of the host, and the
    libraries work as they are documented to, the handshake of a direct
    connection completes on both sides, with the same session key and the same
    kind of nonces, and each remembers the other. *)

From S2P Require Import Prelude ClipboardTypes Fingerprint SignedIdentity PeerTrust PeerHandshake HandshakeTheory HostHandshake.
From S2P Require LanDiscovery.
From Stdlib Require Import Ascii.
From Stdlib Require String.
#[local] Open Scope list_scope.
#[local] Open Scope Z_scope.

(** ** Running a computation *)

Section run.
Context {S : Type}.
Lemma run_bind {A B} (m : ST S A) (f : A -> ST S B) s a s1 r : m s = (Ok a, s1) -> f a s1 = r -> (m ≫= f) s = r.
Proof. by intros E <-; unfold mbind, ST_bind; rewrite E. Qed.
Lemma run_lift {A B} (x : outcome string A) (f : A -> ST S B) s a r : x = Ok a -> f a s = r -> (lift x ≫= f) s = r.
Proof. by intros -> <-. Qed.
Lemma run_modify {B} (g : S -> S) (f : unit -> ST S B) s r : f () (g s) = r -> (modify g ≫= f) s = r.
Proof. done. Qed.
Lemma run_gets {A B} (g : S -> A) (f : A -> ST S B) s r : f (g s) s = r -> (gets g ≫= f) s = r.
Proof. done. Qed.
Lemma run_ret {A B} (a : A) (f : A -> ST S B) s r : f a s = r -> (mret a ≫= f) s = r.
Proof. done. Qed.
End run.

Section agreement.
Context `{Signing} `{IdPkCodec} `{KeyDerivation} `{Sha256} `{Base64} `{Boxes} `{Candidates} {V : Type} `{PairedViewers V}.
Variables (C : HostSettings) (R : HostFresh) (W : Settings) (F : Fresh) (derived h_cert w_cert : list Z) (word : string).

(** What an honest host and an honest viewer have: keys of the right length and
    kind, a certificate, and a passphrase that both sides know. *)
Record honest : Prop := {
  host_identity : identity_inputs (h_our_pk_b R) (h_public_key C) (h_secret_key C) (Some (h_random_salt R))
                    (host_secure_channel (h_directional_secretbox_enabled C));
  host_identity_quic : identity_inputs (h_our_pk_b R) (h_public_key C) (h_secret_key C) None 0;
  host_secret : length (h_secret_key C) = SECRETKEYBYTES;
  host_named : h_local_id C <> ""%string;
  host_certificate : h_quic_certificate_der C = Ok h_cert;
  host_certificate_len : 0 < Z.of_nat (length h_cert) <= DIRECT_QUIC_CERTIFICATE_MAX_LEN;
  host_word : get_effective_direct_access_pairing_passphrase C = word;
  word_set : word <> ""%string;
  word_derives : derive_key (as_bytes word) (h_random_salt R) = Some derived;
  viewer_identity : identity_inputs (our_pk_b F) (public_key W) (secret_key W) None 0;
  viewer_secret : length (secret_key W) = SECRETKEYBYTES;
  viewer_no_magic : no_magic (public_key W) = true;
  viewer_certificate : local_quic_certificate_der W = Ok w_cert;
  viewer_certificate_len : 0 < Z.of_nat (length w_cert) <= DIRECT_QUIC_CERTIFICATE_MAX_LEN;
  viewer_signed_len : Z.of_nat (length (create_direct_signed_id (local_id W) (our_pk_b F) (public_key W) (secret_key W))) <= 65535;
  viewer_remembers : remember_paired_viewers W = true;
  no_bootstrap : forall i, get_bootstrap_trusted_peer_key W i = ""%string;
  host_box : box_pair (h_our_pk_b R) (h_our_sk_b R);
  viewer_box : box_pair (our_pk_b F) (our_sk_b F);
  session_key_len : length (session_key F) = 32%nat;
  confirms : forall i k c t, exists r, confirmed i k c t = Ok r;
}.
Hypothesis HH : honest.

Lemma certificate_payload pid box key sk cert : length key = PUBLICKEYBYTES ->
  0 < Z.of_nat (length cert) <= DIRECT_QUIC_CERTIFICATE_MAX_LEN ->
  exists payload, create_direct_signed_id_with_quic pid box key sk cert = Ok payload /\ payload <> [].
Proof.
  intros Hk Hc; unfold create_direct_signed_id_with_quic, create_direct_signed_id_v3, DIRECT_QUIC_CERTIFICATE_MAX_LEN in *.
  rewrite Hk, bool_decide_false by (destruct cert; [cbn in Hc; lia|done]).
  rewrite (proj2 (Z.ltb_ge _ _)), u16_try by lia; cbn; by eexists.
Qed.

(** The identity the host sends, and the viewer reads. *)
Definition channel : Z := host_secure_channel (h_directional_secretbox_enabled C).
Definition read_host : DirectSignedId :=
  {| id := h_local_id C; sign_pk := h_public_key C; box_pk := h_our_pk_b R; pairing_required := true;
     pairing_salt := Some (h_random_salt R); supports_paired_viewer_identity := true;
     quic_certificate_der := Some h_cert; secure_channel := channel |}.

Lemma honest_hello : exists signed quic,
  say_hello C ModeDirect R = Ok {| hello := SignedIdMsg signed quic; salt := Some (h_random_salt R);
    directional_offered := h_directional_secretbox_enabled C |} /\
  exists d, decode_direct_id_pk signed = Ok d /\ attach_direct_quic_identity d quic = Ok read_host.
Proof.
  pose proof (host_identity HH) as I; pose proof (host_identity_quic HH) as Iq.
  destruct (certificate_payload (h_local_id C) (h_our_pk_b R) (h_public_key C) (h_secret_key C) h_cert) as (quic & Eq & Hq);
    [apply I|apply (host_certificate_len HH)|].
  eexists _, quic; split.
  - unfold say_hello; rewrite (host_secret HH), (in_key _ _ _ _ _ I); cbn [negb Nat.eqb PUBLICKEYBYTES SECRETKEYBYTES orb].
    cbn [pairing_passphrase]; rewrite (host_word HH), (bool_decide_false (word = ""%string)) by apply HH; cbv zeta.
    rewrite (host_certificate HH), bind_Ok, Eq, bind_Ok; do 2 f_equal.
    unfold host_secure_channel; pose proof channel_range; destruct (h_directional_secretbox_enabled C).
    + apply Z.eqb_refl.
    + apply Z.eqb_neq; lia.
  - rewrite bool_decide_true by done; cbn [create_host_signed_id].
    eexists; split; [unfold sign_direct_id_with_pairing; rewrite decode_v2_tag; by apply decode_v2|].
    unfold attach_direct_quic_identity; rewrite bool_decide_false by done.
    erewrite (decode_v3 _ _ _ _ None) by (try exact Eq; apply Iq); cbn [with_prefix]; rewrite bind_Ok; cbn.
    by rewrite !bool_decide_true.
Qed.

(** The proof both sides compute. *)
Lemma length_proof w sl i a b c p : compute_direct_pairing_proof w sl i a b c = Ok p -> length p = DIRECT_PAIRING_PROOF_LEN.
Proof.
  unfold compute_direct_pairing_proof; destruct (derive_direct_pairing_key _ _); try done; cbn [mbind outcome_bind]; cbv zeta.
  destruct (slice _ _ _) as [l| |]; try done; rewrite bind_Ok; unfold array; destruct (Nat.eqb_spec (length l) DIRECT_PAIRING_PROOF_LEN); [|done].
  by intros [= <-].
Qed.

Lemma honest_proof : exists p,
  compute_direct_pairing_proof word (h_random_salt R) (h_local_id C) (h_public_key C) (h_our_pk_b R) (our_pk_b F) = Ok p.
Proof.
  unfold compute_direct_pairing_proof, derive_direct_pairing_key; rewrite (word_derives HH); cbn [ok_or]; rewrite bind_Ok; cbv zeta.
  set (digest := sha256 _); pose proof (length_sha256 (pairing_proof_input derived (h_local_id C) (h_public_key C) (h_our_pk_b R) (our_pk_b F))) as Hl.
  fold digest in Hl; unfold slice, DIRECT_PAIRING_PROOF_LEN; rewrite Hl; cbn [Nat.leb andb]; rewrite bind_Ok.
  exists digest; change (32 - 0)%nat with 32%nat; rewrite drop_0, take_ge by lia; by apply array_id.
Qed.

(** ** The answer *)

Definition directional : bool := viewer_selects_directional_secretbox channel (directional_secretbox_enabled W).
Definition sealed : list Z :=
  seal (session_key F ++ if directional then [SESSION_KEY_MODE_DIRECTIONAL] else []) (h_our_pk_b R) (our_sk_b F).
Definition read_viewer : DirectSignedId :=
  {| id := local_id W; sign_pk := public_key W; box_pk := our_pk_b F; pairing_required := false; pairing_salt := None;
     supports_paired_viewer_identity := false; quic_certificate_der := None; secure_channel := 0 |}.

Lemma directional_offered_ok : directional = true -> h_directional_secretbox_enabled C = true.
Proof.
  unfold directional, channel, host_secure_channel, viewer_selects_directional_secretbox; pose proof channel_range.
  destruct (h_directional_secretbox_enabled C); [done|]; rewrite (proj2 (Z.eqb_neq _ _)) by lia; done.
Qed.

Lemma viewer_keys : LanDiscovery.get_local_signing_keypair (secret_key W) (public_key W) = Ok (public_key W, secret_key W).
Proof.
  unfold LanDiscovery.get_local_signing_keypair; rewrite (viewer_secret HH), (in_key _ _ _ _ _ (viewer_identity HH)).
  cbn [negb Nat.eqb PUBLICKEYBYTES SECRETKEYBYTES orb].
  rewrite (array_id PUBLICKEYBYTES (public_key W)) by apply (viewer_identity HH); rewrite bind_Ok, array_id by apply HH; done.
Qed.

Lemma viewer_pk : get_pk (our_pk_b F) = Some (our_pk_b F).
Proof. apply get_pk_some; split; [done|apply (viewer_identity HH)]. Qed.

Definition own_id : list Z := create_direct_signed_id (local_id W) (our_pk_b F) (public_key W) (secret_key W).

Lemma own_id_read : decode_direct_id_pk own_id = Ok read_viewer.
Proof.
  pose proof (viewer_identity HH) as I; unfold own_id, create_direct_signed_id, sign_direct_id.
  rewrite decode_v1_tag by (apply HH || apply I); by apply decode_v1.
Qed.

Lemma viewer_initiator : create_direct_public_key_initiator_id W (our_pk_b F) = Ok own_id.
Proof. unfold create_direct_public_key_initiator_id; rewrite viewer_pk, viewer_keys; by rewrite bind_Ok. Qed.

Lemma viewer_quic : exists quic, create_direct_quic_identity W (our_pk_b F) = Ok quic /\ quic <> [] /\
  decode_direct_id_pk quic = Ok {| id := local_id W; sign_pk := public_key W; box_pk := our_pk_b F; pairing_required := false;
    pairing_salt := None; supports_paired_viewer_identity := true; quic_certificate_der := Some w_cert; secure_channel := 0 |}.
Proof.
  destruct (certificate_payload (local_id W) (our_pk_b F) (public_key W) (secret_key W) w_cert) as (quic & Eq & Hq);
    [apply (viewer_identity HH)|apply HH|].
  exists quic; unfold create_direct_quic_identity; rewrite viewer_pk, viewer_keys, bind_Ok, (viewer_certificate HH), bind_Ok.
  split; [exact Eq|]; split; [done|]; by apply (decode_v3 _ _ _ _ None _ _ (viewer_identity HH)).
Qed.

(** ** The host accepts it *)

Definition host_view (t : Z) (k : PublicKey) : HostExchange :=
  {| h_received := PublicKeyMsg k; h_is_quic := false; h_verify_binding := fun _ _ => Ok (); h_send := Ok ();
     h_time := t; h_store_io := Ok () |}.
Definition hello_said (signed quic : list Z) : Hello :=
  {| hello := SignedIdMsg signed quic; salt := Some (h_random_salt R); directional_offered := h_directional_secretbox_enabled C |}.

Lemma validated i : box_pk i = our_pk_b F -> validate_direct_public_key_initiator i (our_pk_b F) = Ok ().
Proof. intros Hi; unfold validate_direct_public_key_initiator; rewrite viewer_pk, Hi; by rewrite bool_decide_true. Qed.

Lemma host_accepts payload quic p signed hquic t (s : Host V) :
  wrap_direct_public_key_symmetric_value_with_identity sealed (Some p) (Some own_id) = Ok payload ->
  create_direct_quic_identity W (our_pk_b F) = Ok quic ->
  compute_direct_pairing_proof word (h_random_salt R) (h_local_id C) (h_public_key C) (h_our_pk_b R) (our_pk_b F) = Ok p ->
  h_quic_peers s !! local_id W = None ->
  exists s', accept_viewer C ModeDirect R (host_view t {| asymmetric_value := our_pk_b F; symmetric_value_ := payload; quic_identity := quic |})
      (hello_said signed hquic) s = (Ok (), s') /\
    acks s' = acks s ++ [SignedIdMsg direct_handshake_ack_ok []] /\
    h_session s' = Some (session_key F, session_nonce_mode directional Host_) /\
    (h_remember_paired_viewers C = true -> has_paired_viewer (paired s') DIRECT_PAIRING_SCOPE (local_id W) (public_key W) = true).
Proof.
  intros Hw Hq Hp Hnew; destruct viewer_quic as (quic' & Hq' & Hqne & Hqread); assert (quic' = quic) as -> by congruence; clear Hq'.
  assert (Hu : unwrap_direct_public_key_payload payload true =
    Ok {| pairing_proof := Some p; initiator := Some read_viewer; symmetric_value := sealed |}).
  { eapply (unwrap_wrap sealed (Some p) (Some own_id) read_viewer); [done| | |apply seal_nonempty|exact Hw].
    - intros ? [= <-]; by eapply length_proof.
    - split; [|apply own_id_read]; unfold own_id, create_direct_signed_id, sign_direct_id; intros E.
      pose proof (in_key _ _ _ _ _ (viewer_identity HH)) as Hk; by destruct (public_key W). }
  destruct (confirms HH (local_id W) (public_key W) w_cert t) as [r Hr].
  set (k := {| asymmetric_value := our_pk_b F; symmetric_value_ := payload; quic_identity := quic |}).
  set (who := if h_remember_paired_viewers C then Some (DIRECT_PAIRING_SCOPE, read_viewer) else None).
  assert (Hj : forall s : Host V, judge_pairing C ModeDirect R (h_random_salt R) k
      {| pairing_proof := Some p; initiator := Some read_viewer; symmetric_value := sealed |} s = (Ok (inl who), s)).
  { intros s1; unfold judge_pairing; cbn [pairing_proof pairing_passphrase asymmetric_value k]; rewrite (host_word HH).
    eapply run_lift; [exact Hp|]; rewrite bool_decide_true by done; unfold who; cbn [initiator mode_scope].
    destruct (h_remember_paired_viewers C); [|done]; eapply run_lift; [by apply validated|done]. }
  assert (Hremember : forall s : Host V, match who with Some (scope, i) => remember_viewer t scope i true | None => mret () end s =
      (Ok (), (match who with Some (scope, i) => remember_viewer t scope i true | None => mret () end s).2))
    by (intros s1; by destruct who as [[]|]).
  unfold accept_viewer, accept_public_key, host_view; cbn [h_received asymmetric_value symmetric_value_ k].
  rewrite (in_box _ _ _ _ _ (viewer_identity HH)); cbn [Nat.eqb PUBLICKEYBYTES]; rewrite bool_decide_true by done.
  cbn [orb salt hello_said is_some is_none negb].
  eexists; split.
  - eapply run_lift; [exact Hu|]; eapply run_bind.
    { unfold read_quic_initiator; cbn [quic_identity asymmetric_value]; rewrite bool_decide_false by done.
      eapply run_lift; [exact Hqread|]; eapply run_lift; [by apply validated|]; eapply run_lift; [done|]; by eapply run_ret. }
    cbn [initiator same_initiators id sign_pk read_viewer]; rewrite !bool_decide_true by done; cbn [andb negb symmetric_value].
    eapply run_lift; [apply decode_seal; [apply HH|apply HH|apply HH|exact directional_offered_ok]|].
    eapply run_modify; unfold accept_pairing; eapply run_bind; [apply Hj|]; cbv beta iota.
    eapply run_bind.
    { cbn [quic_certificate_der]; eapply run_lift; [by apply validated|]; eapply run_gets, run_lift; [|done].
      unfold remember_paired_peer, remember_peer; cbn [h_store_io h_time id sign_pk h_quic_peers].
      rewrite bool_decide_false by (intros E; pose proof (viewer_certificate_len HH) as Hl; rewrite E in Hl; cbn in Hl; lia).
      rewrite bind_Ok, Hr, bind_Ok; cbn; by rewrite Hnew. }
    eapply run_bind.
    { cbn [is_some is_none negb]; apply Hremember. }
    reflexivity.
  - unfold who; destruct (h_remember_paired_viewers C); cbn; repeat split; try done; intros _.
    pose proof (has_add {| v_sign_pk := public_key W; v_time := t; v_id := local_id W; v_scope := DIRECT_PAIRING_SCOPE |}) as Ha.
    apply Ha.
Qed.

(** ** The viewer completes *)

(** Computations that end with a value. *)
Definition succeeds {S A} (m : ST S A) : Prop := forall s, exists a s', m s = (Ok a, s').

Lemma succeeds_bind {S A B} (m : ST S A) (f : A -> ST S B) : succeeds m -> (forall a, succeeds (f a)) -> succeeds (m ≫= f).
Proof. intros Hm Hf s; destruct (Hm s) as (a & s1 & E); unfold mbind, ST_bind; rewrite E; apply Hf. Qed.
Lemma succeeds_ret {S A} (a : A) : succeeds (S := S) (mret a).
Proof. by intros s; eexists _, _. Qed.
Lemma succeeds_modify {S} (g : S -> S) : succeeds (modify g).
Proof. by intros s; eexists _, _. Qed.
Lemma succeeds_gets {S A} (g : S -> A) : succeeds (gets g).
Proof. by intros s; eexists _, _. Qed.
Lemma succeeds_lift {S A} (a : A) r : r = Ok a -> succeeds (S := S) (lift r).
Proof. intros -> s; by eexists _, _. Qed.
Lemma succeeds_has_confirmed sc cfg now : succeeds (has_confirmed sc cfg now).
Proof. intros s; unfold has_confirmed; destruct (has_confirmed_paired_viewer _ _ _ _); by eexists _, _. Qed.

Ltac succeeds :=
  repeat (cbv zeta; lazymatch goal with
  | |- succeeds (mbind _ _) => apply succeeds_bind; [|intros ?]
  | |- succeeds (when ?b _) => destruct b; unfold when
  | |- succeeds (mret _) => apply succeeds_ret
  | |- succeeds (modify _) => apply succeeds_modify
  | |- succeeds (set_confirmed _ _ _ _) => apply succeeds_modify
  | |- succeeds (gets _) => apply succeeds_gets
  | |- succeeds (has_confirmed _ _ _) => apply succeeds_has_confirmed
  | |- succeeds (if ?b then _ else _) => destruct b
  | |- succeeds (match ?x with _ => _ end) => destruct x
  end).

Lemma remember_authenticated_ok t i k c q : exists q', remember_authenticated_peer (Ok ()) t i k c q = Ok q'.
Proof.
  unfold remember_authenticated_peer, remember_peer; case_bool_decide; [by eexists|]; rewrite bind_Ok.
  destruct (confirms HH i k c t) as [r Hr]; rewrite Hr, bind_Ok; destruct (q !! i); [|by eexists].
  destruct (_ && _); by eexists.
Qed.
Lemma remember_quic_ok X i k c : store_io X = Ok () -> succeeds (remember_quic X i k c).
Proof.
  intros Hio; unfold remember_quic; apply succeeds_bind; [apply succeeds_gets|intros q].
  destruct (remember_authenticated_ok (time_after X) i k c q) as [q' Hq]; rewrite Hio.
  apply succeeds_bind; [by eapply succeeds_lift|intros ?; apply succeeds_modify].
Qed.
Lemma trust_after_ok i cfg pk p : pk <> [] ->
  exists q, trust_peer_signing_key_after_pairing (get_bootstrap_trusted_peer_key W) i cfg pk p = Ok q.
Proof.
  intros Hpk; unfold trust_peer_signing_key_after_pairing; rewrite bool_decide_false, (no_bootstrap HH) by done.
  rewrite bool_decide_true by done; cbn [negb]; cbv zeta; by eexists.
Qed.

Lemma settle_ok X cfg d was tc pending a : store_io X = Ok () -> sign_pk d <> [] ->
  succeeds (settle Direct W X cfg d was tc pending a).
Proof.
  intros Hio Hpk; unfold settle; apply succeeds_bind; [|intros _].
  - destruct (is_some pending); [|apply succeeds_ret]; unfold when, update_peers.
    intros s; destruct (trust_after_ok (id d) cfg (sign_pk d) (peers s) Hpk) as [q Hq].
    eexists _, _; eapply run_gets, run_lift; [exact Hq|reflexivity].
  - unfold settle_pairing; succeeds; by apply remember_quic_ok.
Qed.

Lemma keeps_session_settle X cfg d was tc p a : keeps session (settle Direct W X cfg d was tc p a).
Proof.
  unfold settle, settle_pairing, remember_quic, update_peers, set_confirmed; steps;
    intros s; unfold has_confirmed, same; by destruct (has_confirmed_paired_viewer _ _ _ _).
Qed.

(** The answer of the viewer, and the host that reads it. *)
Lemma status_ok p cfg : exists st,
  trusted_peer_signing_key_status (get_bootstrap_trusted_peer_key W) p (h_local_id C) cfg (h_public_key C) = Ok st.
Proof.
  unfold trusted_peer_signing_key_status; rewrite (no_bootstrap HH), (bool_decide_true (""%string = ""%string)) by done.
  rewrite bool_decide_false; [by eexists|].
  intros E; pose proof (in_key _ _ _ _ _ (host_identity HH)) as Hl; by rewrite E in Hl.
Qed.

(** The end of an attempt with this host, from a state in which the viewer is not
    to be recognized. *)
Record meets (X : Exchange) (signed quic : list Z) (t : Z) (sh : Host V) : Prop := {
  m_first : first X = SignedIdMsg signed quic;
  m_answer : forall k, answer X k =
    match drop (length (acks sh)) (acks (accept_viewer C ModeDirect R (host_view t k) (hello_said signed quic) sh).2) with
    | m :: _ => m
    | [] => Closed
    end;
  m_word : request_pairing_passphrase X (h_local_id C) = Ok word;
  m_late : late_passphrase X = false;
  m_tcp : is_quic X = false;
  m_send : send X = Ok ();
  m_io : store_io X = Ok ();
  m_fresh : fresh X = F;
}.

Lemma answer_sent X signed quic t sh cfg pending s : meets X signed quic t sh ->
  passphrase (input s) = None ->
  (pending = None -> (has_confirmed_paired_viewer DIRECT_PAIRING_SCOPE cfg (time_before X) (peers s)).1 = false) ->
  exists a p own s', answer_host Direct W X cfg read_host pending s = (Ok a, s') /\
    pairing_was_proven a = true /\ use_paired_viewer a = false /\
    compute_direct_pairing_proof word (h_random_salt R) (h_local_id C) (h_public_key C) (h_our_pk_b R) (our_pk_b F) = Ok p /\
    create_direct_quic_identity W (our_pk_b F) = Ok own /\
    wrap_direct_public_key_symmetric_value_with_identity sealed (Some p) (Some own_id) = Ok (symmetric_value_ (message a)) /\
    message a = {| asymmetric_value := our_pk_b F; symmetric_value_ := symmetric_value_ (message a); quic_identity := own |} /\
    sent s' = Some (message a) /\ session s' = Some (session_key F, session_nonce_mode directional Viewer_).
Proof.
  intros M Hpass Hconf; destruct honest_proof as [p Hp], viewer_quic as (own & Hown & _ & _).
  destruct (wrap_direct_public_key_symmetric_value_with_identity sealed (Some p) (Some own_id)) as [payload|e|] eqn:Hw.
  2,3: exfalso; revert Hw; unfold wrap_direct_public_key_symmetric_value_with_identity;
    rewrite u16_try by apply (viewer_signed_len HH); cbn [ok_or]; by rewrite bind_Ok.
  assert (Huse : exists s1, (if true && is_none pending then has_confirmed Direct cfg (time_before X) else mret false) s = (Ok false, s1) /\
    input s1 = input s).
  { destruct pending; [by eexists|]; cbn [is_none is_some negb andb]; unfold has_confirmed; cbn [scope_name].
    specialize (Hconf eq_refl); destruct (has_confirmed_paired_viewer _ _ _ _) as [b q]; cbn in *; subst b; by eexists. }
  destruct Huse as (s1 & Huse & Hin).
  eexists {| message := {| asymmetric_value := our_pk_b F; symmetric_value_ := payload; quic_identity := own |};
            use_paired_viewer := false; pairing_was_proven := true; named := true |}, p, own, _.
  split.
  { unfold answer_host, create_symmetric_key_msg_with_mode; rewrite (m_fresh _ _ _ _ _ M), (viewer_remembers HH).
    cbn [read_host pairing_required supports_paired_viewer_identity secure_channel box_pk quic_certificate_der andb is_some is_none negb]; cbv zeta.
    eapply run_bind; [exact Huse|]; eapply run_bind; [eapply run_lift; [apply viewer_initiator|reflexivity]|].
    eapply run_bind; [by rewrite Hown|]; eapply run_bind.
    - unfold prove_pairing; cbn [pairing_salt read_host id sign_pk box_pk]; rewrite (m_fresh _ _ _ _ _ M).
      eapply run_lift; [apply array_id, (viewer_identity HH)|]; unfold ask_passphrase, needs_fresh_socket; eapply run_bind.
      + eapply run_gets, run_modify; rewrite Hin, Hpass; eapply run_lift; [apply (m_word _ _ _ _ _ M)|]; by eapply run_modify.
      + eapply run_bind; [by eapply run_gets|]; rewrite (m_late _ _ _ _ _ M), andb_false_r; by eapply run_lift; [exact Hp|].
    - eapply run_lift; [exact Hw|]; eapply run_lift; [apply (m_send _ _ _ _ _ M)|]; by eapply run_modify. }
  repeat split; try done; exact Hw.
Qed.

End agreement.

(** ** Concrete peers *)

(** A box that is its own contents, a list of paired viewers, and records that
    are always made stand in for the libraries. *)
#[local] Obligation Tactic := idtac.
#[export] Program Instance plain_boxes : Boxes :=
  {| SESSION_KEY_MODE_DIRECTIONAL := 1;
     SECURE_CHANNEL_DIRECTIONAL := 1;
     box_pair pk sk := pk = drop 32 sk;
     seal m pk sk := 1 :: m;
     decode_session sealed pk sk offered :=
       let m := drop 1 sealed in
       if (length m =? 32)%nat then Ok (m, false)
       else if (length m =? 33)%nat && offered then Ok (take 32 m, true)
       else Err "cannot open the box"%string |}.
Next Obligation. done. Qed.
Next Obligation.
  intros key [] offered pk_a sk_a pk_b sk_b Ha Hb Hl Ho; cbv zeta; change (drop 1 (1 :: ?m)) with m.
  - rewrite length_app, Hl, Ho by done; cbn [Nat.eqb Nat.add length andb].
    rewrite take_app_length' by done; done.
  - by rewrite app_nil_r, Hl.
Qed.
Next Obligation. done. Qed.

#[export] Program Instance plain_candidates : Candidates :=
  {| confirmed i k c t := Ok {| identity_key := k; certificate_pin := []; certificate_der := c; confirmed_at := t |} |}.
Next Obligation. by intros i k c t r [= <-]. Qed.

Definition same_viewer (scope i : string) (k : list Z) (v : PairedViewer) : bool :=
  bool_decide (v_scope v = scope /\ v_id v = i /\ v_sign_pk v = k).
#[export] Program Instance list_viewers : PairedViewers (list PairedViewer) :=
  {| has_paired_viewer l scope i k := existsb (same_viewer scope i k) l;
     add_paired_viewer v l := v :: l |}.
Next Obligation. intros v l; cbn; unfold same_viewer; by rewrite bool_decide_true. Qed.
Next Obligation.
  intros v l scope i k; cbn; rewrite orb_true_iff; intros [Hv|Hl]; [left|by right].
  unfold same_viewer in Hv; by apply bool_decide_eq_true in Hv as (-> & -> & ->).
Qed.

Definition box_secret (n : Z) : list Z := replicate 32 0 ++ example_key n.
Definition example_host : HostSettings :=
  {| h_local_id := "host"; h_secret_key := example_secret 7; h_public_key := example_key 7;
     direct_access_pairing_passphrase := "swordfish"; peer_pairing_passphrase := ""; h_remember_paired_viewers := true;
     h_directional_secretbox_enabled := true; h_quic_certificate_der := Ok [48; 1] |}.
Definition example_host_fresh : HostFresh :=
  {| h_our_pk_b := example_key 5; h_our_sk_b := box_secret 5; h_random_salt := example_salt |}.
Definition example_settings : Settings :=
  {| local_id := "viewer"; secret_key := example_secret 8; public_key := example_key 8; allow_unverified_peer_trust := false;
     remember_paired_viewers := true; directional_secretbox_enabled := true; get_bootstrap_trusted_peer_key := fun _ => ""%string;
     get_bootstrap_key := ""; local_quic_certificate_der := Ok [48; 2] |}.
Definition example_fresh : Fresh := {| our_pk_b := example_key 6; our_sk_b := box_secret 6; session_key := example_key 4 |}.

Definition host_at_first : Host (list PairedViewer) :=
  {| paired := []; h_quic_peers := ∅; key_confirmed := true; acks := []; h_session := None |}.
Definition viewer_at_first : Viewer :=
  {| peers := ∅; quic_peers := ∅; input := default_input <| can_reopen := true |>; prompts := []; sent := None; session := None |}.
Definition example_said : list Z * list Z :=
  match say_hello example_host ModeDirect example_host_fresh with
  | Ok {| hello := SignedIdMsg signed quic |} => (signed, quic)
  | _ => ([], [])
  end.
(** The host at the other end of the stream, and a user who types [word]. *)
Definition example_exchange (word : string) : Exchange :=
  {| first := SignedIdMsg example_said.1 example_said.2;
     answer k :=
       match drop 0 (acks (accept_viewer example_host ModeDirect example_host_fresh (host_view 60 k)
                        (hello_said example_host example_host_fresh example_said.1 example_said.2) host_at_first).2) with
       | m :: _ => m
       | [] => Closed
       end;
     is_quic := false; verify_binding := fun _ _ => Ok (); confirm_peer_trust := fun _ _ _ => Err "not asked"%string;
     request_pairing_passphrase := fun _ => Ok word; late_confirm := false; late_passphrase := false;
     send := Ok (); time_before := 50; time_after := 70; store_io := Ok (); fresh := example_fresh |}.

Lemma example_honest :
  honest example_host example_host_fresh example_settings example_fresh
    (resize 32 0 (as_bytes "swordfish" ++ example_salt)) [48; 1] [48; 2] "swordfish".
Proof.
  assert (Hin : forall n m k salt ch, 0 <= ch <= 1 -> (forall s, salt = Some s -> s = example_salt) ->
    (n < 256)%nat -> (m < 256)%nat -> k = m -> identity_inputs (example_key (Z.of_nat n)) (example_key (Z.of_nat m)) (example_secret (Z.of_nat k)) salt ch).
  { intros n m k salt ch Hch Hs Hn Hm ->; constructor.
    - done.
    - by unfold example_key; rewrite length_replicate.
    - by unfold example_key; rewrite length_replicate.
    - unfold example_key; apply Forall_replicate; unfold is_byte; lia.
    - by intros s ->%Hs.
    - unfold u32_max; lia. }
  constructor; try done.
  - apply (Hin 5%nat 7%nat 7%nat); [by vm_compute|by intros s [= <-]|lia..].
  - apply (Hin 5%nat 7%nat 7%nat); [done|done|lia..].
  - apply (Hin 6%nat 8%nat 8%nat); [done|done|lia..].
  - intros; by eexists.
Qed.


(** Another word, and the host refuses: no acknowledgement, and nothing is pinned. *)
Example wrong_passphrase_refused :
  let r := secure_direct_connection_with_input example_settings (example_exchange "tuna") "host" viewer_at_first in
  r.1 = Err (Text rejected_text) /\ pins r.2 "host" = None /\ prompts r.2 = [PassphraseEntered "host"].
Proof. by vm_compute. Qed.

(** A host that acknowledges whatever it is sent, and knows no passphrase. *)
Definition impostor_exchange (word : string) : Exchange :=
  {| first := SignedIdMsg example_said.1 example_said.2;
     answer _ := SignedIdMsg direct_handshake_ack_ok [];
     is_quic := false; verify_binding := fun _ _ => Ok (); confirm_peer_trust := fun _ _ _ => Err "not asked"%string;
     request_pairing_passphrase := fun _ => Ok word; late_confirm := false; late_passphrase := false;
     send := Ok (); time_before := 50; time_after := 70; store_io := Ok (); fresh := example_fresh |}.

(** Outside the repair of a QUIC identity a pinned key is replaced as soon as the
    user has typed a passphrase and the other side has acknowledged it: the user
    is not shown the fingerprint of the new key, and the other side need not know
    the passphrase. *)
Example changed_key_replaced_without_fingerprint :
  let s := viewer_at_first <| peers := pinned_with "host" (example_key 9) ∅ |> in
  let r := secure_direct_connection_with_input example_settings (impostor_exchange "tuna") "host" s in
  pins s "host" = Some (encode_pinned_peer_signing_key (example_key 9)) /\
  r.1 = Ok (example_key 7) /\ pins r.2 "host" = Some (encode_pinned_peer_signing_key (example_key 7)) /\
  prompts r.2 = [PassphraseEntered "host"].
Proof. by vm_compute. Qed.
