(* ===== verification/VideoFeedback.v ===== *)
(** * What a viewer reports of its playback

    Models the feedback that a viewer keeps for each display and sends to the
    host ([VideoFeedbackTracker], src/src/client.rs), and the small state of its
    movie mode in the same file: which queued frames are too old
    ([movie_video_frame_obsolete]), when the clock of the source went back, the
    wait for a keyframe after a drop ([MovieKeyframeWait]) and the cooldown of the
    requests for one.  Identifiers are u64, depths and microseconds u32. *)

From S2P Require Import Prelude.

(** [CodecFormat] *)
Inductive CodecFormat := VP8 | VP9 | AV1 | H264 | H265 | Unknown.
#[export] Instance CodecFormat_eq_dec : EqDecision CodecFormat.
Proof. solve_decision. Defined.

(** A video frame: its payload ([union]) is not looked at, but for whether it is
    there, its format and whether one of the frames in it is a keyframe. *)
Record VideoFrame := {
  display : Z;
  stream_id : Z;
  frame_id : Z;
  capture_time_ms : Z;
  union : bool;
  format : CodecFormat;
  has_keyframe : bool;
}.

(** [contains_key_frame] and [video_frame_payload_stats] look for a keyframe in a
    frame of a known format. *)
Definition contains_key_frame (vf : VideoFrame) : bool :=
  negb (bool_decide (format vf = Unknown)) && has_keyframe vf.

Definition MOVIE_VIDEO_QUEUE_MAX_AGE_MS : Z := 100.
Definition MOVIE_VIDEO_REFRESH_COOLDOWN : duration := from_millis 500.
Definition MOVIE_KEYFRAME_FALLBACK_DELAY : duration := from_secs 1.
Definition VIDEO_FEEDBACK_INTERVAL : duration := from_millis 50.

(** ** Movie mode *)

Definition movie_video_frame_obsolete (frame : VideoFrame) (newest_capture_time_ms : Z) : bool :=
  (0 <? capture_time_ms frame) && (capture_time_ms frame <? newest_capture_time_ms)
  && (MOVIE_VIDEO_QUEUE_MAX_AGE_MS <? sat_sub newest_capture_time_ms (capture_time_ms frame)).

Definition movie_source_clock_regressed (previous_received_frame_id : Z) (frame : VideoFrame) (previous_capture_time_ms : Z) : bool :=
  (previous_received_frame_id <? frame_id frame) && (0 <? capture_time_ms frame)
  && (capture_time_ms frame <? previous_capture_time_ms)
  && (MOVIE_VIDEO_QUEUE_MAX_AGE_MS <? sat_sub previous_capture_time_ms (capture_time_ms frame)).

Record MovieKeyframeWait := { since_ : option instant; fallback_sent : bool }.
#[export] Instance eta_MovieKeyframeWait : Eta MovieKeyframeWait := fun r => Build_MovieKeyframeWait (since_ r) (fallback_sent r).
Definition default_wait : MovieKeyframeWait := {| since_ := None; fallback_sent := false |}.

Definition arm (now : instant) (w : MovieKeyframeWait) : MovieKeyframeWait :=
  if is_none (since_ w) then {| since_ := Some now; fallback_sent := false |} else w.

Definition keyframe_received (w : MovieKeyframeWait) : MovieKeyframeWait :=
  {| since_ := None; fallback_sent := false |}.

Definition fallback_due (now : instant) (w : MovieKeyframeWait) : bool * MovieKeyframeWait :=
  match since_ w with
  | Some t => if negb (fallback_sent w) && (MOVIE_KEYFRAME_FALLBACK_DELAY <=? since now t)
              then (true, w <| fallback_sent := true |>) else (false, w)
  | None => (false, w)
  end.

Definition fallback_wait (now : instant) (w : MovieKeyframeWait) : option duration :=
  t ← (if fallback_sent w then None else since_ w);
  Some (sat_sub MOVIE_KEYFRAME_FALLBACK_DELAY (since now t)).

Definition movie_video_refresh_due (now : instant) (last_refresh : option instant) : bool * option instant :=
  if is_some_and last_refresh (fun last => since now last <? MOVIE_VIDEO_REFRESH_COOLDOWN)
  then (false, last_refresh) else (true, Some now).

(** ** The tracker *)

Record VideoFeedbackTracker := {
  t_stream_id : Z;
  t_display : Z;
  received_frame_id : Z;
  decoded_frame_id : Z;
  render_submitted_frame_id : Z;
  queue_depth_frames : Z;
  decode_time_us : Z;
  render_submit_time_us : Z;
  dropped_frames : Z;
  display_refresh_millihz : Z;
  last_sent : option instant;
  last_sent_decoded_frame_id : Z;
  last_sent_render_submitted_frame_id : Z;
}.
#[export] Instance eta_VideoFeedbackTracker : Eta VideoFeedbackTracker := fun r =>
  Build_VideoFeedbackTracker (t_stream_id r) (t_display r) (received_frame_id r) (decoded_frame_id r)
    (render_submitted_frame_id r) (queue_depth_frames r) (decode_time_us r) (render_submit_time_us r)
    (dropped_frames r) (display_refresh_millihz r) (last_sent r) (last_sent_decoded_frame_id r)
    (last_sent_render_submitted_frame_id r).

Definition default_tracker : VideoFeedbackTracker :=
  {| t_stream_id := 0; t_display := 0; received_frame_id := 0; decoded_frame_id := 0; render_submitted_frame_id := 0;
     queue_depth_frames := 0; decode_time_us := 0; render_submit_time_us := 0; dropped_frames := 0;
     display_refresh_millihz := 0; last_sent := None; last_sent_decoded_frame_id := 0;
     last_sent_render_submitted_frame_id := 0 |}.

Definition record_received (vf : VideoFrame) (t : VideoFeedbackTracker) : bool * VideoFeedbackTracker :=
  if (stream_id vf =? 0) || (frame_id vf =? 0) then (false, t)
  else
    let new_stream := negb (t_stream_id t =? stream_id vf) || negb (t_display t =? display vf) in
    let t := if new_stream then default_tracker <| t_stream_id := stream_id vf |> <| t_display := display vf |> else t in
    (new_stream, t <| received_frame_id ::= fun i => Z.max i (frame_id vf) |>).

Definition record_queue_depth (depth : Z) (t : VideoFeedbackTracker) : VideoFeedbackTracker :=
  t <| queue_depth_frames := Z.min depth u32_max |>.

Definition record_drops (count : Z) (t : VideoFeedbackTracker) : VideoFeedbackTracker :=
  t <| dropped_frames ::= fun n => sat_add u64_max n count |>.

Definition record_drop (t : VideoFeedbackTracker) : VideoFeedbackTracker := record_drops 1 t.

(** The request for a reference that the decoder has. *)
Record VideoReferenceRefresh := { r_display : Z; r_stream_id : Z; r_received_frame_id : Z; r_dropped_frames : Z; strict_recovery : bool }.

Definition movie_queue_reference_refresh (display dropped_frames : Z) (t : VideoFeedbackTracker) : option VideoReferenceRefresh :=
  if i32_max <? display then None
  else if negb (display =? t_display t) || (t_stream_id t =? 0) || (received_frame_id t =? 0) || (dropped_frames =? 0) then None
  else Some {| r_display := display; r_stream_id := t_stream_id t; r_received_frame_id := received_frame_id t;
               r_dropped_frames := dropped_frames; strict_recovery := true |}.

Definition record_display_refresh (millihz : Z) (t : VideoFeedbackTracker) : VideoFeedbackTracker :=
  t <| display_refresh_millihz := millihz |>.

Definition duration_us (d : duration) : Z := Z.min (d / 1000) u32_max.

Definition record_decoded (stream frame : Z) (decode_time : duration) (t : VideoFeedbackTracker) : VideoFeedbackTracker :=
  if (t_stream_id t =? stream) && negb (frame =? 0)
  then t <| decoded_frame_id ::= fun i => Z.max i frame |> <| decode_time_us := duration_us decode_time |>
  else t.

Definition record_render_submitted (stream frame : Z) (render_submit_time : duration) (depth : Z) (t : VideoFeedbackTracker) : VideoFeedbackTracker :=
  if (t_stream_id t =? stream) && negb (frame =? 0)
  then record_queue_depth depth
         (t <| render_submitted_frame_id ::= fun i => Z.max i frame |> <| render_submit_time_us := duration_us render_submit_time |>)
  else t.

(** The message: the fields of the tracker that are sent. *)
Record Feedback := {
  fb_stream_id : Z; fb_display : Z; fb_received : Z; fb_decoded : Z; fb_render_submitted : Z;
  fb_queue_depth : Z; fb_decode_time_us : Z; fb_render_submit_time_us : Z; fb_dropped : Z; fb_refresh_millihz : Z;
}.
Definition feedback_of (t : VideoFeedbackTracker) : Feedback :=
  {| fb_stream_id := t_stream_id t; fb_display := t_display t; fb_received := received_frame_id t;
     fb_decoded := decoded_frame_id t; fb_render_submitted := render_submitted_frame_id t;
     fb_queue_depth := queue_depth_frames t; fb_decode_time_us := decode_time_us t;
     fb_render_submit_time_us := render_submit_time_us t; fb_dropped := dropped_frames t;
     fb_refresh_millihz := display_refresh_millihz t |}.

Definition take_due_at (now : instant) (force : bool) (t : VideoFeedbackTracker) : option Feedback * VideoFeedbackTracker :=
  if (t_stream_id t =? 0) || (received_frame_id t =? 0) then (None, t)
  else
    let first_decode := negb (decoded_frame_id t =? 0) && (last_sent_decoded_frame_id t =? 0) in
    let first_render_submit := negb (render_submitted_frame_id t =? 0) && (last_sent_render_submitted_frame_id t =? 0) in
    let interval_elapsed := match last_sent t with Some last => VIDEO_FEEDBACK_INTERVAL <=? since now last | None => true end in
    if negb force && negb first_decode && negb first_render_submit && negb interval_elapsed then (None, t)
    else
      (Some (feedback_of t),
       t <| last_sent := Some now |> <| last_sent_decoded_frame_id := decoded_frame_id t |>
         <| last_sent_render_submitted_frame_id := render_submitted_frame_id t |>).

(** ** What the feedback says *)

Inductive TrackerCall :=
| Received (vf : VideoFrame)
| QueueDepth (depth : Z)
| Drops (count : Z)
| DisplayRefresh (millihz : Z)
| Decoded (stream frame : Z) (time : duration)
| RenderSubmitted (stream frame : Z) (time : duration) (depth : Z)
| TakeDue (now : instant) (force : bool).

Definition track (c : TrackerCall) (t : VideoFeedbackTracker) : option Feedback * VideoFeedbackTracker :=
  match c with
  | Received vf => (None, (record_received vf t).2)
  | QueueDepth d => (None, record_queue_depth d t)
  | Drops n => (None, record_drops n t)
  | DisplayRefresh m => (None, record_display_refresh m t)
  | Decoded s f d => (None, record_decoded s f d t)
  | RenderSubmitted s f d q => (None, record_render_submitted s f d q t)
  | TakeDue now force => take_due_at now force t
  end.

Fixpoint track_all (l : list TrackerCall) (t : VideoFeedbackTracker) : list Feedback * VideoFeedbackTracker :=
  match l with
  | [] => ([], t)
  | c :: l =>
      let '(o, t) := track c t in
      let '(os, t) := track_all l t in
      (match o with Some f => f :: os | None => os end, t)
  end.

(** What the callers pass: counts are not negative, and the decoder and the
    renderer report frames that were received. *)
Definition sane (t : VideoFeedbackTracker) (c : TrackerCall) : Prop :=
  match c with
  | Drops n => 0 <= n
  | Decoded s f _ => t_stream_id t = s -> f <= received_frame_id t
  | RenderSubmitted s f _ _ => t_stream_id t = s -> f <= decoded_frame_id t
  | Received vf => 0 <= frame_id vf
  | _ => True
  end.
Fixpoint all_sane (l : list TrackerCall) (t : VideoFeedbackTracker) : Prop :=
  match l with [] => True | c :: l => sane t c /\ all_sane l (track c t).2 end.

(** The watermarks are in order. *)
Definition ordered (t : VideoFeedbackTracker) : Prop :=
  0 <= render_submitted_frame_id t <= decoded_frame_id t /\ decoded_frame_id t <= received_frame_id t /\
  0 <= dropped_frames t <= u64_max.

(** Feedback of one stream only moves on. *)
Definition not_before (f g : Feedback) : Prop :=
  fb_stream_id f = fb_stream_id g -> fb_display f = fb_display g ->
  fb_received f <= fb_received g /\ fb_decoded f <= fb_decoded g /\ fb_render_submitted f <= fb_render_submitted g /\
  fb_dropped f <= fb_dropped g.

Lemma ordered_track c t : ordered t -> sane t c -> ordered (track c t).2.
Proof.
  unfold ordered; intros Ho Hs; destruct c; cbn in *.
  - unfold record_received; destruct (_ || _); cbn; [done|]; destruct (negb _ || negb _); cbn; lia.
  - done.
  - unfold sat_add, u64_max in *; lia.
  - done.
  - unfold record_decoded; destruct (Z.eqb_spec (t_stream_id t) stream); cbn; [|done]; destruct (negb _); cbn; [|done].
    specialize (Hs e); lia.
  - unfold record_render_submitted; destruct (Z.eqb_spec (t_stream_id t) stream); cbn; [|done]; destruct (negb _); cbn; [|done].
    specialize (Hs e); lia.
  - unfold take_due_at; destruct (_ || _); [done|]; destruct (_ && _); done.
Qed.

(** A tracker that has seen what [t] has seen: the same stream, further on, or
    another one. *)
Definition later (t u : VideoFeedbackTracker) : Prop :=
  t_stream_id t = t_stream_id u /\ t_display t = t_display u ->
  received_frame_id t <= received_frame_id u /\ decoded_frame_id t <= decoded_frame_id u /\
  render_submitted_frame_id t <= render_submitted_frame_id u /\ dropped_frames t <= dropped_frames u.

Lemma record_received_new vf t b u : record_received vf t = (b, u) ->
  b = false \/ t_stream_id u <> t_stream_id t \/ t_display u <> t_display t.
Proof.
  unfold record_received; destruct (_ || _); [intros [= <- <-]; by left|]; intros [= <- <-].
  destruct (Z.eqb_spec (t_stream_id t) (stream_id vf)), (Z.eqb_spec (t_display t) (display vf)); cbn; [by left|right..]; cbn; lia.
Qed.

Lemma later_track c t : ordered t -> sane t c -> later t (track c t).2.
Proof.
  unfold ordered, later; intros Ho Hs Hsame; destruct c; cbn in *; try lia.
  - destruct (record_received vf t) as [b u] eqn:E; cbn in *.
    destruct (record_received_new _ _ _ _ E) as [->|[?|?]]; [|lia..]; revert E; unfold record_received.
    destruct (_ || _); [intros [= <-]; lia|]; intros E; injection E as Eb <-; rewrite Eb; cbn; lia.
  - unfold sat_add, u64_max in *; lia.
  - unfold record_decoded; destruct (_ && _); cbn; lia.
  - unfold record_render_submitted; destruct (_ && _); cbn; lia.
  - unfold take_due_at; destruct (_ || _); [cbn; lia|]; destruct (_ && _); cbn; lia.
Qed.

(** What has been sent is what the tracker held. *)
Lemma take_due_feedback now force t f u : take_due_at now force t = (Some f, u) ->
  f = feedback_of t /\ u = t <| last_sent := Some now |> <| last_sent_decoded_frame_id := decoded_frame_id t |>
    <| last_sent_render_submitted_frame_id := render_submitted_frame_id t |> /\ fb_stream_id f <> 0.
Proof.
  unfold take_due_at; destruct (Z.eqb_spec (t_stream_id t) 0); cbn [orb]; [done|]; destruct (_ =? 0); [done|].
  destruct (_ && _); [done|]; by intros [= <- <-].
Qed.

Lemma feedback_later t u : later t u -> not_before (feedback_of t) (feedback_of u).
Proof. intros Hl Hs Hd; by apply Hl. Qed.

Lemma track_feedback c t f : (track c t).1 = Some f -> f = feedback_of t.
Proof.
  destruct c; cbn; try done; destruct (take_due_at now force t) as [[g|] u] eqn:E; [|done].
  intros [= <-]; by apply take_due_feedback in E as [-> _].
Qed.

(** As long as the tracker stays with the stream of [t], it is later than [t]. *)
Fixpoint stays (s d : Z) (l : list TrackerCall) (t : VideoFeedbackTracker) : Prop :=
  t_stream_id t = s /\ t_display t = d /\ match l with [] => True | c :: l => stays s d l (track c t).2 end.

Lemma stays_sent s d l t0 t : stays s d l t -> all_sane l t -> ordered t -> later t0 t -> t_stream_id t0 = s -> t_display t0 = d ->
  forall f, f ∈ (track_all l t).1 -> not_before (feedback_of t0) f.
Proof.
  revert t; induction l as [|c l IH]; intros t Hst Hsane Ho Hl H1 H2 f Hf; cbn in Hf; [by apply elem_of_nil in Hf|].
  destruct Hst as (Ht1 & Ht2 & Hst), Hsane as [Hc Hsane].
  assert (Hl' : later t0 (track c t).2).
  { pose proof (later_track c t Ho Hc) as Hn; assert (Hu : t_stream_id (track c t).2 = s /\ t_display (track c t).2 = d) by (by destruct l; destruct Hst as (? & ? & ?)).
    unfold later in *; intros _; destruct Hu as [Hu1 Hu2]; rewrite Hu1, Hu2 in Hn; rewrite H1, H2, Ht1, Ht2 in Hl; rewrite Ht1, Ht2 in Hn.
    destruct Hl, Hn; auto; lia. }
  destruct (track c t) as [o u] eqn:E; cbn [snd] in *; destruct (track_all l u) as [os u'] eqn:Eall; cbn [fst] in Hf.
  assert (Hrest : f ∈ os -> not_before (feedback_of t0) f).
  { intros Hin; eapply (IH u); eauto; [by replace u with (track c t).2 by (by rewrite E); apply ordered_track|by rewrite Eall]. }
  destruct o as [g|]; [|by apply Hrest]; apply elem_of_cons in Hf as [->|Hf]; [|by apply Hrest].
  pose proof (track_feedback c t g) as Hg; rewrite E in Hg; rewrite (Hg eq_refl); by apply feedback_later.
Qed.

(** Within one stream of one display, what is reported never goes back: of two
    reports, the later is of at least the frames, and the drops, of the earlier. *)
Lemma feedback_never_goes_back s d l t : stays s d l t -> all_sane l t -> ordered t ->
  forall f g k, (track_all l t).1 !! k = Some f -> (track_all l t).1 !! S k = Some g -> not_before f g.
Proof.
  revert t; induction l as [|c l IH]; intros t Hst Hsane Ho f g k Hf Hg; [done|].
  destruct Hst as (Ht1 & Ht2 & Hst), Hsane as [Hc Hsane]; cbn in Hf, Hg.
  pose proof (later_track c t Ho Hc) as Hl; pose proof (ordered_track c t Ho Hc) as Ho'; pose proof (track_feedback c t) as Hfb.
  destruct (track c t) as [o u] eqn:E; cbn [fst snd] in *; destruct (track_all l u) as [os u'] eqn:Eall; cbn [fst] in Hf, Hg.
  destruct o as [h|].
  - destruct k as [|k]; [|apply (IH u Hst Hsane Ho' f g k); by rewrite Eall].
    cbn in Hf; injection Hf as <-; rewrite (Hfb h eq_refl).
    apply (stays_sent s d l t u); auto; rewrite Eall; by eapply list_elem_of_lookup_2.
  - apply (IH u Hst Hsane Ho' f g k); by rewrite Eall.
Qed.
