(* ===== verification/ViewerPlayback.v ===== *)
(** * Video of one display at the viewer

    Models the path of a video frame at the viewer, from its arrival to the
    decoder: the thread of the connection files it (the video part of
    [handle_msg_from_peer], src/src/client/io_loop.rs), and the worker of the
    display takes it, decodes it and asks for what is missing
    ([start_video_thread] and [VideoHandler], src/src/client.rs).  The two share a
    [VideoThread]: a channel of messages, and a queue of at most 120 delta frames,
    for each of which the channel carries a token ([VideoQueue]).  A keyframe
    travels in the channel itself.

    The decoder is a class; its backends are not modelled.  A worker's turn and
    the filing of a frame are each one step, which PlaybackSteps.v takes apart into
    the actions of the two threads; the clock readings of a step and what the
    renderer answers are its arguments.  Screen recording, logging and the
    labels of the status panel are left out. *)

From stdpp Require Import strings.
From S2P Require Import Prelude DecoderRecovery VideoFeedback.

(** ** The decoder *)

Inductive DecoderPreference := Auto | Hardware | Software.

Definition ends_with (suffix s : string) : bool :=
  String.eqb (String.substring (String.length s - String.length suffix) (String.length suffix) s) suffix
  && (String.length suffix <=? String.length s)%nat.

Definition from_option (value : string) : DecoderPreference :=
  if ends_with "-sw" value then Software
  else if ends_with "-hw" value || existsb (String.eqb value) ["h264"; "h265"; "h264-hq"; "h265-hq"]%string
  then Hardware
  else Auto.

Inductive DecodeOutcome := FrameReady (id : option Z) | OutputPending | InputBackpressure | NeedsKeyframe.

(** [Decoder::new_with_preference], [format] and [handle_video_frame]: [None] is an
    error.  The format of a decoder is the one it was made for. *)
Class DecoderApi := {
  Decoder : Type;
  new_decoder : CodecFormat -> option (Z * Z) -> Z -> Z -> DecoderPreference -> Decoder;
  decoder_format : Decoder -> CodecFormat;
  handle_video_frame : VideoFrame -> Decoder -> option DecodeOutcome * Decoder;
  new_decoder_format f dims d n p : decoder_format (new_decoder f dims d n p) = f;
  handle_video_frame_format vf d : decoder_format (handle_video_frame vf d).2 = decoder_format d;
}.

Section Playback.
Context `{api : DecoderApi}.

Record VideoHandler := {
  decoder : Decoder;
  decoder_dimensions : option (Z * Z);
  record : bool;
  handler_display : Z;
  recovery : DecoderRecovery;
  decoder_fallback : Z;
  decoder_preference : DecoderPreference;
  decode_wait_counter : Z;
  first_frame : bool;
  handler_stream_id : Z;
  last_frame_id : Z;
}.
#[export] Instance eta_VideoHandler : Eta VideoHandler := fun r =>
  Build_VideoHandler (decoder r) (decoder_dimensions r) (record r) (handler_display r) (recovery r)
    (decoder_fallback r) (decoder_preference r) (decode_wait_counter r) (first_frame r) (handler_stream_id r) (last_frame_id r).

Definition new_with_preference (f : CodecFormat) (display : Z) (dims : option (Z * Z)) (p : DecoderPreference) : VideoHandler :=
  {| decoder := new_decoder f dims display 0 p; decoder_dimensions := dims; record := false; handler_display := display;
     recovery := default_recovery; decoder_fallback := 0; decoder_preference := p; decode_wait_counter := 0;
     first_frame := true; handler_stream_id := 0; last_frame_id := 0 |}.

Definition reset (f : option CodecFormat) (dims : option (Z * Z)) (h : VideoHandler) : VideoHandler :=
  let f := unwrap_or f (decoder_format (decoder h)) in
  let h := if bool_decide (f = decoder_format (decoder h)) then h
           else h <| recovery := default_recovery |> <| decoder_fallback := 0 |> in
  let h := if is_some dims then h <| decoder_dimensions := dims |> else h in
  h <| decoder := new_decoder f (decoder_dimensions h) (handler_display h) (decoder_fallback h) (decoder_preference h) |>
    <| decode_wait_counter := 0 |> <| first_frame := true |>.

Definition recover_decoder_if_due (now : instant) (h : VideoHandler) : option Z * VideoHandler :=
  let '(requested, r) := take_refresh_request (recovery h) in
  let h := h <| recovery := r |> in
  if requested then (Some 0, h)
  else
    let '(due, r) := take_due now (recovery h) in
    let h := h <| recovery := r |> in
    match due with
    | None => (None, h)
    | Some attempt =>
        let h := if 1 <? attempt then h <| decoder_fallback ::= fun n => sat_add u64_max n 1 |> else h in
        (Some attempt, reset None None h)
    end.

(** What is done with the outcome of a frame. *)
Definition note_outcome (now : instant) (res : option DecodeOutcome) (h : VideoHandler) : VideoHandler :=
  match res with
  | Some (FrameReady _) => h <| recovery ::= succeeded |> <| decode_wait_counter := 0 |> <| first_frame := false |>
  | Some NeedsKeyframe => h <| recovery ::= backend_switched now |>
  | Some OutputPending | Some InputBackpressure =>
      h <| recovery ::= pending now |> <| decode_wait_counter ::= fun n => sat_add u64_max n 1 |>
  | None => h <| recovery ::= failed now |>
  end.

(** The frame given to the decoder, if one is, and the handler as the decoder
    gets it. *)
Definition admit_frame (vf : VideoFrame) (h : VideoHandler) : bool * VideoHandler :=
  if negb (frame_is_current (handler_stream_id h) (last_frame_id h) (stream_id vf) (frame_id vf)) then (false, h)
  else
    let stream_changed := negb (stream_id vf =? 0) && negb (handler_stream_id h =? 0) && negb (stream_id vf =? handler_stream_id h) in
    let h := if negb (bool_decide (format vf = decoder_format (decoder h))) || stream_changed
             then reset (Some (format vf)) None h else h in
    let h := h <| handler_stream_id := stream_id vf |> <| last_frame_id := frame_id vf |> in
    let '(accepted, r) := accepts_frame (negb (frame_id vf =? 0)) (contains_key_frame vf) (recovery h) in
    (accepted && union vf, h <| recovery := r |>).

Definition handle_frame (now : instant) (vf : VideoFrame) (h : VideoHandler) : option DecodeOutcome * VideoHandler :=
  let '(admitted, h) := admit_frame vf h in
  if admitted then
    let '(res, d) := handle_video_frame vf (decoder h) in
    (res, note_outcome now res (h <| decoder := d |>))
  else (Some OutputPending, h).

Definition record_screen (start : bool) (h : VideoHandler) : VideoHandler := h <| record := start |>.

(** ** What the connection's thread and the worker share *)

Inductive MediaData :=
| TakeFromQueue
| Keyframe (vf : VideoFrame)
| AudioFrame (data : list Byte.byte)
| AudioFormat (sample_rate channels : Z)
| Reset (dims : option (Z * Z))
| RecordScreen (start : bool).

Definition VIDEO_QUEUE_SIZE : Z := 120.
Definition MOVIE_VIDEO_QUEUE_MAX_FRAMES : Z := 8.

Record FpsControl := {
  refresh_times : Z;
  last_refresh_instant : option instant;
  idle_counter : Z;
  inactive_counter : Z;
}.
#[export] Instance eta_FpsControl : Eta FpsControl := fun r =>
  Build_FpsControl (refresh_times r) (last_refresh_instant r) (idle_counter r) (inactive_counter r).
Definition default_fps_control : FpsControl :=
  {| refresh_times := 0; last_refresh_instant := None; idle_counter := 0; inactive_counter := 0 |}.

(** [video_queue] from its head, where frames are taken; [channel]: what was sent
    with [video_sender] and not received yet. *)
Record VideoThread := {
  activation_generation : Z;
  thread_stream_id : Z;
  video_queue : list VideoFrame;
  channel : list MediaData;
  decode_fps : option Z;
  video_feedback : VideoFeedbackTracker;
  fps_control : FpsControl;
  discard_queue : bool;
  movie_mode : bool;
  newest_capture_time_ms : Z;
  movie_queue_refresh : option instant;
  movie_keyframe_wait : MovieKeyframeWait;
}.
#[export] Instance eta_VideoThread : Eta VideoThread := fun r =>
  Build_VideoThread (activation_generation r) (thread_stream_id r) (video_queue r) (channel r) (decode_fps r)
    (video_feedback r) (fps_control r) (discard_queue r) (movie_mode r) (newest_capture_time_ms r)
    (movie_queue_refresh r) (movie_keyframe_wait r).

Definition new_video_thread (activation stream : Z) : VideoThread :=
  {| activation_generation := activation; thread_stream_id := stream; video_queue := []; channel := []; decode_fps := None;
     video_feedback := default_tracker; fps_control := default_fps_control; discard_queue := false; movie_mode := false;
     newest_capture_time_ms := 0; movie_queue_refresh := None; movie_keyframe_wait := default_wait |}.

(** [impl Drop for VideoThread]: the worker still has the channel. *)
Definition drop_thread (t : VideoThread) : VideoThread := t <| discard_queue := true |>.

(** The thread a frame goes to: a display keeps its thread for one stream of one
    activation.  The first component is the thread that is dropped. *)
Definition thread_for (activation : Z) (vf : VideoFrame) (threads : gmap Z VideoThread) : option VideoThread * gmap Z VideoThread :=
  match threads !! display vf with
  | Some t =>
      if negb (activation_generation t =? activation) || negb (thread_stream_id t =? stream_id vf)
      then (Some (drop_thread t), <[display vf := new_video_thread activation (stream_id vf)]> threads)
      else (None, threads)
  | None => (None, <[display vf := new_video_thread activation (stream_id vf)]> threads)
  end.

(** What is sent to the host. *)
Inductive Sent :=
| SentFeedback (f : Feedback)
| SentReferenceRefresh (r : VideoReferenceRefresh)
| RefreshVideo (display : Z).

(** The clock readings of one step. *)
Record Readings := {
  at_recover : instant;
  at_fallback : instant;
  at_drop : instant;
  at_feedback : instant;
  at_refresh : instant;
  at_decoded : instant;
  at_report : instant;
  decode_time : duration;
  render_submit_time : duration;
  whole_time : duration;
}.

Definition start_movie_keyframe_wait (now : instant) (t : VideoThread) : VideoThread :=
  t <| discard_queue := true |> <| movie_keyframe_wait ::= arm now |>.

Definition finish_movie_keyframe_wait (t : VideoThread) : VideoThread :=
  t <| discard_queue := false |> <| movie_keyframe_wait ::= keyframe_received |>.

Definition send_video_feedback (now : instant) (force : bool) (t : VideoThread) : list Sent * VideoThread :=
  let '(f, fb) := take_due_at now force (video_feedback t) in
  (option_list (SentFeedback <$> f), t <| video_feedback := fb |>).

Definition recover_movie_queue_drops (r : Readings) (display dropped : Z) (t : VideoThread) : bool * list Sent * VideoThread :=
  let fb := record_drops dropped (video_feedback t) in
  let request := movie_queue_reference_refresh display dropped fb in
  let '(sent, t) := send_video_feedback (at_feedback r) true (t <| video_feedback := fb |>) in
  match request with
  | None => (false, sent, t)
  | Some request =>
      let '(due, last) := movie_video_refresh_due (at_refresh r) (movie_queue_refresh t) in
      (true, sent ++ (if due then [SentReferenceRefresh request] else []), t <| movie_queue_refresh := last |>)
  end.

(** The steps after frames were dropped in movie mode, of either thread. *)
Definition recover_drops (r : Readings) (display dropped : Z) (t : VideoThread) : list Sent * VideoThread :=
  let '(scoped, sent, t) := recover_movie_queue_drops r display dropped (start_movie_keyframe_wait (at_drop r) t) in
  (sent ++ (if scoped then [] else [RefreshVideo display]), t).

(** ** A frame arrives *)

(** [newest_capture_time_ms] and the clock of the source. *)
Definition note_capture_time (r : Readings) (movie new_stream : bool) (previous : Z) (vf : VideoFrame) (t : VideoThread) : list Sent * VideoThread :=
  if new_stream then ([], t <| newest_capture_time_ms := capture_time_ms vf |>)
  else if previous <? frame_id vf then
    if movie_source_clock_regressed previous vf (newest_capture_time_ms t) && movie then
      let t := t <| newest_capture_time_ms := capture_time_ms vf |> <| discard_queue := true |> in
      let '(due, last) := movie_video_refresh_due (at_refresh r) (movie_queue_refresh t) in
      (if due then [RefreshVideo (display vf)] else [], t <| movie_queue_refresh := last |>)
    else ([], t <| newest_capture_time_ms ::= Z.max (capture_time_ms vf) |>)
  else ([], t).

(** [while video_queue.len() >= MOVIE_VIDEO_QUEUE_MAX_FRAMES]: the number of frames
    taken off the head. *)
Definition movie_excess (movie : bool) (q : list VideoFrame) : nat :=
  if movie then (length q - (Z.to_nat MOVIE_VIDEO_QUEUE_MAX_FRAMES - 1))%nat else 0%nat.

(** [ArrayQueue::force_push] *)
Definition force_push (vf : VideoFrame) (q : list VideoFrame) : option VideoFrame * list VideoFrame :=
  if Z.of_nat (length q) <? VIDEO_QUEUE_SIZE then (None, q ++ [vf]) else (head q, tail q ++ [vf]).

(** A delta frame is queued.  The first component is the frames dropped. *)
Definition queue_delta (movie : bool) (vf : VideoFrame) (t : VideoThread) : list VideoFrame * VideoThread :=
  let excess := movie_excess movie (video_queue t) in
  let '(evicted, q) := force_push vf (drop excess (video_queue t)) in
  let dropped := take excess (video_queue t) ++ option_list evicted in
  let t := t <| video_queue := q |> in
  (dropped, if is_none evicted then t <| channel ::= fun c => c ++ [TakeFromQueue] |> else t).

Definition file_frame (r : Readings) (movie : bool) (vf : VideoFrame) (t : VideoThread) : list Sent * VideoThread :=
  if contains_key_frame vf then ([], t <| channel ::= fun c => c ++ [Keyframe vf] |>)
  else
    let '(dropped, t) := queue_delta movie vf t in
    let n := Z.of_nat (length dropped) in
    if 0 <? n then
      if movie then recover_drops r (display vf) n t
      else ([RefreshVideo (display vf)], t <| video_feedback ::= record_drops n |>)
    else ([], t).

Definition video_arrived (r : Readings) (movie : bool) (vf : VideoFrame) (t : VideoThread) : list Sent * VideoThread :=
  let t := t <| movie_mode := movie |> in
  let previous := received_frame_id (video_feedback t) in
  let '(new_stream, fb) := record_received vf (video_feedback t) in
  let '(sent1, t) := note_capture_time r movie new_stream previous vf (t <| video_feedback := fb |>) in
  let '(sent2, t) := file_frame r movie vf t in
  let t := t <| video_feedback ::= record_queue_depth (Z.of_nat (length (video_queue t))) |> in
  let '(sent3, t) := send_video_feedback (at_report r) new_stream t in
  (sent1 ++ sent2 ++ sent3, t).

(** ** The worker *)

Record Worker := {
  video_handler : option VideoHandler;
  count : Z;
  duration_ : duration;
  skip_beginning : Z;
}.
#[export] Instance eta_Worker : Eta Worker := fun r => Build_Worker (video_handler r) (count r) (duration_ r) (skip_beginning r).
Definition new_worker : Worker := {| video_handler := None; count := 0; duration_ := 0; skip_beginning := 0 |}.

(** What the worker reads of the session ([session.lc]). *)
Record SessionView := {
  codec_preference : string;
  display_size : Z -> option (Z * Z);
  record_state : bool;
  record_permission : bool;
}.

Definition fps_calculate (format_changed : bool) (elapsed : duration) (fps : option Z) (w : Worker) : option Z * Worker :=
  let w := if format_changed then w <| count := 0 |> <| duration_ := 0 |> <| skip_beginning := 0 |> else w in
  if skip_beginning w <? 3 then (fps, w <| skip_beginning ::= Z.add 1 |>)
  else
    let w := w <| duration_ ::= Z.add elapsed |> <| count ::= Z.add 1 |> in
    let ms := duration_ w / 1000000 in
    let fps := if (count w mod 10 =? 0) && (0 <? ms) then Some (count w * 1000 / ms) else fps in
    (fps, if 30 <=? count w then w <| count := 0 |> <| duration_ := 0 |> else w).

(** The head of the loop: the decoder that is due for a reset, the fallback of the
    wait for a keyframe. *)
Definition ask_if_due (r : Readings) (display : Z) (t : VideoThread) (w : Worker) : list Sent * VideoThread * Worker :=
  let '(sent1, w) :=
    match video_handler w with
    | Some h =>
        let '(due, h) := recover_decoder_if_due (at_recover r) h in
        (if is_some due then [RefreshVideo display] else [], w <| video_handler := Some h |>)
    | None => ([], w)
    end in
  let '(due, wait) := fallback_due (at_fallback r) (movie_keyframe_wait t) in
  (sent1 ++ (if due then [RefreshVideo display] else []), t <| movie_keyframe_wait := wait |>, w).

(** How long the worker waits for a message: [None] is without limit. *)
Definition recv_wait (now : instant) (t : VideoThread) (w : Worker) : option duration :=
  let recovery_wait := h ← video_handler w; wait_duration now (recovery h) in
  match recovery_wait, fallback_wait now (movie_keyframe_wait t) with
  | Some a, Some b => Some (Z.min a b)
  | Some a, None => Some a
  | None, o => o
  end.

(** [let selected = loop ...]: the frames that are too old, the one selected, the
    rest of the queue. *)
Fixpoint select_frame (movie : bool) (newest : Z) (q : list VideoFrame) : list VideoFrame * option VideoFrame * list VideoFrame :=
  match q with
  | [] => ([], None, [])
  | vf :: q =>
      if movie && movie_video_frame_obsolete vf newest
      then let '(stale, selected, q) := select_frame movie newest q in (vf :: stale, selected, q)
      else ([], Some vf, q)
  end.

(** A token is received: the frame to decode, if any. *)
Definition take_delta (r : Readings) (worker_display : Z) (t : VideoThread) : list Sent * option VideoFrame * VideoThread :=
  let '(stale, selected, q) := select_frame (movie_mode t) (newest_capture_time_ms t) (video_queue t) in
  let t := t <| video_queue := q |> in
  let n := Z.of_nat (length stale) in
  let '(sent, t) := if 0 <? n then recover_drops r worker_display n t else ([], t) in
  (sent, if discard_queue t then None else selected, t).

(** The handler, made for the first frame. *)
Definition handler_for (session : SessionView) (vf : VideoFrame) (w : Worker) : VideoHandler :=
  match video_handler w with
  | Some h => h
  | None =>
      let dims := '(x, y) ← display_size session (display vf); if (0 <? x) && (0 <? y) then Some (x, y) else None in
      let h := new_with_preference (format vf) (display vf) dims (from_option (codec_preference session)) in
      if record_state session && record_permission session then record_screen true h else h
  end.

(** A frame is decoded; [submitted] is what the renderer answers for it. *)
Definition play_frame (r : Readings) (session : SessionView) (submitted : VideoFrame -> bool) (vf : VideoFrame) (t : VideoThread) (w : Worker)
    : list Sent * VideoThread * Worker :=
  let h := handler_for session vf w in
  let format_changed := negb (bool_decide (decoder_format (decoder h) = format vf)) in
  let '(res, h) := handle_frame (at_decoded r) vf h in
  let w := w <| video_handler := Some h |> in
  match res with
  | Some (FrameReady id) =>
      let id := unwrap_or id (frame_id vf) in
      let t := t <| video_feedback ::= record_decoded (stream_id vf) id (decode_time r) |> in
      let t := if submitted vf
               then t <| video_feedback ::= record_render_submitted (stream_id vf) id (render_submit_time r) (Z.of_nat (length (video_queue t))) |>
               else t in
      let '(sent, t) := send_video_feedback (at_report r) false t in
      let '(fps, w) := fps_calculate format_changed (whole_time r) (decode_fps t) w in
      (sent, t <| decode_fps := fps |>, w)
  | _ => ([], t, w)
  end.

(** A message is received: the frame to play, if any. *)
Definition take_media (r : Readings) (worker_display : Z) (m : MediaData) (t : VideoThread) : list Sent * option VideoFrame * VideoThread :=
  match m with
  | Keyframe vf => ([], Some vf, finish_movie_keyframe_wait t)
  | TakeFromQueue => take_delta r worker_display t
  | _ => ([], None, t)
  end.

(** The messages that are not about a frame. *)
Definition control (session : SessionView) (m : MediaData) (w : Worker) : Worker :=
  match m with
  | Reset dims =>
      w <| video_handler ::= fmap (fun h => reset None dims (h <| decoder_preference := from_option (codec_preference session) |> <| decoder_fallback := 0 |>)) |>
  | RecordScreen start => w <| video_handler ::= fmap (record_screen start) |>
  | _ => w
  end.

(** The body of the loop for the message received. *)
Definition handle_media (r : Readings) (session : SessionView) (worker_display : Z) (submitted : VideoFrame -> bool) (m : MediaData) (t : VideoThread) (w : Worker)
    : list Sent * VideoThread * Worker :=
  let '(sent, vf, t) := take_media r worker_display m t in
  match vf with
  | Some vf => let '(sent', t, w) := play_frame r session submitted vf t w in (sent ++ sent', t, w)
  | None => (sent, t, control session m w)
  end.

(** A turn of the loop; with an empty channel it times out. *)
Definition worker_turn (r : Readings) (session : SessionView) (worker_display : Z) (submitted : VideoFrame -> bool) (t : VideoThread) (w : Worker)
    : list Sent * VideoThread * Worker :=
  let '(sent, t, w) := ask_if_due r worker_display t w in
  match channel t with
  | [] => (sent, t, w)
  | m :: c =>
      let '(sent', t, w) := handle_media r session worker_display submitted m (t <| channel := c |>) w in
      (sent ++ sent', t, w)
  end.

End Playback.
