(* ===== verification/PlaybackTheory.v ===== *)
(** * What the viewer's playback guarantees

    The theorems about ViewerPlayback.v: which frames reach the decoder and in
    which order, that a queued frame always has its token, what follows a drop,
    and two schedules in which tokens and frames part. *)

From S2P Require Import Prelude DecoderRecovery VideoFeedback ViewerPlayback.

(** ** The handler *)

Section Handler.
Context `{api : DecoderApi}.

(** What the worker does with its handler. *)
Inductive HandlerCall :=
| Frame (now : instant) (vf : VideoFrame)
| Recover (now : instant)
| ResetTo (preference : DecoderPreference) (dims : option (Z * Z))
| Recording (start : bool).

(** The frame that reaches the decoder, and the handler after the call. *)
Definition handler_call (c : HandlerCall) (h : VideoHandler) : option VideoFrame * VideoHandler :=
  match c with
  | Frame now vf => (if (admit_frame vf h).1 then Some vf else None, (handle_frame now vf h).2)
  | Recover now => (None, (recover_decoder_if_due now h).2)
  | ResetTo p dims => (None, reset None dims (h <| decoder_preference := p |> <| decoder_fallback := 0 |>))
  | Recording b => (None, record_screen b h)
  end.

Fixpoint decoded (l : list HandlerCall) (h : VideoHandler) : list VideoFrame :=
  match l with
  | [] => []
  | c :: l => let '(o, h) := handler_call c h in option_list o ++ decoded l h
  end.

Definition newer (f g : VideoFrame) : Prop :=
  stream_id f < stream_id g \/ stream_id f = stream_id g /\ frame_id f < frame_id g.
Definition stamped (c : HandlerCall) : Prop :=
  match c with Frame _ vf => 0 < stream_id vf /\ 0 < frame_id vf | _ => True end.

(** The watermark of the handler is not below that of [f]. *)
Definition passed (f : VideoFrame) (h : VideoHandler) : Prop :=
  0 < stream_id f /\ (stream_id f < handler_stream_id h \/ stream_id f = handler_stream_id h /\ frame_id f <= last_frame_id h).

(** The watermark is moved by frames only. *)
Definition same_mark (h k : VideoHandler) : Prop := handler_stream_id h = handler_stream_id k /\ last_frame_id h = last_frame_id k.

Lemma reset_mark f dims h : same_mark (reset f dims h) h.
Proof. unfold reset, same_mark; destruct (bool_decide _), (is_some dims); done. Qed.

(** Rewrites with the two facts that [lem] states of a reset. *)
Ltac by_reset lem :=
  match goal with |- context [reset ?f ?dims ?k] =>
    let H := fresh in (pose proof (lem f dims k) as H || pose proof (lem dims k) as H); unfold same_mark in H; destruct H as [-> ->]; done end.

Lemma recover_mark now h : same_mark (recover_decoder_if_due now h).2 h.
Proof.
  unfold recover_decoder_if_due; cbn; destruct (refresh_requested _); [done|].
  destruct (take_due _ _) as [[a|] r]; [|done]; destruct (1 <? a); unfold same_mark; cbn [snd]; by_reset reset_mark.
Qed.

Lemma handle_frame_mark now vf h : same_mark (handle_frame now vf h).2 (admit_frame vf h).2.
Proof.
  unfold handle_frame; destruct (admit_frame vf h) as [[] k]; [|done]; cbn.
  destruct (handle_video_frame vf (decoder k)) as [res d]; by destruct res as [[]|].
Qed.

(** A frame that is not behind the watermark moves it; another changes nothing. *)
Lemma admit_frame_cases vf h :
  admit_frame vf h = (false, h) \/
  frame_is_current (handler_stream_id h) (last_frame_id h) (stream_id vf) (frame_id vf) = true /\
  handler_stream_id (admit_frame vf h).2 = stream_id vf /\ last_frame_id (admit_frame vf h).2 = frame_id vf.
Proof.
  unfold admit_frame; destruct (frame_is_current _ _ _ _); [right|by left]; cbn.
  destruct (accepts_frame _ _ _) as [a r]; done.
Qed.

Lemma current_newer s p vf : 0 < stream_id vf -> 0 < frame_id vf -> frame_is_current s p (stream_id vf) (frame_id vf) = true ->
  s = 0 \/ s < stream_id vf \/ s = stream_id vf /\ p < frame_id vf.
Proof. unfold frame_is_current; intros Hs Hf; destruct (_ && _) eqn:E; [done|]; use_bools; lia. Qed.

Lemma passed_mark f h k : same_mark h k -> passed f k -> passed f h.
Proof. unfold passed, same_mark; intros [-> ->]; done. Qed.

Lemma passed_call f c h : stamped c -> passed f h -> passed f (handler_call c h).2.
Proof.
  intros Hc Hp; destruct c as [now vf|now|p dims|b]; cbn in *.
  - eapply passed_mark; [apply handle_frame_mark|]; destruct (admit_frame_cases vf h) as [->|(Hcur & H1 & H2)]; [done|].
    apply current_newer in Hcur; [|lia..]; unfold passed in *; rewrite H1, H2; lia.
  - eapply passed_mark; [apply recover_mark|done].
  - unfold passed; by_reset reset_mark.
  - done.
Qed.

Lemma decoded_frame c h g : stamped c -> (handler_call c h).1 = Some g ->
  passed g (handler_call c h).2 /\ forall f, passed f h -> newer f g.
Proof.
  intros Hc; destruct c as [now vf|now|p dims|b]; cbn in *; [|done..].
  destruct (admit_frame vf h).1 eqn:E; [|done]; intros [= <-].
  destruct (admit_frame_cases vf h) as [Hno|(Hcur & H1 & H2)]; [by rewrite Hno in E|].
  split; [eapply passed_mark; [apply handle_frame_mark|]; unfold passed; rewrite H1, H2; lia|].
  intros f (Hf & Hp); apply current_newer in Hcur; [|lia..]; unfold newer; lia.
Qed.

Lemma decoded_newer l h f : Forall stamped l -> passed f h -> Forall (newer f) (decoded l h).
Proof.
  revert h; induction l as [|c l IH]; intros h Hl Hp; [constructor|]; apply Forall_cons in Hl as [Hc Hl]; cbn.
  pose proof (passed_call f c h Hc Hp) as Hp'; pose proof (decoded_frame c h) as Hd.
  destruct (handler_call c h) as [[g|] h'] eqn:E; cbn in *; [|by apply IH].
  constructor; [|by apply IH]; by apply (Hd g).
Qed.

(** C13. The decoder's input only moves on: whatever recoveries and resets the handler
    is called for, and whatever frames with identifiers it is given, a frame that
    reaches the decoder is of a later stream than every frame before it, or of the
    same stream with a greater identifier.  The frames of a host that gives no
    identifiers (zeros) are let through in the order of their arrival:
    [unstamped_frames_pass]. *)
Theorem decoder_input_moves_on l h : Forall stamped l -> StronglySorted newer (decoded l h).
Proof.
  revert h; induction l as [|c l IH]; intros h Hl; [constructor|]; apply Forall_cons in Hl as [Hc Hl]; cbn.
  pose proof (decoded_frame c h) as Hd; destruct (handler_call c h) as [[g|] h'] eqn:E; cbn in *; [|by apply IH].
  constructor; [by apply IH|]; apply decoded_newer; [done|]; by apply (Hd g).
Qed.

(** A frame without a stream identifier is current exactly while none was seen. *)
Theorem unstamped_frames_pass s p f : frame_is_current s p 0 f = (s =? 0).
Proof. unfold frame_is_current; cbn; by destruct (s =? 0). Qed.

(** ** After a failure *)

Definition waiting (f : CodecFormat) (h : VideoHandler) : Prop :=
  decoder_format (decoder h) = f /\ waiting_for_keyframe (recovery h) = true.

Lemma reset_same dims h : recovery (reset None dims h) = recovery h /\ decoder_format (decoder (reset None dims h)) = decoder_format (decoder h).
Proof. unfold reset; cbn; rewrite bool_decide_true by done; destruct (is_some dims); cbn; by rewrite new_decoder_format. Qed.

Lemma reset_some_same f h : decoder_format (decoder h) = f ->
  recovery (reset (Some f) None h) = recovery h /\ decoder_format (decoder (reset (Some f) None h)) = f.
Proof. intros <-; unfold reset; cbn; rewrite bool_decide_true by done; cbn; by rewrite new_decoder_format. Qed.

Lemma take_due_waiting now r : waiting_for_keyframe r = true -> waiting_for_keyframe (take_due now r).2 = true.
Proof. unfold take_due; destruct (next_retry r); [|done]; destruct (_ <? _); done. Qed.

Lemma recover_waiting f now h : waiting f h -> waiting f (recover_decoder_if_due now h).2.
Proof.
  intros [Hf Hw]; unfold recover_decoder_if_due; cbn; destruct (refresh_requested _); [done|].
  match goal with |- context [take_due now ?q] => pose proof (take_due_waiting now q Hw) as Hr; destruct (take_due now q) as [o r]; cbn in Hr end.
  destruct o as [a|]; cbn; [|done]; destruct (1 <? a); unfold waiting; cbn [snd]; by_reset reset_same.
Qed.

(** While it waits, a stamped frame of the decoder's format is let through only if
    it holds a keyframe, and is otherwise without effect on the wait. *)
Lemma admit_waiting f vf h : waiting f h -> format vf = f -> frame_id vf <> 0 ->
  if (admit_frame vf h).1 then contains_key_frame vf = true
  else union vf = true -> waiting f (admit_frame vf h).2.
Proof.
  intros [Hf Hw] Hvf Hid; unfold admit_frame; destruct (frame_is_current _ _ _ _); [|done]; cbn.
  set (k := if _ || _ then _ else _).
  assert (Hk : recovery k = recovery h /\ decoder_format (decoder k) = f).
  { unfold k; destruct (_ || _); [rewrite Hvf; by apply reset_some_same|done]. }
  destruct Hk as [Hk1 Hk2]; cbn; rewrite Hk1; unfold accepts_frame; rewrite Hw.
  replace (frame_id vf =? 0) with false by lia; cbn.
  destruct (needs_reset _); cbn; [done|]; destruct (contains_key_frame vf) eqn:Ek; cbn; [|done].
  destruct (union vf); done.
Qed.

(** The frames of a stream of one format. *)
Definition of_format (f : CodecFormat) (c : HandlerCall) : Prop :=
  match c with Frame _ vf => format vf = f /\ frame_id vf <> 0 /\ union vf = true | _ => True end.

Lemma waiting_call f c h : of_format f c -> waiting f h ->
  match (handler_call c h).1 with
  | Some vf => contains_key_frame vf = true
  | None => waiting f (handler_call c h).2
  end.
Proof.
  intros Hc Hw; destruct c as [now vf|now|p dims|b]; cbn in *.
  - destruct Hc as (Hf & Hid & Hu); pose proof (admit_waiting f vf h Hw Hf Hid) as H.
    unfold handle_frame; destruct (admit_frame vf h) as [[] k]; cbn in *; [done|by apply H].
  - by apply recover_waiting.
  - destruct Hw as [Hf Hw]; unfold waiting; by_reset reset_same.
  - done.
Qed.

Lemma waiting_decoded f l k : waiting f k -> Forall (of_format f) l ->
  match head (decoded l k) with None => True | Some kf => contains_key_frame kf = true end.
Proof.
  revert k; induction l as [|c l IH]; intros k Hw Hl; [done|].
  apply Forall_cons in Hl as [Hc Hl]; pose proof (waiting_call f c k Hc Hw) as H; cbn.
  destruct (handler_call c k) as [[g|] k']; cbn in *; [done|by apply IH].
Qed.

(** After an error the decoder is given nothing but a keyframe: whatever comes in
    the meantime, the first frame of the stream that reaches it holds one. *)
Theorem failed_decoder_awaits_keyframe l now vf h :
  (handle_frame now vf h).1 = None -> Forall (of_format (decoder_format (decoder (handle_frame now vf h).2))) l ->
  match head (decoded l (handle_frame now vf h).2) with None => True | Some kf => contains_key_frame kf = true end.
Proof.
  intros Herr; apply waiting_decoded; revert Herr.
  unfold handle_frame; destruct (admit_frame vf h) as [[] k]; [|done]; cbn.
  destruct (handle_video_frame vf (decoder k)) as [[]]; cbn; [done|]; split; [done|].
  unfold failed; destruct (_ =? 0); done.
Qed.

End Handler.

(** ** Steps of the two threads *)

Section Steps.
Context `{api : DecoderApi}.

(** A frame arrives; the worker takes a turn; a request for a refresh leaves for
    the host, which discards the queue (io_loop.rs, [Data::Message]). *)
Inductive Step :=
| Arrive (r : Readings) (movie : bool) (vf : VideoFrame)
| Turn (r : Readings) (session : SessionView) (worker_display : Z) (submitted : VideoFrame -> bool)
| Discard.

Definition step (e : Step) (s : VideoThread * Worker) : list Sent * (VideoThread * Worker) :=
  let '(t, w) := s in
  match e with
  | Arrive r movie vf => let '(sent, t) := video_arrived r movie vf t in (sent, (t, w))
  | Turn r session d submitted => let '(sent, t, w) := worker_turn r session d submitted t w in (sent, (t, w))
  | Discard => ([], (t <| discard_queue := true |>, w))
  end.

(** The frame that a turn gives to the handler. *)
Definition turn_frame (r : Readings) (d : Z) (t : VideoThread) : option VideoFrame :=
  match channel t with
  | [] => None
  | m :: c => (take_media r d m (t <| movie_keyframe_wait := (fallback_due (at_fallback r) (movie_keyframe_wait t)).2 |> <| channel := c |>)).1.2
  end.
Definition step_frame (e : Step) (s : VideoThread * Worker) : option VideoFrame :=
  match e with Turn r _ d _ => turn_frame r d s.1 | _ => None end.

Fixpoint steps (l : list Step) (s : VideoThread * Worker) : VideoThread * Worker :=
  match l with [] => s | e :: l => steps l (step e s).2 end.
Fixpoint played (l : list Step) (s : VideoThread * Worker) : list VideoFrame :=
  match l with [] => [] | e :: l => option_list (step_frame e s) ++ played l (step e s).2 end.
Fixpoint sent_by (l : list Step) (s : VideoThread * Worker) : list Sent :=
  match l with [] => [] | e :: l => (step e s).1 ++ sent_by l (step e s).2 end.

(** What the theorems are about. *)
Definition files (t : VideoThread) : list VideoFrame * list MediaData := (video_queue t, channel t).
Definition gate (t : VideoThread) : bool * MovieKeyframeWait := (discard_queue t, movie_keyframe_wait t).

Lemma send_video_feedback_core now force t :
  files (send_video_feedback now force t).2 = files t /\ gate (send_video_feedback now force t).2 = gate t.
Proof. unfold send_video_feedback; by destruct (take_due_at _ _ _). Qed.

Lemma recover_drops_core r d n t :
  files (recover_drops r d n t).2 = files t /\ gate (recover_drops r d n t).2 = (true, arm (at_drop r) (movie_keyframe_wait t)).
Proof.
  unfold recover_drops, recover_movie_queue_drops, send_video_feedback.
  destruct (take_due_at _ _ _); destruct (movie_queue_reference_refresh _ _ _); [|done].
  by destruct (movie_video_refresh_due _ _).
Qed.

Lemma play_frame_core r session submitted vf t w :
  files (play_frame r session submitted vf t w).1.2 = files t /\ gate (play_frame r session submitted vf t w).1.2 = gate t.
Proof.
  unfold play_frame, send_video_feedback; destruct (handle_frame _ _ _) as [[[id| | |]|] h]; try done.
  destruct (submitted vf), (take_due_at _ _ _), (fps_calculate _ _ _ _); done.
Qed.

Lemma note_capture_time_core r movie b p vf t :
  files (note_capture_time r movie b p vf t).2 = files t /\ movie_keyframe_wait (note_capture_time r movie b p vf t).2 = movie_keyframe_wait t /\
  (discard_queue t = true -> discard_queue (note_capture_time r movie b p vf t).2 = true).
Proof.
  unfold note_capture_time; destruct b; [done|]; destruct (_ <? _); [|done]; destruct (_ && _); [|done].
  by destruct (movie_video_refresh_due _ _).
Qed.

(** The worker's turn, on what is filed: the message received is taken. *)
Lemma worker_turn_core r session d submitted t w :
  let u := (worker_turn r session d submitted t w).1.2 in
  let t' := t <| movie_keyframe_wait := (fallback_due (at_fallback r) (movie_keyframe_wait t)).2 |> in
  match channel t with
  | [] => files u = files t /\ gate u = gate t'
  | m :: c => files u = files (take_media r d m (t' <| channel := c |>)).2 /\ gate u = gate (take_media r d m (t' <| channel := c |>)).2
  end.
Proof.
  cbv zeta; unfold worker_turn, ask_if_due; set (x := match video_handler w with Some _ => _ | None => _ end); destruct x as [sent1 w1].
  destruct (fallback_due _ _) as [due wait]; cbn [snd channel set_field]; destruct (channel t) as [|m c] eqn:E; cbn; [unfold files; cbn; by rewrite E|].
  unfold handle_media; match goal with |- context [take_media r d m ?k] => destruct (take_media r d m k) as [[sent2 [vf|]] u] end; cbn; [|done].
  pose proof (play_frame_core r session submitted vf u w1) as H; by destruct (play_frame r session submitted vf u w1) as [[sent3 t3] w3].
Qed.

(** ** Tokens *)

Definition is_token (m : MediaData) : bool := match m with TakeFromQueue => true | _ => false end.
Definition tokens (c : list MediaData) : Z := count_if is_token c.

(** Every queued frame has its token, and the queue is bounded. *)
Definition tokened (f : list VideoFrame * list MediaData) : Prop :=
  Z.of_nat (length f.1) <= tokens f.2 /\ Z.of_nat (length f.1) <= VIDEO_QUEUE_SIZE.

Lemma select_frame_length movie newest q stale o q' : select_frame movie newest q = (stale, o, q') ->
  (length q' <= length q)%nat /\ (q <> [] -> length q' < length q)%nat.
Proof.
  revert stale o q'; induction q as [|vf q IH]; intros stale o q'; cbn; [intros [= <- <- <-]; done|].
  destruct (_ && _).
  - destruct (select_frame movie newest q) as [[s o0] q0]; intros [= <- <- <-]; destruct (IH _ _ _ eq_refl); cbn; lia.
  - intros [= <- <- <-]; cbn; lia.
Qed.

Lemma select_frame_app movie newest q stale o q' : select_frame movie newest q = (stale, o, q') -> q = stale ++ option_list o ++ q'.
Proof.
  revert stale o q'; induction q as [|vf q IH]; intros stale o q'; cbn; [by intros [= <- <- <-]|].
  destruct (_ && _); [|by intros [= <- <- <-]].
  destruct (select_frame movie newest q) as [[s o0] q0]; intros [= <- <- <-]; cbn; f_equal; by apply IH.
Qed.

Lemma take_media_files r d m t :
  files (take_media r d m t).2 =
    (if is_token m then (select_frame (movie_mode t) (newest_capture_time_ms t) (video_queue t)).2 else video_queue t, channel t).
Proof.
  destruct m; cbn; try done; unfold take_delta; destruct (select_frame _ _ _) as [[stale o] q]; cbn.
  destruct (0 <? _); [|done]; match goal with |- context [recover_drops r d ?n ?k] =>
    pose proof (recover_drops_core r d n k) as [Hf _]; destruct (recover_drops r d n k) as [s u] end; exact Hf.
Qed.

Lemma queue_delta_files movie vf t : files (queue_delta movie vf t).2 =
  ((force_push vf (drop (movie_excess movie (video_queue t)) (video_queue t))).2,
   if is_none (force_push vf (drop (movie_excess movie (video_queue t)) (video_queue t))).1 then channel t ++ [TakeFromQueue] else channel t).
Proof. unfold queue_delta; destruct (force_push _ _) as [o q]; by destruct o. Qed.

Lemma queue_delta_gate movie vf t : gate (queue_delta movie vf t).2 = gate t.
Proof. unfold queue_delta; destruct (force_push _ _) as [o q]; by destruct o. Qed.

Lemma file_frame_files r movie vf t : files (file_frame r movie vf t).2 =
  if contains_key_frame vf then (video_queue t, channel t ++ [Keyframe vf]) else files (queue_delta movie vf t).2.
Proof.
  unfold file_frame; destruct (contains_key_frame vf); [done|]; destruct (queue_delta movie vf t) as [dropped u].
  destruct (0 <? _); [|done]; destruct movie; [|done]; apply recover_drops_core.
Qed.

Lemma video_arrived_files r movie vf t : files (video_arrived r movie vf t).2 =
  if contains_key_frame vf then (video_queue t, channel t ++ [Keyframe vf]) else files (queue_delta movie vf t).2.
Proof.
  unfold video_arrived; destruct (record_received vf _) as [b fb].
  match goal with |- context [note_capture_time r movie b ?p vf ?k] =>
    destruct (note_capture_time_core r movie b p vf k) as (Hf & _ & _); destruct (note_capture_time r movie b p vf k) as [s1 t1] end.
  pose proof (file_frame_files r movie vf t1) as Hff; destruct (file_frame r movie vf t1) as [s2 t2]; cbn [snd] in *.
  match goal with |- context [send_video_feedback ?n ?f ?k] =>
    destruct (send_video_feedback_core n f k) as [Hs _]; destruct (send_video_feedback n f k) as [s3 t3] end; cbn [snd] in *.
  rewrite Hs; change (files t2 = if contains_key_frame vf then (video_queue t, channel t ++ [Keyframe vf]) else files (queue_delta movie vf t).2).
  rewrite Hff, !queue_delta_files; injection Hf as -> ->; done.
Qed.

Lemma force_push_length vf q : Z.of_nat (length q) <= VIDEO_QUEUE_SIZE ->
  Z.of_nat (length (force_push vf q).2) = Z.of_nat (length q) + (if is_none (force_push vf q).1 then 1 else 0) /\
  Z.of_nat (length (force_push vf q).2) <= VIDEO_QUEUE_SIZE.
Proof.
  unfold force_push, VIDEO_QUEUE_SIZE; intros Hq; destruct (Z.ltb_spec (Z.of_nat (length q)) 120); cbn; [rewrite length_app; cbn; lia|].
  destruct q as [|x q]; cbn in *; [lia|]; rewrite length_app; cbn; lia.
Qed.

Lemma tokened_arrive r movie vf t : tokened (files t) -> tokened (files (video_arrived r movie vf t).2).
Proof.
  intros [H1 H2]; cbn in H1, H2; rewrite video_arrived_files; destruct (contains_key_frame vf).
  - split; cbn; [unfold tokens in *; rewrite count_if_app; cbn; lia|done].
  - rewrite queue_delta_files; set (q := drop _ _); assert (Hq : Z.of_nat (length q) <= Z.of_nat (length (video_queue t))) by (unfold q; rewrite length_drop; lia).
    destruct (force_push_length vf q) as [Hl Hm]; [lia|]; split; cbn; [|done].
    rewrite Hl; destruct (is_none _); [unfold tokens in *; rewrite count_if_app; cbn|]; lia.
Qed.

Lemma tokened_turn r session d submitted t w : tokened (files t) -> tokened (files (worker_turn r session d submitted t w).1.2).
Proof.
  intros H; pose proof (worker_turn_core r session d submitted t w) as Hc; cbv zeta in Hc.
  destruct (channel t) as [|m c] eqn:E; destruct Hc as [-> _]; [done|].
  rewrite take_media_files; cbn [video_queue channel movie_mode newest_capture_time_ms set_field] in *.
  unfold tokened, files in *; cbn in *; rewrite E in H; cbn in H; destruct (is_token m); cbn in *; [|lia].
  destruct (select_frame _ _ _) as [[s o] q] eqn:Es; apply select_frame_length in Es as [Hle Hlt]; cbn.
  unfold tokens in *; destruct (video_queue t); [cbn in *; pose proof (count_if_bounds is_token c); lia|]; specialize (Hlt ltac:(done)); lia.
Qed.

Lemma tokened_step e s : tokened (files s.1) -> tokened (files (step e s).2.1).
Proof.
  destruct s as [t w]; intros H; destruct e as [r movie vf|r session d submitted|]; cbn in *.
  - pose proof (tokened_arrive r movie vf t H) as H'; by destruct (video_arrived r movie vf t).
  - pose proof (tokened_turn r session d submitted t w H) as H'; by destruct (worker_turn r session d submitted t w) as [[? ?] ?].
  - done.
Qed.

(** Queued frames are never stranded: in every state of a display's playback a
    queued delta has its token in the channel, and the queue keeps its capacity. *)
Theorem queued_frames_have_tokens l activation stream :
  tokened (files (steps l (new_video_thread activation stream, new_worker)).1).
Proof.
  assert (H : tokened (files (new_video_thread activation stream, new_worker).1)) by (unfold tokened, tokens, VIDEO_QUEUE_SIZE; cbn; lia).
  revert H; generalize (new_video_thread activation stream, new_worker) as s; induction l as [|e l IH]; intros s H; [done|].
  by apply IH, tokened_step.
Qed.

(** ** The worker empties the channel *)

Definition is_turn (e : Step) : Prop := match e with Turn _ _ _ _ => True | _ => False end.

Lemma turn_channel e s : is_turn e -> channel (step e s).2.1 = tail (channel s.1).
Proof.
  destruct e as [|r session d submitted|], s as [t w]; try done; intros _; cbn.
  pose proof (worker_turn_core r session d submitted t w) as Hc; cbv zeta in Hc.
  destruct (worker_turn r session d submitted t w) as [[s1 t1] w1]; cbn in *; change (channel t1) with (files t1).2.
  destruct (channel t) as [|m c] eqn:E; destruct Hc as [-> _]; [by cbn; rewrite E|]; by rewrite take_media_files.
Qed.

(** When no more frames arrive, the worker catches up: after as many turns as
    there are messages the channel and the queue are empty. *)
Theorem worker_catches_up before activation stream l :
  let s := steps before (new_video_thread activation stream, new_worker) in
  Forall is_turn l -> (length (channel s.1) <= length l)%nat -> files (steps l s).1 = ([], []).
Proof.
  intros s Hl; assert (Hs : tokened (files s.1)).
  { assert (H : tokened (files (new_video_thread activation stream, new_worker).1)) by (unfold tokened, tokens, VIDEO_QUEUE_SIZE; cbn; lia).
    subst s; revert H; generalize (new_video_thread activation stream, new_worker) as s0.
    induction before as [|e before IH]; intros s0 H; [done|]; by apply IH, tokened_step. }
  clearbody s; revert s Hs; induction Hl as [|e l He Hl IH]; intros s Hs Hn; cbn in *.
  - destruct Hs as [Hs _]; unfold files in *; cbn in *; destruct (channel s.1); [|cbn in Hn; lia].
    destruct (video_queue s.1); [done|cbn in Hs; unfold tokens in Hs; cbn in Hs; lia].
  - apply IH; [by apply tokened_step|]; rewrite turn_channel by done; destruct (channel s.1); cbn in *; lia.
Qed.

(** ** After a drop *)

(** The channel carries keyframes only, besides tokens. *)
Definition keyframes_only (c : list MediaData) : Prop :=
  Forall (fun m => match m with Keyframe vf => contains_key_frame vf = true | _ => True end) c.

Lemma keyframes_only_step e s : keyframes_only (channel s.1) -> keyframes_only (channel (step e s).2.1).
Proof.
  destruct e as [r movie vf|r session d submitted|]; [|intros H; rewrite turn_channel by done; destruct H; [constructor|done]|by destruct s].
  destruct s as [t w]; cbn; intros H; pose proof (video_arrived_files r movie vf t) as Hf.
  destruct (video_arrived r movie vf t) as [s1 u]; cbn [fst snd] in *; change (channel u) with (files u).2; rewrite Hf, queue_delta_files.
  destruct (contains_key_frame vf) eqn:E; cbn [fst snd]; [apply Forall_app; split; [done|]; by constructor|].
  destruct (is_none _); [|done]; apply Forall_app; split; [done|]; by constructor.
Qed.

(** While the queue is discarded a turn plays keyframes only, and the queue is
    discarded until one is played. *)
Lemma discarding_step e s : discard_queue s.1 = true -> keyframes_only (channel s.1) ->
  match step_frame e s with
  | Some vf => contains_key_frame vf = true
  | None => discard_queue (step e s).2.1 = true
  end.
Proof.
  destruct s as [t w], e as [r movie vf|r session d submitted|]; cbn; intros Hd Hk; [| |done].
  - unfold video_arrived; destruct (record_received vf _) as [b fb].
    match goal with |- context [note_capture_time r movie b ?p vf ?k] =>
      pose proof (proj2 (proj2 (note_capture_time_core r movie b p vf k))) as Hn; destruct (note_capture_time r movie b p vf k) as [s1 t1] end.
    specialize (Hn Hd); cbn [snd] in Hn.
    assert (Hf : discard_queue (file_frame r movie vf t1).2 = true).
    { unfold file_frame; destruct (contains_key_frame vf); [done|]; pose proof (queue_delta_gate movie vf t1) as Hg.
      destruct (queue_delta movie vf t1) as [dropped u]; injection Hg as Hg _; destruct (0 <? _); [destruct movie|]; cbn; try congruence.
      match goal with |- discard_queue (recover_drops r ?dd ?n u).2 = true => destruct (recover_drops_core r dd n u) as [_ Hr]; injection Hr as -> _; done end. }
    destruct (file_frame r movie vf t1) as [s2 t2]; cbn [snd] in Hf.
    match goal with |- context [send_video_feedback ?n ?f ?k] =>
      destruct (send_video_feedback_core n f k) as [_ Hs]; destruct (send_video_feedback n f k) as [s3 t3] end; cbn [snd fst] in *.
    injection Hs as Hs _; cbn in Hs; congruence.
  - pose proof (worker_turn_core r session d submitted t w) as Hc; cbv zeta in Hc; unfold turn_frame.
    destruct (worker_turn r session d submitted t w) as [[s1 t1] w1]; cbn in *.
    destruct (channel t) as [|m c] eqn:E; destruct Hc as [_ Hg]; [injection Hg as ->; done|].
    apply Forall_cons in Hk as [Hm _]; destruct m; cbn in *; try (injection Hg as ->; done); [|done].
    revert Hg; unfold take_delta; cbn; destruct (select_frame _ _ _) as [[stale o] q]; cbn; destruct (0 <? _).
    + match goal with |- context [recover_drops r d ?n ?k] => destruct (recover_drops_core r d n k) as [_ Hr]; destruct (recover_drops r d n k) as [s2 u] end.
      cbn in *; injection Hr as Hr _; rewrite Hr; intros Hg; injection Hg as ->; done.
    + cbn; rewrite Hd; intros Hg; injection Hg as ->; done.
Qed.

Lemma discarding_played l s : discard_queue s.1 = true -> keyframes_only (channel s.1) ->
  match head (played l s) with None => True | Some vf => contains_key_frame vf = true end.
Proof.
  revert s; induction l as [|e l IH]; intros s Hd Hk; [done|]; pose proof (discarding_step e s Hd Hk) as H; cbn.
  destruct (step_frame e s) as [vf|]; [done|]; by apply IH; [|apply keyframes_only_step].
Qed.

(** The frames that a step drops in movie mode. *)
Definition dropped_by (e : Step) (t : VideoThread) : list VideoFrame :=
  match e with
  | Arrive _ movie vf => if movie && negb (contains_key_frame vf) then (queue_delta movie vf t).1 else []
  | Turn _ _ _ _ =>
      match channel t with
      | TakeFromQueue :: _ => (select_frame (movie_mode t) (newest_capture_time_ms t) (video_queue t)).1.1
      | _ => []
      end
  | Discard => []
  end.

Lemma nonempty_length {A} (l : list A) : l <> [] -> (0 <? Z.of_nat (length l)) = true.
Proof. destruct l; [done|intros _; apply Z.ltb_lt; cbn; lia]. Qed.

Lemma dropping_step e s : dropped_by e s.1 <> [] -> step_frame e s = None /\ discard_queue (step e s).2.1 = true.
Proof.
  destruct s as [t w], e as [r movie vf|r session d submitted|]; cbn; [| |done].
  - destruct movie; [|done]; destruct (contains_key_frame vf) eqn:Ek; [done|]; cbn; intros Hd; split; [done|].
    unfold video_arrived; destruct (record_received vf _) as [b fb].
    match goal with |- context [note_capture_time r true b ?p vf ?k] =>
      destruct (note_capture_time_core r true b p vf k) as (Hf & _); destruct (note_capture_time r true b p vf k) as [s1 t1] end.
    injection Hf as Hq _; cbn in Hq; unfold file_frame; rewrite Ek.
    assert (Hd' : (queue_delta true vf t1).1 = (queue_delta true vf t).1).
    { unfold queue_delta; rewrite Hq; by destruct (force_push _ _). }
    destruct (queue_delta true vf t1) as [dropped u]; cbn [fst] in Hd'; rewrite Hd' in *.
    rewrite (nonempty_length _ Hd).
    match goal with |- context [recover_drops r ?dd ?n u] => destruct (recover_drops_core r dd n u) as [_ Hr]; destruct (recover_drops r dd n u) as [s2 t2] end.
    match goal with |- context [send_video_feedback ?n ?f ?k] =>
      destruct (send_video_feedback_core n f k) as [_ Hs]; destruct (send_video_feedback n f k) as [s3 t3] end; cbn [snd fst] in *.
    injection Hs as Hs _; injection Hr as Hr _; cbn in Hs; congruence.
  - pose proof (worker_turn_core r session d submitted t w) as Hc; cbv zeta in Hc; unfold turn_frame.
    destruct (worker_turn r session d submitted t w) as [[s1 t1] w1]; cbn in *.
    destruct (channel t) as [|[] c] eqn:E; try done; destruct Hc as [_ Hg]; revert Hg; cbn; unfold take_delta; cbn.
    destruct (select_frame _ _ _) as [[stale o] q]; cbn; intros Hg Hd.
    rewrite (nonempty_length _ Hd) in Hg.
    match goal with |- context [recover_drops r d ?n ?k] => destruct (recover_drops_core r d n k) as [_ Hr]; destruct (recover_drops r d n k) as [s2 u] end.
    cbn in *; injection Hr as Hr _; rewrite (nonempty_length _ Hd); cbn; rewrite Hr; split; [done|]; injection Hg as ->; done.
Qed.

Lemma keyframes_only_steps l s : keyframes_only (channel s.1) -> keyframes_only (channel (steps l s).1).
Proof. revert s; induction l as [|e l IH]; intros s H; [done|]; by apply IH, keyframes_only_step. Qed.

(** After frames were dropped in movie mode, by either thread, the step plays
    nothing and the next frame played is a keyframe, whatever happens until then;
    PlaybackSteps.v has the interleavings within a step. *)
Theorem dropping_step_awaits_keyframe before activation stream e l :
  let s := steps before (new_video_thread activation stream, new_worker) in
  dropped_by e s.1 <> [] ->
  step_frame e s = None /\
  match head (played l (step e s).2) with None => True | Some vf => contains_key_frame vf = true end.
Proof.
  intros s Hd; destruct (dropping_step e s Hd) as [Hf Hg]; split; [done|].
  apply discarding_played; [done|]; apply keyframes_only_step, keyframes_only_steps; constructor.
Qed.

(** ** Without drops: one queue

    The specification: a single queue of frames and messages, and whether deltas
    are being discarded. *)

Inductive Item := ItemFrame (vf : VideoFrame) | ItemOther (m : MediaData).
Record Fifo := { pending_items : list Item; discarding : bool }.

Definition fifo_step (e : Step) (q : Fifo) : option VideoFrame * Fifo :=
  match e with
  | Arrive _ _ vf => (None, {| pending_items := pending_items q ++ [ItemFrame vf]; discarding := discarding q |})
  | Discard => (None, {| pending_items := pending_items q; discarding := true |})
  | Turn _ _ _ _ =>
      match pending_items q with
      | ItemFrame vf :: items =>
          if contains_key_frame vf then (Some vf, {| pending_items := items; discarding := false |})
          else (if discarding q then None else Some vf, {| pending_items := items; discarding := discarding q |})
      | _ :: items => (None, {| pending_items := items; discarding := discarding q |})
      | [] => (None, q)
      end
  end.
Fixpoint fifo_played (l : list Step) (q : Fifo) : list VideoFrame :=
  match l with [] => [] | e :: l => option_list (fifo_step e q).1 ++ fifo_played l (fifo_step e q).2 end.

(** The channel with its tokens replaced by the frames they stand for. *)
Fixpoint expand (c : list MediaData) (q : list VideoFrame) : list Item :=
  match c with
  | [] => []
  | TakeFromQueue :: c => match q with vf :: q => ItemFrame vf :: expand c q | [] => expand c [] end
  | Keyframe vf :: c => ItemFrame vf :: expand c q
  | m :: c => ItemOther m :: expand c q
  end.

(** A step that drops nothing and does not find the clock of the source set back. *)
Definition calm (e : Step) (t : VideoThread) : Prop :=
  match e with
  | Arrive r movie vf => (contains_key_frame vf = false -> (queue_delta movie vf t).1 = []) /\ discard_queue (video_arrived r movie vf t).2 = discard_queue t
  | Turn _ _ _ _ => dropped_by e t = []
  | Discard => True
  end.
Fixpoint all_calm (l : list Step) (s : VideoThread * Worker) : Prop :=
  match l with [] => True | e :: l => calm e s.1 /\ all_calm l (step e s).2 end.

Definition refines (t : VideoThread) (q : Fifo) : Prop :=
  tokens (channel t) = Z.of_nat (length (video_queue t)) /\ keyframes_only (channel t) /\
  Forall (fun vf => contains_key_frame vf = false) (video_queue t) /\
  expand (channel t) (video_queue t) = pending_items q /\ discard_queue t = discarding q.

Lemma expand_app_key c q vf : expand (c ++ [Keyframe vf]) q = expand c q ++ [ItemFrame vf].
Proof. revert q; induction c as [|[] c IH]; intros q; cbn; try (by rewrite IH); [done|]; destruct q; cbn; by rewrite IH. Qed.

Lemma expand_app_delta c q vf : tokens c = Z.of_nat (length q) -> expand (c ++ [TakeFromQueue]) (q ++ [vf]) = expand c q ++ [ItemFrame vf].
Proof.
  unfold tokens; revert q; induction c as [|[] c IH]; intros q Hq; cbn in *; try (rewrite IH by lia; done).
  - by destruct q; [|cbn in *; lia].
  - pose proof (count_if_bounds is_token c); destruct q; cbn in *; [lia|]; rewrite IH by lia; done.
Qed.

Lemma queue_delta_calm movie vf t : (queue_delta movie vf t).1 = [] ->
  files (queue_delta movie vf t).2 = (video_queue t ++ [vf], channel t ++ [TakeFromQueue]).
Proof.
  unfold queue_delta; set (n := movie_excess movie (video_queue t)); unfold force_push.
  destruct (_ <? _) eqn:E; cbn; rewrite ?app_nil_r; intros H.
  - replace (drop n (video_queue t)) with (video_queue t); [done|]; by rewrite <- (take_drop n (video_queue t)), H at 1.
  - apply app_eq_nil in H as [_ H]; destruct (drop n (video_queue t)); [by vm_compute in E|done].
Qed.

Lemma refines_arrive r movie vf t w q : calm (Arrive r movie vf) t -> refines t q ->
  refines (step (Arrive r movie vf) (t, w)).2.1 (fifo_step (Arrive r movie vf) q).2.
Proof.
  intros [Hc Hd] (Ht & Hk & Hq & He & Hdis); pose proof (video_arrived_files r movie vf t) as Hf; cbn.
  destruct (video_arrived r movie vf t) as [s1 u]; cbn [fst snd] in *; unfold refines; rewrite Hd.
  destruct (contains_key_frame vf) eqn:Ek.
  - injection Hf as -> ->; split_and!; [unfold tokens in *; rewrite count_if_app; cbn; lia| |done|by rewrite expand_app_key, He|done].
    apply Forall_app; split; [done|]; by constructor.
  - rewrite queue_delta_calm in Hf by auto; injection Hf as -> ->; split_and!.
    + unfold tokens in *; rewrite count_if_app, length_app; cbn; lia.
    + apply Forall_app; split; [done|]; by constructor.
    + apply Forall_app; split; [done|]; by constructor.
    + by rewrite expand_app_delta, He.
    + done.
Qed.

Lemma refines_turn r session d submitted t w q : calm (Turn r session d submitted) t -> refines t q ->
  turn_frame r d t = (fifo_step (Turn r session d submitted) q).1 /\
  refines (worker_turn r session d submitted t w).1.2 (fifo_step (Turn r session d submitted) q).2.
Proof.
  intros Hc (Ht & Hk & Hq & He & Hdis); pose proof (worker_turn_core r session d submitted t w) as Hw; cbv zeta in Hw.
  unfold turn_frame; destruct (worker_turn r session d submitted t w) as [[s1 u] w1]; cbn [fst snd] in *; cbn in Hc |- *.
  rewrite <- He; destruct (channel t) as [|m c] eqn:E.
  - destruct Hw as [Hf Hg]; split; [done|]; cbn; injection Hf as Hf1 Hf2; injection Hg as Hg1 Hg2.
    unfold refines; rewrite Hf1, Hf2, Hg1, E; done.
  - apply Forall_cons in Hk as [Hm Hk]; rewrite take_media_files in Hw; destruct Hw as [Hf Hg].
    destruct m; cbn in *;
      try (injection Hf as Hf1 Hf2; injection Hg as Hg1 Hg2; unfold tokens, refines in *; cbn in *; rewrite ?Hm; cbn; rewrite Hf1, Hf2, Hg1; done).
    destruct (video_queue t) as [|vf vs] eqn:Eq; [cbn in Ht; unfold tokens in Ht; cbn in Ht; pose proof (count_if_bounds is_token c); lia|].
    apply Forall_cons in Hq as [Hvf Hq]; cbn in Hc, Hf; revert Hg; unfold take_delta; cbn; rewrite ?Eq, ?Hvf; cbn.
    destruct (_ && _) eqn:Eo; [by destruct (select_frame _ _ _) as [[? ?] ?]|]; cbn in *; intros Hg.
    injection Hf as Hf1 Hf2; injection Hg as Hg1 Hg2; rewrite Hdis; split; [done|].
    unfold refines, tokens in *; cbn in *; rewrite Hf1, Hf2, Hg1; split_and!; try done; lia.
Qed.

(** C11. As long as nothing is dropped the channel, the queue and its tokens are one
    queue: the frames that the handler is given, and their order, are those of a
    single queue of the frames in the order of their arrival, in which a request for
    a refresh skips the deltas up to the next keyframe. *)
Theorem playback_is_fifo l activation stream :
  all_calm l (new_video_thread activation stream, new_worker) ->
  played l (new_video_thread activation stream, new_worker) = fifo_played l {| pending_items := []; discarding := false |}.
Proof.
  assert (H : refines (new_video_thread activation stream, new_worker).1 {| pending_items := []; discarding := false |}).
  { unfold refines; cbn; split_and!; try done; constructor. }
  revert H; generalize (new_video_thread activation stream, new_worker) as s, {| pending_items := []; discarding := false |} as q.
  induction l as [|e l IH]; intros s q Hr Hc; [done|]; destruct Hc as [He Hc]; cbn [played fifo_played].
  assert (H : step_frame e s = (fifo_step e q).1 /\ refines (step e s).2.1 (fifo_step e q).2).
  { destruct s as [t w], e as [r movie vf|r session d submitted|].
    - split; [done|]; by apply refines_arrive.
    - pose proof (refines_turn r session d submitted t w q He Hr) as [H1 H2]; cbn [step step_frame fst].
      destruct (worker_turn r session d submitted t w) as [[s1 u] w1]; done.
    - split; [done|]; unfold refines in *; cbn in *; intuition. }
  destruct H as [-> Hr']; f_equal; by apply IH.
Qed.

(** ** Requests for a keyframe *)

Lemma refresh_not_due now last l : movie_video_refresh_due now last = (false, l) ->
  exists at_, last = Some at_ /\ since now at_ < MOVIE_VIDEO_REFRESH_COOLDOWN.
Proof.
  unfold movie_video_refresh_due; destruct last as [at_|]; cbn; [|done].
  destruct (Z.ltb_spec (since now at_) MOVIE_VIDEO_REFRESH_COOLDOWN); [|done]; by exists at_.
Qed.

Lemma take_due_dropped now force t f u : take_due_at now force t = (f, u) -> dropped_frames u = dropped_frames t.
Proof. unfold take_due_at; destruct (_ || _); [by intros [= <- <-]|]; destruct (_ && _); by intros [= <- <-]. Qed.

(** Dropped frames are counted and followed by a request: for a reference, for the
    whole display, or one of them was sent less than half a second ago. *)
Theorem drops_ask_for_a_keyframe r d n t : 0 < n ->
  let '(sent, u) := recover_drops r d n t in
  discard_queue u = true /\ is_Some (since_ (movie_keyframe_wait u)) /\
  dropped_frames (video_feedback u) = sat_add u64_max (dropped_frames (video_feedback t)) n /\
  (RefreshVideo d ∈ sent \/
   (exists q, SentReferenceRefresh q ∈ sent /\ r_display q = d /\ r_dropped_frames q = n /\
     r_stream_id q = t_stream_id (video_feedback t) /\ r_received_frame_id q = received_frame_id (video_feedback t)) \/
   exists last, movie_queue_refresh t = Some last /\ since (at_refresh r) last < MOVIE_VIDEO_REFRESH_COOLDOWN).
Proof.
  intros Hn; pose proof (recover_drops_core r d n t) as [_ Hg].
  assert (Harm : is_Some (since_ (arm (at_drop r) (movie_keyframe_wait t)))).
  { unfold arm; destruct (since_ (movie_keyframe_wait t)) eqn:E; cbn; [by rewrite E|done]. }
  revert Hg; unfold recover_drops, recover_movie_queue_drops, send_video_feedback.
  destruct (take_due_at _ _ _) as [f fb] eqn:Ef; apply take_due_dropped in Ef.
  match goal with |- context [movie_queue_reference_refresh d n ?k] => destruct (movie_queue_reference_refresh d n k) as [q|] eqn:Eq end; cbn.
  - destruct (movie_video_refresh_due _ _) as [due last] eqn:Em; cbn; intros _; split_and!; try done.
    right; destruct due; [left; exists q|right; by apply refresh_not_due in Em]; split; [set_solver|].
    revert Eq; unfold movie_queue_reference_refresh; destruct (_ <? _); [done|]; destruct (_ || _); [done|]; by intros [= <-].
  - intros _; split_and!; try done; left; set_solver.
Qed.

(** A turn in which the fallback is due, and one that takes a keyframe. *)
Definition fires (e : Step) (s : VideoThread * Worker) : bool :=
  match e with Turn r _ _ _ => (fallback_due (at_fallback r) (movie_keyframe_wait s.1)).1 | _ => false end.
Definition takes_keyframe (e : Step) (s : VideoThread * Worker) : bool :=
  match e, channel s.1 with Turn _ _ _ _, Keyframe _ :: _ => true | _, _ => false end.
Fixpoint no_keyframe (l : list Step) (s : VideoThread * Worker) : Prop :=
  match l with [] => True | e :: l => takes_keyframe e s = false /\ no_keyframe l (step e s).2 end.
(** The worker wakes a second or more after [at_]. *)
Definition wakes_after (at_ : instant) (e : Step) : bool :=
  match e with Turn r _ _ _ => MOVIE_KEYFRAME_FALLBACK_DELAY <=? since (at_fallback r) at_ | _ => false end.

Lemma arm_armed now at_ b : arm now {| since_ := Some at_; fallback_sent := b |} = {| since_ := Some at_; fallback_sent := b |}.
Proof. done. Qed.

Lemma wait_step e s at_ b : movie_keyframe_wait s.1 = {| since_ := Some at_; fallback_sent := b |} -> takes_keyframe e s = false ->
  fires e s = negb b && wakes_after at_ e /\
  movie_keyframe_wait (step e s).2.1 = {| since_ := Some at_; fallback_sent := b || wakes_after at_ e |}.
Proof.
  destruct s as [t w], e as [r movie vf|r session d submitted|]; cbn; intros Hw Hk.
  - rewrite andb_false_r, orb_false_r; split; [done|].
    unfold video_arrived; destruct (record_received vf _) as [b' fb].
    match goal with |- context [note_capture_time r movie b' ?p vf ?k] =>
      pose proof (proj1 (proj2 (note_capture_time_core r movie b' p vf k))) as Hn; destruct (note_capture_time r movie b' p vf k) as [s1 t1] end.
    cbn in Hn; rewrite Hw in Hn; assert (Hf : movie_keyframe_wait (file_frame r movie vf t1).2 = {| since_ := Some at_; fallback_sent := b |}).
    { unfold file_frame; destruct (contains_key_frame vf); [done|]; pose proof (queue_delta_gate movie vf t1) as Hg.
      destruct (queue_delta movie vf t1) as [dropped u]; injection Hg as _ Hg; destruct (0 <? _); [destruct movie|]; cbn; try congruence.
      match goal with |- context [recover_drops r ?dd ?n u] => destruct (recover_drops_core r dd n u) as [_ Hr]; injection Hr as _ -> end.
      by rewrite Hg, Hn. }
    destruct (file_frame r movie vf t1) as [s2 t2]; cbn [snd] in Hf.
    match goal with |- context [send_video_feedback ?n ?f ?k] =>
      destruct (send_video_feedback_core n f k) as [_ Hs]; destruct (send_video_feedback n f k) as [s3 t3] end; cbn [snd fst] in *.
    injection Hs as _ Hs; cbn in Hs; congruence.
  - assert (Hdue : fallback_due (at_fallback r) {| since_ := Some at_; fallback_sent := b |}
      = (negb b && (MOVIE_KEYFRAME_FALLBACK_DELAY <=? since (at_fallback r) at_),
         {| since_ := Some at_; fallback_sent := b || (MOVIE_KEYFRAME_FALLBACK_DELAY <=? since (at_fallback r) at_) |})).
    { unfold fallback_due; cbn; destruct b; cbn; [done|]; by destruct (_ <=? _). }
    pose proof (worker_turn_core r session d submitted t w) as Hc; cbv zeta in Hc; rewrite Hw, Hdue in *; split; [done|].
    destruct (worker_turn r session d submitted t w) as [[s1 t1] w1]; cbn [fst snd set_field] in *.
    destruct (channel t) as [|m c] eqn:E; destruct Hc as [_ Hg]; [by injection Hg as _ ->|].
    destruct m; cbn in *; try done; try (by injection Hg as _ ->).
    revert Hg; unfold take_delta; cbn; destruct (select_frame _ _ _) as [[stale o] q]; cbn; destruct (0 <? _).
    + match goal with |- context [recover_drops r d ?n ?k] => destruct (recover_drops_core r d n k) as [_ Hr]; destruct (recover_drops r d n k) as [s2 u] end.
      cbn in *; rewrite Hr; cbn; intros Hg; by injection Hg as _ ->.
    + cbn; intros Hg; by injection Hg as _ ->.
  - by rewrite andb_false_r, orb_false_r.
Qed.

(** The requests for the whole display in what is sent. *)
Definition refreshes (sent : list Sent) : Z := count_if (fun x => match x with RefreshVideo _ => true | _ => false end) sent.

(** The other requests of a turn: the decoder was reset or asks for a keyframe;
    frames were dropped as too old and no request for a reference was possible. *)
Definition decoder_asks (e : Step) (s : VideoThread * Worker) : Z :=
  match e, video_handler s.2 with
  | Turn r _ _ _, Some h => Z.b2z (is_some (recover_decoder_if_due (at_recover r) h).1)
  | _, _ => 0
  end.
Definition drops_ask (e : Step) (s : VideoThread * Worker) : Z :=
  match e, channel s.1 with
  | Turn r _ d _, TakeFromQueue :: c =>
      refreshes (take_delta r d (s.1 <| movie_keyframe_wait := (fallback_due (at_fallback r) (movie_keyframe_wait s.1)).2 |> <| channel := c |>)).1.1
  | _, _ => 0
  end.

Lemma refreshes_app a b : refreshes (a ++ b) = refreshes a + refreshes b.
Proof. apply count_if_app. Qed.

Lemma feedback_no_refresh now force t : refreshes (send_video_feedback now force t).1 = 0.
Proof. unfold send_video_feedback; destruct (take_due_at _ _ _) as [[f|] u]; done. Qed.

Lemma play_no_refresh r session submitted vf t w : refreshes (play_frame r session submitted vf t w).1.1 = 0.
Proof.
  unfold play_frame; destruct (handle_frame _ _ _) as [[[id| | |]|] h]; try done.
  match goal with |- context [send_video_feedback ?n ?b ?k] => pose proof (feedback_no_refresh n b k) as H; destruct (send_video_feedback n b k) as [sent u] end.
  by destruct (fps_calculate _ _ _ _).
Qed.

(** Each request of a turn has its cause. *)
Lemma turn_refreshes r session d submitted s :
  let e := Turn r session d submitted in
  refreshes (step e s).1 = decoder_asks e s + Z.b2z (fires e s) + drops_ask e s.
Proof.
  destruct s as [t w]; unfold decoder_asks, drops_ask; cbn [step fst snd fires]; unfold worker_turn, ask_if_due.
  set (x := match video_handler w with Some _ => _ | None => _ end).
  assert (Hx : refreshes x.1 = match video_handler w with Some h => Z.b2z (is_some (recover_decoder_if_due (at_recover r) h).1) | None => 0 end).
  { subst x; destruct (video_handler w) as [h|]; [|done]; by destruct (recover_decoder_if_due _ h) as [[] k]. }
  rewrite <- Hx; destruct x as [s1 w1]; cbn [fst snd]; clear Hx.
  assert (Hf : forall b : bool, refreshes (if b then [RefreshVideo d] else []) = Z.b2z b) by (by intros []).
  destruct (fallback_due _ _) as [due wait]; cbn [fst snd channel set_field]; destruct (channel t) as [|m c].
  - cbn [fst]; rewrite refreshes_app, Hf; lia.
  - unfold handle_media; destruct m; cbn [take_media];
      try (cbn [control fst]; rewrite !refreshes_app, Hf; cbn; lia).
    + match goal with |- context [take_delta r d ?k] => destruct (take_delta r d k) as [[s2 o] u] eqn:E2 end.
      cbn [fst snd] in *; destruct o as [vf|].
      * pose proof (play_no_refresh r session submitted vf u w1) as Hp; destruct (play_frame _ _ _ _ _ _) as [[s3 u3] w3].
        cbn [fst] in *; rewrite !refreshes_app, Hf, Hp; lia.
      * cbn [control fst]; rewrite !refreshes_app, Hf; lia.
    + match goal with |- context [play_frame ?a ?b ?c ?d ?e ?f] => pose proof (play_no_refresh a b c d e f) as Hp; destruct (play_frame a b c d e f) as [[s3 u3] w3] end.
      cbn [fst app] in *; rewrite !refreshes_app, Hf, Hp; lia.
Qed.

(** The state in which the step after [l] is taken. *)
Lemma steps_app l1 l2 s : steps (l1 ++ l2) s = steps l2 (steps l1 s).
Proof. revert s; induction l1 as [|e l1 IH]; intros s; [done|apply IH]. Qed.

Lemma wait_steps l s at_ b : movie_keyframe_wait s.1 = {| since_ := Some at_; fallback_sent := b |} -> no_keyframe l s ->
  movie_keyframe_wait (steps l s).1 = {| since_ := Some at_; fallback_sent := b || existsb (wakes_after at_) l |}.
Proof.
  revert s b; induction l as [|e l IH]; intros s b Hw Hn; [by rewrite orb_false_r|]; destruct Hn as [He Hn]; cbn.
  rewrite orb_assoc; apply IH; [|done]; by apply wait_step.
Qed.


(** And the worker is awake by then. *)
Lemma recv_wait_fallback now t w at_ :
  movie_keyframe_wait t = {| since_ := Some at_; fallback_sent := false |} ->
  exists d, recv_wait now t w = Some d /\ now + d <= Z.max now (Z.max now at_ + MOVIE_KEYFRAME_FALLBACK_DELAY).
Proof.
  intros Hw; unfold recv_wait; rewrite Hw; cbn.
  destruct (video_handler w) as [h|]; cbn; [destruct (wait_duration now (recovery h)) as [a|]|]; eexists; (split; [done|]); unfold_time; unfold sat_sub, since; lia.
Qed.

End Steps.

(** ** When tokens and frames part

    Popping the queue takes frames and leaves their tokens in the channel, and a
    keyframe taken from the channel ends the wait whether or not it is the one that
    was asked for. *)

(** A decoder that decodes everything and keeps what it was given. *)
#[local] Instance recording_decoder : DecoderApi.
Proof.
  refine {| Decoder := CodecFormat * list Z;
            new_decoder := fun f _ _ _ _ => (f, []);
            decoder_format := fst;
            handle_video_frame := fun vf d => (Some (FrameReady None), (d.1, d.2 ++ [frame_id vf])) |}; done.
Defined.

Definition readings (now : instant) : Readings :=
  {| at_recover := now; at_fallback := now; at_drop := now; at_feedback := now; at_refresh := now; at_decoded := now;
     at_report := now; decode_time := 0; render_submit_time := 0; whole_time := 0 |}.
Definition session_view : SessionView :=
  {| codec_preference := ""; display_size := fun _ => None; record_state := false; record_permission := false |}.
Definition frame (key : bool) (n : Z) : VideoFrame :=
  {| display := 0; stream_id := 1; frame_id := n; capture_time_ms := n; union := true; format := VP9; has_keyframe := key |}.

(** Frames of movie mode arrive, or the worker takes turns, within a second. *)
Definition key (n : Z) : list Step := [Arrive (readings 0) true (frame true n)].
Definition delta (n : Z) : list Step := [Arrive (readings 0) true (frame false n)].
Definition turns (n : nat) : list Step := repeat (Turn (readings 0) session_view 0 (fun _ => true)) n.

(** The frames that the decoder was given, those of the queue, and the drops that
    the host is told of. *)
Definition given (l : list Step) : list Z * list Z * Z :=
  let '(t, w) := steps l (new_video_thread 1 1, new_worker) in
  (match video_handler w with Some h => (decoder h).2 | None => [] end, frame_id <$> video_queue t, dropped_frames (video_feedback t)).

(** Frames that arrive while a keyframe waits in the channel. *)
Definition burst : list Step := mjoin (delta <$> [2; 3; 4; 5; 6; 7; 8; 9; 10]).

(** The keyframe that ends the wait is the one that came before the frame that was
    dropped: frame 3, which refers to the dropped frame 2, is decoded. *)
Theorem old_keyframe_ends_the_wait : given (key 1 ++ burst ++ turns 2) = ([1; 3], [4; 5; 6; 7; 8; 9; 10], 1).
Proof. vm_compute. reflexivity. Qed.

(** The token of the dropped frame takes frame 12, which came after the keyframe
    that was asked for: it is discarded, the host is told of one drop, and frame 13 is
    decoded without it. *)
Theorem stale_token_loses_a_delta :
  given (key 1 ++ turns 1 ++ burst ++ turns 1 ++ key 11 ++ delta 12 ++ turns 10 ++ delta 13 ++ turns 1) = ([1; 11; 13], [], 1).
Proof. vm_compute. reflexivity. Qed.

(** And a token left over takes frame 15 before the keyframe it refers to, which
    the handler then refuses as too old. *)
Theorem stale_token_overtakes_a_keyframe :
  given (key 1 ++ turns 1 ++ burst ++ turns 1 ++ key 11 ++ delta 12 ++ turns 9 ++ delta 13 ++ key 14 ++ delta 15 ++ turns 4) = ([1; 11; 13; 15], [], 1).
Proof. vm_compute. reflexivity. Qed.

(** ** Witnesses *)

Lemma decoder_input_moves_on_witness :
  let calls := [Frame 0 (frame true 1); Frame 0 (frame false 3); Recover 5; Frame 0 (frame false 2); Recording true; Frame 0 (frame false 4)] in
  let h := new_with_preference VP9 0 None Auto in
  Forall stamped calls /\ frame_id <$> decoded calls h = [1; 3; 4] /\ StronglySorted newer (decoded calls h).
Proof.
  intros calls h; assert (Hs : Forall stamped calls) by (repeat constructor).
  split; [exact Hs|]; split; [reflexivity|]; exact (decoder_input_moves_on calls h Hs).
Defined.

Lemma playback_is_fifo_witness :
  let l := key 1 ++ delta 2 ++ turns 1 ++ delta 3 ++ turns 2 ++ [Discard] ++ delta 4 ++ turns 1 ++ key 5 ++ delta 6 ++ turns 2 in
  all_calm l (new_video_thread 1 1, new_worker) /\ frame_id <$> played l (new_video_thread 1 1, new_worker) = [1; 2; 3; 5; 6] /\
  played l (new_video_thread 1 1, new_worker) = fifo_played l {| pending_items := []; discarding := false |}.
Proof.
  intros l; assert (Hc : all_calm l (new_video_thread 1 1, new_worker)) by (vm_compute; repeat split; intros; discriminate).
  split; [exact Hc|]; split; [vm_compute; reflexivity|]; exact (playback_is_fifo l 1 1 Hc).
Defined.

Definition turn_at (ms : Z) : Step := Turn (readings (from_millis ms)) session_view 0 (fun _ => true).

