(* ===== verification/PlaybackSteps.v ===== *)
(** * The two threads of a display's video, action by action

    The filing of a frame and a turn of the worker of ViewerPlayback.v, taken apart
    into their single actions on what the threads share: the queue, the channel,
    the flag [discard_queue] and the wait for a keyframe (src/src/client/
    io_loop.rs, [handle_msg_from_peer]; src/src/client.rs, [start_video_thread]).  The
    read lock that both hold on the queue excludes neither, so the actions
    interleave in any order.  Undisturbed, the actions are the steps of
    ViewerPlayback.v ([filing_is_its_actions], [turn_is_its_actions]); the theorem on drops
    is about every interleaving, and a last one shows what the gap between a drop and
    its mark lets through. *)

From S2P Require Import Prelude DecoderRecovery VideoFeedback ViewerPlayback PlaybackTheory.

Section Actions.
Context `{api : DecoderApi}.

(** ** The thread of the connection *)

(** A frame being filed: [dropped_frames] of the source and [new_feedback_stream]. *)
Record Filing := {
  clocks : Readings;
  filed_movie : bool;
  filed : VideoFrame;
  new_feedback_stream : bool;
  previous_frame_id : Z;
  filing_drops : Z;
}.
#[export] Instance eta_Filing : Eta Filing := fun r =>
  Build_Filing (clocks r) (filed_movie r) (filed r) (new_feedback_stream r) (previous_frame_id r) (filing_drops r).

(** Where the thread is: between messages; before the clock of the source is
    looked at; having found it set back; at the head of the loop that makes room;
    before a token is sent; with the frame queued; having set the flag; having
    started the wait; before the report. *)
Inductive FilingPoint := Noting | Regressed | Evicting | Tokening | Queued | Flagged | Waiting | Reporting.
Inductive Receiver := Receiving | Filed_at (p : FilingPoint) (f : Filing).

(** [vf.frame_id > previous_received_frame_id], on a stream already known *)
Definition regresses (f : Filing) (t : VideoThread) : bool :=
  negb (new_feedback_stream f) && (previous_frame_id f <? frame_id (filed f))
  && movie_source_clock_regressed (previous_frame_id f) (filed f) (newest_capture_time_ms t) && filed_movie f.

(** [newest_capture_time_ms] is stored. *)
Definition note_newest (f : Filing) (t : VideoThread) : VideoThread :=
  if new_feedback_stream f || regresses f t then t <| newest_capture_time_ms := capture_time_ms (filed f) |>
  else if previous_frame_id f <? frame_id (filed f) then t <| newest_capture_time_ms ::= Z.max (capture_time_ms (filed f)) |>
  else t.

(** The next action of the thread: what it sends, where it is then, and the thread's
    state. *)
Definition receiver_action (c : Receiver) (t : VideoThread) : list Sent * Receiver * VideoThread :=
  match c with
  | Receiving => ([], Receiving, t)
  | Filed_at p f =>
      let r := clocks f in
      match p with
      | Noting => ([], Filed_at (if regresses f t then Regressed else Evicting) f, note_newest f t)
      | Regressed =>
          let t := t <| discard_queue := true |> in
          let '(due, last) := movie_video_refresh_due (at_refresh r) (movie_queue_refresh t) in
          (if due then [RefreshVideo (display (filed f))] else [], Filed_at Evicting f, t <| movie_queue_refresh := last |>)
      | Evicting =>
          if contains_key_frame (filed f) then ([], Filed_at Reporting f, t <| channel ::= fun c => c ++ [Keyframe (filed f)] |>)
          else if filed_movie f && (MOVIE_VIDEO_QUEUE_MAX_FRAMES <=? Z.of_nat (length (video_queue t))) then
            ([], Filed_at Evicting (f <| filing_drops ::= Z.add 1 |>), t <| video_queue ::= fun q => tail q |>)
          else
            let '(evicted, q) := force_push (filed f) (video_queue t) in
            ([], if is_some evicted then Filed_at Queued (f <| filing_drops ::= Z.add 1 |>) else Filed_at Tokening f, t <| video_queue := q |>)
      | Tokening => ([], Filed_at Queued f, t <| channel ::= fun c => c ++ [TakeFromQueue] |>)
      | Queued =>
          if 0 <? filing_drops f then
            if filed_movie f then ([], Filed_at Flagged f, t <| discard_queue := true |>)
            else ([RefreshVideo (display (filed f))], Filed_at Reporting f, t <| video_feedback ::= record_drops (filing_drops f) |>)
          else ([], Filed_at Reporting f, t)
      | Flagged => ([], Filed_at Waiting f, t <| movie_keyframe_wait ::= arm (at_drop r) |>)
      | Waiting =>
          let '(scoped, sent, t) := recover_movie_queue_drops r (display (filed f)) (filing_drops f) t in
          (sent ++ (if scoped then [] else [RefreshVideo (display (filed f))]), Filed_at Reporting f, t)
      | Reporting =>
          let t := t <| video_feedback ::= record_queue_depth (Z.of_nat (length (video_queue t))) |> in
          let '(sent, t) := send_video_feedback (at_report r) (new_feedback_stream f) t in
          (sent, Receiving, t)
      end
  end.

(** A message of the peer brings a frame. *)
Definition frame_received (r : Readings) (movie : bool) (vf : VideoFrame) (t : VideoThread) : Receiver * VideoThread :=
  let t := t <| movie_mode := movie |> in
  let previous := received_frame_id (video_feedback t) in
  let '(new_stream, fb) := record_received vf (video_feedback t) in
  (Filed_at Noting {| clocks := r; filed_movie := movie; filed := vf; new_feedback_stream := new_stream;
                      previous_frame_id := previous; filing_drops := 0 |},
   t <| video_feedback := fb |>).

(** ** The worker *)

Record TurnArgs := {
  turn_clocks : Readings;
  turn_session : SessionView;
  turn_display : Z;
  turn_submitted : VideoFrame -> bool;
}.

(** Where the worker is: between turns; before it receives a message; before it pops
    the queue; before it looks at the age of what it popped; having left that loop; having set the flag; having
    started the wait; before it reads the flag; with a keyframe received; with the
    flag cleared; with a frame to play. *)
Inductive TurnPoint :=
| Listening
| Popping (stale : Z)
| Checking (stale : Z) (vf : VideoFrame)
| Popped (stale : Z) (selected : option VideoFrame)
| StaleFlagged (stale : Z) (selected : option VideoFrame)
| StaleWaiting (stale : Z) (selected : option VideoFrame)
| Gating (selected : option VideoFrame)
| Finishing (vf : VideoFrame)
| Finished (vf : VideoFrame)
| Playing (vf : VideoFrame).
Inductive Turning := Looping | Turning_at (p : TurnPoint) (k : TurnArgs).

(** The next action of the worker; the second component is the frame that the
    worker decides to play, if it does. *)
Definition worker_action (c : Turning) (t : VideoThread) (w : Worker) : list Sent * option VideoFrame * Turning * VideoThread * Worker :=
  match c with
  | Looping => ([], None, Looping, t, w)
  | Turning_at p k =>
      let r := turn_clocks k in
      match p with
      | Listening =>
          match channel t with
          | [] => ([], None, Looping, t, w)
          | m :: c =>
              let t := t <| channel := c |> in
              match m with
              | Keyframe vf => ([], None, Turning_at (Finishing vf) k, t, w)
              | TakeFromQueue => ([], None, Turning_at (Popping 0) k, t, w)
              | _ => ([], None, Looping, t, control (turn_session k) m w)
              end
          end
      | Popping n =>
          match video_queue t with
          | [] => ([], None, Turning_at (Popped n None) k, t, w)
          | vf :: q => ([], None, Turning_at (Checking n vf) k, t <| video_queue := q |>, w)
          end
      | Checking n vf =>
          if movie_mode t && movie_video_frame_obsolete vf (newest_capture_time_ms t)
          then ([], None, Turning_at (Popping (n + 1)) k, t, w)
          else ([], None, Turning_at (Popped n (Some vf)) k, t, w)
      | Popped n o =>
          if 0 <? n then ([], None, Turning_at (StaleFlagged n o) k, t <| discard_queue := true |>, w)
          else ([], None, Turning_at (Gating o) k, t, w)
      | StaleFlagged n o => ([], None, Turning_at (StaleWaiting n o) k, t <| movie_keyframe_wait ::= arm (at_drop r) |>, w)
      | StaleWaiting n o =>
          let '(scoped, sent, t) := recover_movie_queue_drops r (turn_display k) n t in
          (sent ++ (if scoped then [] else [RefreshVideo (turn_display k)]), None, Turning_at (Gating o) k, t, w)
      | Gating o =>
          match o with
          | Some vf => if discard_queue t then ([], None, Looping, t, w) else ([], Some vf, Turning_at (Playing vf) k, t, w)
          | None => ([], None, Looping, t, w)
          end
      | Finishing vf => ([], Some vf, Turning_at (Finished vf) k, t <| discard_queue := false |>, w)
      | Finished vf => ([], None, Turning_at (Playing vf) k, t <| movie_keyframe_wait ::= keyframe_received |>, w)
      | Playing vf =>
          let '(sent, t, w) := play_frame r (turn_session k) (turn_submitted k) vf t w in
          (sent, None, Looping, t, w)
      end
  end.

(** ** Both *)

Record Threads := { receiver : Receiver; turning : Turning; shared : VideoThread; the_worker : Worker }.
#[export] Instance eta_Threads : Eta Threads := fun r => Build_Threads (receiver r) (turning r) (shared r) (the_worker r).
Definition started (activation stream : Z) : Threads :=
  {| receiver := Receiving; turning := Looping; shared := new_video_thread activation stream; the_worker := new_worker |}.

(** The thread of the connection receives a frame or a request of the user for a
    refresh, or goes on with a frame; the worker begins a turn, or goes on with it. *)
Inductive Action :=
| Receive (r : Readings) (movie : bool) (vf : VideoFrame)
| Refresh
| GoOn
| Begin (k : TurnArgs)
| Work.

(** What is sent, the frame that the worker decides to play, and the threads. *)
Definition act (a : Action) (s : Threads) : list Sent * option VideoFrame * Threads :=
  match a with
  | Receive r movie vf =>
      match receiver s with
      | Receiving => let '(c, t) := frame_received r movie vf (shared s) in ([], None, s <| receiver := c |> <| shared := t |>)
      | _ => ([], None, s)
      end
  | Refresh =>
      match receiver s with
      | Receiving => ([], None, s <| shared ::= fun t => t <| discard_queue := true |> |>)
      | _ => ([], None, s)
      end
  | GoOn => let '(sent, c, t) := receiver_action (receiver s) (shared s) in (sent, None, s <| receiver := c |> <| shared := t |>)
  | Begin k =>
      match turning s with
      | Looping =>
          let '(sent, t, w) := ask_if_due (turn_clocks k) (turn_display k) (shared s) (the_worker s) in
          (sent, None, s <| turning := Turning_at Listening k |> <| shared := t |> <| the_worker := w |>)
      | _ => ([], None, s)
      end
  | Work =>
      let '(sent, vf, c, t, w) := worker_action (turning s) (shared s) (the_worker s) in
      (sent, vf, s <| turning := c |> <| shared := t |> <| the_worker := w |>)
  end.

Fixpoint acts (l : list Action) (s : Threads) : Threads :=
  match l with [] => s | a :: l => acts l (act a s).2 end.
Fixpoint chosen (l : list Action) (s : Threads) : list VideoFrame :=
  match l with [] => [] | a :: l => option_list (act a s).1.2 ++ chosen l (act a s).2 end.
Fixpoint sends (l : list Action) (s : Threads) : list Sent :=
  match l with [] => [] | a :: l => (act a s).1.1 ++ sends l (act a s).2 end.

Lemma acts_app l1 l2 s : acts (l1 ++ l2) s = acts l2 (acts l1 s).
Proof. revert s; induction l1 as [|a l1 IH]; intros s; [done|apply IH]. Qed.

(** ** Undisturbed, the actions are the steps *)

(** A run of one thread's actions from where it is. *)
Inductive files_to : Receiver -> VideoThread -> list Sent -> Receiver -> VideoThread -> Prop :=
| files_here c t : files_to c t [] c t
| files_on c t sent c1 t1 sent' c2 t2 :
    receiver_action c t = (sent, c1, t1) -> files_to c1 t1 sent' c2 t2 -> files_to c t (sent ++ sent') c2 t2.

Inductive turns_to : Turning -> VideoThread -> Worker -> list Sent -> list VideoFrame -> Turning -> VideoThread -> Worker -> Prop :=
| turns_here c t w : turns_to c t w [] [] c t w
| turns_on c t w sent o c1 t1 w1 sent' vfs c2 t2 w2 :
    worker_action c t w = (sent, o, c1, t1, w1) -> turns_to c1 t1 w1 sent' vfs c2 t2 w2 ->
    turns_to c t w (sent ++ sent') (option_list o ++ vfs) c2 t2 w2.

Lemma files_trans c t s1 c1 t1 s2 c2 t2 :
  files_to c t s1 c1 t1 -> files_to c1 t1 s2 c2 t2 -> files_to c t (s1 ++ s2) c2 t2.
Proof. induction 1; [done|]; intros H2; rewrite <- app_assoc; econstructor; eauto. Qed.

Lemma files_one c t sent c1 t1 : receiver_action c t = (sent, c1, t1) -> files_to c t sent c1 t1.
Proof. intros H; rewrite <- (app_nil_r sent); econstructor; [exact H|constructor]. Qed.

(** The loop that makes room, and the push. *)
Lemma room_is_made f t : contains_key_frame (filed f) = false ->
  let '(dropped, u) := queue_delta (filed_movie f) (filed f) t in
  files_to (Filed_at Evicting f) t [] (Filed_at Queued (f <| filing_drops ::= Z.add (Z.of_nat (length dropped)) |>)) u.
Proof.
  intros Hk; unfold queue_delta; remember (movie_excess (filed_movie f) (video_queue t)) as n eqn:Hn.
  revert f t Hk Hn; induction n as [|n IH]; intros f t Hk Hn.
  - rewrite drop_0, take_0.
    assert (Hm : filed_movie f && (MOVIE_VIDEO_QUEUE_MAX_FRAMES <=? Z.of_nat (length (video_queue t))) = false).
    { unfold movie_excess, MOVIE_VIDEO_QUEUE_MAX_FRAMES in *; destruct (filed_movie f); [|done]; cbn in *; lia. }
    destruct (force_push (filed f) (video_queue t)) as [[e|] q] eqn:Ep; cbn [is_none option_list].
    + apply files_one; cbn; rewrite Hk, Hm, Ep; done.
    + eapply (files_on _ _ [] _ _ []); [cbn; rewrite Hk, Hm, Ep; cbn; reflexivity|].
      apply files_one; by destruct f.
  - assert (Hm : filed_movie f && (MOVIE_VIDEO_QUEUE_MAX_FRAMES <=? Z.of_nat (length (video_queue t))) = true).
    { unfold movie_excess, MOVIE_VIDEO_QUEUE_MAX_FRAMES in *; destruct (filed_movie f); [|done]; cbn in *; lia. }
    destruct (video_queue t) as [|x q] eqn:Eq; [unfold movie_excess in Hn; destruct (filed_movie f); done|].
    specialize (IH (f <| filing_drops ::= Z.add 1 |>) (t <| video_queue ::= fun q => tail q |>)); cbn in IH; rewrite Eq in IH; cbn in IH.
    specialize (IH Hk); cbn [drop take app length].
    assert (Hn' : n = movie_excess (filed_movie f) q) by (unfold movie_excess in *; destruct (filed_movie f); cbn in *; lia).
    specialize (IH Hn'); destruct (force_push (filed f) (drop n q)) as [e q'].
    eapply (files_on _ _ [] _ _ []); [cbn; rewrite Hk, Eq; cbn in Hm |- *; rewrite Hm; reflexivity|].
    cbn [length app].
    replace (f <| filing_drops ::= Z.add (Z.of_nat (S (length (take n q ++ option_list e)))) |>)
      with (f <| filing_drops ::= Z.add 1 |> <| filing_drops ::= Z.add (Z.of_nat (length (take n q ++ option_list e))) |>)
      by (destruct f; cbn; f_equal; lia).
    exact IH.
Qed.

(** What follows when the frame is queued: [file_frame] is the push and the
    steps after it. *)
Lemma frame_is_filed f t : filing_drops f = 0 ->
  exists f', files_to (Filed_at Evicting f) t (file_frame (clocks f) (filed_movie f) (filed f) t).1 (Filed_at Reporting f')
               (file_frame (clocks f) (filed_movie f) (filed f) t).2 /\
  clocks f' = clocks f /\ new_feedback_stream f' = new_feedback_stream f.
Proof.
  intros H0; unfold file_frame; destruct (contains_key_frame (filed f)) eqn:Hk.
  { exists f; split; [|done]; apply files_one; cbn; by rewrite Hk. }
  pose proof (room_is_made f t Hk) as Hr; destruct (queue_delta (filed_movie f) (filed f) t) as [dropped u].
  set (f' := f <| filing_drops ::= Z.add (Z.of_nat (length dropped)) |>) in *; exists f'; split; [|done].
  assert (Hn : filing_drops f' = Z.of_nat (length dropped)) by (unfold f'; cbn; lia).
  change (filed_movie f) with (filed_movie f'); change (filed f) with (filed f'); change (clocks f) with (clocks f').
  clearbody f'; clear Hk; rewrite <- Hn; eapply (files_trans _ _ [] _ _ _ _ _ Hr); destruct (0 <? filing_drops f') eqn:Ed.
  - destruct (filed_movie f') eqn:Em; [|apply files_one; cbn; by rewrite Ed, Em].
    eapply (files_on _ _ [] _ _ _); [cbn; rewrite Ed, Em; reflexivity|].
    eapply (files_on _ _ [] _ _ _); [cbn; reflexivity|].
    apply files_one; cbn; unfold recover_drops, start_movie_keyframe_wait; cbn.
    by destruct (recover_movie_queue_drops _ _ _ _) as [[scoped sent] v].
  - apply files_one; cbn; by rewrite Ed.
Qed.

(** The clock of the source. *)
Lemma capture_time_is_noted f t :
  let '(sent, u) := note_capture_time (clocks f) (filed_movie f) (new_feedback_stream f) (previous_frame_id f) (filed f) t in
  files_to (Filed_at Noting f) t sent (Filed_at Evicting f) u.
Proof.
  unfold note_capture_time; destruct (new_feedback_stream f) eqn:En.
  { apply files_one; cbn; unfold note_newest, regresses; by rewrite En. }
  destruct (previous_frame_id f <? frame_id (filed f)) eqn:Ep.
  2: { apply files_one; cbn; unfold note_newest, regresses; by rewrite En, Ep. }
  destruct (_ && _) eqn:Er.
  2: { apply files_one; cbn; unfold note_newest, regresses; by rewrite En, Ep; cbn; rewrite Er. }
  destruct (movie_video_refresh_due _ _) as [due last] eqn:Em; cbn in Em.
  eapply (files_on _ _ [] _ _ _); [cbn; unfold note_newest, regresses; rewrite En, Ep; cbn; rewrite Er; reflexivity|].
  apply files_one; cbn; by rewrite Em.
Qed.

(** [video_arrived], undisturbed. *)
Lemma filing_to r movie vf t :
  let '(c, u) := frame_received r movie vf t in
  files_to c u (video_arrived r movie vf t).1 Receiving (video_arrived r movie vf t).2.
Proof.
  unfold frame_received, video_arrived; cbn [video_feedback set_field].
  match goal with |- context [record_received vf ?k] => destruct (record_received vf k) as [ns fb] end.
  match goal with |- files_to (Filed_at Noting ?f0) ?t0 _ _ _ => set (f := f0); set (u := t0) end.
  pose proof (capture_time_is_noted f u) as Hn; cbn in Hn |- *.
  destruct (note_capture_time _ _ _ _ _ _) as [s1 t1].
  destruct (frame_is_filed f t1 eq_refl) as (f' & Hf & Hc & Hs); cbn in Hf, Hc, Hs.
  destruct (file_frame r movie vf t1) as [s2 t2]; cbn [fst snd] in Hf.
  destruct (send_video_feedback _ _ _) as [s3 t3] eqn:E3; cbn [fst snd].
  eapply files_trans; [exact Hn|]; eapply files_trans; [exact Hf|].
  apply files_one; cbn; rewrite Hc, Hs; by rewrite E3.
Qed.

Lemma turns_trans c t w s1 l1 c1 t1 w1 s2 l2 c2 t2 w2 :
  turns_to c t w s1 l1 c1 t1 w1 -> turns_to c1 t1 w1 s2 l2 c2 t2 w2 -> turns_to c t w (s1 ++ s2) (l1 ++ l2) c2 t2 w2.
Proof. induction 1; [done|]; intros H2; rewrite <- !app_assoc; econstructor; eauto. Qed.

Lemma turns_one c t w sent o c1 t1 w1 : worker_action c t w = (sent, o, c1, t1, w1) -> turns_to c t w sent (option_list o) c1 t1 w1.
Proof. intros H; rewrite <- (app_nil_r sent), <- (app_nil_r (option_list o)); econstructor; [exact H|constructor]. Qed.

(** An action that sends and plays nothing. *)
Lemma turns_quietly c t w c1 t1 w1 sent vfs c2 t2 w2 :
  worker_action c t w = ([], None, c1, t1, w1) -> turns_to c1 t1 w1 sent vfs c2 t2 w2 -> turns_to c t w sent vfs c2 t2 w2.
Proof. apply turns_on. Qed.

(** The loop that takes a frame off the queue. *)
Lemma frame_is_selected k n t w :
  let '(stale, o, q) := select_frame (movie_mode t) (newest_capture_time_ms t) (video_queue t) in
  turns_to (Turning_at (Popping n) k) t w [] [] (Turning_at (Popped (n + Z.of_nat (length stale)) o) k) (t <| video_queue := q |>) w.
Proof.
  remember (video_queue t) as q eqn:Eq; revert t n Eq; induction q as [|vf q IH]; intros t n Eq; cbn [select_frame].
  - apply (turns_one _ _ _ [] None); cbn; rewrite <- Eq, Z.add_0_r; destruct t; cbn in *; by subst.
  - specialize (IH (t <| video_queue := q |>) (n + 1) eq_refl); cbn [movie_mode newest_capture_time_ms set_field] in IH.
    destruct (movie_mode t && movie_video_frame_obsolete vf (newest_capture_time_ms t)) eqn:Eo.
    + change (movie_mode (set_field video_queue (fun _ => q) t)) with (movie_mode t) in IH.
      change (newest_capture_time_ms (set_field video_queue (fun _ => q) t)) with (newest_capture_time_ms t) in IH.
      destruct (select_frame (movie_mode t) _ q) as [[stale o] q']; cbn [length].
      replace (n + Z.of_nat (S (length stale))) with (n + 1 + Z.of_nat (length stale)) by lia.
      eapply turns_quietly; [cbn; rewrite <- Eq; reflexivity|].
      eapply turns_quietly; [|exact IH]; cbn; by rewrite Eo.
    + eapply turns_quietly; [cbn; rewrite <- Eq; reflexivity|].
      apply (turns_one _ _ _ [] None); cbn; by rewrite Eo, Z.add_0_r.
Qed.

(** A token: up to the decision. *)
Lemma delta_is_taken k t w : exists sent u,
  turns_to (Turning_at (Popping 0) k) t w sent [] (Turning_at (Gating (select_frame (movie_mode t) (newest_capture_time_ms t) (video_queue t)).1.2) k) u w /\
  take_delta (turn_clocks k) (turn_display k) t =
    (sent, if discard_queue u then None else (select_frame (movie_mode t) (newest_capture_time_ms t) (video_queue t)).1.2, u).
Proof.
  pose proof (frame_is_selected k 0 t w) as Hs; unfold take_delta; destruct (select_frame _ _ _) as [[stale o] q]; cbn [fst snd].
  rewrite Z.add_0_l in Hs; set (n := Z.of_nat (length stale)) in *; set (u := t <| video_queue := q |>) in *.
  destruct (0 <? n) eqn:En.
  - destruct (recover_drops (turn_clocks k) (turn_display k) n u) as [sent v] eqn:Er; exists sent, v; split; [|done].
    eapply (turns_trans _ _ _ [] []); [exact Hs|].
    eapply turns_quietly; [cbn; rewrite En; reflexivity|]; eapply turns_quietly; [reflexivity|].
    eapply (turns_one _ _ _ sent None); revert Er; unfold recover_drops, start_movie_keyframe_wait; cbn.
    destruct (recover_movie_queue_drops _ _ _ _) as [[scoped s2] v2]; by intros [= <- <-].
  - exists [], u; split; [|done]; eapply (turns_trans _ _ _ [] []); [exact Hs|].
    apply (turns_one _ _ _ [] None); cbn; by rewrite En.
Qed.

(** A frame decided on is played. *)
Lemma frame_is_played k vf t w :
  let '(sent, u, w') := play_frame (turn_clocks k) (turn_session k) (turn_submitted k) vf t w in
  turns_to (Turning_at (Playing vf) k) t w sent [] Looping u w'.
Proof. destruct (play_frame _ _ _ _ _ _) as [[sent u] w'] eqn:E; apply (turns_one _ _ _ sent None); cbn; by rewrite E. Qed.

(** [worker_turn], undisturbed, once it has begun. *)
Lemma turn_to k t w m c : channel t = m :: c ->
  let t' := t <| channel := c |> in
  let '(sent, u, w') := handle_media (turn_clocks k) (turn_session k) (turn_display k) (turn_submitted k) m t' w in
  turns_to (Turning_at Listening k) t w sent (option_list (take_media (turn_clocks k) (turn_display k) m t').1.2) Looping u w'.
Proof.
  intros Hc t'; unfold handle_media; destruct m as [|vf|data|sr ch|dims|start];
    try (apply (turns_one _ _ _ [] None); cbn; by rewrite Hc).
  - destruct (delta_is_taken k t' w) as (s1 & u & Ht & Hd); cbn [take_media]; rewrite Hd; cbn [fst snd].
    set (o := (select_frame _ _ _).1.2) in *.
    assert (Hl : turns_to (Turning_at Listening k) t w s1 [] (Turning_at (Gating o) k) u w).
    { eapply turns_quietly; [cbn; rewrite Hc; reflexivity|exact Ht]. }
    destruct (discard_queue u) eqn:Ed; [|destruct o as [vf|]].
    + cbn; rewrite <- (app_nil_r s1); eapply (turns_trans _ _ _ _ [] _ _ _ _ [] _ _ _ Hl).
      apply (turns_one _ _ _ [] None); cbn; destruct o; [by rewrite Ed|done].
    + pose proof (frame_is_played k vf u w) as Hp; destruct (play_frame _ _ _ _ _ _) as [[s2 u2] w2]; cbn.
      eapply (turns_trans _ _ _ _ [] _ _ _ _ [vf] _ _ _ Hl), (turns_on _ _ _ [] (Some vf) _ _ _ s2 []); [|exact Hp].
      cbn; by rewrite Ed.
    + cbn; rewrite <- (app_nil_r s1); eapply (turns_trans _ _ _ _ [] _ _ _ _ [] _ _ _ Hl).
      by apply (turns_one _ _ _ [] None).
  - cbn [take_media fst snd]; pose proof (frame_is_played k vf (finish_movie_keyframe_wait t') w) as Hp.
    destruct (play_frame _ _ _ _ _ _) as [[s2 u2] w2]; cbn.
    eapply turns_quietly; [cbn; rewrite Hc; reflexivity|].
    eapply (turns_on _ _ _ [] (Some vf) _ _ _ s2 []); [reflexivity|]; eapply turns_quietly; [reflexivity|exact Hp].
Qed.

Lemma files_acts c t sent c' t' : files_to c t sent c' t' -> forall s, receiver s = c -> shared s = t ->
  exists l, acts l s = s <| receiver := c' |> <| shared := t' |> /\ sends l s = sent /\ chosen l s = [].
Proof.
  induction 1 as [c t|c t sent c1 t1 sent' c2 t2 Ha _ IH]; intros s <- <-; [exists []; by destruct s|].
  destruct (IH (s <| receiver := c1 |> <| shared := t1 |>)) as (l & H1 & H2 & H3); [done|done|].
  exists (GoOn :: l); cbn [acts sends chosen act]; rewrite Ha; cbn [fst snd option_list app].
  by rewrite H1, H2, H3.
Qed.

Lemma turns_acts c t w sent vfs c' t' w' : turns_to c t w sent vfs c' t' w' ->
  forall s, turning s = c -> shared s = t -> the_worker s = w ->
  exists l, acts l s = s <| turning := c' |> <| shared := t' |> <| the_worker := w' |> /\ sends l s = sent /\ chosen l s = vfs.
Proof.
  induction 1 as [c t w|c t w sent o c1 t1 w1 sent' vfs c2 t2 w2 Ha _ IH]; intros s <- <- <-; [exists []; by destruct s|].
  destruct (IH (s <| turning := c1 |> <| shared := t1 |> <| the_worker := w1 |>)) as (l & H1 & H2 & H3); [done..|].
  exists (Work :: l); cbn [acts sends chosen act]; rewrite Ha; cbn [fst snd option_list app].
  by rewrite H1, H2, H3.
Qed.

(** Both threads between their steps. *)
Definition at_rest (s : VideoThread * Worker) : Threads :=
  {| receiver := Receiving; turning := Looping; shared := s.1; the_worker := s.2 |}.

Lemma step_is_actions e s : exists l,
  acts l (at_rest s) = at_rest (step e s).2 /\ sends l (at_rest s) = (step e s).1 /\ chosen l (at_rest s) = option_list (step_frame e s).
Proof.
  destruct s as [t w], e as [r movie vf|r session d submitted|]; cbn [step step_frame]; [| |by exists [Refresh]].
  - pose proof (filing_to r movie vf t) as Hf; destruct (frame_received r movie vf t) as [c u] eqn:Ec.
    destruct (files_acts _ _ _ _ _ Hf (at_rest (t, w) <| receiver := c |> <| shared := u |>)) as (l & H1 & H2 & H3); [done|done|].
    exists (Receive r movie vf :: l); cbn [acts sends chosen act receiver at_rest shared fst].
    rewrite Ec; cbn [fst snd option_list app]; change (Receiving) with (receiver (at_rest (t, w))).
    destruct (video_arrived r movie vf t) as [sent t']; cbn in *; by rewrite H1, H2, H3.
  - set (k := {| turn_clocks := r; turn_session := session; turn_display := d; turn_submitted := submitted |}).
    unfold worker_turn, turn_frame; destruct (ask_if_due r d t w) as [[s1 t1] w1] eqn:Ea.
    assert (Hc : channel t1 = channel t /\ t1 = t <| movie_keyframe_wait := (fallback_due (at_fallback r) (movie_keyframe_wait t)).2 |>).
    { revert Ea; unfold ask_if_due; set (x := match video_handler w with Some _ => _ | None => _ end); destruct x as [s2 w2].
      destruct (fallback_due _ _) as [due wait]; by intros [= _ <- _]. }
    destruct Hc as [Hc Ht]; set (s' := at_rest (t, w) <| turning := Turning_at Listening k |> <| shared := t1 |> <| the_worker := w1 |>).
    assert (Hb : act (Begin k) (at_rest (t, w)) = (s1, None, s')) by (cbn; by rewrite Ea).
    cbn [fst]; rewrite Hc; destruct (channel t) as [|m c] eqn:Em.
    + exists [Begin k; Work]; cbn [acts sends chosen]; rewrite Hb; cbn; rewrite Hc; cbn; by rewrite app_nil_r.
    + pose proof (turn_to k t1 w1 m c Hc) as Hf; cbv zeta in Hf; cbn [turn_clocks turn_session turn_display turn_submitted k] in Hf.
      rewrite <- Ht; destruct (handle_media _ _ _ _ _ _ _) as [[s2 t2] w2].
      destruct (turns_acts _ _ _ _ _ _ _ _ Hf s' eq_refl eq_refl eq_refl) as (l & H1 & H2 & H3).
      exists (Begin k :: l); cbn [acts sends chosen]; rewrite Hb; cbn [fst snd option_list app]; by rewrite H1, H2, H3.
Qed.

Lemma sends_app l1 l2 s : sends (l1 ++ l2) s = sends l1 s ++ sends l2 (acts l1 s).
Proof. revert s; induction l1 as [|a l1 IH]; intros s; [done|]; cbn; by rewrite IH, app_assoc. Qed.
Lemma chosen_app l1 l2 s : chosen (l1 ++ l2) s = chosen l1 s ++ chosen l2 (acts l1 s).
Proof. revert s; induction l1 as [|a l1 IH]; intros s; [done|]; cbn; by rewrite IH, app_assoc. Qed.

(** The steps of ViewerPlayback.v are the interleavings in which the threads do not
    disturb each other: they do, send and play the same. *)
Theorem steps_are_actions l s : exists l',
  acts l' (at_rest s) = at_rest (steps l s) /\ sends l' (at_rest s) = sent_by l s /\ chosen l' (at_rest s) = played l s.
Proof.
  revert s; induction l as [|e l IH]; intros s; [by exists []|].
  destruct (step_is_actions e s) as (l1 & A1 & S1 & C1), (IH (step e s).2) as (l2 & A2 & S2 & C2).
  exists (l1 ++ l2); rewrite acts_app, sends_app, chosen_app, A1, S1, C1; cbn; by rewrite A2, S2, C2.
Qed.

(** ** After a drop *)

(** The channel carries keyframes besides tokens, and so does the worker's hand;
    the count of a turn is not negative. *)
Definition sound_threads (s : Threads) : Prop :=
  keyframes_only (channel (shared s)) /\
  match turning s with
  | Turning_at (Finishing vf) _ => contains_key_frame vf = true
  | Turning_at (Popping n | Checking n _ | Popped n _) _ => 0 <= n
  | _ => True
  end.

(** The worker has dropped frames and not set the flag yet. *)
Definition has_dropped (c : Turning) : bool :=
  match c with Turning_at (Popping n | Checking n _ | Popped n _) _ => 0 <? n | _ => false end.

(** The thread of the connection has dropped frames and not set the flag yet. *)
Definition has_evicted (c : Receiver) : bool :=
  match c with
  | Filed_at (Evicting | Tokening | Queued) f => filed_movie f && negb (contains_key_frame (filed f)) && (0 <? filing_drops f)
  | _ => false
  end.

(** A frame that is dropped in movie mode: by the worker as too old, by the thread
    of the connection to make room. *)
Definition drops_stale (a : Action) (s : Threads) : bool :=
  match a, turning s with
  | Work, Turning_at (Checking _ vf) _ => movie_mode (shared s) && movie_video_frame_obsolete vf (newest_capture_time_ms (shared s))
  | _, _ => false
  end.
Definition evicts (a : Action) (s : Threads) : bool :=
  match a, receiver s with
  | GoOn, Filed_at Evicting f =>
      filed_movie f && negb (contains_key_frame (filed f)) &&
      ((MOVIE_VIDEO_QUEUE_MAX_FRAMES <=? Z.of_nat (length (video_queue (shared s)))) || is_some (force_push (filed f) (video_queue (shared s))).1)
  | _, _ => false
  end.

Definition keyframe_first (l : list VideoFrame) : Prop :=
  match head l with None => True | Some vf => contains_key_frame vf = true end.

Lemma recover_movie_queue_drops_core r d n t :
  files (recover_movie_queue_drops r d n t).2 = files t /\ discard_queue (recover_movie_queue_drops r d n t).2 = discard_queue t.
Proof.
  unfold recover_movie_queue_drops, send_video_feedback; destruct (take_due_at _ _ _).
  destruct (movie_queue_reference_refresh _ _ _); [|done]; by destruct (movie_video_refresh_due _ _).
Qed.

Lemma keyframes_only_app c m : keyframes_only c -> match m with Keyframe vf => contains_key_frame vf = true | _ => True end ->
  keyframes_only (c ++ [m]).
Proof. intros Hc Hm; apply Forall_app; split; [done|]; by constructor. Qed.

(** The connection's thread never takes from the channel and never clears the flag. *)
Lemma receiver_action_keeps c t :
  let u := (receiver_action c t).2 in
  (keyframes_only (channel t) -> keyframes_only (channel u)) /\ (discard_queue t = true -> discard_queue u = true).
Proof.
  destruct c as [|[] f]; cbn [receiver_action]; [done|..]; cbv zeta.
  - unfold note_newest; destruct (_ || _); [done|]; by destruct (previous_frame_id f <? _).
  - by destruct (movie_video_refresh_due _ _).
  - destruct (contains_key_frame (filed f)) eqn:Ek; [split; [intros H; by apply keyframes_only_app|done]|].
    destruct (_ && _); [done|]; by destruct (force_push _ _) as [[] q].
  - split; [intros H; by apply keyframes_only_app|done].
  - destruct (0 <? filing_drops f), (filed_movie f); done.
  - done.
  - pose proof (recover_movie_queue_drops_core (clocks f) (display (filed f)) (filing_drops f) t) as [Hf Hd].
    destruct (recover_movie_queue_drops _ _ _ _) as [[scoped sent] u]; cbn in *; injection Hf as _ ->; by rewrite Hd.
  - match goal with |- context [send_video_feedback ?n ?b ?k] =>
      destruct (send_video_feedback_core n b k) as [Hf Hg]; destruct (send_video_feedback n b k) as [sent u] end.
    cbn in *; injection Hf as _ ->; injection Hg as -> _; done.
Qed.

Lemma frame_received_keeps r movie vf t :
  channel (frame_received r movie vf t).2 = channel t /\ discard_queue (frame_received r movie vf t).2 = discard_queue t.
Proof. unfold frame_received; by destruct (record_received _ _). Qed.

Lemma ask_if_due_keeps r d t w :
  channel (ask_if_due r d t w).1.2 = channel t /\ discard_queue (ask_if_due r d t w).1.2 = discard_queue t.
Proof.
  unfold ask_if_due; set (x := match video_handler w with Some _ => _ | None => _ end); destruct x as [s1 w1].
  by destruct (fallback_due _ _).
Qed.

(** The worker's next action keeps its hand and the channel sound; it decides on
    nothing while it has dropped frames; with the flag set it decides on a keyframe,
    or the flag stays. *)
Lemma worker_action_keeps s : sound_threads s ->
  let '(_, o, c, u, _) := worker_action (turning s) (shared s) (the_worker s) in
  sound_threads (s <| turning := c |> <| shared := u |>) /\
  (has_dropped (turning s) = true -> o = None /\ (has_dropped c = true \/ discard_queue u = true)) /\
  (discard_queue (shared s) = true -> match o with Some vf => contains_key_frame vf = true | None => discard_queue u = true end).
Proof.
  intros [Hk Ht]; destruct s as [rc tc t w]; unfold sound_threads in *; cbn [turning shared the_worker set_field] in *.
  destruct tc as [|[] k]; cbn [worker_action]; cbv zeta; try (split_and!; done).
  - destruct (channel t) as [|m c] eqn:Ec; [split_and!; try done; cbn; by rewrite Ec|].
    apply Forall_cons in Hk as [Hm Hk]; destruct m; split_and!; try done; cbn; lia.
  - destruct (video_queue t) as [|vf q]; split_and!; try done; cbn; auto.
  - cbn [has_dropped]; destruct (_ && _); split_and!; try done; cbn; try lia; split; [done|left; lia|done|auto].
  - destruct (0 <? stale) eqn:En; split_and!; try done; cbn; rewrite ?En; auto; done.
  - pose proof (recover_movie_queue_drops_core (turn_clocks k) (turn_display k) stale t) as [Hf Hd].
    destruct (recover_movie_queue_drops _ _ _ _) as [[scoped sent] u]; cbn in *; injection Hf as _ ->; split_and!; try done; by rewrite Hd.
  - destruct selected as [vf|]; [|split_and!; done]; destruct (discard_queue t) eqn:Ed; split_and!; done.
  - pose proof (play_frame_core (turn_clocks k) (turn_session k) (turn_submitted k) vf t w) as [Hf Hg].
    destruct (play_frame _ _ _ _ _ _) as [[sent u] w']; cbn in *; injection Hf as _ ->; injection Hg as -> _; done.
Qed.

Lemma nothing_keeps s : sound_threads s ->
  sound_threads s /\
  (has_dropped (turning s) = true -> None = @None VideoFrame /\ (has_dropped (turning s) = true \/ discard_queue (shared s) = true)) /\
  (discard_queue (shared s) = true -> discard_queue (shared s) = true).
Proof. auto. Qed.

Lemma act_keeps a s : sound_threads s ->
  sound_threads (act a s).2 /\
  (has_dropped (turning s) = true -> (act a s).1.2 = None /\ (has_dropped (turning (act a s).2) = true \/ discard_queue (shared (act a s).2) = true)) /\
  (discard_queue (shared s) = true ->
   match (act a s).1.2 with Some vf => contains_key_frame vf = true | None => discard_queue (shared (act a s).2) = true end).
Proof.
  intros Hs; destruct a as [r movie vf| | |k|]; cbn [act].
  - destruct (receiver s); [|exact (nothing_keeps s Hs)]; pose proof (frame_received_keeps r movie vf (shared s)) as [Hc Hd].
    destruct (frame_received _ _ _ _) as [c u]; destruct Hs as [Hk Ht]; cbn in *.
    split_and!; [unfold sound_threads; cbn; by rewrite Hc|auto|by rewrite Hd].
  - destruct (receiver s); [|exact (nothing_keeps s Hs)]; destruct Hs as [Hk Ht]; split_and!; [done|cbn; auto|done].
  - pose proof (receiver_action_keeps (receiver s) (shared s)) as [Hc Hd].
    destruct (receiver_action _ _) as [[sent c] u]; destruct Hs as [Hk Ht]; cbn in *.
    split_and!; [split; cbn; auto|auto|auto].
  - destruct (turning s) eqn:Et; [|rewrite <- Et; exact (nothing_keeps s Hs)]; pose proof (ask_if_due_keeps (turn_clocks k) (turn_display k) (shared s) (the_worker s)) as [Hc Hd].
    destruct (ask_if_due _ _ _ _) as [[sent u] w]; destruct Hs as [Hk Ht]; cbn in *.
    split_and!; [split; cbn; [by rewrite Hc|done]|done|by rewrite Hd].
  - pose proof (worker_action_keeps s Hs) as H; by destruct (worker_action _ _ _) as [[[[sent o] c] u] w].
Qed.

Lemma sound_acts l activation stream : sound_threads (acts l (started activation stream)).
Proof.
  assert (H : sound_threads (started activation stream)) by (split; [constructor|done]).
  revert H; generalize (started activation stream) as s; induction l as [|a l IH]; intros s H; [done|]; by apply IH, act_keeps.
Qed.

Lemma flagged_chosen l s : sound_threads s -> has_dropped (turning s) = true \/ discard_queue (shared s) = true -> keyframe_first (chosen l s).
Proof.
  revert s; induction l as [|a l IH]; intros s Hs Hf; [done|]; destruct (act_keeps a s Hs) as (Hs' & Hd & Hq); cbn [chosen].
  destruct Hf as [Hf|Hf]; [destruct (Hd Hf) as [-> Hf']; by apply IH|].
  specialize (Hq Hf); destruct (act a s).1.2 as [vf|]; [done|]; apply IH; auto.
Qed.

(** A thread of the connection that has dropped frames sets the flag before it is
    done. *)
Lemma evicted_go_on s : has_evicted (receiver s) = true ->
  has_evicted (receiver (act GoOn s).2) = true \/ discard_queue (shared (act GoOn s).2) = true.
Proof.
  cbn [act]; destruct (receiver s) as [|[] f]; cbn [has_evicted]; try done; intros H;
    apply andb_true_iff in H as [[Hm Hk]%andb_true_iff Hn]; apply Z.ltb_lt in Hn.
  - cbn [receiver_action]; rewrite Hm; destruct (contains_key_frame (filed f)) eqn:Ek; [done|]; cbn [andb].
    destruct (_ <=? _); [left; cbn; rewrite Hm, Ek; cbn; lia|].
    destruct (force_push _ _) as [[e|] q]; left; cbn; rewrite Hm, Ek; cbn; lia.
  - left; cbn; rewrite Hm, Hk; cbn; lia.
  - right; cbn; by rewrite (proj2 (Z.ltb_lt _ _) Hn), Hm.
Qed.

Lemma evicted_marks l s : sound_threads s -> has_evicted (receiver s) = true -> receiver (acts l s) = Receiving ->
  exists l1 l2, l = l1 ++ l2 /\ forall l3, keyframe_first (chosen l3 (acts l1 s)).
Proof.
  revert s; induction l as [|a l IH]; intros s Hs He Hr; [cbn in Hr; by rewrite Hr in He|].
  destruct (act_keeps a s Hs) as (Hs' & _); cbn [acts] in Hr.
  assert (H : has_evicted (receiver (act a s).2) = true \/ discard_queue (shared (act a s).2) = true).
  { destruct a; [| |by apply evicted_go_on| |]; left; cbn [act].
    - revert He; by destruct (receiver s) eqn:E; cbn; rewrite ?E.
    - revert He; by destruct (receiver s) eqn:E; cbn; rewrite ?E.
    - destruct (turning s); [|done]; by destruct (ask_if_due _ _ _ _) as [[? ?] ?].
    - by destruct (worker_action _ _ _) as [[[[? ?] ?] ?] ?]. }
  destruct H as [H|H]; [destruct (IH _ Hs' H Hr) as (l1 & l2 & -> & Hl); by exists (a :: l1), l2|].
  exists [a], l; split; [done|]; intros l3; apply flagged_chosen; auto.
Qed.

(** The count of a filing is not negative. *)
Definition drops_counted (c : Receiver) : Prop := match c with Filed_at _ f => 0 <= filing_drops f | Receiving => True end.

Lemma counted_acts l activation stream : drops_counted (receiver (acts l (started activation stream))).
Proof.
  assert (H : drops_counted (receiver (started activation stream))) by done.
  revert H; generalize (started activation stream) as s; induction l as [|a l IH]; intros s H; [done|]; apply IH; clear IH.
  destruct a; cbn [act].
  - destruct (receiver s) eqn:E; [|cbn; by rewrite E]; unfold frame_received; destruct (record_received _ _); cbn; lia.
  - destruct (receiver s) eqn:E; cbn; by rewrite E.
  - destruct (receiver s) as [|p f]; [done|]; destruct p; cbn [receiver_action drops_counted] in *; repeat case_match; simplify_eq; cbn; try done; lia.
  - by destruct (turning s); [destruct (ask_if_due _ _ _ _) as [[? ?] ?]|].
  - by destruct (worker_action _ _ _) as [[[[? ?] ?] ?] ?].
Qed.

(** C12. Frames dropped in movie mode, however the two threads interleave.  When the
    worker drops one as too old, the next frame it decides to play holds a keyframe;
    when the thread of the connection drops one to make room, then from a moment
    before it is done with the frame it files the next one decided on holds a keyframe.
    Until that moment the worker may take another: [worker_slips_through].  The
    keyframe may be one that was waiting already: [old_keyframe_ends_the_wait]. *)
Theorem dropped_frames_await_keyframe before activation stream a l :
  let s := acts before (started activation stream) in
  let s' := (act a s).2 in
  (drops_stale a s = true -> keyframe_first (chosen l s')) /\
  (evicts a s = true -> receiver (acts l s') = Receiving ->
   exists l1 l2, l = l1 ++ l2 /\ forall l3, keyframe_first (chosen l3 (acts l1 s'))).
Proof.
  intros s s'; assert (Hs : sound_threads s) by apply sound_acts; destruct (act_keeps a s Hs) as (Hs' & _).
  assert (Hn : drops_counted (receiver s)) by apply counted_acts.
  split.
  - intros Hd; apply flagged_chosen; [done|]; left; subst s'; destruct Hs as [_ Ht].
    destruct a; try done; unfold drops_stale in Hd; cbn [act]; destruct (turning s) as [|[] k]; try done.
    cbn [worker_action]; cbn in Ht |- *; rewrite Hd; cbn; lia.
  - intros He; apply evicted_marks; [done|]; subst s'; destruct a; try done; cbn [evicts act] in *.
    destruct (receiver s) as [|[] f]; try done; cbn [receiver_action].
    cbn in Hn; apply andb_true_iff in He as [[Em Ek]%andb_true_iff He]; rewrite Em.
    destruct (contains_key_frame (filed f)) eqn:Ek'; [done|]; cbn [andb]; apply orb_true_iff in He; revert He.
    destruct (_ <=? _); [intros _; cbn; rewrite Em, Ek'; cbn; lia|].
    destruct (force_push _ _) as [[e|] q]; intros He; cbn in *; [rewrite Em, Ek'; cbn; lia|naive_solver].
Qed.

End Actions.

(** ** Between a drop and its mark

    The queue is popped and pushed before the flag is set (io_loop.rs, the arm for a
    delta frame), and the worker does not wait. *)

#[local] Existing Instance recording_decoder.

Definition turn_args : TurnArgs :=
  {| turn_clocks := readings 0; turn_session := session_view; turn_display := 0; turn_submitted := fun _ => true |}.

(** A frame of movie mode is received and filed; the worker takes a turn. *)
Definition filed_key (n : Z) : list Action := Receive (readings 0) true (frame true n) :: repeat GoOn 4.
Definition filed_delta (n : Z) : list Action := Receive (readings 0) true (frame false n) :: repeat GoOn 8.
Definition worker_turns (n : nat) : list Action := mjoin (repeat (Begin turn_args :: repeat Work 8) n).

(** The queue is full of the frames 2 to 9 when frame 10 arrives: frame 2 is dropped
    for it. *)
Definition full_queue : list Action := filed_key 1 ++ worker_turns 1 ++ mjoin (filed_delta <$> [2; 3; 4; 5; 6; 7; 8; 9]).
Definition makes_room : list Action := [Receive (readings 0) true (frame false 10); GoOn; GoOn].

(** The worker plays frame 3, which refers to the dropped frame 2, before the thread
    of the connection has marked the drop; undisturbed, nothing but the next keyframe
    is played. *)
Theorem worker_slips_through :
  frame_id <$> chosen (full_queue ++ makes_room ++ worker_turns 1 ++ repeat GoOn 7 ++ worker_turns 9 ++ filed_key 11 ++ worker_turns 2) (started 1 1) = [1; 3; 11] /\
  frame_id <$> chosen (full_queue ++ makes_room ++ repeat GoOn 7 ++ worker_turns 10 ++ filed_key 11 ++ worker_turns 2) (started 1 1) = [1; 11].
Proof. vm_compute. split; reflexivity. Qed.

(** ** Witness *)

Lemma dropped_frames_await_keyframe_witness :
  let before := full_queue ++ [Receive (readings 0) true (frame false 10); GoOn] in
  let l := repeat GoOn 8 ++ worker_turns 3 ++ filed_key 11 ++ worker_turns 10 in
  let s' := (act GoOn (acts before (started 1 1))).2 in
  (evicts GoOn (acts before (started 1 1)) = true /\ receiver (acts l s') = Receiving /\ frame_id <$> chosen l s' = [11]) /\
  exists l1 l2, l = l1 ++ l2 /\ forall l3, keyframe_first (chosen l3 (acts l1 s')).
Proof.
  intros before l s'; assert (He : evicts GoOn (acts before (started 1 1)) = true) by (vm_compute; reflexivity).
  assert (Hr : receiver (acts l s') = Receiving) by (vm_compute; reflexivity).
  split; [split; [exact He|split; [exact Hr|vm_compute; reflexivity]]|].
  exact (proj2 (dropped_frames_await_keyframe before 1 1 GoOn l) He Hr).
Defined.
