(* ===== verification/ViewerFps.v ===== *)
(** * The frame rate the viewer asks for

    Models [fps_control] (src/src/client/io_loop.rs): once a second the viewer
    compares how fast it decodes with how far its queues have grown, asks the host
    for another frame rate when it must, and asks for a fresh picture where the
    queue has grown too long.  The threads of the displays are those of
    ViewerPlayback.v.  The map of displays is visited in the order of its keys; the
    code's order is that of a hash map, and no step looks at another display.
    Logging is left out. *)

From S2P Require Import Prelude VideoFeedback ViewerPlayback.

(** What [fps_control] reads and writes of the configuration of the session. *)
Record FpsConfig := {
  image_quality_custom : bool;
  fps_mode_fixed : bool;
  custom_fps_setting : option Z;
  last_auto_fps : option Z;
}.
#[export] Instance eta_FpsConfig : Eta FpsConfig := fun r =>
  Build_FpsConfig (image_quality_custom r) (fps_mode_fixed r) (custom_fps_setting r) (last_auto_fps r).

Abbreviation threads := (gmap Z VideoThread).

Definition inactive_threshold : Z := 15.

(** A display that showed nothing in the last second counts up. *)
Definition note_activity (real_fps : gmap Z Z) (display : Z) (t : VideoThread) : VideoThread :=
  if unwrap_or (real_fps !! display) 0 =? 0
  then t <| fps_control ::= fun c => c <| inactive_counter ::= Z.add 1 |> |>
  else t <| fps_control ::= fun c => c <| inactive_counter := 0 |> |>.

Definition custom_fps_of (cfg : FpsConfig) : Z :=
  let fps := if image_quality_custom cfg then unwrap_or (custom_fps_setting cfg) 30 else 30 in
  if (fps <? 5) || (120 <? fps) then 30 else fps.

Definition queue_len (t : VideoThread) : Z := Z.of_nat (length (video_queue t)).

Definition values (m : threads) : list VideoThread := (map_to_list m).*2.

Definition max_queue_len (m : threads) : Z := foldr Z.max 0 (queue_len <$> values m).

(** [Option<usize>::min]: [None] is the least. *)
Definition option_min (a b : option Z) : option Z :=
  match a, b with Some x, Some y => Some (Z.min x y) | _, _ => None end.

(** [.min().flatten()] of the decoding rates of the displays that are active. *)
Definition min_decode_fps (m : threads) : option Z :=
  match decode_fps <$> filter (fun t => inactive_counter (fps_control t) < inactive_threshold) (values m) with
  | [] => None
  | x :: l => foldr option_min x l
  end.

Definition limited_fps (direct : bool) (min_fps custom_fps : Z) : Z :=
  let limited := if direct then min_fps * 9 / 10 else min_fps * 4 / 5 in
  if custom_fps <? limited then custom_fps else limited.

(** [fps_trending]: [Some false] is too fast, [Some true] could be faster. *)
Definition fps_trending (limited custom_fps : Z) (last : option Z) (t : VideoThread) : option bool * VideoThread :=
  match decode_fps t with
  | None => (None, t)
  | Some fps =>
      let len := queue_len t in
      let last := unwrap_or last custom_fps in
      let set_idle n := t <| fps_control ::= fun c => c <| idle_counter := n |> |> in
      let idle := idle_counter (fps_control t) in
      if inactive_threshold <? inactive_counter (fps_control t) then (None, t)
      else if (1 <? len) && (limited <? last) || (Z.max 1 (fps / 2) <? len) then (Some false, set_idle 0)
      else if len <=? 1 then
        (if (3 <? idle + 1) && (last + 3 <=? limited) then Some true else None, set_idle (idle + 1))
      else (None, set_idle 0)
  end.

Definition decide_auto_fps (limited max_len : Z) (last : option Z) (trendings : list (option bool)) : Z * bool :=
  let should_decrease := existsb (fun v => bool_decide (v = Some false)) trendings in
  let should_increase := negb should_decrease && existsb (fun v => bool_decide (v = Some true)) trendings in
  let auto_fps := if should_decrease && (limited <? max_len) then limited / 2 else limited in
  let auto_fps := if auto_fps <? 1 then 1 else auto_fps in
  (auto_fps, (is_none last || should_decrease || should_increase) && negb (bool_decide (Some auto_fps = last))).

Definition VIDEO_QUEUE_CAPACITY : Z := VIDEO_QUEUE_SIZE.

(** A display whose queue has grown beyond what is tolerable. *)
Definition refresh_if_late (now : instant) (min_fps display : Z) (t : VideoThread) : list Sent * VideoThread :=
  let ctl := fps_control t in
  let tolerable := Z.min min_fps (VIDEO_QUEUE_CAPACITY / 2) in
  if (refresh_times ctl <? 20) && ((tolerable <? queue_len t)
      && ((refresh_times ctl =? 0) || match last_refresh_instant ctl with Some at_ => 10 <? since now at_ / 1000000000 | None => false end))
  then ([RefreshVideo display],
        t <| fps_control ::= fun c => c <| refresh_times ::= Z.add 1 |> <| last_refresh_instant := Some now |> |>)
  else ([], t).

(** What is sent: a request for a frame rate, and those of the displays. *)
Inductive FpsSent := SetCustomFps (fps : Z) | Refresh (display : Z).

Definition adapt (direct : bool) (min_fps custom_fps : Z) (cfg : FpsConfig) (m : threads) : list FpsSent * FpsConfig * threads :=
  let limited := limited_fps direct min_fps custom_fps in
  let trendings := (fun t => (fps_trending limited custom_fps (last_auto_fps cfg) t).1) <$> values m in
  let m := (fun t => (fps_trending limited custom_fps (last_auto_fps cfg) t).2) <$> m in
  let '(auto_fps, send) := decide_auto_fps limited (max_queue_len m) (last_auto_fps cfg) trendings in
  if send then ([SetCustomFps auto_fps], cfg <| last_auto_fps := Some auto_fps |>, m) else ([], cfg, m).

Definition fps_control_step (direct : bool) (real_fps : gmap Z Z) (now : instant) (cfg : FpsConfig) (m : threads)
    : list FpsSent * FpsConfig * threads :=
  let m := map_imap (fun d t => Some (note_activity real_fps d t)) m in
  if existsb movie_mode (values m) then ([], cfg, m)
  else
    match min_decode_fps m with
    | None => ([], cfg, m)
    | Some min_fps =>
        let fixed := image_quality_custom cfg && fps_mode_fixed cfg in
        let '(sent, cfg, m) := if fixed then ([], cfg, m) else adapt direct min_fps (custom_fps_of cfg) cfg m in
        let late := map_imap (fun d t => Some (refresh_if_late now min_fps d t)) m in
        (sent ++ mjoin ((fun '(d, (s, _)) => match s with [] => [] | _ => [Refresh d] end) <$> map_to_list late), cfg, snd <$> late)
    end.

(** ** The bounds of what is asked for *)

Lemma custom_fps_bounds cfg : 5 <= custom_fps_of cfg <= 120.
Proof. unfold custom_fps_of; destruct (_ || _) eqn:E; [lia|]; use_bools; lia. Qed.

Lemma limited_fps_bounds direct f c : 0 <= f -> 0 <= c -> 0 <= limited_fps direct f c <= c /\ limited_fps direct f c <= f.
Proof.
  intros Hf Hc; unfold limited_fps; destruct direct; destruct (Z.ltb_spec c (f * 9 / 10)); destruct (Z.ltb_spec c (f * 4 / 5));
    pose proof (Z.div_pos (f * 9) 10); pose proof (Z.div_pos (f * 4) 5);
    pose proof (Z.div_le_upper_bound (f * 9) 10 f); pose proof (Z.div_le_upper_bound (f * 4) 5 f); lia.
Qed.

Lemma decide_auto_fps_bounds limited n last l : 0 <= limited -> 1 <= (decide_auto_fps limited n last l).1 <= Z.max 1 limited.
Proof.
  intros Hl; unfold decide_auto_fps; cbn; set (a := if _ && _ then limited / 2 else limited).
  assert (Ha : 0 <= a <= limited) by (unfold a; destruct (_ && _); [split; [apply Z.div_pos|apply Z.div_le_upper_bound]; lia|lia]).
  destruct (Z.ltb_spec a 1); cbn; lia.
Qed.

(** Every display's decoding rate and queue are at least zero. *)
Definition rates_ok (m : threads) : Prop := map_Forall (fun _ t => match decode_fps t with Some f => 0 <= f | None => True end) m.

Lemma elem_of_values t m : t ∈ values m <-> exists d, m !! d = Some t.
Proof.
  unfold values; rewrite list_elem_of_fmap; split.
  - intros ([d u] & -> & H); exists d; by apply elem_of_map_to_list.
  - intros [d H]; exists (d, t); split; [done|]; by apply elem_of_map_to_list.
Qed.

Lemma option_min_spec a b m : option_min a b = Some m ->
  exists x y, a = Some x /\ b = Some y /\ m = Z.min x y.
Proof. destruct a as [x|], b as [y|]; try done; intros [= <-]; by exists x, y. Qed.

Lemma foldr_option_min x l m : foldr option_min x l = Some m ->
  Some m ∈ x :: l /\ Forall (fun o => exists y, o = Some y /\ m <= y) (x :: l).
Proof.
  revert m; induction l as [|o l IH]; intros m; cbn; [intros ->; split; [set_solver|]; repeat constructor; exists m; split; [done|lia]|].
  intros (y & z & -> & Hz & ->)%option_min_spec; destruct (IH z Hz) as [Hin Hall].
  apply Forall_cons in Hall as [(x0 & -> & Hx) Hall]; split.
  - destruct (Z.min_spec y z) as [[_ ->]|[_ ->]]; set_solver.
  - constructor; [exists x0; split; [done|lia]|]; constructor; [exists y; split; [done|lia]|].
    eapply Forall_impl; [exact Hall|]; intros o (w & -> & Hw); exists w; split; [done|lia].
Qed.

(** The rate is that of the slowest active display, all of which have one. *)
Lemma min_decode_fps_spec m f : min_decode_fps m = Some f ->
  (exists t, t ∈ values m /\ decode_fps t = Some f) /\
  forall t, t ∈ values m -> inactive_counter (fps_control t) < inactive_threshold -> exists g, decode_fps t = Some g /\ f <= g.
Proof.
  unfold min_decode_fps; set (l := filter _ _); destruct l as [|t0 l'] eqn:El; cbn; [done|].
  intros H; apply foldr_option_min in H as [Hin Hall]; rewrite <- fmap_cons, <- El in Hin, Hall; subst l; split.
  - apply list_elem_of_fmap in Hin as (t & Ht & Hin); apply list_elem_of_filter in Hin as [_ Hin]; by exists t.
  - intros t Ht Ha; clear Hin; rewrite Forall_fmap, Forall_forall in Hall; apply Hall, list_elem_of_filter; done.
Qed.

(** The displays keep their decoding rates and their state of movie mode. *)
Lemma note_activity_same real_fps d t : decode_fps (note_activity real_fps d t) = decode_fps t /\ video_queue (note_activity real_fps d t) = video_queue t.
Proof. unfold note_activity; by destruct (_ =? 0). Qed.

Lemma SetCustomFps_refresh f (l : list (Z * (list Sent * VideoThread))) :
  SetCustomFps f ∉ mjoin ((fun '(d, (s, _)) => match s with [] => [] | _ => [Refresh d] end) <$> l).
Proof.
  intros H; apply list_elem_of_join in H as (k & Hk & H); apply list_elem_of_fmap in H as ((d & s & t) & -> & _).
  destruct s; set_solver.
Qed.

(** What is asked for is the decision of [adapt], for the threads as they are then. *)
Lemma asked_by_adapt direct real_fps now cfg m f :
  SetCustomFps f ∈ (fps_control_step direct real_fps now cfg m).1.1 ->
  let m' := map_imap (fun d t => Some (note_activity real_fps d t)) m in
  existsb movie_mode (values m') = false /\ image_quality_custom cfg && fps_mode_fixed cfg = false /\
  exists min_fps, min_decode_fps m' = Some min_fps /\
    SetCustomFps f ∈ (adapt direct min_fps (custom_fps_of cfg) cfg m').1.1 /\
    (fps_control_step direct real_fps now cfg m).1.2 = (adapt direct min_fps (custom_fps_of cfg) cfg m').1.2.
Proof.
  unfold fps_control_step; cbn zeta; set (m' := map_imap _ m); destruct (existsb movie_mode _); [set_solver|].
  destruct (min_decode_fps m') as [min_fps|]; [|set_solver]; intros H; split; [done|].
  destruct (image_quality_custom cfg && fps_mode_fixed cfg); [by apply SetCustomFps_refresh in H|]; split; [done|]; exists min_fps; split; [done|].
  destruct (adapt direct min_fps (custom_fps_of cfg) cfg m') as [[sent cfg'] m2]; cbn in *; split; [|done].
  apply elem_of_app in H as [H|H]; [done|]; by apply SetCustomFps_refresh in H.
Qed.

Lemma adapt_asks direct min_fps c cfg m f : SetCustomFps f ∈ (adapt direct min_fps c cfg m).1.1 ->
  exists n l, f = (decide_auto_fps (limited_fps direct min_fps c) n (last_auto_fps cfg) l).1 /\
    last_auto_fps cfg <> Some f /\ last_auto_fps (adapt direct min_fps c cfg m).1.2 = Some f.
Proof.
  unfold adapt; set (m2 := _ <$> m); set (l := _ <$> values m); destruct (decide_auto_fps _ _ _ _) as [a send] eqn:E; intros H.
  destruct send; cbn in H; [|set_solver]; apply list_elem_of_singleton in H as [= ->].
  exists (max_queue_len m2), l; rewrite E; split; [done|]; split; [|done].
  unfold decide_auto_fps in E; injection E as <- Hs; apply andb_true_iff in Hs as [_ Hs]; apply negb_true_iff, bool_decide_eq_false in Hs; congruence.
Qed.

(** C15. The rate the host is asked for is never more than the viewer can use: at least
    one frame a second, at most what the user allows (120), nine tenths of what each
    active display decodes; it differs from the rate asked for last, which it
    replaces, and none is asked for while a display is in movie mode or the rate is
    fixed. *)
Theorem asked_fps_is_bounded direct real_fps now cfg m f : rates_ok m ->
  SetCustomFps f ∈ (fps_control_step direct real_fps now cfg m).1.1 ->
  1 <= f <= custom_fps_of cfg /\ f <= 120 /\ last_auto_fps cfg <> Some f /\
  last_auto_fps (fps_control_step direct real_fps now cfg m).1.2 = Some f /\
  image_quality_custom cfg && fps_mode_fixed cfg = false /\
  forall d t, m !! d = Some t -> movie_mode t = false /\
    (inactive_counter (fps_control (note_activity real_fps d t)) < inactive_threshold ->
     exists g, decode_fps t = Some g /\ f <= Z.max 1 (g * 9 / 10)).
Proof.
  intros Hok H; apply asked_by_adapt in H as (Hmovie & Hfixed & min_fps & Hmin & H & ->).
  apply adapt_asks in H as (n & l & -> & Hne & Hlast); set (lim := limited_fps direct min_fps (custom_fps_of cfg)) in *.
  pose proof (custom_fps_bounds cfg) as Hc; apply min_decode_fps_spec in Hmin as [(t0 & Ht0 & Hf0) Hmin].
  assert (H0 : 0 <= min_fps).
  { apply elem_of_values in Ht0 as [d Hd]; rewrite map_lookup_imap in Hd; destruct (m !! d) as [t1|] eqn:E; [|done]; cbn in Hd.
    injection Hd as <-; rewrite (proj1 (note_activity_same real_fps d t1)) in Hf0; pose proof (Hok d t1 E) as Hg; cbn in Hg; by rewrite Hf0 in Hg. }
  destruct (limited_fps_bounds direct min_fps (custom_fps_of cfg)) as [Hl1 Hl2]; [lia..|].
  pose proof (decide_auto_fps_bounds lim n (last_auto_fps cfg) l (proj1 Hl1)) as Hb; fold lim in Hl1, Hl2.
  split_and!; try done; try lia; intros d t Hd; split.
  - apply not_true_iff_false; intros Hm; apply not_true_iff_false in Hmovie; apply Hmovie, existsb_exists; exists (note_activity real_fps d t); split.
    + apply list_elem_of_In, elem_of_values; exists d; by rewrite map_lookup_imap, Hd.
    + unfold note_activity; by destruct (_ =? 0).
  - intros Ha; destruct (Hmin (note_activity real_fps d t)) as (g & Hg & Hle); [apply elem_of_values; exists d; by rewrite map_lookup_imap, Hd|done|].
    rewrite (proj1 (note_activity_same real_fps d t)) in Hg; exists g; split; [done|].
    assert (Hlim : lim <= g * 9 / 10).
    { unfold lim, limited_fps; destruct direct.
      - pose proof (Z.div_le_mono (min_fps * 9) (g * 9) 10); destruct (Z.ltb_spec (custom_fps_of cfg) (min_fps * 9 / 10)); lia.
      - assert (min_fps * 4 / 5 <= g * 9 / 10) by (apply Z.div_le_lower_bound; [lia|]; pose proof (Z.mul_div_le (min_fps * 4) 5); lia).
        destruct (Z.ltb_spec (custom_fps_of cfg) (min_fps * 4 / 5)); lia. }
    lia.
Qed.

(** ** A rate that need not change is not asked for again *)

Definition short (m : threads) : Prop := map_Forall (fun _ t => queue_len t <= 1) m.

Lemma trending_short limited c last t : queue_len t <= 1 ->
  (fps_trending limited c last t).1 <> Some false.
Proof.
  unfold fps_trending; intros Hq; destruct (decode_fps t) as [fps|]; [|done]; destruct (inactive_threshold <? _); [done|].
  replace (1 <? queue_len t) with false by lia; replace (Z.max 1 (fps / 2) <? queue_len t) with false by lia; cbn.
  replace (queue_len t <=? 1) with true by lia; cbn; by destruct (_ && _).
Qed.

Lemma decide_short limited n last l : Forall (fun v => v <> Some false) l ->
  (decide_auto_fps limited n last l).1 = Z.max 1 limited.
Proof.
  intros Hl; unfold decide_auto_fps; cbn.
  assert (Hd : existsb (fun v => bool_decide (v = Some false)) l = false).
  { apply not_true_iff_false; intros (v & Hv & Hb)%existsb_exists; rewrite Forall_forall in Hl; apply (Hl v); [by apply list_elem_of_In|by apply bool_decide_eq_true in Hb]. }
  rewrite Hd; cbn; destruct (Z.ltb_spec limited 1); lia.
Qed.

Lemma values_fmap (f : VideoThread -> VideoThread) (m : threads) t : t ∈ values (f <$> m) -> exists u, u ∈ values m /\ t = f u.
Proof. intros [d H]%elem_of_values; rewrite lookup_fmap in H; destruct (m !! d) as [u|] eqn:E; [|done]; cbn in H; injection H as <-; exists u; split; [|done]; apply elem_of_values; by exists d. Qed.

(** While the queues stay short, the rate asked for is the one the viewer can
    decode, and it is not asked for twice: asked again in the same conditions, the
    viewer sends nothing. *)
Theorem fps_request_settles direct min_fps c cfg m cfg' m' f : short m -> short m' ->
  SetCustomFps f ∈ (adapt direct min_fps c cfg m).1.1 -> cfg' = (adapt direct min_fps c cfg m).1.2 ->
  f = Z.max 1 (limited_fps direct min_fps c) /\ (adapt direct min_fps c cfg' m').1.1 = [].
Proof.
  set (lim := limited_fps direct min_fps c); intros Hm Hm' Hf ->.
  assert (Hshort : forall cfg m n, short m -> (decide_auto_fps lim n (last_auto_fps cfg) ((fun t => (fps_trending lim c (last_auto_fps cfg) t).1) <$> values m)).1 = Z.max 1 lim).
  { clear; intros cfg m n Hm; apply decide_short.
    apply Forall_fmap, Forall_forall; intros t [d Hd]%elem_of_values; by apply trending_short, (Hm d t Hd). }
  assert (Hval : f = Z.max 1 lim /\ last_auto_fps (adapt direct min_fps c cfg m).1.2 = Some f).
  { revert Hf; unfold adapt; fold lim; specialize (Hshort cfg m (max_queue_len ((fun t => (fps_trending lim c (last_auto_fps cfg) t).2) <$> m)) Hm).
    destruct (decide_auto_fps _ _ _ _) as [a send]; cbn in Hshort; destruct send; cbn; [|set_solver].
    intros Hf; apply list_elem_of_singleton in Hf as [= ->]; done. }
  destruct Hval as [-> Hlast]; split; [done|].
  revert Hlast; generalize (adapt direct min_fps c cfg m).1.2 as cfg'; intros cfg' Hlast.
  unfold adapt; fold lim; specialize (Hshort cfg' m' (max_queue_len ((fun t => (fps_trending lim c (last_auto_fps cfg') t).2) <$> m')) Hm').
  unfold decide_auto_fps in *; cbn in *; rewrite Hshort, Hlast, bool_decide_true by done; cbn; by rewrite andb_false_r.
Qed.

(** ** Requests for a fresh picture are few *)

(** One display over time: each second its queue is looked at. *)
Fixpoint late_refreshes (l : list (instant * Z * list VideoFrame)) (t : VideoThread) : list instant :=
  match l with
  | [] => []
  | (now, min_fps, q) :: l =>
      let '(sent, t) := refresh_if_late now min_fps 0 (t <| video_queue := q |>) in
      match sent with [] => late_refreshes l t | _ => now :: late_refreshes l t end
  end.

Definition spaced (l : list instant) : Prop := forall k a b, l !! k = Some a -> l !! S k = Some b -> a + from_secs 11 <= b.

Lemma refresh_if_late_cases now f d t :
  refresh_if_late now f d t = ([], t) \/
  refresh_times (fps_control t) < 20 /\ (refresh_times (fps_control t) = 0 \/ exists at_, last_refresh_instant (fps_control t) = Some at_ /\ at_ + from_secs 11 <= now) /\
  refresh_if_late now f d t = ([RefreshVideo d], t <| fps_control ::= fun c => c <| refresh_times ::= Z.add 1 |> <| last_refresh_instant := Some now |> |>).
Proof.
  unfold refresh_if_late; destruct (_ && _) eqn:E; [right|by left].
  apply andb_true_iff in E as [E1 E]; apply andb_true_iff in E as [_ E]; split; [lia|split; [|done]].
  apply orb_true_iff in E as [E|E]; [left; lia|right].
  destruct (last_refresh_instant _) as [at_|]; [|done]; exists at_; split; [done|].
  unfold since, from_secs in *; pose proof (Z.mul_div_le (Z.max (now - at_) 0) 1000000000); lia.
Qed.

Lemma late_refreshes_spec l t : 0 <= refresh_times (fps_control t) <= 20 ->
  Z.of_nat (length (late_refreshes l t)) <= 20 - refresh_times (fps_control t) /\
  spaced (late_refreshes l t) /\
  (0 < refresh_times (fps_control t) -> forall at_ now, last_refresh_instant (fps_control t) = Some at_ -> head (late_refreshes l t) = Some now -> at_ + from_secs 11 <= now).
Proof.
  revert t; induction l as [|[[now f] q] l IH]; intros t Ht; [cbn; split; [lia|done]|]; cbn [late_refreshes].
  destruct (refresh_if_late_cases now f 0 (t <| video_queue := q |>)) as [->|(H20 & Hsp & ->)]; [match goal with |- context [late_refreshes l ?k] => apply (IH k Ht) end|]; cbn in *.
  match goal with |- context [late_refreshes l ?k] => destruct (IH k) as (Hn & Hs & Hh) end; cbn in *; [lia|]; split_and!; [lia| |].
  - intros [|k] a b Ha Hb; cbn in *; [|by eapply Hs]; injection Ha as <-; apply (Hh ltac:(lia) now b); [done|by rewrite head_lookup].
  - intros Hpos at_ n Hat [= <-]; destruct Hsp as [H0|(a & Ha & Hle)]; [lia|]; congruence.
Qed.

(** The viewer asks for a fresh picture of a display at most twenty times, and
    leaves eleven seconds between two requests. *)
Theorem late_refreshes_are_few l activation stream :
  (length (late_refreshes l (new_video_thread activation stream)) <= 20)%nat /\ spaced (late_refreshes l (new_video_thread activation stream)).
Proof. destruct (late_refreshes_spec l (new_video_thread activation stream)) as (H & Hs & _); cbn in *; [lia|]; split; [lia|done]. Qed.

(** ** Witness *)

(** Two displays that decode 60 and 40 frames a second, the first two frames
    behind: nine tenths of the slower are asked for. *)
Definition two_displays : threads :=
  let t := new_video_thread 1 1 in
  let vf := {| display := 0; stream_id := 1; frame_id := 1; capture_time_ms := 0; union := true; format := VP9; has_keyframe := false |} in
  {[ 0 := t <| decode_fps := Some 60 |> <| video_queue := [vf; vf] |>; 1 := t <| decode_fps := Some 40 |> ]}.
Definition some_config : FpsConfig :=
  {| image_quality_custom := true; fps_mode_fixed := false; custom_fps_setting := Some 60; last_auto_fps := Some 60 |}.

Lemma asked_fps_is_bounded_witness :
  let m := two_displays in
  (rates_ok m /\ SetCustomFps 36 ∈ (fps_control_step true {[ 0 := 30; 1 := 30 ]} 0 some_config m).1.1) /\
  1 <= 36 <= custom_fps_of some_config /\ 36 <= 120 /\ last_auto_fps some_config <> Some 36 /\
  last_auto_fps (fps_control_step true {[ 0 := 30; 1 := 30 ]} 0 some_config m).1.2 = Some 36 /\
  image_quality_custom some_config && fps_mode_fixed some_config = false /\
  forall d t, m !! d = Some t -> movie_mode t = false /\
    (inactive_counter (fps_control (note_activity {[ 0 := 30; 1 := 30 ]} d t)) < inactive_threshold ->
     exists g, decode_fps t = Some g /\ 36 <= Z.max 1 (g * 9 / 10)).
Proof.
  intros m; assert (Hr : rates_ok m).
  { intros d t Hd; unfold m, two_displays in Hd; apply lookup_insert_Some in Hd as [[<- <-]|[_ Hd]]; [vm_compute; discriminate|].
    apply lookup_singleton_Some in Hd as [<- <-]; vm_compute; discriminate. }
  assert (Hs : SetCustomFps 36 ∈ (fps_control_step true {[ 0 := 30; 1 := 30 ]} 0 some_config m).1.1) by (vm_compute; apply list_elem_of_here).
  split; [split; [exact Hr|exact Hs]|]; exact (asked_fps_is_bounded true {[ 0 := 30; 1 := 30 ]} 0 some_config m 36 Hr Hs).
Defined.
