(* ===== verification/PcmAudio.v ===== *)
(** * Sound captured by the host

    Models the way of captured sound to the encoder: the bounded queue of samples
    ([PcmQueue], src/libs/scrap/src/common/pcm.rs), the framer that cuts it into the
    10 ms frames of Opus ([CapturedPcmFramer]), the hand-over from the callback of
    the device to the worker that encodes ([CaptureSender], [CaptureReceiver]), and
    the gate that stops sending silence ([send_f32]; all three in
    src/src/server/audio_service.rs).

    A sample is of any type with a test for zero, an interleaved stream a list.  The
    resampler, the conversion of channels and Opus are functions that the framer and
    the sender are given. *)

From S2P Require Import Prelude.

Class Sample (A : Type) := is_zero : A -> bool.

(** [&input[..input.len() / channels * channels]] *)
Definition whole {A} (channels : nat) (l : list A) : list A := take (length l / channels * channels) l.

Section Pcm.
Context {A : Type}.

(** ** [PcmQueue] *)

Record PcmQueue := {
  samples : list A;
  channels : nat;
  capacity : nat;
  dropped_samples : N;
}.
#[export] Instance eta_PcmQueue : Eta PcmQueue := fun r => Build_PcmQueue (samples r) (channels r) (capacity r) (dropped_samples r).

Definition new_queue (chans capacity : nat) : PcmQueue :=
  let chans := Nat.max chans 1 in
  {| samples := []; channels := chans; capacity := Nat.max (capacity / chans) 1 * chans; dropped_samples := 0 |}.

Definition clear (q : PcmQueue) : PcmQueue := q <| samples := [] |>.

Definition push (input : list A) (q : PcmQueue) : PcmQueue :=
  let input := whole (channels q) input in
  if (capacity q <? length input)%nat then
    q <| dropped_samples ::= N.add (N.of_nat (length (samples q) + length input - capacity q)) |>
      <| samples := drop (length input - capacity q) input |>
  else
    let overflow := (length (samples q) + length input - capacity q)%nat in
    let q := if (0 <? overflow)%nat
             then q <| samples ::= drop overflow |> <| dropped_samples ::= N.add (N.of_nat overflow) |>
             else q in
    q <| samples ::= fun l => l ++ input |>.

Definition pop_exact (requested : nat) (q : PcmQueue) : option (list A) * PcmQueue :=
  if (requested =? 0)%nat || (length (samples q) <? requested)%nat then (None, q)
  else (Some (take requested (samples q)), q <| samples ::= drop requested |>).

(** [push_ne_bytes]: four bytes make a sample. *)
Fixpoint chunks_exact {B} (fuel n : nat) (l : list B) : list (list B) :=
  match fuel with
  | O => []
  | S fuel => if (length l <? n)%nat then [] else take n l :: chunks_exact fuel n (drop n l)
  end.
Definition push_ne_bytes (from_ne_bytes : list Byte.byte -> A) (bytes : list Byte.byte) (q : PcmQueue) : nat * PcmQueue :=
  let frame_bytes := (4 * channels q)%nat in
  let n := (length bytes / frame_bytes * frame_bytes)%nat in
  ((length bytes - n)%nat, push (from_ne_bytes <$> chunks_exact (length bytes) 4 (take n bytes)) q).

(** ** The framer *)

Definition opus_sample_rate (device_rate : Z) : Z :=
  if device_rate <=? 11999 then 8000
  else if device_rate <=? 15999 then 12000
  else if device_rate <=? 23999 then 16000
  else if device_rate <=? 31999 then 24000
  else 48000.

(** [frame] is kept by its length; [resampler_state] is the resampler's. *)
Record CapturedPcmFramer (R : Type) := {
  resampler_state : R;
  frames : PcmQueue;
  frame_len : nat;
  sample_rate : Z;
  device_channels : Z;
  encode_channels : Z;
}.
#[global] Arguments resampler_state {R}.
#[global] Arguments frames {R}.
#[global] Arguments frame_len {R}.
#[global] Arguments sample_rate {R}.
#[global] Arguments device_channels {R}.
#[global] Arguments encode_channels {R}.
#[export] Instance eta_CapturedPcmFramer R : Eta (CapturedPcmFramer R) := fun r =>
  Build_CapturedPcmFramer R (resampler_state r) (frames r) (frame_len r) (sample_rate r) (device_channels r) (encode_channels r).

Section Framer.
Context {R : Type} (new_resampler : Z -> Z -> Z -> R) (process : R -> list A -> list A * R)
  (audio_rechannel : list A -> Z -> Z -> Z -> Z -> list A).

Definition new_framer (device_rate device_channels sample_rate encode_channels : Z) : CapturedPcmFramer R :=
  let channels := Z.to_nat (Z.max encode_channels 1) in
  {| resampler_state := new_resampler device_rate sample_rate device_channels;
     frames := new_queue (Z.to_nat encode_channels) (Z.to_nat sample_rate * channels);
     frame_len := Z.to_nat (sample_rate / 100) * channels;
     sample_rate := sample_rate; device_channels := device_channels; encode_channels := encode_channels |}.

(** [while self.frames.pop_exact(&mut self.frame)]: at most one turn for each
    queued sample. *)
Fixpoint pop_frames (fuel len : nat) (q : PcmQueue) : list (list A) * PcmQueue :=
  match fuel with
  | O => ([], q)
  | S fuel =>
      match pop_exact len q with
      | (Some frame, q) => let '(l, q) := pop_frames fuel len q in (frame :: l, q)
      | (None, q) => ([], q)
      end
  end.

Definition framer_push (input : list A) (f : CapturedPcmFramer R) : list (list A) * CapturedPcmFramer R :=
  let '(resampled, r) := process (resampler_state f) input in
  let data := if device_channels f =? encode_channels f then resampled
              else audio_rechannel resampled (sample_rate f) (sample_rate f) (device_channels f) (encode_channels f) in
  let q := push data (frames f) in
  let '(emitted, q) := pop_frames (length (samples q)) (frame_len f) q in
  (emitted, f <| resampler_state := r |> <| frames := q |>).

End Framer.

(** ** The hand-over *)

(** [chunks] and [recycled]: the two bounded channels. *)
Record Capture := {
  bound : nat;
  chunks : list (list A);
  recycled : list (list A);
  spare : option (list A);
  dropped : N;
  next_drop_report : N;
}.
#[export] Instance eta_Capture : Eta Capture := fun r => Build_Capture (bound r) (chunks r) (recycled r) (spare r) (dropped r) (next_drop_report r).

Definition capture_channel (capacity : nat) : Capture :=
  {| bound := capacity; chunks := []; recycled := []; spare := None; dropped := 0; next_drop_report := 1 |}.

(** A buffer is reused for its allocation only: it is cleared first. *)
Definition send (l : list A) (c : Capture) : Capture :=
  let c := match spare c with
           | Some _ => c <| spare := None |>
           | None => c <| recycled ::= tail |>
           end in
  if (length (chunks c) <? bound c)%nat then c <| chunks ::= fun q => q ++ [l] |>
  else c <| dropped ::= N.add 1 |> <| spare := Some l |>.

(** The chunk received, if any; the worker blocks on an empty channel. *)
Definition process_next (c : Capture) : option (list A) * Capture :=
  match chunks c with
  | [] => (None, c)
  | chunk :: q =>
      let c := c <| chunks := q |> in
      let c := if (length (recycled c) <? bound c)%nat then c <| recycled ::= fun l => l ++ [chunk] |> else c in
      (Some chunk, if (next_drop_report c <=? dropped c)%N then c <| next_drop_report := N.min (2 * dropped c) (Z.to_N u64_max) |> else c)
  end.

(** ** Silence *)

Definition MAX_AUDIO_ZERO_COUNT : Z := 800.

(** [send_f32] (but on Android): whether the frame is encoded, and
    [AUDIO_ZERO_COUNT]. *)
Definition zero_gate `{Sample A} (data : list A) (count : Z) : bool * Z :=
  if existsb (fun x => negb (is_zero x)) data then (true, 0)
  else if MAX_AUDIO_ZERO_COUNT <? count
  then (false, if count =? MAX_AUDIO_ZERO_COUNT + 1 then count + 1 else count)
  else (true, count + 1).

Definition send_f32 {E} `{Sample A} (encode_vec_float : E -> list A -> nat -> option (list Byte.byte) * E)
    (data : list A) (encoder : E) (count : Z) : option (list Byte.byte) * E * Z :=
  let '(encoded, count) := zero_gate data count in
  if encoded then let '(sent, encoder) := encode_vec_float encoder data (length data * 6)%nat in (sent, encoder, count)
  else (None, encoder, count).

End Pcm.

Arguments PcmQueue A : clear implicits.
Arguments Capture A : clear implicits.
Arguments CapturedPcmFramer A R : clear implicits.

Section Theory.
Context {A : Type}.
Implicit Types (q : PcmQueue A) (l : list A).

(** ** The queue is a window on the newest frames *)

(** The last [n] elements. *)
Definition newest (n : nat) l : list A := drop (length l - n) l.

Record wf q : Prop := {
  wf_channels : (0 < channels q)%nat;
  wf_capacity : (channels q | capacity q)%nat;
  wf_samples : (channels q | length (samples q))%nat;
  wf_bound : (length (samples q) <= capacity q)%nat;
}.

Lemma whole_length n l : length (whole n l) = (length l / n * n)%nat.
Proof. unfold whole; rewrite length_take; pose proof (Nat.Div0.mul_div_le (length l) n); lia. Qed.

Lemma whole_all n l : (0 < n)%nat -> (n | length l)%nat -> whole n l = l.
Proof. intros Hn [k Hk]; unfold whole; rewrite Hk, Nat.div_mul by lia; apply take_ge; lia. Qed.

Lemma newest_length n l : length (newest n l) = Nat.min n (length l).
Proof. unfold newest; rewrite length_drop; lia. Qed.

Lemma new_queue_wf chans cap : wf (new_queue (A := A) chans cap).
Proof.
  constructor; cbn; [lia| | |lia]; [by exists (Nat.max (cap / Nat.max chans 1) 1)|by exists 0%nat].
Qed.

Lemma push_samples input q : samples (push input q) = newest (capacity q) (samples q ++ whole (channels q) input).
Proof.
  unfold push, newest; rewrite length_app; set (i := whole _ _); destruct (Nat.ltb_spec (capacity q) (length i)) as [H|H];
    [|destruct (Nat.ltb_spec 0 (length (samples q) + length i - capacity q))]; cbn [samples set_field].
  - cbn; rewrite drop_app_ge by lia; f_equal; lia.
  - cbn; by rewrite drop_app_le by lia.
  - by replace (length (samples q) + length i - capacity q)%nat with 0%nat by lia.
Qed.

Lemma push_same input q : channels (push input q) = channels q /\ capacity (push input q) = capacity q.
Proof. unfold push; destruct (_ <? _)%nat; [done|]; by destruct (_ <? _)%nat. Qed.

Lemma push_dropped input q :
  dropped_samples (push input q) = (dropped_samples q + N.of_nat (length (samples q) + length (whole (channels q) input) - capacity q))%N.
Proof.
  unfold push; set (i := whole _ _); destruct (Nat.ltb_spec (capacity q) (length i));
    [|destruct (Nat.ltb_spec 0 (length (samples q) + length i - capacity q))]; cbn; lia.
Qed.

(** Pushing keeps the newest samples, whole frames of them, and counts what it
    drops: nothing is lost otherwise, and the queue never holds more than it may. *)
Theorem pcm_push_keeps_the_newest input q : wf q ->
  let q' := push input q in
  wf q' /\ samples q' = newest (capacity q) (samples q ++ whole (channels q) input) /\
  (dropped_samples q' + N.of_nat (length (samples q')) =
   dropped_samples q + N.of_nat (length (samples q)) + N.of_nat (length (whole (channels q) input)))%N.
Proof.
  intros [H0 H1 H2 H3]; cbv zeta; destruct (push_same input q) as [Hc Hk]; split; [|split; [apply push_samples|]].
  - constructor; rewrite ?Hc, ?Hk, ?push_samples; try done; rewrite newest_length, ?length_app, ?whole_length; [|lia].
    destruct (Nat.min_spec (capacity q) (length (samples q) + length input / channels q * channels q)) as [[_ ->]|[_ ->]]; [done|].
    apply Nat.divide_add_r; [done|]; by exists (length input / channels q)%nat.
  - rewrite push_samples, newest_length, length_app, push_dropped; lia.
Qed.

(** ** Frames do not depend on how the capture is cut *)

(** Emitted: frames of [n] samples, then less than a frame is left. *)
Definition framed (n : nat) l (em : list (list A)) (rest : list A) : Prop :=
  l = mjoin em ++ rest /\ Forall (fun f => length f = n) em /\ (length rest < n)%nat.

Lemma framed_unique n l em rest em' rest' : framed n l em rest -> framed n l em' rest' -> em = em' /\ rest = rest'.
Proof.
  revert l em'; induction em as [|f em IH]; intros l em' (-> & Hf & Hr) (Hl & Hf' & Hr').
  - destruct em' as [|f' em']; [by cbn in Hl|]; apply Forall_cons in Hf' as [Hn _]; cbn in Hl; apply (f_equal length) in Hl.
    rewrite !length_app in Hl; lia.
  - apply Forall_cons in Hf as [Hn Hf]; destruct em' as [|f' em'].
    + cbn in Hl; apply (f_equal length) in Hl; rewrite !length_app in Hl; lia.
    + apply Forall_cons in Hf' as [Hn' Hf']; cbn in Hl; rewrite <- !app_assoc in Hl; apply app_inj_1 in Hl as [-> Hl]; [|lia].
      destruct (IH (mjoin em ++ rest) em') as [-> ->]; done.
Qed.

Lemma pop_frames_framed fuel n q : (0 < n)%nat -> (length (samples q) <= fuel)%nat ->
  let '(em, q') := pop_frames fuel n q in
  framed n (samples q) em (samples q') /\ channels q' = channels q /\ capacity q' = capacity q /\ dropped_samples q' = dropped_samples q.
Proof.
  intros Hn; revert q; induction fuel as [|fuel IH]; intros q Hq; cbn.
  - repeat split; [constructor|lia].
  - unfold pop_exact; rewrite (proj2 (Nat.eqb_neq n 0)) by lia; cbn [orb]; destruct (Nat.ltb_spec (length (samples q)) n) as [H|H].
    + repeat split; [constructor|done].
    + match goal with |- context [pop_frames fuel n ?k] => specialize (IH k ltac:(cbn; rewrite length_drop; lia)); destruct (pop_frames fuel n k) as [em q'] end.
      destruct IH as ((Hs & Hf & Hr) & IH); split; [|done]; split_and!; [|constructor; [rewrite length_take; lia|done]|done].
      change (drop n (samples q) = mjoin em ++ samples q') in Hs; change (samples q = (take n (samples q) ++ mjoin em) ++ samples q').
      by rewrite <- app_assoc, <- Hs, take_drop.
Qed.

Section Framing.
Context {R : Type} (process : R -> list A -> list A * R) (audio_rechannel : list A -> Z -> Z -> Z -> Z -> list A).

(** The samples that the framer gets for one chunk, and for a list of chunks. *)
Definition converted (f : CapturedPcmFramer A R) (input : list A) : list A :=
  let resampled := (process (resampler_state f) input).1 in
  if device_channels f =? encode_channels f then resampled
  else audio_rechannel resampled (sample_rate f) (sample_rate f) (device_channels f) (encode_channels f).

Fixpoint framer_all (inputs : list (list A)) (f : CapturedPcmFramer A R) : list (list A) * CapturedPcmFramer A R :=
  match inputs with
  | [] => ([], f)
  | input :: inputs =>
      let '(em, f) := framer_push process audio_rechannel input f in
      let '(em', f) := framer_all inputs f in (em ++ em', f)
  end.
Fixpoint converted_all (inputs : list (list A)) (f : CapturedPcmFramer A R) : list A :=
  match inputs with
  | [] => []
  | input :: inputs => converted f input ++ converted_all inputs (framer_push process audio_rechannel input f).2
  end.

(** Every chunk is of whole frames and, with what may wait, fits the queue. *)
Fixpoint chunks_fit (inputs : list (list A)) (f : CapturedPcmFramer A R) : Prop :=
  match inputs with
  | [] => True
  | input :: inputs =>
      (channels (frames f) | length (converted f input))%nat /\ (length (converted f input) + frame_len f <= capacity (frames f))%nat /\
      chunks_fit inputs (framer_push process audio_rechannel input f).2
  end.

(** A framer between two chunks. *)
Record ready (f : CapturedPcmFramer A R) : Prop := {
  ready_frame : (0 < frame_len f)%nat;
  ready_channels : (channels (frames f) | frame_len f)%nat;
  ready_wf : wf (frames f);
  ready_rest : (length (samples (frames f)) < frame_len f)%nat;
}.

Lemma new_framer_ready new_resampler device_rate device_chans rate chans : 100 <= rate ->
  ready (new_framer (A := A) new_resampler device_rate device_chans rate chans).
Proof.
  intros Hr; assert (0 < Z.to_nat (rate / 100))%nat by (pose proof (Z.div_le_lower_bound rate 100 1); lia).
  constructor; cbn -[Z.div Z.to_nat]; [nia| |apply new_queue_wf|nia].
  exists (Z.to_nat (rate / 100)); f_equal; lia.
Qed.

Lemma framed_divide d n l em rest : framed n l em rest -> (d | n)%nat -> (d | length l)%nat -> (d | length rest)%nat.
Proof.
  intros (-> & Hf & _) Hd Hl; rewrite length_app in Hl; apply (Nat.divide_add_cancel_r _ (length (mjoin em))); [|done].
  clear Hl; induction Hf as [|x em Hx Hf IH]; [by exists 0%nat|].
  change (mjoin (x :: em)) with (x ++ mjoin em); rewrite length_app, Hx; by apply Nat.divide_add_r.
Qed.

Lemma framer_push_framed input f : ready f ->
  (channels (frames f) | length (converted f input))%nat -> (length (converted f input) + frame_len f <= capacity (frames f))%nat ->
  let '(em, f') := framer_push process audio_rechannel input f in
  framed (frame_len f) (samples (frames f) ++ converted f input) em (samples (frames f')) /\
  frame_len f' = frame_len f /\ ready f' /\ dropped_samples (frames f') = dropped_samples (frames f).
Proof.
  intros [Hn Hfl Hwf Hlt] Hd Hfit; unfold framer_push, converted in *; destruct (process (resampler_state f) input) as [resampled r]; cbn [fst] in *.
  set (data := if device_channels f =? encode_channels f then _ else _) in *.
  pose proof (push_samples data (frames f)) as Hp; rewrite whole_all in Hp by (done || apply wf_channels, Hwf).
  unfold newest in Hp; rewrite length_app in Hp; replace (length (samples (frames f)) + length data - capacity (frames f))%nat with 0%nat in Hp by lia; rewrite drop_0 in Hp.
  pose proof (push_same data (frames f)) as [Hc Hk].
  pose proof (push_dropped data (frames f)) as Hdr; rewrite whole_all in Hdr by (done || apply wf_channels, Hwf).
  pose proof (pop_frames_framed (length (samples (push data (frames f)))) (frame_len f) (push data (frames f)) Hn ltac:(lia)) as H.
  destruct (pop_frames _ _ _) as [em q']; cbn; destruct H as (Hf & Hc' & Hk' & ->); rewrite Hp in Hf; split_and!; try done; [|lia].
  destruct Hwf as [W1 W2 W3 W4]; pose proof Hf as (Hs & Hlen & Hr); constructor; cbn; rewrite ?Hc', ?Hc; try done.
  constructor; cbn; rewrite ?Hc', ?Hc, ?Hk', ?Hk; try done; [|lia].
  eapply (framed_divide _ (frame_len f)); [exact Hf|done|]; rewrite length_app; by apply Nat.divide_add_r.
Qed.

(** The frames emitted for a list of chunks are those of the whole stream, in order
    and without loss: what came before, then the converted chunks, is what is emitted,
    in frames of 10 ms, and less than a frame that waits. *)
Lemma framer_all_framed inputs f : ready f -> chunks_fit inputs f ->
  let '(em, f') := framer_all inputs f in
  framed (frame_len f) (samples (frames f) ++ converted_all inputs f) em (samples (frames f')) /\
  dropped_samples (frames f') = dropped_samples (frames f).
Proof.
  revert f; induction inputs as [|input inputs IH]; intros f Hr Hfit; cbn.
  - rewrite app_nil_r; repeat split; [constructor|apply Hr].
  - destruct Hfit as (Hd & Hl & Hfit); pose proof (framer_push_framed input f Hr Hd Hl) as H.
    destruct (framer_push process audio_rechannel input f) as [em f1] eqn:E; destruct H as ((Hs & Hf & _) & Hlen & Hr1 & Hdr); cbn [snd] in *.
    specialize (IH f1 Hr1 Hfit); rewrite Hlen in IH; destruct (framer_all inputs f1) as [em' f2].
    destruct IH as ((Hs' & Hf' & Hr') & Hdr'); split; [|by rewrite Hdr', Hdr]; split_and!; [|by apply Forall_app|done].
    by rewrite (app_assoc (samples (frames f))), Hs, <- (app_assoc (mjoin em)), Hs', app_assoc, join_app.
Qed.

(** C19. How the callbacks cut the captured sound does not matter: two captures whose
    chunks convert to the same samples emit the same frames and keep the same rest,
    and neither drops a sample. *)
Theorem framing_ignores_callbacks inputs inputs' f : ready f -> chunks_fit inputs f -> chunks_fit inputs' f ->
  converted_all inputs f = converted_all inputs' f ->
  (framer_all inputs f).1 = (framer_all inputs' f).1 /\
  samples (frames (framer_all inputs f).2) = samples (frames (framer_all inputs' f).2) /\
  dropped_samples (frames (framer_all inputs f).2) = dropped_samples (frames f).
Proof.
  intros Hr Hi Hi' Heq; pose proof (framer_all_framed inputs f Hr Hi) as H; pose proof (framer_all_framed inputs' f Hr Hi') as H'.
  destruct (framer_all inputs f) as [em f1], (framer_all inputs' f) as [em' f1']; destruct H as [H Hdr], H' as [H' _]; rewrite Heq in H; cbn [fst snd].
  destruct (framed_unique _ _ _ _ _ _ H H') as [-> ->]; done.
Qed.

End Framing.

(** ** The hand-over keeps order and counts what it refuses *)

Inductive CaptureCall := Send (l : list A) | ProcessNext.

Definition capture_call (e : CaptureCall) (c : Capture A) : option (list A) * Capture A :=
  match e with Send l => (None, send l c) | ProcessNext => process_next c end.
Fixpoint processed (es : list CaptureCall) (c : Capture A) : list (list A) * Capture A :=
  match es with
  | [] => ([], c)
  | e :: es => let '(o, c) := capture_call e c in let '(l, c) := processed es c in (option_list o ++ l, c)
  end.

(** The chunks that are accepted. *)
Fixpoint accepted (es : list CaptureCall) (c : Capture A) : list (list A) :=
  match es with
  | [] => []
  | e :: es => (match e with Send l => if (length (chunks c) <? bound c)%nat then [l] else [] | ProcessNext => [] end) ++ accepted es (capture_call e c).2
  end.
Definition sends (es : list CaptureCall) : N := Z.to_N (count_if (fun e => match e with Send _ => true | _ => false end) es).

Lemma send_chunks l (c : Capture A) : chunks (send l c) = chunks c ++ (if (length (chunks c) <? bound c)%nat then [l] else []) /\
  bound (send l c) = bound c /\ dropped (send l c) = (dropped c + (if (length (chunks c) <? bound c)%nat then 0 else 1))%N.
Proof. unfold send; destruct (spare c); cbn -[Nat.ltb]; destruct (_ <? _)%nat; cbn; rewrite ?app_nil_r; split_and!; try done; lia. Qed.

Lemma process_next_chunks (c : Capture A) : bound (process_next c).2 = bound c /\ dropped (process_next c).2 = dropped c /\
  chunks c = option_list (process_next c).1 ++ chunks (process_next c).2.
Proof. unfold process_next; destruct (chunks c) eqn:E; [by rewrite ?E|]; cbn -[Nat.ltb]; destruct (_ <? _)%nat, (_ <=? _)%N; done. Qed.

(** The worker gets the accepted chunks in the order of the callbacks; a chunk is
    processed, waits, or was counted as dropped; no more wait than the channel
    holds. *)
Theorem capture_is_fifo es (c : Capture A) : (length (chunks c) <= bound c)%nat ->
  let '(l, c') := processed es c in
  l ++ chunks c' = chunks c ++ accepted es c /\ (length (chunks c') <= bound c')%nat /\
  (N.of_nat (length (accepted es c)) + dropped c' = sends es + dropped c)%N.
Proof.
  revert c; induction es as [|e es IH]; intros c Hc; cbn -[Nat.ltb]; [rewrite app_nil_r; split_and!; done|].
  unfold sends in *; cbn [count_if]; destruct e as [l|]; cbn [capture_call snd].
  - destruct (send_chunks l c) as (H1 & H2 & H3); specialize (IH (send l c)); destruct (processed es (send l c)) as [l' c'].
    destruct IH as (Hl & Hb & Hn).
    { rewrite H1, H2, length_app; destruct (Nat.ltb_spec (length (chunks c)) (bound c)); cbn; lia. }
    cbn -[Nat.ltb]; rewrite Hl, H1, <- app_assoc; split_and!; [done|done|]; rewrite H3 in Hn; rewrite length_app.
    match goal with |- context [count_if ?p es] => pose proof (count_if_bounds p es) end.
    destruct (_ <? _)%nat; cbn [length Z.b2z]; lia.
  - destruct (process_next_chunks c) as (H1 & H2 & H3); destruct (process_next c) as [o c1]; cbn [fst snd] in *; specialize (IH c1).
    destruct (processed es c1) as [l' c']; destruct IH as (Hl & Hb & Hn); [rewrite H1; rewrite H3, length_app in Hc; lia|].
    rewrite <- app_assoc, Hl, H3, app_assoc; split_and!; [done|done|]; rewrite <- H2; cbn; exact Hn.
Qed.

(** ** Silence is not sent for long *)

Context `{Sample A}.

Fixpoint gate_all (l : list (list A)) (count : Z) : list (list A) * Z :=
  match l with
  | [] => ([], count)
  | data :: l => let '(b, count) := zero_gate data count in let '(s, count) := gate_all l count in ((if b then [data] else []) ++ s, count)
  end.
Definition silent (data : list A) : bool := forallb is_zero data.

Lemma zero_gate_sound data count : 0 <= count <= MAX_AUDIO_ZERO_COUNT + 2 ->
  zero_gate data count =
    if silent data then ((count <=? MAX_AUDIO_ZERO_COUNT), Z.min (count + 1) (MAX_AUDIO_ZERO_COUNT + 2)) else (true, 0).
Proof.
  intros Hc; unfold zero_gate, silent.
  replace (existsb (fun x => negb (is_zero x)) data) with (negb (forallb is_zero data)) by (induction data as [|x l IH]; cbn; [done|]; rewrite <- IH; by destruct (is_zero x)).
  destruct (forallb is_zero data); cbn; [|done]; unfold MAX_AUDIO_ZERO_COUNT in *.
  destruct (Z.ltb_spec 800 count); destruct (Z.leb_spec count 800); try lia; f_equal; [|lia].
  destruct (Z.eqb_spec count (800 + 1)); lia.
Qed.

(** A run of silence is sent for 801 frames and no more; the first frame that is not
    silent is sent, and starts over. *)
Theorem silence_is_gated (l : list (list A)) data more : Forall (fun d => silent d = true) l -> silent data = false ->
  (gate_all (l ++ data :: more) 0).1 = take 801 l ++ data :: (gate_all more 0).1.
Proof.
  intros Hl Hd; assert (Hg : forall (l : list (list A)) count, 0 <= count <= 802 -> Forall (fun d => silent d = true) l ->
    (gate_all (l ++ data :: more) count).1 = take (Z.to_nat (801 - count)) l ++ data :: (gate_all more 0).1).
  { clear l Hl; intros l; induction l as [|d l IH]; intros count Hc Hl; cbn.
    - rewrite zero_gate_sound, Hd by (unfold MAX_AUDIO_ZERO_COUNT; lia); rewrite take_nil; by destruct (gate_all more 0).
    - apply Forall_cons in Hl as [Hs Hl]; rewrite zero_gate_sound, Hs by (unfold MAX_AUDIO_ZERO_COUNT; lia); unfold MAX_AUDIO_ZERO_COUNT.
      specialize (IH (Z.min (count + 1) (800 + 2)) ltac:(lia) Hl); destruct (gate_all (l ++ data :: more) _) as [s c]; cbn in *; rewrite IH.
      destruct (Z.leb_spec count 800).
      + replace (Z.to_nat (801 - count)) with (S (Z.to_nat (801 - Z.min (count + 1) 802))) by lia; done.
      + replace (Z.to_nat (801 - count)) with 0%nat by lia; replace (Z.to_nat (801 - Z.min (count + 1) (800 + 2))) with 0%nat by lia; done. }
  by rewrite Hg.
Qed.

End Theory.

(** ** Witness *)

(** Four samples a frame, one channel, and a resampler that changes nothing. *)
Definition four_to_a_frame : CapturedPcmFramer nat unit := new_framer (fun _ _ _ => tt) 400 1 400 1.
Definition as_is (r : unit) (l : list nat) : list nat * unit := (l, r).
Definition no_rechannel (l : list nat) (_ _ _ _ : Z) : list nat := l.

Lemma framing_ignores_callbacks_witness :
  let f := four_to_a_frame in
  let one := [[1; 2; 3; 4; 5; 6; 7; 8; 9]]%nat in
  let many := [[1; 2]; [3]; [4; 5; 6; 7; 8; 9]]%nat in
  ((ready f /\ chunks_fit as_is no_rechannel one f /\ chunks_fit as_is no_rechannel many f) /\
   (framer_all as_is no_rechannel many f).1 = [[1; 2; 3; 4]; [5; 6; 7; 8]]%nat) /\
  (framer_all as_is no_rechannel one f).1 = (framer_all as_is no_rechannel many f).1 /\
  samples (frames (framer_all as_is no_rechannel one f).2) = samples (frames (framer_all as_is no_rechannel many f).2) /\
  dropped_samples (frames (framer_all as_is no_rechannel one f).2) = dropped_samples (frames f).
Proof.
  intros f one many; assert (Hr : ready f) by (apply new_framer_ready; lia).
  assert (H1 : chunks_fit as_is no_rechannel one f) by (repeat split; first [apply Nat.divide_1_l|vm_compute; lia]).
  assert (H2 : chunks_fit as_is no_rechannel many f) by (repeat split; first [apply Nat.divide_1_l|vm_compute; lia]).
  split; [split; [split; [exact Hr|split; [exact H1|exact H2]]|vm_compute; reflexivity]|].
  exact (framing_ignores_callbacks as_is no_rechannel one many f Hr H1 H2 eq_refl).
Defined.
