(* ===== verification/ViewerAudio.v ===== *)
(** * Sound played by the viewer

    Models the way of received sound to the device (src/src/client.rs): the thread
    that trims what has piled up ([start_audio_thread], [trim_audio_backlog]), the
    handler of the formats and the frames ([AudioHandler], as it is built where the
    device is driven by callbacks), the ring buffer of three seconds it fills
    ([AudioBuffer], with the statistics by which it is shortened), and the callback
    of the device with its gate ([PlaybackGate]).

    Samples are of any type with a zero; Opus, the resampler, the conversion of
    channels and the device are functions or arguments.  The ring buffer of the
    ringbuf crate is a class with the documented effect of the methods used. *)

From S2P Require Import Prelude ViewerPlayback.

(** ** The ring buffer *)

Class RingBuffer (A : Type) := {
  Ring : Type;
  ring_new : nat -> Ring;
  occupied : Ring -> list A;
  ring_capacity : Ring -> nat;
  push_slice_overwrite : list A -> Ring -> Ring;
  skip : nat -> Ring -> Ring;
  pop_slice : nat -> Ring -> list A * Ring;
  occupied_new n : occupied (ring_new n) = [];
  capacity_new n : ring_capacity (ring_new n) = n;
  occupied_push l r : occupied (push_slice_overwrite l r) = drop (length (occupied r ++ l) - ring_capacity r) (occupied r ++ l);
  capacity_push l r : ring_capacity (push_slice_overwrite l r) = ring_capacity r;
  occupied_skip n r : occupied (skip n r) = drop n (occupied r);
  capacity_skip n r : ring_capacity (skip n r) = ring_capacity r;
  pop_slice_spec n r : (pop_slice n r).1 = take n (occupied r) /\ occupied (pop_slice n r).2 = drop n (occupied r);
  capacity_pop n r : ring_capacity (pop_slice n r).2 = ring_capacity r;
}.

Definition AUDIO_BUFFER_MS : Z := 3000.
Definition MAX_AUDIO_FORMAT_CHANNELS : Z := 8.
Definition MAX_QUEUED_AUDIO_FRAMES : nat := 20.

Section Audio.
Context {A : Type} (silence : A) `{RingBuffer A}.

(** [AudioBuffer]: the ring, samples in a second, and how often each tenth of a
    second was the fill ([self.2], 30 counters). *)
Record AudioBuffer := {
  ring : Ring;
  per_second : Z;
  fills : list Z;
}.
#[export] Instance eta_AudioBuffer : Eta AudioBuffer := fun r => Build_AudioBuffer (ring r) (per_second r) (fills r).

Definition default_buffer : AudioBuffer :=
  {| ring := ring_new (Z.to_nat (48000 * 2 * AUDIO_BUFFER_MS / 1000)); per_second := 48000 * 2; fills := repeat 0 30 |}.

Definition resize (sample_rate channels : Z) (b : AudioBuffer) : AudioBuffer :=
  let capacity := sample_rate * channels * AUDIO_BUFFER_MS / 1000 in
  if capacity =? Z.of_nat (ring_capacity (ring b)) then b
  else b <| ring := ring_new (Z.to_nat capacity) |> <| per_second := sample_rate * channels |>.

(** [append_pcm2] *)
Definition append_pcm2 (buffer : list A) (b : AudioBuffer) : nat * AudioBuffer :=
  let cap := ring_capacity (ring b) in
  if (cap <? length buffer)%nat then (cap, b <| ring ::= push_slice_overwrite buffer |>)
  else
    let having := (length (occupied (ring b)) + length buffer)%nat in
    let r := if (cap <? having)%nat then skip (having - cap) (ring b) else ring b in
    let r := push_slice_overwrite buffer r in
    (length (occupied r), b <| ring := r |>).

(** The loop over the counters: the first counters that are all zero, and the
    counter of the largest fill; a counter that is passed is cleared. *)
Definition count_at (l : list Z) (i : nat) : Z := nth i l 0.
Fixpoint scan_fills (ids : list nat) (l : list Z) (zero max : nat) : nat * nat * list Z :=
  match ids with
  | [] => (zero, max, l)
  | i :: ids =>
      let zero := if (count_at l i =? 0) && (zero =? i)%nat then S zero else zero in
      if count_at l max <? count_at l i
      then scan_fills ids (<[max := 0]> l) zero i
      else scan_fills ids (<[i := 0]> l) zero max
  end.

(** How many samples of [cap] may be skipped for the counters; [None]: less than
    600 ms is kept.  [N] is 4. *)
Definition shrink_amount (cap : nat) (zero max : nat) : option nat :=
  let zero := (zero * 2 / 3)%nat in
  if (max <? 6)%nat then None
  else
    let max := if (zero * 4 <? max)%nat then (zero * 4)%nat else max in
    Some (Z.to_nat (Z.land (Z.of_nat cap * Z.of_nat max / (30 * 4) + 1) (Z.lnot 1))).

(** [try_shrink]: [dt] is the clock in milliseconds and [tms] the static that holds
    the time of the last look. *)
Definition try_shrink (dt : Z) (having : nat) (tms : Z) (b : AudioBuffer) : Z * AudioBuffer :=
  let i := Z.to_nat (Z.min (Z.of_nat having * 10 / per_second b) 29) in
  let b := b <| fills ::= fun l => <[i := count_at l i + 1]> l |> in
  if tms =? 0 then (dt, b)
  else if dt <? tms + 12000 then (tms, b)
  else
    let '(zero, max, l) := scan_fills (seq 0 30) (fills b) 0 0 in
    let b := b <| fills := <[max := 0]> l |> in
    (dt, match shrink_amount (ring_capacity (ring b)) zero max with
         | Some n => if (n * 3 <? length (occupied (ring b)))%nat && (0 <? n)%nat then b <| ring ::= skip n |> else b
         | None => b
         end).

Definition append_pcm (dt : Z) (buffer : list A) (tms : Z) (b : AudioBuffer) : Z * AudioBuffer :=
  let '(having, b) := append_pcm2 buffer b in try_shrink dt having tms b.

(** ** The gate and the callback *)

Definition playback_prebuffer_samples (sample_rate channels : Z) : Z := sample_rate * 20 / 1000 * Z.max channels 1.

Record PlaybackGate := { prebuffer : nat; primed : bool }.
#[export] Instance eta_PlaybackGate : Eta PlaybackGate := fun r => Build_PlaybackGate (prebuffer r) (primed r).
Definition new_gate (prebuffer : nat) : PlaybackGate := {| prebuffer := prebuffer; primed := false |}.

Definition samples_to_play (queued requested : nat) (g : PlaybackGate) : nat * PlaybackGate :=
  if negb (primed g) && (queued <? Nat.max (prebuffer g) requested)%nat then (0%nat, g)
  else
    let g := g <| primed := true |> in
    (Nat.min queued requested, if (queued <? requested)%nat then g <| primed := false |> else g).

(** The callback fills [requested] samples. *)
Definition callback (requested : nat) (g : PlaybackGate) (r : Ring) : list A * PlaybackGate * Ring :=
  let '(n, g) := samples_to_play (length (occupied r)) requested g in
  let '(elems, r) := if (0 <? n)%nat then pop_slice n r else ([], r) in
  (elems ++ repeat silence (requested - n), g, r).

(** ** Formats and frames *)

Definition validated_audio_channels (channels : Z) : option Z :=
  if (1 <=? channels) && (channels <=? MAX_AUDIO_FORMAT_CHANNELS) then Some channels else None.

Definition pulse_target_length_bytes (sample_rate channels : Z) : Z :=
  Z.min (sample_rate * 60 / 1000 * Z.max channels 1 * 4) u32_max.

(** The decoder of Opus and the resampler, with their states. *)
Class AudioApi := {
  AudioDecoder : Type;
  new_audio_decoder : Z -> bool -> option AudioDecoder;
  decode_float : AudioDecoder -> list Byte.byte -> nat -> option (list A) * AudioDecoder;
  Resampler : Type;
  new_resampler : Z -> Z -> Z -> Resampler;
  resample : Resampler -> list A -> list A * Resampler;
  audio_rechannel : list A -> Z -> Z -> Z -> Z -> list A;
}.
Context `{AudioApi}.

(** [audio_decoder] holds the decoder and the size of the buffer it decodes into. *)
Record AudioHandler := {
  audio_decoder : option (AudioDecoder * nat);
  audio_buffer : AudioBuffer;
  sample_rate : Z * Z;
  audio_stream : bool;
  channels : Z;
  device_channel : Z;
  ready : bool;
  resampler : option Resampler;
}.
#[export] Instance eta_AudioHandler : Eta AudioHandler := fun r =>
  Build_AudioHandler (audio_decoder r) (audio_buffer r) (sample_rate r) (audio_stream r) (channels r) (device_channel r) (ready r) (resampler r).
Definition default_handler : AudioHandler :=
  {| audio_decoder := None; audio_buffer := default_buffer; sample_rate := (0, 0); audio_stream := false; channels := 0;
     device_channel := 0; ready := false; resampler := None |}.

(** The device: its rate and channels, and whether it opens with a number of
    channels. *)
Record Device := { device_rate : Z; default_channels : Z; opens : Z -> bool }.

(** [build_output_stream]: the buffer is resized before the device is opened. *)
Definition build_output_stream (dev : Device) (chans : Z) (h : AudioHandler) : bool * AudioHandler :=
  let h := h <| device_channel := chans |> <| audio_buffer ::= resize (device_rate dev) chans |> in
  if opens dev chans then (true, h <| audio_stream := true |>) else (false, h).

(** [start_audio]: [dev] is [None] when there is no device. *)
Definition start_audio (rate chans : Z) (dev : option Device) (h : AudioHandler) : bool * AudioHandler :=
  match dev with
  | None => (false, h)
  | Some dev =>
      let h := h <| sample_rate := (rate, device_rate dev) |>
                 <| resampler := if rate =? device_rate dev then None else Some (new_resampler rate (device_rate dev) chans) |> in
      if chans <? default_channels dev then
        let '(ok, h) := build_output_stream dev chans h in
        if ok then (true, h) else build_output_stream dev (default_channels dev) h
      else build_output_stream dev (default_channels dev) h
  end.

Definition handle_format (rate chans : Z) (dev : option Device) (h : AudioHandler) : AudioHandler :=
  match validated_audio_channels chans with
  | None => h
  | Some c =>
      match new_audio_decoder rate (1 <? c) with
      | None => h
      | Some d =>
          let h := h <| audio_decoder := Some (d, Z.to_nat (rate * c)) |> <| channels := c |> in
          (start_audio rate chans dev h).2
      end
  end.

(** [handle_frame]: [decode_float] gives the decoded samples, [n * channels] of
    them. *)
Definition handle_frame (dt : Z) (data : list Byte.byte) (tms : Z) (h : AudioHandler) : Z * AudioHandler :=
  if negb (audio_stream h) || negb (ready h) then (tms, h)
  else
    match audio_decoder h with
    | None => (tms, h)
    | Some (d, size) =>
        let '(pcm, d) := decode_float d data size in
        let h := h <| audio_decoder := Some (d, size) |> in
        match pcm with
        | None => (tms, h)
        | Some pcm =>
            let rate := (sample_rate h).2 in
            let '(buffer, rs) := match resampler h with
                                 | Some r => let '(l, r) := resample r pcm in (l, Some r)
                                 | None => (pcm, None)
                                 end in
            let buffer := if channels h =? device_channel h then buffer else audio_rechannel buffer rate rate (channels h) (device_channel h) in
            let '(tms, b) := append_pcm dt buffer tms (audio_buffer h) in
            (tms, h <| resampler := rs |> <| audio_buffer := b |>)
        end
    end.

(** ** The backlog of the thread *)

Definition is_audio_frame (m : MediaData) : bool := match m with AudioFrame _ => true | _ => false end.

Fixpoint drop_oldest (excess : nat) (batch : list MediaData) : list MediaData :=
  match batch with
  | [] => []
  | m :: batch =>
      match excess with
      | S k => if is_audio_frame m then drop_oldest k batch else m :: drop_oldest excess batch
      | O => m :: drop_oldest O batch
      end
  end.

Definition trim_audio_backlog (batch : list MediaData) (max_frames : nat) : list MediaData * nat :=
  let excess := (length (filter is_audio_frame batch) - max_frames)%nat in
  (drop_oldest excess batch, excess).

(** A round of [start_audio_thread] for the messages that wait; each is handled at
    the time [dt]. *)
Definition handle_batch (dt : Z) (dev : option Device) (batch : list MediaData) (tms : Z) (h : AudioHandler) : Z * AudioHandler :=
  foldl (fun '(tms, h) m =>
    match m with
    | AudioFrame data => handle_frame dt data tms h
    | AudioFormat rate chans => (tms, handle_format rate chans dev h)
    | _ => (tms, h)
    end) (tms, h) (trim_audio_backlog batch MAX_QUEUED_AUDIO_FRAMES).1.

End Audio.
