(* ===== verification/AudioTheory.v ===== *)
(** * What the viewer's sound guarantees

    The theorems about ViewerAudio.v: what the backlog loses, what the callback of
    the device plays, that samples are played in order and frames stay whole. *)

From S2P Require Import Prelude ViewerPlayback ViewerAudio.

(** ** The backlog *)

Lemma drop_oldest_spec k l : (k <= length (filter is_audio_frame l))%nat ->
  filter is_audio_frame (drop_oldest k l) = drop k (filter is_audio_frame l) /\
  filter (fun m => negb (is_audio_frame m)) (drop_oldest k l) = filter (fun m => negb (is_audio_frame m)) l /\
  drop_oldest k l `sublist_of` l /\ (length (drop_oldest k l) + k = length l)%nat.
Proof.
  revert k; induction l as [|m l IH]; intros k Hk; [destruct k; [done|cbn in Hk; lia]|].
  rewrite !filter_cons in *; destruct (is_audio_frame m) eqn:E, k as [|k]; cbn [drop_oldest negb] in *; rewrite ?E, ?filter_cons, ?E in *;
    cbn [negb] in *; rewrite ?decide_True, ?decide_False in * by (done || by intros []).
  - destruct (IH 0%nat) as (H1 & H2 & H3 & H4); [lia|]; rewrite ?drop_0 in *; cbn; split_and!; [by f_equal|done|by constructor|lia].
  - cbn in Hk; destruct (IH k) as (H1 & H2 & H3 & H4); [lia|]; cbn; split_and!; [done|done|by constructor|lia].
  - destruct (IH 0%nat) as (H1 & H2 & H3 & H4); [lia|]; rewrite ?drop_0 in *; cbn; split_and!; [done|by f_equal|by constructor|lia].
  - destruct (IH (S k) Hk) as (H1 & H2 & H3 & H4); cbn; split_and!; [done|by f_equal|by constructor|lia].
Qed.

(** Of what has piled up the oldest frames go, no more of them than exceed the
    limit; every other message, a change of the format among them, keeps its place. *)
Theorem backlog_loses_oldest_frames batch n :
  let '(kept, dropped) := trim_audio_backlog batch n in
  kept `sublist_of` batch /\ (length kept + dropped = length batch)%nat /\
  filter is_audio_frame kept = drop dropped (filter is_audio_frame batch) /\
  filter (fun m => negb (is_audio_frame m)) kept = filter (fun m => negb (is_audio_frame m)) batch /\
  length (filter is_audio_frame kept) = Nat.min n (length (filter is_audio_frame batch)).
Proof.
  unfold trim_audio_backlog; destruct (drop_oldest_spec (length (filter is_audio_frame batch) - n) batch) as (H1 & H2 & H3 & H4); [lia|].
  split_and!; try done; rewrite H1, length_drop; lia.
Qed.

Section Theory.
Context {A : Type} (silence : A) `{RingBuffer A}.

(** ** The callback *)

Lemma samples_to_play_cases queued requested g :
  samples_to_play queued requested g = (0%nat, g) /\ primed g = false /\ (queued < Nat.max (prebuffer g) requested)%nat \/
  samples_to_play queued requested g = (requested, g <| primed := true |>) /\ (requested <= queued)%nat \/
  samples_to_play queued requested g = (queued, g <| primed := false |>) /\ primed g = true /\ (queued < requested)%nat.
Proof.
  unfold samples_to_play; destruct (primed g) eqn:Ep; cbn [negb andb].
  - right; destruct (Nat.ltb_spec queued requested); [right|left]; (split; [f_equal; lia|done]).
  - destruct (Nat.ltb_spec queued (Nat.max (prebuffer g) requested)); [by left|]; right; left.
    rewrite (proj2 (Nat.ltb_ge queued requested)) by lia; split; [f_equal; lia|lia].
Qed.

(** The callback always fills what the device asks for, and does not wait: it plays
    the samples asked for; or, run dry, what is left and then silence; or silence,
    until the prebuffer and what is asked for have come in. *)
Theorem callback_never_starves requested g r :
  let '(out, g', r') := callback silence requested g r in
  length out = requested /\ prebuffer g' = prebuffer g /\ ring_capacity r' = ring_capacity r /\
  ((out = repeat silence requested /\ occupied r' = occupied r /\ g' = g /\ primed g = false /\
      (length (occupied r) < Nat.max (prebuffer g) requested)%nat) \/
   (out = take requested (occupied r) /\ occupied r' = drop requested (occupied r) /\ primed g' = true /\ (requested <= length (occupied r))%nat) \/
   (out = occupied r ++ repeat silence (requested - length (occupied r)) /\ occupied r' = [] /\ primed g' = false /\ primed g = true)).
Proof.
  unfold callback; set (o := length (occupied r)).
  destruct (samples_to_play_cases o requested g) as [(-> & Hp & Hq)|[(-> & Hq)|(-> & Hp & Hq)]].
  - cbn; rewrite Nat.sub_0_r, repeat_length; split_and!; try done; left; done.
  - pose proof (pop_slice_spec requested r) as [H1 H2]; pose proof (capacity_pop requested r) as H3.
    destruct (Nat.ltb_spec 0 requested) as [Hr|Hr]; [|replace requested with 0%nat by lia].
    + destruct (pop_slice requested r) as [l r']; cbn in *; subst l; rewrite Nat.sub_diag, app_nil_r; cbn.
      split_and!; [rewrite length_take; fold o; lia|done|done|]; right; left; split_and!; done.
    + cbn; split_and!; try done; right; left; split_and!; try done; lia.
  - pose proof (pop_slice_spec o r) as [H1 H2]; pose proof (capacity_pop o r) as H3.
    destruct (Nat.ltb_spec 0 o) as [Hr|Hr].
    + destruct (pop_slice o r) as [l r']; cbn in *; subst l; rewrite (take_ge (occupied r)) by (fold o; lia).
      split_and!; [rewrite length_app, repeat_length; fold o; lia|done|done|]; right; right; split_and!; try done.
      rewrite H2; apply drop_ge; fold o; lia.
    + assert (Ho : occupied r = []) by (apply nil_length_inv; fold o; lia); unfold o in *; rewrite Ho in *; cbn.
      rewrite repeat_length; split_and!; try done; [lia|]; right; right; done.
Qed.

(** It plays the head of the ring, as many samples as the gate says. *)
Lemma callback_plays requested g r :
  let '(out, g', r') := callback silence requested g r in
  let n := (samples_to_play (length (occupied r)) requested g).1 in
  ring_capacity r' = ring_capacity r /\ take n out = take n (occupied r) /\ occupied r' = drop n (occupied r).
Proof.
  unfold callback; assert (Hn : ((samples_to_play (length (occupied r)) requested g).1 <= length (occupied r))%nat).
  { destruct (samples_to_play_cases (length (occupied r)) requested g) as [(-> & _)|[(-> & ?)|(-> & _)]]; cbn; lia. }
  destruct (samples_to_play _ _ _) as [n g']; cbn [fst] in *; pose proof (pop_slice_spec n r) as [H1 H2]; pose proof (capacity_pop n r) as H3.
  destruct (Nat.ltb_spec 0 n); [|replace n with 0%nat by lia; done].
  destruct (pop_slice n r) as [l r']; cbn in *; subst l; split_and!; [done| |done].
  apply take_app_length'; rewrite length_take; lia.
Qed.

(** ** Order and latency *)

(** The device is opened for a rate and a number of channels, samples come in, the
    device asks for some. *)
Inductive AudioEvent := Opened (rate chans : Z) | Appended (dt : Z) (buffer : list A) | Requested (n : nat).

Record AudioState := { tms : Z; buffer : AudioBuffer; gate : PlaybackGate }.

(** What the device is given, without the silence. *)
Definition audio_step (e : AudioEvent) (s : AudioState) : list A * AudioState :=
  match e with
  | Opened rate chans =>
      ([], {| tms := tms s; buffer := resize rate chans (buffer s); gate := new_gate (Z.to_nat (playback_prebuffer_samples rate chans)) |})
  | Appended dt l => let '(t, b) := append_pcm dt l (tms s) (buffer s) in ([], {| tms := t; buffer := b; gate := gate s |})
  | Requested n =>
      let '(out, g, r) := callback silence n (gate s) (ring (buffer s)) in
      (take (samples_to_play (length (occupied (ring (buffer s)))) n (gate s)).1 out,
       {| tms := tms s; buffer := buffer s <| ring := r |>; gate := g |})
  end.
Fixpoint audio_run (es : list AudioEvent) (s : AudioState) : list A * AudioState :=
  match es with
  | [] => ([], s)
  | e :: es => let '(o, s) := audio_step e s in let '(os, s) := audio_run es s in (o ++ os, s)
  end.
Definition appended (es : list AudioEvent) : list A := mjoin ((fun e => match e with Appended _ l => l | _ => [] end) <$> es).

Definition content (s : AudioState) : list A := occupied (ring (buffer s)).
Definition limit (s : AudioState) : nat := ring_capacity (ring (buffer s)).

(** The handler before any format came, and the samples a second of sound takes at the
    rate and the channels the device was last opened for. *)
Definition audio_start : AudioState := {| tms := 0; buffer := default_buffer; gate := new_gate 0 |}.
Definition second_after (es : list AudioEvent) (n : Z) : Z :=
  foldl (fun n e => match e with Opened rate chans => rate * chans | _ => n end) n es.

(** What follows an append: the newest samples, and what a look at the statistics
    skips. *)
Lemma append_pcm2_ring l (b : AudioBuffer) :
  occupied (ring (append_pcm2 l b).2) = drop (length (occupied (ring b)) + length l - ring_capacity (ring b)) (occupied (ring b) ++ l) /\
  ring_capacity (ring (append_pcm2 l b).2) = ring_capacity (ring b).
Proof.
  unfold append_pcm2; destruct (Nat.ltb_spec (ring_capacity (ring b)) (length l)) as [Hl|Hl]; cbn [snd ring set_field].
  - cbn; rewrite occupied_push, capacity_push, length_app; done.
  - cbn -[Nat.ltb]; destruct (Nat.ltb_spec (ring_capacity (ring b)) (length (occupied (ring b)) + length l)) as [Hh|Hh];
      rewrite occupied_push, capacity_push, ?occupied_skip, ?capacity_skip, ?length_app, ?length_drop; split; try done.
    + set (k := (length (occupied (ring b)) + length l - ring_capacity (ring b))%nat).
      replace (length (occupied (ring b)) - k + length l - ring_capacity (ring b))%nat with 0%nat by lia.
      by rewrite drop_0, drop_app_le by lia.
Qed.

Lemma try_shrink_ring dt having t (b : AudioBuffer) :
  exists k, occupied (ring (try_shrink dt having t b).2) = drop k (occupied (ring b)) /\
    ring_capacity (ring (try_shrink dt having t b).2) = ring_capacity (ring b) /\
    (k = 0%nat \/ exists z m, shrink_amount (ring_capacity (ring b)) z m = Some k).
Proof.
  unfold try_shrink; destruct (_ =? 0); [by exists 0%nat; split_and!; [|done|left]|]; destruct (dt <? _); [by exists 0%nat; split_and!; [|done|left]|].
  destruct (scan_fills _ _ _ _) as [[z m] fs]; cbn [snd ring set_field].
  match goal with |- context [shrink_amount ?c z m] => change c with (ring_capacity (ring b)) end.
  destruct (shrink_amount _ z m) as [k|] eqn:Ek; [|by exists 0%nat; split_and!; [|done|left]].
  destruct (_ && _); [|by exists 0%nat; split_and!; [|done|left]].
  exists k; cbn; rewrite occupied_skip, capacity_skip; split_and!; try done; right; by exists z, m.
Qed.

Lemma append_pcm_ring dt l t (b : AudioBuffer) :
  exists k, occupied (ring (append_pcm dt l t b).2) = drop k (drop (length (occupied (ring b)) + length l - ring_capacity (ring b)) (occupied (ring b) ++ l)) /\
    ring_capacity (ring (append_pcm dt l t b).2) = ring_capacity (ring b) /\
    (k = 0%nat \/ exists z m, shrink_amount (ring_capacity (ring b)) z m = Some k).
Proof.
  unfold append_pcm; destruct (append_pcm2_ring l b) as [H1 H2]; destruct (append_pcm2 l b) as [h b']; cbn [snd] in *.
  rewrite <- H1, <- H2; apply try_shrink_ring.
Qed.

Lemma resize_ring rate chans (b : AudioBuffer) :
  occupied (ring (resize rate chans b)) = occupied (ring b) /\ ring_capacity (ring (resize rate chans b)) = ring_capacity (ring b) \/
  occupied (ring (resize rate chans b)) = [] /\ ring_capacity (ring (resize rate chans b)) = Z.to_nat (rate * chans * AUDIO_BUFFER_MS / 1000).
Proof. unfold resize; destruct (_ =? _); [by left|right]; cbn; by rewrite occupied_new, capacity_new. Qed.

(** A step plays a prefix of the ring, appends to it and skips a prefix, or keeps it or
    empties it. *)
Lemma audio_step_content e s : exists k, let '(o, s') := audio_step e s in
  (match e with Opened _ _ => True | _ => limit s' = limit s end) /\
  o ++ content s' = match e with Opened _ _ => drop k (content s) | Appended _ l => drop k (content s ++ l) | Requested _ => content s end.
Proof.
  destruct e as [rate chans|dt l|n]; cbn; unfold content, limit.
  - destruct (resize_ring rate chans (buffer s)) as [[H1 _]|[H1 _]]; cbn; rewrite H1;
      [by exists 0%nat|exists (length (occupied (ring (buffer s)))); by rewrite drop_all].
  - destruct (append_pcm_ring dt l (tms s) (buffer s)) as (k & H1 & H2 & _).
    destruct (append_pcm dt l (tms s) (buffer s)) as [t b]; cbn in *; rewrite drop_drop in H1; eexists; by split.
  - exists 0%nat; pose proof (callback_plays n (gate s) (ring (buffer s))) as Hc.
    destruct (callback silence n (gate s) (ring (buffer s))) as [[out g] r]; cbn; destruct Hc as (Hcap & Ho & Hr); split; [done|].
    rewrite Ho, Hr; apply take_drop.
Qed.

Lemma audio_run_content es s :
  let '(out, s') := audio_run es s in out ++ content s' `sublist_of` content s ++ appended es.
Proof.
  revert s; induction es as [|e es IH]; intros s; cbn; [unfold appended; cbn; by rewrite app_nil_r|].
  destruct (audio_step_content e s) as [k Hk]; destruct (audio_step e s) as [o s1]; destruct Hk as [_ Hk].
  specialize (IH s1); destruct (audio_run es s1) as [os s2].
  rewrite <- app_assoc; transitivity (o ++ content s1 ++ appended es); [by apply sublist_app|].
  rewrite app_assoc, Hk; unfold appended; destruct e as [rate chans|dt l|n]; cbn; [|rewrite app_assoc|done];
    (apply sublist_app; [apply sublist_drop|done]).
Qed.

(** The ring holds three seconds at the rate the device is open for. *)
Definition three_seconds (n : Z) (s : AudioState) : Prop :=
  0 <= n /\ limit s = Z.to_nat (3 * n) /\ per_second (buffer s) = n /\ (length (content s) <= limit s)%nat.
Definition counts (e : AudioEvent) : Prop := match e with Opened rate chans => 0 <= rate /\ 0 <= chans | _ => True end.

Lemma try_shrink_second dt having t (b : AudioBuffer) : per_second (try_shrink dt having t b).2 = per_second b.
Proof.
  unfold try_shrink; destruct (_ =? 0); [done|]; destruct (dt <? _); [done|]; destruct (scan_fills _ _ _ _) as [[z m] fs].
  cbn [snd]; destruct (shrink_amount _ z m); [|done]; by destruct (_ && _).
Qed.
Lemma append_pcm_second dt l t (b : AudioBuffer) : per_second (append_pcm dt l t b).2 = per_second b.
Proof.
  unfold append_pcm, append_pcm2; destruct (_ <? _)%nat; rewrite try_shrink_second; done.
Qed.

Lemma audio_step_seconds e s n : counts e -> three_seconds n s -> three_seconds (second_after [e] n) (audio_step e s).2.
Proof.
  unfold three_seconds; intros He (Hn & Hl & Hp & Hc); destruct e as [rate chans|dt l|m]; cbn.
  - destruct He as [Hr Hch]; assert (Hrc : 0 <= rate * chans) by (apply Z.mul_nonneg_nonneg; lia); split; [exact Hrc|].
    assert (E : rate * chans * AUDIO_BUFFER_MS / 1000 = 3 * (rate * chans)).
    { unfold AUDIO_BUFFER_MS; replace (rate * chans * 3000) with (3 * (rate * chans) * 1000) by ring; by rewrite Z.div_mul. }
    unfold limit, content in *; cbn; unfold resize; rewrite E; destruct (Z.eqb_spec (3 * (rate * chans)) (Z.of_nat (ring_capacity (ring (buffer s))))) as [Eq|];
      cbn; [|rewrite capacity_new, occupied_new; split_and!; [done|done|cbn; lia]].
    split_and!; [lia|lia|exact Hc].
  - destruct (append_pcm_ring dt l (tms s) (buffer s)) as (j & H1 & H2 & _); pose proof (append_pcm_second dt l (tms s) (buffer s)) as H3.
    destruct (append_pcm dt l (tms s) (buffer s)) as [t b]; unfold content, limit in *; cbn in *.
    split_and!; [done|congruence|congruence|]; rewrite H1, H2, !length_drop, length_app; lia.
  - pose proof (callback_plays m (gate s) (ring (buffer s))) as Hk.
    destruct (callback silence m (gate s) (ring (buffer s))) as [[out g] r]; unfold content, limit in *; cbn; destruct Hk as (Hcap & _ & Hr).
    split_and!; [done|congruence|done|]; rewrite Hr, Hcap, length_drop; lia.
Qed.

Lemma audio_run_seconds es s n : Forall counts es -> three_seconds n s -> three_seconds (second_after es n) (audio_run es s).2.
Proof.
  revert s n; induction es as [|e es IH]; intros s n Hes Hs; cbn; [done|]; apply Forall_cons in Hes as [He Hes].
  pose proof (audio_step_seconds e s n He Hs) as H1; destruct (audio_step e s) as [o s1]; cbn in H1.
  specialize (IH s1 _ Hes H1); by destruct (audio_run es s1).
Qed.

(** C20. Samples are played in the order they came in: from the handler's beginning,
    however the device is opened, and whatever is appended, skipped and played, what was
    played and then what is queued are samples of the stream in their order; and never
    more than three seconds of them wait, at the rate and the channels the device was
    last opened for. *)
Theorem sound_keeps_its_order es : Forall counts es ->
  let '(out, s') := audio_run es audio_start in
  out ++ content s' `sublist_of` appended es /\ Z.of_nat (length (content s')) <= 3 * second_after es (48000 * 2).
Proof.
  intros Hes; pose proof (audio_run_content es audio_start) as H1.
  assert (H0 : three_seconds (48000 * 2) audio_start).
  { unfold three_seconds, content, limit; cbn; by rewrite occupied_new, capacity_new; split_and!; [| | |cbn; lia]. }
  pose proof (audio_run_seconds es _ _ Hes H0) as (Hn & Hl & _ & Hc); destruct (audio_run es audio_start) as [out s']; cbn [snd] in *.
  unfold content at 2 in H1; cbn [audio_start buffer] in H1; unfold default_buffer in H1; cbn [ring] in H1; rewrite occupied_new in H1.
  split; [exact H1|lia].
Qed.

(** ** Whole frames *)

Lemma shrink_amount_even cap z m k : shrink_amount cap z m = Some k -> (2 | k)%nat.
Proof.
  unfold shrink_amount; destruct (m <? 6)%nat; [done|]; set (x := Z.of_nat cap * _ / _ + 1); intros [= <-].
  assert (Hx : 0 <= x) by (unfold x; apply Z.add_nonneg_nonneg; [apply Z.div_pos; [apply Z.mul_nonneg_nonneg; lia|lia]|lia]).
  assert (Hl : Z.land x (Z.lnot 1) = 2 * (x / 2)).
  { clearbody x; rewrite <- Z.ldiff_land; change (Z.ldiff x 1) with (Z.ldiff x (Z.ones 1)).
    rewrite Z.ldiff_ones_r, Z.shiftl_mul_pow2, Z.shiftr_div_pow2 by lia; change (2 ^ 1) with 2; lia. }
  rewrite Hl; exists (Z.to_nat (x / 2)); pose proof (Z.div_pos x 2); lia.
Qed.

(** Whole frames come in, the device asks for whole frames, and three seconds are a
    number of frames. *)
Definition whole_frames (c : nat) (e : AudioEvent) : Prop :=
  match e with
  | Opened rate chans => (c | Z.to_nat (rate * chans * AUDIO_BUFFER_MS / 1000))%nat
  | Appended _ l => (c | length l)%nat
  | Requested n => (c | n)%nat
  end.

Lemma divide_sub c a b : (c | a)%nat -> (c | b)%nat -> (c | a - b)%nat.
Proof. intros [x ->] [y ->]; exists (x - y)%nat; nia. Qed.

Lemma whole_step c e s : (c | 2)%nat -> (c | limit s)%nat -> (c | length (content s))%nat -> whole_frames c e ->
  (c | length (audio_step e s).1)%nat /\ (c | length (content (audio_step e s).2))%nat /\ (c | limit (audio_step e s).2)%nat.
Proof.
  intros H2 Hlim Hs He; assert (Hl : (c | limit (audio_step e s).2)%nat).
  { destruct e as [rate chans|dt l|n]; [|destruct (audio_step_content (Appended dt l) s) as [k Hk]|destruct (audio_step_content (Requested n) s) as [k Hk]];
       [cbn; unfold limit; destruct (resize_ring rate chans (buffer s)) as [[_ H1]|[_ H1]]; cbn; by rewrite H1|
        destruct (audio_step _ s) as [o s1]; destruct Hk as [Hk _]; cbn; by rewrite Hk..]. }
  destruct e as [rate chans|dt l|n]; cbn in *; unfold content, limit in *.
  - split_and!; [by exists 0%nat| |done]; destruct (resize_ring rate chans (buffer s)) as [[H1 _]|[H1 _]]; cbn; rewrite H1; [done|by exists 0%nat].
  - destruct (append_pcm_ring dt l (tms s) (buffer s)) as (k & Hk & _ & Hsh); destruct (append_pcm dt l (tms s) (buffer s)) as [t b]; cbn in *.
    split_and!; [by exists 0%nat| |done]; rewrite Hk, !length_drop, length_app.
    assert (Hck : (c | k)%nat) by (destruct Hsh as [->|(z & m & Hm)]; [by exists 0%nat|]; eapply Nat.divide_trans; [exact H2|]; by eapply shrink_amount_even).
    repeat apply divide_sub; try done; by apply Nat.divide_add_r.
  - pose proof (callback_plays n (gate s) (ring (buffer s))) as Hc.
    assert (Hn : (c | (samples_to_play (length (occupied (ring (buffer s)))) n (gate s)).1)%nat).
    { destruct (samples_to_play_cases (length (occupied (ring (buffer s)))) n (gate s)) as [(-> & _)|[(-> & _)|(-> & _)]]; [by exists 0%nat|done|done]. }
    destruct (callback silence n (gate s) (ring (buffer s))) as [[out g] r]; cbn; destruct Hc as (_ & -> & ->); split_and!; [|rewrite length_drop; by apply divide_sub|done].
    rewrite length_take; destruct (Nat.min_spec (samples_to_play (length (occupied (ring (buffer s)))) n (gate s)).1 (length (occupied (ring (buffer s))))) as [[_ ->]|[_ ->]]; done.
Qed.

(** With one or two channels frames stay whole: whatever is skipped or
    overwritten, the callback plays whole frames and whole frames are left, so the
    channels never change places. *)
Theorem frames_stay_whole c es s : (c | 2)%nat -> (c | limit s)%nat -> (c | length (content s))%nat -> Forall (whole_frames c) es ->
  (c | length (audio_run es s).1)%nat /\ (c | length (content (audio_run es s).2))%nat.
Proof.
  intros H2 Hlim Hs Hes; revert s Hlim Hs; induction Hes as [|e es He Hes IH]; intros s Hlim Hs; cbn; [split; [by exists 0%nat|done]|].
  destruct (whole_step c e s H2 Hlim Hs He) as (H1 & H3 & Hl); destruct (audio_step e s) as [o s1]; cbn in *.
  destruct (IH s1) as [H4 H5]; [done|done|]; destruct (audio_run es s1) as [os s2]; cbn in *; split; [|done].
  rewrite length_app; by apply Nat.divide_add_r.
Qed.

Lemma scan_one_fill k : 0 < k -> scan_fills (seq 0 30) (repeat 0 7 ++ k :: repeat 0 22) 0 0 = (7%nat, 7%nat, repeat 0 7 ++ k :: repeat 0 22).
Proof. destruct k; try lia; reflexivity. Qed.

(** With six channels at 44.1 kHz they do: of 700 ms that wait a look at the
    statistics skips 46306 samples, which is not a number of frames. *)
Lemma surround_loses_its_channels k t dt (b : AudioBuffer) : 0 < k -> t <> 0 -> t + 12000 <= dt ->
  Z.of_nat (ring_capacity (ring b)) = 44100 * 6 * AUDIO_BUFFER_MS / 1000 -> per_second b = 44100 * 6 ->
  Z.of_nat (length (occupied (ring b))) = 185220 -> fills b = repeat 0 7 ++ k :: repeat 0 22 ->
  occupied (ring (try_shrink dt (length (occupied (ring b))) t b).2) = drop (Z.to_nat 46306) (occupied (ring b)) /\ 46306 mod 6 = 4.
Proof.
  intros Hk Ht Hdt Hcap Hsec Hlen Hf; split; [|done]; unfold try_shrink; rewrite Hlen, Hsec.
  change (Z.to_nat (Z.min (185220 * 10 / (44100 * 6)) 29)) with 7%nat.
  rewrite (proj2 (Z.eqb_neq t 0)), (proj2 (Z.ltb_ge dt (t + 12000))) by lia; cbn [fills set_field]; rewrite Hf.
  change (<[7%nat := _]> (repeat 0 7 ++ k :: repeat 0 22)) with (repeat 0 7 ++ (k + 1) :: repeat 0 22).
  rewrite (scan_one_fill (k + 1)) by lia.
  cbn [snd ring set_field].
  match goal with |- context [shrink_amount ?c 7 7] => change c with (ring_capacity (ring b)) end.
  assert (Hsh : shrink_amount (ring_capacity (ring b)) 7 7 = Some (Z.to_nat 46306)) by (unfold shrink_amount; cbn [Nat.ltb]; rewrite Hcap; reflexivity).
  rewrite Hsh; match goal with |- context [length (occupied ?r)] => change r with (ring b) end.
  rewrite (proj2 (Nat.ltb_lt (Z.to_nat 46306 * 3) (length (occupied (ring b))))), (proj2 (Nat.ltb_lt 0 (Z.to_nat 46306))) by lia.
  cbn; by rewrite occupied_skip.
Qed.

End Theory.

(** ** Witness *)

(** A ring buffer as a list and its capacity. *)
#[local] Instance list_ring A : RingBuffer A.
Proof.
  refine {| Ring := nat * list A; ring_new := fun n => (n, []); occupied := snd; ring_capacity := fst;
            push_slice_overwrite := fun l r => (r.1, drop (length (r.2 ++ l) - r.1) (r.2 ++ l));
            skip := fun n r => (r.1, drop n r.2); pop_slice := fun n r => (take n r.2, (r.1, drop n r.2)) |}; done.
Defined.

Lemma sound_keeps_its_order_witness :
  let es := [Opened 2 1; Appended 1 [1; 2; 3; 4]; Requested 2; Appended 2 [5; 6; 7; 8; 9]; Requested 3; Requested 5; Requested 2]%nat in
  let '(out, s') := audio_run 0%nat es audio_start in
  (out = [1; 2; 4; 5; 6; 7; 8; 9]%nat /\ second_after es (48000 * 2) = 2) /\
  out ++ content s' `sublist_of` appended es /\ Z.of_nat (length (content s')) <= 3 * second_after es (48000 * 2).
Proof.
  intros es; assert (Hes : Forall counts es) by (repeat constructor; lia).
  pose proof (sound_keeps_its_order 0%nat es Hes) as H.
  assert (E : (audio_run 0%nat es audio_start).1 = [1; 2; 4; 5; 6; 7; 8; 9]%nat) by (vm_compute; reflexivity).
  destruct (audio_run 0%nat es audio_start) as [out s']; split; [split; [exact E|reflexivity]|exact H].
Defined.
