(* ===== verification/CodecChoice.v ===== *)
(** * Negotiation of the video codec

    Models how the host and its viewers agree on a codec
    (src/libs/scrap/src/common/codec.rs, with the selection of encoders and
    decoders of hwcodec.rs there), how a video service of the host picks its encoder
    ([setup_encoder], [get_encoder_config] and their callers in
    src/src/server/video_service.rs), and the messages of a connection that take
    part (src/src/server/connection.rs); in a Linux build with the feature
    hwcodec, that is without vram and mediacodec.

    The globals of codec.rs are one state, [CodecState]; each of its operations
    holds its locks to the end.  [HwCodecConfig::get()] and the options are
    [CodecEnv], an argument of each operation.  The hwcodec crate is the class
    [HwCodec].  Names of encoders are ASCII. *)

From stdpp Require Import strings.
From S2P Require Import Prelude Floats VideoFeedback ViewerPlayback.

(** ** Messages of the protocol *)

Inductive PreferCodec :=
| PreferAuto | PreferVP8 | PreferVP9 | PreferAV1 | PreferAV1_SW | PreferAV1_HW
| PreferH264 | PreferH264_HQ | PreferH265 | PreferH265_HQ.
#[export] Instance PreferCodec_eq_dec : EqDecision PreferCodec.
Proof. solve_decision. Defined.

Inductive Chroma := I420 | I444.
#[export] Instance Chroma_eq_dec : EqDecision Chroma.
Proof. solve_decision. Defined.

Record CodecAbility := { ability_i444_vp9 : bool; ability_i444_av1 : bool }.

(** What a viewer can decode; an enum the host does not know is [None]. *)
Record SupportedDecoding := {
  ability_vp8 : Z;
  ability_vp9 : Z;
  ability_av1 : Z;
  ability_h264 : Z;
  ability_h265 : Z;
  prefer : option PreferCodec;
  prefer_chroma : option Chroma;
  i444 : option CodecAbility;
}.
#[export] Instance eta_SupportedDecoding : Eta SupportedDecoding := fun r =>
  Build_SupportedDecoding (ability_vp8 r) (ability_vp9 r) (ability_av1 r) (ability_h264 r) (ability_h265 r)
    (prefer r) (prefer_chroma r) (i444 r).

(** What the host can encode. *)
Record SupportedEncoding := {
  enc_vp8 : bool;
  enc_av1 : bool;
  enc_av1_hw : bool;
  enc_h264 : bool;
  enc_h265 : bool;
  enc_h264_hq : bool;
  enc_h265_hq : bool;
  enc_i444 : option CodecAbility;
  movie_mode : bool;
}.
#[export] Instance eta_SupportedEncoding : Eta SupportedEncoding := fun r =>
  Build_SupportedEncoding (enc_vp8 r) (enc_av1 r) (enc_av1_hw r) (enc_h264 r) (enc_h265 r) (enc_h264_hq r) (enc_h265_hq r)
    (enc_i444 r) (movie_mode r).

(** The field of a message that may be missing reads as its default. *)
Definition i444_vp9 (d : SupportedDecoding) : bool := is_some_and (i444 d) ability_i444_vp9.
Definition i444_av1 (d : SupportedDecoding) : bool := is_some_and (i444 d) ability_i444_av1.

(** ** The codecs of the machine *)

Inductive DataFormat := FormatH264 | FormatH265 | FormatAV1 | FormatOther.
#[export] Instance DataFormat_eq_dec : EqDecision DataFormat.
Proof. solve_decision. Defined.

Inductive AVHWDeviceType := HWDEVICE_NONE | D3D11VA | DXVA2 | CUDA | QSV | VAAPI | VIDEOTOOLBOX | MEDIACODEC | VULKAN | HWDEVICE_OTHER.
#[export] Instance AVHWDeviceType_eq_dec : EqDecision AVHWDeviceType.
Proof. solve_decision. Defined.

Record CodecInfo := {
  codec_name : string;
  mc_name : option string;
  codec_format : DataFormat;
  priority : Z;
  high_quality : bool;
  hwdevice : AVHWDeviceType;
}.

Record CodecInfos := { best_h264 : option CodecInfo; best_h265 : option CodecInfo; best_av1 : option CodecInfo }.

(** The hwcodec crate: which encoders are software, which have a profile of high
    quality, the best codec of each format in a list, and the decoders of FFmpeg
    that need no device. *)
Class HwCodec := {
  is_software_encoder : CodecInfo -> bool;
  is_hardware_encoder : CodecInfo -> bool;
  supports_high_quality_profile : string -> bool;
  available_software_decoders : list CodecInfo;
  prioritized : list CodecInfo -> CodecInfos;
  prioritized_h264 l c : best_h264 (prioritized l) = Some c -> c ∈ l /\ codec_format c = FormatH264;
  prioritized_h265 l c : best_h265 (prioritized l) = Some c -> c ∈ l /\ codec_format c = FormatH265;
  prioritized_av1 l c : best_av1 (prioritized l) = Some c -> c ∈ l /\ codec_format c = FormatAV1;
}.

(** The codecs that were probed, the options of the machine, and the width of its
    pointers. *)
Record CodecEnv := {
  ram_encode : list CodecInfo;
  ram_decode : list CodecInfo;
  encoder_codec_preference : string;
  prefer_hardware_codec : bool;
  pointer_bytes : Z;
}.

Definition disable_av1 (env : CodecEnv) : bool := pointer_bytes env =? 4.

(** ** Preferences *)

Definition use_hardware (p : DecoderPreference) (prefer_hardware : bool) : bool :=
  match p with
  | Auto => prefer_hardware
  | Hardware => true
  | Software => false
  end.

Definition format_request (preference : PreferCodec) : PreferCodec :=
  match preference with
  | PreferAV1_SW | PreferAV1_HW => PreferAV1
  | PreferH264_HQ => PreferH264
  | PreferH265_HQ => PreferH265
  | other => other
  end.

Definition codec_for_preference (preference : PreferCodec) (auto_codec : CodecFormat) : CodecFormat :=
  match preference with
  | PreferVP8 => VP8
  | PreferVP9 => VP9
  | PreferAV1 | PreferAV1_SW | PreferAV1_HW => AV1
  | PreferH264 | PreferH264_HQ => H264
  | PreferH265 | PreferH265_HQ => H265
  | PreferAuto => auto_codec
  end.

Definition preference_from_codec_option (codec : string) : PreferCodec :=
  if String.eqb codec "vp8" then PreferVP8
  else if String.eqb codec "vp9" then PreferVP9
  else if existsb (String.eqb codec) ["av1"; "av1-hw"; "av1-sw"; "av1-legacy"]%string then PreferAV1
  else if existsb (String.eqb codec) ["h264"; "h264-hw"; "h264-sw"]%string then PreferH264
  else if existsb (String.eqb codec) ["h264-hq"; "h264-hq-sw"]%string then PreferH264_HQ
  else if existsb (String.eqb codec) ["h265"; "h265-hw"; "h265-sw"]%string then PreferH265
  else if existsb (String.eqb codec) ["h265-hq"; "h265-hq-sw"]%string then PreferH265_HQ
  else PreferAuto.

Definition encoder_backend_preference (option : string) (format : CodecFormat) (prefer_hardware : bool) : bool :=
  let selected := preference_from_codec_option option in
  if bool_decide (selected = PreferAuto) || negb (bool_decide (codec_for_preference selected Unknown = format))
  then prefer_hardware
  else use_hardware (from_option option) prefer_hardware.

Definition encoder_prefers_hardware (env : CodecEnv) (format : CodecFormat) : bool :=
  encoder_backend_preference (encoder_codec_preference env) format (prefer_hardware_codec env).

(** ** Encoders of the machine *)

Definition matches_format (f : CodecFormat) (d : DataFormat) : bool :=
  match f, d with
  | H264, FormatH264 | H265, FormatH265 | AV1, FormatAV1 => true
  | _, _ => false
  end.

(** The decoders of the viewers by connection, and capabilities by name. *)
Abbreviation decodings := (gmap Z SupportedDecoding).
Abbreviation capabilities := (gmap string bool).

Section Codecs.
Context `{hw : HwCodec}.

Definition best_of (f : CodecFormat) (best : CodecInfos) : option CodecInfo :=
  match f with
  | H264 => best_h264 best
  | H265 => best_h265 best
  | AV1 => best_av1 best
  | _ => None
  end.

Definition try_get_hardware (env : CodecEnv) (f : CodecFormat) : option CodecInfo :=
  best_of f (prioritized (List.filter (fun e => negb (is_software_encoder e)) (ram_encode env))).

Definition try_get_software (env : CodecEnv) (f : CodecFormat) : option CodecInfo :=
  best_of f (prioritized (List.filter is_software_encoder (ram_encode env))).

(** The order of pairs, [false] before [true]. *)
Definition key_lt (a b : bool * Z) : bool :=
  match a.1, b.1 with
  | false, true => true
  | true, false => false
  | _, _ => a.2 <? b.2
  end.

Definition select_preferred (encoders : list CodecInfo) (f : CodecFormat) (prefer_hardware : bool) : option CodecInfo :=
  let key := fun e => (negb (eqb (is_hardware_encoder e) prefer_hardware), priority e) in
  min_by (fun a b => key_lt (key a) (key b)) (List.filter (fun e => matches_format f (codec_format e)) encoders).

Definition preferred (env : CodecEnv) (f : CodecFormat) : option CodecInfo :=
  select_preferred (ram_encode env) f (encoder_prefers_hardware env f).

Definition select_high_quality_encoder (encoders : list CodecInfo) (f : CodecFormat) : option CodecInfo :=
  match f with
  | H264 | H265 =>
      min_by (fun a b => priority a <? priority b)
        (List.filter (fun e => matches_format f (codec_format e) && high_quality e && supports_high_quality_profile (codec_name e)) encoders)
  | _ => None
  end.

Definition try_get_high_quality (env : CodecEnv) (f : CodecFormat) : option CodecInfo :=
  select_high_quality_encoder (ram_encode env) f.

Definition decoder_supports (env : CodecEnv) (f : CodecFormat) (hardware : bool) : bool :=
  existsb (fun c => eqb (negb (bool_decide (hwdevice c = HWDEVICE_NONE))) hardware && matches_format f (codec_format c))
    (ram_decode env ++ (if hardware then [] else available_software_decoders)).

(** ** What each side advertises *)

(** [caps[key]]; the keys are always there. *)
Definition cap (caps : capabilities) (key : string) : bool := unwrap_or (caps !! key) false.

Definition insert_all (l : list (string * bool)) (caps : capabilities) : capabilities :=
  foldl (fun m p => <[p.1 := p.2]> m) caps l.

Definition encoder_capabilities (env : CodecEnv) : capabilities :=
  let caps := insert_all
    [("encVp8", true); ("encVp9", true); ("encAv1Sw", negb (disable_av1 env)); ("encAv1Hw", false);
     ("encH264Sw", false); ("encH264Hw", false); ("encH264Hq", false);
     ("encH265Sw", false); ("encH265Hw", false); ("encH265Hq", false)]%string ∅ in
  let caps := foldl (fun caps '(f, hardware, software, hq) =>
      let caps := <[hardware := (negb (bool_decide (f = AV1)) || negb (disable_av1 env)) && is_some (try_get_hardware env f)]> caps in
      let caps := if negb (bool_decide (f = AV1)) then <[software := is_some (try_get_software env f)]> caps else caps in
      match hq with
      | Some hq => <[hq := is_some (try_get_high_quality env f)]> caps
      | None => caps
      end) caps
    [(AV1, "encAv1Hw", "encAv1Sw", None); (H264, "encH264Hw", "encH264Sw", Some "encH264Hq");
     (H265, "encH265Hw", "encH265Sw", Some "encH265Hq")]%string in
  foldl (fun caps '(f, hardware, software) => <[f := cap caps hardware || cap caps software]> caps) caps
    [("encAv1", "encAv1Hw", "encAv1Sw"); ("encH264", "encH264Hw", "encH264Sw"); ("encH265", "encH265Hw", "encH265Sw")]%string.

Definition decoder_capabilities_for_rendering (env : CodecEnv) : capabilities :=
  let caps := insert_all
    [("vp8", true); ("vp9", true); ("av1Sw", negb (disable_av1 env)); ("av1Hw", false);
     ("h264Sw", false); ("h264Hw", false); ("h265Sw", false); ("h265Hw", false)]%string ∅ in
  let caps := foldl (fun caps '(f, hardware, software) =>
      let caps := <[hardware := decoder_supports env f true]> caps in
      if negb (bool_decide (f = AV1)) then <[software := decoder_supports env f false]> caps else caps) caps
    [(AV1, "av1Hw", "av1Sw"); (H264, "h264Hw", "h264Sw"); (H265, "h265Hw", "h265Sw")]%string in
  foldl (fun caps '(f, hardware, software) => <[f := cap caps hardware || cap caps software]> caps) caps
    [("av1", "av1Hw", "av1Sw"); ("h264", "h264Hw", "h264Sw"); ("h265", "h265Hw", "h265Sw")]%string.

(** What the viewer's menu offers, by what both sides can do. *)
Definition decoders_for_remote_encoding (local : capabilities) (remote : SupportedEncoding) : capabilities :=
  let local := <["local-h265Sw" := cap (<["local-h264Sw" := cap local "h264Sw"]> local) "h265Sw"]>
               (<["local-h264Sw" := cap local "h264Sw"]> local)%string in
  let local := <["requestH264Hq" := enc_h264_hq remote]> local in
  let local := <["requestH265Hq" := enc_h265_hq remote]> local in
  let local := <["vp8" := cap local "vp8" && enc_vp8 remote]> local in
  foldl (fun local '(keys, supported) =>
      foldl (fun local key => <[key := cap local key && supported]> local) local keys) local
    [(["av1"; "av1Hw"; "av1Sw"], enc_av1 remote || enc_av1_hw remote); (["h264"; "h264Hw"; "h264Sw"], enc_h264 remote);
     (["h265"; "h265Hw"; "h265Sw"], enc_h265 remote)]%string.

Definition supported_encoding (env : CodecEnv) : SupportedEncoding :=
  let caps := encoder_capabilities env in
  {| enc_vp8 := cap caps "encVp8"; enc_av1 := cap caps "encAv1"; enc_av1_hw := cap caps "encAv1Hw";
     enc_h264 := cap caps "encH264"; enc_h265 := cap caps "encH265"; enc_h264_hq := cap caps "encH264Hq";
     enc_h265_hq := cap caps "encH265Hq"; enc_i444 := Some {| ability_i444_vp9 := true; ability_i444_av1 := true |};
     movie_mode := false |}.

Definition MOVIE_MODE_HOST_CAPABLE : bool := true.
Definition supported_encoding_with_movie_mode (encoding : SupportedEncoding) : SupportedEncoding :=
  encoding <| movie_mode := MOVIE_MODE_HOST_CAPABLE |>.

(** [Decoder::preference], of the options stored for a peer. *)
Definition preference (options : option (gmap string string)) : PreferCodec * Chroma :=
  match options with
  | None => (PreferAuto, I420)
  | Some options =>
      (preference_from_codec_option (unwrap_or (options !! "codec-preference") "")%string,
       if bool_decide (options !! "i444" = Some "Y")%string then I444 else I420)
  end.

(** The answer of a viewer; [None] for a viewer that asks for no peer. *)
Definition supported_decodings (env : CodecEnv) (options : option (gmap string string)) : SupportedDecoding :=
  let '(p, chroma) := preference options in
  let caps := decoder_capabilities_for_rendering env in
  {| ability_vp8 := 1; ability_vp9 := 1; ability_av1 := Z.b2z (cap caps "av1");
     ability_h264 := Z.b2z (cap caps "h264"); ability_h265 := Z.b2z (cap caps "h265");
     prefer := Some p; prefer_chroma := Some chroma;
     i444 := Some {| ability_i444_vp9 := true; ability_i444_av1 := negb (disable_av1 env) |} |}.

(** ** The negotiated codec *)

Record UsableCodecs := {
  usable_vp8 : bool;
  usable_vp9 : bool;
  usable_av1 : bool;
  usable_h264 : bool;
  usable_h265 : bool;
}.

Definition supports (usable : UsableCodecs) (preference : PreferCodec) : bool :=
  match format_request preference with
  | PreferAuto => true
  | PreferVP8 => usable_vp8 usable
  | PreferVP9 => usable_vp9 usable
  | PreferAV1 | PreferAV1_SW | PreferAV1_HW => usable_av1 usable
  | PreferH264 | PreferH264_HQ => usable_h264 usable
  | PreferH265 | PreferH265_HQ => usable_h265 usable
  end.

Definition explicit_codec_preference_order : list PreferCodec :=
  [PreferAV1; PreferH265; PreferH264; PreferVP9; PreferVP8].

Definition values (m : decodings) : list SupportedDecoding := (map_to_list m).*2.

Definition prefer_or_auto (d : SupportedDecoding) : PreferCodec := unwrap_or (prefer d) PreferAuto.
Definition votes (m : decodings) (preference : PreferCodec) : Z :=
  count_if (fun d => bool_decide (format_request (prefer_or_auto d) = preference)) (values m).

(** The loop over the order: the selected preference and its count. *)
Definition count_preference (m : decodings) (usable : UsableCodecs) (best : option PreferCodec * Z) (preference : PreferCodec) : option PreferCodec * Z :=
  if negb (supports usable preference) then best
  else
    let count := votes m preference in
    if best.2 <? count then (Some preference, count) else best.

Definition with_profile (m : decodings) (format : PreferCodec) : PreferCodec :=
  let requested := fun hq => existsb (fun d => bool_decide (prefer_or_auto d = hq)) (values m) in
  match format with
  | PreferH264 => if requested PreferH264_HQ then PreferH264_HQ else format
  | PreferH265 => if requested PreferH265_HQ then PreferH265_HQ else format
  | _ => format
  end.

Definition preferred_explicit_codec (m : decodings) (usable : UsableCodecs) : option PreferCodec :=
  with_profile m <$> (foldl (count_preference m usable) (None, 0) explicit_codec_preference_order).1.

Definition available_encoding_profile (preference : PreferCodec) (h264_hq h265_hq : bool) : PreferCodec :=
  match preference with
  | PreferH264_HQ => if negb h264_hq then PreferH264 else preference
  | PreferH265_HQ => if negb h265_hq then PreferH265 else preference
  | other => other
  end.

Definition preferred_codec (m : decodings) (usable : UsableCodecs) (host_default : PreferCodec) : PreferCodec :=
  match preferred_explicit_codec m usable with
  | Some p => p
  | None => if supports usable host_default then host_default else PreferAuto
  end.

Definition auto_codec_for_usable (usable : UsableCodecs) : CodecFormat :=
  if usable_av1 usable then AV1
  else if usable_h265 usable then H265
  else if usable_h264 usable then H264
  else if usable_vp9 usable then VP9
  else if usable_vp8 usable then VP8
  else VP9.

(** [decodings.len() > 0 && decodings.iter().all(...)] *)
Definition all_peers (m : decodings) (ability : SupportedDecoding -> Z) : bool :=
  (0 <? Z.of_nat (size m)) && forallb (fun d => 0 <? ability d) (values m).

Definition runtime_software_fallback_codec (m : decodings) : option CodecFormat :=
  if all_peers m ability_vp9 then Some VP9
  else if all_peers m ability_vp8 then Some VP8
  else None.

Record CodecState := {
  PEER_DECODINGS : decodings;
  ENCODE_CODEC_FORMAT : CodecFormat;
  ENCODE_CODEC_PREFERENCE : PreferCodec;
  USABLE_ENCODING : option SupportedEncoding;
}.
#[export] Instance eta_CodecState : Eta CodecState := fun r =>
  Build_CodecState (PEER_DECODINGS r) (ENCODE_CODEC_FORMAT r) (ENCODE_CODEC_PREFERENCE r) (USABLE_ENCODING r).

Definition initial_codecs : CodecState :=
  {| PEER_DECODINGS := ∅; ENCODE_CODEC_FORMAT := VP9; ENCODE_CODEC_PREFERENCE := PreferAuto; USABLE_ENCODING := None |}.

(** The default of the message: zeroes, and the default preferences [p] and [c] of
    the protocol. *)
Definition only_vp9 (p : PreferCodec) (c : Chroma) : SupportedDecoding :=
  {| ability_vp8 := 0; ability_vp9 := 1; ability_av1 := 0; ability_h264 := 0; ability_h265 := 0;
     prefer := Some p; prefer_chroma := Some c; i444 := None |}.

Inductive EncodingUpdate :=
| Update (id : Z) (decoding : SupportedDecoding)
| Remove (id : Z)
| NewOnlyVP9 (id : Z)
| CheckOnly.

(** The defaults of the two enums of [SupportedDecoding]. *)
Class ProtocolDefaults := { default_prefer : PreferCodec; default_chroma : Chroma }.
Context `{proto : ProtocolDefaults}.

Definition change_decodings (u : EncodingUpdate) (m : decodings) : decodings :=
  match u with
  | Update id decoding => <[id := decoding]> m
  | Remove id => delete id m
  | NewOnlyVP9 id => <[id := only_vp9 default_prefer default_chroma]> m
  | CheckOnly => m
  end.

Definition usable_codecs (env : CodecEnv) (m : decodings) : UsableCodecs :=
  let h26x := fun ability f =>
    all_peers m ability && (is_some (try_get_hardware env f) || is_some (try_get_software env f)) in
  {| usable_vp8 := all_peers m ability_vp8; usable_vp9 := all_peers m ability_vp9;
     usable_av1 := all_peers m ability_av1 && negb (disable_av1 env);
     usable_h264 := h26x ability_h264 H264; usable_h265 := h26x ability_h265 H265 |}.

Definition hq_useable (env : CodecEnv) (m : decodings) (ability : SupportedDecoding -> Z) (f : CodecFormat) : bool :=
  all_peers m ability && is_some (try_get_high_quality env f).

Definition negotiated_preference (env : CodecEnv) (m : decodings) : PreferCodec :=
  available_encoding_profile
    (preferred_codec m (usable_codecs env m) (preference_from_codec_option (encoder_codec_preference env)))
    (hq_useable env m ability_h264 H264) (hq_useable env m ability_h265 H265).

Definition usable_encoding (env : CodecEnv) (m : decodings) : SupportedEncoding :=
  let usable := usable_codecs env m in
  {| enc_vp8 := usable_vp8 usable; enc_av1 := usable_av1 usable;
     enc_av1_hw := usable_av1 usable && is_some (try_get_hardware env AV1);
     enc_h264 := usable_h264 usable; enc_h265 := usable_h265 usable;
     enc_h264_hq := hq_useable env m ability_h264 H264; enc_h265_hq := hq_useable env m ability_h265 H265;
     enc_i444 := None; movie_mode := false |}.

Definition update (env : CodecEnv) (u : EncodingUpdate) (s : CodecState) : CodecState :=
  let m := change_decodings u (PEER_DECODINGS s) in
  let preference := negotiated_preference env m in
  {| PEER_DECODINGS := m;
     ENCODE_CODEC_FORMAT := codec_for_preference preference (auto_codec_for_usable (usable_codecs env m));
     ENCODE_CODEC_PREFERENCE := preference;
     USABLE_ENCODING := Some (usable_encoding env m) |}.

Definition negotiated_codec (s : CodecState) : CodecFormat := ENCODE_CODEC_FORMAT s.

Definition high_quality_profile_required (s : CodecState) : bool :=
  match ENCODE_CODEC_PREFERENCE s with
  | PreferH264_HQ | PreferH265_HQ => true
  | _ => false
  end.

Definition set_fallback_codec (fallback : CodecFormat) (s : CodecState) : CodecState :=
  if bool_decide (ENCODE_CODEC_FORMAT s = fallback) then s
  else s <| ENCODE_CODEC_FORMAT := fallback |> <| ENCODE_CODEC_PREFERENCE := PreferAuto |>.

Definition software_fallback_codec (s : CodecState) : option CodecFormat := runtime_software_fallback_codec (PEER_DECODINGS s).

Definition set_software_fallback_codec (s : CodecState) : option CodecFormat * CodecState :=
  match software_fallback_codec s with
  | None => (None, s)
  | Some fallback => (Some fallback, set_fallback_codec fallback s)
  end.

(** ** Configurations of encoders *)

Inductive VpxVideoCodecId := VpxVP8 | VpxVP9.
Inductive HwEncoderProfile := DefaultProfile | HighQuality.
#[export] Instance HwEncoderProfile_eq_dec : EqDecision HwEncoderProfile.
Proof. solve_decision. Defined.

(** The fields all configurations have. *)
Record EncoderParams := {
  width : Z;
  height : Z;
  quality : f32;
  fps : Z;
  keyframe_interval : option Z;
}.
#[export] Instance eta_EncoderParams : Eta EncoderParams := fun r =>
  Build_EncoderParams (width r) (height r) (quality r) (fps r) (keyframe_interval r).

Inductive EncoderCfg :=
| VPX (params : EncoderParams) (codec : VpxVideoCodecId)
| AOM (params : EncoderParams)
| HWRAM (params : EncoderParams) (name : string) (mc : option string) (profile : HwEncoderProfile).

Definition is_high_quality (cfg : EncoderCfg) : bool :=
  match cfg with
  | HWRAM _ _ _ profile => bool_decide (profile = HighQuality)
  | _ => false
  end.

Definition cfg_params (cfg : EncoderCfg) : EncoderParams :=
  match cfg with
  | VPX p _ | AOM p | HWRAM p _ _ _ => p
  end.
Definition with_params (p : EncoderParams) (cfg : EncoderCfg) : EncoderCfg :=
  match cfg with
  | VPX _ c => VPX p c
  | AOM _ => AOM p
  | HWRAM _ n mc profile => HWRAM p n mc profile
  end.

Definition to_lowercase (s : string) : string :=
  String.string_of_list_ascii (map (fun c =>
    let n := Ascii.nat_of_ascii c in
    if (65 <=? n)%nat && (n <=? 90)%nat then Ascii.ascii_of_nat (n + 32) else c) (String.list_ascii_of_string s)).
Definition contains (pattern s : string) : bool := is_some (String.index 0 pattern s).

Definition format_of_name (name : string) : CodecFormat :=
  let name := to_lowercase name in
  if contains "vp8" name then VP8
  else if contains "vp9" name then VP9
  else if contains "av1" name then AV1
  else if contains "h264" name || contains "x264" name then H264
  else H265.

(** The format [set_fallback] takes a configuration to be of. *)
Definition format_of_cfg (cfg : EncoderCfg) : CodecFormat :=
  match cfg with
  | VPX _ VpxVP8 => VP8
  | VPX _ VpxVP9 => VP9
  | AOM _ => AV1
  | HWRAM _ name _ _ => format_of_name name
  end.

Definition set_fallback (cfg : EncoderCfg) (s : CodecState) : CodecState := set_fallback_codec (format_of_cfg cfg) s.

Definition use_i444 (cfg : EncoderCfg) (s : CodecState) : bool :=
  let m := PEER_DECODINGS s in
  let prefer_i444 := forallb (fun d => bool_decide (prefer_chroma d = Some I444)) (values m) in
  let i444_useable :=
    match cfg with
    | VPX _ VpxVP8 => false
    | VPX _ VpxVP9 => forallb i444_vp9 (values m)
    | AOM _ => forallb i444_av1 (values m)
    | HWRAM _ _ _ _ => false
    end in
  prefer_i444 && i444_useable && negb (bool_decide (m = ∅)).

Definition DEFAULT_ENCODER_FPS : Z := 30.
Definition MAX_ENCODER_FPS : Z := 120.
Definition normalized_encoder_fps (fps : Z) : Z :=
  if (1 <=? fps) && (fps <=? MAX_ENCODER_FPS) then fps else DEFAULT_ENCODER_FPS.

(** ** The encoder of a video service *)

Definition capture_params (w h : Z) (quality : f32) (record : bool) (encoder_fps : Z) : EncoderParams :=
  {| width := w; height := h; quality := quality; fps := encoder_fps; keyframe_interval := if record then Some 240 else None |}.

Definition vpx_codec (fallback : CodecFormat) : VpxVideoCodecId :=
  if bool_decide (fallback = VP8) then VpxVP8 else VpxVP9.

(** [get_encoder_config], with what it read of the globals: the negotiated codec, then
    for H264 and H265 whether high quality is required, and, if no encoder of the
    machine is found, the software fallback. *)
Definition encoder_config (env : CodecEnv) (p : EncoderParams) (negotiated : CodecFormat) (hq : bool) (fallback : option CodecFormat) : option EncoderCfg :=
  match negotiated with
  | H264 | H265 =>
      match (if hq then try_get_high_quality env negotiated else preferred env negotiated) with
      | Some e => Some (HWRAM p (codec_name e) (mc_name e) (if hq then HighQuality else DefaultProfile))
      | None => (fun f => VPX p (vpx_codec f)) <$> fallback
      end
  | VP8 | VP9 => Some (VPX p (vpx_codec negotiated))
  | AV1 =>
      match (if encoder_prefers_hardware env AV1 then try_get_hardware env AV1 else None) with
      | Some e => Some (HWRAM p (codec_name e) (mc_name e) DefaultProfile)
      | None => Some (AOM p)
      end
  | Unknown => Some (VPX p VpxVP9)
  end.

Definition get_encoder_config (env : CodecEnv) (p : EncoderParams) (s : CodecState) : option EncoderCfg :=
  encoder_config env p (negotiated_codec s) (high_quality_profile_required s) (software_fallback_codec s).

(** What the loop of a service keeps of its encoder. *)
Record ServiceEncoder := { encoder_cfg : EncoderCfg; codec_format_in_use : CodecFormat; i444_in_use : bool }.

(** [opens cfg i444]: whether the library opens that encoder. *)
Variable opens : EncoderCfg -> bool -> bool.

(** [Encoder::new]: a hardware encoder that does not open falls back. *)
Definition new_encoder (cfg : EncoderCfg) (i444 : bool) (s : CodecState) : bool * CodecState :=
  if opens cfg i444 then (true, s)
  else match cfg with
       | HWRAM _ _ _ _ => (false, (set_software_fallback_codec s).2)
       | _ => (false, s)
       end.

(** [setup_encoder] after its configuration was chosen. *)
Definition setup_with (cfg : EncoderCfg) (s : CodecState) : option ServiceEncoder * CodecState :=
  let s := set_fallback cfg s in
  let codec_format := negotiated_codec s in
  let i444 := use_i444 cfg s in
  let '(opened, s) := new_encoder cfg i444 s in
  (if opened then Some {| encoder_cfg := cfg; codec_format_in_use := codec_format; i444_in_use := i444 |} else None, s).

Definition setup_encoder (env : CodecEnv) (p : EncoderParams) (s : CodecState) : option ServiceEncoder * CodecState :=
  match get_encoder_config env p s with
  | None => (None, s)
  | Some cfg => setup_with cfg s
  end.

(** The start of [run]: a second try with the software fallback. *)
Definition start_encoder (env : CodecEnv) (p : EncoderParams) (s : CodecState) : option ServiceEncoder * CodecState :=
  match setup_encoder env p s with
  | (Some e, s) => (Some e, s)
  | (None, s) =>
      match software_fallback_codec s with
      | None => (None, s)
      | Some fallback =>
          setup_encoder env p (set_fallback (VPX (p <| keyframe_interval := None |>) (vpx_codec fallback)) s)
      end
  end.

Definition encoder_settings_changed (current requested : CodecFormat) (cfg : EncoderCfg) (requested_hq : bool) : bool :=
  negb (bool_decide (current = requested)) || negb (eqb (is_high_quality cfg) requested_hq).

(** The checks of the loop before each frame, on which it stops and starts again. *)
Definition must_switch (e : ServiceEncoder) (s : CodecState) : bool :=
  encoder_settings_changed (codec_format_in_use e) (negotiated_codec s) (encoder_cfg e) (high_quality_profile_required s)
  || negb (eqb (use_i444 (encoder_cfg e) s) (i444_in_use e)).

Definition hq_reference_refresh_eligible (cfg : EncoderCfg) (codec_format : CodecFormat) : bool :=
  match codec_format, cfg with
  | (H264 | H265), HWRAM p _ _ HighQuality => is_none (keyframe_interval p)
  | _, _ => false
  end.

Definition recreate_encoder_at_quality (q : f32) (e : ServiceEncoder) (s : CodecState) : bool * CodecState :=
  new_encoder (with_params (cfg_params (encoder_cfg e) <| quality := q |>) (encoder_cfg e)) (i444_in_use e) s.

Definition recreate_encoder_at_fps (q : f32) (f : Z) (e : ServiceEncoder) (s : CodecState) : option EncoderCfg * CodecState :=
  let cfg := with_params (cfg_params (encoder_cfg e) <| quality := q |> <| fps := normalized_encoder_fps f |>) (encoder_cfg e) in
  let '(opened, s) := new_encoder cfg (i444_in_use e) s in
  (if opened then Some cfg else None, s).

(** ** Connections *)

(** [update_codec_on_login]: the options of the login request, if any, and what they
    say of decoders, if anything. *)
Definition update_codec_on_login (env : CodecEnv) (id : Z) (option : option (option SupportedDecoding)) (s : CodecState) : CodecState :=
  match option with
  | Some (Some q) => update env (Update id q) s
  | Some None | None => update env (NewOnlyVP9 id) s
  end.

(** The part of [update_options] about codecs. *)
Definition update_options (env : CodecEnv) (id : Z) (o : option SupportedDecoding) (s : CodecState) : CodecState :=
  match o with
  | Some q => update env (Update id q) s
  | None => s
  end.

Definition same_encoding (a b : SupportedEncoding) : bool :=
  eqb (enc_vp8 a) (enc_vp8 b) && eqb (enc_av1 a) (enc_av1 b) && eqb (enc_av1_hw a) (enc_av1_hw b)
  && eqb (enc_h264 a) (enc_h264 b) && eqb (enc_h265 a) (enc_h265 b)
  && eqb (enc_h264_hq a) (enc_h264_hq b) && eqb (enc_h265_hq a) (enc_h265_hq b).

(** The message sent, if one is, and [last_supported_encoding]. *)
Definition update_supported_encoding (s : CodecState) (last_supported_encoding : option SupportedEncoding) : option SupportedEncoding * option SupportedEncoding :=
  match last_supported_encoding, USABLE_ENCODING s with
  | Some last, Some usable =>
      if same_encoding usable last then (None, Some last)
      else
        let e := usable <| enc_i444 := enc_i444 last |> <| movie_mode := movie_mode last |> in
        (Some e, Some e)
  | last, _ => (None, last)
  end.
End Codecs.
