(* ===== verification/CodecTheory.v ===== *)
(** * What the negotiation of codecs guarantees

    On CodecChoice.v: which codec the viewers get, that the services of the host
    encode what every viewer can decode and do not change their encoders without
    end, and what happens when the globals change in the middle of a setup. *)

From stdpp Require Import strings.
From S2P Require Import Prelude Floats VideoFeedback ViewerPlayback CodecChoice.

(** ** Peers *)

Definition ability_of (f : CodecFormat) (d : SupportedDecoding) : Z :=
  match f with
  | VP8 => ability_vp8 d
  | VP9 => ability_vp9 d
  | AV1 => ability_av1 d
  | H264 => ability_h264 d
  | H265 => ability_h265 d
  | Unknown => 0
  end.

(** A viewer decodes full chroma of the format: there are encoders of it for VP9 and
    AV1 only. *)
Definition full_chroma_of (f : CodecFormat) (d : SupportedDecoding) : bool :=
  match f with
  | VP9 => i444_vp9 d
  | AV1 => i444_av1 d
  | _ => false
  end.

(** Every viewer decodes [f]. *)
Definition all_decode (m : decodings) (f : CodecFormat) : Prop :=
  forall id d, m !! id = Some d -> 0 < ability_of f d.

Lemma elem_of_peers (m : decodings) d : d ∈ values m <-> exists id, m !! id = Some d.
Proof.
  unfold values; rewrite list_elem_of_fmap; split.
  - intros ([id e] & -> & H); exists id; by apply elem_of_map_to_list in H.
  - intros (id & H); exists (id, d); split; [done|]; by apply elem_of_map_to_list.
Qed.

Lemma forallb_values (p : SupportedDecoding -> bool) (m : decodings) :
  forallb p (values m) = true <-> forall id d, m !! id = Some d -> p d = true.
Proof.
  rewrite forallb_forall; split.
  - intros H id d Hd; apply H, list_elem_of_In, elem_of_peers; eauto.
  - intros H d Hd; apply list_elem_of_In, elem_of_peers in Hd as [id Hd]; eauto.
Qed.

Lemma all_peers_true (m : decodings) ability :
  all_peers m ability = true <-> m <> ∅ /\ forall id d, m !! id = Some d -> 0 < ability d.
Proof.
  unfold all_peers; rewrite andb_true_iff, forallb_values, Z.ltb_lt.
  assert (0 < Z.of_nat (size m) <-> m <> ∅) as -> by (rewrite <- map_size_non_empty_iff; lia).
  apply and_iff_compat_l; split; intros H id d Hd; specialize (H id d Hd); lia.
Qed.

Lemma all_peers_decode m f : all_peers m (ability_of f) = true -> all_decode m f.
Proof. intros H; apply all_peers_true in H as [_ H]; exact H. Qed.
#[export] Hint Resolve all_peers_decode : rust.

Lemma software_fallback_decodes m f : runtime_software_fallback_codec m = Some f -> all_decode m f.
Proof.
  unfold runtime_software_fallback_codec; intros H.
  destruct (all_peers m ability_vp9) eqn:E9; [simplify_eq; by apply all_peers_decode|].
  destruct (all_peers m ability_vp8) eqn:E8; simplify_eq; by apply all_peers_decode.
Qed.

Lemma software_fallback_vpx m f : runtime_software_fallback_codec m = Some f -> f = VP8 \/ f = VP9.
Proof. unfold runtime_software_fallback_codec; intros H; repeat case_match; simplify_eq; auto. Qed.

(** ** The choice *)

Section Theory.
Context `{hw : HwCodec} `{proto : ProtocolDefaults}.

Lemma codec_of_profile m p a : codec_for_preference (with_profile m p) a = codec_for_preference p a.
Proof. destruct p; simpl; try done; by case_match. Qed.

Lemma codec_of_available p a h4 h5 :
  codec_for_preference (available_encoding_profile p h4 h5) a = codec_for_preference p a.
Proof. destruct p, h4, h5; done. Qed.

Lemma codec_of_request p a : codec_for_preference (format_request p) a = codec_for_preference p a.
Proof. by destruct p. Qed.

Lemma supported_preference_decodes env m p a :
  p <> PreferAuto -> supports (usable_codecs env m) p = true -> all_decode m (codec_for_preference p a).
Proof.
  intros Hp Hs; destruct p; try done; unfold supports in Hs; simpl in *; bools; by apply all_peers_decode.
Qed.

Lemma auto_decodes env m :
  runtime_software_fallback_codec m <> None -> all_decode m (auto_codec_for_usable (usable_codecs env m)).
Proof.
  unfold runtime_software_fallback_codec, auto_codec_for_usable; simpl; intros H.
  destruct (all_peers m ability_av1 && negb (disable_av1 env)) eqn:E1; [bools; by apply all_peers_decode|].
  destruct (all_peers m ability_h265 && _) eqn:E2; [bools; by apply all_peers_decode|].
  destruct (all_peers m ability_h264 && _) eqn:E3; [bools; by apply all_peers_decode|].
  destruct (all_peers m ability_vp9) eqn:E4; [by apply all_peers_decode|].
  destruct (all_peers m ability_vp8) eqn:E5; [by apply all_peers_decode|done].
Qed.

(** The vote over an order of preferences: the winner has the most votes among those
    that are usable, more than every one before it, and at least one. *)
Definition wins (m : decodings) (usable : UsableCodecs) (order : list PreferCodec) (best : option PreferCodec * Z) : Prop :=
  match best.1 with
  | None => best.2 = 0 /\ forall g, g ∈ order -> supports usable g = true -> votes m g = 0
  | Some f => best.2 = votes m f /\ 0 < votes m f /\ supports usable f = true /\
      (forall g, g ∈ order -> supports usable g = true -> votes m g <= votes m f) /\
      exists before after, order = before ++ f :: after /\
        forall g, g ∈ before -> supports usable g = true -> votes m g < votes m f
  end.

Lemma votes_nonneg m p : 0 <= votes m p.
Proof. unfold votes; pose proof (count_if_bounds (fun d => bool_decide (format_request (prefer_or_auto d) = p)) (values m)); lia. Qed.

Lemma count_preference_wins m usable order p best :
  wins m usable order best -> wins m usable (order ++ [p]) (count_preference m usable best p).
Proof.
  pose proof (votes_nonneg m p) as Hn; unfold wins, count_preference; intros H.
  destruct (supports usable p) eqn:Hs; simpl.
  - destruct (Z.ltb_spec best.2 (votes m p)) as [Hlt|Hge]; simpl.
    + assert (Hall : forall g, g ∈ order -> supports usable g = true -> votes m g < votes m p).
      { destruct best as [[f|] n]; simpl in *.
        - destruct H as (-> & ? & ? & Hle & _); intros g Hg Hu; specialize (Hle g Hg Hu); lia.
        - destruct H as [-> H0]; intros g Hg Hu; specialize (H0 g Hg Hu); lia. }
      split_and!; [done| |done| |by exists order, []].
      * destruct best as [[f|] n]; simpl in *; [destruct H as (-> & ? & _)|destruct H as [-> _]]; lia.
      * intros g Hg Hu; apply elem_of_app in Hg as [Hg|Hg%list_elem_of_singleton];
          [specialize (Hall g Hg Hu)|subst]; lia.
    + destruct best as [[f|] n]; simpl in *.
      * destruct H as (-> & ? & ? & Hle & b & a & -> & Hb); split_and!; try done.
        -- intros g Hg Hu; apply elem_of_app in Hg as [Hg|Hg%list_elem_of_singleton]; [by apply Hle|subst; lia].
        -- exists b, (a ++ [p]); by rewrite <- app_assoc.
      * destruct H as [-> H0]; split; [done|]; intros g Hg Hu.
        apply elem_of_app in Hg as [Hg|Hg%list_elem_of_singleton]; [by apply H0|subst; lia].
  - destruct best as [[f|] n]; simpl in *.
    + destruct H as (-> & ? & ? & Hle & b & a & -> & Hb); split_and!; try done.
      * intros g Hg Hu; apply elem_of_app in Hg as [Hg|Hg%list_elem_of_singleton]; [by apply Hle|subst; congruence].
      * exists b, (a ++ [p]); by rewrite <- app_assoc.
    + destruct H as [-> H0]; split; [done|]; intros g Hg Hu.
      apply elem_of_app in Hg as [Hg|Hg%list_elem_of_singleton]; [by apply H0|subst; congruence].
Qed.

Lemma count_preferences_win m usable order :
  wins m usable order (foldl (count_preference m usable) (None, 0) order).
Proof.
  induction order as [|p order IH] using rev_ind; [split; [done|set_solver]|].
  rewrite foldl_app; simpl; by apply count_preference_wins.
Qed.

(** A viewer asks for [p]. *)
Definition asked_for (m : decodings) (p : PreferCodec) : Prop := exists id d, m !! id = Some d /\ prefer d = Some p.

Lemma plurality_wins_supports m usable :
  match preferred_explicit_codec m usable with
  | Some p => supports usable p = true
  | None => True
  end.
Proof.
  unfold preferred_explicit_codec.
  pose proof (count_preferences_win m usable explicit_codec_preference_order) as H; unfold wins in H.
  set (best := foldl _ _ _) in *; destruct (best.1) as [f|]; simpl; [|done].
  destruct H as (_ & _ & Hs & _); destruct f; simpl; try done; by case_match.
Qed.

(** The viewers' explicit requests are a vote: the codec taken is usable and asked
    for, no usable codec has more votes, and those the order puts before it have fewer;
    a profile of high quality is taken if one of the voters asked for it.  Without a
    vote for a usable codec none is taken. *)
Theorem plurality_wins m usable :
  match preferred_explicit_codec m usable with
  | None => forall g, g ∈ explicit_codec_preference_order -> supports usable g = true -> votes m g = 0
  | Some p =>
      let f := format_request p in
      supports usable p = true /\ 0 < votes m f /\
      (forall g, g ∈ explicit_codec_preference_order -> supports usable g = true -> votes m g <= votes m f) /\
      (exists before after, explicit_codec_preference_order = before ++ f :: after /\
         forall g, g ∈ before -> supports usable g = true -> votes m g < votes m f) /\
      (p = f \/ asked_for m p)
  end.
Proof.
  unfold preferred_explicit_codec.
  pose proof (count_preferences_win m usable explicit_codec_preference_order) as H; unfold wins in H.
  set (best := foldl _ _ _) in *; destruct (best.1) as [f|]; simpl; [|by destruct H].
  destruct H as (_ & Hv & Hs & Hmax & before & after & Hord & Hbefore).
  assert (Hf : f ∈ explicit_codec_preference_order) by (rewrite Hord; set_solver).
  assert (Hreq : format_request (with_profile m f) = f).
  { unfold explicit_codec_preference_order in Hf; clear -Hf.
    repeat (apply elem_of_cons in Hf as [->|Hf]; [simpl; by repeat case_match|]); set_solver. }
  rewrite Hreq; split_and!; [by unfold supports in *; rewrite Hreq; destruct f|done|done|by eauto|].
  assert (Hask : forall hq, existsb (fun d => bool_decide (prefer_or_auto d = hq)) (values m) = true ->
      hq <> PreferAuto -> asked_for m hq).
  { intros hq (d & Hd & Ep)%existsb_exists Hne; apply list_elem_of_In, elem_of_peers in Hd as [id Hd].
    exists id, d; split; [done|]; bools; unfold prefer_or_auto in Ep; destruct (prefer d); naive_solver. }
  destruct f; simpl; auto; case_match; auto.
Qed.

(** ** Runs of the host *)

(** The names of the probed encoders tell their formats. *)
Definition names_tell (env : CodecEnv) : Prop :=
  forall e f, e ∈ ram_encode env -> matches_format f (codec_format e) = true -> format_of_name (codec_name e) = f.

Lemma best_of_sound f l c :
  best_of f (prioritized l) = Some c -> c ∈ l /\ matches_format f (codec_format c) = true.
Proof.
  destruct f; simpl; try done; intros H; [apply prioritized_av1 in H|apply prioritized_h264 in H|apply prioritized_h265 in H];
    destruct H as [? ->]; done.
Qed.

Lemma elem_of_list_filter_bool {A} (p : A -> bool) (l : list A) x : x ∈ List.filter p l <-> x ∈ l /\ p x = true.
Proof. by rewrite !list_elem_of_In, filter_In. Qed.

Lemma try_get_hardware_sound env f c :
  try_get_hardware env f = Some c -> c ∈ ram_encode env /\ matches_format f (codec_format c) = true.
Proof. intros [H ?]%best_of_sound; by apply elem_of_list_filter_bool in H as [? _]. Qed.

Lemma preferred_sound env f c :
  preferred env f = Some c -> c ∈ ram_encode env /\ matches_format f (codec_format c) = true.
Proof. intros H%min_by_elem_of; by apply elem_of_list_filter_bool in H. Qed.

Lemma try_get_high_quality_sound env f c :
  try_get_high_quality env f = Some c -> c ∈ ram_encode env /\ matches_format f (codec_format c) = true.
Proof.
  unfold try_get_high_quality; destruct f; simpl; try done;
    intros H%min_by_elem_of; apply elem_of_list_filter_bool in H as [? H]; split; [done| |done|]; by bools.
Qed.
#[local] Hint Resolve try_get_hardware_sound preferred_sound try_get_high_quality_sound : core.

Lemma key_lt_irrefl a : key_lt a a = false.
Proof. destruct a as [[] n]; cbn; apply Z.ltb_irrefl. Qed.
Lemma key_lt_trans a b c : key_lt a b = false -> key_lt b c = false -> key_lt a c = false.
Proof. destruct a as [[] n], b as [[] k], c as [[] l]; cbn; try done; rewrite !Z.ltb_ge; lia. Qed.
Lemma key_lt_asym a b : key_lt a b = true -> key_lt b a = false.
Proof. destruct a as [[] n], b as [[] k]; cbn; try done; rewrite Z.ltb_lt, Z.ltb_ge; lia. Qed.

(** The option for hardware or software is followed wherever the machine has such an
    encoder of the format, and among those the priority decides. *)
Lemma preferred_backend env f e e' :
  preferred env f = Some e -> e' ∈ ram_encode env -> matches_format f (codec_format e') = true ->
  is_hardware_encoder e' = encoder_prefers_hardware env f ->
  is_hardware_encoder e = encoder_prefers_hardware env f /\ priority e <= priority e'.
Proof.
  intros Hp He' Hm Hh.
  unfold preferred, select_preferred in Hp; eapply min_by_least with (y := e') in Hp as Hl;
    [|intros a; apply key_lt_irrefl|intros a b c; apply key_lt_trans|intros a b; apply key_lt_asym|by apply elem_of_list_filter_bool].
  unfold key_lt in Hl; cbn [fst snd] in Hl; rewrite Hh in Hl.
  destruct (is_hardware_encoder e), (encoder_prefers_hardware env f); cbn in Hl; try done; (split; [done|lia]).
Qed.

(** What a configuration is of: the negotiated codec, unless no encoder of the
    machine is left for it. *)
Lemma encoder_config_format env p f hq fallback cfg :
  names_tell env -> f <> Unknown -> (forall g, fallback = Some g -> g = VP8 \/ g = VP9) ->
  encoder_config env p f hq fallback = Some cfg ->
  (format_of_cfg cfg = f /\ (is_high_quality cfg = true -> hq = true) /\
     (f = H264 \/ f = H265 -> is_high_quality cfg = hq)) \/
  (fallback = Some (format_of_cfg cfg) /\ is_high_quality cfg = false /\ (f = H264 \/ f = H265)).
Proof.
  intros Hn Hu Hfb Hc; assert (Hvpx : forall g, fallback = Some g -> fallback = Some (format_of_cfg (VPX p (vpx_codec g)))).
  { intros g Hg; destruct (Hfb g Hg) as [-> | ->]; done. }
  unfold encoder_config in Hc; destruct f; try done; simplify_eq; simpl; try (left; split_and!; naive_solver).
  - destruct (if encoder_prefers_hardware env AV1 then _ else _) as [e|] eqn:Ee; simplify_eq; left; [|naive_solver].
    destruct (encoder_prefers_hardware env AV1); [|done].
    apply try_get_hardware_sound in Ee as [He Hm]; simpl; rewrite (Hn e AV1 He Hm); naive_solver.
  - destruct (if hq then _ else _) as [e|] eqn:Ee; simplify_eq.
    + left; assert (e ∈ ram_encode env /\ matches_format H264 (codec_format e) = true) as [He Hm] by (destruct hq; auto).
      simpl; rewrite (Hn e H264 He Hm); destruct hq; naive_solver.
    + right; destruct fallback as [g|]; simplify_eq/=; split; [by apply Hvpx|by destruct (vpx_codec g); auto].
  - destruct (if hq then _ else _) as [e|] eqn:Ee; simplify_eq.
    + left; assert (e ∈ ram_encode env /\ matches_format H265 (codec_format e) = true) as [He Hm] by (destruct hq; auto).
      simpl; rewrite (Hn e H265 He Hm); destruct hq; naive_solver.
    + right; destruct fallback as [g|]; simplify_eq/=; split; [by apply Hvpx|by destruct (vpx_codec g); auto].
Qed.

(** The preference agrees with the codec. *)
Definition consistent (s : CodecState) : Prop :=
  ENCODE_CODEC_FORMAT s <> Unknown /\
  (ENCODE_CODEC_PREFERENCE s <> PreferAuto -> forall a, codec_for_preference (ENCODE_CODEC_PREFERENCE s) a = ENCODE_CODEC_FORMAT s).

Lemma consistent_hq s :
  consistent s -> high_quality_profile_required s = true -> ENCODE_CODEC_FORMAT s = H264 \/ ENCODE_CODEC_FORMAT s = H265.
Proof.
  unfold high_quality_profile_required; intros [_ H] Hq.
  destruct (ENCODE_CODEC_PREFERENCE s); try done; rewrite <- (H ltac:(done) VP9); auto.
Qed.

Lemma set_fallback_codec_consistent f s : f <> Unknown -> consistent s -> consistent (set_fallback_codec f s).
Proof. intros Hf [? ?]; unfold set_fallback_codec; case_match; split; try done. Qed.

Lemma update_consistent env u s : consistent (update env u s).
Proof.
  unfold update; split; simpl.
  - assert (auto_codec_for_usable (usable_codecs env (change_decodings u (PEER_DECODINGS s))) <> Unknown)
      by (unfold auto_codec_for_usable; by repeat case_match).
    by destruct (negotiated_preference env _).
  - intros H a; by destruct (negotiated_preference env _).
Qed.

(** If the viewers share a codec of libvpx, they all decode the negotiated one. *)
Definition decodable (s : CodecState) : Prop :=
  software_fallback_codec s = None \/ all_decode (PEER_DECODINGS s) (ENCODE_CODEC_FORMAT s).

Lemma set_fallback_codec_decodings f s : PEER_DECODINGS (set_fallback_codec f s) = PEER_DECODINGS s.
Proof. unfold set_fallback_codec; by case_match. Qed.

Lemma set_fallback_codec_format f s : ENCODE_CODEC_FORMAT (set_fallback_codec f s) = f.
Proof. unfold set_fallback_codec; case_match; bools; done. Qed.

Lemma set_fallback_codec_decodable f s : all_decode (PEER_DECODINGS s) f -> decodable (set_fallback_codec f s).
Proof. right; by rewrite set_fallback_codec_decodings, set_fallback_codec_format. Qed.

Lemma update_decodable env u s : decodable (update env u s).
Proof.
  unfold decodable, software_fallback_codec; cbn [PEER_DECODINGS ENCODE_CODEC_FORMAT update].
  set (m := change_decodings u (PEER_DECODINGS s)); destruct (runtime_software_fallback_codec m) eqn:E; [right|by left].
  pose proof (auto_decodes env m ltac:(congruence)) as Ha; unfold negotiated_preference; rewrite codec_of_available.
  set (usable := usable_codecs env m) in *; set (default := preference_from_codec_option _).
  unfold preferred_codec; pose proof (plurality_wins_supports m usable) as Hp.
  destruct (preferred_explicit_codec m usable) as [p|].
  - destruct (decide (p = PreferAuto)) as [->|Hne]; [done|by apply (supported_preference_decodes env)].
  - destruct (supports usable default) eqn:Ed; [|done].
    destruct (decide (default = PreferAuto)) as [-> | Hne]; [done|by apply (supported_preference_decodes env)].
Qed.

Lemma set_software_fallback_effect s :
  (software_fallback_codec s = None /\ (set_software_fallback_codec s).2 = s) \/
  exists f, software_fallback_codec s = Some f /\ (f = VP8 \/ f = VP9) /\
    (set_software_fallback_codec s).2 = set_fallback_codec f s.
Proof.
  unfold set_software_fallback_codec; destruct (software_fallback_codec s) as [f|] eqn:E; [right|by left].
  exists f; split_and!; [done|by eapply software_fallback_vpx|done].
Qed.

(** What all operations on the globals keep. *)
Definition sound (s : CodecState) : Prop := consistent s /\ decodable s.

Lemma set_software_fallback_sound s : sound s -> sound (set_software_fallback_codec s).2.
Proof.
  intros [Hc Hd]; destruct (set_software_fallback_effect s) as [[_ ->]|(f & E & Hf & ->)]; [done|].
  split; [apply set_fallback_codec_consistent; [by destruct Hf as [-> | ->]|done]|].
  by apply set_fallback_codec_decodable, software_fallback_decodes.
Qed.

Lemma set_software_fallback_decodings s : PEER_DECODINGS (set_software_fallback_codec s).2 = PEER_DECODINGS s.
Proof.
  destruct (set_software_fallback_effect s) as [[_ ->]|(f & _ & _ & ->)]; [done|by rewrite set_fallback_codec_decodings].
Qed.

Lemma chosen_config env p s cfg :
  names_tell env -> consistent s -> get_encoder_config env p s = Some cfg ->
  (format_of_cfg cfg = ENCODE_CODEC_FORMAT s /\ is_high_quality cfg = high_quality_profile_required s) \/
  (software_fallback_codec s = Some (format_of_cfg cfg) /\ format_of_cfg cfg <> ENCODE_CODEC_FORMAT s /\ is_high_quality cfg = false).
Proof.
  intros Hn Hc Hg; pose proof (consistent_hq s Hc) as Hhq.
  pose proof (software_fallback_vpx (PEER_DECODINGS s)) as Hv.
  destruct (encoder_config_format env p _ _ _ cfg Hn (proj1 Hc) Hv Hg) as [(Hf & H1 & H2)|(Hf & Hq & H26)].
  - left; split; [done|]; destruct (high_quality_profile_required s); [by apply H2, Hhq|].
    destruct (is_high_quality cfg); [by specialize (H1 eq_refl)|done].
  - right; split_and!; [done| |done]; unfold negotiated_codec in *; destruct (Hv _ Hf), H26; congruence.
Qed.

Lemma set_chosen_sound env p s cfg :
  names_tell env -> sound s -> get_encoder_config env p s = Some cfg -> sound (set_fallback cfg s).
Proof.
  intros Hn [Hc Hd] Hg; unfold set_fallback.
  assert (Hf : format_of_cfg cfg <> Unknown /\ (software_fallback_codec s = None \/ all_decode (PEER_DECODINGS s) (format_of_cfg cfg))).
  { destruct (chosen_config env p s cfg Hn Hc Hg) as [[-> _]|(E & _)]; [by destruct Hc|].
    split; [by apply software_fallback_vpx in E as [-> | ->]|right; by apply software_fallback_decodes]. }
  destruct Hf as [Hu [Hf|Hf]]; split; try (by apply set_fallback_codec_consistent).
  - left; unfold software_fallback_codec in *; by rewrite set_fallback_codec_decodings.
  - by apply set_fallback_codec_decodable.
Qed.

(** ** Services *)

Variable opens : EncoderCfg -> bool -> bool.

(** What starting an encoder gives: an encoder of a configuration, with what was
    read of the globals it leaves. *)
Definition fresh (e : ServiceEncoder) (s : CodecState) : Prop :=
  codec_format_in_use e = ENCODE_CODEC_FORMAT s /\ format_of_cfg (encoder_cfg e) = ENCODE_CODEC_FORMAT s /\
  is_high_quality (encoder_cfg e) = high_quality_profile_required s /\ i444_in_use e = use_i444 (encoder_cfg e) s.

Lemma new_encoder_effect cfg i s :
  (opens cfg i = true /\ new_encoder opens cfg i s = (true, s)) \/
  (opens cfg i = false /\ (new_encoder opens cfg i s).1 = false /\
     ((new_encoder opens cfg i s).2 = s \/ (new_encoder opens cfg i s).2 = (set_software_fallback_codec s).2)).
Proof. unfold new_encoder; destruct (opens cfg i); [by left|right]; destruct cfg; auto. Qed.

Lemma setup_encoder_effect env p s :
  names_tell env -> sound s ->
  sound (setup_encoder opens env p s).2 /\ PEER_DECODINGS (setup_encoder opens env p s).2 = PEER_DECODINGS s /\
  forall e, (setup_encoder opens env p s).1 = Some e ->
    fresh e (setup_encoder opens env p s).2 /\ opens (encoder_cfg e) (i444_in_use e) = true.
Proof.
  intros Hn Hs; unfold setup_encoder; destruct (get_encoder_config env p s) as [cfg|] eqn:Hg; [|done].
  pose proof (set_chosen_sound env p s cfg Hn Hs Hg) as Hs'; destruct (chosen_config env p s cfg Hn (proj1 Hs) Hg) as [H|H];
  unfold setup_with; set (i := use_i444 cfg (set_fallback cfg s));
  destruct (new_encoder_effect cfg i (set_fallback cfg s)) as [[Ho ->]|(_ & Hnone & Hst)].
  2, 4: destruct (new_encoder opens cfg i (set_fallback cfg s)) as [b s']; simpl in *; subst b;
    (split_and!; [|by destruct Hst as [-> | ->]; rewrite ?set_software_fallback_decodings; apply set_fallback_codec_decodings|done]);
    destruct Hst as [-> | ->]; [done|by apply set_software_fallback_sound].
  all: split_and!; [done|apply set_fallback_codec_decodings|]; intros e [= <-]; unfold fresh; simpl;
    (split; [|done]); split_and!; [done|by unfold set_fallback; rewrite set_fallback_codec_format| |done].
  - destruct H as [Hf Hq]; unfold set_fallback, set_fallback_codec; by rewrite bool_decide_eq_true_2 by done.
  - destruct H as (_ & Hf & Hq); unfold set_fallback, set_fallback_codec; by rewrite bool_decide_eq_false_2 by done.
Qed.

Lemma software_restart_sound p fallback s :
  sound s -> software_fallback_codec s = Some fallback -> sound (set_fallback (VPX p (vpx_codec fallback)) s).
Proof.
  intros [Hc Hd] E; pose proof (software_fallback_vpx _ _ E) as Hv; unfold set_fallback.
  assert (format_of_cfg (VPX p (vpx_codec fallback)) = fallback) as -> by (by destruct Hv as [-> | ->]).
  split; [apply set_fallback_codec_consistent; [by destruct Hv as [-> | ->]|done]|].
  by apply set_fallback_codec_decodable, software_fallback_decodes.
Qed.

Lemma start_encoder_effect env p s :
  names_tell env -> sound s ->
  sound (start_encoder opens env p s).2 /\ PEER_DECODINGS (start_encoder opens env p s).2 = PEER_DECODINGS s /\
  forall e, (start_encoder opens env p s).1 = Some e -> fresh e (start_encoder opens env p s).2.
Proof.
  intros Hn Hs; destruct (setup_encoder_effect env p s Hn Hs) as (H1 & H2 & H3).
  unfold start_encoder; destruct (setup_encoder opens env p s) as [[e|] s1]; simpl in *.
  { split_and!; [done|done|]; intros e' [= <-]; by apply H3. }
  destruct (software_fallback_codec s1) as [f|] eqn:E; [|done].
  pose proof (software_restart_sound (p <| keyframe_interval := None |>) f s1 H1 E) as Hr.
  match goal with |- context [setup_encoder opens env p ?s2] =>
    destruct (setup_encoder_effect env p s2 Hn Hr) as (? & Hd & H4); split_and!; [done| |intros e He; by apply H4];
    rewrite Hd; unfold set_fallback; by rewrite set_fallback_codec_decodings
  end.
Qed.

Record VideoHost := { codecs : CodecState; encoders : gmap Z ServiceEncoder }.

(** What happens at the host: a message of a viewer or its end, the start of the
    service of a display, its end, and an encoder that fails while it runs. *)
Inductive HostEvent :=
| Negotiate (u : EncodingUpdate)
| StartService (display : Z) (p : EncoderParams)
| StopService (display : Z)
| EncoderFails (display : Z).

Definition host_event (env : CodecEnv) (ev : HostEvent) (h : VideoHost) : VideoHost :=
  match ev with
  | Negotiate u => {| codecs := update env u (codecs h); encoders := encoders h |}
  | StartService d p =>
      let '(e, s) := start_encoder opens env p (codecs h) in
      {| codecs := s; encoders := match e with Some e => <[d := e]> (encoders h) | None => delete d (encoders h) end |}
  | StopService d => {| codecs := codecs h; encoders := delete d (encoders h) |}
  | EncoderFails d => {| codecs := (set_software_fallback_codec (codecs h)).2; encoders := delete d (encoders h) |}
  end.

Definition host_run (es : list (CodecEnv * HostEvent)) : VideoHost :=
  foldl (fun h ev => host_event ev.1 ev.2 h) {| codecs := initial_codecs; encoders := ∅ |} es.

Definition well_started (h : VideoHost) : Prop :=
  sound (codecs h) /\ forall d e, encoders h !! d = Some e -> format_of_cfg (encoder_cfg e) = codec_format_in_use e.

Lemma host_run_well_started es : Forall (fun ev => names_tell ev.1) es -> well_started (host_run es).
Proof.
  unfold host_run; assert (H0 : well_started {| codecs := initial_codecs; encoders := ∅ |}).
  { split; [|intros d e; cbn [encoders]; by rewrite lookup_empty]; split; [split; [done|intros H; by destruct H]|by left]. }
  revert H0; generalize {| codecs := initial_codecs; encoders := ∅ |}.
  induction es as [|[env ev] es IH]; intros h [Hs He] Hn; [done|]; apply Forall_cons in Hn as [Hn Hns].
  apply IH; [|done]; destruct ev as [u|d p|d|d]; simpl in *.
  - split; [split; [apply update_consistent|apply update_decodable]|done].
  - destruct (start_encoder_effect env p (codecs h) Hn Hs) as (H1 & _ & H2).
    destruct (start_encoder opens env p (codecs h)) as [[e|] s]; simpl in *; split; cbn [codecs encoders]; try done.
    + intros d' e'; destruct (decide (d = d')) as [<-|]; [|rewrite lookup_insert_ne by done; apply He].
      rewrite lookup_insert_eq; intros [= <-]; destruct (H2 e eq_refl) as (-> & -> & _); done.
    + cbn [encoders]; intros d' e' [_ ?]%lookup_delete_Some; by eapply He.
  - split; [done|]; cbn [encoders]; intros d' e' [_ ?]%lookup_delete_Some; by eapply He.
  - split; [by apply set_software_fallback_sound|]; cbn [encoders]; intros d' e' [_ ?]%lookup_delete_Some; by eapply He.
Qed.

(** C16. When no setup is interrupted and the names of the probed encoders tell their
    formats, every frame a service is about to encode is one that each viewer decodes,
    if the viewers share a codec of libvpx: the service checked its settings and goes
    on, so its encoder is of the negotiated codec, which they all decode; and it encodes
    full chroma only if every viewer wants it and decodes it of that very codec. *)
Theorem encoded_frames_are_decodable es d e :
  Forall (fun ev => names_tell ev.1) es ->
  encoders (host_run es) !! d = Some e ->
  must_switch e (codecs (host_run es)) = false ->
  software_fallback_codec (codecs (host_run es)) <> None ->
  forall id viewer, PEER_DECODINGS (codecs (host_run es)) !! id = Some viewer ->
    0 < ability_of (format_of_cfg (encoder_cfg e)) viewer /\
    (i444_in_use e = true -> prefer_chroma viewer = Some I444 /\ full_chroma_of (format_of_cfg (encoder_cfg e)) viewer = true).
Proof.
  intros Hn He Hm Hs id viewer Hv; destruct (host_run_well_started es Hn) as [[_ Hd] Hf].
  unfold must_switch, encoder_settings_changed in Hm; bools; split.
  - rewrite (Hf d e He); destruct Hd as [Hd|Hd]; [by rewrite Hd in Hs|].
    assert (codec_format_in_use e = ENCODE_CODEC_FORMAT (codecs (host_run es))) as -> by assumption.
    by apply Hd with id.
  - intros Hi; match goal with H : eqb (use_i444 _ _) _ = true |- _ => apply eqb_prop in H; rewrite Hi in H; rename H into Hu end.
    unfold use_i444 in Hu; bools; rewrite forallb_values in *.
    match goal with H : forall id d, _ -> bool_decide _ = true |- _ => specialize (H id viewer Hv); bools end.
    split; [done|]; destruct (encoder_cfg e) as [p []|p|]; try done; rewrite forallb_values in *; cbn; eauto.
Qed.

(** A service does not change its encoder without end: one that was started with
    nothing in between passes its checks until a viewer or a failure changes the
    globals. *)
Theorem fresh_encoder_is_kept es env p e :
  Forall (fun ev => names_tell ev.1) es -> names_tell env ->
  (start_encoder opens env p (codecs (host_run es))).1 = Some e ->
  must_switch e (start_encoder opens env p (codecs (host_run es))).2 = false.
Proof.
  intros Hn He Hs; destruct (host_run_well_started es Hn) as [H _].
  destruct (start_encoder_effect env p _ He H) as (_ & _ & Hf); destruct (Hf e Hs) as (H1 & _ & H2 & H3).
  unfold must_switch, encoder_settings_changed, negotiated_codec; rewrite <- H1, H2, H3.
  by rewrite bool_decide_eq_true_2, !eqb_reflx.
Qed.

(** A configuration for VP8 or VP9 is one of libvpx. *)
Lemma vpx_config env p s :
  ENCODE_CODEC_FORMAT s = VP8 \/ ENCODE_CODEC_FORMAT s = VP9 ->
  exists c, get_encoder_config env p s = Some (VPX p c).
Proof.
  unfold get_encoder_config, encoder_config, negotiated_codec; intros [-> | ->]; eauto.
Qed.

(** C17. A service finds an encoder whatever else fails to open, as long as libvpx
    works and the viewers share a codec of it: after any events at the host, none of
    which interrupted the setup of another, and with probed encoders whose names tell
    their formats, the service starts with an encoder that opened, of a codec that every
    viewer decodes. *)
Theorem service_finds_an_encoder es env p :
  Forall (fun ev => names_tell ev.1) es -> names_tell env ->
  (forall q c i, opens (VPX q c) i = true) -> software_fallback_codec (codecs (host_run es)) <> None ->
  exists e, (start_encoder opens env p (codecs (host_run es))).1 = Some e /\
    opens (encoder_cfg e) (i444_in_use e) = true /\
    forall id viewer, PEER_DECODINGS (codecs (host_run es)) !! id = Some viewer ->
      0 < ability_of (format_of_cfg (encoder_cfg e)) viewer.
Proof.
  intros Hes Hn Hvpx; destruct (host_run_well_started es Hes) as [Hs _]; revert Hs; generalize (codecs (host_run es)) as s.
  intros s Hs Hfb.
  assert (Hdec : forall e, (start_encoder opens env p s).1 = Some e -> all_decode (PEER_DECODINGS s) (format_of_cfg (encoder_cfg e))).
  { intros e He; destruct (start_encoder_effect env p s Hn Hs) as ([_ [Hd|Hd]] & Hm & Hf);
      unfold software_fallback_codec in *; rewrite Hm in Hd; [done|].
    by destruct (Hf e He) as (_ & -> & _). }
  enough (exists e, (start_encoder opens env p s).1 = Some e /\ opens (encoder_cfg e) (i444_in_use e) = true) as (e & He & Ho)
    by (exists e; split_and!; [done|done|by apply Hdec]).
  destruct (setup_encoder_effect env p s Hn Hs) as (_ & Hm & Hopen); unfold start_encoder.
  destruct (setup_encoder opens env p s) as [[e|] s1]; [exists e; split; [done|by apply Hopen]|simpl in Hm].
  destruct (software_fallback_codec s1) as [f|] eqn:E; [|by unfold software_fallback_codec in *; rewrite Hm in E].
  match goal with |- context [setup_encoder _ _ _ ?s2] => destruct (vpx_config env p s2) as [c Hc] end.
  { unfold set_fallback; rewrite set_fallback_codec_format; destruct (software_fallback_vpx _ _ E) as [-> | ->]; auto. }
  unfold setup_encoder; rewrite Hc; unfold setup_with, new_encoder; rewrite Hvpx; eexists; split; [done|apply Hvpx].
Qed.

(** High quality is negotiated only if it can be had: all viewers decode the
    format, and the host probed an encoder of it with that profile, which is the one
    a service then takes. *)
Theorem high_quality_is_available env u s p :
  high_quality_profile_required (update env u s) = true ->
  exists e, try_get_high_quality env (ENCODE_CODEC_FORMAT (update env u s)) = Some e /\
    high_quality e = true /\ supports_high_quality_profile (codec_name e) = true /\
    all_decode (PEER_DECODINGS (update env u s)) (ENCODE_CODEC_FORMAT (update env u s)) /\
    get_encoder_config env p (update env u s) = Some (HWRAM p (codec_name e) (mc_name e) HighQuality).
Proof.
  intros H; assert (Hq : forall f e, try_get_high_quality env f = Some e -> high_quality e = true /\ supports_high_quality_profile (codec_name e) = true).
  { unfold try_get_high_quality; intros f e; destruct f; simpl; try done;
      intros [_ He]%min_by_elem_of%elem_of_list_filter_bool; by bools. }
  unfold get_encoder_config; rewrite H; revert H; unfold high_quality_profile_required, negotiated_codec.
  cbn [update ENCODE_CODEC_PREFERENCE ENCODE_CODEC_FORMAT PEER_DECODINGS software_fallback_codec].
  set (m := change_decodings u (PEER_DECODINGS s)); unfold negotiated_preference, available_encoding_profile.
  destruct (preferred_codec m _ _); try done; cbn [negb];
    [destruct (hq_useable env m ability_h264 H264) eqn:E|destruct (hq_useable env m ability_h265 H265) eqn:E]; try done; intros _;
    unfold hq_useable in E; apply andb_true_iff in E as [Hd Ht]; cbn [negb codec_for_preference];
    [destruct (try_get_high_quality env H264) as [e|] eqn:Ee|destruct (try_get_high_quality env H265) as [e|] eqn:Ee]; try done;
    exists e; destruct (Hq _ _ Ee); split_and!; try done;
    first [by apply all_peers_decode|unfold encoder_config; by rewrite Ee].
Qed.

(** ** Updates *)

(** What an update leaves depends on the peers alone: a fallback is forgotten. *)
Lemma update_history env u s s' :
  PEER_DECODINGS s = PEER_DECODINGS s' -> update env u s = update env u s'.
Proof. intros H; unfold update; by rewrite H. Qed.

(** A viewer that comes and goes leaves no trace in the negotiation. *)
Theorem departed_viewer_leaves_no_trace env env' id d s :
  PEER_DECODINGS s !! id = None ->
  update env (Remove id) (update env' (Update id d) s) = update env CheckOnly s.
Proof. intros H; unfold update at 1 3; simpl; by rewrite delete_insert_id. Qed.

(** The software fallback "for this session" after a hardware encoder failed lasts
    until the next message of any viewer about its decoders: the update forgets it. *)
Theorem fallback_lasts_until_an_update env u s :
  update env u (set_software_fallback_codec s).2 = update env u s.
Proof. apply update_history, set_software_fallback_decodings. Qed.
End Theory.

(** ** Runs *)

Definition first_of (d : DataFormat) (l : list CodecInfo) : option CodecInfo :=
  List.find (fun c => bool_decide (codec_format c = d)) l.

Lemma first_of_sound d l c : first_of d l = Some c -> c ∈ l /\ codec_format c = d.
Proof. intros [H%list_elem_of_In E]%find_some; by bools. Qed.

(** An hwcodec with the encoders of the table below: libx264 is software, and NVENC
    has a profile of high quality. *)
Definition sample_hw : HwCodec := {|
  is_software_encoder := fun c => contains "lib" (codec_name c);
  is_hardware_encoder := fun c => negb (contains "lib" (codec_name c));
  supports_high_quality_profile := contains "nvenc";
  available_software_decoders := [];
  prioritized := fun l => {| best_h264 := first_of FormatH264 l; best_h265 := first_of FormatH265 l; best_av1 := first_of FormatAV1 l |};
  prioritized_h264 := first_of_sound FormatH264;
  prioritized_h265 := first_of_sound FormatH265;
  prioritized_av1 := first_of_sound FormatAV1;
|}.
Definition sample_proto : ProtocolDefaults := {| default_prefer := PreferAuto; default_chroma := I420 |}.

Definition sample_encoder (n : string) (d : DataFormat) (p : Z) (hq : bool) : CodecInfo :=
  {| codec_name := n; mc_name := None; codec_format := d; priority := p; high_quality := hq; hwdevice := HWDEVICE_NONE |}.

Definition sample_env (encoders : list CodecInfo) : CodecEnv :=
  {| ram_encode := encoders; ram_decode := []; encoder_codec_preference := ""; prefer_hardware_codec := true; pointer_bytes := 8 |}.

Definition nvidia : CodecEnv :=
  sample_env [sample_encoder "h264_nvenc" FormatH264 1 true; sample_encoder "libx264" FormatH264 2 false]%string.

(** A viewer that decodes the formats of the list and asks for [p]. *)
Definition viewer (formats : list CodecFormat) (p : PreferCodec) : SupportedDecoding :=
  let can := fun f => Z.b2z (bool_decide (f ∈ formats)) in
  {| ability_vp8 := can VP8; ability_vp9 := can VP9; ability_av1 := can AV1; ability_h264 := can H264; ability_h265 := can H265;
     prefer := Some p; prefer_chroma := Some I420; i444 := None |}.

Definition full_hd : EncoderParams :=
  {| width := 1920; height := 1080; quality := f32_of 1; fps := 30; keyframe_interval := None |}.

Lemma nvidia_names_tell : names_tell nvidia.
Proof.
  intros e f He; repeat (apply elem_of_cons in He as [-> | He]); [..|by apply elem_of_nil in He];
    by destruct f.
Qed.

Definition any_opens (cfg : EncoderCfg) (i : bool) : bool := true.
Definition only_vpx_opens (cfg : EncoderCfg) (i : bool) : bool := match cfg with VPX _ _ => true | _ => false end.

(** Two viewers, of which one asks for H264 in high quality. *)
Definition sample_run : list (CodecEnv * HostEvent) :=
  [(nvidia, Negotiate (Update 1 (viewer [VP9; AV1; H264] PreferAuto)));
   (nvidia, Negotiate (Update 2 (viewer [VP9; AV1; H264] PreferH264_HQ)));
   (nvidia, StartService 0 full_hd)].

Definition sample_service (run : list (CodecEnv * HostEvent)) : option ServiceEncoder :=
  encoders (host_run (hw := sample_hw) (proto := sample_proto) any_opens run) !! 0.

Lemma sample_run_names_tell : Forall (fun ev => names_tell ev.1) sample_run.
Proof. repeat (constructor; [apply nvidia_names_tell|]); constructor. Qed.

(** Two viewers of VP9 that both want full chroma and decode it of VP9. *)
Definition full_chroma (d : SupportedDecoding) : SupportedDecoding :=
  {| ability_vp8 := ability_vp8 d; ability_vp9 := ability_vp9 d; ability_av1 := ability_av1 d; ability_h264 := ability_h264 d;
     ability_h265 := ability_h265 d; prefer := prefer d; prefer_chroma := Some I444;
     i444 := Some {| ability_i444_vp9 := true; ability_i444_av1 := false |} |}.
Definition full_chroma_run : list (CodecEnv * HostEvent) :=
  [(nvidia, Negotiate (Update 1 (full_chroma (viewer [VP9; AV1; H264] PreferVP9))));
   (nvidia, Negotiate (Update 2 (full_chroma (viewer [VP9] PreferAuto))));
   (nvidia, StartService 0 full_hd)].
Lemma full_chroma_run_names_tell : Forall (fun ev => names_tell ev.1) full_chroma_run.
Proof. repeat (constructor; [apply nvidia_names_tell|]); constructor. Qed.

Lemma encoded_frames_are_decodable_witness :
  exists e, sample_service full_chroma_run = Some e /\ format_of_cfg (encoder_cfg e) = VP9 /\ i444_in_use e = true /\
    0 < ability_of (format_of_cfg (encoder_cfg e)) (full_chroma (viewer [VP9] PreferAuto)) /\
    full_chroma_of (format_of_cfg (encoder_cfg e)) (full_chroma (viewer [VP9] PreferAuto)) = true.
Proof.
  eexists; split; [vm_compute; reflexivity|]; split; [vm_compute; reflexivity|]; split; [vm_compute; reflexivity|].
  match goal with |- 0 < ability_of (format_of_cfg (encoder_cfg ?e)) _ /\ _ =>
    destruct (encoded_frames_are_decodable (hw := sample_hw) (proto := sample_proto) any_opens full_chroma_run 0 e full_chroma_run_names_tell)
      with (id := 2) (viewer := full_chroma (viewer [VP9] PreferAuto)) as [H1 H2] end;
    [vm_compute; reflexivity|vm_compute; reflexivity|vm_compute; discriminate|vm_compute; reflexivity|].
  split; [exact H1|]; destruct (H2 eq_refl) as [_ H3]; exact H3.
Defined.

Lemma fresh_encoder_is_kept_witness :
  exists e, (start_encoder (hw := sample_hw) any_opens nvidia full_hd
      (codecs (host_run (hw := sample_hw) (proto := sample_proto) any_opens sample_run))).1 = Some e /\
    must_switch e (start_encoder (hw := sample_hw) any_opens nvidia full_hd
      (codecs (host_run (hw := sample_hw) (proto := sample_proto) any_opens sample_run))).2 = false.
Proof.
  eexists; split; [vm_compute; reflexivity|].
  apply (fresh_encoder_is_kept (hw := sample_hw) any_opens sample_run nvidia full_hd); [apply sample_run_names_tell|apply nvidia_names_tell|].
  vm_compute; reflexivity.
Defined.

(** The hardware encoder does not open: the service runs on VP9. *)
Definition h264_viewer_run : list (CodecEnv * HostEvent) := [(nvidia, Negotiate (Update 1 (viewer [VP9; H264] PreferH264)))].
Lemma service_finds_an_encoder_witness :
  let s := codecs (host_run (hw := sample_hw) (proto := sample_proto) only_vpx_opens h264_viewer_run) in
  negotiated_codec s = H264 /\
  exists e, (start_encoder (hw := sample_hw) only_vpx_opens nvidia full_hd s).1 = Some e /\
    0 < ability_of (format_of_cfg (encoder_cfg e)) (viewer [VP9; H264] PreferH264).
Proof.
  split; [vm_compute; reflexivity|].
  destruct (service_finds_an_encoder (hw := sample_hw) (proto := sample_proto) only_vpx_opens h264_viewer_run nvidia full_hd) as (e & He & _ & Hd).
  - repeat (constructor; [apply nvidia_names_tell|]); constructor.
  - apply nvidia_names_tell.
  - reflexivity.
  - vm_compute; discriminate.
  - exists e; split; [exact He|]; apply (Hd 1); vm_compute; reflexivity.
Defined.

Lemma high_quality_is_available_witness :
  exists e, try_get_high_quality (hw := sample_hw) nvidia H264 = Some e /\ codec_name e = "h264_nvenc"%string.
Proof.
  destruct (high_quality_is_available (hw := sample_hw) (proto := sample_proto) nvidia
    (Update 1 (viewer [VP9; H264] PreferH264_HQ)) initial_codecs full_hd) as (e & He & _); [vm_compute; reflexivity|].
  exists e; split; [exact He|]; vm_compute in He; injection He as <-; reflexivity.
Defined.

Lemma departed_viewer_leaves_no_trace_witness :
  update (hw := sample_hw) (proto := sample_proto) nvidia (Remove 2) (update (hw := sample_hw) (proto := sample_proto) nvidia (Update 2 (viewer [VP9] PreferVP9))
    (update (hw := sample_hw) (proto := sample_proto) nvidia (Update 1 (viewer [VP9; H264] PreferH264)) initial_codecs))
  = update (hw := sample_hw) (proto := sample_proto) nvidia CheckOnly
    (update (hw := sample_hw) (proto := sample_proto) nvidia (Update 1 (viewer [VP9; H264] PreferH264)) initial_codecs).
Proof. apply departed_viewer_leaves_no_trace; vm_compute; reflexivity. Defined.

(** A viewer that logs in between the choice of a configuration and [set_fallback] is
    overruled: [set_fallback] restores the codec that was read before.  The service
    sees nothing to switch for, and the new viewer cannot decode what it gets,
    although both decode VP9. *)
Definition one_viewer : CodecState :=
  update (hw := sample_hw) (proto := sample_proto) (sample_env []) (Update 1 (viewer [VP9; AV1] PreferAuto)) initial_codecs.
Definition two_viewers : CodecState :=
  update (hw := sample_hw) (proto := sample_proto) (sample_env []) (Update 2 (viewer [VP9] PreferAuto)) one_viewer.

Theorem stale_setup_locks_out_a_viewer :
  get_encoder_config (hw := sample_hw) (sample_env []) full_hd one_viewer = Some (AOM full_hd) /\
  negotiated_codec two_viewers = VP9 /\
  exists e s, setup_with any_opens (AOM full_hd) two_viewers = (Some e, s) /\
    must_switch e s = false /\ negotiated_codec s = AV1 /\ encoder_cfg e = AOM full_hd /\
    exists d, PEER_DECODINGS s !! 2 = Some d /\ ability_of AV1 d = 0 /\ 0 < ability_of VP9 d.
Proof.
  split; [reflexivity|]; split; [vm_compute; reflexivity|].
  eexists _, (setup_with any_opens (AOM full_hd) two_viewers).2; split; [vm_compute; reflexivity|].
  split; [vm_compute; reflexivity|]; split; [vm_compute; reflexivity|]; split; [reflexivity|].
  exists (viewer [VP9] PreferAuto); repeat split; vm_compute; reflexivity.
Qed.
