(* ===== verification/CodecSessions.v ===== *)
(** * Codecs and the connections of the host

    The messages of connections that take part in the negotiation of codecs
    (src/src/server/connection.rs: logins, options and the end of a connection), on
    CodecChoice.v: whose decoders the host counts, what a viewer is told of the
    encoders of the host, and a connection whose decoders are counted for ever. *)

From stdpp Require Import strings.
From S2P Require Import Prelude SessionPermissions Floats VideoFeedback ViewerPlayback CodecChoice CodecTheory.

Section Sessions.
Context `{hw : HwCodec} `{proto : ProtocolDefaults}.

(** Connections that show the host are [Remote] and [ViewCamera]. *)
Definition shows_video (t : AuthConnType) : bool :=
  match t with Remote | ViewCamera => true | _ => false end.

(** What the end of a login does about codecs: [update_codec_on_login] for a
    connection that shows the host, then the options of the login for every
    connection but a tunnel. *)
Definition login_codecs (env : CodecEnv) (t : AuthConnType) (id : Z) (option : option (option SupportedDecoding)) (s : CodecState) : CodecState :=
  let s := if shows_video t then update_codec_on_login env id option s else s in
  match t, option with
  | PortForward, _ | _, None => s
  | _, Some o => update_options env id o s
  end.

(** [AuthedConnID::drop] *)
Definition drop_codecs (env : CodecEnv) (t : AuthConnType) (id : Z) (s : CodecState) : CodecState :=
  if shows_video t then update env (Remove id) s else s.

Record Sessions := { codec_state : CodecState; live : gmap Z AuthConnType }.

Inductive SessionEvent :=
| LogIn (id : Z) (t : AuthConnType) (option : option (option SupportedDecoding))
| SendOptions (id : Z) (o : option SupportedDecoding)
| Close (id : Z).

(** Identifiers are not used twice, and only a connection that is logged in sends
    options; a tunnel does not read them. *)
Definition session_event (env : CodecEnv) (ev : SessionEvent) (h : Sessions) : Sessions :=
  match ev with
  | LogIn id t option =>
      if is_some (live h !! id) then h
      else {| codec_state := login_codecs env t id option (codec_state h); live := <[id := t]> (live h) |}
  | SendOptions id o =>
      match live h !! id with
      | None | Some PortForward => h
      | Some _ => {| codec_state := update_options env id o (codec_state h); live := live h |}
      end
  | Close id =>
      match live h !! id with
      | None => h
      | Some t => {| codec_state := drop_codecs env t id (codec_state h); live := delete id (live h) |}
      end
  end.

Definition session_run (es : list (CodecEnv * SessionEvent)) : Sessions :=
  foldl (fun h ev => session_event ev.1 ev.2 h) {| codec_state := initial_codecs; live := ∅ |} es.

(** Only connections that show the host speak of decoders. *)
Definition speaks_in_turn (h : Sessions) (ev : SessionEvent) : Prop :=
  match ev with
  | LogIn _ t (Some (Some _)) => shows_video t = true
  | SendOptions id (Some _) => forall t, live h !! id = Some t -> shows_video t = true
  | _ => True
  end.

Fixpoint speak_in_turn (h : Sessions) (es : list (CodecEnv * SessionEvent)) : Prop :=
  match es with
  | [] => True
  | ev :: es => speaks_in_turn h ev.2 /\ speak_in_turn (session_event ev.1 ev.2 h) es
  end.

(** The viewers whose decoders count are those that are connected. *)
Definition counted (h : Sessions) : Prop :=
  forall id, is_Some (PEER_DECODINGS (codec_state h) !! id) <-> exists t, live h !! id = Some t /\ shows_video t = true.

Lemma update_decodings env u s : PEER_DECODINGS (update env u s) = change_decodings u (PEER_DECODINGS s).
Proof. done. Qed.

Lemma login_codecs_decodings env t id option s :
  (forall q, option = Some (Some q) -> shows_video t = true) ->
  exists d, PEER_DECODINGS (login_codecs env t id option s) = if shows_video t then <[id := d]> (PEER_DECODINGS s) else PEER_DECODINGS s.
Proof.
  intros H; destruct option as [[q|]|].
  - exists q; specialize (H q eq_refl); destruct t; try done; unfold login_codecs, update_codec_on_login, update_options; cbn;
      by rewrite insert_insert_eq.
  - exists (only_vp9 default_prefer default_chroma); by destruct t.
  - exists (only_vp9 default_prefer default_chroma); by destruct t.
Qed.

Lemma session_event_counted env ev h : counted h -> speaks_in_turn h ev -> counted (session_event env ev h).
Proof.
  unfold counted; intros Hc Hs id'; destruct ev as [id t option|id o|id]; simpl.
  - destruct (live h !! id) as [t'|] eqn:Hl; simpl; [apply Hc|].
    destruct (login_codecs_decodings env t id option (codec_state h)) as [d ->]; [by intros q ->|].
    destruct (decide (id = id')) as [<-|Hne].
    + rewrite lookup_insert_eq; destruct (shows_video t) eqn:Et.
      * rewrite lookup_insert_eq; split; [by eexists|by eexists].
      * rewrite Hc, Hl; split; intros (? & ? & ?); simplify_eq; congruence.
    + rewrite (lookup_insert_ne (live h)) by done; rewrite <- Hc; destruct (shows_video t); by rewrite ?lookup_insert_ne.
  - destruct o as [q|]; [|by destruct (live h !! id) as [[]|]].
    destruct (live h !! id) as [t|] eqn:Hl; [|apply Hc]; specialize (Hs t Hl).
    destruct t; try done; cbn [codec_state live update_options]; rewrite update_decodings; cbn [change_decodings];
      (destruct (decide (id = id')) as [<-|Hne];
        [rewrite lookup_insert_eq, Hl; split; [intros _; by eexists|by eexists]|by rewrite lookup_insert_ne]).
  - destruct (live h !! id) as [t|] eqn:Hl; [|apply Hc]; cbn [codec_state live]; unfold drop_codecs.
    destruct (decide (id = id')) as [<-|Hne].
    + rewrite lookup_delete_eq; destruct (shows_video t) eqn:Et.
      * rewrite update_decodings; cbn [change_decodings]; rewrite lookup_delete_eq.
        split; [by intros []|by intros (? & ? & _)].
      * rewrite Hc, Hl; split; intros (? & ? & ?); simplify_eq; congruence.
    + rewrite (lookup_delete_ne (live h)) by done; rewrite <- Hc.
      destruct (shows_video t); rewrite ?update_decodings; cbn [change_decodings]; by rewrite ?lookup_delete_ne.
Qed.

(** The codec is negotiated with the viewers that are connected and no others, if
    only connections that show the host send what they decode. *)
Theorem negotiation_is_with_the_viewers es :
  speak_in_turn {| codec_state := initial_codecs; live := ∅ |} es ->
  forall id, is_Some (PEER_DECODINGS (codec_state (session_run es)) !! id) <->
    exists t, live (session_run es) !! id = Some t /\ shows_video t = true.
Proof.
  unfold session_run; assert (H0 : counted {| codec_state := initial_codecs; live := ∅ |}).
  { intros id; cbn [codec_state live initial_codecs PEER_DECODINGS]; rewrite !lookup_empty; split; [by intros []|by intros (? & ? & _)]. }
  revert H0; generalize {| codec_state := initial_codecs; live := ∅ |}.
  induction es as [|ev es IH]; intros h Hc Hs; [done|]; destruct Hs as [Hs Hss].
  simpl; apply IH; [by apply session_event_counted|done].
Qed.

(** ** What viewers are told *)

(** A viewer ends up knowing what is usable: after one tick of its timer its host
    has told it, a second tick sends nothing, and what does not depend on the other
    viewers stays as it was at login. *)
Theorem viewers_learn_what_is_usable s usable last :
  USABLE_ENCODING s = Some usable ->
  exists e, (update_supported_encoding s (Some last)).2 = Some e /\
    same_encoding usable e = true /\ enc_i444 e = enc_i444 last /\ movie_mode e = movie_mode last /\
    ((update_supported_encoding s (Some last)).1 = if same_encoding usable last then None else Some e) /\
    (update_supported_encoding s (Some e)).1 = None.
Proof.
  intros Hu; unfold update_supported_encoding; rewrite Hu.
  destruct (same_encoding usable last) eqn:E; eexists; (split; [reflexivity|]); split_and!; try done; try (by rewrite E);
    unfold same_encoding; simpl; by rewrite !eqb_reflx.
Qed.

(** Looks a literal key up in a map built by insertions. *)
Ltac cap_lookup :=
  unfold cap; repeat first [rewrite lookup_insert_eq | rewrite lookup_insert_ne by (intros ?; discriminate)]; try reflexivity.

(** What the host advertises, by the encoders it has. *)
Lemma supported_encoding_flags env :
  supported_encoding env =
    {| enc_vp8 := true;
       enc_av1 := (negb (disable_av1 env) && is_some (try_get_hardware env AV1)) || negb (disable_av1 env);
       enc_av1_hw := negb (disable_av1 env) && is_some (try_get_hardware env AV1);
       enc_h264 := is_some (try_get_hardware env H264) || is_some (try_get_software env H264);
       enc_h265 := is_some (try_get_hardware env H265) || is_some (try_get_software env H265);
       enc_h264_hq := is_some (try_get_high_quality env H264); enc_h265_hq := is_some (try_get_high_quality env H265);
       enc_i444 := Some {| ability_i444_vp9 := true; ability_i444_av1 := true |}; movie_mode := false |}.
Proof.
  unfold supported_encoding, encoder_capabilities; cbn zeta.
  match goal with |- context [foldl _ (foldl ?f ?c ?l) _] => remember (foldl f c l) as caps eqn:Hc end.
  assert (H : cap caps "encVp8" = true /\ cap caps "encAv1Hw" = (negb (disable_av1 env) && is_some (try_get_hardware env AV1)) /\
    cap caps "encAv1Sw" = negb (disable_av1 env) /\
    cap caps "encH264Hw" = is_some (try_get_hardware env H264) /\ cap caps "encH264Sw" = is_some (try_get_software env H264) /\
    cap caps "encH265Hw" = is_some (try_get_hardware env H265) /\ cap caps "encH265Sw" = is_some (try_get_software env H265) /\
    cap caps "encH264Hq" = is_some (try_get_high_quality env H264) /\ cap caps "encH265Hq" = is_some (try_get_high_quality env H265)).
  { subst caps; unfold insert_all; cbn [foldl fst snd].
    rewrite (bool_decide_eq_true_2 (AV1 = AV1)), !bool_decide_eq_false_2 by done; cbn [negb orb andb]; split_and!; cap_lookup. }
  destruct H as (H1 & H2 & H3 & H4 & H5 & H6 & H7 & H8 & H9); clear Hc; cbn [foldl].
  rewrite <- H2, <- H3, <- H4, <- H5, <- H6, <- H7, <- H8, <- H9.
  f_equal; cap_lookup; first [exact H1|exact H2].
Qed.

(** What a viewer is told later is never more than what its host announced at the
    login, as long as the host has the same encoders. *)
Theorem usable_is_announced env m :
  let usable := usable_encoding env m in
  let announced := supported_encoding env in
  (enc_vp8 usable = true -> enc_vp8 announced = true) /\ (enc_av1 usable = true -> enc_av1 announced = true) /\
  (enc_av1_hw usable = true -> enc_av1_hw announced = true) /\ (enc_h264 usable = true -> enc_h264 announced = true) /\
  (enc_h265 usable = true -> enc_h265 announced = true) /\ (enc_h264_hq usable = true -> enc_h264_hq announced = true) /\
  (enc_h265_hq usable = true -> enc_h265_hq announced = true).
Proof.
  cbn zeta; rewrite supported_encoding_flags; cbn -[all_peers]; unfold hq_useable.
  split_and!; intros H; bools; try done; use_bools; repeat match goal with H : _ = true |- _ => rewrite H end; by rewrite ?orb_true_r.
Qed.

(** A viewer of this program, or one that said nothing. *)
Definition known_viewer (d : SupportedDecoding) : Prop :=
  (exists env options, d = supported_decodings env options) \/ d = only_vp9 default_prefer default_chroma.

Lemma supported_decodings_vp9 env options : ability_vp9 (supported_decodings env options) = 1.
Proof. unfold supported_decodings; by destruct (preference options). Qed.

(** Viewers of this program, and those that say nothing of their decoders, always
    share VP9: with them the host never runs out of codecs. *)
Theorem known_viewers_share_vp9 m :
  m <> ∅ -> (forall id d, m !! id = Some d -> known_viewer d) -> runtime_software_fallback_codec m = Some VP9.
Proof.
  intros Hm Hk; unfold runtime_software_fallback_codec; enough (all_peers m ability_vp9 = true) as -> by done.
  apply all_peers_true; split; [done|]; intros id d Hd; destruct (Hk id d Hd) as [(env & o & ->)| ->]; [|done].
  by rewrite supported_decodings_vp9.
Qed.

(** A viewer that says nothing of its decoders gets VP9, whoever else watches, if
    the others decode it; and nobody is left without a picture. *)
Theorem silent_viewer_gets_vp9 env id s :
  (forall id' d, PEER_DECODINGS s !! id' = Some d -> known_viewer d) ->
  ENCODE_CODEC_FORMAT (update_codec_on_login env id None s) = VP9 /\
  all_decode (PEER_DECODINGS (update_codec_on_login env id None s)) VP9.
Proof.
  intros Hk; cbn [update_codec_on_login]; set (s' := update env (NewOnlyVP9 id) s).
  assert (Hm : forall id' d, PEER_DECODINGS s' !! id' = Some d -> known_viewer d).
  { unfold s'; rewrite update_decodings; cbn [change_decodings]; intros id' d.
    destruct (decide (id = id')) as [<-|Hne]; [rewrite lookup_insert_eq; intros [= <-]; by right|].
    rewrite lookup_insert_ne by done; apply Hk. }
  assert (Hi : PEER_DECODINGS s' !! id = Some (only_vp9 default_prefer default_chroma)) by (unfold s'; rewrite update_decodings; apply lookup_insert_eq).
  assert (Hf : runtime_software_fallback_codec (PEER_DECODINGS s') = Some VP9).
  { unfold runtime_software_fallback_codec; enough (all_peers (PEER_DECODINGS s') ability_vp9 = true) as -> by done.
    apply all_peers_true; split; [by intros E; rewrite E, lookup_empty in Hi|]; intros id' d Hd.
    destruct (Hm id' d Hd) as [(env' & o & ->)| ->]; [|done]; by rewrite supported_decodings_vp9. }
  split; [|by apply software_fallback_decodes].
  destruct (update_decodable env (NewOnlyVP9 id) s) as [H|H]; [unfold software_fallback_codec in H; fold s' in H; congruence|].
  fold s' in H; specialize (H id _ Hi); pose proof (proj1 (update_consistent env (NewOnlyVP9 id) s)) as Hu; fold s' in Hu.
  by destruct (ENCODE_CODEC_FORMAT s').
Qed.
End Sessions.

(** ** Runs *)

Definition sample_sessions (es : list (CodecEnv * SessionEvent)) : Sessions :=
  session_run (hw := sample_hw) (proto := sample_proto) es.

Definition two_sessions : list (CodecEnv * SessionEvent) :=
  [(nvidia, LogIn 1 FileTransfer None); (nvidia, LogIn 2 Remote (Some (Some (viewer [VP9; H264] PreferH264))));
   (nvidia, LogIn 3 ViewCamera None); (nvidia, SendOptions 2 (Some (viewer [VP9] PreferAuto))); (nvidia, Close 3)].

Lemma negotiation_is_with_the_viewers_witness :
  live (sample_sessions two_sessions) !! 1 = Some FileTransfer /\ PEER_DECODINGS (codec_state (sample_sessions two_sessions)) !! 1 = None /\
  is_Some (PEER_DECODINGS (codec_state (sample_sessions two_sessions)) !! 2).
Proof.
  assert (H : forall id, is_Some (PEER_DECODINGS (codec_state (sample_sessions two_sessions)) !! id) <->
    exists t, live (sample_sessions two_sessions) !! id = Some t /\ shows_video t = true).
  { apply (negotiation_is_with_the_viewers (hw := sample_hw) (proto := sample_proto) two_sessions).
    repeat split; intros t Ht; vm_compute in Ht; injection Ht as <-; reflexivity. }
  split; [vm_compute; reflexivity|]; split; [vm_compute; reflexivity|].
  apply H; exists Remote; split; vm_compute; reflexivity.
Defined.

Lemma viewers_learn_what_is_usable_witness :
  exists e, (update_supported_encoding (codec_state (sample_sessions two_sessions)) (Some (supported_encoding (hw := sample_hw) nvidia))).2 = Some e /\
    enc_h264 (supported_encoding (hw := sample_hw) nvidia) = true /\ enc_h264 e = false.
Proof.
  destruct (viewers_learn_what_is_usable (codec_state (sample_sessions two_sessions))
    (usable_encoding (hw := sample_hw) nvidia (PEER_DECODINGS (codec_state (sample_sessions two_sessions)))) (supported_encoding (hw := sample_hw) nvidia))
    as (e & He & _); [vm_compute; reflexivity|].
  exists e; split; [exact He|]; split; [vm_compute; reflexivity|]; vm_compute in He; injection He as <-; reflexivity.
Defined.

Lemma known_viewers_share_vp9_witness :
  runtime_software_fallback_codec {[1 := supported_decodings (hw := sample_hw) nvidia None]} = Some VP9.
Proof.
  apply (known_viewers_share_vp9 (hw := sample_hw) (proto := sample_proto)); [discriminate|].
  intros id d [_ <-]%lookup_singleton_Some; left; exists nvidia, None; reflexivity.
Defined.

Lemma silent_viewer_gets_vp9_witness :
  ENCODE_CODEC_FORMAT (update_codec_on_login (hw := sample_hw) (proto := sample_proto) nvidia 7 None initial_codecs) = VP9.
Proof.
  apply (silent_viewer_gets_vp9 (hw := sample_hw) (proto := sample_proto) nvidia 7 initial_codecs).
  intros id d H; cbn [PEER_DECODINGS initial_codecs] in H; rewrite lookup_empty in H; discriminate.
Defined.

(** A file transfer that sends the decoders of a viewer is counted, and its end does not
    remove it: long after, a viewer that asks for H264, which it and the host have, does
    not get it, and no fallback is left for an encoder that fails. *)
Definition pinned_sessions : list (CodecEnv * SessionEvent) :=
  [(nvidia, LogIn 1 FileTransfer (Some (Some (viewer [VP8] PreferAuto)))); (nvidia, Close 1);
   (nvidia, LogIn 2 Remote (Some (Some (viewer [VP9; H264] PreferH264))))].

Theorem file_transfer_pins_the_codec :
  live (sample_sessions pinned_sessions) = {[2 := Remote]} /\
  is_Some (PEER_DECODINGS (codec_state (sample_sessions pinned_sessions)) !! 1) /\
  ENCODE_CODEC_FORMAT (codec_state (sample_sessions pinned_sessions)) = VP9 /\
  software_fallback_codec (codec_state (sample_sessions pinned_sessions)) = None /\
  ENCODE_CODEC_FORMAT (codec_state (sample_sessions [(nvidia, LogIn 2 Remote (Some (Some (viewer [VP9; H264] PreferH264))))])) = H264.
Proof. split_and!; try (vm_compute; reflexivity); vm_compute; eauto. Qed.
