(* ===== verification/ViewerDecoder.v ===== *)
(** * The decoder of the viewer

    Models [Decoder] (src/libs/scrap/src/common/codec.rs) with the selection of
    FFmpeg decoders it uses ([HwRamDecoder], hwcodec.rs there), in a Linux build with
    the feature hwcodec: which backend is opened for a format, in which order they
    are tried after failures, and the switch from a hardware AV1 decoder to the
    software one in the middle of a stream.  It is an instance of the interface
    [DecoderApi] of ViewerPlayback.v, so that the theorems of PlaybackTheory.v hold
    of it.

    The libraries are the class [Backends]: whether a decoder opens, and what it does
    with the frames of one message ([None] is an error, a boolean tells whether there
    is a picture). *)

From stdpp Require Import strings.
From S2P Require Import Prelude DecoderRecovery Floats VideoFeedback ViewerPlayback PlaybackTheory CodecChoice.

Class Backends := {
  VpxDecoder : Type;
  AomDecoder : Type;
  RamDecoder : Type;
  open_vpx : VpxVideoCodecId -> option VpxDecoder;
  open_aom : option AomDecoder;
  open_ram : CodecInfo -> option RamDecoder;
  vpx_frame : VideoFrame -> VpxDecoder -> option bool * VpxDecoder;
  aom_frame : VideoFrame -> AomDecoder -> option bool * AomDecoder;
  ram_frame : VideoFrame -> RamDecoder -> option bool * RamDecoder;
}.

Definition decoder_backend_order (prefer_hardware : bool) (fallback : Z) : list bool :=
  let hardware_first := xorb prefer_hardware (negb (fallback mod 2 =? 0)) in
  [hardware_first; negb hardware_first].

Definition from_ready (ready : bool) : DecodeOutcome := if ready then FrameReady None else OutputPending.

(** ** FFmpeg decoders *)

(** [sort_by_key] is stable: an element goes before the later ones that are not
    less. *)
Fixpoint insert_by {A} (lt : A -> A -> bool) (x : A) (l : list A) : list A :=
  match l with
  | [] => [x]
  | y :: l => if lt y x then y :: insert_by lt x l else x :: y :: l
  end.
Definition sort_by {A} (lt : A -> A -> bool) (l : list A) : list A := foldr (insert_by lt) [] l.

Definition rotate_left {A} (n : nat) (l : list A) : list A := drop n l ++ take n l.

Section Decoder.
Context `{hw : HwCodec} `{backends : Backends}.
Variable env : CodecEnv.

Definition is_device (c : CodecInfo) : bool := negb (bool_decide (hwdevice c = HWDEVICE_NONE)).

(** The decoders [create_probed] goes through, and its order after failures. *)
Definition probed (f : CodecFormat) (candidates : list CodecInfo) (hardware : bool) : list CodecInfo :=
  sort_by (fun a b => key_lt (negb (is_device a), priority a) (negb (is_device b), priority b))
    (List.filter (fun c => (hardware || negb (is_device c)) && matches_format f (codec_format c)) candidates).

Definition probed_order (f : CodecFormat) (candidates : list CodecInfo) (hardware : bool) (fallback : Z) : list CodecInfo :=
  let candidates := probed f candidates hardware in
  rotate_left (Z.to_nat (fallback mod Z.of_nat (length candidates))) candidates.

Fixpoint first_open (candidates : list CodecInfo) : option RamDecoder :=
  match candidates with
  | [] => None
  | c :: candidates => match open_ram c with Some d => Some d | None => first_open candidates end
  end.

Definition create_probed (f : CodecFormat) (candidates : list CodecInfo) (hardware : bool) (fallback : Z) : option RamDecoder :=
  first_open (probed_order f candidates hardware fallback).

Definition same_decoder (a b : CodecInfo) : bool :=
  String.eqb (codec_name a) (codec_name b) && bool_decide (hwdevice a = hwdevice b).

Definition ram_candidates (f : CodecFormat) : list CodecInfo :=
  match f with
  | H264 | H265 =>
      foldl (fun candidates software =>
          if existsb (fun c => same_decoder c software) candidates then candidates else candidates ++ [software])
        (ram_decode env) available_software_decoders
  | _ => ram_decode env
  end.

Definition ram_with_preference (f : CodecFormat) (fallback : Z) (hardware : bool) : option RamDecoder :=
  create_probed f (ram_candidates f) hardware fallback.

(** ** Opening *)

Record BackendDecoder := {
  vp8 : option VpxDecoder;
  vp9 : option VpxDecoder;
  av1 : option AomDecoder;
  av1_ram : option RamDecoder;
  h264_ram : option RamDecoder;
  h265_ram : option RamDecoder;
  decoder_of : CodecFormat;
  valid : bool;
}.
#[export] Instance eta_BackendDecoder : Eta BackendDecoder := fun r =>
  Build_BackendDecoder (vp8 r) (vp9 r) (av1 r) (av1_ram r) (h264_ram r) (h265_ram r) (decoder_of r) (valid r).

Definition no_decoder (f : CodecFormat) : BackendDecoder :=
  {| vp8 := None; vp9 := None; av1 := None; av1_ram := None; h264_ram := None; h265_ram := None; decoder_of := f; valid := false |}.

Definition open_av1 (hardware : bool) (d : BackendDecoder) : BackendDecoder :=
  if valid d then d
  else if hardware then
    match ram_with_preference AV1 0 true with
    | Some v => d <| av1_ram := Some v |> <| valid := true |>
    | None => d
    end
  else
    match open_aom with
    | Some v => d <| av1 := Some v |> <| valid := true |>
    | None => d
    end.

Definition open_h26x (f : CodecFormat) (fallback : Z) (hardware : bool) (d : BackendDecoder) : BackendDecoder :=
  if valid d then d
  else match ram_with_preference f (sat_sub fallback 1) hardware with
       | None => d
       | Some v =>
           match f with
           | H264 => d <| h264_ram := Some v |> <| valid := true |>
           | _ => d <| h265_ram := Some v |> <| valid := true |>
           end
       end.

Definition new_backend (f : CodecFormat) (fallback : Z) (preference : DecoderPreference) : BackendDecoder :=
  let hardware := use_hardware preference (prefer_hardware_codec env) in
  let d := no_decoder f in
  match f with
  | VP8 => let v := open_vpx VpxVP8 in d <| vp8 := v |> <| valid := is_some v |>
  | VP9 => let v := open_vpx VpxVP9 in d <| vp9 := v |> <| valid := is_some v |>
  | AV1 =>
      let d := foldl (fun d hardware => open_av1 hardware d) d (decoder_backend_order hardware fallback) in
      if is_some (av1_ram d) && is_none (av1 d) then d <| av1 := open_aom |> else d
  | H264 | H265 => foldl (fun d hardware => open_h26x f fallback hardware d) d (decoder_backend_order hardware fallback)
  | Unknown => d
  end.

Definition release (d : BackendDecoder) : BackendDecoder := no_decoder (decoder_of d).

(** ** Decoding *)

(** A frame given to an optional backend, which is put back with [put]. *)
Definition with_backend {B} (run : VideoFrame -> B -> option bool * B) (b : option B) (vf : VideoFrame)
    (put : option B -> BackendDecoder) : option DecodeOutcome * BackendDecoder :=
  match b with
  | None => (None, put None)
  | Some b => let '(res, b) := run vf b in (from_ready <$> res, put (Some b))
  end.

Definition decode_frame (vf : VideoFrame) (d : BackendDecoder) : option DecodeOutcome * BackendDecoder :=
  match format vf with
  | VP8 => with_backend vpx_frame (vp8 d) vf (fun b => d <| vp8 := b |>)
  | VP9 => with_backend vpx_frame (vp9 d) vf (fun b => d <| vp9 := b |>)
  | AV1 =>
      match av1_ram d with
      | None => with_backend aom_frame (av1 d) vf (fun b => d <| av1 := b |>)
      | Some r =>
          match ram_frame vf r with
          | (Some ready, r) => (Some (from_ready ready), d <| av1_ram := Some r |>)
          | (None, _) =>
              let d := d <| av1_ram := None |> in
              if is_none (av1 d) then (None, d)
              else if negb (has_keyframe vf) then (Some NeedsKeyframe, d)
              else with_backend aom_frame (av1 d) vf (fun b => d <| av1 := b |>)
          end
      end
  | H264 => with_backend ram_frame (h264_ram d) vf (fun b => d <| h264_ram := b |>)
  | H265 => with_backend ram_frame (h265_ram d) vf (fun b => d <| h265_ram := b |>)
  | Unknown => (None, d)
  end.

Lemma new_backend_format f fallback p : decoder_of (new_backend f fallback p) = f.
Proof.
  assert (Ha : forall h d, decoder_of (open_av1 h d) = decoder_of d) by (intros; unfold open_av1; repeat case_match; done).
  assert (Hh : forall g n h d, decoder_of (open_h26x g n h d) = decoder_of d) by (intros; unfold open_h26x; repeat case_match; done).
  destruct f; try done; cbn [new_backend decoder_backend_order foldl]; try (by rewrite !Hh).
  destruct (is_some _ && is_none _); cbn [decoder_of set_field]; by rewrite !Ha.
Qed.

Lemma decode_frame_format vf d : decoder_of (decode_frame vf d).2 = decoder_of d.
Proof.
  assert (Hw : forall B (run : VideoFrame -> B -> option bool * B) b put, (forall b, decoder_of (put b) = decoder_of d) ->
    decoder_of (with_backend run b vf put).2 = decoder_of d).
  { intros B run b put H; unfold with_backend; destruct b; [destruct (run _ _)|]; simpl; auto. }
  unfold decode_frame; destruct (format vf); try (by apply Hw); [|done].
  destruct (av1_ram d) as [r|]; [|by apply Hw]; destruct (ram_frame vf r) as [[] r']; [done|].
  cbn zeta; destruct (is_none _); [done|]; destruct (negb _); [done|]; by apply Hw.
Qed.

#[export] Instance backend_decoder : DecoderApi := {
  Decoder := BackendDecoder;
  new_decoder f _ _ fallback p := new_backend f fallback p;
  decoder_format := decoder_of;
  handle_video_frame := decode_frame;
  new_decoder_format f _ _ n p := new_backend_format f n p;
  handle_video_frame_format := decode_frame_format;
}.

(** ** What is opened *)

Lemma elem_of_insert_by {A} (lt : A -> A -> bool) x l y : y ∈ insert_by lt x l <-> y ∈ x :: l.
Proof. induction l as [|z l IH]; simpl; [done|]; destruct (lt z x); set_solver. Qed.

Lemma elem_of_sort_by {A} (lt : A -> A -> bool) (l : list A) y : y ∈ sort_by lt l <-> y ∈ l.
Proof. induction l as [|x l IH]; simpl; [done|]; rewrite elem_of_insert_by; set_solver. Qed.

Lemma elem_of_rotate {A} n (l : list A) x : x ∈ rotate_left n l <-> x ∈ l.
Proof. unfold rotate_left; rewrite <- (take_drop n l) at 3; set_solver. Qed.

Lemma elem_of_filter_bool {A} (p : A -> bool) (l : list A) x : x ∈ List.filter p l <-> x ∈ l /\ p x = true.
Proof. by rewrite !list_elem_of_In, filter_In. Qed.

Lemma first_open_some l : is_Some (first_open l) <-> exists c, c ∈ l /\ is_Some (open_ram c).
Proof.
  induction l as [|c l IH]; simpl.
  - split; [by intros []|by intros (c & H%elem_of_nil & _)].
  - destruct (open_ram c) as [d|] eqn:E; [split; [intros _; exists c; set_solver|by eexists]|].
    rewrite IH; split; intros (c' & Hc & Ho); exists c'; (split; [|done]); [by right|].
    apply elem_of_cons in Hc as [->|Hc]; [rewrite E in Ho; by destruct Ho|done].
Qed.

(** Some decoder for the format opens, a device one only if [hardware]. *)
Lemma ram_with_preference_some f fallback hardware :
  is_Some (ram_with_preference f fallback hardware) <->
  exists c, c ∈ ram_candidates f /\ matches_format f (codec_format c) = true /\ (hardware = true \/ is_device c = false) /\ is_Some (open_ram c).
Proof.
  unfold ram_with_preference, create_probed, probed_order, probed; rewrite first_open_some.
  split; intros (c & Hc & H); exists c.
  - apply elem_of_rotate, elem_of_sort_by, elem_of_filter_bool in Hc as [Hc Hp].
    apply andb_true_iff in Hp as [Hp ?]; apply orb_true_iff in Hp; rewrite negb_true_iff in Hp; done.
  - destruct H as (Hm & Hh & Ho); split; [|done]; apply elem_of_rotate, elem_of_sort_by, elem_of_filter_bool; split; [done|].
    rewrite Hm, andb_true_r; destruct Hh as [-> | ->]; [done|by rewrite orb_true_r].
Qed.

(** Failures only rotate the decoders. *)
Lemma ram_with_preference_mod f fallback hardware :
  ram_with_preference f fallback hardware =
  ram_with_preference f (fallback mod Z.of_nat (length (probed f (ram_candidates f) hardware))) hardware.
Proof. unfold ram_with_preference, create_probed, probed_order; cbn zeta; by rewrite Zmod_mod. Qed.

Definition openable (f : CodecFormat) : Prop :=
  let ram := exists c, c ∈ ram_candidates f /\ matches_format f (codec_format c) = true /\ is_Some (open_ram c) in
  match f with
  | VP8 => is_Some (open_vpx VpxVP8)
  | VP9 => is_Some (open_vpx VpxVP9)
  | AV1 => is_Some open_aom \/ ram
  | H264 | H265 => ram
  | Unknown => False
  end.

Lemma open_h26x_valid f fallback hardware d :
  valid (open_h26x f fallback hardware d) = true <-> valid d = true \/ is_Some (ram_with_preference f (sat_sub fallback 1) hardware).
Proof.
  unfold open_h26x; destruct (valid d) eqn:E; [rewrite E; naive_solver|].
  destruct (ram_with_preference f (sat_sub fallback 1) hardware) as [v|].
  - split; [eauto|]; by destruct f.
  - rewrite E; split; [done|by intros [|[]]].
Qed.

Lemma open_av1_valid hardware d :
  valid (open_av1 hardware d) = true <->
  valid d = true \/ if hardware then is_Some (ram_with_preference AV1 0 true) else is_Some open_aom.
Proof.
  unfold open_av1; destruct (valid d) eqn:E; [rewrite E; naive_solver|].
  destruct hardware; [destruct (ram_with_preference AV1 0 true)|destruct open_aom]; cbn;
    (split; [by eauto|try done]); rewrite E; by intros [|[]].
Qed.

Lemma h26x_either f fallback b :
  f = H264 \/ f = H265 ->
  (is_Some (ram_with_preference f fallback b) \/ is_Some (ram_with_preference f fallback (negb b))) <-> openable f.
Proof.
  intros Hf; assert (Hram : openable f = exists c, c ∈ ram_candidates f /\ matches_format f (codec_format c) = true /\ is_Some (open_ram c))
    by (by destruct Hf as [-> | ->]).
  rewrite Hram, !ram_with_preference_some; split.
  - intros [(c & ? & ? & _ & ?)|(c & ? & ? & _ & ?)]; by exists c.
  - intros (c & ? & ? & ?); destruct b; [left|right]; exists c; auto.
Qed.

(** A preference for hardware or software, and the count of failures, choose the
    order in which backends are tried and nothing else: a decoder is valid exactly if
    some backend for its format opens. *)
Theorem preferences_only_order f fallback p :
  valid (new_backend f fallback p) = true <-> openable f.
Proof.
  destruct f; cbn [new_backend].
  1,2: cbn; by rewrite is_some_true.
  - set (d := foldl _ _ _); assert (Hd : valid d = true <-> openable AV1).
    { unfold d, decoder_backend_order; cbn [foldl]; rewrite !open_av1_valid; cbn [no_decoder valid openable].
      assert (Hr : is_Some (ram_with_preference AV1 0 true) <->
        exists c, c ∈ ram_candidates AV1 /\ matches_format AV1 (codec_format c) = true /\ is_Some (open_ram c)).
      { rewrite ram_with_preference_some; split; [intros (c & ? & ? & _ & ?)|intros (c & ? & ? & ?)]; exists c; auto. }
      rewrite <- Hr; destruct (xorb _ _); cbn [negb]; split; intros; intuition done. }
    rewrite <- Hd; destruct (is_some _ && is_none _); done.
  - cbn [foldl decoder_backend_order]; rewrite !open_h26x_valid; cbn [no_decoder valid].
    set (b := xorb _ _); rewrite <- (h26x_either H264 (sat_sub fallback 1) b (or_introl eq_refl)); intuition done.
  - cbn [foldl decoder_backend_order]; rewrite !open_h26x_valid; cbn [no_decoder valid].
    set (b := xorb _ _); rewrite <- (h26x_either H265 (sat_sub fallback 1) b (or_intror eq_refl)); intuition done.
  - split; done.
Qed.

(** ** A hardware AV1 decoder that fails *)

(** The software decoder takes over: with the frame that failed if that holds a
    keyframe, and otherwise untouched, with a request for one. *)
Lemma av1_failure_exact vf d r :
  format vf = AV1 -> av1_ram d = Some r -> (ram_frame vf r).1 = None ->
  decode_frame vf d =
    match av1 d with
    | None => (None, d <| av1_ram := None |>)
    | Some a =>
        if has_keyframe vf
        then (from_ready <$> (aom_frame vf a).1, d <| av1_ram := None |> <| av1 := Some (aom_frame vf a).2 |>)
        else (Some NeedsKeyframe, d <| av1_ram := None |>)
    end.
Proof.
  intros Hf Hr He; unfold decode_frame; rewrite Hf, Hr; destruct (ram_frame vf r) as [o r']; simpl in He; subst o.
  cbn; destruct (av1 d) as [a|] eqn:Ea; cbn; [|done]; destruct (has_keyframe vf); cbn; [|done].
  unfold with_backend; by destruct (aom_frame vf a).
Qed.

(** When the hardware AV1 decoder fails on a delta, the software decoder is not
    given the frame, the host is asked for a keyframe, and whatever comes in the
    meantime, the next frame of the stream that reaches a decoder holds a keyframe. *)
Theorem software_takes_over_at_a_keyframe now vf (h : VideoHandler) r a l :
  (admit_frame vf h).1 = true -> format vf = AV1 -> has_keyframe vf = false ->
  av1_ram (decoder (admit_frame vf h).2) = Some r -> (ram_frame vf r).1 = None ->
  av1 (decoder (admit_frame vf h).2) = Some a -> decoder_of (decoder (admit_frame vf h).2) = AV1 ->
  Forall (of_format AV1) l ->
  (handle_frame now vf h).1 = Some NeedsKeyframe /\
  av1_ram (decoder (handle_frame now vf h).2) = None /\ av1 (decoder (handle_frame now vf h).2) = Some a /\
  refresh_requested (recovery (handle_frame now vf h).2) = true /\
  match head (decoded l (handle_frame now vf h).2) with None => True | Some kf => contains_key_frame kf = true end.
Proof.
  intros Hadm Hf Hk Hr He Ha Hd Hl; unfold handle_frame; destruct (admit_frame vf h) as [b k]; cbn in Hadm, Hr, Ha, Hd; subst b.
  pose proof (av1_failure_exact vf (decoder k) r Hf Hr He) as Hx; rewrite Ha, Hk in Hx.
  cbn [handle_video_frame backend_decoder]; rewrite Hx; cbn [fst snd note_outcome].
  split_and!; try done.
  apply waiting_decoded with AV1; [|done]; by split.
Qed.
End Decoder.

(** ** Runs *)

(** A machine whose decoders all open, and whose hardware AV1 decoder fails on the
    frames of a list. *)
Definition sample_backends (failing : list Z) : Backends := {|
  VpxDecoder := unit; AomDecoder := list Z; RamDecoder := CodecInfo;
  open_vpx := fun _ => Some tt; open_aom := Some []; open_ram := Some;
  vpx_frame := fun _ d => (Some true, d);
  aom_frame := fun vf d => (Some true, d ++ [frame_id vf]);
  ram_frame := fun vf d => (if bool_decide (frame_id vf ∈ failing) then None else Some true, d);
|}.

Definition device (n : string) (f : DataFormat) (d : AVHWDeviceType) (p : Z) : CodecInfo :=
  {| codec_name := n; mc_name := None; codec_format := f; priority := p; high_quality := false; hwdevice := d |}.

Definition linux_decoders : CodecEnv :=
  {| ram_encode := []; ram_decode :=
       [device "h264" FormatH264 VAAPI 1; device "h264" FormatH264 CUDA 2; device "h264" FormatH264 VULKAN 3;
        device "h264" FormatH264 HWDEVICE_NONE 4; device "av1" FormatAV1 VAAPI 1]%string;
     encoder_codec_preference := ""; prefer_hardware_codec := true; pointer_bytes := 8 |}.

#[local] Instance no_crate : HwCodec := {|
  is_software_encoder := fun _ => false;
  is_hardware_encoder := fun _ => true;
  supports_high_quality_profile := fun _ => false;
  available_software_decoders := [];
  prioritized := fun _ => {| best_h264 := None; best_h265 := None; best_av1 := None |};
  prioritized_h264 := fun _ _ H => match H in _ = o return match o with Some _ => _ | None => True end with eq_refl => I end;
  prioritized_h265 := fun _ _ H => match H in _ = o return match o with Some _ => _ | None => True end with eq_refl => I end;
  prioritized_av1 := fun _ _ H => match H in _ = o return match o with Some _ => _ | None => True end with eq_refl => I end;
|}.

Definition sample_decoder (failing : list Z) : DecoderApi := backend_decoder (backends := sample_backends failing) linux_decoders.

Definition av1_frame (key : bool) (n : Z) : VideoFrame :=
  {| display := 0; stream_id := 1; frame_id := n; capture_time_ms := n; union := true; format := AV1; has_keyframe := key |}.

(** A handler of an AV1 stream after its first frame. *)
Definition playing (failing : list Z) : VideoHandler (api := sample_decoder failing) :=
  (handle_frame (api := sample_decoder failing) 0 (av1_frame true 1) (new_with_preference (api := sample_decoder failing) AV1 0 None Auto)).2.

Lemma software_takes_over_at_a_keyframe_witness :
  (handle_frame (api := sample_decoder [2]) 5 (av1_frame false 2) (playing [2])).1 = Some NeedsKeyframe /\
  match head (decoded (api := sample_decoder [2]) [Frame 6 (av1_frame false 3); Frame 7 (av1_frame true 4); Frame 8 (av1_frame false 5)]
    (handle_frame (api := sample_decoder [2]) 5 (av1_frame false 2) (playing [2])).2) with
  | None => True | Some kf => contains_key_frame kf = true end.
Proof.
  destruct (software_takes_over_at_a_keyframe (backends := sample_backends [2]) linux_decoders 5 (av1_frame false 2) (playing [2])
    (device "av1" FormatAV1 VAAPI 1) []
    [Frame 6 (av1_frame false 3); Frame 7 (av1_frame true 4); Frame 8 (av1_frame false 5)]) as (H1 & _ & _ & _ & H2);
    try (vm_compute; reflexivity).
  - repeat constructor; vm_compute; try reflexivity; discriminate.
  - split; [exact H1|exact H2].
Defined.

(** The first frame that reaches the software decoder is the keyframe. *)
Example software_resumes :
  decoded (api := sample_decoder [2]) [Frame 6 (av1_frame false 3); Frame 7 (av1_frame true 4); Frame 8 (av1_frame false 5)]
    (handle_frame (api := sample_decoder [2]) 5 (av1_frame false 2) (playing [2])).2
  = [av1_frame true 4; av1_frame false 5].
Proof. vm_compute; reflexivity. Qed.

(** ** Recovery does not try every decoder

    A repeated failure moves on to another backend, then to another decoder of it.
    But the order of the backends and the rotation of the decoders both follow the
    count of failures: on this machine, where all decoders open, the third device
    decoder is never used, however often the others fail. *)
Theorem recovery_skips_a_decoder fallback :
  0 <= fallback ->
  h264_ram (new_backend (backends := sample_backends []) linux_decoders H264 fallback Auto) <> Some (device "h264" FormatH264 VULKAN 3).
Proof.
  intros Hf; destruct (Z.eq_dec fallback 0) as [->|Hne]; [vm_compute; discriminate|].
  assert (Hs : sat_sub fallback 1 = fallback - 1) by (unfold sat_sub; lia).
  cbn [new_backend use_hardware prefer_hardware_codec linux_decoders]; unfold decoder_backend_order; cbn [foldl].
  unfold open_h26x; cbn [valid no_decoder]; rewrite Hs, !(ram_with_preference_mod _ _ (fallback - 1)).
  assert (Hl : Z.of_nat (length (probed H264 (ram_candidates linux_decoders H264) true)) = 4 /\
    Z.of_nat (length (probed H264 (ram_candidates linux_decoders H264) false)) = 1) by (split; vm_compute; reflexivity).
  destruct (Z.eqb_spec (fallback mod 2) 0) as [He|Ho]; cbn [negb xorb]; rewrite (proj1 Hl), (proj2 Hl).
  - assert ((fallback - 1) mod 4 = 1 \/ (fallback - 1) mod 4 = 3) as [-> | ->] by (Z.div_mod_to_equations; lia);
      vm_compute; discriminate.
  - rewrite Z.mod_1_r; vm_compute; discriminate.
Qed.
