(* ===== verification/CodecProbe.v ===== *)
(** * The probe of the machine's codecs

    Models how the host and the viewer find out which codecs of FFmpeg work on
    their machine (src/libs/scrap/src/common/hwcodec.rs): a probe runs in a process of
    its own, at most one at a time; its result is kept with where it came from; a
    service may offer its result to other processes; a reset discards what is known
    and what a running probe will find.  In a Linux build with the feature hwcodec.

    Every step is what one of the threads does under one lock; the threads interleave
    in any order.  The clock, the results of probes, the current signature of the GPU
    and whether a thread can be started are arguments of the steps.  JSON is parsed
    by a library: [None] is text that is no configuration. *)

From S2P Require Import Prelude Floats VideoFeedback ViewerPlayback CodecChoice CodecTheory.

Definition DECODER_PROBE_VERSION : Z := 4.
Definition LOCAL_PROBE_ATTEMPTS : nat := 3.
Definition LOCAL_PROBE_RETRY_BACKOFF_SECONDS : list Z := [15; 60; 300].

(** ** When a probe may run *)

Record LocalProbeSchedule := {
  in_flight : bool;
  generation : Z;
  pending_force : bool;
  failures : Z;
  retry_at : option instant;
}.
#[export] Instance eta_LocalProbeSchedule : Eta LocalProbeSchedule := fun r =>
  Build_LocalProbeSchedule (in_flight r) (generation r) (pending_force r) (failures r) (retry_at r).

Definition default_schedule : LocalProbeSchedule :=
  {| in_flight := false; generation := 0; pending_force := false; failures := 0; retry_at := None |}.

Definition admit_probe (now : instant) (force : bool) (s : LocalProbeSchedule) : option Z * LocalProbeSchedule :=
  if in_flight s then (None, s <| pending_force ::= orb force |>)
  else if negb force && is_some_and (retry_at s) (fun t => now <? t) then (None, s)
  else (Some (generation s), s <| in_flight := true |>).

Definition invalidate (s : LocalProbeSchedule) : LocalProbeSchedule :=
  let s := s <| generation ::= fun g => wrap_u64 (g + 1) |> in
  if in_flight s then s <| pending_force := true |>
  else s <| pending_force := false |> <| failures := 0 |> <| retry_at := None |>.

Definition is_current (g : Z) (s : LocalProbeSchedule) : bool := generation s =? g.

(** The wait after the [n]-th failure in a row. *)
Definition retry_backoff (n : Z) : duration :=
  let last := Z.of_nat (length LOCAL_PROBE_RETRY_BACKOFF_SECONDS) - 1 in
  from_secs (nth (Z.to_nat (Z.min (sat_sub n 1) last)) LOCAL_PROBE_RETRY_BACKOFF_SECONDS 0).

Definition note_failure (now : instant) (s : LocalProbeSchedule) : LocalProbeSchedule :=
  let s := s <| failures ::= fun n => sat_add u64_max n 1 |> in
  s <| retry_at := Some (now + retry_backoff (failures s)) |>.

Definition clear_failures (s : LocalProbeSchedule) : LocalProbeSchedule :=
  s <| failures := 0 |> <| retry_at := None |>.

(** The result tells whether to probe again at once. *)
Definition finish (g : Z) (now : instant) (success : bool) (s : LocalProbeSchedule) : bool * LocalProbeSchedule :=
  let s := s <| in_flight := false |> in
  let s := if (g =? generation s) && success then clear_failures s
           else if g =? generation s then note_failure now s
           else clear_failures s in
  (pending_force s, s <| pending_force := false |>).

Definition abort (g : Z) (now : instant) (s : LocalProbeSchedule) : LocalProbeSchedule :=
  if negb (g =? generation s) then clear_failures (s <| in_flight := false |> <| pending_force := false |>)
  else note_failure now (s <| in_flight := false |> <| pending_force := false |>).

(** ** What is known *)

Record HwCodecConfig := {
  decoder_probe_version : Z;
  signature : Z;
  cfg_encode : list CodecInfo;
  transient_probe_failure : bool;
  cfg_decode : list CodecInfo;
}.
#[export] Instance eta_HwCodecConfig : Eta HwCodecConfig := fun r =>
  Build_HwCodecConfig (decoder_probe_version r) (signature r) (cfg_encode r) (transient_probe_failure r) (cfg_decode r).

Definition default_config : HwCodecConfig :=
  {| decoder_probe_version := 0; signature := 0; cfg_encode := []; transient_probe_failure := false; cfg_decode := [] |}.

#[export] Instance CodecInfo_eq_dec : EqDecision CodecInfo.
Proof. solve_decision. Defined.
#[export] Instance HwCodecConfig_eq_dec : EqDecision HwCodecConfig.
Proof. solve_decision. Defined.

Definition needs_decoder_probe (c : HwCodecConfig) : bool := negb (decoder_probe_version c =? DECODER_PROBE_VERSION).
Definition needs_probe (c : HwCodecConfig) : bool := needs_decoder_probe c || transient_probe_failure c.
Definition is_config_ready (c : option HwCodecConfig) : bool := is_some_and c (fun c => negb (needs_probe c)).
Definition has_capabilities (c : HwCodecConfig) : bool :=
  negb (bool_decide (cfg_encode c = [])) || negb (bool_decide (cfg_decode c = [])).

Definition verified (config : option HwCodecConfig) : option HwCodecConfig :=
  match config with
  | Some c => if needs_decoder_probe c then None else Some c
  | None => None
  end.

Definition discard_unverified_decoders (c : HwCodecConfig) : HwCodecConfig :=
  if needs_decoder_probe c
  then c <| cfg_decode := [] |>
         <| cfg_encode ::= map (fun e => {| codec_name := codec_name e; mc_name := mc_name e; codec_format := codec_format e;
                                            priority := priority e; high_quality := false; hwdevice := hwdevice e |}) |>
  else c.

(** A signature is suspect on Windows only. *)
Inductive ProbeConfigDisposition := Accept | Retryable | Reject.

Definition gpu_signature_is_suspect (windows : bool) (signature : Z) : bool :=
  windows && ((signature =? 0) || (signature =? u64_max)).

Definition service_config_disposition (windows : bool) (config_signature current_signature : Z) (local_verified has_capabilities : bool) : ProbeConfigDisposition :=
  if local_verified || negb has_capabilities then Reject
  else if gpu_signature_is_suspect windows config_signature || gpu_signature_is_suspect windows current_signature then Reject
  else if config_signature =? current_signature then Accept else Reject.

Definition local_config_disposition (windows : bool) (config_signature current_signature : Z) : ProbeConfigDisposition :=
  if gpu_signature_is_suspect windows config_signature || gpu_signature_is_suspect windows current_signature then Retryable
  else if negb (config_signature =? current_signature) then Reject
  else Accept.

Section Probe.
Context `{hw : HwCodec}.

Definition retain_software_capabilities (c : HwCodecConfig) : HwCodecConfig :=
  c <| cfg_encode ::= List.filter (fun e => negb (is_hardware_encoder e)) |>
    <| cfg_decode ::= List.filter (fun e => bool_decide (hwdevice e = HWDEVICE_NONE)) |>.

(** The globals: the schedule, [HwCodecState], and the count viewers watch for changes
    of what their machine can do. *)
Record ProbeState := {
  schedule : LocalProbeSchedule;
  config : option HwCodecConfig;
  set_by_ipc : bool;
  local_verified : bool;
  capability_generation : Z;
}.
#[export] Instance eta_ProbeState : Eta ProbeState := fun r =>
  Build_ProbeState (schedule r) (config r) (set_by_ipc r) (local_verified r) (capability_generation r).

Definition initial_probe : ProbeState :=
  {| schedule := default_schedule; config := None; set_by_ipc := false; local_verified := false; capability_generation := 0 |}.

Definition next_generation (s : ProbeState) : ProbeState := s <| capability_generation ::= fun g => wrap_u64 (g + 1) |>.

Definition apply_locked (c : HwCodecConfig) (local : bool) (s : ProbeState) : ProbeState :=
  next_generation (s <| config := Some c |> <| set_by_ipc := negb local |> <| local_verified := local |>).

Definition set_from_service (json : option HwCodecConfig) (current_signature : Z) (s : ProbeState) : bool * ProbeState :=
  match verified json with
  | None => (false, s)
  | Some c =>
      match service_config_disposition false (signature c) current_signature (local_verified s) (has_capabilities c) with
      | Accept => (true, apply_locked c false s)
      | _ => (false, s)
      end
  end.

Definition set_from_local_probe_value (json : option HwCodecConfig) (current_signature : Z) (s : ProbeState) : bool * ProbeState :=
  match verified json with
  | None => (false, s)
  | Some c =>
      match local_config_disposition false (signature c) current_signature with
      | Reject => (false, s)
      | Accept => (true, apply_locked c true s)
      | Retryable =>
          (true, apply_locked (retain_software_capabilities c <| signature := current_signature |> <| transient_probe_failure := true |>) true s)
      end
  end.

Definition set_from_local_probe_at (json : option HwCodecConfig) (g : Z) (current_signature : Z) (s : ProbeState) : bool * ProbeState :=
  if negb (is_current g (schedule s)) then (false, s)
  else set_from_local_probe_value json current_signature s.

Definition get (s : ProbeState) : HwCodecConfig * ProbeState :=
  match config s with
  | Some stored =>
      let c := discard_unverified_decoders stored in
      (c, if bool_decide (c = stored) then s else next_generation (s <| config := Some c |>))
  | None => (default_config, s)
  end.

Definition is_ready (s : ProbeState) : bool * ProbeState :=
  let s := (get s).2 in (is_config_ready (config s), s).

Definition needs_local_probe (s : ProbeState) : bool * ProbeState :=
  let s := (get s).2 in (negb (local_verified s) || negb (is_config_ready (config s)), s).

Definition reset_probe (s : ProbeState) : ProbeState :=
  next_generation (s <| schedule ::= invalidate |> <| config := None |> <| set_by_ipc := false |> <| local_verified := false |>).

(** [clear(false, encode)], without the renegotiation that ends it. *)
Definition clear_ram (encode : bool) (s : ProbeState) : ProbeState :=
  match config s with
  | None => s
  | Some c =>
      let changed := negb (bool_decide ((if encode then cfg_encode c else cfg_decode c) = [])) in
      let s := s <| config := Some (if encode then c <| cfg_encode := [] |> else c <| cfg_decode := [] |>) |> in
      if changed then next_generation s else s
  end.

(** ** The threads *)

(** Where the thread of a probe is in [run_check_process]: before it was started, at the
    top of the loop, after its sleep, in the probe, after the result was kept or
    refused, at the end. *)
Inductive Stage :=
| Spawning
| AtTop (attempt : nat)
| Slept (attempt : nat)
| Probing (attempt : nat)
| Kept (attempt : nat)
| Refused (attempt : nat)
| Ending (success : bool).

Record Runner := { run_generation : Z; stage : Stage }.

Record World := { state : ProbeState; runners : list Runner; restarting : nat }.
#[export] Instance eta_World : Eta World := fun r => Build_World (state r) (runners r) (restarting r).

Definition initial_world : World := {| state := initial_probe; runners := []; restarting := 0 |}.

(** The steps of a thread between its start and its end. *)
Definition runner_step (result : option (option HwCodecConfig)) (current_signature : Z) (r : Runner) (s : ProbeState) : Stage * ProbeState :=
  let current := is_current (run_generation r) (schedule s) in
  match stage r with
  | AtTop n => (if (n <? LOCAL_PROBE_ATTEMPTS)%nat && current then Slept n else Ending false, s)
  | Slept n => (if current then Probing n else Ending false, s)
  | Probing n =>
      match result with
      | None => (AtTop (S n), s)
      | Some json =>
          let '(kept, s) := set_from_local_probe_at json (run_generation r) current_signature s in
          (if kept then Kept n else Refused n, s)
      end
  | Kept n =>
      let '(ready, s') := is_ready s in
      if local_verified s && ready then (Ending true, s') else (AtTop (S n), if local_verified s then s' else s)
  | Refused n => (if current then AtTop (S n) else Ending false, s)
  | st => (st, s)
  end.

Inductive ProbeEvent :=
| StartCheck (now : instant) (force : bool)
| Spawned (now : instant) (ok : bool)
| RunnerTurn (now : instant) (result : option (option HwCodecConfig)) (current_signature : Z)
| Rerun (now : instant)
| ResetProbe
| SetFromService (json : option HwCodecConfig) (current_signature : Z)
| ClearRam (encode : bool)
| GetConfig.

(** The second half of [start_check_process_inner]. *)
Definition admit_runner (now : instant) (force : bool) (w : World) : World :=
  let '(g, sch) := admit_probe now force (schedule (state w)) in
  let w := w <| state ::= fun s => s <| schedule := sch |> |> in
  match g with
  | Some g => w <| runners ::= fun l => l ++ [{| run_generation := g; stage := Spawning |}] |>
  | None => w
  end.

(** The thread at the head of [runners] takes a turn. *)
Definition probe_event (e : ProbeEvent) (w : World) : World :=
  match e with
  | StartCheck now force =>
      if force then admit_runner now true w
      else
        let '(needed, s) := needs_local_probe (state w) in
        let w := w <| state := s |> in
        if needed then admit_runner now false w else w
  | Spawned now ok =>
      match runners w with
      | {| run_generation := g; stage := Spawning |} :: rest =>
          if ok then w <| runners := {| run_generation := g; stage := AtTop 0 |} :: rest |>
          else w <| state ::= fun s => s <| schedule ::= abort g now |> |> <| runners := rest |>
      | _ => w
      end
  | RunnerTurn now result sig =>
      match runners w with
      | [] => w
      | r :: rest =>
          match stage r with
          | Spawning => w
          | Ending success =>
              let '(rerun, sch) := finish (run_generation r) now success (schedule (state w)) in
              w <| state ::= fun s => s <| schedule := sch |> |> <| runners := rest |>
                <| restarting ::= fun n => if rerun then S n else n |>
          | _ =>
              let '(st, s) := runner_step result sig r (state w) in
              w <| state := s |> <| runners := {| run_generation := run_generation r; stage := st |} :: rest |>
          end
      end
  | Rerun now =>
      match restarting w with
      | O => w
      | S n => admit_runner now true (w <| restarting := n |>)
      end
  | ResetProbe => w <| state ::= reset_probe |>
  | SetFromService json sig => w <| state ::= fun s => (set_from_service json sig s).2 |>
  | ClearRam encode => w <| state ::= clear_ram encode |>
  | GetConfig => w <| state ::= fun s => (get s).2 |>
  end.

Definition probe_events (es : list ProbeEvent) (w : World) : World := foldl (fun w e => probe_event e w) w es.

(** ** One probe at a time *)

Definition slot (w : World) : Prop :=
  length (runners w) = Nat.b2n (in_flight (schedule (state w))) /\
  (pending_force (schedule (state w)) = true -> in_flight (schedule (state w)) = true).

Lemma get_schedule s : schedule (get s).2 = schedule s.
Proof. unfold get; destruct (config s); [case_bool_decide|]; done. Qed.

Lemma needs_local_probe_schedule s : schedule (needs_local_probe s).2 = schedule s.
Proof. apply get_schedule. Qed.

Lemma set_local_schedule json g sig s : schedule (set_from_local_probe_at json g sig s).2 = schedule s.
Proof.
  unfold set_from_local_probe_at, set_from_local_probe_value; destruct (negb _); [done|].
  destruct (verified json); [|done]; by destruct (local_config_disposition _ _ _).
Qed.

Lemma set_service_schedule json sig s : schedule (set_from_service json sig s).2 = schedule s.
Proof.
  unfold set_from_service; destruct (verified json); [|done]; by destruct (service_config_disposition _ _ _ _ _).
Qed.

Lemma clear_ram_schedule encode s : schedule (clear_ram encode s) = schedule s.
Proof. unfold clear_ram; destruct (config s); [|done]; by case_bool_decide. Qed.

Lemma runner_step_schedule result sig r s : schedule (runner_step result sig r s).2 = schedule s.
Proof.
  unfold runner_step; destruct (stage r); try done.
  - destruct result as [json|]; [|done].
    pose proof (set_local_schedule json (run_generation r) sig s); by destruct (set_from_local_probe_at _ _ _ _).
  - unfold is_ready; cbn; destruct (_ && _); [apply get_schedule|cbn]; destruct (local_verified s); [apply get_schedule|done].
Qed.

Lemma admit_runner_slot now force w : slot w -> slot (admit_runner now force w).
Proof.
  unfold slot, admit_runner, admit_probe; intros [H1 H2].
  destruct (in_flight (schedule (state w))) eqn:E; [split; cbn; rewrite ?E; done|].
  destruct (negb force && _); [split; cbn; rewrite ?E; done|].
  split; cbn; [rewrite length_app, H1; done|done].
Qed.

Lemma slot_empty w r rest : slot w -> runners w = r :: rest ->
  in_flight (schedule (state w)) = true /\ rest = [].
Proof.
  intros [H _] Hr; rewrite Hr in H; cbn in H; destruct (in_flight _); [|done]; by destruct rest.
Qed.

Lemma probe_event_slot e w : slot w -> slot (probe_event e w).
Proof.
  intros Hw; destruct e as [now force|now ok|now result sig|now| |json sig|encode|]; cbn [probe_event].
  - destruct force; [by apply admit_runner_slot|].
    pose proof (needs_local_probe_schedule (state w)) as Hs; destruct (needs_local_probe (state w)) as [b s]; cbn in Hs.
    assert (Hw' : slot (w <| state := s |>)) by (unfold slot; cbn; by rewrite Hs).
    destruct b; [by apply admit_runner_slot|done].
  - destruct (runners w) as [|[g []] rest] eqn:Er; try done.
    destruct (slot_empty w _ _ Hw Er) as (Hi & ->); destruct ok.
    + unfold slot; cbn; rewrite Hi; done.
    + unfold slot, abort; cbn; by destruct (negb _).
  - destruct (runners w) as [|r rest] eqn:Er; [done|].
    destruct (slot_empty w _ _ Hw Er) as (Hi & ->).
    assert (Hstep : forall st s, schedule s = schedule (state w) ->
      slot (w <| state := s |> <| runners := [{| run_generation := run_generation r; stage := st |}] |>)).
    { intros st s Hs; unfold slot; cbn; rewrite Hs, Hi; done. }
    destruct (stage r) eqn:Est; try done;
      try (pose proof (runner_step_schedule result sig r (state w)) as Hs; destruct (runner_step result sig r (state w)) as [st s];
           cbn in Hs; by apply Hstep).
    unfold finish; unfold slot; cbn; by destruct (_ && _); [|destruct (_ =? _)].
  - destruct (restarting w); [done|]; by apply admit_runner_slot.
  - destruct Hw as [H1 H2]; unfold slot, reset_probe, invalidate; cbn.
    destruct (in_flight (schedule (state w))) eqn:E; cbn; rewrite ?E; done.
  - unfold slot; cbn; by rewrite set_service_schedule.
  - unfold slot; cbn; by rewrite clear_ram_schedule.
  - unfold slot; cbn; by rewrite get_schedule.
Qed.

Lemma probe_events_slot es w : slot w -> slot (probe_events es w).
Proof. revert w; induction es as [|e es IH]; intros w H; [done|]; cbn; by apply IH, probe_event_slot. Qed.

(** At most one probe of the machine runs, whatever the threads do; a request that
    came while it ran is remembered only as long as it runs, and the thread that ends
    it then probes again. *)
Theorem one_probe_at_a_time es :
  let w := probe_events es initial_world in
  (length (runners w) <= 1)%nat /\ (runners w = [] <-> in_flight (schedule (state w)) = false) /\
  (pending_force (schedule (state w)) = true -> exists r, runners w = [r]).
Proof.
  cbn zeta; destruct (probe_events_slot es initial_world) as [H1 H2]; [by split|].
  destruct (in_flight _); cbn in H1; destruct (runners (probe_events es initial_world)) as [|r [|]]; try done; split_and!;
    try done; try lia; intros Hp; try (by eexists); by specialize (H2 Hp).
Qed.

(** ** Results of before a reset *)

Definition is_reset (e : ProbeEvent) : bool := match e with ResetProbe => true | _ => false end.
Definition resets (es : list ProbeEvent) : Z := count_if is_reset es.

(** Nothing is started, and no service speaks. *)
Definition only_running (e : ProbeEvent) : Prop :=
  match e with StartCheck _ _ | Rerun _ | SetFromService _ _ => False | _ => True end.

(** After [n] resets: the generation, and a bound of those of the runners. *)
Definition of_generation (n bound : Z) (w : World) : Prop :=
  generation (schedule (state w)) = n /\ Forall (fun r => 0 <= run_generation r <= bound) (runners w).

Lemma admit_runner_generation now force n w :
  0 <= n -> of_generation n n w -> of_generation n n (admit_runner now force w).
Proof.
  unfold of_generation, admit_runner, admit_probe; intros Hn [H1 H2].
  destruct (in_flight _); [done|]; destruct (negb force && _); [done|]; cbn; split; [done|].
  apply Forall_app; split; [done|]; constructor; cbn; [lia|done].
Qed.

Lemma running_generation e n bound w : only_running e \/ (exists json sig, e = SetFromService json sig) ->
  0 <= n -> n + Z.b2z (is_reset e) < 2 ^ 64 -> of_generation n bound w ->
  of_generation (n + Z.b2z (is_reset e)) bound (probe_event e w).
Proof.
  intros He Hn Hb [H1 H2]; unfold of_generation; destruct e as [now force|now ok|now result sig|now| |json sig|encode|]; cbn in *;
    rewrite ?Z.add_0_r; try (by destruct He as [|(? & ? & ?)]).
  - destruct (runners w) as [|[g []] rest] eqn:Er; cbn; rewrite ?Er; try done.
    apply Forall_cons in H2 as [Hr H2]; destruct ok; cbn; [split; [done|by constructor]|].
    split; [|done]; unfold abort; by destruct (negb _).
  - destruct (runners w) as [|r rest] eqn:Er; cbn; rewrite ?Er; [done|]; apply Forall_cons in H2 as [Hr H2].
    pose proof (runner_step_schedule result sig r (state w)) as Hs.
    destruct (stage r) eqn:Est; cbn; rewrite ?Er; try (split; [done|by constructor]);
      try (destruct (runner_step result sig r (state w)) as [st s]; cbn in Hs |- *; split; [by rewrite Hs|by constructor]).
    unfold finish; cbn; split; [by destruct (_ && _); [|destruct (_ =? _)]|done].
  - split; [|done]; unfold invalidate; cbn; rewrite H1; destruct (in_flight _); cbn; unfold wrap_u64; rewrite Z.mod_small; lia.
  - split; [by rewrite set_service_schedule|done].
  - split; [by rewrite clear_ram_schedule|done].
  - split; [by rewrite get_schedule|done].
Qed.

Lemma events_generation es w n : of_generation n n w -> 0 <= n -> n + resets es < 2 ^ 64 ->
  of_generation (n + resets es) (n + resets es) (probe_events es w).
Proof.
  revert w n; induction es as [|e es IH]; intros w n Hw Hn Hb; [by rewrite Z.add_0_r|].
  unfold resets in *; cbn [count_if probe_events foldl] in *.
  pose proof (count_if_bounds is_reset es) as Hc.
  assert (Hb' : 0 <= Z.b2z (is_reset e) <= 1) by (destruct (is_reset e); cbn; lia).
  rewrite Z.add_assoc; apply IH; [|lia|lia].
  assert (Hcase : (only_running e \/ exists json sig, e = SetFromService json sig) \/ ((exists now force, e = StartCheck now force) \/ exists now, e = Rerun now))
    by (destruct e; eauto 7; left; left; exact I).
  destruct Hcase as [Hr|[(now & force & ->)|(now & ->)]].
  - destruct (running_generation e n n w Hr Hn ltac:(lia) Hw) as [H1 H2]; split; [done|].
    eapply Forall_impl; [exact H2|]; intros r Hr'; cbn in Hr'; lia.
  - cbn [is_reset Z.b2z probe_event]; rewrite Z.add_0_r; destruct force; [by apply admit_runner_generation|].
    pose proof (needs_local_probe_schedule (state w)) as Hs; destruct (needs_local_probe (state w)) as [b s]; cbn in Hs.
    assert (Hw' : of_generation n n (w <| state := s |>)) by (destruct Hw as [H1 H2]; split; cbn; [by rewrite Hs|done]).
    destruct b; [by apply admit_runner_generation|done].
  - cbn [is_reset Z.b2z probe_event]; rewrite Z.add_0_r; destruct (restarting w); [done|]; by apply admit_runner_generation.
Qed.

(** A runner of an old generation leaves the configuration alone. *)
Lemma stale_event e n bound w : only_running e -> bound < n -> of_generation n bound w -> config (state w) = None ->
  config (state (probe_event e w)) = None.
Proof.
  intros He Hlt [H1 H2] Hc; destruct e as [now force|now ok|now result sig|now| |json sig|encode|]; cbn in *; try done.
  - destruct (runners w) as [|[g []] rest]; try done; by destruct ok.
  - destruct (runners w) as [|r rest] eqn:Er; [done|]; apply Forall_cons in H2 as [Hr H2].
    assert (Hget : (get (state w)).2 = state w) by (unfold get; by rewrite Hc).
    assert (Hn : is_current (run_generation r) (schedule (state w)) = false) by (unfold is_current; lia).
    destruct (stage r) eqn:Est; try done; unfold runner_step; rewrite Est, ?Hn; cbn; try done.
    + destruct result as [json|]; [|done]; unfold set_from_local_probe_at; by rewrite Hn.
    + unfold is_ready; rewrite Hget; cbn; destruct (_ && _); cbn; [done|]; by destruct (local_verified _).
  - unfold clear_ram; by rewrite Hc.
  - unfold get; by rewrite Hc.
Qed.

(** A reset keeps the results of before it out: a probe that was running goes on,
    but what it finds is not taken, and what the machine can do stays unknown until a
    probe that was started after the reset, or a service, says so. *)
Theorem reset_keeps_old_results_out es1 es2 :
  resets (es1 ++ ResetProbe :: es2) < 2 ^ 64 -> Forall only_running es2 ->
  config (state (probe_events (es1 ++ ResetProbe :: es2) initial_world)) = None.
Proof.
  intros Hb Hr; unfold resets in Hb; rewrite count_if_app in Hb; cbn [count_if is_reset Z.b2z] in Hb.
  pose proof (count_if_bounds is_reset es1) as H1; pose proof (count_if_bounds is_reset es2) as H2.
  unfold probe_events; rewrite foldl_app; fold (probe_events es1 initial_world); cbn [foldl].
  destruct (events_generation es1 initial_world 0) as [Hg Hf]; [by split; [|constructor]|lia|unfold resets; lia|].
  rewrite Z.add_0_l in Hg, Hf; set (w := probe_events es1 initial_world) in *; set (n := resets es1) in *.
  destruct (running_generation ResetProbe n n w (or_introl I)) as [Hg' Hf']; [unfold n, resets; lia|unfold n, resets; cbn; lia|by split|].
  cbn [is_reset Z.b2z] in Hg'; assert (Hc : config (state (probe_event ResetProbe w)) = None) by done.
  assert (Hn : n < n + 1 /\ 0 <= n /\ n + 1 + count_if is_reset es2 < 2 ^ 64) by (unfold n, resets; lia).
  clearbody n; clear H1 H2 Hb Hg Hf; revert Hg' Hf' Hc Hn Hr; generalize (probe_event ResetProbe w) (n + 1); clear w.
  induction es2 as [|e es IH]; intros w k Hg Hf Hc (Hlt & Hn & Hb) Hr; [done|]; apply Forall_cons in Hr as [He Hr]; cbn [foldl].
  cbn [count_if] in Hb; pose proof (count_if_bounds is_reset es) as H2.
  assert (Hb' : 0 <= Z.b2z (is_reset e) <= 1) by (destruct (is_reset e); cbn; lia).
  destruct (running_generation e k n w (or_introl He)) as [Hg' Hf']; [lia|lia|by split|].
  apply IH with (k + Z.b2z (is_reset e)); [done|done| |lia|done].
  apply stale_event with k n; [done|lia|by split|done].
Qed.

(** ** A probe ends *)

(** The turns a thread has left at most. *)
Definition turns_left (st : Stage) : nat :=
  match st with
  | Spawning => 15
  | AtTop n => 4 * (LOCAL_PROBE_ATTEMPTS - n) + 2
  | Slept n => 4 * (LOCAL_PROBE_ATTEMPTS - n) + 1
  | Probing n => 4 * (LOCAL_PROBE_ATTEMPTS - n)
  | Kept n | Refused n => 4 * (LOCAL_PROBE_ATTEMPTS - n) - 1
  | Ending _ => 1
  end.
Definition in_loop (st : Stage) : Prop :=
  match st with
  | Spawning => False
  | AtTop _ | Ending _ => True
  | Slept n | Probing n | Kept n | Refused n => (n < LOCAL_PROBE_ATTEMPTS)%nat
  end.

Lemma runner_step_turns result sig r s : in_loop (stage r) -> (forall b, stage r <> Ending b) ->
  in_loop (runner_step result sig r s).1 /\ (turns_left (runner_step result sig r s).1 < turns_left (stage r))%nat.
Proof.
  unfold runner_step, LOCAL_PROBE_ATTEMPTS; intros Hl Hne; destruct (stage r) as [|n|n|n|n|n|b]; cbn -[Nat.sub Nat.mul Nat.ltb] in *; unfold LOCAL_PROBE_ATTEMPTS in *; try done.
  - destruct (Nat.ltb_spec n 3); cbn [andb]; [destruct (is_current _ _)|]; cbn -[Nat.sub Nat.mul Nat.ltb]; unfold LOCAL_PROBE_ATTEMPTS; lia.
  - destruct (is_current _ _); cbn -[Nat.sub Nat.mul Nat.ltb]; unfold LOCAL_PROBE_ATTEMPTS; lia.
  - destruct result as [json|]; [destruct (set_from_local_probe_at _ _ _ _) as [[] s']|]; cbn -[Nat.sub Nat.mul Nat.ltb]; unfold LOCAL_PROBE_ATTEMPTS; lia.
  - destruct (_ && _); cbn -[Nat.sub Nat.mul Nat.ltb]; unfold LOCAL_PROBE_ATTEMPTS; lia.
  - destruct (is_current _ _); cbn -[Nat.sub Nat.mul Nat.ltb]; unfold LOCAL_PROBE_ATTEMPTS; lia.
  - by destruct (Hne b).
Qed.

Definition is_turn (e : ProbeEvent) : bool := match e with RunnerTurn _ _ _ => true | _ => false end.

(** Other steps leave the running thread where it is. *)
Lemma probe_event_runner e w r : slot w -> runners w = [r] -> in_loop (stage r) -> is_turn e = false ->
  runners (probe_event e w) = [r].
Proof.
  intros Hw Hr Hl Ht; destruct (slot_empty w r [] Hw Hr) as [Hi _]; destruct e as [now force|now ok|now result sig|now| |json sig|encode|]; cbn [probe_event]; try done.
  - unfold admit_runner, admit_probe; destruct force; [by rewrite Hi|].
    pose proof (needs_local_probe_schedule (state w)) as Hs; destruct (needs_local_probe (state w)) as [b s]; cbn in Hs.
    destruct b; [|done]; cbn; by rewrite Hs, Hi.
  - rewrite Hr; destruct r as [g []]; done.
  - destruct (restarting w); [done|]; unfold admit_runner, admit_probe; cbn; by rewrite Hi.
Qed.

Lemma probe_ends_within es w r : slot w -> runners w = [r] -> in_loop (stage r) ->
  Z.of_nat (turns_left (stage r)) <= count_if is_turn es ->
  exists es1 es2, es = es1 ++ es2 /\ runners (probe_events es1 w) = [].
Proof.
  revert w r; induction es as [|e es IH]; intros w r Hw Hr Hl Hc; cbn in Hc.
  { destruct (stage r) as [| | | | | |]; cbn in *; unfold LOCAL_PROBE_ATTEMPTS in *; lia. }
  destruct (is_turn e) eqn:Et.
  - destruct e as [| |now result sig| | | | |]; try done; destruct (stage r) as [|n|n|n|n|n|b] eqn:Est; try done;
      [..|exists [RunnerTurn now result sig], es; split; [done|]; cbn; rewrite Hr, Est; cbn; done].
    all: assert (Hne : forall b, stage r <> Ending b) by (intros b; by rewrite Est).
    all: assert (Hl' : in_loop (stage r)) by (by rewrite Est).
    all: destruct (runner_step_turns result sig r (state w) Hl' Hne) as [Hin Hlt]; rewrite Est in Hlt.
    all: pose proof (probe_event_slot (RunnerTurn now result sig) w Hw) as Hw'.
    all: assert (Hr' : runners (probe_event (RunnerTurn now result sig) w) = [{| run_generation := run_generation r; stage := (runner_step result sig r (state w)).1 |}])
      by (cbn; rewrite Hr, Est; by destruct (runner_step result sig r (state w))).
    all: destruct (IH _ _ Hw' Hr') as (es1 & es2 & -> & H); [done|cbn [stage Z.b2z] in *; lia|].
    all: by exists (RunnerTurn now result sig :: es1), es2.
  - pose proof (probe_event_slot e w Hw) as Hw'; pose proof (probe_event_runner e w r Hw Hr Hl Et) as Hr'.
    destruct (IH _ _ Hw' Hr' Hl) as (es1 & es2 & -> & H); [done|]; by exists (e :: es1), es2.
Qed.

(** A probe ends: whatever the others do and whatever it finds, the thread that
    was started is gone after at most fourteen turns of its own, three of which run
    the probe. *)
Theorem probe_ends es es' now :
  stage <$> runners (probe_events es initial_world) = [Spawning] ->
  14 <= count_if is_turn es' ->
  exists es1 es2, es' = es1 ++ es2 /\ runners (probe_events (es ++ Spawned now true :: es1) initial_world) = [].
Proof.
  intros Hs Hc; destruct (runners (probe_events es initial_world)) as [|[g st] [|]] eqn:Er; simplify_eq/=.
  assert (Hw : slot (probe_events es initial_world)) by (apply probe_events_slot; by split).
  pose proof (probe_event_slot (Spawned now true) _ Hw) as Hw'.
  destruct (probe_ends_within es' (probe_event (Spawned now true) (probe_events es initial_world)) {| run_generation := g; stage := AtTop 0 |})
    as (es1 & es2 & -> & H); [done|by cbn; rewrite Er|done|done|].
  exists es1, es2; split; [done|]; revert H; unfold probe_events; by rewrite foldl_app.
Qed.

(** ** Failures *)

Lemma retry_backoff_bounds n : from_secs 15 <= retry_backoff n <= from_secs 300.
Proof.
  unfold retry_backoff, LOCAL_PROBE_RETRY_BACKOFF_SECONDS; cbn [length]; change (Z.of_nat 3 - 1) with 2.
  assert (sat_sub n 1 = 0 \/ sat_sub n 1 = 1 \/ 2 <= sat_sub n 1) as [-> |[-> |H]] by (unfold sat_sub; lia); [vm_compute; intuition done..|].
  rewrite Z.min_r by lia; vm_compute; intuition done.
Qed.

(** After a probe failed nothing but a forced request starts another before its
    wait is over, 15 seconds to five minutes by the failures in a row; after it is
    over, any request does. *)
Theorem failed_probe_waits g now t s :
  generation s = g -> pending_force s = false ->
  let s' := (finish g now false s).2 in
  (t < now + retry_backoff (failures s') -> (admit_probe t false s').1 = None) /\
  (now + retry_backoff (failures s') <= t -> (admit_probe t false s').1 = Some g) /\
  (admit_probe t true s').1 = Some g /\
  from_secs 15 <= retry_backoff (failures s') <= from_secs 300.
Proof.
  intros <- Hp; unfold finish; cbn zeta; cbn [generation set_field]; rewrite Z.eqb_refl; cbn [andb snd].
  split_and!; try apply retry_backoff_bounds; intros; unfold admit_probe; cbn; unfold note_failure; cbn.
  - destruct (Z.ltb_spec t (now + retry_backoff (sat_add u64_max (failures s) 1))); [done|cbn in *; lia].
  - destruct (Z.ltb_spec t (now + retry_backoff (sat_add u64_max (failures s) 1))); [cbn in *; lia|done].
  - done.
Qed.

(** ** Provenance *)

(** What is known was verified, and either comes from a probe of this process or from
    a service. *)
Definition provenance (s : ProbeState) : Prop :=
  match config s with
  | Some c => needs_decoder_probe c = false /\ set_by_ipc s = negb (local_verified s)
  | None => set_by_ipc s = false /\ local_verified s = false
  end.

Lemma provenance_get s : provenance s -> (get s).2 = s.
Proof.
  unfold provenance, get; destruct (config s) as [c|]; [|done]; intros [Hc _].
  unfold discard_unverified_decoders; rewrite Hc; by rewrite bool_decide_true.
Qed.

Lemma verified_ok json c : verified json = Some c -> needs_decoder_probe c = false.
Proof. unfold verified; destruct json as [c'|]; [|done]; destruct (needs_decoder_probe c') eqn:E; by intros [= <-]. Qed.

Lemma local_provenance json g sig s : provenance s ->
  provenance (set_from_local_probe_at json g sig s).2 /\
  (local_verified s = true -> local_verified (set_from_local_probe_at json g sig s).2 = true).
Proof.
  intros Hs; unfold set_from_local_probe_at, set_from_local_probe_value; destruct (negb _); [done|].
  destruct (verified json) as [c|] eqn:E; [|done]; apply verified_ok in E.
  destruct (local_config_disposition _ _ _); done.
Qed.

Lemma service_provenance json sig s : provenance s ->
  provenance (set_from_service json sig s).2 /\ (local_verified s = true -> (set_from_service json sig s).2 = s).
Proof.
  intros Hs; unfold set_from_service; destruct (verified json) as [c|] eqn:E; [|done]; apply verified_ok in E.
  unfold service_config_disposition; cbn; destruct (local_verified s) eqn:El; cbn; [done|].
  destruct (negb _); [done|]; destruct (_ =? _); done.
Qed.

Lemma clear_provenance encode s : provenance s ->
  provenance (clear_ram encode s) /\ local_verified (clear_ram encode s) = local_verified s.
Proof.
  unfold clear_ram, provenance; destruct (config s) as [c|] eqn:E; [|by rewrite E]; intros [H1 H2].
  case_bool_decide; cbn; by destruct encode.
Qed.

Lemma runner_step_provenance result sig r s : provenance s ->
  provenance (runner_step result sig r s).2 /\ (local_verified s = true -> local_verified (runner_step result sig r s).2 = true).
Proof.
  intros Hs; unfold runner_step; destruct (stage r); try done.
  - destruct result as [json|]; [|done].
    pose proof (local_provenance json (run_generation r) sig s Hs); by destruct (set_from_local_probe_at _ _ _ _).
  - unfold is_ready; rewrite (provenance_get s Hs); destruct (local_verified s) eqn:El; cbn; [destruct (is_config_ready _)|]; done.
Qed.

Lemma admit_runner_known now force w :
  config (state (admit_runner now force w)) = config (state w) /\ set_by_ipc (state (admit_runner now force w)) = set_by_ipc (state w) /\
  local_verified (state (admit_runner now force w)) = local_verified (state w).
Proof. unfold admit_runner; by destruct (admit_probe _ _ _) as [[] ?]. Qed.

Lemma probe_event_provenance e w : provenance (state w) ->
  provenance (state (probe_event e w)) /\
  (is_reset e = false -> local_verified (state w) = true -> local_verified (state (probe_event e w)) = true).
Proof.
  intros Hw; destruct e as [now force|now ok|now result sig|now| |json sig|encode|]; cbn [probe_event is_reset].
  - destruct force.
    + destruct (admit_runner_known now true w) as (H1 & H2 & H3); unfold provenance; rewrite H1, H2, H3; done.
    + unfold needs_local_probe; rewrite (provenance_get _ Hw); destruct (_ || _); [|done].
      match goal with |- context [admit_runner now false ?w'] => destruct (admit_runner_known now false w') as (H1 & H2 & H3) end.
      unfold provenance; rewrite H1, H2, H3; done.
  - destruct (runners w) as [|[g []] rest]; try done; by destruct ok.
  - destruct (runners w) as [|r rest]; [done|].
    pose proof (runner_step_provenance result sig r (state w) Hw) as Hs.
    destruct (stage r) as [| | | | | |b]; try done;
      destruct (runner_step result sig r (state w)) as [st s']; (split; [apply Hs|intros _; apply Hs]).
  - destruct (restarting w); [done|].
    match goal with |- context [admit_runner now true ?w'] => destruct (admit_runner_known now true w') as (H1 & H2 & H3) end.
    unfold provenance; rewrite H1, H2, H3; done.
  - done.
  - destruct (service_provenance json sig (state w) Hw) as [H1 H2]; split; [done|]; intros _ Hl; cbn; by rewrite H2.
  - destruct (clear_provenance encode (state w) Hw) as [H1 H2]; split; [done|]; intros _ Hl; cbn; by rewrite H2.
  - cbn; by rewrite (provenance_get _ Hw).
Qed.

(** What a process found itself is not replaced by what a service says: once a
    local probe was taken, only a reset ends that; and everything that is known was
    made by this version of the probe, so reading it changes nothing. *)
Theorem local_results_stay es es' :
  local_verified (state (probe_events es initial_world)) = true -> Forall (fun e => is_reset e = false) es' ->
  let s := state (probe_events es' (probe_events es initial_world)) in
  local_verified s = true /\ set_by_ipc s = false /\
  exists c, config s = Some c /\ needs_decoder_probe c = false /\ get s = (c, s).
Proof.
  intros Hl Hr; cbn zeta.
  assert (Hp : provenance (state (probe_events es initial_world))).
  { clear; assert (H0 : provenance (state initial_world)) by done; revert H0; generalize initial_world.
    induction es as [|e es IH]; intros w Hw; [done|]; cbn; apply IH; by apply probe_event_provenance. }
  revert Hl Hp; generalize (probe_events es initial_world); induction Hr as [|e es' He Hr IH]; intros w Hl Hp.
  - split_and!; [done| |]; unfold provenance in Hp; cbn; destruct (config (state w)) as [c|] eqn:Ec.
    + destruct Hp as [_ ->]; by rewrite Hl.
    + by destruct Hp.
    + exists c; split_and!; [done|by destruct Hp|]; unfold get; rewrite Ec; unfold discard_unverified_decoders.
      destruct Hp as [-> _]; by rewrite bool_decide_true.
    + by destruct Hp as [_ Hp]; rewrite Hp in Hl.
  - cbn; destruct (probe_event_provenance e w Hp) as [H1 H2]; apply IH; [by apply H2|done].
Qed.

(** ** Changes are seen *)

Lemma wrap_next g : wrap_u64 (g + 1) <> g.
Proof. unfold wrap_u64; intros H; Z.div_mod_to_equations; lia. Qed.

(** A step counts, or leaves what is known as it was. *)
Definition announced (s s' : ProbeState) : Prop :=
  (config s' = config s /\ capability_generation s' = capability_generation s) \/
  capability_generation s' = wrap_u64 (capability_generation s + 1).

Lemma announced_get s : announced s (get s).2.
Proof. unfold announced, get; destruct (config s) eqn:E; [case_bool_decide; [by left|by right]|by left]. Qed.

Lemma announced_local json g sig s : announced s (set_from_local_probe_at json g sig s).2.
Proof.
  unfold announced, set_from_local_probe_at, set_from_local_probe_value; destruct (negb _); [by left|].
  destruct (verified json); [|by left]; destruct (local_config_disposition _ _ _); [by right|by right|by left].
Qed.

Lemma announced_service json sig s : announced s (set_from_service json sig s).2.
Proof.
  unfold announced, set_from_service; destruct (verified json); [|by left].
  destruct (service_config_disposition _ _ _ _ _); [by right|by left|by left].
Qed.

Lemma announced_clear encode s : announced s (clear_ram encode s).
Proof.
  unfold announced, clear_ram; destruct (config s) as [c|] eqn:E; [|by left].
  case_bool_decide as Hc; [left|by right]; cbn; split; [|done].
  destruct encode, c; cbn in *; by subst.
Qed.

Lemma announced_step result sig r s : announced s (runner_step result sig r s).2.
Proof.
  assert (Hs : announced s s) by (by left); unfold runner_step; destruct (stage r); try done.
  - destruct result as [json|]; [|done].
    pose proof (announced_local json (run_generation r) sig s); by destruct (set_from_local_probe_at _ _ _ _).
  - unfold is_ready; cbn; destruct (local_verified s); cbn; [destruct (is_config_ready _); apply announced_get|done].
Qed.

Lemma announced_admit now force w : announced (state w) (state (admit_runner now force w)).
Proof. left; unfold admit_runner; by destruct (admit_probe _ _ _) as [[] ?]. Qed.

(** Viewers see every change: a step that changes what is known of the machine
    changes the count they compare. *)
Theorem changes_are_announced e w :
  config (state (probe_event e w)) <> config (state w) ->
  capability_generation (state (probe_event e w)) <> capability_generation (state w).
Proof.
  intros Hne; enough (announced (state w) (state (probe_event e w))) as [[H _]| ->] by (done || apply wrap_next).
  clear Hne; destruct e as [now force|now ok|now result sig|now| |json sig|encode|]; cbn [probe_event].
  - destruct force; [apply announced_admit|]; unfold needs_local_probe; cbn zeta; destruct (_ || _); [|apply announced_get].
    match goal with |- context [admit_runner now false ?w'] =>
      destruct (announced_get (state w)) as [H|H]; unfold announced, admit_runner;
      destruct (admit_probe now false (schedule (state w'))) as [[] ?]; [by left|by left|by right|by right] end.
  - destruct (runners w) as [|[g []] rest]; try (by left); destruct ok; by left.
  - destruct (runners w) as [|r rest]; [by left|]; pose proof (announced_step result sig r (state w)) as H.
    destruct (stage r); try (by left); try (by destruct (runner_step result sig r (state w)) as [st s']).
  - destruct (restarting w); [by left|].
    match goal with |- context [admit_runner now true ?w'] => apply (announced_admit now true w') end.
  - by right.
  - apply announced_service.
  - apply announced_clear.
  - apply announced_get.
Qed.
End Probe.

(** ** Runs *)

Definition probed_config : HwCodecConfig :=
  {| decoder_probe_version := DECODER_PROBE_VERSION; signature := 7; cfg_encode := ram_encode nvidia;
     transient_probe_failure := false; cfg_decode := [] |}.

Definition sample_probe (es : list ProbeEvent) : World := probe_events (hw := sample_hw) es initial_world.
Definition turn (result : option (option HwCodecConfig)) : ProbeEvent := RunnerTurn 5 result 7.

(** A probe, from its start to its result. *)
Definition one_probe : list ProbeEvent :=
  [StartCheck 0 false; Spawned 1 true] ++ repeat (turn (Some (Some probed_config))) 5.

Example probe_succeeds :
  config (state (sample_probe one_probe)) = Some probed_config /\ local_verified (state (sample_probe one_probe)) = true /\
  runners (sample_probe one_probe) = [].
Proof. vm_compute; done. Qed.

(** The reset comes while the probe runs. *)
Lemma reset_keeps_old_results_out_witness :
  config (state (sample_probe (([StartCheck 0 false; Spawned 1 true] ++ repeat (turn None) 2) ++ ResetProbe :: repeat (turn (Some (Some probed_config))) 3))) = None.
Proof.
  apply (reset_keeps_old_results_out (hw := sample_hw)); [vm_compute; reflexivity|repeat constructor].
Defined.

Lemma probe_ends_witness :
  exists es1 es2, repeat (turn None) 14 = es1 ++ es2 /\ runners (sample_probe ([StartCheck 0 false] ++ Spawned 1 true :: es1)) = [].
Proof.
  apply (probe_ends (hw := sample_hw) [StartCheck 0 false] (repeat (turn None) 14) 1); [vm_compute; reflexivity|vm_compute; discriminate].
Defined.

Lemma failed_probe_waits_witness :
  (admit_probe (from_secs 14) false (finish 0 0 false default_schedule).2).1 = None /\
  (admit_probe (from_secs 15) false (finish 0 0 false default_schedule).2).1 = Some 0.
Proof.
  destruct (failed_probe_waits 0 0 (from_secs 14) default_schedule) as (H1 & _); [reflexivity|reflexivity|].
  destruct (failed_probe_waits 0 0 (from_secs 15) default_schedule) as (_ & H2 & _); [reflexivity|reflexivity|].
  split; [apply H1; vm_compute; reflexivity|apply H2; vm_compute; discriminate].
Defined.

Lemma local_results_stay_witness :
  let s := state (probe_events (hw := sample_hw) [SetFromService (Some probed_config) 7; ClearRam false] (sample_probe one_probe)) in
  local_verified s = true /\ set_by_ipc s = false.
Proof.
  destruct (local_results_stay (hw := sample_hw) one_probe [SetFromService (Some probed_config) 7; ClearRam false]) as (H1 & H2 & _);
    [vm_compute; reflexivity|repeat constructor|]; split; [exact H1|exact H2].
Defined.

Lemma changes_are_announced_witness :
  capability_generation (state (probe_event (hw := sample_hw) (SetFromService (Some probed_config) 7) initial_world)) <> 0.
Proof. apply (changes_are_announced (hw := sample_hw) (SetFromService (Some probed_config) 7) initial_world); vm_compute; discriminate. Defined.
