(* ===== verification/FrameReads.v ===== *)
(** * What is read of a decoded frame

    Models the checks made before libyuv reads a decoded 4:2:0 frame
    (src/libs/scrap/src/common/codec.rs: [yuv420_planes_complete] for the frames of
    FFmpeg, [mediacodec_yuv420_read_in_bounds] for the buffers of MediaCodec), and
    proves that they accept exactly the frames whose bytes are all in the buffer.
    Sizes are [usize] of 64 bits; overflow makes a check fail. *)

From S2P Require Import Prelude.

Definition in_usize (a : Z) : option Z := if a <=? u64_max then Some a else None.
Definition checked_mul (a b : Z) : option Z := in_usize (a * b).
Definition checked_plus (a b : Z) : option Z := in_usize (a + b).
Definition div_ceil2 (a : Z) : Z := (a + 1) / 2.

(** ** Frames of FFmpeg *)

Definition plane_complete (rows : Z) (plane : Z * Z) : bool :=
  (0 <? plane.1) && is_some_and (checked_mul plane.1 rows) (fun needed => needed <=? plane.2).

Definition yuv420_planes_complete (height : Z) (planes : list (Z * Z)) : bool :=
  match planes with
  | [] => false
  | luma :: chroma =>
      if height <=? 0 then false
      else plane_complete height luma && forallb (plane_complete (div_ceil2 height)) chroma
  end.

(** ** Buffers of MediaCodec *)

Definition strided_read_end (offset stride rows row_bytes : Z) : option Z :=
  if (rows =? 0) || (row_bytes =? 0) then Some offset
  else
    a ← checked_mul (rows - 1) stride;
    b ← checked_plus offset a;
    checked_plus b row_bytes.

(** The end of what is read of the chroma: one plane of pairs, or two planes. *)
Definition semi_planar_end (y_size stride left top chroma_rows chroma_width : Z) : option Z :=
  a ← checked_mul (top / 2) stride;
  b ← checked_plus y_size a;
  uv_offset ← checked_plus b (left / 2 * 2);
  row_bytes ← checked_mul chroma_width 2;
  strided_read_end uv_offset stride chroma_rows row_bytes.

Definition planar_end (y_size stride slice_height left top chroma_rows chroma_width : Z) : option Z :=
  let uv_stride := div_ceil2 stride in
  uv_size ← checked_mul uv_stride (div_ceil2 slice_height);
  a ← checked_mul (top / 2) uv_stride;
  uv_offset ← checked_plus a (left / 2);
  u_start ← checked_plus y_size uv_offset;
  u_end ← strided_read_end u_start uv_stride chroma_rows chroma_width;
  b ← checked_plus y_size uv_size;
  v_start ← checked_plus b uv_offset;
  v_end ← strided_read_end v_start uv_stride chroma_rows chroma_width;
  Some (Z.max u_end v_end).

Definition read_end (stride slice_height left top width height : Z) (semi_planar : bool) : option Z :=
  y_size ← checked_mul stride slice_height;
  a ← checked_mul top stride;
  y_offset ← checked_plus a left;
  y_end ← strided_read_end y_offset stride height width;
  chroma_end ←
    (if semi_planar then semi_planar_end y_size stride left top (div_ceil2 height) (div_ceil2 width)
     else planar_end y_size stride slice_height left top (div_ceil2 height) (div_ceil2 width));
  Some (Z.max y_end chroma_end).

Definition mediacodec_yuv420_read_in_bounds (len stride slice_height left top width height : Z) (semi_planar : bool) : bool :=
  is_some_and (read_end stride slice_height left top width height semi_planar) (fun e => e <=? len).

(** ** The bytes that are read *)

(** [rows] rows of [row_bytes] bytes from [offset], a row every [stride] bytes, stay
    below [len]. *)
Definition rows_within (len offset stride rows row_bytes : Z) : Prop :=
  forall row byte, 0 <= row < rows -> 0 <= byte < row_bytes -> offset + row * stride + byte < len.

Lemma rows_within_last len offset stride rows row_bytes :
  0 <= stride -> 0 < rows -> 0 < row_bytes ->
  rows_within len offset stride rows row_bytes <-> offset + (rows - 1) * stride + row_bytes <= len.
Proof.
  intros Hs Hr Hb; split.
  - intros H; specialize (H (rows - 1) (row_bytes - 1) ltac:(lia) ltac:(lia)); lia.
  - intros H row byte Hrow Hbyte; assert (row * stride <= (rows - 1) * stride) by (apply Z.mul_le_mono_nonneg_r; lia); lia.
Qed.

(** A chain of checked operations computes the last value, if none is above it. *)
Lemma checked_bind (a : Z) (k : Z -> option Z) (t : Z) :
  a <= t -> k a = in_usize t -> in_usize a ≫= k = in_usize t.
Proof.
  intros Ha Hk; unfold in_usize at 1; destruct (Z.leb_spec a u64_max); cbn; [done|].
  unfold in_usize; destruct (Z.leb_spec t u64_max); [lia|done].
Qed.

Lemma checked_last (a : Z) (f : Z -> Z) : f a = a -> (v ← in_usize a; Some (f v)) = in_usize a.
Proof. unfold in_usize; destruct (a <=? u64_max); cbn; [by intros -> |done]. Qed.

Lemma checked_max (a b : Z) : (x ← in_usize a; y ← in_usize b; Some (Z.max x y)) = in_usize (Z.max a b).
Proof.
  unfold in_usize; destruct (Z.leb_spec a u64_max), (Z.leb_spec b u64_max), (Z.leb_spec (Z.max a b) u64_max); cbn; done || lia.
Qed.

Lemma in_usize_within len t : len <= u64_max -> is_some_and (in_usize t) (fun e => e <=? len) = true <-> t <= len.
Proof. intros Hl; unfold in_usize; destruct (Z.leb_spec t u64_max); cbn; lia. Qed.

Lemma strided_read_end_exact offset stride rows row_bytes :
  0 <= offset -> 0 <= stride -> 0 < rows -> 0 < row_bytes ->
  strided_read_end offset stride rows row_bytes = in_usize (offset + (rows - 1) * stride + row_bytes).
Proof.
  intros Ho Hs Hr Hb; unfold strided_read_end.
  replace ((rows =? 0) || (row_bytes =? 0)) with false by lia.
  assert (0 <= (rows - 1) * stride) by (apply Z.mul_nonneg_nonneg; lia).
  apply checked_bind; [lia|]; apply checked_bind; [lia|]; done.
Qed.

Lemma div_ceil2_pos a : 0 < a -> 0 < div_ceil2 a.
Proof. unfold div_ceil2; intros; Z.div_mod_to_equations; lia. Qed.
Lemma div_ceil2_nonneg a : 0 <= a -> 0 <= div_ceil2 a.
Proof. unfold div_ceil2; intros; Z.div_mod_to_equations; lia. Qed.
Lemma half_nonneg a : 0 <= a -> 0 <= a / 2.
Proof. intros; Z.div_mod_to_equations; lia. Qed.
#[local] Hint Resolve div_ceil2_pos div_ceil2_nonneg half_nonneg Z.mul_nonneg_nonneg : core.

Section Buffer.
Variables len stride slice_height left top width height : Z.
Hypotheses (Hlen : len <= u64_max) (Hstride : 0 <= stride) (Hslice : 0 <= slice_height)
  (Hleft : 0 <= left) (Htop : 0 <= top) (Hwidth : 0 < width) (Hheight : 0 < height).

Definition uv_offset : Z := top / 2 * stride + left / 2 * 2.
Definition uv_stride : Z := div_ceil2 stride.
Definition plane_offset : Z := top / 2 * uv_stride + left / 2.
Definition uv_size : Z := uv_stride * div_ceil2 slice_height.

(** The bytes the conversion reads: the luma plane, then one plane of pairs (NV12) or the
    two planes of I420, each behind the one before it. *)
Definition reads_within (semi_planar : bool) : Prop :=
  rows_within len (top * stride + left) stride height width /\
  if semi_planar then rows_within len (stride * slice_height + uv_offset) stride (div_ceil2 height) (2 * div_ceil2 width)
  else rows_within len (stride * slice_height + plane_offset) uv_stride (div_ceil2 height) (div_ceil2 width) /\
       rows_within len (stride * slice_height + uv_size + plane_offset) uv_stride (div_ceil2 height) (div_ceil2 width).

Lemma semi_planar_end_exact :
  semi_planar_end (stride * slice_height) stride left top (div_ceil2 height) (div_ceil2 width) =
  in_usize (stride * slice_height + uv_offset + (div_ceil2 height - 1) * stride + 2 * div_ceil2 width).
Proof.
  pose proof (div_ceil2_pos height Hheight); pose proof (div_ceil2_pos width Hwidth).
  assert (0 <= stride * slice_height /\ 0 <= top / 2 * stride /\ 0 <= left / 2 /\ 0 <= (div_ceil2 height - 1) * stride)
    by (split_and!; auto; apply Z.mul_nonneg_nonneg; auto; lia).
  unfold semi_planar_end, checked_mul, checked_plus, uv_offset.
  do 4 (apply checked_bind; [lia|]); rewrite strided_read_end_exact by lia; f_equal; lia.
Qed.

Lemma planar_end_exact :
  planar_end (stride * slice_height) stride slice_height left top (div_ceil2 height) (div_ceil2 width) =
  in_usize (stride * slice_height + uv_size + plane_offset + (div_ceil2 height - 1) * uv_stride + div_ceil2 width).
Proof.
  pose proof (div_ceil2_pos height Hheight); pose proof (div_ceil2_pos width Hwidth).
  assert (Hs : 0 <= uv_stride) by (unfold uv_stride; auto).
  assert (0 <= stride * slice_height /\ 0 <= top / 2 * uv_stride /\ 0 <= left / 2 /\ 0 <= (div_ceil2 height - 1) * uv_stride /\ 0 <= uv_size)
    by (split_and!; auto; apply Z.mul_nonneg_nonneg; auto; lia).
  unfold planar_end, checked_mul, checked_plus; fold uv_stride; fold uv_size; cbn zeta; unfold plane_offset.
  do 4 (apply checked_bind; [lia|]); rewrite strided_read_end_exact by lia; apply checked_bind; [lia|].
  do 2 (apply checked_bind; [lia|]); rewrite strided_read_end_exact by lia; by rewrite checked_last by lia.
Qed.

Lemma read_end_exact semi_planar :
  exists e, read_end stride slice_height left top width height semi_planar = in_usize e /\ (e <= len <-> reads_within semi_planar).
Proof.
  pose proof (div_ceil2_pos height Hheight); pose proof (div_ceil2_pos width Hwidth).
  assert (Hs : 0 <= uv_stride) by (unfold uv_stride; auto).
  assert (0 <= stride * slice_height /\ 0 <= top * stride /\ 0 <= (height - 1) * stride /\ 0 <= top / 2 * stride /\ 0 <= top / 2 * uv_stride /\
    0 <= left / 2 /\ 0 <= (div_ceil2 height - 1) * stride /\ 0 <= (div_ceil2 height - 1) * uv_stride /\ 0 <= uv_size)
    by (split_and!; auto; apply Z.mul_nonneg_nonneg; auto; lia).
  set (y := top * stride + left + (height - 1) * stride + width).
  exists (Z.max y (if semi_planar then stride * slice_height + uv_offset + (div_ceil2 height - 1) * stride + 2 * div_ceil2 width
    else stride * slice_height + uv_size + plane_offset + (div_ceil2 height - 1) * uv_stride + div_ceil2 width)).
  split.
  - unfold read_end, checked_mul, checked_plus.
    apply checked_bind; [destruct semi_planar; unfold uv_offset, plane_offset; lia|].
    do 2 (apply checked_bind; [lia|]); rewrite strided_read_end_exact by lia; fold y.
    rewrite semi_planar_end_exact, planar_end_exact; destruct semi_planar; apply checked_max.
  - unfold reads_within; destruct semi_planar; rewrite !rows_within_last by lia; unfold uv_offset, plane_offset in *; lia.
Qed.

(** C18. The check of a MediaCodec buffer accepts exactly the buffers that hold every
    byte the conversion reads, whatever overflows. *)
Theorem mediacodec_check_is_exact semi_planar :
  mediacodec_yuv420_read_in_bounds len stride slice_height left top width height semi_planar = true <-> reads_within semi_planar.
Proof.
  destruct (read_end_exact semi_planar) as (e & He & Hr); unfold mediacodec_yuv420_read_in_bounds; rewrite He, <- Hr.
  by apply in_usize_within.
Qed.
End Buffer.

(** Full HD in NV12: the last byte counts. *)
Lemma mediacodec_check_is_exact_witness :
  mediacodec_yuv420_read_in_bounds 3110400 1920 1080 0 0 1920 1080 true = true /\ reads_within 3110400 1920 1080 0 0 1920 1080 true /\
  ~ reads_within 3110399 1920 1080 0 0 1920 1080 true.
Proof.
  split; [vm_compute; reflexivity|]; split.
  - apply mediacodec_check_is_exact; try (vm_compute; (reflexivity || discriminate)).
  - intros H; apply mediacodec_check_is_exact in H; try (vm_compute; (reflexivity || discriminate)); vm_compute in H; discriminate.
Defined.

(** The check of a frame of FFmpeg accepts exactly the frames that have a luma
    plane, rows of at least a byte, and in each plane every row libyuv reads. *)
Theorem ffmpeg_check_is_exact height planes :
  (forall linesize len, (linesize, len) ∈ planes -> len <= u64_max) ->
  yuv420_planes_complete height planes = true <->
  0 < height /\ exists luma chroma, planes = luma :: chroma /\
    (0 < luma.1 /\ rows_within luma.2 0 luma.1 height luma.1) /\
    forall plane, plane ∈ chroma -> 0 < plane.1 /\ rows_within plane.2 0 plane.1 (div_ceil2 height) plane.1.
Proof.
  intros Hlen; assert (Hp : forall rows plane, 0 < rows -> plane ∈ planes ->
      plane_complete rows plane = true <-> 0 < plane.1 /\ rows_within plane.2 0 plane.1 rows plane.1).
  { intros rows [l n] Hr Hin; specialize (Hlen l n Hin); unfold plane_complete, checked_mul; cbn.
    rewrite andb_true_iff, Z.ltb_lt, in_usize_within by done; split; intros [H1 H2]; (split; [done|]).
    - apply rows_within_last; lia.
    - apply rows_within_last in H2; lia. }
  unfold yuv420_planes_complete; destruct planes as [|luma chroma].
  { split; [done|]; by intros (_ & ? & ? & ? & _). }
  destruct (Z.leb_spec height 0); [split; [done|lia]|].
  rewrite andb_true_iff, forallb_forall, Hp by (done || left); split.
  - intros [H1 H2]; split; [done|]; exists luma, chroma; split_and!; [done|apply H1|apply H1|].
    intros plane Hin; apply Hp; [auto|by right|]; by apply H2, list_elem_of_In.
  - intros (_ & ? & ? & [= <- <-] & H1 & H2); split; [done|]; intros plane Hin; apply list_elem_of_In in Hin.
    apply Hp; [auto|by right|by apply H2].
Qed.

Lemma ffmpeg_check_is_exact_witness :
  yuv420_planes_complete 3 [(4, 12); (2, 4); (2, 4)] = true /\ ~ (yuv420_planes_complete 3 [(4, 12); (2, 2); (2, 4)] = true).
Proof.
  split; [vm_compute; reflexivity|]; intros H; apply ffmpeg_check_is_exact in H.
  - destruct H as (_ & luma & chroma & [= <- <-] & _ & H); destruct (H (2, 2)) as [_ Hr]; [left|].
    change (div_ceil2 3) with 2 in Hr; specialize (Hr 1 0); cbn [fst snd] in Hr; lia.
  - intros l n Hin; repeat (apply elem_of_cons in Hin as [[= -> ->]|Hin]; [vm_compute; discriminate|]); by apply elem_of_nil in Hin.
Defined.
