(* ===== verification/ClipboardFormats.v ===== *)
(** * Names of clipboard formats

    Models the part of src/src/clipboard.rs that decides by the names of the
    formats on a clipboard what may be read, replaced or accepted: the lists of
    names, the classification, and the signatures by which Linux, macOS and
    Windows recognize that the same foreign content is still there.  A name is the
    [string] of its bytes; names compare by bytes and ignore the case of ASCII
    letters only. *)

From S2P Require Import Prelude SessionPermissions.
From stdpp Require Import pretty sorting.
From Stdlib Require String.
#[local] Open Scope list_scope.

(** ** Names *)

Definition RUSTDESK_CLIPBOARD_OWNER_FORMAT : string := "dyn.com.rustdesk.owner".
Definition MACOS_REMOTE_CLIPBOARD_FORMAT : string := "com.apple.is-remote-clipboard".
Definition CLIPBOARD_FORMAT_EXCEL_XML_SPREADSHEET : string := "XML Spreadsheet".

Definition SAFE_REGISTERED_FORMATS : list string :=
  ["TARGETS"; "SAVE_TARGETS"; "TIMESTAMP"; "MULTIPLE"; "UTF8_STRING"; "TEXT"; "STRING"; "COMPOUND_TEXT";
   "HTML Format"; "Rich Text Format"; "text/richtext"; "text/rtf"; "text/html"; "text/plain";
   "text/plain;charset=utf-8"; "text/uri-list"; "image/png"; "image/tiff"; "PNG"; "image/svg+xml";
   "public.utf8-plain-text"; "public.text"; "public.html"; "public.rtf"; "public.png"; "public.tiff";
   "public.svg-image"; "public.file-url"; "NSStringPboardType"; "NSRTFPboardType"; "NSHTMLPboardType";
   "NSFilenamesPboardType"; "NSURLPboardType"; "Chromium Web Custom MIME Data Format";
   "WebKit Smart Paste Format"; "UniformResourceLocator"; "UniformResourceLocatorW";
   "DataObjectAttributes"; "CanIncludeInClipboardHistory"; "CanUploadToCloudClipboard";
   "ExcludeClipboardContentFromMonitorProcessing"; CLIPBOARD_FORMAT_EXCEL_XML_SPREADSHEET;
   RUSTDESK_CLIPBOARD_OWNER_FORMAT]%string.

Definition OPAQUE_NATIVE_FORMAT_PATTERNS : list string :=
  ["adobe illustrator"; "illustrator"; "aicb"; "ai private"; "com.adobe"; "portable document format";
   "application/pdf"; "application/postscript"; "application/eps"; "application/vnd.adobe.illustrator";
   "application/x-adobe-illustrator"; "pdf"; "public.pdf"; "public.eps"; "public.postscript";
   "encapsulated postscript"; "postscript"; "eps"]%string.

Definition WINDOWS_OPAQUE_REGISTERED_FORMATS : list string :=
  ["CF_HDROP"; "CF_METAFILEPICT"; "CF_TIFF"; "CF_ENHMETAFILE"; "DataObject"; "Object Descriptor";
   "Ole Private Data"; "Embed Source"; "Embedded Object"; "Link Source"; "Link Source Descriptor";
   "Native"; "OwnerLink"; "System.Drawing.Bitmap"]%string.

Definition WINDOWS_TEXT_FALLBACK_FORMATS : list string :=
  ["CF_UNICODETEXT"; "CF_TEXT"; "CF_OEMTEXT"; "TEXT"; "UTF8_STRING"; "STRING"; "HTML Format";
   "Rich Text Format"; "text/plain"; "text/plain;charset=utf-8"; "text/html"; "text/markdown"]%string.

Definition WINDOWS_TEXT_OLE_WRAPPER_FORMATS : list string := ["DataObject"; "Ole Private Data"]%string.

(** [slice::windows(n)], for [n] that is not zero. *)
Definition windows {A} (n : nat) (l : list A) : list (list A) :=
  (fun i => take n (drop i l)) <$> seq 0 (S (length l) - n).

Definition lowered (s : string) : list Ascii.ascii := map lower_ascii (String.list_ascii_of_string s).

Definition contains_ignore_ascii_case (value needle : string) : bool :=
  existsb (fun window => bool_decide (map lower_ascii window = lowered needle))
    (windows (String.length needle) (String.list_ascii_of_string value)).

(** ** Classification *)

Definition is_safe_registered_format_name (name : string) : bool :=
  existsb (fun safe => eq_ignore_ascii_case safe name) SAFE_REGISTERED_FORMATS.
Definition is_opaque_native_format_name (name : string) : bool :=
  existsb (contains_ignore_ascii_case name) OPAQUE_NATIVE_FORMAT_PATTERNS.
Definition is_windows_opaque_format_name (name : string) : bool :=
  String.prefix "format#" name ||
  existsb (fun opaque => eq_ignore_ascii_case opaque name) WINDOWS_OPAQUE_REGISTERED_FORMATS ||
  is_opaque_native_format_name name.
Definition is_windows_opaque_registered_format_name (name : string) : bool := is_windows_opaque_format_name name.
Definition is_windows_text_fallback_format_name (name : string) : bool :=
  existsb (fun text => eq_ignore_ascii_case text name) WINDOWS_TEXT_FALLBACK_FORMATS.
Definition is_windows_text_ole_wrapper_format_name (name : string) : bool :=
  existsb (fun wrapper => eq_ignore_ascii_case wrapper name) WINDOWS_TEXT_OLE_WRAPPER_FORMATS.
Definition windows_opaque_formats_are_only_text_ole_wrappers (opaque_formats : list string) : bool :=
  match opaque_formats with [] => false | _ => forallb is_windows_text_ole_wrapper_format_name opaque_formats end.

(** The trimming is of ASCII's white space; no pattern holds white space, so that
    nothing depends on it. *)
Definition is_risky_native_format_name (name : string) : bool :=
  if is_safe_registered_format_name name then false
  else existsb (contains_ignore_ascii_case (trim name))
         ["application/"; "public."; "com.adobe"; "org.inkscape"; "gimp"; "libreoffice"]%string.
Definition should_preserve_native_format_name (name : string) : bool :=
  is_opaque_native_format_name name || is_risky_native_format_name name.
Definition contains_rustdesk_owner_format_name (names : list string) : bool :=
  existsb (fun name => eq_ignore_ascii_case name RUSTDESK_CLIPBOARD_OWNER_FORMAT) names.
Definition contains_macos_remote_clipboard_format_name (names : list string) : bool :=
  existsb (fun name => eq_ignore_ascii_case name MACOS_REMOTE_CLIPBOARD_FORMAT) names.
Definition contains_preserved_native_format_name (names : list string) : bool :=
  existsb should_preserve_native_format_name names.

(** Which named formats of a peer are refused, and why. *)
Definition remote_special_format_block_reason (name : string) : option string :=
  if eq_ignore_ascii_case name CLIPBOARD_FORMAT_EXCEL_XML_SPREADSHEET ||
     eq_ignore_ascii_case name RUSTDESK_CLIPBOARD_OWNER_FORMAT then None
  else if is_windows_opaque_registered_format_name name || should_preserve_native_format_name name
  then Some "opaque-native-format"%string
  else Some "unknown-special-format"%string.

(** ** Signatures *)

(** [sort_unstable] orders by bytes. *)
Definition join (l : list string) : string := String.concat "|" l.

Section Signature.
(** Which names stand for plain text is the platform's own knowledge. *)
Variable is_plain_text : string -> bool.

Definition external_preserved_native_formats_signature_with_text_classifier (names : list string) : option string :=
  if contains_rustdesk_owner_format_name names then None
  else
    let preserved := filter (fun name => should_preserve_native_format_name name && negb (is_plain_text name)) names in
    match preserved with
    | [] => None
    | _ => Some (join (sort_dedup String.le preserved))
    end.

Definition macos_external_opaque_signature_from_format_names (change_count : Z) (names : list string) : option string :=
  if contains_macos_remote_clipboard_format_name names
  then Some ("macos:" +:+ pretty change_count +:+ ":remote-promise")%string
  else (fun signature => ("macos:" +:+ pretty change_count +:+ ":" +:+ signature)%string)
         <$> external_preserved_native_formats_signature_with_text_classifier names.
End Signature.

Definition external_preserved_native_formats_signature (names : list string) : option string :=
  external_preserved_native_formats_signature_with_text_classifier (fun _ => false) names.

Definition windows_external_opaque_signature_from_format_names (sequence : N) (has_owner : bool)
    (names : list string) : option string :=
  if has_owner then None
  else match names with
  | [] => Some ("windows:" +:+ pretty sequence +:+ ":empty-format-list")%string
  | _ =>
      let opaque_formats := filter is_windows_opaque_format_name names in
      let has_text := existsb is_windows_text_fallback_format_name names in
      match opaque_formats with
      | [] => None
      | _ =>
          let opaque_formats := sort_dedup String.le opaque_formats in
          if has_text && windows_opaque_formats_are_only_text_ole_wrappers opaque_formats then None
          else Some ("windows:" +:+ pretty sequence +:+ ":" +:+ join opaque_formats)%string
      end
  end.

(** ** Lemmas *)

Lemma windows_map {A B} (f : A -> B) n l : windows n (map f l) = map (map f) (windows n l).
Proof.
  unfold windows; rewrite length_map; generalize (seq 0 (S (length l) - n)).
  induction l0 as [|i ks IH]; [done|]; cbn in *; f_equal; [|done].
  by rewrite <- firstn_map, <- skipn_map.
Qed.

Lemma contains_lowered value needle :
  contains_ignore_ascii_case value needle =
  existsb (fun w => bool_decide (w = lowered needle)) (windows (String.length needle) (lowered value)).
Proof.
  unfold contains_ignore_ascii_case; change (lowered value) with (map lower_ascii (String.list_ascii_of_string value)); rewrite windows_map.
  induction (windows _ _) as [|w ws IH]; cbn; [done|]; by rewrite IH.
Qed.

Lemma eq_ignore_lowered a b : eq_ignore_ascii_case a b = true <-> lowered a = lowered b.
Proof. unfold eq_ignore_ascii_case; by rewrite bool_decide_eq_true. Qed.

Lemma opaque_ignores_case a b :
  eq_ignore_ascii_case a b = true -> is_opaque_native_format_name a = is_opaque_native_format_name b.
Proof.
  rewrite eq_ignore_lowered; intros E; unfold is_opaque_native_format_name.
  induction OPAQUE_NATIVE_FORMAT_PATTERNS as [|p ps IH]; cbn; [done|].
  by rewrite IH, !contains_lowered, E.
Qed.

(** ** Theorems *)

(** A format that is on the list of safe names, in any case, never counts as
    foreign native content: text, images and the two formats this program itself
    writes do not stop a transfer. *)
Theorem safe_formats_are_transferable name :
  is_safe_registered_format_name name = true -> should_preserve_native_format_name name = false.
Proof.
  intros Hs; unfold should_preserve_native_format_name, is_risky_native_format_name.
  rewrite Hs, orb_false_r; unfold is_safe_registered_format_name in Hs.
  apply existsb_exists in Hs as (safe & Hin & E).
  rewrite <- (opaque_ignores_case _ _ E).
  assert (H : forallb (fun s => negb (is_opaque_native_format_name s)) SAFE_REGISTERED_FORMATS = true)
    by (vm_compute; reflexivity).
  rewrite forallb_forall in H; specialize (H _ Hin); by apply negb_true_iff in H.
Qed.

Theorem safe_formats_are_transferable_witness : should_preserve_native_format_name "TEXT/Html" = false.
Proof. apply (safe_formats_are_transferable "TEXT/Html"); vm_compute; reflexivity. Defined.

(** Of the named formats a peer may send, two are accepted: Excel's and the owner
    marker, in any case of their letters. *)
Theorem two_special_formats_are_accepted name :
  remote_special_format_block_reason name = None <->
  eq_ignore_ascii_case name CLIPBOARD_FORMAT_EXCEL_XML_SPREADSHEET = true \/
  eq_ignore_ascii_case name RUSTDESK_CLIPBOARD_OWNER_FORMAT = true.
Proof.
  unfold remote_special_format_block_reason; rewrite <- orb_true_iff.
  destruct (_ || _); [done|]; by destruct (_ || _).
Qed.

Lemma existsb_same {A} (f : A -> bool) l l' : (forall x, x ∈ l <-> x ∈ l') -> existsb f l = existsb f l'.
Proof.
  intros E; apply eq_true_iff_eq; rewrite !existsb_exists.
  split; intros (x & Hx & Hf); exists x; split; try done; apply list_elem_of_In, E, list_elem_of_In, Hx.
Qed.

Lemma filter_same (f : string -> bool) (l l' : list string) :
  (forall x, x ∈ l <-> x ∈ l') -> forall x, x ∈ filter (fun n => f n) l <-> x ∈ filter (fun n => f n) l'.
Proof. intros E x; rewrite !list_elem_of_filter; by rewrite E. Qed.

Lemma same_empty {A} (l l' : list A) : (forall x, x ∈ l <-> x ∈ l') -> l = [] <-> l' = [].
Proof.
  intros E; split; intros ->; apply elem_of_nil_inv; intros x Hx; apply E in Hx; by apply not_elem_of_nil in Hx.
Qed.

Ltac empty_or E := let HE := fresh in
  pose proof (same_empty _ _ E) as HE;
  match type of HE with ?l = [] <-> ?l' = [] =>
    let Hl := fresh "Hl" in let Hl' := fresh "Hl'" in
    destruct l eqn:Hl; destruct l' eqn:Hl';
    [done | by exfalso; destruct HE as [HE _]; discriminate (HE eq_refl)
    | by exfalso; destruct HE as [_ HE]; discriminate (HE eq_refl) | clear HE; rewrite <- ?Hl, <- ?Hl' in *]
  end.

Lemma preserved_signature_same p names names' :
  (forall n, n ∈ names <-> n ∈ names') ->
  external_preserved_native_formats_signature_with_text_classifier p names =
  external_preserved_native_formats_signature_with_text_classifier p names'.
Proof.
  intros E; unfold external_preserved_native_formats_signature_with_text_classifier, contains_rustdesk_owner_format_name.
  rewrite (existsb_same _ _ _ E); destruct (existsb _ names'); [done|]; cbn zeta.
  pose proof (filter_same (fun name => should_preserve_native_format_name name && negb (p name)) _ _ E) as F.
  empty_or F; by rewrite (sort_dedup_canonical String.le _ _ F).
Qed.

(** The signature of foreign content depends on which formats are offered and
    on nothing else: neither the order in which the system lists them nor a
    repetition changes it, on Linux, macOS and Windows alike.  A signature that
    stays the same therefore means the same offer, and a local change is reported
    once. *)
Theorem signature_is_of_the_set p count sequence has_owner names names' :
  (forall n, n ∈ names <-> n ∈ names') ->
  external_preserved_native_formats_signature names = external_preserved_native_formats_signature names' /\
  macos_external_opaque_signature_from_format_names p count names =
    macos_external_opaque_signature_from_format_names p count names' /\
  windows_external_opaque_signature_from_format_names sequence has_owner names =
    windows_external_opaque_signature_from_format_names sequence has_owner names'.
Proof.
  intros E; split_and!; [by apply preserved_signature_same| |].
  - unfold macos_external_opaque_signature_from_format_names, contains_macos_remote_clipboard_format_name.
    by rewrite (existsb_same _ _ _ E), (preserved_signature_same _ _ _ E).
  - unfold windows_external_opaque_signature_from_format_names; destruct has_owner; [done|].
    rewrite (existsb_same _ _ _ E); empty_or E.
    pose proof (filter_same is_windows_opaque_format_name _ _ E) as F.
    empty_or F; by rewrite (sort_dedup_canonical String.le _ _ F).
Qed.

Theorem signature_is_of_the_set_witness :
  external_preserved_native_formats_signature ["application/pdf"; "TEXT"; "com.adobe.ai"; "application/pdf"]%string =
  external_preserved_native_formats_signature ["com.adobe.ai"; "application/pdf"; "TEXT"]%string.
Proof.
  apply (signature_is_of_the_set (fun _ => false) 0 0 false); intros n; rewrite !elem_of_cons, elem_of_nil; tauto.
Defined.

(** On Linux content is foreign exactly when some name is one to be preserved and
    no name is the owner marker. *)
Theorem linux_signature_exact names :
  external_preserved_native_formats_signature names <> None <->
  contains_rustdesk_owner_format_name names = false /\ contains_preserved_native_format_name names = true.
Proof.
  unfold external_preserved_native_formats_signature, external_preserved_native_formats_signature_with_text_classifier,
    contains_preserved_native_format_name.
  destruct (contains_rustdesk_owner_format_name names); [naive_solver|]; cbn zeta.
  rewrite existsb_exists.
  destruct (filter _ names) as [|n l] eqn:F; split; try done.
  - intros [_ (n & Hn & Hp)]; exfalso; apply (not_elem_of_nil n); rewrite <- F.
    apply list_elem_of_filter; split; [by rewrite Hp|by apply list_elem_of_In].
  - intros _; split; [done|]; exists n.
    assert (Hn : n ∈ n :: l) by (left; done); rewrite <- F in Hn; apply list_elem_of_filter in Hn as [Hp Hn].
    rewrite andb_true_r in Hp; split; [by apply list_elem_of_In|by apply Is_true_true].
Qed.

(** On Windows an offer without an owner that holds text beside nothing but OLE's
    wrappers of text is not foreign. *)
Theorem wrapped_text_is_not_foreign sequence names :
  existsb is_windows_text_fallback_format_name names = true ->
  (forall n, n ∈ names -> is_windows_opaque_format_name n = true -> is_windows_text_ole_wrapper_format_name n = true) ->
  windows_external_opaque_signature_from_format_names sequence false names = None.
Proof.
  intros Ht Hw; unfold windows_external_opaque_signature_from_format_names.
  destruct names as [|n0 names0]; [done|]; revert Ht Hw; generalize (n0 :: names0); clear; intros names Ht Hw.
  destruct (filter _ names) as [|n l] eqn:F; [done|]; rewrite <- F, Ht; cbn [andb].
  assert (Hall : forall x, x ∈ sort_dedup String.le (filter is_windows_opaque_format_name names) ->
    is_windows_text_ole_wrapper_format_name x = true).
  { intros x Hx; apply (proj1 (sort_dedup_elem_of String.le _ _)) in Hx; apply list_elem_of_filter in Hx as [Hp Hx]; apply Hw; [done|by apply Is_true_true]. }
  assert (Hne : n ∈ sort_dedup String.le (filter is_windows_opaque_format_name names)).
  { apply sort_dedup_elem_of; rewrite F; by left. }
  revert Hall Hne; generalize (sort_dedup String.le (filter is_windows_opaque_format_name names)); intros [|m ms] Hall Hne.
  - by apply not_elem_of_nil in Hne.
  - replace (windows_opaque_formats_are_only_text_ole_wrappers (m :: ms)) with true; [done|]; symmetry.
    apply forallb_forall; intros x Hx; by apply Hall, list_elem_of_In.
Qed.

Theorem wrapped_text_is_not_foreign_witness :
  windows_external_opaque_signature_from_format_names 7 false ["CF_UNICODETEXT"; "DataObject"]%string = None.
Proof.
  apply (wrapped_text_is_not_foreign 7 ["CF_UNICODETEXT"; "DataObject"]%string); [vm_compute; reflexivity|].
  intros n Hn Ho; rewrite !elem_of_cons, elem_of_nil in Hn; destruct Hn as [->|[->|[]]]; [discriminate Ho|vm_compute; reflexivity].
Defined.

Example illustrator_is_foreign :
  external_preserved_native_formats_signature ["TARGETS"; "image/png"; "Application/PDF"; "AICB"]%string = Some "AICB|Application/PDF"%string.
Proof. vm_compute; reflexivity. Qed.
