(* ===== verification/ClipboardWire.v ===== *)
(** * Clipboard content and its messages

    Models the content of a clipboard as src/src/clipboard.rs sees it, its
    translation to and from the messages of a session (module [proto] of that
    file) and the signature by which a repeated payload is recognized.  Text is the
    [string] of its UTF-8 bytes, bytes are integers.  Outside are the compression
    ([compress] and [decompress]), the reading of a version number and the name of
    a platform. *)

From S2P Require Import Prelude ClipboardTypes Fingerprint SessionPermissions ClipboardFormats.
From Stdlib Require String.
#[local] Open Scope list_scope.
#[local] Open Scope Z_scope.

Abbreviation bytes := (list Z) (only parsing).

(** ** Content *)

(** The clipboard library's images and content. *)
Inductive ImageData :=
| Rgba (width height : Z) (data : list Z)
| Png (data : list Z)
| Svg (text : string).

Inductive ClipboardData :=
| Text (text : string)
| Html (text : string)
| Rtf (text : string)
| Image (image : ImageData)
| Special (name : string) (data : list Z)
| FileUrl (urls : list string)
| Unsupported
| Nothing.

(** [ImageData::bytes] *)
Definition image_bytes (a : ImageData) : bytes :=
  match a with Rgba _ _ data | Png data => data | Svg text => as_bytes text end.

#[export] Instance ImageData_eq_dec : EqDecision ImageData.
Proof. solve_decision. Defined.
#[export] Instance ClipboardData_eq_dec : EqDecision ClipboardData.
Proof. solve_decision. Defined.

(** The standard library's check that bytes are UTF-8. *)
Definition continuation (lo hi b : Z) : bool := (lo <=? b) && (b <=? hi).
Fixpoint valid_utf8 (l : bytes) : bool :=
  match l with
  | [] => true
  | a :: l =>
      if a <? 128 then valid_utf8 l
      else match l with
      | [] => false
      | b :: l =>
          if continuation 194 223 a then continuation 128 191 b && valid_utf8 l
          else match l with
          | [] => false
          | c :: l =>
              if continuation 224 239 a then
                continuation (if a =? 224 then 160 else 128) (if a =? 237 then 159 else 191) b &&
                continuation 128 191 c && valid_utf8 l
              else match l with
              | [] => false
              | d :: l =>
                  continuation 240 244 a &&
                  continuation (if a =? 240 then 144 else 128) (if a =? 244 then 143 else 191) b &&
                  continuation 128 191 c && continuation 128 191 d && valid_utf8 l
              end
          end
      end
  end.
Definition from_utf8 (l : bytes) : option string := if valid_utf8 l then Some (of_bytes l) else None.

(** ** Sides *)

Inductive ClipboardSide := Host | Client.
#[export] Instance ClipboardSide_eq_dec : EqDecision ClipboardSide.
Proof. solve_decision. Defined.

Definition owner_bit (side : ClipboardSide) : Z := match side with Host => 1 | Client => 2 end.
Definition get_owner_data (side : ClipboardSide) : bytes := [owner_bit side].
Definition is_owner (side : ClipboardSide) (data : bytes) : bool :=
  match data with [] => false | b :: _ => negb (Z.land b (owner_bit side) =? 0) end.

(** ** What a peer may send *)

Definition is_rustdesk_owner_clipboard_data (data : ClipboardData) : bool :=
  match data with Special name _ => eq_ignore_ascii_case name RUSTDESK_CLIPBOARD_OWNER_FORMAT | _ => false end.
Definition remove_remote_owner_markers (data : list ClipboardData) : list ClipboardData :=
  filter (fun item => negb (is_rustdesk_owner_clipboard_data item)) data.

Fixpoint remote_clipboard_data_block_reason (data : list ClipboardData) : option string :=
  match data with
  | [] => None
  | Special name _ :: rest =>
      match remote_special_format_block_reason name with
      | Some reason => Some reason
      | None => remote_clipboard_data_block_reason rest
      end
  | (Unsupported | Nothing) :: _ => Some "unsupported-format"%string
  | _ :: rest => remote_clipboard_data_block_reason rest
  end.

(** ** The signature of a payload *)

Definition append_signature_bytes (signature b : bytes) : bytes :=
  signature ++ le_bytes 8 (Z.of_nat (length b)) ++ b.
Definition append_signature_str (signature : bytes) (value : string) : bytes :=
  append_signature_bytes signature (as_bytes value).

Definition append_signature_item (signature : bytes) (item : ClipboardData) : bytes :=
  match item with
  | Unsupported => signature ++ [0]
  | Text text => append_signature_str (signature ++ [1]) text
  | Html html => append_signature_str (signature ++ [2]) html
  | Rtf rtf => append_signature_str (signature ++ [3]) rtf
  | Image (Rgba width height data) =>
      append_signature_bytes (signature ++ [4] ++ le_bytes 8 width ++ le_bytes 8 height) data
  | Image (Png png) => append_signature_bytes (signature ++ [5]) png
  | Image (Svg svg) => append_signature_str (signature ++ [6]) svg
  | Special name data =>
      if eq_ignore_ascii_case name RUSTDESK_CLIPBOARD_OWNER_FORMAT then signature
      else append_signature_bytes (append_signature_str (signature ++ [7]) name) data
  | FileUrl urls =>
      foldl append_signature_str (signature ++ [8] ++ le_bytes 8 (Z.of_nat (length urls))) urls
  | Nothing => signature ++ [9]
  end.
Definition remote_clipboard_payload_signature (data : list ClipboardData) : bytes :=
  foldl append_signature_item [] data.

(** ** Messages *)

Module message.
Inductive ClipboardFormat := Text | Rtf | Html | ImageRgba | ImagePng | ImageSvg | Special.
(** A number of the enumeration, or one that this program does not know. *)
Inductive EnumOrUnknown := Known (format : ClipboardFormat) | Unknown (number : Z).
#[export] Instance ClipboardFormat_eq_dec : EqDecision ClipboardFormat.
Proof. solve_decision. Defined.
#[export] Instance EnumOrUnknown_eq_dec : EqDecision EnumOrUnknown.
Proof. solve_decision. Defined.

Record Clipboard := {
  compress : bool;
  content : list Z;
  width : Z;
  height : Z;
  format : EnumOrUnknown;
  special_name : string;
}.
Inductive Message := MultiClipboards (clipboards : list Clipboard) | SetClipboard (clipboard : Clipboard).
Definition is_text (c : Clipboard) : bool := bool_decide (format c = Known Text).
End message.

Section Versions.
Variable get_version_number : string -> Z.
(** The name the system library gives to Apple's phones. *)
Variable platform_ios : string.

Definition is_support_multi_clipboard (peer_version peer_platform : string) : bool :=
  if get_version_number peer_version <? get_version_number "1.3.0"%string then false
  else if (peer_platform =? "")%string || (peer_platform =? platform_ios)%string then false
  else if (peer_platform =? "Android")%string && (get_version_number peer_version <? get_version_number "1.3.3"%string)
  then false
  else true.

(** The message for a peer that knows several contents at once, or the first text
    for one that does not. *)
Definition first_text (clipboards : list message.Clipboard) : option message.Message :=
  message.SetClipboard <$> List.find message.is_text clipboards.
Definition get_msg_if_not_support_multi_clip (version platform : string) (clipboards : list message.Clipboard) :
    option message.Message :=
  if is_support_multi_clipboard version platform then None else first_text clipboards.
End Versions.

Module proto.
Section Compression.
Variable compress_func decompress : bytes -> bytes.

(** The content, compressed when that is shorter. *)
Definition packed (data : bytes) : bool * bytes :=
  let compressed := compress_func data in
  if (length compressed <? length data)%nat then (true, compressed) else (false, data).

Definition plain_to_proto (s : string) (format : message.ClipboardFormat) : message.Clipboard :=
  let '(compress, content) := packed (as_bytes s) in
  {| message.compress := compress; message.content := content; message.width := 0; message.height := 0;
     message.format := message.Known format; message.special_name := "" |}.

Definition image_to_proto (a : ImageData) : message.Clipboard :=
  match a with
  | Rgba width height _ =>
      let '(compress, content) := packed (image_bytes a) in
      {| message.compress := compress; message.content := content;
         message.width := as_i32 width; message.height := as_i32 height;
         message.format := message.Known message.ImageRgba; message.special_name := "" |}
  | Png png =>
      {| message.compress := false; message.content := png; message.width := 0; message.height := 0;
         message.format := message.Known message.ImagePng; message.special_name := "" |}
  | Svg _ =>
      let '(compress, content) := packed (image_bytes a) in
      {| message.compress := compress; message.content := content; message.width := 0; message.height := 0;
         message.format := message.Known message.ImageSvg; message.special_name := "" |}
  end.

Definition special_to_proto (d : bytes) (s : string) : message.Clipboard :=
  let '(compress, content) := packed d in
  {| message.compress := compress; message.content := content; message.width := 0; message.height := 0;
     message.format := message.Known message.Special; message.special_name := s |}.

Definition clipboard_data_to_proto (data : ClipboardData) : option message.Clipboard :=
  match data with
  | Text s => Some (plain_to_proto s message.Text)
  | Rtf s => Some (plain_to_proto s message.Rtf)
  | Html s => Some (plain_to_proto s message.Html)
  | Image a => Some (image_to_proto a)
  | Special s d => Some (special_to_proto d s)
  | _ => None
  end.
Definition create_multi_clipboards (vec_data : list ClipboardData) : list message.Clipboard :=
  omap clipboard_data_to_proto vec_data.

Definition from_clipboard (clipboard : message.Clipboard) : option ClipboardData :=
  let data := if message.compress clipboard then decompress (message.content clipboard)
              else message.content clipboard in
  match message.format clipboard with
  | message.Known message.Text => Text <$> from_utf8 data
  | message.Known message.Rtf => Rtf <$> from_utf8 data
  | message.Known message.Html => Html <$> from_utf8 data
  | message.Known message.ImageRgba =>
      Some (Image (Rgba (wrap_u64 (message.width clipboard)) (wrap_u64 (message.height clipboard)) data))
  | message.Known message.ImagePng => Some (Image (Png data))
  | message.Known message.ImageSvg => Some (Image (Svg (default ""%string (from_utf8 data))))
  | message.Known message.Special => Some (Special (message.special_name clipboard) data)
  | message.Unknown _ => None
  end.
Definition from_multi_clipboards (multi_clipboards : list message.Clipboard) : list ClipboardData :=
  omap from_clipboard multi_clipboards.
End Compression.
End proto.

(** ** Lemmas *)

Lemma from_utf8_as_bytes s : valid_utf8 (as_bytes s) = true -> from_utf8 (as_bytes s) = Some s.
Proof. intros H; unfold from_utf8; by rewrite H, of_bytes_as_bytes. Qed.

Lemma from_utf8_valid l s : Forall is_byte l -> from_utf8 l = Some s -> valid_utf8 (as_bytes s) = true.
Proof.
  unfold from_utf8; intros Hl; destruct (valid_utf8 l) eqn:V; [|done]; intros [= <-]; by rewrite as_bytes_of_bytes.
Qed.

Lemma valid_utf8_ascii l : Forall (fun b => b < 128) l -> valid_utf8 l = true.
Proof. induction 1 as [|b l Hb Hl IH]; [done|]; cbn; by rewrite (proj2 (Z.ltb_lt b 128) Hb). Qed.

Lemma remove_markers_cons item data :
  remove_remote_owner_markers (item :: data) =
  if is_rustdesk_owner_clipboard_data item then remove_remote_owner_markers data
  else item :: remove_remote_owner_markers data.
Proof. unfold remove_remote_owner_markers; rewrite filter_cons; by destruct (is_rustdesk_owner_clipboard_data item). Qed.

Lemma remove_markers_idemp data :
  remove_remote_owner_markers (remove_remote_owner_markers data) = remove_remote_owner_markers data.
Proof.
  induction data as [|item data IH]; [done|]; rewrite remove_markers_cons.
  destruct (is_rustdesk_owner_clipboard_data item) eqn:E; [done|]; by rewrite remove_markers_cons, E, IH.
Qed.

Lemma remove_markers_elem data item :
  item ∈ remove_remote_owner_markers data <-> item ∈ data /\ is_rustdesk_owner_clipboard_data item = false.
Proof.
  unfold remove_remote_owner_markers; rewrite list_elem_of_filter.
  destruct (is_rustdesk_owner_clipboard_data item); naive_solver.
Qed.

Lemma block_reason_none data : remote_clipboard_data_block_reason data = None <->
  Forall (fun item => match item with
                      | Special name _ => remote_special_format_block_reason name = None
                      | Unsupported | Nothing => False
                      | _ => True
                      end) data.
Proof.
  induction data as [|item data IH]; [done|]; rewrite Forall_cons, <- IH; clear IH.
  destruct item as [| | | |name d| | |]; cbn; try tauto; try (split; [done|tauto]).
  destruct (remote_special_format_block_reason name); naive_solver.
Qed.

(** *** The two compressions agree *)

Section RoundTrip.
Variable compress_func decompress : bytes -> bytes.
Hypothesis decompress_compress : forall b, decompress (compress_func b) = b.

Lemma packed_read_back data :
  (if (proto.packed compress_func data).1 then decompress (proto.packed compress_func data).2
   else (proto.packed compress_func data).2) = data.
Proof. unfold proto.packed; by destruct (_ <? _)%nat; cbn. Qed.

(** Content as the language and the clipboard library guarantee it: text is
    UTF-8, and an image has less than 2^31 rows and columns. *)
Definition well_formed (item : ClipboardData) : Prop :=
  match item with
  | Text s | Html s | Rtf s | Image (Svg s) => valid_utf8 (as_bytes s) = true
  | Image (Rgba width height _) => 0 <= width <= i32_max /\ 0 <= height <= i32_max
  | _ => True
  end.
Definition transferable (item : ClipboardData) : bool :=
  match item with FileUrl _ | Unsupported | Nothing => false | _ => true end.

Lemma dimension_read_back w : 0 <= w <= i32_max -> wrap_u64 (as_i32 w) = w.
Proof.
  unfold i32_max, wrap_u64, as_i32; intros; rewrite (Z.mod_small (w + _)) by lia.
  rewrite Z.add_simpl_r; apply Z.mod_small; lia.
Qed.

Lemma item_read_back item : well_formed item ->
  (clipboard ← proto.clipboard_data_to_proto compress_func item; proto.from_clipboard decompress clipboard) =
  if transferable item then Some item else None.
Proof.
  destruct item as [s|s|s|[w h d|d|s]|name d| | |]; cbn; intros Hw; try done;
    unfold proto.plain_to_proto, proto.special_to_proto, proto.from_clipboard; cbn;
    match goal with |- context [proto.packed _ ?x] => pose proof (packed_read_back x) as P;
      destruct (proto.packed compress_func x) as [c b] end;
    cbn in *; rewrite P, ?from_utf8_as_bytes by done; try done.
  by rewrite !dimension_read_back by tauto.
Qed.

Lemma read_back_list ds : Forall well_formed ds ->
  proto.from_multi_clipboards decompress (proto.create_multi_clipboards compress_func ds) =
  filter (fun item => transferable item) ds.
Proof.
  unfold proto.from_multi_clipboards, proto.create_multi_clipboards.
  induction 1 as [|item ds Hi _ IH]; [done|]; cbn [omap list_omap].
  pose proof (item_read_back item Hi) as E; rewrite filter_cons.
  destruct (proto.clipboard_data_to_proto compress_func item) as [c|]; cbn in E |- *.
  - rewrite E; destruct (transferable item); cbn; by rewrite <- IH.
  - destruct (transferable item); [done|]; cbn; apply IH.
Qed.
(** What one side reads from its clipboard is what the other side takes out of
    the message: text, formatted text, images and named formats come back as they
    were, in their order, compressed on the way or not; file lists and content
    that could not be read are left out. *)
Theorem clipboard_read_back ds : Forall well_formed ds ->
  proto.from_multi_clipboards decompress (proto.create_multi_clipboards compress_func ds) =
  filter (fun item => transferable item) ds.
Proof. apply read_back_list. Qed.
End RoundTrip.

(** A toy compression for the witnesses: a run of one byte is written as the byte
    and how often it comes. *)
Definition run_length (b : bytes) : bytes :=
  match b with
  | x :: _ => if bool_decide (b = replicate (length b) x) then [1; x; Z.of_nat (length b)] else 0 :: b
  | [] => [0]
  end.
Definition unrun (b : bytes) : bytes :=
  match b with
  | [1; x; n] => replicate (Z.to_nat n) x
  | _ :: b => b
  | [] => []
  end.
Lemma unrun_run_length b : unrun (run_length b) = b.
Proof.
  destruct b as [|x b]; [done|]; unfold run_length; case_bool_decide as E; [|done].
  cbn [unrun]; by rewrite Nat2Z.id, <- E.
Qed.

Theorem clipboard_read_back_witness :
  proto.from_multi_clipboards unrun
    (proto.create_multi_clipboards run_length [Text "aaaaaaaa"; FileUrl []; Image (Rgba 2 1 (replicate 8 255))]%string) =
  [Text "aaaaaaaa"; Image (Rgba 2 1 (replicate 8 255))]%string.
Proof.
  apply (clipboard_read_back run_length unrun unrun_run_length
    [Text "aaaaaaaa"; FileUrl []; Image (Rgba 2 1 (replicate 8 255))]%string).
  repeat constructor; vm_compute; try reflexivity; discriminate.
Defined.

(** *** Signatures are read without ambiguity *)

Definition item_signature (item : ClipboardData) : bytes := append_signature_item [] item.

Lemma append_bytes_app p q b : append_signature_bytes (p ++ q) b = p ++ append_signature_bytes q b.
Proof. unfold append_signature_bytes; by rewrite <- app_assoc. Qed.

Lemma append_str_app p q s : append_signature_str (p ++ q) s = p ++ append_signature_str q s.
Proof. apply append_bytes_app. Qed.

Lemma append_strs_app p q urls : foldl append_signature_str (p ++ q) urls = p ++ foldl append_signature_str q urls.
Proof. revert q; induction urls as [|u urls IH]; intros q; cbn; [done|]; by rewrite append_str_app, IH. Qed.

Lemma append_item_app p q item : append_signature_item (p ++ q) item = p ++ append_signature_item q item.
Proof.
  destruct item as [s|s|s|[w h d|d|s]|name d|urls| |]; cbn; rewrite <- ?app_assoc, ?append_bytes_app, ?append_str_app;
    rewrite ?append_strs_app, ?append_bytes_app; try done.
  by destruct (eq_ignore_ascii_case _ _).
Qed.

Lemma payload_signature_concat data : remote_clipboard_payload_signature data = concat (item_signature <$> data).
Proof.
  unfold remote_clipboard_payload_signature.
  enough (H : forall q, foldl append_signature_item q data = q ++ concat (item_signature <$> data)) by apply H.
  induction data as [|item data IH]; intros q; cbn; [by rewrite app_nil_r|].
  rewrite IH; unfold item_signature at 2; rewrite (app_assoc q); f_equal.
  by rewrite <- append_item_app, app_nil_r.
Qed.

(** What fits in a machine word: lengths, and the sizes of images. *)
Definition word (n : Z) : Prop := 0 <= n < 256 ^ Z.of_nat 8.
Definition long (n : nat) : Prop := word (Z.of_nat n).
Definition sizes_fit (item : ClipboardData) : Prop :=
  match item with
  | Text s | Html s | Rtf s | Image (Svg s) => long (length (as_bytes s))
  | Image (Rgba width height data) => word width /\ word height /\ long (length data)
  | Image (Png data) => long (length data)
  | Special name data => long (length (as_bytes name)) /\ long (length data)
  | FileUrl urls => long (length urls) /\ Forall (fun u => long (length (as_bytes u))) urls
  | Unsupported | Nothing => True
  end.

Lemma le_bytes_prefix n a b r r' :
  0 <= a < 256 ^ Z.of_nat n -> 0 <= b < 256 ^ Z.of_nat n ->
  le_bytes n a ++ r = le_bytes n b ++ r' -> a = b /\ r = r'.
Proof.
  intros Ha Hb E; apply app_inj_1 in E as [E ->]; [|by rewrite !length_le_bytes]; split; [|done].
  by rewrite <- (Z.mod_small a (256 ^ Z.of_nat n)), <- of_le_bytes, E, of_le_bytes, Z.mod_small by done.
Qed.

Lemma bytes_prefix a b r r' : long (length a) -> long (length b) ->
  append_signature_bytes [] a ++ r = append_signature_bytes [] b ++ r' -> a = b /\ r = r'.
Proof.
  unfold append_signature_bytes; cbn [app]; rewrite <- !app_assoc; intros Ha Hb E.
  apply le_bytes_prefix in E as [El E]; [|done..].
  apply app_inj_1 in E; [done|lia].
Qed.

Lemma str_prefix s t r r' : long (length (as_bytes s)) -> long (length (as_bytes t)) ->
  append_signature_str [] s ++ r = append_signature_str [] t ++ r' -> s = t /\ r = r'.
Proof. intros Hs Ht E; apply bytes_prefix in E as [E ->]; [|done..]; split; [by apply (inj as_bytes)|done]. Qed.

Lemma strs_prefix us vs r r' : length us = length vs ->
  Forall (fun u => long (length (as_bytes u))) us -> Forall (fun u => long (length (as_bytes u))) vs ->
  foldl append_signature_str [] us ++ r = foldl append_signature_str [] vs ++ r' -> us = vs /\ r = r'.
Proof.
  intros Hl Hu; revert vs Hl; induction Hu as [|u us Hu Hus IH]; intros [|v vs] Hl Hv E; try done.
  apply Forall_cons in Hv as [Hv Hvs]; cbn [foldl] in E.
  rewrite <- (app_nil_r (append_signature_str [] u)), <- (app_nil_r (append_signature_str [] v)) in E.
  rewrite !append_strs_app, <- !app_assoc in E.
  apply str_prefix in E as [-> E]; [|done..].
  apply IH in E as [-> ->]; [done|cbn in Hl; lia|done].
Qed.

Lemma item_signature_shape item : is_rustdesk_owner_clipboard_data item = false ->
  item_signature item =
  match item with
  | Unsupported => [0]
  | Text s => 1 :: append_signature_str [] s
  | Html s => 2 :: append_signature_str [] s
  | Rtf s => 3 :: append_signature_str [] s
  | Image (Rgba w h d) => 4 :: le_bytes 8 w ++ le_bytes 8 h ++ append_signature_bytes [] d
  | Image (Png d) => 5 :: append_signature_bytes [] d
  | Image (Svg s) => 6 :: append_signature_str [] s
  | Special name d => 7 :: append_signature_str [] name ++ append_signature_bytes [] d
  | FileUrl urls => 8 :: le_bytes 8 (Z.of_nat (length urls)) ++ foldl append_signature_str [] urls
  | Nothing => [9]
  end.
Proof.
  unfold item_signature; destruct item as [s|s|s|[w h d|d|s]|name d|urls| |];
    cbn [append_signature_item is_rustdesk_owner_clipboard_data]; intros Ho; try done.
  - rewrite Ho, <- (app_nil_r (append_signature_str _ name)), append_bytes_app; done.
  - rewrite <- (app_nil_r ([] ++ [8] ++ _)), append_strs_app; done.
Qed.

Lemma item_prefix a b r r' :
  is_rustdesk_owner_clipboard_data a = false -> is_rustdesk_owner_clipboard_data b = false ->
  sizes_fit a -> sizes_fit b -> item_signature a ++ r = item_signature b ++ r' -> a = b /\ r = r'.
Proof.
  intros Oa Ob Ha Hb E; rewrite (item_signature_shape a Oa), (item_signature_shape b Ob) in E.
  destruct a as [s|s|s|[w h d|d|s]|name d|urls| |], b as [s'|s'|s'|[w' h' d'|d'|s']|name' d'|urls'| |];
    cbn [app sizes_fit] in *; try discriminate E; apply (f_equal (@tail Z)) in E; cbn [tail] in E; rewrite <- ?app_assoc in E;
    try (apply str_prefix in E as [-> ->]; [done|done|done]).
  - destruct Ha as (? & ? & ?), Hb as (? & ? & ?).
    apply le_bytes_prefix in E as [-> E]; [|done..]; apply le_bytes_prefix in E as [-> E]; [|done..].
    by apply bytes_prefix in E as [-> ->].
  - by apply bytes_prefix in E as [-> ->].
  - destruct Ha, Hb; apply str_prefix in E as [-> E]; [|done..]; by apply bytes_prefix in E as [-> ->].
  - destruct Ha as [? ?], Hb as [? ?]; apply le_bytes_prefix in E as [El E]; [|done..].
    apply strs_prefix in E as [-> ->]; [done|lia|done..].
  - by subst.
  - by subst.
Qed.

Lemma signature_of_remaining data :
  remote_clipboard_payload_signature data = remote_clipboard_payload_signature (remove_remote_owner_markers data).
Proof.
  rewrite !payload_signature_concat; induction data as [|item data IH]; [done|].
  rewrite remove_markers_cons; cbn; destruct (is_rustdesk_owner_clipboard_data item) eqn:O; cbn; rewrite <- IH; [|done].
  destruct item; cbn in O; try done; unfold item_signature; cbn; by rewrite O.
Qed.

Lemma item_signature_not_nil item : is_rustdesk_owner_clipboard_data item = false -> item_signature item <> [].
Proof. intros O; rewrite (item_signature_shape item O); by destruct item as [| | |[]| | | |]. Qed.

Lemma signature_identifies_the_payload_aux d d' : Forall sizes_fit d -> Forall sizes_fit d' ->
  remote_clipboard_payload_signature d = remote_clipboard_payload_signature d' <->
  remove_remote_owner_markers d = remove_remote_owner_markers d'.
Proof.
  intros Hd Hd'; split; [|intros E; by rewrite (signature_of_remaining d), E, <- signature_of_remaining].
  revert d' Hd'; rewrite (signature_of_remaining d).
  assert (Hs : Forall sizes_fit (remove_remote_owner_markers d)).
  { rewrite Forall_forall in *; intros x [Hx _]%remove_markers_elem; by apply Hd. }
  assert (Ho : Forall (fun x => is_rustdesk_owner_clipboard_data x = false) (remove_remote_owner_markers d)).
  { rewrite Forall_forall; by intros x [_ Hx]%remove_markers_elem. }
  revert Hs Ho; generalize (remove_remote_owner_markers d); clear d Hd; intros l Hs Ho d' Hd'.
  rewrite (signature_of_remaining d').
  assert (Hs' : Forall sizes_fit (remove_remote_owner_markers d')).
  { rewrite Forall_forall in *; intros x [Hx _]%remove_markers_elem; by apply Hd'. }
  assert (Ho' : Forall (fun x => is_rustdesk_owner_clipboard_data x = false) (remove_remote_owner_markers d')).
  { rewrite Forall_forall; by intros x [_ Hx]%remove_markers_elem. }
  revert Hs' Ho'; generalize (remove_remote_owner_markers d'); clear d' Hd'; rewrite payload_signature_concat.
  intros l'; rewrite payload_signature_concat; revert l'.
  induction Hs as [|a l Ha Hl IH]; intros [|b l'] Hs' Ho' E; cbn in E; [done| | |].
  - exfalso; apply Forall_cons in Ho' as [Ho' _]; apply (item_signature_not_nil b Ho'); by destruct (item_signature b).
  - exfalso; apply Forall_cons in Ho as [Ho _]; apply (item_signature_not_nil a Ho); by destruct (item_signature a).
  - apply Forall_cons in Ho as [? ?], Ho' as [? ?], Hs' as [? ?].
    apply item_prefix in E as [-> E]; [|done..]; f_equal; by apply IH.
Qed.

(** Two payloads have the same signature exactly when they hold the same
    content in the same order, whatever owner markers are among it: no two
    different copies are taken for each other, and a payload is recognized
    whichever side marked it. *)
Theorem signature_identifies_the_payload d d' : Forall sizes_fit d -> Forall sizes_fit d' ->
  remote_clipboard_payload_signature d = remote_clipboard_payload_signature d' <->
  remove_remote_owner_markers d = remove_remote_owner_markers d'.
Proof. apply signature_identifies_the_payload_aux. Qed.

Theorem signature_identifies_the_payload_witness :
  remote_clipboard_payload_signature [Text "a"; Special "DYN.com.rustdesk.owner" [1]]%string =
  remote_clipboard_payload_signature [Special RUSTDESK_CLIPBOARD_OWNER_FORMAT [2]; Text "a"]%string.
Proof.
  apply (signature_identifies_the_payload [Text "a"; Special "DYN.com.rustdesk.owner" [1]]%string
           [Special RUSTDESK_CLIPBOARD_OWNER_FORMAT [2]; Text "a"]%string);
    [repeat constructor; vm_compute; (reflexivity || discriminate)..|].
  vm_compute; reflexivity.
Defined.

(** Whatever a peer sends, what is taken out of its message is text in UTF-8, an
    image or a named format: never a list of files, and never content without a
    kind.  Text that is not UTF-8 and kinds this program does not know are left
    out. *)
Theorem received_content_is_sound decompress clipboards item :
  (forall b, Forall is_byte b -> Forall is_byte (decompress b)) ->
  Forall (fun c => Forall is_byte (message.content c)) clipboards ->
  item ∈ proto.from_multi_clipboards decompress clipboards ->
  transferable item = true /\
  match item with Text s | Html s | Rtf s => valid_utf8 (as_bytes s) = true | _ => True end.
Proof.
  unfold proto.from_multi_clipboards; intros Hd Hc (c & Hin & E)%list_elem_of_omap.
  rewrite Forall_forall in Hc; specialize (Hc c Hin); unfold proto.from_clipboard in E.
  assert (Hb : Forall is_byte (if message.compress c then decompress (message.content c) else message.content c))
    by (destruct (message.compress c); auto).
  revert Hb E; generalize (if message.compress c then decompress (message.content c) else message.content c).
  intros b Hb E; destruct (message.format c) as [[]|]; try discriminate E;
    try (by injection E as <-);
    destruct (from_utf8 b) as [s|] eqn:U; try discriminate E; injection E as <-;
    (split; [done|by apply (from_utf8_valid b)]).
Qed.

Theorem received_content_is_sound_witness :
  transferable (Text "hi") = true /\ valid_utf8 (as_bytes "hi") = true.
Proof.
  apply (received_content_is_sound (fun b => b)
    [{| message.compress := false; message.content := [104; 105]; message.width := 0; message.height := 0;
        message.format := message.Known message.Text; message.special_name := "" |};
     {| message.compress := false; message.content := [255]; message.width := 0; message.height := 0;
        message.format := message.Known message.Text; message.special_name := "" |}] (Text "hi")).
  - done.
  - repeat constructor; vm_compute; (reflexivity || discriminate).
  - vm_compute; left.
Defined.

(** A peer that does not know several contents at once is sent text and nothing
    else. *)
Theorem old_peers_get_text get_version_number platform_ios version platform clipboards msg :
  get_msg_if_not_support_multi_clip get_version_number platform_ios version platform clipboards = Some msg ->
  exists c, msg = message.SetClipboard c /\ c ∈ clipboards /\ message.format c = message.Known message.Text.
Proof.
  unfold get_msg_if_not_support_multi_clip, first_text; destruct (is_support_multi_clipboard _ _ _ _); [done|].
  destruct (List.find _ _) as [c|] eqn:F; [|done]; intros [= <-].
  apply find_some in F as [Hin Ht]; exists c; split_and!; [done|by apply list_elem_of_In|].
  by apply bool_decide_eq_true in Ht.
Qed.

Theorem old_peers_get_text_witness : exists c, message.SetClipboard (proto.plain_to_proto id "t" message.Text) = message.SetClipboard c /\
  c ∈ proto.create_multi_clipboards id [Html "<b>"; Text "t"]%string /\ message.format c = message.Known message.Text.
Proof.
  apply (old_peers_get_text (fun v => if String.eqb v "1.2.0" then 1 else 2) "iOS" "1.2.0" "Linux"
           (proto.create_multi_clipboards id [Html "<b>"; Text "t"]%string)).
  vm_compute; reflexivity.
Defined.

(** A width of 2^31 columns or more does not survive: the message holds it as a
    signed number of 32 bits. *)
Example wide_images_change :
  proto.from_clipboard id (proto.image_to_proto id (Rgba 2147483648 1 [])) =
  Some (Image (Rgba 18446744071562067968 1 [])).
Proof. vm_compute; reflexivity. Qed.
