(* ===== verification/DesktopClipboard.v ===== *)
(** * The desktop's clipboard

    Models how src/src/clipboard.rs keeps the clipboard of a desktop and those of
    its peers the same (the Linux build, with copied files): when a change is read
    and sent, what a peer's content must pass before it is written, the guard
    against repetitions, the quiet time after a local change, and the cached
    content a new session starts with; and the fan-out of change events in module
    [clipboard_listener].  The system's clipboard is the class [Board].  A lock
    that its own thread already holds makes the operation [Stuck]. *)

From S2P Require Import Prelude ClipboardTypes Fingerprint SessionPermissions ClipboardFormats ClipboardWire.
From Stdlib Require String.
#[local] Open Scope list_scope.
#[local] Open Scope Z_scope.

(** ** The system's clipboard *)

Module format.
Inductive ClipboardFormat := Text | Html | Rtf | FileUrl | Special (name : string).
End format.

Inductive GetError := ClipboardOccupied | OtherError.

(** Reading may answer differently at each attempt; writing gives the next
    clipboard or fails; the names of what is offered are read without the
    content. *)
Class Board := {
  board : Type;
  inner_get_formats : board -> list format.ClipboardFormat -> nat -> GetError + list ClipboardData;
  inner_set_formats : board -> list ClipboardData -> option board;
  clipboard_type_names : board -> option (list string);
}.

(** Whether some content is an answer to a format that was asked for. *)
Definition answers (f : format.ClipboardFormat) (item : ClipboardData) : bool :=
  match f, item with
  | format.Text, Text _ | format.Html, Html _ | format.Rtf, Rtf _ | format.FileUrl, FileUrl _ => true
  | format.Special name, Special name' _ => (name =? name')%string
  | _, _ => false
  end.

(** The one marker that was written is there to be read, and a reading answers
    what was asked or nothing. *)
Class BoardLaws `{Board} := {
  owner_read_back b data b' formats i l d :
    inner_set_formats b data = Some b' -> Special RUSTDESK_CLIPBOARD_OWNER_FORMAT d ∈ data ->
    (forall d', Special RUSTDESK_CLIPBOARD_OWNER_FORMAT d' ∈ data -> d' = d) ->
    format.Special RUSTDESK_CLIPBOARD_OWNER_FORMAT ∈ formats ->
    inner_get_formats b' formats i = inr l -> Special RUSTDESK_CLIPBOARD_OWNER_FORMAT d ∈ l;
  only_answers b formats i l item :
    inner_get_formats b formats i = inr l -> item ∈ l -> item = Nothing \/ existsb (fun f => answers f item) formats = true;
}.

Definition SUPPORTED_FORMATS : list format.ClipboardFormat :=
  [format.Text; format.Html; format.Rtf; format.FileUrl;
   format.Special CLIPBOARD_FORMAT_EXCEL_XML_SPREADSHEET; format.Special RUSTDESK_CLIPBOARD_OWNER_FORMAT].

(** ** State *)

Definition REMOTE_CLIPBOARD_ECHO_SUPPRESS_DUR : duration := from_secs 2.
Definition LOCAL_CLIPBOARD_QUIET_DUR : duration := from_millis 750.
Definition CLIPBOARD_GET_MAX_RETRY : nat := 3.

Record ClipboardTiming := {
  last_local_change_at : option instant;
  last_remote_apply_at : option instant;
  last_external_opaque_signature : option string;
}.
Definition ClipboardTiming_default : ClipboardTiming :=
  {| last_local_change_at := None; last_remote_apply_at := None; last_external_opaque_signature := None |}.

Definition mark_local_change (t : ClipboardTiming) (now : instant) : ClipboardTiming :=
  {| last_local_change_at := Some now; last_remote_apply_at := last_remote_apply_at t;
     last_external_opaque_signature := None |}.

Definition mark_external_opaque_change (t : ClipboardTiming) (signature : string) (now : instant) :
    bool * ClipboardTiming :=
  if bool_decide (last_external_opaque_signature t = Some signature) then (false, t)
  else (true, {| last_local_change_at := Some now; last_remote_apply_at := last_remote_apply_at t;
                 last_external_opaque_signature := Some signature |}).

Definition mark_remote_apply (t : ClipboardTiming) (now : instant) : ClipboardTiming :=
  {| last_local_change_at := last_local_change_at t; last_remote_apply_at := Some now;
     last_external_opaque_signature := None |}.

Definition remote_update_delay (t : ClipboardTiming) (now : instant) : option duration :=
  match last_local_change_at t with
  | None => None
  | Some local_change_at =>
      if is_some_and (last_remote_apply_at t) (fun remote_apply_at => local_change_at <=? remote_apply_at) then None
      else
        let elapsed := since now local_change_at in
        if elapsed <? LOCAL_CLIPBOARD_QUIET_DUR then Some (LOCAL_CLIPBOARD_QUIET_DUR - elapsed) else None
  end.

Record RemoteClipboardApplyRecord := {
  applied_side : ClipboardSide;
  signature : list Z;
  observed_at : instant;
}.
Abbreviation RemoteClipboardApplyGuard := (option RemoteClipboardApplyRecord) (only parsing).

Definition should_skip (last : RemoteClipboardApplyGuard) (side : ClipboardSide) (sig : list Z) (now : instant) :
    bool * RemoteClipboardApplyGuard :=
  let record := Some {| applied_side := side; signature := sig; observed_at := now |} in
  match last with
  | Some r =>
      if bool_decide (applied_side r = side) && bool_decide (signature r = sig) &&
         (since now (observed_at r) <? REMOTE_CLIPBOARD_ECHO_SUPPRESS_DUR)
      then (true, Some {| applied_side := applied_side r; signature := signature r; observed_at := now |})
      else (false, record)
  | None => (false, record)
  end.

(** The statics of the file, and whether the running thread holds the lock of the
    cached message. *)
Record Shared := {
  CLIPBOARD_TIMING : ClipboardTiming;
  REMOTE_CLIPBOARD_APPLY_GUARD : option RemoteClipboardApplyRecord;
  LAST_MULTI_CLIPBOARDS : list message.Clipboard;
  cache_held : bool;
}.
Definition Shared_default : Shared :=
  {| CLIPBOARD_TIMING := ClipboardTiming_default; REMOTE_CLIPBOARD_APPLY_GUARD := None;
     LAST_MULTI_CLIPBOARDS := []; cache_held := false |}.
Definition set_timing (f : ClipboardTiming -> ClipboardTiming) (s : Shared) : Shared :=
  {| CLIPBOARD_TIMING := f (CLIPBOARD_TIMING s); REMOTE_CLIPBOARD_APPLY_GUARD := REMOTE_CLIPBOARD_APPLY_GUARD s;
     LAST_MULTI_CLIPBOARDS := LAST_MULTI_CLIPBOARDS s; cache_held := cache_held s |}.
Definition set_guard (g : option RemoteClipboardApplyRecord) (s : Shared) : Shared :=
  {| CLIPBOARD_TIMING := CLIPBOARD_TIMING s; REMOTE_CLIPBOARD_APPLY_GUARD := g;
     LAST_MULTI_CLIPBOARDS := LAST_MULTI_CLIPBOARDS s; cache_held := cache_held s |}.
Definition set_cache (c : list message.Clipboard) (s : Shared) : Shared :=
  {| CLIPBOARD_TIMING := CLIPBOARD_TIMING s; REMOTE_CLIPBOARD_APPLY_GUARD := REMOTE_CLIPBOARD_APPLY_GUARD s;
     LAST_MULTI_CLIPBOARDS := c; cache_held := cache_held s |}.
Definition set_held (h : bool) (s : Shared) : Shared :=
  {| CLIPBOARD_TIMING := CLIPBOARD_TIMING s; REMOTE_CLIPBOARD_APPLY_GUARD := REMOTE_CLIPBOARD_APPLY_GUARD s;
     LAST_MULTI_CLIPBOARDS := LAST_MULTI_CLIPBOARDS s; cache_held := h |}.

(** ** Operations on the state *)

Inductive run (A : Type) := Done (a : A) (s : Shared) | Stuck.
Arguments Done {A} a s.
Arguments Stuck {A}.
Definition M (A : Type) : Type := Shared -> run A.
#[export] Instance M_ret : MRet M := fun A a s => Done a s.
#[export] Instance M_bind : MBind M := fun A B f m s =>
  match m s with Done a s' => f a s' | Stuck => Stuck end.
Definition modify (f : Shared -> Shared) : M unit := fun s => Done tt (f s).
Definition gets {A} (f : Shared -> A) : M A := fun s => Done (f s) s.
(** [LAST_MULTI_CLIPBOARDS.lock()], and the end of the guard's life. *)
Definition lock_cache : M unit := fun s => if cache_held s then Stuck else Done tt (set_held true s).
Definition unlock_cache : M unit := modify (set_held false).
Definition locked {A} (m : M A) : M A := lock_cache;; a ← m; unlock_cache;; mret a.

Definition mark_local_external_opaque_clipboard_change (sig : string) (now : instant) : M bool := fun s =>
  let '(changed, t) := mark_external_opaque_change (CLIPBOARD_TIMING s) sig now in
  Done changed (set_timing (fun _ => t) s).
Definition mark_local_clipboard_change (now : instant) : M unit :=
  modify (set_timing (fun t => mark_local_change t now)).
Definition mark_remote_clipboard_applied (now : instant) : M unit :=
  modify (set_timing (fun t => mark_remote_apply t now)).
Definition clear_cached_clipboard : M unit := locked (modify (set_cache [])).
Definition remote_clipboard_update_delay (now : instant) : M (option duration) :=
  gets (fun s => remote_update_delay (CLIPBOARD_TIMING s) now).
Definition should_skip_repeated_remote_clipboard (data : list ClipboardData) (side : ClipboardSide) (now : instant) :
    M bool := fun s =>
  let '(skip, g) := should_skip (REMOTE_CLIPBOARD_APPLY_GUARD s) side (remote_clipboard_payload_signature data) now in
  Done skip (set_guard g s).

(** The direction a side allows.  [local_option] is the viewer's own setting. *)
Definition as_option_value (p : ClipboardDirectionPolicy) : string :=
  match p with
  | Both => "both" | LocalToRemote => "local-to-remote" | RemoteToLocal => "remote-to-local" | Off => "off"
  end%string.
Definition client_clipboard_direction_policy (e : Env) (local_option : string) : ClipboardDirectionPolicy :=
  from_option_value (if (local_option =? "")%string then get_option e OPTION_ONE_WAY_CLIPBOARD_REDIRECTION
                     else local_option).
Definition clipboard_direction_policy_for_side (e : Env) (local_option : string) (side : ClipboardSide) :
    ClipboardDirectionPolicy :=
  match side with
  | Host => host_clipboard_policy e
  | Client => client_clipboard_direction_policy e local_option
  end.
Definition is_local_to_remote_clipboard_allowed (e : Env) (local_option : string) (side : ClipboardSide) : bool :=
  allows_local_to_remote (clipboard_direction_policy_for_side e local_option side).
Definition is_remote_to_local_clipboard_allowed (e : Env) (local_option : string) (side : ClipboardSide) : bool :=
  allows_remote_to_local (clipboard_direction_policy_for_side e local_option side).

(** [ClipboardContext::new]: five attempts to reach the display server. *)
Fixpoint new_from (tries i : nat) (attempt : nat -> bool) : bool :=
  match tries with
  | O => false
  | S tries => if attempt i then true else new_from tries (S i) attempt
  end.
Definition ClipboardContext_new (attempt : nat -> bool) : bool := new_from 5 1 attempt.

(** ** Reading *)

Section Reading.
Context `{Board}.

Fixpoint get_formats_from (tries i : nat) (b : board) (formats : list format.ClipboardFormat) :
    option (list ClipboardData) :=
  match tries with
  | O => None
  | S tries =>
      match inner_get_formats b formats i with
      | inr data => Some (filter (fun c => c <> Nothing) data)
      | inl ClipboardOccupied => get_formats_from tries (S i) b formats
      | inl OtherError => None
      end
  end.
Definition get_formats (b : board) (formats : list format.ClipboardFormat) : option (list ClipboardData) :=
  get_formats_from CLIPBOARD_GET_MAX_RETRY 0 b formats.

Definition owned_by (side : ClipboardSide) (c : ClipboardData) : bool :=
  match c with Special s d => (s =? RUSTDESK_CLIPBOARD_OWNER_FORMAT)%string && is_owner side d | _ => false end.
Definition kept_content (c : ClipboardData) : bool :=
  match c with
  | Special s _ => negb (s =? RUSTDESK_CLIPBOARD_OWNER_FORMAT)%string
  | Text text => negb (text =? "")%string
  | _ => true
  end.

Definition get_formats_filter (b : board) (formats : list format.ClipboardFormat) (side : ClipboardSide)
    (force : bool) : option (list ClipboardData) :=
  match get_formats b formats with
  | None => None
  | Some data =>
      match data with
      | [] => Some []
      | _ =>
          if negb force && existsb (owned_by side) data then Some []
          else Some (filter (fun c => kept_content c) data)
      end
  end.

Definition external_opaque_native_clipboard_signature (b : board) : option string :=
  match clipboard_type_names b with
  | Some names => external_preserved_native_formats_signature names
  | None => None
  end.

(** [ClipboardContext::get]; no result stands for an error. *)
Definition get (b : board) (side : ClipboardSide) (force : bool) (now : instant) : M (option (list ClipboardData)) :=
  match external_opaque_native_clipboard_signature b with
  | Some sig =>
      mark_local_external_opaque_clipboard_change sig now;;
      clear_cached_clipboard;;
      mret (Some [])
  | None =>
      match get_formats_filter b SUPPORTED_FORMATS side force with
      | None => mret None
      | Some data =>
          if existsb (fun c => match c with FileUrl _ => true | _ => false end) data then mret (Some [])
          else mret (Some data)
      end
  end.

(** [ClipboardContext::get_files]: the first list of files. *)
Fixpoint find_urls (data : list ClipboardData) : option (list string) :=
  match data with [] => None | FileUrl urls :: _ => Some urls | _ :: rest => find_urls rest end.
Definition get_files (b : board) (side : ClipboardSide) (force : bool) : option (option (list string)) :=
  find_urls <$> get_formats_filter b [format.FileUrl; format.Special RUSTDESK_CLIPBOARD_OWNER_FORMAT] side force.
Definition check_clipboard_files (ctx : bool) (attempt : nat -> bool) (b : board) (side : ClipboardSide)
    (force : bool) : bool * option (list string) :=
  let ctx := ctx || ClipboardContext_new attempt in
  if negb ctx then (ctx, None)
  else match get_files b side force with
  | Some (Some ((_ :: _) as urls)) => (ctx, Some urls)
  | _ => (ctx, None)
  end.

Variable compress_func : bytes -> bytes.

(** [check_clipboard]: [ctx] tells whether the caller has a context already. *)
Definition check_clipboard (e : Env) (ctx : bool) (attempt : nat -> bool) (b : board) (side : ClipboardSide)
    (force : bool) (now : instant) : M (bool * option message.Message) :=
  if bool_decide (side = Host) && negb (allows_local_to_remote (host_clipboard_policy e)) then mret (ctx, None)
  else
    let ctx := ctx || ClipboardContext_new attempt in
    if negb ctx then mret (ctx, None)
    else
      content ← get b side force now;
      match content with
      | Some ((_ :: _) as content) =>
          mark_local_clipboard_change now;;
          let clipboards := proto.create_multi_clipboards compress_func content in
          locked (modify (set_cache clipboards));;
          mret (ctx, Some (message.MultiClipboards clipboards))
      | _ => mret (ctx, None)
      end.

Variable get_version_number : string -> Z.
Variable platform_ios : string.

(** [get_current_clipboard_msg]: the lock is taken before the cache is looked at
    and kept to the end. *)
Definition get_current_clipboard_msg (e : Env) (attempt : nat -> bool) (b : board) (peer_version peer_platform : string)
    (side : ClipboardSide) (now : instant) : M (option message.Message) :=
  if bool_decide (side = Host) && negb (allows_local_to_remote (host_clipboard_policy e)) then mret None
  else locked (
    cached ← gets LAST_MULTI_CLIPBOARDS;
    found ← match cached with
            | _ :: _ => mret true
            | [] =>
                if negb (ClipboardContext_new attempt) then mret false
                else
                  content ← get b side true now;
                  match content with
                  | None => mret false
                  | Some content =>
                      match content with [] => mret tt | _ => mark_local_clipboard_change now end;;
                      modify (set_cache (proto.create_multi_clipboards compress_func content));;
                      mret true
                  end
            end;
    if negb found then mret None
    else
      clipboards ← gets LAST_MULTI_CLIPBOARDS;
      mret (match clipboards with
            | [] => None
            | _ => if is_support_multi_clipboard get_version_number platform_ios peer_version peer_platform
                   then Some (message.MultiClipboards clipboards) else first_text clipboards
            end)).

(** ** Writing what a peer sent *)

(** [should_skip_remote_clipboard_update] *)
Definition should_skip_remote_clipboard_update (data : list ClipboardData) (direction_policy : ClipboardDirectionPolicy)
    (b : board) (now : instant) : M bool :=
  if negb (allows_remote_to_local direction_policy) then mret true
  else if is_some (remote_clipboard_data_block_reason data) then mret true
  else match external_opaque_native_clipboard_signature b with
  | Some sig => mark_local_external_opaque_clipboard_change sig now;; mret false
  | None => mret false
  end.

(** [do_update_clipboard_] up to where it sleeps, from there to where it takes the
    lock of the context, and under that lock.  Each reading of the clock is an
    argument. *)
Inductive Admission := Dropped | WaitFor (delay : duration) | Passed.

Definition begin_update (data : list ClipboardData) (direction_policy : ClipboardDirectionPolicy)
    (b : board) (now now' : instant) : M Admission :=
  skip ← should_skip_remote_clipboard_update data direction_policy b now;
  if skip : bool then mret Dropped
  else
    delay ← remote_clipboard_update_delay now';
    mret (match delay with Some delay => WaitFor delay | None => Passed end).

Definition resume_update (data : list ClipboardData) (direction_policy : ClipboardDirectionPolicy)
    (b : board) (now now' : instant) : M Admission :=
  skip ← should_skip_remote_clipboard_update data direction_policy b now;
  if skip : bool then mret Dropped
  else
    delay ← remote_clipboard_update_delay now';
    mret (if is_some delay then Dropped else Passed).

Definition marked (data : list ClipboardData) (side : ClipboardSide) : list ClipboardData :=
  remove_remote_owner_markers data ++ [Special RUSTDESK_CLIPBOARD_OWNER_FORMAT (get_owner_data side)].

(** Gives the next state of the context, and the clipboard when it was written. *)
Definition write_update (ctx : bool) (attempt : nat -> bool) (data : list ClipboardData) (side : ClipboardSide)
    (b : board) (now : instant) : M (bool * option board) :=
  let ctx := ctx || ClipboardContext_new attempt in
  if negb ctx then mret (ctx, None)
  else match remove_remote_owner_markers data with
  | [] => mret (ctx, None)
  | stripped =>
      skip ← should_skip_repeated_remote_clipboard stripped side now;
      if skip : bool then mret (ctx, None)
      else mret (ctx, inner_set_formats b (marked data side))
  end.

(** [update_clipboard_]: an empty payload starts nothing. *)
Variable decompress : bytes -> bytes.
Definition update_payload (multi_clipboards : list message.Clipboard) : option (list ClipboardData) :=
  match proto.from_multi_clipboards decompress multi_clipboards with [] => None | data => Some data end.

(** The two sides' handling of a message with clipboard content: the viewer asks
    the session's own policy and switch, the host its permissions. *)
Definition message_clipboards (m : message.Message) : list message.Clipboard :=
  match m with message.SetClipboard c => [c] | message.MultiClipboards cs => cs end.
Definition viewer_accepts (policy : ClipboardDirectionPolicy) (disable_clipboard : bool) : bool :=
  allows_remote_to_local policy && negb disable_clipboard.
Definition viewer_update (policy : ClipboardDirectionPolicy) (disable_clipboard : bool) (m : message.Message) :
    option (list ClipboardData * ClipboardSide * ClipboardDirectionPolicy) :=
  if viewer_accepts policy disable_clipboard
  then (fun data => (data, Client, policy)) <$> update_payload (message_clipboards m) else None.
Definition host_update (e : Env) (c : Connection) (m : message.Message) :
    option (list ClipboardData * ClipboardSide * ClipboardDirectionPolicy) :=
  if can_apply_remote_clipboard e c
  then (fun data => (data, Host, host_clipboard_policy e)) <$> update_payload (message_clipboards m) else None.
End Reading.

(** ** The session's own direction

    What src/src/client.rs and src/src/ui_session_interface.rs keep of the
    clipboard for one session of a viewer. *)

Record SessionClipboard := {
  direction_option : string;
  disable_clipboard : bool;
  server_clipboard_enabled : bool;
  server_keyboard_enabled : bool;
}.

(** [LoginConfigHandler::clipboard_direction_policy] *)
Definition session_clipboard_direction_policy (e : Env) (local_option : string) (s : SessionClipboard) :
    ClipboardDirectionPolicy :=
  if (direction_option s =? "")%string then clipboard_direction_policy_for_side e local_option Client
  else from_option_value (direction_option s).

(** [toggle_option] on a name with the prefix of a direction: the message tells the
    host whether the clipboard is now disabled, when that changed. *)
Definition toggle_clipboard_direction (direction : string) (s : SessionClipboard) : SessionClipboard * option bool :=
  let direction := from_option_value direction in
  let disable := negb (allows_local_to_remote direction) && negb (allows_remote_to_local direction) in
  let disable_changed := negb (Bool.eqb (disable_clipboard s) disable) in
  ({| direction_option := as_option_value direction; disable_clipboard := disable;
      server_clipboard_enabled := server_clipboard_enabled s; server_keyboard_enabled := server_keyboard_enabled s |},
   if disable_changed then Some disable else None).

Definition is_text_clipboard_required (e : Env) (local_option : string) (s : SessionClipboard) : bool :=
  server_clipboard_enabled s && server_keyboard_enabled s && negb (disable_clipboard s) &&
  allows_local_to_remote (session_clipboard_direction_policy e local_option s).

(** ** The threads of updates

    Every message with content starts a thread; the steps of those threads, of the
    readers of changes and of the desktop itself interleave.  The history records
    what happened, for the theorems only. *)

Inductive Phase :=
| Arrived
| Sleeping (wake : instant)
| Ready (decided : instant)
| Written.
Record Job := {
  job_data : list ClipboardData;
  job_side : ClipboardSide;
  job_policy : ClipboardDirectionPolicy;
  job_phase : Phase;
}.
Definition at_phase (j : Job) (p : Phase) : Job :=
  {| job_data := job_data j; job_side := job_side j; job_policy := job_policy j; job_phase := p |}.

Inductive Event :=
| Copied (at_ : instant)
| Noticed (at_ : instant)
| RemoteApply (at_ : instant)
| Wrote (data : list ClipboardData) (side : ClipboardSide) (policy : ClipboardDirectionPolicy) (decided : instant).

(** The local changes an operation marks, told from the states before and after. *)
Definition changes (t t' : ClipboardTiming) : list Event :=
  match last_local_change_at t' with
  | Some at_ => if bool_decide (last_local_change_at t = Some at_) then [] else [Noticed at_]
  | None => []
  end.

Section Threads.
Context `{Board}.

Record System := {
  shared : Shared;
  os : board;
  context : bool;
  clock : instant;
  jobs : gmap nat Job;
  holder : option nat;
  history : list Event;
}.

(** What becomes of a thread that was admitted, delayed or dropped. *)
Definition settle (n : nat) (j : Job) (now : instant) (a : Admission) (js : gmap nat Job) : gmap nat Job :=
  match a with
  | Dropped => delete n js
  | WaitFor delay => <[n := at_phase j (Sleeping (now + delay))]> js
  | Passed => <[n := at_phase j (Ready now)]> js
  end.

Inductive step (s : System) : System -> Prop :=
| step_desktop b now : clock s <= now ->
    step s {| shared := shared s; os := b; context := context s; clock := now; jobs := jobs s;
              holder := holder s; history := Copied now :: history s |}
| step_arrive n data side policy : jobs s !! n = None ->
    step s {| shared := shared s; os := os s; context := context s; clock := clock s;
              jobs := <[n := {| job_data := data; job_side := side; job_policy := policy; job_phase := Arrived |}]> (jobs s);
              holder := holder s; history := history s |}
| step_begin n j now now' a sh : jobs s !! n = Some j -> job_phase j = Arrived -> clock s <= now -> now <= now' ->
    begin_update (job_data j) (job_policy j) (os s) now now' (shared s) = Done a sh ->
    step s {| shared := sh; os := os s; context := context s; clock := now'; jobs := settle n j now' a (jobs s);
              holder := holder s; history := changes (CLIPBOARD_TIMING (shared s)) (CLIPBOARD_TIMING sh) ++ history s |}
| step_resume n j wake now now' a sh : jobs s !! n = Some j -> job_phase j = Sleeping wake -> wake <= now ->
    clock s <= now -> now <= now' ->
    resume_update (job_data j) (job_policy j) (os s) now now' (shared s) = Done a sh ->
    step s {| shared := sh; os := os s; context := context s; clock := now'; jobs := settle n j now' a (jobs s);
              holder := holder s; history := changes (CLIPBOARD_TIMING (shared s)) (CLIPBOARD_TIMING sh) ++ history s |}
| step_write n j decided now attempt ctx ob sh : jobs s !! n = Some j -> job_phase j = Ready decided -> holder s = None ->
    clock s <= now ->
    write_update (context s) attempt (job_data j) (job_side j) (os s) now (shared s) = Done (ctx, ob) sh ->
    step s
      (match ob with
       | Some b =>
           {| shared := sh; os := b; context := ctx; clock := now; jobs := <[n := at_phase j Written]> (jobs s);
              holder := Some n;
              history := Wrote (marked (job_data j) (job_side j)) (job_side j) (job_policy j) decided :: history s |}
       | None =>
           {| shared := sh; os := os s; context := ctx; clock := now; jobs := delete n (jobs s);
              holder := None; history := history s |}
       end)
| step_mark n now sh : holder s = Some n -> clock s <= now ->
    mark_remote_clipboard_applied now (shared s) = Done tt sh ->
    step s {| shared := sh; os := os s; context := context s; clock := now; jobs := delete n (jobs s);
              holder := None; history := RemoteApply now :: history s |}
| step_check compress_func e ctx attempt side force now r sh : clock s <= now ->
    check_clipboard compress_func e ctx attempt (os s) side force now (shared s) = Done r sh ->
    step s {| shared := sh; os := os s; context := context s; clock := now; jobs := jobs s; holder := holder s;
              history := changes (CLIPBOARD_TIMING (shared s)) (CLIPBOARD_TIMING sh) ++ history s |}
| step_session compress_func gv ios e attempt version platform side now r sh : clock s <= now ->
    get_current_clipboard_msg compress_func gv ios e attempt (os s) version platform side now (shared s) = Done r sh ->
    step s {| shared := sh; os := os s; context := context s; clock := now; jobs := jobs s; holder := holder s;
              history := changes (CLIPBOARD_TIMING (shared s)) (CLIPBOARD_TIMING sh) ++ history s |}.

Inductive reachable : System -> Prop :=
| reachable_start b now :
    reachable {| shared := Shared_default; os := b; context := false; clock := now; jobs := ∅;
                 holder := None; history := [] |}
| reachable_step s s' : reachable s -> step s s' -> reachable s'.
End Threads.
