(* ===== verification/ClipboardTheory.v ===== *)
(** * Theorems on the desktop's clipboard

    What is written was admitted, a fresh local copy that was noticed is not
    overwritten, a copy
    does not return to the peer it came from, a payload is not written twice in a
    row, foreign content is not read; what one side copies the other side writes;
    and where the code departs from that. *)

From S2P Require Import Prelude ClipboardTypes Fingerprint SessionPermissions ClipboardFormats ClipboardWire DesktopClipboard.
From Stdlib Require String.
#[local] Open Scope list_scope.
#[local] Open Scope Z_scope.

(** ** Operations and the timing *)

(** An operation at [now] leaves the timing of local changes, or sets it to
    [now]; the time of the last write stays. *)
Definition marks (now : instant) (t t' : ClipboardTiming) : Prop :=
  last_remote_apply_at t' = last_remote_apply_at t /\
  (last_local_change_at t' = last_local_change_at t \/ last_local_change_at t' = Some now).
Definition only_marks {A} (now : instant) (m : M A) : Prop :=
  forall s r s', m s = Done r s' -> marks now (CLIPBOARD_TIMING s) (CLIPBOARD_TIMING s').

Create HintDb clip discriminated.

Lemma marks_refl now t : marks now t t.
Proof. split; auto. Qed.
Lemma marks_trans now t t' t'' : marks now t t' -> marks now t' t'' -> marks now t t''.
Proof. unfold marks; intros [-> H1] [-> H2]; split; [done|]; destruct H2 as [-> | ->]; auto. Qed.

Lemma bind_inv {A B} (f : A -> M B) (m : M A) s r s' :
  mbind f m s = Done r s' -> exists a s1, m s = Done a s1 /\ f a s1 = Done r s'.
Proof. unfold mbind, M_bind; destruct (m s) as [a s1|]; [|done]; eauto. Qed.

Lemma marks_ret {A} now (a : A) : only_marks now (mret a).
Proof. intros s r s' [= <- <-]; apply marks_refl. Qed.
Lemma marks_gets {A} now (f : Shared -> A) : only_marks now (gets f).
Proof. intros s r s' [= <- <-]; apply marks_refl. Qed.
Lemma marks_cache now c : only_marks now (modify (set_cache c)).
Proof. intros s r s' [= <- <-]; apply marks_refl. Qed.
Lemma marks_bind {A B} now (f : A -> M B) (m : M A) :
  only_marks now m -> (forall a, only_marks now (f a)) -> only_marks now (mbind f m).
Proof. intros Hm Hf s r s' (a & s1 & E1 & E2)%bind_inv; eapply marks_trans; [by eapply Hm|by eapply Hf]. Qed.
Lemma marks_lock now : only_marks now lock_cache.
Proof. intros s r s'; unfold lock_cache; destruct (cache_held s); [done|]; intros [= <- <-]; apply marks_refl. Qed.
Lemma marks_unlock now : only_marks now unlock_cache.
Proof. intros s r s' [= <- <-]; apply marks_refl. Qed.
Lemma marks_locked {A} now (m : M A) : only_marks now m -> only_marks now (locked m).
Proof.
  intros Hm; apply marks_bind; [apply marks_lock|]; intros _; apply marks_bind; [done|]; intros a.
  apply marks_bind; [apply marks_unlock|]; intros _; apply marks_ret.
Qed.
Lemma marks_local now : only_marks now (mark_local_clipboard_change now).
Proof. intros s r s' [= <- <-]; split; cbn; auto. Qed.
Lemma marks_opaque now sig : only_marks now (mark_local_external_opaque_clipboard_change sig now).
Proof.
  intros s r s'; unfold mark_local_external_opaque_clipboard_change, mark_external_opaque_change.
  case_bool_decide; intros [= <- <-]; split; cbn; auto.
Qed.
Lemma marks_clear now : only_marks now clear_cached_clipboard.
Proof. apply marks_locked, marks_cache. Qed.
#[export] Hint Resolve marks_ret marks_gets marks_cache marks_lock marks_unlock marks_local marks_opaque marks_clear : clip.

Ltac case_program :=
  repeat (intros; first
    [ solve [auto with clip nocore] | apply marks_locked | apply marks_bind
    | match goal with
      | |- only_marks _ (match ?x with _ => _ end) => destruct x
      | |- only_marks _ (if ?x then _ else _) => destruct x
      end ]).

Section Operations.
Context `{Board}.

Lemma marks_get b side force now : only_marks now (get b side force now).
Proof. unfold get; case_program. Qed.
Lemma marks_check compress e ctx attempt b side force now :
  only_marks now (check_clipboard compress e ctx attempt b side force now).
Proof. unfold check_clipboard; case_program; try apply marks_get; case_program. Qed.
Lemma marks_session compress gv ios e attempt b version platform side now :
  only_marks now (get_current_clipboard_msg compress gv ios e attempt b version platform side now).
Proof. unfold get_current_clipboard_msg; case_program; try apply marks_get; case_program. Qed.
Lemma marks_screen data policy b now : only_marks now (should_skip_remote_clipboard_update data policy b now).
Proof. unfold should_skip_remote_clipboard_update; case_program. Qed.
Lemma marks_begin data policy b now now' : only_marks now (begin_update data policy b now now').
Proof.
  unfold begin_update; apply marks_bind; [apply marks_screen|]; unfold remote_clipboard_update_delay; case_program.
Qed.
Lemma marks_resume data policy b now now' : only_marks now (resume_update data policy b now now').
Proof.
  unfold resume_update; apply marks_bind; [apply marks_screen|]; unfold remote_clipboard_update_delay; case_program.
Qed.

Lemma write_timing ctx attempt data side b now s r s' :
  write_update ctx attempt data side b now s = Done r s' -> CLIPBOARD_TIMING s' = CLIPBOARD_TIMING s.
Proof.
  unfold write_update; destruct (negb _); [by intros [= <- <-]|].
  destruct (remove_remote_owner_markers data) as [|i l]; [by intros [= <- <-]|].
  intros (skip & s1 & E1 & E2)%bind_inv; unfold should_skip_repeated_remote_clipboard in E1.
  destruct (should_skip _ _ _ _) as [k g]; injection E1 as <- <-; by destruct k; injection E2 as <- <-.
Qed.

(** What is not dropped passed the policy and the content's screening. *)
Definition admissible (policy : ClipboardDirectionPolicy) (data : list ClipboardData) : Prop :=
  allows_remote_to_local policy = true /\ remote_clipboard_data_block_reason data = None.

Lemma screen_spec data policy b now s s' :
  should_skip_remote_clipboard_update data policy b now s = Done false s' -> admissible policy data.
Proof.
  unfold should_skip_remote_clipboard_update, admissible; destruct (allows_remote_to_local policy); [|done]; cbn [negb].
  by destruct (remote_clipboard_data_block_reason data).
Qed.

Lemma begin_spec data policy b now now' s a s' : begin_update data policy b now now' s = Done a s' ->
  match a with
  | Dropped => True
  | WaitFor _ => admissible policy data
  | Passed => admissible policy data /\ remote_update_delay (CLIPBOARD_TIMING s') now' = None
  end.
Proof.
  unfold begin_update; intros (skip & s1 & E1 & E2)%bind_inv; destruct skip; [by injection E2 as <- <-|].
  apply screen_spec in E1; cbn in E2; injection E2 as <- <-; by destruct (remote_update_delay _ _) eqn:D.
Qed.

Lemma resume_spec data policy b now now' s a s' : resume_update data policy b now now' s = Done a s' ->
  match a with
  | Dropped => True
  | WaitFor _ => False
  | Passed => admissible policy data /\ remote_update_delay (CLIPBOARD_TIMING s') now' = None
  end.
Proof.
  unfold resume_update; intros (skip & s1 & E1 & E2)%bind_inv; destruct skip; [by injection E2 as <- <-|].
  apply screen_spec in E1; cbn in E2; injection E2 as <- <-; by destruct (remote_update_delay _ _) eqn:D.
Qed.

Lemma write_spec ctx attempt data side b now s ctx' b' s' :
  write_update ctx attempt data side b now s = Done (ctx', Some b') s' ->
  remove_remote_owner_markers data <> [] /\ inner_set_formats b (marked data side) = Some b'.
Proof.
  unfold write_update; destruct (negb _); [done|].
  destruct (remove_remote_owner_markers data) as [|i l] eqn:R; [done|].
  intros (skip & s1 & E1 & E2)%bind_inv; destruct skip; [done|]; injection E2 as _ E2 _; split; done.
Qed.
End Operations.

Lemma delay_none t now : remote_update_delay t now = None -> forall l, last_local_change_at t = Some l ->
  (exists a, last_remote_apply_at t = Some a /\ l <= a) \/ LOCAL_CLIPBOARD_QUIET_DUR <= now - l.
Proof.
  unfold remote_update_delay; intros D l E; rewrite E in D.
  destruct (last_remote_apply_at t) as [a|]; cbn [is_some_and] in D.
  - destruct (Z.leb_spec l a); [eauto|]; right; unfold since in D.
    destruct (Z.ltb_spec (Z.max (now - l) 0) LOCAL_CLIPBOARD_QUIET_DUR); [done|]; unfold LOCAL_CLIPBOARD_QUIET_DUR, from_millis in *; lia.
  - right; unfold since in D.
    destruct (Z.ltb_spec (Z.max (now - l) 0) LOCAL_CLIPBOARD_QUIET_DUR); [done|]; unfold LOCAL_CLIPBOARD_QUIET_DUR, from_millis in *; lia.
Qed.

(** ** What is written *)

Definition accepted_content (item : ClipboardData) : Prop :=
  match item with
  | Special name _ => eq_ignore_ascii_case name CLIPBOARD_FORMAT_EXCEL_XML_SPREADSHEET = true
  | Unsupported | Nothing => False
  | _ => True
  end.
Definition vetted (data : list ClipboardData) (side : ClipboardSide) (policy : ClipboardDirectionPolicy) : Prop :=
  allows_remote_to_local policy = true /\
  exists content, data = content ++ [Special RUSTDESK_CLIPBOARD_OWNER_FORMAT (get_owner_data side)] /\
    content <> [] /\ Forall accepted_content content.

Lemma admissible_vetted policy data side :
  admissible policy data -> remove_remote_owner_markers data <> [] -> vetted (marked data side) side policy.
Proof.
  intros [Hp Hb] Hne; split; [done|]; exists (remove_remote_owner_markers data); split_and!; [done|done|].
  apply block_reason_none in Hb; rewrite Forall_forall in *; intros item [Hin Ho]%remove_markers_elem.
  specialize (Hb item Hin); destruct item as [| | | |name d| | |]; cbn in *; try done.
  apply two_special_formats_are_accepted in Hb; rewrite Ho in Hb; naive_solver.
Qed.

(** Every local change before [t] lies the quiet time back, or a write came after
    it. *)
Definition quiet (h : list Event) (t : instant) : Prop :=
  forall c, Noticed c ∈ h -> c < t ->
  LOCAL_CLIPBOARD_QUIET_DUR <= t - c \/ exists a, RemoteApply a ∈ h /\ c <= a /\ a <= t.

Section Invariant.
Context `{Board}.

Definition job_ok (s : System) (j : Job) : Prop :=
  match job_phase j with
  | Arrived => True
  | Sleeping _ | Written => admissible (job_policy j) (job_data j)
  | Ready t => admissible (job_policy j) (job_data j) /\ t <= clock s /\ quiet (history s) t
  end.
Definition event_ok (s : System) (e : Event) : Prop :=
  match e with
  | Copied c => c <= clock s
  | Noticed c => c <= clock s /\ exists l, last_local_change_at (CLIPBOARD_TIMING (shared s)) = Some l /\ c <= l
  | RemoteApply a => a <= clock s
  | Wrote data side policy t => vetted data side policy /\ t <= clock s /\ quiet (history s) t
  end.
Record system_ok (s : System) : Prop := {
  ok_events : Forall (event_ok s) (history s);
  ok_jobs : map_Forall (fun _ => job_ok s) (jobs s);
  ok_local l : last_local_change_at (CLIPBOARD_TIMING (shared s)) = Some l -> l <= clock s;
  ok_remote a : last_remote_apply_at (CLIPBOARD_TIMING (shared s)) = Some a -> RemoteApply a ∈ history s;
}.

Lemma quiet_more h h' t : quiet h t -> (forall e, e ∈ h -> e ∈ h') ->
  (forall c, Noticed c ∈ h' -> Noticed c ∈ h \/ t <= c) -> quiet h' t.
Proof.
  intros Q Hin Hnew c Hc Hlt; destruct (Hnew c Hc) as [Hc'|]; [|lia].
  destruct (Q c Hc' Hlt) as [|(a & Ha & ?)]; eauto.
Qed.

(** The clock and the history grow, new local changes are not earlier than the old
    clock: what was established stays. *)
Definition grows (s s' : System) : Prop :=
  clock s <= clock s' /\ (forall e, e ∈ history s -> e ∈ history s') /\
  (forall c, Noticed c ∈ history s' -> Noticed c ∈ history s \/ clock s <= c) /\
  (forall l, last_local_change_at (CLIPBOARD_TIMING (shared s)) = Some l ->
     exists l', last_local_change_at (CLIPBOARD_TIMING (shared s')) = Some l' /\ l <= l').

Lemma job_grows s s' j : grows s s' -> job_ok s j -> job_ok s' j.
Proof.
  intros (Hc & Hin & Hnew & _); unfold job_ok; destruct (job_phase j); try done.
  intros (Ha & Ht & Q); split_and!; [done|lia|]; apply (quiet_more _ _ _ Q Hin); intros c Hl.
  destruct (Hnew c Hl); [by left|right; lia].
Qed.

Lemma event_grows s s' e : grows s s' -> event_ok s e -> event_ok s' e.
Proof.
  intros (Hc & Hin & Hnew & Hl); destruct e as [c|c|a|data side policy t]; cbn.
  - lia.
  - intros (? & l & El & ?); destruct (Hl l El) as (l' & E' & ?); split; [lia|]; exists l'; split; [done|lia].
  - lia.
  - intros (Hv & Ht & Q); split_and!; [done|lia|]; apply (quiet_more _ _ _ Q Hin); intros c Hcc.
    destruct (Hnew c Hcc); [by left|right; lia].
Qed.

Lemma changes_elem t t' e : e ∈ changes t t' -> exists c, e = Noticed c /\ last_local_change_at t' = Some c /\
  last_local_change_at t <> Some c.
Proof.
  unfold changes; destruct (last_local_change_at t') as [c|]; [|by intros ?%elem_of_nil].
  case_bool_decide; [by intros ?%elem_of_nil|]; intros ->%list_elem_of_singleton; eauto.
Qed.

(** The state after an operation that only marks local changes. *)
Lemma marks_grow s sh js now now' : system_ok s -> clock s <= now -> now <= now' ->
  marks now (CLIPBOARD_TIMING (shared s)) (CLIPBOARD_TIMING sh) ->
  let s' := {| shared := sh; os := os s; context := context s; clock := now'; jobs := js; holder := holder s;
               history := changes (CLIPBOARD_TIMING (shared s)) (CLIPBOARD_TIMING sh) ++ history s |} in
  grows s s' /\ Forall (event_ok s') (history s') /\
  (forall l, last_local_change_at (CLIPBOARD_TIMING sh) = Some l -> l <= now') /\
  (forall a, last_remote_apply_at (CLIPBOARD_TIMING sh) = Some a -> RemoteApply a ∈ history s').
Proof.
  intros [He Hj Hl Hr] Hc Hc' [Mr Ml] s'.
  assert (G : grows s s').
  { split_and!; cbn; [lia|intros e; rewrite elem_of_app; auto| |].
    - intros c [Hn|Ho]%elem_of_app; [|by left]; apply changes_elem in Hn as (c' & [= <-] & E & Hne).
      right; destruct Ml as [Ml|Ml]; congruence || (rewrite Ml in E; injection E as <-; done).
    - intros l El; destruct Ml as [Ml|Ml]; rewrite Ml; [exists l; split; [done|lia]|]; exists now; split; [done|].
      specialize (Hl l El); lia. }
  split; [done|]; split_and!.
  - apply Forall_app; split; [|eapply Forall_impl; [exact He|]; intros e; by apply event_grows].
    rewrite Forall_forall; intros e Hin; apply changes_elem in Hin as (c & -> & E & Hne); cbn; split.
    + destruct Ml as [Ml|Ml]; rewrite Ml in E; [by specialize (Hl c E); lia|injection E as <-; lia].
    + exists c; split; [done|lia].
  - intros l El; destruct Ml as [Ml|Ml]; rewrite Ml in El; [specialize (Hl l El); lia|injection El as <-; lia].
  - intros a Ea; rewrite Mr in Ea; apply elem_of_app; right; by apply Hr.
Qed.

(** A decision to write is taken in a quiet moment. *)
Lemma decided_quiet s : Forall (event_ok s) (history s) ->
  (forall a, last_remote_apply_at (CLIPBOARD_TIMING (shared s)) = Some a -> RemoteApply a ∈ history s) ->
  remote_update_delay (CLIPBOARD_TIMING (shared s)) (clock s) = None -> quiet (history s) (clock s).
Proof.
  intros He Hr D c Hc Hlt; rewrite Forall_forall in He.
  destruct (He _ Hc) as (_ & l & El & Hle); destruct (delay_none _ _ D l El) as [(a & Ea & Hla)|]; [right|left; lia].
  exists a; specialize (Hr a Ea); pose proof (He _ Hr) as Hle'; cbn in Hle'; split_and!; [done|lia|lia].
Qed.

Lemma jobs_grow s s' (js : gmap nat Job) : grows s s' -> map_Forall (fun _ => job_ok s) js -> map_Forall (fun _ => job_ok s') js.
Proof. intros G Hj n j E; by eapply job_grows, Hj. Qed.

Lemma settle_job_ok s' n j now a js : map_Forall (fun _ => job_ok s') js ->
  (forall p, match a with Dropped => None | WaitFor d => Some (Sleeping (now + d)) | Passed => Some (Ready now) end = Some p ->
     job_ok s' (at_phase j p)) ->
  map_Forall (fun _ => job_ok s') (settle n j now a js).
Proof.
  intros Hj Ha; destruct a as [|d|]; cbn; [by apply map_Forall_delete| |]; apply map_Forall_insert_2; auto.
Qed.

Lemma admitted_ok s n j now now' a sh : system_ok s -> clock s <= now -> now <= now' ->
  marks now (CLIPBOARD_TIMING (shared s)) (CLIPBOARD_TIMING sh) ->
  match a with
  | Dropped => True
  | WaitFor _ => admissible (job_policy j) (job_data j)
  | Passed => admissible (job_policy j) (job_data j) /\ remote_update_delay (CLIPBOARD_TIMING sh) now' = None
  end ->
  system_ok {| shared := sh; os := os s; context := context s; clock := now'; jobs := settle n j now' a (jobs s);
               holder := holder s; history := changes (CLIPBOARD_TIMING (shared s)) (CLIPBOARD_TIMING sh) ++ history s |}.
Proof.
  intros Hs Hc Hc' Hm Ha.
  destruct (marks_grow s sh (settle n j now' a (jobs s)) now now' Hs Hc Hc' Hm) as (G & He & Hl & Hr).
  split; [done| |done|done]; apply settle_job_ok; [by eapply jobs_grow, ok_jobs|].
  intros p E; destruct a as [|d|]; [done| |]; injection E as <-; [done|]; destruct Ha as [Had D].
  unfold job_ok; cbn [at_phase job_phase job_policy job_data]; split_and!; [done|done|].
  apply (decided_quiet _ He Hr D).
Qed.

Lemma step_ok s s' : system_ok s -> step s s' -> system_ok s'.
Proof.
  intros Hs Hstep; pose proof Hs as [He Hj Hl Hr].
  destruct Hstep as [b now Hc|n data side policy Hn|n j now now' a sh En Ep Hc Hc' E
    |n j wake now now' a sh En Ep Hw Hc Hc' E|n j decided now attempt ctx ob sh En Ep Hh Hc E|n now sh Hh Hc E
    |compress e ctx attempt side force now r sh Hc E|compress gv ios e attempt version platform side now r sh Hc E].
  - set (s' := {| shared := _ |}); assert (G : grows s s').
    { split_and!; cbn; [done|intros; by right| |eauto with lia]; intros c [Hx|Hx]%elem_of_cons; [done|by left]. }
    split; cbn [history jobs shared clock s']; [|by eapply jobs_grow| |].
    + constructor; [cbn; lia|eapply Forall_impl; [exact He|]; intros; by eapply event_grows].
    + intros l El; specialize (Hl l El); lia.
    + intros a Ea; right; auto.
  - set (s' := {| shared := _ |}); assert (G : grows s s') by (split_and!; cbn; eauto with lia).
    split; cbn; [eapply Forall_impl; [exact He|]; intros; by eapply event_grows| |done|done].
    apply map_Forall_insert_2; [done|by eapply jobs_grow].
  - apply (admitted_ok s n j now); [done..| |]; [by eapply marks_begin|by apply begin_spec in E; destruct a].
  - apply (admitted_ok s n j now); [done..| |]; [by eapply marks_resume|by apply resume_spec in E; destruct a].
  - pose proof (write_timing _ _ _ _ _ _ _ _ _ E) as T; pose proof (Hj n j En) as J; unfold job_ok in J; rewrite Ep in J.
    destruct ob as [b|].
    + apply write_spec in E as [Hne _]; destruct J as (Ha & Ht & Q); set (s' := {| shared := _ |}).
      assert (G : grows s s').
      { split_and!; cbn; [done|intros; by right| |rewrite T; eauto with lia].
        intros c [Hx|Hx]%elem_of_cons; [done|by left]. }
      split; cbn [history jobs shared clock s'].
      * constructor; [|eapply Forall_impl; [exact He|]; intros; by eapply event_grows].
        cbn; split_and!; [by apply admissible_vetted|lia|].
        apply (quiet_more _ _ _ Q); [by right|]; intros c [Hx|Hx]%elem_of_cons; [done|by left].
      * apply map_Forall_insert_2; [done|by eapply jobs_grow].
      * intros l El; rewrite T in El; specialize (Hl l El); lia.
      * intros a Ea; rewrite T in Ea; right; auto.
    + set (s' := {| shared := _ |}); assert (G : grows s s') by (split_and!; cbn; rewrite ?T; eauto with lia).
      split; cbn [history jobs shared clock s']; rewrite ?T;
        [eapply Forall_impl; [exact He|]; intros; by eapply event_grows|by apply map_Forall_delete; eapply jobs_grow| |done].
      intros l El; specialize (Hl l El); lia.
  - injection E as <-; set (s' := {| shared := _ |}).
    assert (G : grows s s').
    { split_and!; cbn; [done|intros; by right| |eauto with lia]; intros c [Hx|Hx]%elem_of_cons; [done|by left]. }
    split; cbn [history jobs shared clock s'].
    + constructor; [cbn; lia|eapply Forall_impl; [exact He|]; intros; by eapply event_grows].
    + by apply map_Forall_delete; eapply jobs_grow.
    + intros l El; cbn in El; specialize (Hl l El); lia.
    + intros a [= <-]; by left.
  - destruct (marks_grow s sh (jobs s) now now Hs Hc (Z.le_refl _) (marks_check _ _ _ _ _ _ _ _ _ _ _ E)) as (G & ? & ? & ?).
    split; [done|by eapply jobs_grow|done|done].
  - destruct (marks_grow s sh (jobs s) now now Hs Hc (Z.le_refl _) (marks_session _ _ _ _ _ _ _ _ _ _ _ _ _ E)) as (G & ? & ? & ?).
    split; [done|by eapply jobs_grow|done|done].
Qed.

Lemma reachable_ok s : reachable s -> system_ok s.
Proof.
  induction 1 as [b now|s s' _ IH Hstep]; [|by eapply step_ok].
  split; cbn; [constructor|apply map_Forall_empty|done|done].
Qed.

(** C21. Whatever is written to the clipboard in the course of a session, and in
    whatever order messages, threads and local changes interleave: the side's
    direction allowed it, it is some content followed by the side's owner marker
    alone, and among the content there is no named format other than Excel's and
    nothing the other side could not read; and when that was decided, three quarters of
    a second had passed since every local change that the program had noticed by
    then - that it had read to send it or found to be foreign - unless a peer's
    content was written after the change. *)
Theorem writes_are_vetted_and_quiet s data side policy t : reachable s -> Wrote data side policy t ∈ history s ->
  vetted data side policy /\
  (forall c, Noticed c ∈ history s -> c < t ->
     from_millis 750 <= t - c \/ exists a, RemoteApply a ∈ history s /\ c <= a /\ a <= t).
Proof.
  intros Hr Hw; apply reachable_ok, ok_events in Hr; rewrite Forall_forall in Hr.
  destruct (Hr _ Hw) as (Hv & _ & Q); split; [done|exact Q].
Qed.
End Invariant.

(** ** A clipboard in memory

    The board of the witnesses: what is set is kept, and read format by format. *)

Definition item_name (item : ClipboardData) : string :=
  match item with
  | Text _ => "UTF8_STRING" | Html _ => "text/html" | Rtf _ => "text/rtf" | Image _ => "image/png"
  | Special name _ => name | FileUrl _ => "text/uri-list" | Unsupported | Nothing => ""
  end%string.
#[local] Instance memory_board : Board := {|
  board := list ClipboardData;
  inner_get_formats b formats _ :=
    inr (fmap (fun f => default Nothing (List.find (answers f) b)) formats);
  inner_set_formats _ data := Some data;
  clipboard_type_names b := Some (item_name <$> b);
|}.

Lemma answers_owner item : answers (format.Special RUSTDESK_CLIPBOARD_OWNER_FORMAT) item = true ->
  exists d, item = Special RUSTDESK_CLIPBOARD_OWNER_FORMAT d.
Proof.
  destruct item as [| | | |name d| | |]; try done; intros E; exists d; f_equal; symmetry; by apply String.eqb_eq.
Qed.

#[local] Instance memory_laws : @BoardLaws memory_board.
Proof.
  split; cbn.
  - intros b data b' formats i l d [= <-] Hd Hu Hf [= <-].
    apply list_elem_of_fmap; exists (format.Special RUSTDESK_CLIPBOARD_OWNER_FORMAT); split; [|done].
    destruct (List.find _ data) as [item|] eqn:F.
    + apply find_some in F as [Hin Ha]; apply answers_owner in Ha as [d' ->]; cbn.
      by rewrite (Hu d') by by apply list_elem_of_In.
    + apply list_elem_of_In in Hd; pose proof (find_none _ _ F _ Hd) as N; exfalso; exact (diff_true_false N).
  - intros b formats i l item [= <-] Hi; apply list_elem_of_fmap in Hi as (f & -> & Hf).
    destruct (List.find (answers f) b) as [item|] eqn:F; [|by left]; right; cbn.
    apply find_some in F as [_ Ha]; apply existsb_exists; exists f; split; [by apply list_elem_of_In|done].
Qed.

(** A local copy, and a peer's content that arrives a nanosecond later. *)
Definition env_of (direction : string) : Env :=
  {| now := 0; get_option := fun _ => direction; get_builtin_option := fun _ => ""%string |}.
Definition peer_copy : list ClipboardData := [Text "new"]%string.

Definition system_at (sh : Shared) (b : board) (ctx : bool) (t : instant) (js : gmap nat Job) (h : list Event) : System :=
  {| shared := sh; os := b; context := ctx; clock := t; jobs := js; holder := None; history := h |}.

Definition trace_shared : Shared :=
  Eval vm_compute in
    match check_clipboard id (env_of "") true (fun _ => true) [Text "old"]%string Client false 0 Shared_default with
    | Done _ s => s | Stuck => Shared_default end.
Definition quiet_job (p : Phase) : Job :=
  {| job_data := peer_copy; job_side := Client; job_policy := Both; job_phase := p |}.
Definition trace_ready : System :=
  system_at trace_shared [Text "old"]%string false 750000000 {[0%nat := quiet_job (Ready 750000000)]} [Noticed 0].

Lemma trace_ready_reachable : @reachable memory_board trace_ready.
Proof.
  assert (R1 : @reachable memory_board (system_at trace_shared [Text "old"]%string false 0 ∅ [Noticed 0])).
  { eapply reachable_step; [apply (@reachable_start memory_board [Text "old"]%string 0)|].
    refine (@step_check memory_board _ id (env_of "") true (fun _ => true) Client false 0 _ trace_shared _ _); [done|vm_compute; reflexivity]. }
  assert (R2 : @reachable memory_board (system_at trace_shared [Text "old"]%string false 0 {[0%nat := quiet_job Arrived]} [Noticed 0])).
  { eapply reachable_step; [apply R1|]; refine (@step_arrive memory_board _ 0%nat peer_copy Client Both _); done. }
  assert (R3 : @reachable memory_board (system_at trace_shared [Text "old"]%string false 1
      {[0%nat := quiet_job (Sleeping 750000000)]} [Noticed 0])).
  { eapply reachable_step; [apply R2|].
    refine (@step_begin memory_board _ 0%nat (quiet_job Arrived) 1 1 (WaitFor 749999999) trace_shared _ _ _ _ _); done. }
  eapply reachable_step; [apply R3|].
  refine (@step_resume memory_board _ 0%nat (quiet_job (Sleeping 750000000)) 750000000 750000000 750000000 Passed trace_shared _ _ _ _ _ _); done.
Qed.

Definition trace_written_shared : Shared :=
  Eval vm_compute in
    match write_update false (fun _ => true) peer_copy Client [Text "old"]%string 750000001 trace_shared with
    | Done _ s => s | Stuck => Shared_default end.
Definition trace_written : System :=
  {| shared := trace_written_shared; os := marked peer_copy Client; context := true; clock := 750000001;
     jobs := {[0%nat := quiet_job Written]}; holder := Some 0%nat;
     history := [Wrote (marked peer_copy Client) Client Both 750000000; Noticed 0] |}.
Lemma trace_written_reachable : @reachable memory_board trace_written.
Proof.
  eapply reachable_step; [apply trace_ready_reachable|].
  refine (@step_write memory_board _ 0%nat (quiet_job (Ready 750000000)) 750000000 750000001 (fun _ => true) true
    (Some (marked peer_copy Client)) trace_written_shared _ _ _ _ _); done.
Qed.

Theorem writes_are_vetted_and_quiet_witness :
  vetted (marked peer_copy Client) Client Both /\
  (forall c, Noticed c ∈ [Wrote (marked peer_copy Client) Client Both 750000000; Noticed 0] -> c < 750000000 ->
     from_millis 750 <= 750000000 - c \/
     exists a, RemoteApply a ∈ [Wrote (marked peer_copy Client) Client Both 750000000; Noticed 0] /\ c <= a /\ a <= 750000000).
Proof.
  apply (@writes_are_vetted_and_quiet memory_board trace_written _ Client Both 750000000 trace_written_reachable).
  left.
Defined.

(** What is sent to the peer is noticed. *)
Theorem sent_copy_is_noticed `{Board} compress e ctx attempt b side force now s c m s' :
  check_clipboard compress e ctx attempt b side force now s = Done (c, Some m) s' ->
  last_local_change_at (CLIPBOARD_TIMING s') = Some now.
Proof.
  unfold check_clipboard; destruct (bool_decide _ && _); [done|]; cbn zeta; destruct (negb _); [done|].
  intros ([content|] & s1 & E1 & E2)%bind_inv; [|done]; destruct content as [|i content]; [done|].
  apply bind_inv in E2 as ([] & s2 & E2 & E3); injection E2 as <-.
  unfold locked, mbind, M_bind, lock_cache in E3; cbn in E3; by destruct (cache_held s1); [|injection E3 as _ _ <-].
Qed.

(** A host whose clipboard is closed towards the peer does not notice what its user
    copies: what the peer sent two nanoseconds after the copy takes its place. *)
Definition inward_job (p : Phase) : Job :=
  {| job_data := peer_copy; job_side := Host; job_policy := RemoteToLocal; job_phase := p |}.
Definition inward_shared : Shared :=
  Eval vm_compute in
    match write_update true (fun _ => true) peer_copy Host [Text "mine"]%string 1000000003 Shared_default with
    | Done _ s => s | Stuck => Shared_default end.
Theorem unnoticed_copy_is_overwritten : exists s, @reachable memory_board s /\
  os s = (marked peer_copy Host : @board memory_board) /\
  history s = [Wrote (marked peer_copy Host) Host RemoteToLocal 1000000002; Copied 1000000000].
Proof.
  exists {| shared := inward_shared; os := (marked peer_copy Host : @board memory_board); context := true; clock := 1000000003;
            jobs := {[0%nat := inward_job Written]}; holder := Some 0%nat;
            history := [Wrote (marked peer_copy Host) Host RemoteToLocal 1000000002; Copied 1000000000] |}.
  split; [|done]; set (mine := [Text "mine"]%string : @board memory_board).
  assert (R1 : @reachable memory_board (system_at Shared_default mine false 1000000000 ∅ [Copied 1000000000])).
  { eapply reachable_step; [apply (@reachable_start memory_board [Text "old"]%string 0)|].
    refine (@step_desktop memory_board _ mine 1000000000 _); done. }
  assert (R2 : @reachable memory_board (system_at Shared_default mine false 1000000001 ∅ [Copied 1000000000])).
  { eapply reachable_step; [apply R1|].
    refine (@step_check memory_board _ id (env_of "remote-to-local") false (fun _ => true) Host false 1000000001 (false, None) Shared_default _ _);
      [done|vm_compute; reflexivity]. }
  assert (R3 : @reachable memory_board (system_at Shared_default mine false 1000000001 {[0%nat := inward_job Arrived]} [Copied 1000000000])).
  { eapply reachable_step; [apply R2|]; refine (@step_arrive memory_board _ 0%nat peer_copy Host RemoteToLocal _); done. }
  assert (R4 : @reachable memory_board (system_at Shared_default mine false 1000000002
      {[0%nat := inward_job (Ready 1000000002)]} [Copied 1000000000])).
  { eapply reachable_step; [apply R3|].
    refine (@step_begin memory_board _ 0%nat (inward_job Arrived) 1000000002 1000000002 Passed Shared_default _ _ _ _ _); done. }
  eapply reachable_step; [apply R4|].
  refine (@step_write memory_board _ 0%nat (inward_job (Ready 1000000002)) 1000000002 1000000003 (fun _ => true) true
    (Some (marked peer_copy Host)) inward_shared _ _ _ _ _); done.
Qed.

(** ** No echo *)

Section NoEcho.
Context `{BoardLaws}.

(** A change notification makes the side send nothing. *)
Definition sends_nothing compress e ctx attempt b side now s : Prop :=
  exists c s', check_clipboard compress e ctx attempt b side false now s = Done (c, None) s'.

Lemma owner_bit_is_owner side : is_owner side (get_owner_data side) = true.
Proof. by destruct side. Qed.

Lemma marked_owner data side d :
  Special RUSTDESK_CLIPBOARD_OWNER_FORMAT d ∈ marked data side <-> d = get_owner_data side.
Proof.
  unfold marked; rewrite elem_of_app, list_elem_of_singleton; split; [|intros ->; by right].
  intros [[_ Ho]%remove_markers_elem|[= ->]]; [|done]; exfalso.
  assert (E : is_rustdesk_owner_clipboard_data (Special RUSTDESK_CLIPBOARD_OWNER_FORMAT d) = true) by reflexivity.
  rewrite E in Ho; discriminate Ho.
Qed.

Lemma get_formats_answer b formats data : get_formats b formats = Some data ->
  exists i l, inner_get_formats b formats i = inr l /\ data = filter (fun c => c <> Nothing) l.
Proof.
  unfold get_formats; generalize CLIPBOARD_GET_MAX_RETRY 0%nat; intros n; induction n as [|n IH]; intros i; cbn; [done|].
  destruct (inner_get_formats b formats i) as [[]|l] eqn:E; [apply IH|done|]; intros [= <-]; eauto.
Qed.

Lemma owned_is_hidden data side b b' formats : inner_set_formats b (marked data side) = Some b' ->
  format.Special RUSTDESK_CLIPBOARD_OWNER_FORMAT ∈ formats ->
  get_formats_filter b' formats side false = None \/ get_formats_filter b' formats side false = Some [].
Proof.
  intros Hset Hf; unfold get_formats_filter; destruct (get_formats b' formats) as [data'|] eqn:G; [|by left]; right.
  apply get_formats_answer in G as (i & l & El & ->).
  assert (Hin : Special RUSTDESK_CLIPBOARD_OWNER_FORMAT (get_owner_data side) ∈ l).
  { eapply owner_read_back; [exact Hset|by apply marked_owner|by intros d' Hd'%marked_owner|done|exact El]. }
  destruct (filter _ l) as [|c cs] eqn:F; [done|]; rewrite <- F; cbn [negb andb].
  replace (existsb _ _) with true; [done|]; symmetry; apply existsb_exists.
  exists (Special RUSTDESK_CLIPBOARD_OWNER_FORMAT (get_owner_data side)); split.
  - apply list_elem_of_In, list_elem_of_filter; split; [done|exact Hin].
  - unfold owned_by; by rewrite owner_bit_is_owner, String.eqb_refl.
Qed.

Lemma no_echo compress ctx attempt data side b now s ctx' b' s' e ctx2 attempt2 now2 s2 :
  write_update ctx attempt data side b now s = Done (ctx', Some b') s' -> cache_held s2 = false ->
  exists c s3, check_clipboard compress e ctx2 attempt2 b' side false now2 s2 = Done (c, None) s3.
Proof.
  intros [_ Hset]%write_spec Hh; unfold check_clipboard; destruct (bool_decide _ && _); [by eexists _, _|]; cbn zeta.
  destruct (negb _); [by eexists _, _|]; unfold get.
  destruct (external_opaque_native_clipboard_signature b') as [sig|].
  - unfold mbind, M_bind, mark_local_external_opaque_clipboard_change.
    destruct (mark_external_opaque_change _ _ _) as [changed t].
    unfold clear_cached_clipboard, locked, mbind, M_bind, lock_cache; cbn; rewrite Hh; cbn; by eexists _, _.
  - destruct (owned_is_hidden data side b b' SUPPORTED_FORMATS Hset) as [->| ->]; [|by eexists _, _|by eexists _, _].
    unfold SUPPORTED_FORMATS; set_solver.
Qed.

(** C22. What a side wrote from a peer it does not send back: as long as the
    clipboard holds it, no change notification makes the side that wrote it send
    anything, whether reading succeeds, has to be tried again or fails. *)
Theorem written_content_is_not_sent_back compress ctx attempt data side b now s ctx' b' s' e ctx2 attempt2 now2 s2 :
  write_update ctx attempt data side b now s = Done (ctx', Some b') s' -> cache_held s2 = false ->
  sends_nothing compress e ctx2 attempt2 b' side now2 s2.
Proof. apply no_echo. Qed.
End NoEcho.

Theorem written_content_is_not_sent_back_witness :
  sends_nothing id (env_of "") true (fun _ => true) (marked peer_copy Client : @board memory_board) Client 800000000
    trace_written_shared.
Proof.
  apply (written_content_is_not_sent_back id false (fun _ => true) peer_copy Client ([Text "old"]%string : @board memory_board)
           750000001 trace_shared true (marked peer_copy Client : @board memory_board) trace_written_shared); vm_compute; reflexivity.
Defined.

(** ** Repetitions *)

(** The guard compares with the offer before, and remembers the last one. *)
Lemma should_skip_spec g side sig now : should_skip g side sig now =
  (match g with
   | Some r => bool_decide (applied_side r = side) && bool_decide (signature r = sig) &&
               (since now (observed_at r) <? REMOTE_CLIPBOARD_ECHO_SUPPRESS_DUR)
   | None => false
   end, Some {| applied_side := side; signature := sig; observed_at := now |}).
Proof.
  unfold should_skip; destruct g as [[side' sig' t]|]; cbn; [|done].
  case_bool_decide as Es; [|done]; case_bool_decide as Eg; [|done]; cbn; subst; by destruct (_ <? _).
Qed.

(** The second offer repeats the first. *)
Definition repetition (side : ClipboardSide) (data : list ClipboardData) (now : instant)
    (side' : ClipboardSide) (data' : list ClipboardData) (now' : instant) : Prop :=
  side = side' /\ remove_remote_owner_markers data = remove_remote_owner_markers data' /\ now' - now < from_secs 2.
#[export] Instance repetition_dec side data now side' data' now' : Decision (repetition side data now side' data' now').
Proof. unfold repetition; solve_decision. Defined.

Section Repetitions.
Context `{Board}.

Lemma write_guard attempt data side b now s r s' : remove_remote_owner_markers data <> [] ->
  write_update true attempt data side b now s = Done r s' ->
  REMOTE_CLIPBOARD_APPLY_GUARD s' =
    Some {| applied_side := side; signature := remote_clipboard_payload_signature data; observed_at := now |}.
Proof.
  intros Hne; unfold write_update; cbn [negb orb].
  pose proof (signature_of_remaining data) as S.
  destruct (remove_remote_owner_markers data) as [|i l]; [done|].
  intros (skip & s1 & E1 & E2)%bind_inv; unfold should_skip_repeated_remote_clipboard in E1; rewrite should_skip_spec in E1.
  injection E1 as <- <-; rewrite S; by match type of E2 with (if ?k then _ else _) _ = _ => destruct k end; injection E2 as <- <-.
Qed.

(** C24. After a payload was offered, the next one is dropped exactly when it is for
    the same side, holds the same content apart from owner markers, and comes
    within two seconds; otherwise it is handed to the clipboard.  It does not matter
    whether the first was itself written, dropped or refused by the clipboard, nor
    what the local user copied in between. *)
Theorem only_repetitions_are_dropped attempt data side b now s r s1 attempt' data' side' b' now' r' s2 s1' :
  Forall sizes_fit data -> Forall sizes_fit data' ->
  remove_remote_owner_markers data <> [] -> remove_remote_owner_markers data' <> [] -> now <= now' ->
  write_update true attempt data side b now s = Done r s1 ->
  REMOTE_CLIPBOARD_APPLY_GUARD s1' = REMOTE_CLIPBOARD_APPLY_GUARD s1 ->
  write_update true attempt' data' side' b' now' s1' = Done r' s2 ->
  r' = (true, if decide (repetition side data now side' data' now')
              then None else inner_set_formats b' (marked data' side')).
Proof.
  intros Hf Hf' Hne Hne' Hle W G W'; apply write_guard in W; [|done]; rewrite <- G in W; clear G s1.
  unfold write_update in W'; cbn [negb orb] in W'.
  pose proof (signature_of_remaining data') as S; pose proof (signature_identifies_the_payload_aux data data' Hf Hf') as P.
  destruct (remove_remote_owner_markers data') as [|i l] eqn:R; [done|].
  apply bind_inv in W' as (skip & s1 & E1 & E2); unfold should_skip_repeated_remote_clipboard in E1.
  rewrite W, should_skip_spec in E1; cbn [applied_side signature observed_at] in E1; injection E1 as <- <-.
  rewrite <- S in E2; unfold since, REMOTE_CLIPBOARD_ECHO_SUPPRESS_DUR in E2; rewrite Z.max_l in E2 by lia.
  case_bool_decide as Es; cbn [andb] in E2; [|injection E2 as <- _; rewrite decide_False by (unfold repetition; rewrite R; tauto); done].
  case_bool_decide as Eg; cbn [andb] in E2; [|injection E2 as <- _; rewrite decide_False by (unfold repetition; rewrite R; tauto); done].
  destruct (Z.ltb_spec (now' - now) (from_secs 2)); injection E2 as <- _.
  - rewrite decide_True by (split_and!; [done|rewrite R; by apply P|done]); done.
  - rewrite decide_False by (unfold repetition; lia); done.
Qed.
End Repetitions.

Definition guard_of (data : list ClipboardData) (now : instant) : Shared :=
  set_guard (Some {| applied_side := Client; signature := remote_clipboard_payload_signature data; observed_at := now |})
    Shared_default.
Theorem only_repetitions_are_dropped_witness :
  (true, None) =
  (true, if decide (repetition Client peer_copy 0 Client peer_copy 1999999999)
         then None else @inner_set_formats memory_board [] (marked peer_copy Client)).
Proof.
  refine (@only_repetitions_are_dropped memory_board (fun _ => true) peer_copy Client [] 0
           Shared_default (true, Some (marked peer_copy Client)) (guard_of peer_copy 0) (fun _ => true) peer_copy Client
           [] 1999999999 (true, None) (guard_of peer_copy 1999999999) (guard_of peer_copy 0) _ _ _ _ _ _ _ _);
    [repeat constructor; vm_compute; (reflexivity || discriminate)..|discriminate|discriminate|lia|
     vm_compute; reflexivity|reflexivity|vm_compute; reflexivity].
Defined.

(** A clipboard that refuses its first write, as a busy one does: the number of
    refusals left. *)
#[local] Instance flaky_board : Board := {|
  board := nat * list ClipboardData;
  inner_get_formats b formats _ := inr (fmap (fun f => default Nothing (List.find (answers f) b.2)) formats);
  inner_set_formats b data := match b.1 with O => Some (O, data) | S n => None end;
  clipboard_type_names b := Some (item_name <$> b.2);
|}.

(** A write the clipboard refused counts for the guard: the same payload, sent
    again within two seconds and now welcome, is dropped, and the peer's copy is
    never there. *)
Theorem refused_write_bars_its_retry : exists s1,
  @write_update flaky_board true (fun _ => true) peer_copy Client (1%nat, []) 0 Shared_default = Done (true, None) s1 /\
  (exists s2, @write_update flaky_board true (fun _ => true) peer_copy Client (0%nat, []) 1500000000 s1 = Done (true, None) s2) /\
  (exists s2 b, @write_update flaky_board true (fun _ => true) peer_copy Client (0%nat, []) 1500000000 Shared_default =
     Done (true, Some b) s2).
Proof. eexists; split; [vm_compute; reflexivity|]; split; do 2 try eexists; vm_compute; reflexivity. Qed.

(** The same after a local copy in between: the peer copies "new" again, the
    local side keeps what its user copied. *)
Theorem copy_made_again_is_dropped : exists s1 s2 s3,
  @write_update memory_board true (fun _ => true) peer_copy Client [] 0 Shared_default =
    Done (true, Some (marked peer_copy Client)) s1 /\
  (exists m, @check_clipboard memory_board id (env_of "") true (fun _ => true) [Text "mine"]%string Client false 400000000 s1 =
     Done (true, Some m) s2) /\
  remote_update_delay (CLIPBOARD_TIMING s2) 1500000000 = None /\
  @write_update memory_board true (fun _ => true) peer_copy Client [Text "mine"]%string 1500000000 s2 = Done (true, None) s3.
Proof. do 3 eexists; split_and!; [vm_compute; reflexivity|eexists; vm_compute; reflexivity|vm_compute; reflexivity..]. Qed.

(** ** Foreign content *)

Section Foreign.
Context `{Board}.

Lemma get_foreign b side force now s sig : external_opaque_native_clipboard_signature b = Some sig ->
  get b side force now s =
  if cache_held s then Stuck
  else Done (Some []) (set_cache [] (set_timing (fun t => (mark_external_opaque_change t sig now).2) s)).
Proof.
  unfold get; intros ->; unfold mbind at 1, M_bind at 1, mark_local_external_opaque_clipboard_change.
  destruct (mark_external_opaque_change _ _ _) as [changed t] eqn:E; destruct s as [ti g c h]; cbn in *.
  unfold clear_cached_clipboard, locked, mbind, M_bind, lock_cache; cbn.
  destruct h; cbn; [done|]; unfold set_cache, set_timing; cbn; by rewrite E.
Qed.

(** Foreign content is left alone: nothing is sent, what was cached is forgotten,
    the change counts as one of the local user the first time it is seen, and no
    format is read, whatever reading one would have given. *)
Theorem foreign_content_is_left_alone compress e ctx attempt b side force now s sig :
  external_opaque_native_clipboard_signature b = Some sig -> cache_held s = false ->
  allows_local_to_remote (host_clipboard_policy e) = true -> ctx || ClipboardContext_new attempt = true ->
  check_clipboard compress e ctx attempt b side force now s =
  Done (true, None) (set_cache [] (set_timing (fun t => (mark_external_opaque_change t sig now).2) s)).
Proof.
  intros Hs Hh Ha Hc; unfold check_clipboard; rewrite Ha, andb_false_r, Hc; cbn [negb].
  unfold mbind, M_bind; by rewrite (get_foreign _ _ _ _ _ _ Hs), Hh.
Qed.

Variable compress_func : bytes -> bytes.
Variable get_version_number : string -> Z.
Variable platform_ios : string.

Lemma get_native b side force now s : external_opaque_native_clipboard_signature b = None ->
  exists r, get b side force now s = Done r s.
Proof.
  unfold get; intros ->; destruct (get_formats_filter _ _ _ _) as [data|]; [|by eexists].
  destruct (existsb _ data); by eexists.
Qed.

(** Reading the clipboard for a new session comes back unless the cache is
    empty and the clipboard holds foreign content.  Then it does not: the lock on
    the cache is held while the clipboard is read, and reading foreign content asks
    for it again. *)
Theorem session_start_hangs_exactly e attempt b version platform side now s :
  cache_held s = false -> (side = Host -> allows_local_to_remote (host_clipboard_policy e) = true) ->
  get_current_clipboard_msg compress_func get_version_number platform_ios e attempt b version platform side now s = Stuck <->
  LAST_MULTI_CLIPBOARDS s = [] /\ ClipboardContext_new attempt = true /\
  external_opaque_native_clipboard_signature b <> None.
Proof.
  intros Hh Hp; unfold get_current_clipboard_msg.
  replace (bool_decide (side = Host) && _) with false;
    [|case_bool_decide as Es; [rewrite (Hp Es)|]; done].
  unfold locked, lock_cache, gets, mbind, M_bind; rewrite Hh; cbn [set_held LAST_MULTI_CLIPBOARDS].
  destruct (LAST_MULTI_CLIPBOARDS s) as [|c cs] eqn:C; [|cbn; split; [done|intros [? _]; done]].
  destruct (ClipboardContext_new attempt); cbn [negb]; [|cbn; split; [done|intros (_ & ? & _); done]].
  destruct (external_opaque_native_clipboard_signature b) as [sig|] eqn:Es.
  - rewrite (get_foreign _ _ _ _ _ _ Es); cbn; by split.
  - destruct (get_native b side true now (set_held true s) Es) as [r Er]; rewrite Er.
    split; [|intros (_ & _ & ?); done]; destruct r as [[|d ds]|]; done.
Qed.
End Foreign.

Definition foreign_board : @board memory_board := [Special "application/pdf" [37; 80; 68; 70]]%string.
Theorem session_start_hangs_exactly_witness :
  get_current_clipboard_msg id (fun _ => 0) "iOS" (env_of "") (fun _ => true) foreign_board "1.4.0" "Linux" Client 0 Shared_default = Stuck.
Proof.
  apply (@session_start_hangs_exactly memory_board id (fun _ => 0) "iOS"%string (env_of "") (fun _ => true) foreign_board
           "1.4.0" "Linux" Client 0 Shared_default); [reflexivity|discriminate|].
  split; [reflexivity|]; split; [vm_compute; reflexivity|vm_compute; discriminate].
Defined.

(** ** What a new session starts with *)

Section Session.
Context `{Board}.

(** The cache, when it holds anything, is what a new session gets, whatever is on
    the clipboard by then. *)
Theorem session_starts_with_the_cache compress gv ios e attempt b version platform side now s :
  cache_held s = false -> LAST_MULTI_CLIPBOARDS s <> [] ->
  (side = Host -> allows_local_to_remote (host_clipboard_policy e) = true) ->
  get_current_clipboard_msg compress gv ios e attempt b version platform side now s =
  Done (if is_support_multi_clipboard gv ios version platform then Some (message.MultiClipboards (LAST_MULTI_CLIPBOARDS s))
        else first_text (LAST_MULTI_CLIPBOARDS s)) (set_held false s).
Proof.
  intros Hh Hc Hp; unfold get_current_clipboard_msg.
  replace (bool_decide (side = Host) && _) with false;
    [|case_bool_decide as Es; [rewrite (Hp Es)|]; done].
  unfold locked, lock_cache, gets, mbind, M_bind; rewrite Hh; cbn.
  destruct (LAST_MULTI_CLIPBOARDS s) eqn:C; [done|]; cbn; rewrite C; done.
Qed.

(** Writing what a peer sent leaves the cache as it is. *)
Lemma write_keeps_cache ctx attempt data side b now s r s' :
  write_update ctx attempt data side b now s = Done r s' -> LAST_MULTI_CLIPBOARDS s' = LAST_MULTI_CLIPBOARDS s.
Proof.
  unfold write_update; destruct (negb _); [by intros [= <- <-]|].
  destruct (remove_remote_owner_markers data) as [|i l]; [by intros [= <- <-]|].
  intros (skip & s1 & E1 & E2)%bind_inv; unfold should_skip_repeated_remote_clipboard in E1.
  destruct (should_skip _ _ _ _) as [k g]; injection E1 as <- <-; by destruct k; injection E2 as <- <-.
Qed.
End Session.

Theorem session_starts_with_the_cache_witness :
  get_current_clipboard_msg id (fun _ => 0) "iOS" (env_of "") (fun _ => true) ([] : @board memory_board) "1.4.0" "Linux" Client 9
    trace_shared = Done (Some (message.MultiClipboards (LAST_MULTI_CLIPBOARDS trace_shared))) (set_held false trace_shared).
Proof.
  refine (@session_starts_with_the_cache memory_board id (fun _ => 0) "iOS"%string (env_of "") (fun _ => true) [] "1.4.0"
           "Linux" Client 9 trace_shared _ _ _); [reflexivity|vm_compute; discriminate|by intros [=]].
Defined.

(** The clipboard holds the peer's "new"; the next session is given "old". *)
Theorem new_session_gets_an_older_copy :
  match @write_update memory_board true (fun _ => true) peer_copy Client [Text "old"]%string 750000001 trace_shared with
  | Done (_, Some b) s1 =>
      List.find (answers format.Text) b = Some (Text "new") /\
      match @get_current_clipboard_msg memory_board id (fun _ => 0) "iOS" (env_of "") (fun _ => true) b "1.4.0" "Linux"
              Client 800000000 s1 with
      | Done m _ => m = Some (message.MultiClipboards (proto.create_multi_clipboards id [Text "old"]))
      | Stuck => False
      end
  | _ => False
  end.
Proof. vm_compute; split; reflexivity. Qed.

(** ** From one desktop to the other *)

Section Mirror.
Context `{BoardLaws}.
Variable compress_func decompress : bytes -> bytes.
Hypothesis decompress_compress : forall b, decompress (compress_func b) = b.

Lemma filter_content b side force content : get_formats_filter b SUPPORTED_FORMATS side force = Some content ->
  Forall (fun item => match item with
    | Text _ | Html _ | Rtf _ | FileUrl _ => True
    | Special name _ => name = CLIPBOARD_FORMAT_EXCEL_XML_SPREADSHEET
    | _ => False end) content.
Proof.
  unfold get_formats_filter; destruct (get_formats b SUPPORTED_FORMATS) as [data|] eqn:G; [|done].
  apply get_formats_answer in G as (i & l & El & ->).
  destruct (filter _ l) as [|c cs] eqn:F; [by intros [= <-]|]; rewrite <- F.
  destruct (_ && _); intros [= <-]; [constructor|].
  rewrite Forall_forall; intros item [Hk [Hn Hi]%list_elem_of_filter]%list_elem_of_filter.
  destruct (only_answers b SUPPORTED_FORMATS i l item El Hi) as [|Ha]; [done|].
  destruct item as [s|s|s|im|name d|urls| |]; try exact I; try discriminate Ha.
  cbn in Hk; destruct (String.eqb_spec name RUSTDESK_CLIPBOARD_OWNER_FORMAT); [done|].
  unfold SUPPORTED_FORMATS in Ha; cbn [existsb answers orb] in Ha; rewrite orb_false_r in Ha.
  apply orb_true_iff in Ha as [E|E]; apply String.eqb_eq in E; congruence.
Qed.

Lemma get_content b side force now s content s' : get b side force now s = Done (Some content) s' ->
  Forall (fun item => match item with
    | Text _ | Html _ | Rtf _ => True
    | Special name _ => name = CLIPBOARD_FORMAT_EXCEL_XML_SPREADSHEET
    | _ => False end) content.
Proof.
  destruct (external_opaque_native_clipboard_signature b) as [sig|] eqn:Es.
  - rewrite (get_foreign _ _ _ _ _ _ Es); destruct (cache_held s); [done|]; intros [= <- _]; constructor.
  - unfold get; rewrite Es; destruct (get_formats_filter b SUPPORTED_FORMATS side force) as [data|] eqn:F; [|done].
    destruct (existsb _ data) eqn:X; intros [= <- _]; [constructor|].
    apply filter_content in F; rewrite Forall_forall in *; intros item Hi; specialize (F item Hi).
    destruct item; try done; exfalso.
    assert (existsb (fun c => match c with FileUrl _ => true | _ => false end) data = true); [|congruence].
    apply existsb_exists; eexists; split; [by apply list_elem_of_In|done].
Qed.

(** What was read and sent; the premise is that a message came of it. *)
Lemma check_sends e ctx attempt b side force now s c m s' :
  check_clipboard compress_func e ctx attempt b side force now s = Done (c, Some m) s' ->
  exists content s1, get b side force now s = Done (Some content) s1 /\ content <> [] /\
    m = message.MultiClipboards (proto.create_multi_clipboards compress_func content) /\
    LAST_MULTI_CLIPBOARDS s' = proto.create_multi_clipboards compress_func content.
Proof.
  unfold check_clipboard; destruct (bool_decide _ && _); [done|]; cbn zeta; destruct (negb _); [done|].
  intros ([content|] & s1 & E1 & E2)%bind_inv; [|done]; destruct content as [|i content]; [done|].
  apply bind_inv in E2 as ([] & s2 & E2 & E3); injection E2 as <-.
  unfold locked, mbind, M_bind, lock_cache in E3; cbn in E3; destruct (cache_held s1); [done|]; injection E3 as _ <- <-.
  eexists _, _; split_and!; [exact E1|done|done|done].
Qed.

(** The message carries exactly the content, the other side admits it and hands it
    on as it is, with its marker. *)
Definition carries (m : message.Message) (content : list ClipboardData) : Prop :=
  update_payload decompress (message_clipboards m) = Some content /\
  remote_clipboard_data_block_reason content = None /\
  forall side, marked content side = content ++ [Special RUSTDESK_CLIPBOARD_OWNER_FORMAT (get_owner_data side)].

(** C23. A copy arrives.  When one side sends what its user copied, the other side
    takes exactly that content out of the message, its screening admits it, and
    what it hands to its clipboard is that content, unchanged and in its order, and
    the marker. *)
Theorem copies_are_mirrored e ctx attempt b side now s c m s' :
  check_clipboard compress_func e ctx attempt b side false now s = Done (c, Some m) s' ->
  (forall content s1, get b side false now s = Done (Some content) s1 -> Forall well_formed content) ->
  exists content s1, get b side false now s = Done (Some content) s1 /\ carries m content.
Proof.
  intros (content & s1 & Eg & Hne & -> & _)%check_sends Hw; specialize (Hw _ _ Eg).
  pose proof (get_content _ _ _ _ _ _ _ Eg) as Hc; exists content, s1; split; [done|]; unfold carries; cbn [message_clipboards]; split_and!.
  - unfold update_payload; rewrite (read_back_list _ _ decompress_compress content Hw), filter_all.
    + by destruct content.
    + rewrite Forall_forall in Hc; intros item Hi; specialize (Hc item Hi); by destruct item.
  - apply block_reason_none; eapply Forall_impl; [exact Hc|]; intros item Hi; destruct item; try done; subst; done.
  - intros side'; unfold marked, remove_remote_owner_markers; f_equal; apply filter_all.
    rewrite Forall_forall in Hc; intros item Hi; specialize (Hc item Hi); destruct item; try done; subst; done.
Qed.
End Mirror.

Definition my_copy : list ClipboardData := [Text "aaaaaa"; Special CLIPBOARD_FORMAT_EXCEL_XML_SPREADSHEET [60; 62]]%string.
Theorem copies_are_mirrored_witness : exists content s1,
  @get memory_board my_copy Host false 5 Shared_default = Done (Some content) s1 /\
  carries unrun (message.MultiClipboards (proto.create_multi_clipboards run_length my_copy)) content.
Proof.
  refine (@copies_are_mirrored memory_board memory_laws run_length unrun unrun_run_length (env_of "both") true (fun _ => true)
    my_copy Host 5 Shared_default true (message.MultiClipboards (proto.create_multi_clipboards run_length my_copy))
    (set_cache (proto.create_multi_clipboards run_length my_copy)
       (set_timing (fun t => mark_local_change t 5) Shared_default)) _ _); [vm_compute; reflexivity|].
  intros content s1 E; assert (E' : @get memory_board my_copy Host false 5 Shared_default = Done (Some my_copy) Shared_default)
    by (vm_compute; reflexivity).
  rewrite E' in E; injection E as <- _; repeat constructor; vm_compute; reflexivity.
Defined.

(** ** Directions *)

(** A direction is written and read back; a text that is none of the known ones
    closes both ways. *)
Theorem direction_read_back p : from_option_value (as_option_value p) = p.
Proof. by destruct p. Qed.

(** Choosing a direction for a session takes effect both ways at once: what the
    peer sends is taken exactly when the direction lets it in, what is copied here
    is sent exactly when it lets it out and the host accepts it.  The host is told
    exactly when the clipboard as a whole goes on or off. *)
Theorem chosen_direction_holds e local_option direction s :
  let '(s', told) := toggle_clipboard_direction direction s in
  let p := from_option_value direction in
  session_clipboard_direction_policy e local_option s' = p /\
  viewer_accepts (session_clipboard_direction_policy e local_option s') (disable_clipboard s') = allows_remote_to_local p /\
  is_text_clipboard_required e local_option s' =
    server_clipboard_enabled s && server_keyboard_enabled s && allows_local_to_remote p /\
  (told = None <-> disable_clipboard s' = disable_clipboard s) /\
  (forall b, told = Some b -> (b = true <-> p = Off)).
Proof.
  unfold toggle_clipboard_direction; cbn zeta; generalize (from_option_value direction); intros p.
  unfold is_text_clipboard_required, session_clipboard_direction_policy, viewer_accepts; cbn.
  destruct p, s as [d di sc sk]; cbn; destruct di, sc, sk; cbn; split_and!; try done; try (by intros b [= <-]; split); by split.
Qed.
