(* ===== verification/ClipboardListener.v ===== *)
(** * The listener of clipboard changes and its readers

    Models module [clipboard_listener] of src/src/clipboard.rs, one thread that
    passes every change of the clipboard on to all subscribers, and the two
    readers that subscribe: the host's service (src/src/server/
    clipboard_service.rs) and the viewer's watcher (src/src/client.rs).  Whether
    the thread starts and what the system reports are arguments. *)

From S2P Require Import Prelude ClipboardTypes SessionPermissions ClipboardFormats ClipboardWire DesktopClipboard ClipboardTheory.
From Stdlib Require String.
#[local] Open Scope list_scope.

(** ** The listener *)

Inductive CallbackResult := Next | Stop | StopWithError.

(** What each subscriber has not read yet, by name; and whether there is a thread. *)
Record ClipboardListener := {
  subscribers : gmap string (list CallbackResult);
  handle : bool;
}.
Definition ClipboardListener_default : ClipboardListener := {| subscribers := ∅; handle := false |}.

Definition send_all (r : CallbackResult) (l : ClipboardListener) : ClipboardListener :=
  {| subscribers := (fun q => q ++ [r]) <$> subscribers l; handle := handle l |}.
(** The handler's two callbacks; both ask for more. *)
Definition on_clipboard_change (l : ClipboardListener) : ClipboardListener * CallbackResult := (send_all Next l, Next).
Definition on_clipboard_error (l : ClipboardListener) : ClipboardListener * CallbackResult := (send_all StopWithError l, Next).

(** [started] tells whether the thread, if one is to be started, came up. *)
Definition subscribe (name : string) (started : bool) (l : ClipboardListener) : ClipboardListener * bool :=
  let subs := <[name := []]> (subscribers l) in
  if handle l then ({| subscribers := subs; handle := true |}, true)
  else if started then ({| subscribers := subs; handle := true |}, true)
  else ({| subscribers := subs; handle := false |}, false).

(** Gives also what the leaving subscriber can still read. *)
Definition unsubscribe (name : string) (l : ClipboardListener) : ClipboardListener * option (list CallbackResult) :=
  let subs := delete name (subscribers l) in
  ({| subscribers := subs; handle := if decide (subs = ∅) then false else handle l |},
   (fun q => q ++ [Stop]) <$> (subscribers l !! name)).

(** ** The host's service *)

Definition NAME : string := "clipboard".
Definition FILE_NAME : string := "file-clipboard".

Section Readers.
Context `{Board}.
Variable compress_func : bytes -> bytes.

(** What one wait of the loop brings; a change is read from the clipboard of that
    moment. *)
Inductive Received :=
| GotNext (b : board) (attempt : nat -> bool) (now : instant)
| GotStop
| GotStopWithError
| TimedOut
| Disconnected.
(** What a reader passes on: a message to the peers, or a list of files to offer
    to them. *)
Inductive Sent := SentMessage (m : message.Message) | SyncFiles (urls : list string).
Inductive Exit := Left | Failed.

Definition host_check (e : Env) (name : string) (ctx : bool) (attempt : nat -> bool) (b : board) (now : instant) :
    M (bool * list Sent) :=
  if (name =? FILE_NAME)%string then
    let '(ctx, urls) := check_clipboard_files ctx attempt b Host false in
    mret (ctx, match urls with Some urls => [SyncFiles urls] | None => [] end)
  else
    '(ctx, m) ← check_clipboard compress_func e ctx attempt b Host false now;
    mret (ctx, match m with Some m => [SentMessage m] | None => [] end).

(** The loop until the service is told to end, which is the end of the list. *)
Fixpoint service_loop (e : Env) (name : string) (ctx : bool) (events : list Received) : M (list Sent * Exit) :=
  match events with
  | [] | GotStop :: _ | Disconnected :: _ => mret ([], Left)
  | GotStopWithError :: _ => mret ([], Failed)
  | TimedOut :: events => service_loop e name ctx events
  | GotNext b attempt now :: events =>
      '(ctx, out) ← host_check e name ctx attempt b now;
      '(rest, exit) ← service_loop e name ctx events;
      mret (out ++ rest, exit)
  end.

(** [clipboard_service::run] and what it leaves of the listener. *)
Definition service_run (e : Env) (name : string) (context_made started : bool) (events : list Received)
    (l : ClipboardListener) : M (list Sent * Exit * ClipboardListener) :=
  if negb context_made then mret ([], Failed, l)
  else
    let '(l, subscribed) := subscribe name started l in
    if negb subscribed then mret ([], Failed, l)
    else
      '(out, exit) ← service_loop e name true events;
      mret (out, exit, match exit with Left => (unsubscribe name l).1 | Failed => l end).

(** ** The viewer's watcher *)

(** [ClientClipboardHandler::check_clipboard]: files come first, and with files
    there is no text. *)
Definition client_check (e : Env) (watcher_running is_file_required is_text_required : bool) (ctx : bool)
    (attempt attempt' : nat -> bool) (b : board) (now : instant) : M (bool * list Sent) :=
  if negb watcher_running then mret (ctx, [])
  else
    let '(ctx, urls) := if is_file_required then check_clipboard_files ctx attempt b Client false else (ctx, None) in
    match urls with
    | Some urls => mret (ctx, [SyncFiles urls])
    | None =>
        if is_text_required then
          '(ctx, m) ← check_clipboard compress_func e ctx attempt' b Client false now;
          mret (ctx, match m with Some m => [SentMessage m] | None => [] end)
        else mret (ctx, [])
    end.

(** ** Theorems *)

(** Every change reaches every subscriber once, and nobody else. *)
Theorem change_reaches_all l name :
  subscribers (on_clipboard_change l).1 !! name = (fun q => q ++ [Next]) <$> (subscribers l !! name).
Proof. cbn; by rewrite lookup_fmap. Qed.

Inductive listener_step (l : ClipboardListener) : ClipboardListener -> Prop :=
| listener_subscribe name : listener_step l (subscribe name true l).1
| listener_unsubscribe name : listener_step l (unsubscribe name l).1
| listener_change : listener_step l (on_clipboard_change l).1
| listener_error : listener_step l (on_clipboard_error l).1.

(** As long as every start succeeds there is a thread exactly while there is a
    subscriber. *)
Theorem listener_runs_while_subscribed l :
  rtc listener_step ClipboardListener_default l -> handle l = true <-> subscribers l <> ∅.
Proof.
  intros Hr; remember ClipboardListener_default as l0 eqn:E0.
  assert (H0 : handle l0 = true <-> subscribers l0 <> ∅) by (subst; cbn; naive_solver).
  clear E0; induction Hr as [|l l1 l2 Hs _ IH]; [done|]; apply IH; clear IH l2.
  destruct Hs as [name|name| |]; cbn.
  - unfold subscribe; destruct (handle l); cbn; (split; [intros _; apply insert_non_empty|done]).
  - destruct (decide (delete name (subscribers l) = ∅)) as [->|Hd]; [naive_solver|].
    split; [done|]; intros _; apply H0; intros E; apply Hd; by rewrite E, delete_empty.
  - rewrite H0; by rewrite fmap_empty_iff.
  - rewrite H0; by rewrite fmap_empty_iff.
Qed.

Theorem listener_runs_while_subscribed_witness :
  handle (unsubscribe NAME (subscribe FILE_NAME true (subscribe NAME true ClipboardListener_default).1).1).1 = true <->
  subscribers (unsubscribe NAME (subscribe FILE_NAME true (subscribe NAME true ClipboardListener_default).1).1).1 <> ∅.
Proof.
  apply listener_runs_while_subscribed.
  eapply rtc_l; [apply (listener_subscribe _ NAME)|]; eapply rtc_l; [apply (listener_subscribe _ FILE_NAME)|].
  eapply rtc_l; [apply (listener_unsubscribe _ NAME)|apply rtc_refl].
Defined.

(** A reader that could not be started stays among the subscribers: when another
    one comes and goes, the thread stays. *)
Theorem failed_subscriber_keeps_the_thread name other : name <> other ->
  let l1 := (subscribe name false ClipboardListener_default).1 in
  (subscribe name false ClipboardListener_default).2 = false /\
  handle (unsubscribe other (subscribe other true l1).1).1 = true.
Proof.
  intros Hne; split; [done|]; cbn; rewrite decide_False; [done|].
  rewrite delete_insert_id by (by rewrite lookup_insert_ne). apply insert_non_empty.
Qed.

(** A reader that ends in order has left the listener; one that fails has not. *)
Theorem failed_readers_stay_subscribed e name context_made started events l s out exit l' s' :
  service_run e name context_made started events l s = Done (out, exit, l') s' ->
  match exit with
  | Left => subscribers l' !! name = None
  | Failed => context_made = true -> is_Some (subscribers l' !! name)
  end.
Proof.
  unfold service_run; destruct context_made; cbn [negb]; [|by intros [= <- <- <- <-]].
  unfold subscribe; destruct (handle l); [|destruct started]; cbn [negb].
  3: { intros [= <- <- <- <-] _; cbn; rewrite lookup_insert_eq; eauto. }
  all: intros ([out1 exit1] & s1 & _ & E2)%bind_inv; destruct exit1; injection E2 as <- <- <- <-; cbn.
  all: rewrite ?lookup_delete_eq, ?lookup_insert_eq; eauto.
Qed.

(** With files on the clipboard, and files wanted, the viewer passes on the files
    and no text. *)
Theorem files_go_before_text e text ctx attempt attempt' b now s urls ctx' :
  check_clipboard_files ctx attempt b Client false = (ctx', Some urls) ->
  client_check e true true text ctx attempt attempt' b now s = Done (ctx', [SyncFiles urls]) s.
Proof. unfold client_check; by intros ->. Qed.
End Readers.

Theorem failed_readers_stay_subscribed_witness :
  true = true -> is_Some (subscribers (subscribe NAME true ClipboardListener_default).1 !! NAME).
Proof.
  apply (@failed_readers_stay_subscribed memory_board id (env_of "") NAME true true [GotStopWithError]
           ClipboardListener_default Shared_default [] Failed _ Shared_default).
  reflexivity.
Defined.

Theorem files_go_before_text_witness :
  @client_check memory_board id (env_of "") true true true true (fun _ => true) (fun _ => true)
    [FileUrl ["file:///a"]; Text "file:///a"]%string 0 Shared_default = Done (true, [SyncFiles ["file:///a"]]%string) Shared_default.
Proof. apply files_go_before_text; vm_compute; reflexivity. Defined.

Section Echo.
Context `{BoardLaws}.

(** The clipboards a side's updates leave behind. *)
Definition written_by (side : ClipboardSide) (b' : board) : Prop :=
  exists ctx attempt data b now s ctx' s', write_update ctx attempt data side b now s = Done (ctx', Some b') s'.

Lemma check_held compress e ctx attempt b side force now s r s' : cache_held s = false ->
  check_clipboard compress e ctx attempt b side force now s = Done r s' -> cache_held s' = false.
Proof.
  intros Hh; unfold check_clipboard; destruct (bool_decide _ && _); [by intros [= _ <-]|]; cbn zeta.
  destruct (negb _); [by intros [= _ <-]|]; intros (content & s1 & E1 & E2)%bind_inv.
  assert (Hh1 : cache_held s1 = false).
  { destruct (external_opaque_native_clipboard_signature b) as [sig|] eqn:Es.
    - rewrite (get_foreign _ _ _ _ _ _ Es), Hh in E1; by injection E1 as _ <-.
    - destruct (get_native b side force now s Es) as [r0 Er]; rewrite Er in E1; by injection E1 as _ <-. }
  destruct content as [[|i content]|]; try by injection E2 as _ <-.
  apply bind_inv in E2 as ([] & s2 & E2 & E3); injection E2 as <-.
  unfold locked, mbind, M_bind, lock_cache in E3; cbn in E3; rewrite Hh1 in E3; by injection E3 as _ <-.
Qed.

(** Over a whole run of the host's text service: changes that are the host's own
    writes of what its peers sent make it send nothing, however many come. *)
Theorem own_writes_are_never_sent compress e events s : cache_held s = false ->
  Forall (fun ev => match ev with GotNext b _ _ => written_by Host b | _ => True end) events ->
  forall ctx r s', service_loop compress e NAME ctx events s = Done r s' -> r.1 = [].
Proof.
  intros Hh Hev; revert s Hh; induction Hev as [|ev events Hev _ IH]; intros s Hh ctx r s' E; [by injection E as <- _|].
  destruct ev as [b attempt now| | | |]; try by injection E as <- _.
  - cbn [service_loop] in E; apply bind_inv in E as ([ctx1 out] & s1 & E1 & E2).
    change (host_check compress e NAME ctx attempt b now) with
      (mbind (M := M) (fun '(ctx, m) => mret (ctx, match m with Some m => [SentMessage m] | None => [] end))
         (check_clipboard compress e ctx attempt b Host false now)) in E1.
    apply bind_inv in E1 as ([ctx2 m] & s2 & E0 & E1); injection E1 as <- <- <-.
    destruct Hev as (ctx3 & attempt3 & data & b0 & now0 & s0 & ctx4 & s4 & Hw).
    destruct (no_echo compress _ _ _ _ _ _ _ _ _ _ e ctx attempt now s Hw Hh) as (c & s5 & E5).
    rewrite E5 in E0; injection E0 as <- <- <-; pose proof (check_held _ _ _ _ _ _ _ _ _ _ _ Hh E5) as Hh5.
    apply bind_inv in E2 as ([rest exit] & s6 & E6 & E7); injection E7 as <- <-; cbn.
    by apply IH in E6.
  - by apply IH in E.
Qed.
End Echo.
