(* ===== verification/SocketDirectory.v ===== *)
(** * The directories of local sockets

    Models src/src/ipc/fs.rs and the making of a listener in src/src/ipc.rs, in a
    Linux build: how the directory of a socket is opened, checked and hardened,
    what is removed from it, the pid file, and when a listener is bound.  System
    calls are the class [Posix]; the laws of [PosixLaws] are those of their manual
    pages.  A path is the list of its components. *)

From S2P Require Import Prelude Fingerprint SessionPermissions.
From stdpp Require Import pretty.
From Stdlib Require Ascii String.
#[local] Open Scope list_scope.
#[local] Open Scope Z_scope.

Abbreviation path := (list string) (only parsing).
Abbreviation bytes := (list Z) (only parsing).

(** ** System calls *)

Inductive Errno := ENOENT | EEXIST | EOTHER.
#[export] Instance Errno_eq_dec : EqDecision Errno.
Proof. solve_decision. Defined.
Record Stat := { st_mode : Z; st_uid : Z }.

Definition S_IFMT : Z := 61440.  (* 0o170000 *)
Definition S_IFDIR : Z := 16384. (* 0o040000 *)
Definition S_IFREG : Z := 32768. (* 0o100000 *)
Definition kind (st : Stat) : Z := Z.land (st_mode st) S_IFMT.
Definition perm (st : Stat) : Z := Z.land (st_mode st) 4095. (* 0o7777 *)

Inductive Bind := Bound | AddrInUse | BindError.

(** An open file or directory is the number of its inode.  [open_dir] is open(2)
    with O_DIRECTORY and O_NOFOLLOW, [open_pid] the opening of a pid file with
    O_NOFOLLOW, that creates it or not. *)
Class Posix := {
  fs : Type;
  ino : Type;
  geteuid : Z;
  open_dir : path -> fs -> Errno + ino;
  mkdir : path -> Z -> fs -> option Errno * fs;
  fstat : ino -> fs -> option Stat;
  fchown : ino -> Z -> fs -> bool * fs;
  fchmod : ino -> Z -> fs -> bool * fs;
  fstatat : ino -> string -> fs -> Errno + Stat;
  unlinkat : ino -> string -> bool -> fs -> option Errno * fs;
  open_pid : path -> bool -> fs -> option ino * fs;
  ftruncate : ino -> fs -> bool * fs;
  write : ino -> bytes -> fs -> Z * fs;
  read64 : ino -> fs -> option bytes;
  content : ino -> fs -> bytes;
  bind : path -> fs -> Bind * fs;
  chmod_path : path -> Z -> fs -> bool * fs;
  remove_file : path -> fs -> fs;
  connects : path -> fs -> bool;
  answers_sync : path -> fs -> bool;
}.

(** What the manual pages say. *)
Class PosixLaws `{Posix} := {
  fchmod_sets i m s s' st : fchmod i m s = (true, s') -> fstat i s = Some st -> 0 <= m < 4096 ->
    exists st', fstat i s' = Some st' /\ perm st' = m /\ kind st' = kind st /\ st_uid st' = st_uid st;
  fchmod_keeps_names i m s b s' p : fchmod i m s = (b, s') -> open_dir p s' = open_dir p s;
  fchown_keeps_kind i u s b s' st st' : fchown i u s = (b, s') -> fstat i s = Some st -> fstat i s' = Some st' -> kind st' = kind st;
  fchown_keeps_names i u s b s' p : fchown i u s = (b, s') -> open_dir p s' = open_dir p s;
  unlinkat_removes i n d s s' : unlinkat i n d s = (None, s') -> fstatat i n s' = inl ENOENT;
  unlinkat_gone i n d s s' : unlinkat i n d s = (Some ENOENT, s') -> fstatat i n s' = inl ENOENT;
  unlinkat_others i n d s e s' i' n' : unlinkat i n d s = (e, s') -> n' <> n -> fstatat i' n' s' = fstatat i' n' s;
  unlinkat_keeps_dir i n d s e s' p : open_dir p s = inr i -> unlinkat i n d s = (e, s') -> open_dir p s' = inr i;
  unlinkat_keeps_stat i n d s e s' : unlinkat i n d s = (e, s') -> fstat i s' = fstat i s;
  ftruncate_empties i s s' : ftruncate i s = (true, s') -> content i s' = [];
  ftruncate_keeps_stat i s b s' : ftruncate i s = (b, s') -> fstat i s' = fstat i s;
  write_appends i b s n s' : write i b s = (n, s') -> 0 < n ->
    n <= Z.of_nat (length b) /\ content i s' = content i s ++ take (Z.to_nat n) b;
  write_keeps_stat i b s n s' : write i b s = (n, s') -> fstat i s' = fstat i s;
  bind_in_use p s s' : bind p s = (AddrInUse, s') -> s' = s;
}.

Inductive Failure :=
| InvalidPath | OpenFailed | MkdirFailed | StatFailed | NotADirectory | UnsafeOwner | ChmodFailed
| InvalidEntry | RemoveFailed
| NotRegular | OwnerMismatch | TruncateFailed | WriteFailed | WriteZero
| PermissionsFailed | BindFailed | InUse.

(** A computation that may fail; what it did to the files stays. *)
Definition IO `{Posix} (A : Type) : Type := fs -> (Failure + A) * fs.
#[export] Instance IO_ret `{Posix} : MRet IO := fun A a s => (inr a, s).
#[export] Instance IO_bind `{Posix} : MBind IO := fun A B f m s =>
  match m s with (inl e, s') => (inl e, s') | (inr a, s') => f a s' end.
Definition fail `{Posix} {A} (e : Failure) : IO A := fun s => (inl e, s).

(** ** The directory *)

Definition has_nul (name : string) : bool := existsb (fun b => b =? 0) (as_bytes name).
Definition parent (p : path) : option path := match p with [] => None | _ => Some (removelast p) end.

Section Directory.
Context `{Posix}.
(** Which endpoints belong to the privileged service is the configuration's
    knowledge. *)
Variable is_service_ipc_postfix : string -> bool.

Definition expected_ipc_parent_mode (postfix : string) : Z :=
  if is_service_ipc_postfix postfix then 457 (* 0o0711 *) else 448 (* 0o0700 *).

Definition parent_or_fail (p : path) : IO path :=
  match parent p with
  | Some dir => if existsb has_nul dir then fail InvalidPath else mret dir
  | None => fail InvalidPath
  end.
Definition open_ipc_parent_dir_fd (dir : path) : IO ino := fun s =>
  match open_dir dir s with inl _ => (inl OpenFailed, s) | inr fd => (inr fd, s) end.

(** Opens the directory; one that is missing is made, by this process or by one
    that was faster. *)
Definition open_or_make (dir : path) (postfix : string) : IO ino := fun s =>
  match open_dir dir s with
  | inr fd => (inr fd, s)
  | inl ENOENT =>
      let '(made, s') := mkdir dir (expected_ipc_parent_mode postfix) s in
      match made with
      | None | Some EEXIST => open_ipc_parent_dir_fd dir s'
      | Some _ => (inl MkdirFailed, s')
      end
  | inl _ => (inl OpenFailed, s)
  end.

Definition stat_or_fail (fd : ino) : IO Stat := fun s =>
  match fstat fd s with Some st => (inr st, s) | None => (inl StatFailed, s) end.

(** Root takes over a service's directory that is another user's. *)
Definition adopt (fd : ino) (st : Stat) (postfix : string) : IO (Stat * bool) := fun s =>
  if negb (st_uid st =? geteuid) && (geteuid =? 0) && is_service_ipc_postfix postfix then
    let '(done, s') := fchown fd geteuid s in
    if done : bool then
      match fstat fd s' with Some st2 => (inr (st2, true), s') | None => (inr (st, false), s') end
    else (inr (st, false), s')
  else (inr (st, false), s).

Definition chmod_or_fail (fd : ino) (mode : Z) : IO unit := fun s =>
  let '(done, s') := fchmod fd mode s in if done : bool then (inr tt, s') else (inl ChmodFailed, s').

(** Gives whether what lies in the directory is to be removed. *)
Definition ensure_secure_ipc_parent_dir (p : path) (postfix : string) : IO bool :=
  dir ← parent_or_fail p;
  fd ← open_or_make dir postfix;
  st ← stat_or_fail fd;
  if negb (kind st =? S_IFDIR) then fail NotADirectory
  else
    '(st, adopted) ← adopt fd st postfix;
    if negb (st_uid st =? geteuid) then fail UnsafeOwner
    else
      let expected_mode := expected_ipc_parent_mode postfix in
      let current_mode := perm st in
      let repaired := negb (current_mode =? expected_mode) in
      let had_untrusted_parent_mode := negb (Z.land current_mode 18 (* 0o022 *) =? 0) in
      (if repaired : bool then chmod_or_fail fd expected_mode else mret tt);;
      mret (repaired || (adopted : bool) || had_untrusted_parent_mode).

(** Removes one entry of an open directory; one that is gone is as good. *)
Definition remove_parent_entry_via_fd (fd : ino) (entry : string) : IO unit := fun s =>
  if existsb (fun b => b =? 47) (as_bytes entry) then (inl InvalidEntry, s)
  else if has_nul entry then (inl InvalidEntry, s)
  else match fstatat fd entry s with
  | inl ENOENT => (inr tt, s)
  | inl _ => (inl StatFailed, s)
  | inr st =>
      let '(e, s') := unlinkat fd entry (kind st =? S_IFDIR) s in
      match e with
      | None | Some ENOENT => (inr tt, s')
      | Some _ => (inl RemoveFailed, s')
      end
  end.

Definition ipc_basename (postfix : string) : string := "ipc" +:+ postfix.
Definition pid_basename (postfix : string) : string := ipc_basename postfix +:+ ".pid".

Definition scrub_preexisting_ipc_parent_entries (fd : ino) (postfix : string) : IO unit :=
  remove_parent_entry_via_fd fd (ipc_basename postfix);;
  remove_parent_entry_via_fd fd (pid_basename postfix).

Definition scrub_secure_ipc_parent_dir (p : path) (postfix : string) : IO unit :=
  dir ← parent_or_fail p;
  fd ← open_ipc_parent_dir_fd dir;
  scrub_preexisting_ipc_parent_entries fd postfix.

Variable ipc_path : string -> path.

Definition remove_socket_in (dir : path) (postfix : string) : IO unit := fun s =>
  match open_dir dir s with
  | inl ENOENT => (inr tt, s)
  | inl _ => (inl OpenFailed, s)
  | inr fd => remove_parent_entry_via_fd fd (ipc_basename postfix) s
  end.
Definition remove_ipc_socket_via_secure_parent_fd (postfix : string) : IO unit :=
  dir ← parent_or_fail (ipc_path postfix);
  remove_socket_in dir postfix.

(** ** The pid file *)

(** [write(2)] may write less than it is given; [fuel] is the number of bytes. *)
Fixpoint write_all (fuel : nat) (fd : ino) (buf : bytes) : IO unit := fun s =>
  match buf with
  | [] => (inr tt, s)
  | _ =>
      match fuel with
      | O => (inl WriteFailed, s)
      | S fuel =>
          let '(rc, s') := write fd buf s in
          if rc <? 0 then (inl WriteFailed, s')
          else if rc =? 0 then (inl WriteZero, s')
          else write_all fuel fd (drop (Z.to_nat rc) buf) s'
      end
  end.

Definition write_pid_file (p : path) (pid : N) : IO unit := fun s =>
  if existsb has_nul p then (inl InvalidPath, s)
  else
    let '(fd, s) := open_pid p true s in
    match fd with
    | None => (inl OpenFailed, s)
    | Some fd =>
        match fstat fd s with
        | None => (inl StatFailed, s)
        | Some st =>
            if negb (kind st =? S_IFREG) then (inl NotRegular, s)
            else if negb (st_uid st =? geteuid) then (inl OwnerMismatch, s)
            else
              let '(done, s) := fchmod fd 384 (* 0o600 *) s in
              if negb done then (inl ChmodFailed, s)
              else
                let '(done, s) := ftruncate fd s in
                if negb done then (inl TruncateFailed, s)
                else
                  let buf := as_bytes (pretty pid) in
                  write_all (length buf) fd buf s
        end
    end.

(** [str::parse] of a machine word: digits, perhaps after a plus sign. *)
Definition digit (b : Z) : option Z := if (48 <=? b) && (b <=? 57) then Some (b - 48) else None.
Fixpoint parse_digits (max acc : Z) (l : bytes) : option Z :=
  match l with
  | [] => Some acc
  | b :: l =>
      match digit b with
      | Some d => if acc * 10 + d <=? max then parse_digits max (acc * 10 + d) l else None
      | None => None
      end
  end.
Definition parse_uint (max : Z) (s : string) : option Z :=
  match as_bytes s with
  | [] => None
  | 43 :: [] => None
  | 43 :: l => parse_digits max 0 l
  | l => parse_digits max 0 l
  end.

Definition read_pid_file_secure (p : path) (s : fs) : option Z :=
  if existsb has_nul p then None
  else match (open_pid p false s).1 with
  | None => None
  | Some fd =>
      match fstat fd s with
      | None => None
      | Some st =>
          if negb (kind st =? S_IFREG) then None
          else match read64 fd s with
          | None | Some [] => None
          | Some b => parse_uint u64_max (trim (of_bytes b))
          end
      end
  end.

(** ** The listener *)

Definition POSTFIX_SERVICE : string := "_service".
Definition pid_path (postfix : string) : path :=
  match rev (ipc_path postfix) with
  | name :: dir => rev dir ++ [(name +:+ ".pid")%string]
  | [] => [".pid"%string]
  end.

Definition probe_existing_listener (postfix : string) (s : fs) : bool :=
  connects (ipc_path postfix) s &&
  (negb (postfix =? POSTFIX_SERVICE)%string || answers_sync (ipc_path postfix) s).

(** The names of this process and of others, by their numbers. *)
Variable process_name : Z -> option string.
Variable own_name : option string.
Variable own_pid : N.

Definition same_program (pid : Z) : bool :=
  match process_name pid, own_name with Some name, Some current => (current =? name)%string | _, _ => false end.

(** Says whether a listener is alive; if not, the socket is removed. *)
Definition check_pid (postfix : string) : IO bool := fun s =>
  let by_pid :=
    match read_pid_file_secure (pid_path postfix) s with
    | Some pid => (0 <? pid) && same_program pid && probe_existing_listener postfix s
    | None => false
    end in
  if by_pid then (inr true, s)
  else if probe_existing_listener postfix s then (inr true, s)
  else (inr false, (remove_ipc_socket_via_secure_parent_fd postfix s).2).

Definition should_scrub_parent_entries_after_check_pid (should_scrub_parent_entries existing_listener_alive : bool) : bool :=
  should_scrub_parent_entries && negb existing_listener_alive.

Definition finish_new_listener (p : path) (postfix : string) : IO unit := fun s =>
  let '(done, s) := chmod_path p (if is_service_ipc_postfix postfix then 438 (* 0o666 *) else 384 (* 0o600 *)) s in
  if negb done then (inl PermissionsFailed, remove_file p s)
  else (inr tt, (write_pid_file (pid_path postfix) own_pid s).2).

(** [endpoint.incoming()] *)
Definition bind_io (p : path) : IO Bind := fun s => let '(b, s') := bind p s in (inr b, s').

(** One more attempt, after a socket that nobody answers on was removed. *)
Definition retry_stale_ipc_listener_bind (p : path) (postfix : string) : IO bool :=
  alive ← check_pid postfix;
  if alive : bool then mret false
  else
    scrub_secure_ipc_parent_dir p postfix;;
    bound ← bind_io p;
    match bound with Bound => mret true | _ => fail BindFailed end.

Definition new_listener (postfix : string) : IO unit :=
  let p := ipc_path postfix in
  scrub ← ensure_secure_ipc_parent_dir p postfix;
  alive ← check_pid postfix;
  (if should_scrub_parent_entries_after_check_pid scrub alive then scrub_secure_ipc_parent_dir p postfix else mret tt);;
  bound ← bind_io p;
  match bound with
  | Bound => finish_new_listener p postfix
  | AddrInUse =>
      again ← retry_stale_ipc_listener_bind p postfix;
      if again : bool then finish_new_listener p postfix else fail InUse
  | BindError => fail BindFailed
  end.
End Directory.

(** ** Lemmas *)

Section Theory.
Context `{PosixLaws}.
Variable is_service_ipc_postfix : string -> bool.
Variable ipc_path : string -> path.

Lemma io_bind_ok {A B} (f : A -> IO B) (m : IO A) s b s' : mbind f m s = (inr b, s') ->
  exists a s1, m s = (inr a, s1) /\ f a s1 = (inr b, s').
Proof. unfold mbind, IO_bind; destruct (m s) as [[e|a] s1]; [done|]; eauto. Qed.

(** The directory of a path, open, of this user and with exactly its mode. *)
Definition secured (p : path) (postfix : string) (s : fs) : Prop :=
  exists dir fd st, parent p = Some dir /\ open_dir dir s = inr fd /\ fstat fd s = Some st /\
    kind st = S_IFDIR /\ st_uid st = geteuid /\ perm st = expected_ipc_parent_mode is_service_ipc_postfix postfix.

Lemma parent_or_fail_ok p s dir s' : parent_or_fail p s = (inr dir, s') -> parent p = Some dir /\ s' = s.
Proof. unfold parent_or_fail; destruct (parent p) as [d|]; [|done]; destruct (existsb _ d); [done|]; by intros [= <- <-]. Qed.

Lemma open_dir_fd_ok dir s fd s' : open_ipc_parent_dir_fd dir s = (inr fd, s') -> open_dir dir s = inr fd /\ s' = s.
Proof. unfold open_ipc_parent_dir_fd; destruct (open_dir dir s); [done|]; by intros [= <- <-]. Qed.

Lemma open_or_make_ok dir postfix s fd s' :
  open_or_make is_service_ipc_postfix dir postfix s = (inr fd, s') -> open_dir dir s' = inr fd.
Proof.
  unfold open_or_make; destruct (open_dir dir s) as [[]|fd0] eqn:O; try done; [|by intros [= <- <-]].
  destruct (mkdir _ _ s) as [[[]|] s1]; try done; by intros [? ->]%open_dir_fd_ok.
Qed.

Lemma stat_or_fail_ok fd s st s' : stat_or_fail fd s = (inr st, s') -> fstat fd s = Some st /\ s' = s.
Proof. unfold stat_or_fail; destruct (fstat fd s); [|done]; by intros [= <- <-]. Qed.

Lemma adopt_ok fd st postfix s st' adopted s' dir :
  adopt is_service_ipc_postfix fd st postfix s = (inr (st', adopted), s') -> fstat fd s = Some st ->
  st_uid st' = geteuid ->
  fstat fd s' = Some st' /\ open_dir dir s' = open_dir dir s /\ kind st' = kind st /\
  (adopted = false -> s' = s /\ st' = st).
Proof.
  unfold adopt; destruct (negb _ && _ && _) eqn:C.
  - apply andb_true_iff in C as [[C _]%andb_true_iff _]; apply negb_true_iff, Z.eqb_neq in C.
    destruct (fchown fd geteuid s) as [[] s1] eqn:F.
    + destruct (fstat fd s1) as [st2|] eqn:St; intros [= <- <- <-] Hf Hu; [|congruence].
      split_and!; [done|by eapply fchown_keeps_names|by eapply fchown_keeps_kind|done].
    + by intros [= <- <- <-] Hf Hu.
  - by intros [= <- <- <-] Hf Hu.
Qed.

Lemma chmod_or_fail_ok fd m s u s' : chmod_or_fail fd m s = (inr u, s') -> fchmod fd m s = (true, s').
Proof. unfold chmod_or_fail; destruct (fchmod fd m s) as [[] s1]; [|done]; by intros [= _ <-]. Qed.

Lemma expected_mode_small postfix : 0 <= expected_ipc_parent_mode is_service_ipc_postfix postfix < 4096.
Proof. unfold expected_ipc_parent_mode; destruct (is_service_ipc_postfix postfix); lia. Qed.

Lemma directory_secured p postfix s scrub s' :
  ensure_secure_ipc_parent_dir is_service_ipc_postfix p postfix s = (inr scrub, s') ->
  secured p postfix s' /\
  (scrub = false -> exists dir, parent p = Some dir /\ s' = (open_or_make is_service_ipc_postfix dir postfix s).2).
Proof.
  unfold ensure_secure_ipc_parent_dir; intros (dir & s1 & [Ep ->]%parent_or_fail_ok & E)%io_bind_ok.
  apply io_bind_ok in E as (fd & s2 & Eo & E); pose proof (open_or_make_ok _ _ _ _ _ Eo) as O.
  apply io_bind_ok in E as (st & s3 & [Es ->]%stat_or_fail_ok & E).
  destruct (Z.eqb_spec (kind st) S_IFDIR) as [Ek|]; [|done]; cbn [negb] in E.
  apply io_bind_ok in E as ([st' adopted] & s4 & Ea & E).
  destruct (Z.eqb_spec (st_uid st') geteuid) as [Eu|]; [|done]; cbn [negb] in E.
  destruct (adopt_ok _ _ _ _ _ _ _ dir Ea Es Eu) as (Es' & On & Ekk & Hn); rewrite Ek in Ekk.
  apply io_bind_ok in E as ([] & s5 & Ec & E); injection E as <- <-.
  destruct (Z.eqb_spec (perm st') (expected_ipc_parent_mode is_service_ipc_postfix postfix)) as [Em|Em]; cbn [negb orb] in *.
  - injection Ec as <-; split; [exists dir, fd, st'; by rewrite On|].
    intros [-> _]%orb_false_iff; destruct (Hn eq_refl) as [-> _]; exists dir; by rewrite Eo.
  - apply chmod_or_fail_ok in Ec.
    destruct (fchmod_sets _ _ _ _ _ Ec Es' (expected_mode_small postfix)) as (st5 & E5 & Ep5 & Ek5 & Eu5).
    split; [|done]; exists dir, fd, st5; split_and!; try congruence.
    by rewrite (fchmod_keeps_names _ _ _ _ _ dir Ec), On.
Qed.

(** A socket's directory is safe or the listener is not made.  When checking
    the directory succeeds, the path leads to a directory of this user, not a link,
    with exactly the mode expected of it; and when nothing is to be removed from it
    it was so already, and nothing was changed but that a missing directory was
    made. *)
Theorem directory_is_secured p postfix s scrub s' :
  ensure_secure_ipc_parent_dir is_service_ipc_postfix p postfix s = (inr scrub, s') ->
  secured p postfix s' /\
  (scrub = false -> exists dir, parent p = Some dir /\ s' = (open_or_make is_service_ipc_postfix dir postfix s).2).
Proof. apply directory_secured. Qed.

(** Removing an entry leaves it absent, and the others as they were. *)
Lemma remove_entry_ok fd entry s u s' : remove_parent_entry_via_fd fd entry s = (inr u, s') ->
  fstatat fd entry s' = inl ENOENT.
Proof.
  unfold remove_parent_entry_via_fd; destruct (existsb _ _); [done|]; destruct (has_nul entry); [done|].
  destruct (fstatat fd entry s) as [[]|st] eqn:F; try done; [by intros [= _ <-]|].
  destruct (unlinkat _ _ _ s) as [[[]|] s1] eqn:U; try done; intros [= _ <-];
    [by eapply unlinkat_gone|by eapply unlinkat_removes].
Qed.

(** What removing entries of the directory leaves of the directory itself. *)
Definition keeps (dir : path) (s s' : fs) : Prop :=
  forall fd, open_dir dir s = inr fd -> open_dir dir s' = inr fd /\ fstat fd s' = fstat fd s.

Lemma keeps_itself dir s : keeps dir s s.
Proof. done. Qed.
Lemma keeps_transitive dir s s1 s2 : keeps dir s s1 -> keeps dir s1 s2 -> keeps dir s s2.
Proof. intros K1 K2 fd O; destruct (K1 fd O) as [O1 F1], (K2 fd O1) as [O2 F2]; split; congruence. Qed.

Lemma remove_entry_keeps dir fd entry s r s' : open_dir dir s = inr fd ->
  remove_parent_entry_via_fd fd entry s = (r, s') -> keeps dir s s'.
Proof.
  intros O; unfold remove_parent_entry_via_fd; destruct (existsb _ _); [by intros [= _ <-]|].
  destruct (has_nul entry); [by intros [= _ <-]|].
  destruct (fstatat fd entry s) as [[]|st]; try by intros [= _ <-].
  destruct (unlinkat _ _ _ s) as [e s1] eqn:U; intros E.
  assert (s' = s1) as -> by (destruct e as [[]|]; by injection E as _ <-).
  intros fd' O'; rewrite O in O'; injection O' as <-; split; [by eapply unlinkat_keeps_dir|by eapply unlinkat_keeps_stat].
Qed.

Lemma basename_differs postfix : pid_basename postfix <> ipc_basename postfix.
Proof.
  unfold pid_basename; generalize (ipc_basename postfix); intros b; induction b as [|c b IH]; [done|].
  intros E; by injection E as E%IH.
Qed.

Lemma scrub_ok p postfix s u s' dir fd : scrub_secure_ipc_parent_dir p postfix s = (inr u, s') ->
  parent p = Some dir -> open_dir dir s = inr fd ->
  keeps dir s s' /\ fstatat fd (ipc_basename postfix) s' = inl ENOENT /\ fstatat fd (pid_basename postfix) s' = inl ENOENT.
Proof.
  unfold scrub_secure_ipc_parent_dir; intros (dir' & s1 & [Ep ->]%parent_or_fail_ok & E)%io_bind_ok Ep' O.
  rewrite Ep in Ep'; injection Ep' as ->; apply io_bind_ok in E as (fd' & s2 & [O' ->]%open_dir_fd_ok & E).
  rewrite O in O'; injection O' as <-; apply io_bind_ok in E as ([] & s3 & E1 & E2).
  pose proof (remove_entry_keeps _ _ _ _ _ _ O E1) as K1; destruct (K1 fd O) as [O1 _].
  pose proof (remove_entry_keeps _ _ _ _ _ _ O1 E2) as K2; split_and!; [by eapply keeps_transitive| |by eapply remove_entry_ok].
  apply remove_entry_ok in E1; revert E2; unfold remove_parent_entry_via_fd.
  destruct (existsb _ _); [done|]; destruct (has_nul _); [done|].
  destruct (fstatat fd (pid_basename postfix) s3) as [[]|st]; try done; [by intros [= _ <-]|].
  destruct (unlinkat _ _ _ s3) as [e s4] eqn:U; intros E2.
  assert (s' = s4) as -> by (destruct e as [[]|]; by injection E2 as _ <-).
  rewrite (unlinkat_others _ _ _ _ _ _ fd (ipc_basename postfix) U); [done|]; by apply not_eq_sym, basename_differs.
Qed.

Lemma remove_socket_keeps postfix s r s' dir : remove_ipc_socket_via_secure_parent_fd ipc_path postfix s = (r, s') ->
  parent (ipc_path postfix) = Some dir -> keeps dir s s'.
Proof.
  unfold remove_ipc_socket_via_secure_parent_fd, parent_or_fail; intros E Ep; rewrite Ep in E; revert E.
  unfold mbind, IO_bind; destruct (existsb _ dir); [intros [= _ <-]; apply keeps_itself|]; cbn; unfold remove_socket_in.
  destruct (open_dir dir s) as [[]|fd] eqn:O; try (intros [= _ <-]; apply keeps_itself); by apply remove_entry_keeps.
Qed.

Lemma keeps_secured p postfix s s' dir : parent p = Some dir -> keeps dir s s' -> secured p postfix s -> secured p postfix s'.
Proof.
  intros Ep K (dir' & fd & st & Ep' & O & F & Hk & Hu & Hp); rewrite Ep in Ep'; injection Ep' as <-.
  destruct (K fd O) as [O' F']; exists dir, fd, st; split_and!; congruence.
Qed.

(** ** The pid file *)

(** More fuel changes nothing: a turn that goes on has written a byte. *)
Theorem write_all_ends extra fd buf s : write_all (length buf + extra) fd buf s = write_all (length buf) fd buf s.
Proof.
  enough (G : forall n m, (length buf <= n)%nat -> (length buf <= m)%nat -> write_all n fd buf s = write_all m fd buf s)
    by (apply G; lia).
  intros n m; revert m buf s; induction n as [|n IH]; intros m buf s Hn Hm.
  - destruct buf; [by destruct m|cbn in Hn; lia].
  - destruct buf as [|b buf]; [by destruct m|]; destruct m as [|m]; [cbn in Hm; lia|]; cbn [write_all].
    destruct (write fd (b :: buf) s) as [rc s'] eqn:W; destruct (Z.ltb_spec rc 0); [done|].
    destruct (Z.eqb_spec rc 0); [done|]; apply IH; rewrite length_drop; cbn [length] in *; lia.
Qed.

Lemma write_all_ok n fd buf s u s' : write_all n fd buf s = (inr u, s') ->
  content fd s' = content fd s ++ buf /\ fstat fd s' = fstat fd s.
Proof.
  revert buf s; induction n as [|n IH]; intros [|b buf] s; cbn [write_all]; try done;
    try (intros [= _ <-]; by rewrite app_nil_r).
  destruct (write fd (b :: buf) s) as [rc s1] eqn:W; destruct (Z.ltb_spec rc 0); [done|].
  destruct (Z.eqb_spec rc 0); [done|]; intros [Hc Hf]%IH.
  destruct (write_appends _ _ _ _ _ W) as [_ Hw]; [lia|].
  rewrite Hc, Hw, <- app_assoc, take_drop; split; [done|]; by rewrite Hf, (write_keeps_stat _ _ _ _ _ W).
Qed.

(** A pid file that was written is a plain file of this user that nobody else can
    read or change, and holds the number of the process and nothing else; a link
    or another user's file is never written to. *)
Theorem pid_file_is_ours p pid s u s' : write_pid_file p pid s = (inr u, s') ->
  exists fd st s1, open_pid p true s = (Some fd, s1) /\ fstat fd s' = Some st /\
    kind st = S_IFREG /\ st_uid st = geteuid /\ perm st = 384 /\ content fd s' = as_bytes (pretty pid).
Proof.
  unfold write_pid_file; destruct (existsb _ _); [done|].
  destruct (open_pid p true s) as [[fd|] s1] eqn:O; [|done]; destruct (fstat fd s1) as [st|] eqn:F; [|done].
  destruct (Z.eqb_spec (kind st) S_IFREG) as [Ek|]; [|done]; cbn [negb].
  destruct (Z.eqb_spec (st_uid st) geteuid) as [Eu|]; [|done]; cbn [negb].
  destruct (fchmod fd 384 s1) as [[] s2] eqn:C; [|done]; destruct (ftruncate fd s2) as [[] s3] eqn:T; [|done]; cbn [negb].
  intros [Hc Hf]%write_all_ok.
  destruct (fchmod_sets _ _ _ _ _ C F) as (st2 & E2 & Ep2 & Ek2 & Eu2); [lia|].
  exists fd, st2, s1; rewrite Hf, (ftruncate_keeps_stat _ _ _ _ T), Hc, (ftruncate_empties _ _ _ T).
  split_and!; try done; congruence.
Qed.

(** ** Listeners *)

Variable process_name : Z -> option string.
Variable own_name : option string.
Variable own_pid : N.

(** Whether a listener is alive is decided by asking it; the pid file has no say. *)
Theorem alive_means_it_answers postfix s :
  (check_pid ipc_path process_name own_name postfix s).1 = inr (probe_existing_listener ipc_path postfix s).
Proof.
  unfold check_pid; destruct (read_pid_file_secure _ s) as [pid|];
    [destruct ((0 <? pid) && same_program process_name own_name pid)|]; cbn [andb];
    by destruct (probe_existing_listener ipc_path postfix s).
Qed.

Lemma check_pid_result postfix s alive s' dir : check_pid ipc_path process_name own_name postfix s = (inr alive, s') ->
  parent (ipc_path postfix) = Some dir ->
  alive = probe_existing_listener ipc_path postfix s /\ keeps dir s s' /\ (alive = true -> s' = s).
Proof.
  intros E Ep; pose proof (alive_means_it_answers postfix s) as A; rewrite E in A; injection A as ->; split; [done|].
  revert E; unfold check_pid.
  destruct (match read_pid_file_secure _ s with Some _ => _ | None => _ end); [intros [= _ <-]; split; [apply keeps_itself|done]|].
  destruct (probe_existing_listener ipc_path postfix s); [intros [= <-]; split; [apply keeps_itself|done]|].
  intros [= <-]; split; [|done].
  destruct (remove_ipc_socket_via_secure_parent_fd ipc_path postfix s) as [r s1] eqn:R; by eapply remove_socket_keeps.
Qed.

Lemma io_bind_inr {A B} (f : A -> IO B) (m : IO A) s a s1 : m s = (inr a, s1) -> mbind f m s = f a s1.
Proof. unfold mbind, IO_bind; by intros ->. Qed.

(** C25. A listener that was made is bound in a directory that, at that moment, was
    safe; and if the directory had been found unsafe and nobody answered on the
    socket, no socket and no pid file of before were left in it. *)
Theorem listeners_are_bound_safely postfix s s' :
  new_listener is_service_ipc_postfix ipc_path process_name own_name own_pid postfix s = (inr tt, s') ->
  exists s1 s2, bind (ipc_path postfix) s1 = (Bound, s2) /\ secured (ipc_path postfix) postfix s1 /\
    forall s0, ensure_secure_ipc_parent_dir is_service_ipc_postfix (ipc_path postfix) postfix s = (inr true, s0) ->
      probe_existing_listener ipc_path postfix s0 = false ->
      exists dir fd, parent (ipc_path postfix) = Some dir /\ open_dir dir s1 = inr fd /\
        fstatat fd (ipc_basename postfix) s1 = inl ENOENT /\ fstatat fd (pid_basename postfix) s1 = inl ENOENT.
Proof.
  unfold new_listener; intros (scrub & s0 & Ee & E)%io_bind_ok.
  destruct (directory_secured _ _ _ _ _ Ee) as [Sec _]; pose proof Sec as (dir & fd & _ & Ep & O & _).
  apply io_bind_ok in E as (alive & s1 & Ea & E); destruct (check_pid_result _ _ _ _ dir Ea Ep) as (Al & K1 & _).
  apply io_bind_ok in E as ([] & s2 & Es & E); destruct (K1 fd O) as [O1 _].
  assert (K2 : keeps dir s0 s2 /\ (scrub = true -> alive = false ->
      fstatat fd (ipc_basename postfix) s2 = inl ENOENT /\ fstatat fd (pid_basename postfix) s2 = inl ENOENT)).
  { revert Es; unfold should_scrub_parent_entries_after_check_pid; destruct scrub, alive; cbn [negb andb];
      try (by intros [= <-]); intros Es.
    destruct (scrub_ok _ _ _ _ _ dir fd Es Ep O1) as (K & ? & ?); split; [by eapply keeps_transitive|done]. }
  destruct K2 as [K2 Gone]; destruct (K2 fd O) as [O2 _].
  assert (Clean : forall s3, keeps dir s2 s3 ->
      (fstatat fd (ipc_basename postfix) s2 = inl ENOENT /\ fstatat fd (pid_basename postfix) s2 = inl ENOENT ->
       fstatat fd (ipc_basename postfix) s3 = inl ENOENT /\ fstatat fd (pid_basename postfix) s3 = inl ENOENT) ->
      forall s0', (inr scrub, s0) = (inr true, s0') :> (Failure + bool) * fs -> probe_existing_listener ipc_path postfix s0' = false ->
      exists dir fd, parent (ipc_path postfix) = Some dir /\ open_dir dir s3 = inr fd /\
        fstatat fd (ipc_basename postfix) s3 = inl ENOENT /\ fstatat fd (pid_basename postfix) s3 = inl ENOENT).
  { intros s3 K3 H3 s0' [= -> <-] Hp; exists dir, fd; split; [done|]; split; [by apply K3|apply H3, Gone; congruence]. }
  apply io_bind_ok in E as (bound & s3 & Eb & E); unfold bind_io in Eb; destruct (bind _ s2) as [b s3'] eqn:B.
  injection Eb as -> <-; rewrite Ee; destruct bound; [|apply bind_in_use in B as ->|done].
  - exists s2, s3'; split; [done|]; split; [by eapply keeps_secured|by apply Clean].
  - apply io_bind_ok in E as (again & s4 & Er & E); destruct again; [|done]; unfold retry_stale_ipc_listener_bind in Er.
    apply io_bind_ok in Er as (alive' & s5 & Ea' & Er); destruct alive'; [done|].
    destruct (check_pid_result _ _ _ _ dir Ea' Ep) as (_ & K3 & _); destruct (K3 fd O2) as [O3 _].
    apply io_bind_ok in Er as ([] & s6 & Es' & Er).
    destruct (scrub_ok _ _ _ _ _ dir fd Es' Ep O3) as (K4 & G1 & G2).
    apply io_bind_ok in Er as (b & s7 & Eb & Er); unfold bind_io in Eb; destruct (bind _ s6) as [b' s7'] eqn:B'.
    injection Eb as -> <-; destruct b; try done; injection Er as <-; exists s6, s7'; split; [done|].
    assert (K : keeps dir s2 s6) by by eapply keeps_transitive.
    split; [eapply keeps_secured; [done| |done]; by eapply keeps_transitive|by apply Clean].
Qed.

(** An unsafe directory keeps what was planted in it when the planted socket
    answers: nothing is removed, and no listener is made. *)
Theorem answering_socket_is_kept postfix s scrub s1 :
  ensure_secure_ipc_parent_dir is_service_ipc_postfix (ipc_path postfix) postfix s = (inr scrub, s1) ->
  probe_existing_listener ipc_path postfix s1 = true -> bind (ipc_path postfix) s1 = (AddrInUse, s1) ->
  new_listener is_service_ipc_postfix ipc_path process_name own_name own_pid postfix s = (inl InUse, s1).
Proof.
  intros Ee Pr B; pose proof (directory_secured _ _ _ _ _ Ee) as [(dir & _ & _ & Ep & _) _].
  assert (C : check_pid ipc_path process_name own_name postfix s1 = (inr true, s1)).
  { destruct (check_pid ipc_path process_name own_name postfix s1) as [r s2] eqn:C.
    pose proof (alive_means_it_answers postfix s1) as A; rewrite C, Pr in A; cbn in A; subst r.
    by destruct (check_pid_result _ _ _ _ dir C Ep) as (_ & _ & ->). }
  unfold new_listener; rewrite (io_bind_inr _ _ _ _ _ Ee), (io_bind_inr _ _ _ _ _ C).
  unfold should_scrub_parent_entries_after_check_pid; rewrite andb_false_r.
  rewrite (io_bind_inr _ (mret tt) _ tt s1) by done.
  rewrite (io_bind_inr _ (bind_io _) _ AddrInUse s1) by (unfold bind_io; by rewrite B).
  rewrite (io_bind_inr _ _ _ false s1); [done|].
  unfold retry_stale_ipc_listener_bind; by rewrite (io_bind_inr _ _ _ _ _ C).
Qed.
End Theory.

(** ** Files in memory

    A small system for the witnesses: directories by path, what is in them by
    directory and name, with the flag of a socket that somebody answers on; a
    write takes one byte at a time.  The caller is root. *)

Record Memory := {
  dirs : gmap (list string) nat;
  stats : gmap nat Stat;
  entries : gmap (nat * string) (Z * bool);
  pids : gmap (list string) nat;
  texts : gmap nat (list Z);
}.
Definition with_stat (m : Memory) (i : nat) (st : Stat) : Memory :=
  {| dirs := dirs m; stats := <[i := st]> (stats m); entries := entries m; pids := pids m; texts := texts m |}.
Definition with_entries (m : Memory) (es : gmap (nat * string) (Z * bool)) : Memory :=
  {| dirs := dirs m; stats := stats m; entries := es; pids := pids m; texts := texts m |}.
Definition with_text (m : Memory) (i : nat) (t : list Z) : Memory :=
  {| dirs := dirs m; stats := stats m; entries := entries m; pids := pids m; texts := <[i := t]> (texts m) |}.
Definition split_path (p : path) : list string * string := (removelast p, List.last p ""%string).
Definition entry_of (m : Memory) (p : path) : option (nat * string) :=
  (fun d => (d, (split_path p).2)) <$> (dirs m !! (split_path p).1).

#[local] Instance memory_posix : Posix := {|
  fs := Memory;
  ino := nat;
  geteuid := 0;
  open_dir p m := match dirs m !! p with Some i => inr i | None => inl ENOENT end;
  mkdir p mode m :=
    (None, {| dirs := <[p := size (dirs m)]> (dirs m);
              stats := <[size (dirs m) := {| st_mode := S_IFDIR + mode; st_uid := 0 |}]> (stats m);
              entries := entries m; pids := pids m; texts := texts m |});
  fstat i m := stats m !! i;
  fchown i u m := match stats m !! i with
                  | Some st => (true, with_stat m i {| st_mode := st_mode st; st_uid := u |})
                  | None => (false, m) end;
  fchmod i mode m := match stats m !! i with
                     | Some st => (true, with_stat m i {| st_mode := Z.lor (kind st) (Z.land mode 4095); st_uid := st_uid st |})
                     | None => (false, m) end;
  fstatat i n m := match entries m !! (i, n) with Some (mode, _) => inr {| st_mode := mode; st_uid := 0 |} | None => inl ENOENT end;
  unlinkat i n _ m := (None, with_entries m (delete (i, n) (entries m)));
  open_pid p create m :=
    match pids m !! p with
    | Some i => (Some i, m)
    | None =>
        if create then
          (Some 100%nat, {| dirs := dirs m; stats := <[100%nat := {| st_mode := S_IFREG + 384; st_uid := 0 |}]> (stats m);
                            entries := entries m; pids := <[p := 100%nat]> (pids m); texts := texts m |})
        else (None, m)
    end;
  ftruncate i m := (true, with_text m i []);
  write i b m := match b with
                 | x :: _ => (1, with_text m i (default [] (texts m !! i) ++ [x]))
                 | [] => (0, m) end;
  read64 i m := take 64 <$> (texts m !! i);
  content i m := default [] (texts m !! i);
  bind p m := match entry_of m p with
              | Some e => match entries m !! e with
                          | Some _ => (AddrInUse, m)
                          | None => (Bound, with_entries m (<[e := (49152 + 493, true)]> (entries m)))
                          end
              | None => (BindError, m) end;
  chmod_path p mode m := (true, m);
  remove_file p m := m;
  connects p m := match entry_of m p with
                  | Some e => match entries m !! e with Some (_, live) => live | None => false end
                  | None => false end;
  answers_sync p m := true;
|}.

Lemma land_kind k m : Z.land (Z.lor (Z.land k S_IFMT) (Z.land m 4095)) S_IFMT = Z.land k S_IFMT.
Proof.
  rewrite Z.land_lor_distr_l, <- !Z.land_assoc; change (Z.land S_IFMT S_IFMT) with S_IFMT.
  change (Z.land 4095 S_IFMT) with 0; by rewrite Z.land_0_r, Z.lor_0_r.
Qed.
Lemma land_perm k m : 0 <= m < 4096 -> Z.land (Z.lor (Z.land k S_IFMT) (Z.land m 4095)) 4095 = m.
Proof.
  intros Hm; rewrite Z.land_lor_distr_l, <- !Z.land_assoc; change (Z.land S_IFMT 4095) with 0.
  change (Z.land 4095 4095) with (Z.ones 12); rewrite Z.land_0_r, Z.lor_0_l, Z.land_ones by lia; apply Z.mod_small; lia.
Qed.

#[local] Instance memory_posix_laws : @PosixLaws memory_posix.
Proof.
  split; cbn.
  - intros i m s s' st E Hs Hm; rewrite Hs in E; injection E as <-; cbn; rewrite lookup_insert_eq.
    eexists; split_and!; [done|by apply land_perm|apply land_kind|done].
  - intros i m s b s' p; destruct (stats s !! i); by intros [= _ <-].
  - intros i u s b s' st st' E Hs Hs'; rewrite Hs in E; injection E as _ <-; cbn in Hs'; rewrite lookup_insert_eq in Hs'.
    by injection Hs' as <-.
  - intros i u s b s' p; destruct (stats s !! i); by intros [= _ <-].
  - intros i n d s s' [= <-]; cbn; by rewrite lookup_delete_eq.
  - done.
  - intros i n d s e s' i' n' [= _ <-] Hn; cbn; by rewrite lookup_delete_ne by congruence.
  - by intros i n d s e s' p Ho [= _ <-].
  - by intros i n d s e s' [= _ <-].
  - intros i s s' [= <-]; cbn; by rewrite lookup_insert_eq.
  - by intros i s b s' [= _ <-].
  - intros i b s n s'; destruct b as [|x b]; intros [= <- <-] Hn; [lia|]; cbn; rewrite lookup_insert_eq; split; [lia|done].
  - intros i b s n s'; destruct b as [|x b]; by intros [= _ <-].
  - intros p s s'; destruct (entry_of s p) as [e|]; [|done]; destruct (entries s !! e); [|done]; by intros [= <-].
Qed.

(** The service of root.  A user made its directory first and put a socket there,
    [live] if somebody answers on it. *)
Definition service_only (postfix : string) : bool := (postfix =? POSTFIX_SERVICE)%string.
Definition service_path (postfix : string) : path := ["tmp"; "app-service"; ipc_basename postfix]%string.
Definition planted (live : bool) : Memory :=
  {| dirs := {[ ["tmp"; "app-service"]%string := 7%nat ]};
     stats := {[ 7%nat := {| st_mode := S_IFDIR + 511; st_uid := 1000 |} ]};
     entries := {[ (7%nat, ipc_basename POSTFIX_SERVICE) := (49663, live) ]};
     pids := ∅; texts := ∅ |}.
Definition start_service (m : Memory) : (Failure + unit) * Memory :=
  @new_listener memory_posix service_only service_path (fun _ => None) None 42 POSTFIX_SERVICE m.

Theorem directory_is_secured_witness :
  @secured memory_posix service_only (service_path POSTFIX_SERVICE) POSTFIX_SERVICE
    (@ensure_secure_ipc_parent_dir memory_posix service_only (service_path POSTFIX_SERVICE) POSTFIX_SERVICE (planted false)).2.
Proof.
  apply (@directory_is_secured memory_posix memory_posix_laws service_only (service_path POSTFIX_SERVICE) POSTFIX_SERVICE
           (planted false) true); vm_compute; reflexivity.
Defined.

Theorem pid_file_is_ours_witness : exists fd st s1,
  @open_pid memory_posix ["run"; "x.pid"]%string true (planted false) = (Some fd, s1) /\
  @fstat memory_posix fd (@write_pid_file memory_posix ["run"; "x.pid"]%string 42 (planted false)).2 = Some st /\
  kind st = S_IFREG /\ st_uid st = @geteuid memory_posix /\ perm st = 384 /\
  @content memory_posix fd (@write_pid_file memory_posix ["run"; "x.pid"]%string 42 (planted false)).2 = as_bytes (pretty 42%N).
Proof.
  apply (@pid_file_is_ours memory_posix memory_posix_laws ["run"; "x.pid"]%string 42 (planted false) tt); vm_compute; reflexivity.
Defined.

Theorem listeners_are_bound_safely_witness : exists s1 s2,
  @bind memory_posix (service_path POSTFIX_SERVICE) s1 = (Bound, s2) /\
  @secured memory_posix service_only (service_path POSTFIX_SERVICE) POSTFIX_SERVICE s1 /\
  forall s0, @ensure_secure_ipc_parent_dir memory_posix service_only (service_path POSTFIX_SERVICE) POSTFIX_SERVICE (planted false) =
      (inr true, s0) ->
    @probe_existing_listener memory_posix service_path POSTFIX_SERVICE s0 = false ->
    exists dir fd, parent (service_path POSTFIX_SERVICE) = Some dir /\ @open_dir memory_posix dir s1 = inr fd /\
      @fstatat memory_posix fd (ipc_basename POSTFIX_SERVICE) s1 = inl ENOENT /\
      @fstatat memory_posix fd (pid_basename POSTFIX_SERVICE) s1 = inl ENOENT.
Proof.
  apply (@listeners_are_bound_safely memory_posix memory_posix_laws service_only service_path (fun _ => None) None 42
           POSTFIX_SERVICE (planted false) (start_service (planted false)).2); vm_compute; reflexivity.
Defined.

(** The comment on hardening says that what lies in a directory that was not safe
    is removed.  A user who answers on the socket he planted keeps it: root takes
    the directory over, the socket stays, and the service does not start. *)
Theorem planted_socket_bars_the_service :
  (start_service (planted false)).1 = inr tt /\
  (start_service (planted true)).1 = inl InUse /\
  @secured memory_posix service_only (service_path POSTFIX_SERVICE) POSTFIX_SERVICE (start_service (planted true)).2 /\
  @probe_existing_listener memory_posix service_path POSTFIX_SERVICE (start_service (planted true)).2 = true.
Proof.
  split; [vm_compute; reflexivity|]; split; [vm_compute; reflexivity|]; split; [|vm_compute; reflexivity].
  exists ["tmp"; "app-service"]%string, 7%nat, {| st_mode := S_IFDIR + 457; st_uid := 0 |}.
  split_and!; vm_compute; reflexivity.
Qed.
