(* ===== verification/LocalSockets.v ===== *)
(** * Local sockets: who may connect and what is served

    Models src/src/ipc/auth.rs and the parts of src/src/ipc.rs, src/src/ipc/fs.rs
    and src/src/server/uinput.rs that decide about a connection, in a Linux build:
    the authorization of peers, the loops that serve them, the choice of a server
    by its user, and the limit on what is logged.  Of the Windows build, the rules
    for sessions and the one-time token.  What the system says of a process is the
    class [Processes]. *)

From S2P Require Import Prelude ClipboardTypes Fingerprint SessionPermissions SocketDirectory.
From Stdlib Require Ascii String.
#[local] Open Scope list_scope.
#[local] Open Scope Z_scope.

(** ** Peers *)

(** The credentials the kernel gives for a peer: its user and, if it has one, its
    process. *)
Record Peer := { cred : option (Z * Z) }.
Definition peer_uid_from_fd (p : Peer) : option Z := fst <$> cred p.
Definition peer_pid_from_fd (p : Peer) : option Z :=
  match cred p with Some (_, pid) => if 0 <? pid then Some pid else None | None => None end.

Class Processes := {
  peer_exe_canonical_path_by_pid : Z -> option (list string);
  current_exe_canonical_path : option (list string);
  get_active_userid : string;
  is_service_ipc_postfix : string -> bool;
}.

Definition is_allowed_service_peer_uid (peer_uid : Z) (active_uid : option Z) : bool :=
  (peer_uid =? 0) || is_some_and active_uid (fun uid => uid =? peer_uid).

Section Authorization.
Context `{Processes}.

Definition active_uid_strict : option Z := parse_uint 4294967295 (trim get_active_userid).
Definition active_uid : option Z := active_uid_strict.

Definition executable_paths_match (l r : list string) : bool := bool_decide (l = r).

Definition ensure_peer_executable_matches_current_by_pid (peer_pid : Z) : bool :=
  match peer_exe_canonical_path_by_pid peer_pid, current_exe_canonical_path with
  | Some peer_exe, Some current_exe => executable_paths_match peer_exe current_exe
  | _, _ => false
  end.
Definition ensure_peer_executable_matches_current_by_pid_opt (peer_pid : option Z) : bool :=
  match peer_pid with Some pid => ensure_peer_executable_matches_current_by_pid pid | None => false end.
Definition ensure_peer_executable_matches_current_by_fd (p : Peer) : bool :=
  match peer_pid_from_fd p with Some pid => ensure_peer_executable_matches_current_by_pid pid | None => false end.

Definition service_authorization_status (p : Peer) : bool * option Z * option Z :=
  let peer_uid := peer_uid_from_fd p in
  (is_some_and peer_uid (fun uid => is_allowed_service_peer_uid uid active_uid), peer_uid, active_uid).

(** Both give also whether a rejection is to be logged with the limit. *)
Definition authorize_service_scoped_ipc_connection (p : Peer) : bool * bool :=
  let '(authorized, _, _) := service_authorization_status p in
  if negb authorized then (false, true)
  else if negb (ensure_peer_executable_matches_current_by_pid_opt (peer_pid_from_fd p)) then (false, false)
  else (true, false).
Definition authorize_uinput_peer (postfix : string) (p : Peer) : bool * bool :=
  if negb (is_service_ipc_postfix postfix) then (true, false)
  else
    let authorized := is_some_and (peer_uid_from_fd p) (fun uid => is_allowed_service_peer_uid uid active_uid) in
    if negb authorized then (false, true)
    else if negb (ensure_peer_executable_matches_current_by_fd p) then (false, false)
    else (true, false).

(** ** The serving loops *)

Section Serving.
Context {Data : Type}.
(** Whether a message is [Data::SyncConfig]. *)
Variable is_sync_config : Data -> bool.

Definition service_channel_accepts_data (data : Data) : bool := is_sync_config data.

(** What one wait on a connection brings: an error, a message, or nothing that
    could be read as one. *)
Inductive Received := Closed | Message (data : Data) | Unreadable.

(** The loop of one connection: the messages that are handled, up to the end of
    the connection. *)
Fixpoint serve (postfix : string) (events : list Received) : list Data :=
  match events with
  | [] | Closed :: _ => []
  | Message data :: events =>
      if (postfix =? POSTFIX_SERVICE)%string then
        if service_channel_accepts_data data then data :: serve postfix events else []
      else data :: serve postfix events
  | Unreadable :: events => if (postfix =? POSTFIX_SERVICE)%string then [] else serve postfix events
  end.

(** [start] over the connections that come in; each is served on its own. *)
Definition start (postfix : string) (connections : list (Peer * list Received)) : list (Peer * Data) :=
  concat ((fun '(p, events) =>
    if is_service_ipc_postfix postfix && negb (authorize_service_scoped_ipc_connection p).1 then []
    else (fun d => (p, d)) <$> serve postfix events) <$> connections).

(** The peers the uinput service hands to its handler. *)
Definition start_uinput (postfix : string) (connections : list Peer) : list Peer :=
  filter (fun p => (authorize_uinput_peer postfix p).1) connections.
End Serving.
Arguments Received : clear implicits.
End Authorization.

(** ** The limit on the log of rejections *)

Definition UNAUTHORIZED_IPC_LOG_INTERVAL : duration := from_secs 5.
Record UnauthorizedIpcLogThrottle := { last_log_at : option instant; suppressed : Z }.
Definition UnauthorizedIpcLogThrottle_default : UnauthorizedIpcLogThrottle := {| last_log_at := None; suppressed := 0 |}.

Definition on_reject (now : instant) (t : UnauthorizedIpcLogThrottle) : UnauthorizedIpcLogThrottle * option Z :=
  if is_some_and (last_log_at t) (fun last => since now last <? UNAUTHORIZED_IPC_LOG_INTERVAL)
  then ({| last_log_at := last_log_at t; suppressed := suppressed t + 1 |}, None)
  else ({| last_log_at := Some now; suppressed := 0 |}, Some (suppressed t)).

(** ** Which server to talk to *)

Inductive ServerUid := Uid (uid : Z) | NoServer | ManyServers.

Definition select_server_uid_for_user_main_ipc (server_uids : list Z) (active_uid : option Z) (prefer_root : bool) :
    ServerUid :=
  let server_uids := sort_dedup Z.le server_uids in
  match server_uids with
  | [] => match active_uid with Some uid => Uid uid | None => NoServer end
  | [uid] => Uid uid
  | _ =>
      if prefer_root && bool_decide (0 ∈ server_uids) then Uid 0
      else match active_uid with
      | Some uid => if bool_decide (uid ∈ server_uids) then Uid uid else ManyServers
      | None => ManyServers
      end
  end.

(** What is seen of a running process; a root command looks for the servers of
    its own program. *)
Record Process := { process_pid : Z; cmd : list string; exe : option (list string); user_id : option Z }.
Fixpoint running_server_uids (current_exe_path : list string) (current_pid : Z) (processes : list Process) :
    option (list Z) :=
  match processes with
  | [] => Some []
  | process :: processes =>
      if (process_pid process =? current_pid) || bool_decide (cmd process !! 1%nat <> Some "--server"%string) ||
         bool_decide (exe process <> Some current_exe_path)
      then running_server_uids current_exe_path current_pid processes
      else match user_id process with
      | Some uid => cons uid <$> running_server_uids current_exe_path current_pid processes
      | None => None
      end
  end.
Definition user_main_ipc_server_uid (current_exe_path : list string) (current_pid : Z) (processes : list Process)
    (active_uid : option Z) (is_login_screen_wayland : bool) : option ServerUid :=
  server_uids ← running_server_uids current_exe_path current_pid processes;
  Some (select_server_uid_for_user_main_ipc server_uids active_uid is_login_screen_wayland).

(** [connect]: whose socket is tried. *)
Inductive Endpoint := Own | OfUser (uid : Z) | NoEndpoint.
Definition connect_endpoint (euid : Z) (postfix : string) (use_user_main_ipc : bool) (server : option ServerUid) : Endpoint :=
  if (euid =? 0) && (postfix =? "")%string && use_user_main_ipc then
    match server with Some (Uid uid) => OfUser uid | _ => NoEndpoint end
  else Own.

Definition terminal_count_candidate_uids (active_uid : option Z) (effective_uid : Z) : list Z :=
  if negb (effective_uid =? 0) then [effective_uid]
  else match active_uid with Some uid => if negb (uid =? 0) then [uid; 0] else [0] | None => [0] end.

(** [ask] is connecting to a user's socket, asking and being answered. *)
Fixpoint first_answer (ask : Z -> option Z) (candidates : list Z) (failed : bool) : option Z :=
  match candidates with
  | [] => if failed then None else Some 0
  | uid :: rest => match ask uid with Some count => Some count | None => first_answer ask rest true end
  end.
Definition get_terminal_session_count (ask : Z -> option Z) (active_uid : option Z) (effective_uid : Z) : option Z :=
  first_answer ask (terminal_count_candidate_uids active_uid effective_uid) false.

(** ** Windows *)

Definition is_allowed_windows_session_scoped_peer (client_is_system : bool) (client_session_id expected_session_id : option Z) : bool :=
  client_is_system ||
  match client_session_id, expected_session_id with Some client, Some expected => client =? expected | _, _ => false end.
Definition is_allowed_windows_portable_service_peer (client_is_system : option bool)
    (client_session_id expected_session_id : option Z) : bool :=
  bool_decide (client_is_system = Some true) ||
  match client_is_system, client_session_id, expected_session_id with
  | Some false, Some client, Some expected => client =? expected
  | _, _, _ => false
  end.
Definition should_allow_everyone_create_on_windows (is_service : string -> bool) (postfix : string) : bool :=
  (postfix =? "")%string || is_service postfix.

(** What is known of a peer of a pipe. *)
Record PipePeer := { pipe_pid : option Z; session_of : option Z; runs_as_system : option bool; same_executable : bool }.
Definition authorize_windows_main_ipc_connection (server_session_id : option Z) (p : PipePeer) : bool :=
  is_allowed_windows_session_scoped_peer (unwrap_or (runs_as_system p) false) (session_of p) server_session_id &&
  is_some (pipe_pid p) && same_executable p.
(** The executable has no say when the identity of the peer is not to be had. *)
Definition authorize_windows_portable_service_ipc_connection (expected_session_id : option Z) (p : PipePeer) : bool :=
  if negb (is_allowed_windows_portable_service_peer (runs_as_system p) (session_of p) expected_session_id)
  then is_some (pipe_pid p) && is_none (runs_as_system p)
  else is_some (pipe_pid p) && same_executable p.

Definition IPC_TOKEN_LEN : nat := 64.
Definition IPC_TOKEN_RANDOM_BYTES : nat := IPC_TOKEN_LEN / 2.
Definition generate_one_time_ipc_token (random_bytes : bytes) : string := of_bytes (flat_map hex_byte random_bytes).
Definition constant_time_ipc_token_eq (expected candidate : string) : bool :=
  if negb (String.length expected =? IPC_TOKEN_LEN)%nat || negb (String.length candidate =? IPC_TOKEN_LEN)%nat then false
  else foldl (fun acc '(a, b) => Z.lor acc (Z.lxor a b)) 0 (zip (as_bytes expected) (as_bytes candidate)) =? 0.

(** ** Who is served *)

Section ServingTheory.
Context `{Processes} {Data : Type} (is_sync_config : Data -> bool).

(** A process of root or of the active user that runs our own executable. *)
Definition trusted (p : Peer) : Prop :=
  exists uid pid exe, cred p = Some (uid, pid) /\ 0 < pid /\ (uid = 0 \/ active_uid = Some uid) /\
    peer_exe_canonical_path_by_pid pid = Some exe /\ current_exe_canonical_path = Some exe.

Lemma executable_checked pid :
  ensure_peer_executable_matches_current_by_pid pid = true <->
  exists exe, peer_exe_canonical_path_by_pid pid = Some exe /\ current_exe_canonical_path = Some exe.
Proof.
  unfold ensure_peer_executable_matches_current_by_pid, executable_paths_match.
  destruct (peer_exe_canonical_path_by_pid pid), current_exe_canonical_path; rewrite ?bool_decide_eq_true; naive_solver.
Qed.

Lemma uid_allowed uid :
  is_allowed_service_peer_uid uid active_uid = true <-> uid = 0 \/ active_uid = Some uid.
Proof.
  unfold is_allowed_service_peer_uid; rewrite orb_true_iff, Z.eqb_eq.
  destruct active_uid as [a|]; cbn; rewrite ?Z.eqb_eq; naive_solver.
Qed.

(** The two authorizers agree on the protected channels. *)
Lemma uinput_authorizer_agrees postfix p : is_service_ipc_postfix postfix = true ->
  authorize_uinput_peer postfix p = authorize_service_scoped_ipc_connection p.
Proof.
  intros Hp; unfold authorize_uinput_peer, authorize_service_scoped_ipc_connection, service_authorization_status,
    ensure_peer_executable_matches_current_by_fd, ensure_peer_executable_matches_current_by_pid_opt; by rewrite Hp.
Qed.

Lemma authorized_iff_trusted p : (authorize_service_scoped_ipc_connection p).1 = true <-> trusted p.
Proof.
  unfold authorize_service_scoped_ipc_connection, service_authorization_status, trusted, peer_uid_from_fd, peer_pid_from_fd.
  destruct (cred p) as [[uid pid]|]; cbn; [|naive_solver].
  destruct (is_allowed_service_peer_uid uid active_uid) eqn:Hu; cbn.
  - apply uid_allowed in Hu; destruct (Z.ltb_spec 0 pid) as [Hpid|Hpid]; cbn; [|naive_solver lia].
    destruct (ensure_peer_executable_matches_current_by_pid pid) eqn:He; cbn.
    + apply executable_checked in He as (exe & Hx & Hc); naive_solver.
    + split; [done|]; intros (uid' & pid' & exe & [= <- <-] & _ & _ & Hx).
      enough (ensure_peer_executable_matches_current_by_pid pid = true) by congruence; apply executable_checked; eauto.
  - split; [done|]; intros (uid' & pid' & exe & [= <- <-] & _ & Hu' & _); apply uid_allowed in Hu'; congruence.
Qed.

(** A connection of the service channel is served up to the first thing that is
    not a request to synchronize. *)
Lemma service_channel_serves d events :
  d ∈ serve is_sync_config POSTFIX_SERVICE events <->
  is_sync_config d = true /\ exists before after,
    events = (Message <$> before) ++ Message d :: after /\ Forall (fun b => is_sync_config b = true) before.
Proof.
  split.
  - revert d; induction events as [|[|b|] events IH]; cbn; intros d; rewrite ?elem_of_nil; try done.
    unfold service_channel_accepts_data; destruct (is_sync_config b) eqn:Hb; [|by rewrite elem_of_nil].
    rewrite elem_of_cons; intros [-> | Hd]; [split; [done|exists [], events; split; [done|constructor]]|].
    destruct (IH _ Hd) as (Hs & before & after & -> & Hf); split; [done|].
    exists (b :: before), after; split; [done|by constructor].
  - intros (Hd & before & after & -> & Hf); induction Hf as [|b before Hb Hf IH]; cbn; unfold service_channel_accepts_data.
    + rewrite Hd; apply elem_of_cons; by left.
    + rewrite Hb; apply elem_of_cons; by right.
Qed.

(** C26. On the channel of the service, a message is handled exactly when the process
    that sent it is trusted, it is a request to synchronize the options, and so is
    everything that came before it on its connection. *)
Theorem service_serves_only_trusted_sync connections p d : is_service_ipc_postfix POSTFIX_SERVICE = true ->
  (p, d) ∈ start is_sync_config POSTFIX_SERVICE connections <->
  trusted p /\ is_sync_config d = true /\ exists before after,
    (p, (Message <$> before) ++ Message d :: after) ∈ connections /\ Forall (fun b => is_sync_config b = true) before.
Proof.
  intros Hservice; unfold start; rewrite list_elem_of_In, in_concat; split.
  - intros (l & Hl & Hd); rewrite <- list_elem_of_In in Hl; rewrite <- list_elem_of_In in Hd; apply list_elem_of_fmap in Hl as ([q events] & -> & Hq).
    rewrite Hservice in Hd; destruct ((authorize_service_scoped_ipc_connection q).1) eqn:Ha; cbn in Hd; [|by apply elem_of_nil in Hd].
    apply authorized_iff_trusted in Ha; apply list_elem_of_fmap in Hd as (d' & [= -> ->] & Hd).
    apply service_channel_serves in Hd as (Hs & before & after & -> & Hf); eauto 10.
  - intros (Ht & Hs & before & after & Hc & Hf); eexists; split; apply list_elem_of_In.
    + apply list_elem_of_fmap; eexists; split; [reflexivity|exact Hc].
    + apply authorized_iff_trusted in Ht; cbn beta iota; rewrite Hservice, Ht; cbn [negb andb].
      apply list_elem_of_fmap; exists d; split; [done|]; apply service_channel_serves; eauto 10.
Qed.
End ServingTheory.

(** ** The limit on the log *)

Fixpoint reject_all (times : list instant) (t : UnauthorizedIpcLogThrottle) : list (instant * Z) * UnauthorizedIpcLogThrottle :=
  match times with
  | [] => ([], t)
  | now :: times =>
      let '(t, logged) := on_reject now t in
      let '(logs, t) := reject_all times t in
      (match logged with Some n => (now, n) :: logs | None => logs end, t)
  end.

Definition apart (a b : instant) : Prop := a + UNAUTHORIZED_IPC_LOG_INTERVAL <= b.

Lemma reject_all_counts times t :
  foldr (fun '(_, n) sum => 1 + n + sum) (suppressed (reject_all times t).2) (reject_all times t).1 =
  suppressed t + Z.of_nat (length times).
Proof.
  revert t; induction times as [|now times IH]; intros t; cbn [reject_all length]; [cbn; lia|].
  unfold on_reject; destruct (is_some_and _ _);
    [specialize (IH {| last_log_at := last_log_at t; suppressed := suppressed t + 1 |})
    |specialize (IH {| last_log_at := Some now; suppressed := 0 |})];
    destruct (reject_all times _) as [logs t']; cbn in *; lia.
Qed.

Lemma reject_all_apart times t :
  Sorted apart (match last_log_at t with Some last => last :: (reject_all times t).1.*1 | None => (reject_all times t).1.*1 end).
Proof.
  revert t; induction times as [|now times IH]; intros t; cbn [reject_all]; [destruct (last_log_at t); repeat constructor|].
  unfold on_reject; destruct (is_some_and _ _) eqn:Hl.
  - specialize (IH {| last_log_at := last_log_at t; suppressed := suppressed t + 1 |}).
    by destruct (reject_all times _) as [logs t'].
  - specialize (IH {| last_log_at := Some now; suppressed := 0 |}).
    destruct (reject_all times _) as [logs t']; cbn in *; destruct (last_log_at t) as [l|]; [|done].
    constructor; [done|]; constructor; cbn in Hl; apply Z.ltb_ge in Hl; unfold apart, since in *.
    unfold UNAUTHORIZED_IPC_LOG_INTERVAL, from_secs in *; lia.
Qed.

(** The log tells of every rejection, itself or in the count of a later entry, and
    two entries are at least the interval apart, however the clock is read. *)
Theorem rejections_are_counted times :
  let '(logs, t) := reject_all times UnauthorizedIpcLogThrottle_default in
  foldr (fun '(_, n) sum => 1 + n + sum) 0 logs + suppressed t = Z.of_nat (length times) /\
  StronglySorted apart (logs.*1).
Proof.
  pose proof (reject_all_counts times UnauthorizedIpcLogThrottle_default) as C.
  pose proof (reject_all_apart times UnauthorizedIpcLogThrottle_default) as S.
  destruct (reject_all times _) as [logs t]; cbn in *; split.
  - clear S; revert C; generalize (Z.of_nat (length times)) as k; induction logs as [|[i n] logs IH]; cbn; intros k C; [lia|].
    specialize (IH (k - 1 - n) ltac:(lia)); lia.
  - apply Sorted_StronglySorted; [|done]; intros a b c; unfold apart, UNAUTHORIZED_IPC_LOG_INTERVAL, from_secs; lia.
Qed.

(** ** The choice of a server *)

Section Choice.
Variables (server_uids : list Z) (active_uid : option Z) (prefer_root : bool).
#[local] Notation chosen := (select_server_uid_for_user_main_ipc server_uids active_uid prefer_root).

(** Root is preferred and there. *)
Definition root_wins : Prop := prefer_root = true /\ 0 ∈ server_uids.

(** The user whose server is asked: the one user who runs servers, or the active
    user if none does; of several, root where it is preferred, else the active user
    if he is one of them. *)
Definition asked_user (uid : Z) : Prop :=
  (server_uids = [] /\ active_uid = Some uid) \/
  (uid ∈ server_uids /\ forall other, other ∈ server_uids -> other = uid) \/
  (uid ∈ server_uids /\ root_wins /\ uid = 0) \/
  (uid ∈ server_uids /\ ~ root_wins /\ active_uid = Some uid).

Lemma sort_dedup_nil : sort_dedup Z.le server_uids = [] <-> server_uids = [].
Proof.
  split; [|by intros ->]; intros E; destruct server_uids as [|u l]; [done|].
  assert (H : u ∈ sort_dedup Z.le (u :: l)) by (apply (sort_dedup_elem_of Z.le); left); rewrite E in H; by apply elem_of_nil in H.
Qed.
Lemma sort_dedup_one uid : sort_dedup Z.le server_uids = [uid] ->
  uid ∈ server_uids /\ forall other, other ∈ server_uids -> other = uid.
Proof.
  intros E; split; [|intros other Ho; apply (sort_dedup_elem_of Z.le) in Ho; rewrite E in Ho; by apply list_elem_of_singleton in Ho].
  apply (sort_dedup_elem_of Z.le); rewrite E; left.
Qed.
Lemma sort_dedup_two a b l : sort_dedup Z.le server_uids = a :: b :: l ->
  a ∈ server_uids /\ b ∈ server_uids /\ a <> b.
Proof.
  intros E; split_and!; [apply (sort_dedup_elem_of Z.le); rewrite E; left|apply (sort_dedup_elem_of Z.le); rewrite E; right; left|].
  pose proof (sort_dedup_strict Z.le server_uids) as S; rewrite E in S; apply StronglySorted_inv in S as [_ H].
  apply Forall_inv in H as [_ ?]; done.
Qed.

(** The choice follows the rule; there is no server only if no user is known, and
    the choice is refused only where the rule gives no user. *)
Theorem server_choice_exact :
  (forall uid, chosen = Uid uid <-> asked_user uid) /\
  (chosen = NoServer <-> server_uids = [] /\ active_uid = None).
Proof.
  unfold select_server_uid_for_user_main_ipc, asked_user, root_wins.
  pose proof sort_dedup_nil as Hnil; pose proof sort_dedup_one as Hone; pose proof sort_dedup_two as Htwo.
  assert (Hin : forall x, x ∈ sort_dedup Z.le server_uids <-> x ∈ server_uids) by exact (sort_dedup_elem_of Z.le server_uids).
  destruct (sort_dedup Z.le server_uids) as [|a [|b l]] eqn:E.
  - assert (server_uids = []) as -> by by apply Hnil.
    destruct active_uid; (split; [intros uid|]); rewrite ?elem_of_nil; naive_solver.
  - destruct (Hone a eq_refl) as [Ha Hall]; assert (server_uids <> []) by (intros ->; by apply elem_of_nil in Ha).
    split; [|naive_solver]; intros uid; split; [intros [= <-]; naive_solver|]; naive_solver.
  - destruct (Htwo a b l eq_refl) as (Ha & Hb & Hab); clear Hnil Hone Htwo.
    assert (server_uids <> []) by (intros ->; by apply elem_of_nil in Ha).
    rewrite (bool_decide_ext _ _ (Hin 0)); destruct active_uid as [au|]; rewrite ?(bool_decide_ext _ _ (Hin au));
      assert (Hmany : forall u, ~ (forall other, other ∈ server_uids -> other = u))
        by (intros u Hu; apply Hab; by rewrite (Hu a Ha), (Hu b Hb)); clear E Hin Ha Hb Hab;
      destruct prefer_root; cbn [andb]; repeat case_bool_decide; (split; [intros uid; split|]); naive_solver.
Qed.
End Choice.

(** A command asks the servers of its own program: each is one, and none of
    another program or of the process itself counts. *)
Theorem servers_are_ours current_exe_path current_pid processes uids uid :
  running_server_uids current_exe_path current_pid processes = Some uids ->
  uid ∈ uids <-> exists process, process ∈ processes /\ process_pid process <> current_pid /\
    cmd process !! 1%nat = Some "--server"%string /\ exe process = Some current_exe_path /\ user_id process = Some uid.
Proof.
  revert uids; induction processes as [|q processes IH]; cbn; intros uids; [intros [= <-]; set_solver|].
  destruct ((process_pid q =? current_pid) || _ || _) eqn:Hskip.
  - intros E; rewrite (IH _ E); apply orb_true_iff in Hskip as [[Hp | Hp]%orb_true_iff | Hp];
      [apply Z.eqb_eq in Hp|apply bool_decide_eq_true in Hp..]; setoid_rewrite elem_of_cons; naive_solver.
  - apply orb_false_iff in Hskip as [[Hp Hc]%orb_false_iff Hx]; apply Z.eqb_neq in Hp.
    apply bool_decide_eq_false, dec_stable in Hc; apply bool_decide_eq_false, dec_stable in Hx.
    destruct (user_id q) as [u|] eqn:Hu; [|done]; destruct (running_server_uids _ _ processes) as [l|] eqn:E; [|done].
    intros [= <-]; rewrite elem_of_cons, (IH l eq_refl); setoid_rewrite elem_of_cons; naive_solver.
Qed.

Lemma first_answer_spec ask candidates failed n : candidates <> [] \/ failed = true ->
  first_answer ask candidates failed = Some n <->
  exists before uid after, candidates = before ++ uid :: after /\ Forall (fun u => ask u = None) before /\ ask uid = Some n.
Proof.
  revert failed; induction candidates as [|u rest IH]; cbn; intros failed Hf.
  - destruct Hf as [? | ->]; [done|]; split; [done|]; intros (before & ? & ? & E & _); by destruct before.
  - destruct (ask u) as [k|] eqn:Hu.
    + split; [intros [= ->]; exists [], u, rest; split_and!; [done|constructor|done]|].
      intros ([|v before] & uid & after & [= <- ->] & Hb & Ha); [congruence|]; apply Forall_inv in Hb; congruence.
    + rewrite (IH true) by tauto; split; intros (before & uid & after & E & Hb & Ha).
      * exists (u :: before), uid, after; subst; split_and!; [done|by constructor|done].
      * destruct before as [|v before]; injection E as -> ->; [congruence|]; apply Forall_cons in Hb as [_ Hb]; eauto 10.
Qed.

(** The count of terminals is the answer of the first user asked who answers: the
    user himself, or, for root, the active user and then root. *)
Theorem terminal_count_is_first_answer ask active effective n :
  get_terminal_session_count ask active effective = Some n <->
  exists before uid after, terminal_count_candidate_uids active effective = before ++ uid :: after /\
    Forall (fun u => ask u = None) before /\ ask uid = Some n.
Proof.
  apply first_answer_spec; left; unfold terminal_count_candidate_uids.
  destruct (negb _), active as [a|]; try destruct (negb (a =? 0)); done.
Qed.

(** ** The one-time token *)

Lemma xor_fold l r acc : length l = length r -> 0 <= acc -> Forall is_byte l -> Forall is_byte r ->
  foldl (fun acc '(a, b) => Z.lor acc (Z.lxor a b)) acc (zip l r) = 0 <-> acc = 0 /\ l = r.
Proof.
  revert r acc; induction l as [|a l IH]; intros [|b r] acc; cbn; try done; intros Hlen Hacc Hl Hr; [tauto|].
  apply Forall_cons in Hl as [Ha Hl]; apply Forall_cons in Hr as [Hb Hr].
  assert (0 <= Z.lxor a b) by (apply Z.lxor_nonneg; unfold is_byte in *; lia).
  rewrite IH; [|lia|by apply Z.lor_nonneg|done|done].
  rewrite Z.lor_eq_0_iff, Z.lxor_eq_0_iff; naive_solver.
Qed.

(** The comparison of tokens is equality of tokens of the right length. *)
Lemma token_eq_exact expected candidate :
  constant_time_ipc_token_eq expected candidate = true <->
  expected = candidate /\ String.length expected = IPC_TOKEN_LEN.
Proof.
  unfold constant_time_ipc_token_eq.
  destruct (Nat.eqb_spec (String.length expected) IPC_TOKEN_LEN) as [He|He]; cbn [negb orb]; [|naive_solver].
  destruct (Nat.eqb_spec (String.length candidate) IPC_TOKEN_LEN) as [Hc|Hc]; cbn [negb orb]; [|naive_solver congruence].
  rewrite Z.eqb_eq, xor_fold; [|by rewrite !length_as_bytes, He, Hc|lia|apply as_bytes_byte..].
  split; [by intros [_ ->%as_bytes_inj]|by intros [-> _]].
Qed.

Lemma token_bytes random : Forall is_byte random ->
  as_bytes (generate_one_time_ipc_token random) = concat (hex_byte <$> random).
Proof.
  intros Hr; unfold generate_one_time_ipc_token; rewrite flat_map_concat_map; apply as_bytes_of_bytes.
  eapply Forall_impl; [by apply hex_digits|]; apply hex_is_byte.
Qed.

(** The token of a service has the length the other side checks, is made of hex
    digits, and is accepted only as the token of the same random bytes. *)
Theorem token_is_its_bytes random random' :
  length random = IPC_TOKEN_RANDOM_BYTES -> Forall is_byte random -> Forall is_byte random' ->
  String.length (generate_one_time_ipc_token random) = IPC_TOKEN_LEN /\
  Forall (fun c => is_ascii_hexdigit c = true) (as_bytes (generate_one_time_ipc_token random)) /\
  (constant_time_ipc_token_eq (generate_one_time_ipc_token random) (generate_one_time_ipc_token random') = true <->
   random = random').
Proof.
  intros Hlen Hr Hr'.
  assert (Hl : String.length (generate_one_time_ipc_token random) = IPC_TOKEN_LEN)
    by (rewrite <- length_as_bytes, token_bytes, length_hex, Hlen by done; reflexivity).
  split_and!; [done|rewrite token_bytes by done; by apply hex_digits|].
  rewrite token_eq_exact, Hl; split; [|by intros ->].
  intros [E _]; apply (f_equal as_bytes) in E; rewrite !token_bytes in E by done.
  apply (f_equal decode_pairs) in E; rewrite !decode_pairs_hex in E by done; congruence.
Qed.

(** A peer of the portable service is known, and either its identity is not to be
    had, or it is the system or of our session and runs our executable. *)
Theorem portable_peer_exact expected_session_id p :
  authorize_windows_portable_service_ipc_connection expected_session_id p = true <->
  pipe_pid p <> None /\
  (runs_as_system p = None \/
   (runs_as_system p = Some true \/ runs_as_system p = Some false /\ session_of p <> None /\ session_of p = expected_session_id) /\
   same_executable p = true).
Proof.
  unfold authorize_windows_portable_service_ipc_connection, is_allowed_windows_portable_service_peer.
  destruct p as [[pid|] [s|] [[]|] []], expected_session_id as [e|]; cbn; try (destruct (Z.eqb_spec s e)); cbn; naive_solver.
Qed.

(** ** Witnesses *)

#[local] Instance two_processes : Processes := {|
  peer_exe_canonical_path_by_pid := fun pid => if (pid =? 10)%Z then Some ["usr"; "bin"; "app"] else Some ["tmp"; "evil"];
  current_exe_canonical_path := Some ["usr"; "bin"; "app"];
  get_active_userid := "1000";
  is_service_ipc_postfix := fun postfix => (postfix =? POSTFIX_SERVICE)%string;
|}%string.

Theorem service_serves_only_trusted_sync_witness :
  ({| cred := Some (1000, 10) |}, true) ∈ start id POSTFIX_SERVICE
     [({| cred := Some (1000, 11) |}, [Message true]); ({| cred := Some (1000, 10) |}, [Message true; Message false; Message true])].
Proof.
  apply (service_serves_only_trusted_sync (H := two_processes) id); [vm_compute; reflexivity|].
  split; [exists 1000, 10, ["usr"; "bin"; "app"]%string; split_and!; [done|lia|right; vm_compute; reflexivity|done..]|].
  split; [done|]; exists [], [Message false; Message true]; split; [right; left|constructor].
Defined.

Theorem token_is_its_bytes_witness :
  let random := repeat 7 32 in
  String.length (generate_one_time_ipc_token random) = IPC_TOKEN_LEN /\
  Forall (fun c => is_ascii_hexdigit c = true) (as_bytes (generate_one_time_ipc_token random)) /\
  (constant_time_ipc_token_eq (generate_one_time_ipc_token random) (generate_one_time_ipc_token random) = true <-> random = random).
Proof.
  apply (token_is_its_bytes (repeat 7 32) (repeat 7 32)); [reflexivity|repeat constructor; unfold is_byte; lia..].
Defined.

Theorem servers_are_ours_witness :
  1000 ∈ [1000] <-> exists process, process ∈ [{| process_pid := 5; cmd := ["app"; "--server"]%string;
                                                exe := Some ["app"]%string; user_id := Some 1000 |}] /\
    process_pid process <> 6 /\ cmd process !! 1%nat = Some "--server"%string /\ exe process = Some ["app"]%string /\
    user_id process = Some 1000.
Proof. apply (servers_are_ours ["app"]%string 6); vm_compute; reflexivity. Defined.
