(* ===== verification/HelperMemory.v ===== *)
(** * The memory shared with the privileged helper

    Models the memory of src/src/server/portable_service.rs that the main process
    and its helper share: its layout, the token at its start, the frame and the
    counters by which frames are handed over, and the name of the memory as it is
    passed on a command line.  Sizes are those of a 64-bit Windows build; the
    memory is its bytes. *)

From S2P Require Import Prelude ClipboardTypes Fingerprint SessionPermissions LocalSockets.
From Stdlib Require Ascii String.
#[local] Open Scope list_scope.

(** ** Layout *)

Definition size_of_i32 : nat := 4.
(** [CURSORINFO] of Windows; [CapturerPara] and [FrameInfo], with their padding. *)
Definition size_of_CURSORINFO : nat := 24.
Definition size_of_CapturerPara : nat := 24.
Definition size_of_FrameInfo : nat := 24.

Definition SIZE_COUNTER : nat := size_of_i32 * 2.
Definition FRAME_ALIGN : nat := 64.
Definition ADDR_IPC_TOKEN : nat := 0.
Definition ADDR_CURSOR_PARA : nat := ADDR_IPC_TOKEN + IPC_TOKEN_LEN.
Definition ADDR_CURSOR_COUNTER : nat := ADDR_CURSOR_PARA + size_of_CURSORINFO.
Definition ADDR_CAPTURER_PARA : nat := ADDR_CURSOR_COUNTER + SIZE_COUNTER.
Definition ADDR_CAPTURE_FRAME_INFO : nat := ADDR_CAPTURER_PARA + size_of_CapturerPara.
Definition ADDR_CAPTURE_WOULDBLOCK : nat := ADDR_CAPTURE_FRAME_INFO + size_of_FrameInfo.
Definition ADDR_CAPTURE_FRAME_COUNTER : nat := ADDR_CAPTURE_WOULDBLOCK + size_of_i32.
Definition ADDR_CAPTURE_FRAME : nat :=
  (ADDR_CAPTURE_FRAME_COUNTER + SIZE_COUNTER + FRAME_ALIGN - 1) / FRAME_ALIGN * FRAME_ALIGN.
Definition MIN_RUNTIME_SHMEM_LEN : nat := ADDR_CAPTURE_FRAME + FRAME_ALIGN.
Definition SHMEM_ARG_PREFIX : string := "--portable-service-shmem-name=".
Definition SHMEM_NAME_MAX_LEN : nat := 64.

Definition align (v align : nat) : nat := (v + align - 1) / align * align.

(** ** Bytes of the memory *)

Notation memory := (list Z) (only parsing).

(** [SharedMemory::write]; [None] where it would leave the memory. *)
Definition write (addr : nat) (data : list Z) (m : memory) : option memory :=
  if (addr + length data <=? length m)%nat then Some (take addr m ++ data ++ drop (addr + length data) m) else None.
Definition read (addr n : nat) (m : memory) : list Z := take n (drop addr m).

Definition validate_runtime_shmem_layout (m : memory) : bool := negb (length m <? MIN_RUNTIME_SHMEM_LEN)%nat.
Definition is_valid_capture_frame_length (shmem_len frame_len : nat) : bool :=
  let frame_capacity := (shmem_len - ADDR_CAPTURE_FRAME)%nat in
  (0 <? frame_len)%nat && (frame_len <=? frame_capacity)%nat.

(** ** The token *)

Definition is_ascii_uppercase (b : Z) : bool := (65 <=? b) && (b <=? 90).
Definition token_byte (b : Z) : bool := is_ascii_hexdigit b && negb (is_ascii_uppercase b).
Definition is_valid_portable_service_ipc_token (token : string) : bool :=
  (String.length token =? IPC_TOKEN_LEN)%nat && forallb token_byte (as_bytes token).

(** A run of bytes that is a valid token is ASCII, so whether other bytes are UTF-8
    makes no difference. *)
Fixpoint until_zero (l : list Z) : list Z :=
  match l with b :: l => if b =? 0 then [] else b :: until_zero l | [] => [] end.
Definition read_ipc_token_from_shmem (m : memory) : option string :=
  if (length m <? ADDR_IPC_TOKEN + IPC_TOKEN_LEN)%nat then None
  else
    let bytes := until_zero (read ADDR_IPC_TOKEN IPC_TOKEN_LEN m) in
    if (length bytes =? 0)%nat then None
    else if is_valid_portable_service_ipc_token (of_bytes bytes) then Some (of_bytes bytes) else None.
(** [None] also where the token is refused. *)
Definition write_ipc_token_to_shmem (m : memory) (token : string) : option memory :=
  if is_valid_portable_service_ipc_token token then write ADDR_IPC_TOKEN (as_bytes token) m else None.
Definition clear_ipc_token_in_shmem (m : memory) : option memory := write ADDR_IPC_TOKEN (repeat 0 IPC_TOKEN_LEN) m.

(** ** The name on the command line *)

Definition is_ascii_alphanumeric (b : Z) : bool :=
  ((48 <=? b) && (b <=? 57)) || ((65 <=? b) && (b <=? 90)) || ((97 <=? b) && (b <=? 122)).
Definition name_byte (b : Z) : bool := is_ascii_alphanumeric b || (b =? 95) || (b =? 45).
Definition is_valid_portable_service_shmem_name (name : string) : bool :=
  negb (String.eqb name "") && (String.length name <=? SHMEM_NAME_MAX_LEN)%nat && forallb name_byte (as_bytes name).

Definition portable_service_shmem_arg (name : string) : string := String.app SHMEM_ARG_PREFIX name.

(** Arguments are characters here; other whitespace than that of ASCII does not
    occur in them. *)
Definition quote (c : Ascii.ascii) : bool := let n := Ascii.nat_of_ascii c in (n =? 34)%nat || (n =? 39)%nat.
Fixpoint strip (prefix s : list Ascii.ascii) : option (list Ascii.ascii) :=
  match prefix, s with
  | [], s => Some s
  | p :: prefix, c :: s => if Ascii.eqb p c then strip prefix s else None
  | _, [] => None
  end.
Fixpoint first_word (s : list Ascii.ascii) : list Ascii.ascii :=
  match s with c :: s => if is_space c then [] else c :: first_word s | [] => [] end.
Fixpoint skip_quotes (s : list Ascii.ascii) : list Ascii.ascii :=
  match s with c :: s' => if quote c then skip_quotes s' else s | [] => [] end.
Definition portable_service_arg_value_candidate_from_arg (arg prefix : string) : option string :=
  value ← strip (String.list_ascii_of_string prefix) (String.list_ascii_of_string arg);
  let value := skip_spaces value in
  let value := match value with c :: rest => if quote c then rest else value | [] => [] end in
  let value := first_word (skip_spaces value) in
  let value := rev (skip_quotes (rev (skip_quotes value))) in
  Some (String.string_of_list_ascii value).

(** The first argument with the prefix decides. *)
Fixpoint portable_service_shmem_name_from_args (args : list string) : option string :=
  match args with
  | [] => None
  | arg :: args =>
      match portable_service_arg_value_candidate_from_arg arg SHMEM_ARG_PREFIX with
      | Some value => if is_valid_portable_service_shmem_name value then Some value else None
      | None => portable_service_shmem_name_from_args args
      end
  end.

(** ** Counters *)

Definition i32_to_vec (i : Z) : list Z := le_bytes 4 (wrap_u32 i).
Definition ptr_to_i32 (addr : nat) (m : memory) : Z := as_i32 (of_le (read addr size_of_i32 m)).

Definition counter_ready (counter : nat) (m : memory) : option (bool * memory) :=
  let iw := ptr_to_i32 counter m in
  let ir := ptr_to_i32 (counter + size_of_i32) m in
  if negb (ir =? iw) then m ← write (counter + size_of_i32) (read counter size_of_i32 m) m; Some (true, m)
  else Some (false, m).
Definition counter_equal (counter : nat) (m : memory) : bool :=
  ptr_to_i32 counter m =? ptr_to_i32 (counter + size_of_i32) m.

(** Both words are read where the writer's is. *)
Definition increase_counter (counter : nat) (m : memory) : option memory :=
  let iw := ptr_to_i32 counter m in
  let ir := ptr_to_i32 counter m in
  let iw_plus1 := if iw =? i32_max then 0 else iw + 1 in
  m ← write counter (i32_to_vec iw_plus1) m;
  if ir =? iw_plus1 then write (counter + size_of_i32) (i32_to_vec iw) m else Some m.

(** ** Frames *)

Record CapturerPara := { recreate : bool; current_display : Z; timeout_ms : Z }.
Record FrameInfo := { frame_len : Z; width : Z; height : Z }.

Definition para_bytes (p : CapturerPara) : list Z :=
  (if recreate p then 1 else 0) :: repeat 0 7 ++ le_bytes 8 (current_display p) ++ i32_to_vec (timeout_ms p) ++ repeat 0 4.
Definition set_para (p : CapturerPara) (m : memory) : option memory := write ADDR_CAPTURER_PARA (para_bytes p) m.
Definition read_para (m : memory) : CapturerPara :=
  {| recreate := negb (default 0 (m !! ADDR_CAPTURER_PARA) =? 0);
     current_display := of_le (read (ADDR_CAPTURER_PARA + 8) 8 m);
     timeout_ms := ptr_to_i32 (ADDR_CAPTURER_PARA + 16) m |}.
Definition info_bytes (i : FrameInfo) : list Z := le_bytes 8 (frame_len i) ++ le_bytes 8 (width i) ++ le_bytes 8 (height i).
Definition set_frame_info (i : FrameInfo) (m : memory) : option memory := write ADDR_CAPTURE_FRAME_INFO (info_bytes i) m.
Definition read_frame_info (m : memory) : FrameInfo :=
  {| frame_len := of_le (read ADDR_CAPTURE_FRAME_INFO 8 m);
     width := of_le (read (ADDR_CAPTURE_FRAME_INFO + 8) 8 m);
     height := of_le (read (ADDR_CAPTURE_FRAME_INFO + 16) 8 m) |}.

(** The helper puts a frame there: the steps of [run_capture] after a capture. *)
Definition put_frame (data : list Z) (w h : Z) (m : memory) : option memory :=
  if (length m - ADDR_CAPTURE_FRAME <? length data)%nat then None
  else
    m ← set_frame_info {| frame_len := Z.of_nat (length data); width := w; height := h |} m;
    write ADDR_CAPTURE_FRAME data m.
Definition publish (data : list Z) (w h : Z) (m : memory) : option memory :=
  m ← put_frame data w h m;
  m ← write ADDR_CAPTURE_WOULDBLOCK (i32_to_vec 1) m;
  increase_counter ADDR_CAPTURE_FRAME_COUNTER m.
(** The helper waits for the reader, its first frame apart. *)
Definition may_capture (first_frame_captured : bool) (m : memory) : bool :=
  negb first_frame_captured || counter_equal ADDR_CAPTURE_FRAME_COUNTER m.

(** What [frame] of the main process finds: the frame is where it lies and how long
    it is, for its bytes are read only where it is used. *)
Inductive Found := Slice (addr len : nat) | InvalidData | WrongSize | NoFrame.
Definition find_frame (w h : Z) (m : memory) : option (Found * memory) :=
  '(ready, m) ← counter_ready ADDR_CAPTURE_FRAME_COUNTER m;
  if negb ready then Some (NoFrame, m)
  else
    let info := read_frame_info m in
    if negb (is_valid_capture_frame_length (length m) (Z.to_nat (frame_len info))) then Some (InvalidData, m)
    else if negb (width info =? w) || negb (height info =? h) then Some (WrongSize, m)
    else Some (Slice ADDR_CAPTURE_FRAME (Z.to_nat (frame_len info)), m).
Definition frame_bytes (f : Found) (m : memory) : option (list Z) :=
  match f with Slice addr len => Some (read addr len m) | _ => None end.

Definition first_frame_timed_out (first_frame_received : bool) (elapsed timeout : duration) : bool :=
  negb first_frame_received && (timeout <=? elapsed).

Inductive CaptureDesktopRebindAction := RebindNone | Recreate | Retry.
Definition capture_desktop_rebind_action (desktop_changed selection_succeeded : bool) : CaptureDesktopRebindAction :=
  if negb desktop_changed then RebindNone else if selection_succeeded then Recreate else Retry.

(** ** Lemmas on the memory *)

Lemma write_Some addr data m : (addr + length data <= length m)%nat ->
  write addr data m = Some (take addr m ++ data ++ drop (addr + length data) m).
Proof. intros H; unfold write; by rewrite (proj2 (Nat.leb_le _ _) H). Qed.

Lemma write_inv addr data m m' : write addr data m = Some m' ->
  (addr + length data <= length m)%nat /\ m' = take addr m ++ data ++ drop (addr + length data) m.
Proof. unfold write; destruct (Nat.leb_spec (addr + length data) (length m)); [by intros [= <-]|done]. Qed.

Lemma write_length addr data m m' : write addr data m = Some m' -> length m' = length m.
Proof. intros [H ->]%write_inv; rewrite !length_app, length_take, length_drop; lia. Qed.

Lemma read_written addr data m m' : write addr data m = Some m' -> read addr (length data) m' = data.
Proof.
  intros [H ->]%write_inv; unfold read; rewrite drop_app_length' by (rewrite length_take; lia).
  by rewrite take_app_length.
Qed.

Lemma read_before addr data m m' a n : write addr data m = Some m' -> (a + n <= addr)%nat -> read a n m' = read a n m.
Proof.
  intros [H ->]%write_inv Ha; unfold read.
  rewrite drop_app_le by (rewrite length_take; lia); rewrite take_app_le by (rewrite length_drop, length_take; lia).
  rewrite skipn_firstn_comm, take_take; f_equal; lia.
Qed.

Lemma read_after addr data m m' a n : write addr data m = Some m' -> (addr + length data <= a)%nat ->
  read a n m' = read a n m.
Proof.
  intros [H ->]%write_inv Ha; unfold read; f_equal; rewrite app_assoc, drop_app_ge by (rewrite length_app, length_take; lia).
  rewrite drop_drop; f_equal; rewrite length_app, length_take; lia.
Qed.

Lemma read_part addr n m i k : (i + k <= n)%nat -> read (addr + i) k m = read i k (read addr n m).
Proof.
  intros H; unfold read; rewrite <- drop_drop, skipn_firstn_comm, take_take; f_equal; lia.
Qed.

Definition is_i32 (i : Z) : Prop := -2147483648 <= i <= i32_max.

Lemma i32_read i : is_i32 i -> as_i32 (of_le (i32_to_vec i)) = i.
Proof.
  unfold is_i32, i32_max; intros Hi; unfold i32_to_vec, as_i32, wrap_u32; rewrite of_le_bytes.
  change (256 ^ Z.of_nat 4) with 4294967296; rewrite Z.mod_mod by lia.
  rewrite Zplus_mod_idemp_l, Z.mod_small by lia; lia.
Qed.

Lemma as_i32_range a : is_i32 (as_i32 a).
Proof. unfold is_i32, i32_max, as_i32; pose proof (Z.mod_pos_bound (a + 2147483648) 4294967296 ltac:(lia)); lia. Qed.

Lemma ptr_written addr i m m' : is_i32 i -> write addr (i32_to_vec i) m = Some m' -> ptr_to_i32 addr m' = i.
Proof. intros Hi W; unfold ptr_to_i32; pose proof (read_written _ _ _ _ W) as R; change (length (i32_to_vec i)) with size_of_i32 in R.
  rewrite R; by apply i32_read. Qed.

Lemma ptr_other addr data m m' a : write addr data m = Some m' -> (a + 4 <= addr \/ addr + length data <= a)%nat ->
  ptr_to_i32 a m' = ptr_to_i32 a m.
Proof.
  intros W [H|H]; unfold ptr_to_i32; f_equal; f_equal; [eapply read_before|eapply read_after]; eauto.
Qed.

(** ** The token *)

Lemma until_zero_all l : Forall (fun b => b <> 0) l -> until_zero l = l.
Proof. induction 1 as [|b l Hb _ IH]; cbn; [done|]; rewrite (proj2 (Z.eqb_neq _ _) Hb); by f_equal. Qed.

Lemma token_byte_nonzero b : token_byte b = true -> b <> 0.
Proof. intros H ->; discriminate. Qed.

Lemma valid_token token : is_valid_portable_service_ipc_token token = true <->
  String.length token = IPC_TOKEN_LEN /\ Forall (fun b => token_byte b = true) (as_bytes token).
Proof. unfold is_valid_portable_service_ipc_token; by rewrite andb_true_iff, Nat.eqb_eq, forallb_forall, List.Forall_forall. Qed.

Lemma token_there token m : is_valid_portable_service_ipc_token token = true ->
  (IPC_TOKEN_LEN <= length m)%nat -> read ADDR_IPC_TOKEN IPC_TOKEN_LEN m = as_bytes token ->
  read_ipc_token_from_shmem m = Some token.
Proof.
  intros V H R; pose proof (proj1 (valid_token token) V) as [L F]; unfold read_ipc_token_from_shmem.
  rewrite (proj2 (Nat.ltb_ge _ _)) by (unfold ADDR_IPC_TOKEN; lia); rewrite R.
  rewrite until_zero_all by (eapply Forall_impl; [exact F|]; apply token_byte_nonzero).
  rewrite length_as_bytes, L, of_bytes_as_bytes, V; done.
Qed.

(** The token written for a helper is the one the helper reads, however the rest of
    the memory is written meanwhile, until it is cleared. *)
Theorem token_is_handed_over token m m' : write_ipc_token_to_shmem m token = Some m' ->
  read_ipc_token_from_shmem m' = Some token /\
  (forall addr data m'', (ADDR_CURSOR_PARA <= addr)%nat -> write addr data m' = Some m'' ->
    read_ipc_token_from_shmem m'' = Some token) /\
  (forall m'', clear_ipc_token_in_shmem m' = Some m'' -> read_ipc_token_from_shmem m'' = None).
Proof.
  unfold write_ipc_token_to_shmem; destruct (is_valid_portable_service_ipc_token token) eqn:V; [|done]; intros W.
  pose proof (proj1 (valid_token token) V) as [L _]; pose proof (length_as_bytes token) as LB.
  assert (R : read ADDR_IPC_TOKEN IPC_TOKEN_LEN m' = as_bytes token)
    by (pose proof (read_written _ _ _ _ W) as R; rewrite LB, L in R; exact R).
  assert (Hm : (IPC_TOKEN_LEN <= length m')%nat)
    by (rewrite (write_length _ _ _ _ W); apply write_inv in W as [H _]; unfold ADDR_IPC_TOKEN in H; lia).
  split_and!.
  - by apply token_there.
  - intros addr data m'' Ha W'; apply token_there; [done|by rewrite (write_length _ _ _ _ W')|].
    rewrite (read_before _ _ _ _ _ _ W'); [done|vm_compute in *; lia].
  - intros m'' C; unfold read_ipc_token_from_shmem; destruct (_ <? _)%nat; [done|].
    unfold clear_ipc_token_in_shmem in C; pose proof (read_written _ _ _ _ C) as R'.
    rewrite repeat_length in R'; by rewrite R'.
Qed.

Lemma hex_digits_lower pk : Forall is_byte pk -> Forall (fun c => token_byte c = true) (concat (hex_byte <$> pk)).
Proof.
  induction 1 as [|b pk Hb _ IH]; cbn; [constructor|]; unfold is_byte in Hb.
  assert (Hd : forall d, 0 <= d < 16 -> token_byte (hex_digit d) = true).
  { intros d Hd; assert (C : d ∈ seqZ 0 16) by (apply elem_of_seqZ; lia); revert d C Hd.
    apply (Forall_forall (fun d => 0 <= d < 16 -> token_byte (hex_digit d) = true)); repeat constructor. }
  constructor; [apply Hd; split; [apply Z.div_pos|apply Z.div_lt_upper_bound]; lia|].
  constructor; [apply Hd, Z.mod_pos_bound; lia|done].
Qed.

(** Every token that is made is one the helper takes. *)
Lemma generated_token_is_valid random : length random = IPC_TOKEN_RANDOM_BYTES -> Forall is_byte random ->
  is_valid_portable_service_ipc_token (generate_one_time_ipc_token random) = true.
Proof.
  intros L F; apply valid_token; rewrite token_bytes by done; split; [|by apply hex_digits_lower].
  by rewrite <- length_as_bytes, token_bytes, length_hex, L by done.
Qed.

(** ** The name *)

Lemma strip_app p s : strip p (p ++ s) = Some s.
Proof. induction p as [|c p IH]; cbn; [done|]; by rewrite Ascii.eqb_refl. Qed.

Lemma list_ascii_app a b : String.list_ascii_of_string (String.app a b) = String.list_ascii_of_string a ++ String.list_ascii_of_string b.
Proof. induction a as [|c a IH]; [done|]; change (c :: String.list_ascii_of_string (String.app a b) = c :: String.list_ascii_of_string a ++ String.list_ascii_of_string b); by rewrite IH. Qed.

Definition plain (c : Ascii.ascii) : bool := negb (is_space c) && negb (quote c).

Lemma name_byte_plain c : name_byte (byte_of c) = true -> plain c = true.
Proof. destruct c as [[] [] [] [] [] [] [] []]; vm_compute; congruence. Qed.

Lemma skip_spaces_plain s : Forall (fun c => plain c = true) s -> skip_spaces s = s.
Proof. destruct 1 as [|c s Hc _]; cbn; [done|]; unfold plain in Hc; by destruct (is_space c). Qed.
Lemma skip_quotes_plain s : Forall (fun c => plain c = true) s -> skip_quotes s = s.
Proof. destruct 1 as [|c s Hc _]; cbn; [done|]; unfold plain in Hc; by destruct (is_space c), (quote c). Qed.
Lemma first_word_plain s : Forall (fun c => plain c = true) s -> first_word s = s.
Proof. induction 1 as [|c s Hc _ IH]; cbn; [done|]; unfold plain in Hc; destruct (is_space c); [done|by f_equal]. Qed.

Lemma plain_name name : is_valid_portable_service_shmem_name name = true ->
  Forall (fun c => plain c = true) (String.list_ascii_of_string name).
Proof.
  unfold is_valid_portable_service_shmem_name; intros [_ H]%andb_true_iff; rewrite forallb_forall in H.
  apply List.Forall_forall; intros c Hc; apply name_byte_plain, H; unfold as_bytes; apply list_elem_of_In.
  by apply list_elem_of_fmap_2, list_elem_of_In.
Qed.

(** A name that is made into an argument is found in the arguments again, whatever
    arguments without the prefix come before it and whatever comes after. *)
Theorem name_is_passed_on name before after : is_valid_portable_service_shmem_name name = true ->
  Forall (fun arg => portable_service_arg_value_candidate_from_arg arg SHMEM_ARG_PREFIX = None) before ->
  portable_service_shmem_name_from_args (before ++ portable_service_shmem_arg name :: after) = Some name.
Proof.
  intros V B; induction B as [|arg before Ha _ IH]; cbn [app portable_service_shmem_name_from_args]; [|by rewrite Ha].
  pose proof (plain_name _ V) as P; unfold portable_service_arg_value_candidate_from_arg, portable_service_shmem_arg.
  rewrite list_ascii_app, strip_app; cbn [mbind option_bind].
  rewrite (skip_spaces_plain (String.list_ascii_of_string name)) by done.
  assert (E : match String.list_ascii_of_string name with c :: rest => if quote c then rest else String.list_ascii_of_string name | [] => [] end
              = String.list_ascii_of_string name).
  { destruct P as [|c s Hc _]; [done|]; unfold plain in Hc; by destruct (is_space c), (quote c). }
  rewrite E, (skip_spaces_plain (String.list_ascii_of_string name)), first_word_plain, (skip_quotes_plain (String.list_ascii_of_string name)) by done.
  rewrite skip_quotes_plain by (by apply Forall_rev); rewrite rev_involutive, String.string_of_list_ascii_of_string, V; done.
Qed.

(** ** Counters *)

Definition next_count (i : Z) : Z := if i =? i32_max then 0 else i + 1.

Lemma next_count_range i : is_i32 i -> is_i32 (next_count i).
Proof. unfold next_count, is_i32, i32_max; destruct (Z.eqb_spec i 2147483647); lia. Qed.
Lemma next_count_differs i : next_count i <> i.
Proof. unfold next_count, i32_max; destruct (Z.eqb_spec i 2147483647); lia. Qed.

(** An increment moves the word of the writer and leaves that of the reader, though
    the code goes on to move it where the two would agree: it compares the writer's
    word with itself. *)
Theorem increment_leaves_the_reader counter m : (counter + SIZE_COUNTER <= length m)%nat ->
  exists m', increase_counter counter m = Some m' /\
    ptr_to_i32 counter m' = next_count (ptr_to_i32 counter m) /\
    ptr_to_i32 (counter + size_of_i32) m' = ptr_to_i32 (counter + size_of_i32) m /\
    length m' = length m /\ write counter (i32_to_vec (next_count (ptr_to_i32 counter m))) m = Some m'.
Proof.
  intros H; unfold SIZE_COUNTER, size_of_i32 in *; unfold increase_counter; fold (next_count (ptr_to_i32 counter m)).
  assert (Hlen : (counter + length (i32_to_vec (next_count (ptr_to_i32 counter m))) <= length m)%nat) by (cbn; lia).
  pose proof (write_Some _ _ _ Hlen) as W; rewrite W; cbn [mbind option_bind].
  rewrite (proj2 (Z.eqb_neq _ _)) by (pose proof (next_count_differs (ptr_to_i32 counter m)); congruence).
  eexists; split; [done|]; split_and!.
  - eapply ptr_written; [|exact W]; apply next_count_range, as_i32_range.
  - eapply ptr_other; [exact W|]; right; cbn; lia.
  - exact (write_length _ _ _ _ W).
  - done.
Qed.

Lemma counter_equal_iff counter m : counter_equal counter m = true <-> ptr_to_i32 counter m = ptr_to_i32 (counter + size_of_i32) m.
Proof. apply Z.eqb_eq. Qed.

(** A look at the counter tells whether the words differ, and makes them agree. *)
Lemma counter_ready_spec counter m : (counter + SIZE_COUNTER <= length m)%nat ->
  exists m', counter_ready counter m = Some (negb (counter_equal counter m), m') /\ counter_equal counter m' = true /\
    length m' = length m /\ (forall a n, (a + n <= counter \/ counter + SIZE_COUNTER <= a)%nat -> read a n m' = read a n m).
Proof.
  intros H; unfold SIZE_COUNTER, size_of_i32 in *; unfold counter_ready, counter_equal, size_of_i32.
  rewrite (Z.eqb_sym (ptr_to_i32 counter m)).
  destruct (Z.eqb_spec (ptr_to_i32 (counter + 4) m) (ptr_to_i32 counter m)) as [E|E]; cbn [negb].
  - exists m; split_and!; [done|by apply Z.eqb_eq|done..].
  - assert (L : length (read counter 4 m) = 4%nat) by (unfold read; rewrite length_take, length_drop; lia).
    destruct (write (counter + 4) (read counter 4 m) m) as [m'|] eqn:W; [|unfold write in W; rewrite (proj2 (Nat.leb_le _ _)) in W by lia; done].
    cbn [mbind option_bind]; exists m'; split_and!; [done| |exact (write_length _ _ _ _ W)|].
    + apply Z.eqb_eq; unfold ptr_to_i32; apply (f_equal (fun l => as_i32 (of_le l))).
      pose proof (read_written _ _ _ _ W) as R; rewrite L in R; etransitivity; [|symmetry; exact R].
      eapply read_before; [exact W|unfold size_of_i32; lia].
    + intros a n [Ha|Ha]; [eapply read_before|eapply read_after]; eauto; lia.
Qed.

Fixpoint increments (n : nat) (counter : nat) (m : memory) : option memory :=
  match n with O => Some m | S n => m ← increase_counter counter m; increments n counter m end.

Lemma increments_spec n counter m : (counter + SIZE_COUNTER <= length m)%nat -> 0 <= ptr_to_i32 counter m ->
  exists m', increments n counter m = Some m' /\
    ptr_to_i32 counter m' = (ptr_to_i32 counter m + Z.of_nat n) mod 2147483648 /\
    ptr_to_i32 (counter + size_of_i32) m' = ptr_to_i32 (counter + size_of_i32) m.
Proof.
  revert m; induction n as [|n IH]; intros m H Hp.
  - exists m; split_and!; [done| |done]; rewrite Z.add_0_r, Z.mod_small; [done|].
    pose proof (as_i32_range (of_le (read counter size_of_i32 m))) as [_ R]; unfold i32_max in R; unfold ptr_to_i32 in *; lia.
  - destruct (increment_leaves_the_reader counter m H) as (m1 & E & W & R & L & _); cbn [increments]; rewrite E; cbn [mbind option_bind].
    assert (Hn : next_count (ptr_to_i32 counter m) = (ptr_to_i32 counter m + 1) mod 2147483648).
    { unfold next_count, i32_max; destruct (Z.eqb_spec (ptr_to_i32 counter m) 2147483647) as [->|Hn]; [done|].
      pose proof (as_i32_range (of_le (read counter size_of_i32 m))) as [_ Rg]; unfold i32_max in Rg.
      rewrite Z.mod_small; [done|]; unfold ptr_to_i32 in *; lia. }
    destruct (IH m1) as (m' & E' & W' & R'); [by rewrite L|rewrite W, Hn; apply Z.mod_pos_bound; lia|].
    exists m'; split_and!; [done| |by rewrite R'].
    rewrite W', W, Hn, Zplus_mod_idemp_l; f_equal; lia.
Qed.

(** Of what was put there since the last look, the next look tells, unless it was
    put there exactly a multiple of 2^31 times. *)
Theorem look_tells_of_news n counter m m' : (counter + SIZE_COUNTER <= length m)%nat -> 0 <= ptr_to_i32 counter m ->
  counter_equal counter m = true -> increments n counter m = Some m' ->
  counter_equal counter m' = true <-> (Z.of_nat n) mod 2147483648 = 0.
Proof.
  intros H Hp Heq E; destruct (increments_spec n counter m H Hp) as (m2 & E2 & W & R).
  rewrite E in E2; injection E2 as <-; apply counter_equal_iff in Heq; rewrite counter_equal_iff, W, R, <- Heq.
  pose proof (as_i32_range (of_le (read counter size_of_i32 m))) as [_ Rg]; fold (ptr_to_i32 counter m) in Rg.
  unfold i32_max in Rg; split; intros Hn.
  - replace (Z.of_nat n) with (ptr_to_i32 counter m + Z.of_nat n - ptr_to_i32 counter m) by lia.
    rewrite Zminus_mod, Hn, (Z.mod_small (ptr_to_i32 counter m)) by lia; by rewrite Z.sub_diag.
  - by rewrite <- Zplus_mod_idemp_r, Hn, Z.add_0_r, Z.mod_small by lia.
Qed.

(** ** Frames *)

Lemma usize_read z : 0 <= z < 2 ^ 64 -> of_le (le_bytes 8 z) = z.
Proof. intros H; rewrite of_le_bytes; change (256 ^ Z.of_nat 8) with (2 ^ 64); by apply Z.mod_small. Qed.

Definition is_usize (z : Z) : Prop := 0 <= z < 2 ^ 64.

Lemma read_prefix addr k n m : (k <= n)%nat -> read addr k m = take k (read addr n m).
Proof. intros H; unfold read; rewrite take_take; f_equal; lia. Qed.

Lemma length_info i : length (info_bytes i) = size_of_FrameInfo.
Proof. unfold info_bytes; by rewrite !length_app, !length_le_bytes. Qed.

Lemma info_read i m' : is_usize (frame_len i) -> is_usize (width i) -> is_usize (height i) ->
  read ADDR_CAPTURE_FRAME_INFO size_of_FrameInfo m' = info_bytes i -> read_frame_info m' = i.
Proof.
  intros Hl Hw Hh R; unfold read_frame_info, is_usize in *; destruct i as [l w h]; cbn [frame_len width height] in *.
  rewrite (read_prefix _ 8 size_of_FrameInfo), !(read_part _ size_of_FrameInfo) by (vm_compute; lia); rewrite R.
  unfold info_bytes, read; cbn [frame_len width height]; pose proof (length_le_bytes 8) as L.
  pose proof (L l) as Ll; pose proof (L w) as Lw; pose proof (L h) as Lh.
  rewrite (take_app_length' _ _ 8) by done; rewrite (drop_app_length' _ _ 8) by done; rewrite (take_app_length' _ _ 8) by done.
  rewrite app_assoc, (drop_app_length' _ _ 16) by (by rewrite length_app, Ll, Lw); rewrite (take_ge _ 8) by lia.
  by rewrite !usize_read.
Qed.

Lemma counter_inside n k : (ADDR_CAPTURE_FRAME + n <= k)%nat -> (ADDR_CAPTURE_FRAME_COUNTER + SIZE_COUNTER <= k)%nat.
Proof.
  assert (ADDR_CAPTURE_FRAME_COUNTER + SIZE_COUNTER <= ADDR_CAPTURE_FRAME)%nat by (vm_compute; lia); lia.
Qed.

Lemma put_frame_spec data w h m m' : put_frame data w h m = Some m' ->
  length m' = length m /\ (ADDR_CAPTURE_FRAME + length data <= length m)%nat /\
  read ADDR_CAPTURE_FRAME_INFO size_of_FrameInfo m' = info_bytes {| frame_len := Z.of_nat (length data); width := w; height := h |} /\
  read ADDR_CAPTURE_FRAME (length data) m' = data /\
  (forall a, (ADDR_CAPTURE_WOULDBLOCK <= a)%nat -> (a + 4 <= ADDR_CAPTURE_FRAME)%nat -> ptr_to_i32 a m' = ptr_to_i32 a m).
Proof.
  unfold put_frame; destruct (_ <? _)%nat; [done|]; unfold set_frame_info.
  destruct (write ADDR_CAPTURE_FRAME_INFO _ m) as [m1|] eqn:W1; [|done]; cbn [mbind option_bind]; intros W2.
  pose proof (write_length _ _ _ _ W1) as L1; pose proof (write_length _ _ _ _ W2) as L2.
  split_and!; [congruence| | | |].
  - apply write_inv in W2 as [H _]; congruence.
  - rewrite (read_before _ _ _ _ _ _ W2) by (vm_compute; lia); exact (read_written _ _ _ _ W1).
  - exact (read_written _ _ _ _ W2).
  - intros a Ha Ha'; rewrite (ptr_other _ _ _ _ _ W2) by (by left); apply (ptr_other _ _ _ _ _ W1); right.
    rewrite length_info; vm_compute in Ha |- *; lia.
Qed.

Lemma publish_spec data w h m m' : publish data w h m = Some m' ->
  length m' = length m /\ (ADDR_CAPTURE_FRAME + length data <= length m)%nat /\
  read ADDR_CAPTURE_FRAME_INFO size_of_FrameInfo m' = info_bytes {| frame_len := Z.of_nat (length data); width := w; height := h |} /\
  read ADDR_CAPTURE_FRAME (length data) m' = data /\
  ptr_to_i32 ADDR_CAPTURE_FRAME_COUNTER m' = next_count (ptr_to_i32 ADDR_CAPTURE_FRAME_COUNTER m) /\
  ptr_to_i32 (ADDR_CAPTURE_FRAME_COUNTER + size_of_i32) m' = ptr_to_i32 (ADDR_CAPTURE_FRAME_COUNTER + size_of_i32) m.
Proof.
  unfold publish; destruct (put_frame data w h m) as [m1|] eqn:P; [|done]; cbn [mbind option_bind].
  destruct (put_frame_spec _ _ _ _ _ P) as (L1 & B & I1 & D1 & C1).
  destruct (write ADDR_CAPTURE_WOULDBLOCK _ m1) as [m2|] eqn:W2; [|done]; cbn [mbind option_bind]; intros E.
  pose proof (write_length _ _ _ _ W2) as L2.
  assert (H : (ADDR_CAPTURE_FRAME_COUNTER + SIZE_COUNTER <= length m2)%nat) by (apply (counter_inside (length data)); congruence).
  destruct (increment_leaves_the_reader _ _ H) as (m3 & E' & Cw & Cr & L3 & W3); rewrite E in E'; injection E' as <-.
  split_and!; [congruence|done| | | |].
  - rewrite (read_before _ _ _ _ _ _ W3), (read_before _ _ _ _ _ _ W2) by (vm_compute; lia); done.
  - rewrite (read_after _ _ _ _ _ _ W3), (read_after _ _ _ _ _ _ W2) by (vm_compute; lia); done.
  - rewrite Cw; f_equal; rewrite (ptr_other _ _ _ _ _ W2) by (right; vm_compute; lia); apply C1; vm_compute; lia.
  - rewrite Cr, (ptr_other _ _ _ _ _ W2) by (right; vm_compute; lia); apply C1; vm_compute; lia.
Qed.

(** A look after a frame was put there. *)
Lemma find_published data w h w' h' m m' : is_usize (Z.of_nat (length m)) -> (0 < length data)%nat ->
  is_usize w -> is_usize h -> counter_equal ADDR_CAPTURE_FRAME_COUNTER m = true -> publish data w h m = Some m' ->
  exists m'', find_frame w' h' m' =
      Some (if negb (w =? w') || negb (h =? h') then WrongSize else Slice ADDR_CAPTURE_FRAME (length data), m'') /\
    frame_bytes (Slice ADDR_CAPTURE_FRAME (length data)) m'' = Some data /\ length m'' = length m /\
    counter_equal ADDR_CAPTURE_FRAME_COUNTER m'' = true.
Proof.
  intros Hm Hd Hw Hh Heq P; destruct (publish_spec _ _ _ _ _ P) as (L & B & I & D & Cw & Cr).
  assert (H : (ADDR_CAPTURE_FRAME_COUNTER + SIZE_COUNTER <= length m')%nat) by (apply (counter_inside (length data)); congruence).
  destruct (counter_ready_spec _ _ H) as (m'' & E & Heq' & L' & R').
  assert (Hne : counter_equal ADDR_CAPTURE_FRAME_COUNTER m' = false).
  { apply not_true_iff_false; rewrite counter_equal_iff, Cw, Cr; apply counter_equal_iff in Heq; rewrite <- Heq; apply next_count_differs. }
  assert (Hu : is_usize (Z.of_nat (length data))) by (unfold is_usize in *; lia).
  assert (I' : read_frame_info m'' = {| frame_len := Z.of_nat (length data); width := w; height := h |}).
  { apply info_read; [done..|]; rewrite R'; [exact I|left; vm_compute; lia]. }
  exists m''; unfold find_frame; rewrite E, Hne; cbn [negb mbind option_bind]; rewrite I'; cbn [frame_len width height].
  rewrite Nat2Z.id, L', L; unfold is_valid_capture_frame_length.
  rewrite (proj2 (Nat.ltb_lt _ _) Hd), (proj2 (Nat.leb_le _ _)) by lia; cbn [andb negb].
  split_and!; [by destruct (_ || _)| |done|done].
  cbn [frame_bytes]; rewrite R'; [by rewrite D|right; vm_compute; lia].
Qed.

(** A frame the helper puts there while the reader has read all before is found once,
    whole and inside the memory, by a reader that expects its size. *)
Theorem frame_is_found_once data w h m m' : is_usize (Z.of_nat (length m)) -> (0 < length data)%nat ->
  is_usize w -> is_usize h -> counter_equal ADDR_CAPTURE_FRAME_COUNTER m = true -> publish data w h m = Some m' ->
  exists slice m1 m2, find_frame w h m' = Some (slice, m1) /\ frame_bytes slice m1 = Some data /\
    find_frame w h m1 = Some (NoFrame, m2) /\ (ADDR_CAPTURE_FRAME + length data <= length m1)%nat.
Proof.
  intros Hm Hd Hw Hh Heq P; destruct (find_published _ _ _ w h _ _ Hm Hd Hw Hh Heq P) as (m1 & F & D & L & Heq').
  rewrite !Z.eqb_refl in F; cbn [negb orb] in F.
  destruct (publish_spec _ _ _ _ _ P) as (_ & B & _).
  assert (H : (ADDR_CAPTURE_FRAME_COUNTER + SIZE_COUNTER <= length m1)%nat) by (apply (counter_inside (length data)); congruence).
  destruct (counter_ready_spec _ _ H) as (m2 & E & _).
  exists (Slice ADDR_CAPTURE_FRAME (length data)), m1, m2; split_and!; [done|done| |lia].
  unfold find_frame; rewrite E, Heq'; done.
Qed.

(** The look gives the memory back before the frame is used: from then on the helper
    may put its next frame over it, and what is used is the next frame, or part of it. *)
Theorem frame_changes_under_the_reader data next w h m m' : is_usize (Z.of_nat (length m)) -> (0 < length data)%nat ->
  is_usize w -> is_usize h -> counter_equal ADDR_CAPTURE_FRAME_COUNTER m = true -> publish data w h m = Some m' ->
  length next = length data ->
  exists slice m1 m2, find_frame w h m' = Some (slice, m1) /\ frame_bytes slice m1 = Some data /\
    may_capture true m1 = true /\ put_frame next w h m1 = Some m2 /\ frame_bytes slice m2 = Some next.
Proof.
  intros Hm Hd Hw Hh Heq P N; destruct (find_published _ _ _ w h _ _ Hm Hd Hw Hh Heq P) as (m1 & F & D & L & Heq').
  rewrite !Z.eqb_refl in F; cbn [negb orb] in F; destruct (publish_spec _ _ _ _ _ P) as (_ & B & _).
  assert (E : exists m2, put_frame next w h m1 = Some m2).
  { unfold put_frame; rewrite (proj2 (Nat.ltb_ge _ _)) by lia; unfold set_frame_info.
    assert (K : (ADDR_CAPTURE_FRAME_INFO + size_of_FrameInfo <= ADDR_CAPTURE_FRAME)%nat) by (vm_compute; lia).
    destruct (write ADDR_CAPTURE_FRAME_INFO _ m1) as [m2|] eqn:W.
    - cbn [mbind option_bind]; eexists; apply write_Some; rewrite (write_length _ _ _ _ W); lia.
    - unfold write in W; rewrite (proj2 (Nat.leb_le _ _)) in W; [done|]; rewrite length_info; lia. }
  destruct E as [m2 E]; destruct (put_frame_spec _ _ _ _ _ E) as (_ & _ & _ & D2 & _).
  exists (Slice ADDR_CAPTURE_FRAME (length data)), m1, m2; split_and!; [done|done|done|done|].
  cbn [frame_bytes]; by rewrite <- N, D2.
Qed.

(** ** Witnesses *)

Definition fresh : list Z := repeat 0 256.

Theorem token_is_handed_over_witness :
  let token := generate_one_time_ipc_token (repeat 171 32) in
  match write_ipc_token_to_shmem fresh token with
  | Some m' => read_ipc_token_from_shmem m' = Some token
  | None => False
  end.
Proof.
  intros token; destruct (write_ipc_token_to_shmem fresh token) as [m'|] eqn:E; [|vm_compute in E; discriminate].
  exact (proj1 (token_is_handed_over token fresh m' E)).
Defined.

Theorem name_is_passed_on_witness :
  portable_service_shmem_name_from_args ["app"; "--portable-service"; portable_service_shmem_arg "_portable_service_7_00c0ffee"]%string =
  Some "_portable_service_7_00c0ffee"%string.
Proof.
  apply (name_is_passed_on "_portable_service_7_00c0ffee" ["app"; "--portable-service"]%string []);
    [vm_compute; reflexivity|repeat constructor].
Defined.

Definition one_frame : option (list Z) := publish [1; 2; 3; 4] 1 1 fresh.

Theorem frame_is_found_once_witness :
  match one_frame with
  | Some m' => exists slice m1 m2, find_frame 1 1 m' = Some (slice, m1) /\ frame_bytes slice m1 = Some [1; 2; 3; 4] /\
      find_frame 1 1 m1 = Some (NoFrame, m2) /\ (ADDR_CAPTURE_FRAME + 4 <= length m1)%nat
  | None => False
  end.
Proof.
  destruct one_frame as [m'|] eqn:E; [|vm_compute in E; discriminate].
  apply (frame_is_found_once [1; 2; 3; 4] 1 1 fresh m'); try done; unfold is_usize; cbn; lia.
Defined.

Theorem frame_changes_under_the_reader_witness :
  match one_frame with
  | Some m' => exists slice m1 m2, find_frame 1 1 m' = Some (slice, m1) /\ frame_bytes slice m1 = Some [1; 2; 3; 4] /\
      may_capture true m1 = true /\ put_frame [5; 6; 7; 8] 1 1 m1 = Some m2 /\ frame_bytes slice m2 = Some [5; 6; 7; 8]
  | None => False
  end.
Proof.
  destruct one_frame as [m'|] eqn:E; [|vm_compute in E; discriminate].
  apply (frame_changes_under_the_reader [1; 2; 3; 4] [5; 6; 7; 8] 1 1 fresh m'); try done; unfold is_usize; cbn; lia.
Defined.
