(* ===== verification/PortableService.v ===== *)
(** * The privileged helper and its launches

    Models the client half of src/src/server/portable_service.rs, the part that runs
    in the main process: the lifecycle of the helper, the generations that tell one
    launch from the next, the one-time token, the connections of helpers, the failures
    of secure capture, the capturer that reads the shared memory, and the routing of
    input; and the start of the helper by the video service (src/src/server/
    video_service.rs).  A generation is a number that does not wrap here.

    The statements of a lock's critical section are one step.  [issued] and [admitted]
    are kept for the theorems only; [delivered] is what goes to helpers. *)

From S2P Require Import Prelude ClipboardTypes Fingerprint LocalSockets HelperMemory.
#[local] Open Scope list_scope.
#[local] Open Scope Z_scope.

Definition PORTABLE_SERVICE_STARTUP_TIMEOUT : duration := from_secs 15.
Definition PORTABLE_SERVICE_FIRST_FRAME_TIMEOUT : duration := from_secs 5.
Definition MAX_SECURE_CAPTURE_RECOVERY_FAILURES : Z := 3.
Definition SECURE_CAPTURE_RECOVERY_BACKOFF : duration := from_secs 15.

Inductive StartPara := Direct | ElevatedDirect | SecureDesktop | Logon (username password : string).
Inductive PortableServiceCommand (Data : Type) := Send (data : Data) | ShutdownGeneration (generation : Z).
Arguments Send {Data}.
Arguments ShutdownGeneration {Data}.
Inductive LifecycleState := Stopped | Starting | Ready.
#[export] Instance LifecycleState_eq_dec : EqDecision LifecycleState.
Proof. solve_decision. Defined.

Section Service.
(** What the main process sends to a helper. *)
Context {Data : Type}.

(** ** The globals *)

Record Main := {
  state : LifecycleState;
  generation : Z;
  next_generation : Z;
  ipc_runtime_generation : Z;
  secure_capture_generation : Z;
  secure_desktop_helper_generation : Z;
  first_frame_generation : Z;
  recovery_failures : Z;
  last_recovery_failure : option instant;
  shmem : option (list Z);
  shmem_runtime_name : option string;
  ipc_runtime_token : option string;
  input_via_helper : bool;
  commands : list (PortableServiceCommand Data);
}.
#[export] Instance Main_eta : Eta Main :=
  fun m => {| state := state m; generation := generation m; next_generation := next_generation m;
              ipc_runtime_generation := ipc_runtime_generation m; secure_capture_generation := secure_capture_generation m;
              secure_desktop_helper_generation := secure_desktop_helper_generation m;
              first_frame_generation := first_frame_generation m; recovery_failures := recovery_failures m;
              last_recovery_failure := last_recovery_failure m; shmem := shmem m; shmem_runtime_name := shmem_runtime_name m;
              ipc_runtime_token := ipc_runtime_token m; input_via_helper := input_via_helper m; commands := commands m |}.

Definition main_default : Main :=
  {| state := Stopped; generation := 0; next_generation := 0; ipc_runtime_generation := 0; secure_capture_generation := 0;
     secure_desktop_helper_generation := 0; first_frame_generation := 0; recovery_failures := 0; last_recovery_failure := None;
     shmem := None; shmem_runtime_name := None; ipc_runtime_token := None; input_via_helper := false; commands := [] |}.

(** [compare_exchange(generation, 0)] *)
Definition zero_if (g current : Z) : Z := if current =? g then 0 else current.

(** ** Generations *)

Definition mark_generation_ready (g : Z) (m : Main) : bool * Main :=
  if (g =? 0) || negb (generation m =? g) || negb (bool_decide (state m = Starting)) then (false, m)
  else (true, m <| state := Ready |>).

Definition clear_generation_if_current (g : Z) (m : Main) : bool * Main :=
  if (g =? 0) || negb (generation m =? g) then (false, m)
  else
    let secure := (secure_capture_generation m =? g) || (secure_desktop_helper_generation m =? g) in
    (true, m <| state := Stopped |> <| secure_capture_generation ::= zero_if g |>
             <| secure_desktop_helper_generation ::= zero_if g |>
             <| first_frame_generation ::= (fun f => if secure then zero_if g f else f) |>
             <| input_via_helper := false |>).

Definition record_secure_capture_recovery_failure (now : instant) (m : Main) : Z * Main :=
  let failures := recovery_failures m + 1 in
  (failures, m <| recovery_failures := failures |> <| last_recovery_failure := Some now |>).

Definition recovery_allowed (failures : Z) (backoff_elapsed : bool) : bool :=
  (failures <? MAX_SECURE_CAPTURE_RECOVERY_FAILURES) || backoff_elapsed.
Definition secure_capture_recovery_allowed (now : instant) (m : Main) : bool * Main :=
  let failures := recovery_failures m in
  let backoff_elapsed := is_some_and (last_recovery_failure m) (fun last => SECURE_CAPTURE_RECOVERY_BACKOFF <=? since now last) in
  let allowed := recovery_allowed failures backoff_elapsed in
  (allowed,
   if (MAX_SECURE_CAPTURE_RECOVERY_FAILURES <=? failures) && backoff_elapsed
   then m <| recovery_failures := MAX_SECURE_CAPTURE_RECOVERY_FAILURES - 1 |> else m).
Definition reset_secure_capture_recovery_failures (m : Main) : Main :=
  m <| recovery_failures := 0 |> <| last_recovery_failure := None |> <| secure_capture_generation := 0 |>.

Definition ready_generation (m : Main) : option Z := if bool_decide (state m = Ready) then Some (generation m) else None.
Definition ready_for_capture (m : Main) : bool := is_some (ready_generation m).
Definition running (m : Main) : bool := bool_decide (state m = Ready).
Definition active (m : Main) : bool := negb (bool_decide (state m = Stopped)).

Definition mark_secure_capture_first_frame (g : Z) (m : Main) : Main :=
  if negb (bool_decide (ready_generation m = Some g)) then m
  else reset_secure_capture_recovery_failures (m <| first_frame_generation := g |>).

Definition send_generation_shutdown (g : Z) (m : Main) : Main := m <| commands ::= (fun q => q ++ [ShutdownGeneration g]) |>.
Definition stop_secure_capture_helper (m : Main) : bool * Main :=
  match ready_generation m with
  | None => (false, m)
  | Some g =>
      if (g =? 0) || negb (secure_desktop_helper_generation m =? g) then (false, m)
      else let '(cleared, m) := clear_generation_if_current g m in
           if cleared : bool then (true, send_generation_shutdown g m) else (false, m)
  end.
Definition request_secure_capture_restart (now : instant) (g : Z) (m : Main) : bool * Main :=
  let '(cleared, m) := clear_generation_if_current g m in
  if negb cleared then (false, m)
  else (true, send_generation_shutdown g (record_secure_capture_recovery_failure now m).2).

(** ** The token *)

Definition clear_token_of (memory : option (list Z)) : option (list Z) :=
  (fun b => default b (clear_ipc_token_in_shmem b)) <$> memory.

Definition clear_runtime_shmem_state (m : Main) : Main :=
  m <| shmem := None |> <| shmem_runtime_name := None |> <| ipc_runtime_token := None |> <| ipc_runtime_generation := 0 |>.

Definition consume_runtime_ipc_token_if_match (candidate : string) (m : Main) : option (option string * option Z) * Main :=
  if is_some_and (ipc_runtime_token m) (fun expected => constant_time_ipc_token_eq expected candidate) then
    (Some (shmem_runtime_name m, if ipc_runtime_generation m =? 0 then None else Some (ipc_runtime_generation m)),
     m <| ipc_runtime_token := None |> <| shmem ::= clear_token_of |>)
  else (None, m).

Definition forget_token (token : string) (m : Main) : Main :=
  if bool_decide (ipc_runtime_token m = Some token) then m <| ipc_runtime_token := None |> else m.
Definition restore_runtime_ipc_token_after_failed_handshake (token : string) (expected_shmem_name : option string) (m : Main) : Main :=
  if is_some_and (ipc_runtime_token m) (fun current => negb (current =? token)%string) then m
  else if negb (bool_decide (shmem_runtime_name m = expected_shmem_name)) then forget_token token m
  else
    match memory ← shmem m; write_ipc_token_to_shmem memory token with
    | Some memory => m <| shmem := Some memory |> <| ipc_runtime_token := Some token |>
    | None => forget_token token m
    end.

(** ** Launches *)

Definition start_para_routes_input_via_helper (para : StartPara) : bool :=
  match para with ElevatedDirect | SecureDesktop | Logon _ _ => true | Direct => false end.
Definition start_para_for_quick_support_process (elevated : bool) : StartPara := if elevated then ElevatedDirect else Direct.

(** [start_portable_service] runs through these stages. *)
Inductive Stage := Clearing | Creating | Publishing (token : string) | Spawning.
Record Launch := { para : StartPara; launch_token : Z; stage : Stage }.

(** Refused unless the helper is stopped, or was starting and has no process. *)
Definition begin_start (has_running_process : bool) (m : Main) : option (Z * Main) :=
  let m := if bool_decide (state m = Starting) && negb has_running_process then m <| state := Stopped |> else m in
  if negb (bool_decide (state m = Stopped)) then None
  else
    let g := next_generation m + 1 in
    Some (g, m <| next_generation := g |> <| state := Starting |> <| generation := g |>).

(** What making the memory needs: a name, the size for the displays, random bytes. *)
Record Creation := { shmem_name : string; wanted_size : nat; random_bytes : list Z }.

Definition create_memory (para : StartPara) (launch_token : Z) (c : option Creation) (m : Main) : option string * Main :=
  match c with
  | None => (None, m)
  | Some c =>
      if negb (is_valid_portable_service_shmem_name (shmem_name c)) then (None, m)
      else
        let ipc_token := generate_one_time_ipc_token (random_bytes c) in
        let secure := match para with SecureDesktop => launch_token | _ => 0 end in
        let memory := repeat 0 (Nat.max (wanted_size c) MIN_RUNTIME_SHMEM_LEN) in
        let m := m <| shmem := Some memory |> <| shmem_runtime_name := Some (shmem_name c) |>
                   <| ipc_runtime_generation := launch_token |> <| secure_capture_generation := secure |>
                   <| secure_desktop_helper_generation := secure |> <| first_frame_generation := 0 |> in
        match write_ipc_token_to_shmem memory ipc_token with
        | Some memory => (Some ipc_token, m <| shmem := Some memory |>)
        | None => (None, clear_runtime_shmem_state m)
        end
  end.

(** A process that could not be started; [cleared] unless its own path was not to be had. *)
Inductive SpawnOutcome := Spawned | SpawnFailed (cleared : bool).

(** The timer of a launch that was spawned, when it fires. *)
Definition starting_timeout (now : instant) (launch_token : Z) (m : Main) : Main :=
  if (generation m =? launch_token) && bool_decide (state m = Starting) then
    let m := m <| state := Stopped |> in
    let m := if secure_capture_generation m =? launch_token
             then (record_secure_capture_recovery_failure now m).2 <| secure_capture_generation ::= zero_if launch_token |> else m in
    m <| secure_desktop_helper_generation ::= zero_if launch_token |> <| input_via_helper := false |>
  else m.

(** ** Input *)

Definition routes_input_via_helper (m : Main) : bool := running m && input_via_helper m.
(** An event goes to the helper, or is handled here; [sent] says whether the queue
    took it. *)
Inductive Handled := ByHelper | Locally.
Definition handle_input (data : Data) (sent : bool) (m : Main) : Handled * Main :=
  if routes_input_via_helper m then
    if sent then (ByHelper, m <| commands ::= (fun q => q ++ [Send data]) |>) else (Locally, m)
  else (Locally, m).

(** ** The capturer *)

Record CapturerPortable := { cap_width : Z; cap_height : Z; cap_generation : Z; started_at : instant; first_frame_received : bool }.
#[export] Instance CapturerPortable_eta : Eta CapturerPortable :=
  fun c => {| cap_width := cap_width c; cap_height := cap_height c; cap_generation := cap_generation c; started_at := started_at c;
              first_frame_received := first_frame_received c |}.
Inductive FrameError := BrokenPipe | Other | BadFrame | WouldBlock | TimedOut.

Definition poke (addr : nat) (data : list Z) (b : list Z) : list Z := default b (write addr data b).

(** The memory was made large enough for what is written there. *)
Definition capturer_new (current_display : Z) (geometry : option (Z * Z)) (now : instant) (m : Main) : option CapturerPortable * Main :=
  match ready_generation m, shmem m with
  | Some g, Some b =>
      let b := poke ADDR_CURSOR_PARA (repeat 0 (length b - ADDR_CURSOR_PARA)) b in
      let b := poke ADDR_CAPTURER_PARA (para_bytes {| recreate := true; current_display := current_display; timeout_ms := 33 |}) b in
      let m := m <| shmem := Some (poke ADDR_CAPTURE_WOULDBLOCK (i32_to_vec 1) b) |> in
      let '(w, h) := default (0, 0) geometry in
      if (w =? 0) || (h =? 0) then (None, m)
      else (Some {| cap_width := w; cap_height := h; cap_generation := g; started_at := now; first_frame_received := false |},
            m <| secure_capture_generation := g |>)
  | _, _ => (None, m)
  end.

Definition capturer_frame (timeout_ms_wanted : Z) (now : instant) (c : CapturerPortable) (m : Main) :
    (FrameError + Found) * CapturerPortable * Main :=
  if negb (bool_decide (ready_generation m = Some (cap_generation c))) then (inl BrokenPipe, c, m)
  else match shmem m with
  | None => (inl Other, c, m)
  | Some b =>
      let p := read_para b in
      let b := if timeout_ms_wanted =? timeout_ms p then b
               else poke ADDR_CAPTURER_PARA (para_bytes {| recreate := recreate p; current_display := current_display p; timeout_ms := timeout_ms_wanted |}) b in
      let '(found, b) := default (NoFrame, b) (find_frame (cap_width c) (cap_height c) b) in
      let m := m <| shmem := Some b |> in
      match found with
      | InvalidData => (inl BadFrame, c, m)
      | WrongSize => (inl WouldBlock, c, m)
      | Slice addr len =>
          (inr (Slice addr len), c <| first_frame_received := true |>,
           if first_frame_received c then m else mark_secure_capture_first_frame (cap_generation c) m)
      | NoFrame =>
          if first_frame_timed_out (first_frame_received c) (since now (started_at c)) PORTABLE_SERVICE_FIRST_FRAME_TIMEOUT
          then (inl TimedOut, c, (request_secure_capture_restart now (cap_generation c) m).2)
          else (inl (if ptr_to_i32 ADDR_CAPTURE_WOULDBLOCK b =? 1 then WouldBlock else Other), c, m)
      end
  end.

(** ** The start by the video service *)

Definition INSTALLED_SECURE_CAPTURE_HELPER_START_COOLDOWN : duration := from_secs 5.
Inductive Ensured := NotNeeded | IsRunning | Waiting | StartIt.
(** [ensure_installed_secure_capture_helper] up to the launch itself. *)
Definition ensure_installed_secure_capture_helper (service_can : bool) (requires_secure : bool) (now : instant)
    (last_start : option instant) (m : Main) : Ensured * option instant * Main :=
  if negb (service_can && requires_secure) then (NotNeeded, last_start, m)
  else if running m then (IsRunning, last_start, m)
  else if active m then (Waiting, last_start, m)
  else
    let '(allowed, m) := secure_capture_recovery_allowed now m in
    if negb allowed then (Waiting, last_start, m)
    else if is_some_and last_start (fun last => since now last <? INSTALLED_SECURE_CAPTURE_HELPER_START_COOLDOWN)
    then (Waiting, last_start, m)
    else (StartIt, Some now, m).

(** ** The running system *)

(** A peer whose token matched and who has not been answered yet. *)
Record Handshake := { consumed_token : string; consumed_shmem_name : option string; consumed_generation : option Z }.
(** An authenticated peer.  The first one in the list holds the queue of commands;
    the others wait for it. *)
Record Connection := { conn_generation : Z; presented : string }.
Record Issue := { issue_generation : Z; issue_name : string; issue_token : string }.
Inductive Delivery := Delivered (generation : Z) (data : Data) | ToldToExit (generation : Z).

Record System := {
  main : Main;
  launches : list Launch;
  timers : list (Z * instant);
  handshake : option Handshake;
  connections : list Connection;
  issued : list Issue;
  admitted : list Connection;
  delivered : list Delivery;
}.
#[export] Instance System_eta : Eta System :=
  fun s => {| main := main s; launches := launches s; timers := timers s; handshake := handshake s;
              connections := connections s; issued := issued s; admitted := admitted s; delivered := delivered s |}.
Definition system_default : System :=
  {| main := main_default; launches := []; timers := []; handshake := None; connections := []; issued := []; admitted := [];
     delivered := [] |}.

Inductive Event :=
| BeginStart (para : StartPara) (has_running_process : bool)
| ClearMemory (g : Z)
| CreateMemory (g : Z) (c : option Creation)
| SetToken (g : Z)
| Spawn (g : Z) (now : instant) (outcome : SpawnOutcome)
| StartupTimeout (g : Z) (now : instant)
| Present (candidate : string)
| Answer (sent : bool)
| Pong
| TakeCommand
| ConnectionClosed (now : instant)
| StopHelper
| RestartHelper (g : Z) (now : instant)
| FirstFrame (g : Z)
| ResetFailures
| AskRecovery (now : instant)
| Input (data : Data)
| Arm (display : Z) (geometry : option (Z * Z)) (now : instant)
| DropMemory.

Definition find_launch (g : Z) (s : System) : option Launch := List.find (fun l => launch_token l =? g) (launches s).
Definition end_launch (g : Z) (s : System) : System := s <| launches ::= List.filter (fun l => negb (launch_token l =? g)) |>.
Definition at_stage (g : Z) (st : Stage) (s : System) : System :=
  s <| launches ::= map (fun l => if launch_token l =? g then {| para := para l; launch_token := g; stage := st |} else l) |>.
(** What a launch that failed leaves. *)
Definition fail_launch (g : Z) (s : System) : System := end_launch g s <| main ::= (fun m => (clear_generation_if_current g m).2) |>.

(** The end of an authenticated connection: a failure if nothing was captured yet. *)
Definition connection_closed (now : instant) (g : Z) (m : Main) : Main :=
  let secure := secure_capture_generation m =? g in
  let first_frame := first_frame_generation m =? g in
  let '(cleared, m) := clear_generation_if_current g m in
  if cleared && secure && negb first_frame then (record_secure_capture_recovery_failure now m).2 else m.

(** [None]: the event cannot happen there. *)
Definition exec (e : Event) (s : System) : option System :=
  match e with
  | BeginStart p r =>
      match begin_start r (main s) with
      | Some (g, m) => Some (s <| main := m |> <| launches ::= (fun l => l ++ [{| para := p; launch_token := g; stage := Clearing |}]) |>)
      | None => Some s
      end
  | ClearMemory g =>
      l ← find_launch g s;
      match stage l with Clearing => Some (at_stage g Creating s <| main ::= clear_runtime_shmem_state |>) | _ => None end
  | CreateMemory g c =>
      l ← find_launch g s;
      match stage l with
      | Creating =>
          let '(token, m) := create_memory (para l) g c (main s) in
          match token, c with
          | Some token, Some c =>
              Some (at_stage g (Publishing token) s <| main := m |>
                      <| issued ::= (fun i => i ++ [{| issue_generation := g; issue_name := shmem_name c; issue_token := token |}]) |>)
          | _, _ => Some (fail_launch g (s <| main := m |>))
          end
      | _ => None
      end
  | SetToken g =>
      l ← find_launch g s;
      match stage l with
      | Publishing token => Some (at_stage g Spawning s <| main ::= (fun m => m <| ipc_runtime_token := Some token |>) |>)
      | _ => None
      end
  | Spawn g now outcome =>
      l ← find_launch g s;
      match stage l with
      | Spawning =>
          match outcome with
          | Spawned =>
              Some (end_launch g s <| timers ::= (fun t => t ++ [(g, now + PORTABLE_SERVICE_STARTUP_TIMEOUT)]) |>
                      <| main ::= (fun m => m <| input_via_helper := start_para_routes_input_via_helper (para l) |>) |>)
          | SpawnFailed cleared => Some (fail_launch g (if cleared then s <| main ::= clear_runtime_shmem_state |> else s))
          end
      | _ => None
      end
  | StartupTimeout g now =>
      if existsb (fun '(t, due) => (t =? g) && (due <=? now)) (timers s)
      then Some (s <| timers ::= List.filter (fun '(t, _) => negb (t =? g)) |> <| main ::= starting_timeout now g |>) else None
  | Present candidate =>
      match handshake s with
      | Some _ => None
      | None =>
          let '(matched, m) := consume_runtime_ipc_token_if_match candidate (main s) in
          match matched with
          | Some (name, g) => Some (s <| main := m |> <| handshake := Some {| consumed_token := candidate; consumed_shmem_name := name; consumed_generation := g |} |>)
          | None => Some s
          end
      end
  | Answer sent =>
      h ← handshake s;
      let s := s <| handshake := None |> in
      if sent : bool then
        match consumed_generation h with
        | Some g => let c := {| conn_generation := g; presented := consumed_token h |} in
                    Some (s <| connections ::= (fun l => l ++ [c]) |> <| admitted ::= (fun l => l ++ [c]) |>)
        | None => Some s
        end
      else
        Some (s <| main ::= (fun m =>
          let m := restore_runtime_ipc_token_after_failed_handshake (consumed_token h) (consumed_shmem_name h) m in
          match consumed_generation h with Some g => (clear_generation_if_current g m).2 | None => m end) |>)
  | Pong => c ← head (connections s); Some (s <| main ::= (fun m => (mark_generation_ready (conn_generation c) m).2) |>)
  | TakeCommand =>
      c ← head (connections s);
      command ← head (commands (main s));
      let s := s <| main ::= (fun m => m <| commands ::= tail |>) |> in
      match command with
      | Send data => Some (s <| delivered ::= (fun d => d ++ [Delivered (conn_generation c) data]) |>)
      | ShutdownGeneration g => Some (if g =? conn_generation c then s <| delivered ::= (fun d => d ++ [ToldToExit g]) |> else s)
      end
  | ConnectionClosed now =>
      c ← head (connections s);
      Some (s <| connections ::= tail |> <| main ::= connection_closed now (conn_generation c) |>)
  | StopHelper => Some (s <| main ::= (fun m => (stop_secure_capture_helper m).2) |>)
  | RestartHelper g now => Some (s <| main ::= (fun m => (request_secure_capture_restart now g m).2) |>)
  | FirstFrame g => Some (s <| main ::= mark_secure_capture_first_frame g |>)
  | ResetFailures => Some (s <| main ::= reset_secure_capture_recovery_failures |>)
  | AskRecovery now => Some (s <| main ::= (fun m => (secure_capture_recovery_allowed now m).2) |>)
  | Input data => Some (s <| main ::= (fun m => (handle_input data true m).2) |>)
  | Arm display geometry now => Some (s <| main ::= (fun m => (capturer_new display geometry now m).2) |>)
  | DropMemory => Some (s <| main ::= clear_runtime_shmem_state |>)
  end.

Fixpoint exec_all (es : list Event) (s : System) : option System :=
  match es with [] => Some s | e :: es => s ← exec e s; exec_all es s end.

(** A launch begins when no other is under way, and the names, which are drawn at
    random, do not repeat. *)
Definition orderly (e : Event) (s : System) : Prop :=
  match e with
  | BeginStart _ _ => launches s = []
  | CreateMemory _ (Some c) => shmem_name c ∉ issue_name <$> issued s
  | _ => True
  end.
Definition step (s : System) (e : Event) (s' : System) : Prop := orderly e s /\ exec e s = Some s'.
Definition init (s : System) : Prop := s = system_default.
#[local] Notation reachable := (reachable init step).

(** ** Invariants *)

Definition unused (g : Z) (hs : option Handshake) (adm : list Connection) : Prop :=
  Forall (fun c => conn_generation c <> g) adm /\ forall h, hs = Some h -> consumed_generation h <> Some g.

(** What tokens, memory and connections have to do with each other. *)
Record token_inv (m : Main) (ls : list Launch) (hs : option Handshake) (iss : list Issue) (adm : list Connection) : Prop := {
  inv_issued : Forall (fun i => 0 < issue_generation i <= next_generation m) iss;
  inv_generations : NoDup (issue_generation <$> iss);
  inv_names : NoDup (issue_name <$> iss);
  inv_admitted : Forall (fun c => exists n, {| issue_generation := conn_generation c; issue_name := n; issue_token := presented c |} ∈ iss) adm;
  inv_once : NoDup (conn_generation <$> adm);
  inv_memory : match shmem_runtime_name m with
    | Some n => shmem m <> None /\ exists t, {| issue_generation := ipc_runtime_generation m; issue_name := n; issue_token := t |} ∈ iss
    | None => shmem m = None /\ ipc_runtime_generation m = 0 end;
  inv_token : forall t, ipc_runtime_token m = Some t -> shmem_runtime_name m = None \/
    (exists n, shmem_runtime_name m = Some n /\
       {| issue_generation := ipc_runtime_generation m; issue_name := n; issue_token := t |} ∈ iss) /\
    unused (ipc_runtime_generation m) hs adm;
  inv_handshake : forall h, hs = Some h -> match consumed_generation h, consumed_shmem_name h with
    | None, None => True
    | Some g, Some n => {| issue_generation := g; issue_name := n; issue_token := consumed_token h |} ∈ iss /\
                        Forall (fun c => conn_generation c <> g) adm
    | _, _ => False end;
  inv_launch : match ls with
    | [] => True
    | [l] => (launch_token l = next_generation m /\ 0 < next_generation m) /\
        match stage l with
        | Clearing => Forall (fun i => issue_generation i < next_generation m) iss
        | Creating => Forall (fun i => issue_generation i < next_generation m) iss /\ ipc_runtime_token m = None /\ shmem_runtime_name m = None
        | Publishing t => ipc_runtime_token m = None /\ unused (launch_token l) hs adm /\
            exists n, {| issue_generation := launch_token l; issue_name := n; issue_token := t |} ∈ iss /\
              (shmem_runtime_name m = None \/ shmem_runtime_name m = Some n /\ ipc_runtime_generation m = launch_token l)
        | Spawning => True
        end
    | _ => False end;
}.

(** The state of the helper: who makes it ready, and what ends its start. *)
Record life_inv (m : Main) (ls : list Launch) (ts : list (Z * instant)) (cs : list Connection) : Prop := {
  inv_generation : 0 <= generation m <= next_generation m;
  inv_ready : state m = Ready -> generation m <> 0 /\ exists c rest, cs = c :: rest /\ conn_generation c = generation m;
  inv_starting : state m = Starting -> (exists l, l ∈ ls /\ launch_token l = generation m) \/ exists due, (generation m, due) ∈ ts;
}.

Definition keeps_token (m m' : Main) : Prop :=
  shmem_runtime_name m' = shmem_runtime_name m /\ ipc_runtime_token m' = ipc_runtime_token m /\
  ipc_runtime_generation m' = ipc_runtime_generation m /\ (shmem m' = None <-> shmem m = None) /\
  next_generation m' = next_generation m.
Definition only_stops (m m' : Main) : Prop :=
  generation m' = generation m /\ next_generation m' = next_generation m /\ (state m' = state m \/ state m' = Stopped).

Lemma token_inv_keeps m m' ls hs iss adm : keeps_token m m' -> token_inv m ls hs iss adm -> token_inv m' ls hs iss adm.
Proof.
  intros (N & T & G & S & X) [I1 Ig I2 I3 I4 I5 I6 I7 I8]; split; rewrite ?X, ?N, ?T, ?G; try done.
  destruct (shmem_runtime_name m); naive_solver.
Qed.
Lemma life_inv_stops m m' ls ts cs : only_stops m m' -> life_inv m ls ts cs -> life_inv m' ls ts cs.
Proof.
  intros (G & X & S) [I1 I2 I3]; split; rewrite ?G, ?X; [done|..]; intros E; (destruct S as [S|S]; [|congruence]);
    [apply I2|apply I3]; congruence.
Qed.

Lemma keeps_token_refl m : keeps_token m m. Proof. done. Qed.
Lemma only_stops_refl m : only_stops m m. Proof. repeat split; by left. Qed.
Lemma keeps_token_trans m1 m2 m3 : keeps_token m1 m2 -> keeps_token m2 m3 -> keeps_token m1 m3.
Proof. unfold keeps_token; intuition congruence. Qed.
Lemma only_stops_trans m1 m2 m3 : only_stops m1 m2 -> only_stops m2 m3 -> only_stops m1 m3.
Proof. unfold only_stops; intuition congruence. Qed.

Definition quiet (m m' : Main) : Prop := keeps_token m m' /\ only_stops m m'.
#[local] Instance quiet_refl : Reflexive quiet.
Proof. intros m; split; [apply keeps_token_refl|apply only_stops_refl]. Qed.
#[local] Instance quiet_trans : Transitive quiet.
Proof. intros m1 m2 m3 [] []; split; [by eapply keeps_token_trans|by eapply only_stops_trans]. Qed.

Ltac solve_quiet := repeat case_match; try reflexivity; repeat split; cbn; auto.

Lemma clear_generation_quiet g m : quiet m (clear_generation_if_current g m).2.
Proof. unfold clear_generation_if_current; solve_quiet. Qed.
Lemma record_quiet now m : quiet m (record_secure_capture_recovery_failure now m).2.
Proof. solve_quiet. Qed.
Lemma reset_quiet m : quiet m (reset_secure_capture_recovery_failures m).
Proof. solve_quiet. Qed.
Lemma first_frame_quiet g m : quiet m (mark_secure_capture_first_frame g m).
Proof. unfold mark_secure_capture_first_frame; solve_quiet. Qed.
Lemma shutdown_quiet g m : quiet m (send_generation_shutdown g m).
Proof. solve_quiet. Qed.
Lemma stop_quiet m : quiet m (stop_secure_capture_helper m).2.
Proof.
  unfold stop_secure_capture_helper; destruct (ready_generation m) as [g|]; [|reflexivity]; destruct (_ || _); [reflexivity|].
  pose proof (clear_generation_quiet g m); destruct (clear_generation_if_current g m) as [[] m']; cbn in *; [|done].
  etransitivity; [done|apply shutdown_quiet].
Qed.
Lemma restart_quiet now g m : quiet m (request_secure_capture_restart now g m).2.
Proof.
  unfold request_secure_capture_restart; pose proof (clear_generation_quiet g m).
  destruct (clear_generation_if_current g m) as [[] m']; cbn [negb snd] in *; [|done].
  etransitivity; [done|]; etransitivity; [apply record_quiet|apply shutdown_quiet].
Qed.
Lemma recovery_quiet now m : quiet m (secure_capture_recovery_allowed now m).2.
Proof. unfold secure_capture_recovery_allowed; cbn; solve_quiet. Qed.
Lemma input_quiet data m : quiet m (handle_input data true m).2.
Proof. unfold handle_input; solve_quiet. Qed.
Lemma arm_quiet d geo now m : quiet m (capturer_new d geo now m).2.
Proof.
  unfold capturer_new; destruct (ready_generation m), (shmem m) eqn:S; try reflexivity.
  destruct (default (0, 0) geo); destruct (_ || _); repeat split; cbn; auto; congruence.
Qed.
Lemma timeout_quiet now g m : quiet m (starting_timeout now g m).
Proof. unfold starting_timeout; solve_quiet. Qed.

Record inv (s : System) : Prop := {
  inv_tokens : token_inv (main s) (launches s) (handshake s) (issued s) (admitted s);
  inv_life : life_inv (main s) (launches s) (timers s) (connections s);
  inv_connected : Forall (fun c => c ∈ admitted s) (connections s);
}.

(** A step that leaves the rest of the system alone. *)
Lemma inv_quiet s s' : quiet (main s) (main s') -> launches s' = launches s -> timers s' = timers s -> handshake s' = handshake s ->
  connections s' = connections s -> issued s' = issued s -> admitted s' = admitted s -> inv s -> inv s'.
Proof.
  intros [K S] L T H C I A [It Il Ic]; split; rewrite ?L, ?T, ?H, ?C, ?I, ?A;
    [by eapply token_inv_keeps|by eapply life_inv_stops|done].
Qed.

Lemma inv_init : inv system_default.
Proof.
  split; [split; cbn; try done; try constructor|split; cbn; try done; lia|constructor].
Qed.

Lemma issue_unique iss n g t g' t' : NoDup (issue_name <$> iss) ->
  {| issue_generation := g; issue_name := n; issue_token := t |} ∈ iss ->
  {| issue_generation := g'; issue_name := n; issue_token := t' |} ∈ iss -> g = g' /\ t = t'.
Proof.
  intros ND H H'; apply list_elem_of_lookup in H as [i H], H' as [j H'].
  assert (i = j) as -> by (eapply (NoDup_lookup _ i j n ND); rewrite list_lookup_fmap, ?H, ?H'; done).
  rewrite H in H'; by injection H' as -> ->.
Qed.

Lemma inv_begin p r s s' : launches s = [] -> exec (BeginStart p r) s = Some s' -> inv s -> inv s'.
Proof.
  intros L E [It Il Ic]; cbn in E; destruct (begin_start r (main s)) as [[g m]|] eqn:B; [|by injection E as <-].
  injection E as <-; unfold begin_start in B; destruct It as [I1 Ig I2 I3 I4 I5 I6 I7 I8], Il as [G R S]; rewrite L.
  destruct (bool_decide (state (main s) = Starting) && negb r); (destruct (negb _); [done|]); injection B as <- <-;
    (split; [split|split|done]); cbn; try done; try lia.
  all: try (split; [split; [done|lia]|]); try (eapply Forall_impl; [exact I1|]; cbn; lia).
  all: intros _; left; eexists; split; [left|done].
Qed.

Lemma inv_intro s ls : launches s = ls -> token_inv (main s) ls (handshake s) (issued s) (admitted s) ->
  life_inv (main s) ls (timers s) (connections s) -> Forall (fun c => c ∈ admitted s) (connections s) -> inv s.
Proof. intros <-; by split. Qed.

Lemma launch_found s g l : inv s -> find_launch g s = Some l ->
  launches s = [l] /\ launch_token l = g /\ (g = next_generation (main s) /\ 0 < g) /\
  (forall st, launches (at_stage g st s) = [{| para := para l; launch_token := g; stage := st |}]) /\ launches (end_launch g s) = [].
Proof.
  intros [It _ _] F; pose proof (inv_launch _ _ _ _ _ It) as I8; unfold find_launch in F; unfold at_stage, end_launch; cbn.
  destruct (launches s) as [|l' [|]]; cbn in *; [done| |done]; destruct I8 as [[N P] _].
  destruct (Z.eqb_spec (launch_token l') g) as [E|E]; [|done]; injection F as ->; cbn; split_and!; done || congruence.
Qed.

Lemma unused_new g hs iss adm next : Forall (fun i => issue_generation i < next) iss ->
  Forall (fun c => exists n, {| issue_generation := conn_generation c; issue_name := n; issue_token := presented c |} ∈ iss) adm ->
  (forall h, hs = Some h -> match consumed_generation h, consumed_shmem_name h with
    | None, None => True
    | Some g, Some n => {| issue_generation := g; issue_name := n; issue_token := consumed_token h |} ∈ iss /\
                        Forall (fun c => conn_generation c <> g) adm
    | _, _ => False end) -> next <= g -> unused g hs adm.
Proof.
  intros I A H Hg; rewrite Forall_forall in I; split.
  - eapply Forall_impl; [exact A|]; intros c (n & Hn) <-; specialize (I _ Hn); cbn in I; lia.
  - intros h E; specialize (H h E); destruct (consumed_generation h), (consumed_shmem_name h); try done.
    destruct H as [Hn _]; intros [= ->]; specialize (I _ Hn); cbn in I; lia.
Qed.

(** Memory, name and token are dropped together. *)
Lemma token_inv_clear m ls hs iss adm :
  token_inv m ls hs iss adm -> token_inv (clear_runtime_shmem_state m) ls hs iss adm.
Proof.
  intros [I1 Ig I2 I3 I4 I5 I6 I7 I8]; split; cbn; try done.
  destruct ls as [|l []]; [done| |done]; destruct I8 as [E I8]; split; [done|]; destruct (stage l); try done.
  - naive_solver.
  - destruct I8 as (_ & U & n & Hn & _); split_and!; [done|done|]; exists n; split; [done|by left].
Qed.

Lemma clear_life m ls ts cs : life_inv m ls ts cs -> life_inv (clear_runtime_shmem_state m) ls ts cs.
Proof. apply life_inv_stops; repeat split; by left. Qed.

Lemma inv_clear g s s' : exec (ClearMemory g) s = Some s' -> inv s -> inv s'.
Proof.
  intros E I; cbn [exec] in E; destruct (find_launch g s) as [l|] eqn:F; [|done]; cbn [mbind option_bind] in E.
  destruct (launch_found _ _ _ I F) as (L & <- & [N P] & A & _); destruct I as [[I1 Ig I2 I3 I4 I5 I6 I7 I8] Il Ic].
  destruct (stage l) eqn:St; try done; injection E as <-; rewrite L in I8, Il; destruct I8 as [_ I8]; rewrite St in I8.
  eapply inv_intro; [apply A| |apply clear_life|done].
  - split; cbn; try done; split; [lia|done].
  - destruct Il as [G R S]; split; [done..|]; intros X; destruct (S X) as [(l' & ->%list_elem_of_singleton & E)|]; [|by right].
    left; eexists; split; [left|done].
Qed.

(** A launch that failed is over, and so is its start. *)
Lemma inv_fail g s l : find_launch g s = Some l -> inv s -> inv (fail_launch g s).
Proof.
  intros F I; destruct (launch_found _ _ _ I F) as (L & <- & [N P] & _ & En); destruct I as [It [G R S] Ic].
  pose proof (clear_generation_quiet (launch_token l) (main s)) as [K O].
  eapply inv_intro; [exact En| | |exact Ic].
  { eapply token_inv_keeps; [exact K|]; destruct It; by split. }
  change (life_inv (clear_generation_if_current (launch_token l) (main s)).2 [] (timers s) (connections s)); split.
  - destruct O as (-> & -> & _); done.
  - destruct O as (-> & _ & O); intros X; apply R; destruct O; congruence.
  - intros X; right; destruct O as (Eg & _ & O); rewrite Eg; assert (X' : state (main s) = Starting) by (destruct O; congruence).
    destruct (S X') as [(l' & Hl' & E)|?]; [|done]; rewrite L in Hl'; apply list_elem_of_singleton in Hl' as ->.
    revert X; unfold clear_generation_if_current; rewrite <- E, Z.eqb_refl; cbn [negb]; rewrite orb_false_r;
    destruct (Z.eqb_spec (launch_token l) 0); [lia|done].
Qed.

(** Life goes on for a launch that reaches its next stage. *)
Lemma life_next l st m ls' ts cs : life_inv m [l] ts cs -> ls' = [{| para := para l; launch_token := launch_token l; stage := st |}] ->
  life_inv m ls' ts cs.
Proof.
  intros [G R S] ->; split; [done..|]; intros X; destruct (S X) as [(l' & ->%list_elem_of_singleton & E)|]; [|by right].
  left; eexists; split; [left|done].
Qed.

Lemma create_memory_spec p g c m token m' : create_memory p g (Some c) m = (Some token, m') ->
  only_stops m m' /\ shmem_runtime_name m' = Some (shmem_name c) /\ ipc_runtime_generation m' = g /\ shmem m' <> None /\
  ipc_runtime_token m' = ipc_runtime_token m.
Proof.
  unfold create_memory; destruct (negb _); [done|]; cbn; destruct (write_ipc_token_to_shmem _ _) as [b|]; [|done].
  intros [= _ <-]; split; [repeat split; by left|]; cbn; split_and!; done || congruence.
Qed.

Lemma create_memory_fails p g c m m' : create_memory p g c m = (None, m') -> quiet m m' \/
  exists m1, only_stops m m1 /\ m' = clear_runtime_shmem_state m1.
Proof.
  unfold create_memory; destruct c as [c|]; [|intros [= <-]; left; reflexivity]; destruct (negb _); [intros [= <-]; left; reflexivity|].
  destruct (write_ipc_token_to_shmem _ _); [done|]; intros [= <-]; right; eexists; split; [|reflexivity]; repeat split; by left.
Qed.

Lemma clear_forgets m m1 ls hs iss adm : only_stops m m1 -> token_inv m ls hs iss adm -> token_inv (clear_runtime_shmem_state m1) ls hs iss adm.
Proof.
  intros (_ & X & _) I; apply token_inv_clear in I as [I1 Ig I2 I3 I4 I5 I6 I7 I8]; split; cbn in *; rewrite ?X; done.
Qed.

Lemma inv_create g c s s' : orderly (CreateMemory g c) s -> exec (CreateMemory g c) s = Some s' -> inv s -> inv s'.
Proof.
  intros Fresh E I; cbn [exec] in E; destruct (find_launch g s) as [l|] eqn:F; [|done]; cbn [mbind option_bind] in E.
  pose proof (launch_found _ _ _ I F) as (L & <- & [N P] & A & _); destruct (stage l) eqn:St; try done.
  destruct (create_memory (para l) (launch_token l) c (main s)) as [token m'] eqn:C.
  assert (Hfail : token = None -> inv (fail_launch (launch_token l) (s <| main := m' |>))).
  { intros ->; eapply (inv_fail _ _ l); [exact F|]; destruct I as [It Il Ic]; destruct (create_memory_fails _ _ _ _ _ C) as [[K O]|(m1 & O & ->)].
    - split; [by eapply token_inv_keeps|by eapply life_inv_stops|done].
    - split; [by eapply clear_forgets|apply clear_life; by eapply life_inv_stops|done]. }
  destruct token as [token|]; [|injection E as <-; auto]; destruct c as [c|]; [|done]; injection E as <-; clear Hfail.
  destruct (create_memory_spec _ _ _ _ _ _ C) as (O & Nm & Gm & Sm & Tm); destruct I as [[I1 Ig I2 I3 I4 I5 I6 I7 I8] Il Ic].
  rewrite L in I8, Il; destruct I8 as [_ I8]; rewrite St in I8; destruct I8 as (Old & Tn & Nn).
  pose proof (unused_new (launch_token l) _ _ _ _ Old I3 I7 ltac:(lia)) as U; pose proof O as (_ & X & _).
  eapply inv_intro; [apply A| |eapply life_next; [eapply life_inv_stops; [exact O|exact Il]|reflexivity]|exact Ic].
  set (i := {| issue_generation := launch_token l; issue_name := shmem_name c; issue_token := token |}).
  assert (Hi : i ∈ issued s ++ [i]) by (apply elem_of_app; right; left).
  split; cbn; rewrite ?X, ?Nm, ?Gm, ?Tm, ?Tn; try done.
  - apply Forall_app; split; [done|]; constructor; [cbn; lia|constructor].
  - rewrite fmap_app; apply NoDup_app; split_and!; [done| |by apply NoDup_singleton].
    intros x Hx Hx'; apply list_elem_of_singleton in Hx' as ->; apply list_elem_of_fmap in Hx as (k & Ek & Hk).
    rewrite Forall_forall in Old; specialize (Old _ Hk); cbn in Ek; lia.
  - rewrite fmap_app; apply NoDup_app; split_and!; [done| |by apply NoDup_singleton].
    intros n Hn Hn'; apply list_elem_of_singleton in Hn' as ->; done.
  - eapply Forall_impl; [exact I3|]; intros k (n & Hn); exists n; apply elem_of_app; by left.
  - split; [done|]; eauto.
  - intros h Hh; specialize (I7 h Hh); destruct (consumed_generation h), (consumed_shmem_name h); try done.
    destruct I7 as [Hn ?]; split; [apply elem_of_app; by left|done].
  - split; [split; [done|lia]|]; split_and!; [done|done|]; exists (shmem_name c); split; [done|by right].
Qed.

Lemma inv_set_token g s s' : exec (SetToken g) s = Some s' -> inv s -> inv s'.
Proof.
  intros E I; cbn [exec] in E; destruct (find_launch g s) as [l|] eqn:F; [|done]; cbn [mbind option_bind] in E.
  destruct (launch_found _ _ _ I F) as (L & <- & [N P] & A & _); destruct I as [[I1 Ig I2 I3 I4 I5 I6 I7 I8] Il Ic].
  destruct (stage l) eqn:St; try done; injection E as <-; rewrite L in I8, Il; destruct I8 as [_ I8]; rewrite St in I8.
  destruct I8 as (_ & U & n & Hn & Nm).
  eapply inv_intro; [apply A| |eapply life_next; [eapply life_inv_stops; [|exact Il]; repeat split; by left|reflexivity]|exact Ic].
  split; cbn; try done; [|split; [lia|done]].
  intros t [= <-]; destruct Nm as [Nm|[Nm Gm]]; [by left|right]; rewrite Gm; eauto.
Qed.

Lemma inv_drop s : inv s -> inv (s <| main ::= clear_runtime_shmem_state |>).
Proof. intros [It Il Ic]; split; [by apply token_inv_clear|by apply clear_life|done]. Qed.

Lemma inv_spawn g now o s s' : exec (Spawn g now o) s = Some s' -> inv s -> inv s'.
Proof.
  intros E I; cbn [exec] in E; destruct (find_launch g s) as [l|] eqn:F; [|done]; cbn [mbind option_bind] in E.
  destruct (launch_found _ _ _ I F) as (L & <- & [N P] & _ & En); destruct (stage l) eqn:St; try done; destruct o as [|cleared]; injection E as <-.
  - destruct I as [It Il Ic]; rewrite L in Il; eapply inv_intro; [exact En| | |exact Ic].
    + eapply token_inv_keeps; [|destruct It; split; cbn; done]; done.
    + destruct Il as [G R S]; split; cbn; [done..|]; intros X; right.
      destruct (S X) as [(l' & ->%list_elem_of_singleton & <-)|[due ?]]; eexists; apply elem_of_app; [right; left|by left].
  - eapply (inv_fail _ _ l); destruct cleared; [exact F|exact F|by apply inv_drop|done].
Qed.

Lemma inv_present candidate s s' : exec (Present candidate) s = Some s' -> inv s -> inv s'.
Proof.
  intros E [It Il Ic]; cbn in E; destruct (handshake s) eqn:Hs; [done|].
  unfold consume_runtime_ipc_token_if_match in E; destruct (ipc_runtime_token (main s)) as [t|] eqn:T; cbn in E; [|injection E as <-; split; rewrite ?Hs; done].
  destruct (constant_time_ipc_token_eq t candidate) eqn:Q; cbn in E; [|injection E as <-; split; rewrite ?Hs; done].
  apply token_eq_exact in Q as [<- _]; injection E as <-; destruct It as [I1 Ig I2 I3 I4 I5 I6 I7 I8].
  split; [split|eapply life_inv_stops; [|exact Il]; repeat split; by left|done]; cbn; try done.
  - destruct (shmem_runtime_name (main s)); destruct I5 as [I5 ?]; (split; [|done]); [by destruct (shmem (main s))|by rewrite I5].
  - intros h [= <-]; cbn; specialize (I6 t T); destruct (shmem_runtime_name (main s)) as [n|] eqn:Nm.
    + destruct I6 as [?|[(n' & [= <-] & Hn) [U _]]]; [done|]; rewrite Forall_forall in I1.
      pose proof (I1 _ Hn) as Pg; cbn in Pg; rewrite (proj2 (Z.eqb_neq _ _)) by lia; done.
    + destruct I5 as [_ ->]; done.
  - destruct (launches s) as [|l []]; try done; destruct I8 as [? I8]; split; [done|]; destruct (stage l); naive_solver.
Qed.

(** A token that is put back is that of the memory that is there. *)
Lemma restore_spec token name m : let m' := restore_runtime_ipc_token_after_failed_handshake token name m in
  only_stops m m' /\ shmem_runtime_name m' = shmem_runtime_name m /\ ipc_runtime_generation m' = ipc_runtime_generation m /\
  (shmem m' = None <-> shmem m = None) /\
  (ipc_runtime_token m' = ipc_runtime_token m \/ ipc_runtime_token m' = None \/
   ipc_runtime_token m' = Some token /\ shmem_runtime_name m = name /\ shmem m <> None).
Proof.
  unfold restore_runtime_ipc_token_after_failed_handshake, forget_token.
  destruct (is_some_and _ _); [repeat split; auto|].
  destruct (bool_decide_reflect (shmem_runtime_name m = name)); cbn [negb].
  2:{ destruct (bool_decide _); repeat split; cbn; auto. }
  destruct (shmem m) as [b|] eqn:S; cbn [mbind option_bind]; [|destruct (bool_decide _); repeat split; cbn; auto].
  destruct (write_ipc_token_to_shmem b token); [|destruct (bool_decide _); repeat split; cbn; rewrite ?S; auto].
  repeat split; cbn; auto; try done; right; right; done.
Qed.

Lemma unused_none g hs adm : unused g hs adm -> unused g None adm.
Proof. intros [U _]; by split. Qed.

Lemma inv_restore s h : handshake s = Some h -> inv s ->
  inv (s <| handshake := None |> <| main ::= restore_runtime_ipc_token_after_failed_handshake (consumed_token h) (consumed_shmem_name h) |>).
Proof.
  intros Hs [It Il Ic]; destruct (restore_spec (consumed_token h) (consumed_shmem_name h) (main s)) as (O & N & G & S & T).
  split; [|by eapply life_inv_stops|done]; destruct It as [I1 Ig I2 I3 I4 I5 I6 I7 I8]; pose proof O as (_ & X & _); specialize (I7 h Hs).
  split; cbn; rewrite ?X, ?N, ?G; try done.
  - destruct (shmem_runtime_name (main s)); destruct I5; split; [tauto|done|tauto|done].
  - intros t Et; destruct T as [T|[T|(T & Nm & Sm)]]; [|congruence|].
    + destruct (I6 t) as [?|[? U]]; [congruence|by left|right; split; [done|by eapply unused_none]].
    + rewrite T in Et; injection Et as <-; rewrite Nm in *; destruct (consumed_shmem_name h) as [n|] eqn:Cn; [right|by left].
      destruct (consumed_generation h) as [g|] eqn:Cg; [|done]; destruct I7 as [Hn U]; destruct I5 as [_ [t Ht]].
      destruct (issue_unique _ _ _ _ _ _ I2 Hn Ht) as [<- _]; split; [eauto|by split].
  - destruct (launches s) as [|l []]; try done; destruct I8 as [? I8]; split; [done|]; destruct (stage l); try done.
    + destruct I8 as (? & Tn & Nn); split_and!; [done| |done]; destruct T as [T|[T|(T & Nm & Sm)]]; [congruence|done|].
      rewrite Nn in I5; destruct I5 as [I5 _]; done.
    + destruct I8 as (Tn & U & n & Hn & Nm); split_and!; [|by eapply unused_none|by exists n].
      destruct T as [T|[T|(T & Nm' & Sm)]]; [congruence|done|]; exfalso; destruct Nm as [Nm|[Nm Gm]]; rewrite Nm in *; [by destruct I5|].
      rewrite <- Nm' in I7; destruct (consumed_generation h) as [g|] eqn:Cg; [|done]; destruct I7 as [Hn' _].
      destruct (issue_unique _ _ _ _ _ _ I2 Hn Hn') as [<- _]; destruct U as [_ U]; by apply (U h Hs).
Qed.

Lemma inv_answer sent s s' : exec (Answer sent) s = Some s' -> inv s -> inv s'.
Proof.
  intros E I; cbn [exec] in E; destruct (handshake s) as [h|] eqn:Hs; [|done]; cbn [mbind option_bind] in E; destruct sent.
  - destruct I as [[I1 Ig I2 I3 I4 I5 I6 I7 I8] Il Ic]; pose proof (I7 h Hs) as Ih.
    assert (Ul : forall g, unused g (Some h) (admitted s) -> consumed_generation h <> Some g) by (intros g [_ U]; by apply U).
    assert (L8 : match launches s with
      | [] => True
      | [l] => (launch_token l = next_generation (main s) /\ 0 < next_generation (main s)) /\
        match stage l with
        | Clearing => Forall (fun i => issue_generation i < next_generation (main s)) (issued s)
        | Creating => Forall (fun i => issue_generation i < next_generation (main s)) (issued s) /\ ipc_runtime_token (main s) = None /\ shmem_runtime_name (main s) = None
        | Publishing t => ipc_runtime_token (main s) = None /\ unused (launch_token l) (Some h) (admitted s) /\
            exists n, {| issue_generation := launch_token l; issue_name := n; issue_token := t |} ∈ issued s /\
              (shmem_runtime_name (main s) = None \/ shmem_runtime_name (main s) = Some n /\ ipc_runtime_generation (main s) = launch_token l)
        | Spawning => True
        end
      | _ => False end) by (by rewrite <- Hs).
    rewrite Hs in I6; clear I8; destruct (consumed_generation h) as [g|] eqn:Cg; injection E as <-.
    + assert (Uc : forall g', unused g' (Some h) (admitted s) ->
          unused g' None (admitted s ++ [{| conn_generation := g; presented := consumed_token h |}])).
      { intros g' U; split; [|done]; destruct U as [Ua Uh]; apply Forall_app; split; [done|]; constructor; [cbn|constructor].
        intros ->; by apply (Uh h eq_refl). }
      destruct (consumed_shmem_name h) as [n|]; [|done]; destruct Ih as [Hn Ua].
      split; [split| |]; cbn; try done.
      * apply Forall_app; split; [done|]; constructor; [cbn; eauto|constructor].
      * rewrite fmap_app; apply NoDup_app; split_and!; [done| |by apply NoDup_singleton].
        intros x Hx Hx'; apply list_elem_of_singleton in Hx' as ->; apply list_elem_of_fmap in Hx as (c & Ec & Hc).
        rewrite Forall_forall in Ua; by apply (Ua c Hc).
      * intros t Et; destruct (I6 t Et) as [?|[? U]]; [by left|right; split; [done|by apply Uc]].
      * destruct (launches s) as [|l []]; try done; destruct L8 as [? L8]; split; [done|]; destruct (stage l); try done; naive_solver.
      * destruct Il as [G R S]; split; cbn; [done| |done]; intros X; destruct (R X) as [? (c & rest & -> & Ec)]; split; [done|].
        eexists _, _; split; [reflexivity|done].
      * apply Forall_app; split; [eapply Forall_impl; [exact Ic|]; cbn; intros; apply elem_of_app; by left|].
        constructor; [apply elem_of_app; right; left|constructor].
    + split; [split|done|done]; cbn; try done.
      * intros t Et; destruct (I6 t Et) as [?|[? U]]; [by left|right; split; [done|by eapply unused_none]].
      * destruct (launches s) as [|l []]; try done; destruct L8 as [? L8]; split; [done|]; destruct (stage l); try done.
        destruct L8 as (? & U & ?); split_and!; [done|by eapply unused_none|done].
  - injection E as <-; pose proof (inv_restore s h Hs I) as J; destruct (consumed_generation h) as [g|]; [|exact J].
    eapply inv_quiet; [| | | | | | |exact J]; try reflexivity; apply clear_generation_quiet.
Qed.

Lemma inv_pong s s' : exec Pong s = Some s' -> inv s -> inv s'.
Proof.
  intros E [It Il Ic]; cbn [exec] in E; destruct (connections s) as [|c rest] eqn:C; [done|]; injection E as <-.
  unfold mark_generation_ready; split; cbn; [| |by rewrite C].
  - eapply token_inv_keeps; [|exact It]; solve_quiet.
  - rewrite C; destruct Il as [G R S]; destruct (Z.eqb_spec (conn_generation c) 0), (Z.eqb_spec (generation (main s)) (conn_generation c)),
      (bool_decide _) eqn:B; cbn; try (by split).
    split; cbn; [done| |done]; intros _; split; [lia|eauto].
Qed.

Lemma inv_take s s' : exec TakeCommand s = Some s' -> inv s -> inv s'.
Proof.
  intros E I; cbn [exec] in E; destruct (connections s) as [|c rest] eqn:C; [done|]; cbn in E.
  destruct (commands (main s)) as [|[data|g] q]; [done|..]; cbn in E; [|destruct (g =? conn_generation c)]; injection E as <-;
    (eapply inv_quiet; [| | | | | | |exact I]; try reflexivity; repeat split; cbn; auto).
Qed.

Lemma closed_quiet now g m : quiet (clear_generation_if_current g m).2 (connection_closed now g m).
Proof.
  unfold connection_closed; destruct (clear_generation_if_current g m) as [cleared m']; cbn.
  destruct (_ && _); [apply record_quiet|reflexivity].
Qed.

Lemma inv_closed now s s' : exec (ConnectionClosed now) s = Some s' -> inv s -> inv s'.
Proof.
  intros E [It Il Ic]; cbn [exec] in E; destruct (connections s) as [|c rest] eqn:C; [done|]; cbn [mbind option_bind head] in E.
  pose proof (clear_generation_quiet (conn_generation c) (main s)) as Q.
  assert (Hs : state (clear_generation_if_current (conn_generation c) (main s)).2 <> Ready).
  { unfold clear_generation_if_current; intros X; destruct (Z.eqb_spec (conn_generation c) 0) as [Z|Z]; cbn in X;
      [|destruct (Z.eqb_spec (generation (main s)) (conn_generation c)) as [E'|E']; cbn in X; [done|]];
      destruct (inv_ready _ _ _ _ Il X) as [? (c' & r & Ec & ?)]; injection Ec as <- <-; congruence. }
  injection E as <-; destruct (closed_quiet now (conn_generation c) (main s)) as [K' O']; destruct Q as [K O]; eapply inv_intro; [reflexivity| | |].
  - eapply token_inv_keeps; [exact K'|]; by eapply token_inv_keeps.
  - eapply life_inv_stops; [exact O'|]; eapply (life_inv_stops _ _ _ _ _ O) in Il; destruct Il as [G R S]; split; [done|done|exact S].
  - cbn; rewrite C; by apply Forall_inv_tail in Ic.
Qed.

Lemma inv_step s e s' : step s e s' -> inv s -> inv s'.
Proof.
  intros [Ord E] I; destruct e; cbn [orderly] in Ord.
  { by eapply inv_begin. }
  { by eapply inv_clear. }
  { by eapply inv_create. }
  { by eapply inv_set_token. }
  { by eapply inv_spawn. }
  { cbn in E; destruct (existsb _ _); [|done]; injection E as <-; destruct I as [It Il Ic].
    destruct (timeout_quiet now g (main s)) as [K O]; split; [by eapply token_inv_keeps| |done].
    pose proof (life_inv_stops _ _ _ _ _ O Il) as [G R S]; split; [done|done|]; cbn; intros X; destruct (S X) as [?|[due Hd]]; [by left|right].
    exists due; apply list_elem_of_In, filter_In; split; [by apply list_elem_of_In|]; apply negb_true_iff, Z.eqb_neq; intros Eg.
    destruct O as (Og & _ & Os); revert X; unfold starting_timeout; rewrite <- Eg, Og, Z.eqb_refl; cbn [andb].
    destruct (bool_decide_reflect (state (main s) = Starting)); [by destruct (_ =? _)|done]. }
  { by eapply inv_present. }
  { by eapply inv_answer. }
  { by eapply inv_pong. }
  { by eapply inv_take. }
  { by eapply inv_closed. }
  all: cbn in E; injection E as <-; try by apply inv_drop.
  all: (apply (inv_quiet s); [|reflexivity..|exact I]).
  all: first [ exact (stop_quiet _) | exact (restart_quiet _ _ _) | exact (first_frame_quiet _ _) | exact (reset_quiet _)
             | exact (recovery_quiet _ _) | exact (input_quiet _ _) | exact (arm_quiet _ _ _ _) ].
Qed.

Lemma reachable_inv s : reachable s -> inv s.
Proof. apply invariant_reachable; [by intros ? ->; apply inv_init|]; intros; by eapply inv_step. Qed.

(** ** What holds of the running system *)

(** C27. A helper that counts as ready is on the connection that holds the queue of
    commands, and it presented the one token that was made for the launch. *)
Theorem ready_helper_has_its_token s : reachable s -> state (main s) = Ready ->
  exists c rest, connections s = c :: rest /\ conn_generation c = generation (main s) /\ generation (main s) <> 0 /\
    (exists i, i ∈ issued s /\ issue_generation i = generation (main s)) /\
    forall i, i ∈ issued s -> issue_generation i = generation (main s) -> presented c = issue_token i.
Proof.
  intros Rs X; pose proof (reachable_inv s Rs) as [It Il Ic].
  destruct (inv_ready _ _ _ _ Il X) as [Hg (c & rest & C & E)]; exists c, rest; split_and!; [done..| |].
  all: assert (Hc : c ∈ admitted s) by (rewrite Forall_forall in Ic; apply Ic; rewrite C; left).
  all: pose proof (inv_admitted _ _ _ _ _ It) as A; rewrite Forall_forall in A; destruct (A c Hc) as [n Hn].
  - eexists; split; [exact Hn|exact E].
  - intros i Hi Ei; apply list_elem_of_lookup in Hn as [j Hj], Hi as [k Hk].
    assert (j = k) as ->.
    { apply (NoDup_lookup _ j k (conn_generation c) (inv_generations _ _ _ _ _ It)); rewrite list_lookup_fmap, ?Hj, ?Hk; cbn; congruence. }
    rewrite Hj in Hk; by injection Hk as <-.
Qed.

(** A launch is answered by at most one helper. *)
Theorem one_helper_per_launch s : reachable s -> NoDup (conn_generation <$> admitted s).
Proof. intros Rs; apply reachable_inv in Rs as [It _ _]; apply (inv_once _ _ _ _ _ It). Qed.

(** A start ends: once no launch is under way, its timer is set, and stops the helper
    that is then still not ready. *)
Theorem starting_ends s : reachable s -> state (main s) = Starting -> launches s = [] ->
  exists due, (generation (main s), due) ∈ timers s /\ forall now, due <= now ->
    exists s', exec (StartupTimeout (generation (main s)) now) s = Some s' /\ state (main s') = Stopped.
Proof.
  intros Rs X L; apply reachable_inv in Rs as [_ Il _]; destruct (inv_starting _ _ _ _ Il X) as [(l & Hl & _)|[due Hd]].
  { rewrite L in Hl; by apply elem_of_nil in Hl. }
  exists due; split; [done|]; intros now Hn; cbn [exec].
  rewrite (proj2 (existsb_exists _ _)); [eexists; split; [reflexivity|]|].
  - cbn; unfold starting_timeout; rewrite Z.eqb_refl, bool_decide_eq_true_2 by done; cbn [andb]; by destruct (_ =? _).
  - exists (generation (main s), due); split; [by apply list_elem_of_In|]; cbn; rewrite Z.eqb_refl; by apply Z.leb_le.
Qed.

(** What comes late for a generation that is over changes nothing. *)
Theorem stale_generations_change_nothing g now m : g <> generation m ->
  mark_generation_ready g m = (false, m) /\ clear_generation_if_current g m = (false, m) /\
  request_secure_capture_restart now g m = (false, m) /\ starting_timeout now g m = m.
Proof.
  intros N; assert (E : (generation m =? g) = false) by (apply Z.eqb_neq; congruence).
  assert (C : clear_generation_if_current g m = (false, m)) by (unfold clear_generation_if_current; rewrite E; by destruct (g =? 0)).
  split_and!; [|done|by unfold request_secure_capture_restart; rewrite C|by unfold starting_timeout; rewrite E].
  unfold mark_generation_ready; rewrite E; by destruct (g =? 0).
Qed.

(** Input reaches the queue of the helper only while one is ready that was started to
    take it. *)
Theorem input_goes_to_a_ready_helper data sent m m' : handle_input data sent m = (ByHelper, m') ->
  state m = Ready /\ input_via_helper m = true /\ commands m' = commands m ++ [Send data].
Proof.
  unfold handle_input, routes_input_via_helper, running; destruct (bool_decide_reflect (state m = Ready)); [|done].
  destruct (input_via_helper m); [|done]; destruct sent; [|done]; by intros [= <-].
Qed.

(** After three failures secure capture is tried again only 15 seconds after the last
    one, and then one more failure makes it wait again. *)
Theorem recovery_is_limited now m allowed m' : secure_capture_recovery_allowed now m = (allowed, m') ->
  (allowed = true <-> recovery_failures m < 3 \/
     exists last, last_recovery_failure m = Some last /\ SECURE_CAPTURE_RECOVERY_BACKOFF <= since now last) /\
  (allowed = true -> recovery_failures m' <= 2) /\ (allowed = false -> m' = m).
Proof.
  unfold secure_capture_recovery_allowed, recovery_allowed, MAX_SECURE_CAPTURE_RECOVERY_FAILURES; intros [= <- <-].
  set (b := is_some_and _ _); assert (Hb : b = true <-> exists last, last_recovery_failure m = Some last /\
      SECURE_CAPTURE_RECOVERY_BACKOFF <= since now last).
  { unfold b; destruct (last_recovery_failure m) as [last|]; cbn; [rewrite Z.leb_le|]; naive_solver. }
  split; [by rewrite orb_true_iff, Z.ltb_lt, Hb|]; clearbody b; clear Hb.
  destruct (Z.ltb_spec (recovery_failures m) 3), (Z.leb_spec 3 (recovery_failures m)), b; cbn; (split; intros; try done; lia).
Qed.

(** ** The capturer *)

Lemma poke_length addr data b : length (poke addr data b) = length b.
Proof. unfold poke; destruct (write addr data b) eqn:W; [by eapply write_length|done]. Qed.

Lemma find_frame_slice w h b addr len b' : find_frame w h b = Some (Slice addr len, b') ->
  (0 < len)%nat /\ (addr + len <= length b')%nat.
Proof.
  unfold find_frame; destruct (counter_ready _ b) as [[ready b1]|]; [|done]; cbn [mbind option_bind].
  destruct ready; cbn [negb]; [|done]; destruct (is_valid_capture_frame_length _ _) eqn:V; cbn [negb]; [|done].
  destruct (_ || _); [done|]; intros [= <- <- <-]; unfold is_valid_capture_frame_length in V.
  apply andb_true_iff in V as [V1%Nat.ltb_lt V2%Nat.leb_le].
  split; [exact V1|]; change (of_le (read ADDR_CAPTURE_FRAME_INFO 8 b1)) with (frame_len (read_frame_info b1)); lia.
Qed.

(** A frame is found only by a capturer of the generation that is ready, and lies
    inside the memory. *)
Theorem frames_are_of_the_ready_generation t now c m addr len c' m' :
  capturer_frame t now c m = (inr (Slice addr len), c', m') ->
  state m = Ready /\ generation m = cap_generation c /\ (0 < len)%nat /\
  exists b, shmem m' = Some b /\ (addr + len <= length b)%nat.
Proof.
  unfold capturer_frame; destruct (bool_decide_reflect (ready_generation m = Some (cap_generation c))) as [Rg|]; cbn [negb]; [|done].
  destruct (shmem m) as [b|]; [|done].
  set (b1 := if _ =? _ then b else _); destruct (find_frame (cap_width c) (cap_height c) b1) as [[f b2]|] eqn:F; cbn [default].
  - destruct f; try done; [|by destruct (first_frame_timed_out _ _ _)]; intros E; injection E as -> -> _ <-.
    destruct (find_frame_slice _ _ _ _ _ _ F); unfold ready_generation in Rg; case_bool_decide; [|done]; injection Rg as Rg.
    split_and!; [done..|]; exists b2; split; [|done]; destruct (first_frame_received c); [done|].
    unfold mark_secure_capture_first_frame; by destruct (negb _).
  - by destruct (first_frame_timed_out _ _ _).
Qed.

(** A capturer that has waited five seconds for its first frame gives up the helper: it
    is stopped and told to exit, and the failure is counted. *)
Theorem first_frame_or_restart t now c m b b1 :
  ready_generation m = Some (cap_generation c) -> cap_generation c <> 0 -> shmem m = Some b -> first_frame_received c = false ->
  PORTABLE_SERVICE_FIRST_FRAME_TIMEOUT <= since now (started_at c) ->
  find_frame (cap_width c) (cap_height c) (if t =? timeout_ms (read_para b) then b
    else poke ADDR_CAPTURER_PARA (para_bytes {| recreate := recreate (read_para b); current_display := current_display (read_para b);
                                                timeout_ms := t |}) b) = Some (NoFrame, b1) ->
  exists m', capturer_frame t now c m = (inl TimedOut, c, m') /\ state m' = Stopped /\
    recovery_failures m' = recovery_failures m + 1 /\ commands m' = commands m ++ [ShutdownGeneration (cap_generation c)].
Proof.
  intros Rg Hg S F T N; unfold capturer_frame; rewrite Rg, bool_decide_eq_true_2, S, N by done; cbn [negb default].
  unfold first_frame_timed_out; rewrite F, (proj2 (Z.leb_le _ _) T); cbn [negb andb]; eexists; split; [reflexivity|].
  unfold ready_generation in Rg; case_bool_decide; [|done]; injection Rg as Rg.
  unfold request_secure_capture_restart, clear_generation_if_current; cbn; rewrite Rg, Z.eqb_refl, (proj2 (Z.eqb_neq _ _) Hg); done.
Qed.

(** ** A helper in front *)

(** The connection that holds the queue keeps the ones behind it from counting as
    ready: however the system goes on, no launch becomes ready before it ends. *)
Definition in_front (c : Connection) (s : System) : Prop :=
  (exists rest, connections s = c :: rest) /\ state (main s) <> Ready /\ conn_generation c <= next_generation (main s) /\
  (conn_generation c = generation (main s) -> state (main s) = Stopped).

Lemma front_stops c s s' more : only_stops (main s) (main s') -> connections s' = connections s ++ more -> in_front c s -> in_front c s'.
Proof.
  intros (G & N & O) C ((rest & E) & R & L & S); unfold in_front; rewrite C, E, G, N; split_and!; [cbn; eauto| |done|].
  - destruct O; congruence.
  - intros X; specialize (S X); destruct O; congruence.
Qed.
Lemma front_same c s s' : only_stops (main s) (main s') -> connections s' = connections s -> in_front c s -> in_front c s'.
Proof. intros O C; apply (front_stops c s s' []); [done|by rewrite app_nil_r]. Qed.

Lemma fail_stops g s : only_stops (main s) (main (fail_launch g s)).
Proof. apply (clear_generation_quiet g (main s)). Qed.
Lemma clear_stops m : only_stops m (clear_runtime_shmem_state m).
Proof. repeat split; by left. Qed.
Lemma create_stops p g c m : only_stops m (create_memory p g c m).2.
Proof.
  unfold create_memory; destruct c; [|apply only_stops_refl]; destruct (negb _); [apply only_stops_refl|].
  destruct (write_ipc_token_to_shmem _ _); repeat split; by left.
Qed.
Lemma consume_stops t m : only_stops m (consume_runtime_ipc_token_if_match t m).2.
Proof. unfold consume_runtime_ipc_token_if_match; destruct (is_some_and _ _); repeat split; by left. Qed.

Lemma front_step c e s s' : (forall now, e <> ConnectionClosed now) -> exec e s = Some s' -> in_front c s -> in_front c s'.
Proof.
  intros Ne E F; destruct e; cbn [exec] in E; try (by destruct (Ne now)); try (destruct (find_launch g s) as [l|]; [|done]; cbn [mbind option_bind] in E; destruct (stage l); try done).
  - destruct (begin_start has_running_process (main s)) as [[g m]|] eqn:B; injection E as <-; [|done].
    destruct F as ((rest & C) & R & L & S); unfold begin_start in B; destruct (negb _); [done|]; injection B as <- <-.
    split_and!; cbn; [eauto|done| |]; destruct (bool_decide _ && _); cbn in *; lia.
  - injection E as <-; by apply (front_same c s); [apply clear_stops|..].
  - pose proof (create_stops (para l) g c0 (main s)) as O; destruct (create_memory (para l) g c0 (main s)) as [[t|] m]; cbn [snd] in O; destruct c0; injection E as <-;
      (apply (front_same c s); [| |exact F]; [|done]); try exact O; (eapply only_stops_trans; [exact O|exact (fail_stops g (s <| main := m |>))]).
  - injection E as <-; apply (front_same c s); [| |exact F]; [repeat split; by left|done].
  - destruct outcome as [|[]]; injection E as <-; (apply (front_same c s); [| |exact F]; [|done]); [repeat split; by left| |apply fail_stops].
    eapply only_stops_trans; [exact (clear_stops (main s))|]; match goal with |- only_stops _ (main (fail_launch _ ?x)) => exact (fail_stops g x) end.
  - destruct (existsb _ _); [|done]; injection E as <-; apply (front_same c s); [| |exact F]; [apply timeout_quiet|done].
  - destruct (handshake s); [done|]; pose proof (consume_stops candidate (main s)) as O.
    destruct (consume_runtime_ipc_token_if_match candidate (main s)) as [[[n g]|] m]; injection E as <-; [|done].
    apply (front_same c s); [exact O|done|exact F].
  - destruct (handshake s) as [h|]; [|done]; cbn [mbind option_bind] in E; destruct sent.
    + destruct (consumed_generation h); injection E as <-; [eapply (front_stops c s); [|reflexivity|exact F]|apply (front_same c s); [|reflexivity|exact F]]; apply only_stops_refl.
    + injection E as <-; apply (front_same c s); [|reflexivity|exact F]; cbn.
      destruct (restore_spec (consumed_token h) (consumed_shmem_name h) (main s)) as [O _].
      destruct (consumed_generation h); [eapply only_stops_trans; [exact O|apply clear_generation_quiet]|exact O].
  - destruct F as ((rest & C) & R & L & S); rewrite C in E; injection E as <-; unfold in_front; cbn; rewrite C.
    assert (M : (mark_generation_ready (conn_generation c) (main s)).2 = main s).
    { unfold mark_generation_ready; destruct (Z.eqb_spec (conn_generation c) 0), (Z.eqb_spec (generation (main s)) (conn_generation c)) as [G|G]; try done.
      by rewrite S, bool_decide_eq_false_2 by congruence. }
    rewrite M; split_and!; [eauto|done..].
  - destruct (connections s) as [|c' rest] eqn:C; [done|]; destruct (commands (main s)) as [|[data|g] q]; [done|..]; cbn in E;
      [|destruct (g =? conn_generation c')]; injection E as <-; (apply (front_same c s); [| |exact F]; [repeat split; by left|done]).
  - injection E as <-; apply (front_same c s); [apply stop_quiet|done|exact F].
  - injection E as <-; apply (front_same c s); [apply restart_quiet|done|exact F].
  - injection E as <-; apply (front_same c s); [apply first_frame_quiet|done|exact F].
  - injection E as <-; apply (front_same c s); [apply reset_quiet|done|exact F].
  - injection E as <-; apply (front_same c s); [apply recovery_quiet|done|exact F].
  - injection E as <-; apply (front_same c s); [apply input_quiet|done|exact F].
  - injection E as <-; apply (front_same c s); [apply arm_quiet|done|exact F].
  - injection E as <-; apply (front_same c s); [apply clear_stops|done|exact F].
Qed.

(** A helper that is connected but whose launch is over bars every later launch for as
    long as it stays: the connection it holds is the only one that is served. *)
Theorem late_helper_bars_the_next c es s s' : in_front c s ->
  Forall (fun e => forall now, e <> ConnectionClosed now) es -> exec_all es s = Some s' -> state (main s') <> Ready.
Proof.
  intros F Hes; revert s F; induction Hes as [|e es Ne _ IH]; cbn; intros s F E; [injection E as <-; apply F|].
  destruct (exec e s) as [s1|] eqn:E1; [|done]; eapply IH; [|exact E]; by eapply front_step.
Qed.
End Service.

(** ** Runs *)

Definition launch_creation (name : string) (b : Z) : Creation := {| shmem_name := name; wanted_size := 0; random_bytes := repeat b 32 |}.
Definition token_of (b : Z) : string := generate_one_time_ipc_token (repeat b 32).
Definition launch_events (p : StartPara) (g : Z) (name : string) (b : Z) (now : instant) : list (@Event nat) :=
  [BeginStart p false; ClearMemory g; CreateMemory g (Some (launch_creation name b)); SetToken g; Spawn g now Spawned].

(** The first helper of a service. *)
Definition first_helper : list (@Event nat) := launch_events SecureDesktop 1 "first" 1 0 ++ [Present (token_of 1); Answer true; Pong].


(** Decides whether a run is orderly, and gives where it leads. *)
Definition orderlyb (e : @Event nat) (s : @System nat) : bool :=
  match e with
  | BeginStart _ _ => bool_decide (length (launches s) = 0%nat)
  | CreateMemory _ (Some c) => bool_decide (shmem_name c ∉ issue_name <$> issued s)
  | _ => true
  end.
Fixpoint orderly_run (es : list (@Event nat)) (s : @System nat) : option (@System nat) :=
  match es with
  | [] => Some s
  | e :: es => if orderlyb e s then s ← exec e s; orderly_run es s else None
  end.

Lemma orderly_run_reachable es s s' : reachable init step s -> orderly_run es s = Some s' -> reachable init step s'.
Proof.
  revert s; induction es as [|e es IH]; cbn; intros s R E; [by injection E as <-|].
  destruct (orderlyb e s) eqn:O; [|done]; destruct (exec e s) as [s1|] eqn:E1; [|done]; eapply IH; [|exact E].
  eapply reachable_step; [exact R|]; split; [|exact E1]; destruct e; cbn in *; try done.
  - apply bool_decide_eq_true in O; by destruct (launches s).
  - destruct c; [by apply bool_decide_eq_true in O|done].
Qed.
Lemma init_reachable : reachable init (@step nat) system_default.
Proof. by apply reachable_init. Qed.


Theorem ready_helper_has_its_token_witness :
  match orderly_run first_helper system_default with
  | Some s => state (main s) = Ready /\ exists c rest, connections s = c :: rest /\ conn_generation c = generation (main s) /\
      generation (main s) <> 0 /\ (exists i, i ∈ issued s /\ issue_generation i = generation (main s)) /\
      forall i, i ∈ issued s -> issue_generation i = generation (main s) -> presented c = issue_token i
  | None => False
  end.
Proof.
  assert (H : (fun s => state (main s)) <$> orderly_run first_helper system_default = Some Ready) by (vm_compute; reflexivity).
  destruct (orderly_run first_helper system_default) as [s|] eqn:E; [|discriminate H]; injection H as H.
  split; [exact H|]; apply (ready_helper_has_its_token s); [|exact H].
  apply (orderly_run_reachable first_helper system_default); [exact init_reachable|exact E].
Defined.

(** *** What goes wrong *)

(** A helper that comes after its start timed out is still let in, for the token was not
    withdrawn; the next launch then fails though its helper came in time. *)
Definition late_helper : list (@Event nat) :=
  launch_events SecureDesktop 1 "first" 1 0 ++ [StartupTimeout 1 (from_secs 15); Present (token_of 1); Answer true] ++
  launch_events SecureDesktop 2 "second" 2 (from_secs 20) ++ [Present (token_of 2); Answer true].

Theorem token_outlives_its_start :
  exists s, orderly_run late_helper system_default = Some s /\ reachable init step s /\
    (conn_generation <$> connections s) = [1; 2] /\ state (main s) = Starting /\ generation (main s) = 2 /\
    forall es s', Forall (fun e => forall now, e <> ConnectionClosed now) es -> exec_all es s = Some s' -> state (main s') <> Ready.
Proof.
  assert (H : (fun s => (conn_generation <$> connections s, state (main s), generation (main s), next_generation (main s))) <$>
    orderly_run late_helper system_default = Some ([1; 2], Starting, 2, 2)) by (vm_compute; reflexivity).
  destruct (orderly_run late_helper system_default) as [s|] eqn:E; [|discriminate H]; injection H as C X G N; exists s; split; [done|].
  split; [exact (orderly_run_reachable _ _ _ init_reachable E)|].
  split_and!; [done..|]; intros es s' Hes Es.
  destruct (connections s) as [|c rest] eqn:Cs; [done|]; injection C as C1 C2.
  eapply (late_helper_bars_the_next c es s s'); [|exact Hes|exact Es].
  unfold in_front; rewrite C1, X, G, N; split_and!; [eauto|done|lia|lia].
Qed.

(** When the answer of the handshake cannot be sent, the token is put back and the launch
    is stopped at once: whoever presents the token then is let in, and never ready. *)
Theorem restored_token_is_of_no_use :
  match orderly_run (launch_events ElevatedDirect 1 "first" 1 0 ++ [Present (token_of 1); Answer false]) system_default with
  | Some s => ipc_runtime_token (main s) = Some (token_of 1) /\ state (main s) = Stopped /\
      match orderly_run [Present (token_of 1); Answer true; Pong] s with
      | Some s' => (conn_generation <$> connections s') = [1] /\ state (main s') = Stopped
      | None => False
      end
  | None => False
  end.
Proof. vm_compute; done. Qed.

(** Two launches under way at once, the first taken for dead: the token of the first
    makes the second ready. *)
Definition overlapping : list (@Event nat) :=
  [BeginStart Direct false; ClearMemory 1; CreateMemory 1 (Some (launch_creation "first" 1))] ++
  firstn 4 (launch_events ElevatedDirect 2 "second" 2 0) ++ [SetToken 1; Present (token_of 1); Answer true; Pong].
Theorem overlapping_launches_mix_tokens :
  match exec_all overlapping (@system_default nat) with
  | Some s => state (main s) = Ready /\ generation (main s) = 2 /\ (presented <$> connections s) = [token_of 1] /\
      issue_token <$> issued s = [token_of 1; token_of 2]
  | None => False
  end.
Proof. vm_compute; done. Qed.

(** Input queued for a helper that went away is given to the next one. *)
Definition stale_input : list (@Event nat) :=
  launch_events ElevatedDirect 1 "first" 1 0 ++ [Present (token_of 1); Answer true; Pong; Input 7%nat; ConnectionClosed 0] ++
  launch_events SecureDesktop 2 "second" 2 0 ++ [Present (token_of 2); Answer true; TakeCommand].
Theorem input_reaches_the_next_helper :
  match orderly_run stale_input system_default with Some s => delivered s = [Delivered 2 7%nat] | None => False end.
Proof. vm_compute; done. Qed.
